(* ===== verification/_CoqProject ===== *)
-Q . S2P
Prelude.v
NativeStore.v
Schema.v
Roles.v
Users.v
Json.v
Network.v
Invariants.v
Samples.v
Sessions.v
Sends.v
TwoFactors.v
OneTimeCodes.v
Memberships.v
Groups.v
Collections.v
VaultItems.v
Ciphers.v
Access.v
SyncAccess.v
CollectionAccess.v
Guards.v
Policies.v
EmergencyRows.v
Organizations.v
Deletion.v
Erasure.v
Emergency.v
OrgJson.v
EventLog.v
Members.v
Accounts.v
Tokens.v
Downloads.v
Administration.v
SingleSignOn.v
Identity.v
Vault.v
OrgCollections.v
OrgListings.v
SendRequests.v
KeyRotation.v
SecondFactors.v
Passkeys.v
Configuration.v
Icons.v
IconSafety.v
VaultAccess.v
Quotas.v
SendAccess.v
Rotation.v
Authentication.v
Logins.v
FactorSafety.v
KeyLogins.v
DuoFlow.v
Notifications.v
Settings.v
Rosters.v
Owners.v
CollectionControl.v
GrantIntegrity.v
MemberGrants.v
Contracts.v
Histories.v
