(* ===== verification/Prelude.v ===== *)
(** * Verification of the GoreeCloud vault server

    The program is a password-vault server (a Rocket application over a SQL
    database, under src/src) with a small native crate (src/native). This
    library models its data, its row operations and most of its request
    handlers as executable definitions, and proves what makes them correct.

    ** How the program is put together

    Every request handler (src/src/api) authenticates the caller, loads rows
    through the models (src/src/db/models), decides, and writes rows back.
    Models call each other: deleting a cipher deletes its attachments, changing
    a grant bumps the revision date of the accounts that see it. Nothing runs in
    a transaction: a statement that fails leaves the effect of the ones before
    it. Background jobs run between requests. The native crate keeps encrypted
    records per owner in memory and refuses to run in production.

    ** How it is modelled

    - The database is one record of finite maps from primary keys to rows,
      [Schema.DB]; rows are records with the fields of the Rust structs
      ([Schema.User.t] is [struct User]). Integers are [Z] with their range
      written out where the code depends on it; instants are microseconds.
    - A handler is a program of the monad [M]: it threads the database and stops
      at the first error, keeping the state reached so far. [err], [?], [.ok()]
      and [for] have counterparts ([err], [lift], [ignore], [for_each]); a
      failed [expect] is an error with status 500.
    - A Diesel query is a list program over the rows of its tables with the same
      combinators ([where_], [inner_join], [left_join]). An UPDATE or DELETE is
      one step. Foreign keys are the checks of [save_row] and [delete_row],
      taken from src/migrations.
    - What is not under src/ is a parameter: configuration, clock, mail and
      object store are the class [Schema.Env]; key derivation is [Users.Crypto];
      JSON and base32 encodings and the TOTP hash are [OneTimeCodes.Codecs] and
      [OneTimeCodes.Totp]; what the jsonwebtoken crate verifies is
      [Guards.LoginTokens], [Tokens.SessionTokens], [Accounts.AccountTokens],
      [Members.OrgInviteTokens] and [Emergency.InviteTokens]; the date range of
      chrono is [Emergency.Chrono]; the push relay, the identity provider and the
      checks of Duo, WebAuthn and YubiKey codes are [Accounts.PushRelay],
      [SingleSignOn.IdentityProvider] and [Identity.FactorProviders]; the JSON
      reader and printer are [Json.JsonText]; the signatures of the tokens in links
      are [Downloads.Jwt] with the laws [Downloads.JwtLaws], the object store and
      the printing of sizes [Downloads.FileStore]; limits and dates of ciphers and
      of Sends are [Vault.VaultConfig] and [SendRequests.SendConfig], the settings
      of organizations [OrgJson.OrgConfig]; URLs, regular expressions, name
      servers and networks are [Network.NetCrates] and [Network.IpNets]; dates in
      the event log are [EventLog.EventConfig]; the services of Duo and Yubico
      are [SecondFactors.FactorServices] with the laws [FactorSafety.DuoLaws];
      the features of the build, the crates and the files that the configuration
      needs are [Configuration.BuildFeatures], [Configuration.ConfigCrates] and
      [Configuration.ConfigStore]; the settings of the administrator's pages and
      Argon2 are [Administration.AdminConfig], with [Administration.JwtRefusals]
      for tokens that are refused; the webauthn crate and the JSON form of its
      types are [Passkeys.WebauthnCrate] and [Passkeys.WebauthnCodecs] with the
      laws [KeyLogins.WebauthnLaws], the service of Duo as an identity provider is
      [DuoFlow.DuoOidc], and the encoder of notifications is
      [Notifications.NotifyConfig]; the HTML tokenizer, the HTTP client, URLs and
      the SVG filter of the icons are [Icons.IconCrates], their settings and files
      [Icons.IconConfig] and [Icons.IconStore]. Random values are arguments. Laws
      that are assumed of a parameter are fields of its class and are instantiated
      for the witnesses.

    ** Files

    - [Prelude]: results, the monad and its rules, queries, automation.
    - [NativeStore]: src/native/src (records.rs, readiness.rs, main.rs).
    - [Schema]: tables, rows, configuration, statements, well-formedness [wf].
    - [Roles]: membership types and states of organization.rs.
    - [Users]: user.rs, device.rs, the password functions of crypto.rs.
    - [Invariants], [Samples]: database invariants with executable checkers, and
      a concrete deployment on which hypotheses are discharged.
    - [Sessions]: theorems on refresh tokens, stamps and passwords.
    - [Sends]: send.rs. [TwoFactors]: two_factor.rs, two_factor_incomplete.rs,
      auth_request.rs. [OneTimeCodes]: the code checks of api/core/two_factor.
    - [Memberships], [Groups], [Collections], [VaultItems], [Ciphers]:
      organization.rs, group.rs, collection.rs, the models of folders,
      attachments, favorites and archives, and cipher.rs with the cache
      [CipherSyncData] of api/core/ciphers.rs.
    - [Access], [SyncAccess], [CollectionAccess]: theorems on who may see and
      change a cipher, and open a collection.
    - [Policies]: org_policy.rs. [EmergencyRows]: emergency_access.rs (model).
    - [Organizations]: organizations, API keys and deletion of members,
      organizations and accounts. [Deletion], [Erasure]: its theorems.
    - [Guards]: the request guards of auth.rs. [Members]: the handlers on members,
      policies, account recovery and the directory import of
      api/core/organizations.rs, public.rs and admin.rs. [Rosters]: the members
      of organizations as a state machine that these handlers follow; [Owners]:
      its theorems on requests and histories of requests.
    - [OrgJson]: what clients are shown of organizations, members, groups,
      collections and policies. [OrgCollections]: the handlers of
      api/core/organizations.rs on collections and groups, and the import.
      [OrgListings]: its settings, keys, listings and export. [CollectionControl],
      [GrantIntegrity], [MemberGrants]: theorems on who changes a collection and on
      its grants.
    - [Accounts]: api/core/accounts.rs. [Tokens]: the claims of tokens, auth.rs.
      [SingleSignOn]: sso.rs, sso_client.rs and sso_auth.rs. [Identity]: the
      token endpoint of api/identity.rs, access to Sends (auth/send.rs) and the
      requests of api/admin.rs on accounts. [Authentication], [Logins]: theorems
      on who passes the guards and who is logged in.
    - [KeyRotation]: the rotation of account keys in accounts.rs; [Rotation]: its
      theorems. [EventLog]: api/core/events.rs and event.rs, with their theorems.
      [SecondFactors]: the handlers of api/core/two_factor on authenticators,
      e-mail, YubiKey and Duo; [Passkeys]: those on security keys (webauthn.rs);
      [FactorSafety], [KeyLogins]: their theorems. [DuoFlow]: duo_oidc.rs and
      two_factor_duo_context.rs, with their theorems.
    - [Notifications]: api/notifications.rs and the sending half of api/push.rs,
      with their theorems.
    - [Administration]: the login, the guard and the listings of api/admin.rs,
      with their theorems. [Configuration]: config.rs and storage.rs, the settings
      and their validation; [Settings]: its theorems.
    - [Icons]: api/icons.rs, the icons of web sites and their cache, and the
      wrapper [Cached] of util.rs; [IconSafety]: its theorems.
    - [Json]: the JSON helpers of util.rs and the data inside a cipher, as
      cipher.rs renders it. [Vault]: the handlers of api/core/ciphers.rs and
      folders.rs. [VaultAccess]: its theorems on who changes which cipher;
      [Quotas]: the storage limits of attachments.
    - [Downloads]: the links to files and the routes that open them (auth.rs,
      auth/send.rs, attachment.rs, sends.rs, web.rs), with their theorem.
      [SendRequests]: the handlers of api/core/sends.rs and the rendering and
      sizes of send.rs. [SendAccess]: its theorems on who opens and who changes
      a Send and how much an account may store.
    - [Network]: http_client.rs, the global addresses and retry loops of util.rs,
      and the address of the client in auth.rs, with their theorems.
    - [Emergency]: the handlers and jobs of api/core/emergency_access.rs.
      [Contracts], [Histories]: the contract as a state machine, the proof that
      the handlers refine it, and what follows for every history.

    ** What the theorems show

    - Access control: a confirmed member may open exactly the ciphers of its
      organization that its listing shows, and as an administrator or owner all of
      them, apart from ciphers that are shared with a group of another
      organization, which consistent data do not have; and the restrictions
      computed from the sync cache are those computed by queries, up to the
      mixed sharing that is characterised exactly; the same agreement holds for
      collections. The order of roles is lawful
      and comparisons with stored numbers fail closed.
    - Sessions and codes: a refresh token rotates once, a reset ends all
      sessions, a new password takes effect; TOTP steps only increase in
      sequence, guesses of e-mail codes are bounded, accesses of a Send are
      counted exactly under concurrency.
    - Logins: the guard admits exactly the live sessions; a password login needs
      the password or an approved login request, and a second factor; single
      sign-on opens only accounts that are linked to the identity or have its
      address, on the conditions that the settings give; the token of a
      login opens the guard; a disabled account is locked out of all of them.
    - Second factors: in every history, requests without the password or a valid
      code of an account leave its factors alone; an answer of Duo is accepted.
      A challenge for a security key is answered at most once, by a key of the
      account; a new key is listed and can be removed. A code of Duo as an identity
      provider is accepted only for a flow of the account that was started before,
      and once.
    - Notifications: a stream of messages is cut into the same messages again; a
      connection has been handed, has waiting in its channel of a hundred messages
      or is still owed by deliveries under way what was sent to its account or for
      its login request, and nothing else; clients without an account share the
      places of their address; the push relay is never sent a stale token.
    - Rotation: a successful one stores every key of the account as the request
      gives it and nothing else.
    - Event log: what clients report names them as the actor; an administrator who
      follows the pages reads the whole log.
    - Configuration: in every history of changes the settings that are neither
      editable nor derived stay, two apart, and the running ones were validated;
      saved settings are read back; the report for support hides
      passwords and addresses; validated settings are in the ranges that the
      handlers need.
    - Administration: its pages need a login with the token and no logout since,
      and a login opens them until the session ends.
    - Members: every request changes memberships only by steps that its sender
      is entitled to, on every path; organizations keep an owner, administrators
      cannot promote, nobody joins without an administrator, and stored roles
      and states stay valid, in every history.
    - Collections: no sequence of requests of an account changes a collection
      that the account does not manage; grants go to members and groups of the
      organization of the collection, in every history of requests on collections,
      groups, members and accounts; a change of a collection leaves exactly the
      grants it lists.
    - Vaults: no sequence of requests of an account changes a cipher that the
      account cannot write; a share moves the cipher and links the collections;
      accepted uploads stay within the storage limits; what is rendered of a
      cipher has the types that the clients need, whatever is stored.
    - Sends: they open within their dates, their limit and with their password
      only, and count each access once, where the routes with a token check the
      dates and leave the rest to the issue of the token; others cannot change them; a new link
      opens what it was made for; accepted files stay within the storage limit;
      a link to a file opens that file and no other.
    - Network: global addresses are those outside a table of special blocks;
      outgoing requests of clients that enforce the filter reach only addresses
      that pass it, with the cached expression as with a fresh one; a client cannot choose the address
      that is recorded for it; the retry loops return, except one that is meant
      to go on.
    - Icons: requests for icons ask only for addresses that pass the filter, and
      nine times at most; what is served is an image; a downloaded icon is kept for
      its time to live; the emitter lets through only the tags of icons.
    - Policies: when a policy binds, and that the check on joining is sound.
    - Deletion: deleting an organization (whose events stay in the log) or an
      account is complete, removes nothing else, and never leaves an organization without an owner.
    - Emergency access: the handlers and jobs refine a state machine; in every
      history access needs a request and a decision; the timeout job is live.
    - The native store refines one finite map and isolates owners.
    - Behaviour that is not what the code intends is stated as theorems as well:
      access left after revoking, differing restrictions, deletions that stop
      half way, a job that one contract blocks, replay races, the empty e-mail
      code, an invitation whose failure deletes an account, a failed share that
      leaves the cipher exposed, a filter that excludes nothing, an announced
      attachment that blocks every vault that shows it, files that do not count
      against the limit of Sends, a rotation that stops half way, events that the
      pages skip, an authenticator that is not replaced, a factor that is dropped
      before its successor is verified, settings that are not validated or lost, a
      last security key whose removal blocks the login, a client that does not
      read and stalls the updates of others.

    ** Bounds

    Recursion is structural on lists, strings and JSON values, except for the
    retry loops, the loop that chooses the unit of a size and the loops that write
    the length of a message, which have fuel and a theorem that says how much is
    enough (ten rounds of seven bits hold every length of 64 bits);
    every definition is total and evaluates. Sequences of requests have arbitrary
    length. The channel of a connection holds a hundred messages, and a delivery
    that comes to a full one waits. Letters are lowered in ASCII only
    ([Users.to_lowercase]), and the key derivation is total where the source
    panics for zero iterations ([Users.hash_password]), which a validated
    configuration excludes. Where one statement of the database is atomic the model makes it one
    step; where the code uses two, interleavings are modelled for the TOTP check,
    for the counters and for the deliveries of notifications, and requests are sequential elsewhere.

    ** Not modelled

    HTTP routing, mail templates and static files are left out, and so are
    the diagnostics of the administrator, backups, the start of the process and
    the messages to the identity provider of single sign-on: they are I/O or calls
    of external services. Answers are rendered where a client depends on their content
    (ciphers, Sends, organization data, settings, accounts); elsewhere the rows are
    the answer. *)
From stdpp Require Export prelude strings gmap sorting.

Declare Scope vault_scope.
Delimit Scope vault_scope with vault.
Open Scope vault_scope.

(** ** Errors and results *)

(** [crate::error::Error] as the handlers see it: the status code of the
    response and the message given to [err!] / [err_code!]. *)
Record Error := MkError { err_status : Z; err_message : string }.

(** [Result<A, Error>]. *)
Inductive Res (A : Type) : Type :=
| Ok (a : A)
| Err (e : Error).
Arguments Ok {A} a.
Arguments Err {A} e.

#[export] Instance Error_eq_dec : EqDecision Error.
Proof. solve_decision. Defined.
#[export] Instance Res_eq_dec A `{EqDecision A} : EqDecision (Res A).
Proof. solve_decision. Defined.

(** [Result::is_ok]. *)
Definition is_ok {A} (r : Res A) : bool :=
  match r with Ok _ => true | Err _ => false end.

(** What the database reports when a constraint of the schema refuses a
    statement; [map_res] turns it into the message of the call. *)
Definition db_error (msg : string) : Error := MkError 400 msg.

(** ** The effect of a handler: a shared store and an early return.

    The store reached before an error stays: nothing in the source runs inside
    a transaction, so [M] returns the state in both cases. *)
Definition M (S A : Type) : Type := S → Res A * S.

#[export] Instance M_ret S : MRet (M S) := λ A a s, (Ok a, s).
#[export] Instance M_bind S : MBind (M S) := λ A B f m s,
  match m s with
  | (Ok a, s') => f a s'
  | (Err e, s') => (Err e, s')
  end.

Definition gets {S A} (f : S → A) : M S A := λ s, (Ok (f s), s).
Definition modify {S} (f : S → S) : M S () := λ s, (Ok (), f s).
Definition throw {S A} (e : Error) : M S A := λ s, (Err e, s).

(** [err!(msg)]: leave the function with status 400. *)
Definition err {S A} (msg : string) : M S A := throw (MkError 400 msg).
(** [err_code!(msg, code)]. *)
Definition err_code {S A} (msg : string) (code : Z) : M S A := throw (MkError code msg).

(** [r?]. *)
Definition lift {S A} (r : Res A) : M S A := λ s, (r, s).

(** [m.ok()]: run [m] for its effect and drop an error. *)
Definition ignore {S A} (m : M S A) : M S () := λ s, (Ok (), (m s).2).

(** [let r = m;] without [?]: the answer as a value. *)
Definition answer {S A} (m : M S A) : M S (Res A) := λ s, let '(r, s') := m s in (Ok r, s').

(** [let Some(x) = o else { err!(msg) }]. *)
Definition some_or {S A} (o : option A) (msg : string) : M S A :=
  match o with Some a => mret a | None => err msg end.

(** [for x in l { body }] with [?] inside the body. *)
Fixpoint for_each {S A} (l : list A) (body : A → M S ()) : M S () :=
  match l with
  | [] => mret ()
  | a :: l => body a ;; for_each l body
  end.

(** [for x in l { v.push(body) }]. *)
Fixpoint traverse {S A B} (l : list A) (body : A → M S B) : M S (list B) :=
  match l with
  | [] => mret []
  | a :: l => b ← body a; rest ← traverse l body; mret (b :: rest)
  end.

(** [if c { body }]. *)
Definition when {S} (c : bool) (m : M S ()) : M S () := if c then m else mret ().

(** ** Running a handler: rewriting rules *)

Section monad.
Context {S : Type}.

Lemma run_bind_Ok {A B} (m : M S A) (f : A → M S B) s a s' :
  m s = (Ok a, s') → (m ≫= f) s = f a s'.
Proof. unfold mbind, M_bind. by intros ->. Qed.

Lemma run_bind_Err {A B} (m : M S A) (f : A → M S B) s e s' :
  m s = (Err e, s') → (m ≫= f) s = (Err e, s').
Proof. unfold mbind, M_bind. by intros ->. Qed.

Lemma run_gets {A B} (g : S → A) (f : A → M S B) s : (gets g ≫= f) s = f (g s) s.
Proof. done. Qed.

Lemma run_modify {B} (g : S → S) (f : () → M S B) s : (modify g ≫= f) s = f () (g s).
Proof. done. Qed.

Lemma run_ret {A B} (a : A) (f : A → M S B) s : (mret a ≫= f) s = f a s.
Proof. done. Qed.
End monad.

(** ** Runs that succeed *)

Section success.
Context {S : Type}.

Lemma bind_Ok {A B} (m : M S A) (f : A → M S B) s b s' :
  (m ≫= f) s = (Ok b, s') → ∃ a s1, m s = (Ok a, s1) ∧ f a s1 = (Ok b, s').
Proof. unfold mbind, M_bind. destruct (m s) as [[a|e] s1]; [eauto|done]. Qed.
Lemma gets_Ok {A} (g : S → A) s a s' : gets g s = (Ok a, s') → g s = a ∧ s' = s.
Proof. by intros [= <- <-]. Qed.
Lemma ret_Ok {A} (b : A) s a s' : (mret b : M S A) s = (Ok a, s') → a = b ∧ s' = s.
Proof. by intros [= <- <-]. Qed.
Lemma lift_Ok {A} (r : Res A) (s : S) a s' : lift r s = (Ok a, s') → r = Ok a ∧ s' = s.
Proof. by intros [= -> <-]. Qed.
Lemma some_or_Ok {A} (o : option A) msg (s : S) a s' : some_or o msg s = (Ok a, s') → o = Some a ∧ s' = s.
Proof. destruct o; [|done]. by intros [= <- <-]. Qed.
Lemma err_Ok {A} msg (s : S) (a : A) s' : err msg s = (Ok a, s') → False.
Proof. done. Qed.
Lemma modify_Ok (f : S → S) s a s' : modify f s = (Ok a, s') → s' = f s.
Proof. by intros [= <-]. Qed.
Lemma answer_Ok {A} (m : M S A) s r s' : answer m s = (Ok r, s') → m s = (r, s').
Proof. unfold answer. destruct (m s). congruence. Qed.
Lemma traverse_Ok {A B} (P : B → Prop) (l : list A) (f : A → M S B) s bs s' :
  (∀ a s b s', f a s = (Ok b, s') → P b) → traverse l f s = (Ok bs, s') → Forall P bs.
Proof.
  intros Hf. revert s bs s'. induction l as [|a l IH]; intros s bs s' Hrun; simpl in Hrun.
  - apply ret_Ok in Hrun as [-> _]. constructor.
  - apply bind_Ok in Hrun as (b & s1 & Hb & Hrun). apply bind_Ok in Hrun as (r & s2 & Hr & Hrun).
    apply ret_Ok in Hrun as [-> _]. constructor; [exact (Hf _ _ _ _ Hb)|exact (IH _ _ _ Hr)].
Qed.
End success.

(** Takes a successful run apart, one statement at a time. *)
Ltac run_step H :=
  lazymatch type of H with
  | (_ ≫= _) _ = (Ok _, _) =>
      let H1 := fresh "Hrun" in let a := fresh "a" in let s := fresh "s" in
      apply bind_Ok in H as (a & s & H1 & H)
  | gets _ _ = (Ok _, _) => let Hs := fresh in apply gets_Ok in H as [H Hs]; try subst
  | mret _ _ = (Ok _, _) => let Hs := fresh in apply ret_Ok in H as [H Hs]; try subst
  | lift _ _ = (Ok _, _) => let Hs := fresh in apply lift_Ok in H as [H Hs]; try subst
  | some_or _ _ _ = (Ok _, _) => let Hs := fresh in apply some_or_Ok in H as [H Hs]; try subst
  | err _ _ = (Ok _, _) => by apply err_Ok in H
  | throw _ _ = (Ok _, _) => discriminate H
  | modify _ _ = (Ok _, _) => apply modify_Ok in H; try subst
  | answer _ _ = (Ok _, _) => apply answer_Ok in H
  | (match ?c with _ => _ end) _ = (Ok _, _) => let Hc := fresh "Hc" in destruct c eqn:Hc; try discriminate H
  end.

(** ** Specifications of handlers

    [total P m Q]: from a state in [P], [m] returns [Ok] (no error) in [Q].
    [keeps R m]: whatever [m] answers, the state it leaves is related by [R] to
    the one it started from; [R] is a preorder in every use. *)
Definition total {S A} (P : S → Prop) (m : M S A) (Q : A → S → Prop) : Prop :=
  ∀ s, P s → ∃ a s', m s = (Ok a, s') ∧ Q a s'.

Definition keeps {S A} (R : relation S) (m : M S A) : Prop := ∀ s, R s (m s).2.

Section specs.
Context {S : Type}.
Implicit Types (P : S → Prop).

Lemma total_bind {A B} P (m : M S A) (f : A → M S B) Q R :
  total P m Q → (∀ a, total (Q a) (f a) R) → total P (m ≫= f) R.
Proof.
  intros Hm Hf s (a & s' & Hs & HQ)%Hm.
  rewrite (run_bind_Ok _ _ _ _ _ Hs). by apply Hf.
Qed.

Lemma total_ret {A} P (a : A) (Q : A → S → Prop) :
  (∀ s, P s → Q a s) → total P (mret a) Q.
Proof. intros H s Hs. exists a, s. by split; [|apply H]. Qed.

Lemma total_modify P (f : S → S) (Q : () → S → Prop) :
  (∀ s, P s → Q () (f s)) → total P (modify f) Q.
Proof. intros H s Hs. exists (), (f s). by split; [|apply H]. Qed.

Lemma total_gets {A B} P (g : S → A) (f : A → M S B) Q :
  (∀ a, total (λ s, P s ∧ a = g s) (f a) Q) → total P (gets g ≫= f) Q.
Proof. intros H s Hs. rewrite run_gets. by apply H. Qed.

Lemma total_weaken {A} (P P' : S → Prop) (m : M S A) (Q Q' : A → S → Prop) :
  total P m Q → (∀ s, P' s → P s) → (∀ a s, Q a s → Q' a s) → total P' m Q'.
Proof. intros Hm HP HQ s (a & s' & Hs & H)%HP%Hm. eauto 10. Qed.

(** A loop that never fails: [I rest] holds when [rest] is still to do. *)
Lemma total_for_each {A} (I : list A → S → Prop) (f : A → M S ()) l :
  (∀ a rest, total (I (a :: rest)) (f a) (λ _, I rest)) →
  total (I l) (for_each l f) (λ _, I []).
Proof.
  intros Hf. induction l as [|a l IH]; simpl.
  - by apply total_ret.
  - eapply total_bind; [apply Hf|]. intros []. exact IH.
Qed.

Context (R : relation S) `{!PreOrder R}.

Lemma keeps_bind {A B} (m : M S A) (f : A → M S B) :
  keeps R m → (∀ a, keeps R (f a)) → keeps R (m ≫= f).
Proof.
  intros Hm Hf s. specialize (Hm s). unfold mbind, M_bind.
  destruct (m s) as [[a|e] s'] eqn:E; simpl in *; [|done].
  etrans; [exact Hm|]. apply Hf.
Qed.

Lemma keeps_ret {A} (a : A) : keeps R (mret a).
Proof. intros s. unfold mret, M_ret. simpl. reflexivity. Qed.
Lemma keeps_gets {A} (g : S → A) : keeps R (gets g).
Proof. intros s. simpl. reflexivity. Qed.
Lemma keeps_throw {A} e : keeps R (throw (A:=A) e).
Proof. intros s. simpl. reflexivity. Qed.
Lemma keeps_err {A} msg : keeps R (err (A:=A) msg).
Proof. apply keeps_throw. Qed.
Lemma keeps_lift {A} (r : Res A) : keeps R (lift r).
Proof. intros s. simpl. reflexivity. Qed.
Lemma keeps_some_or {A} (o : option A) msg : keeps R (some_or o msg).
Proof. destruct o; [apply keeps_ret|apply keeps_err]. Qed.
Lemma keeps_modify (f : S → S) : (∀ s, R s (f s)) → keeps R (modify f).
Proof. intros H s. apply H. Qed.
Lemma keeps_ignore {A} (m : M S A) : keeps R m → keeps R (ignore m).
Proof. intros H s. apply H. Qed.
Lemma keeps_answer {A} (m : M S A) : keeps R m → keeps R (answer m).
Proof. intros H s. specialize (H s). unfold answer. by destruct (m s). Qed.
Lemma keeps_when c m : keeps R m → keeps R (when c m).
Proof. intros. destruct c; [done|apply keeps_ret]. Qed.
Lemma keeps_if {A} (c : bool) (m n : M S A) :
  keeps R m → keeps R n → keeps R (if c then m else n).
Proof. by destruct c. Qed.
Lemma keeps_for_each_elem {A} (l : list A) (f : A → M S ()) :
  (∀ a, a ∈ l → keeps R (f a)) → keeps R (for_each l f).
Proof.
  induction l as [|a l IH]; intros Hf; simpl; [apply keeps_ret|].
  apply keeps_bind; [apply Hf; left|intros _]. apply IH. intros b Hb. apply Hf. by right.
Qed.
Lemma keeps_for_each {A} (l : list A) (f : A → M S ()) :
  (∀ a, keeps R (f a)) → keeps R (for_each l f).
Proof.
  intros Hf. induction l; simpl; [apply keeps_ret|]. by apply keeps_bind.
Qed.
Lemma keeps_traverse {A B} (l : list A) (f : A → M S B) :
  (∀ a, keeps R (f a)) → keeps R (traverse l f).
Proof.
  intros Hf. induction l; simpl; [apply keeps_ret|]. apply keeps_bind; [done|intros b].
  apply keeps_bind; [done|intros r]. apply keeps_ret.
Qed.
End specs.

(** [I] is preserved. *)
Definition preserves {S} (I : S → Prop) : relation S := λ s s', I s → I s'.
#[export] Instance preserves_preorder {S} (I : S → Prop) : PreOrder (preserves I).
Proof. split; [by intros ? ?|]. intros ??? H1 H2 ?. by apply H2, H1. Qed.

(** An invariant is known to hold when the rest of a handler uses what it has
    read, and the answer of a statement can be restricted by [P]. *)
Section preserving.
Context {S : Type} (I : S → Prop).

Lemma preserves_gets {A B} (g : S → A) (f : A → M S B) :
  (∀ s, I s → keeps (preserves I) (f (g s))) → keeps (preserves I) (gets g ≫= f).
Proof. intros Hf s Hs. by apply Hf. Qed.
Lemma preserves_some_or {A B} (o : option A) msg (f : A → M S B) :
  (∀ a, o = Some a → keeps (preserves I) (f a)) → keeps (preserves I) (some_or o msg ≫= f).
Proof. intros Hf. destruct o as [a|]; [by apply Hf|]. intros s Hs. exact Hs. Qed.
Lemma preserves_bind_post {A B} (P : A → Prop) (m : M S A) (f : A → M S B) :
  keeps (preserves I) m → (∀ s a s', I s → m s = (Ok a, s') → P a) → (∀ a, P a → keeps (preserves I) (f a)) →
  keeps (preserves I) (m ≫= f).
Proof.
  intros Hm HP Hf s Hs. specialize (Hm s Hs). unfold mbind, M_bind.
  destruct (m s) as [[a|e] s'] eqn:Hr; simpl in *; [|done]. apply Hf; [by eapply HP|done].
Qed.
End preserving.

(** Discharges [keeps] goals structurally; component lemmas are added to the
    database [vault]. *)
Create HintDb vault.
#[export] Hint Resolve keeps_ret keeps_gets keeps_throw keeps_err keeps_lift keeps_some_or : vault.

Ltac keeps_step :=
  lazymatch goal with
  | |- keeps _ (_ ≫= _) => apply keeps_bind; [typeclasses eauto| |intros ?]
  | |- keeps _ (for_each _ _) => apply keeps_for_each; [typeclasses eauto|intros ?]
  | |- keeps _ (traverse _ _) => apply keeps_traverse; [typeclasses eauto|intros ?]
  | |- keeps _ (when _ _) => apply keeps_when; [typeclasses eauto|]
  | |- keeps _ (ignore _) => apply keeps_ignore
  | |- keeps _ (answer _) => apply keeps_answer
  | |- keeps _ (modify _) => apply keeps_modify; intros ?
  | |- keeps _ (mret _) => apply keeps_ret; typeclasses eauto
  | |- keeps _ (gets _) => apply keeps_gets; typeclasses eauto
  | |- keeps _ (throw _) => apply keeps_throw; typeclasses eauto
  | |- keeps _ (err _) => apply keeps_err; typeclasses eauto
  | |- keeps _ (lift _) => apply keeps_lift; typeclasses eauto
  | |- keeps _ (some_or _ _) => apply keeps_some_or; typeclasses eauto
  | |- keeps _ (match _ with _ => _ end) => case_match
  end.
Ltac solve_keeps :=
  repeat first [ progress intros | solve [eauto 3 with vault typeclass_instances] | keeps_step ].

(** ** What a handler leaves in one part of the state

    [leaves t m Q s]: the part [t] of the state satisfies [Q] after running [m]
    in [s], whatever [m] answers. *)
Definition leaves {S T A} (t : S → T) (m : M S A) (Q : T → Prop) (s : S) : Prop := Q (t (m s).2).

(** The part [t] is as before. *)
Definition same_on {S T} (t : S → T) : relation S := λ s s', t s' = t s.
#[export] Instance same_on_preorder {S T} (t : S → T) : PreOrder (same_on t).
Proof. split; [done|]. unfold same_on. intros ???. congruence. Qed.

Lemma same_part {S T A} (t : S → T) (m : M S A) s r s' : keeps (same_on t) m → m s = (r, s') → t s' = t s.
Proof. intros Hk Hm. specialize (Hk s). by rewrite Hm in Hk. Qed.

Section leaves.
Context {S T A B : Type} (t : S → T) (Q : T → Prop) (s : S).

Lemma leaves_keeps (m : M S A) : keeps (same_on t) m → Q (t s) → leaves t m Q s.
Proof. intros Hk HQ. unfold leaves. by rewrite (Hk s). Qed.

Lemma leaves_gets (g : S → A) (f : A → M S B) : leaves t (f (g s)) Q s → leaves t (gets g ≫= f) Q s.
Proof. done. Qed.

Lemma leaves_some_or (o : option A) msg (f : A → M S B) :
  Q (t s) → (∀ a, o = Some a → leaves t (f a) Q s) → leaves t (some_or o msg ≫= f) Q s.
Proof. intros HQ Hf. destruct o; [by apply Hf|done]. Qed.

Lemma leaves_if (c : bool) (m n : M S A) :
  (c = true → leaves t m Q s) → (c = false → leaves t n Q s) → leaves t (if c then m else n) Q s.
Proof. destruct c; auto. Qed.

(** The rest of the handler does not write to [t]. *)
Lemma leaves_tail (m : M S A) (f : A → M S B) :
  (∀ a, keeps (same_on t) (f a)) → leaves t m Q s → leaves t (m ≫= f) Q s.
Proof.
  intros Hf. unfold leaves, mbind, M_bind. destruct (m s) as [[a|e] s'] eqn:Hm; simpl; [|done].
  by rewrite (Hf a s').
Qed.

(** A first part that does not write to [t]. *)
Lemma leaves_skip (m : M S A) (f : A → M S B) :
  keeps (same_on t) m → Q (t s) →
  (∀ a s', t s' = t s → m s = (Ok a, s') → leaves t (f a) Q s') → leaves t (m ≫= f) Q s.
Proof.
  intros Hm HQ Hf. unfold leaves, mbind, M_bind. specialize (Hm s). unfold same_on in Hm.
  destruct (m s) as [[a|e] s'] eqn:Hd; simpl in *; [by apply Hf|by rewrite Hm].
Qed.

(** Both outcomes of a statement. *)
Lemma leaves_bind (m : M S A) (f : A → M S B) :
  (∀ a s', m s = (Ok a, s') → leaves t (f a) Q s') → (∀ e s', m s = (Err e, s') → Q (t s')) → leaves t (m ≫= f) Q s.
Proof. intros Hok Herr. unfold leaves, mbind, M_bind. destruct (m s) as [[a|e] s'] eqn:Hm; [by apply Hok|by eapply Herr]. Qed.
End leaves.

(** ** Tables and queries

    A table is a finite map from its primary key to its rows. A query is a list
    program over the rows of its tables that follows the Diesel combinators. *)

(** [a.eq(b)] of two non-null columns, and [==] of the host language. *)
Notation "a == b" := (bool_decide (a = b)) (at level 70, no associativity) : vault_scope.

Definition rows {K A} `{Countable K} (t : gmap K A) : list A := (map_to_list t).*2.

(** [.filter(p)]. *)
Definition where_ {A} (p : A → bool) (l : list A) : list A := List.filter p l.

(** [.inner_join(r.on(p))]. *)
Definition inner_join {A B} (l : list A) (r : list B) (p : A → B → bool) : list (A * B) :=
  l ≫= λ a, (λ b, (a, b)) <$> where_ (p a) r.

(** [.left_join(r.on(p))]: a row with no partner is kept with NULLs. *)
Definition left_join {A B} (l : list A) (r : list B) (p : A → B → bool)
    : list (A * option B) :=
  l ≫= λ a, match where_ (p a) r with
            | [] => [(a, None)]
            | bs => (λ b, (a, Some b)) <$> bs
            end.

(** A condition on the columns of a row of an outer join: NULL compared with
    anything is not true, so the condition fails when the row is missing. *)
Definition nn {A} (o : option A) (p : A → bool) : bool :=
  match o with Some a => p a | None => false end.

(** [.count().first() != 0]. *)
Definition nonempty {A} (l : list A) : bool := negb (bool_decide (l = [])) .

(** [.count()]. *)
Definition count {A} (l : list A) : Z := Z.of_nat (length l).

(** [diesel::delete(t.filter(p))]. *)
Definition delete_where {K A} `{Countable K} (p : A → bool) (t : gmap K A) : gmap K A :=
  base.filter (λ kv, p kv.2 = false) t.

(** [diesel::update(t.filter(p)).set(f)]. *)
Definition update_where {K A} `{Countable K} (p : A → bool) (f : A → A) (t : gmap K A)
    : gmap K A :=
  (λ a, if p a then f a else a) <$> t.

(** ** Records

    [make_setter eta proj] is the function that updates the field [proj] of a
    record, from the record's eta expansion. *)
Ltac make_setter eta proj :=
  let e := eval unfold eta in eta in
  let e := eval pattern proj in e in
  lazymatch e with
  | ?s _ => let r := eval cbv beta in (λ f, s (λ r, f (proj r))) in exact r
  end.

(** ** Lemmas on queries *)

Lemma elem_of_where {A} (p : A → bool) l a : a ∈ where_ p l ↔ a ∈ l ∧ p a = true.
Proof. unfold where_. rewrite !list_elem_of_In. apply filter_In. Qed.

Lemma forallb_elem {A} (p : A → bool) l : forallb p l = true ↔ ∀ a, a ∈ l → p a = true.
Proof. rewrite forallb_forall. by setoid_rewrite list_elem_of_In. Qed.
Lemma existsb_elem {A} (p : A → bool) l : existsb p l = true ↔ ∃ a, a ∈ l ∧ p a = true.
Proof. rewrite existsb_exists. by setoid_rewrite list_elem_of_In. Qed.

Section queries.
Context {A B : Type}.

Lemma elem_of_inner_join (l : list A) (r : list B) p a b :
  (a, b) ∈ inner_join l r p ↔ a ∈ l ∧ b ∈ r ∧ p a b = true.
Proof.
  unfold inner_join. rewrite list_elem_of_bind. split.
  - intros (a' & Hb & Ha). apply list_elem_of_fmap in Hb as (b' & [= -> ->] & Hb').
    apply elem_of_where in Hb'. naive_solver.
  - intros (Ha & Hb & Hp). exists a. split; [|done].
    apply list_elem_of_fmap. exists b. split; [done|]. by apply elem_of_where.
Qed.

Lemma elem_of_left_join (l : list A) (r : list B) p a ob :
  (a, ob) ∈ left_join l r p ↔
  a ∈ l ∧ match ob with
          | Some b => b ∈ r ∧ p a b = true
          | None => ∀ b, b ∈ r → p a b = false
          end.
Proof.
  unfold left_join. rewrite list_elem_of_bind.
  assert (Hw : ∀ a', (a, ob) ∈ match where_ (p a') r with
                     | [] => [(a', None)] | bs => (λ b, (a', Some b)) <$> bs end ↔
              a' = a ∧ match ob with Some b => b ∈ where_ (p a') r
                                   | None => where_ (p a') r = [] end).
  { intros a'. destruct (where_ (p a') r) as [|b0 bs].
    - rewrite list_elem_of_singleton. destruct ob; [|naive_solver].
      split; [naive_solver|]. intros [_ []%not_elem_of_nil].
    - rewrite list_elem_of_fmap. split.
      + intros (b & [= -> ->] & Hb). done.
      + destruct ob as [b|]; [|naive_solver]. intros [-> Hb]. eauto. }
  setoid_rewrite Hw. split.
  - intros (a' & [-> Hob] & Ha). split; [done|]. destruct ob as [b|].
    + by apply elem_of_where.
    + intros b Hb. destruct (p a b) eqn:Hp; [|done].
      assert (b ∈ where_ (p a) r) as Hin by (by apply elem_of_where).
      rewrite Hob in Hin. by apply not_elem_of_nil in Hin.
  - intros [Ha Hob]. exists a. split; [|done]. split; [done|]. destruct ob as [b|].
    + by apply elem_of_where.
    + destruct (where_ (p a) r) as [|b bs] eqn:E; [done|].
      assert (b ∈ where_ (p a) r) as [Hb Hp]%elem_of_where by (rewrite E; left).
      by rewrite Hob in Hp.
Qed.

(** Every row of the left table occurs in a left join. *)
Lemma left_join_total (l : list A) (r : list B) p a :
  a ∈ l → ∃ ob, (a, ob) ∈ left_join l r p.
Proof.
  intros Ha. destruct (where_ (p a) r) as [|b bs] eqn:E.
  - exists None. apply elem_of_left_join. split; [done|]. intros b Hb.
    destruct (p a b) eqn:Hp; [|done].
    assert (b ∈ where_ (p a) r) as Hin by (by apply elem_of_where).
    rewrite E in Hin. by apply not_elem_of_nil in Hin.
  - exists (Some b). apply elem_of_left_join. split; [done|].
    apply elem_of_where. rewrite E. left.
Qed.

(** A chosen partner, when there is one, can be kept in the join. *)
Lemma left_join_pick (l : list A) (r : list B) p a ob :
  a ∈ l → (∀ b, ob = Some b → b ∈ r ∧ p a b = true) →
  ∃ ob', (a, ob') ∈ left_join l r p ∧ (is_Some ob → ob' = ob).
Proof.
  intros Ha Hob. destruct ob as [b|].
  - exists (Some b). split; [|done]. apply elem_of_left_join. auto.
  - destruct (left_join_total l r p a Ha) as [x Hx]. exists x. split; [done|by intros []].
Qed.

Lemma nonempty_true (l : list A) : nonempty l = true ↔ ∃ a, a ∈ l.
Proof.
  unfold nonempty. rewrite negb_true_iff, bool_decide_eq_false. split.
  - destruct l as [|a l]; [done|]. intros _. exists a. left.
  - intros (a & Ha) ->. by apply not_elem_of_nil in Ha.
Qed.

Lemma nonempty_false (l : list A) : nonempty l = false ↔ ∀ a, a ∉ l.
Proof.
  rewrite <-not_true_iff_false, nonempty_true. naive_solver.
Qed.

Lemma nn_true (o : option A) p : nn o p = true ↔ ∃ a, o = Some a ∧ p a = true.
Proof. destruct o; naive_solver. Qed.

Lemma head_Some_elem (l : list A) a : head l = Some a → a ∈ l.
Proof. destruct l; [done|]. intros [= ->]. left. Qed.

Lemma head_None_nil (l : list A) : head l = None → l = [].
Proof. by destruct l. Qed.

Lemma head_is_Some (l : list A) a : a ∈ l → ∃ b, head l = Some b ∧ b ∈ l.
Proof. destruct l as [|b l]; [by intros ?%not_elem_of_nil|]. exists b. split; [done|left]. Qed.

(** A query that can match one row at most returns that row. *)
Lemma head_unique (l : list A) a : a ∈ l → (∀ b, b ∈ l → b = a) → head l = Some a.
Proof. intros (b & Hb & Hin)%head_is_Some Hu. rewrite Hb. f_equal. by apply Hu. Qed.
End queries.

Lemma left_join3_total {A B C D} (l : list A) (r1 : list B) p1 (r2 : list C) p2 (r3 : list D) p3 a :
  a ∈ l → ∃ x y z, (a, x, y, z) ∈ left_join (left_join (left_join l r1 p1) r2 p2) r3 p3.
Proof.
  intros Ha. destruct (left_join_total l r1 p1 a Ha) as [x Hx].
  destruct (left_join_total _ r2 p2 _ Hx) as [y Hy].
  destruct (left_join_total _ r3 p3 _ Hy) as [z Hz]. eauto.
Qed.

Section tables.
Context {K A : Type} `{Countable K}.
Implicit Types (t : gmap K A).

Lemma elem_of_rows t a : a ∈ rows t ↔ ∃ k, t !! k = Some a.
Proof.
  unfold rows. rewrite list_elem_of_fmap. split.
  - intros ([k a'] & -> & Hk). exists k. by apply elem_of_map_to_list.
  - intros (k & Hk). exists (k, a). split; [done|]. by apply elem_of_map_to_list.
Qed.

Lemma lookup_delete_where p t k a :
  delete_where p t !! k = Some a ↔ t !! k = Some a ∧ p a = false.
Proof. unfold delete_where. by rewrite map_lookup_filter_Some. Qed.

Lemma keyed_delete_where (P : K → A → Prop) p t : map_Forall P t → map_Forall P (delete_where p t).
Proof. intros Ht k a [Ha _]%lookup_delete_where. by apply Ht. Qed.
(** A deletion keeps the rows that it does not select. *)
Lemma lookup_delete_where_ne p t k : (∀ a, t !! k = Some a → p a = false) → delete_where p t !! k = t !! k.
Proof. intros Hp. apply option_eq. intros a. rewrite lookup_delete_where. naive_solver. Qed.

Lemma elem_of_rows_delete_where p t a :
  a ∈ rows (delete_where p t) ↔ a ∈ rows t ∧ p a = false.
Proof. rewrite !elem_of_rows. setoid_rewrite lookup_delete_where. naive_solver. Qed.

Lemma delete_where_subseteq p t : delete_where p t ⊆ t.
Proof. apply map_filter_subseteq. Qed.

Lemma delete_where_id p t : (∀ a, a ∈ rows t → p a = false) → delete_where p t = t.
Proof.
  intros Hp. apply map_filter_id. intros k a Hk. apply Hp, elem_of_rows. eauto.
Qed.

Lemma lookup_update_where p f t k :
  update_where p f t !! k = (λ a : A, if p a then f a else a) <$> t !! k.
Proof. unfold update_where. by rewrite lookup_fmap. Qed.

Lemma rows_subseteq t t' a : t' ⊆ t → a ∈ rows t' → a ∈ rows t.
Proof. rewrite !elem_of_rows. intros Hs (k & Hk). exists k. by eapply lookup_weaken. Qed.
End tables.

(** ** Updates of a table *)

Section updates.
Context {K A : Type} `{Countable K}.
Implicit Types (t : gmap K A).

Lemma update_where_id p f t : (∀ a, a ∈ rows t → p a = false) → update_where p f t = t.
Proof.
  intros Hp. apply map_eq. intros k. rewrite lookup_update_where.
  destruct (t !! k) as [a|] eqn:Hk; [|done]. simpl. rewrite Hp; [done|]. apply elem_of_rows. eauto.
Qed.

Lemma elem_of_rows_update p f t a :
  a ∈ rows (update_where p f t) ↔ ∃ b, b ∈ rows t ∧ a = if p b then f b else b.
Proof.
  rewrite elem_of_rows. setoid_rewrite lookup_update_where. setoid_rewrite fmap_Some.
  setoid_rewrite elem_of_rows. naive_solver.
Qed.
End updates.

(** The table rows that satisfy a predicate, when at most one can. *)
Lemma where_ext {A} (p q : A → bool) l : (∀ a, a ∈ l → p a = q a) → where_ p l = where_ q l.
Proof.
  induction l as [|a l IH]; intros Hpq; [done|]. simpl. rewrite (Hpq a) by left.
  rewrite IH; [done|]. intros b Hb. apply Hpq. by right.
Qed.

Lemma where_singleton {A} (p : A → bool) l a :
  NoDup l → a ∈ l → p a = true → (∀ b, b ∈ l → p b = true → b = a) → where_ p l = [a].
Proof.
  induction l as [|b l IH]; intros Hnd Ha Hpa Hu; [by apply not_elem_of_nil in Ha|].
  apply NoDup_cons in Hnd as [Hb Hnd]. unfold where_. simpl.
  assert (Hrest : a ∉ l → where_ p l = []).
  { intros Hal. destruct (where_ p l) as [|c cs] eqn:E; [done|].
    assert (c ∈ where_ p l) as [Hc Hpc]%elem_of_where by (rewrite E; left).
    destruct Hal. rewrite <-(Hu c); [done|by right|done]. }
  apply elem_of_cons in Ha as [->|Ha].
  - rewrite Hpa. f_equal. by apply Hrest.
  - assert (p b = false) as ->.
    { apply not_true_iff_false. intros Hpb. destruct Hb. rewrite (Hu b); [done|left|done]. }
    apply IH; [done..|]. intros c Hc. apply Hu. by right.
Qed.

(** Counting the rows that a query selects. *)
Lemma length_where_le {A} (p q : A → bool) l : (∀ x, x ∈ l → p x = true → q x = true) → (length (where_ p l) <= length (where_ q l))%nat.
Proof.
  induction l as [|x l IH]; intros Hpq; simpl; [done|].
  assert (length (where_ p l) <= length (where_ q l))%nat by (apply IH; intros; apply Hpq; [by right|done]).
  destruct (p x) eqn:Hp.
  - rewrite (Hpq x); [|left|done]. simpl. unfold where_ in *. lia.
  - destruct (q x); simpl; unfold where_ in *; lia.
Qed.
Lemma length_where_lt {A} (p q : A → bool) l y :
  (∀ x, x ∈ l → p x = true → q x = true) → y ∈ l → q y = true → p y = false → (length (where_ p l) < length (where_ q l))%nat.
Proof.
  intros Hpq Hy Hqy Hpy. induction l as [|x l IH]; [by apply not_elem_of_nil in Hy|]. simpl.
  assert (Hle : (length (where_ p l) <= length (where_ q l))%nat) by (apply length_where_le; intros; apply Hpq; [by right|done]).
  apply elem_of_cons in Hy as [<-|Hy].
  - rewrite Hqy, Hpy. simpl. unfold where_ in *. lia.
  - assert (Hlt : (length (where_ p l) < length (where_ q l))%nat) by (apply IH; [intros; apply Hpq; [by right|done]|done]).
    destruct (p x) eqn:Hp; [rewrite (Hpq x); [|left|done]|destruct (q x)]; simpl; unfold where_ in *; lia.
Qed.
Lemma where_submseteq {A} (p : A → bool) l k : l ⊆+ k → where_ p l ⊆+ where_ p k.
Proof.
  unfold where_. induction 1 as [|x l k _ IH|x y l|x l k _ IH|l1 l2 l3 _ IH1 _ IH2]; simpl.
  - done.
  - destruct (p x); [by apply submseteq_skip|done].
  - destruct (p x), (p y); done || apply submseteq_swap.
  - destruct (p x); [by apply submseteq_cons|done].
  - by etrans.
Qed.
Lemma where_where {A} (p q : A → bool) l : where_ p (where_ q l) = where_ (λ x, q x && p x) l.
Proof. unfold where_. induction l as [|x l IH]; [done|]. simpl. destruct (q x); simpl; [|done]. destruct (p x); by rewrite IH. Qed.
Lemma where_none {A} (p : A → bool) l : (∀ x, x ∈ l → p x = false) → where_ p l = [].
Proof. intros Hp. induction l as [|x l IH]; [done|]. simpl. rewrite Hp by left. apply IH. intros. apply Hp. by right. Qed.
Lemma where_all {A} (p : A → bool) l : (∀ x, x ∈ l → p x = true) → where_ p l = l.
Proof.
  intros Hp. induction l as [|x l IH]; [done|]. simpl. rewrite Hp by left. f_equal. apply IH. intros. apply Hp. by right.
Qed.

Lemma NoDup_rows {K A} `{Countable K} (t : gmap K A) (key : A → K) :
  map_Forall (λ k r, key r = k) t → NoDup (rows t).
Proof.
  intros Hk. apply NoDup_fmap_1 with (f := key). unfold rows. rewrite <-list_fmap_compose.
  assert (((key ∘ snd) <$> map_to_list t) = (map_to_list t).*1) as ->; [|apply NoDup_fst_map_to_list].
  apply list_fmap_ext. intros i [k a] Hi. simpl. apply Hk.
  apply list_elem_of_lookup_2 in Hi. by apply elem_of_map_to_list.
Qed.

Lemma rows_key {A} (key : A → string) (t : gmap string A) a b :
  map_Forall (λ k r, key r = k) t → a ∈ rows t → b ∈ rows t → key a = key b → a = b.
Proof.
  intros Hk (k & Ha)%elem_of_rows (k' & Hb)%elem_of_rows Heq.
  apply Hk in Ha as Hka. apply Hk in Hb as Hkb. simpl in *. subst k k'. congruence.
Qed.

Ltac bools :=
  repeat match goal with
  | H : _ && _ = true |- _ => apply andb_true_iff in H as [? ?]
  | H : _ || _ = true |- _ => apply orb_true_iff in H
  | H : _ && _ = false |- _ => apply andb_false_iff in H
  | H : _ || _ = false |- _ => apply orb_false_iff in H as [? ?]
  | H : negb _ = true |- _ => apply negb_true_iff in H
  | H : negb _ = false |- _ => apply negb_false_iff in H
  | H : bool_decide _ = true |- _ => apply bool_decide_eq_true in H
  | H : bool_decide _ = false |- _ => apply bool_decide_eq_false in H
  | H : nn (Some _) _ = true |- _ => cbn [nn] in H
  | H : nn _ _ = true |- _ => apply nn_true in H as (? & -> & ?)
  end.
