(* ===== verification/NativeStore.v ===== *)
(** The native foundation: the owner-scoped record store and the readiness gates.

    Models src/native/src/records.rs ([MemoryStore] and the validation of its
    arguments), src/native/src/readiness.rs and the exit status of
    src/native/src/main.rs. A [&str] is the list of its code points, so that
    its length in bytes, [trim] and [is_control] can be written out. *)
From S2P Require Import Prelude.
Local Open Scope Z_scope.

Module Native.

(** ** Strings of the language *)

Definition str := list Z.

Definition len_utf8 (c : Z) : Z :=
  if c <? 128 then 1 else if c <? 2048 then 2 else if c <? 65536 then 3 else 4.

(** [str::len], in bytes. *)
Definition str_len (s : str) : Z := foldr (λ c n, len_utf8 c + n) 0 s.

(** [char::is_control]: the general category Cc. *)
Definition is_control (c : Z) : bool := (c <=? 31) || ((127 <=? c) && (c <=? 159)).

(** [char::is_whitespace]: the property White_Space. *)
Definition is_whitespace (c : Z) : bool :=
  ((9 <=? c) && (c <=? 13))
  || bool_decide (c ∈ [0x20; 0x85; 0xA0; 0x1680; 0x2028; 0x2029; 0x202F; 0x205F; 0x3000])
  || ((0x2000 <=? c) && (c <=? 0x200A)).

Fixpoint trim_start (s : str) : str :=
  match s with
  | c :: s' => if is_whitespace c then trim_start s' else s
  | [] => []
  end.
Definition trim (s : str) : str := reverse (trim_start (reverse (trim_start s))).

(** [str::cmp]: the order of the bytes, which is the order of the code points. *)
Fixpoint str_cmp (a b : str) : comparison :=
  match a, b with
  | [], [] => Eq
  | [], _ => Lt
  | _, [] => Gt
  | x :: a, y :: b => match Z.compare x y with Eq => str_cmp a b | o => o end
  end.

(** ** The store *)

Definition MAX_IDENTIFIER_BYTES : Z := 512.
Definition MAX_CIPHERTEXT_BYTES : Z := 1024 * 1024.

Inductive StoreError :=
| InvalidOwner
| InvalidRecordId
| InvalidRevision
| EmptyCiphertext
| CiphertextTooLarge.

Record EncryptedRecord := MkRecord { record_id : str; ciphertext : list Z; revision : Z }.

Record MemoryStore := MkStore { records_by_owner : gmap str (gmap str EncryptedRecord) }.

Definition Result A : Type := A + StoreError.

#[export] Instance StoreError_eq_dec : EqDecision StoreError.
Proof. solve_decision. Defined.
#[export] Instance EncryptedRecord_eq_dec : EqDecision EncryptedRecord.
Proof. solve_decision. Defined.

Definition valid_identifier (value : str) : bool :=
  negb (value == [])
  && (str_len value <=? MAX_IDENTIFIER_BYTES)
  && (trim value == value)
  && negb (existsb is_control value).

Definition validate_owner (owner_id : str) : Result () :=
  if valid_identifier owner_id then inl () else inr InvalidOwner.

Definition validate_record_id (id : str) : Result () :=
  if valid_identifier id then inl () else inr InvalidRecordId.

Definition validate_ciphertext (bytes : list Z) : Result () :=
  if bytes == [] then inr EmptyCiphertext
  else if Z.of_nat (length bytes) >? MAX_CIPHERTEXT_BYTES then inr CiphertextTooLarge
  else inl ().

(** [r?]. *)
Definition and_then {A B} (r : Result A) (k : A → Result B) : Result B :=
  match r with inl a => k a | inr e => inr e end.

Definition MemoryStore_new : MemoryStore := MkStore ∅.

Definition MemoryStore_put (owner_id id : str) (bytes : list Z) (rev : Z) (s : MemoryStore)
    : Result () * MemoryStore :=
  match
    and_then (validate_owner owner_id) (λ _,
    and_then (validate_record_id id) (λ _,
    and_then (validate_ciphertext bytes) (λ _,
    if rev == 0 then inr InvalidRevision else inl ())))
  with
  | inr e => (inr e, s)
  | inl _ =>
      let record := MkRecord id bytes rev in
      let records := default ∅ (records_by_owner s !! owner_id) in
      (inl (), MkStore (<[owner_id := <[id := record]> records]> (records_by_owner s)))
  end.

Definition MemoryStore_get (owner_id id : str) (s : MemoryStore) : Result (option EncryptedRecord) :=
  and_then (validate_owner owner_id) (λ _,
  and_then (validate_record_id id) (λ _,
  inl (records_by_owner s !! owner_id ≫= λ records, records !! id))).

Definition record_le (l r : EncryptedRecord) : Prop := str_cmp (record_id l) (record_id r) ≠ Gt.
#[export] Instance record_le_dec : RelDecision record_le.
Proof. intros l r. unfold record_le. apply _. Defined.

(** [sort_unstable_by] on the identifiers, which are distinct in one owner's
    records: the order of equal keys does not arise. *)
Definition MemoryStore_list (owner_id : str) (s : MemoryStore) : Result (list EncryptedRecord) :=
  and_then (validate_owner owner_id) (λ _,
  inl (merge_sort record_le
         (match records_by_owner s !! owner_id with
          | Some records => (map_to_list records).*2
          | None => []
          end))).

Definition MemoryStore_delete (owner_id id : str) (s : MemoryStore) : Result bool * MemoryStore :=
  match and_then (validate_owner owner_id) (λ _, validate_record_id id) with
  | inr e => (inr e, s)
  | inl _ =>
      match records_by_owner s !! owner_id with
      | None => (inl false, s)
      | Some records =>
          let removed := bool_decide (is_Some (records !! id)) in
          let records := delete id records in
          (inl removed,
           if records == ∅ then MkStore (delete owner_id (records_by_owner s))
           else MkStore (<[owner_id := records]> (records_by_owner s)))
      end
  end.

(** ** The readiness gates *)

Record Gate := MkGate { name : string; ready : bool }.

Definition NATIVE_FOUNDATION : Gate := MkGate "native_foundation" true.

Definition REQUIRED_PRODUCTION_GATES : list Gate :=
  [ MkGate "goreecloud_manager" false; MkGate "goreecloud_identity" false;
    MkGate "persistent_store" false; MkGate "goreecloud_mesh" false; MkGate "glaze_ui" false;
    MkGate "wardveil_security" false; MkGate "privacy_shield" false; MkGate "everkeep" false;
    MkGate "real_supported_clients" false; MkGate "webauthn_passkey_acceptance" false;
    MkGate "migration_rollback_acceptance" false; MkGate "repository_release_governance" false;
    MkGate "target_environment_acceptance" false; MkGate "production_approval" false ].

Definition production_ready : bool := forallb ready REQUIRED_PRODUCTION_GATES.

Definition blocked_gate_names : list string :=
  name <$> where_ (λ g, negb (ready g)) REQUIRED_PRODUCTION_GATES.

(** [main]: the exit code for the first argument of the command line. *)
Definition main (command : option string) : Z :=
  match command with
  | Some c =>
      if c == "status" then 0
      else if c == "ready" then if production_ready then 0 else 1
      else if (c == "help") || (c == "--help") || (c == "-h") then 0
      else 2
  | None => 0
  end.

(** ** Abstract store

    What the store promises: one finite map from owner and identifier to
    records. An operation that fails a check changes nothing and reports the
    first check that failed. *)

Inductive Op :=
| OpPut (owner_id id : str) (bytes : list Z) (rev : Z)
| OpGet (owner_id id : str)
| OpList (owner_id : str)
| OpDelete (owner_id id : str).

Inductive Answer :=
| AError (e : StoreError)
| APut
| AGet (r : option EncryptedRecord)
| AList (l : list EncryptedRecord)
| ADelete (removed : bool).

Definition op_owner (op : Op) : str :=
  match op with OpPut o _ _ _ | OpGet o _ | OpList o | OpDelete o _ => o end.

Definition answer {A} (f : A → Answer) (r : Result A) : Answer :=
  match r with inl a => f a | inr e => AError e end.

Definition step (op : Op) (s : MemoryStore) : Answer * MemoryStore :=
  match op with
  | OpPut o id b v => let '(r, s') := MemoryStore_put o id b v s in (answer (λ _, APut) r, s')
  | OpGet o id => (answer AGet (MemoryStore_get o id s), s)
  | OpList o => (answer AList (MemoryStore_list o s), s)
  | OpDelete o id => let '(r, s') := MemoryStore_delete o id s in (answer ADelete r, s')
  end.

Fixpoint run (ops : list Op) (s : MemoryStore) : list Answer * MemoryStore :=
  match ops with
  | [] => ([], s)
  | op :: ops => let '(a, s') := step op s in let '(l, s'') := run ops s' in (a :: l, s'')
  end.

Definition checks (op : Op) : list (bool * StoreError) :=
  match op with
  | OpPut o id b v =>
      [ (valid_identifier o, InvalidOwner); (valid_identifier id, InvalidRecordId);
        (negb (b == []), EmptyCiphertext);
        (Z.of_nat (length b) <=? MAX_CIPHERTEXT_BYTES, CiphertextTooLarge);
        (negb (v == 0), InvalidRevision) ]
  | OpGet o id | OpDelete o id =>
      [ (valid_identifier o, InvalidOwner); (valid_identifier id, InvalidRecordId) ]
  | OpList o => [ (valid_identifier o, InvalidOwner) ]
  end.

Definition first_error (l : list (bool * StoreError)) : option StoreError :=
  snd <$> head (where_ (λ c, negb c.1) l).

Notation Spec := (gmap (str * str) EncryptedRecord).

Definition str_lt (a b : str) : Prop := str_cmp a b = Lt.

Inductive spec_step (σ : Spec) : Op → Answer → Spec → Prop :=
| spec_error op e :
    first_error (checks op) = Some e → spec_step σ op (AError e) σ
| spec_put o id b v :
    first_error (checks (OpPut o id b v)) = None →
    spec_step σ (OpPut o id b v) APut (<[(o, id) := MkRecord id b v]> σ)
| spec_get o id :
    first_error (checks (OpGet o id)) = None → spec_step σ (OpGet o id) (AGet (σ !! (o, id))) σ
| spec_list o l :
    first_error (checks (OpList o)) = None →
    StronglySorted str_lt (record_id <$> l) →
    (∀ rec, rec ∈ l ↔ σ !! (o, record_id rec) = Some rec) →
    spec_step σ (OpList o) (AList l) σ
| spec_delete o id :
    first_error (checks (OpDelete o id)) = None →
    spec_step σ (OpDelete o id) (ADelete (bool_decide (is_Some (σ !! (o, id))))) (delete (o, id) σ).

Inductive spec_run : Spec → list Op → list Answer → Spec → Prop :=
| spec_run_nil σ : spec_run σ [] [] σ
| spec_run_cons σ op a σ' ops l σ'' :
    spec_step σ op a σ' → spec_run σ' ops l σ'' → spec_run σ (op :: ops) (a :: l) σ''.

(** The abstract map of a store. *)
Definition abs (s : MemoryStore) : Spec := map_uncurry (M1:=gmap str) (M2:=gmap str) (M12:=gmap (str * str)) (records_by_owner s).

(** What every store reachable by the operations satisfies: no owner without
    records, every record under its identifier, inside the bounds. *)
Definition record_ok (rec : EncryptedRecord) : Prop :=
  valid_identifier (record_id rec) = true
  ∧ ciphertext rec ≠ [] ∧ Z.of_nat (length (ciphertext rec)) ≤ MAX_CIPHERTEXT_BYTES
  ∧ revision rec ≠ 0.

Record store_inv (s : MemoryStore) : Prop := {
  inv_owner : ∀ o records, records_by_owner s !! o = Some records →
    records ≠ ∅ ∧ valid_identifier o = true;
  inv_record : ∀ o records id rec, records_by_owner s !! o = Some records → records !! id = Some rec →
    record_id rec = id ∧ record_ok rec;
}.

(** ** The order of identifiers *)

Lemma str_cmp_opp a b : str_cmp b a = CompOpp (str_cmp a b).
Proof.
  revert b. induction a as [|x a IH]; intros [|y b]; simpl; try done.
  rewrite (Z.compare_antisym x y). destruct (Z.compare_spec x y); simpl; [apply IH|done..].
Qed.

Lemma str_cmp_Eq a b : str_cmp a b = Eq ↔ a = b.
Proof.
  revert b. induction a as [|x a IH]; intros [|y b]; simpl; try done.
  destruct (Z.compare_spec x y) as [->|?|?].
  - rewrite IH. naive_solver.
  - split; [done|]. intros [= -> ->]. lia.
  - split; [done|]. intros [= -> ->]. lia.
Qed.

Lemma str_lt_trans a b c : str_lt a b → str_lt b c → str_lt a c.
Proof.
  unfold str_lt. revert b c. induction a as [|x a IH]; intros [|y b] [|z c]; simpl; try done.
  destruct (Z.compare_spec x y); try done; destruct (Z.compare_spec y z); try done;
    destruct (Z.compare_spec x z); try done; try lia. apply IH.
Qed.

Lemma record_le_spec l r :
  record_le l r ↔ str_lt (record_id l) (record_id r) ∨ record_id l = record_id r.
Proof.
  unfold record_le, str_lt. rewrite <-str_cmp_Eq. destruct (str_cmp _ _); naive_solver.
Qed.

#[local] Instance record_le_trans : Transitive record_le.
Proof.
  intros a b c. rewrite !record_le_spec. intros [?|?] [?|?].
  - left. by eapply str_lt_trans.
  - left. congruence.
  - left. congruence.
  - right. congruence.
Qed.

#[local] Instance record_le_total : Total record_le.
Proof.
  intros a b. unfold record_le. rewrite (str_cmp_opp (record_id a) (record_id b)).
  destruct (str_cmp _ _); simpl; naive_solver.
Qed.

(** Records with distinct identifiers come out in strict order. *)
Lemma StronglySorted_strict l :
  NoDup (record_id <$> l) → StronglySorted record_le l → StronglySorted str_lt (record_id <$> l).
Proof.
  induction l as [|a l IH]; simpl; intros Hnd Hs; [constructor|].
  apply StronglySorted_cons in Hs as [Ha Hs]. apply NoDup_cons in Hnd as [Hna Hnd].
  constructor; [by apply IH|]. apply Forall_fmap, Forall_forall. intros b Hb. simpl.
  rewrite Forall_forall in Ha. specialize (Ha b Hb). apply record_le_spec in Ha as [?|Heq]; [done|].
  destruct Hna. rewrite Heq. by apply list_elem_of_fmap_2.
Qed.

(** ** Refinement *)

Lemma abs_lookup s o id : abs s !! (o, id) = records_by_owner s !! o ≫= (.!! id).
Proof. apply lookup_map_uncurry. Qed.

Lemma store_inv_new : store_inv MemoryStore_new.
Proof. by constructor. Qed.

Lemma first_error_checks_put o id b v :
  and_then (validate_owner o) (λ _, and_then (validate_record_id id) (λ _,
    and_then (validate_ciphertext b) (λ _, if v == 0 then inr InvalidRevision else inl ()))) =
  match first_error (checks (OpPut o id b v)) with Some e => inr e | None => inl () end.
Proof.
  unfold validate_owner, validate_record_id, validate_ciphertext, first_error, and_then. simpl.
  destruct (valid_identifier o); [|done]. destruct (valid_identifier id); [|done].
  destruct (b == []); [done|]. simpl. rewrite Z.gtb_ltb, Z.ltb_antisym.
  destruct (Z.of_nat (length b) <=? MAX_CIPHERTEXT_BYTES); [|done]. by destruct (v == 0).
Qed.

Lemma first_error_checks_record o id :
  and_then (validate_owner o) (λ _, validate_record_id id) =
  match first_error (checks (OpGet o id)) with Some e => inr e | None => inl () end.
Proof.
  unfold validate_owner, validate_record_id, first_error, and_then. simpl.
  destruct (valid_identifier o); [|done]. by destruct (valid_identifier id).
Qed.

Lemma first_error_None l : first_error l = None → ∀ c, c ∈ l → c.1 = true.
Proof.
  unfold first_error. intros H%fmap_None%head_None c Hc. destruct c as [[] e]; [done|].
  assert ((false, e) ∈ where_ (λ c, negb c.1) l) as Hin by (by apply elem_of_where).
  rewrite H in Hin. by apply not_elem_of_nil in Hin.
Qed.

Lemma put_inv o id b v s :
  store_inv s → first_error (checks (OpPut o id b v)) = None →
  store_inv (MkStore (<[o := <[id := MkRecord id b v]> (default ∅ (records_by_owner s !! o))]>
                        (records_by_owner s))).
Proof.
  intros Hinv Hc. pose proof (first_error_None _ Hc) as Hok. simpl in Hok.
  assert (Ho : valid_identifier o = true) by (apply (Hok (_, InvalidOwner)); set_solver).
  assert (Hrec : record_ok (MkRecord id b v)).
  { split_and!; simpl.
    - apply (Hok (_, InvalidRecordId)); set_solver.
    - assert (negb (b == []) = true) by (apply (Hok (_, EmptyCiphertext)); set_solver). by bools.
    - apply Z.leb_le, (Hok (_, CiphertextTooLarge)); set_solver.
    - assert (negb (v == 0) = true) by (apply (Hok (_, InvalidRevision)); set_solver). by bools. }
  constructor; simpl.
  - intros o' records. destruct (decide (o' = o)) as [->|Hne].
    + rewrite lookup_insert_eq. intros [= <-]. split; [apply insert_non_empty|done].
    + rewrite lookup_insert_ne by done. apply Hinv.
  - intros o' records id' rec. destruct (decide (o' = o)) as [->|Hne].
    + rewrite lookup_insert_eq. intros [= <-]. destruct (decide (id' = id)) as [->|Hne].
      * rewrite lookup_insert_eq. by intros [= <-].
      * rewrite lookup_insert_ne by done. intros Hl.
        destruct (records_by_owner s !! o) as [rs|] eqn:E; simpl in Hl; [|by rewrite lookup_empty in Hl].
        by apply (inv_record _ Hinv o rs).
    + rewrite lookup_insert_ne by done. apply Hinv.
Qed.

Lemma delete_inv o id records s :
  store_inv s → records_by_owner s !! o = Some records →
  store_inv (if delete id records == ∅ then MkStore (delete o (records_by_owner s))
             else MkStore (<[o := delete id records]> (records_by_owner s))).
Proof.
  intros Hinv Hr. destruct (delete id records == ∅) eqn:He; bools; constructor; simpl.
  - intros o' rs [_ Hl]%lookup_delete_Some. by apply Hinv.
  - intros o' rs id' rec [_ Hl]%lookup_delete_Some. by eapply Hinv.
  - intros o' rs Hl. apply lookup_insert_Some in Hl as [[<- <-]|[_ Hl]]; [|by apply Hinv].
    split; [done|]. by eapply Hinv.
  - intros o' rs id' rec Hl. apply lookup_insert_Some in Hl as [[<- <-]|[_ Hl]]; [|by eapply Hinv].
    intros [_ Hl]%lookup_delete_Some. by eapply Hinv.
Qed.

Lemma list_spec o s :
  store_inv s →
  let l := merge_sort record_le (match records_by_owner s !! o with
             | Some records => (map_to_list records).*2 | None => [] end) in
  StronglySorted str_lt (record_id <$> l) ∧ (∀ rec, rec ∈ l ↔ abs s !! (o, record_id rec) = Some rec).
Proof.
  intros Hinv. set (l0 := match _ with Some _ => _ | None => _ end). intros l.
  assert (Hperm : l ≡ₚ l0) by apply merge_sort_Permutation.
  assert (Hkeys : ∀ records, records_by_owner s !! o = Some records →
    record_id <$> (map_to_list records).*2 = (map_to_list records).*1).
  { intros records Hr. rewrite <-list_fmap_compose. apply list_fmap_ext. intros i [k rec] Hi. simpl.
    apply (inv_record _ Hinv o records); [done|]. apply list_elem_of_lookup_2 in Hi. by apply elem_of_map_to_list. }
  split.
  - apply StronglySorted_strict; [|apply StronglySorted_merge_sort; apply _].
    rewrite Hperm. unfold l0. destruct (records_by_owner s !! o) as [records|] eqn:Hr; [|constructor].
    rewrite (Hkeys records) by done. apply NoDup_fst_map_to_list.
  - intros rec. rewrite Hperm, abs_lookup. unfold l0.
    destruct (records_by_owner s !! o) as [records|] eqn:Hr; simpl; [|split; [by intros ?%not_elem_of_nil|done]].
    rewrite list_elem_of_fmap. split.
    + intros ([k rec'] & -> & Hk%elem_of_map_to_list). simpl.
      destruct (inv_record _ Hinv o records k rec' Hr Hk) as [-> _]. done.
    + intros Hk. exists (record_id rec, rec). split; [done|]. by apply elem_of_map_to_list.
Qed.

Lemma abs_put o id rec s :
  abs (MkStore (<[o := <[id := rec]> (default ∅ (records_by_owner s !! o))]> (records_by_owner s)))
  = <[(o, id) := rec]> (abs s).
Proof.
  apply map_eq. intros [o' id']. rewrite abs_lookup. simpl.
  destruct (decide (o' = o)) as [->|Hne].
  - rewrite lookup_insert_eq. simpl. destruct (decide (id' = id)) as [->|Hne].
    + by rewrite !lookup_insert_eq.
    + rewrite !lookup_insert_ne by congruence. rewrite abs_lookup.
      destruct (records_by_owner s !! o); [done|]. simpl. by rewrite lookup_empty.
  - by rewrite !lookup_insert_ne, abs_lookup by congruence.
Qed.

Lemma abs_delete o id records s :
  records_by_owner s !! o = Some records →
  abs (if delete id records == ∅ then MkStore (delete o (records_by_owner s))
       else MkStore (<[o := delete id records]> (records_by_owner s))) = delete (o, id) (abs s).
Proof.
  intros Hr. apply map_eq. intros [o' id']. rewrite abs_lookup.
  destruct (decide ((o, id) = (o', id'))) as [[= <- <-]|Hne];
    [rewrite lookup_delete_eq|rewrite lookup_delete_ne, abs_lookup by done];
    destruct (delete id records == ∅) eqn:Hemp; bools; simpl.
  - by rewrite lookup_delete_eq.
  - rewrite lookup_insert_eq. simpl. by rewrite lookup_delete_eq.
  - destruct (decide (o = o')) as [<-|Hneo]; [|by rewrite lookup_delete_ne].
    rewrite lookup_delete_eq, Hr. simpl. rewrite <-(lookup_delete_ne records id id') by congruence.
    by rewrite Hemp, lookup_empty.
  - destruct (decide (o = o')) as [<-|Hneo]; [|by rewrite lookup_insert_ne].
    rewrite lookup_insert_eq, Hr. simpl. by rewrite lookup_delete_ne by congruence.
Qed.

Lemma get_answer o id s :
  answer AGet (MemoryStore_get o id s) =
  match first_error (checks (OpGet o id)) with Some e => AError e | None => AGet (abs s !! (o, id)) end.
Proof.
  rewrite abs_lookup. unfold MemoryStore_get, validate_owner, validate_record_id, first_error. simpl.
  destruct (valid_identifier o); [|done]. by destruct (valid_identifier id).
Qed.

Lemma step_refines op s a s' :
  store_inv s → step op s = (a, s') → spec_step (abs s) op a (abs s') ∧ store_inv s'.
Proof.
  intros Hinv. destruct op as [o id b v|o id|o|o id]; simpl.
  - unfold MemoryStore_put. rewrite first_error_checks_put.
    destruct (first_error _) as [e|] eqn:He; intros [= <- <-]; [by split; [apply spec_error|]|].
    split; [|by apply put_inv]. rewrite abs_put. by apply spec_put.
  - rewrite get_answer. intros [= <- <-]. split; [|done].
    destruct (first_error _) as [e|] eqn:He; [by apply spec_error|by apply spec_get].
  - unfold MemoryStore_list, validate_owner. intros [= <- <-]. split; [|done].
    destruct (valid_identifier o) eqn:Ho; simpl.
    + apply spec_list; [by unfold first_error; simpl; rewrite Ho|..]; by apply list_spec.
    + apply spec_error. unfold first_error. simpl. by rewrite Ho.
  - unfold MemoryStore_delete. rewrite first_error_checks_record.
    change (checks (OpGet o id)) with (checks (OpDelete o id)).
    destruct (first_error _) as [e|] eqn:He; [intros [= <- <-]; by split; [apply spec_error|]|].
    destruct (records_by_owner s !! o) as [records|] eqn:Hr; intros [= <- <-]; (split; [|try done; by apply delete_inv]).
    + rewrite (abs_delete o id records) by done.
      replace (records !! id) with (abs s !! (o, id)) by (by rewrite abs_lookup, Hr). by apply spec_delete.
    + assert (Hno : abs s !! (o, id) = None) by (by rewrite abs_lookup, Hr).
      rewrite <-(delete_id (abs s) (o, id)) at 2 by done.
      replace false with (bool_decide (is_Some (abs s !! (o, id)))) by (by rewrite Hno).
      by apply spec_delete.
Qed.

(** C21: the owner-scoped store implements one finite map from owner and record
    identifier to records. For every sequence of operations from the empty
    store, each answer, errors and their precedence included, is the one the
    map gives (a listing is strictly ordered by identifier and contains exactly
    the owner's records), and the final store satisfies the invariant. *)
Theorem memory_store_refines_map (ops : list Op) :
  let '(answers, s) := run ops MemoryStore_new in
  spec_run ∅ ops answers (abs s) ∧ store_inv s.
Proof.
  assert (H : ∀ s, store_inv s →
    let '(answers, s') := run ops s in spec_run (abs s) ops answers (abs s') ∧ store_inv s').
  { induction ops as [|op ops IH]; intros s Hinv; simpl; [split; [constructor|done]|].
    destruct (step op s) as [a s1] eqn:Hstep. destruct (step_refines _ _ _ _ Hinv Hstep) as [Hs Hinv1].
    specialize (IH s1 Hinv1). destruct (run ops s1) as [l s2]. destruct IH as [IH Hinv2].
    split; [|done]. by econstructor. }
  apply (H MemoryStore_new store_inv_new).
Qed.

(** ** Isolation of owners *)

Lemma step_frame op o s :
  op_owner op ≠ o → records_by_owner (step op s).2 !! o = records_by_owner s !! o.
Proof.
  intros Hne. destruct op as [o' id b v|o' id|o'|o' id]; simpl in *; [|done..|].
  - unfold MemoryStore_put. destruct (and_then _ _); [|done]. simpl. by rewrite lookup_insert_ne.
  - unfold MemoryStore_delete. destruct (and_then _ _); [|done].
    destruct (records_by_owner s !! o') as [records|]; [|done]. simpl.
    destruct (delete id records == ∅); simpl; [by rewrite lookup_delete_ne|by rewrite lookup_insert_ne].
Qed.

Lemma step_local op o s t :
  op_owner op = o → records_by_owner s !! o = records_by_owner t !! o →
  (step op s).1 = (step op t).1
  ∧ records_by_owner (step op s).2 !! o = records_by_owner (step op t).2 !! o.
Proof.
  intros <- Heq. destruct op as [o id b v|o id|o|o id]; simpl in *.
  - unfold MemoryStore_put. destruct (and_then _ _); [|done]. simpl. by rewrite Heq, !lookup_insert_eq.
  - unfold MemoryStore_get. by rewrite Heq.
  - unfold MemoryStore_list. by rewrite Heq.
  - unfold MemoryStore_delete. destruct (and_then _ _); [|done]. rewrite <-Heq.
    destruct (records_by_owner s !! o) as [records|] eqn:Hs; simpl; [|by rewrite Hs, <-Heq].
    split; [done|]. by destruct (delete id records == ∅); simpl; rewrite ?lookup_delete_eq, ?lookup_insert_eq.
Qed.

(** The answers that owner [o] receives in a run. *)
Definition answers_of (o : str) (ops : list Op) (answers : list Answer) : list Answer :=
  snd <$> where_ (λ oa, op_owner oa.1 == o) (zip ops answers).

(** owners are isolated. Whatever other owners do, in any interleaving, the
    answers that one owner receives are those of running its own operations
    alone on an empty store. *)
Theorem owner_noninterference (o : str) (ops : list Op) :
  answers_of o ops (run ops MemoryStore_new).1 =
  (run (where_ (λ op, op_owner op == o) ops) MemoryStore_new).1.
Proof.
  assert (H : ∀ s t, records_by_owner s !! o = records_by_owner t !! o →
    answers_of o ops (run ops s).1 = (run (where_ (λ op, op_owner op == o) ops) t).1); [|by apply H].
  induction ops as [|op ops IH]; intros s t Heq; [done|]. simpl.
  destruct (step op s) as [a s'] eqn:Hs. destruct (run ops s') as [l s''] eqn:Hr. simpl.
  unfold answers_of in *. simpl. destruct (decide (op_owner op = o)) as [Ho|Ho].
  - rewrite !bool_decide_true by done. simpl.
    destruct (step_local op o s t Ho Heq) as [Ha Hst]. rewrite Hs in Ha, Hst. simpl in *.
    destruct (step op t) as [a' t'] eqn:Ht. simpl in *. subst a'.
    specialize (IH s' t' Hst). rewrite Hr in IH. simpl in IH.
    destruct (run (where_ _ ops) t') as [l' t'']. simpl in *. f_equal. exact IH.
  - rewrite !bool_decide_false by done. specialize (IH s' t). rewrite Hr in IH. apply IH.
    pose proof (step_frame op o s Ho) as Hf. rewrite Hs in Hf. simpl in Hf. congruence.
Qed.

(** Readiness fails closed: production is ready exactly when no gate is
    blocked, and with the gates of this revision the command line reports
    failure for [ready], every gate being blocked. *)
Lemma readiness_fails_closed :
  (production_ready = true ↔ blocked_gate_names = [])
  ∧ main (Some "ready") = 1
  ∧ blocked_gate_names = name <$> REQUIRED_PRODUCTION_GATES.
Proof. by vm_compute. Qed.
End Native.
