(* ===== verification/Schema.v ===== *)
(** The relational state of the server.

    One record per table row, with the fields of the Rust struct that Diesel
    loads it into (src/src/db/models), and one record [DB] with a finite map per
    table of src/src/db/schema.rs, from the primary key to the row. Ids, e-mail
    addresses and encrypted blobs are strings, instants are integers
    (microseconds), [i32] and [i64] columns are [Z].

    The [set_f] functions update one field of a row, or one table of [DB]. *)
From S2P Require Import Prelude.

(** [Vec<u8>]. *)
Notation bytes := (list Z) (only parsing).

(** The JSON document kept in [users.stamp_exception]. *)
Module UserStampException.
Record t := mk { routes : list string; security_stamp : string; expire : Z }.
End UserStampException.

Module User.
Record t := mk {
  uuid : string; enabled : bool; created_at : Z; updated_at : Z; verified_at : option Z;
  last_verifying_at : option Z; login_verify_count : Z; email : string;
  email_new : option string; email_new_token : option string; name : string;
  password_hash : bytes; salt : bytes; password_iterations : Z; password_hint : option string;
  akey : string; private_key : option string; public_key : option string;
  totp_secret : option string; totp_recover : option string; security_stamp : string;
  stamp_exception : option UserStampException.t; equivalent_domains : string;
  excluded_globals : string; client_kdf_type : Z; client_kdf_iter : Z;
  client_kdf_memory : option Z; client_kdf_parallelism : option Z; api_key : option string;
  avatar_color : option string; external_id : option string
}.
Definition eta (r : t) : t :=
  mk (uuid r) (enabled r) (created_at r) (updated_at r) (verified_at r) (last_verifying_at r)
    (login_verify_count r) (email r) (email_new r) (email_new_token r) (name r)
    (password_hash r) (salt r) (password_iterations r) (password_hint r) (akey r)
    (private_key r) (public_key r) (totp_secret r) (totp_recover r) (security_stamp r)
    (stamp_exception r) (equivalent_domains r) (excluded_globals r) (client_kdf_type r)
    (client_kdf_iter r) (client_kdf_memory r) (client_kdf_parallelism r) (api_key r)
    (avatar_color r) (external_id r).
Definition set_updated_at : (Z → Z) → t → t :=
  ltac:(make_setter eta updated_at).
Definition set_akey : (string → string) → t → t :=
  ltac:(make_setter eta akey).
Definition set_security_stamp : (string → string) → t → t :=
  ltac:(make_setter eta security_stamp).
Definition set_stamp_exception : ((option UserStampException.t) → (option UserStampException.t)) → t → t :=
  ltac:(make_setter eta stamp_exception).
Definition set_password_hash : (bytes → bytes) → t → t :=
  ltac:(make_setter eta password_hash).
Definition set_enabled : (bool → bool) → t → t :=
  ltac:(make_setter eta enabled).
Definition set_verified_at : ((option Z) → (option Z)) → t → t :=
  ltac:(make_setter eta verified_at).
Definition set_totp_recover : ((option string) → (option string)) → t → t :=
  ltac:(make_setter eta totp_recover).
Definition set_private_key : ((option string) → (option string)) → t → t :=
  ltac:(make_setter eta private_key).
Definition set_public_key : ((option string) → (option string)) → t → t :=
  ltac:(make_setter eta public_key).
Definition set_email : (string → string) → t → t :=
  ltac:(make_setter eta email).
Definition set_email_new : ((option string) → (option string)) → t → t :=
  ltac:(make_setter eta email_new).
Definition set_email_new_token : ((option string) → (option string)) → t → t :=
  ltac:(make_setter eta email_new_token).
Definition set_name : (string → string) → t → t :=
  ltac:(make_setter eta name).
Definition set_client_kdf_type : (Z → Z) → t → t :=
  ltac:(make_setter eta client_kdf_type).
Definition set_client_kdf_iter : (Z → Z) → t → t :=
  ltac:(make_setter eta client_kdf_iter).
Definition set_client_kdf_memory : ((option Z) → (option Z)) → t → t :=
  ltac:(make_setter eta client_kdf_memory).
Definition set_client_kdf_parallelism : ((option Z) → (option Z)) → t → t :=
  ltac:(make_setter eta client_kdf_parallelism).
Definition set_api_key : ((option string) → (option string)) → t → t :=
  ltac:(make_setter eta api_key).
Definition set_password_hint : ((option string) → (option string)) → t → t :=
  ltac:(make_setter eta password_hint).
Definition set_last_verifying_at : ((option Z) → (option Z)) → t → t :=
  ltac:(make_setter eta last_verifying_at).
Definition set_login_verify_count : (Z → Z) → t → t :=
  ltac:(make_setter eta login_verify_count).
Definition set_avatar_color : ((option string) → (option string)) → t → t :=
  ltac:(make_setter eta avatar_color).
Definition set_password_iterations : (Z → Z) → t → t :=
  ltac:(make_setter eta password_iterations).
End User.

Module Device.
Record t := mk {
  uuid : string; created_at : Z; updated_at : Z; user_uuid : string; name : string; atype : Z;
  push_uuid : option string; push_token : option string; refresh_token : string;
  twofactor_remember : option string
}.
Definition eta (r : t) : t :=
  mk (uuid r) (created_at r) (updated_at r) (user_uuid r) (name r) (atype r) (push_uuid r)
    (push_token r) (refresh_token r) (twofactor_remember r).
Definition set_updated_at : (Z → Z) → t → t :=
  ltac:(make_setter eta updated_at).
Definition set_refresh_token : (string → string) → t → t :=
  ltac:(make_setter eta refresh_token).
Definition set_push_token : ((option string) → (option string)) → t → t :=
  ltac:(make_setter eta push_token).
Definition set_twofactor_remember : ((option string) → (option string)) → t → t :=
  ltac:(make_setter eta twofactor_remember).
Definition set_push_uuid : ((option string) → (option string)) → t → t :=
  ltac:(make_setter eta push_uuid).
End Device.

Module Organization.
Record t := mk {
  uuid : string; name : string; billing_email : string; private_key : option string;
  public_key : option string
}.
Definition eta (r : t) : t :=
  mk (uuid r) (name r) (billing_email r) (private_key r) (public_key r).
Definition set_name : (string → string) → t → t :=
  ltac:(make_setter eta name).
Definition set_billing_email : (string → string) → t → t :=
  ltac:(make_setter eta billing_email).
Definition set_private_key : ((option string) → (option string)) → t → t :=
  ltac:(make_setter eta private_key).
Definition set_public_key : ((option string) → (option string)) → t → t :=
  ltac:(make_setter eta public_key).
End Organization.

Module Membership.
Record t := mk {
  uuid : string; user_uuid : string; org_uuid : string; invited_by_email : option string;
  access_all : bool; akey : string; status : Z; atype : Z; reset_password_key : option string;
  external_id : option string
}.
#[global] Instance t_eq_dec : EqDecision t.
Proof. solve_decision. Defined.
Definition eta (r : t) : t :=
  mk (uuid r) (user_uuid r) (org_uuid r) (invited_by_email r) (access_all r) (akey r) (status r)
    (atype r) (reset_password_key r) (external_id r).
Definition set_status : (Z → Z) → t → t :=
  ltac:(make_setter eta status).
Definition set_atype : (Z → Z) → t → t :=
  ltac:(make_setter eta atype).
Definition set_access_all : (bool → bool) → t → t :=
  ltac:(make_setter eta access_all).
Definition set_akey : (string → string) → t → t :=
  ltac:(make_setter eta akey).
Definition set_external_id : ((option string) → (option string)) → t → t :=
  ltac:(make_setter eta external_id).
Definition set_reset_password_key : ((option string) → (option string)) → t → t :=
  ltac:(make_setter eta reset_password_key).
Definition set_invited_by_email : ((option string) → (option string)) → t → t :=
  ltac:(make_setter eta invited_by_email).
End Membership.

Module OrganizationApiKey.
Record t := mk {
  uuid : string; org_uuid : string; atype : Z; api_key : string; revision_date : Z
}.
Definition eta (r : t) : t :=
  mk (uuid r) (org_uuid r) (atype r) (api_key r) (revision_date r).
Definition set_api_key : (string → string) → t → t :=
  ltac:(make_setter eta api_key).
Definition set_revision_date : (Z → Z) → t → t :=
  ltac:(make_setter eta revision_date).
End OrganizationApiKey.

Module Cipher.
Record t := mk {
  uuid : string; created_at : Z; updated_at : Z; user_uuid : option string;
  organization_uuid : option string; key : option string; atype : Z; name : string;
  notes : option string; fields : option string; data : string;
  password_history : option string; deleted_at : option Z; reprompt : option Z
}.
#[global] Instance t_eq_dec : EqDecision t.
Proof. solve_decision. Defined.
Definition eta (r : t) : t :=
  mk (uuid r) (created_at r) (updated_at r) (user_uuid r) (organization_uuid r) (key r)
    (atype r) (name r) (notes r) (fields r) (data r) (password_history r) (deleted_at r)
    (reprompt r).
Definition set_updated_at : (Z → Z) → t → t :=
  ltac:(make_setter eta updated_at).
Definition set_user_uuid : ((option string) → (option string)) → t → t :=
  ltac:(make_setter eta user_uuid).
Definition set_organization_uuid : ((option string) → (option string)) → t → t :=
  ltac:(make_setter eta organization_uuid).
Definition set_deleted_at : ((option Z) → (option Z)) → t → t :=
  ltac:(make_setter eta deleted_at).
Definition set_key : ((option string) → (option string)) → t → t :=
  ltac:(make_setter eta key).
Definition set_name : (string → string) → t → t :=
  ltac:(make_setter eta name).
Definition set_notes : ((option string) → (option string)) → t → t :=
  ltac:(make_setter eta notes).
Definition set_fields : ((option string) → (option string)) → t → t :=
  ltac:(make_setter eta fields).
Definition set_data : (string → string) → t → t :=
  ltac:(make_setter eta data).
Definition set_password_history : ((option string) → (option string)) → t → t :=
  ltac:(make_setter eta password_history).
Definition set_reprompt : ((option Z) → (option Z)) → t → t :=
  ltac:(make_setter eta reprompt).
End Cipher.

Module Attachment.
Record t := mk {
  id : string; cipher_uuid : string; file_name : string; file_size : Z; akey : option string
}.
#[global] Instance t_eq_dec : EqDecision t.
Proof. solve_decision. Defined.
Definition eta (r : t) : t := mk (id r) (cipher_uuid r) (file_name r) (file_size r) (akey r).
Definition set_file_name : (string → string) → t → t := ltac:(make_setter eta file_name).
Definition set_file_size : (Z → Z) → t → t := ltac:(make_setter eta file_size).
Definition set_akey : (option string → option string) → t → t := ltac:(make_setter eta akey).
End Attachment.

Module Folder.
Record t := mk {
  uuid : string; created_at : Z; updated_at : Z; user_uuid : string; name : string
}.
#[global] Instance t_eq_dec : EqDecision t.
Proof. solve_decision. Defined.
Definition eta (r : t) : t :=
  mk (uuid r) (created_at r) (updated_at r) (user_uuid r) (name r).
Definition set_updated_at : (Z → Z) → t → t :=
  ltac:(make_setter eta updated_at).
Definition set_name : (string → string) → t → t :=
  ltac:(make_setter eta name).
End Folder.

Module FolderCipher.
Record t := mk {
  cipher_uuid : string; folder_uuid : string
}.
#[global] Instance t_eq_dec : EqDecision t.
Proof. solve_decision. Defined.
End FolderCipher.

Module Favorite.
Record t := mk {
  user_uuid : string; cipher_uuid : string
}.
End Favorite.

Module Archive.
Record t := mk {
  user_uuid : string; cipher_uuid : string; archived_at : Z
}.
End Archive.

Module Collection.
Record t := mk {
  uuid : string; org_uuid : string; name : string; external_id : option string
}.
#[global] Instance t_eq_dec : EqDecision t.
Proof. solve_decision. Defined.
Definition eta (r : t) : t :=
  mk (uuid r) (org_uuid r) (name r) (external_id r).
Definition set_external_id : ((option string) → (option string)) → t → t :=
  ltac:(make_setter eta external_id).
Definition set_name : (string → string) → t → t :=
  ltac:(make_setter eta name).
End Collection.

Module CollectionUser.
Record t := mk {
  user_uuid : string; collection_uuid : string; read_only : bool; hide_passwords : bool;
  manage : bool
}.
End CollectionUser.

Module CollectionCipher.
Record t := mk {
  cipher_uuid : string; collection_uuid : string
}.
#[global] Instance t_eq_dec : EqDecision t.
Proof. solve_decision. Defined.
End CollectionCipher.

Module Group.
Record t := mk {
  uuid : string; organizations_uuid : string; name : string; access_all : bool;
  external_id : option string; creation_date : Z; revision_date : Z
}.
Definition eta (r : t) : t :=
  mk (uuid r) (organizations_uuid r) (name r) (access_all r) (external_id r) (creation_date r)
    (revision_date r).
Definition set_revision_date : (Z → Z) → t → t :=
  ltac:(make_setter eta revision_date).
Definition set_external_id : ((option string) → (option string)) → t → t :=
  ltac:(make_setter eta external_id).
Definition set_name : (string → string) → t → t :=
  ltac:(make_setter eta name).
Definition set_access_all : (bool → bool) → t → t :=
  ltac:(make_setter eta access_all).
End Group.

Module CollectionGroup.
Record t := mk {
  collections_uuid : string; groups_uuid : string; read_only : bool; hide_passwords : bool;
  manage : bool
}.
#[global] Instance t_eq_dec : EqDecision t.
Proof. solve_decision. Defined.
Definition eta (r : t) : t :=
  mk (collections_uuid r) (groups_uuid r) (read_only r) (hide_passwords r) (manage r).
Definition set_read_only : (bool → bool) → t → t :=
  ltac:(make_setter eta read_only).
Definition set_hide_passwords : (bool → bool) → t → t :=
  ltac:(make_setter eta hide_passwords).
Definition set_manage : (bool → bool) → t → t :=
  ltac:(make_setter eta manage).
End CollectionGroup.

Module GroupUser.
Record t := mk {
  groups_uuid : string; users_organizations_uuid : string
}.
#[global] Instance t_eq_dec : EqDecision t.
Proof. solve_decision. Defined.
End GroupUser.

Module OrgPolicy.
Record t := mk {
  uuid : string; org_uuid : string; atype : Z; enabled : bool; data : string
}.
#[global] Instance t_eq_dec : EqDecision t.
Proof. solve_decision. Defined.
Definition eta (r : t) : t :=
  mk (uuid r) (org_uuid r) (atype r) (enabled r) (data r).
Definition set_enabled : (bool → bool) → t → t :=
  ltac:(make_setter eta enabled).
Definition set_data : (string → string) → t → t :=
  ltac:(make_setter eta data).
End OrgPolicy.

Module TwoFactor.
Record t := mk {
  uuid : string; user_uuid : string; atype : Z; enabled : bool; data : string; last_used : Z
}.
#[global] Instance t_eq_dec : EqDecision t.
Proof. solve_decision. Defined.
Definition eta (r : t) : t :=
  mk (uuid r) (user_uuid r) (atype r) (enabled r) (data r) (last_used r).
Definition set_data : (string → string) → t → t :=
  ltac:(make_setter eta data).
Definition set_last_used : (Z → Z) → t → t :=
  ltac:(make_setter eta last_used).
Definition set_enabled : (bool → bool) → t → t :=
  ltac:(make_setter eta enabled).
End TwoFactor.

Module TwoFactorIncomplete.
Record t := mk {
  user_uuid : string; device_uuid : string; device_name : string; device_type : Z;
  login_time : Z; ip_address : string
}.
#[global] Instance t_eq_dec : EqDecision t.
Proof. solve_decision. Defined.
End TwoFactorIncomplete.

Module Send.
Record t := mk {
  uuid : string; user_uuid : option string; organization_uuid : option string; name : string;
  notes : option string; atype : Z; data : string; akey : string; password_hash : option bytes;
  password_salt : option bytes; password_iter : option Z; max_access_count : option Z;
  access_count : Z; creation_date : Z; revision_date : Z; expiration_date : option Z;
  deletion_date : Z; disabled : bool; hide_email : option bool
}.
Definition eta (r : t) : t :=
  mk (uuid r) (user_uuid r) (organization_uuid r) (name r) (notes r) (atype r) (data r) (akey r)
    (password_hash r) (password_salt r) (password_iter r) (max_access_count r) (access_count r)
    (creation_date r) (revision_date r) (expiration_date r) (deletion_date r) (disabled r)
    (hide_email r).
Definition set_access_count : (Z → Z) → t → t :=
  ltac:(make_setter eta access_count).
Definition set_revision_date : (Z → Z) → t → t :=
  ltac:(make_setter eta revision_date).
Definition set_password_hash : ((option bytes) → (option bytes)) → t → t :=
  ltac:(make_setter eta password_hash).
Definition set_password_salt : ((option bytes) → (option bytes)) → t → t :=
  ltac:(make_setter eta password_salt).
Definition set_password_iter : ((option Z) → (option Z)) → t → t :=
  ltac:(make_setter eta password_iter).
Definition set_user_uuid : ((option string) → (option string)) → t → t :=
  ltac:(make_setter eta user_uuid).
Definition set_name : (string → string) → t → t :=
  ltac:(make_setter eta name).
Definition set_notes : ((option string) → (option string)) → t → t :=
  ltac:(make_setter eta notes).
Definition set_data : (string → string) → t → t :=
  ltac:(make_setter eta data).
Definition set_akey : (string → string) → t → t :=
  ltac:(make_setter eta akey).
Definition set_max_access_count : ((option Z) → (option Z)) → t → t :=
  ltac:(make_setter eta max_access_count).
Definition set_expiration_date : ((option Z) → (option Z)) → t → t :=
  ltac:(make_setter eta expiration_date).
Definition set_deletion_date : (Z → Z) → t → t :=
  ltac:(make_setter eta deletion_date).
Definition set_disabled : (bool → bool) → t → t :=
  ltac:(make_setter eta disabled).
Definition set_hide_email : ((option bool) → (option bool)) → t → t :=
  ltac:(make_setter eta hide_email).
End Send.

Module EmergencyAccess.
Record t := mk {
  uuid : string; grantor_uuid : string; grantee_uuid : option string; email : option string;
  key_encrypted : option string; atype : Z; status : Z; wait_time_days : Z;
  recovery_initiated_at : option Z; last_notification_at : option Z; updated_at : Z;
  created_at : Z
}.
#[global] Instance t_eq_dec : EqDecision t.
Proof. solve_decision. Defined.
Definition eta (r : t) : t :=
  mk (uuid r) (grantor_uuid r) (grantee_uuid r) (email r) (key_encrypted r) (atype r) (status r)
    (wait_time_days r) (recovery_initiated_at r) (last_notification_at r) (updated_at r)
    (created_at r).
Definition set_status : (Z → Z) → t → t :=
  ltac:(make_setter eta status).
Definition set_grantee_uuid : ((option string) → (option string)) → t → t :=
  ltac:(make_setter eta grantee_uuid).
Definition set_email : ((option string) → (option string)) → t → t :=
  ltac:(make_setter eta email).
Definition set_key_encrypted : ((option string) → (option string)) → t → t :=
  ltac:(make_setter eta key_encrypted).
Definition set_recovery_initiated_at : ((option Z) → (option Z)) → t → t :=
  ltac:(make_setter eta recovery_initiated_at).
Definition set_last_notification_at : ((option Z) → (option Z)) → t → t :=
  ltac:(make_setter eta last_notification_at).
Definition set_updated_at : (Z → Z) → t → t :=
  ltac:(make_setter eta updated_at).
Definition set_atype : (Z → Z) → t → t :=
  ltac:(make_setter eta atype).
Definition set_wait_time_days : (Z → Z) → t → t :=
  ltac:(make_setter eta wait_time_days).
End EmergencyAccess.

Module AuthRequest.
Record t := mk {
  uuid : string; user_uuid : string; organization_uuid : option string;
  request_device_identifier : string; device_type : Z; request_ip : string;
  response_device_id : option string; access_code : string; public_key : string;
  enc_key : option string; master_password_hash : option string; approved : option bool;
  creation_date : Z; response_date : option Z; authentication_date : option Z
}.
#[global] Instance t_eq_dec : EqDecision t.
Proof. solve_decision. Defined.
Definition eta (r : t) : t :=
  mk (uuid r) (user_uuid r) (organization_uuid r) (request_device_identifier r) (device_type r)
    (request_ip r) (response_device_id r) (access_code r) (public_key r) (enc_key r)
    (master_password_hash r) (approved r) (creation_date r) (response_date r)
    (authentication_date r).
Definition set_approved : ((option bool) → (option bool)) → t → t :=
  ltac:(make_setter eta approved).
Definition set_enc_key : ((option string) → (option string)) → t → t :=
  ltac:(make_setter eta enc_key).
Definition set_master_password_hash : ((option string) → (option string)) → t → t :=
  ltac:(make_setter eta master_password_hash).
Definition set_response_date : ((option Z) → (option Z)) → t → t :=
  ltac:(make_setter eta response_date).
Definition set_authentication_date : ((option Z) → (option Z)) → t → t :=
  ltac:(make_setter eta authentication_date).
Definition set_response_device_id : ((option string) → (option string)) → t → t :=
  ltac:(make_setter eta response_device_id).
End AuthRequest.

Module Invitation.
Record t := mk {
  email : string
}.
End Invitation.

Module SsoUser.
Record t := mk {
  user_uuid : string; identifier : string
}.
End SsoUser.

Module OIDCCodeResponseError.
Record t := mk { error : string; error_description : option string }.
End OIDCCodeResponseError.
(** [expires_in] is a duration in microseconds. *)
Module OIDCAuthenticatedUser.
Record t := mk {
  refresh_token : option string; access_token : string; expires_in : option Z; identifier : string;
  email : string; email_verified : option bool; user_name : option string
}.
End OIDCAuthenticatedUser.
Module SsoAuth.
Record t := mk {
  state : string; client_challenge : string; nonce : string; redirect_uri : string;
  code_response : option string; code_response_error : option OIDCCodeResponseError.t;
  auth_response : option OIDCAuthenticatedUser.t; created_at : Z; updated_at : Z;
  binding_hash : option string
}.
Definition eta (r : t) : t :=
  mk (state r) (client_challenge r) (nonce r) (redirect_uri r) (code_response r) (code_response_error r)
    (auth_response r) (created_at r) (updated_at r) (binding_hash r).
Definition set_code_response : (option string → option string) → t → t :=
  ltac:(make_setter eta code_response).
Definition set_code_response_error :
    (option OIDCCodeResponseError.t → option OIDCCodeResponseError.t) → t → t :=
  ltac:(make_setter eta code_response_error).
Definition set_auth_response :
    (option OIDCAuthenticatedUser.t → option OIDCAuthenticatedUser.t) → t → t :=
  ltac:(make_setter eta auth_response).
Definition set_updated_at : (Z → Z) → t → t :=
  ltac:(make_setter eta updated_at).
End SsoAuth.

(** ** The database *)

Record DB := MkDB {
  users : gmap string User.t;
  devices : gmap (string * string) Device.t;
  organizations : gmap string Organization.t;
  users_organizations : gmap string Membership.t;
  organization_api_key : gmap (string * string) OrganizationApiKey.t;
  ciphers : gmap string Cipher.t;
  attachments : gmap string Attachment.t;
  folders : gmap string Folder.t;
  folders_ciphers : gmap (string * string) FolderCipher.t;
  favorites : gmap (string * string) Favorite.t;
  archives : gmap (string * string) Archive.t;
  collections : gmap string Collection.t;
  users_collections : gmap (string * string) CollectionUser.t;
  ciphers_collections : gmap (string * string) CollectionCipher.t;
  groups : gmap string Group.t;
  collections_groups : gmap (string * string) CollectionGroup.t;
  groups_users : gmap (string * string) GroupUser.t;
  org_policies : gmap string OrgPolicy.t;
  twofactor : gmap string TwoFactor.t;
  twofactor_incomplete : gmap (string * string) TwoFactorIncomplete.t;
  sends : gmap string Send.t;
  emergency_access : gmap string EmergencyAccess.t;
  auth_requests : gmap string AuthRequest.t;
  invitations : gmap string Invitation.t;
  sso_users : gmap string SsoUser.t;
  sso_auth : gmap string SsoAuth.t
}.

Definition DB_eta (d : DB) : DB :=
  MkDB (users d) (devices d) (organizations d) (users_organizations d) (organization_api_key d)
    (ciphers d) (attachments d) (folders d) (folders_ciphers d) (favorites d) (archives d)
    (collections d) (users_collections d) (ciphers_collections d) (groups d)
    (collections_groups d) (groups_users d) (org_policies d) (twofactor d)
    (twofactor_incomplete d) (sends d) (emergency_access d) (auth_requests d) (invitations d)
    (sso_users d) (sso_auth d).

Definition set_users :
    (gmap string User.t → gmap string User.t) → DB → DB :=
  ltac:(make_setter DB_eta users).
Definition set_devices :
    (gmap (string * string) Device.t → gmap (string * string) Device.t) → DB → DB :=
  ltac:(make_setter DB_eta devices).
Definition set_organizations :
    (gmap string Organization.t → gmap string Organization.t) → DB → DB :=
  ltac:(make_setter DB_eta organizations).
Definition set_users_organizations :
    (gmap string Membership.t → gmap string Membership.t) → DB → DB :=
  ltac:(make_setter DB_eta users_organizations).
Definition set_organization_api_key :
    (gmap (string * string) OrganizationApiKey.t → gmap (string * string) OrganizationApiKey.t) → DB → DB :=
  ltac:(make_setter DB_eta organization_api_key).
Definition set_ciphers :
    (gmap string Cipher.t → gmap string Cipher.t) → DB → DB :=
  ltac:(make_setter DB_eta ciphers).
Definition set_attachments :
    (gmap string Attachment.t → gmap string Attachment.t) → DB → DB :=
  ltac:(make_setter DB_eta attachments).
Definition set_folders :
    (gmap string Folder.t → gmap string Folder.t) → DB → DB :=
  ltac:(make_setter DB_eta folders).
Definition set_folders_ciphers :
    (gmap (string * string) FolderCipher.t → gmap (string * string) FolderCipher.t) → DB → DB :=
  ltac:(make_setter DB_eta folders_ciphers).
Definition set_favorites :
    (gmap (string * string) Favorite.t → gmap (string * string) Favorite.t) → DB → DB :=
  ltac:(make_setter DB_eta favorites).
Definition set_archives :
    (gmap (string * string) Archive.t → gmap (string * string) Archive.t) → DB → DB :=
  ltac:(make_setter DB_eta archives).
Definition set_collections :
    (gmap string Collection.t → gmap string Collection.t) → DB → DB :=
  ltac:(make_setter DB_eta collections).
Definition set_users_collections :
    (gmap (string * string) CollectionUser.t → gmap (string * string) CollectionUser.t) → DB → DB :=
  ltac:(make_setter DB_eta users_collections).
Definition set_ciphers_collections :
    (gmap (string * string) CollectionCipher.t → gmap (string * string) CollectionCipher.t) → DB → DB :=
  ltac:(make_setter DB_eta ciphers_collections).
Definition set_groups :
    (gmap string Group.t → gmap string Group.t) → DB → DB :=
  ltac:(make_setter DB_eta groups).
Definition set_collections_groups :
    (gmap (string * string) CollectionGroup.t → gmap (string * string) CollectionGroup.t) → DB → DB :=
  ltac:(make_setter DB_eta collections_groups).
Definition set_groups_users :
    (gmap (string * string) GroupUser.t → gmap (string * string) GroupUser.t) → DB → DB :=
  ltac:(make_setter DB_eta groups_users).
Definition set_org_policies :
    (gmap string OrgPolicy.t → gmap string OrgPolicy.t) → DB → DB :=
  ltac:(make_setter DB_eta org_policies).
Definition set_twofactor :
    (gmap string TwoFactor.t → gmap string TwoFactor.t) → DB → DB :=
  ltac:(make_setter DB_eta twofactor).
Definition set_twofactor_incomplete :
    (gmap (string * string) TwoFactorIncomplete.t → gmap (string * string) TwoFactorIncomplete.t) → DB → DB :=
  ltac:(make_setter DB_eta twofactor_incomplete).
Definition set_sends :
    (gmap string Send.t → gmap string Send.t) → DB → DB :=
  ltac:(make_setter DB_eta sends).
Definition set_emergency_access :
    (gmap string EmergencyAccess.t → gmap string EmergencyAccess.t) → DB → DB :=
  ltac:(make_setter DB_eta emergency_access).
Definition set_auth_requests :
    (gmap string AuthRequest.t → gmap string AuthRequest.t) → DB → DB :=
  ltac:(make_setter DB_eta auth_requests).
Definition set_invitations :
    (gmap string Invitation.t → gmap string Invitation.t) → DB → DB :=
  ltac:(make_setter DB_eta invitations).
Definition set_sso_users :
    (gmap string SsoUser.t → gmap string SsoUser.t) → DB → DB :=
  ltac:(make_setter DB_eta sso_users).
Definition set_sso_auth :
    (gmap string SsoAuth.t → gmap string SsoAuth.t) → DB → DB :=
  ltac:(make_setter DB_eta sso_auth).

Definition empty_db : DB :=
  MkDB ∅ ∅ ∅ ∅ ∅ ∅ ∅ ∅ ∅ ∅ ∅ ∅ ∅ ∅ ∅ ∅ ∅ ∅ ∅ ∅ ∅ ∅ ∅ ∅ ∅ ∅.

(** Reduces a lookup of one table in an update of another. *)
Ltac db_simpl :=
  cbn [users devices organizations users_organizations organization_api_key ciphers attachments
    folders folders_ciphers favorites archives collections users_collections
    ciphers_collections groups collections_groups groups_users org_policies twofactor
    twofactor_incomplete sends emergency_access auth_requests invitations sso_users sso_auth set_users
    set_devices set_organizations set_users_organizations set_organization_api_key set_ciphers
    set_attachments set_folders set_folders_ciphers set_favorites set_archives set_collections
    set_users_collections set_ciphers_collections set_groups set_collections_groups
    set_groups_users set_org_policies set_twofactor set_twofactor_incomplete set_sends
    set_emergency_access set_auth_requests set_invitations set_sso_users set_sso_auth] in *.

(** ** What lies outside the program

    The clock, the configuration ([CONFIG.xyz()]), the object store that holds
    attachment files and the e-mail syntax check are arguments of the model. *)

Inductive PathType := Data | IconCache | Attachments | Sends | RsaKey.

(** The answer of [operator.delete(path)]. *)
Inductive StorageAnswer := StorageOk | StorageNotFound | StorageFailed.

Class Env := {
  (** [Utc::now()], constant during one request. *)
  now : Z;
  org_groups_enabled : bool;
  mail_enabled : bool;
  email_2fa_auto_fallback : bool;
  trash_auto_delete_days : option Z;
  (** [crate::util::is_valid_email]: the [email_address] and [url] crates. *)
  is_valid_email : string → bool;
  (** [CONFIG.opendal_operator_for_path_type(..)]: building the client of the
      object store can fail. *)
  opendal_operator_for_path_type : PathType → Res ();
  (** The object store behind [opendal]. *)
  storage_delete : string → StorageAnswer;
  incomplete_2fa_time_limit : Z;
  emergency_access_allowed : bool;
  invitations_allowed : bool;
  org_creation_users : string;
  signups_allowed : bool;
  signups_domains_whitelist : string;
  signups_verify : bool;
  (** [u64] and [u32]. *)
  signups_verify_resend_time : Z;
  signups_verify_resend_limit : Z;
  password_hints_allowed : bool;
  show_password_hint : bool;
  email_change_allowed : bool;
  password_iterations_setting : Z;
  enable_email_2fa : bool;
  email_2fa_enforce_on_verified_invite : bool;
  disable_2fa_remember : bool;
  require_device_email : bool;
  push_enabled : bool;
  sso_enabled : bool;
  sso_only : bool;
  enforce_single_org_with_reset_pw_policy : bool;
  email_attempts_limit : Z;
  email_expiration_time : Z;
  authenticator_disable_time_drift : bool;
  (** [mail::send_*] of a template to an address: the mail transport. *)
  send_mail : string → string → Res ();
  (** [ratelimit::check_limit_login] and [check_limit_unauthenticated] of an
      address: the counters of the governor crate. *)
  check_limit_login : string → Res ();
  check_limit_unauthenticated : string → Res ();
}.

(** The configuration at another time, or with another setting. *)
Definition Env_eta (E : Env) : Env := {|
  now := now;
  org_groups_enabled := org_groups_enabled;
  mail_enabled := mail_enabled;
  email_2fa_auto_fallback := email_2fa_auto_fallback;
  trash_auto_delete_days := trash_auto_delete_days;
  is_valid_email := is_valid_email;
  opendal_operator_for_path_type := opendal_operator_for_path_type;
  storage_delete := storage_delete;
  incomplete_2fa_time_limit := incomplete_2fa_time_limit;
  emergency_access_allowed := emergency_access_allowed;
  invitations_allowed := invitations_allowed;
  org_creation_users := org_creation_users;
  signups_allowed := signups_allowed;
  signups_domains_whitelist := signups_domains_whitelist;
  signups_verify := signups_verify;
  signups_verify_resend_time := signups_verify_resend_time;
  signups_verify_resend_limit := signups_verify_resend_limit;
  password_hints_allowed := password_hints_allowed;
  show_password_hint := show_password_hint;
  email_change_allowed := email_change_allowed;
  password_iterations_setting := password_iterations_setting;
  enable_email_2fa := enable_email_2fa;
  email_2fa_enforce_on_verified_invite := email_2fa_enforce_on_verified_invite;
  disable_2fa_remember := disable_2fa_remember;
  require_device_email := require_device_email;
  push_enabled := push_enabled;
  sso_enabled := sso_enabled;
  sso_only := sso_only;
  enforce_single_org_with_reset_pw_policy := enforce_single_org_with_reset_pw_policy;
  email_attempts_limit := email_attempts_limit;
  email_expiration_time := email_expiration_time;
  authenticator_disable_time_drift := authenticator_disable_time_drift;
  send_mail := send_mail;
  check_limit_login := check_limit_login;
  check_limit_unauthenticated := check_limit_unauthenticated
|}.
Definition set_now : (Z → Z) → Env → Env := ltac:(make_setter Env_eta (@now)).
Definition set_mail_enabled : (bool → bool) → Env → Env := ltac:(make_setter Env_eta (@mail_enabled)).
Definition set_send_mail : ((string → string → Res ()) → string → string → Res ()) → Env → Env :=
  ltac:(make_setter Env_eta (@send_mail)).

(** ** Statements

    The constraints are those of the migrations (src/migrations): a row is only
    written when the rows it references exist, and a row is only deleted when no
    row references it, except for the references declared ON DELETE CASCADE.
    Where the code has one branch per database, the model follows the
    PostgreSQL one. *)

(** [insert ... on conflict do update], refused with [msg] when a referenced row
    is missing ([ok] is the check of the references). *)
Definition save_row (ok : DB → bool) (f : DB → DB) (msg : string) : M DB () := λ d,
  if ok d then (Ok (), f d) else (Err (db_error msg), d).

(** [diesel::delete(t.filter(key.eq(..)))], refused when [referenced] holds. *)
Definition delete_row (referenced : DB → bool) (f : DB → DB) (msg : string) : M DB () := λ d,
  if referenced d then (Err (db_error msg), d) else (Ok (), f d).

Section keeps.
Context (R : relation DB) `{!PreOrder R}.

Lemma keeps_save_row ok f msg : (∀ d, R d (f d)) → keeps R (save_row ok f msg).
Proof. intros Hf d. unfold save_row. destruct (ok d); simpl; [apply Hf|reflexivity]. Qed.

Lemma keeps_delete_row rf f msg : (∀ d, R d (f d)) → keeps R (delete_row rf f msg).
Proof. intros Hf d. unfold delete_row. destruct (rf d); simpl; [reflexivity|apply Hf]. Qed.
End keeps.

(** [solve_keeps] with the two statements; what is left is [R d (f d)] for the
    updates [f]. *)
Ltac db_keeps :=
  repeat first
    [ progress solve_keeps
    | lazymatch goal with
      | |- keeps _ (save_row _ _ _) => apply keeps_save_row; [typeclasses eauto|intros]
      | |- keeps _ (delete_row _ _ _) => apply keeps_delete_row; [typeclasses eauto|intros]
      end ].

(** Presence of a key. *)
Definition has {K A} `{Countable K} (t : gmap K A) (k : K) : bool :=
  bool_decide (is_Some (t !! k)).

(** [SELECT ... WHERE p LIMIT 1] on one table. *)
Definition first {A} (l : list A) : option A := head l.

(** The references to a cipher that block its deletion: folders_ciphers,
    ciphers_collections, attachments, favorites. *)
Definition cipher_referenced (uuid : string) (d : DB) : bool :=
  nonempty (where_ (λ r, FolderCipher.cipher_uuid r == uuid) (rows (folders_ciphers d)))
  || nonempty (where_ (λ r, CollectionCipher.cipher_uuid r == uuid) (rows (ciphers_collections d)))
  || nonempty (where_ (λ r, Attachment.cipher_uuid r == uuid) (rows (attachments d)))
  || nonempty (where_ (λ r, Favorite.cipher_uuid r == uuid) (rows (favorites d))).

Definition collection_referenced (uuid : string) (d : DB) : bool :=
  nonempty (where_ (λ r, CollectionCipher.collection_uuid r == uuid) (rows (ciphers_collections d)))
  || nonempty (where_ (λ r, CollectionUser.collection_uuid r == uuid) (rows (users_collections d)))
  || nonempty (where_ (λ r, CollectionGroup.collections_uuid r == uuid) (rows (collections_groups d))).

Definition group_referenced (uuid : string) (d : DB) : bool :=
  nonempty (where_ (λ r, CollectionGroup.groups_uuid r == uuid) (rows (collections_groups d)))
  || nonempty (where_ (λ r, GroupUser.groups_uuid r == uuid) (rows (groups_users d))).

Definition member_referenced (uuid : string) (d : DB) : bool :=
  nonempty (where_ (λ r, GroupUser.users_organizations_uuid r == uuid) (rows (groups_users d))).

Definition folder_referenced (uuid : string) (d : DB) : bool :=
  nonempty (where_ (λ r, FolderCipher.folder_uuid r == uuid) (rows (folders_ciphers d))).

Definition organization_referenced (uuid : string) (d : DB) : bool :=
  nonempty (where_ (λ r, Cipher.organization_uuid r == Some uuid) (rows (ciphers d)))
  || nonempty (where_ (λ r, Collection.org_uuid r == uuid) (rows (collections d)))
  || nonempty (where_ (λ r, Membership.org_uuid r == uuid) (rows (users_organizations d)))
  || nonempty (where_ (λ r, OrgPolicy.org_uuid r == uuid) (rows (org_policies d)))
  || nonempty (where_ (λ r, Group.organizations_uuid r == uuid) (rows (groups d)))
  || nonempty (where_ (λ r, OrganizationApiKey.org_uuid r == uuid) (rows (organization_api_key d)))
  || nonempty (where_ (λ r, Send.organization_uuid r == Some uuid) (rows (sends d)))
  || nonempty (where_ (λ r, AuthRequest.organization_uuid r == Some uuid) (rows (auth_requests d))).

Definition user_referenced (uuid : string) (d : DB) : bool :=
  nonempty (where_ (λ r, Device.user_uuid r == uuid) (rows (devices d)))
  || nonempty (where_ (λ r, Cipher.user_uuid r == Some uuid) (rows (ciphers d)))
  || nonempty (where_ (λ r, Folder.user_uuid r == uuid) (rows (folders d)))
  || nonempty (where_ (λ r, CollectionUser.user_uuid r == uuid) (rows (users_collections d)))
  || nonempty (where_ (λ r, Membership.user_uuid r == uuid) (rows (users_organizations d)))
  || nonempty (where_ (λ r, TwoFactor.user_uuid r == uuid) (rows (twofactor d)))
  || nonempty (where_ (λ r, TwoFactorIncomplete.user_uuid r == uuid) (rows (twofactor_incomplete d)))
  || nonempty (where_ (λ r, Favorite.user_uuid r == uuid) (rows (favorites d)))
  || nonempty (where_ (λ r, Send.user_uuid r == Some uuid) (rows (sends d)))
  || nonempty (where_ (λ r, (EmergencyAccess.grantor_uuid r == uuid)
                            || (EmergencyAccess.grantee_uuid r == Some uuid))
                      (rows (emergency_access d)))
  || nonempty (where_ (λ r, AuthRequest.user_uuid r == uuid) (rows (auth_requests d))).

(** ** Deletion as a relation

    [shrinks d d']: every table of [d'] is contained in the one of [d], except
    that rows of [users] may have been touched; a deletion never adds a row. *)
Record shrinks (d d' : DB) : Prop := {
  sh_users : dom (users d') ⊆ dom (users d);
  sh_devices : devices d' ⊆ devices d;
  sh_organizations : organizations d' ⊆ organizations d;
  sh_users_organizations : users_organizations d' ⊆ users_organizations d;
  sh_organization_api_key : organization_api_key d' ⊆ organization_api_key d;
  sh_ciphers : ciphers d' ⊆ ciphers d;
  sh_attachments : attachments d' ⊆ attachments d;
  sh_folders : folders d' ⊆ folders d;
  sh_folders_ciphers : folders_ciphers d' ⊆ folders_ciphers d;
  sh_favorites : favorites d' ⊆ favorites d;
  sh_archives : archives d' ⊆ archives d;
  sh_collections : collections d' ⊆ collections d;
  sh_users_collections : users_collections d' ⊆ users_collections d;
  sh_ciphers_collections : ciphers_collections d' ⊆ ciphers_collections d;
  sh_groups : groups d' ⊆ groups d;
  sh_collections_groups : collections_groups d' ⊆ collections_groups d;
  sh_groups_users : groups_users d' ⊆ groups_users d;
  sh_org_policies : org_policies d' ⊆ org_policies d;
  sh_twofactor : twofactor d' ⊆ twofactor d;
  sh_twofactor_incomplete : twofactor_incomplete d' ⊆ twofactor_incomplete d;
  sh_sends : sends d' ⊆ sends d;
  sh_emergency_access : emergency_access d' ⊆ emergency_access d;
  sh_auth_requests : auth_requests d' ⊆ auth_requests d;
  sh_invitations : invitations d' ⊆ invitations d;
  sh_sso_users : sso_users d' ⊆ sso_users d;
  sh_sso_auth : sso_auth d' ⊆ sso_auth d
}.

#[export] Instance shrinks_preorder : PreOrder shrinks.
Proof.
  split.
  - intros d. by constructor.
  - intros d1 d2 d3 [] []. constructor; (etrans; eassumption).
Qed.

(** ** Well-formed databases

    Every row is stored under its own primary key, and the UNIQUE constraints of
    the migrations hold. *)
Record wf (d : DB) : Prop := {
  wf_users : map_Forall (λ k r, User.uuid r = k) (users d);
  wf_devices : map_Forall (λ k r, (Device.uuid r, Device.user_uuid r) = k) (devices d);
  wf_organizations : map_Forall (λ k r, Organization.uuid r = k) (organizations d);
  wf_members : map_Forall (λ k r, Membership.uuid r = k) (users_organizations d);
  wf_ciphers : map_Forall (λ k r, Cipher.uuid r = k) (ciphers d);
  wf_folders : map_Forall (λ k r, Folder.uuid r = k) (folders d);
  wf_collections : map_Forall (λ k r, Collection.uuid r = k) (collections d);
  wf_users_collections :
    map_Forall (λ k r, (CollectionUser.user_uuid r, CollectionUser.collection_uuid r) = k)
      (users_collections d);
  wf_ciphers_collections :
    map_Forall (λ k r, (CollectionCipher.cipher_uuid r, CollectionCipher.collection_uuid r) = k)
      (ciphers_collections d);
  wf_groups : map_Forall (λ k r, Group.uuid r = k) (groups d);
  wf_org_policies : map_Forall (λ k r, OrgPolicy.uuid r = k) (org_policies d);
  wf_twofactor : map_Forall (λ k r, TwoFactor.uuid r = k) (twofactor d);
  wf_sends : map_Forall (λ k r, Send.uuid r = k) (sends d);
  wf_emergency_access : map_Forall (λ k r, EmergencyAccess.uuid r = k) (emergency_access d);
  wf_auth_requests : map_Forall (λ k r, AuthRequest.uuid r = k) (auth_requests d);
  (** UNIQUE (user_uuid, org_uuid) *)
  wf_member_unique : ∀ m m', m ∈ rows (users_organizations d) → m' ∈ rows (users_organizations d) →
    Membership.user_uuid m = Membership.user_uuid m' →
    Membership.org_uuid m = Membership.org_uuid m' → m = m';
  (** UNIQUE (org_uuid, atype) *)
  wf_policy_unique : ∀ p p', p ∈ rows (org_policies d) → p' ∈ rows (org_policies d) →
    OrgPolicy.org_uuid p = OrgPolicy.org_uuid p' → OrgPolicy.atype p = OrgPolicy.atype p' → p = p';
}.
