(* ===== verification/Roles.v ===== *)
(** Roles and states of a member of an organization.

    Models the enums [MembershipStatus] and [MembershipType] of
    src/src/db/models/organization.rs with their hand-written orderings (between
    two roles, and between a role and the raw [i32] column), the [Membership]
    constructor and the arithmetic encoding of a revoked membership. The
    theorems show that the ordering is the intended total order, that the mixed
    comparisons fail closed on an unknown role, and that revoking is reversible
    and stays within [i32]. *)
From S2P Require Import Prelude Schema.
Local Open Scope Z_scope.

Inductive MembershipStatus := Revoked | Invited | Accepted | Confirmed.

(** [status as i32]. *)
Definition MembershipStatus_as_i32 (s : MembershipStatus) : Z :=
  match s with Revoked => -1 | Invited => 0 | Accepted => 1 | Confirmed => 2 end.

(** [MembershipStatus::from_i32]; a revoked member has no status here. *)
Definition MembershipStatus_from_i32 (status : Z) : option MembershipStatus :=
  match status with
  | 0 => Some Invited
  | 1 => Some Accepted
  | 2 => Some Confirmed
  | _ => None
  end.

Inductive MembershipType := Owner | Admin | User_ | Manager.

#[export] Instance MembershipStatus_eq_dec : EqDecision MembershipStatus.
Proof. solve_decision. Defined.
#[export] Instance MembershipType_eq_dec : EqDecision MembershipType.
Proof. solve_decision. Defined.

(** [ty as i32]. *)
Definition MembershipType_as_i32 (t : MembershipType) : Z :=
  match t with Owner => 0 | Admin => 1 | User_ => 2 | Manager => 3 end.

(** [MembershipType::from_i32], derived by [num_derive::FromPrimitive]. *)
Definition MembershipType_from_i32 (n : Z) : option MembershipType :=
  match n with
  | 0 => Some Owner
  | 1 => Some Admin
  | 2 => Some User_
  | 3 => Some Manager
  | _ => None
  end.

(** [MembershipType::from_str]: "4" and "Custom" are read as a manager. *)
Definition MembershipType_from_str (s : string) : option MembershipType :=
  if (s == "0") || (s == "Owner") then Some Owner
  else if (s == "1") || (s == "Admin") then Some Admin
  else if (s == "2") || (s == "User") then Some User_
  else if (s == "3") || (s == "Manager") then Some Manager
  else if (s == "4") || (s == "Custom") then Some Manager
  else None.

(** [ACCESS_LEVEL[ty as usize]]. *)
Definition access_level (t : MembershipType) : Z :=
  nth (Z.to_nat (MembershipType_as_i32 t)) [3; 2; 0; 1] 0.

(** [Ord for MembershipType]. *)
Definition MembershipType_cmp (a b : MembershipType) : comparison :=
  access_level a ?= access_level b.

(** [PartialOrd<i32> for MembershipType]: role on the left. *)
Definition type_partial_cmp_i32 (a : MembershipType) (other : Z) : option comparison :=
  MembershipType_cmp a <$> MembershipType_from_i32 other.
Definition type_gt_i32 (a : MembershipType) (other : Z) : bool :=
  match type_partial_cmp_i32 a other with Some Gt => true | _ => false end.
Definition type_ge_i32 (a : MembershipType) (other : Z) : bool :=
  match type_partial_cmp_i32 a other with Some Gt | Some Eq => true | _ => false end.

(** [PartialOrd<MembershipType> for i32]: raw column on the left. [lt] and [le]
    are overridden to hold on an unknown role; [ge] and [gt] are the defaults. *)
Definition i32_partial_cmp_type (n : Z) (other : MembershipType) : option comparison :=
  (λ t, MembershipType_cmp t other) <$> MembershipType_from_i32 n.
Definition i32_lt_type (n : Z) (other : MembershipType) : bool :=
  match i32_partial_cmp_type n other with Some Lt | None => true | _ => false end.
Definition i32_le_type (n : Z) (other : MembershipType) : bool :=
  match i32_partial_cmp_type n other with Some Lt | Some Eq | None => true | _ => false end.
Definition i32_ge_type (n : Z) (other : MembershipType) : bool :=
  match i32_partial_cmp_type n other with Some Gt | Some Eq => true | _ => false end.

(** [PartialEq<MembershipType> for i32]. *)
Definition i32_eq_type (n : Z) (t : MembershipType) : bool := n == MembershipType_as_i32 t.

(** ** [impl Membership] (local methods) *)

Definition ACTIVATE_REVOKE_DIFF : Z := 128.

(** [Membership::new]; [uuid] is the fresh id drawn by [get_uuid()]. *)
Definition Membership_new (uuid user_uuid org_uuid : string) (invited_by_email : option string)
    : Membership.t :=
  {| Membership.uuid := uuid;
     Membership.user_uuid := user_uuid;
     Membership.org_uuid := org_uuid;
     Membership.invited_by_email := invited_by_email;
     Membership.access_all := false;
     Membership.akey := "";
     Membership.status := MembershipStatus_as_i32 Accepted;
     Membership.atype := MembershipType_as_i32 User_;
     Membership.reset_password_key := None;
     Membership.external_id := None |}.

(** [Membership::restore]: the flag says whether the member was revoked. *)
Definition Membership_restore (m : Membership.t) : bool * Membership.t :=
  if Membership.status m <? MembershipStatus_as_i32 Invited
  then (true, Membership.set_status (λ s, s + ACTIVATE_REVOKE_DIFF) m)
  else (false, m).

(** [Membership::revoke]. *)
Definition Membership_revoke (m : Membership.t) : bool * Membership.t :=
  if MembershipStatus_as_i32 Revoked <? Membership.status m
  then (true, Membership.set_status (λ s, s - ACTIVATE_REVOKE_DIFF) m)
  else (false, m).

Definition Membership_get_unrevoked_status (m : Membership.t) : Z :=
  if Membership.status m <=? MembershipStatus_as_i32 Revoked
  then Membership.status m + ACTIVATE_REVOKE_DIFF
  else Membership.status m.

(** [Membership::set_external_id]. *)
Definition Membership_set_external_id (external_id : option string) (m : Membership.t)
    : bool * Membership.t :=
  if Membership.external_id m == external_id then (false, m)
  else (true, Membership.set_external_id (λ _,
          match external_id with
          | Some e => if e == "" then None else Some e
          | None => None
          end) m).

(** [type_manager_as_custom]: the wire number of a manager is 4. *)
Definition Membership_type_manager_as_custom (m : Membership.t) : Z :=
  match Membership.atype m with 3 => 4 | n => n end.

Definition Membership_has_status (m : Membership.t) (s : MembershipStatus) : bool :=
  Membership.status m == MembershipStatus_as_i32 s.
Definition Membership_has_type (m : Membership.t) (t : MembershipType) : bool :=
  Membership.atype m == MembershipType_as_i32 t.
Definition Membership_has_full_access (m : Membership.t) : bool :=
  (Membership.access_all m || i32_ge_type (Membership.atype m) Admin)
  && Membership_has_status m Confirmed.

(** The status shown to a client ([to_json_user_details], [to_json_details],
    [to_json_mini_details]). *)
Definition Membership_shown_status (m : Membership.t) : Z :=
  if Membership.status m <? MembershipStatus_as_i32 Revoked
  then MembershipStatus_as_i32 Revoked else Membership.status m.

(** ** Theorems *)

(** The roles as a chain, highest first. *)
Lemma access_level_chain :
  access_level Owner > access_level Admin ∧ access_level Admin > access_level Manager
  ∧ access_level Manager > access_level User_.
Proof. done. Qed.

Lemma access_level_inj a b : access_level a = access_level b → a = b.
Proof. destruct a, b; done. Qed.

Lemma MembershipType_from_as n t :
  MembershipType_from_i32 n = Some t ↔ n = MembershipType_as_i32 t.
Proof.
  split; [|intros ->; by destruct t].
  unfold MembershipType_from_i32.
  destruct n as [|[[[]|[]|]|[[]|[]|]|]|]; intros; simplify_eq; done.
Qed.

Lemma MembershipType_from_None n :
  MembershipType_from_i32 n = None ↔ ∀ t, n ≠ MembershipType_as_i32 t.
Proof.
  split.
  - intros Hn t ->. by destruct t.
  - intros Hn. destruct (MembershipType_from_i32 n) as [t|] eqn:E; [|done].
    apply MembershipType_from_as in E. by destruct (Hn t).
Qed.

Lemma i32_ge_type_true n t :
  i32_ge_type n t = true ↔
  ∃ u, MembershipType_from_i32 n = Some u ∧ access_level t ≤ access_level u.
Proof.
  unfold i32_ge_type, i32_partial_cmp_type, MembershipType_cmp.
  destruct (MembershipType_from_i32 n) as [u|]; simpl; [|naive_solver].
  destruct (Z.compare_spec (access_level u) (access_level t)); naive_solver lia.
Qed.

Lemma i32_ge_lt n t : i32_ge_type n t = negb (i32_lt_type n t).
Proof.
  unfold i32_ge_type, i32_lt_type, i32_partial_cmp_type.
  destruct (MembershipType_from_i32 n) as [u|]; simpl; [|done].
  by destruct (MembershipType_cmp u t).
Qed.

Lemma i32_ge_Admin n : i32_ge_type n Admin = true ↔ n = 0 ∨ n = 1.
Proof.
  rewrite i32_ge_type_true. split.
  - intros (u & ->%MembershipType_from_as & Hu). destruct u; [by left|by right|..]; by destruct Hu.
  - intros [->| ->]; eexists; (split; [reflexivity|vm_compute; discriminate]).
Qed.

Lemma has_full_access_true m :
  Membership_has_full_access m = true ↔
  Membership.status m = 2 ∧
  (Membership.access_all m = true ∨ Membership.atype m = 0 ∨ Membership.atype m = 1).
Proof.
  unfold Membership_has_full_access, Membership_has_status.
  rewrite andb_true_iff, orb_true_iff, i32_ge_Admin, bool_decide_eq_true. simpl. tauto.
Qed.

(** The ordering of roles that every permission check relies on is a strict
    total order compatible with equality: two roles compare equal only when they
    are the same role, swapping the arguments flips the answer, and the order is
    transitive, with Owner above Admin above Manager above User. *)
Theorem role_order_lawful (a b c : MembershipType) :
  (MembershipType_cmp a b = Eq ↔ a = b)
  ∧ MembershipType_cmp b a = CompOpp (MembershipType_cmp a b)
  ∧ ((MembershipType_cmp a b = Lt ∧ MembershipType_cmp b c = Lt) → MembershipType_cmp a c = Lt)
  ∧ MembershipType_cmp Owner Admin = Gt ∧ MembershipType_cmp Admin Manager = Gt
  ∧ MembershipType_cmp Manager User_ = Gt.
Proof.
  unfold MembershipType_cmp. split_and!; try done.
  - rewrite Z.compare_eq_iff. split; [apply access_level_inj|by intros ->].
  - apply Z.compare_antisym.
  - rewrite !Z.compare_lt_iff. lia.
Qed.

(** comparing a stored role number with a role fails closed: at-least tests
    hold only for a known role of at least that level, an unknown number is
    below every role, and [>=] is always the negation of [<], so no number
    passes both a permission check and its negation. *)
Theorem raw_role_comparison_fails_closed (n : Z) (t : MembershipType) :
  (i32_ge_type n t = true ↔
     ∃ u, n = MembershipType_as_i32 u ∧ access_level t ≤ access_level u)
  ∧ i32_ge_type n t = negb (i32_lt_type n t)
  ∧ (MembershipType_from_i32 n = None →
       i32_ge_type n t = false ∧ type_ge_i32 t n = false ∧ i32_le_type n t = true).
Proof.
  split_and!.
  - rewrite i32_ge_type_true. by setoid_rewrite MembershipType_from_as.
  - apply i32_ge_lt.
  - unfold i32_ge_type, i32_le_type, type_ge_i32, type_partial_cmp_i32, i32_partial_cmp_type.
    by intros ->.
Qed.

(** revoking and restoring a member are inverse and never leave [i32]: for
    every status in use (0 to 127) revoking answers true, hides the member
    behind the status -1, keeps the old status recoverable and is undone exactly
    by restoring; a revoked member never counts as confirmed and never has full
    access. *)
Theorem revoke_restore_roundtrip (m : Membership.t) (Hs : 0 ≤ Membership.status m < 128) :
  let '(changed, r) := Membership_revoke m in
  changed = true
  ∧ - 2 ^ 31 ≤ Membership.status r < 2 ^ 31
  ∧ Membership_shown_status r = MembershipStatus_as_i32 Revoked
  ∧ MembershipStatus_from_i32 (Membership.status r) = None
  ∧ Membership_get_unrevoked_status r = Membership.status m
  ∧ Membership_has_full_access r = false
  ∧ Membership_revoke r = (false, r)
  ∧ Membership_restore r = (true, m).
Proof.
  unfold Membership_revoke, MembershipStatus_as_i32.
  destruct (Z.ltb_spec (-1) (Membership.status m)); [|lia].
  destruct m as [uuid u o i aa k st ty rp ex]. simpl in *.
  unfold Membership_restore, Membership_shown_status, Membership_get_unrevoked_status,
    Membership_has_full_access, Membership_has_status, Membership.set_status,
    ACTIVATE_REVOKE_DIFF; simpl.
  replace (-1 <? st - 128) with false by (symmetry; apply Z.ltb_ge; lia).
  replace (st - 128 <? 0) with true by (symmetry; apply Z.ltb_lt; lia).
  replace (st - 128 <=? -1) with true by (symmetry; apply Z.leb_le; lia).
  split_and!; try done; try lia.
  - destruct (Z.ltb_spec (st - 128) (-1)); lia.
  - unfold MembershipStatus_from_i32. by destruct (st - 128) eqn:E; [lia|lia|].
  - rewrite bool_decide_false by lia. by rewrite andb_false_r.
  - do 2 f_equal. lia.
Qed.

(** A confirmed owner is revoked to -126 and restored. *)
Lemma revoke_restore_roundtrip_witness :
  let m := Membership.set_status (λ _, 2) (Membership_new "m" "u" "o" None) in
  let '(_, r) := Membership_revoke m in Membership_restore r = (true, m).
Proof.
  pose proof (revoke_restore_roundtrip
    (Membership.set_status (λ _, 2) (Membership_new "m" "u" "o" None))
    ltac:(vm_compute; split; congruence)) as H.
  vm_compute in H |- *. tauto.
Defined.
