(* ===== verification/Users.v ===== *)
(** Accounts, invitations and devices.

    Models src/src/db/models/user.rs and src/src/db/models/device.rs: the
    account constructor, credentials and the security stamp, the revision date
    that every change to a vault bumps, the lookups, and the refresh token of a
    device with its compare-and-swap rotation. PBKDF2 and the random generator
    are parameters. *)
From S2P Require Import Prelude Schema Roles.
Local Open Scope Z_scope.

(** ** Strings *)

Definition ascii_to_lower (a : Ascii.ascii) : Ascii.ascii :=
  let n := Ascii.nat_of_ascii a in
  if bool_decide (65 ≤ n ≤ 90)%nat then Ascii.ascii_of_nat (n + 32) else a.

(** [str::to_lowercase], on the ASCII letters. The source lowers every letter of
    Unicode; a text whose only capitals are ASCII has the same result, and other
    texts are compared here without regard to their further capitals. *)
Fixpoint to_lowercase (s : string) : string :=
  match s with
  | EmptyString => EmptyString
  | String a s => String (ascii_to_lower a) (to_lowercase s)
  end.

Lemma ascii_to_lower_idem a : ascii_to_lower (ascii_to_lower a) = ascii_to_lower a.
Proof. by destruct a as [[] [] [] [] [] [] [] []]. Qed.
Lemma to_lowercase_idem s : to_lowercase (to_lowercase s) = to_lowercase s.
Proof. induction s as [|a s IH]; simpl; [done|]. by rewrite ascii_to_lower_idem, IH. Qed.

(** [s.split(c)] for a character. *)
Fixpoint split_on (c : Ascii.ascii) (s : string) : list string :=
  match s with
  | "" => [""]
  | String a s' =>
      if a == c then "" :: split_on c s'
      else match split_on c s' with
           | w :: ws => String a w :: ws
           | [] => [String a ""]
           end
  end%string.
Definition split_commas : string → list string := split_on (Ascii.ascii_of_nat 44).

(** [s.parse::<i32>()]: a sign, at least one digit, and the range of the type. *)
Definition digit (a : Ascii.ascii) : option Z :=
  let n := Z.of_nat (Ascii.nat_of_ascii a) in if (48 <=? n) && (n <=? 57) then Some (n - 48) else None.
Fixpoint parse_digits (acc : Z) (s : string) : option Z :=
  match s with
  | EmptyString => Some acc
  | String a s' => match digit a with Some n => parse_digits (10 * acc + n) s' | None => None end
  end.
Definition parse_nat (s : string) : option Z :=
  match s with EmptyString => None | _ => parse_digits 0 s end.
Definition parse_int (bits : Z) (s : string) : option Z :=
  let o := match s with
           | String a s' =>
               if a == Ascii.ascii_of_nat 45 then Z.opp <$> parse_nat s'
               else if a == Ascii.ascii_of_nat 43 then parse_nat s' else parse_nat s
           | EmptyString => None
           end in
  match o with Some n => if (- 2 ^ (bits - 1) <=? n) && (n <? 2 ^ (bits - 1)) then Some n else None | None => None end.
Definition parse_i32 : string → option Z := parse_int 32.
Definition parse_i64 : string → option Z := parse_int 64.

(** [s.trim()] on ASCII text. *)
Definition is_space (c : Ascii.ascii) : bool :=
  bool_decide (Ascii.nat_of_ascii c ∈ [9; 10; 11; 12; 13; 32]%nat).
Fixpoint trim_start (s : string) : string :=
  match s with
  | "" => ""
  | String c s' => if is_space c then trim_start s' else s
  end%string.
Fixpoint trim_end (s : string) : string :=
  match s with
  | "" => ""
  | String c s' =>
      match trim_end s' with
      | "" => if is_space c then "" else String c ""
      | r => String c r
      end
  end%string.
Definition trim (s : string) : string := trim_end (trim_start s).

(** [s.rsplitn(2, c)]: the text after the last [c] and the text before it, or
    the whole text. *)
Fixpoint rsplit_once (c : Ascii.ascii) (s : string) : option (string * string) :=
  match s with
  | "" => None
  | String a s' =>
      match rsplit_once c s' with
      | Some (before, after) => Some (String a before, after)
      | None => if a == c then Some (""%string, s') else None
      end
  end%string.

(** [str::as_bytes]. *)
Fixpoint as_bytes (s : string) : bytes :=
  match s with
  | EmptyString => []
  | String a s => Z.of_nat (Ascii.nat_of_ascii a) :: as_bytes s
  end.

(** [i32::cast_unsigned]. *)
Definition cast_unsigned (n : Z) : Z := n mod 2 ^ 32.

(** [crypto::ct_eq]: the constant-time comparison decides equality. *)
Definition ct_eq (a b : string) : bool := a == b.

(** [ring::pbkdf2]: [derive secret salt iterations]. *)
Class Crypto := { pbkdf2 : bytes → bytes → Z → bytes }.

(** [crypto::hash_password] and [crypto::verify_password_hash]. The source panics
    when there are no iterations, and these definitions are total. Accounts take
    the number from the configuration, whose validation asks for 100,000 at
    least, and Sends use a constant; the difference shows only for a row that was
    written otherwise or with a configuration that was not validated. *)
Definition hash_password `{Crypto} (secret salt : bytes) (iterations : Z) : bytes :=
  pbkdf2 secret salt iterations.
Definition verify_password_hash `{Crypto} (secret salt previous : bytes) (iterations : Z) : bool :=
  pbkdf2 secret salt iterations == previous.

(** What [User::new] draws from the random generator. *)
Record Seed := MkSeed { seed_uuid : string; seed_stamp : string; seed_salt : bytes }.

Section users.
Context `{E : Env}.

(** *** The sign-up rules of config.rs *)

(** [Config::is_email_domain_allowed]; [@] is character 64. *)
Definition is_email_domain_allowed (email : string) : bool :=
  match rsplit_once (Ascii.ascii_of_nat 64) email with
  | None => false
  | Some (local, domain) =>
      if (domain == "") || (local == "") then false else
      (signups_domains_whitelist == "")
      || existsb (λ d, trim d == to_lowercase domain) (split_commas signups_domains_whitelist)
  end.

(** [Config::is_signup_allowed] and [Config::is_signup_disabled]. *)
Definition is_signup_allowed (email : string) : bool :=
  if signups_domains_whitelist == "" then signups_allowed else is_email_domain_allowed email.
Definition is_signup_disabled : bool :=
  (negb signups_allowed && (signups_domains_whitelist == "") && (mail_enabled || negb invitations_allowed))
  || (sso_enabled && sso_only).

(** [Config::is_org_creation_allowed]. *)
Definition is_org_creation_allowed (email : string) : bool :=
  if (org_creation_users == "") || (org_creation_users == "all") then true
  else if org_creation_users == "none" then false
  else existsb (λ u, trim u == to_lowercase email) (split_commas org_creation_users).

(** *** [impl User] *)

Definition CLIENT_KDF_TYPE_DEFAULT : Z := 0.
Definition CLIENT_KDF_ITER_DEFAULT : Z := 600000.

(** [User::new]; the id, the salt and the stamp come from the random
    generator, the iteration count from the configuration. *)
Definition User_new (seed : Seed) (email : string) (name : option string) : User.t :=
  let email := to_lowercase email in
  {| User.uuid := seed_uuid seed; User.enabled := true; User.created_at := now; User.updated_at := now;
     User.verified_at := None; User.last_verifying_at := None; User.login_verify_count := 0;
     User.email := email; User.email_new := None; User.email_new_token := None;
     User.name := default email name;
     User.password_hash := []; User.salt := seed_salt seed;
     User.password_iterations := password_iterations_setting; User.password_hint := None;
     User.akey := ""; User.private_key := None; User.public_key := None;
     User.totp_secret := None; User.totp_recover := None;
     User.security_stamp := seed_stamp seed; User.stamp_exception := None;
     User.equivalent_domains := "[]"; User.excluded_globals := "[]";
     User.client_kdf_type := CLIENT_KDF_TYPE_DEFAULT;
     User.client_kdf_iter := CLIENT_KDF_ITER_DEFAULT;
     User.client_kdf_memory := None; User.client_kdf_parallelism := None;
     User.api_key := None; User.avatar_color := None; User.external_id := None |}.

Definition User_check_valid_password `{Crypto} (u : User.t) (password : string) : bool :=
  verify_password_hash (as_bytes password) (User.salt u) (User.password_hash u)
    (cast_unsigned (User.password_iterations u)).

Definition User_check_valid_recovery_code (u : User.t) (recovery_code : string) : bool :=
  match User.totp_recover u with
  | Some totp_recover => ct_eq recovery_code (to_lowercase totp_recover)
  | None => false
  end.

Definition User_check_valid_api_key (u : User.t) (key : string) : bool :=
  match User.api_key u with Some api_key => ct_eq api_key key | None => false end.

(** [User::set_stamp_exception]; instants are microseconds, [timestamp()] is
    in seconds. *)
Definition User_set_stamp_exception (route_exception : list string) (u : User.t) : User.t :=
  User.set_stamp_exception (λ _, Some
    {| UserStampException.routes := route_exception;
       UserStampException.security_stamp := User.security_stamp u;
       UserStampException.expire := (now + 120 * 1000000) / 1000000 |}) u.

Definition User_reset_stamp_exception (u : User.t) : User.t :=
  User.set_stamp_exception (λ _, None) u.

Definition User_display_name (u : User.t) : string :=
  if User.name u == "" then User.email u else User.name u.

(** [update_revision_impl] under [update_uuid_revision], whose error is only
    logged. *)
Definition User_update_uuid_revision (uuid : string) : M DB () :=
  modify (set_users (update_where (λ u, User.uuid u == uuid) (User.set_updated_at (λ _, now)))).

(** [update_revision]; the date of the row in the request is not read again. *)
Definition User_update_revision (u : User.t) : M DB () := User_update_uuid_revision (User.uuid u).

Definition User_update_all_revisions : M DB () :=
  modify (set_users (update_where (λ _, true) (User.set_updated_at (λ _, now)))).

Definition User_find_by_uuid (uuid : string) (d : DB) : option User.t :=
  first (where_ (λ u, User.uuid u == uuid) (rows (users d))).
Definition User_find_by_mail (mail : string) (d : DB) : option User.t :=
  first (where_ (λ u, User.email u == to_lowercase mail) (rows (users d))).

(** [User::save]: the address must be well formed, and no other account may
    have it ([users.email] is UNIQUE). *)
Definition User_save (u : User.t) : M DB User.t :=
  if negb (is_valid_email (User.email u))
  then err ("User email " +:+ User.email u +:+ " is not a valid email address")
  else
    let u := User.set_updated_at (λ _, now) u in
    save_row
      (λ d, negb (nonempty (where_ (λ v, (User.email v == User.email u)
                                         && negb (User.uuid v == User.uuid u)) (rows (users d)))))
      (set_users <[User.uuid u := u]>) "Error saving user" ;;
    mret u.

(** *** [impl Invitation] *)

Definition Invitation_new (email : string) : Invitation.t := {| Invitation.email := to_lowercase email |}.

Definition Invitation_save (i : Invitation.t) : M DB () :=
  if negb (is_valid_email (Invitation.email i))
  then err ("Invitation email " +:+ Invitation.email i +:+ " is not a valid email address")
  else modify (set_invitations (λ t, match t !! Invitation.email i with
                                     | Some _ => t
                                     | None => <[Invitation.email i := i]> t
                                     end)).

Definition Invitation_delete (i : Invitation.t) : M DB () :=
  modify (set_invitations (delete_where (λ r, Invitation.email r == Invitation.email i))).

Definition Invitation_find_by_mail (mail : string) (d : DB) : option Invitation.t :=
  first (where_ (λ i, Invitation.email i == to_lowercase mail) (rows (invitations d))).

Definition Invitation_take (mail : string) : M DB bool :=
  o ← gets (Invitation_find_by_mail mail);
  match o with
  | Some i => Invitation_delete i ;; mret true
  | None => mret false
  end.

(** *** [impl Device] *)

Definition Device_new (push_uuid refresh_token : string) (uuid user_uuid name : string) (atype : Z)
    : Device.t :=
  {| Device.uuid := uuid; Device.created_at := now; Device.updated_at := now;
     Device.user_uuid := user_uuid; Device.name := name; Device.atype := atype;
     Device.push_uuid := Some push_uuid; Device.push_token := None;
     Device.refresh_token := refresh_token; Device.twofactor_remember := None |}.

Definition Device_delete_twofactor_remember (v : Device.t) : Device.t :=
  Device.set_twofactor_remember (λ _, None) v.
Definition Device_is_new (v : Device.t) : bool := Device.created_at v == Device.updated_at v.

(** [DeviceType::from_i32(atype).to_string()], and the two queries on it. *)
Definition DeviceType_to_string (value : Z) : string :=
  match value with
  | 0 => "Android" | 1 => "iOS" | 2 => "Chrome Extension" | 3 => "Firefox Extension"
  | 4 => "Opera Extension" | 5 => "Edge Extension" | 6 => "Windows" | 7 => "macOS" | 8 => "Linux"
  | 9 => "Chrome" | 10 => "Firefox" | 11 => "Opera" | 12 => "Edge" | 13 => "Internet Explorer"
  | 15 => "Android" | 16 => "UWP" | 17 => "Safari" | 18 => "Vivaldi" | 19 => "Vivaldi Extension"
  | 20 => "Safari Extension" | 21 => "SDK" | 22 => "Server" | 23 => "Windows CLI" | 24 => "macOS CLI"
  | 25 => "Linux CLI" | 26 => "DuckDuckGo" | _ => "Unknown Browser"
  end%string.
Definition Device_is_push_device (v : Device.t) : bool := (Device.atype v =? 0) || (Device.atype v =? 1).
Definition Device_is_mobile (v : Device.t) : bool := (Device.atype v =? 0) || (Device.atype v =? 1).
Definition Device_is_cli (v : Device.t) : bool := (23 <=? Device.atype v) && (Device.atype v <=? 25).

Definition device_key (v : Device.t) : string * string := (Device.uuid v, Device.user_uuid v).

Definition Device_save (update_time : bool) (v : Device.t) : M DB Device.t :=
  let v := if update_time then Device.set_updated_at (λ _, now) v else v in
  save_row (λ d, has (users d) (Device.user_uuid v))
    (set_devices <[device_key v := v]>) "Error saving device" ;;
  mret v.

Definition Device_delete_all_by_user (user_uuid : string) : M DB () :=
  modify (set_devices (delete_where (λ v, Device.user_uuid v == user_uuid))).

Definition Device_find_by_uuid_and_user (uuid user_uuid : string) (d : DB) : option Device.t :=
  first (where_ (λ v, (Device.uuid v == uuid) && (Device.user_uuid v == user_uuid))
           (rows (devices d))).
Definition Device_find_by_user (user_uuid : string) (d : DB) : list Device.t :=
  where_ (λ v, Device.user_uuid v == user_uuid) (rows (devices d)).
Definition Device_find_by_uuid (uuid : string) (d : DB) : option Device.t :=
  first (where_ (λ v, Device.uuid v == uuid) (rows (devices d))).
Definition Device_find_by_refresh_token (token : string) (d : DB) : option Device.t :=
  first (where_ (λ v, Device.refresh_token v == token) (rows (devices d))).
Definition Device_clear_push_token_by_uuid (uuid : string) : M DB () :=
  modify (set_devices (update_where (λ v, Device.uuid v == uuid) (Device.set_push_token (λ _, None)))).
Definition Device_check_user_has_push_device (user_uuid : string) (d : DB) : bool :=
  nonempty (where_ (λ v, (Device.user_uuid v == user_uuid)
                         && bool_decide (is_Some (Device.push_token v))) (rows (devices d))).

(** The rows an [UPDATE ... WHERE] matches. *)
Definition refresh_match (v : Device.t) (expected : string) (r : Device.t) : bool :=
  (Device.uuid r == Device.uuid v) && (Device.user_uuid r == Device.user_uuid v)
  && (Device.refresh_token r == expected).

(** [rotate_refresh_token_if_matches]: one UPDATE whose row count tells
    whether the presented token was still the current one. *)
Definition Device_rotate_refresh_token_if_matches (new_token expected : string) (v : Device.t)
    : M DB (bool * Device.t) := λ d,
  let updated := count (where_ (refresh_match v expected) (rows (devices d))) in
  let d := set_devices (update_where (refresh_match v expected)
             (λ r, Device.set_updated_at (λ _, now) (Device.set_refresh_token (λ _, new_token) r))) d in
  if updated =? 1
  then (Ok (true, Device.set_updated_at (λ _, now) (Device.set_refresh_token (λ _, new_token) v)), d)
  else (Ok (false, v), d).

(** [rotate_refresh_tokens_by_user]: [token_for uuid] is the token drawn for a
    device. *)
Definition Device_rotate_refresh_tokens_by_user (token_for : string → string) (user_uuid : string)
    : M DB () :=
  devs ← gets (Device_find_by_user user_uuid);
  for_each devs (λ v,
    Device_save false (Device.set_refresh_token (λ _, token_for (Device.uuid v)) v) ;; mret ()).

(** [User::reset_security_stamp]. *)
Definition User_reset_security_stamp (stamp : string) (token_for : string → string) (u : User.t)
    : M DB User.t :=
  let u := User.set_security_stamp (λ _, stamp) u in
  Device_rotate_refresh_tokens_by_user token_for (User.uuid u) ;;
  mret u.

(** [User::set_password]. *)
Definition User_set_password `{Crypto} (stamp : string) (token_for : string → string)
    (password : string) (new_key : option string) (reset_security_stamp : bool)
    (allow_next_route : option (list string)) (u : User.t) : M DB User.t :=
  let u := User.set_password_hash (λ _,
    hash_password (as_bytes password) (User.salt u) (cast_unsigned (User.password_iterations u))) u in
  let u := match allow_next_route with
           | Some route => User_set_stamp_exception route u
           | None => u
           end in
  let u := match new_key with Some k => User.set_akey (λ _, k) u | None => u end in
  if reset_security_stamp then User_reset_security_stamp stamp token_for u else mret u.
End users.
