(* ===== verification/Json.v ===== *)
(** JSON values and the rendering of the data inside a cipher.

    Models the JSON helpers of src/src/util.rs ([LowerCase], the conversion of
    keys, [NumberOrString], [validate_and_format_date]) and the part of
    [Cipher::to_json] that repairs what a client has stored before another one
    reads it. The reader and the printer of serde_json and the dates of chrono
    are parameters. The theorems state that the repaired data has the shape
    that the clients need, whatever is stored, and that lowering the keys of a
    value twice changes nothing more. *)
From stdpp Require Import pretty.
From S2P Require Import Prelude Schema Roles Users.
Local Open Scope Z_scope.

(** [serde_json::Value]. An object is the list of its entries, in the order of
    its iteration: for a value that the program built that of its keys. *)
Inductive Json :=
| JsNull | JsBool (b : bool) | JsNumber (n : string) | JsString (s : string)
| JsArray (l : list Json) | JsObject (m : list (string * Json)).

(** The induction principle with the elements of arrays and objects. *)
Section json_induction.
Variable P : Json → Prop.
Hypothesis Pnull : P JsNull.
Hypothesis Pbool : ∀ b, P (JsBool b).
Hypothesis Pnumber : ∀ n, P (JsNumber n).
Hypothesis Pstring : ∀ s, P (JsString s).
Hypothesis Parray : ∀ l, Forall P l → P (JsArray l).
Hypothesis Pobject : ∀ m, Forall (λ e, P e.2) m → P (JsObject m).
Fixpoint Json_induction (v : Json) : P v :=
  match v with
  | JsNull => Pnull | JsBool b => Pbool b | JsNumber n => Pnumber n | JsString s => Pstring s
  | JsArray l => Parray l ((fix go l : Forall P l :=
      match l with [] => Forall_nil_2 P | v :: l => Forall_cons_2 P v l (Json_induction v) (go l) end) l)
  | JsObject m => Pobject m ((fix go m : Forall (λ e, P e.2) m :=
      match m with [] => Forall_nil_2 _ | e :: m => Forall_cons_2 _ e m (Json_induction e.2) (go m) end) m)
  end.
End json_induction.

(** ** Entries of an object *)

(** [serde_json::Map] is ordered by its keys, compared by bytes. *)
Fixpoint Json_insert (k : string) (x : Json) (m : list (string * Json)) : list (string * Json) :=
  match m with
  | [] => [(k, x)]
  | (k', y) :: m' =>
      match String.compare k k' with
      | Eq => (k, x) :: m'
      | Lt => (k, x) :: m
      | Gt => (k', y) :: Json_insert k x m'
      end
  end.
Fixpoint Json_lookup (k : string) (m : list (string * Json)) : option Json :=
  match m with [] => None | (k', y) :: m => if k == k' then Some y else Json_lookup k m end.

(** [v.get(k)], [v[k]] and [v[k] = x] (which panics unless [v] is an object;
    here it always is one). *)
Definition Json_find (k : string) (v : Json) : option Json :=
  match v with JsObject m => Json_lookup k m | _ => None end.
Definition Json_get (k : string) (v : Json) : Json := default JsNull (Json_find k v).
Definition Json_set (k : string) (x : Json) (v : Json) : Json :=
  match v with JsObject m => JsObject (Json_insert k x m) | _ => v end.
(** A mutable [v[k]] adds the key with [null] when it is missing. *)
Definition Json_touch (k : string) (v : Json) : Json :=
  match Json_find k v with Some _ => v | None => Json_set k JsNull v end.
(** [v.as_object_mut().unwrap().remove(k)]; [None] is the panic. *)
Definition Json_remove (k : string) (v : Json) : option Json :=
  match v with JsObject m => Some (JsObject (where_ (λ '(k', _), negb (k' == k)) m)) | _ => None end.

Definition Json_is_array (v : Json) : bool := match v with JsArray _ => true | _ => false end.
Definition Json_is_string (v : Json) : bool := match v with JsString _ => true | _ => false end.
Definition Json_is_number (v : Json) : bool := match v with JsNumber _ => true | _ => false end.
(** [v.as_str().is_none_or(str::is_empty)]. *)
Definition Json_no_text (v : Json) : bool := match v with JsString s => s == "" | _ => true end.
Definition json_number (n : Z) : Json := JsNumber (pretty n).

(** [s.parse::<u8>()]. *)
Definition parse_u8 (s : string) : option Z :=
  let o := match s with
           | String a s' => if a == Ascii.ascii_of_nat 43 then parse_nat s' else parse_nat s
           | EmptyString => None
           end in
  match o with Some n => if n <? 256 then Some n else None | None => None end.

(** ** Keys *)

Definition lcase_first (s : string) : string :=
  match s with EmptyString => EmptyString | String a s => String (ascii_to_lower a) s end.
Definition process_json_key (key : string) : string :=
  if to_lowercase key == "ssn" then "ssn" else lcase_first key.

(** A value rebuilt with other keys; the last of equal ones stays. *)
Fixpoint Json_map_keys (f : string → string) (v : Json) : Json :=
  match v with
  | JsArray l => JsArray (Json_map_keys f <$> l)
  | JsObject m => JsObject (foldl (λ acc '(k, x), Json_insert k x acc) [] ((λ '(k, x), (f k, Json_map_keys f x)) <$> m))
  | v => v
  end.
(** Reading a [Value] from text. *)
Definition Json_value : Json → Json := Json_map_keys id.
Definition convert_json_key_lcase_first : Json → Json := Json_map_keys process_json_key.

(** [LowerCaseVisitor::visit_map]: the entries in the order of the text. *)
Definition visit_map (m : list (string * Json)) : Json :=
  JsObject (foldl (λ acc '(k, x), Json_insert k x acc) []
    ((λ '(k, x), (process_json_key k, convert_json_key_lcase_first (Json_value x))) <$> m)).
(** [LowerCase<Value>]: the flattened field takes an object only. *)
Definition LowerCase (v : Json) : option Json := match v with JsObject m => Some (visit_map m) | _ => None end.

(** [json!({ .. })]. *)
Definition json_object (l : list (string * Json)) : Json :=
  JsObject (foldl (λ acc '(k, x), Json_insert k x acc) [] l).
Definition json_opt {A} (f : A → Json) (o : option A) : Json := match o with Some a => f a | None => JsNull end.

(** ** The data of a cipher *)

(** serde_json and chrono: [json_from_str] keeps the entries of an object in
    the order of the text; [format_rfc3339] reads a date and prints it with
    microseconds, [format_date] prints an instant in the same format. *)
Class JsonText := {
  json_from_str : string → option Json;
  json_to_string : Json → string;
  format_rfc3339 : string → option string;
  format_date : Z → string;
}.

Section rendering.
Context `{JsonText}.

Definition epoch : string := "1970-01-01T00:00:00.000000Z".
Definition validate_and_format_date (dt : string) : string := default epoch (format_rfc3339 dt).

(** [serde_json::from_str::<Vec<LowerCase<Value>>>]. *)
Definition read_objects (s : string) : option (list Json) :=
  match json_from_str s with Some (JsArray l) => mapM LowerCase l | _ => None end.

(** The type of a custom field must be a number; hidden when in doubt. *)
Definition fix_field (f : Json) : Json :=
  match Json_find "type" f with
  | Some (JsNumber _) => f
  | Some (JsString t) => Json_set "type" (json_number (default 1 (parse_u8 t))) f
  | _ => Json_set "type" (json_number 1) f
  end.
Definition fields_json (fields : option string) : list Json :=
  match fields ≫= read_objects with Some l => fix_field <$> l | None => [] end.

(** Entries of the password history without a password are dropped. *)
Definition has_password (d : Json) : bool :=
  match Json_find "password" d with Some p => Json_is_string p | None => false end.
Definition fix_history (d : Json) : Json :=
  Json_set "lastUsedDate" (JsString match Json_find "lastUsedDate" d with
    | Some (JsString l) => validate_and_format_date l
    | _ => epoch
    end) d.
Definition password_history_json (history : option string) : list Json :=
  match history ≫= read_objects with Some l => fix_history <$> where_ has_password l | None => [] end.

(** How a login matches an address is a number or [null]. *)
Definition fix_uri (uri : Json) : Json :=
  match Json_get "match" uri with
  | JsString s => Json_set "match" match parse_u8 s with Some n => json_number n | None => JsNull end uri
  | _ => uri
  end.
Definition fix_login (data : Json) : Json :=
  let data := Json_touch "uris" (Json_set "uri" JsNull data) in
  let data := match Json_get "uris" data with
    | JsArray (u :: us) =>
        let uris := fix_uri <$> (u :: us) in
        Json_set "uri" (Json_get "uri" (fix_uri u)) (Json_set "uris" (JsArray uris) data)
    | _ => data
    end in
  match Json_get "passwordRevisionDate" data with
  | JsString d => Json_set "passwordRevisionDate" (JsString (validate_and_format_date d)) data
  | _ => data
  end.
Definition fix_secure_note (data : Json) : Json :=
  match Json_find "type" data with
  | Some (JsNumber _) => data
  | _ => JsObject [("type", json_number 0)]
  end.
Definition fix_ssh_key (data : Json) : Json :=
  if Json_no_text (Json_get "keyFingerprint" data) || Json_no_text (Json_get "privateKey" data)
     || Json_no_text (Json_get "publicKey" data)
  then JsNull else data.
Definition type_data_json (atype : Z) (data : string) : Json :=
  let v := default (JsObject []) (json_from_str data ≫= LowerCase) in
  if atype =? 1 then fix_login v else if atype =? 2 then fix_secure_note v else if atype =? 5 then fix_ssh_key v else v.
End rendering.

(** ** Lemmas on entries *)

Lemma compare_refl (s : string) : String.compare s s = Eq.
Proof. pose proof (String.compare_antisym s s) as H. by destruct (String.compare s s). Qed.

Lemma compare_trans (s t u : string) : String.compare s t = Lt → String.compare t u = Lt → String.compare s u = Lt.
Proof.
  revert t u. induction s as [|a s IH]; intros [|b t] [|c u]; simpl; try done.
  unfold Ascii.compare.
  destruct (N.compare_spec (Ascii.N_of_ascii a) (Ascii.N_of_ascii b)) as [Hab|Hab|Hab],
    (N.compare_spec (Ascii.N_of_ascii b) (Ascii.N_of_ascii c)) as [Hbc|Hbc|Hbc],
    (N.compare_spec (Ascii.N_of_ascii a) (Ascii.N_of_ascii c)) as [Hac|Hac|Hac]; intros; try done; try lia; eauto.
Qed.

Lemma lookup_insert_same k x m : Json_lookup k (Json_insert k x m) = Some x.
Proof.
  induction m as [|[k' y] m IH]; simpl; [by rewrite bool_decide_eq_true_2|].
  destruct (String.compare k k') eqn:Hc; simpl; [by rewrite bool_decide_eq_true_2..|].
  rewrite bool_decide_eq_false_2; [done|]. intros ->. by rewrite compare_refl in Hc.
Qed.
Lemma lookup_insert_other k k' x m : k ≠ k' → Json_lookup k (Json_insert k' x m) = Json_lookup k m.
Proof.
  intros Hne. induction m as [|[k2 y] m IH]; simpl; [by rewrite bool_decide_eq_false_2|].
  destruct (String.compare k' k2) eqn:Hc; simpl.
  - apply String.compare_eq_iff in Hc as ->. by rewrite !(bool_decide_eq_false_2 (k = k2)).
  - by rewrite (bool_decide_eq_false_2 (k = k')).
  - by case_bool_decide.
Qed.

Definition is_object (v : Json) : Prop := ∃ m, v = JsObject m.

Lemma set_object k x v : is_object v → is_object (Json_set k x v).
Proof. intros [m ->]. by eexists. Qed.
Lemma touch_object k v : is_object v → is_object (Json_touch k v).
Proof. intros Hv. unfold Json_touch. destruct (Json_find k v); [done|]. by apply set_object. Qed.
Lemma find_set k x v : is_object v → Json_find k (Json_set k x v) = Some x.
Proof. intros [m ->]. apply lookup_insert_same. Qed.
Lemma find_set_ne k k' x v : k ≠ k' → Json_find k (Json_set k' x v) = Json_find k v.
Proof. intros Hne. destruct v; simpl; try done. by apply lookup_insert_other. Qed.
Lemma LowerCase_object v w : LowerCase v = Some w → is_object w.
Proof. destruct v; simpl; intros; simplify_eq; by eexists. Qed.
Lemma find_some_object k v x : Json_find k v = Some x → is_object v.
Proof. destruct v; simpl; intros; simplify_eq. by eexists. Qed.

(** *** Sorted objects *)

Definition key_lt (a b : string * Json) : Prop := String.compare a.1 b.1 = Lt.

Lemma insert_Forall (P : string * Json → Prop) k x m : P (k, x) → Forall P m → Forall P (Json_insert k x m).
Proof.
  intros Hk Hm. induction Hm as [|[k' y] m Hy Hm IH]; simpl; [by repeat constructor|].
  destruct (String.compare k k'); by repeat constructor.
Qed.
Lemma foldl_insert_Forall (P : string * Json → Prop) l acc :
  Forall P l → Forall P acc → Forall P (foldl (λ acc '(k, x), Json_insert k x acc) acc l).
Proof. intros Hl. revert acc. induction Hl as [|[k x] l Hx Hl IH]; intros acc Ha; [done|]. by apply IH, insert_Forall. Qed.

Lemma insert_sorted k x m : StronglySorted key_lt m → StronglySorted key_lt (Json_insert k x m).
Proof.
  intros Hm. induction Hm as [|[k' y] m Hm IH Hall]; simpl; [by repeat constructor|].
  destruct (String.compare k k') eqn:Hc.
  - apply String.compare_eq_iff in Hc as ->. by constructor.
  - constructor; [by constructor|]. constructor; [done|].
    eapply Forall_impl; [exact Hall|]. intros e He. by eapply compare_trans.
  - constructor; [done|]. apply insert_Forall; [|done]. unfold key_lt. simpl.
    rewrite String.compare_antisym, Hc. done.
Qed.
Lemma foldl_insert_sorted l acc :
  StronglySorted key_lt acc → StronglySorted key_lt (foldl (λ acc '(k, x), Json_insert k x acc) acc l).
Proof. revert acc. induction l as [|[k x] l IH]; intros acc Ha; [done|]. by apply IH, insert_sorted. Qed.

Lemma insert_last k x m : Forall (λ e, String.compare e.1 k = Lt) m → Json_insert k x m = m ++ [(k, x)].
Proof.
  induction 1 as [|[k' y] m Hk Hm IH]; simpl in *; [done|].
  by rewrite String.compare_antisym, Hk, IH.
Qed.
Lemma foldl_insert_id m acc :
  StronglySorted key_lt (acc ++ m) → foldl (λ acc '(k, x), Json_insert k x acc) acc m = acc ++ m.
Proof.
  revert acc. induction m as [|[k x] m IH]; intros acc Hs; simpl; [by rewrite app_nil_r|].
  rewrite insert_last, IH.
  - by rewrite <-app_assoc.
  - by rewrite <-app_assoc.
  - apply Forall_forall. intros e He. apply StronglySorted_app in Hs as (Hlt & _ & _).
    apply (Hlt e (k, x)); [done|]. by left.
Qed.

Lemma map_keys_idem f v : (∀ k, f (f k) = f k) → Json_map_keys f (Json_map_keys f v) = Json_map_keys f v.
Proof.
  intros Hf. induction v as [| | | |l IH|m IH] using Json_induction; simpl; try done; f_equal.
  - rewrite <-list_fmap_compose. by apply Forall_fmap_ext_1.
  - set (r := foldl _ [] ((λ '(k, x), (f k, Json_map_keys f x)) <$> m)). assert (Forall (λ e, f e.1 = e.1 ∧ Json_map_keys f e.2 = e.2) r) as Hr.
    { apply foldl_insert_Forall; [|constructor]. apply Forall_fmap.
      eapply Forall_impl; [exact IH|]. intros [k x] Hx. simpl in *. by rewrite Hf, Hx. }
    replace ((λ '(k, x), (f k, Json_map_keys f x)) <$> r) with r.
    + rewrite foldl_insert_id; [done|]. apply foldl_insert_sorted. constructor.
    + rewrite <-(list_fmap_id r) at 1. apply Forall_fmap_ext_1. eapply Forall_impl; [exact Hr|].
      intros [k x] [Hk Hx]. simpl in *. by rewrite Hk, Hx.
Qed.

Lemma process_json_key_idem k : process_json_key (process_json_key k) = process_json_key k.
Proof.
  unfold process_json_key at 2 3. case_bool_decide as H1; [reflexivity|]. unfold process_json_key.
  rewrite bool_decide_eq_false_2.
  - destruct k; simpl; [done|]. by rewrite ascii_to_lower_idem.
  - destruct k; simpl in *; [done|]. by rewrite ascii_to_lower_idem.
Qed.

(** Lowering the keys of a JSON value is idempotent: a value that a client
    stored and that was rendered once is rendered the same the next time. *)
Theorem lowering_keys_is_idempotent (v : Json) :
  convert_json_key_lcase_first (convert_json_key_lcase_first v) = convert_json_key_lcase_first v.
Proof. apply map_keys_idem, process_json_key_idem. Qed.

(** ** What the clients receive *)

Definition numeric_key (k : string) (v : Json) : Prop := ∃ n, Json_find k v = Some (JsNumber n).
Definition text_key (k : string) (v : Json) : Prop := ∃ s, Json_find k v = Some (JsString s).
Definition filled_key (k : string) (v : Json) : Prop := ∃ s, Json_find k v = Some (JsString s) ∧ s ≠ ""%string.

Definition login_shape (v : Json) : Prop :=
  is_Some (Json_find "uri" v) ∧ is_Some (Json_find "uris" v)
  ∧ ∀ l, Json_find "uris" v = Some (JsArray l) →
      (∀ u, u ∈ l → Json_is_string (Json_get "match" u) = false)
      ∧ (∀ u us, l = u :: us → Json_find "uri" v = Some (Json_get "uri" u)).

Section shapes.
Context `{JsonText}.

Lemma read_objects_elem s l v : read_objects s = Some l → v ∈ l → is_object v.
Proof.
  unfold read_objects. destruct (json_from_str s) as [[| | | |l0|]|]; try done.
  intros Hm Hv. eapply mapM_Some_1 in Hm. apply list_elem_of_lookup in Hv as [i Hi].
  eapply Forall2_lookup_r in Hm as (w & _ & Hw); [|done]. by eapply LowerCase_object.
Qed.

Lemma fix_field_type f : is_object f → numeric_key "type" (fix_field f).
Proof.
  intros Hf. unfold fix_field, numeric_key.
  destruct (Json_find "type" f) as [[]|] eqn:Ht; rewrite ?find_set by done; unfold json_number; eauto.
Qed.
Lemma fix_history_shape d : has_password d = true → text_key "password" (fix_history d) ∧ text_key "lastUsedDate" (fix_history d).
Proof.
  unfold has_password. destruct (Json_find "password" d) as [[| | |p| |]|] eqn:Hp; try done. intros _.
  pose proof (find_some_object _ _ _ Hp) as Ho. unfold fix_history, text_key. split.
  - rewrite find_set_ne by done. eauto.
  - rewrite find_set by done. eauto.
Qed.
Lemma fix_uri_match u : Json_is_string (Json_get "match" (fix_uri u)) = false.
Proof.
  unfold fix_uri, Json_get. destruct (Json_find "match" u) as [[| | |s| |]|] eqn:Hm; simpl; rewrite ?Hm; try done.
  rewrite find_set by by eapply find_some_object. by destruct (parse_u8 s).
Qed.

Lemma fix_login_shape v : is_object v → login_shape (fix_login v).
Proof.
  intros Hv. unfold fix_login.
  set (d := Json_touch "uris" _).
  assert (is_object d ∧ is_Some (Json_find "uri" d) ∧ is_Some (Json_find "uris" d)) as (Hd & Huri & Huris).
  { unfold d, Json_touch. pose proof (set_object "uri" JsNull v Hv).
    destruct (Json_find "uris" _) eqn:Hu; split_and!; [done| | | | |];
      rewrite ?Hu, ?(find_set_ne "uri" "uris"), ?find_set by done; eauto using set_object. }
  clearbody d. set (d' := match Json_get "uris" d with JsArray (_ :: _) => _ | _ => d end).
  assert (login_shape d') as (H1 & H2 & H3).
  { unfold d', Json_get at 1. destruct Huris as [us Hus]. rewrite Hus. simpl.
    assert (∀ l, us = JsArray l → l = [] → login_shape d) as Hnil.
    { intros l -> ->. split_and!; [eauto..|]. intros l Hl. simplify_eq. split; [set_solver|done]. }
    destruct us as [| | | |[|u us]|]; try by (repeat split; eauto; intros; simplify_eq). { by eapply Hnil. }
    pose proof (set_object "uris" (JsArray (fix_uri <$> (u :: us))) d Hd) as Ho.
    split_and!; rewrite ?find_set_ne, ?find_set by done; eauto.
    intros l [= <-]. split.
    - intros w Hw. change (w ∈ fix_uri <$> (u :: us)) in Hw.
      apply list_elem_of_fmap in Hw as (w' & -> & _). apply fix_uri_match.
    - intros u' us' [= <- <-]. done. }
  clearbody d'. unfold login_shape. destruct (Json_get "passwordRevisionDate" d'); try done.
  by rewrite !find_set_ne by done.
Qed.

Lemma fix_secure_note_shape v : numeric_key "type" (fix_secure_note v).
Proof. unfold fix_secure_note, numeric_key. destruct (Json_find "type" v) as [[]|] eqn:Ht; eauto; by eexists. Qed.

Lemma not_no_text k v : Json_no_text (Json_get k v) = false → filled_key k v.
Proof.
  unfold Json_get, filled_key. destruct (Json_find k v) as [[| | |s| |]|]; simpl; try done.
  intros Hs. exists s. split; [done|]. by apply bool_decide_eq_false in Hs.
Qed.
Lemma fix_ssh_key_shape v :
  fix_ssh_key v = JsNull
  ∨ filled_key "keyFingerprint" (fix_ssh_key v) ∧ filled_key "privateKey" (fix_ssh_key v) ∧ filled_key "publicKey" (fix_ssh_key v).
Proof.
  unfold fix_ssh_key. destruct (_ || _) eqn:Hb; [by left|]. right.
  apply orb_false_elim in Hb as [[H1 H2]%orb_false_elim H3]. auto using not_no_text.
Qed.

(** Whatever a client has stored in a cipher, the data that the other
    clients receive has the shape they need: every custom field has a numeric
    type, every entry of the password history a password and a date, a login a
    first address equal to that of its first entry and no textual match rule, a
    secure note a numeric type, and an SSH key is [null] or complete. *)
Theorem rendered_data_has_client_shape (atype : Z) (data : string) (fields history : option string) :
  (∀ f, f ∈ fields_json fields → numeric_key "type" f)
  ∧ (∀ h, h ∈ password_history_json history → text_key "password" h ∧ text_key "lastUsedDate" h)
  ∧ (atype = 1 → login_shape (type_data_json atype data))
  ∧ (atype = 2 → numeric_key "type" (type_data_json atype data))
  ∧ (atype = 5 → let v := type_data_json atype data in
       v = JsNull ∨ filled_key "keyFingerprint" v ∧ filled_key "privateKey" v ∧ filled_key "publicKey" v).
Proof.
  split_and!.
  - intros f. unfold fields_json. destruct (fields ≫= read_objects) as [l|] eqn:Hl; [|set_solver].
    destruct fields as [s|]; simpl in Hl; [|done].
    intros (w & -> & Hw)%list_elem_of_fmap. eapply fix_field_type, read_objects_elem; eauto.
  - intros h. unfold password_history_json. destruct (history ≫= read_objects) as [l|] eqn:Hl; [|set_solver].
    intros (w & -> & Hw)%list_elem_of_fmap. apply fix_history_shape. by apply elem_of_where in Hw as [_ ?].
  - intros ->. apply fix_login_shape. destruct (json_from_str data) as [v|]; simpl; [|by eexists].
    destruct (LowerCase v) eqn:Hv; [by eapply LowerCase_object|by eexists].
  - intros ->. apply fix_secure_note_shape.
  - intros ->. apply fix_ssh_key_shape.
Qed.
End shapes.

(** ** A sample reader

    A table of texts stands for serde_json. *)
Module SampleJson.
Definition text_of (v : Json) : string := match v with JsString s => s | JsNull => "null" | _ => "json" end.
Definition samples : list (string * Json) :=
  [("login", JsObject [("Uris", JsArray [JsObject [("Uri", JsString "2.addr"); ("match", JsString "3")];
                                         JsObject [("match", JsString "x")]]);
                       ("PasswordRevisionDate", JsString "yesterday")]);
   ("fields", JsArray [JsObject [("Type", JsString "2")]; JsObject [("name", JsString "n")]]);
   ("history", JsArray [JsObject [("Password", JsNull)]; JsObject [("Password", JsString "2.old")]])].
#[export] Instance sample_json : JsonText :=
  {| json_from_str := λ s, Json_lookup s samples; json_to_string := text_of; format_rfc3339 := λ _, None; format_date := λ _, epoch |}.
End SampleJson.

Example sample_login :
  type_data_json (H := SampleJson.sample_json) 1 "login" = JsObject
    [("passwordRevisionDate", JsString epoch); ("uri", JsString "2.addr");
     ("uris", JsArray [JsObject [("match", JsNumber "3"); ("uri", JsString "2.addr")]; JsObject [("match", JsNull)]])].
Proof. vm_compute. reflexivity. Qed.
Example sample_fields :
  fields_json (H := SampleJson.sample_json) (Some "fields") =
    [JsObject [("type", JsNumber "2")]; JsObject [("name", JsString "n"); ("type", JsNumber "1")]].
Proof. vm_compute. reflexivity. Qed.
Example sample_history :
  password_history_json (H := SampleJson.sample_json) (Some "history") =
    [JsObject [("lastUsedDate", JsString epoch); ("password", JsString "2.old")]].
Proof. vm_compute. reflexivity. Qed.
