(* ===== verification/Network.v ===== *)
(** Addresses, outgoing requests and retries.

    Models src/src/http_client.rs, [is_global_hardcoded], [retry] and
    [retry_db] of src/src/util.rs, and the detection of the client's address of
    src/src/auth.rs. An IPv4 address is a 32-bit and an IPv6 address a 128-bit
    number; the methods of [std::net] that the code calls, with its parser and
    printer, are written out. The URL parser, regular expressions, name
    resolution and networks ([ipnet]) are parameters.

    The theorems state that the conditions on octets and segments are exactly a
    table of address blocks, that outgoing requests only reach addresses that
    pass the filter, that a client cannot choose its own address, that the
    cached regular expression answers like a fresh one, and when the retry
    loops return. *)
From stdpp Require Import pretty.
From S2P Require Import Prelude Schema Roles Users.
Local Open Scope Z_scope.

(** ** Addresses *)

Inductive IpAddr := V4 (ip : Z) | V6 (ip : Z).
#[export] Instance IpAddr_eq_dec : EqDecision IpAddr.
Proof. solve_decision. Defined.

Definition ip_valid (ip : IpAddr) : Prop :=
  match ip with V4 a => 0 ≤ a < 2 ^ 32 | V6 a => 0 ≤ a < 2 ^ 128 end.

(** [ip.octets()[i]] and [ip.segments()[i]]. *)
Definition octet (ip : Z) (i : Z) : Z := Z.land (Z.shiftr ip (24 - 8 * i)) 0xff.
Definition segment (ip : Z) (i : Z) : Z := Z.land (Z.shiftr ip (112 - 16 * i)) 0xffff.
Definition ipv4 (a b c d : Z) : Z := 2 ^ 24 * a + 2 ^ 16 * b + 2 ^ 8 * c + d.
Fixpoint segments_from (i : Z) (l : list Z) (ip : Z) : bool :=
  match l with [] => true | g :: l => (segment ip i =? g) && segments_from (i + 1) l ip end.
(** [matches!(ip.segments(), [g0, .., gn, ..])]. *)
Definition segments_prefix : list Z → Z → bool := segments_from 0.

(** *** The methods of [std::net::Ipv4Addr] and [Ipv6Addr] *)

Definition v4_is_private (ip : Z) : bool :=
  (octet ip 0 =? 10) || ((octet ip 0 =? 172) && (16 <=? octet ip 1) && (octet ip 1 <=? 31))
  || ((octet ip 0 =? 192) && (octet ip 1 =? 168)).
Definition v4_is_loopback (ip : Z) : bool := octet ip 0 =? 127.
Definition v4_is_link_local (ip : Z) : bool := (octet ip 0 =? 169) && (octet ip 1 =? 254).
Definition v4_is_documentation (ip : Z) : bool :=
  ((octet ip 0 =? 192) && (octet ip 1 =? 0) && (octet ip 2 =? 2))
  || ((octet ip 0 =? 198) && (octet ip 1 =? 51) && (octet ip 2 =? 100))
  || ((octet ip 0 =? 203) && (octet ip 1 =? 0) && (octet ip 2 =? 113)).
Definition v4_is_broadcast (ip : Z) : bool := ip =? 2 ^ 32 - 1.
Definition v6_is_unspecified (ip : Z) : bool := ip =? 0.
Definition v6_is_loopback (ip : Z) : bool := ip =? 1.
Definition v6_is_unique_local (ip : Z) : bool := Z.land (segment ip 0) 0xfe00 =? 0xfc00.
Definition v6_is_unicast_link_local (ip : Z) : bool := Z.land (segment ip 0) 0xffc0 =? 0xfe80.
(** [IpAddr::to_canonical]: an IPv4-mapped address is the IPv4 address. *)
Definition to_canonical (ip : IpAddr) : IpAddr :=
  match ip with
  | V6 a => if segments_prefix [0; 0; 0; 0; 0; 0xffff] a then V4 (Z.land a 0xffffffff) else ip
  | V4 _ => ip
  end.

(** [is_global_hardcoded]. *)
Definition is_global (ip : IpAddr) : bool :=
  match ip with
  | V4 ip =>
      negb ((octet ip 0 =? 0)
      || v4_is_private ip
      || ((octet ip 0 =? 100) && (Z.land (octet ip 1) 0xc0 =? 0x40))
      || v4_is_loopback ip
      || v4_is_link_local ip
      || ((octet ip 0 =? 192) && (octet ip 1 =? 0) && (octet ip 2 =? 0)
          && negb (octet ip 3 =? 9) && negb (octet ip 3 =? 10))
      || v4_is_documentation ip
      || ((octet ip 0 =? 198) && (Z.land (octet ip 1) 0xfe =? 18))
      || ((Z.land (octet ip 0) 240 =? 240) && negb (v4_is_broadcast ip))
      || v4_is_broadcast ip)
  | V6 ip =>
      negb (v6_is_unspecified ip
      || v6_is_loopback ip
      || segments_prefix [0; 0; 0; 0; 0; 0xffff] ip
      || segments_prefix [0x64; 0xff9b; 1] ip
      || segments_prefix [0x100; 0; 0; 0] ip
      || (segments_prefix [0x2001] ip && (segment ip 1 <? 0x200)
          && negb ((ip =? 0x20010001000000000000000000000001)
                   || (ip =? 0x20010001000000000000000000000002)
                   || segments_prefix [0x2001; 3] ip
                   || segments_prefix [0x2001; 4; 0x112] ip
                   || (segments_prefix [0x2001] ip && (0x20 <=? segment ip 1) && (segment ip 1 <=? 0x3f))))
      || segments_prefix [0x2002] ip
      || (segments_prefix [0x2001; 0xdb8] ip || (segments_prefix [0x3fff] ip && (segment ip 1 <=? 0xfff)))
      || segments_prefix [0x5f00] ip
      || v6_is_unique_local ip
      || v6_is_unicast_link_local ip)
  end.

(** ** Text of addresses

    The parser of [std::net]: each function reads a prefix and gives the rest. *)

Definition hex_digit (a : Ascii.ascii) : option Z :=
  let n := Z.of_nat (Ascii.nat_of_ascii a) in
  if (48 <=? n) && (n <=? 57) then Some (n - 48)
  else if (97 <=? n) && (n <=? 102) then Some (n - 87)
  else if (65 <=? n) && (n <=? 70) then Some (n - 55) else None.
Definition to_digit (radix : Z) (a : Ascii.ascii) : option Z :=
  match hex_digit a with Some n => if n <? radix then Some n else None | None => None end.

(** The digits at the front of the text, and the rest. *)
Fixpoint take_digits (radix : Z) (s : string) : list Z * string :=
  match s with
  | String a s' => match to_digit radix a with
                   | Some n => let '(l, r) := take_digits radix s' in (n :: l, r)
                   | None => ([], s)
                   end
  | EmptyString => ([], s)
  end.
Definition read_number (radix max_digits limit : Z) (allow_zero_prefix : bool) (s : string) : option (Z * string) :=
  let '(l, r) := take_digits radix s in
  let n := foldl (λ acc n, radix * acc + n) 0 l in
  if bool_decide (l = []) || (max_digits <? Z.of_nat (length l)) || (limit <? n)
     || (negb allow_zero_prefix && bool_decide (head l = Some 0) && (1 <? Z.of_nat (length l)))
  then None else Some (n, r).
Definition read_char (c : Ascii.ascii) (s : string) : option string :=
  match s with String a s' => if a == c then Some s' else None | EmptyString => None end.
Definition dot : Ascii.ascii := Ascii.ascii_of_nat 46.
Definition colon : Ascii.ascii := Ascii.ascii_of_nat 58.

Definition read_ipv4_addr (s : string) : option (Z * string) :=
  '(a, s) ← read_number 10 3 255 false s; s ← read_char dot s;
  '(b, s) ← read_number 10 3 255 false s; s ← read_char dot s;
  '(c, s) ← read_number 10 3 255 false s; s ← read_char dot s;
  '(d, s) ← read_number 10 3 255 false s;
  Some (ipv4 a b c d, s).

(** [read_groups]: at most [limit] groups; the last two may be an IPv4
    address. *)
Definition read_separator {A} (i : nat) (read : string → option (A * string)) (s : string) : option (A * string) :=
  match i with O => read s | S _ => s ← read_char colon s; read s end.
Fixpoint read_groups (limit i : nat) (s : string) : list Z * bool * string :=
  match limit with
  | O => ([], false, s)
  | S rest =>
      match (if bool_decide (rest = 0)%nat then None else read_separator i read_ipv4_addr s) with
      | Some (v4, s) => ([Z.shiftr v4 16; Z.land v4 0xffff], true, s)
      | None =>
          match read_separator i (read_number 16 4 0xffff true) s with
          | Some (g, s) => let '(gs, v4, s) := read_groups rest (S i) s in (g :: gs, v4, s)
          | None => ([], false, s)
          end
      end
  end.
Definition of_segments (l : list Z) : Z := foldl (λ acc g, 2 ^ 16 * acc + g) 0 l.
Definition read_ipv6_addr (s : string) : option (Z * string) :=
  let '(head, head_ipv4, s) := read_groups 8 0 s in
  if bool_decide (length head = 8)%nat then Some (of_segments head, s) else
  if (head_ipv4 : bool) then None else
  s ← read_char colon s; s ← read_char colon s;
  let '(tail, _, s) := read_groups (8 - (length head + 1)) 0 s in
  Some (of_segments (head ++ replicate (8 - length head - length tail) 0 ++ tail), s).
(** [s.parse::<IpAddr>()]. *)
Definition parse_ip (s : string) : option IpAddr :=
  match read_ipv4_addr s with
  | Some (a, "") => Some (V4 a)
  | _ => match read_ipv6_addr s with Some (a, "") => Some (V6 a) | _ => None end
  end%string.

(** [ip.to_string()]. *)
Definition v4_to_string (ip : Z) : string :=
  pretty (octet ip 0) +:+ "." +:+ pretty (octet ip 1) +:+ "." +:+ pretty (octet ip 2) +:+ "." +:+ pretty (octet ip 3).
Definition hex_char (n : Z) : string :=
  String (Ascii.ascii_of_nat (Z.to_nat (if n <? 10 then 48 + n else 87 + n))) "".
Definition hex_group (n : Z) : string :=
  (if 0x1000 <=? n then hex_char (n / 0x1000) else "")
  +:+ (if 0x100 <=? n then hex_char (n / 0x100 mod 16) else "")
  +:+ (if 0x10 <=? n then hex_char (n / 0x10 mod 16) else "") +:+ hex_char (n mod 16).
Definition join_groups (l : list Z) : string := String.concat ":" (hex_group <$> l).
(** The first of the longest runs of zeros: its start and its length. *)
Fixpoint zero_runs (i cur : nat) (best : nat * nat) (l : list Z) : nat * nat :=
  match l with
  | [] => best
  | g :: l =>
      let cur := if g =? 0 then S cur else O in
      zero_runs (S i) cur (if bool_decide (best.2 < cur)%nat then ((S i - cur)%nat, cur) else best) l
  end.
Definition v6_to_string (ip : Z) : string :=
  if segments_prefix [0; 0; 0; 0; 0; 0xffff] ip then "::ffff:" +:+ v4_to_string (Z.land ip 0xffffffff) else
  let l := segment ip <$> (Z.of_nat <$> seq 0 8) in
  let '(start, len) := zero_runs 0 0 (O, O) l in
  if bool_decide (1 < len)%nat
  then join_groups (take start l) +:+ "::" +:+ join_groups (drop (start + len) l)
  else join_groups l.

(** ** Outgoing requests *)

(** The configuration, and the crates url, regex and hickory. *)
Class HttpConfig := {
  http_request_block_non_global_ips : bool;
  http_request_block_regex : option string;
}.
(** [url::Host]. *)
Inductive Host := HostDomain (d : string) | HostIpv4 (ip : Z) | HostIpv6 (ip : Z).
Class NetCrates := {
  Host_parse : string → option Host;
  (** [Url::parse(s)], and the host of the result. *)
  Url_parse_host : string → option (option Host);
  Regex : Type;
  Regex_new : string → option Regex;
  Regex_is_match : Regex → string → bool;
  (** The addresses of a name, or the error of the lookup. *)
  lookup_ip : string → option (list IpAddr);
}.

Inductive CustomHttpClientError :=
| Blocked (domain : string) | NonGlobalIp (domain : option string) (ip : IpAddr) | Invalid (domain : string)
(** Errors of the program and of the crates, by their message. *)
| OtherError (msg : string).
Definition HRes (A : Type) : Type := A + CustomHttpClientError.

Section http.
Context `{HttpConfig} `{NetCrates}.

Definition should_block_ip (ip : IpAddr) : bool :=
  if negb http_request_block_non_global_ips then false else negb (is_global ip).

(** [should_block_address_regex]: [COMPILED_REGEX] is the state; [None] is the
    panic on a regular expression that does not compile. *)
Definition RegexCache : Type := option (string * Regex).
Definition should_block_address_regex (domain_or_ip : string) (guard : RegexCache) : option (bool * RegexCache) :=
  match http_request_block_regex with
  | None => Some (false, guard)
  | Some block_regex =>
      let recreate :=
        match Regex_new block_regex with
        | Some regex => Some (Regex_is_match regex domain_or_ip, Some (block_regex, regex))
        | None => None
        end in
      match guard with
      | Some (value, regex) => if value == block_regex then Some (Regex_is_match regex domain_or_ip, guard) else recreate
      | None => recreate
      end
  end.

(** [label.starts_with('-')], [ends_with] and the characters of a label. *)
Definition is_alphanumeric (a : Ascii.ascii) : bool :=
  let n := Z.of_nat (Ascii.nat_of_ascii a) in
  ((48 <=? n) && (n <=? 57)) || ((65 <=? n) && (n <=? 90)) || ((97 <=? n) && (n <=? 122)).
Definition hyphen : Ascii.ascii := Ascii.ascii_of_nat 45.
Definition valid_label (label : string) : bool :=
  let l := String.list_ascii_of_string label in
  negb (label == "") && (Z.of_nat (length l) <=? 63)
  && negb (bool_decide (head l = Some hyphen)) && negb (bool_decide (last l = Some hyphen))
  && forallb (λ c, is_alphanumeric c || (c == hyphen)) l.

Definition get_valid_host (host : string) : HRes Host :=
  match Host_parse host with
  | None => inr (Invalid host)
  | Some (HostDomain domain) =>
      if 253 <? Z.of_nat (String.length domain) then inr (Invalid domain)
      else if negb (forallb valid_label (split_on dot domain)) then inr (Invalid domain)
      else inl (HostDomain domain)
  | Some h => inl h
  end.

Definition host_ip (h : Host) : option IpAddr :=
  match h with HostIpv4 a => Some (V4 a) | HostIpv6 a => Some (V6 a) | HostDomain _ => None end.
Definition host_str (h : Host) : string :=
  match h with HostIpv4 a => v4_to_string a | HostIpv6 a => v6_to_string a | HostDomain d => d end.

Definition should_block_host (host : Host) (guard : RegexCache) : option (HRes () * RegexCache) :=
  match host_ip host with
  | Some ip => if should_block_ip ip then Some (inr (NonGlobalIp None ip), guard) else
      '(b, guard) ← should_block_address_regex (host_str host) guard;
      Some (if (b : bool) then inr (Blocked (host_str host)) else inl (), guard)
  | None =>
      '(b, guard) ← should_block_address_regex (host_str host) guard;
      Some (if (b : bool) then inr (Blocked (host_str host)) else inl (), guard)
  end.

(** [make_http_request]: the host that the request goes to. *)
Definition make_http_request (url : string) (guard : RegexCache) : option (HRes Host * RegexCache) :=
  match Url_parse_host url with
  | None => Some (inr (OtherError "Invalid URL"), guard)
  | Some None => Some (inr (OtherError "Invalid host"), guard)
  | Some (Some host) =>
      '(r, guard) ← should_block_host host guard;
      Some (match r with inl _ => inl host | inr e => inr e end, guard)
  end.

(** The redirect policy of [get_reqwest_client_builder]: whether the attempt
    is followed. *)
Definition redirect_policy (previous : nat) (host : option Host) (guard : RegexCache) : option (HRes () * RegexCache) :=
  if bool_decide (5 ≤ previous)%nat then Some (inr (OtherError "Too many redirects"), guard) else
  match host with
  | None => Some (inr (OtherError "Invalid host"), guard)
  | Some host => should_block_host host guard
  end.

Definition with_domain (e : CustomHttpClientError) (name : string) : CustomHttpClientError :=
  match e with
  | NonGlobalIp _ ip => NonGlobalIp (Some name) ip
  | Blocked domain => Blocked (name +:+ " (" +:+ domain +:+ ")")
  | e => e
  end.

Definition pre_resolve (name : string) (enforce_block : bool) (guard : RegexCache) : option (HRes () * RegexCache) :=
  match get_valid_host name with
  | inr _ => Some (inr (Invalid name), guard)
  | inl host =>
      if enforce_block then
        '(r, guard) ← should_block_host host guard;
        Some (match r with inr _ => inr (Blocked name) | inl _ => inl () end, guard)
      else Some (inl (), guard)
  end.
Definition post_resolve (name : string) (ip : IpAddr) (guard : RegexCache) : option (HRes () * RegexCache) :=
  '(r, guard) ← should_block_host (match ip with V4 ip => HostIpv4 ip | V6 ip => HostIpv6 ip end) guard;
  Some (match r with inr e => inr (with_domain e name) | inl _ => inl () end, guard).
Fixpoint post_resolve_all (name : string) (l : list IpAddr) (guard : RegexCache) : option (HRes () * RegexCache) :=
  match l with
  | [] => Some (inl (), guard)
  | ip :: l =>
      '(r, guard) ← post_resolve name ip guard;
      match r with inr e => Some (inr e, guard) | inl _ => post_resolve_all name l guard end
  end.
Definition resolve_domain (name : string) (enforce_block : bool) (guard : RegexCache)
    : option (HRes (list IpAddr) * RegexCache) :=
  '(r, guard) ← pre_resolve name enforce_block guard;
  match r with
  | inr e => Some (inr e, guard)
  | inl _ =>
      match lookup_ip name with
      | None => Some (inr (OtherError "lookup failed"), guard)
      | Some results =>
          if enforce_block then
            '(r, guard) ← post_resolve_all name results guard;
            Some (match r with inr e => inr e | inl _ => inl results end, guard)
          else Some (inl results, guard)
      end
  end.
End http.

(** ** The address of the client *)

(** The configuration, and the crate ipnet. *)
Class ProxyConfig := {
  ip_header_enabled : bool;
  ip_header_trusted_proxies : string;
}.
Class IpNets := {
  IpNet : Type;
  parse_ipnet : string → option IpNet;
  ipnet_from : IpAddr → IpNet;
  ipnet_contains : IpNet → IpAddr → bool;
}.

Section client_ip.
Context `{ProxyConfig} `{IpNets}.

Definition parse_trusted_proxy (entry : string) : option IpNet :=
  let entry := trim entry in
  match parse_ipnet entry with
  | Some net => Some net
  | None => ipnet_from <$> parse_ip entry
  end.

Definition ip_header_is_trusted (remote : option IpAddr) : bool :=
  let trusted := trim ip_header_trusted_proxies in
  if to_lowercase trusted == "all" then true else
  match remote with
  | None => false
  | Some remote =>
      let remote := to_canonical remote in
      if to_lowercase trusted == "local" then negb (is_global remote) else
      existsb (λ net, ipnet_contains net remote) (omap parse_trusted_proxy (split_commas trusted))
  end.

(** The text before the first comma. *)
Definition first_entry (s : string) : string := default "" (head (split_commas s)).

(** [<ClientIp as FromRequest>::from_request]; [header] is the value of the
    configured header. *)
Definition ClientIp_from_request (remote : option IpAddr) (header : option string) : IpAddr :=
  let ip := if ip_header_enabled && ip_header_is_trusted remote
            then h ← header; parse_ip (first_entry h) else None in
  match ip with
  | Some ip => ip
  | None => default (V4 0) remote
  end.
End client_ip.

(** ** Retries *)

(** [F : FnMut() -> Result<T, E>] changes the state that it captured. Each
    loop has a bound on its rounds; [None] is a loop that is still running. *)
Section retry.
Context {S T Er : Type} (func : S → (T + Er) * S).

Fixpoint retry_loop (fuel : nat) (max_tries tries : Z) (s : S) : option ((T + Er) * S) :=
  match fuel with
  | O => None
  | Datatypes.S fuel =>
      match func s with
      | (inl t, s) => Some (inl t, s)
      | (inr e, s) =>
          let tries := tries + 1 in
          if max_tries <=? tries then Some (inr e, s) else retry_loop fuel max_tries tries s
      end
  end.
Definition retry (fuel : nat) (max_tries : Z) (s : S) : option ((T + Er) * S) := retry_loop fuel max_tries 0 s.

(** A release build: the counter wraps at 32 bits. *)
Fixpoint retry_db_loop (fuel : nat) (max_tries tries : Z) (s : S) : option ((T + Er) * S) :=
  match fuel with
  | O => None
  | Datatypes.S fuel =>
      match func s with
      | (inl t, s) => Some (inl t, s)
      | (inr e, s) =>
          let tries := (tries + 1) mod 2 ^ 32 in
          if (max_tries <=? tries) && (0 <? max_tries) then Some (inr e, s) else retry_db_loop fuel max_tries tries s
      end
  end.
Definition retry_db (fuel : nat) (max_tries : Z) (s : S) : option ((T + Er) * S) := retry_db_loop fuel max_tries 0 s.
End retry.

(** ** The table of special addresses *)

(** The block of addresses with the first [len] bits of [base]. *)
Definition in_net (bits : Z) (a : Z) (net : Z * Z) : bool :=
  let '(base, len) := net in (base <=? a) && (a <? base + 2 ^ (bits - len)).

(** The IANA special-purpose registries, as far as they are not globally
    reachable. *)
Definition v4_special : list (Z * Z) :=
  [(ipv4 0 0 0 0, 8); (ipv4 10 0 0 0, 8); (ipv4 172 16 0 0, 12); (ipv4 192 168 0 0, 16); (ipv4 100 64 0 0, 10);
   (ipv4 127 0 0 0, 8); (ipv4 169 254 0 0, 16); (ipv4 192 0 0 0, 24); (ipv4 192 0 2 0, 24); (ipv4 198 51 100 0, 24);
   (ipv4 203 0 113 0, 24); (ipv4 198 18 0 0, 15); (ipv4 240 0 0 0, 4)].
Definition v4_reachable : list (Z * Z) := [(ipv4 192 0 0 9, 32); (ipv4 192 0 0 10, 32)].

Definition v6_special : list (Z * Z) :=
  [(0, 128); (1, 128); (2 ^ 32 * 0xffff, 96); (2 ^ 80 * 0x64ff9b0001, 48); (2 ^ 112 * 0x100, 64); (2 ^ 112 * 0x2001, 23);
   (2 ^ 112 * 0x2002, 16); (2 ^ 96 * 0x20010db8, 32); (2 ^ 112 * 0x3fff, 20); (2 ^ 112 * 0x5f00, 16);
   (2 ^ 112 * 0xfc00, 7); (2 ^ 112 * 0xfe80, 10)].
Definition v6_reachable : list (Z * Z) :=
  [(2 ^ 96 * 0x20010001 + 1, 128); (2 ^ 96 * 0x20010001 + 2, 128); (2 ^ 96 * 0x20010003, 32); (2 ^ 80 * 0x200100040112, 48);
   (2 ^ 96 * 0x20010020, 28); (2 ^ 96 * 0x20010030, 28)].

Definition specially_used (ip : IpAddr) : bool :=
  match ip with
  | V4 a => existsb (in_net 32 a) v4_special && negb (existsb (in_net 32 a) v4_reachable)
  | V6 a => existsb (in_net 128 a) v6_special && negb (existsb (in_net 128 a) v6_reachable)
  end.

(** *** Octets and segments as digits *)

Lemma land_shifted x m n : 0 ≤ n → Z.land x (Z.shiftl m n) = Z.shiftl (Z.land (Z.shiftr x n) m) n.
Proof.
  intros Hn. apply Z.bits_inj'. intros i Hi. rewrite Z.land_spec, !Z.shiftl_spec, Z.land_spec by lia.
  destruct (decide (i < n)).
  - by rewrite !(Z.testbit_neg_r _ (i - n)), andb_false_r by lia.
  - rewrite Z.shiftr_spec by lia. do 2 f_equal. lia.
Qed.

(** A test of the upper bits of a [k + n]-bit number. *)
Lemma upper_bits_test x n k v :
  0 ≤ n → 0 ≤ k → 0 ≤ x < 2 ^ (k + n) →
  (Z.land x (Z.shiftl (Z.ones k) n) =? Z.shiftl v n) = (v * 2 ^ n <=? x) && (x <? (v + 1) * 2 ^ n).
Proof.
  intros Hn Hk Hx. pose proof (Z.pow_pos_nonneg 2 n ltac:(lia) Hn) as Hp.
  rewrite land_shifted, Z.land_ones, Z.shiftr_div_pow2, !Z.shiftl_mul_pow2 by lia.
  rewrite Z.mod_small.
  - apply eq_true_iff_eq. rewrite andb_true_iff, Z.eqb_eq, Z.leb_le, Z.ltb_lt.
    pose proof (Z.div_mod x (2 ^ n) ltac:(lia)) as Hdm. pose proof (Z.mod_pos_bound x (2 ^ n) Hp).
    set (p := 2 ^ n) in *. clearbody p. split; [nia|].
    intros [Hl Hu]. f_equal. assert (v < x / p + 1) by nia. assert (x / p < v + 1) by nia. lia.
  - split; [apply Z.div_pos; lia|]. apply Z.div_lt_upper_bound; [lia|]. rewrite <-Z.pow_add_r by lia.
    rewrite (Z.add_comm n k). lia.
Qed.

Lemma octet_digit a i : 0 ≤ i ≤ 3 → octet a i = (a / 2 ^ (24 - 8 * i)) mod 2 ^ 8.
Proof. intros Hi. unfold octet. by rewrite Z.shiftr_div_pow2, (Z.land_ones _ 8) by lia. Qed.
Lemma segment_digit a i : 0 ≤ i ≤ 7 → segment a i = (a / 2 ^ (112 - 16 * i)) mod 2 ^ 16.
Proof. intros Hi. unfold segment. by rewrite Z.shiftr_div_pow2, (Z.land_ones _ 16) by lia. Qed.

Lemma octets_of a :
  0 ≤ a < 2 ^ 32 →
  ∃ o0 o1 o2 o3, (0 ≤ o0 < 256 ∧ 0 ≤ o1 < 256 ∧ 0 ≤ o2 < 256 ∧ 0 ≤ o3 < 256)
  ∧ a = ipv4 o0 o1 o2 o3 ∧ octet a 0 = o0 ∧ octet a 1 = o1 ∧ octet a 2 = o2 ∧ octet a 3 = o3.
Proof.
  intros Ha. rewrite !octet_digit by lia. change (24 - 8 * 0) with 24. change (24 - 8 * 1) with 16.
  change (24 - 8 * 2) with 8. change (24 - 8 * 3) with 0.
  exists (a / 2 ^ 24 mod 2 ^ 8), (a / 2 ^ 16 mod 2 ^ 8), (a / 2 ^ 8 mod 2 ^ 8), (a / 2 ^ 0 mod 2 ^ 8).
  unfold ipv4. split_and!; try reflexivity; Z.to_euclidean_division_equations; lia.
Qed.

Lemma segments_of a :
  0 ≤ a < 2 ^ 128 →
  ∃ s0 s1 s2 r, (0 ≤ s0 < 2 ^ 16 ∧ 0 ≤ s1 < 2 ^ 16 ∧ 0 ≤ s2 < 2 ^ 16 ∧ 0 ≤ r < 2 ^ 80)
  ∧ a = 2 ^ 112 * s0 + 2 ^ 96 * s1 + 2 ^ 80 * s2 + r
  ∧ segment a 0 = s0 ∧ segment a 1 = s1 ∧ segment a 2 = s2
  ∧ (segment a 3 =? 0) = (r <? 2 ^ 64)
  ∧ (segment a 3 =? 0) && ((segment a 4 =? 0) && ((segment a 5 =? 0xffff) && true))
    = (2 ^ 32 * 0xffff <=? r) && (r <? 2 ^ 48).
Proof.
  intros Ha. rewrite !segment_digit by lia.
  change (112 - 16 * 0) with 112. change (112 - 16 * 1) with 96. change (112 - 16 * 2) with 80.
  change (112 - 16 * 3) with 64. change (112 - 16 * 4) with 48. change (112 - 16 * 5) with 32.
  exists (a / 2 ^ 112 mod 2 ^ 16), (a / 2 ^ 96 mod 2 ^ 16), (a / 2 ^ 80 mod 2 ^ 16), (a mod 2 ^ 80).
  split_and!; try reflexivity; try (Z.to_euclidean_division_equations; lia).
Qed.

(** An equation between tests of numbers. *)
Ltac test_eq :=
  apply eq_true_iff_eq;
  rewrite ?andb_true_iff, ?orb_true_iff, ?andb_true_iff, ?negb_true_iff, ?Z.eqb_eq, ?Z.eqb_neq, ?Z.leb_le, ?Z.ltb_lt; lia.

Section v4_table.
Context (a o0 o1 o2 o3 : Z).
Hypothesis H0 : 0 ≤ o0 < 256.
Hypothesis H1 : 0 ≤ o1 < 256.
Hypothesis H2 : 0 ≤ o2 < 256.
Hypothesis H3 : 0 ≤ o3 < 256.
Hypothesis Ha : a = ipv4 o0 o1 o2 o3.

Lemma net_8 n : in_net 32 a (ipv4 n 0 0 0, 8) = (o0 =? n).
Proof. subst a. unfold in_net, ipv4. test_eq. Qed.
Lemma net_16 n m : 0 ≤ m < 256 → in_net 32 a (ipv4 n m 0 0, 16) = (o0 =? n) && (o1 =? m).
Proof. intros. subst a. unfold in_net, ipv4. test_eq. Qed.
Lemma net_24 n m k :
  0 ≤ m < 256 → 0 ≤ k < 256 → in_net 32 a (ipv4 n m k 0, 24) = (o0 =? n) && (o1 =? m) && (o2 =? k).
Proof. intros. subst a. unfold in_net, ipv4. test_eq. Qed.
Lemma net_within n lo len :
  8 ≤ len ≤ 16 → 0 ≤ lo → lo + 2 ^ (16 - len) ≤ 256 →
  in_net 32 a (ipv4 n lo 0 0, len) = (o0 =? n) && (lo <=? o1) && (o1 <? lo + 2 ^ (16 - len)).
Proof.
  intros Hl Hlo Hhi. subst a. unfold in_net, ipv4.
  replace (32 - len) with (16 + (16 - len)) by lia. rewrite Z.pow_add_r by lia.
  pose proof (Z.pow_pos_nonneg 2 (16 - len) ltac:(lia) ltac:(lia)). test_eq.
Qed.
End v4_table.

Lemma v4_global_table a : 0 ≤ a < 2 ^ 32 → is_global (V4 a) = negb (specially_used (V4 a)).
Proof.
  intros Ha. destruct (octets_of a Ha) as (o0 & o1 & o2 & o3 & (H0 & H1 & H2 & H3) & Hdef & E0 & E1 & E2 & E3).
  destruct (decide (o0 = 192 ∧ o1 = 0 ∧ o2 = 0 ∧ (o3 = 9 ∨ o3 = 10))) as [(-> & -> & -> & Ho3)|Hno].
  { subst a. by destruct Ho3 as [->| ->]. }
  unfold is_global, v4_is_private, v4_is_loopback, v4_is_link_local, v4_is_documentation, v4_is_broadcast.
  rewrite E0, E1, E2, E3. f_equal.
  assert ((Z.land o1 0xc0 =? 0x40) = (64 <=? o1) && (o1 <? 128)) as -> by (apply (upper_bits_test o1 6 2 1); lia).
  assert ((Z.land o1 0xfe =? 18) = (18 <=? o1) && (o1 <? 20)) as -> by (apply (upper_bits_test o1 1 7 9); lia).
  assert ((Z.land o0 240 =? 240) = (240 <=? o0) && (o0 <? 256)) as -> by (apply (upper_bits_test o0 4 4 15); lia).
  unfold specially_used. assert (existsb (in_net 32 a) v4_reachable = false) as ->.
  { apply not_true_iff_false. simpl. rewrite !orb_true_iff. unfold in_net, ipv4 in *.
    rewrite !andb_true_iff, !Z.leb_le, !Z.ltb_lt. lia. }
  unfold v4_special. cbn [existsb].
  assert (in_net 32 a (ipv4 240 0 0 0, 4) = (240 <=? o0) && (o0 <? 256)) as -> by (subst a; unfold in_net, ipv4; test_eq).
  rewrite !(net_8 a o0 o1 o2 o3), !(net_16 a o0 o1 o2 o3), !(net_24 a o0 o1 o2 o3), !(net_within a o0 o1 o2 o3) by (done || lia).
  change (16 + 2 ^ (16 - 12)) with 32. change (64 + 2 ^ (16 - 10)) with 128. change (18 + 2 ^ (16 - 15)) with 20.
  assert ((o1 <=? 31) = (o1 <? 32)) as -> by test_eq.
  assert ((o0 =? 192) && (o1 =? 0) && (o2 =? 0) && negb (o3 =? 9) && negb (o3 =? 10)
          = (o0 =? 192) && (o1 =? 0) && (o2 =? 0)) as -> by test_eq.
  assert (a =? 2 ^ 32 - 1 = true → (240 <=? o0) && (o0 <? 256) = true) as Hbc.
  { unfold ipv4 in *. rewrite andb_true_iff, Z.eqb_eq, Z.leb_le, Z.ltb_lt. lia. }
  destruct (a =? 2 ^ 32 - 1); [rewrite Hbc by done|];
    by rewrite ?negb_false, ?andb_true_r, !andb_assoc, !orb_assoc, ?orb_true_r, ?orb_false_r, ?andb_true_r.
Qed.

(** A conjunction of tests that start an address is a test of its block. *)
Ltac block := unfold in_net; subst; test_eq.

Lemma v6_exceptions a :
  existsb (in_net 128 a) v6_reachable = true →
  existsb (in_net 128 a) (take 5 v6_special ++ drop 6 v6_special) = false.
Proof.
  intros Hr. apply existsb_exists in Hr as (net & Hnet & Hin). apply not_true_iff_false. intros Hs.
  apply existsb_exists in Hs as (net' & Hnet' & Hin'). revert Hin Hin'.
  assert (2 ^ 112 * 0x2001 ≤ net.1 ∧ net.1 + 2 ^ (128 - net.2) ≤ 2 ^ 96 * 0x20010200) as Hb.
  { simpl in Hnet. destruct_or!; subst; simpl; lia. }
  assert (net'.1 + 2 ^ (128 - net'.2) ≤ 2 ^ 112 * 0x2001 ∨ 2 ^ 96 * 0x20010200 ≤ net'.1) as Hb'.
  { simpl in Hnet'. destruct_or!; subst; simpl; lia. }
  destruct net, net'. unfold in_net. simpl in *. rewrite !andb_true_iff, !Z.leb_le, !Z.ltb_lt. lia.
Qed.

Lemma v6_global_table a : 0 ≤ a < 2 ^ 128 → is_global (V6 a) = negb (specially_used (V6 a)).
Proof.
  intros Ha. destruct (segments_of a Ha) as (s0 & s1 & s2 & r & (H0 & H1 & H2 & H3) & Hdef & E0 & E1 & E2 & E3 & E4).
  unfold is_global, v6_is_unspecified, v6_is_loopback, v6_is_unique_local, v6_is_unicast_link_local, segments_prefix.
  cbn [segments_from]. change (0 + 1) with 1. change (1 + 1) with 2. change (2 + 1) with 3. change (3 + 1) with 4.
  change (4 + 1) with 5. rewrite E4, E3, E0, E1, E2. f_equal.
  assert ((Z.land s0 0xfe00 =? 0xfc00) = (0xfc00 <=? s0) && (s0 <? 0xfe00)) as -> by (apply (upper_bits_test s0 9 7 0x7e); lia).
  assert ((Z.land s0 0xffc0 =? 0xfe80) = (0xfe80 <=? s0) && (s0 <? 0xfec0)) as -> by (apply (upper_bits_test s0 6 10 0x3fa); lia).
  assert (existsb (in_net 128 a) v6_reachable =
    (a =? 0x20010001000000000000000000000001) || (a =? 0x20010001000000000000000000000002)
    || ((s0 =? 0x2001) && ((s1 =? 3) && true)) || ((s0 =? 0x2001) && ((s1 =? 4) && ((s2 =? 0x112) && true)))
    || ((s0 =? 0x2001) && true && (0x20 <=? s1) && (s1 <=? 0x3f))) as <-.
  { unfold v6_reachable. cbn [existsb].
    assert ((s0 =? 0x2001) && true && (0x20 <=? s1) && (s1 <=? 0x3f)
      = in_net 128 a (2 ^ 96 * 0x20010020, 28) || in_net 128 a (2 ^ 96 * 0x20010030, 28)) as -> by (rewrite andb_true_r; block).
    rewrite !orb_assoc, orb_false_r, !andb_true_r. do 2 f_equal. f_equal; [f_equal; [f_equal|]|]; block. }
  unfold specially_used, v6_special. cbn [existsb].
  assert ((a =? 0) = in_net 128 a (0, 128)) as -> by block.
  assert ((a =? 1) = in_net 128 a (1, 128)) as -> by block.
  assert ((s0 =? 0) && ((s1 =? 0) && ((s2 =? 0) && ((2 ^ 32 * 0xffff <=? r) && (r <? 2 ^ 48))))
          = in_net 128 a (2 ^ 32 * 0xffff, 96)) as -> by block.
  assert ((s0 =? 0x64) && ((s1 =? 0xff9b) && ((s2 =? 1) && true)) = in_net 128 a (2 ^ 80 * 0x64ff9b0001, 48)) as ->
    by (rewrite andb_true_r; block).
  assert ((s0 =? 0x100) && ((s1 =? 0) && ((s2 =? 0) && ((r <? 2 ^ 64) && true))) = in_net 128 a (2 ^ 112 * 0x100, 64)) as ->
    by (rewrite andb_true_r; block).
  assert ((s0 =? 0x2001) && true && (s1 <? 0x200) = in_net 128 a (2 ^ 112 * 0x2001, 23)) as -> by (rewrite andb_true_r; block).
  assert ((s0 =? 0x2002) && true = in_net 128 a (2 ^ 112 * 0x2002, 16)) as -> by (rewrite andb_true_r; block).
  assert ((s0 =? 0x2001) && ((s1 =? 0xdb8) && true) = in_net 128 a (2 ^ 96 * 0x20010db8, 32)) as -> by (rewrite andb_true_r; block).
  assert ((s0 =? 0x3fff) && true && (s1 <=? 0xfff) = in_net 128 a (2 ^ 112 * 0x3fff, 20)) as -> by (rewrite andb_true_r; block).
  assert ((s0 =? 0x5f00) && true = in_net 128 a (2 ^ 112 * 0x5f00, 16)) as -> by (rewrite andb_true_r; block).
  assert ((0xfc00 <=? s0) && (s0 <? 0xfe00) = in_net 128 a (2 ^ 112 * 0xfc00, 7)) as -> by block.
  assert ((0xfe80 <=? s0) && (s0 <? 0xfec0) = in_net 128 a (2 ^ 112 * 0xfe80, 10)) as -> by block.
  pose proof (v6_exceptions a) as Hexc. unfold v6_special in Hexc. cbn [take drop app existsb] in Hexc.
  destruct (existsb (in_net 128 a) v6_reachable); rewrite ?andb_true_r, ?andb_false_r, ?orb_assoc, ?orb_false_r in *; [|done].
  by apply Hexc.
Qed.

(** C29. The conditions on octets and segments that decide whether an address
    is global are exactly the table of special address blocks: an address is
    global if and only if it is in none of the blocks, or in one of the parts
    of them that are documented as globally reachable. *)
Theorem global_iff_not_special (ip : IpAddr) (Hvalid : ip_valid ip) : is_global ip = negb (specially_used ip).
Proof. destruct ip; [by apply v4_global_table|by apply v6_global_table]. Qed.

Lemma global_iff_not_special_witness :
  is_global (V4 (ipv4 169 254 169 254)) = false ∧ is_global (V6 (2 ^ 32 * 0xffff + ipv4 8 8 8 8)) = false
  ∧ is_global (V4 (ipv4 8 8 8 8)) = true.
Proof.
  split_and!.
  - rewrite (global_iff_not_special (V4 _)); [reflexivity|]. unfold ip_valid, ipv4. lia.
  - rewrite (global_iff_not_special (V6 _)); [reflexivity|]. unfold ip_valid, ipv4. lia.
  - rewrite (global_iff_not_special (V4 _)); [reflexivity|]. unfold ip_valid, ipv4. lia.
Defined.

(** ** Filtered requests *)

Section http_facts.
Context `{HttpConfig} `{NetCrates}.

(** What the configuration allows a request to reach. *)
Definition allowed (h : Host) : Prop :=
  (∀ ip, host_ip h = Some ip → http_request_block_non_global_ips = true → is_global ip = true)
  ∧ ∀ p r, http_request_block_regex = Some p → Regex_new p = Some r → Regex_is_match r (host_str h) = false.
Definition host_of (ip : IpAddr) : Host := match ip with V4 a => HostIpv4 a | V6 a => HostIpv6 a end.

(** The cache holds the compiled form of the expression it is stored with. *)
Definition cache_ok (guard : RegexCache) : Prop := ∀ p r, guard = Some (p, r) → Regex_new p = Some r.

Lemma regex_cached s g :
  cache_ok g →
  fst <$> should_block_address_regex s g = fst <$> should_block_address_regex s None
  ∧ ∀ b g', should_block_address_regex s g = Some (b, g') → cache_ok g'.
Proof.
  intros Hg. unfold should_block_address_regex. destruct http_request_block_regex as [p|]; [|by naive_solver].
  destruct g as [[v r]|].
  - case_bool_decide as Hv.
    + subst v. rewrite (Hg p r eq_refl). naive_solver.
    + destruct (Regex_new p) eqn:Hp; split; try done. intros b g' [= _ <-] ? ? [= <- <-]. done.
  - destruct (Regex_new p) eqn:Hp; split; try done. intros b g' [= _ <-] ? ? [= <- <-]. done.
Qed.
Lemma regex_passes s g g' :
  cache_ok g → should_block_address_regex s g = Some (false, g') →
  cache_ok g' ∧ ∀ p r, http_request_block_regex = Some p → Regex_new p = Some r → Regex_is_match r s = false.
Proof.
  intros Hg Hs. destruct (regex_cached s g Hg) as [Heq Hok]. split; [by eapply Hok|].
  intros p r Hp Hr. rewrite Hs in Heq. unfold should_block_address_regex in Heq. rewrite Hp, Hr in Heq. by simplify_eq/=.
Qed.

Lemma host_passes h g g' : cache_ok g → should_block_host h g = Some (inl (), g') → cache_ok g' ∧ allowed h.
Proof.
  intros Hg. unfold should_block_host, allowed, should_block_ip.
  destruct (host_ip h) as [ip|]; [destruct http_request_block_non_global_ips; simpl; [destruct (is_global ip) eqn:Hglob; simpl; [|done]|]|];
    intros Hs; destruct (should_block_address_regex _ g) as [[[] g2]|] eqn:Hr; simplify_eq/=;
    destruct (regex_passes _ _ _ Hg Hr); naive_solver.
Qed.
Lemma host_cache h g r g' : cache_ok g → should_block_host h g = Some (r, g') → cache_ok g'.
Proof.
  intros Hg. unfold should_block_host. pose proof (regex_cached (host_str h) g Hg) as [_ Hok].
  destruct (host_ip h) as [ip|]; [destruct (should_block_ip ip); [by intros; simplify_eq|]|];
    destruct (should_block_address_regex _ g) as [[b g2]|]; intros; simplify_eq/=; eauto.
Qed.

Lemma post_resolve_all_passes name l g g' :
  cache_ok g → post_resolve_all name l g = Some (inl (), g') → ∀ ip, ip ∈ l → allowed (host_of ip).
Proof.
  revert g. induction l as [|ip l IH]; intros g Hg Hs ip' Hip; [set_solver|]. simpl in Hs. unfold post_resolve in Hs.
  change (match ip with V4 ip => HostIpv4 ip | V6 ip => HostIpv6 ip end) with (host_of ip) in Hs.
  destruct (should_block_host (host_of ip) g) as [[[[]|e] g2]|] eqn:Hb; simplify_eq/=.
  destruct (host_passes _ _ _ Hg Hb) as [Hg2 Hallow]. apply elem_of_cons in Hip as [->|Hip]; [done|by eapply IH].
Qed.

(** C28. A request of [make_http_request] only goes where the configuration
    allows: the host of the URL, every host that a redirect is followed to (at
    most five times), and every address that a client built with
    [enforce_block] resolves a name to is global when non-global addresses are
    blocked, and its text does not match the blocking expression. This holds
    whatever the cached expression was compiled from, as long as the cache
    pairs an expression with its compiled form. It is a promise of clients
    built with [enforce_block] alone: a client built without it, as those of
    the single sign-on and of Yubico are, is given every address that the name
    has, whatever the configuration blocks. *)
Theorem outgoing_requests_are_filtered (g g' : RegexCache) (Hcache : cache_ok g) :
  (∀ url h, make_http_request url g = Some (inl h, g') → cache_ok g' ∧ allowed h)
  ∧ (∀ previous host, redirect_policy previous host g = Some (inl (), g') →
       cache_ok g' ∧ (previous < 5)%nat ∧ ∃ h, host = Some h ∧ allowed h)
  ∧ (∀ name l, resolve_domain name true g = Some (inl l, g') → ∀ ip, ip ∈ l → allowed (host_of ip))
  ∧ ∀ name h l, get_valid_host name = inl h → lookup_ip name = Some l → resolve_domain name false g = Some (inl l, g).
Proof.
  split_and!.
  - intros url h. unfold make_http_request. destruct (Url_parse_host url) as [[h'|]|]; [|by intros; simplify_eq..].
    destruct (should_block_host h' g) as [[[[]|e] g2]|] eqn:Hb; intros; simplify_eq/=. by eapply host_passes.
  - intros previous host. unfold redirect_policy. case_bool_decide; [done|]. destruct host as [h|]; [|done].
    intros Hb. destruct (host_passes _ _ _ Hcache Hb). split_and!; [done|lia|eauto].
  - intros name l. unfold resolve_domain, pre_resolve. destruct (get_valid_host name) as [h|]; [|by intros; simplify_eq/=].
    destruct (should_block_host h g) as [[r g2]|] eqn:Hb; [|done]. simpl. pose proof (host_cache _ _ _ _ Hcache Hb) as Hg2.
    destruct r as [[]|]; simpl; [|done]. destruct (lookup_ip name) as [results|]; [|done].
    destruct (post_resolve_all name results g2) as [[[[]|] g3]|] eqn:Hp; intros; simplify_eq/=.
    by eapply post_resolve_all_passes.
  - intros name h l Hh Hl. unfold resolve_domain, pre_resolve. rewrite Hh. simpl. by rewrite Hl.
Qed.

(** The compiled blocking expression that is kept between requests never
    changes an answer: with any cache that earlier calls left, under whatever
    configuration, the answer is that of compiling the current expression
    anew, and the cache that is left is again of that kind. *)
Theorem regex_cache_is_transparent (s : string) (g : RegexCache) (Hcache : cache_ok g) :
  fst <$> should_block_address_regex s g = fst <$> should_block_address_regex s None
  ∧ ∀ b g', should_block_address_regex s g = Some (b, g') → cache_ok g'.
Proof. by apply regex_cached. Qed.
End http_facts.

(** *** A sample network

    Names stand for themselves; an expression matches the text equal to it. *)
Module SampleNet.
#[export] Instance config : HttpConfig :=
  {| http_request_block_non_global_ips := true; http_request_block_regex := Some "evil.example" |}.
Definition host (s : string) : option Host :=
  Some match parse_ip s with Some (V4 a) => HostIpv4 a | Some (V6 a) => HostIpv6 a | None => HostDomain s end.
#[export] Instance crates : NetCrates :=
  {| Host_parse := host; Url_parse_host := λ s, Some (host s); Regex := string; Regex_new := Some;
     Regex_is_match := λ r s, r == s;
     lookup_ip := λ s, Some (if s == "rebind.example" then [V4 (ipv4 93 184 216 34); V4 (ipv4 127 0 0 1)]
                             else [V4 (ipv4 93 184 216 34)]) |}.
End SampleNet.

Example rebinding_is_refused :
  fst <$> resolve_domain (H := SampleNet.config) (H0 := SampleNet.crates) "rebind.example" true None
  = Some (inr (NonGlobalIp (Some "rebind.example") (V4 (ipv4 127 0 0 1)))).
Proof. vm_compute. reflexivity. Qed.

Lemma outgoing_requests_are_filtered_witness :
  resolve_domain (H := SampleNet.config) (H0 := SampleNet.crates) "good.example" true None
    = Some (inl [V4 (ipv4 93 184 216 34)], Some ("evil.example", "evil.example"%string))
  ∧ allowed (H := SampleNet.config) (H0 := SampleNet.crates) (host_of (V4 (ipv4 93 184 216 34)))
  ∧ resolve_domain (H := SampleNet.config) (H0 := SampleNet.crates) "rebind.example" false None
    = Some (inl [V4 (ipv4 93 184 216 34); V4 (ipv4 127 0 0 1)], None).
Proof.
  set (g := Some ("evil.example", "evil.example"%string)).
  assert (resolve_domain (H := SampleNet.config) (H0 := SampleNet.crates) "good.example" true None
    = Some (inl [V4 (ipv4 93 184 216 34)], g)) as Hres by (vm_compute; reflexivity).
  split; [exact Hres|].
  destruct (outgoing_requests_are_filtered (H := SampleNet.config) (H0 := SampleNet.crates) None g) as (_ & _ & Hr & Hopen).
  { intros p r Hp. discriminate Hp. }
  split; [apply (Hr _ _ Hres); left|]. by apply (Hopen "rebind.example" (HostDomain "rebind.example")).
Defined.

Lemma regex_cache_is_transparent_witness :
  fst <$> should_block_address_regex (H := SampleNet.config) (H0 := SampleNet.crates) "evil.example"
            (Some ("old.example", "old.example"%string)) = Some true.
Proof.
  rewrite (proj1 (regex_cache_is_transparent (H := SampleNet.config) (H0 := SampleNet.crates) "evil.example"
                    (Some ("old.example", "old.example"%string)) ltac:(intros p r Hp; inversion Hp; reflexivity))).
  vm_compute. reflexivity.
Defined.

(** ** The address of the client *)

Section client_ip_facts.
Context `{ProxyConfig} `{IpNets}.

(** Who may name the address of the client: with [all] everyone, with [local]
    a peer with a special address, otherwise a peer in a listed network. *)
Definition trusted_peer (remote : option IpAddr) : Prop :=
  let setting := trim ip_header_trusted_proxies in
  to_lowercase setting = "all"%string
  ∨ ∃ r, remote = Some r ∧
      (to_lowercase setting = "local"%string ∧ is_global (to_canonical r) = false
       ∨ ∃ entry net, entry ∈ split_commas setting ∧ parse_trusted_proxy entry = Some net
                      ∧ ipnet_contains net (to_canonical r) = true).

Lemma trusted_spec remote : ip_header_is_trusted remote = true → trusted_peer remote.
Proof.
  unfold ip_header_is_trusted, trusted_peer. case_bool_decide; [by left|]. destruct remote as [r|]; [|done]. intros Hs.
  right. exists r. split; [done|]. case_bool_decide.
  - left. by apply negb_true_iff in Hs.
  - right. apply existsb_exists in Hs as (net & Hnet & Hc). apply list_elem_of_In, list_elem_of_omap in Hnet as (entry & He & Hp). eauto.
Qed.

Lemma to_canonical_mapped a : 0 ≤ a < 2 ^ 32 → to_canonical (V6 (2 ^ 32 * 0xffff + a)) = V4 a.
Proof.
  intros Ha. unfold to_canonical, segments_prefix. cbn [segments_from].
  rewrite !segment_digit by lia. rewrite (Z.land_ones _ 32) by lia.
  assert ((2 ^ 32 * 0xffff + a) mod 2 ^ 32 = a) as -> by (Z.to_euclidean_division_equations; lia).
  destruct (_ && _) eqn:Hb; [done|]. exfalso. revert Hb. apply eq_true_false_abs.
  rewrite !andb_true_iff, !Z.eqb_eq. change (112 - 16 * 0) with 112. change (112 - 16 * (0 + 1)) with 96.
  change (112 - 16 * (0 + 1 + 1)) with 80. change (112 - 16 * (0 + 1 + 1 + 1)) with 64.
  change (112 - 16 * (0 + 1 + 1 + 1 + 1)) with 48. change (112 - 16 * (0 + 1 + 1 + 1 + 1 + 1)) with 32.
  split_and!; try done; Z.to_euclidean_division_equations; lia.
Qed.

(** A client cannot choose the address that is recorded for it: unless it
    is the address of the connection, it is the first entry of the configured
    header, the header is enabled, and the peer is one that the configuration
    trusts. A peer that is reported as an IPv4-mapped IPv6 address is trusted
    exactly when its IPv4 address is. *)
Theorem client_cannot_choose_address (remote : option IpAddr) (header : option string) :
  (ClientIp_from_request remote header = default (V4 0) remote
   ∨ ip_header_enabled = true ∧ trusted_peer remote
     ∧ ∃ h, header = Some h ∧ parse_ip (first_entry h) = Some (ClientIp_from_request remote header))
  ∧ ∀ a, 0 ≤ a < 2 ^ 32 →
      ip_header_is_trusted (Some (V6 (2 ^ 32 * 0xffff + a))) = ip_header_is_trusted (Some (V4 a)).
Proof.
  split.
  - unfold ClientIp_from_request. destruct (_ && _) eqn:Hb; [|by left].
    apply andb_true_iff in Hb as [He Ht%trusted_spec]. destruct header as [h|]; [|by left]. simpl.
    destruct (parse_ip (first_entry h)) as [ip|] eqn:Hp; [|by left]. right. eauto.
  - intros a Ha. unfold ip_header_is_trusted. by rewrite to_canonical_mapped.
Qed.
End client_ip_facts.

(** ** Retries *)

Section retry_facts.
Context {S T Er : Type} (func : S → (T + Er) * S).

(** The answer of call [n] (from 0) when the ones before it are ignored, and
    that they all failed. *)
Fixpoint nth_call (n : nat) (s : S) : (T + Er) * S :=
  match n with O => func s | Datatypes.S n => nth_call n (func s).2 end.
Definition fails (n : nat) (s : S) : Prop := ∃ e, (nth_call n s).1 = inr e.

Lemma retry_loop_returns n max_tries tries s :
  0 ≤ tries → Z.max 1 (max_tries - tries) = Z.of_nat (Datatypes.S n) →
  ∃ k, (k ≤ n)%nat ∧ retry_loop func (Datatypes.S n) max_tries tries s = Some (nth_call k s)
  ∧ (∀ j, (j < k)%nat → fails j s) ∧ (k = n ∨ ¬ fails k s).
Proof.
  revert tries s. induction n as [|n IH]; intros tries s Ht Hn; unfold fails; simpl; destruct (func s) as [[t|e] s'] eqn:Hf.
  - exists 0%nat. simpl. rewrite Hf. split_and!; [lia|done|lia|by left].
  - exists 0%nat. simpl. rewrite Hf. rewrite (proj2 (Z.leb_le _ _)) by lia. split_and!; [lia|done|lia|by left].
  - exists 0%nat. simpl. rewrite Hf. split_and!; [lia|done|lia|right]. intros [? [=]].
  - rewrite (proj2 (Z.leb_gt _ _)) by lia. destruct (IH (tries + 1) s') as (k & Hk & Hr & Hfail & Hend); [lia..|].
    exists (Datatypes.S k). simpl. rewrite Hf. simpl. split_and!; [lia|exact Hr| |].
    + intros j Hj. destruct j as [|j]; simpl; rewrite Hf; [by eexists|]. apply Hfail. lia.
    + destruct Hend; [left; lia|by right].
Qed.

Lemma retry_db_is_retry fuel max_tries tries s :
  0 < max_tries < 2 ^ 32 → 0 ≤ tries < max_tries →
  retry_db_loop func fuel max_tries tries s = retry_loop func fuel max_tries tries s.
Proof.
  intros Hm. revert tries s. induction fuel as [|fuel IH]; intros tries s Ht; [done|]. simpl.
  destruct (func s) as [[t|e] s']; [done|]. rewrite Z.mod_small, (proj2 (Z.ltb_lt 0 max_tries)), andb_true_r by lia.
  destruct (Z.leb_spec max_tries (tries + 1)); [done|]. apply IH. lia.
Qed.

Lemma retry_db_forever fuel tries s : (∀ n, fails n s) → retry_db_loop func fuel 0 tries s = None.
Proof.
  revert tries s. induction fuel as [|fuel IH]; intros tries s Hf; [done|]. simpl.
  destruct (func s) as [[t|e] s'] eqn:He.
  - destruct (Hf 0%nat) as [e Hx]. unfold nth_call in Hx. by rewrite He in Hx.
  - rewrite andb_false_r. apply IH. intros n. specialize (Hf (Datatypes.S n)). unfold fails in *. simpl in Hf. by rewrite He in Hf.
Qed.
End retry_facts.

(** C30. The retry loops return: with a limit of [n] tries (a limit of zero
    counts as one for [retry]) the function is called at most [n] times, the
    result is that of the first call that succeeds, and that of call [n] if
    none does. Only [retry_db] with a limit of zero goes on for as long as the
    calls fail. *)
Theorem retry_terminates {S T Er : Type} (func : S → (T + Er) * S) (max_tries : Z) (s : S) :
  0 ≤ max_tries < 2 ^ 32 →
  let n := Z.to_nat (Z.max 1 max_tries) in
  (∃ k, (k < n)%nat ∧ retry func n max_tries s = Some (nth_call func k s)
     ∧ (max_tries ≠ 0 → retry_db func n max_tries s = Some (nth_call func k s))
     ∧ (∀ j, (j < k)%nat → fails func j s) ∧ (k = n - 1 ∨ ¬ fails func k s)%nat)
  ∧ ((∀ k, fails func k s) → ∀ fuel, retry_db func fuel 0 s = None).
Proof.
  intros Hm n. split.
  - destruct (retry_loop_returns func (n - 1) max_tries 0 s) as (k & Hk & Hr & Hf & He); [lia..|].
    replace (Datatypes.S (n - 1)) with n in Hr by lia. exists k. split_and!; [lia|exact Hr| |done|done].
    intros Hne. unfold retry_db. rewrite retry_db_is_retry by lia. exact Hr.
  - intros Hf fuel. by apply retry_db_forever.
Qed.

(** A connection that comes up at the third try. *)
Lemma retry_terminates_witness :
  let func (n : nat) := (if bool_decide (n = 2)%nat then inl n else inr "refused"%string, Datatypes.S n) in
  retry func 15 15 0%nat = Some (inl 2%nat, 3%nat) ∧ ∃ k, retry func 2 2 0%nat = Some (nth_call func k 0%nat).
Proof.
  intros func. split; [reflexivity|].
  destruct (proj1 (retry_terminates func 2 0%nat ltac:(lia))) as (k & _ & Hr & _). exists k. exact Hr.
Defined.

(** ** Addresses read back *)

(** The text does not go on with a digit. *)
Definition ends_number (r : string) : Prop :=
  match r with String c _ => to_digit 10 c = None | EmptyString => True end.

Lemma take_digits_app s r l :
  take_digits 10 s = (l, ""%string) → ends_number r → take_digits 10 (s +:+ r) = (l, r).
Proof.
  revert l. induction s as [|c s IH]; simpl; intros l Hs Hr.
  - simplify_eq. destruct r as [|c r]; simpl in *; [done|]. by rewrite Hr.
  - destruct (to_digit 10 c); [|done]. destruct (take_digits 10 s) as [l' r'] eqn:Ht. simplify_eq. by rewrite (IH l').
Qed.
Lemma read_number_app s n r :
  read_number 10 3 255 false s = Some (n, ""%string) → ends_number r → read_number 10 3 255 false (s +:+ r) = Some (n, r).
Proof.
  unfold read_number. destruct (take_digits 10 s) as [l r'] eqn:Ht. destruct (_ || _) eqn:Hb; [done|].
  intros [= <- ->] Hr. by rewrite (take_digits_app _ _ _ Ht Hr), Hb.
Qed.

Lemma octet_read n : 0 ≤ n < 256 → read_number 10 3 255 false (pretty n) = Some (n, ""%string).
Proof.
  intros Hn. assert (Forall (λ n, read_number 10 3 255 false (pretty n) = Some (n, ""%string)) (seqZ 0 256)) as Hall.
  { apply (bool_decide_unpack _). vm_compute. done. }
  rewrite Forall_forall in Hall. apply Hall, elem_of_seqZ. lia.
Qed.

(** Printing an IPv4 address and reading it back gives the address. *)
Theorem ipv4_text_roundtrip (a : Z) (Ha : 0 ≤ a < 2 ^ 32) : parse_ip (v4_to_string a) = Some (V4 a).
Proof.
  destruct (octets_of a Ha) as (o0 & o1 & o2 & o3 & (H0 & H1 & H2 & H3) & Hdef & E0 & E1 & E2 & E3).
  unfold parse_ip, v4_to_string, read_ipv4_addr. rewrite E0, E1, E2, E3.
  assert (∀ s, (""%string +:+ s) = s) as Hnil by done.
  rewrite (read_number_app _ _ _ (octet_read _ H0)) by done. simpl. rewrite Hnil.
  rewrite (read_number_app _ _ _ (octet_read _ H1)) by done. simpl. rewrite Hnil.
  rewrite (read_number_app _ _ _ (octet_read _ H2)) by done. simpl. rewrite Hnil.
  rewrite (octet_read _ H3). simpl. by subst a.
Qed.
Lemma ipv4_text_roundtrip_witness : parse_ip (v4_to_string (ipv4 192 168 0 10)) = Some (V4 3232235530).
Proof. apply (ipv4_text_roundtrip (ipv4 192 168 0 10)). unfold ipv4. lia. Defined.
