(* ===== verification/Invariants.v ===== *)
(** Invariants of the stored data, with boolean checkers.

    The API only writes rows that satisfy these; the theorems about queries
    assume them. Each has a checker that can be run on a concrete database. *)
From S2P Require Import Prelude Schema Roles Users.
Local Open Scope Z_scope.

(** Every stored role is one of the four of [MembershipType]. *)
Definition roles_valid (d : DB) : Prop :=
  ∀ m, m ∈ rows (users_organizations d) → 0 ≤ Membership.atype m ≤ 3.

(** Sharing stays inside one organization, and the rows that a share refers to
    exist. *)
Record org_consistent (d : DB) : Prop := {
  oc_cipher : ∀ cc c col,
    cc ∈ rows (ciphers_collections d) → c ∈ rows (ciphers d) → col ∈ rows (collections d) →
    CollectionCipher.cipher_uuid cc = Cipher.uuid c →
    CollectionCipher.collection_uuid cc = Collection.uuid col →
    Cipher.organization_uuid c = Some (Collection.org_uuid col);
  oc_collection : ∀ cc, cc ∈ rows (ciphers_collections d) →
    ∃ col, col ∈ rows (collections d) ∧ Collection.uuid col = CollectionCipher.collection_uuid cc;
  oc_group : ∀ cg g col,
    cg ∈ rows (collections_groups d) → g ∈ rows (groups d) → col ∈ rows (collections d) →
    CollectionGroup.groups_uuid cg = Group.uuid g →
    CollectionGroup.collections_uuid cg = Collection.uuid col →
    Group.organizations_uuid g = Collection.org_uuid col;
}.

(** A grant on a collection is only held by a member of its organization. *)
Definition grants_have_members (d : DB) : Prop :=
  ∀ cu, cu ∈ rows (users_collections d) →
  ∃ col m, col ∈ rows (collections d) ∧ Collection.uuid col = CollectionUser.collection_uuid cu
    ∧ m ∈ rows (users_organizations d) ∧ Membership.user_uuid m = CollectionUser.user_uuid cu
    ∧ Membership.org_uuid m = Collection.org_uuid col.

(** ** Checkers *)

Definition all_rows {K A} `{Countable K} (t : gmap K A) (p : A → bool) : bool := forallb p (rows t).
Definition any_row {K A} `{Countable K} (t : gmap K A) (p : A → bool) : bool := existsb p (rows t).
Definition keyed_b {K A} `{Countable K} (key : A → K) (t : gmap K A) : bool :=
  forallb (λ kr, key kr.2 == kr.1) (map_to_list t).

Definition wf_b (d : DB) : bool :=
  keyed_b User.uuid (users d)
  && keyed_b (λ r, (Device.uuid r, Device.user_uuid r)) (devices d)
  && keyed_b Organization.uuid (organizations d)
  && keyed_b Membership.uuid (users_organizations d)
  && keyed_b Cipher.uuid (ciphers d)
  && keyed_b Folder.uuid (folders d)
  && keyed_b Collection.uuid (collections d)
  && keyed_b (λ r, (CollectionUser.user_uuid r, CollectionUser.collection_uuid r)) (users_collections d)
  && keyed_b (λ r, (CollectionCipher.cipher_uuid r, CollectionCipher.collection_uuid r)) (ciphers_collections d)
  && keyed_b Group.uuid (groups d)
  && keyed_b OrgPolicy.uuid (org_policies d)
  && keyed_b TwoFactor.uuid (twofactor d)
  && keyed_b Send.uuid (sends d)
  && keyed_b EmergencyAccess.uuid (emergency_access d)
  && keyed_b AuthRequest.uuid (auth_requests d)
  && all_rows (users_organizations d) (λ m, all_rows (users_organizations d) (λ m',
       negb ((Membership.user_uuid m == Membership.user_uuid m')
             && (Membership.org_uuid m == Membership.org_uuid m')) || (m == m')))
  && all_rows (org_policies d) (λ p, all_rows (org_policies d) (λ p',
       negb ((OrgPolicy.org_uuid p == OrgPolicy.org_uuid p')
             && (OrgPolicy.atype p == OrgPolicy.atype p')) || (p == p'))).

Definition roles_valid_b (d : DB) : bool :=
  all_rows (users_organizations d) (λ m, (0 <=? Membership.atype m) && (Membership.atype m <=? 3)).

Definition org_consistent_b (d : DB) : bool :=
  all_rows (ciphers_collections d) (λ cc, all_rows (ciphers d) (λ c, all_rows (collections d) (λ col,
    negb ((CollectionCipher.cipher_uuid cc == Cipher.uuid c)
          && (CollectionCipher.collection_uuid cc == Collection.uuid col))
    || (Cipher.organization_uuid c == Some (Collection.org_uuid col)))))
  && all_rows (ciphers_collections d) (λ cc, any_row (collections d) (λ col,
       Collection.uuid col == CollectionCipher.collection_uuid cc))
  && all_rows (collections_groups d) (λ cg, all_rows (groups d) (λ g, all_rows (collections d) (λ col,
       negb ((CollectionGroup.groups_uuid cg == Group.uuid g)
             && (CollectionGroup.collections_uuid cg == Collection.uuid col))
       || (Group.organizations_uuid g == Collection.org_uuid col)))).

Definition grants_have_members_b (d : DB) : bool :=
  all_rows (users_collections d) (λ cu, any_row (collections d) (λ col, any_row (users_organizations d) (λ m,
    (Collection.uuid col == CollectionUser.collection_uuid cu)
    && (Membership.user_uuid m == CollectionUser.user_uuid cu)
    && (Membership.org_uuid m == Collection.org_uuid col)))).

(** ** Their soundness *)

Lemma all_rows_true {K A} `{Countable K} (t : gmap K A) p :
  all_rows t p = true ↔ ∀ a, a ∈ rows t → p a = true.
Proof. apply forallb_elem. Qed.

Lemma any_row_true {K A} `{Countable K} (t : gmap K A) p :
  any_row t p = true ↔ ∃ a, a ∈ rows t ∧ p a = true.
Proof. apply existsb_elem. Qed.

Lemma keyed_b_true {K A} `{Countable K} (key : A → K) (t : gmap K A) :
  keyed_b key t = true → map_Forall (λ k r, key r = k) t.
Proof.
  unfold keyed_b. rewrite forallb_forall. intros H' k r Hk.
  specialize (H' (k, r)). simpl in H'. apply bool_decide_eq_true in H'; [done|].
  by apply list_elem_of_In, elem_of_map_to_list.
Qed.

Lemma negb_orb_impl (a b : bool) : negb a || b = true ↔ (a = true → b = true).
Proof. destruct a, b; naive_solver. Qed.

Lemma wf_b_sound d : wf_b d = true → wf d.
Proof.
  unfold wf_b. intros H. repeat (apply andb_true_iff in H as [H ?]).
  constructor; try (by apply keyed_b_true).
  - intros m m' Hm Hm' Hu Ho. rewrite all_rows_true in H1. specialize (H1 m Hm).
    rewrite all_rows_true in H1. specialize (H1 m' Hm'). rewrite negb_orb_impl in H1.
    eapply bool_decide_eq_true_1, H1. by rewrite !bool_decide_true.
  - intros m m' Hm Hm' Hu Ho. rewrite all_rows_true in H0. specialize (H0 m Hm).
    rewrite all_rows_true in H0. specialize (H0 m' Hm'). rewrite negb_orb_impl in H0.
    eapply bool_decide_eq_true_1, H0. by rewrite !bool_decide_true.
Qed.

Lemma roles_valid_b_sound d : roles_valid_b d = true → roles_valid d.
Proof.
  unfold roles_valid_b, roles_valid. rewrite all_rows_true. intros H m Hm%H. bools.
  split; by apply Z.leb_le.
Qed.

Lemma org_consistent_b_sound d : org_consistent_b d = true → org_consistent d.
Proof.
  unfold org_consistent_b. intros H. apply andb_true_iff in H as [[H1 H2]%andb_true_iff H3].
  rewrite all_rows_true in H1. rewrite all_rows_true in H2. rewrite all_rows_true in H3. constructor.
  - intros cc c col Hcc Hc Hcol ? ?. specialize (H1 _ Hcc). rewrite all_rows_true in H1.
    specialize (H1 _ Hc). rewrite all_rows_true in H1. specialize (H1 _ Hcol). rewrite negb_orb_impl in H1.
    eapply bool_decide_eq_true_1, H1. by rewrite !bool_decide_true.
  - intros cc Hcc. specialize (H2 _ Hcc). rewrite any_row_true in H2. destruct H2 as (col & ? & ?). bools. eauto.
  - intros cc c col Hcc Hc Hcol ? ?. specialize (H3 _ Hcc). rewrite all_rows_true in H3.
    specialize (H3 _ Hc). rewrite all_rows_true in H3. specialize (H3 _ Hcol). rewrite negb_orb_impl in H3.
    eapply bool_decide_eq_true_1, H3. by rewrite !bool_decide_true.
Qed.

Lemma grants_have_members_b_sound d : grants_have_members_b d = true → grants_have_members d.
Proof.
  unfold grants_have_members_b, grants_have_members. rewrite all_rows_true. intros H cu Hcu%H.
  rewrite any_row_true in Hcu. destruct Hcu as (col & Hcol & Hm). rewrite any_row_true in Hm.
  destruct Hm as (m & Hm & ?). bools. exists col, m. by split_and!.
Qed.

(** A row found by computation. *)
Lemma elem_of_rows_key {K A} `{Countable K} (t : gmap K A) (k : K) (a : A) : t !! k = Some a → a ∈ rows t.
Proof. intros. apply elem_of_rows. eauto. Qed.

(** Touching the revision date of a user. *)
Lemma wf_touch_user `{Env} (uuid : string) (d : DB) : wf d → wf (User_update_uuid_revision uuid d).2.
Proof.
  intros Hwf. pose proof (wf_users _ Hwf) as Hu. destruct Hwf. constructor; simpl; try done.
  intros k r. rewrite lookup_update_where. intros (v & Hv & ->)%fmap_Some.
  apply Hu in Hv. by destruct (User.uuid v == uuid).
Qed.
