(* ===== verification/Samples.v ===== *)
(** A concrete deployment on which the hypotheses of the theorems are checked.

    One organization with an owner, a member with a direct read-only grant and
    a group that gives write access, and a user outside of it. *)
From S2P Require Import Prelude Schema Roles Users Invariants.
Local Open Scope Z_scope.
Local Open Scope string_scope.

Module Sample.

(** A time unit is a microsecond. *)
Definition env : Env := {|
  now := 1000000000;
  org_groups_enabled := true;
  mail_enabled := true;
  email_2fa_auto_fallback := false;
  trash_auto_delete_days := Some 30;
  is_valid_email := λ _, true;
  opendal_operator_for_path_type := λ _, Ok ();
  storage_delete := λ _, StorageOk;
  incomplete_2fa_time_limit := 3;
  emergency_access_allowed := true;
  invitations_allowed := true;
  org_creation_users := "";
  signups_allowed := true;
  signups_domains_whitelist := "";
  signups_verify := false;
  signups_verify_resend_time := 3600;
  signups_verify_resend_limit := 6;
  password_hints_allowed := true;
  show_password_hint := false;
  email_change_allowed := true;
  password_iterations_setting := 600000;
  enable_email_2fa := true;
  email_2fa_enforce_on_verified_invite := false;
  disable_2fa_remember := false;
  require_device_email := false;
  push_enabled := false;
  sso_enabled := false;
  sso_only := false;
  enforce_single_org_with_reset_pw_policy := false;
  email_attempts_limit := 3;
  email_expiration_time := 600;
  authenticator_disable_time_drift := false;
  send_mail := λ _ _, Ok ();
  check_limit_login := λ _, Ok ();
  check_limit_unauthenticated := λ _, Ok ()
|}.

Definition user (E : Env) (uuid email : string) : User.t :=
  User_new (E:=E) (MkSeed uuid "stamp" []) email None.

Definition mem (uuid u : string) (access_all : bool) (status atype : Z) : Membership.t :=
  Membership.mk uuid u "acme" None access_all "" status atype None None.

Definition cipher (uuid : string) (owner org : option string) : Cipher.t :=
  Cipher.mk uuid 0 0 owner org None 1 "login" None None "{}" None None None.

Definition alice := mem "m-alice" "alice" false 2 0.
Definition bob := mem "m-bob" "bob" false 2 2.
Definition k1 := cipher "k1" None (Some "acme").
Definition k2 := cipher "k2" (Some "bob") None.
Definition k3 := cipher "k3" None (Some "acme").
Definition ops := Collection.mk "ops" "acme" "Ops" None.
Definition dev := Collection.mk "dev" "acme" "Dev" None.
Definition devs := Group.mk "devs" "acme" "Developers" false None 0 0.
Definition k1_ops := CollectionCipher.mk "k1" "ops".
Definition k1_dev := CollectionCipher.mk "k1" "dev".
Definition k3_dev := CollectionCipher.mk "k3" "dev".
Definition bob_ops := CollectionUser.mk "bob" "ops" true false false.
Definition devs_dev := CollectionGroup.mk "dev" "devs" false false false.
Definition bob_devs := GroupUser.mk "devs" "m-bob".
Definition phone := Device.mk "phone" 0 0 "bob" "Phone" 0 None None "t0" None.
Definition laptop := Device.mk "laptop" 0 0 "bob" "Laptop" 0 None None "t1" None.

Definition db : DB := {|
  users := {[ "alice" := user env "alice" "a@x"; "bob" := user env "bob" "b@x"; "eve" := user env "eve" "e@x" ]};
  devices := {[ ("phone", "bob") := phone; ("laptop", "bob") := laptop ]};
  organizations := {[ "acme" := Organization.mk "acme" "Acme" "a@x" None None ]};
  users_organizations := {[ "m-alice" := alice; "m-bob" := bob ]};
  organization_api_key := ∅;
  ciphers := {[ "k1" := k1; "k2" := k2; "k3" := k3 ]};
  attachments := {[ "att" := Attachment.mk "att" "k1" "f" 10 None ]};
  folders := {[ "f1" := Folder.mk "f1" 0 0 "bob" "Home" ]};
  folders_ciphers := {[ ("k2", "f1") := FolderCipher.mk "k2" "f1" ]};
  favorites := {[ ("bob", "k2") := Favorite.mk "bob" "k2" ]};
  archives := ∅;
  collections := {[ "ops" := ops; "dev" := dev ]};
  users_collections := {[ ("bob", "ops") := bob_ops ]};
  ciphers_collections := {[ ("k1", "ops") := k1_ops; ("k1", "dev") := k1_dev; ("k3", "dev") := k3_dev ]};
  groups := {[ "devs" := devs ]};
  collections_groups := {[ ("dev", "devs") := devs_dev ]};
  groups_users := {[ ("devs", "m-bob") := bob_devs ]};
  org_policies := ∅;
  twofactor := ∅;
  twofactor_incomplete := ∅;
  sends := ∅;
  emergency_access := ∅;
  auth_requests := ∅;
  invitations := ∅;
  sso_users := ∅;
  sso_auth := ∅
|}.

Lemma db_wf : wf db.
Proof. by apply wf_b_sound; vm_compute. Qed.
Lemma db_roles : roles_valid db.
Proof. by apply roles_valid_b_sound; vm_compute. Qed.
Lemma db_consistent : org_consistent db.
Proof. by apply org_consistent_b_sound; vm_compute. Qed.
Lemma db_grants : grants_have_members db.
Proof. by apply grants_have_members_b_sound; vm_compute. Qed.
End Sample.
#[export] Hint Resolve Sample.db_wf Sample.db_roles Sample.db_consistent Sample.db_grants : vault.
