(* ===== verification/Sessions.v ===== *)
(** Credentials and sessions: the theorems.

    The refresh token of a device is consumed by a compare-and-swap
    ([Device::rotate_refresh_token_if_matches]); a change of the security stamp
    replaces the tokens of all the user's devices
    ([User::reset_security_stamp]); [User::set_password] uses both. *)
From S2P Require Import Prelude Schema Roles Users Invariants Samples.
Local Open Scope Z_scope.

Section sessions.
Context `{E : Env}.

(** ** Compare-and-swap *)

(** Requests that present the same token, in the order the database runs
    them; each draws its own new token. *)
Fixpoint rotate_attempts (v : Device.t) (expected : string) (news : list string) : M DB (list bool) :=
  match news with
  | [] => mret []
  | n :: news =>
      r ← Device_rotate_refresh_token_if_matches n expected v;
      l ← rotate_attempts v expected news;
      mret (r.1 :: l)
  end.

Lemma rotate_miss v expected n d :
  (∀ r, r ∈ rows (devices d) → refresh_match v expected r = false) →
  Device_rotate_refresh_token_if_matches n expected v d = (Ok (false, v), d).
Proof.
  intros Hno. unfold Device_rotate_refresh_token_if_matches.
  assert (where_ (refresh_match v expected) (rows (devices d)) = []) as ->.
  { destruct (where_ _ _) as [|r rs] eqn:Hw; [done|].
    assert (r ∈ where_ (refresh_match v expected) (rows (devices d))) as [Hr Hm]%elem_of_where
      by (rewrite Hw; left). by rewrite Hno in Hm. }
  simpl. unfold set_devices. rewrite update_where_id by done. by destruct d.
Qed.

Lemma rotate_attempts_miss v expected news d :
  (∀ r, r ∈ rows (devices d) → refresh_match v expected r = false) →
  rotate_attempts v expected news d = (Ok (replicate (length news) false), d).
Proof.
  intros Hno. induction news as [|n news IH]; [done|]. simpl rotate_attempts.
  rewrite (run_bind_Ok _ _ _ _ _ (rotate_miss v expected n d Hno)).
  by rewrite (run_bind_Ok _ _ _ _ _ IH).
Qed.

Lemma refresh_match_unique d v r r' expected :
  wf d → r ∈ rows (devices d) → r' ∈ rows (devices d) →
  refresh_match v expected r = true → refresh_match v expected r' = true → r' = r.
Proof.
  intros Hwf [k Hk]%elem_of_rows [k' Hk']%elem_of_rows. unfold refresh_match. intros. bools.
  apply (wf_devices _ Hwf) in Hk as Hkk. apply (wf_devices _ Hwf) in Hk' as Hkk'. simpl in *. congruence.
Qed.

(** a refresh token is consumed once. When a stored device holds the token
    [expected] and several requests present it, the first one the database
    runs succeeds and every later one fails and changes nothing; the device
    ends with the first new token. *)
Theorem refresh_token_single_use (d : DB) (v : Device.t) (n : string) (news : list string)
    (Hwf : wf d) (Hv : v ∈ rows (devices d)) (Hn : n ≠ Device.refresh_token v) :
  let '(r, d') := rotate_attempts v (Device.refresh_token v) (n :: news) d in
  r = Ok (true :: replicate (length news) false)
  ∧ devices d' !! device_key v =
      Some (Device.set_updated_at (λ _, now) (Device.set_refresh_token (λ _, n) v))
  ∧ ∀ k, k ≠ device_key v → devices d' !! k = devices d !! k.
Proof.
  set (expected := Device.refresh_token v).
  assert (Hm : refresh_match v expected v = true) by (unfold refresh_match; by rewrite !bool_decide_true).
  assert (Hone : where_ (refresh_match v expected) (rows (devices d)) = [v]).
  { apply where_singleton; [by eapply NoDup_rows, wf_devices|done..|].
    intros b Hb Hmb. by eapply refresh_match_unique. }
  simpl rotate_attempts. set (d1 := set_devices (update_where (refresh_match v expected) (λ r,
    Device.set_updated_at (λ _, now) (Device.set_refresh_token (λ _, n) r))) d).
  assert (H1 : Device_rotate_refresh_token_if_matches n expected v d =
    (Ok (true, Device.set_updated_at (λ _, now) (Device.set_refresh_token (λ _, n) v)), d1)).
  { unfold Device_rotate_refresh_token_if_matches. by rewrite Hone. }
  rewrite (run_bind_Ok _ _ _ _ _ H1).
  assert (Hmiss : ∀ r, r ∈ rows (devices d1) → refresh_match v expected r = false).
  { intros r (b & _ & ->)%elem_of_rows_update. destruct (refresh_match v expected b) eqn:Hb; [|done].
    unfold refresh_match. simpl. rewrite (bool_decide_false (n = _)) by done. by rewrite !andb_false_r. }
  rewrite (run_bind_Ok _ _ _ _ _ (rotate_attempts_miss v expected news d1 Hmiss)).
  split; [done|]. simpl. apply elem_of_rows in Hv as [k Hk].
  apply (wf_devices _ Hwf) in Hk as Hkk. simpl in Hkk. fold (device_key v) in Hkk. subst k.
  setoid_rewrite lookup_update_where. split; [by rewrite Hk; simpl; rewrite Hm|].
  intros k Hne. destruct (devices d !! k) as [r|] eqn:Hr; [|done]. simpl.
  destruct (refresh_match v expected r) eqn:Hmr; [|done]. destruct Hne.
  assert (r = v) as ->.
  { eapply refresh_match_unique; eauto; apply elem_of_rows; eauto. }
  symmetry. by apply (wf_devices _ Hwf) in Hr.
Qed.

(** ** The security stamp *)

Definition rotated (token_for : string → string) (v : Device.t) : Device.t :=
  Device.set_refresh_token (λ _, token_for (Device.uuid v)) v.

Lemma rotate_loop (token_for : string → string) u l d :
  (∀ v, v ∈ l → Device.user_uuid v = u) → has (users d) u = true →
  for_each l (λ v, Device_save false (Device.set_refresh_token (λ _, token_for (Device.uuid v)) v) ;; mret ()) d
  = (Ok (), set_devices (λ t, foldl (λ t v, <[device_key v := rotated token_for v]> t) t l) d).
Proof.
  revert d. induction l as [|v l IH]; intros d Hl HU; [by destruct d|]. simpl for_each.
  set (d1 := set_devices <[device_key v := rotated token_for v]> d).
  assert (H1 : (Device_save false (Device.set_refresh_token (λ _, token_for (Device.uuid v)) v) ;; mret ()) d
    = (Ok (), d1)).
  { unfold Device_save, save_row, mbind, M_bind, mret, M_ret. simpl.
    rewrite (Hl v) by left. by rewrite HU. }
  rewrite (run_bind_Ok _ _ _ _ _ H1). rewrite IH; [by destruct d| |by destruct d].
  intros w Hw. apply Hl. by right.
Qed.

Lemma foldl_insert_lookup (f : Device.t → Device.t) (l : list Device.t) (t : gmap (string * string) Device.t) k :
  foldl (λ t v, <[device_key v := f v]> t) t l !! k =
  match last (where_ (λ v, device_key v == k) l) with Some v => Some (f v) | None => t !! k end.
Proof.
  revert t. induction l as [|v l IH]; intros t; [done|]. simpl. rewrite IH.
  destruct (decide (device_key v = k)) as [<-|Hne].
  - rewrite bool_decide_true by done. rewrite last_cons. destruct (last _); [done|]. apply lookup_insert_eq.
  - rewrite bool_decide_false by done. destruct (last _); [done|]. by rewrite lookup_insert_ne.
Qed.

Lemma reset_security_stamp_spec d u stamp token_for :
  wf d → has (users d) (User.uuid u) = true →
  ∃ d', User_reset_security_stamp stamp token_for u d = (Ok (User.set_security_stamp (λ _, stamp) u), d')
  ∧ (∀ k, devices d' !! k =
      (λ v, if Device.user_uuid v == User.uuid u then rotated token_for v else v) <$> devices d !! k)
  ∧ users d' = users d.
Proof.
  intros Hwf HU. unfold User_reset_security_stamp, Device_rotate_refresh_tokens_by_user. simpl User.uuid.
  eexists. split; [|split].
  - erewrite run_bind_Ok; [done|]. rewrite run_gets. apply (rotate_loop _ (User.uuid u)); [|done].
    intros v [_ Hv]%elem_of_where. by bools.
  - intros k. simpl. rewrite foldl_insert_lookup. destruct (last _) as [v|] eqn:Hl.
    + apply last_Some_elem_of, elem_of_where in Hl as [[[k' Hv]%elem_of_rows Hu]%elem_of_where Hk].
      bools. subst k. apply (wf_devices _ Hwf) in Hv as Hkk. simpl in Hkk. unfold device_key. rewrite Hkk, Hv.
      simpl. by rewrite bool_decide_true.
    + apply last_None in Hl. destruct (devices d !! k) as [v|] eqn:Hv; [|done]. simpl.
      destruct (Device.user_uuid v == User.uuid u) eqn:Hu; [|done]. exfalso.
      assert (v ∈ where_ (λ v, device_key v == k) (Device_find_by_user (User.uuid u) d)) as Hin.
      { apply elem_of_where. split; [apply elem_of_where; split; [apply elem_of_rows; eauto|done]|].
        apply bool_decide_true. by apply (wf_devices _ Hwf) in Hv. }
      rewrite Hl in Hin. by apply not_elem_of_nil in Hin.
  - done.
Qed.

(** resetting the security stamp ends every session of the account. It
    succeeds, stores a fresh token on each of the user's devices, leaves the
    devices of other users alone, and afterwards no token that is not one of
    the fresh ones finds a device of the user. *)
Theorem reset_security_stamp_revokes_tokens (d : DB) (u : User.t) (stamp : string)
    (token_for : string → string) (Hwf : wf d) (HU : has (users d) (User.uuid u) = true) :
  let '(r, d') := User_reset_security_stamp stamp token_for u d in
  r = Ok (User.set_security_stamp (λ _, stamp) u)
  ∧ (∀ k v, devices d !! k = Some v → Device.user_uuid v ≠ User.uuid u → devices d' !! k = Some v)
  ∧ (∀ k v, devices d !! k = Some v → Device.user_uuid v = User.uuid u →
       ∃ v', devices d' !! k = Some v' ∧ Device.refresh_token v' = token_for (Device.uuid v))
  ∧ (∀ token v, (∀ w, token_for w ≠ token) →
       Device_find_by_refresh_token token d' = Some v → Device.user_uuid v ≠ User.uuid u).
Proof.
  destruct (reset_security_stamp_spec d u stamp token_for Hwf HU) as (d' & -> & Hd & _).
  split_and!; [done|..].
  - intros k v Hv Hne. rewrite Hd, Hv. simpl. by rewrite bool_decide_false.
  - intros k v Hv He. rewrite Hd, Hv. simpl. rewrite bool_decide_true by done. eauto.
  - intros token v Hfresh [Hv Ht]%head_Some_elem%elem_of_where He. bools.
    apply elem_of_rows in Hv as [k Hv]. rewrite Hd in Hv.
    destruct (devices d !! k) as [w|]; [|done]. simpl in Hv. injection Hv as <-.
    destruct (Device.user_uuid w == User.uuid u) eqn:Hw; bools.
    + by apply (Hfresh (Device.uuid w)).
    + done.
Qed.

(** a new password takes effect at once. After [set_password] the new
    password checks out against the stored hash, for every key derivation;
    when a route is allowed next, the exception it leaves behind is bound to
    the stamp that was replaced, not to the new one. *)
Theorem set_password_takes_effect `{Crypto} (d : DB) (u : User.t) (stamp : string)
    (token_for : string → string) (password : string) (new_key : option string) (reset : bool)
    (routes : option (list string)) (Hwf : wf d) (HU : has (users d) (User.uuid u) = true) :
  ∃ u' d', User_set_password stamp token_for password new_key reset routes u d = (Ok u', d')
  ∧ User_check_valid_password u' password = true
  ∧ User.security_stamp u' = (if reset then stamp else User.security_stamp u)
  ∧ (∀ rs, routes = Some rs → ∃ e, User.stamp_exception u' = Some e
       ∧ UserStampException.routes e = rs
       ∧ UserStampException.security_stamp e = User.security_stamp u).
Proof.
  unfold User_set_password.
  set (u1 := User.set_password_hash _ u).
  set (u2 := match routes with Some r => User_set_stamp_exception r u1 | None => u1 end).
  set (u3 := match new_key with Some k => _ | None => u2 end).
  assert (Hu3 : User.uuid u3 = User.uuid u) by (unfold u3, u2; by destruct new_key, routes).
  assert (Hpw : User_check_valid_password u3 password = true).
  { unfold u3, u2, u1. destruct new_key, routes; by apply bool_decide_true. }
  assert (Hex : ∀ rs, routes = Some rs → ∃ e, User.stamp_exception u3 = Some e
       ∧ UserStampException.routes e = rs ∧ UserStampException.security_stamp e = User.security_stamp u).
  { intros rs ->. unfold u3, u2, u1. destruct new_key; simpl; eauto. }
  assert (Hst : User.security_stamp u3 = User.security_stamp u) by (unfold u3, u2; by destruct new_key, routes).
  destruct reset; [|by exists u3, d].
  rewrite <-Hu3 in HU. destruct (reset_security_stamp_spec d u3 stamp token_for Hwf HU) as (d' & -> & _).
  by eexists _, d'.
Qed.
End sessions.

(** ** On the sample deployment *)

Lemma refresh_token_single_use_witness :
  let '(r, d') := rotate_attempts (E:=Sample.env) Sample.phone (Device.refresh_token Sample.phone) ["n1"; "n2"; "n3"] Sample.db in
  r = Ok (true :: replicate (length ["n2"; "n3"]) false)
  ∧ devices d' !! device_key Sample.phone =
      Some (Device.set_updated_at (λ _, now (Env:=Sample.env)) (Device.set_refresh_token (λ _, "n1") Sample.phone))
  ∧ ∀ k, k ≠ device_key Sample.phone → devices d' !! k = devices Sample.db !! k.
Proof.
  apply (refresh_token_single_use (E:=Sample.env) Sample.db Sample.phone "n1" ["n2"; "n3"]).
  - apply Sample.db_wf.
  - by apply (elem_of_rows_key _ ("phone", "bob")).
  - done.
Defined.

Definition sample_tokens (uuid : string) : string := "fresh-" +:+ uuid.

Lemma reset_security_stamp_revokes_tokens_witness :
  let u := Sample.user Sample.env "bob" "b@x" in
  let '(r, d') := User_reset_security_stamp (E:=Sample.env) "s2" sample_tokens u Sample.db in
  r = Ok (User.set_security_stamp (λ _, "s2") u)
  ∧ (∀ k v, devices Sample.db !! k = Some v → Device.user_uuid v ≠ User.uuid u → devices d' !! k = Some v)
  ∧ (∀ k v, devices Sample.db !! k = Some v → Device.user_uuid v = User.uuid u →
       ∃ v', devices d' !! k = Some v' ∧ Device.refresh_token v' = sample_tokens (Device.uuid v))
  ∧ (∀ token v, (∀ w, sample_tokens w ≠ token) →
       Device_find_by_refresh_token token d' = Some v → Device.user_uuid v ≠ User.uuid u).
Proof.
  apply (reset_security_stamp_revokes_tokens (E:=Sample.env) Sample.db (Sample.user Sample.env "bob" "b@x") "s2" sample_tokens).
  - apply Sample.db_wf.
  - reflexivity.
Defined.

Definition sample_crypto : Crypto := {| pbkdf2 := λ secret salt n, n :: secret ++ salt |}.

Lemma set_password_takes_effect_witness :
  let u := Sample.user Sample.env "bob" "b@x" in
  ∃ u' d', User_set_password (E:=Sample.env) (H:=sample_crypto) "s2" sample_tokens "pw" None true (Some ["rotate"]) u Sample.db
    = (Ok u', d')
  ∧ User_check_valid_password (H:=sample_crypto) u' "pw" = true
  ∧ User.security_stamp u' = "s2"
  ∧ (∀ rs, Some ["rotate"] = Some rs → ∃ e, User.stamp_exception u' = Some e
       ∧ UserStampException.routes e = rs
       ∧ UserStampException.security_stamp e = User.security_stamp u).
Proof.
  apply (set_password_takes_effect (E:=Sample.env) (H:=sample_crypto) Sample.db (Sample.user Sample.env "bob" "b@x")
    "s2" sample_tokens "pw" None true (Some ["rotate"])).
  - apply Sample.db_wf.
  - reflexivity.
Defined.
