(* ===== verification/Sends.v ===== *)
(** Sends: secrets shared by link.

    Models src/src/db/models/send.rs: the password of a Send, its validity
    window, the counted access with its single-statement limit, and deletion.
    Parsing of the JSON stored in [data] is not modelled. *)
From S2P Require Import Prelude Schema Roles Users Invariants Samples.
Local Open Scope Z_scope.

Inductive SendType := SendText | SendFile.
Definition SendType_as_i32 (t : SendType) : Z := match t with SendText => 0 | SendFile => 1 end.

Definition i32_max : Z := 2 ^ 31 - 1.

Section sends.
Context `{E : Env}.

Definition Send_new (uuid : string) (atype : Z) (name data akey : string) (deletion_date : Z) : Send.t :=
  {| Send.uuid := uuid; Send.user_uuid := None; Send.organization_uuid := None; Send.name := name;
     Send.notes := None; Send.atype := atype; Send.data := data; Send.akey := akey;
     Send.password_hash := None; Send.password_salt := None; Send.password_iter := None;
     Send.max_access_count := None; Send.access_count := 0; Send.creation_date := now;
     Send.revision_date := now; Send.expiration_date := None; Send.deletion_date := deletion_date;
     Send.disabled := false; Send.hide_email := None |}.

Definition SEND_PASSWORD_ITER : Z := 100000.

(** [Send::set_password]; [salt] is drawn by the call. *)
Definition Send_set_password `{Crypto} (salt : bytes) (password : option string) (s : Send.t) : Send.t :=
  match password with
  | Some password =>
      let hash := hash_password (as_bytes password) salt SEND_PASSWORD_ITER in
      Send.set_password_hash (λ _, Some hash)
        (Send.set_password_salt (λ _, Some salt)
          (Send.set_password_iter (λ _, Some SEND_PASSWORD_ITER) s))
  | None =>
      Send.set_password_hash (λ _, None)
        (Send.set_password_salt (λ _, None) (Send.set_password_iter (λ _, None) s))
  end.

Definition Send_check_password `{Crypto} (s : Send.t) (password : string) : bool :=
  match Send.password_hash s, Send.password_salt s, Send.password_iter s with
  | Some hash, Some salt, Some iter =>
      verify_password_hash (as_bytes password) salt hash (cast_unsigned iter)
  | _, _, _ => false
  end.

Definition Send_creator_identifier (s : Send.t) (d : DB) : option string :=
  if default false (Send.hide_email s) then None else
  match Send.user_uuid s with
  | Some user_uuid => User.email <$> User_find_by_uuid user_uuid d
  | None => None
  end.

Definition Send_update_users_revision (s : Send.t) : M DB (list string) :=
  match Send.user_uuid s with
  | Some user_uuid => User_update_uuid_revision user_uuid ;; mret [user_uuid]
  | None => mret []
  end.

Definition Send_save (s : Send.t) : M DB Send.t :=
  Send_update_users_revision s ;;
  let s := Send.set_revision_date (λ _, now) s in
  save_row (λ d, match Send.user_uuid s with Some u => has (users d) u | None => true end
                 && match Send.organization_uuid s with Some o => has (organizations d) o | None => true end)
    (set_sends <[Send.uuid s := s]>) "Error saving send" ;;
  mret s.

(** The WHERE clause of the counted access; NULL < x is not true. *)
Definition below_limit (uuid : string) (r : Send.t) : bool :=
  (Send.uuid r == uuid)
  && match Send.max_access_count r with Some m => Send.access_count r <? m | None => true end.

Definition counted (r : Send.t) : Send.t :=
  Send.set_revision_date (λ _, now) (Send.set_access_count (λ n, n + 1) r).

(** [register_access]: one UPDATE. The column is 32 bits wide: an increment
    beyond it is refused by the database. *)
Definition Send_register_access (s : Send.t) : M DB (bool * Send.t) :=
  Send_update_users_revision s ;;
  hits ← gets (λ d, where_ (below_limit (Send.uuid s)) (rows (sends d)));
  if existsb (λ r, i32_max <=? Send.access_count r) hits then throw (MkError 400 "Db") else
  modify (set_sends (update_where (below_limit (Send.uuid s)) counted)) ;;
  if count hits =? 0 then mret (false, s) else mret (true, counted s).

Definition Send_is_accessible (s : Send.t) : bool :=
  if Send.disabled s then false
  else if match Send.expiration_date s with Some expiration => expiration <=? now | None => false end
  then false
  else now <? Send.deletion_date s.

(** [Send::delete]; what the object store answers is ignored. *)
Definition Send_delete (s : Send.t) : M DB () :=
  Send_update_users_revision s ;;
  when (Send.atype s == SendType_as_i32 SendFile) (lift (opendal_operator_for_path_type Sends)) ;;
  modify (set_sends (delete_where (λ r, Send.uuid r == Send.uuid s))).

Definition Send_find_by_uuid (uuid : string) (d : DB) : option Send.t :=
  first (where_ (λ s, Send.uuid s == uuid) (rows (sends d))).
Definition Send_find_by_uuid_and_user (uuid user_uuid : string) (d : DB) : option Send.t :=
  first (where_ (λ s, (Send.uuid s == uuid) && (Send.user_uuid s == Some user_uuid)) (rows (sends d))).
Definition Send_find_by_user (user_uuid : string) (d : DB) : list Send.t :=
  where_ (λ s, Send.user_uuid s == Some user_uuid) (rows (sends d)).
Definition Send_find_by_org (org_uuid : string) (d : DB) : list Send.t :=
  where_ (λ s, Send.organization_uuid s == Some org_uuid) (rows (sends d)).
Definition Send_find_by_past_deletion_date (d : DB) : list Send.t :=
  where_ (λ s, Send.deletion_date s <? now) (rows (sends d)).

Definition Send_purge : M DB () :=
  l ← gets Send_find_by_past_deletion_date;
  for_each l (λ s, ignore (Send_delete s)).

Definition Send_delete_all_by_user (user_uuid : string) : M DB () :=
  l ← gets (Send_find_by_user user_uuid);
  for_each l Send_delete.

(** ** The limit on accesses *)

(** Requests for the same Send, in the order the database runs them. *)
Fixpoint register_accesses (n : nat) (s : Send.t) : M DB (list bool) :=
  match n with
  | O => mret []
  | S n =>
      r ← Send_register_access s;
      l ← register_accesses n s;
      mret (r.1 :: l)
  end.

Lemma update_users_revision_run (s : Send.t) d :
  ∃ l d1, Send_update_users_revision s d = (Ok l, d1) ∧ sends d1 = sends d ∧ (wf d → wf d1).
Proof.
  unfold Send_update_users_revision.
  destruct (Send.user_uuid s) as [u|]; eexists _, _; (split; [done|]); (split; [done|]); [|done].
  apply wf_touch_user.
Qed.

Lemma below_limit_unique d uuid r r' :
  wf d → sends d !! uuid = Some r → r' ∈ rows (sends d) → below_limit uuid r' = true → r' = r.
Proof.
  intros Hwf Hr [k Hk]%elem_of_rows. unfold below_limit. intros. bools.
  apply (wf_sends _ Hwf) in Hk as Hkk. simpl in Hkk. congruence.
Qed.

(** One access: what the single UPDATE decides. *)
Lemma register_access_spec d s r :
  wf d → sends d !! Send.uuid s = Some r →
  (below_limit (Send.uuid s) r = true → Send.access_count r < i32_max) →
  let ok := below_limit (Send.uuid s) r in
  ∃ s' d', Send_register_access s d = (Ok (ok, s'), d')
  ∧ sends d' = (if ok then <[Send.uuid s := counted r]> (sends d) else sends d) ∧ wf d'.
Proof.
  intros Hwf Hr Hov. cbv zeta. remember (below_limit (Send.uuid s) r) as ok eqn:Hok.
  unfold Send_register_access.
  destruct (update_users_revision_run s d) as (l & d1 & Hrun & Hs1 & Hw1).
  rewrite (run_bind_Ok _ _ _ _ _ Hrun), run_gets, Hs1.
  assert (Hin : r ∈ rows (sends d)) by (apply elem_of_rows; eauto).
  assert (Hhits : where_ (below_limit (Send.uuid s)) (rows (sends d)) = if ok then [r] else []).
  { destruct ok.
    - apply where_singleton; [by eapply NoDup_rows, wf_sends|done..|]. intros b Hb.
      by eapply below_limit_unique.
    - destruct (where_ _ _) as [|b bs] eqn:Hw; [done|].
      assert (b ∈ where_ (below_limit (Send.uuid s)) (rows (sends d))) as [Hb Hbl]%elem_of_where by (rewrite Hw; left).
      assert (b = r) as -> by (by eapply below_limit_unique). congruence. }
  rewrite Hhits.
  assert (existsb (λ r, i32_max <=? Send.access_count r) (if ok then [r] else []) = false) as ->.
  { destruct ok; [|done]. simpl. rewrite orb_false_r. apply Z.leb_gt. by apply Hov. }
  rewrite run_modify. set (d2 := set_sends _ d1).
  assert (Hs2 : sends d2 = if ok then <[Send.uuid s := counted r]> (sends d) else sends d).
  { unfold d2. simpl. rewrite Hs1. apply map_eq. intros k. rewrite lookup_update_where.
    destruct (sends d !! k) as [b|] eqn:Hb; simpl.
    - destruct (below_limit (Send.uuid s) b) eqn:Hbl.
      + assert (b = r) as -> by (eapply below_limit_unique; eauto; apply elem_of_rows; eauto).
        assert (k = Send.uuid s) as ->.
        { apply (wf_sends _ Hwf) in Hb, Hr. simpl in *. congruence. }
        replace ok with true by congruence. by rewrite lookup_insert_eq.
      + destruct ok; [|done]. rewrite lookup_insert_ne; [done|]. intros <-. congruence.
    - destruct ok; [|done]. rewrite lookup_insert_ne; [done|]. intros <-. congruence. }
  assert (Hwf2 : wf d2).
  { specialize (Hw1 Hwf). pose proof (wf_sends _ Hw1) as Hk. destruct Hw1. constructor; simpl; try done.
    intros k b. rewrite lookup_update_where. intros (b' & Hb & ->)%fmap_Some.
    apply Hk in Hb. by destruct (below_limit _ b'). }
  destruct ok; eauto 10.
Qed.

(** the limit on the number of accesses holds under concurrency. For a
    stored Send with a limit, [n] requests (each working on a copy of the Send
    read earlier) succeed exactly as long as the limit allows, later ones are
    refused, and the stored count never passes the limit. *)
Theorem access_limit_respected (d : DB) (s r : Send.t) (m : Z) (n : nat)
    (Hwf : wf d) (Hr : sends d !! Send.uuid s = Some r)
    (Hmax : Send.max_access_count r = Some m) (Hm : m ≤ i32_max)
    (Hc : 0 ≤ Send.access_count r ≤ m) :
  let allowed := Nat.min n (Z.to_nat (m - Send.access_count r)) in
  ∃ d', register_accesses n s d = (Ok (replicate allowed true ++ replicate (n - allowed) false), d')
  ∧ ∃ r', sends d' !! Send.uuid s = Some r'
    ∧ Send.access_count r' = Send.access_count r + Z.of_nat allowed
    ∧ Send.access_count r' ≤ m.
Proof.
  revert d r Hwf Hr Hmax Hc. induction n as [|n IH]; intros d r Hwf Hr Hmax Hc; simpl.
  { eexists. split; [done|]. exists r. split_and!; [done|lia|lia]. }
  assert (Hbl : below_limit (Send.uuid s) r = (Send.access_count r <? m)).
  { unfold below_limit. apply (wf_sends _ Hwf) in Hr. simpl in Hr. rewrite bool_decide_true by done.
    by rewrite Hmax. }
  destruct (register_access_spec d s r Hwf Hr) as (s' & d1 & H1 & Hs1 & Hwf1).
  { rewrite Hbl. intros ?%Z.ltb_lt. lia. }
  rewrite Hbl in H1, Hs1. rewrite (run_bind_Ok _ _ _ _ _ H1).
  destruct (Z.ltb_spec (Send.access_count r) m) as [Hlt|Hge].
  - destruct (IH d1 (counted r)) as (d' & Hrun & r' & Hr' & Hcount & Hle);
      [done|by rewrite Hs1, lookup_insert_eq|done|simpl; lia|].
    exists d'. rewrite (run_bind_Ok _ _ _ _ _ Hrun). simpl Send.access_count in *.
    replace (Z.to_nat (m - Send.access_count r)) with (S (Z.to_nat (m - (Send.access_count r + 1)))) by lia.
    split; [done|]. exists r'. split_and!; [done|lia|lia].
  - destruct (IH d1 r) as (d' & Hrun & r' & Hr' & Hcount & Hle); [done|by rewrite Hs1|done|lia|].
    exists d'. rewrite (run_bind_Ok _ _ _ _ _ Hrun).
    replace (Z.to_nat (m - Send.access_count r)) with 0%nat in * by lia.
    rewrite Nat.min_0_r in *. simpl. rewrite Nat.sub_0_r. split; [done|]. by exists r'.
Qed.
End sends.

(** ** On a sample Send *)

Definition sample_send : Send.t :=
  Send.set_max_access_count (λ _, Some 2) (Send_new (E:=Sample.env) "s1" 0 "n" "{}" "k" 2000000000).
Definition sample_send_db : DB := set_sends (λ _, {[ "s1" := sample_send ]}) Sample.db.

Lemma access_limit_respected_witness :
  ∃ d', register_accesses (E:=Sample.env) 5 sample_send sample_send_db =
    (Ok (replicate 2 true ++ replicate 3 false), d')
  ∧ ∃ r', sends d' !! "s1" = Some r' ∧ Send.access_count r' = 0 + 2 ∧ Send.access_count r' ≤ 2.
Proof.
  apply (access_limit_respected (E:=Sample.env) sample_send_db sample_send sample_send 2 5).
  - by apply wf_b_sound; vm_compute.
  - reflexivity.
  - reflexivity.
  - unfold i32_max. lia.
  - simpl. lia.
Defined.
