(* ===== verification/TwoFactors.v ===== *)
(** Second factors and login requests: the stored rows.

    Models src/src/db/models/two_factor.rs, two_factor_incomplete.rs and
    auth_request.rs (lookups, saves, deletions). The migrations of old WebAuthn
    credentials are not modelled. *)
From S2P Require Import Prelude Schema Roles Users.
Local Open Scope Z_scope.

Inductive TwoFactorType :=
| Authenticator | Email | Duo | YubiKey | U2f | Remember | OrganizationDuo | Webauthn | RecoveryCode
| U2fRegisterChallenge | U2fLoginChallenge | EmailVerificationChallenge
| WebauthnRegisterChallenge | WebauthnLoginChallenge | ProtectedActions.

Definition TwoFactorType_as_i32 (t : TwoFactorType) : Z :=
  match t with
  | Authenticator => 0 | Email => 1 | Duo => 2 | YubiKey => 3 | U2f => 4 | Remember => 5
  | OrganizationDuo => 6 | Webauthn => 7 | RecoveryCode => 8
  | U2fRegisterChallenge => 1000 | U2fLoginChallenge => 1001 | EmailVerificationChallenge => 1002
  | WebauthnRegisterChallenge => 1003 | WebauthnLoginChallenge => 1004 | ProtectedActions => 2000
  end.

(** [TwoFactorType::from_i32]. *)
Definition TwoFactorType_from_i32 (n : Z) : option TwoFactorType :=
  match n with
  | 0 => Some Authenticator | 1 => Some Email | 2 => Some Duo | 3 => Some YubiKey | 4 => Some U2f
  | 5 => Some Remember | 6 => Some OrganizationDuo | 7 => Some Webauthn | 8 => Some RecoveryCode
  | 1000 => Some U2fRegisterChallenge | 1001 => Some U2fLoginChallenge
  | 1002 => Some EmailVerificationChallenge | 1003 => Some WebauthnRegisterChallenge
  | 1004 => Some WebauthnLoginChallenge | 2000 => Some ProtectedActions
  | _ => None
  end.

Section twofactors.
Context `{E : Env}.

Definition TwoFactor_new (uuid user_uuid : string) (atype : TwoFactorType) (data : string) : TwoFactor.t :=
  {| TwoFactor.uuid := uuid; TwoFactor.user_uuid := user_uuid;
     TwoFactor.atype := TwoFactorType_as_i32 atype; TwoFactor.enabled := true;
     TwoFactor.data := data; TwoFactor.last_used := 0 |}.

(** [TwoFactor::save]: the old row of the same user and type goes first, so
    that UNIQUE (user_uuid, atype) cannot refuse the insert. *)
Definition TwoFactor_save (t : TwoFactor.t) : M DB () :=
  modify (set_twofactor (delete_where (λ r,
    (TwoFactor.user_uuid r == TwoFactor.user_uuid t) && (TwoFactor.atype r == TwoFactor.atype t)))) ;;
  save_row (λ d, has (users d) (TwoFactor.user_uuid t))
    (set_twofactor <[TwoFactor.uuid t := t]>) "Error saving twofactor".

Definition TwoFactor_delete (t : TwoFactor.t) : M DB () :=
  modify (set_twofactor (delete_where (λ r, TwoFactor.uuid r == TwoFactor.uuid t))).

Definition TwoFactor_find_by_user (user_uuid : string) (d : DB) : list TwoFactor.t :=
  where_ (λ t, (TwoFactor.user_uuid t == user_uuid) && (TwoFactor.atype t <? 1000)) (rows (twofactor d)).

Definition TwoFactor_find_by_user_and_type (user_uuid : string) (atype : Z) (d : DB) : option TwoFactor.t :=
  first (where_ (λ t, (TwoFactor.user_uuid t == user_uuid) && (TwoFactor.atype t == atype))
           (rows (twofactor d))).

Definition TwoFactor_delete_all_by_user (user_uuid : string) : M DB () :=
  modify (set_twofactor (delete_where (λ t, TwoFactor.user_uuid t == user_uuid))).

(** *** Logins that stopped at the second factor *)

Definition TwoFactorIncomplete_find_by_user_and_device (user_uuid device_uuid : string) (d : DB)
    : option TwoFactorIncomplete.t :=
  first (where_ (λ t, (TwoFactorIncomplete.user_uuid t == user_uuid)
                      && (TwoFactorIncomplete.device_uuid t == device_uuid))
           (rows (twofactor_incomplete d))).

Definition TwoFactorIncomplete_delete_by_user_and_device (user_uuid device_uuid : string) : M DB () :=
  modify (set_twofactor_incomplete (delete_where (λ t,
    (TwoFactorIncomplete.user_uuid t == user_uuid)
    && (TwoFactorIncomplete.device_uuid t == device_uuid)))).

Definition tracking_off : bool := (incomplete_2fa_time_limit <=? 0) || negb mail_enabled.

Definition TwoFactorIncomplete_mark_incomplete (user_uuid device_uuid device_name : string)
    (device_type : Z) (ip : string) : M DB () :=
  if tracking_off then mret () else
  existing ← gets (TwoFactorIncomplete_find_by_user_and_device user_uuid device_uuid);
  match existing with
  | Some _ => mret ()
  | None =>
      save_row (λ d, has (users d) user_uuid)
        (set_twofactor_incomplete <[(user_uuid, device_uuid) :=
           {| TwoFactorIncomplete.user_uuid := user_uuid;
              TwoFactorIncomplete.device_uuid := device_uuid;
              TwoFactorIncomplete.device_name := device_name;
              TwoFactorIncomplete.device_type := device_type;
              TwoFactorIncomplete.login_time := now;
              TwoFactorIncomplete.ip_address := ip |}]>)
        "Error adding twofactor_incomplete record"
  end.

Definition TwoFactorIncomplete_mark_complete (user_uuid device_uuid : string) : M DB () :=
  if tracking_off then mret ()
  else TwoFactorIncomplete_delete_by_user_and_device user_uuid device_uuid.

Definition TwoFactorIncomplete_find_logins_before (dt : Z) (d : DB) : list TwoFactorIncomplete.t :=
  where_ (λ t, TwoFactorIncomplete.login_time t <? dt) (rows (twofactor_incomplete d)).

Definition TwoFactorIncomplete_delete (t : TwoFactorIncomplete.t) : M DB () :=
  TwoFactorIncomplete_delete_by_user_and_device
    (TwoFactorIncomplete.user_uuid t) (TwoFactorIncomplete.device_uuid t).

Definition TwoFactorIncomplete_delete_all_by_user (user_uuid : string) : M DB () :=
  modify (set_twofactor_incomplete (delete_where (λ t, TwoFactorIncomplete.user_uuid t == user_uuid))).

(** *** Login with device *)

Definition AuthRequest_new (uuid user_uuid request_device_identifier : string) (device_type : Z)
    (request_ip access_code public_key : string) : AuthRequest.t :=
  {| AuthRequest.uuid := uuid; AuthRequest.user_uuid := user_uuid;
     AuthRequest.organization_uuid := None;
     AuthRequest.request_device_identifier := request_device_identifier;
     AuthRequest.device_type := device_type; AuthRequest.request_ip := request_ip;
     AuthRequest.response_device_id := None; AuthRequest.access_code := access_code;
     AuthRequest.public_key := public_key; AuthRequest.enc_key := None;
     AuthRequest.master_password_hash := None; AuthRequest.approved := None;
     AuthRequest.creation_date := now; AuthRequest.response_date := None;
     AuthRequest.authentication_date := None |}.

Definition AuthRequest_save (a : AuthRequest.t) : M DB () :=
  save_row (λ d, has (users d) (AuthRequest.user_uuid a)
                 && match AuthRequest.organization_uuid a with
                    | Some o => has (organizations d) o
                    | None => true
                    end)
    (set_auth_requests <[AuthRequest.uuid a := a]>) "Error saving auth_request".

Definition AuthRequest_find_by_uuid (uuid : string) (d : DB) : option AuthRequest.t :=
  first (where_ (λ a, AuthRequest.uuid a == uuid) (rows (auth_requests d))).
Definition AuthRequest_find_by_uuid_and_user (uuid user_uuid : string) (d : DB) : option AuthRequest.t :=
  first (where_ (λ a, (AuthRequest.uuid a == uuid) && (AuthRequest.user_uuid a == user_uuid))
           (rows (auth_requests d))).
Definition AuthRequest_find_by_user (user_uuid : string) (d : DB) : list AuthRequest.t :=
  where_ (λ a, AuthRequest.user_uuid a == user_uuid) (rows (auth_requests d)).
(** The newest of the rows, by creation date. *)
Definition latest (l : list AuthRequest.t) : option AuthRequest.t :=
  foldr (λ a o, match o with
                | Some b => if AuthRequest.creation_date b <=? AuthRequest.creation_date a then Some a else Some b
                | None => Some a
                end) None l.
Definition AuthRequest_find_by_user_and_requested_device (user_uuid device_uuid : string) (d : DB) : option AuthRequest.t :=
  latest (where_ (λ a, (AuthRequest.user_uuid a == user_uuid)
                       && (AuthRequest.request_device_identifier a == device_uuid)
                       && bool_decide (AuthRequest.approved a = None)) (rows (auth_requests d))).
(** [Device::find_with_auth_request_by_user]. *)
Definition Device_find_with_auth_request_by_user (user_uuid : string) (d : DB) : list (Device.t * option AuthRequest.t) :=
  (λ v, (v, AuthRequest_find_by_user_and_requested_device user_uuid (Device.uuid v) d))
    <$> Device_find_by_user user_uuid d.
Definition AuthRequest_find_created_before (dt : Z) (d : DB) : list AuthRequest.t :=
  where_ (λ a, AuthRequest.creation_date a <? dt) (rows (auth_requests d)).

Definition AuthRequest_delete (a : AuthRequest.t) : M DB () :=
  modify (set_auth_requests (delete_where (λ r, AuthRequest.uuid r == AuthRequest.uuid a))).

Definition AuthRequest_check_access_code (a : AuthRequest.t) (access_code : string) : bool :=
  ct_eq (AuthRequest.access_code a) access_code.

(** [purge_expired_auth_requests]: older than 15 minutes. *)
Definition AuthRequest_purge_expired_auth_requests : M DB () :=
  l ← gets (AuthRequest_find_created_before (now - 15 * 60 * 1000000));
  for_each l (λ a, ignore (AuthRequest_delete a)).
End twofactors.
