(* ===== verification/OneTimeCodes.v ===== *)
(** One-time codes: authenticator, e-mail and protected actions.

    Models src/src/api/core/two_factor/email.rs (the code sent by mail),
    authenticator.rs (TOTP with the last used time step) and
    protected_actions.rs (the code that confirms a sensitive action). The HMAC
    of TOTP, Base32 and the JSON encoding of the stored rows are parameters. *)
From S2P Require Import Prelude Schema Roles Users Invariants Samples TwoFactors.
Local Open Scope Z_scope.

Definition u64_max : Z := 2 ^ 64 - 1.
(** [u64::saturating_add(1)]. *)
Definition saturating_succ (n : Z) : Z := Z.min u64_max (n + 1).
(** [u64::cast_signed] and [i64::cast_unsigned]. *)
Definition cast_signed (n : Z) : Z := if n <? 2 ^ 63 then n else n - 2 ^ 64.
Definition cast_unsigned64 (n : Z) : Z := n mod 2 ^ 64.

(** ** Stored data *)

Module EmailTokenData.
Record t := mk { email : string; last_token : option string; token_sent : Z; attempts : Z }.
End EmailTokenData.

(** [token_sent] in microseconds; it is stored with [ts_seconds]. *)
Module ProtectedActionData.
Record t := mk { token : string; token_sent : Z; attempts : Z }.
End ProtectedActionData.

(** [serde_json] on the two structures: what was written is read back. The
    instant of a protected action is written in whole seconds. *)
Class Codecs := {
  email_to_json : EmailTokenData.t → string;
  email_from_json : string → option EmailTokenData.t;
  email_roundtrip : ∀ e, email_from_json (email_to_json e) = Some e;
  action_to_json : ProtectedActionData.t → string;
  action_from_json : string → option ProtectedActionData.t;
  action_roundtrip : ∀ token sent attempts,
    action_from_json (action_to_json (ProtectedActionData.mk token sent attempts)) =
    Some (ProtectedActionData.mk token (sent / 1000000 * 1000000) attempts);
}.

(** [totp_lite::totp_custom::<Sha1>(30, 6, secret, time)] and
    [BASE32.decode]. *)
Class Totp := {
  totp_custom : bytes → Z → string;
  base32_decode : string → option bytes;
}.

Section codes.
Context `{E : Env} `{K : Codecs}.

(** *** [EmailTokenData] *)

Definition EmailTokenData_new (email token : string) : EmailTokenData.t :=
  EmailTokenData.mk email (Some token) (now / 1000000) 0.
Definition EmailTokenData_set_token (token : string) (e : EmailTokenData.t) : EmailTokenData.t :=
  EmailTokenData.mk (EmailTokenData.email e) (Some token) (now / 1000000) (EmailTokenData.attempts e).
Definition EmailTokenData_reset_token (e : EmailTokenData.t) : EmailTokenData.t :=
  EmailTokenData.mk (EmailTokenData.email e) None (EmailTokenData.token_sent e) 0.
Definition EmailTokenData_add_attempt (e : EmailTokenData.t) : EmailTokenData.t :=
  EmailTokenData.mk (EmailTokenData.email e) (EmailTokenData.last_token e)
    (EmailTokenData.token_sent e) (saturating_succ (EmailTokenData.attempts e)).
Definition EmailTokenData_from_json (s : string) : M DB EmailTokenData.t :=
  some_or (email_from_json s) "Could not decode EmailTokenData from string".

(** [send_token]; [token] is drawn by the call. *)
Definition send_token (token user_id : string) : M DB () :=
  o ← gets (TwoFactor_find_by_user_and_type user_id (TwoFactorType_as_i32 Email));
  tf ← some_or o "Two factor not found";
  e ← EmailTokenData_from_json (TwoFactor.data tf);
  let e := EmailTokenData_set_token token e in
  TwoFactor_save (TwoFactor.set_data (λ _, email_to_json e) tf) ;;
  lift (send_mail "send_token" (EmailTokenData.email e)).

(** [validate_email_code_str]; [data] is the data of the row that the caller
    has already loaded. *)
Definition validate_email_code_str (user_id token data : string) : M DB () :=
  e ← EmailTokenData_from_json data;
  o ← gets (TwoFactor_find_by_user_and_type user_id (TwoFactorType_as_i32 Email));
  tf ← some_or o "Two factor not found";
  match EmailTokenData.last_token e with
  | None => err "No token available!"
  | Some issued_token =>
      if negb (ct_eq issued_token token) then
        let e := EmailTokenData_add_attempt e in
        let e := if email_attempts_limit <=? EmailTokenData.attempts e
                 then EmailTokenData_reset_token e else e in
        TwoFactor_save (TwoFactor.set_data (λ _, email_to_json e) tf) ;;
        err "Token is invalid!"
      else
        let e := EmailTokenData_reset_token e in
        TwoFactor_save (TwoFactor.set_data (λ _, email_to_json e) tf) ;;
        if (EmailTokenData.token_sent e + cast_signed email_expiration_time) * 1000000 <? now
        then err "Token has expired"
        else mret ()
  end.

(** [activate_email_2fa] and [find_and_activate_email_2fa]; [uuid] is the id
    of the new row. *)
Definition activate_email_2fa (uuid : string) (user : User.t) : M DB () :=
  match User.verified_at user with
  | None => err "Auto-enabling of email 2FA failed because the users email address has not been verified!"
  | Some _ =>
      let e := EmailTokenData_new (User.email user) "" in
      TwoFactor_save (TwoFactor_new uuid (User.uuid user) Email (email_to_json e))
  end.

Definition find_and_activate_email_2fa (uuid user_id : string) : M DB () :=
  o ← gets (User_find_by_uuid user_id);
  match o with
  | Some user => activate_email_2fa uuid user
  | None => err "User not found!"
  end.

(** *** Protected actions *)

Definition ProtectedActionData_new (token : string) : ProtectedActionData.t :=
  ProtectedActionData.mk token now 0.
Definition ProtectedActionData_add_attempt (p : ProtectedActionData.t) : ProtectedActionData.t :=
  ProtectedActionData.mk (ProtectedActionData.token p) (ProtectedActionData.token_sent p)
    (saturating_succ (ProtectedActionData.attempts p)).
(** [time_since_sent().num_seconds()]: whole seconds, toward zero. *)
Definition seconds_since_sent (p : ProtectedActionData.t) : Z :=
  (now - ProtectedActionData.token_sent p) ÷ 1000000.

Definition action_type : Z := TwoFactorType_as_i32 ProtectedActions.

(** [request_otp]; [uuid] and [token] are drawn by the call. *)
Definition request_otp (uuid token : string) (user : User.t) : M DB () :=
  if negb mail_enabled then
    err "Email is disabled for this server. Either enable email or login using your master password instead of login via device."
  else
    o ← gets (TwoFactor_find_by_user_and_type (User.uuid user) action_type);
    match o with
    | Some pa =>
        p ← some_or (action_from_json (TwoFactor.data pa)) "Could not decode ProtectedActionData from string";
        if seconds_since_sent p <? 30
        then err "Please wait before requesting another code."
        else TwoFactor_delete pa
    | None => mret ()
    end ;;
    let p := ProtectedActionData_new token in
    TwoFactor_save (TwoFactor_new uuid (User.uuid user) ProtectedActions (action_to_json p)) ;;
    lift (send_mail "send_protected_action_token" (User.email user)).

Definition validate_protected_action_otp (otp user_id : string) (delete_if_valid : bool) : M DB () :=
  o ← gets (TwoFactor_find_by_user_and_type user_id action_type);
  pa ← some_or o "Protected action token not found, try sending the code again or restart the process";
  p ← some_or (action_from_json (TwoFactor.data pa)) "Could not decode ProtectedActionData from string";
  let p := ProtectedActionData_add_attempt p in
  let pa := TwoFactor.set_data (λ _, action_to_json p) pa in
  if email_attempts_limit <=? ProtectedActionData.attempts p then err "Token has expired"
  else if cast_signed email_expiration_time <? seconds_since_sent p then
    TwoFactor_delete pa ;; err "Token has expired"
  else if negb (ct_eq (ProtectedActionData.token p) otp) then
    TwoFactor_save pa ;; err "Token is invalid"
  else when delete_if_valid (TwoFactor_delete pa).

(** [PasswordOrOtpData::validate]. *)
Definition PasswordOrOtpData_validate `{Crypto} (master_password_hash otp : option string)
    (user : User.t) (delete_if_valid : bool) : M DB () :=
  match master_password_hash, otp with
  | Some pw_hash, None =>
      if negb (User_check_valid_password user pw_hash) then err "Invalid password" else mret ()
  | None, Some otp => validate_protected_action_otp otp (User.uuid user) delete_if_valid
  | _, _ => err "No validation provided"
  end.

(** *** Authenticator *)

Context `{T : Totp}.

Definition time_steps : list Z := if authenticator_disable_time_drift then [0] else [-1; 0; 1].

(** The loop over the time steps: the first step whose code is the given one
    decides; [inl] is an accepted step, [inr] a step already used. *)
Fixpoint totp_search (secret : bytes) (code : string) (timestamp last_used : Z) (steps : list Z)
    : option (Z + Z) :=
  match steps with
  | [] => None
  | step :: steps =>
      let time_step := timestamp ÷ 30 + step in
      let generated := totp_custom secret (cast_unsigned64 (timestamp + step * 30)) in
      if (generated == code) && (last_used <? time_step) then Some (inl time_step)
      else if (generated == code) && (time_step <=? last_used) then Some (inr time_step)
      else totp_search secret code timestamp last_used steps
  end.

(** What a request decides once it has loaded its row: the row it will save. *)
Definition totp_decide (secret : bytes) (code : string) (tf : TwoFactor.t) : option TwoFactor.t :=
  match totp_search secret code (now / 1000000) (TwoFactor.last_used tf) time_steps with
  | Some (inl time_step) => Some (TwoFactor.set_last_used (λ _, time_step) tf)
  | _ => None
  end.

Definition totp_load (uuid user_id secret : string) (d : DB) : TwoFactor.t :=
  match TwoFactor_find_by_user_and_type user_id (TwoFactorType_as_i32 Authenticator) d with
  | Some tf => tf
  | None => TwoFactor_new uuid user_id Authenticator secret
  end.

(** [validate_totp_code]; [uuid] is the id of a row created by the call. The
    server time and the address that the message also shows are left out. *)
Definition validate_totp_code (uuid user_id totp_code secret : string) : M DB () :=
  decoded ← some_or (base32_decode secret) "Invalid TOTP secret";
  tf ← gets (totp_load uuid user_id secret);
  match totp_decide decoded totp_code tf with
  | Some tf => TwoFactor_save tf
  | None => err "Invalid TOTP code!"
  end.

(** [validate_totp_code_str]: [char::is_numeric] on ASCII text. *)
Fixpoint all_numeric (s : string) : bool :=
  match s with
  | EmptyString => true
  | String a s' => bool_decide (is_Some (digit a)) && all_numeric s'
  end.
Definition validate_totp_code_str (uuid user_id totp_code secret : string) : M DB () :=
  if negb (all_numeric totp_code) then err "TOTP code is not a number" else
  validate_totp_code uuid user_id totp_code secret.

Definition generate_recover_code (code : string) (user : User.t) : M DB () :=
  match User.totp_recover user with
  | None => ignore (User_save (User.set_totp_recover (λ _, Some code) user))
  | Some _ => mret ()
  end.
End codes.

(** ** The stored row after a save *)

Lemma TwoFactor_save_find `{Env} (t : TwoFactor.t) (d : DB) :
  has (users d) (TwoFactor.user_uuid t) = true →
  ∃ d', TwoFactor_save t d = (Ok (), d') ∧ users d' = users d
  ∧ TwoFactor_find_by_user_and_type (TwoFactor.user_uuid t) (TwoFactor.atype t) d' = Some t.
Proof.
  intros HU. unfold TwoFactor_save. rewrite run_modify. unfold save_row. simpl. rewrite HU.
  eexists. split; [done|]. split; [done|]. unfold TwoFactor_find_by_user_and_type, first.
  apply head_unique.
  - apply elem_of_where. split; [|by rewrite !bool_decide_true].
    apply elem_of_rows. exists (TwoFactor.uuid t). simpl. by rewrite lookup_insert_eq.
  - intros b [[k Hk]%elem_of_rows Hp]%elem_of_where. simpl in Hk.
    apply lookup_insert_Some in Hk as [[_ ->]|[_ Hk]]; [done|].
    apply lookup_delete_where in Hk as [_ Hk]. congruence.
Qed.

Lemma head_where_Some {A} (p : A → bool) l a : head (where_ p l) = Some a → a ∈ l ∧ p a = true.
Proof. intros Ha%head_Some_elem. by apply elem_of_where. Qed.

Section totp.
Context `{E : Env} `{T : Totp}.

Lemma totp_search_step secret code ts last steps s :
  totp_search secret code ts last steps = Some (inl s) → last < s.
Proof.
  induction steps as [|x steps IH]; [done|]. simpl.
  destruct (totp_custom _ _ == code); simpl; [|apply IH].
  destruct (Z.ltb_spec last (ts ÷ 30 + x)); [by intros [= <-]|].
  destruct (_ <=? _); [done|apply IH].
Qed.

Lemma totp_load_user uuid u secret d :
  TwoFactor.user_uuid (totp_load uuid u secret d) = u ∧ TwoFactor.atype (totp_load uuid u secret d) = 0.
Proof.
  unfold totp_load, TwoFactor_find_by_user_and_type, first.
  destruct (head _) as [tf|] eqn:Hh; [|done]. apply head_where_Some in Hh as [_ Hp]. by bools.
Qed.

(** One request: it either is refused and changes nothing, or stores a later
    time step. *)
Lemma validate_totp_code_spec uuid u code secret d :
  has (users d) u = true →
  let '(r, d') := validate_totp_code uuid u code secret d in
  users d' = users d ∧
  if is_ok r
  then TwoFactor.last_used (totp_load uuid u secret d) < TwoFactor.last_used (totp_load uuid u secret d')
  else d' = d.
Proof.
  intros HU. unfold validate_totp_code. destruct (base32_decode secret) as [key|]; [|done].
  unfold some_or. rewrite run_ret, run_gets. destruct (totp_load_user uuid u secret d) as [Hu Ht].
  unfold totp_decide. destruct (totp_search _ _ _ _ _) as [[s|s]|] eqn:Hs; [|done..].
  set (tf := TwoFactor.set_last_used _ _).
  assert (Hu' : TwoFactor.user_uuid tf = u) by done. assert (Ht' : TwoFactor.atype tf = 0) by done.
  destruct (TwoFactor_save_find tf d) as (d' & -> & HU' & Hf); [by rewrite Hu'|].
  rewrite Hu', Ht' in Hf. split; [done|]. unfold totp_load at 2. simpl TwoFactorType_as_i32. rewrite Hf.
  by apply totp_search_step in Hs.
Qed.

End totp.

Section totp_sequences.
Context `{E : Env} `{T : Totp}.

(** The same configuration at another instant. *)
Definition env_at (t : Z) : Env := set_now (λ _, t) E.

(** The time steps that a sequence of requests gets accepted with: each
    request comes at its own instant with its own code. *)
Fixpoint accepted_steps (uuid user_id secret : string) (requests : list (Z * string)) (d : DB) : list Z :=
  match requests with
  | [] => []
  | (t, code) :: requests =>
      let '(r, d') := validate_totp_code (E:=env_at t) uuid user_id code secret d in
      let rest := accepted_steps uuid user_id secret requests d' in
      if is_ok r then TwoFactor.last_used (totp_load uuid user_id secret d') :: rest else rest
  end.

End totp_sequences.

(** ** Concurrent requests

    The handler loads the row in one query and saves it in another, so two
    requests can be interleaved between them. *)
Section totp_race.
Context `{E : Env} `{T : Totp} (uuid u code secret : string).

Inductive Request := Waiting | Loaded (tf : TwoFactor.t) | Finished (r : Res ()).

(** The second half of [validate_totp_code]. *)
Definition totp_finish (tf : TwoFactor.t) : M DB () :=
  decoded ← some_or (base32_decode secret) "Invalid TOTP secret";
  match totp_decide decoded code tf with
  | Some tf => TwoFactor_save tf
  | None => err "Invalid TOTP code!"
  end.

Inductive request_step : Request * DB → Request * DB → Prop :=
| step_load d : request_step (Waiting, d) (Loaded (totp_load uuid u secret d), d)
| step_finish tf d r d' : totp_finish tf d = (r, d') → request_step (Loaded tf, d) (Finished r, d').

(** Two requests on one database. *)
Inductive system_step : Request * Request * DB → Request * Request * DB → Prop :=
| system_left p p' q d d' : request_step (p, d) (p', d') → system_step (p, q, d) (p', q, d')
| system_right p q q' d d' : request_step (q, d) (q', d') → system_step (p, q, d) (p, q', d').

(** Alone, the two halves are the handler. *)
Lemma request_alone d : validate_totp_code uuid u code secret d = totp_finish (totp_load uuid u secret d) d.
Proof. unfold validate_totp_code, totp_finish. by destruct (base32_decode secret). Qed.

Lemma totp_search_again key ts last steps s :
  totp_search key code ts last steps = Some (inl s) →
  ∀ s', totp_search key code ts s steps ≠ Some (inl s').
Proof.
  induction steps as [|x steps IH]; [done|]. simpl. intros Hs s'. revert Hs.
  destruct (totp_custom _ _ == code); simpl; [|intros Hs; by apply IH].
  destruct (Z.ltb_spec last (ts ÷ 30 + x)).
  - intros [= <-]. rewrite Z.ltb_irrefl, Z.leb_refl. done.
  - destruct (Z.leb_spec (ts ÷ 30 + x) last); [done|lia].
Qed.

(** the protection against replay is not atomic. If a code is accepted
    once, then presenting it again afterwards is refused; but two requests
    that both load the stored time step before either saves it are both
    accepted. *)
Theorem totp_replay_race (d d1 : DB) (HU : has (users d) u = true)
    (Hok : validate_totp_code uuid u code secret d = (Ok (), d1)) :
  is_ok (validate_totp_code uuid u code secret d1).1 = false
  ∧ ∃ d2, rtc system_step (Waiting, Waiting, d) (Finished (Ok ()), Finished (Ok ()), d2).
Proof.
  rewrite request_alone in Hok. rewrite request_alone.
  destruct (totp_load_user uuid u secret d) as [Hu Ht].
  unfold totp_finish in Hok |- *. destruct (base32_decode secret) as [key|] eqn:Hkey; [|done].
  unfold some_or in *. rewrite run_ret in *. unfold totp_decide in Hok.
  destruct (totp_search _ _ _ _ _) as [[s|s]|] eqn:Hs; [|done..].
  set (tf := TwoFactor.set_last_used _ _) in Hok.
  assert (Hu' : TwoFactor.user_uuid tf = u) by done. assert (Ht' : TwoFactor.atype tf = 0) by done.
  destruct (TwoFactor_save_find tf d) as (d' & Hsave & HU' & Hf); [by rewrite Hu'|].
  assert (d' = d1) as -> by congruence. split.
  - assert (totp_load uuid u secret d1 = tf) as ->.
    { rewrite Hu', Ht' in Hf. unfold totp_load. simpl TwoFactorType_as_i32. by rewrite Hf. }
    unfold totp_decide. pose proof (totp_search_again _ _ _ _ _ Hs) as Hno. simpl.
    destruct (totp_search key code _ s _) as [[s'|s']|]; [by destruct (Hno s')|done..].
  - destruct (TwoFactor_save_find tf d1) as (d2 & Hsave2 & _ & _); [by rewrite Hu', HU'|].
    assert (Hfin : ∀ d0 r d0', TwoFactor_save tf d0 = (r, d0') →
      totp_finish (totp_load uuid u secret d) d0 = (r, d0')).
    { intros d0 r d0' Hd0. unfold totp_finish. rewrite Hkey. unfold some_or. rewrite run_ret.
      unfold totp_decide. by rewrite Hs. }
    exists d2.
    eapply rtc_l; [apply system_left, step_load|]. eapply rtc_l; [apply system_right, step_load|].
    eapply rtc_l; [by eapply system_left, step_finish, Hfin|].
    by eapply rtc_once, system_right, step_finish, Hfin.
Qed.
End totp_race.

(** ** The code sent by mail *)
Section email.
Context `{E : Env} `{K : Codecs}.

(** turning e-mail 2FA on automatically leaves a window in which the empty
    code is accepted. Right after [activate_email_2fa] succeeded for a user,
    validating the empty string against the stored row succeeds, although no
    code was ever sent. *)
Theorem auto_activated_email_factor_accepts_empty_code (uuid : string) (user : User.t) (d d' : DB)
    (HU : has (users d) (User.uuid user) = true)
    (Hact : activate_email_2fa uuid user d = (Ok (), d'))
    (Hexp : 1 ≤ email_expiration_time < 2 ^ 63) :
  ∃ tf, TwoFactor_find_by_user_and_type (User.uuid user) (TwoFactorType_as_i32 Email) d' = Some tf
  ∧ ∃ d'', validate_email_code_str (User.uuid user) "" (TwoFactor.data tf) d' = (Ok (), d'').
Proof.
  unfold activate_email_2fa in Hact. destruct (User.verified_at user); [|done].
  set (tf := TwoFactor_new uuid (User.uuid user) Email _) in Hact.
  destruct (TwoFactor_save_find tf d) as (d1 & Hs & HU1 & Hf); [done|].
  assert (d1 = d') as -> by congruence. exists tf. split; [done|].
  unfold validate_email_code_str, EmailTokenData_from_json. simpl TwoFactor.data.
  rewrite email_roundtrip. unfold some_or. rewrite run_ret, run_gets.
  change (TwoFactor_find_by_user_and_type (User.uuid user) (TwoFactorType_as_i32 Email) d' = Some tf) in Hf.
  rewrite Hf, run_ret. cbn [EmailTokenData_new EmailTokenData.last_token]. unfold ct_eq.
  rewrite bool_decide_true by done. cbn [negb].
  lazymatch goal with |- context [TwoFactor_save ?t] =>
    destruct (TwoFactor_save_find t d') as (d2 & Hs2 & _ & _); [simpl; by rewrite HU1|] end.
  eexists. rewrite (run_bind_Ok _ _ _ _ _ Hs2). cbn [EmailTokenData_new EmailTokenData_reset_token EmailTokenData.token_sent].
  assert ((now / 1000000 + cast_signed email_expiration_time) * 1000000 <? now = false) as ->; [|done].
  unfold cast_signed. rewrite (proj2 (Z.ltb_lt email_expiration_time (2 ^ 63))) by lia. apply Z.ltb_ge.
  pose proof (Z.div_mod now 1000000). pose proof (Z.mod_pos_bound now 1000000). lia.
Qed.

(** One login attempt with an e-mail code: the caller passes the data of the
    row it has loaded. *)
Definition try_code (u code : string) : M DB () :=
  o ← gets (TwoFactor_find_by_user_and_type u (TwoFactorType_as_i32 Email));
  tf ← some_or o "Two factor not found";
  validate_email_code_str u code (TwoFactor.data tf).

(** The e-mail factor of [u] that is stored, decoded. *)
Definition stored_factor (u : string) (d : DB) (e : EmailTokenData.t) : Prop :=
  has (users d) u = true ∧
  ∃ tf, TwoFactor_find_by_user_and_type u (TwoFactorType_as_i32 Email) d = Some tf
    ∧ TwoFactor.data tf = email_to_json e.

Lemma stored_factor_save u d tf e :
  has (users d) u = true → TwoFactor_find_by_user_and_type u (TwoFactorType_as_i32 Email) d = Some tf →
  ∃ d', TwoFactor_save (TwoFactor.set_data (λ _, email_to_json e) tf) d = (Ok (), d')
  ∧ stored_factor u d' e.
Proof.
  intros HU Hf. assert (Hf' := Hf). apply head_where_Some in Hf' as [_ Hp]. bools.
  set (tf' := TwoFactor.set_data _ tf).
  assert (Hu : TwoFactor.user_uuid tf' = u) by done.
  assert (Ht : TwoFactor.atype tf' = TwoFactorType_as_i32 Email) by done.
  destruct (TwoFactor_save_find tf' d) as (d' & Hs & HU' & Hfind); [by rewrite Hu|].
  rewrite Hu, Ht in Hfind. exists d'. split; [done|]. split; [by rewrite HU'|]. by exists tf'.
Qed.

Lemma try_code_none u code d e :
  stored_factor u d e → EmailTokenData.last_token e = None → ∃ m, try_code u code d = (Err m, d).
Proof.
  intros (HU & tf & Hf & Hd) Hn. unfold try_code. rewrite run_gets, Hf. unfold some_or at 1. rewrite run_ret.
  unfold validate_email_code_str, EmailTokenData_from_json. rewrite Hd, email_roundtrip. unfold some_or.
  rewrite run_ret, run_gets, Hf, run_ret, Hn. by eexists.
Qed.

Lemma try_code_wrong u code t d e :
  stored_factor u d e → EmailTokenData.last_token e = Some t → code ≠ t →
  0 ≤ EmailTokenData.attempts e < u64_max →
  ∃ m d' e', try_code u code d = (Err m, d') ∧ stored_factor u d' e'
  ∧ if email_attempts_limit <=? EmailTokenData.attempts e + 1 then EmailTokenData.last_token e' = None
    else EmailTokenData.last_token e' = Some t ∧ EmailTokenData.attempts e' = EmailTokenData.attempts e + 1.
Proof.
  intros (HU & tf & Hf & Hd) Ht Hne Ha. unfold try_code. rewrite run_gets, Hf. unfold some_or at 1. rewrite run_ret.
  unfold validate_email_code_str, EmailTokenData_from_json. rewrite Hd, email_roundtrip. unfold some_or.
  rewrite run_ret, run_gets, Hf, run_ret, Ht. unfold ct_eq. rewrite bool_decide_false by congruence. cbn [negb].
  lazymatch goal with |- context [TwoFactor_save (TwoFactor.set_data (λ _, email_to_json ?e1) tf)] =>
    destruct (stored_factor_save u d tf e1) as (d' & Hs & Hst); [done..|];
    eexists _, d', e1; rewrite (run_bind_Ok _ _ _ _ _ Hs) end.
  split; [done|]. split; [done|].
  unfold EmailTokenData_reset_token, EmailTokenData_add_attempt, saturating_succ. simpl.
  rewrite Z.min_r by lia. destruct (email_attempts_limit <=? EmailTokenData.attempts e + 1); simpl; auto.
Qed.

Lemma wrong_codes_block u t codes d e :
  stored_factor u d e → Forall (λ c, c ≠ t) codes → email_attempts_limit ≤ u64_max →
  (EmailTokenData.last_token e = None
   ∨ EmailTokenData.last_token e = Some t ∧ 0 ≤ EmailTokenData.attempts e < email_attempts_limit
     ∧ email_attempts_limit ≤ EmailTokenData.attempts e + Z.of_nat (length codes)) →
  ∃ e', stored_factor u (foldl (λ d c, (try_code u c d).2) d codes) e' ∧ EmailTokenData.last_token e' = None.
Proof.
  intros Hst Hall Hlim. revert d e Hst. induction Hall as [|c codes Hc Hall IH]; intros d e Hst He; simpl.
  { exists e. split; [done|]. simpl in He. destruct He as [?|(_ & ? & ?)]; [done|lia]. }
  destruct He as [Hn|(Ht & Ha & Hl)].
  - destruct (try_code_none u c d e Hst Hn) as [m Hm]. rewrite Hm. eapply IH; [exact Hst|by left].
  - destruct (try_code_wrong u c t d e Hst Ht Hc) as (m & d' & e' & Hm & Hst' & He'); [lia|].
    rewrite Hm. simpl. eapply IH; [exact Hst'|].
    destruct (Z.leb_spec email_attempts_limit (EmailTokenData.attempts e + 1)); [by left|].
    right. destruct He' as [Ht' Ha']. simpl in Hl. split_and!; [done|lia..].
Qed.

(** guessing an e-mail code is bounded. After as many wrong codes as the
    configured limit, the issued code itself is refused, and so is any other,
    until a new one is sent. *)
Theorem email_code_guesses_bounded (u t : string) (codes : list string) (code : string) (d : DB)
    (e : EmailTokenData.t) (Hst : stored_factor u d e)
    (Ht : EmailTokenData.last_token e = Some t) (Ha : EmailTokenData.attempts e = 0)
    (Hlim : 1 ≤ email_attempts_limit ≤ u64_max) (Hwrong : Forall (λ c, c ≠ t) codes)
    (Hmany : email_attempts_limit ≤ Z.of_nat (length codes)) :
  is_ok (try_code u code (foldl (λ d c, (try_code u c d).2) d codes)).1 = false.
Proof.
  destruct (wrong_codes_block u t codes d e Hst Hwrong) as (e' & Hst' & Hn); [lia| |].
  { right. split_and!; [done|lia..]. }
  by destruct (try_code_none u code _ e' Hst' Hn) as [m ->].
Qed.
End email.

(** ** On the sample deployment *)

(** An encoding that satisfies the laws of [Codecs]. *)
Module SampleCodecs.
Fixpoint bits (p : positive) : string :=
  match p with
  | xH => EmptyString
  | xO p => String Ascii.zero (bits p)
  | xI p => String Ascii.one (bits p)
  end.
Fixpoint unbits (s : string) : positive :=
  match s with
  | EmptyString => xH
  | String c s => if c == Ascii.zero then xO (unbits s) else xI (unbits s)
  end.
Lemma unbits_bits p : unbits (bits p) = p.
Proof. induction p as [p IH|p IH|]; simpl; by rewrite ?IH. Qed.

Definition email_fields (e : EmailTokenData.t) : string * option string * Z * Z :=
  (EmailTokenData.email e, EmailTokenData.last_token e, EmailTokenData.token_sent e, EmailTokenData.attempts e).
Definition email_build (f : string * option string * Z * Z) : EmailTokenData.t :=
  let '(a, b, c, d) := f in EmailTokenData.mk a b c d.

#[refine] Instance codecs : Codecs := {|
  email_to_json e := bits (encode (email_fields e));
  email_from_json s := email_build <$> decode (unbits s);
  action_to_json p := bits (encode (ProtectedActionData.token p,
    ProtectedActionData.token_sent p / 1000000, ProtectedActionData.attempts p));
  action_from_json s := (λ '(t, n, a), ProtectedActionData.mk t (n * 1000000) a) <$>
    decode (A:=string * Z * Z) (unbits s);
|}.
Proof.
  - intros []. by rewrite unbits_bits, decode_encode.
  - intros. by rewrite unbits_bits, decode_encode.
Defined.

(** One code for the time step of the sample clock, another for all others. *)
Instance totp : Totp := {|
  totp_custom _ time := if time ÷ 30 =? 33 then "111111" else "000000";
  base32_decode _ := Some [];
|}.
End SampleCodecs.


(** In that run the first and the third request are accepted. *)
Example accepted_steps_sample :
  accepted_steps (E:=Sample.env) (T:=SampleCodecs.totp) "tf" "bob" "SECRET"
    [(1000000000, "111111"); (1000000000, "111111"); (1100000000, "000000")] Sample.db = [33; 35].
Proof. vm_compute. reflexivity. Qed.

Lemma totp_replay_race_witness :
  let d1 := (validate_totp_code (E:=Sample.env) (T:=SampleCodecs.totp) "tf" "bob" "111111" "SECRET" Sample.db).2 in
  is_ok (validate_totp_code (E:=Sample.env) (T:=SampleCodecs.totp) "tf" "bob" "111111" "SECRET" d1).1 = false
  ∧ ∃ d2, rtc (system_step (E:=Sample.env) (T:=SampleCodecs.totp) "tf" "bob" "111111" "SECRET")
      (Waiting, Waiting, Sample.db) (Finished (Ok ()), Finished (Ok ()), d2).
Proof.
  apply (totp_replay_race (E:=Sample.env) (T:=SampleCodecs.totp) "tf" "bob" "111111" "SECRET" Sample.db).
  - reflexivity.
  - reflexivity.
Defined.

Definition verified_bob : User.t := User.set_verified_at (λ _, Some 0) (Sample.user Sample.env "bob" "b@x").

Lemma auto_activated_email_factor_accepts_empty_code_witness :
  let d' := (activate_email_2fa (E:=Sample.env) (K:=SampleCodecs.codecs) "tf" verified_bob Sample.db).2 in
  ∃ tf, TwoFactor_find_by_user_and_type "bob" (TwoFactorType_as_i32 Email) d' = Some tf
  ∧ ∃ d'', validate_email_code_str (E:=Sample.env) (K:=SampleCodecs.codecs) "bob" "" (TwoFactor.data tf) d' = (Ok (), d'').
Proof.
  apply (auto_activated_email_factor_accepts_empty_code (E:=Sample.env) (K:=SampleCodecs.codecs) "tf" verified_bob Sample.db).
  - reflexivity.
  - reflexivity.
  - simpl. lia.
Defined.

Definition mailed_factor : EmailTokenData.t := EmailTokenData.mk "b@x" (Some "424242") 900 0.
Definition mailed_db : DB :=
  set_twofactor (λ _, {[ "tf" := TwoFactor.mk "tf" "bob" 1 true
    (email_to_json (Codecs:=SampleCodecs.codecs) mailed_factor) 0 ]}) Sample.db.

Lemma email_code_guesses_bounded_witness :
  is_ok (try_code (E:=Sample.env) (K:=SampleCodecs.codecs) "bob" "424242"
    (foldl (λ d c, (try_code (E:=Sample.env) (K:=SampleCodecs.codecs) "bob" c d).2) mailed_db ["1"; "2"; "3"])).1 = false.
Proof.
  apply (email_code_guesses_bounded (E:=Sample.env) (K:=SampleCodecs.codecs) "bob" "424242" ["1"; "2"; "3"] "424242"
    mailed_db mailed_factor).
  - split; [reflexivity|]. eexists. split; reflexivity.
  - reflexivity.
  - reflexivity.
  - unfold u64_max. simpl. lia.
  - repeat constructor; discriminate.
  - simpl. lia.
Defined.
