(* ===== verification/Memberships.v ===== *)
(** Members of organizations: the queries on [users_organizations].

    Models the database methods of [Membership] in
    src/src/db/models/organization.rs that look members up, count them, save
    them and decide which members a cipher or a collection is shared with. *)
From S2P Require Import Prelude Schema Roles Users.
Local Open Scope Z_scope.

Section memberships.
Context `{E : Env}.

Notation members d := (rows (users_organizations d)).

(** [Membership::save]: UNIQUE (user, org), and both sides must exist. *)
Definition Membership_save (m : Membership.t) : M DB () :=
  User_update_uuid_revision (Membership.user_uuid m) ;;
  save_row
    (λ d, has (users d) (Membership.user_uuid m) && has (organizations d) (Membership.org_uuid m)
          && negb (nonempty (where_ (λ r,
               (Membership.user_uuid r == Membership.user_uuid m)
               && (Membership.org_uuid r == Membership.org_uuid m)
               && negb (Membership.uuid r == Membership.uuid m)) (members d))))
    (set_users_organizations <[Membership.uuid m := m]>)
    "Error adding user to organization".

Definition Membership_find_by_uuid (uuid : string) (d : DB) : option Membership.t :=
  first (where_ (λ m, Membership.uuid m == uuid) (members d)).

Definition Membership_find_by_uuid_and_org (uuid org_uuid : string) (d : DB) : option Membership.t :=
  first (where_ (λ m, (Membership.uuid m == uuid) && (Membership.org_uuid m == org_uuid)) (members d)).

Definition Membership_find_confirmed_by_user (user_uuid : string) (d : DB) : list Membership.t :=
  where_ (λ m, (Membership.user_uuid m == user_uuid)
               && (Membership.status m == MembershipStatus_as_i32 Confirmed)) (members d).

Definition Membership_find_invited_by_user (user_uuid : string) (d : DB) : list Membership.t :=
  where_ (λ m, (Membership.user_uuid m == user_uuid)
               && (Membership.status m == MembershipStatus_as_i32 Invited)) (members d).

(** [accept_user_invitations]: one UPDATE over the user's invited rows. *)
Definition Membership_accept_user_invitations (user_uuid : string) : M DB () :=
  modify (set_users_organizations (update_where
    (λ m, (Membership.user_uuid m == user_uuid)
          && (Membership.status m == MembershipStatus_as_i32 Invited))
    (Membership.set_status (λ _, MembershipStatus_as_i32 Accepted)))).

Definition Membership_find_any_state_by_user (user_uuid : string) (d : DB) : list Membership.t :=
  where_ (λ m, Membership.user_uuid m == user_uuid) (members d).

Definition Membership_count_accepted_and_confirmed_by_user (user_uuid excluded_org : string) (d : DB) : Z :=
  count (where_ (λ m, (Membership.user_uuid m == user_uuid)
                      && negb (Membership.org_uuid m == excluded_org)
                      && ((Membership.status m == MembershipStatus_as_i32 Accepted)
                          || (Membership.status m == MembershipStatus_as_i32 Confirmed)))
           (members d)).

Definition Membership_find_by_org (org_uuid : string) (d : DB) : list Membership.t :=
  where_ (λ m, Membership.org_uuid m == org_uuid) (members d).

Definition Membership_find_confirmed_by_org (org_uuid : string) (d : DB) : list Membership.t :=
  where_ (λ m, (Membership.org_uuid m == org_uuid)
               && (Membership.status m == MembershipStatus_as_i32 Confirmed)) (members d).

Definition Membership_find_confirmed_and_manage_all_by_org (org_uuid : string) (d : DB)
    : list Membership.t :=
  where_ (λ m, (Membership.org_uuid m == org_uuid)
               && (Membership.status m == MembershipStatus_as_i32 Confirmed)
               && (bool_decide (Membership.atype m ∈
                     [MembershipType_as_i32 Owner; MembershipType_as_i32 Admin])
                   || ((Membership.atype m == MembershipType_as_i32 Manager)
                       && (Membership.access_all m == true)))) (members d).

Definition Membership_count_by_org (org_uuid : string) (d : DB) : Z :=
  count (where_ (λ m, Membership.org_uuid m == org_uuid) (members d)).

Definition Membership_find_by_org_and_type (org_uuid : string) (t : MembershipType) (d : DB)
    : list Membership.t :=
  where_ (λ m, (Membership.org_uuid m == org_uuid)
               && (Membership.atype m == MembershipType_as_i32 t)) (members d).

Definition Membership_count_confirmed_by_org_and_type (org_uuid : string) (t : MembershipType) (d : DB) : Z :=
  count (where_ (λ m, (Membership.org_uuid m == org_uuid)
                      && (Membership.atype m == MembershipType_as_i32 t)
                      && (Membership.status m == MembershipStatus_as_i32 Confirmed)) (members d)).

Definition Membership_find_by_user_and_org (user_uuid org_uuid : string) (d : DB) : option Membership.t :=
  first (where_ (λ m, (Membership.user_uuid m == user_uuid) && (Membership.org_uuid m == org_uuid))
           (members d)).

Definition Membership_find_confirmed_by_user_and_org (user_uuid org_uuid : string) (d : DB)
    : option Membership.t :=
  first (where_ (λ m, (Membership.user_uuid m == user_uuid) && (Membership.org_uuid m == org_uuid)
                      && (Membership.status m == MembershipStatus_as_i32 Confirmed)) (members d)).

Definition Membership_find_by_user (user_uuid : string) (d : DB) : list Membership.t :=
  where_ (λ m, Membership.user_uuid m == user_uuid) (members d).

Definition Membership_get_orgs_by_user (user_uuid : string) (d : DB) : list string :=
  Membership.org_uuid <$> where_ (λ m, Membership.user_uuid m == user_uuid) (members d).

Definition Membership_find_by_email_and_org (email org_uuid : string) (d : DB) : option Membership.t :=
  match User_find_by_mail email d with
  | Some user => Membership_find_by_user_and_org (User.uuid user) org_uuid d
  | None => None
  end.

(** [find_by_user_and_policy]: [policy_type as i32] is [ptype]. *)
Definition Membership_find_by_user_and_policy (user_uuid : string) (ptype : Z) (d : DB)
    : list Membership.t :=
  fst <$> where_ (λ '(m, _), Membership.status m == MembershipStatus_as_i32 Confirmed)
    (inner_join (members d) (rows (org_policies d)) (λ m p,
       (OrgPolicy.org_uuid p == Membership.org_uuid m)
       && (Membership.user_uuid m == user_uuid)
       && (OrgPolicy.atype p == ptype)
       && (OrgPolicy.enabled p == true))).

(** [find_by_cipher_and_org]: the members a cipher is shared with directly. *)
Definition Membership_find_by_cipher_and_org (cipher_uuid org_uuid : string) (d : DB)
    : list Membership.t :=
  remove_dups ((λ r, r.1.1) <$>
    where_ (λ '(m, _, occ),
              (Membership.access_all m == true)
              || nn occ (λ cc, CollectionCipher.cipher_uuid cc == cipher_uuid))
      (left_join
        (left_join (where_ (λ m, Membership.org_uuid m == org_uuid) (members d))
           (rows (users_collections d)) (λ m cu, CollectionUser.user_uuid cu == Membership.user_uuid m))
        (rows (ciphers_collections d)) (λ '(_, ocu) cc,
           nn ocu (λ cu, CollectionCipher.collection_uuid cc == CollectionUser.collection_uuid cu)
           && (CollectionCipher.cipher_uuid cc == cipher_uuid)))).

(** [find_by_cipher_and_org_with_group]: the members it is shared with through
    a group. *)
Definition Membership_find_by_cipher_and_org_with_group (cipher_uuid org_uuid : string) (d : DB)
    : list Membership.t :=
  remove_dups ((λ r, r.1.1.1.1) <$>
    where_ (λ '(_, _, _, og, occ),
              nn og (λ g, Group.access_all g == true)
              || nn occ (λ cc, CollectionCipher.cipher_uuid cc == cipher_uuid))
      (left_join
        (left_join
          (left_join
            (inner_join (where_ (λ m, Membership.org_uuid m == org_uuid) (members d))
               (rows (groups_users d))
               (λ m gu, GroupUser.users_organizations_uuid gu == Membership.uuid m))
            (rows (collections_groups d)) (λ '(_, gu) cg,
               CollectionGroup.groups_uuid cg == GroupUser.groups_uuid gu))
          (rows (groups d)) (λ '(m, gu, _) g,
             (Group.uuid g == GroupUser.groups_uuid gu)
             && (Group.organizations_uuid g == Membership.org_uuid m)))
        (rows (ciphers_collections d)) (λ '(_, _, ocg, _) cc,
           nn ocg (λ cg, CollectionCipher.collection_uuid cc == CollectionGroup.collections_uuid cg)
           && (CollectionCipher.cipher_uuid cc == cipher_uuid)))).

Definition Membership_user_has_ge_admin_access_to_cipher (user_uuid cipher_uuid : string) (d : DB) : bool :=
  nonempty (where_ (λ '(m, _),
      (Membership.user_uuid m == user_uuid)
      && bool_decide (Membership.atype m ∈
           [MembershipType_as_i32 Owner; MembershipType_as_i32 Admin]))
    (inner_join (members d) (rows (ciphers d)) (λ m c,
       (Cipher.uuid c == cipher_uuid)
       && (Cipher.organization_uuid c == Some (Membership.org_uuid m))))).

(** [find_by_collection_and_org]: one row per grant of the collection, so a
    member may be returned more than once. *)
Definition Membership_find_by_collection_and_org (collection_uuid org_uuid : string) (d : DB)
    : list Membership.t :=
  fst <$> where_ (λ '(m, ocu),
      (Membership.access_all m == true)
      || nn ocu (λ cu, CollectionUser.collection_uuid cu == collection_uuid))
    (left_join (where_ (λ m, Membership.org_uuid m == org_uuid) (members d))
       (rows (users_collections d)) (λ m cu, CollectionUser.user_uuid cu == Membership.user_uuid m)).

Definition Membership_find_by_external_id_and_org (ext_id org_uuid : string) (d : DB)
    : option Membership.t :=
  first (where_ (λ m, (Membership.external_id m == Some ext_id)
                      && (Membership.org_uuid m == org_uuid)) (members d)).
End memberships.

Lemma find_confirmed_Some d u o m :
  wf d →
  Membership_find_confirmed_by_user_and_org u o d = Some m ↔
  m ∈ rows (users_organizations d) ∧ Membership.user_uuid m = u
  ∧ Membership.org_uuid m = o ∧ Membership.status m = 2.
Proof.
  intros Hwf. unfold Membership_find_confirmed_by_user_and_org, first. split.
  - intros [Hin Hp]%head_Some_elem%elem_of_where. bools. done.
  - intros (Hin & Hu & Ho & Hs). apply head_unique.
    + apply elem_of_where. split; [done|]. by rewrite !bool_decide_true.
    + intros m' [Hin' Hp]%elem_of_where. bools.
      eapply wf_member_unique; eauto; congruence.
Qed.
