(* ===== verification/Groups.v ===== *)
(** Groups of members and their grants on collections.

    Models src/src/db/models/group.rs: [Group], [CollectionGroup] and
    [GroupUser] with their queries, saves and deletions, and the revision dates
    of the affected members that each change bumps. *)
From S2P Require Import Prelude Schema Roles Users Memberships.

Section groups.
Context `{E : Env}.

Notation members d := (rows (users_organizations d)).

(** *** Local methods *)

Definition Group_set_external_id (trim : string → string) (external_id : option string) (g : Group.t)
    : Group.t :=
  Group.set_external_id (λ _, match external_id with
                              | Some e => if trim e == "" then None else Some e
                              | None => None
                              end) g.

Definition Group_new (trim : string → string) (uuid : string) (organizations_uuid name : string)
    (access_all : bool) (external_id : option string) : Group.t :=
  Group_set_external_id trim external_id
    {| Group.uuid := uuid; Group.organizations_uuid := organizations_uuid; Group.name := name;
       Group.access_all := access_all; Group.external_id := None;
       Group.creation_date := now; Group.revision_date := now |}.

Definition CollectionGroup_new (collections_uuid groups_uuid : string) (read_only hide_passwords manage : bool)
    : CollectionGroup.t :=
  {| CollectionGroup.collections_uuid := collections_uuid; CollectionGroup.groups_uuid := groups_uuid;
     CollectionGroup.read_only := read_only; CollectionGroup.hide_passwords := hide_passwords;
     CollectionGroup.manage := manage |}.

Definition GroupUser_new (groups_uuid users_organizations_uuid : string) : GroupUser.t :=
  {| GroupUser.groups_uuid := groups_uuid;
     GroupUser.users_organizations_uuid := users_organizations_uuid |}.

(** The [manage] flag of [to_json_details_for_group]. *)
Definition CollectionGroup_shown_manage (cg : CollectionGroup.t) : bool :=
  CollectionGroup.manage cg
  || (negb (CollectionGroup.read_only cg) && negb (CollectionGroup.hide_passwords cg)).

(** *** [GroupUser] queries *)

Definition GroupUser_find_by_group (group_uuid org_uuid : string) (d : DB) : list GroupUser.t :=
  (λ r, r.1.1) <$> where_ (λ '(gu, g, _),
      (GroupUser.groups_uuid gu == group_uuid) && (Group.organizations_uuid g == org_uuid))
    (inner_join
      (inner_join (rows (groups_users d)) (rows (groups d))
         (λ gu g, Group.uuid g == GroupUser.groups_uuid gu))
      (members d) (λ '(gu, g) m,
         (Membership.uuid m == GroupUser.users_organizations_uuid gu)
         && (Membership.org_uuid m == Group.organizations_uuid g))).

Definition GroupUser_find_by_member (member_uuid : string) (d : DB) : list GroupUser.t :=
  where_ (λ gu, GroupUser.users_organizations_uuid gu == member_uuid) (rows (groups_users d)).

Definition GroupUser_has_access_to_collection_by_member (collection_uuid member_uuid : string) (d : DB)
    : bool :=
  nonempty (where_ (λ '(gu, cg, _, _),
      (CollectionGroup.collections_uuid cg == collection_uuid)
      && (GroupUser.users_organizations_uuid gu == member_uuid))
    (inner_join
      (inner_join
        (inner_join (rows (groups_users d)) (rows (collections_groups d))
           (λ gu cg, CollectionGroup.groups_uuid cg == GroupUser.groups_uuid gu))
        (rows (groups d)) (λ '(gu, _) g, Group.uuid g == GroupUser.groups_uuid gu))
      (rows (collections d)) (λ '(_, cg, g) c,
         (Collection.uuid c == CollectionGroup.collections_uuid cg)
         && (Collection.org_uuid c == Group.organizations_uuid g)))).

Definition GroupUser_has_full_access_by_member (org_uuid member_uuid : string) (d : DB) : bool :=
  nonempty (where_ (λ '(gu, g),
      (Group.organizations_uuid g == org_uuid)
      && (Group.access_all g == true)
      && (GroupUser.users_organizations_uuid gu == member_uuid))
    (inner_join (rows (groups_users d)) (rows (groups d))
       (λ gu g, Group.uuid g == GroupUser.groups_uuid gu))).

(** [update_user_revision]: a missing member is only logged. *)
Definition GroupUser_update_user_revision (gu : GroupUser.t) : M DB () :=
  o ← gets (Membership_find_by_uuid (GroupUser.users_organizations_uuid gu));
  match o with
  | Some member => User_update_uuid_revision (Membership.user_uuid member)
  | None => mret ()
  end.

(** The loop shared by the operations that change a group's grants. *)
Definition touch_group_users (group_uuid org_uuid : string) : M DB () :=
  group_users ← gets (GroupUser_find_by_group group_uuid org_uuid);
  for_each group_users GroupUser_update_user_revision.

(** *** [GroupUser] updates *)

Definition group_user_key (gu : GroupUser.t) : string * string :=
  (GroupUser.groups_uuid gu, GroupUser.users_organizations_uuid gu).

Definition GroupUser_save (gu : GroupUser.t) : M DB () :=
  GroupUser_update_user_revision gu ;;
  save_row (λ d, has (groups d) (GroupUser.groups_uuid gu)
                 && has (users_organizations d) (GroupUser.users_organizations_uuid gu))
    (set_groups_users <[group_user_key gu := gu]>) "Error adding user to group".

Definition touch_member (member_uuid : string) : M DB () :=
  o ← gets (Membership_find_by_uuid member_uuid);
  match o with
  | Some member => User_update_uuid_revision (Membership.user_uuid member)
  | None => mret ()
  end.

Definition GroupUser_delete_by_group_and_member (group_uuid member_uuid : string) : M DB () :=
  touch_member member_uuid ;;
  modify (set_groups_users (delete_where (λ gu,
    (GroupUser.groups_uuid gu == group_uuid)
    && (GroupUser.users_organizations_uuid gu == member_uuid)))).

Definition GroupUser_delete_all_by_group (group_uuid org_uuid : string) : M DB () :=
  touch_group_users group_uuid org_uuid ;;
  modify (set_groups_users (delete_where (λ gu, GroupUser.groups_uuid gu == group_uuid))).

Definition GroupUser_delete_all_by_member (member_uuid : string) : M DB () :=
  touch_member member_uuid ;;
  modify (set_groups_users (delete_where (λ gu,
    GroupUser.users_organizations_uuid gu == member_uuid))).

(** *** [CollectionGroup] *)

Definition collection_group_key (cg : CollectionGroup.t) : string * string :=
  (CollectionGroup.collections_uuid cg, CollectionGroup.groups_uuid cg).

Definition CollectionGroup_save (org_uuid : string) (cg : CollectionGroup.t) : M DB () :=
  touch_group_users (CollectionGroup.groups_uuid cg) org_uuid ;;
  save_row (λ d, has (collections d) (CollectionGroup.collections_uuid cg)
                 && has (groups d) (CollectionGroup.groups_uuid cg))
    (set_collections_groups <[collection_group_key cg := cg]>) "Error adding group to collection".

Definition CollectionGroup_find_by_group (group_uuid org_uuid : string) (d : DB) : list CollectionGroup.t :=
  (λ r, r.1.1) <$> where_ (λ '(cg, _, c),
      (CollectionGroup.groups_uuid cg == group_uuid) && (Collection.org_uuid c == org_uuid))
    (inner_join
      (inner_join (rows (collections_groups d)) (rows (groups d))
         (λ cg g, Group.uuid g == CollectionGroup.groups_uuid cg))
      (rows (collections d)) (λ '(cg, g) c,
         (Collection.uuid c == CollectionGroup.collections_uuid cg)
         && (Collection.org_uuid c == Group.organizations_uuid g))).

Definition CollectionGroup_find_by_user (user_uuid : string) (d : DB) : list CollectionGroup.t :=
  (λ r, r.1.1.1.1) <$> where_ (λ '(_, _, m, _, _), Membership.user_uuid m == user_uuid)
    (inner_join
      (inner_join
        (inner_join
          (inner_join (rows (collections_groups d)) (rows (groups_users d))
             (λ cg gu, GroupUser.groups_uuid gu == CollectionGroup.groups_uuid cg))
          (members d) (λ '(_, gu) m, Membership.uuid m == GroupUser.users_organizations_uuid gu))
        (rows (groups d)) (λ '(cg, _, m) g,
           (Group.uuid g == CollectionGroup.groups_uuid cg)
           && (Group.organizations_uuid g == Membership.org_uuid m)))
      (rows (collections d)) (λ '(cg, _, _, g) c,
         (Collection.uuid c == CollectionGroup.collections_uuid cg)
         && (Collection.org_uuid c == Group.organizations_uuid g))).

Definition CollectionGroup_find_by_collection (collection_uuid : string) (d : DB)
    : list CollectionGroup.t :=
  (λ r, r.1.1) <$>
    (inner_join
      (inner_join
        (where_ (λ cg, CollectionGroup.collections_uuid cg == collection_uuid)
           (rows (collections_groups d)))
        (rows (collections d)) (λ cg c, Collection.uuid c == CollectionGroup.collections_uuid cg))
      (rows (groups d)) (λ '(cg, c) g,
         (Group.uuid g == CollectionGroup.groups_uuid cg)
         && (Group.organizations_uuid g == Collection.org_uuid c))).

Definition CollectionGroup_delete (org_uuid : string) (cg : CollectionGroup.t) : M DB () :=
  touch_group_users (CollectionGroup.groups_uuid cg) org_uuid ;;
  modify (set_collections_groups (delete_where (λ r,
    (CollectionGroup.collections_uuid r == CollectionGroup.collections_uuid cg)
    && (CollectionGroup.groups_uuid r == CollectionGroup.groups_uuid cg)))).

Definition CollectionGroup_delete_all_by_group (group_uuid org_uuid : string) : M DB () :=
  touch_group_users group_uuid org_uuid ;;
  modify (set_collections_groups (delete_where (λ cg, CollectionGroup.groups_uuid cg == group_uuid))).

Definition CollectionGroup_delete_all_by_collection (collection_uuid org_uuid : string) : M DB () :=
  assigned ← gets (CollectionGroup_find_by_collection collection_uuid);
  for_each assigned (λ cg, touch_group_users (CollectionGroup.groups_uuid cg) org_uuid) ;;
  modify (set_collections_groups (delete_where (λ cg,
    CollectionGroup.collections_uuid cg == collection_uuid))).

(** *** [Group] *)

Definition Group_save (g : Group.t) : M DB Group.t :=
  let g := Group.set_revision_date (λ _, now) g in
  save_row (λ d, has (organizations d) (Group.organizations_uuid g))
    (set_groups <[Group.uuid g := g]>) "Error saving group" ;;
  mret g.

Definition Group_find_by_organization (org_uuid : string) (d : DB) : list Group.t :=
  where_ (λ g, Group.organizations_uuid g == org_uuid) (rows (groups d)).

Definition Group_find_by_uuid_and_org (uuid org_uuid : string) (d : DB) : option Group.t :=
  first (where_ (λ g, (Group.uuid g == uuid) && (Group.organizations_uuid g == org_uuid))
           (rows (groups d))).

Definition Group_find_by_external_id_and_org (external_id org_uuid : string) (d : DB) : option Group.t :=
  first (where_ (λ g, (Group.external_id g == Some external_id)
                      && (Group.organizations_uuid g == org_uuid)) (rows (groups d))).

Definition Group_get_orgs_by_user_with_full_access (user_uuid : string) (d : DB) : list string :=
  remove_dups ((λ r, Group.organizations_uuid r.2) <$>
    where_ (λ '(_, m, g), (Membership.user_uuid m == user_uuid) && (Group.access_all g == true))
      (inner_join
        (inner_join (rows (groups_users d)) (members d)
           (λ gu m, Membership.uuid m == GroupUser.users_organizations_uuid gu))
        (rows (groups d)) (λ '(gu, m) g,
           (Group.uuid g == GroupUser.groups_uuid gu)
           && (Group.organizations_uuid g == Membership.org_uuid m)))).

(** [is_in_full_access_group]: [.first::<bool>().unwrap_or_default()]. *)
Definition Group_is_in_full_access_group (user_uuid org_uuid : string) (d : DB) : bool :=
  default false (first ((λ r, Group.access_all r.1.1) <$>
    where_ (λ '(g, _, m),
        (Membership.user_uuid m == user_uuid)
        && (Group.organizations_uuid g == org_uuid)
        && (Group.access_all g == true))
      (inner_join
        (inner_join (rows (groups d)) (rows (groups_users d))
           (λ g gu, GroupUser.groups_uuid gu == Group.uuid g))
        (members d) (λ '(g, gu) m,
           (Membership.uuid m == GroupUser.users_organizations_uuid gu)
           && (Membership.org_uuid m == Group.organizations_uuid g))))).

Definition Group_delete (org_uuid : string) (g : Group.t) : M DB () :=
  CollectionGroup_delete_all_by_group (Group.uuid g) org_uuid ;;
  GroupUser_delete_all_by_group (Group.uuid g) org_uuid ;;
  delete_row (group_referenced (Group.uuid g))
    (set_groups (delete_where (λ r, Group.uuid r == Group.uuid g))) "Error deleting group".

Definition Group_delete_all_by_organization (org_uuid : string) : M DB () :=
  gs ← gets (Group_find_by_organization org_uuid);
  for_each gs (Group_delete org_uuid).

Definition Group_update_revision (uuid : string) : M DB () :=
  modify (set_groups (update_where (λ g, Group.uuid g == uuid) (Group.set_revision_date (λ _, now)))).
End groups.
