(* ===== verification/Collections.v ===== *)
(** Collections and the access of a user to one.

    Models src/src/db/models/collection.rs: [Collection], [CollectionUser] and
    [CollectionCipher] with their queries, saves and deletions. The access
    queries are one chain of outer joins that follows every way a user can reach
    a collection: a direct grant, membership with access to everything, a group
    with access to everything, a group with a grant. *)
From S2P Require Import Prelude Schema Roles Users Memberships Groups.
Local Open Scope Z_scope.

Section collections.
Context `{E : Env}.

Notation members d := (rows (users_organizations d)).

(** *** Local methods *)

Definition Collection_set_external_id (external_id : option string) (c : Collection.t) : Collection.t :=
  Collection.set_external_id (λ _, match external_id with
                                   | Some e => if e == "" then None else Some e
                                   | None => None
                                   end) c.

Definition Collection_new (uuid org_uuid name : string) (external_id : option string) : Collection.t :=
  Collection_set_external_id external_id
    {| Collection.uuid := uuid; Collection.org_uuid := org_uuid; Collection.name := name;
       Collection.external_id := None |}.

(** *** [CollectionUser] *)

Definition CollectionUser_find_by_organization_and_user_uuid (org_uuid user_uuid : string) (d : DB)
    : list CollectionUser.t :=
  fst <$> where_ (λ '(_, c), Collection.org_uuid c == org_uuid)
    (inner_join (where_ (λ cu, CollectionUser.user_uuid cu == user_uuid) (rows (users_collections d)))
       (rows (collections d)) (λ cu c, Collection.uuid c == CollectionUser.collection_uuid cu)).

Definition CollectionUser_find_by_collection (collection_uuid : string) (d : DB) : list CollectionUser.t :=
  where_ (λ cu, CollectionUser.collection_uuid cu == collection_uuid) (rows (users_collections d)).

Definition CollectionUser_find_by_collection_and_user (collection_uuid user_uuid : string) (d : DB)
    : option CollectionUser.t :=
  first (where_ (λ cu, (CollectionUser.collection_uuid cu == collection_uuid)
                       && (CollectionUser.user_uuid cu == user_uuid)) (rows (users_collections d))).

Definition CollectionUser_find_by_user (user_uuid : string) (d : DB) : list CollectionUser.t :=
  where_ (λ cu, CollectionUser.user_uuid cu == user_uuid) (rows (users_collections d)).

Definition CollectionUser_has_access_to_collection_by_user (col_id user_uuid : string) (d : DB) : bool :=
  bool_decide (is_Some (CollectionUser_find_by_collection_and_user col_id user_uuid d)).

Definition CollectionUser_save (user_uuid collection_uuid : string) (read_only hide_passwords manage : bool)
    : M DB () :=
  User_update_uuid_revision user_uuid ;;
  save_row (λ d, has (users d) user_uuid && has (collections d) collection_uuid)
    (set_users_collections <[(user_uuid, collection_uuid) :=
       {| CollectionUser.user_uuid := user_uuid; CollectionUser.collection_uuid := collection_uuid;
          CollectionUser.read_only := read_only; CollectionUser.hide_passwords := hide_passwords;
          CollectionUser.manage := manage |}]>) "Error adding user to collection".

Definition CollectionUser_delete (cu : CollectionUser.t) : M DB () :=
  User_update_uuid_revision (CollectionUser.user_uuid cu) ;;
  modify (set_users_collections (delete_where (λ r,
    (CollectionUser.user_uuid r == CollectionUser.user_uuid cu)
    && (CollectionUser.collection_uuid r == CollectionUser.collection_uuid cu)))).

Definition CollectionUser_delete_all_by_collection (collection_uuid : string) : M DB () :=
  cus ← gets (CollectionUser_find_by_collection collection_uuid);
  for_each cus (λ cu, User_update_uuid_revision (CollectionUser.user_uuid cu)) ;;
  modify (set_users_collections (delete_where (λ cu,
    CollectionUser.collection_uuid cu == collection_uuid))).

Definition CollectionUser_delete_all_by_user_and_org (user_uuid org_uuid : string) : M DB () :=
  collectionusers ← gets (CollectionUser_find_by_organization_and_user_uuid org_uuid user_uuid);
  for_each collectionusers (λ user,
    modify (set_users_collections (delete_where (λ r,
      (CollectionUser.user_uuid r == user_uuid)
      && (CollectionUser.collection_uuid r == CollectionUser.collection_uuid user))))).

(** *** [Collection]: access *)

Definition Collection_can_access_collection (member : Membership.t) (col_id : string) (d : DB) : bool :=
  Membership_has_status member Confirmed
  && (Membership_has_full_access member
      || CollectionUser_has_access_to_collection_by_user col_id (Membership.user_uuid member) d
      || (org_groups_enabled
          && (GroupUser_has_full_access_by_member (Membership.org_uuid member) (Membership.uuid member) d
              || GroupUser_has_access_to_collection_by_member col_id (Membership.uuid member) d))).

(** The joins without groups: collection, grant to the user, membership. *)
Definition direct_join (user_uuid : string) (d : DB)
    : list (Collection.t * option CollectionUser.t * option Membership.t) :=
  left_join
    (left_join (rows (collections d)) (rows (users_collections d)) (λ c cu,
       (CollectionUser.collection_uuid cu == Collection.uuid c)
       && (CollectionUser.user_uuid cu == user_uuid)))
    (members d) (λ '(c, _) m,
       (Collection.org_uuid c == Membership.org_uuid m) && (Membership.user_uuid m == user_uuid)).

(** The full chain, continued with the groups of the member. *)
Definition access_join (user_uuid : string) (d : DB)
    : list (Collection.t * option CollectionUser.t * option Membership.t * option GroupUser.t
            * option Group.t * option CollectionGroup.t) :=
  left_join
    (left_join
      (left_join (direct_join user_uuid d) (rows (groups_users d)) (λ '(_, _, om) gu,
         nn om (λ m, GroupUser.users_organizations_uuid gu == Membership.uuid m)))
      (rows (groups d)) (λ '(_, _, om, ogu) g,
         nn ogu (λ gu, Group.uuid g == GroupUser.groups_uuid gu)
         && nn om (λ m, Group.organizations_uuid g == Membership.org_uuid m)))
    (rows (collections_groups d)) (λ '(c, _, _, ogu, _) cg,
       nn ogu (λ gu, CollectionGroup.groups_uuid cg == GroupUser.groups_uuid gu)
       && (CollectionGroup.collections_uuid cg == Collection.uuid c)).

(** [groups_users::users_organizations_uuid.eq(users_organizations::uuid)]. *)
Definition same_member (om : option Membership.t) (ogu : option GroupUser.t) : bool :=
  nn ogu (λ gu, nn om (λ m, GroupUser.users_organizations_uuid gu == Membership.uuid m)).

Definition Collection_find_by_user_uuid (user_uuid : string) (d : DB) : list Collection.t :=
  if org_groups_enabled then
    remove_dups ((λ r, r.1.1.1.1.1) <$> where_ (λ '(_, ocu, om, ogu, og, ocg),
      nn om (λ m, Membership.status m == MembershipStatus_as_i32 Confirmed)
      && (nn ocu (λ cu, CollectionUser.user_uuid cu == user_uuid)
          || nn om (λ m, Membership.access_all m == true)
          || nn og (λ g, Group.access_all g == true)
          || (same_member om ogu && bool_decide (is_Some ocg)))) (access_join user_uuid d))
  else
    remove_dups ((λ r, r.1.1) <$> where_ (λ '(_, ocu, om),
      nn om (λ m, Membership.status m == MembershipStatus_as_i32 Confirmed)
      && (nn ocu (λ cu, CollectionUser.user_uuid cu == user_uuid)
          || nn om (λ m, Membership.access_all m == true))) (direct_join user_uuid d)).

Definition Collection_find_by_organization_and_user_uuid (org_uuid user_uuid : string) (d : DB)
    : list Collection.t :=
  where_ (λ c, Collection.org_uuid c == org_uuid) (Collection_find_by_user_uuid user_uuid d).

Definition Collection_find_by_uuid (uuid : string) (d : DB) : option Collection.t :=
  first (where_ (λ c, Collection.uuid c == uuid) (rows (collections d))).
Definition Collection_find_by_organization (org_uuid : string) (d : DB) : list Collection.t :=
  where_ (λ c, Collection.org_uuid c == org_uuid) (rows (collections d)).
Definition Collection_count_by_org (org_uuid : string) (d : DB) : Z :=
  count (where_ (λ c, Collection.org_uuid c == org_uuid) (rows (collections d))).
Definition Collection_find_by_uuid_and_org (uuid org_uuid : string) (d : DB) : option Collection.t :=
  first (where_ (λ c, (Collection.uuid c == uuid) && (Collection.org_uuid c == org_uuid))
           (rows (collections d))).

Definition Collection_find_by_uuid_and_user (uuid user_uuid : string) (d : DB) : option Collection.t :=
  if org_groups_enabled then
    first ((λ r, r.1.1.1.1.1) <$> where_ (λ '(c, ocu, om, ogu, og, ocg),
      (Collection.uuid c == uuid)
      && (nn ocu (λ cu, CollectionUser.collection_uuid cu == uuid)
          || (nn om (λ m, Membership.access_all m == true)
              || nn om (λ m, Membership.atype m <=? MembershipType_as_i32 Admin))
          || nn og (λ g, Group.access_all g == true)
          || (same_member om ogu && bool_decide (is_Some ocg)))) (access_join user_uuid d))
  else
    first ((λ r, r.1.1) <$> where_ (λ '(c, ocu, om),
      (Collection.uuid c == uuid)
      && (nn ocu (λ cu, CollectionUser.collection_uuid cu == uuid)
          || (nn om (λ m, Membership.access_all m == true)
              || nn om (λ m, Membership.atype m <=? MembershipType_as_i32 Admin))))
      (direct_join user_uuid d)).

(** [is_writable_by_user]: only rows with a membership, whatever its status. *)
Definition Collection_is_writable_by_user (self_uuid user_uuid : string) (d : DB) : bool :=
  let base :=
    left_join
      (inner_join (where_ (λ c, Collection.uuid c == self_uuid) (rows (collections d)))
         (members d) (λ c m,
           (Collection.org_uuid c == Membership.org_uuid m) && (Membership.user_uuid m == user_uuid)))
      (rows (users_collections d)) (λ '(c, _) cu,
        (CollectionUser.collection_uuid cu == Collection.uuid c)
        && (CollectionUser.user_uuid cu == user_uuid)) in
  let granted (m : Membership.t) (ocu : option CollectionUser.t) :=
    (Membership.atype m <=? MembershipType_as_i32 Admin)
    || (Membership.access_all m == true)
    || nn ocu (λ cu, (CollectionUser.collection_uuid cu == self_uuid)
                     && (CollectionUser.read_only cu == false)) in
  if org_groups_enabled then
    nonempty (where_ (λ '(_, m, ocu, _, og, ocg),
        granted m ocu
        || nn og (λ g, Group.access_all g == true)
        || nn ocg (λ cg, CollectionGroup.read_only cg == false))
      (left_join
        (left_join
          (left_join base (rows (groups_users d)) (λ '(_, m, _) gu,
             GroupUser.users_organizations_uuid gu == Membership.uuid m))
          (rows (groups d)) (λ '(_, m, _, ogu) g,
             nn ogu (λ gu, Group.uuid g == GroupUser.groups_uuid gu)
             && (Group.organizations_uuid g == Membership.org_uuid m)))
        (rows (collections_groups d)) (λ '(c, _, _, ogu, _) cg,
           nn ogu (λ gu, CollectionGroup.groups_uuid cg == GroupUser.groups_uuid gu)
           && (CollectionGroup.collections_uuid cg == Collection.uuid c))))
  else nonempty (where_ (λ '(_, m, ocu), granted m ocu) base).

(** The shape shared by [hide_passwords_for_user] and
    [is_coll_manageable_by_user]: a flag on a direct grant or on a group's
    grant, or access to everything. *)
Definition flagged_access (flag_cu : CollectionUser.t → bool) (flag_cg : CollectionGroup.t → bool)
    (uuid user_uuid : string) (d : DB) : bool :=
  nonempty (where_ (λ '(c, ocu, om, ogu, og, ocg),
      (Collection.uuid c == uuid)
      && (nn ocu (λ cu, (CollectionUser.collection_uuid cu == uuid) && (flag_cu cu == true))
          || (nn om (λ m, Membership.access_all m == true)
              || nn om (λ m, Membership.atype m <=? MembershipType_as_i32 Admin))
          || nn og (λ g, Group.access_all g == true)
          || (same_member om ogu && nn ocg (λ cg, flag_cg cg == true))))
    (access_join user_uuid d)).

Definition Collection_hide_passwords_for_user (self_uuid user_uuid : string) (d : DB) : bool :=
  flagged_access CollectionUser.hide_passwords CollectionGroup.hide_passwords self_uuid user_uuid d.

Definition Collection_is_coll_manageable_by_user (uuid user_uuid : string) (d : DB) : bool :=
  flagged_access CollectionUser.manage CollectionGroup.manage uuid user_uuid d.

(** [has_manageable_collection_by_user]: no [groups] table in this chain. *)
Definition Collection_has_manageable_collection_by_user (org_uuid user_uuid : string) (d : DB) : bool :=
  nonempty (where_ (λ '(c, ocu, _, _, ocg),
      (Collection.org_uuid c == org_uuid)
      && (nn ocu (λ cu, CollectionUser.manage cu == true)
          || nn ocg (λ cg, CollectionGroup.manage cg == true)))
    (left_join
      (left_join (direct_join user_uuid d) (rows (groups_users d)) (λ '(_, _, om) gu,
         nn om (λ m, GroupUser.users_organizations_uuid gu == Membership.uuid m)))
      (rows (collections_groups d)) (λ '(c, _, _, ogu) cg,
         nn ogu (λ gu, CollectionGroup.groups_uuid cg == GroupUser.groups_uuid gu)
         && (CollectionGroup.collections_uuid cg == Collection.uuid c)))).

(** The flags of [Collection::to_json_details] without sync data:
    (readOnly, hidePasswords, manage). *)
Definition Collection_details_flags (c : Collection.t) (user_uuid : string) (d : DB)
    : bool * bool * bool :=
  match Membership_find_confirmed_by_user_and_org user_uuid (Collection.org_uuid c) d with
  | Some m =>
      if Membership_has_full_access m then (false, false, i32_ge_type (Membership.atype m) Manager)
      else if i32_eq_type (Membership.atype m) Manager
              && Collection_is_coll_manageable_by_user (Collection.uuid c) user_uuid d
      then (false, false, true)
      else
        let is_manager := i32_eq_type (Membership.atype m) Manager in
        let read_only := negb (Collection_is_writable_by_user (Collection.uuid c) user_uuid d) in
        let hide_passwords := Collection_hide_passwords_for_user (Collection.uuid c) user_uuid d in
        (read_only, hide_passwords, is_manager && negb read_only && negb hide_passwords)
  | None => (true, true, false)
  end.

(** *** [Collection] and [CollectionCipher]: updates *)

Definition Collection_update_users_revision (c : Collection.t) : M DB () :=
  ms ← gets (Membership_find_by_collection_and_org (Collection.uuid c) (Collection.org_uuid c));
  for_each ms (λ m, User_update_uuid_revision (Membership.user_uuid m)).

Definition Collection_save (c : Collection.t) : M DB () :=
  Collection_update_users_revision c ;;
  save_row (λ d, has (organizations d) (Collection.org_uuid c))
    (set_collections <[Collection.uuid c := c]>) "Error saving collection".

Definition CollectionCipher_update_users_revision (collection_uuid : string) : M DB () :=
  o ← gets (Collection_find_by_uuid collection_uuid);
  match o with
  | Some collection => Collection_update_users_revision collection
  | None => mret ()
  end.

Definition CollectionCipher_save (cipher_uuid collection_uuid : string) : M DB () :=
  CollectionCipher_update_users_revision collection_uuid ;;
  save_row (λ d, has (ciphers d) cipher_uuid && has (collections d) collection_uuid)
    (set_ciphers_collections <[(cipher_uuid, collection_uuid) :=
       {| CollectionCipher.cipher_uuid := cipher_uuid;
          CollectionCipher.collection_uuid := collection_uuid |}]>)
    "Error adding cipher to collection".

Definition CollectionCipher_delete (cipher_uuid collection_uuid : string) : M DB () :=
  CollectionCipher_update_users_revision collection_uuid ;;
  modify (set_ciphers_collections (delete_where (λ r,
    (CollectionCipher.cipher_uuid r == cipher_uuid)
    && (CollectionCipher.collection_uuid r == collection_uuid)))).

Definition CollectionCipher_delete_all_by_cipher (cipher_uuid : string) : M DB () :=
  modify (set_ciphers_collections (delete_where (λ r, CollectionCipher.cipher_uuid r == cipher_uuid))).
Definition CollectionCipher_delete_all_by_collection (collection_uuid : string) : M DB () :=
  modify (set_ciphers_collections (delete_where (λ r,
    CollectionCipher.collection_uuid r == collection_uuid))).

Definition Collection_delete (c : Collection.t) : M DB () :=
  Collection_update_users_revision c ;;
  CollectionCipher_delete_all_by_collection (Collection.uuid c) ;;
  CollectionUser_delete_all_by_collection (Collection.uuid c) ;;
  CollectionGroup_delete_all_by_collection (Collection.uuid c) (Collection.org_uuid c) ;;
  delete_row (collection_referenced (Collection.uuid c))
    (set_collections (delete_where (λ r, Collection.uuid r == Collection.uuid c)))
    "Error deleting collection".

Definition Collection_delete_all_by_organization (org_uuid : string) : M DB () :=
  cs ← gets (Collection_find_by_organization org_uuid);
  for_each cs Collection_delete.
End collections.
