(* ===== verification/VaultItems.v ===== *)
(** What hangs on a cipher: attachments, folders, favorites and archive marks.

    Models src/src/db/models/attachment.rs, folder.rs, favorite.rs and
    archive.rs. Deleting an attachment also removes its file from the object
    store, whose answer is a parameter: a missing file counts as deleted, any
    other failure stops the caller after the row is gone. *)
From S2P Require Import Prelude Schema Roles Users.
Local Open Scope Z_scope.

Section items.
Context `{E : Env}.

(** *** [Attachment] *)

Definition Attachment_get_file_path (a : Attachment.t) : string :=
  Attachment.cipher_uuid a +:+ "/" +:+ Attachment.id a.

Definition Attachment_save (a : Attachment.t) : M DB () :=
  save_row (λ d, has (ciphers d) (Attachment.cipher_uuid a))
    (set_attachments <[Attachment.id a := a]>) "Error saving attachment".

Definition Attachment_delete (a : Attachment.t) : M DB () :=
  modify (set_attachments (delete_where (λ r, Attachment.id r == Attachment.id a))) ;;
  lift (opendal_operator_for_path_type Attachments) ;;
  match storage_delete (Attachment_get_file_path a) with
  | StorageOk | StorageNotFound => mret ()
  | StorageFailed => throw (MkError 400 "OpenDAL")
  end.

Definition Attachment_find_by_cipher (cipher_uuid : string) (d : DB) : list Attachment.t :=
  where_ (λ a, Attachment.cipher_uuid a == cipher_uuid) (rows (attachments d)).
Definition Attachment_find_by_id (id : string) (d : DB) : option Attachment.t :=
  first (where_ (λ a, Attachment.id a == to_lowercase id) (rows (attachments d))).

Definition Attachment_delete_all_by_cipher (cipher_uuid : string) : M DB () :=
  l ← gets (Attachment_find_by_cipher cipher_uuid);
  for_each l Attachment_delete.

(** [r.to_i64()] of the sum: saturated to [i64::MAX] above the range; the sum
    of no row is NULL and counts as 0. *)
Definition sum_sizes (l : list Attachment.t) : Z :=
  let s := foldr Z.add 0 (Attachment.file_size <$> l) in
  if (- 2 ^ 63 <=? s) && (s <? 2 ^ 63) then s else 2 ^ 63 - 1.

Definition Attachment_of_user (user_uuid : string) (d : DB) : list Attachment.t :=
  fst <$> where_ (λ '(_, oc), nn oc (λ c, Cipher.user_uuid c == Some user_uuid))
    (left_join (rows (attachments d)) (rows (ciphers d)) (λ a c, Cipher.uuid c == Attachment.cipher_uuid a)).
Definition Attachment_size_by_user (user_uuid : string) (d : DB) : Z :=
  sum_sizes (Attachment_of_user user_uuid d).
Definition Attachment_of_org (org_uuid : string) (d : DB) : list Attachment.t :=
  fst <$> where_ (λ '(_, oc), nn oc (λ c, Cipher.organization_uuid c == Some org_uuid))
    (left_join (rows (attachments d)) (rows (ciphers d)) (λ a c, Cipher.uuid c == Attachment.cipher_uuid a)).
Definition Attachment_size_by_org (org_uuid : string) (d : DB) : Z := sum_sizes (Attachment_of_org org_uuid d).
Definition Attachment_count_by_org (org_uuid : string) (d : DB) : Z := count (Attachment_of_org org_uuid d).
Definition Attachment_new (id cipher_uuid file_name : string) (file_size : Z) (akey : option string) : Attachment.t :=
  Attachment.mk id cipher_uuid file_name file_size akey.
Definition Attachment_count_by_user (user_uuid : string) (d : DB) : Z :=
  count (Attachment_of_user user_uuid d).

Definition Attachment_find_all_by_user_and_orgs (user_uuid : string) (org_uuids : list string) (d : DB)
    : list Attachment.t :=
  fst <$> where_ (λ '(_, oc), nn oc (λ c,
      (Cipher.user_uuid c == Some user_uuid)
      || match Cipher.organization_uuid c with
         | Some o => bool_decide (o ∈ org_uuids)
         | None => false
         end))
    (left_join (rows (attachments d)) (rows (ciphers d)) (λ a c, Cipher.uuid c == Attachment.cipher_uuid a)).

(** *** [FolderCipher] and [Folder] *)

Definition FolderCipher_new (folder_uuid cipher_uuid : string) : FolderCipher.t :=
  {| FolderCipher.cipher_uuid := cipher_uuid; FolderCipher.folder_uuid := folder_uuid |}.

Definition FolderCipher_save (fc : FolderCipher.t) : M DB () :=
  save_row (λ d, has (ciphers d) (FolderCipher.cipher_uuid fc) && has (folders d) (FolderCipher.folder_uuid fc))
    (set_folders_ciphers <[(FolderCipher.cipher_uuid fc, FolderCipher.folder_uuid fc) := fc]>)
    "Error adding cipher to folder".

Definition FolderCipher_delete (fc : FolderCipher.t) : M DB () :=
  modify (set_folders_ciphers (delete_where (λ r,
    (FolderCipher.cipher_uuid r == FolderCipher.cipher_uuid fc)
    && (FolderCipher.folder_uuid r == FolderCipher.folder_uuid fc)))).

Definition FolderCipher_delete_all_by_cipher (cipher_uuid : string) : M DB () :=
  modify (set_folders_ciphers (delete_where (λ r, FolderCipher.cipher_uuid r == cipher_uuid))).
Definition FolderCipher_delete_all_by_folder (folder_uuid : string) : M DB () :=
  modify (set_folders_ciphers (delete_where (λ r, FolderCipher.folder_uuid r == folder_uuid))).

Definition FolderCipher_find_by_folder_and_cipher (folder_uuid cipher_uuid : string) (d : DB)
    : option FolderCipher.t :=
  first (where_ (λ r, (FolderCipher.folder_uuid r == folder_uuid)
                      && (FolderCipher.cipher_uuid r == cipher_uuid)) (rows (folders_ciphers d))).

Definition FolderCipher_find_by_user (user_uuid : string) (d : DB) : list (string * string) :=
  (λ '(fc, _), (FolderCipher.cipher_uuid fc, FolderCipher.folder_uuid fc)) <$>
    where_ (λ '(_, f), Folder.user_uuid f == user_uuid)
      (inner_join (rows (folders_ciphers d)) (rows (folders d))
         (λ fc f, FolderCipher.folder_uuid fc == Folder.uuid f)).

Definition Folder_new (uuid user_uuid name : string) : Folder.t :=
  {| Folder.uuid := uuid; Folder.created_at := now; Folder.updated_at := now;
     Folder.user_uuid := user_uuid; Folder.name := name |}.

Definition Folder_save (f : Folder.t) : M DB Folder.t :=
  User_update_uuid_revision (Folder.user_uuid f) ;;
  let f := Folder.set_updated_at (λ _, now) f in
  save_row (λ d, has (users d) (Folder.user_uuid f)) (set_folders <[Folder.uuid f := f]>)
    "Error saving folder" ;;
  mret f.

Definition Folder_delete (f : Folder.t) : M DB () :=
  User_update_uuid_revision (Folder.user_uuid f) ;;
  FolderCipher_delete_all_by_folder (Folder.uuid f) ;;
  delete_row (folder_referenced (Folder.uuid f))
    (set_folders (delete_where (λ r, Folder.uuid r == Folder.uuid f))) "Error deleting folder".

Definition Folder_find_by_uuid_and_user (uuid user_uuid : string) (d : DB) : option Folder.t :=
  first (where_ (λ f, (Folder.uuid f == uuid) && (Folder.user_uuid f == user_uuid)) (rows (folders d))).
Definition Folder_find_by_user (user_uuid : string) (d : DB) : list Folder.t :=
  where_ (λ f, Folder.user_uuid f == user_uuid) (rows (folders d)).

Definition Folder_delete_all_by_user (user_uuid : string) : M DB () :=
  l ← gets (Folder_find_by_user user_uuid);
  for_each l Folder_delete.

(** *** [Favorite] *)

Definition Favorite_is_favorite (cipher_uuid user_uuid : string) (d : DB) : bool :=
  nonempty (where_ (λ r, (Favorite.cipher_uuid r == cipher_uuid) && (Favorite.user_uuid r == user_uuid))
              (rows (favorites d))).

Definition Favorite_set_favorite (favorite : bool) (cipher_uuid user_uuid : string) : M DB () :=
  old ← gets (Favorite_is_favorite cipher_uuid user_uuid);
  match old, favorite with
  | false, true =>
      User_update_uuid_revision user_uuid ;;
      save_row (λ d, has (users d) user_uuid && has (ciphers d) cipher_uuid)
        (set_favorites <[(user_uuid, cipher_uuid) :=
           {| Favorite.user_uuid := user_uuid; Favorite.cipher_uuid := cipher_uuid |}]>)
        "Error adding favorite"
  | true, false =>
      User_update_uuid_revision user_uuid ;;
      modify (set_favorites (delete_where (λ r,
        (Favorite.user_uuid r == user_uuid) && (Favorite.cipher_uuid r == cipher_uuid))))
  | _, _ => mret ()
  end.

Definition Favorite_delete_all_by_cipher (cipher_uuid : string) : M DB () :=
  modify (set_favorites (delete_where (λ r, Favorite.cipher_uuid r == cipher_uuid))).
Definition Favorite_delete_all_by_user (user_uuid : string) : M DB () :=
  modify (set_favorites (delete_where (λ r, Favorite.user_uuid r == user_uuid))).
Definition Favorite_get_all_cipher_uuid_by_user (user_uuid : string) (d : DB) : list string :=
  Favorite.cipher_uuid <$> where_ (λ r, Favorite.user_uuid r == user_uuid) (rows (favorites d)).

(** *** [Archive] *)

Definition Archive_get_archived_at (cipher_uuid user_uuid : string) (d : DB) : option Z :=
  Archive.archived_at <$>
    first (where_ (λ r, (Archive.cipher_uuid r == cipher_uuid) && (Archive.user_uuid r == user_uuid))
             (rows (archives d))).

Definition Archive_save (user_uuid cipher_uuid : string) (archived_at : Z) : M DB () :=
  User_update_uuid_revision user_uuid ;;
  save_row (λ d, has (users d) user_uuid && has (ciphers d) cipher_uuid)
    (set_archives <[(user_uuid, cipher_uuid) :=
       {| Archive.user_uuid := user_uuid; Archive.cipher_uuid := cipher_uuid;
          Archive.archived_at := archived_at |}]>) "Error saving archive".

Definition Archive_delete_by_cipher (user_uuid cipher_uuid : string) : M DB () :=
  User_update_uuid_revision user_uuid ;;
  modify (set_archives (delete_where (λ r,
    (Archive.user_uuid r == user_uuid) && (Archive.cipher_uuid r == cipher_uuid)))).

Definition Archive_find_by_user (user_uuid : string) (d : DB) : list (string * Z) :=
  (λ r, (Archive.cipher_uuid r, Archive.archived_at r)) <$>
    where_ (λ r, Archive.user_uuid r == user_uuid) (rows (archives d)).
End items.
