(* ===== verification/Ciphers.v ===== *)
(** Ciphers: who can see and change one.

    Models src/src/db/models/cipher.rs (ownership, access restrictions with and
    without the cached sync data, the visibility query, folders, deletion and
    the trash) and [CipherSyncData] of src/src/api/core/ciphers.rs. *)
From S2P Require Import Prelude Schema Roles Users Memberships Groups Collections VaultItems.
Local Open Scope Z_scope.

(** [iter.collect::<HashMap<_, _>>()]: a later pair replaces an earlier one. *)
Definition collect_map {V} (l : list (string * V)) : gmap string V :=
  foldl (λ m '(k, v), <[k := v]> m) ∅ l.

(** [map.entry(k).or_default().push(v)] over a list of pairs. *)
Definition collect_vecs {V} (l : list (string * V)) : gmap string (list V) :=
  foldl (λ m '(k, v), <[k := default [] (m !! k) ++ [v]]> m) ∅ l.

Inductive CipherSyncType := SyncUser | SyncOrganization.

Module CipherSyncData.
Record t := mk {
  cipher_attachments : gmap string (list Attachment.t);
  cipher_folders : gmap string string;
  cipher_favorites : gset string;
  cipher_collections : gmap string (list string);
  cipher_archives : gmap string Z;
  members : gmap string Membership.t;
  user_collections : gmap string CollectionUser.t;
  user_collections_groups : gmap string CollectionGroup.t;
  user_group_full_access_for_organizations : gset string;
}.
End CipherSyncData.

Section ciphers.
Context `{E : Env}.

Notation members d := (rows (users_organizations d)).

Definition Cipher_new (uuid : string) (atype : Z) (name : string) : Cipher.t :=
  {| Cipher.uuid := uuid; Cipher.created_at := now; Cipher.updated_at := now;
     Cipher.user_uuid := None; Cipher.organization_uuid := None; Cipher.key := None;
     Cipher.atype := atype; Cipher.name := name; Cipher.notes := None; Cipher.fields := None;
     Cipher.data := ""; Cipher.password_history := None; Cipher.deleted_at := None;
     Cipher.reprompt := None |}.

(** *** Access *)

Definition Cipher_is_owned_by_user (c : Cipher.t) (user_uuid : string) : bool :=
  match Cipher.user_uuid c with Some u => u == user_uuid | None => false end.

Definition Cipher_is_in_full_access_org (c : Cipher.t) (user_uuid : string)
    (cipher_sync_data : option CipherSyncData.t) (d : DB) : bool :=
  match Cipher.organization_uuid c with
  | Some org_uuid =>
      match cipher_sync_data with
      | Some sd =>
          match CipherSyncData.members sd !! org_uuid with
          | Some cached_member => Membership_has_full_access cached_member
          | None => false
          end
      | None =>
          match Membership_find_confirmed_by_user_and_org user_uuid org_uuid d with
          | Some member => Membership_has_full_access member
          | None => false
          end
      end
  | None => false
  end.

Definition Cipher_is_in_full_access_group (c : Cipher.t) (user_uuid : string)
    (cipher_sync_data : option CipherSyncData.t) (d : DB) : bool :=
  if negb org_groups_enabled then false else
  match Cipher.organization_uuid c with
  | Some org_uuid =>
      match cipher_sync_data with
      | Some sd => bool_decide (org_uuid ∈ CipherSyncData.user_group_full_access_for_organizations sd)
      | None => Group_is_in_full_access_group user_uuid org_uuid d
      end
  | None => false
  end.

Definition Cipher_get_user_collections_access_flags (c : Cipher.t) (user_uuid : string) (d : DB)
    : list (bool * bool * bool) :=
  (λ '(_, _, cu), (CollectionUser.read_only cu, CollectionUser.hide_passwords cu, CollectionUser.manage cu)) <$>
    (inner_join
      (inner_join (where_ (λ r, Cipher.uuid r == Cipher.uuid c) (rows (ciphers d)))
         (rows (ciphers_collections d)) (λ r cc, Cipher.uuid r == CollectionCipher.cipher_uuid cc))
      (rows (users_collections d)) (λ '(_, cc) cu,
         (CollectionCipher.collection_uuid cc == CollectionUser.collection_uuid cu)
         && (CollectionUser.user_uuid cu == user_uuid))).

Definition Cipher_get_group_collections_access_flags (c : Cipher.t) (user_uuid : string) (d : DB)
    : list (bool * bool * bool) :=
  if negb org_groups_enabled then [] else
  (λ '(_, _, cg, _, _, _),
     (CollectionGroup.read_only cg, CollectionGroup.hide_passwords cg, CollectionGroup.manage cg)) <$>
    where_ (λ '(_, _, _, _, m, _), Membership.user_uuid m == user_uuid)
    (inner_join
      (inner_join
        (inner_join
          (inner_join
            (inner_join (where_ (λ r, Cipher.uuid r == Cipher.uuid c) (rows (ciphers d)))
               (rows (ciphers_collections d)) (λ r cc, Cipher.uuid r == CollectionCipher.cipher_uuid cc))
            (rows (collections_groups d)) (λ '(_, cc) cg,
               CollectionGroup.collections_uuid cg == CollectionCipher.collection_uuid cc))
          (rows (groups_users d)) (λ '(_, _, cg) gu,
             GroupUser.groups_uuid gu == CollectionGroup.groups_uuid cg))
        (members d) (λ '(_, _, _, gu) m, Membership.uuid m == GroupUser.users_organizations_uuid gu))
      (rows (groups d)) (λ '(_, _, cg, _, m) g,
         (Group.uuid g == CollectionGroup.groups_uuid cg)
         && (Group.organizations_uuid g == Membership.org_uuid m))).

(** The loop over the flags: [&=] for read-only and hidden passwords, [|=] for
    manage. *)
Definition combine_flags (l : list (bool * bool * bool)) : bool * bool * bool :=
  foldl (λ '(read_only, hide_passwords, manage) '(ro, hp, mn),
           (read_only && ro, hide_passwords && hp, manage || mn)) (true, true, false) l.

Definition Cipher_get_access_restrictions (c : Cipher.t) (user_uuid : string)
    (cipher_sync_data : option CipherSyncData.t) (d : DB) : option (bool * bool * bool) :=
  if Cipher_is_owned_by_user c user_uuid
     || Cipher_is_in_full_access_org c user_uuid cipher_sync_data d
     || Cipher_is_in_full_access_group c user_uuid cipher_sync_data d
  then Some (false, false, true)
  else
    let flags :=
      match cipher_sync_data with
      | Some sd =>
          match CipherSyncData.cipher_collections sd !! Cipher.uuid c with
          | Some collections =>
              collections ≫= λ collection,
                match CipherSyncData.user_collections sd !! collection with
                | Some cu => [(CollectionUser.read_only cu, CollectionUser.hide_passwords cu,
                               CollectionUser.manage cu)]
                | None =>
                    match CipherSyncData.user_collections_groups sd !! collection with
                    | Some cg => [(CollectionGroup.read_only cg, CollectionGroup.hide_passwords cg,
                                   CollectionGroup.manage cg)]
                    | None => []
                    end
                end
          | None => []
          end
      | None =>
          let user_permissions := Cipher_get_user_collections_access_flags c user_uuid d in
          match user_permissions with
          | [] => Cipher_get_group_collections_access_flags c user_uuid d
          | _ => user_permissions
          end
      end in
    match flags with
    | [] => None
    | _ => Some (combine_flags flags)
    end.

Definition Cipher_is_write_accessible_to_user (c : Cipher.t) (user_uuid : string) (d : DB) : bool :=
  match Cipher_get_access_restrictions c user_uuid None d with
  | Some (read_only, _, manage) => negb read_only || manage
  | None => false
  end.

Definition Cipher_is_in_editable_collection_by_user (c : Cipher.t) (user_uuid : string) (d : DB) : bool :=
  match Cipher_get_access_restrictions c user_uuid None d with
  | Some (read_only, hide_passwords, manage) => (negb read_only && negb hide_passwords) || manage
  | None => false
  end.

Definition Cipher_is_accessible_to_user (c : Cipher.t) (user_uuid : string) (d : DB) : bool :=
  bool_decide (is_Some (Cipher_get_access_restrictions c user_uuid None d)).

(** *** Visibility *)

(** The joins of [find_by_user] up to the direct grant. *)
Definition visible_direct_join (user_uuid : string) (d : DB)
    : list (Cipher.t * option CollectionCipher.t * option Membership.t * option CollectionUser.t) :=
  left_join
    (left_join
      (left_join (rows (ciphers d)) (rows (ciphers_collections d))
         (λ c cc, Cipher.uuid c == CollectionCipher.cipher_uuid cc))
      (members d) (λ '(c, _) m,
         (Cipher.organization_uuid c == Some (Membership.org_uuid m))
         && (Membership.user_uuid m == user_uuid)
         && (Membership.status m == MembershipStatus_as_i32 Confirmed)))
    (rows (users_collections d)) (λ '(_, occ, om) cu,
       nn occ (λ cc, CollectionCipher.collection_uuid cc == CollectionUser.collection_uuid cu)
       && nn om (λ m, Membership.user_uuid m == CollectionUser.user_uuid cu)).

Definition visible_group_join (user_uuid : string) (d : DB)
    : list (Cipher.t * option CollectionCipher.t * option Membership.t * option CollectionUser.t
            * option GroupUser.t * option Group.t * option CollectionGroup.t) :=
  left_join
    (left_join
      (left_join (visible_direct_join user_uuid d) (rows (groups_users d)) (λ '(_, _, om, _) gu,
         nn om (λ m, GroupUser.users_organizations_uuid gu == Membership.uuid m)))
      (rows (groups d)) (λ '(_, _, om, _, ogu) g,
         nn ogu (λ gu, Group.uuid g == GroupUser.groups_uuid gu)
         && nn om (λ m, Group.organizations_uuid g == Membership.org_uuid m)))
    (rows (collections_groups d)) (λ '(_, occ, _, _, _, og) cg,
       nn occ (λ cc, CollectionGroup.collections_uuid cg == CollectionCipher.collection_uuid cc)
       && nn og (λ g, CollectionGroup.groups_uuid cg == Group.uuid g)).

Definition Cipher_find_by_user (user_uuid : string) (visible_only : bool) (cipher_uuids : list string)
    (d : DB) : list Cipher.t :=
  let direct (c : Cipher.t) (om : option Membership.t) (ocu : option CollectionUser.t) :=
    (Cipher.user_uuid c == Some user_uuid)
    || nn om (λ m, Membership.access_all m == true)
    || nn ocu (λ cu, CollectionUser.user_uuid cu == user_uuid) in
  let admin (om : option Membership.t) :=
    negb visible_only && nn om (λ m, Membership.atype m <=? MembershipType_as_i32 Admin) in
  let wanted (c : Cipher.t) :=
    (cipher_uuids == []) || bool_decide (Cipher.uuid c ∈ cipher_uuids) in
  if org_groups_enabled then
    remove_dups ((λ r, r.1.1.1.1.1.1) <$> where_ (λ '(c, _, om, ocu, _, og, ocg),
      (direct c om ocu
       || nn og (λ g, Group.access_all g == true)
       || bool_decide (is_Some ocg)
       || admin om)
      && wanted c) (visible_group_join user_uuid d))
  else
    remove_dups ((λ r, r.1.1.1) <$> where_ (λ '(c, _, om, ocu),
      (direct c om ocu || admin om) && wanted c) (visible_direct_join user_uuid d)).

Definition Cipher_find_by_user_visible (user_uuid : string) (d : DB) : list Cipher.t :=
  Cipher_find_by_user user_uuid true [] d.
Definition Cipher_find_by_user_and_ciphers (user_uuid : string) (cipher_uuids : list string) (d : DB)
    : list Cipher.t :=
  Cipher_find_by_user user_uuid true cipher_uuids d.
Definition Cipher_find_by_user_and_cipher (user_uuid cipher_uuid : string) (d : DB) : option Cipher.t :=
  last (Cipher_find_by_user user_uuid true [cipher_uuid] d).

Definition Cipher_find_by_uuid (uuid : string) (d : DB) : option Cipher.t :=
  first (where_ (λ c, Cipher.uuid c == uuid) (rows (ciphers d))).
Definition Cipher_find_by_uuid_and_org (cipher_uuid org_uuid : string) (d : DB) : option Cipher.t :=
  first (where_ (λ c, (Cipher.uuid c == cipher_uuid) && (Cipher.organization_uuid c == Some org_uuid))
           (rows (ciphers d))).
Definition Cipher_find_owned_by_user (user_uuid : string) (d : DB) : list Cipher.t :=
  where_ (λ c, (Cipher.user_uuid c == Some user_uuid) && (Cipher.organization_uuid c == None))
    (rows (ciphers d)).
Definition Cipher_count_owned_by_user (user_uuid : string) (d : DB) : Z :=
  count (where_ (λ c, Cipher.user_uuid c == Some user_uuid) (rows (ciphers d))).
Definition Cipher_find_by_org (org_uuid : string) (d : DB) : list Cipher.t :=
  where_ (λ c, Cipher.organization_uuid c == Some org_uuid) (rows (ciphers d)).
Definition Cipher_find_by_folder (folder_uuid : string) (d : DB) : list Cipher.t :=
  snd <$> where_ (λ '(fc, _), FolderCipher.folder_uuid fc == folder_uuid)
    (inner_join (rows (folders_ciphers d)) (rows (ciphers d))
       (λ fc c, FolderCipher.cipher_uuid fc == Cipher.uuid c)).
(** NULL is not before any date. *)
Definition Cipher_find_deleted_before (dt : Z) (d : DB) : list Cipher.t :=
  where_ (λ c, nn (Cipher.deleted_at c) (λ t, t <? dt)) (rows (ciphers d)).

(** *** Collections of a cipher *)

(** The joins of [get_collections] and [get_admin_collections]; without groups
    the membership is an inner join. *)
Definition cipher_collections_join (cipher_uuid user_uuid : string) (d : DB)
    : list (CollectionCipher.t * Collection.t * option Membership.t * option CollectionUser.t) :=
  left_join
    (left_join
      (inner_join (where_ (λ cc, CollectionCipher.cipher_uuid cc == cipher_uuid)
                     (rows (ciphers_collections d)))
         (rows (collections d)) (λ cc c, Collection.uuid c == CollectionCipher.collection_uuid cc))
      (members d) (λ '(_, c) m,
         (Membership.org_uuid m == Collection.org_uuid c) && (Membership.user_uuid m == user_uuid)))
    (rows (users_collections d)) (λ '(cc, _, _) cu,
       (CollectionUser.collection_uuid cu == CollectionCipher.collection_uuid cc)
       && (CollectionUser.user_uuid cu == user_uuid)).

Definition cipher_collections_group_join (cipher_uuid user_uuid : string) (d : DB)
    : list (CollectionCipher.t * Collection.t * option Membership.t * option CollectionUser.t
            * option GroupUser.t * option Group.t * option CollectionGroup.t) :=
  left_join
    (left_join
      (left_join (cipher_collections_join cipher_uuid user_uuid d) (rows (groups_users d))
         (λ '(_, _, om, _) gu, nn om (λ m, GroupUser.users_organizations_uuid gu == Membership.uuid m)))
      (rows (groups d)) (λ '(_, _, om, _, ogu) g,
         nn ogu (λ gu, Group.uuid g == GroupUser.groups_uuid gu)
         && nn om (λ m, Group.organizations_uuid g == Membership.org_uuid m)))
    (rows (collections_groups d)) (λ '(cc, _, _, _, _, og) cg,
       (CollectionGroup.collections_uuid cg == CollectionCipher.collection_uuid cc)
       && nn og (λ g, CollectionGroup.groups_uuid cg == Group.uuid g)).

(** [admin] adds "User is admin or owner" ([get_admin_collections]). *)
Definition writable_collections (admin : bool) (c : Cipher.t) (user_uuid : string) (d : DB)
    : list string :=
  let direct (om : option Membership.t) (ocu : option CollectionUser.t) :=
    nn om (λ m, Membership.access_all m == true)
    || nn ocu (λ cu, (CollectionUser.user_uuid cu == user_uuid)
                     && (CollectionUser.read_only cu == false)) in
  let is_admin (om : option Membership.t) :=
    admin && nn om (λ m, Membership.atype m <=? MembershipType_as_i32 Admin) in
  if org_groups_enabled then
    (λ r, CollectionCipher.collection_uuid r.1.1.1.1.1.1) <$>
      where_ (λ '(_, _, om, ocu, _, og, ocg),
          direct om ocu
          || nn og (λ g, Group.access_all g == true)
          || nn ocg (λ cg, CollectionGroup.read_only cg == false)
          || is_admin om) (cipher_collections_group_join (Cipher.uuid c) user_uuid d)
  else
    (λ r, CollectionCipher.collection_uuid r.1.1.1) <$>
      where_ (λ '(_, _, om, ocu), bool_decide (is_Some om) && (direct om ocu || is_admin om))
        (cipher_collections_join (Cipher.uuid c) user_uuid d).

Definition Cipher_get_collections (c : Cipher.t) (user_uuid : string) (d : DB) : list string :=
  writable_collections false c user_uuid d.
Definition Cipher_get_admin_collections (c : Cipher.t) (user_uuid : string) (d : DB) : list string :=
  writable_collections true c user_uuid d.

Definition Cipher_get_collections_with_cipher_by_user (user_uuid : string) (d : DB)
    : list (string * string) :=
  remove_dups ((λ r, (CollectionCipher.cipher_uuid r.1.1.1.1.1.1,
                      CollectionCipher.collection_uuid r.1.1.1.1.1.1)) <$>
    where_ (λ '(_, _, m, ocu, _, og, ocg),
        nn ocu (λ cu, CollectionUser.user_uuid cu == user_uuid)
        || (Membership.access_all m == true)
        || (Membership.atype m <=? MembershipType_as_i32 Admin)
        || nn og (λ g, Group.access_all g == true)
        || bool_decide (is_Some ocg))
      (left_join
        (left_join
          (left_join
            (left_join
              (inner_join
                (inner_join (rows (ciphers_collections d)) (rows (collections d))
                   (λ cc c, Collection.uuid c == CollectionCipher.collection_uuid cc))
                (members d) (λ '(_, c) m,
                   (Membership.org_uuid m == Collection.org_uuid c)
                   && (Membership.user_uuid m == user_uuid)))
              (rows (users_collections d)) (λ '(cc, _, _) cu,
                 (CollectionUser.collection_uuid cu == CollectionCipher.collection_uuid cc)
                 && (CollectionUser.user_uuid cu == user_uuid)))
            (rows (groups_users d)) (λ '(_, _, m, _) gu,
               GroupUser.users_organizations_uuid gu == Membership.uuid m))
          (rows (groups d)) (λ '(_, _, m, _, ogu) g,
             nn ogu (λ gu, Group.uuid g == GroupUser.groups_uuid gu)
             && (Group.organizations_uuid g == Membership.org_uuid m)))
        (rows (collections_groups d)) (λ '(cc, _, _, _, _, og) cg,
           (CollectionGroup.collections_uuid cg == CollectionCipher.collection_uuid cc)
           && nn og (λ g, CollectionGroup.groups_uuid cg == Group.uuid g)))).

(** *** [CipherSyncData::new] *)

(** The fold over [CollectionGroup::find_by_user]: the most permissive of all
    groups. *)
Definition merge_group_permissions (l : list CollectionGroup.t) : gmap string CollectionGroup.t :=
  foldl (λ combined cg,
    match combined !! CollectionGroup.collections_uuid cg with
    | Some existing =>
        <[CollectionGroup.collections_uuid cg :=
            CollectionGroup.set_manage (λ b, b || CollectionGroup.manage cg)
              (CollectionGroup.set_hide_passwords (λ b, b && CollectionGroup.hide_passwords cg)
                (CollectionGroup.set_read_only (λ b, b && CollectionGroup.read_only cg) existing))]> combined
    | None => <[CollectionGroup.collections_uuid cg := cg]> combined
    end) ∅ l.

Definition CipherSyncData_new (user_id : string) (sync_type : CipherSyncType) (d : DB)
    : CipherSyncData.t :=
  let orgs := Membership_get_orgs_by_user user_id d in
  {| CipherSyncData.cipher_attachments :=
       collect_vecs ((λ a, (Attachment.cipher_uuid a, a)) <$>
         Attachment_find_all_by_user_and_orgs user_id orgs d);
     CipherSyncData.cipher_folders :=
       match sync_type with
       | SyncUser => collect_map (FolderCipher_find_by_user user_id d)
       | SyncOrganization => ∅
       end;
     CipherSyncData.cipher_favorites :=
       match sync_type with
       | SyncUser => list_to_set (Favorite_get_all_cipher_uuid_by_user user_id d)
       | SyncOrganization => ∅
       end;
     CipherSyncData.cipher_archives :=
       match sync_type with
       | SyncUser => collect_map (Archive_find_by_user user_id d)
       | SyncOrganization => ∅
       end;
     CipherSyncData.cipher_collections :=
       collect_vecs (Cipher_get_collections_with_cipher_by_user user_id d);
     CipherSyncData.members :=
       collect_map ((λ m, (Membership.org_uuid m, m)) <$> Membership_find_confirmed_by_user user_id d);
     CipherSyncData.user_collections :=
       collect_map ((λ cu, (CollectionUser.collection_uuid cu, cu)) <$>
         CollectionUser_find_by_user user_id d);
     CipherSyncData.user_collections_groups :=
       if org_groups_enabled then merge_group_permissions (CollectionGroup_find_by_user user_id d) else ∅;
     CipherSyncData.user_group_full_access_for_organizations :=
       if org_groups_enabled then list_to_set (Group_get_orgs_by_user_with_full_access user_id d) else ∅ |}.

(** *** Updates *)

(** [update_users_revision]: everyone the cipher is shared with; the list is
    what the notification layer is given. *)
Definition Cipher_update_users_revision (c : Cipher.t) : M DB (list string) :=
  match Cipher.user_uuid c with
  | Some user_uuid => User_update_uuid_revision user_uuid ;; mret [user_uuid]
  | None =>
      match Cipher.organization_uuid c with
      | Some org_uuid =>
          direct ← gets (Membership_find_by_cipher_and_org (Cipher.uuid c) org_uuid);
          by_group ← gets (λ d,
            if org_groups_enabled
            then Membership_find_by_cipher_and_org_with_group (Cipher.uuid c) org_uuid d else []);
          let collection_users := direct ++ by_group in
          for_each collection_users (λ m, User_update_uuid_revision (Membership.user_uuid m)) ;;
          mret (Membership.user_uuid <$> collection_users)
      | None => mret []
      end
  end.

Definition option_has {A} (t : gmap string A) (k : option string) : bool :=
  match k with Some k => has t k | None => true end.

Definition Cipher_save (c : Cipher.t) : M DB Cipher.t :=
  Cipher_update_users_revision c ;;
  let c := Cipher.set_updated_at (λ _, now) c in
  save_row (λ d, option_has (users d) (Cipher.user_uuid c)
                 && option_has (organizations d) (Cipher.organization_uuid c))
    (set_ciphers <[Cipher.uuid c := c]>) "Error saving cipher" ;;
  mret c.

(** [Cipher::delete]; rows of [archives] go with the cipher (ON DELETE CASCADE). *)
Definition Cipher_delete (c : Cipher.t) : M DB () :=
  Cipher_update_users_revision c ;;
  FolderCipher_delete_all_by_cipher (Cipher.uuid c) ;;
  CollectionCipher_delete_all_by_cipher (Cipher.uuid c) ;;
  Attachment_delete_all_by_cipher (Cipher.uuid c) ;;
  Favorite_delete_all_by_cipher (Cipher.uuid c) ;;
  delete_row (cipher_referenced (Cipher.uuid c))
    (λ d, set_archives (delete_where (λ r, Archive.cipher_uuid r == Cipher.uuid c))
            (set_ciphers (delete_where (λ r, Cipher.uuid r == Cipher.uuid c)) d))
    "Error deleting cipher".

Definition Cipher_delete_all_by_organization (org_uuid : string) : M DB () :=
  l ← gets (Cipher_find_by_org org_uuid);
  for_each l Cipher_delete.

Definition Cipher_delete_all_by_user (user_uuid : string) : M DB () :=
  l ← gets (Cipher_find_owned_by_user user_uuid);
  for_each l Cipher_delete.

(** [purge_trash]: an error on one cipher does not stop the others. *)
Definition Cipher_purge_trash : M DB () :=
  match trash_auto_delete_days with
  | Some auto_delete_days =>
      l ← gets (Cipher_find_deleted_before (now - auto_delete_days * 86400 * 1000000));
      for_each l (λ c, ignore (Cipher_delete c))
  | None => mret ()
  end.

(** *** Folders and favorites of a user *)

Definition Cipher_get_folder_uuid (c : Cipher.t) (user_uuid : string) (d : DB) : option string :=
  first ((λ '(fc, _), FolderCipher.folder_uuid fc) <$>
    where_ (λ '(fc, f), (Folder.user_uuid f == user_uuid)
                        && (FolderCipher.cipher_uuid fc == Cipher.uuid c))
      (inner_join (rows (folders_ciphers d)) (rows (folders d))
         (λ fc f, FolderCipher.folder_uuid fc == Folder.uuid f))).

Definition Cipher_move_to_folder (folder_uuid : option string) (user_uuid : string) (c : Cipher.t)
    : M DB () :=
  User_update_uuid_revision user_uuid ;;
  current ← gets (Cipher_get_folder_uuid c user_uuid);
  match current, folder_uuid with
  | None, None => mret ()
  | None, Some new_folder => FolderCipher_save (FolderCipher_new new_folder (Cipher.uuid c))
  | Some old_folder, None =>
      o ← gets (FolderCipher_find_by_folder_and_cipher old_folder (Cipher.uuid c));
      match o with
      | Some fc => FolderCipher_delete fc
      | None => err "Couldn't move from previous folder"
      end
  | Some old_folder, Some new_folder =>
      if old_folder == new_folder then mret () else
      o ← gets (FolderCipher_find_by_folder_and_cipher old_folder (Cipher.uuid c));
      match o with
      | Some fc => FolderCipher_delete fc
      | None => mret ()
      end ;;
      FolderCipher_save (FolderCipher_new new_folder (Cipher.uuid c))
  end.

Definition Cipher_set_favorite (favorite : option bool) (user_uuid : string) (c : Cipher.t) : M DB () :=
  match favorite with
  | None => mret ()
  | Some status => Favorite_set_favorite status (Cipher.uuid c) user_uuid
  end.
End ciphers.
