(* ===== verification/Access.v ===== *)
(** Access control of ciphers: the theorems.

    The program answers "may this user see this cipher" in three places: a
    query that lists a vault ([Cipher::find_by_user]), a per-cipher check
    ([Cipher::get_access_restrictions]) and the same check on data cached for a
    whole sync ([CipherSyncData]). This file relates them. *)
From S2P Require Import Prelude Schema Roles Users Invariants Samples Memberships Groups Collections VaultItems Ciphers.
Local Open Scope Z_scope.

(** ** Rows of the elementary queries *)

Section access.
Context `{E : Env}.

Lemma is_in_full_access_group_true u o d :
  Group_is_in_full_access_group u o d = true ↔
  ∃ g gu m, g ∈ rows (groups d) ∧ gu ∈ rows (groups_users d) ∧ m ∈ rows (users_organizations d)
    ∧ GroupUser.groups_uuid gu = Group.uuid g
    ∧ Membership.uuid m = GroupUser.users_organizations_uuid gu
    ∧ Membership.user_uuid m = u ∧ Membership.org_uuid m = o
    ∧ Group.organizations_uuid g = o ∧ Group.access_all g = true.
Proof.
  unfold Group_is_in_full_access_group, first.
  set (l := where_ _ _). split.
  - destruct (head _) as [b|] eqn:Hh; [|done]. simpl. intros ->.
    apply head_Some_elem, list_elem_of_fmap in Hh as ([[g gu] m] & _ & [Hj Hp]%elem_of_where).
    apply elem_of_inner_join in Hj as ([Hg [Hgu Hon]]%elem_of_inner_join & Hm & Hon').
    bools. exists g, gu, m. split_and!; try done. congruence.
  - intros (g & gu & m & Hg & Hgu & Hm & Hon & Hon' & Hu & Ho & Hgo & Haa).
    assert ((g, gu, m) ∈ l) as Hl.
    { apply elem_of_where. split.
      - apply elem_of_inner_join. split_and!; [apply elem_of_inner_join; split_and!|..]; try done.
        + by apply bool_decide_true.
        + rewrite !bool_decide_true; [done|congruence|done].
      - simpl. by rewrite !bool_decide_true. }
    destruct (head_is_Some ((λ r, Group.access_all r.1.1) <$> l) (Group.access_all g)) as (b & Hb & Hin).
    { apply list_elem_of_fmap. by exists (g, gu, m). }
    rewrite Hb. simpl. apply list_elem_of_fmap in Hin as ([[g' gu'] m'] & -> & [_ Hp]%elem_of_where).
    by bools.
Qed.

Lemma user_flags_elem c u d f :
  f ∈ Cipher_get_user_collections_access_flags c u d ↔
  ∃ r cc cu, r ∈ rows (ciphers d) ∧ cc ∈ rows (ciphers_collections d)
    ∧ cu ∈ rows (users_collections d) ∧ Cipher.uuid r = Cipher.uuid c
    ∧ CollectionCipher.cipher_uuid cc = Cipher.uuid c
    ∧ CollectionCipher.collection_uuid cc = CollectionUser.collection_uuid cu
    ∧ CollectionUser.user_uuid cu = u
    ∧ f = (CollectionUser.read_only cu, CollectionUser.hide_passwords cu, CollectionUser.manage cu).
Proof.
  unfold Cipher_get_user_collections_access_flags. rewrite list_elem_of_fmap. split.
  - intros ([[r cc] cu] & -> & Hj).
    apply elem_of_inner_join in Hj as ([[Hr Hrp]%elem_of_where [Hcc Hon]]%elem_of_inner_join & Hcu & Hon').
    bools. exists r, cc, cu. split_and!; try done; congruence.
  - intros (r & cc & cu & Hr & Hcc & Hcu & Hru & Hccu & Hcol & Hu & ->).
    exists (r, cc, cu). split; [done|].
    apply elem_of_inner_join. split_and!; [apply elem_of_inner_join; split_and!|..]; try done.
    + apply elem_of_where. split; [done|]. by apply bool_decide_true.
    + apply bool_decide_true. congruence.
    + by rewrite !bool_decide_true.
Qed.

Lemma group_flags_elem c u d f :
  f ∈ Cipher_get_group_collections_access_flags c u d ↔
  org_groups_enabled = true ∧
  ∃ r cc cg gu m g, r ∈ rows (ciphers d) ∧ cc ∈ rows (ciphers_collections d)
    ∧ cg ∈ rows (collections_groups d) ∧ gu ∈ rows (groups_users d)
    ∧ m ∈ rows (users_organizations d) ∧ g ∈ rows (groups d)
    ∧ Cipher.uuid r = Cipher.uuid c
    ∧ CollectionCipher.cipher_uuid cc = Cipher.uuid c
    ∧ CollectionGroup.collections_uuid cg = CollectionCipher.collection_uuid cc
    ∧ GroupUser.groups_uuid gu = CollectionGroup.groups_uuid cg
    ∧ Membership.uuid m = GroupUser.users_organizations_uuid gu
    ∧ Group.uuid g = CollectionGroup.groups_uuid cg
    ∧ Group.organizations_uuid g = Membership.org_uuid m
    ∧ Membership.user_uuid m = u
    ∧ f = (CollectionGroup.read_only cg, CollectionGroup.hide_passwords cg, CollectionGroup.manage cg).
Proof.
  unfold Cipher_get_group_collections_access_flags.
  destruct org_groups_enabled; simpl; cycle 1.
  { split; [by intros ?%not_elem_of_nil|by intros [? _]]. }
  rewrite list_elem_of_fmap. split.
  - intros ([[[[[r cc] cg] gu] m] g] & -> & [Hj Hp]%elem_of_where). split; [done|].
    apply elem_of_inner_join in Hj as (Hj & Hg & Hon5).
    apply elem_of_inner_join in Hj as (Hj & Hm & Hon4).
    apply elem_of_inner_join in Hj as (Hj & Hgu & Hon3).
    apply elem_of_inner_join in Hj as (Hj & Hcg & Hon2).
    apply elem_of_inner_join in Hj as ([Hr Hrp]%elem_of_where & Hcc & Hon1).
    bools. exists r, cc, cg, gu, m, g. split_and!; try done; congruence.
  - intros (_ & r & cc & cg & gu & m & g & Hr & Hcc & Hcg & Hgu & Hm & Hg & H1 & H2 & H3 & H4 & H5
            & H6 & H7 & H8 & ->).
    exists (r, cc, cg, gu, m, g). split; [done|]. apply elem_of_where. split.
    + repeat (apply elem_of_inner_join; split_and!; try done).
      * apply elem_of_where. split; [done|]. by apply bool_decide_true.
      * apply bool_decide_true. congruence.
      * by apply bool_decide_true.
      * by apply bool_decide_true.
      * by apply bool_decide_true.
      * by rewrite !bool_decide_true.
    + by apply bool_decide_true.
Qed.

(** ** What "accessible" means

    The disjunction that [get_access_restrictions] computes, on the tables. *)
Definition full_access (c : Cipher.t) (u : string) (d : DB) : Prop :=
  Cipher.user_uuid c = Some u
  ∨ (∃ m, m ∈ rows (users_organizations d) ∧ Membership.user_uuid m = u
       ∧ Cipher.organization_uuid c = Some (Membership.org_uuid m)
       ∧ Membership_has_full_access m = true)
  ∨ (org_groups_enabled = true ∧ ∃ o, Cipher.organization_uuid c = Some o
       ∧ Group_is_in_full_access_group u o d = true).

Lemma is_owned_true c u : Cipher_is_owned_by_user c u = true ↔ Cipher.user_uuid c = Some u.
Proof.
  unfold Cipher_is_owned_by_user. destruct (Cipher.user_uuid c) as [v|]; [|done].
  rewrite bool_decide_eq_true. naive_solver.
Qed.

Lemma full_access_true c u d :
  wf d →
  Cipher_is_owned_by_user c u || Cipher_is_in_full_access_org c u None d
    || Cipher_is_in_full_access_group c u None d = true ↔ full_access c u d.
Proof.
  intros Hwf. rewrite !orb_true_iff, is_owned_true.
  unfold full_access, Cipher_is_in_full_access_org, Cipher_is_in_full_access_group.
  assert (Horg : ∀ o, match Membership_find_confirmed_by_user_and_org u o d with
                      | Some member => Membership_has_full_access member | None => false end = true ↔
           ∃ m, m ∈ rows (users_organizations d) ∧ Membership.user_uuid m = u
             ∧ Membership.org_uuid m = o ∧ Membership_has_full_access m = true).
  { intros o. split.
    - destruct (Membership_find_confirmed_by_user_and_org u o d) as [m|] eqn:Hm; [|done].
      apply find_confirmed_Some in Hm; [|done]. naive_solver.
    - intros (m & Hin & Hu & Ho & Hf).
      assert (Membership_find_confirmed_by_user_and_org u o d = Some m) as ->; [|done].
      apply find_confirmed_Some; [done|]. apply has_full_access_true in Hf as [? _]. done. }
  destruct (Cipher.organization_uuid c) as [o|].
  - rewrite Horg. destruct org_groups_enabled; simpl; naive_solver.
  - destruct org_groups_enabled; simpl; naive_solver.
Qed.

Lemma accessible_iff c u d :
  wf d →
  Cipher_is_accessible_to_user c u d = true ↔
  full_access c u d
  ∨ (∃ f, f ∈ Cipher_get_user_collections_access_flags c u d)
  ∨ (∃ f, f ∈ Cipher_get_group_collections_access_flags c u d).
Proof.
  intros Hwf. unfold Cipher_is_accessible_to_user, Cipher_get_access_restrictions.
  rewrite bool_decide_eq_true. pose proof (full_access_true c u d Hwf) as Hfa.
  destruct (Cipher_is_owned_by_user c u || _ || _).
  { split; [intros _; left; by apply Hfa|by eauto]. }
  assert (Hno : ¬ full_access c u d) by (by intros H%Hfa).
  destruct (Cipher_get_user_collections_access_flags c u d) as [|f fs].
  - destruct (Cipher_get_group_collections_access_flags c u d) as [|g gs].
    + split; [by intros []|]. intros [?|[[? ?%not_elem_of_nil]|[? ?%not_elem_of_nil]]]; done.
    + split; [intros _|by eauto]. right; right. exists g. left.
  - split; [intros _|by eauto]. right; left. exists f. left.
Qed.

(** ** The vault listing, on the tables *)

Lemma visible_direct_join_elem u d c occ om ocu :
  (c, occ, om, ocu) ∈ visible_direct_join u d →
  c ∈ rows (ciphers d)
  ∧ (∀ cc, occ = Some cc → cc ∈ rows (ciphers_collections d)
       ∧ CollectionCipher.cipher_uuid cc = Cipher.uuid c)
  ∧ (∀ m, om = Some m → m ∈ rows (users_organizations d) ∧ Membership.user_uuid m = u
       ∧ Cipher.organization_uuid c = Some (Membership.org_uuid m) ∧ Membership.status m = 2)
  ∧ (∀ cu, ocu = Some cu → cu ∈ rows (users_collections d) ∧ ∃ cc m, occ = Some cc ∧ om = Some m
       ∧ CollectionCipher.collection_uuid cc = CollectionUser.collection_uuid cu
       ∧ CollectionUser.user_uuid cu = u).
Proof.
  intros Hj. apply elem_of_left_join in Hj as [Hj Hcu].
  apply elem_of_left_join in Hj as [Hj Hm]. apply elem_of_left_join in Hj as [Hc Hcc].
  split_and!; [done|..].
  - intros cc ->. destruct Hcc as [? Hp]. bools. auto.
  - intros m ->. destruct Hm as [? Hp]. bools. auto.
  - intros cu ->. destruct Hcu as [? Hp]. bools. destruct Hm as [? Hmp]. bools.
    split; [done|]. eexists _, _. split_and!; try done. congruence.
Qed.

(** The reasons for which [find_by_user] lists a stored cipher. *)
Inductive listed (u : string) (visible_only : bool) (c : Cipher.t) (d : DB) : Prop :=
| listed_owner : Cipher.user_uuid c = Some u → listed u visible_only c d
| listed_member m :
    m ∈ rows (users_organizations d) → Membership.user_uuid m = u →
    Cipher.organization_uuid c = Some (Membership.org_uuid m) → Membership.status m = 2 →
    (Membership.access_all m = true ∨ visible_only = false ∧ Membership.atype m ≤ 1) →
    listed u visible_only c d
| listed_grant m cc cu :
    m ∈ rows (users_organizations d) → Membership.user_uuid m = u →
    Cipher.organization_uuid c = Some (Membership.org_uuid m) → Membership.status m = 2 →
    cc ∈ rows (ciphers_collections d) → CollectionCipher.cipher_uuid cc = Cipher.uuid c →
    cu ∈ rows (users_collections d) →
    CollectionCipher.collection_uuid cc = CollectionUser.collection_uuid cu →
    CollectionUser.user_uuid cu = u → listed u visible_only c d
| listed_group m gu g :
    org_groups_enabled = true →
    m ∈ rows (users_organizations d) → Membership.user_uuid m = u →
    Cipher.organization_uuid c = Some (Membership.org_uuid m) → Membership.status m = 2 →
    gu ∈ rows (groups_users d) → GroupUser.users_organizations_uuid gu = Membership.uuid m →
    g ∈ rows (groups d) → Group.uuid g = GroupUser.groups_uuid gu →
    Group.organizations_uuid g = Membership.org_uuid m →
    (Group.access_all g = true ∨
     ∃ cc cg, cc ∈ rows (ciphers_collections d) ∧ CollectionCipher.cipher_uuid cc = Cipher.uuid c
       ∧ cg ∈ rows (collections_groups d)
       ∧ CollectionGroup.collections_uuid cg = CollectionCipher.collection_uuid cc
       ∧ CollectionGroup.groups_uuid cg = Group.uuid g) →
    listed u visible_only c d.

(** A row of the outer joins exists for every combination that matches. *)
Lemma visible_direct_join_ex u d c occ om ocu :
  c ∈ rows (ciphers d) →
  (∀ cc, occ = Some cc → cc ∈ rows (ciphers_collections d)
     ∧ CollectionCipher.cipher_uuid cc = Cipher.uuid c) →
  (∀ m, om = Some m → m ∈ rows (users_organizations d) ∧ Membership.user_uuid m = u
     ∧ Cipher.organization_uuid c = Some (Membership.org_uuid m) ∧ Membership.status m = 2) →
  (∀ cu, ocu = Some cu → cu ∈ rows (users_collections d) ∧ ∃ cc m, occ = Some cc ∧ om = Some m
     ∧ CollectionCipher.collection_uuid cc = CollectionUser.collection_uuid cu
     ∧ CollectionUser.user_uuid cu = u) →
  ∃ occ' om' ocu', (c, occ', om', ocu') ∈ visible_direct_join u d
    ∧ (is_Some occ → occ' = occ) ∧ (is_Some om → om' = om) ∧ (is_Some ocu → ocu' = ocu).
Proof.
  intros Hc Hcc Hm Hcu.
  edestruct (left_join_pick (rows (ciphers d)) (rows (ciphers_collections d))
    (λ c cc, Cipher.uuid c == CollectionCipher.cipher_uuid cc) c occ) as (occ' & H1 & Hocc); [done|..].
  { intros cc (? & ?)%Hcc. split; [done|]. by apply bool_decide_true. }
  edestruct (left_join_pick _ (rows (users_organizations d)) (λ '(c, _) m,
      (Cipher.organization_uuid c == Some (Membership.org_uuid m)) && (Membership.user_uuid m == u)
      && (Membership.status m == MembershipStatus_as_i32 Confirmed)) (c, occ') om H1)
    as (om' & H2 & Hom).
  { intros m (? & ? & ? & ?)%Hm. split; [done|]. by rewrite !bool_decide_true. }
  edestruct (left_join_pick _ (rows (users_collections d)) (λ '(_, occ, om) cu,
       nn occ (λ cc, CollectionCipher.collection_uuid cc == CollectionUser.collection_uuid cu)
       && nn om (λ m, Membership.user_uuid m == CollectionUser.user_uuid cu)) (c, occ', om') ocu H2)
    as (ocu' & H3 & Hocu).
  { intros cu (? & cc & m & -> & -> & Hcol & Hu)%Hcu. split; [done|].
    rewrite Hocc, Hom by eauto. destruct (Hm m) as (_ & Hmu & _); [done|].
    simpl. rewrite !bool_decide_true; [done|congruence|done]. }
  exists occ', om', ocu'. split_and!; done.
Qed.

(** The same for the continuation through the groups of the member. *)
Lemma visible_group_join_ex u d c occ om ocu gu g ocg :
  (c, occ, Some om, ocu) ∈ visible_direct_join u d →
  gu ∈ rows (groups_users d) → GroupUser.users_organizations_uuid gu = Membership.uuid om →
  g ∈ rows (groups d) → Group.uuid g = GroupUser.groups_uuid gu →
  Group.organizations_uuid g = Membership.org_uuid om →
  (∀ cg, ocg = Some cg → cg ∈ rows (collections_groups d)
     ∧ CollectionGroup.groups_uuid cg = Group.uuid g
     ∧ ∃ cc, occ = Some cc ∧ CollectionGroup.collections_uuid cg = CollectionCipher.collection_uuid cc) →
  ∃ ocg', (c, occ, Some om, ocu, Some gu, Some g, ocg') ∈ visible_group_join u d
    ∧ (is_Some ocg → ocg' = ocg).
Proof.
  intros Hj Hgu Hon Hg Hgg Hgo Hcg. apply left_join_pick.
  - apply elem_of_left_join. split; [apply elem_of_left_join; split; [done|]|]; simpl.
    + split; [done|]. by apply bool_decide_true.
    + split; [done|]. by rewrite !bool_decide_true.
  - intros cg (? & ? & cc & -> & ?)%Hcg. split; [done|]. simpl. by rewrite !bool_decide_true.
Qed.

Lemma visible_group_join_weaken u d c occ om ocu :
  (c, occ, om, ocu) ∈ visible_direct_join u d →
  ∃ ogu og ocg, (c, occ, om, ocu, ogu, og, ocg) ∈ visible_group_join u d.
Proof.
  apply left_join3_total.
Qed.

Lemma visible_group_join_elem u d c occ om ocu ogu og ocg :
  (c, occ, om, ocu, ogu, og, ocg) ∈ visible_group_join u d →
  (c, occ, om, ocu) ∈ visible_direct_join u d
  ∧ (∀ g, og = Some g → g ∈ rows (groups d) ∧ ∃ gu m, ogu = Some gu ∧ om = Some m
       ∧ gu ∈ rows (groups_users d) ∧ GroupUser.users_organizations_uuid gu = Membership.uuid m
       ∧ Group.uuid g = GroupUser.groups_uuid gu ∧ Group.organizations_uuid g = Membership.org_uuid m)
  ∧ (∀ cg, ocg = Some cg → cg ∈ rows (collections_groups d) ∧ ∃ cc g, occ = Some cc ∧ og = Some g
       ∧ CollectionGroup.collections_uuid cg = CollectionCipher.collection_uuid cc
       ∧ CollectionGroup.groups_uuid cg = Group.uuid g).
Proof.
  intros Hj. apply elem_of_left_join in Hj as [Hj Hcg]. apply elem_of_left_join in Hj as [Hj Hg].
  apply elem_of_left_join in Hj as [Hj Hgu]. split_and!; [done|..].
  - intros g ->. destruct Hg as [? Hp]. bools. destruct Hgu as [? Hgp]. bools. simplify_eq.
    split; [done|]. eexists _, _. split_and!; done.
  - intros cg ->. destruct Hcg as [? Hp]. bools. split; [done|]. eauto 10.
Qed.

(** The listing and its reasons: soundness and completeness per branch. *)
Ltac pick_row t Hids :=
  exists t; split; [done|]; apply elem_of_where; split; [done|]; simpl;
  rewrite Hids, andb_true_r, !orb_true_iff.

Ltac use_row H := destruct (H _ eq_refl) as (? & ? & ? & ?).

Lemma wanted_true (ids : list string) (c : Cipher.t) :
  (ids == []) || bool_decide (Cipher.uuid c ∈ ids) = true ↔ ids = [] ∨ Cipher.uuid c ∈ ids.
Proof. by rewrite orb_true_iff, !bool_decide_eq_true. Qed.

Lemma find_by_user_sound u vis ids d c :
  c ∈ Cipher_find_by_user u vis ids d →
  c ∈ rows (ciphers d) ∧ listed u vis c d ∧ (ids = [] ∨ Cipher.uuid c ∈ ids).
Proof.
  unfold Cipher_find_by_user.
  destruct org_groups_enabled eqn:Hg; rewrite elem_of_remove_dups, list_elem_of_fmap.
  - intros ([[[[[[c' occ] om] ocu] ogu] og] ocg] & -> & [Hj Hp]%elem_of_where). simpl.
    apply visible_group_join_elem in Hj as (Hj & Hog & Hocg).
    apply visible_direct_join_elem in Hj as (Hc & Hcc & Hm & Hcu).
    apply andb_true_iff in Hp as [Hp Hids%wanted_true]. split_and!; [done| |done].
    rewrite !orb_true_iff in Hp. destruct Hp as [[[[[Ho|Ha]|Hcu']|Hga]|Hcg]|Hadm]; bools.
    + by apply listed_owner.
    + use_row Hm. eapply listed_member; eauto.
    + destruct (Hcu _ eq_refl) as (? & cc & m & -> & -> & ? & ?). use_row Hm.
      destruct (Hcc _ eq_refl) as (? & ?). eapply listed_grant; eauto.
    + destruct (Hog _ eq_refl) as (? & gu & m & -> & -> & ? & ? & ? & ?). use_row Hm.
      eapply listed_group; eauto.
    + destruct Hcg as [cg ->]. destruct (Hocg _ eq_refl) as (? & cc & g & -> & -> & ? & ?).
      destruct (Hog _ eq_refl) as (? & gu & m & -> & -> & ? & ? & ? & ?). use_row Hm.
      destruct (Hcc _ eq_refl) as (? & ?). eapply listed_group; eauto 12.
    + destruct vis; [done|]. use_row Hm. eapply listed_member; eauto. right.
      split; [done|]. by apply Z.leb_le.
  - intros ([[[c' occ] om] ocu] & -> & [Hj Hp]%elem_of_where). simpl.
    apply visible_direct_join_elem in Hj as (Hc & Hcc & Hm & Hcu).
    apply andb_true_iff in Hp as [Hp Hids%wanted_true]. split_and!; [done| |done].
    rewrite !orb_true_iff in Hp. destruct Hp as [[[Ho|Ha]|Hcu']|Hadm]; bools.
    + by apply listed_owner.
    + use_row Hm. eapply listed_member; eauto.
    + destruct (Hcu _ eq_refl) as (? & cc & m & -> & -> & ? & ?). use_row Hm.
      destruct (Hcc _ eq_refl) as (? & ?). eapply listed_grant; eauto.
    + destruct vis; [done|]. use_row Hm. eapply listed_member; eauto. right.
      split; [done|]. by apply Z.leb_le.
Qed.

(** Rows of the joins for the reasons that do not go through a group. *)
Lemma listed_direct_row u vis d c :
  c ∈ rows (ciphers d) → listed u vis c d →
  (∃ m gu g, org_groups_enabled = true ∧ m ∈ rows (users_organizations d) ∧ Membership.user_uuid m = u
     ∧ Cipher.organization_uuid c = Some (Membership.org_uuid m) ∧ Membership.status m = 2
     ∧ gu ∈ rows (groups_users d) ∧ GroupUser.users_organizations_uuid gu = Membership.uuid m
     ∧ g ∈ rows (groups d) ∧ Group.uuid g = GroupUser.groups_uuid gu
     ∧ Group.organizations_uuid g = Membership.org_uuid m
     ∧ (Group.access_all g = true ∨
        ∃ cc cg, cc ∈ rows (ciphers_collections d) ∧ CollectionCipher.cipher_uuid cc = Cipher.uuid c
          ∧ cg ∈ rows (collections_groups d)
          ∧ CollectionGroup.collections_uuid cg = CollectionCipher.collection_uuid cc
          ∧ CollectionGroup.groups_uuid cg = Group.uuid g))
  ∨ ∃ occ om ocu, (c, occ, om, ocu) ∈ visible_direct_join u d
      ∧ ((Cipher.user_uuid c == Some u)
         || nn om (λ m, Membership.access_all m == true)
         || nn ocu (λ cu, CollectionUser.user_uuid cu == u)
         || (negb vis && nn om (λ m, Membership.atype m <=? MembershipType_as_i32 Admin))) = true.
Proof.
  intros Hc Hl.
  destruct Hl as [Ho|m Hm Hu Ho Hs Hr|m cc cu Hm Hu Ho Hs Hcc Hccu Hcu Hcol Hcuu|m gu g];
    [right..|left; by exists m, gu, g].
  - destruct (visible_direct_join_ex u d c None None None Hc) as (occ & om & ocu & Hj & _); try done.
    exists occ, om, ocu. split; [done|]. by rewrite (bool_decide_true (_ = Some u)).
  - destruct (visible_direct_join_ex u d c None (Some m) None Hc) as (occ & om & ocu & Hj & _ & Hom & _);
      try done; [by intros m' [= <-]|]. rewrite Hom in Hj by done.
    exists occ, (Some m), ocu. split; [done|]. rewrite !orb_true_iff. destruct Hr as [Haa|[-> Hadm]].
    + left; left; right. by apply bool_decide_true.
    + right. by apply Z.leb_le.
  - destruct (visible_direct_join_ex u d c (Some cc) (Some m) (Some cu) Hc)
      as (occ & om & ocu & Hj & Hocc & Hom & Hocu);
      [by intros ? [= <-]|by intros ? [= <-]|intros ? [= <-]; split; [done|]; by exists cc, m|].
    rewrite Hocc, Hom, Hocu in Hj by done. exists (Some cc), (Some m), (Some cu). split; [done|].
    rewrite !orb_true_iff. left; right. by apply bool_decide_true.
Qed.

Lemma find_by_user_complete u vis ids d c :
  c ∈ rows (ciphers d) → listed u vis c d → (ids = [] ∨ Cipher.uuid c ∈ ids) →
  c ∈ Cipher_find_by_user u vis ids d.
Proof.
  intros Hc Hl Hids%wanted_true. unfold Cipher_find_by_user.
  destruct (listed_direct_row u vis d c Hc Hl) as [(m & gu & g & Hg & Hm & Hu & Ho & Hs & Hgu & Hgum & Hgin
    & Hgid & Hgo & Hr)|(occ & om & ocu & Hj & Hp)].
  - rewrite Hg, elem_of_remove_dups, list_elem_of_fmap.
    destruct Hr as [Haa|(cc & cg & Hcc & Hccu & Hcg & Hcgc & Hcgg)].
    + destruct (visible_direct_join_ex u d c None (Some m) None Hc)
        as (occ & om & ocu & Hj & _ & Hom & _); try done; [by intros m' [= <-]|].
      rewrite Hom in Hj by done.
      destruct (visible_group_join_ex u d c occ m ocu gu g None) as (ocg & Hj' & _); try done.
      pick_row (c, occ, Some m, ocu, Some gu, Some g, ocg) Hids.
      left; left; right. by apply bool_decide_true.
    + destruct (visible_direct_join_ex u d c (Some cc) (Some m) None Hc)
        as (occ & om & ocu & Hj & Hocc & Hom & _); try done; [by intros ? [= <-]|by intros ? [= <-]|].
      rewrite Hocc, Hom in Hj by done.
      destruct (visible_group_join_ex u d c (Some cc) m ocu gu g (Some cg)) as (ocg & Hj' & Hocg);
        try done; [intros ? [= <-]; eauto 10|]. rewrite Hocg in Hj' by done.
      pick_row (c, Some cc, Some m, ocu, Some gu, Some g, Some cg) Hids.
      by left; right.
  - rewrite !orb_true_iff in Hp.
    destruct org_groups_enabled; rewrite elem_of_remove_dups, list_elem_of_fmap.
    + destruct (visible_group_join_weaken _ _ _ _ _ _ Hj) as (ogu & og & ocg & Hj').
      pick_row (c, occ, om, ocu, ogu, og, ocg) Hids. tauto.
    + pick_row (c, occ, om, ocu) Hids. tauto.
Qed.

(** A cipher in a user's vault listing passes the access check. *)
Lemma listed_accessible u vis d c :
  wf d → roles_valid d → c ∈ rows (ciphers d) → listed u vis c d →
  Cipher_is_accessible_to_user c u d = true.
Proof.
  intros Hwf Hroles Hc Hl. apply accessible_iff; [done|].
  destruct Hl as [Ho|m Hm Hu Ho Hs Hr|m cc cu Hm Hu Ho Hs Hcc Hccu Hcu Hcol Hcuu
                 |m gu g Hen Hm Hu Ho Hs Hgu Hgum Hgin Hgid Hgo [Haa|(cc & cg & ? & ? & ? & ? & ?)]].
  - left. by left.
  - left. right; left. exists m. split_and!; try done. apply has_full_access_true. split; [done|].
    destruct Hr as [?|[_ Hadm]]; [by left|]. right. apply Hroles in Hm. lia.
  - right; left. eexists. apply user_flags_elem. by exists c, cc, cu.
  - left. right; right. split; [done|]. eexists. split; [done|].
    apply is_in_full_access_group_true. exists g, gu, m. split_and!; try done; congruence.
  - right; right. eexists. apply group_flags_elem. split; [done|].
    exists c, cc, cg, gu, m, g. split_and!; try done; congruence.
Qed.

(** every cipher that the vault listing returns to a user (for either mode
    of the query, with or without groups, with or without a filter on ids)
    passes the per-cipher access check for that user: the listing never shows
    more than the check allows. *)
Theorem listing_only_shows_accessible (u : string) (vis : bool) (ids : list string) (d : DB) (c : Cipher.t)
    (Hwf : wf d) (Hroles : roles_valid d)
    (Hin : c ∈ Cipher_find_by_user u vis ids d) :
  c ∈ rows (ciphers d) ∧ Cipher_is_accessible_to_user c u d = true.
Proof.
  apply find_by_user_sound in Hin as (Hc & Hl & _). split; [done|]. by eapply listed_accessible.
Qed.

(** The user is in a group of another organization than [o], and a collection
    of the cipher is shared with that group: the one reason for access that
    the listing does not know. *)
Definition foreign_share (u : string) (c : Cipher.t) (o : string) (d : DB) : Prop :=
  org_groups_enabled = true ∧
  ∃ cc cg gu m g, cc ∈ rows (ciphers_collections d) ∧ CollectionCipher.cipher_uuid cc = Cipher.uuid c
    ∧ cg ∈ rows (collections_groups d) ∧ CollectionGroup.collections_uuid cg = CollectionCipher.collection_uuid cc
    ∧ gu ∈ rows (groups_users d) ∧ GroupUser.groups_uuid gu = CollectionGroup.groups_uuid cg
    ∧ g ∈ rows (groups d) ∧ Group.uuid g = CollectionGroup.groups_uuid cg
    ∧ m ∈ rows (users_organizations d) ∧ Membership.uuid m = GroupUser.users_organizations_uuid gu
    ∧ Membership.user_uuid m = u ∧ Group.organizations_uuid g = Membership.org_uuid m ∧ Membership.org_uuid m ≠ o.

Lemma foreign_share_accessible u c o d :
  wf d → c ∈ rows (ciphers d) → foreign_share u c o d → Cipher_is_accessible_to_user c u d = true.
Proof.
  intros Hwf Hc (Hen & cc & cg & gu & m & g & ?). apply accessible_iff; [done|]. right; right.
  eexists. apply group_flags_elem. split; [done|]. exists c, cc, cg, gu, m, g. naive_solver.
Qed.

(** In consistent data there is no such share. *)
Lemma consistent_no_foreign_share u c o d :
  org_consistent d → c ∈ rows (ciphers d) → Cipher.organization_uuid c = Some o → ¬ foreign_share u c o d.
Proof.
  intros Hoc Hc Ho (_ & cc & cg & gu & m & g & Hcc & Hccu & Hcg & Hcol & _ & _ & Hg & Hgid & _ & _ & _ & Hgo & Hne).
  destruct (oc_collection _ Hoc cc Hcc) as (col & Hcolin & Hcolid).
  assert (Cipher.organization_uuid c = Some (Collection.org_uuid col)) by (eapply (oc_cipher _ Hoc cc); eauto).
  assert (Group.organizations_uuid g = Collection.org_uuid col) by (eapply (oc_group _ Hoc cg); eauto; congruence).
  congruence.
Qed.

(** For a confirmed member of the owning organization, the reasons for access
    are the reasons for being listed, the role, and a foreign share. *)
Lemma accessible_listed u d c m :
  wf d → c ∈ rows (ciphers d) → m ∈ rows (users_organizations d) →
  Membership.user_uuid m = u → Cipher.organization_uuid c = Some (Membership.org_uuid m) →
  Membership.status m = 2 → Cipher_is_accessible_to_user c u d = true →
  listed u true c d ∨ Membership.atype m ≤ 1 ∨ foreign_share u c (Membership.org_uuid m) d.
Proof.
  intros Hwf Hc Hm Hu Ho Hs [Hfa|[[f Hf]|[f Hf]]]%accessible_iff; [|..|done].
  - destruct Hfa as [Hown|[(m' & Hm' & Hu' & Ho' & Hf)|(Hen & o & Ho' & Hg)]].
    + left. by apply listed_owner.
    + assert (m' = m) as -> by (eapply wf_member_unique; eauto; congruence).
      apply has_full_access_true in Hf as [Hs' [?|?]]; [|right; left; lia].
      left. eapply (listed_member _ _ _ _ m); try done. by left.
    + apply is_in_full_access_group_true in Hg as (g & gu & m' & ? & ? & Hm' & ? & ? & Hu' & Ho'' & ? & ?).
      assert (m' = m) as -> by (eapply wf_member_unique; eauto; congruence).
      left. eapply (listed_group _ _ _ _ m gu g); try congruence; try done. by left.
  - apply user_flags_elem in Hf as (r & cc & cu & _ & ? & ? & _ & ? & ? & ? & _).
    left. by eapply (listed_grant _ _ _ _ m cc cu).
  - apply group_flags_elem in Hf as (Hen & r & cc & cg & gu & m' & g & _ & Hcc & Hcg & ? & Hm' & ? & _ & Hccu
      & Hcol & ? & ? & ? & Hgo & Hu' & _).
    destruct (decide (Membership.org_uuid m' = Membership.org_uuid m)) as [Heq|Hne].
    + assert (m' = m) as -> by (eapply wf_member_unique; eauto; congruence).
      left. eapply (listed_group _ _ _ _ m gu g); try congruence; try done. right. exists cc, cg. by split_and!.
    + right; right. split; [done|]. exists cc, cg, gu, m', g. by split_and!.
Qed.

Lemma listed_ids u ids d c :
  c ∈ Cipher_find_by_user u true ids d ↔ c ∈ Cipher_find_by_user_visible u d ∧ (ids = [] ∨ Cipher.uuid c ∈ ids).
Proof.
  split.
  - intros (Hc & Hl & Hids)%find_by_user_sound. split; [|done]. apply find_by_user_complete; auto.
  - intros [(Hc & Hl & _)%find_by_user_sound Hids]. by apply find_by_user_complete.
Qed.

(** C6. For a confirmed member of the organization that owns a cipher, the
    per-cipher access check and the listings of the vault agree, up to two
    cases that the code has. The cipher is accessible exactly when
    [find_by_user_visible], which the vault is synchronised with, returns it,
    or the member is an administrator or owner (who may open every cipher of
    the organization but is only shown what is shared with them), or a
    collection of the cipher is shared with a group of another organization
    that the user is in, of which consistent data have none. The queries for
    some ids and for one id return of the visible ciphers those asked for. *)
Theorem member_access_iff_listed (u : string) (d : DB) (c : Cipher.t) (m : Membership.t)
    (Hwf : wf d) (Hroles : roles_valid d)
    (Hc : c ∈ rows (ciphers d)) (Hm : m ∈ rows (users_organizations d))
    (Hu : Membership.user_uuid m = u)
    (Ho : Cipher.organization_uuid c = Some (Membership.org_uuid m))
    (Hs : Membership.status m = MembershipStatus_as_i32 Confirmed) :
  (Cipher_is_accessible_to_user c u d = true
   ↔ c ∈ Cipher_find_by_user_visible u d
     ∨ Membership.atype m ≤ MembershipType_as_i32 Admin
     ∨ foreign_share u c (Membership.org_uuid m) d)
  ∧ (org_consistent d → ¬ foreign_share u c (Membership.org_uuid m) d)
  ∧ (∀ ids, ids ≠ [] →
       c ∈ Cipher_find_by_user_and_ciphers u ids d ↔ c ∈ Cipher_find_by_user_visible u d ∧ Cipher.uuid c ∈ ids)
  ∧ (Cipher_find_by_user_and_cipher u (Cipher.uuid c) d = Some c ↔ c ∈ Cipher_find_by_user_visible u d).
Proof.
  split_and!.
  - split.
    + intros Ha. destruct (accessible_listed u d c m) as [Hl|Hr]; try done; [left|by right].
      apply find_by_user_complete; auto.
    + intros [(_ & Hl & _)%find_by_user_sound|[Hadm|Hf]]; [by eapply listed_accessible| |by eapply foreign_share_accessible].
      eapply (listed_accessible u false); try done. eapply (listed_member _ _ _ _ m); try done. by right.
  - intros Hoc. by apply consistent_no_foreign_share.
  - intros ids Hne. unfold Cipher_find_by_user_and_ciphers. rewrite listed_ids. naive_solver.
  - unfold Cipher_find_by_user_and_cipher. split.
    + intros Hl%last_Some_elem_of. by apply listed_ids in Hl as [].
    + intros Hv. assert (c ∈ Cipher_find_by_user u true [Cipher.uuid c] d) as Hin by (apply listed_ids; set_solver).
      destruct (last _) as [c'|] eqn:Hlast; [|apply last_None in Hlast; rewrite Hlast in Hin; by apply not_elem_of_nil in Hin].
      apply last_Some_elem_of, find_by_user_sound in Hlast as (Hc' & _ & [?|Hid%list_elem_of_singleton]); [done|].
      f_equal. apply elem_of_rows in Hc as [k Hk], Hc' as [k' Hk'].
      pose proof (wf_ciphers _ Hwf _ _ Hk). pose proof (wf_ciphers _ Hwf _ _ Hk'). simpl in *. congruence.
Qed.

(** ** A grant outlives a revocation *)

Lemma combine_flags_from acc l :
  foldl (λ '(read_only, hide_passwords, manage) '(ro, hp, mn),
           (read_only && ro, hide_passwords && hp, manage || mn)) acc l =
  (acc.1.1 && forallb (λ f, f.1.1) l, acc.1.2 && forallb (λ f, f.1.2) l, acc.2 || existsb (λ f, f.2) l).
Proof.
  revert acc. induction l as [|[[ro hp] mn] l IH]; intros [[a b] c]; simpl.
  - by rewrite !andb_true_r, orb_false_r.
  - rewrite IH. simpl. by rewrite !andb_assoc, orb_assoc.
Qed.

(** A flag that restricts is in force when every share has it; [manage] when
    some share has it. *)
Lemma combine_flags_spec l :
  combine_flags l = (forallb (λ f, f.1.1) l, forallb (λ f, f.1.2) l, existsb (λ f, f.2) l).
Proof. unfold combine_flags. by rewrite combine_flags_from. Qed.

Lemma grant_gives_access c u d f :
  f ∈ Cipher_get_user_collections_access_flags c u d →
  Cipher_is_accessible_to_user c u d = true
  ∧ (f.1.1 = false → Cipher_is_write_accessible_to_user c u d = true).
Proof.
  intros Hf. unfold Cipher_is_accessible_to_user, Cipher_is_write_accessible_to_user,
    Cipher_get_access_restrictions.
  destruct (Cipher_is_owned_by_user c u || _ || _); [by split; [apply bool_decide_true|]|].
  destruct (Cipher_get_user_collections_access_flags c u d) as [|g gs] eqn:Ef;
    [by apply not_elem_of_nil in Hf|].
  split; [by apply bool_decide_true|]. intros Hro. rewrite combine_flags_spec.
  apply orb_true_iff; left. apply negb_true_iff, not_true_iff_false.
  intros Hall. rewrite forallb_elem in Hall. by rewrite Hall in Hro.
Qed.

Lemma not_listed_without_membership u vis d c :
  Cipher.user_uuid c ≠ Some u →
  (∀ m, m ∈ rows (users_organizations d) → Membership.user_uuid m = u →
     Cipher.organization_uuid c = Some (Membership.org_uuid m) → Membership.status m ≠ 2) →
  ¬ listed u vis c d.
Proof. intros Ho Hno Hl. destruct Hl; naive_solver. Qed.

(** [Membership::save] on a stored row: the row is replaced, and nothing but
    the revision date of the user changes besides. *)
Lemma Membership_save_stored d m m' :
  wf d → m ∈ rows (users_organizations d) → Membership.uuid m' = Membership.uuid m →
  Membership.user_uuid m' = Membership.user_uuid m → Membership.org_uuid m' = Membership.org_uuid m →
  has (users d) (Membership.user_uuid m) = true → has (organizations d) (Membership.org_uuid m) = true →
  Membership_save m' d =
    (Ok (), set_users_organizations <[Membership.uuid m := m']>
       (User_update_uuid_revision (Membership.user_uuid m) d).2).
Proof.
  intros Hwf Hm Hid Hu Ho HU HO. unfold Membership_save, User_update_uuid_revision. rewrite run_modify. unfold save_row.
  rewrite Hid, Hu, Ho. simpl.
  assert (has (update_where (λ u, User.uuid u == Membership.user_uuid m)
            (User.set_updated_at (λ _, now)) (users d)) (Membership.user_uuid m) = true) as ->.
  { unfold has in *. rewrite lookup_update_where. rewrite bool_decide_eq_true in *. by apply fmap_is_Some. }
  rewrite HO. simpl.
  destruct (nonempty _) eqn:Hne; [|done]. exfalso.
  apply nonempty_true in Hne as (r & [Hr Hp]%elem_of_where). bools.
  destruct (wf_member_unique _ Hwf r m); try done.
Qed.

(** revoking a member does not take direct grants away. After the owner of
    a grant on a collection is revoked and saved, the vault listing no longer
    returns the ciphers of that collection, but the per-cipher check still
    answers that they are accessible, and writable when the grant is not
    read-only. *)
Theorem revoked_member_keeps_granted_ciphers (d : DB) (c : Cipher.t) (m : Membership.t)
    (cc : CollectionCipher.t) (cu : CollectionUser.t) (vis : bool) (ids : list string)
    (Hwf : wf d) (Hm : m ∈ rows (users_organizations d)) (Hstatus : 0 ≤ Membership.status m < 128)
    (HU : has (users d) (Membership.user_uuid m) = true)
    (HO : has (organizations d) (Membership.org_uuid m) = true)
    (Hc : c ∈ rows (ciphers d)) (Hcu : Cipher.user_uuid c = None)
    (Ho : Cipher.organization_uuid c = Some (Membership.org_uuid m))
    (Hcc : cc ∈ rows (ciphers_collections d)) (Hccu : CollectionCipher.cipher_uuid cc = Cipher.uuid c)
    (Hg : cu ∈ rows (users_collections d)) (Hgu : CollectionUser.user_uuid cu = Membership.user_uuid m)
    (Hgc : CollectionUser.collection_uuid cu = CollectionCipher.collection_uuid cc) :
  let u := Membership.user_uuid m in
  let '(r, d') := Membership_save (Membership_revoke m).2 d in
  r = Ok ()
  ∧ c ∉ Cipher_find_by_user u vis ids d'
  ∧ Cipher_is_accessible_to_user c u d' = true
  ∧ (CollectionUser.read_only cu = false → Cipher_is_write_accessible_to_user c u d' = true).
Proof.
  assert (Hrev : (Membership_revoke m).2 = Membership.set_status (λ s, s - ACTIVATE_REVOKE_DIFF) m).
  { unfold Membership_revoke. simpl. destruct (Z.ltb_spec (-1) (Membership.status m)); [done|lia]. }
  rewrite (Membership_save_stored d m) by (done || by rewrite Hrev). rewrite Hrev. simpl.
  set (m' := Membership.set_status _ m).
  match goal with |- _ ∧ c ∉ Cipher_find_by_user _ _ _ ?x ∧ _ => set (d' := x) end.
  assert (Hin : ∀ f, f = (CollectionUser.read_only cu, CollectionUser.hide_passwords cu, CollectionUser.manage cu) →
    f ∈ Cipher_get_user_collections_access_flags c (Membership.user_uuid m) d').
  { intros f ->. apply user_flags_elem. by exists c, cc, cu. }
  destruct (grant_gives_access _ _ _ _ (Hin _ eq_refl)) as [Hacc Hw].
  split_and!; [done| |done|done].
  intros (_ & Hl & _)%find_by_user_sound. revert Hl. apply not_listed_without_membership; [congruence|].
  intros r Hr Hru Hro. rewrite Ho in Hro. injection Hro as Hro.
  apply elem_of_rows in Hr as (k & Hk). unfold d' in Hk. simpl in Hk.
  destruct (decide (k = Membership.uuid m)) as [->|Hne].
  - rewrite lookup_insert_eq in Hk. injection Hk as <-. unfold m', ACTIVATE_REVOKE_DIFF. simpl. lia.
  - rewrite lookup_insert_ne in Hk by done. destruct Hne.
    assert (r = m) as -> by (eapply wf_member_unique; eauto; apply elem_of_rows; eauto).
    symmetry. by apply (wf_members _ Hwf) in Hk.
Qed.
End access.

(** ** The theorems on the sample deployment *)

Lemma listing_only_shows_accessible_witness :
  Sample.k1 ∈ rows (ciphers Sample.db)
  ∧ Cipher_is_accessible_to_user (E:=Sample.env) Sample.k1 "bob" Sample.db = true.
Proof.
  apply (listing_only_shows_accessible (E:=Sample.env) "bob" true [] Sample.db Sample.k1).
  - apply Sample.db_wf.
  - apply Sample.db_roles.
  - by apply (bool_decide_eq_true_1 _); vm_compute.
Defined.

Lemma member_access_iff_listed_witness :
  Sample.k3 ∈ Cipher_find_by_user_visible (E:=Sample.env) "bob" Sample.db
  ∧ Cipher_is_accessible_to_user (E:=Sample.env) Sample.k3 "bob" Sample.db = true.
Proof.
  assert (Sample.k3 ∈ Cipher_find_by_user_visible (E:=Sample.env) "bob" Sample.db) as Hv
    by (by apply (bool_decide_eq_true_1 _); vm_compute).
  split; [exact Hv|].
  apply (member_access_iff_listed (E:=Sample.env) "bob" Sample.db Sample.k3 Sample.bob);
    [apply Sample.db_wf|apply Sample.db_roles| | |reflexivity..|by left].
  - by apply (elem_of_rows_key _ "k3").
  - by apply (elem_of_rows_key _ "m-bob").
Defined.

Lemma revoked_member_keeps_granted_ciphers_witness :
  let u := Membership.user_uuid Sample.bob in
  let '(r, d') := Membership_save (E:=Sample.env) (Membership_revoke Sample.bob).2 Sample.db in
  r = Ok ()
  ∧ Sample.k1 ∉ Cipher_find_by_user (E:=Sample.env) u false [] d'
  ∧ Cipher_is_accessible_to_user (E:=Sample.env) Sample.k1 u d' = true
  ∧ (CollectionUser.read_only Sample.bob_ops = false →
       Cipher_is_write_accessible_to_user (E:=Sample.env) Sample.k1 u d' = true).
Proof.
  apply (revoked_member_keeps_granted_ciphers (E:=Sample.env) Sample.db Sample.k1 Sample.bob
    Sample.k1_ops Sample.bob_ops false []); [apply Sample.db_wf|..]; try reflexivity.
  - by apply (elem_of_rows_key _ "m-bob").
  - simpl. lia.
  - by apply (elem_of_rows_key _ "k1").
  - by apply (elem_of_rows_key _ ("k1", "ops")).
  - by apply (elem_of_rows_key _ ("bob", "ops")).
Defined.
