(* ===== verification/SyncAccess.v ===== *)
(** The cached access check agrees with the direct one.

    A full sync decides the restrictions of every cipher from
    [CipherSyncData] instead of one query per cipher
    ([Cipher::get_access_restrictions] with [Some cipher_sync_data]). This file
    relates the two computations. They agree unless a cipher is shared with the
    user both by a direct grant on one of its collections and by a group on
    another one; the last theorem shows that they then really differ. *)
From S2P Require Import Prelude Schema Roles Users Invariants Samples Memberships Groups Collections VaultItems Ciphers Access.
Local Open Scope Z_scope.

(** ** Hash maps built from query results *)

Lemma collect_map_from {V} (l : list (string * V)) (m0 : gmap string V) k :
  foldl (λ m '(k, v), <[k := v]> m) m0 l !! k =
  match last (where_ (λ kv, kv.1 == k) l) with Some kv => Some kv.2 | None => m0 !! k end.
Proof.
  revert m0. induction l as [|[k' v] l IH]; intros m0; simpl; [done|].
  rewrite IH. destruct (decide (k' = k)) as [->|Hne].
  - rewrite bool_decide_true by done. rewrite last_cons.
    destruct (last (where_ _ l)); [done|]. by rewrite lookup_insert_eq.
  - rewrite bool_decide_false by done. destruct (last (where_ _ l)); [done|]. by rewrite lookup_insert_ne.
Qed.

Lemma collect_map_None {V} (l : list (string * V)) k :
  collect_map l !! k = None ↔ ∀ v, (k, v) ∉ l.
Proof.
  unfold collect_map. rewrite collect_map_from, lookup_empty.
  destruct (last (where_ _ l)) as [[k' v]|] eqn:Hl.
  - apply last_Some_elem_of, elem_of_where in Hl as [Hin Hk]. simpl in Hk. bools. subst. naive_solver.
  - apply last_None in Hl. split; [|done]. intros _ v Hin.
    assert ((k, v) ∈ where_ (λ kv, kv.1 == k) l) as Hw.
    { apply elem_of_where. split; [done|]. by apply bool_decide_true. }
    rewrite Hl in Hw. by apply not_elem_of_nil in Hw.
Qed.

Lemma collect_map_elem {V} (l : list (string * V)) k v : collect_map l !! k = Some v → (k, v) ∈ l.
Proof.
  unfold collect_map. rewrite collect_map_from, lookup_empty.
  destruct (last (where_ _ l)) as [[k' v']|] eqn:Hl; [|done]. intros [= <-].
  apply last_Some_elem_of, elem_of_where in Hl as [Hin Hk]. simpl in Hk. by bools; subst.
Qed.

Lemma collect_map_Some {V} (l : list (string * V)) k v :
  (∀ v', (k, v') ∈ l → v' = v) → collect_map l !! k = Some v ↔ (k, v) ∈ l.
Proof.
  intros Hu. unfold collect_map. rewrite collect_map_from, lookup_empty.
  assert (Hin : ∀ v', (k, v') ∈ l → (k, v') ∈ where_ (λ kv, kv.1 == k) l).
  { intros v' ?. apply elem_of_where. split; [done|]. by apply bool_decide_true. }
  destruct (last (where_ _ l)) as [[k' v']|] eqn:Hl.
  - apply last_Some_elem_of, elem_of_where in Hl as [Hin' Hk]. simpl in Hk. bools. subst k'.
    simpl. split; [by intros [= ->]|]. intros _. f_equal. by apply Hu.
  - apply last_None in Hl. split; [done|]. intros H%Hin. rewrite Hl in H. by apply not_elem_of_nil in H.
Qed.

Lemma collect_vecs_elem {V} (l : list (string * V)) k v :
  v ∈ default [] (collect_vecs l !! k) ↔ (k, v) ∈ l.
Proof.
  unfold collect_vecs.
  assert (H : ∀ m0, v ∈ default [] (foldl (λ (m : gmap string (list V)) '(k, v),
      <[k := default [] (m !! k) ++ [v]]> m) m0 l !! k) ↔ v ∈ default [] (m0 !! k) ∨ (k, v) ∈ l).
  { induction l as [|[k' v'] l IH]; intros m0; simpl.
    - rewrite elem_of_nil. tauto.
    - rewrite IH, elem_of_cons. destruct (decide (k' = k)) as [->|Hne].
      + rewrite lookup_insert_eq. simpl. rewrite elem_of_app, list_elem_of_singleton. naive_solver.
      + rewrite lookup_insert_ne by done. naive_solver. }
  rewrite H, lookup_empty. simpl. rewrite elem_of_nil. tauto.
Qed.

(** ** The merged permissions of several groups *)

Definition cg_flags (cg : CollectionGroup.t) : bool * bool * bool :=
  (CollectionGroup.read_only cg, CollectionGroup.hide_passwords cg, CollectionGroup.manage cg).
Definition cu_flags (cu : CollectionUser.t) : bool * bool * bool :=
  (CollectionUser.read_only cu, CollectionUser.hide_passwords cu, CollectionUser.manage cu).

Definition grants_on (k : string) (l : list CollectionGroup.t) : list CollectionGroup.t :=
  where_ (λ cg, CollectionGroup.collections_uuid cg == k) l.

(** The fold keeps, per collection, the flags that [combine_flags] would
    compute from all the grants on it. *)
Lemma merge_group_permissions_lookup l k :
  cg_flags <$> merge_group_permissions l !! k =
  match grants_on k l with [] => None | gs => Some (combine_flags (cg_flags <$> gs)) end.
Proof.
  unfold merge_group_permissions.
  assert (H : ∀ m0 : gmap string CollectionGroup.t,
    cg_flags <$> foldl (λ combined cg,
      match combined !! CollectionGroup.collections_uuid cg with
      | Some existing =>
          <[CollectionGroup.collections_uuid cg :=
              CollectionGroup.set_manage (λ b, b || CollectionGroup.manage cg)
                (CollectionGroup.set_hide_passwords (λ b, b && CollectionGroup.hide_passwords cg)
                  (CollectionGroup.set_read_only (λ b, b && CollectionGroup.read_only cg) existing))]> combined
      | None => <[CollectionGroup.collections_uuid cg := cg]> combined
      end) m0 l !! k =
    match cg_flags <$> m0 !! k with
    | Some f => Some (foldl (λ '(read_only, hide_passwords, manage) '(ro, hp, mn),
             (read_only && ro, hide_passwords && hp, manage || mn)) f (cg_flags <$> grants_on k l))
    | None => match grants_on k l with [] => None | gs => Some (combine_flags (cg_flags <$> gs)) end
    end).
  { induction l as [|cg l IH]; intros m0; simpl.
    { by destruct (m0 !! k). }
    rewrite IH. clear IH. destruct (decide (CollectionGroup.collections_uuid cg = k)) as [Hk|Hne].
    - rewrite (bool_decide_true (_ = k)) by done. rewrite !Hk.
      destruct (m0 !! k) as [ex|] eqn:Hm0; rewrite lookup_insert_eq; simpl; [done|].
      rewrite combine_flags_spec, combine_flags_from. simpl. done.
    - rewrite (bool_decide_false (_ = k)) by done.
      destruct (m0 !! CollectionGroup.collections_uuid cg); by rewrite lookup_insert_ne. }
  rewrite H, lookup_empty. done.
Qed.

(** ** Combining flags *)

Lemma combine_flags_ext l1 l2 :
  (∀ f, f ∈ l1 ↔ f ∈ l2) → combine_flags l1 = combine_flags l2.
Proof.
  intros H. rewrite !combine_flags_spec.
  assert (Hall : ∀ p, forallb p l1 = forallb p l2).
  { intros p. apply eq_iff_eq_true. rewrite !forallb_elem. by setoid_rewrite H. }
  assert (Hex : ∀ p, existsb p l1 = existsb p l2).
  { intros p. apply eq_iff_eq_true. rewrite !existsb_elem. by setoid_rewrite H. }
  by rewrite !Hall, Hex.
Qed.

Lemma combine_flags_app l1 l2 :
  combine_flags (l1 ++ l2) =
  let '(r1, h1, m1) := combine_flags l1 in
  let '(r2, h2, m2) := combine_flags l2 in (r1 && r2, h1 && h2, m1 || m2).
Proof. rewrite !combine_flags_spec. by rewrite !forallb_app, existsb_app. Qed.

(** The flags of one collection can be combined before those of the others. *)
Lemma combine_flags_bind {A} (l : list A) (K K' : A → list (bool * bool * bool)) :
  (∀ a, combine_flags (K a) = combine_flags (K' a)) →
  combine_flags (l ≫= K) = combine_flags (l ≫= K').
Proof.
  intros H. induction l as [|a l IH]; [done|]. cbn [mbind list_bind].
  by rewrite !combine_flags_app, H, IH.
Qed.

Lemma bind_nil {A B} (l : list A) (K K' : A → list B) :
  (∀ a, K a = [] ↔ K' a = []) → l ≫= K = [] ↔ l ≫= K' = [].
Proof.
  intros H. induction l as [|a l IH]; [done|]. cbn [mbind list_bind].
  rewrite !app_nil. by rewrite H, IH.
Qed.

(** The outcome for a list of flags: no share, no access. *)
Definition restrictions (l : list (bool * bool * bool)) : option (bool * bool * bool) :=
  match l with [] => None | _ => Some (combine_flags l) end.

Lemma restrictions_ext l1 l2 :
  (l1 = [] ↔ l2 = []) → combine_flags l1 = combine_flags l2 → restrictions l1 = restrictions l2.
Proof. unfold restrictions. 
  intros [H1 H2] Hc. destruct l1, l2; [done|by specialize (H1 eq_refl)|by specialize (H2 eq_refl)|by rewrite Hc].
Qed.

Lemma restrictions_elem_ext l1 l2 :
  (∀ f, f ∈ l1 ↔ f ∈ l2) → restrictions l1 = restrictions l2.
Proof.
  intros H. apply restrictions_ext; [|by apply combine_flags_ext].
  assert (Hnil : ∀ l : list (bool * bool * bool), l = [] ↔ ∀ f, f ∉ l).
  { intros l. destruct l as [|f l]; [set_solver|]. split; [done|]. intros Hf. destruct (Hf f). left. }
  rewrite !Hnil. by setoid_rewrite H.
Qed.

(** ** The two computations *)

(** Group grants that reach user [u], none when groups are switched off. *)
Definition user_group_grants `{Env} (u : string) (d : DB) : list CollectionGroup.t :=
  if org_groups_enabled then CollectionGroup_find_by_user u d else [].

Definition directly_shared (u col : string) (d : DB) : Prop :=
  ∃ cu, cu ∈ rows (users_collections d) ∧ CollectionUser.user_uuid cu = u
    ∧ CollectionUser.collection_uuid cu = col.

Definition group_shared `{Env} (u col : string) (d : DB) : Prop :=
  ∃ cg, cg ∈ user_group_grants u d ∧ CollectionGroup.collections_uuid cg = col.

Definition in_collection (c : Cipher.t) (col : string) (d : DB) : Prop :=
  ∃ cc, cc ∈ rows (ciphers_collections d) ∧ CollectionCipher.cipher_uuid cc = Cipher.uuid c
    ∧ CollectionCipher.collection_uuid cc = col.

(** No collection of the cipher reaches the user by a group alone while another
    one reaches the user directly. *)
Definition unmixed `{Env} (c : Cipher.t) (u : string) (d : DB) : Prop :=
  (∀ col, in_collection c col d → ¬ directly_shared u col d)
  ∨ (∀ col, in_collection c col d → group_shared u col d → directly_shared u col d).

Section sync.
Context `{E : Env}.

Lemma group_grants_elem u d cg :
  cg ∈ user_group_grants u d ↔
  org_groups_enabled = true ∧ cg ∈ rows (collections_groups d) ∧
  ∃ gu m g col, gu ∈ rows (groups_users d) ∧ m ∈ rows (users_organizations d)
    ∧ g ∈ rows (groups d) ∧ col ∈ rows (collections d)
    ∧ GroupUser.groups_uuid gu = CollectionGroup.groups_uuid cg
    ∧ Membership.uuid m = GroupUser.users_organizations_uuid gu
    ∧ Group.uuid g = CollectionGroup.groups_uuid cg
    ∧ Group.organizations_uuid g = Membership.org_uuid m
    ∧ Collection.uuid col = CollectionGroup.collections_uuid cg
    ∧ Collection.org_uuid col = Group.organizations_uuid g
    ∧ Membership.user_uuid m = u.
Proof.
  unfold user_group_grants, CollectionGroup_find_by_user.
  destruct org_groups_enabled; cycle 1.
  { split; [by intros ?%not_elem_of_nil|by intros [? _]]. }
  rewrite list_elem_of_fmap. split.
  - intros ([[[[cg' gu] m] g] col] & -> & [Hj Hp]%elem_of_where). split; [done|].
    apply elem_of_inner_join in Hj as (Hj & Hcol & Hon4).
    apply elem_of_inner_join in Hj as (Hj & Hg & Hon3).
    apply elem_of_inner_join in Hj as (Hj & Hm & Hon2).
    apply elem_of_inner_join in Hj as (Hcg & Hgu & Hon1).
    bools. simpl. split; [done|]. exists gu, m, g, col. by split_and!.
  - intros (_ & Hcg & gu & m & g & col & Hgu & Hm & Hg & Hcol & H1 & H2 & H3 & H4 & H5 & H6 & H7).
    exists (cg, gu, m, g, col). split; [done|]. apply elem_of_where. split; [|by apply bool_decide_true].
    repeat (apply elem_of_inner_join; split_and!; try done); by rewrite !bool_decide_true.
Qed.

(** The collections that [get_collections_with_cipher_by_user] pairs with a
    cipher are collections of it, and contain every one that is shared with
    the user. *)
Lemma sync_collections_sound u d cipher col :
  (cipher, col) ∈ Cipher_get_collections_with_cipher_by_user u d →
  ∃ cc, cc ∈ rows (ciphers_collections d) ∧ CollectionCipher.cipher_uuid cc = cipher
    ∧ CollectionCipher.collection_uuid cc = col.
Proof.
  unfold Cipher_get_collections_with_cipher_by_user. rewrite elem_of_remove_dups.
  intros ([[[[[[cc c] m] ocu] ogu] og] ocg] & [= -> ->] & [Hj _]%elem_of_where)%list_elem_of_fmap.
  do 4 (apply elem_of_left_join in Hj as [Hj _]).
  apply elem_of_inner_join in Hj as (Hj & _). apply elem_of_inner_join in Hj as (Hcc & _).
  simpl. eauto.
Qed.

(** The inner joins of that query: a collection of the cipher in an
    organization the user has a membership in. *)
Lemma sync_base_elem u d cc c m :
  cc ∈ rows (ciphers_collections d) → c ∈ rows (collections d) → m ∈ rows (users_organizations d) →
  Collection.uuid c = CollectionCipher.collection_uuid cc →
  Membership.org_uuid m = Collection.org_uuid c → Membership.user_uuid m = u →
  (cc, c, m) ∈ inner_join
    (inner_join (rows (ciphers_collections d)) (rows (collections d))
       (λ cc c, Collection.uuid c == CollectionCipher.collection_uuid cc))
    (rows (users_organizations d)) (λ '(_, c) m,
       (Membership.org_uuid m == Collection.org_uuid c) && (Membership.user_uuid m == u)).
Proof.
  intros. repeat (apply elem_of_inner_join; split_and!; try done); by rewrite ?bool_decide_true.
Qed.

Lemma sync_collections_direct u d cc c m cu :
  cc ∈ rows (ciphers_collections d) → c ∈ rows (collections d) → m ∈ rows (users_organizations d) →
  Collection.uuid c = CollectionCipher.collection_uuid cc →
  Membership.org_uuid m = Collection.org_uuid c → Membership.user_uuid m = u →
  cu ∈ rows (users_collections d) → CollectionUser.user_uuid cu = u →
  CollectionUser.collection_uuid cu = CollectionCipher.collection_uuid cc →
  (CollectionCipher.cipher_uuid cc, CollectionCipher.collection_uuid cc)
    ∈ Cipher_get_collections_with_cipher_by_user u d.
Proof.
  intros Hcc Hc Hm Hcol Horg Hu Hcu Hcuu Hcuc.
  unfold Cipher_get_collections_with_cipher_by_user.
  pose proof (sync_base_elem u d cc c m Hcc Hc Hm Hcol Horg Hu) as Hb.
  rewrite elem_of_remove_dups, list_elem_of_fmap.
  lazymatch goal with
  |- context [where_ _ (left_join (left_join (left_join ?l ?r1 ?p1) ?r2 ?p2) ?r3 ?p3)] =>
      destruct (left_join3_total l r1 p1 r2 p2 r3 p3 (cc, c, m, Some cu)) as (x & y & z & Hj)
  end; [|exists (cc, c, m, Some cu, x, y, z); split; [done|]; apply elem_of_where; split; [exact Hj|]].
  - apply elem_of_left_join. split; [exact Hb|]. split; [done|]. by rewrite !bool_decide_true.
  - simpl. by rewrite bool_decide_true.
Qed.

Lemma sync_collections_group u d cc c m gu g cg :
  cc ∈ rows (ciphers_collections d) → c ∈ rows (collections d) → m ∈ rows (users_organizations d) →
  Collection.uuid c = CollectionCipher.collection_uuid cc →
  Membership.org_uuid m = Collection.org_uuid c → Membership.user_uuid m = u →
  gu ∈ rows (groups_users d) → g ∈ rows (groups d) → cg ∈ rows (collections_groups d) →
  GroupUser.users_organizations_uuid gu = Membership.uuid m →
  Group.uuid g = GroupUser.groups_uuid gu → Group.organizations_uuid g = Membership.org_uuid m →
  CollectionGroup.collections_uuid cg = CollectionCipher.collection_uuid cc →
  CollectionGroup.groups_uuid cg = Group.uuid g →
  (CollectionCipher.cipher_uuid cc, CollectionCipher.collection_uuid cc)
    ∈ Cipher_get_collections_with_cipher_by_user u d.
Proof.
  intros Hcc Hc Hm Hcol Horg Hu Hgu Hg Hcg H1 H2 H3 H4 H5.
  unfold Cipher_get_collections_with_cipher_by_user.
  pose proof (sync_base_elem u d cc c m Hcc Hc Hm Hcol Horg Hu) as Hb.
  rewrite elem_of_remove_dups, list_elem_of_fmap.
  edestruct (left_join_total _ (rows (users_collections d)) (λ '(cc, _, _) cu,
     (CollectionUser.collection_uuid cu == CollectionCipher.collection_uuid cc)
     && (CollectionUser.user_uuid cu == u)) _ Hb) as [ocu Hocu].
  exists (cc, c, m, ocu, Some gu, Some g, Some cg). split; [done|]. apply elem_of_where. split.
  - repeat (apply elem_of_left_join; split_and!; try done); simpl; by rewrite ?bool_decide_true.
  - by rewrite !orb_true_r.
Qed.

Lemma sync_members u ty d o :
  wf d →
  CipherSyncData.members (CipherSyncData_new u ty d) !! o = Membership_find_confirmed_by_user_and_org u o d.
Proof.
  intros Hwf. simpl.
  assert (Hel : ∀ m, (o, m) ∈ (λ m, (Membership.org_uuid m, m)) <$> Membership_find_confirmed_by_user u d ↔
    Membership_find_confirmed_by_user_and_org u o d = Some m).
  { intros m. rewrite find_confirmed_Some, list_elem_of_fmap by done.
    unfold Membership_find_confirmed_by_user. split.
    - intros (m' & [= -> ->] & [Hm Hp]%elem_of_where). by bools.
    - intros (Hm & Hu & Ho & Hs). exists m. split; [congruence|]. apply elem_of_where.
      split; [done|]. by rewrite !bool_decide_true. }
  destruct (Membership_find_confirmed_by_user_and_org u o d) as [m|] eqn:Hm.
  - apply collect_map_Some; [|by apply Hel]. intros m' Hm'%Hel. congruence.
  - apply collect_map_None. intros m Hm'%Hel. congruence.
Qed.

Lemma sync_full_access_org c u ty d :
  wf d →
  Cipher_is_in_full_access_org c u (Some (CipherSyncData_new u ty d)) d
  = Cipher_is_in_full_access_org c u None d.
Proof.
  intros Hwf. unfold Cipher_is_in_full_access_org.
  destruct (Cipher.organization_uuid c) as [o|]; [|done]. by rewrite sync_members.
Qed.

Lemma orgs_with_full_access_elem u d o :
  o ∈ Group_get_orgs_by_user_with_full_access u d ↔ Group_is_in_full_access_group u o d = true.
Proof.
  unfold Group_get_orgs_by_user_with_full_access.
  rewrite elem_of_remove_dups, list_elem_of_fmap, is_in_full_access_group_true. split.
  - intros ([[gu m] g] & -> & [Hj Hp]%elem_of_where).
    apply elem_of_inner_join in Hj as (Hj & Hg & Hon2).
    apply elem_of_inner_join in Hj as (Hgu & Hm & Hon1). bools.
    exists g, gu, m. by split_and!.
  - intros (g & gu & m & Hg & Hgu & Hm & Hon1 & Hon2 & Hu & Ho & Hgo & Ha).
    exists (gu, m, g). split; [done|]. apply elem_of_where. split; [|by rewrite !bool_decide_true].
    repeat (apply elem_of_inner_join; split_and!; try done);
      rewrite ?bool_decide_true; try done; congruence.
Qed.

Lemma sync_full_access_group c u ty d :
  Cipher_is_in_full_access_group c u (Some (CipherSyncData_new u ty d)) d
  = Cipher_is_in_full_access_group c u None d.
Proof.
  unfold Cipher_is_in_full_access_group. destruct org_groups_enabled eqn:Hen; [|done]. simpl.
  destruct (Cipher.organization_uuid c) as [o|]; [|done]. rewrite Hen.
  apply eq_iff_eq_true. by rewrite bool_decide_eq_true, elem_of_list_to_set, orgs_with_full_access_elem.
Qed.

Lemma sync_user_collection u ty d col cu :
  wf d →
  CipherSyncData.user_collections (CipherSyncData_new u ty d) !! col = Some cu ↔
  cu ∈ rows (users_collections d) ∧ CollectionUser.user_uuid cu = u
  ∧ CollectionUser.collection_uuid cu = col.
Proof.
  intros Hwf. simpl.
  set (l := (λ cu, (CollectionUser.collection_uuid cu, cu)) <$> CollectionUser_find_by_user u d).
  assert (Hel : ∀ x, (col, x) ∈ l ↔ x ∈ rows (users_collections d) ∧ CollectionUser.user_uuid x = u
    ∧ CollectionUser.collection_uuid x = col).
  { intros x. unfold l. rewrite list_elem_of_fmap. unfold CollectionUser_find_by_user. split.
    - intros (x' & [= -> ->] & [Hm Hp]%elem_of_where). by bools.
    - intros (Hm & Hu & Ho). exists x. split; [congruence|]. apply elem_of_where.
      split; [done|]. by rewrite !bool_decide_true. }
  rewrite <-Hel. split; [apply collect_map_elem|].
  intros Hl. apply collect_map_Some; [|done].
  intros y ([k' Hy]%elem_of_rows & Hyu & Hyc)%Hel.
  apply Hel in Hl as ([k Hx]%elem_of_rows & Hxu & Hxc).
  apply (wf_users_collections _ Hwf) in Hx as Hkx. apply (wf_users_collections _ Hwf) in Hy as Hky.
  simpl in *. congruence.
Qed.

Lemma sync_user_collection_None u ty d col :
  wf d →
  CipherSyncData.user_collections (CipherSyncData_new u ty d) !! col = None ↔ ¬ directly_shared u col d.
Proof.
  intros Hwf. rewrite eq_None_not_Some. unfold is_Some, directly_shared.
  by setoid_rewrite (sync_user_collection u ty d col _ Hwf).
Qed.

(** The flags of one collection in a sync: the direct grant, or else those of
    the groups. *)
Definition collection_flags (u : string) (ty : CipherSyncType) (d : DB) (col : string)
    : list (bool * bool * bool) :=
  match CipherSyncData.user_collections (CipherSyncData_new u ty d) !! col with
  | Some cu => [cu_flags cu]
  | None => cg_flags <$> grants_on col (user_group_grants u d)
  end.

Lemma sync_restrictions c u ty d :
  let sd := CipherSyncData_new u ty d in
  wf d →
  Cipher_get_access_restrictions c u (Some sd) d =
  if Cipher_is_owned_by_user c u || Cipher_is_in_full_access_org c u None d
     || Cipher_is_in_full_access_group c u None d
  then Some (false, false, true)
  else restrictions (default [] (CipherSyncData.cipher_collections sd !! Cipher.uuid c)
                       ≫= collection_flags u ty d).
Proof.
  intros sd Hwf. unfold Cipher_get_access_restrictions.
  unfold sd at 1 2. rewrite sync_full_access_org, sync_full_access_group by done.
  destruct (Cipher_is_owned_by_user c u || _ || _); [done|].
  fold (restrictions (match CipherSyncData.cipher_collections sd !! Cipher.uuid c with
      | Some collections => collections ≫= λ collection,
          match CipherSyncData.user_collections sd !! collection with
          | Some cu => [cu_flags cu]
          | None => match CipherSyncData.user_collections_groups sd !! collection with
                    | Some cg => [cg_flags cg] | None => [] end
          end
      | None => [] end)).
  destruct (CipherSyncData.cipher_collections sd !! Cipher.uuid c) as [cols|]; [|done]. simpl default.
  assert (Hgrp : ∀ col, cg_flags <$> CipherSyncData.user_collections_groups sd !! col =
    restrictions (cg_flags <$> grants_on col (user_group_grants u d))).
  { intros col. unfold sd, user_group_grants. simpl. destruct org_groups_enabled; [|done].
    rewrite merge_group_permissions_lookup. by destruct (grants_on _ _). }
  apply restrictions_ext; [apply bind_nil|apply combine_flags_bind]; intros col;
    unfold collection_flags; fold sd;
    (destruct (CipherSyncData.user_collections sd !! col) as [cu|]; [done|]);
    specialize (Hgrp col); destruct (CipherSyncData.user_collections_groups sd !! col) as [cg|];
    destruct (grants_on col _) as [|x xs]; try done.
  injection Hgrp as Hgrp. etrans; [|exact Hgrp]. rewrite combine_flags_spec. simpl.
  by rewrite !andb_true_r, orb_false_r.
Qed.

Lemma direct_restrictions c u d :
  Cipher_get_access_restrictions c u None d =
  if Cipher_is_owned_by_user c u || Cipher_is_in_full_access_org c u None d
     || Cipher_is_in_full_access_group c u None d
  then Some (false, false, true)
  else restrictions (match Cipher_get_user_collections_access_flags c u d with
                     | [] => Cipher_get_group_collections_access_flags c u d
                     | fs => fs end).
Proof.
  unfold Cipher_get_access_restrictions. destruct (_ || _ || _); [done|].
  by destruct (Cipher_get_user_collections_access_flags c u d).
Qed.

(** The flags of the sync, from the tables. *)
Lemma sync_flags_elem c u ty d f :
  wf d → org_consistent d → grants_have_members d → c ∈ rows (ciphers d) →
  f ∈ default [] (CipherSyncData.cipher_collections (CipherSyncData_new u ty d) !! Cipher.uuid c)
        ≫= collection_flags u ty d ↔
  ∃ col, in_collection c col d ∧ f ∈ collection_flags u ty d col.
Proof.
  intros Hwf Hoc Hgm Hc. rewrite list_elem_of_bind. unfold in_collection. split.
  - intros (col & Hf & Hcol). exists col. split; [|done].
    simpl in Hcol. apply collect_vecs_elem, sync_collections_sound in Hcol. naive_solver.
  - intros (col & (cc & Hcc & Hccu & Hccc) & Hf). exists col. split; [done|].
    apply collect_vecs_elem. rewrite <-Hccu, <-Hccc.
    destruct (oc_collection _ Hoc cc Hcc) as (k & Hk & Hkid).
    unfold collection_flags in Hf.
    destruct (CipherSyncData.user_collections _ !! col) as [cu|] eqn:Hcu.
    + apply sync_user_collection in Hcu as (Hcu & Hu & Hcucol); [|done].
      destruct (Hgm cu Hcu) as (k' & m & Hk' & Hkid' & Hm & Hmu & Hmo).
      assert (k' = k) as -> by (eapply (rows_key Collection.uuid); eauto using wf_collections; congruence).
      eapply (sync_collections_direct u d cc k m cu); eauto; congruence.
    + apply list_elem_of_fmap in Hf as (cg & -> & [Hcg Hcgc]%elem_of_where). bools.
      apply group_grants_elem in Hcg as (_ & Hcg & gu & m & g & k' & Hgu & Hm & Hg & Hk' & H1 & H2 & H3
        & H4 & H5 & H6 & H7).
      assert (k' = k) as -> by (eapply (rows_key Collection.uuid); eauto using wf_collections; congruence).
      eapply (sync_collections_group u d cc k m gu g cg); eauto; congruence.
Qed.

(** The direct flags, from the tables. *)
Lemma user_flags_in c u d f :
  c ∈ rows (ciphers d) →
  f ∈ Cipher_get_user_collections_access_flags c u d ↔
  ∃ col cu, in_collection c col d ∧ cu ∈ rows (users_collections d)
    ∧ CollectionUser.user_uuid cu = u ∧ CollectionUser.collection_uuid cu = col ∧ f = cu_flags cu.
Proof.
  intros Hc. rewrite user_flags_elem. unfold in_collection. split.
  - intros (r & cc & cu & Hr & Hcc & Hcu & ? & ? & ? & ? & ->). exists (CollectionUser.collection_uuid cu), cu.
    split_and!; try done. by exists cc.
  - intros (col & cu & (cc & ? & ? & ?) & ? & ? & ? & ->). exists c, cc, cu. split_and!; try done. congruence.
Qed.

Lemma group_flags_in c u d f :
  wf d → org_consistent d → c ∈ rows (ciphers d) →
  f ∈ Cipher_get_group_collections_access_flags c u d ↔
  ∃ col, in_collection c col d ∧ f ∈ cg_flags <$> grants_on col (user_group_grants u d).
Proof.
  intros Hwf Hoc Hc. rewrite group_flags_elem. unfold in_collection. split.
  - intros (Hen & r & cc & cg & gu & m & g & Hr & Hcc & Hcg & Hgu & Hm & Hg & H1 & H2 & H3 & H4 & H5 & H6
      & H7 & H8 & ->).
    exists (CollectionCipher.collection_uuid cc). split; [by exists cc|].
    apply list_elem_of_fmap. exists cg. split; [done|]. apply elem_of_where.
    split; [|by apply bool_decide_true].
    destruct (oc_collection _ Hoc cc Hcc) as (k & Hk & Hkid).
    apply group_grants_elem. split_and!; [done..|]. exists gu, m, g, k.
    split_and!; try done; [congruence|]. symmetry. eapply (oc_group _ Hoc cg); eauto; congruence.
  - intros (col & (cc & Hcc & Hccu & Hccc) & (cg & -> & [Hcg Hcol]%elem_of_where)%list_elem_of_fmap). bools.
    apply group_grants_elem in Hcg as (Hen & Hcg & gu & m & g & k' & Hgu & Hm & Hg & Hk' & H1 & H2 & H3
        & H4 & H5 & H6 & H7).
    split; [done|]. exists c, cc, cg, gu, m, g. split_and!; try done. congruence.
Qed.


(** where sharing is mixed the two computations really differ. If every
    direct grant on the cipher is read-only without [manage], and a group gives
    write access through another collection, then the sync reports the cipher
    as editable ([read_only] is false) while the server refuses to write it. *)
Theorem mixed_sharing_disagrees (c : Cipher.t) (u : string) (ty : CipherSyncType) (d : DB)
    (cu : CollectionUser.t) (cg : CollectionGroup.t)
    (Hwf : wf d) (Hoc : org_consistent d) (Hgm : grants_have_members d) (Hc : c ∈ rows (ciphers d))
    (Hfa : ¬ full_access c u d)
    (Hcu : cu ∈ rows (users_collections d)) (Hcuu : CollectionUser.user_uuid cu = u)
    (Hcuc : in_collection c (CollectionUser.collection_uuid cu) d)
    (Hro : ∀ cu', cu' ∈ rows (users_collections d) → CollectionUser.user_uuid cu' = u →
       CollectionUser.read_only cu' = true ∧ CollectionUser.manage cu' = false)
    (Hcg : cg ∈ user_group_grants u d) (Hcgc : in_collection c (CollectionGroup.collections_uuid cg) d)
    (Hnd : ¬ directly_shared u (CollectionGroup.collections_uuid cg) d)
    (Hw : CollectionGroup.read_only cg = false) :
  (∃ hp mn, Cipher_get_access_restrictions c u (Some (CipherSyncData_new u ty d)) d = Some (false, hp, mn))
  ∧ Cipher_is_write_accessible_to_user c u d = false.
Proof.
  rewrite <-full_access_true in Hfa by done. apply not_true_iff_false in Hfa.
  unfold Cipher_is_write_accessible_to_user.
  rewrite sync_restrictions, direct_restrictions, Hfa by done. split.
  - set (l := _ ≫= _). assert (cg_flags cg ∈ l) as Hl.
    { apply sync_flags_elem; [done..|]. exists (CollectionGroup.collections_uuid cg). split; [done|].
      unfold collection_flags. rewrite (proj2 (sync_user_collection_None _ _ _ _ Hwf)) by done.
      apply list_elem_of_fmap. exists cg. split; [done|]. apply elem_of_where.
      split; [done|]. by apply bool_decide_true. }
    unfold restrictions. destruct l as [|f l']; [by apply not_elem_of_nil in Hl|].
    rewrite combine_flags_spec. do 2 eexists. do 3 f_equal.
    apply not_true_iff_false. rewrite forallb_elem. intros Hall. apply Hall in Hl. simpl in Hl. congruence.
  - pose proof (λ f, user_flags_in c u d f Hc) as Huf.
    destruct (Cipher_get_user_collections_access_flags c u d) as [|f0 fs].
    { destruct (not_elem_of_nil (cu_flags cu)). apply Huf. eauto 10. }
    unfold restrictions. rewrite combine_flags_spec.
    assert (Hf : ∀ f, f ∈ f0 :: fs → f.1.1 = true ∧ f.2 = false).
    { intros f (col & cu' & _ & Hcu' & Hu' & _ & ->)%Huf. simpl. by apply Hro. }
    assert (forallb (λ f : bool * bool * bool, f.1.1) (f0 :: fs) = true) as ->.
    { apply forallb_elem. intros f Hin. by apply Hf. }
    assert (existsb (λ f : bool * bool * bool, f.2) (f0 :: fs) = false) as ->; [|done].
    apply not_true_iff_false. rewrite existsb_elem. intros (f & Hin & Hm).
    apply Hf in Hin. naive_solver congruence.
Qed.
End sync.

(** ** On the sample deployment *)

Lemma sample_bob_direct col : directly_shared "bob" col Sample.db → col = "ops".
Proof.
  intros (cu & [k Hk]%elem_of_rows & _ & <-). simpl in Hk.
  apply lookup_singleton_Some in Hk as [_ <-]. done.
Qed.


Lemma mixed_sharing_disagrees_witness :
  (∃ hp mn, Cipher_get_access_restrictions (E:=Sample.env) Sample.k1 "bob"
     (Some (CipherSyncData_new (E:=Sample.env) "bob" SyncUser Sample.db)) Sample.db = Some (false, hp, mn))
  ∧ Cipher_is_write_accessible_to_user (E:=Sample.env) Sample.k1 "bob" Sample.db = false.
Proof.
  apply (mixed_sharing_disagrees (E:=Sample.env) Sample.k1 "bob" SyncUser Sample.db Sample.bob_ops Sample.devs_dev);
    [apply Sample.db_wf|apply Sample.db_consistent|apply Sample.db_grants|..]; try reflexivity.
  - by apply (elem_of_rows_key _ "k1").
  - rewrite <-full_access_true by apply Sample.db_wf. by vm_compute.
  - by apply (elem_of_rows_key _ ("bob", "ops")).
  - exists Sample.k1_ops. split_and!; [|done..]. by apply (elem_of_rows_key _ ("k1", "ops")).
  - intros cu [k Hk]%elem_of_rows _. simpl in Hk. apply lookup_singleton_Some in Hk as [_ <-]. done.
  - by apply (bool_decide_eq_true_1 _); vm_compute.
  - exists Sample.k1_dev. split_and!; [|done..]. by apply (elem_of_rows_key _ ("k1", "dev")).
  - by intros ?%sample_bob_direct.
Defined.
