(* ===== verification/CollectionAccess.v ===== *)
(** Who may open a collection: the theorems.

    The check on one collection ([can_access_collection], used by the handlers)
    against the query that lists the collections of a user
    ([find_by_user_uuid], used by the sync), and the flags shown to clients. *)
From S2P Require Import Prelude Schema Roles Users Invariants Samples Memberships Groups Collections VaultItems Ciphers.
Local Open Scope Z_scope.

Section collection_access.
Context `{E : Env}.

(** A member is in a group that exists (foreign key of groups_users). *)
Definition groups_exist (d : DB) : Prop :=
  ∀ gu, gu ∈ rows (groups_users d) → ∃ g, g ∈ rows (groups d) ∧ Group.uuid g = GroupUser.groups_uuid gu.

(** The reasons for which a member reaches a collection without being an
    administrator. *)
Inductive reaches_collection (m : Membership.t) (c : Collection.t) (d : DB) : Prop :=
| rc_all : Membership.access_all m = true → reaches_collection m c d
| rc_grant cu : cu ∈ rows (users_collections d) → CollectionUser.collection_uuid cu = Collection.uuid c →
    CollectionUser.user_uuid cu = Membership.user_uuid m → reaches_collection m c d
| rc_group_all gu g : org_groups_enabled = true → gu ∈ rows (groups_users d) → g ∈ rows (groups d) →
    GroupUser.users_organizations_uuid gu = Membership.uuid m → Group.uuid g = GroupUser.groups_uuid gu →
    Group.organizations_uuid g = Membership.org_uuid m → Group.access_all g = true → reaches_collection m c d
| rc_group gu cg : org_groups_enabled = true → gu ∈ rows (groups_users d) → cg ∈ rows (collections_groups d) →
    GroupUser.users_organizations_uuid gu = Membership.uuid m →
    CollectionGroup.groups_uuid cg = GroupUser.groups_uuid gu →
    CollectionGroup.collections_uuid cg = Collection.uuid c → reaches_collection m c d.

(** The check, spelled out. *)
Lemma can_access_reasons m c d :
  org_consistent d → groups_exist d → c ∈ rows (collections d) → Collection.org_uuid c = Membership.org_uuid m →
  Membership.status m = MembershipStatus_as_i32 Confirmed → i32_ge_type (Membership.atype m) Admin = false →
  Collection_can_access_collection m (Collection.uuid c) d = true ↔ reaches_collection m c d.
Proof.
  intros Hoc Hge Hc Ho Hs Hadm. unfold Collection_can_access_collection, Membership_has_full_access, Membership_has_status.
  rewrite (bool_decide_true _ Hs), Hadm, orb_false_r, andb_true_r, andb_true_l, !orb_true_iff, andb_true_iff, orb_true_iff.
  split.
  - intros [[Ha|Hcu]|[Hen [Hg|Hg]]].
    + by apply rc_all.
    + apply bool_decide_eq_true in Hcu as [cu Hcu]. apply head_Some_elem, elem_of_where in Hcu as [Hin Hp]. bools. by eapply rc_grant.
    + apply nonempty_true in Hg as ([gu g] & [Hj Hp]%elem_of_where). apply elem_of_inner_join in Hj as (? & ? & ?). bools.
      by eapply rc_group_all.
    + apply nonempty_true in Hg as ([[[gu cg] g] col] & [Hj Hp]%elem_of_where).
      rewrite !elem_of_inner_join in Hj. destruct Hj as [[(? & ? & ?) [? ?]] [? ?]]. bools. by eapply rc_group.
  - intros [Ha|cu Hcu Hcol Hu|gu g Hen Hgu Hg Hm Hgg Hgo Hall|gu cg Hen Hgu Hcg Hm Hgg Hcol].
    + by left; left.
    + left; right. apply bool_decide_true. unfold CollectionUser_find_by_collection_and_user, first.
      match goal with |- is_Some (head ?l) => destruct (head_is_Some l cu) as (x & -> & _); [|done] end.
      apply elem_of_where. split; [exact Hcu|]. by rewrite !bool_decide_true.
    + right. split; [done|]. left. apply nonempty_true. exists (gu, g). apply elem_of_where. split.
      * apply elem_of_inner_join. split_and!; [done..|]. by apply bool_decide_true.
      * by rewrite !bool_decide_true.
    + right. split; [done|]. right. destruct (Hge gu Hgu) as (g & Hg & Hgu').
      apply nonempty_true. exists (gu, cg, g, c). apply elem_of_where. split.
      * rewrite !elem_of_inner_join. split_and!; try done; try by apply bool_decide_true.
        rewrite !bool_decide_true; [done| |congruence]. symmetry. eapply (oc_group d Hoc cg g c); congruence.
      * by rewrite !bool_decide_true.
Qed.

(** The rows of the listing. *)
Lemma direct_join_elem u d c ocu om :
  (c, ocu, om) ∈ direct_join u d →
  c ∈ rows (collections d)
  ∧ (∀ cu, ocu = Some cu → cu ∈ rows (users_collections d) ∧ CollectionUser.collection_uuid cu = Collection.uuid c
       ∧ CollectionUser.user_uuid cu = u)
  ∧ (∀ m, om = Some m → m ∈ rows (users_organizations d) ∧ Collection.org_uuid c = Membership.org_uuid m
       ∧ Membership.user_uuid m = u).
Proof.
  intros [[Hc Hcu]%elem_of_left_join Hm]%elem_of_left_join. split_and!; [done|..].
  - intros cu ->. destruct Hcu as [? ?]. bools. done.
  - intros m ->. destruct Hm as [? ?]. bools. done.
Qed.

Lemma direct_join_ex u d c ocu m :
  c ∈ rows (collections d) → m ∈ rows (users_organizations d) → Collection.org_uuid c = Membership.org_uuid m →
  Membership.user_uuid m = u →
  (∀ cu, ocu = Some cu → cu ∈ rows (users_collections d) ∧ CollectionUser.collection_uuid cu = Collection.uuid c
     ∧ CollectionUser.user_uuid cu = u) →
  ∃ ocu', (c, ocu', Some m) ∈ direct_join u d ∧ (is_Some ocu → ocu' = ocu).
Proof.
  intros Hc Hm Ho Hu Hcu.
  destruct (left_join_pick (rows (collections d)) (rows (users_collections d)) (λ c cu,
    (CollectionUser.collection_uuid cu == Collection.uuid c) && (CollectionUser.user_uuid cu == u)) c ocu Hc)
    as (ocu' & Hj & Hocu).
  { intros cu (? & ? & ?)%Hcu. split; [done|]. by rewrite !bool_decide_true. }
  exists ocu'. split; [|done]. apply elem_of_left_join. split; [done|]. split; [done|]. by rewrite !bool_decide_true.
Qed.

Lemma listed_reasons u d m c :
  wf d → c ∈ rows (collections d) → m ∈ rows (users_organizations d) → Collection.org_uuid c = Membership.org_uuid m →
  Membership.user_uuid m = u → Membership.status m = MembershipStatus_as_i32 Confirmed →
  c ∈ Collection_find_by_user_uuid u d → reaches_collection m c d.
Proof.
  intros Hwf Hc Hm Ho Hu Hs. unfold Collection_find_by_user_uuid.
  assert (Huniq : ∀ m', m' ∈ rows (users_organizations d) → Collection.org_uuid c = Membership.org_uuid m' →
    Membership.user_uuid m' = u → m' = m).
  { intros m' Hm' Ho' Hu'. apply (wf_member_unique d Hwf); congruence. }
  destruct org_groups_enabled eqn:Hen; rewrite elem_of_remove_dups, list_elem_of_fmap.
  - intros ([[[[[c' ocu] om] ogu] og] ocg] & Hcc & [Hj Hp]%elem_of_where). simpl in Hcc. subst c'.
    apply elem_of_left_join in Hj as [Hj Hcg]. apply elem_of_left_join in Hj as [Hj Hg].
    apply elem_of_left_join in Hj as [Hj Hgu]. apply direct_join_elem in Hj as (_ & Hcu & Hom).
    apply andb_true_iff in Hp as [(m' & -> & _)%nn_true Hp].
    destruct (Hom m' eq_refl) as (Hm' & Ho' & Hu'). assert (m' = m) as -> by (by apply Huniq).
    rewrite !orb_true_iff in Hp. destruct Hp as [[[Hp|Hp]|Hp]|Hp]; bools.
    + destruct (Hcu _ eq_refl) as (? & ? & ?). eapply rc_grant; eauto. congruence.
    + by apply rc_all.
    + destruct Hg as [? ?]. bools. destruct Hgu as [? ?]. bools. by eapply rc_group_all.
    + destruct ocg as [cg|]; [|by match goal with H : is_Some None |- _ => destruct H end]. destruct Hcg as [? ?]. bools. destruct Hgu as [? ?]. bools.
      by eapply rc_group.
  - intros ([[c' ocu] om] & Hcc & [Hj Hp]%elem_of_where). simpl in Hcc. subst c'.
    apply direct_join_elem in Hj as (_ & Hcu & Hom). apply andb_true_iff in Hp as [(m' & -> & _)%nn_true Hp].
    destruct (Hom m' eq_refl) as (Hm' & Ho' & Hu'). assert (m' = m) as -> by (by apply Huniq).
    rewrite !orb_true_iff in Hp. destruct Hp as [Hp|Hp]; bools.
    + destruct (Hcu _ eq_refl) as (? & ? & ?). eapply rc_grant; eauto. congruence.
    + by apply rc_all.
Qed.

(** One row of the joins with groups. *)
Lemma access_join_ex u d c ocu m gu og ocg :
  (c, ocu, Some m) ∈ direct_join u d → gu ∈ rows (groups_users d) →
  GroupUser.users_organizations_uuid gu = Membership.uuid m →
  (∀ g, og = Some g → g ∈ rows (groups d) ∧ Group.uuid g = GroupUser.groups_uuid gu
     ∧ Group.organizations_uuid g = Membership.org_uuid m) →
  (∀ cg, ocg = Some cg → cg ∈ rows (collections_groups d)
     ∧ CollectionGroup.groups_uuid cg = GroupUser.groups_uuid gu
     ∧ CollectionGroup.collections_uuid cg = Collection.uuid c) →
  ∃ og' ocg', (c, ocu, Some m, Some gu, og', ocg') ∈ access_join u d
    ∧ (is_Some og → og' = og) ∧ (is_Some ocg → ocg' = ocg).
Proof.
  intros Hj Hgu Hm Hg Hcg.
  assert (H1 : (c, ocu, Some m, Some gu) ∈ left_join (direct_join u d) (rows (groups_users d)) (λ '(_, _, om) gu,
     nn om (λ m, GroupUser.users_organizations_uuid gu == Membership.uuid m))).
  { apply elem_of_left_join. split; [done|]. split; [done|]. by apply bool_decide_true. }
  destruct (left_join_pick _ (rows (groups d)) (λ '(_, _, om, ogu) g,
    nn ogu (λ gu, Group.uuid g == GroupUser.groups_uuid gu)
    && nn om (λ m, Group.organizations_uuid g == Membership.org_uuid m)) _ og H1) as (og' & H2 & Hog).
  { intros g (? & ? & ?)%Hg. split; [done|]. simpl. by rewrite !bool_decide_true. }
  destruct (left_join_pick _ (rows (collections_groups d)) (λ '(c, _, _, ogu, _) cg,
    nn ogu (λ gu, CollectionGroup.groups_uuid cg == GroupUser.groups_uuid gu)
    && (CollectionGroup.collections_uuid cg == Collection.uuid c)) _ ocg H2) as (ocg' & H3 & Hocg).
  { intros cg (? & ? & ?)%Hcg. split; [done|]. simpl. by rewrite !bool_decide_true. }
  by exists og', ocg'.
Qed.

Lemma access_join_weaken u d c ocu om :
  (c, ocu, om) ∈ direct_join u d → ∃ ogu og ocg, (c, ocu, om, ogu, og, ocg) ∈ access_join u d.
Proof. apply left_join3_total. Qed.

Lemma reasons_listed u d m c :
  c ∈ rows (collections d) → m ∈ rows (users_organizations d) → Collection.org_uuid c = Membership.org_uuid m →
  Membership.user_uuid m = u → Membership.status m = MembershipStatus_as_i32 Confirmed →
  reaches_collection m c d → c ∈ Collection_find_by_user_uuid u d.
Proof.
  intros Hc Hm Ho Hu Hs Hr.
  assert (Hone : ∀ ocu, (∀ cu, ocu = Some cu → cu ∈ rows (users_collections d)
      ∧ CollectionUser.collection_uuid cu = Collection.uuid c ∧ CollectionUser.user_uuid cu = u) →
    ∃ ocu', (c, ocu', Some m) ∈ direct_join u d ∧ (is_Some ocu → ocu' = ocu)).
  { intros ocu. by apply direct_join_ex. }
  assert (Hdirect : ∀ ocu, (c, ocu, Some m) ∈ direct_join u d →
    nn ocu (λ cu, CollectionUser.user_uuid cu == u) || (Membership.access_all m == true) = true →
    c ∈ Collection_find_by_user_uuid u d).
  { intros ocu Hj Hp. unfold Collection_find_by_user_uuid. destruct org_groups_enabled;
      rewrite elem_of_remove_dups, list_elem_of_fmap.
    - destruct (access_join_weaken _ _ _ _ _ Hj) as (ogu & og & ocg & Hj'). eexists. split; [|apply elem_of_where; split; [exact Hj'|]]; [done|].
      simpl. rewrite bool_decide_true by done. by rewrite Hp.
    - eexists. split; [|apply elem_of_where; split; [exact Hj|]]; [done|]. simpl. rewrite bool_decide_true by done. by rewrite Hp. }
  destruct Hr as [Ha|cu Hcu Hcol Hcuu|gu g Hen Hgu Hg Hgm Hgg Hgo Hall|gu cg Hen Hgu Hcg Hgm Hgg Hcol].
  - destruct (Hone None) as (ocu & Hj & _); [done|]. apply (Hdirect ocu Hj). rewrite (bool_decide_true _ Ha). apply orb_true_r.
  - destruct (Hone (Some cu)) as (ocu & Hj & Hocu); [intros ? [= <-]; split_and!; [done..|congruence]|].
    rewrite Hocu in Hj by done. apply (Hdirect _ Hj). simpl. rewrite bool_decide_true by congruence. done.
  - destruct (Hone None) as (ocu & Hj & _); [done|]. unfold Collection_find_by_user_uuid. rewrite Hen, elem_of_remove_dups, list_elem_of_fmap.
    destruct (access_join_ex u d c ocu m gu (Some g) None) as (og & ocg & Hj' & Hog & _); [done..|by intros ? [= <-]|done|].
    rewrite Hog in Hj' by done.
    eexists. split; [|apply elem_of_where; split; [exact Hj'|]]; [done|]. simpl. rewrite (bool_decide_true _ Hs), (bool_decide_true _ Hall).
    by rewrite orb_true_r.
  - destruct (Hone None) as (ocu & Hj & _); [done|]. unfold Collection_find_by_user_uuid. rewrite Hen, elem_of_remove_dups, list_elem_of_fmap.
    destruct (access_join_ex u d c ocu m gu None (Some cg)) as (og & ocg & Hj' & _ & Hocg); [done..|by intros ? [= <-]|].
    rewrite Hocg in Hj' by done.
    eexists. split; [|apply elem_of_where; split; [exact Hj'|]]; [done|]. simpl.
    rewrite (bool_decide_true _ Hs), (bool_decide_true _ Hgm). by rewrite orb_true_r.
Qed.

(** for a confirmed member below administrator, the check whether a
    collection may be opened and the listing of the member's collections agree. *)
Theorem collection_access_iff_listed (d : DB) (m : Membership.t) (c : Collection.t) :
  wf d → org_consistent d → groups_exist d → c ∈ rows (collections d) → m ∈ rows (users_organizations d) →
  Collection.org_uuid c = Membership.org_uuid m → Membership.status m = MembershipStatus_as_i32 Confirmed →
  i32_ge_type (Membership.atype m) Admin = false →
  Collection_can_access_collection m (Collection.uuid c) d = true
  ↔ c ∈ Collection_find_by_user_uuid (Membership.user_uuid m) d.
Proof.
  intros Hwf Hoc Hge Hc Hm Ho Hs Hadm. rewrite can_access_reasons by done. split; intros Hr.
  - by eapply reasons_listed.
  - by eapply listed_reasons.
Qed.

(** A group with access to everything makes its members' collections writable. *)
Lemma full_access_group_writable d m c gu g :
  c ∈ rows (collections d) → m ∈ rows (users_organizations d) → Collection.org_uuid c = Membership.org_uuid m →
  org_groups_enabled = true → gu ∈ rows (groups_users d) → g ∈ rows (groups d) →
  GroupUser.users_organizations_uuid gu = Membership.uuid m → Group.uuid g = GroupUser.groups_uuid gu →
  Group.organizations_uuid g = Membership.org_uuid m → Group.access_all g = true →
  Collection_is_writable_by_user (Collection.uuid c) (Membership.user_uuid m) d = true.
Proof.
  intros Hc Hm Ho Hen Hgu Hg Hgm Hgg Hgo Hall. unfold Collection_is_writable_by_user. rewrite Hen. apply nonempty_true.
  assert (H0 : (c, m) ∈ inner_join (where_ (λ c', Collection.uuid c' == Collection.uuid c) (rows (collections d)))
    (rows (users_organizations d)) (λ c m', (Collection.org_uuid c == Membership.org_uuid m')
      && (Membership.user_uuid m' == Membership.user_uuid m))).
  { apply elem_of_inner_join. split_and!; [apply elem_of_where; split; [done|]|done|]; by rewrite !bool_decide_true. }
  destruct (left_join_total _ (rows (users_collections d)) (λ '(c, _) cu,
    (CollectionUser.collection_uuid cu == Collection.uuid c) && (CollectionUser.user_uuid cu == Membership.user_uuid m)) _ H0)
    as [ocu H1].
  destruct (left_join_pick _ (rows (groups_users d)) (λ '(_, m, _) gu,
    GroupUser.users_organizations_uuid gu == Membership.uuid m) _ (Some gu) H1) as (ogu & H2 & Hogu).
  { intros ? [= <-]. split; [done|]. by apply bool_decide_true. }
  rewrite Hogu in H2 by done.
  destruct (left_join_pick _ (rows (groups d)) (λ '(_, m, _, ogu) g,
    nn ogu (λ gu, Group.uuid g == GroupUser.groups_uuid gu) && (Group.organizations_uuid g == Membership.org_uuid m))
    _ (Some g) H2) as (og & H3 & Hog).
  { intros ? [= <-]. split; [done|]. simpl. by rewrite !bool_decide_true. }
  rewrite Hog in H3 by done. destruct (left_join_total _ (rows (collections_groups d)) (λ '(c, _, _, ogu, _) cg,
    nn ogu (λ gu, CollectionGroup.groups_uuid cg == GroupUser.groups_uuid gu)
    && (CollectionGroup.collections_uuid cg == Collection.uuid c)) _ H3) as [ocg H4].
  eexists. apply elem_of_where. split; [exact H4|]. simpl. rewrite (bool_decide_true _ Hall). by rewrite orb_true_r.
Qed.

(** a member who reaches a collection only through a group with access to
    everything is shown the collection as writable with hidden passwords: the
    query for the flag asks for access to everything OR for the flag. *)
Theorem full_access_group_hides_passwords (d : DB) (m : Membership.t) (c : Collection.t) (gu : GroupUser.t) (g : Group.t) :
  wf d → c ∈ rows (collections d) → m ∈ rows (users_organizations d) →
  Collection.org_uuid c = Membership.org_uuid m → Membership.status m = MembershipStatus_as_i32 Confirmed →
  Membership.atype m = MembershipType_as_i32 User_ → Membership.access_all m = false → org_groups_enabled = true →
  gu ∈ rows (groups_users d) → g ∈ rows (groups d) → GroupUser.users_organizations_uuid gu = Membership.uuid m →
  Group.uuid g = GroupUser.groups_uuid gu → Group.organizations_uuid g = Membership.org_uuid m → Group.access_all g = true →
  Collection_details_flags c (Membership.user_uuid m) d = (false, true, false).
Proof.
  intros Hwf Hc Hm Ho Hs Ht Haa Hen Hgu Hg Hgm Hgg Hgo Hall. unfold Collection_details_flags.
  rewrite (proj2 (find_confirmed_Some d (Membership.user_uuid m) (Collection.org_uuid c) m Hwf)) by done.
  unfold Membership_has_full_access, i32_ge_type, i32_eq_type. rewrite Haa, Ht. simpl.
  destruct (direct_join_ex (Membership.user_uuid m) d c None m) as (ocu & Hj & _); [done..|].
  destruct (access_join_ex (Membership.user_uuid m) d c ocu m gu (Some g) None) as (og & ocg & Hj' & Hog & _); [done..|by intros ? [= <-]|done|].
  rewrite Hog in Hj' by done.
  assert (Hh : Collection_hide_passwords_for_user (Collection.uuid c) (Membership.user_uuid m) d = true).
  { apply nonempty_true. eexists. apply elem_of_where. split; [exact Hj'|]. simpl.
    rewrite (bool_decide_true _ Hall), bool_decide_true by done. by rewrite !orb_true_r. }
  assert (Hw : Collection_is_writable_by_user (Collection.uuid c) (Membership.user_uuid m) d = true).
  { by eapply full_access_group_writable. }
  by rewrite Hw, Hh.
Qed.
End collection_access.

(** ** Witnesses *)

#[local] Existing Instance Sample.env.
Local Open Scope string_scope.

Lemma sample_groups_exist : groups_exist Sample.db.
Proof.
  intros gu Hgu. assert (Hb : all_rows (groups_users Sample.db) (λ gu, any_row (groups Sample.db)
    (λ g, Group.uuid g == GroupUser.groups_uuid gu)) = true) by (by vm_compute).
  rewrite all_rows_true in Hb. specialize (Hb gu Hgu). rewrite any_row_true in Hb. destruct Hb as (g & Hg & ?). bools. eauto.
Qed.

Lemma collection_access_iff_listed_witness :
  Collection_can_access_collection Sample.bob "dev" Sample.db = true
  ↔ Sample.dev ∈ Collection_find_by_user_uuid "bob" Sample.db.
Proof.
  apply (collection_access_iff_listed Sample.db Sample.bob Sample.dev);
    [apply Sample.db_wf|apply Sample.db_consistent|apply sample_groups_exist|apply elem_of_rows; by exists "dev"
    |apply elem_of_rows; by exists "m-bob"|done..].
Defined.

(** The group of the sample, with access to everything. *)
Definition all_devs : Group.t := Group.set_access_all (λ _, true) Sample.devs.
Definition all_devs_db : DB := set_groups <["devs" := all_devs]> Sample.db.

Lemma full_access_group_hides_passwords_witness : Collection_details_flags Sample.dev "bob" all_devs_db = (false, true, false).
Proof.
  apply (full_access_group_hides_passwords all_devs_db Sample.bob Sample.dev Sample.bob_devs all_devs);
    [by apply wf_b_sound; vm_compute|apply elem_of_rows; by exists "dev"|apply elem_of_rows; by exists "m-bob"
    |done|done|done|done|done|apply elem_of_rows; exists ("devs", "m-bob"); by vm_compute|apply elem_of_rows; by exists "devs"|done..].
Defined.
