(* ===== verification/Guards.v ===== *)
(** The request guards that authenticate a caller.

    Models [Headers], [OrgHeaders] and the guards built on them in
    src/src/auth.rs. A guard turns a request into the rows of the caller or
    refuses it with status 401. The guards also carry the host name that
    answers are rendered with, which is left out here. Checking the signature
    and the dates of a token is the work of the jsonwebtoken crate, and the
    syntax of ids that of the uuid crate: both are parameters. *)
From S2P Require Import Prelude Schema Roles Users Invariants Samples Memberships Groups Collections.
Local Open Scope Z_scope.

(** [LoginJwtClaims]; its constant fields are left out. *)
Module LoginJwtClaims.
Record t := mk {
  nbf : Z; exp : Z; sub : string; name : string; email : string; email_verified : bool;
  sstamp : string; device : string; devicetype : string; client_id : string; scope : list string
}.
End LoginJwtClaims.

Class LoginTokens := {
  decode_login : string → Res LoginJwtClaims.t;
  (** [uuid::Uuid::parse_str(..).is_ok()]. *)
  is_uuid : string → bool;
}.

(** A request, as far as the guards look at it: a header, the name of its
    route, the address of the client, two path segments and two query values. *)
Module Request.
Record t := mk {
  authorization : option string; route : option string; ip : string;
  param1 : option string; param3 : option string;
  organizationId : option string; collectionId : option string
}.
End Request.

Module Headers.
Record t := mk { device : Device.t; user : User.t; ip : string }.
End Headers.

Module OrgHeaders.
Record t := mk {
  device : Device.t; user : User.t; membership_type : MembershipType;
  membership_status : MembershipStatus; membership : Membership.t; ip : string
}.
End OrgHeaders.

Module AdminHeaders.
Record t := mk {
  device : Device.t; user : User.t; membership_type : MembershipType; ip : string; org_id : string
}.
End AdminHeaders.

Module ManagerHeaders.
Record t := mk { device : Device.t; user : User.t; ip : string; org_id : string }.
End ManagerHeaders.

Module ManagerHeadersLoose.
Record t := mk { device : Device.t; user : User.t; membership : Membership.t; ip : string }.
End ManagerHeadersLoose.

Module OwnerHeaders.
Record t := mk { device : Device.t; user : User.t; ip : string; org_id : string }.
End OwnerHeaders.

Module OrgMemberHeaders.
Record t := mk { device : Device.t; user : User.t; membership : Membership.t; ip : string }.
End OrgMemberHeaders.

(** [err_handler!(msg)]. *)
Definition err_handler {A} (msg : string) : M DB A := err_code msg 401.
(** [let Some(x) = o else { err_handler!(msg) }]. *)
Definition some_or_401 {A} (o : option A) (msg : string) : M DB A :=
  match o with Some a => mret a | None => err_handler msg end.

(** The text after the last occurrence of [pat]. *)
Fixpoint after_last (pat s : string) : option string :=
  match s with
  | "" => None
  | String _ s' =>
      match after_last pat s' with
      | Some r => Some r
      | None => if String.prefix pat s
                then Some (String.substring (String.length pat) (String.length s) s) else None
      end
  end%string.
(** [a.rsplit(pat).next()] for a pattern that does not overlap itself. *)
Definition rsplit_next (pat s : string) : string := default s (after_last pat s).

(** [a >= b] on roles. *)
Definition type_ge (a b : MembershipType) : bool :=
  match MembershipType_cmp a b with Lt => false | _ => true end.

Section guards.
Context `{E : Env} `{L : LoginTokens}.

(** The check of a stamp that is not the current one. The exception that
    [set_stamp_exception] left is only good for its routes and its time. *)
Definition check_stamp_exception (req : Request.t) (claims : LoginJwtClaims.t) (user : User.t) : M DB () :=
  match User.stamp_exception user with
  | Some stamp_exception =>
      current_route ← some_or_401 (Request.route req) "Error getting current route for stamp exception";
      if UserStampException.expire stamp_exception <? now / 1000000 then
        ignore (User_save (User_reset_stamp_exception user)) ;;
        err_handler "Stamp exception is expired"
      else if negb (bool_decide (current_route ∈ UserStampException.routes stamp_exception)) then
        err_handler "Invalid security stamp: Current route and exception route do not match"
      else if negb (UserStampException.security_stamp stamp_exception == LoginJwtClaims.sstamp claims) then
        err_handler "Invalid security stamp for matched stamp exception"
      else mret ()
  | None => err_handler "Invalid security stamp"
  end.

Definition Headers_from_request (req : Request.t) : M DB Headers.t :=
  a ← some_or_401 (Request.authorization req) "No access token provided";
  let access_token := rsplit_next "Bearer " a in
  claims ← match decode_login access_token with
           | Ok claims => mret claims
           | Err _ => err_handler "Invalid claim"
           end;
  od ← gets (Device_find_by_uuid_and_user (LoginJwtClaims.device claims) (LoginJwtClaims.sub claims));
  device ← some_or_401 od "Invalid device id";
  ou ← gets (User_find_by_uuid (LoginJwtClaims.sub claims));
  user ← some_or_401 ou "Device has no user associated";
  (if negb (User.security_stamp user == LoginJwtClaims.sstamp claims)
   then check_stamp_exception req claims user else mret ()) ;;
  mret (Headers.mk device user (Request.ip req)).

Definition OrgHeaders_is_member (h : OrgHeaders.t) : bool :=
  negb (OrgHeaders.membership_status h == Revoked) && type_ge (OrgHeaders.membership_type h) User_.
Definition OrgHeaders_is_confirmed_and_admin (h : OrgHeaders.t) : bool :=
  (OrgHeaders.membership_status h == Confirmed) && type_ge (OrgHeaders.membership_type h) Admin.
Definition OrgHeaders_is_confirmed_and_manager (h : OrgHeaders.t) : bool :=
  (OrgHeaders.membership_status h == Confirmed) && type_ge (OrgHeaders.membership_type h) Manager.
Definition OrgHeaders_is_confirmed_and_owner (h : OrgHeaders.t) : bool :=
  (OrgHeaders.membership_status h == Confirmed) && (OrgHeaders.membership_type h == Owner).

(** [get_org_id]; [FromParam] of [OrganizationId] only accepts a UUID. *)
Definition get_org_id (req : Request.t) : option string :=
  match Request.param1 req with
  | Some org_id => if is_uuid org_id then Some org_id else Request.organizationId req
  | None => Request.organizationId req
  end.

Definition uuid_or_none (o : option string) : option string :=
  match o with Some id => if is_uuid id then Some id else None | None => None end.

Definition get_col_id (req : Request.t) : option string :=
  match uuid_or_none (Request.param3 req) with
  | Some col_id => Some col_id
  | None => uuid_or_none (Request.collectionId req)
  end.

Definition OrgHeaders_from_request (req : Request.t) : M DB OrgHeaders.t :=
  headers ← Headers_from_request req;
  match get_org_id req with
  | Some org_id =>
      if negb (is_uuid org_id) then err_handler "Error getting the organization id" else
      let user := Headers.user headers in
      om ← gets (Membership_find_by_user_and_org (User.uuid user) org_id);
      membership ← some_or_401 om "The current user isn't member of the organization";
      membership_type ← some_or_401 (MembershipType_from_i32 (Membership.atype membership))
        "Unknown user type in the database";
      membership_status ← some_or_401 (MembershipStatus_from_i32 (Membership.status membership))
        "User status is either revoked or invalid.";
      mret (OrgHeaders.mk (Headers.device headers) user membership_type membership_status membership
              (Headers.ip headers))
  | None => err_handler "Error getting the organization id"
  end.

Definition AdminHeaders_from_request (req : Request.t) : M DB AdminHeaders.t :=
  h ← OrgHeaders_from_request req;
  if OrgHeaders_is_confirmed_and_admin h
  then mret (AdminHeaders.mk (OrgHeaders.device h) (OrgHeaders.user h) (OrgHeaders.membership_type h)
               (OrgHeaders.ip h) (Membership.org_uuid (OrgHeaders.membership h)))
  else err_handler "You need to be Admin or Owner to call this endpoint".

Definition ManagerHeaders_from_request (req : Request.t) : M DB ManagerHeaders.t :=
  h ← OrgHeaders_from_request req;
  if OrgHeaders_is_confirmed_and_manager h then
    match get_col_id req with
    | Some col_id =>
        ok ← gets (Collection_is_coll_manageable_by_user col_id (Membership.user_uuid (OrgHeaders.membership h)));
        if negb (ok : bool) then err_handler "The current user isn't a manager for this collection" else
        mret (ManagerHeaders.mk (OrgHeaders.device h) (OrgHeaders.user h) (OrgHeaders.ip h)
                (Membership.org_uuid (OrgHeaders.membership h)))
    | None => err_handler "Error getting the collection id"
    end
  else err_handler "You need to be a Manager, Admin or Owner to call this endpoint".

Definition ManagerHeadersLoose_from_request (req : Request.t) : M DB ManagerHeadersLoose.t :=
  h ← OrgHeaders_from_request req;
  if OrgHeaders_is_confirmed_and_manager h
  then mret (ManagerHeadersLoose.mk (OrgHeaders.device h) (OrgHeaders.user h) (OrgHeaders.membership h) (OrgHeaders.ip h))
  else err_handler "You need to be a Manager, Admin or Owner to call this endpoint".

(** [ManagerHeaders::from_loose]. *)
Definition ManagerHeaders_from_loose (h : ManagerHeadersLoose.t) (cols : list string) : M DB ManagerHeaders.t :=
  for_each cols (λ col_id,
    if negb (is_uuid col_id) then err "Collection Id is malformed!" else
    ok ← gets (Collection_is_coll_manageable_by_user col_id (Membership.user_uuid (ManagerHeadersLoose.membership h)));
    if negb (ok : bool) then err "Collection not found" else mret ()) ;;
  mret (ManagerHeaders.mk (ManagerHeadersLoose.device h) (ManagerHeadersLoose.user h) (ManagerHeadersLoose.ip h)
          (Membership.org_uuid (ManagerHeadersLoose.membership h))).

Definition OwnerHeaders_from_request (req : Request.t) : M DB OwnerHeaders.t :=
  h ← OrgHeaders_from_request req;
  if OrgHeaders_is_confirmed_and_owner h
  then mret (OwnerHeaders.mk (OrgHeaders.device h) (OrgHeaders.user h) (OrgHeaders.ip h)
               (Membership.org_uuid (OrgHeaders.membership h)))
  else err_handler "You need to be Owner to call this endpoint".

Definition OrgMemberHeaders_from_request (req : Request.t) : M DB OrgMemberHeaders.t :=
  h ← OrgHeaders_from_request req;
  if OrgHeaders_is_member h
  then mret (OrgMemberHeaders.mk (OrgHeaders.device h) (OrgHeaders.user h) (OrgHeaders.membership h) (OrgHeaders.ip h))
  else err_handler "You need to be a Member of the Organization to call this endpoint".
End guards.
