(* ===== verification/Policies.v ===== *)
(** Organization policies.

    Models src/src/db/models/org_policy.rs: the stored policies, which of them
    apply to a user, and the check that a membership is allowed by all of them.
    The two options that are read from the JSON of a policy are parameters. *)
From S2P Require Import Prelude Schema Roles Users Invariants Samples TwoFactors OneTimeCodes Memberships.
Local Open Scope Z_scope.

Inductive OrgPolicyType :=
| TwoFactorAuthentication | MasterPassword | PasswordGenerator | SingleOrg | PersonalOwnership
| DisableSend | SendOptions | ResetPassword | RemoveUnlockWithPin | RestrictedItemTypes | UriMatchDefaults.

Definition OrgPolicyType_as_i32 (t : OrgPolicyType) : Z :=
  match t with
  | TwoFactorAuthentication => 0 | MasterPassword => 1 | PasswordGenerator => 2 | SingleOrg => 3
  | PersonalOwnership => 5 | DisableSend => 6 | SendOptions => 7 | ResetPassword => 8
  | RemoveUnlockWithPin => 14 | RestrictedItemTypes => 15 | UriMatchDefaults => 16
  end.

(** [serde_json::from_str] on the data of two kinds of policies. *)
Class PolicyJson := {
  auto_enroll_enabled : string → option bool;
  disable_hide_email : string → option bool;
}.

Section policies.
Context `{E : Env} `{K : Codecs}.

Definition OrgPolicy_new (uuid org_uuid : string) (atype : OrgPolicyType) (enabled : bool) (data : string)
    : OrgPolicy.t :=
  OrgPolicy.mk uuid org_uuid (OrgPolicyType_as_i32 atype) enabled data.

Definition OrgPolicy_has_type (p : OrgPolicy.t) (policy_type : OrgPolicyType) : bool :=
  OrgPolicy.atype p == OrgPolicyType_as_i32 policy_type.

(** [OrgPolicy::save]: the policy of the same type goes first, so that UNIQUE
    (org_uuid, atype) cannot refuse the insert. *)
Definition OrgPolicy_save (p : OrgPolicy.t) : M DB () :=
  modify (set_org_policies (delete_where (λ r,
    (OrgPolicy.org_uuid r == OrgPolicy.org_uuid p) && (OrgPolicy.atype r == OrgPolicy.atype p)))) ;;
  save_row (λ d, has (organizations d) (OrgPolicy.org_uuid p))
    (set_org_policies <[OrgPolicy.uuid p := p]>) "Error saving org_policy".

Definition OrgPolicy_delete (p : OrgPolicy.t) : M DB () :=
  modify (set_org_policies (delete_where (λ r, OrgPolicy.uuid r == OrgPolicy.uuid p))).

Definition OrgPolicy_find_by_org (org_uuid : string) (d : DB) : list OrgPolicy.t :=
  where_ (λ p, OrgPolicy.org_uuid p == org_uuid) (rows (org_policies d)).

(** The policies of the organizations a user has a membership in. *)
Definition policies_of_user (user_uuid : string) (d : DB) : list (OrgPolicy.t * Membership.t) :=
  inner_join (rows (org_policies d)) (rows (users_organizations d)) (λ p m,
    (Membership.org_uuid m == OrgPolicy.org_uuid p) && (Membership.user_uuid m == user_uuid)).

Definition OrgPolicy_find_confirmed_by_user (user_uuid : string) (d : DB) : list OrgPolicy.t :=
  fst <$> where_ (λ '(_, m), Membership.status m == MembershipStatus_as_i32 Confirmed)
    (policies_of_user user_uuid d).

Definition OrgPolicy_find_by_org_and_type (org_uuid : string) (policy_type : OrgPolicyType) (d : DB)
    : option OrgPolicy.t :=
  first (where_ (λ p, (OrgPolicy.org_uuid p == org_uuid)
                      && (OrgPolicy.atype p == OrgPolicyType_as_i32 policy_type)) (rows (org_policies d))).

Definition OrgPolicy_delete_all_by_organization (org_uuid : string) : M DB () :=
  modify (set_org_policies (delete_where (λ p, OrgPolicy.org_uuid p == org_uuid))).

Definition OrgPolicy_find_accepted_and_confirmed_by_user_and_active_policy (user_uuid : string)
    (policy_type : OrgPolicyType) (d : DB) : list OrgPolicy.t :=
  fst <$> where_ (λ '(p, m),
      ((Membership.status m == MembershipStatus_as_i32 Accepted)
       || (Membership.status m == MembershipStatus_as_i32 Confirmed))
      && (OrgPolicy.atype p == OrgPolicyType_as_i32 policy_type)
      && (OrgPolicy.enabled p == true))
    (policies_of_user user_uuid d).

Definition OrgPolicy_find_confirmed_by_user_and_active_policy (user_uuid : string)
    (policy_type : OrgPolicyType) (d : DB) : list OrgPolicy.t :=
  fst <$> where_ (λ '(p, m),
      (Membership.status m == MembershipStatus_as_i32 Confirmed)
      && (OrgPolicy.atype p == OrgPolicyType_as_i32 policy_type)
      && (OrgPolicy.enabled p == true))
    (policies_of_user user_uuid d).

(** The confirmed member behind a policy is below Admin. *)
Definition below_admin_in (user_uuid org_uuid : string) (d : DB) : bool :=
  match Membership_find_confirmed_by_user_and_org user_uuid org_uuid d with
  | Some user => i32_lt_type (Membership.atype user) Admin
  | None => false
  end.

Definition OrgPolicy_is_applicable_to_user (user_uuid : string) (policy_type : OrgPolicyType)
    (exclude_org_uuid : option string) (d : DB) : bool :=
  existsb (λ policy,
      negb (exclude_org_uuid == Some (OrgPolicy.org_uuid policy))
      && below_admin_in user_uuid (OrgPolicy.org_uuid policy) d)
    (OrgPolicy_find_accepted_and_confirmed_by_user_and_active_policy user_uuid policy_type d).

(** [check_user_allowed]; [tf_uuid] is the id of the second factor that the
    call may create. *)
Definition OrgPolicy_check_user_allowed (tf_uuid : string) (m : Membership.t) (action : string) : M DB () :=
  if i32_lt_type (Membership.atype m) Admin
     && (MembershipStatus_as_i32 Invited <? Membership.status m)
  then
    tfp ← gets (OrgPolicy_find_by_org_and_type (Membership.org_uuid m) TwoFactorAuthentication);
    factors ← gets (TwoFactor_find_by_user (Membership.user_uuid m));
    when (nn tfp OrgPolicy.enabled && (bool_decide (factors = [])))
      (if email_2fa_auto_fallback
       then find_and_activate_email_2fa tf_uuid (Membership.user_uuid m)
       else err ("Cannot " +:+ action +:+ " because 2FA is required (membership "
                 +:+ Membership.uuid m +:+ ")")) ;;
    other ← gets (OrgPolicy_is_applicable_to_user (Membership.user_uuid m) SingleOrg
                    (Some (Membership.org_uuid m)));
    (if (other : bool)
     then err ("Cannot " +:+ action +:+ " because another organization policy forbids it (membership "
               +:+ Membership.uuid m +:+ ")")
     else mret ()) ;;
    sop ← gets (OrgPolicy_find_by_org_and_type (Membership.org_uuid m) SingleOrg);
    n ← gets (Membership_count_accepted_and_confirmed_by_user (Membership.user_uuid m) (Membership.org_uuid m));
    if nn sop OrgPolicy.enabled && (0 <? n)
    then err ("Cannot " +:+ action
              +:+ " because the organization policy forbids being part of other organization (membership "
              +:+ Membership.uuid m +:+ ")")
    else mret ()
  else mret ().

Definition OrgPolicy_org_is_reset_password_auto_enroll `{PolicyJson} (org_uuid : string) (d : DB) : bool :=
  match OrgPolicy_find_by_org_and_type org_uuid ResetPassword d with
  | Some policy =>
      match auto_enroll_enabled (OrgPolicy.data policy) with
      | Some auto => OrgPolicy.enabled policy && auto
      | None => false
      end
  | None => false
  end.

Definition OrgPolicy_is_hide_email_disabled `{PolicyJson} (user_uuid : string) (d : DB) : bool :=
  existsb (λ policy,
      below_admin_in user_uuid (OrgPolicy.org_uuid policy) d
      && default false (disable_hide_email (OrgPolicy.data policy)))
    (OrgPolicy_find_confirmed_by_user_and_active_policy user_uuid SendOptions d).

Definition OrgPolicy_is_enabled_for_member (member_uuid : string) (policy_type : OrgPolicyType) (d : DB) : bool :=
  match Membership_find_by_uuid member_uuid d with
  | Some member => nn (OrgPolicy_find_by_org_and_type (Membership.org_uuid member) policy_type d) OrgPolicy.enabled
  | None => false
  end.
End policies.

Section policies_spec.
Context `{E : Env} `{K : Codecs}.

(** An enabled policy of a type in an organization. *)
Definition policy_enabled (o : string) (ty : OrgPolicyType) (d : DB) : Prop :=
  ∃ p, p ∈ rows (org_policies d) ∧ OrgPolicy.org_uuid p = o
    ∧ OrgPolicy.atype p = OrgPolicyType_as_i32 ty ∧ OrgPolicy.enabled p = true.

Lemma find_by_org_and_type_enabled o ty d :
  wf d → nn (OrgPolicy_find_by_org_and_type o ty d) OrgPolicy.enabled = true ↔ policy_enabled o ty d.
Proof.
  intros Hwf. unfold OrgPolicy_find_by_org_and_type, first, policy_enabled. rewrite nn_true. split.
  - intros (p & [Hp Hm]%head_Some_elem%elem_of_where & He). bools. by exists p.
  - intros (p & Hp & Ho & Ht & He). exists p. split; [|done]. apply head_unique.
    + apply elem_of_where. split; [done|]. by rewrite !bool_decide_true.
    + intros q [Hq Hm]%elem_of_where. bools. eapply wf_policy_unique; eauto; congruence.
Qed.

Lemma active_policies_elem u ty d p :
  p ∈ OrgPolicy_find_accepted_and_confirmed_by_user_and_active_policy u ty d ↔
  p ∈ rows (org_policies d) ∧ OrgPolicy.atype p = OrgPolicyType_as_i32 ty ∧ OrgPolicy.enabled p = true
  ∧ ∃ m, m ∈ rows (users_organizations d) ∧ Membership.user_uuid m = u
    ∧ Membership.org_uuid m = OrgPolicy.org_uuid p ∧ (Membership.status m = 1 ∨ Membership.status m = 2).
Proof.
  unfold OrgPolicy_find_accepted_and_confirmed_by_user_and_active_policy, policies_of_user.
  rewrite list_elem_of_fmap. split.
  - intros ([p' m] & -> & [Hj Hp]%elem_of_where). apply elem_of_inner_join in Hj as (Hpol & Hm & Hon).
    bools. simpl. split_and!; try done. exists m. split_and!; try done.
    destruct H as [H|H]; apply bool_decide_eq_true in H; auto.
  - intros (Hp & Ht & He & m & Hm & Hu & Ho & Hs). exists (p, m). split; [done|]. apply elem_of_where. split.
    + apply elem_of_inner_join. split_and!; [done..|]. by rewrite !bool_decide_true.
    + rewrite (bool_decide_true (OrgPolicy.atype p = _)), (bool_decide_true (OrgPolicy.enabled p = _)) by done.
      rewrite !andb_true_r. apply orb_true_iff. destruct Hs; [left|right]; by apply bool_decide_true.
Qed.

(** The policies that apply to a user: an enabled policy of the type in an
    organization, not the excluded one, in which the user is confirmed and
    below Admin. *)
Definition policy_binds (u : string) (ty : OrgPolicyType) (excl : option string) (d : DB) : Prop :=
  ∃ m, m ∈ rows (users_organizations d) ∧ Membership.user_uuid m = u
    ∧ Membership.status m = MembershipStatus_as_i32 Confirmed
    ∧ i32_lt_type (Membership.atype m) Admin = true
    ∧ excl ≠ Some (Membership.org_uuid m) ∧ policy_enabled (Membership.org_uuid m) ty d.

Lemma policy_applicable_iff_aux (u : string) (ty : OrgPolicyType) (excl : option string) (d : DB)
    (Hwf : wf d) :
  OrgPolicy_is_applicable_to_user u ty excl d = true ↔ policy_binds u ty excl d.
Proof.
  unfold OrgPolicy_is_applicable_to_user, policy_binds. rewrite existsb_elem. split.
  - intros (p & (Hp & Ht & He & _)%active_policies_elem & Hb). bools. unfold below_admin_in in *.
    destruct (Membership_find_confirmed_by_user_and_org u (OrgPolicy.org_uuid p) d) as [m|] eqn:Hm; [|done].
    apply find_confirmed_Some in Hm as (Hm & Hu & Ho & Hs); [|done].
    exists m. split_and!; try done; [by rewrite Ho|]. exists p. by rewrite Ho.
  - intros (m & Hm & Hu & Hs & Hlt & Hex & p & Hp & Ho & Ht & He). exists p. split.
    + apply active_policies_elem. split_and!; try done. exists m. split_and!; try done. by right.
    + rewrite Ho. rewrite bool_decide_false by done. simpl. unfold below_admin_in.
      by rewrite (proj2 (find_confirmed_Some d u (Membership.org_uuid m) m Hwf)).
Qed.

(** a policy binds a user exactly through a confirmed membership below
    Admin of an organization, other than the excluded one, that has it
    enabled; owners, admins, and members that only accepted, are not bound. *)
Theorem policy_applicable_iff (u : string) (ty : OrgPolicyType) (excl : option string) (d : DB)
    (Hwf : wf d) :
  OrgPolicy_is_applicable_to_user u ty excl d = true ↔ policy_binds u ty excl d.
Proof. by apply policy_applicable_iff_aux. Qed.

(** The membership and policy tables are not touched. *)
Definition same_orgs (d d' : DB) : Prop :=
  users_organizations d' = users_organizations d ∧ org_policies d' = org_policies d ∧ users d' = users d.
#[local] Instance same_orgs_preorder : PreOrder same_orgs.
Proof. split; [done|]. intros ??? (?&?&?) (?&?&?). split_and!; congruence. Qed.

Lemma activate_keeps_orgs uuid u : keeps same_orgs (find_and_activate_email_2fa uuid u).
Proof.
  unfold find_and_activate_email_2fa, activate_email_2fa, TwoFactor_save.
  db_keeps; done.
Qed.

Lemma activate_gives_factor uuid u d d' :
  find_and_activate_email_2fa uuid u d = (Ok (), d') → TwoFactor_find_by_user u d' ≠ [].
Proof.
  unfold find_and_activate_email_2fa. rewrite run_gets.
  destruct (User_find_by_uuid u d) as [user|] eqn:Hu; [|done].
  apply head_where_Some in Hu as [[k Hk]%elem_of_rows Huu]. bools.
  unfold activate_email_2fa. destruct (User.verified_at user); [|done]. intros Hs.
  unfold TwoFactor_save in Hs. rewrite run_modify in Hs. unfold save_row in Hs.
  destruct (has _ _); [|done]. injection Hs as <-. intros Hnil.
  eapply (not_elem_of_nil (TwoFactor_new uuid u Email (email_to_json (EmailTokenData_new (User.email user) "")))).
  rewrite <-Hnil. apply elem_of_where. split; [|simpl; by rewrite bool_decide_true].
  apply elem_of_rows. exists uuid. simpl. rewrite Huu. by apply lookup_insert_eq.
Qed.

Lemma other_memberships_zero u o d :
  (0 <? Membership_count_accepted_and_confirmed_by_user u o d) = false ↔
  ∀ m', m' ∈ rows (users_organizations d) → Membership.user_uuid m' = u →
    Membership.status m' = 1 ∨ Membership.status m' = 2 → Membership.org_uuid m' = o.
Proof.
  unfold Membership_count_accepted_and_confirmed_by_user, count. rewrite Z.ltb_ge. split.
  - intros Hlen m' Hm' Hu Hs. destruct (decide (Membership.org_uuid m' = o)) as [?|Hne]; [done|]. exfalso.
    destruct (where_ _ _) as [|x xs] eqn:Hw; [|simpl in Hlen; lia].
    eapply (not_elem_of_nil m'). rewrite <-Hw. apply elem_of_where. split; [done|].
    rewrite (bool_decide_true (_ = u)), bool_decide_false by done. simpl. apply orb_true_iff.
    destruct Hs; [left|right]; by apply bool_decide_true.
  - intros Hall. destruct (where_ _ _) as [|x xs] eqn:Hw; [done|]. exfalso.
    assert (x ∈ x :: xs) as Hx by left. rewrite <-Hw in Hx. apply elem_of_where in Hx as [Hx Hp]. bools.
    apply H1, Hall; [done..|]. destruct H0 as [H0|H0]; apply bool_decide_eq_true in H0; auto.
Qed.

(** a membership that passes the policy check satisfies every policy that
    concerns joining. When the check succeeds for a member below Admin who has
    accepted or is confirmed: if its organization requires two-step login, the
    user has a second factor afterwards; no other organization's single-
    organization policy binds the user; and if the organization itself has that
    policy, the user is in no other organization. For owners, admins and open
    invitations the check changes nothing. *)
Theorem check_user_allowed_sound (tf_uuid : string) (m : Membership.t) (action : string) (d d' : DB)
    (Hwf : wf d) (Hok : OrgPolicy_check_user_allowed tf_uuid m action d = (Ok (), d')) :
  if i32_lt_type (Membership.atype m) Admin && (0 <? Membership.status m)
  then (policy_enabled (Membership.org_uuid m) TwoFactorAuthentication d →
          TwoFactor_find_by_user (Membership.user_uuid m) d' ≠ [])
       ∧ ¬ policy_binds (Membership.user_uuid m) SingleOrg (Some (Membership.org_uuid m)) d
       ∧ (policy_enabled (Membership.org_uuid m) SingleOrg d →
          ∀ m', m' ∈ rows (users_organizations d) → Membership.user_uuid m' = Membership.user_uuid m →
            Membership.status m' = 1 ∨ Membership.status m' = 2 →
            Membership.org_uuid m' = Membership.org_uuid m)
  else d' = d.
Proof.
  unfold OrgPolicy_check_user_allowed in Hok. change (MembershipStatus_as_i32 Invited) with 0 in Hok.
  destruct (i32_lt_type _ Admin && (0 <? _)); [|unfold mret, M_ret in Hok; congruence].
  rewrite !run_gets in Hok. set (guard := when _ _) in Hok.
  assert (Hk : keeps same_orgs guard).
  { unfold guard. destruct (email_2fa_auto_fallback); [|solve_keeps].
    apply keeps_when; [apply _|]. apply activate_keeps_orgs. }
  destruct (guard d) as [[[]|e] d1] eqn:Hg; [|by rewrite (run_bind_Err _ _ _ _ _ Hg) in Hok].
  rewrite (run_bind_Ok _ _ _ _ _ Hg), run_gets in Hok.
  specialize (Hk d). rewrite Hg in Hk. destruct Hk as (Hm1 & Hp1 & _). simpl in Hm1, Hp1.
  assert (Happ : OrgPolicy_is_applicable_to_user (Membership.user_uuid m) SingleOrg (Some (Membership.org_uuid m)) d1
    = OrgPolicy_is_applicable_to_user (Membership.user_uuid m) SingleOrg (Some (Membership.org_uuid m)) d).
  { unfold OrgPolicy_is_applicable_to_user, OrgPolicy_find_accepted_and_confirmed_by_user_and_active_policy,
      policies_of_user, below_admin_in, Membership_find_confirmed_by_user_and_org. by rewrite Hm1, Hp1. }
  rewrite Happ in Hok. pose proof (policy_applicable_iff_aux (Membership.user_uuid m) SingleOrg
    (Some (Membership.org_uuid m)) d Hwf) as Hbinds.
  destruct (OrgPolicy_is_applicable_to_user _ _ _ d); [done|]. rewrite run_ret, !run_gets in Hok.
  unfold OrgPolicy_find_by_org_and_type, Membership_count_accepted_and_confirmed_by_user in Hok.
  rewrite Hm1, Hp1 in Hok. fold (OrgPolicy_find_by_org_and_type (Membership.org_uuid m) SingleOrg d) in Hok.
  fold (Membership_count_accepted_and_confirmed_by_user (Membership.user_uuid m) (Membership.org_uuid m) d) in Hok.
  pose proof (find_by_org_and_type_enabled (Membership.org_uuid m) SingleOrg d Hwf) as Hso.
  pose proof (other_memberships_zero (Membership.user_uuid m) (Membership.org_uuid m) d) as Hoth.
  destruct (nn _ OrgPolicy.enabled && (0 <? _)) eqn:Hlast; [done|].
  assert (d1 = d') as -> by (unfold mret, M_ret in Hok; congruence). split_and!.
  - intros Htf%find_by_org_and_type_enabled; [|done]. unfold guard in Hg. rewrite Htf in Hg.
    destruct (decide (TwoFactor_find_by_user (Membership.user_uuid m) d = [])) as [He|Hne].
    + rewrite bool_decide_true in Hg by done. simpl in Hg.
      destruct email_2fa_auto_fallback; [|done]. by eapply activate_gives_factor.
    + rewrite bool_decide_false in Hg by done. simpl in Hg. unfold mret, M_ret in Hg. congruence.
  - intros ?%Hbinds. done.
  - intros Hen%Hso. rewrite Hen in Hlast. simpl in Hlast. by apply Hoth.
Qed.
End policies_spec.

(** ** On the sample deployment *)

Definition policy_db : DB :=
  set_org_policies (λ _, {[ "p1" := OrgPolicy.mk "p1" "acme" 3 true "null"; "p2" := OrgPolicy.mk "p2" "acme" 0 true "null" ]})
    mailed_db.

Lemma policy_applicable_iff_witness :
  OrgPolicy_is_applicable_to_user "bob" SingleOrg None policy_db = true
  ↔ policy_binds "bob" SingleOrg None policy_db.
Proof. apply (policy_applicable_iff "bob" SingleOrg None policy_db). by apply wf_b_sound; vm_compute. Defined.

Lemma check_user_allowed_sound_witness :
  if i32_lt_type (Membership.atype Sample.bob) Admin && (0 <? Membership.status Sample.bob)
  then (policy_enabled "acme" TwoFactorAuthentication policy_db →
          TwoFactor_find_by_user "bob" policy_db ≠ [])
       ∧ ¬ policy_binds "bob" SingleOrg (Some "acme") policy_db
       ∧ (policy_enabled "acme" SingleOrg policy_db →
          ∀ m', m' ∈ rows (users_organizations policy_db) → Membership.user_uuid m' = "bob" →
            Membership.status m' = 1 ∨ Membership.status m' = 2 → Membership.org_uuid m' = "acme")
  else policy_db = policy_db.
Proof.
  apply (check_user_allowed_sound (E:=Sample.env) (K:=SampleCodecs.codecs) "tf2" Sample.bob "accept" policy_db policy_db).
  - by apply wf_b_sound; vm_compute.
  - vm_compute. reflexivity.
Defined.
