(* ===== verification/EmergencyRows.v ===== *)
(** Emergency access: the stored contracts.

    Models src/src/db/models/emergency_access.rs. *)
From S2P Require Import Prelude Schema Roles Users.
Local Open Scope Z_scope.

Inductive EmergencyAccessType := View | Takeover.
Definition EmergencyAccessType_as_i32 (t : EmergencyAccessType) : Z :=
  match t with View => 0 | Takeover => 1 end.
Definition EmergencyAccessType_from_str (s : string) : option EmergencyAccessType :=
  if (s == "0") || (s == "View") then Some View
  else if (s == "1") || (s == "Takeover") then Some Takeover
  else None.

Inductive EmergencyAccessStatus := EInvited | EAccepted | EConfirmed | ERecoveryInitiated | ERecoveryApproved.
Definition EmergencyAccessStatus_as_i32 (s : EmergencyAccessStatus) : Z :=
  match s with
  | EInvited => 0 | EAccepted => 1 | EConfirmed => 2 | ERecoveryInitiated => 3 | ERecoveryApproved => 4
  end.

Section emergency_rows.
Context `{E : Env}.

Notation table d := (rows (emergency_access d)).
Notation EA := EmergencyAccess.t.

Definition EmergencyAccess_new (uuid grantor_uuid email : string) (status atype wait_time_days : Z) : EA :=
  {| EmergencyAccess.uuid := uuid; EmergencyAccess.grantor_uuid := grantor_uuid;
     EmergencyAccess.grantee_uuid := None; EmergencyAccess.email := Some email;
     EmergencyAccess.key_encrypted := None; EmergencyAccess.atype := atype;
     EmergencyAccess.status := status; EmergencyAccess.wait_time_days := wait_time_days;
     EmergencyAccess.recovery_initiated_at := None; EmergencyAccess.last_notification_at := None;
     EmergencyAccess.updated_at := now; EmergencyAccess.created_at := now |}.

Definition EmergencyAccess_get_type_as_str (ea : EA) : string :=
  if EmergencyAccess.atype ea == EmergencyAccessType_as_i32 View then "View" else "Takeover".

Definition EmergencyAccess_save (ea : EA) : M DB EA :=
  User_update_uuid_revision (EmergencyAccess.grantor_uuid ea) ;;
  let ea := EmergencyAccess.set_updated_at (λ _, now) ea in
  save_row (λ d, has (users d) (EmergencyAccess.grantor_uuid ea)
                 && match EmergencyAccess.grantee_uuid ea with Some u => has (users d) u | None => true end)
    (set_emergency_access <[EmergencyAccess.uuid ea := ea]>) "Error saving emergency access" ;;
  mret ea.

(** A panic of the request or job. *)
Definition panic {A} (msg : string) : M DB A := throw (MkError 500 msg).

(** [update_access_status_and_save]: only the status and the date are written. *)
Definition EmergencyAccess_update_access_status_and_save (status date : Z) (ea : EA) : M DB () :=
  match EmergencyAccess.grantee_uuid ea with
  | None => panic "Error getting grantee"
  | Some grantee =>
      User_update_uuid_revision grantee ;;
      modify (set_emergency_access (update_where
        (λ r, EmergencyAccess.uuid r == EmergencyAccess.uuid ea)
        (λ r, EmergencyAccess.set_status (λ _, status) (EmergencyAccess.set_updated_at (λ _, date) r))))
  end.

Definition EmergencyAccess_update_last_notification_date_and_save (date : Z) (ea : EA) : M DB () :=
  modify (set_emergency_access (update_where
    (λ r, EmergencyAccess.uuid r == EmergencyAccess.uuid ea)
    (λ r, EmergencyAccess.set_last_notification_at (λ _, Some date)
            (EmergencyAccess.set_updated_at (λ _, date) r)))).

Definition EmergencyAccess_delete (ea : EA) : M DB () :=
  User_update_uuid_revision (EmergencyAccess.grantor_uuid ea) ;;
  modify (set_emergency_access (delete_where (λ r, EmergencyAccess.uuid r == EmergencyAccess.uuid ea))).

Definition EmergencyAccess_find_by_grantor_uuid_and_grantee_uuid_or_email
    (grantor_uuid grantee_uuid email : string) (d : DB) : option EA :=
  first (where_ (λ r, (EmergencyAccess.grantor_uuid r == grantor_uuid)
                      && ((EmergencyAccess.grantee_uuid r == Some grantee_uuid)
                          || (EmergencyAccess.email r == Some email))) (table d)).
Definition EmergencyAccess_find_all_recoveries_initiated (d : DB) : list EA :=
  where_ (λ r, (EmergencyAccess.status r == EmergencyAccessStatus_as_i32 ERecoveryInitiated)
               && bool_decide (is_Some (EmergencyAccess.recovery_initiated_at r))) (table d).
Definition EmergencyAccess_find_by_uuid_and_grantor_uuid (uuid grantor_uuid : string) (d : DB) : option EA :=
  first (where_ (λ r, (EmergencyAccess.uuid r == uuid)
                      && (EmergencyAccess.grantor_uuid r == grantor_uuid)) (table d)).
Definition EmergencyAccess_find_by_uuid_and_grantee_uuid (uuid grantee_uuid : string) (d : DB) : option EA :=
  first (where_ (λ r, (EmergencyAccess.uuid r == uuid)
                      && (EmergencyAccess.grantee_uuid r == Some grantee_uuid)) (table d)).
Definition EmergencyAccess_find_by_uuid_and_grantee_email (uuid grantee_email : string) (d : DB) : option EA :=
  first (where_ (λ r, (EmergencyAccess.uuid r == uuid)
                      && (EmergencyAccess.email r == Some grantee_email)) (table d)).
Definition EmergencyAccess_find_all_by_grantee_uuid (grantee_uuid : string) (d : DB) : list EA :=
  where_ (λ r, EmergencyAccess.grantee_uuid r == Some grantee_uuid) (table d).
Definition EmergencyAccess_find_all_invited_by_grantee_email (grantee_email : string) (d : DB) : list EA :=
  where_ (λ r, (EmergencyAccess.email r == Some grantee_email)
               && (EmergencyAccess.status r == EmergencyAccessStatus_as_i32 EInvited)) (table d).
Definition EmergencyAccess_find_invited_by_grantee_email (grantee_email : string) (d : DB) : option EA :=
  first (EmergencyAccess_find_all_invited_by_grantee_email grantee_email d).
Definition EmergencyAccess_find_all_by_grantor_uuid (grantor_uuid : string) (d : DB) : list EA :=
  where_ (λ r, EmergencyAccess.grantor_uuid r == grantor_uuid) (table d).
Definition EmergencyAccess_find_all_confirmed_by_grantor_uuid (grantor_uuid : string) (d : DB) : list EA :=
  where_ (λ r, (EmergencyAccess.grantor_uuid r == grantor_uuid)
               && (EmergencyAccessStatus_as_i32 EConfirmed <=? EmergencyAccess.status r)) (table d).

Definition EmergencyAccess_delete_all_by_user (user_uuid : string) : M DB () :=
  l ← gets (EmergencyAccess_find_all_by_grantor_uuid user_uuid);
  for_each l EmergencyAccess_delete ;;
  l ← gets (EmergencyAccess_find_all_by_grantee_uuid user_uuid);
  for_each l EmergencyAccess_delete.

Definition EmergencyAccess_delete_all_by_grantee_email (grantee_email : string) : M DB () :=
  l ← gets (EmergencyAccess_find_all_invited_by_grantee_email grantee_email);
  for_each l EmergencyAccess_delete.

Definition EmergencyAccess_accept_invite (grantee_uuid grantee_email : string) (ea : EA) : M DB EA :=
  if negb (EmergencyAccess.email ea == Some grantee_email)
  then err "User email does not match invite."
  else if EmergencyAccess.status ea == EmergencyAccessStatus_as_i32 EAccepted
  then err "Emergency contact already accepted."
  else
    EmergencyAccess_save
      (EmergencyAccess.set_email (λ _, None)
        (EmergencyAccess.set_grantee_uuid (λ _, Some grantee_uuid)
          (EmergencyAccess.set_status (λ _, EmergencyAccessStatus_as_i32 EAccepted) ea))).
End emergency_rows.
