(* ===== verification/Organizations.v ===== *)
(** Organizations and accounts as a whole: creation and deletion.

    Models the rest of src/src/db/models/organization.rs ([Organization],
    [OrganizationApiKey], deletion of members) and [User::delete] of
    src/src/db/models/user.rs. *)
From S2P Require Import Prelude Schema Roles Users Invariants Samples TwoFactors OneTimeCodes Sends EmergencyRows Memberships Groups Collections VaultItems Ciphers Policies.
Local Open Scope Z_scope.

(** [.order(atype.asc())]; the order of equal types is not specified. *)
Definition member_le (a b : Membership.t) : Prop := Membership.atype a ≤ Membership.atype b.
Definition joined_le (a b : Organization.t * Membership.t * User.t) : Prop := member_le a.1.2 b.1.2.
#[export] Instance member_le_dec : RelDecision member_le.
Proof. intros a b. unfold member_le. apply _. Defined.
#[export] Instance joined_le_dec : RelDecision joined_le.
Proof. intros a b. unfold joined_le. apply _. Defined.

Section organizations.
Context `{E : Env}.

Notation members d := (rows (users_organizations d)).

Definition Organization_new (uuid name billing_email : string) (private_key public_key : option string)
    : Organization.t :=
  Organization.mk uuid name (to_lowercase billing_email) private_key public_key.

Definition Organization_save (o : Organization.t) : M DB () :=
  if negb (is_valid_email (Organization.billing_email o))
  then err ("BillingEmail " +:+ Organization.billing_email o +:+ " is not a valid email address")
  else
    l ← gets (Membership_find_by_org (Organization.uuid o));
    for_each l (λ m, User_update_uuid_revision (Membership.user_uuid m)) ;;
    modify (set_organizations <[Organization.uuid o := o]>).

Definition Organization_find_by_uuid (uuid : string) (d : DB) : option Organization.t :=
  first (where_ (λ o, Organization.uuid o == uuid) (rows (organizations d))).
Definition Organization_find_by_name (name : string) (d : DB) : option Organization.t :=
  first (where_ (λ o, Organization.name o == name) (rows (organizations d))).

Definition not_revoked (m : Membership.t) : bool :=
  negb (Membership.status m == MembershipStatus_as_i32 Revoked).

(** The join of [find_org_user_email]: memberships of the account with this
    address, by type, with their organization. *)
Definition Organization_find_org_user_email (user_email : string) (d : DB) : list Organization.t :=
  let l := inner_join
    (inner_join (rows (organizations d)) (members d)
       (λ o m, Membership.org_uuid m == Organization.uuid o))
    (rows (users d)) (λ '(_, m) u, User.uuid u == Membership.user_uuid m) in
  (λ r, r.1.1) <$> merge_sort joined_le
    (where_ (λ '(_, m, u), (User.email u == to_lowercase user_email) && not_revoked m) l).

Definition Organization_find_main_org_user_email (user_email : string) (d : DB) : option Organization.t :=
  first (Organization_find_org_user_email user_email d).

Definition Membership_find_main_user_org (user_uuid : string) (d : DB) : option Membership.t :=
  first (merge_sort member_le
    (where_ (λ m, (Membership.user_uuid m == user_uuid) && not_revoked m) (members d))).

(** *** [OrganizationApiKey] *)

Definition OrganizationApiKey_new (uuid org_uuid api_key : string) : OrganizationApiKey.t :=
  OrganizationApiKey.mk uuid org_uuid 0 api_key now.
Definition OrganizationApiKey_check_valid_api_key (k : OrganizationApiKey.t) (api_key : string) : bool :=
  ct_eq (OrganizationApiKey.api_key k) api_key.
Definition OrganizationApiKey_save (k : OrganizationApiKey.t) : M DB () :=
  save_row (λ d, has (organizations d) (OrganizationApiKey.org_uuid k))
    (set_organization_api_key <[(OrganizationApiKey.uuid k, OrganizationApiKey.org_uuid k) := k]>)
    "Error saving organization".
Definition OrganizationApiKey_find_by_org_uuid (org_uuid : string) (d : DB) : option OrganizationApiKey.t :=
  first (where_ (λ k, OrganizationApiKey.org_uuid k == org_uuid) (rows (organization_api_key d))).
Definition OrganizationApiKey_delete_all_by_organization (org_uuid : string) : M DB () :=
  modify (set_organization_api_key (delete_where (λ k, OrganizationApiKey.org_uuid k == org_uuid))).

(** *** Deletion of members *)

Definition Membership_delete (m : Membership.t) : M DB () :=
  User_update_uuid_revision (Membership.user_uuid m) ;;
  CollectionUser_delete_all_by_user_and_org (Membership.user_uuid m) (Membership.org_uuid m) ;;
  GroupUser_delete_all_by_member (Membership.uuid m) ;;
  delete_row (member_referenced (Membership.uuid m))
    (set_users_organizations (delete_where (λ r, Membership.uuid r == Membership.uuid m)))
    "Error removing user from organization".

Definition Membership_delete_all_by_organization (org_uuid : string) : M DB () :=
  l ← gets (Membership_find_by_org org_uuid);
  for_each l Membership_delete.

Definition Membership_delete_all_by_user (user_uuid : string) : M DB () :=
  l ← gets (Membership_find_any_state_by_user user_uuid);
  for_each l Membership_delete.

(** *** Deletion of an organization *)

Definition Organization_delete (o : Organization.t) : M DB () :=
  let uuid := Organization.uuid o in
  Cipher_delete_all_by_organization uuid ;;
  Collection_delete_all_by_organization uuid ;;
  Membership_delete_all_by_organization uuid ;;
  OrgPolicy_delete_all_by_organization uuid ;;
  Group_delete_all_by_organization uuid ;;
  OrganizationApiKey_delete_all_by_organization uuid ;;
  delete_row (organization_referenced uuid)
    (set_organizations (delete_where (λ r, Organization.uuid r == uuid))) "Error saving organization".

(** *** Deletion of an account *)

(** The loop of [User::delete] over the confirmed memberships. *)
Definition is_last_owner (user_uuid : string) (d : DB) : bool :=
  existsb (λ m, (Membership.atype m == MembershipType_as_i32 Owner)
                && (Membership_count_confirmed_by_org_and_type (Membership.org_uuid m) Owner d <=? 1))
    (Membership_find_confirmed_by_user user_uuid d).

(** Rows of [archives] and [sso_users] go with the account (ON DELETE CASCADE). *)
Definition User_delete (u : User.t) : M DB () :=
  let uuid := User.uuid u in
  last ← gets (is_last_owner uuid);
  if (last : bool) then err "Can't delete last owner" else
  Send_delete_all_by_user uuid ;;
  EmergencyAccess_delete_all_by_user uuid ;;
  EmergencyAccess_delete_all_by_grantee_email (User.email u) ;;
  Membership_delete_all_by_user uuid ;;
  Cipher_delete_all_by_user uuid ;;
  Favorite_delete_all_by_user uuid ;;
  Folder_delete_all_by_user uuid ;;
  Device_delete_all_by_user uuid ;;
  TwoFactor_delete_all_by_user uuid ;;
  TwoFactorIncomplete_delete_all_by_user uuid ;;
  Invitation_take (User.email u) ;;
  delete_row (user_referenced uuid)
    (λ d, set_archives (delete_where (λ r, Archive.user_uuid r == uuid))
            (set_sso_users (delete_where (λ r, SsoUser.user_uuid r == uuid))
              (set_users (delete_where (λ r, User.uuid r == uuid)) d)))
    "Error deleting user".
End organizations.

(** ** Queries that mean to skip revoked members *)

(** The states that [revoke] and [restore] store: a membership status, or one
    less [ACTIVATE_REVOKE_DIFF] for a revoked member. *)
Definition statuses_stored (d : DB) : Prop :=
  ∀ m, m ∈ rows (users_organizations d) →
    ∃ s, s ∈ [Invited; Accepted; Confirmed]
      ∧ (Membership.status m = MembershipStatus_as_i32 s
         ∨ Membership.status m = MembershipStatus_as_i32 s - ACTIVATE_REVOKE_DIFF).

Lemma stored_not_revoked d m :
  statuses_stored d → m ∈ rows (users_organizations d) → not_revoked m = true.
Proof.
  intros Hs Hm. destruct (Hs m Hm) as (s & Hin & Hst). unfold not_revoked.
  apply negb_true_iff, bool_decide_false. rewrite !elem_of_cons, elem_of_nil in Hin.
  destruct Hin as [->|[->|[->|[]]]], Hst as [-> | ->]; vm_compute; done.
Qed.

(** The condition [status.ne(Revoked)] of the queries for a user's main
    organization excludes nothing, because revoking a member does not store the
    status [Revoked]: the queries answer as if it were not there, revoked
    memberships included. *)
Theorem revoked_filter_is_vacuous (d : DB) (user_uuid user_email : string) :
  statuses_stored d →
  Membership_find_main_user_org user_uuid d = first (merge_sort member_le (Membership_find_by_user user_uuid d))
  ∧ Organization_find_org_user_email user_email d =
    (λ r, r.1.1) <$> merge_sort joined_le
      (where_ (λ '(_, _, u), User.email u == to_lowercase user_email)
        (inner_join
          (inner_join (rows (organizations d)) (rows (users_organizations d))
            (λ o m, Membership.org_uuid m == Organization.uuid o))
          (rows (users d)) (λ '(_, m) u, User.uuid u == Membership.user_uuid m))).
Proof.
  intros Hs. unfold Membership_find_main_user_org, Membership_find_by_user, Organization_find_org_user_email. split.
  - do 2 f_equal. apply where_ext. intros m Hm. by rewrite (stored_not_revoked d), andb_true_r.
  - do 2 f_equal. apply where_ext. intros [[o m] u] Hm. rewrite elem_of_inner_join, elem_of_inner_join in Hm.
    rewrite (stored_not_revoked d), andb_true_r; [done|done|]. tauto.
Qed.

(** Revoking bob leaves the organization his main one. *)
Definition revoked_db : DB :=
  set_users_organizations <["m-bob" := (Membership_revoke Sample.bob).2]> Sample.db.

Lemma revoked_filter_is_vacuous_witness :
  Membership_find_main_user_org "bob" revoked_db = first (merge_sort member_le (Membership_find_by_user "bob" revoked_db))
  ∧ Membership.status <$> Membership_find_main_user_org "bob" revoked_db = Some (-126).
Proof.
  split; [|by vm_compute]. apply (revoked_filter_is_vacuous revoked_db "bob" "b@x").
  intros m Hm. exists Confirmed. split; [by vm_compute; do 2 right; left|].
  assert (all_rows (users_organizations revoked_db) (λ m, (Membership.status m == 2) || (Membership.status m == -126)) = true)
    as Hb by (by vm_compute).
  rewrite all_rows_true in Hb. specialize (Hb m Hm). apply orb_true_iff in Hb as [Hb|Hb]; bools; [by left|by right].
Defined.
