(* ===== verification/Deletion.v ===== *)
(** Deletion: the theorems.

    Every deletion of the program removes the rows that refer to the deleted one
    first, because the schema refuses to delete a row that is still referenced.
    [deletes P m Q] says that [m] never meets such a refusal from a state in
    [P], never adds a row, and ends in [Q]. *)
From S2P Require Import Prelude Schema Roles Users Invariants Samples TwoFactors OneTimeCodes Sends EmergencyRows Memberships Groups Collections VaultItems Ciphers Policies Organizations.
Local Open Scope Z_scope.

(** ** Facts that survive deletions *)

Class Shrinking {K A} `{Countable K} (t : DB → gmap K A) : Prop :=
  shrinking d d' : shrinks d d' → t d' ⊆ t d.

#[export] Instance shrinking_devices : Shrinking devices. Proof. by intros ?? []. Qed.
#[export] Instance shrinking_organizations : Shrinking organizations. Proof. by intros ?? []. Qed.
#[export] Instance shrinking_members : Shrinking users_organizations. Proof. by intros ?? []. Qed.
#[export] Instance shrinking_api_key : Shrinking organization_api_key. Proof. by intros ?? []. Qed.
#[export] Instance shrinking_ciphers : Shrinking ciphers. Proof. by intros ?? []. Qed.
#[export] Instance shrinking_attachments : Shrinking attachments. Proof. by intros ?? []. Qed.
#[export] Instance shrinking_folders : Shrinking folders. Proof. by intros ?? []. Qed.
#[export] Instance shrinking_folders_ciphers : Shrinking folders_ciphers. Proof. by intros ?? []. Qed.
#[export] Instance shrinking_favorites : Shrinking favorites. Proof. by intros ?? []. Qed.
#[export] Instance shrinking_collections : Shrinking collections. Proof. by intros ?? []. Qed.
#[export] Instance shrinking_users_collections : Shrinking users_collections. Proof. by intros ?? []. Qed.
#[export] Instance shrinking_ciphers_collections : Shrinking ciphers_collections. Proof. by intros ?? []. Qed.
#[export] Instance shrinking_groups : Shrinking groups. Proof. by intros ?? []. Qed.
#[export] Instance shrinking_collections_groups : Shrinking collections_groups. Proof. by intros ?? []. Qed.
#[export] Instance shrinking_groups_users : Shrinking groups_users. Proof. by intros ?? []. Qed.
#[export] Instance shrinking_org_policies : Shrinking org_policies. Proof. by intros ?? []. Qed.
#[export] Instance shrinking_twofactor : Shrinking twofactor. Proof. by intros ?? []. Qed.
#[export] Instance shrinking_incomplete : Shrinking twofactor_incomplete. Proof. by intros ?? []. Qed.
#[export] Instance shrinking_sends : Shrinking sends. Proof. by intros ?? []. Qed.
#[export] Instance shrinking_emergency : Shrinking emergency_access. Proof. by intros ?? []. Qed.
#[export] Instance shrinking_auth_requests : Shrinking auth_requests. Proof. by intros ?? []. Qed.

(** A statement that stays true when rows disappear. *)
Class Stable (P : DB → Prop) : Prop := stable d d' : shrinks d d' → P d → P d'.

#[export] Instance stable_True : Stable (λ _, True). Proof. done. Qed.
#[export] Instance stable_and P Q : Stable P → Stable Q → Stable (λ d, P d ∧ Q d).
Proof. intros HP HQ d d' Hs [??]. split; [by eapply HP|by eapply HQ]. Qed.
#[export] Instance stable_forall {A} (P : A → DB → Prop) : (∀ a, Stable (P a)) → Stable (λ d, ∀ a, P a d).
Proof. intros HP d d' Hs H a. by eapply HP. Qed.
#[export] Instance stable_impl (A : Prop) (P : DB → Prop) : Stable P → Stable (λ d, A → P d).
Proof. intros HP d d' Hs H a. by eapply HP; [|apply H]. Qed.

(** No row of the table satisfies [p]. *)
Definition no_rows {K A} `{Countable K} (t : DB → gmap K A) (p : A → bool) (d : DB) : Prop :=
  ∀ a, a ∈ rows (t d) → p a = false.

#[export] Instance stable_no_rows {K A} `{Countable K} (t : DB → gmap K A) p :
  Shrinking t → Stable (no_rows t p).
Proof. intros Ht d d' Hs Hn a Ha. apply Hn. eapply rows_subseteq; [by apply Ht|done]. Qed.

Lemma no_rows_nonempty {K A} `{Countable K} (t : DB → gmap K A) p d :
  no_rows t p d → nonempty (where_ p (rows (t d))) = false.
Proof. intros Hn. apply nonempty_false. intros a [Ha Hp]%elem_of_where. by rewrite Hn in Hp. Qed.

(** The rows that were just deleted are gone. *)
Ltac gone_now := intros ? [_ ?]%elem_of_rows_delete_where; done.
Ltac gone := intros ? _ ? [_ ?]%elem_of_rows_delete_where; done.

(** ** Deleting programs *)

Definition deletes {A} (P : DB → Prop) (m : M DB A) (Q : DB → Prop) : Prop :=
  ∀ d, P d → ∃ a d', m d = (Ok a, d') ∧ shrinks d d' ∧ Q d'.

Lemma deletes_bind {A B} (P Q R : DB → Prop) (m : M DB A) (f : A → M DB B) :
  Stable P → deletes P m Q → (∀ a, deletes (λ d, P d ∧ Q d) (f a) R) → deletes P (m ≫= f) R.
Proof.
  intros HP Hm Hf d Hd. destruct (Hm d Hd) as (a & d1 & H1 & Hs1 & HQ).
  destruct (Hf a d1) as (b & d2 & H2 & Hs2 & HR); [split; [by eapply HP|done]|].
  rewrite (run_bind_Ok _ _ _ _ _ H1). exists b, d2. split; [done|]. split; [by etrans|done].
Qed.

Lemma deletes_weaken {A} (P P' Q Q' : DB → Prop) (m : M DB A) :
  deletes P m Q → (∀ d, P' d → P d) → (∀ d, P' d → Q d → Q' d) → Stable P' → deletes P' m Q'.
Proof.
  intros Hm HP HQ HS d Hd. destruct (Hm d (HP d Hd)) as (a & d' & H1 & H2 & H3).
  exists a, d'. split_and!; try done. apply HQ; [by eapply HS|done].
Qed.

Lemma deletes_ret {A} (P : DB → Prop) (a : A) : deletes P (mret a) (λ _, True).
Proof. intros d Hd. by exists a, d. Qed.

Lemma deletes_modify (P Q : DB → Prop) f :
  (∀ d, shrinks d (f d)) → (∀ d, P d → Q (f d)) → deletes P (modify f) Q.
Proof. intros Hs Hq d Hd. exists (), (f d). split_and!; [done|apply Hs|by apply Hq]. Qed.

Lemma deletes_gets {A B} (P Q : DB → Prop) (g : DB → A) (f : A → M DB B) :
  (∀ a, deletes P (f a) Q) → deletes P (gets g ≫= f) Q.
Proof. intros Hf d Hd. rewrite run_gets. by apply Hf. Qed.

Lemma deletes_for_each {A} (P : DB → Prop) (Q : A → DB → Prop) (l : list A) (f : A → M DB ()) :
  Stable P → (∀ a, Stable (Q a)) → (∀ a, deletes P (f a) (Q a)) →
  deletes P (for_each l f) (λ d, ∀ a, a ∈ l → Q a d).
Proof.
  intros HP HQ Hf. induction l as [|a l IH]; simpl.
  - intros d Hd. exists (), d. split_and!; [done..|]. by intros a ?%not_elem_of_nil.
  - eapply (deletes_weaken P P (λ d, Q a d ∧ ∀ a, a ∈ l → Q a d)); try done.
    + intros d Hd. destruct (Hf a d Hd) as (x & d1 & H1 & Hs1 & HQ1).
      destruct (IH d1) as (y & d2 & H2 & Hs2 & HQ2); [by eapply HP|].
      rewrite (run_bind_Ok _ _ _ _ _ H1). exists y, d2. split_and!; [done|by etrans|by eapply HQ|done].
    + intros d _ [H1 H2] b [->|Hb]%elem_of_cons; [done|by apply H2].
Qed.

(** Deleting all the rows that satisfy [p], one by one: it is enough that the
    body for [a] removes the rows like [a]. *)
Lemma deletes_all {K A} `{Countable K} (t : DB → gmap K A) `{!Shrinking t} (P : DB → Prop)
    (p : A → bool) (like : A → A → bool) (f : A → M DB ()) :
  Stable P → (∀ a, like a a = true) → (∀ a, deletes P (f a) (no_rows t (like a))) →
  deletes P (l ← gets (λ d, where_ p (rows (t d))); for_each l f) (no_rows t p).
Proof.
  intros HP Hlike Hf d Hd. rewrite run_gets.
  destruct (deletes_for_each P (λ a, no_rows t (like a)) (where_ p (rows (t d))) f HP _ Hf d Hd)
    as (x & d' & H1 & Hs & Hall).
  exists x, d'. split_and!; try done. intros a Ha. apply not_true_iff_false. intros Hp.
  assert (a ∈ where_ p (rows (t d))) as Hin.
  { apply elem_of_where. split; [|done]. eapply rows_subseteq; [by apply shrinking|done]. }
  pose proof (Hall a Hin a Ha) as Hno. rewrite Hlike in Hno. done.
Qed.

Lemma deletes_delete_row (P Q : DB → Prop) referenced f msg :
  (∀ d, P d → referenced d = false) → (∀ d, shrinks d (f d)) → (∀ d, P d → Q (f d)) →
  deletes P (delete_row referenced f msg) Q.
Proof.
  intros Hr Hs HQ d Hd. unfold delete_row. rewrite (Hr d Hd).
  exists (), (f d). split_and!; [done|apply Hs|by apply HQ].
Qed.

(** Updates that only remove rows, or touch the revision date of users. *)
Ltac shrink :=
  intros; constructor; simpl; try reflexivity;
  first [ apply delete_where_subseteq
        | unfold update_where; rewrite dom_fmap_L; reflexivity
        | apply subseteq_dom, delete_where_subseteq ].

Section deletion.
Context `{E : Env}.

Lemma touch_deletes P uuid : deletes P (User_update_uuid_revision uuid) (λ _, True).
Proof. apply deletes_modify; [shrink|done]. Qed.

Lemma touch_all_deletes {A} P (l : list A) (key : A → string) :
  Stable P → deletes P (for_each l (λ a, User_update_uuid_revision (key a))) (λ _, True).
Proof.
  intros HP. eapply deletes_weaken; [apply (deletes_for_each P (λ _ _, True))|..]; try done; try apply _.
  intros a. apply touch_deletes.
Qed.

Lemma Cipher_update_users_revision_deletes P c :
  Stable P → deletes P (Cipher_update_users_revision c) (λ _, True).
Proof.
  intros HP. unfold Cipher_update_users_revision. destruct (Cipher.user_uuid c) as [u|].
  - eapply deletes_bind; [done|apply touch_deletes|]. intros; apply deletes_ret.
  - destruct (Cipher.organization_uuid c) as [o|]; [|apply deletes_ret].
    apply deletes_gets. intros l1. apply deletes_gets. intros l2.
    eapply deletes_bind; [done|by apply touch_all_deletes|]. intros; apply deletes_ret.
Qed.

(** The object store answers every deletion. *)
Definition storage_works : Prop :=
  (∀ t, opendal_operator_for_path_type t = Ok ()) ∧ ∀ path, storage_delete path ≠ StorageFailed.

Lemma Attachment_delete_all_deletes P c :
  storage_works → Stable P →
  deletes P (Attachment_delete_all_by_cipher c) (no_rows attachments (λ a, Attachment.cipher_uuid a == c)).
Proof.
  intros [Hop Hst] HP. unfold Attachment_delete_all_by_cipher.
  apply (deletes_all attachments P _ (λ a b, Attachment.id b == Attachment.id a)); [done|..].
  - intros a. by apply bool_decide_true.
  - intros a. unfold Attachment_delete. rewrite Hop.
    eapply deletes_bind; [done|apply deletes_modify with (Q := no_rows attachments (λ r, Attachment.id r == Attachment.id a))|].
    + shrink.
    + gone.
    + intros []. simpl. destruct (storage_delete _) eqn:Hd; [..|by destruct (Hst (Attachment_get_file_path a))];
        (intros d [? ?]; by exists (), d).
Qed.

(** What is left of a cipher after its deletion: nothing. *)
Definition cipher_gone (c : string) (d : DB) : Prop :=
  no_rows ciphers (λ r, Cipher.uuid r == c) d.

Lemma Cipher_delete_deletes P c :
  storage_works → Stable P → deletes P (Cipher_delete c) (cipher_gone (Cipher.uuid c)).
Proof.
  intros Hst HP. unfold Cipher_delete. set (u := Cipher.uuid c).
  eapply deletes_bind; [done|by apply Cipher_update_users_revision_deletes|intros _].
  eapply deletes_bind with (Q := no_rows folders_ciphers (λ r, FolderCipher.cipher_uuid r == u)); [apply _|..].
  { apply deletes_modify; [shrink|]. gone. }
  intros []. eapply deletes_bind with (Q := no_rows ciphers_collections (λ r, CollectionCipher.cipher_uuid r == u)); [apply _|..].
  { apply deletes_modify; [shrink|]. gone. }
  intros []. eapply deletes_bind; [apply _|by apply Attachment_delete_all_deletes; [done|apply _]|].
  intros []. eapply deletes_bind with (Q := no_rows favorites (λ r, Favorite.cipher_uuid r == u)); [apply _|..].
  { apply deletes_modify; [shrink|]. gone. }
  intros []. apply deletes_delete_row.
  - intros d (((((_ & _) & H1) & H2) & H3) & H4). unfold cipher_referenced.
    by rewrite !no_rows_nonempty.
  - intros d. constructor; simpl; try reflexivity; apply delete_where_subseteq.
  - gone.
Qed.

Lemma Folder_delete_deletes P f :
  Stable P → deletes P (Folder_delete f) (no_rows folders (λ r, Folder.uuid r == Folder.uuid f)).
Proof.
  intros HP. unfold Folder_delete. set (u := Folder.uuid f).
  eapply deletes_bind; [done|apply touch_deletes|intros _].
  eapply deletes_bind with (Q := no_rows folders_ciphers (λ r, FolderCipher.folder_uuid r == u)); [apply _|..].
  { apply deletes_modify; [shrink|]. gone. }
  intros []. apply deletes_delete_row; [|shrink|gone].
  intros d [_ H1]. unfold folder_referenced. by rewrite no_rows_nonempty.
Qed.

Lemma touch_member_deletes P m : Stable P → deletes P (touch_member m) (λ _, True).
Proof.
  intros HP. unfold touch_member. apply deletes_gets. intros [x|]; [apply touch_deletes|apply deletes_ret].
Qed.

Lemma touch_group_users_deletes P g o : Stable P → deletes P (touch_group_users g o) (λ _, True).
Proof.
  intros HP. unfold touch_group_users. apply deletes_gets. intros l.
  eapply deletes_weaken; [apply (deletes_for_each P (λ _ _, True))|..]; try done; try apply _.
  intros a. apply touch_member_deletes, _.
Qed.

Lemma Membership_delete_deletes P m :
  Stable P →
  deletes P (Membership_delete m) (no_rows users_organizations (λ r, Membership.uuid r == Membership.uuid m)).
Proof.
  intros HP. unfold Membership_delete. set (u := Membership.uuid m).
  eapply deletes_bind; [done|apply touch_deletes|intros _].
  eapply deletes_bind with (Q := λ _, True); [apply _|..].
  { unfold CollectionUser_delete_all_by_user_and_org. apply deletes_gets. intros l.
    eapply deletes_weaken; [apply (deletes_for_each P (λ _ _, True))|..]; try done; try apply _; [|by intros ? []].
    intros a. apply deletes_modify; [shrink|done]. }
  intros []. eapply deletes_bind with (Q := no_rows groups_users (λ r, GroupUser.users_organizations_uuid r == u)); [apply _|..].
  { unfold GroupUser_delete_all_by_member.
    eapply deletes_bind; [apply _|apply touch_member_deletes, _|]. intros []. apply deletes_modify; [shrink|]. gone. }
  intros []. apply deletes_delete_row; [|shrink|gone].
  intros d [_ H1]. unfold member_referenced. by rewrite no_rows_nonempty.
Qed.

Lemma Group_delete_deletes P o g :
  Stable P → deletes P (Group_delete o g) (no_rows groups (λ r, Group.uuid r == Group.uuid g)).
Proof.
  intros HP. unfold Group_delete. set (u := Group.uuid g).
  eapply deletes_bind with (Q := no_rows collections_groups (λ r, CollectionGroup.groups_uuid r == u)); [apply _|..].
  { unfold CollectionGroup_delete_all_by_group.
    eapply deletes_bind; [apply _|apply touch_group_users_deletes, _|]. intros []. apply deletes_modify; [shrink|]. gone. }
  intros []. eapply deletes_bind with (Q := no_rows groups_users (λ r, GroupUser.groups_uuid r == u)); [apply _|..].
  { unfold GroupUser_delete_all_by_group.
    eapply deletes_bind; [apply _|apply touch_group_users_deletes, _|]. intros []. apply deletes_modify; [shrink|]. gone. }
  intros []. apply deletes_delete_row; [|shrink|gone].
  intros d [[_ H1] H2]. unfold group_referenced. by rewrite !no_rows_nonempty.
Qed.

Lemma Collection_delete_deletes P c :
  Stable P → deletes P (Collection_delete c) (no_rows collections (λ r, Collection.uuid r == Collection.uuid c)).
Proof.
  intros HP. unfold Collection_delete. set (u := Collection.uuid c).
  eapply deletes_bind with (Q := λ _, True); [apply _|..].
  { unfold Collection_update_users_revision. apply deletes_gets. intros l. apply touch_all_deletes, _. }
  intros []. eapply deletes_bind with (Q := no_rows ciphers_collections (λ r, CollectionCipher.collection_uuid r == u)); [apply _|..].
  { apply deletes_modify; [shrink|]. gone. }
  intros []. eapply deletes_bind with (Q := no_rows users_collections (λ r, CollectionUser.collection_uuid r == u)); [apply _|..].
  { unfold CollectionUser_delete_all_by_collection. apply deletes_gets. intros l.
    eapply deletes_bind; [apply _|apply touch_all_deletes, _|]. intros []. apply deletes_modify; [shrink|]. gone. }
  intros []. eapply deletes_bind with (Q := no_rows collections_groups (λ r, CollectionGroup.collections_uuid r == u)); [apply _|..].
  { unfold CollectionGroup_delete_all_by_collection. apply deletes_gets. intros l.
    eapply deletes_bind with (Q := λ _, True); [apply _|..].
    - eapply deletes_weaken; [apply (deletes_for_each (λ _, True) (λ _ _, True))|..]; try done; try apply _.
      intros a. apply touch_group_users_deletes, _.
    - intros []. apply deletes_modify; [shrink|]. gone. }
  intros []. apply deletes_delete_row; [|shrink|gone].
  intros d ((((_ & _) & H1) & H2) & H3). unfold collection_referenced. by rewrite !no_rows_nonempty.
Qed.

(** ** Organizations *)

Definition org_gone (o : string) (d : DB) : Prop :=
  no_rows organizations (λ r, Organization.uuid r == o) d ∧ organization_referenced o d = false.

Lemma org_loop {A} (t : DB → gmap string A) `{!Shrinking t} (P : DB → Prop) (uuid : A → string)
    (p : A → bool) (f : A → M DB ()) :
  Stable P → (∀ a, deletes P (f a) (no_rows t (λ r, uuid r == uuid a))) →
  deletes P (l ← gets (λ d, where_ p (rows (t d))); for_each l f) (no_rows t p).
Proof.
  intros HP Hf. apply (deletes_all t P p (λ a r, uuid r == uuid a)); [done| |done].
  intros a. by apply bool_decide_true.
Qed.

Lemma Organization_delete_deletes o :
  storage_works →
  deletes (λ d, no_rows sends (λ r, Send.organization_uuid r == Some (Organization.uuid o)) d
                ∧ no_rows auth_requests (λ r, AuthRequest.organization_uuid r == Some (Organization.uuid o)) d)
    (Organization_delete o) (org_gone (Organization.uuid o)).
Proof.
  intros Hst. unfold Organization_delete. set (u := Organization.uuid o).
  eapply deletes_bind; [apply _|apply (org_loop ciphers _ Cipher.uuid); [apply _|intros; apply Cipher_delete_deletes; [done|apply _]]|].
  intros []. eapply deletes_bind; [apply _|apply (org_loop collections _ Collection.uuid); [apply _|intros; apply Collection_delete_deletes, _]|].
  intros []. eapply deletes_bind; [apply _|apply (org_loop users_organizations _ Membership.uuid); [apply _|intros; apply Membership_delete_deletes, _]|].
  intros []. eapply deletes_bind with (Q := no_rows org_policies (λ r, OrgPolicy.org_uuid r == u)); [apply _|apply deletes_modify; [shrink|gone]|].
  intros []. eapply deletes_bind; [apply _|apply (org_loop groups _ Group.uuid); [apply _|intros; apply Group_delete_deletes, _]|].
  intros []. eapply deletes_bind with (Q := no_rows organization_api_key (λ r, OrganizationApiKey.org_uuid r == u)); [apply _|apply deletes_modify; [shrink|gone]|].
  intros [].
  assert (Href : ∀ d, (((((((no_rows sends (λ r, Send.organization_uuid r == Some u) d
      ∧ no_rows auth_requests (λ r, AuthRequest.organization_uuid r == Some u) d)
      ∧ no_rows ciphers (λ c, Cipher.organization_uuid c == Some u) d)
      ∧ no_rows collections (λ c, Collection.org_uuid c == u) d)
      ∧ no_rows users_organizations (λ m, Membership.org_uuid m == u) d)
      ∧ no_rows org_policies (λ r, OrgPolicy.org_uuid r == u) d)
      ∧ no_rows groups (λ g, Group.organizations_uuid g == u) d)
      ∧ no_rows organization_api_key (λ r, OrganizationApiKey.org_uuid r == u) d) →
    organization_referenced u d = false).
  { intros d (((((((H1 & H2) & H3) & H4) & H5) & H6) & H7) & H8). unfold organization_referenced.
    by rewrite !no_rows_nonempty. }
  apply deletes_delete_row; [exact Href|shrink|].
  intros d Hd. split; [gone_now|by apply Href].
Qed.

(** ** Accounts *)

(** What the deletion of memberships leaves alone. *)
Definition same_collections (d d' : DB) : Prop := collections d' = collections d.
#[local] Instance same_collections_preorder : PreOrder same_collections.
Proof. split; [done|]. unfold same_collections. intros ???. congruence. Qed.

Lemma Membership_delete_keeps m : keeps same_collections (Membership_delete m).
Proof.
  unfold Membership_delete, User_update_uuid_revision, CollectionUser_delete_all_by_user_and_org,
    GroupUser_delete_all_by_member, touch_member, User_update_uuid_revision. db_keeps; done.
Qed.

(** No grant of [u] is left on the collections [cols] of organization [o]. *)
Definition no_grants (cols : list Collection.t) (u o : string) (d : DB) : Prop :=
  ∀ cu, cu ∈ rows (users_collections d) → CollectionUser.user_uuid cu = u →
    ∀ col, col ∈ cols → Collection.uuid col = CollectionUser.collection_uuid cu → Collection.org_uuid col ≠ o.
#[local] Instance stable_no_grants cols u o : Stable (no_grants cols u o).
Proof. intros d d' Hs Hn cu Hcu. apply Hn. eapply rows_subseteq; [by apply shrinking|done]. Qed.

Lemma delete_grants d u o :
  ∃ d', CollectionUser_delete_all_by_user_and_org u o d = (Ok (), d') ∧ shrinks d d'
  ∧ no_grants (rows (collections d)) u o d'.
Proof.
  unfold CollectionUser_delete_all_by_user_and_org. rewrite run_gets.
  set (l := CollectionUser_find_by_organization_and_user_uuid o u d).
  destruct (deletes_for_each (λ _, True) (λ a, no_rows users_collections (λ r,
      (CollectionUser.user_uuid r == u) && (CollectionUser.collection_uuid r == CollectionUser.collection_uuid a))) l
    (λ user, modify (set_users_collections (delete_where (λ r,
      (CollectionUser.user_uuid r == u) && (CollectionUser.collection_uuid r == CollectionUser.collection_uuid user))))))
    with (d := d) as ([] & d' & H1 & Hs & Hall); [apply _|apply _| |done|].
  { intros a. apply deletes_modify; [shrink|gone]. }
  exists d'. split_and!; [done..|]. intros cu Hcu Hu col Hcol Hid Ho.
  assert (cu ∈ l) as Hin.
  { apply list_elem_of_fmap. exists (cu, col). split; [done|]. apply elem_of_where.
    split; [|by apply bool_decide_true]. apply elem_of_inner_join.
    split_and!; [|done|by apply bool_decide_true]. apply elem_of_where.
    split; [eapply rows_subseteq; [by apply shrinking|done]|by apply bool_decide_true]. }
  specialize (Hall cu Hin cu Hcu). simpl in Hall. by rewrite !bool_decide_true in Hall.
Qed.

Lemma Membership_delete_spec d m :
  ∃ d', Membership_delete m d = (Ok (), d') ∧ shrinks d d' ∧ collections d' = collections d
  ∧ no_rows users_organizations (λ r, Membership.uuid r == Membership.uuid m) d'
  ∧ no_grants (rows (collections d)) (Membership.user_uuid m) (Membership.org_uuid m) d'.
Proof.
  destruct (Membership_delete_deletes (λ _, True) m _ d I) as ([] & d' & Hd & Hs & Hn).
  exists d'. pose proof (Membership_delete_keeps m d) as Hk. rewrite Hd in Hk. split_and!; try done.
  revert Hd. unfold Membership_delete, User_update_uuid_revision at 1. rewrite run_modify.
  set (d1 := set_users _ d).
  destruct (delete_grants d1 (Membership.user_uuid m) (Membership.org_uuid m)) as (d2 & H2 & Hs2 & Hg).
  rewrite (run_bind_Ok _ _ _ _ _ H2). intros Hd. eapply stable; [|exact Hg].
  assert (Hrest : keeps shrinks (GroupUser_delete_all_by_member (Membership.uuid m) ;;
    delete_row (member_referenced (Membership.uuid m))
      (set_users_organizations (delete_where (λ r, Membership.uuid r == Membership.uuid m)))
      "Error removing user from organization")).
  { unfold GroupUser_delete_all_by_member, touch_member, User_update_uuid_revision. db_keeps; shrink. }
  specialize (Hrest d2). by rewrite Hd in Hrest.
Qed.

Lemma memberships_loop u l d :
  (∀ m, m ∈ l → Membership.user_uuid m = u) →
  ∃ d', for_each l Membership_delete d = (Ok (), d') ∧ shrinks d d'
  ∧ ∀ m, m ∈ l → no_rows users_organizations (λ r, Membership.uuid r == Membership.uuid m) d'
      ∧ no_grants (rows (collections d)) u (Membership.org_uuid m) d'.
Proof.
  revert d. induction l as [|m l IH]; intros d Hl; simpl.
  { exists d. split_and!; try done. by intros ? ?%not_elem_of_nil. }
  destruct (Membership_delete_spec d m) as (d1 & H1 & Hs1 & Hc1 & Hn1 & Hg1).
  destruct (IH d1) as (d2 & H2 & Hs2 & Hall); [by intros; apply Hl; right|].
  rewrite (run_bind_Ok _ _ _ _ _ H1). exists d2. split_and!; [done|by etrans|].
  rewrite (Hl m) in Hg1 by left. rewrite Hc1 in Hall.
  intros m' [->|Hm']%elem_of_cons; [|by apply Hall]. split; by eapply stable.
Qed.

Lemma memberships_of_user_deleted d u :
  grants_have_members d →
  ∃ d', Membership_delete_all_by_user u d = (Ok (), d') ∧ shrinks d d'
  ∧ no_rows users_organizations (λ r, Membership.user_uuid r == u) d'
  ∧ no_rows users_collections (λ r, CollectionUser.user_uuid r == u) d'.
Proof.
  intros Hgm. unfold Membership_delete_all_by_user. rewrite run_gets.
  destruct (memberships_loop u (Membership_find_any_state_by_user u d) d) as (d' & H1 & Hs & Hall).
  { intros m [_ Hm]%elem_of_where. by bools. }
  assert (Hin : ∀ m, m ∈ rows (users_organizations d) → Membership.user_uuid m = u →
    m ∈ Membership_find_any_state_by_user u d).
  { intros m Hm Hu. apply elem_of_where. split; [done|]. by apply bool_decide_true. }
  exists d'. split_and!; [done..| |].
  - intros m Hm. apply not_true_iff_false. intros Hu. bools.
    assert (Hm' : m ∈ rows (users_organizations d)) by (eapply rows_subseteq; [by apply shrinking|done]).
    destruct (Hall m (Hin m Hm' Hu)) as [Hno _]. specialize (Hno m Hm). simpl in Hno.
    by rewrite bool_decide_true in Hno.
  - intros cu Hcu. apply not_true_iff_false. intros Hu. bools.
    destruct (Hgm cu) as (col & m & Hcol & Hid & Hm & Hmu & Hmo); [eapply rows_subseteq; [by apply shrinking|done]|].
    destruct (Hall m) as [_ Hno]; [by apply Hin; [|congruence]|].
    by eapply (Hno cu Hcu Hu col).
Qed.

(** Everything of an account that refers to it. *)
Definition account_erased (u : string) (d : DB) : Prop :=
  no_rows devices (λ r, Device.user_uuid r == u) d
  ∧ no_rows ciphers (λ r, Cipher.user_uuid r == Some u) d
  ∧ no_rows folders (λ r, Folder.user_uuid r == u) d
  ∧ no_rows users_collections (λ r, CollectionUser.user_uuid r == u) d
  ∧ no_rows users_organizations (λ r, Membership.user_uuid r == u) d
  ∧ no_rows twofactor (λ r, TwoFactor.user_uuid r == u) d
  ∧ no_rows twofactor_incomplete (λ r, TwoFactorIncomplete.user_uuid r == u) d
  ∧ no_rows favorites (λ r, Favorite.user_uuid r == u) d
  ∧ no_rows sends (λ r, Send.user_uuid r == Some u) d
  ∧ no_rows emergency_access (λ r, (EmergencyAccess.grantor_uuid r == u)
                                   || (EmergencyAccess.grantee_uuid r == Some u)) d.

(** A cipher has an owner or an organization, not both. *)
Definition personal_ciphers (u : string) (d : DB) : Prop :=
  ∀ c, c ∈ rows (ciphers d) → Cipher.user_uuid c = Some u → Cipher.organization_uuid c = None.
#[local] Instance stable_personal u : Stable (personal_ciphers u).
Proof. intros d d' Hs Hp c Hc. apply Hp. eapply rows_subseteq; [by apply shrinking|done]. Qed.

(** The rows that no step before the last touches. *)
Definition same_requests (d d' : DB) : Prop :=
  auth_requests d' = auth_requests d ∧ User.uuid <$> users d' = User.uuid <$> users d.
#[local] Instance same_requests_preorder : PreOrder same_requests.
Proof. split; [done|]. intros ??? [??] [??]. split; congruence. Qed.

Lemma same_requests_touch d p t : same_requests d (set_users (update_where p (User.set_updated_at (λ _, t))) d).
Proof.
  split; [done|]. simpl. unfold update_where. rewrite <- map_fmap_compose. apply map_fmap_ext.
  intros k r _. simpl. by destruct (p r).
Qed.
#[local] Hint Resolve same_requests_touch : vault.

Ltac same_requests := db_keeps; first [apply same_requests_touch|by split].

Lemma Send_delete_keeps s : keeps same_requests (Send_delete s).
Proof. unfold Send_delete, Send_update_users_revision, User_update_uuid_revision. same_requests. Qed.
Lemma EmergencyAccess_delete_keeps ea : keeps same_requests (EmergencyAccess_delete ea).
Proof. unfold EmergencyAccess_delete, User_update_uuid_revision. same_requests. Qed.
Lemma Membership_delete_keeps_requests m : keeps same_requests (Membership_delete m).
Proof.
  unfold Membership_delete, User_update_uuid_revision, CollectionUser_delete_all_by_user_and_org,
    GroupUser_delete_all_by_member, touch_member, User_update_uuid_revision. same_requests.
Qed.
Lemma Cipher_delete_keeps c : keeps same_requests (Cipher_delete c).
Proof.
  unfold Cipher_delete, Cipher_update_users_revision, FolderCipher_delete_all_by_cipher,
    CollectionCipher_delete_all_by_cipher, Attachment_delete_all_by_cipher, Attachment_delete,
    Favorite_delete_all_by_cipher, User_update_uuid_revision. same_requests.
Qed.
Lemma Folder_delete_keeps f : keeps same_requests (Folder_delete f).
Proof.
  unfold Folder_delete, FolderCipher_delete_all_by_folder, User_update_uuid_revision. same_requests.
Qed.

(** The stages of [User::delete], each with what it erases. *)

Lemma Send_delete_deletes P s :
  storage_works → Stable P → deletes P (Send_delete s) (no_rows sends (λ r, Send.uuid r == Send.uuid s)).
Proof.
  intros [Hop _] HP. unfold Send_delete. eapply deletes_bind with (Q := λ _, True); [done|..].
  { unfold Send_update_users_revision. destruct (Send.user_uuid s); [|apply deletes_ret].
    eapply deletes_bind; [done|apply touch_deletes|]. intros; apply deletes_ret. }
  intros _. eapply deletes_bind with (Q := λ _, True); [apply _|..].
  { rewrite Hop. intros d ?. exists (), d. by destruct (_ == _). }
  intros []. apply deletes_modify; [shrink|gone].
Qed.

Lemma EmergencyAccess_delete_deletes P ea :
  Stable P →
  deletes P (EmergencyAccess_delete ea)
    (no_rows emergency_access (λ r, EmergencyAccess.uuid r == EmergencyAccess.uuid ea)).
Proof.
  intros HP. unfold EmergencyAccess_delete. eapply deletes_bind; [done|apply touch_deletes|].
  intros []. apply deletes_modify; [shrink|gone].
Qed.

Lemma EmergencyAccess_delete_all_deletes P u :
  Stable P →
  deletes P (EmergencyAccess_delete_all_by_user u)
    (no_rows emergency_access (λ r, (EmergencyAccess.grantor_uuid r == u)
                                    || (EmergencyAccess.grantee_uuid r == Some u))).
Proof.
  intros HP d Hd. unfold EmergencyAccess_delete_all_by_user. rewrite run_gets.
  destruct (org_loop emergency_access P EmergencyAccess.uuid (λ r, EmergencyAccess.grantor_uuid r == u)
    EmergencyAccess_delete HP) with (d := d) as ([] & d1 & H1 & Hs1 & Hn1); [intros; by apply EmergencyAccess_delete_deletes|done|].
  rewrite run_gets in H1. rewrite (run_bind_Ok _ _ _ _ _ H1).
  destruct (org_loop emergency_access P EmergencyAccess.uuid (λ r, EmergencyAccess.grantee_uuid r == Some u)
    EmergencyAccess_delete HP) with (d := d1) as ([] & d2 & H2 & Hs2 & Hn2);
    [intros; by apply EmergencyAccess_delete_deletes|by eapply HP|].
  exists (), d2. split_and!; [exact H2|by etrans|].
  intros a Ha. apply orb_false_iff. split; [|by apply Hn2].
  eapply (stable (P := no_rows emergency_access _) d1 d2 Hs2 Hn1). done.
Qed.

(** One stage: it succeeds, erases, and leaves the login requests alone. *)
Definition stage (P : DB → Prop) (m : M DB ()) (Q : DB → Prop) : Prop :=
  deletes P m Q ∧ keeps same_requests m.

Lemma stage_run P m Q d :
  stage P m Q → P d →
  ∃ d1, (∀ B (f : () → M DB B), (m ≫= f) d = f () d1) ∧ shrinks d d1 ∧ same_requests d d1 ∧ Q d1.
Proof.
  intros [Hd Hk] HP. destruct (Hd d HP) as ([] & d1 & H1 & Hs & HQ). exists d1.
  specialize (Hk d). rewrite H1 in Hk. split_and!; try done. intros B f. by rewrite (run_bind_Ok _ _ _ _ _ H1).
Qed.

Lemma stage_loop {A} (t : DB → gmap string A) `{!Shrinking t} (uuid : A → string) (p : A → bool)
    (f : A → M DB ()) :
  (∀ a, deletes (λ _, True) (f a) (no_rows t (λ r, uuid r == uuid a))) → (∀ a, keeps same_requests (f a)) →
  stage (λ _, True) (l ← gets (λ d, where_ p (rows (t d))); for_each l f) (no_rows t p).
Proof.
  intros Hf Hk. split; [apply (org_loop t (λ _, True) uuid); [apply _|done]|].
  apply keeps_bind; [apply _|apply keeps_gets, _|intros l]. by apply keeps_for_each; [apply _|].
Qed.

Lemma stage_modify Q f :
  (∀ d, shrinks d (f d)) → (∀ d, Q (f d)) → (∀ d, same_requests d (f d)) → stage (λ _, True) (modify f) Q.
Proof. intros Hs HQ Hk. split; [by apply deletes_modify|]. by apply keeps_modify. Qed.

Lemma stage_invitation email : deletes (λ _, True) (Invitation_take email) (λ _, True) ∧ keeps same_requests (Invitation_take email).
Proof.
  split.
  - unfold Invitation_take. apply deletes_gets. intros [i|]; [|apply deletes_ret].
    eapply deletes_bind; [apply _|apply deletes_modify with (Q := λ _, True); [shrink|done]|]. intros; apply deletes_ret.
  - unfold Invitation_take, Invitation_delete. same_requests.
Qed.

Definition remove_account (u : string) (d : DB) : DB :=
  set_archives (delete_where (λ r, Archive.user_uuid r == u))
    (set_sso_users (delete_where (λ r, SsoUser.user_uuid r == u))
      (set_users (delete_where (λ r, User.uuid r == u)) d)).

(** The first stages do not change what is shared. *)
Definition same_sharing (d d' : DB) : Prop :=
  collections d' = collections d ∧ users_organizations d' = users_organizations d
  ∧ users_collections d' = users_collections d.
#[local] Instance same_sharing_preorder : PreOrder same_sharing.
Proof. split; [done|]. intros ??? (?&?&?) (?&?&?). split_and!; congruence. Qed.

Lemma same_sharing_grants d d' : same_sharing d d' → grants_have_members d → grants_have_members d'.
Proof. intros (H1 & H2 & H3). unfold grants_have_members. by rewrite H1, H2, H3. Qed.

Lemma Send_delete_sharing s : keeps same_sharing (Send_delete s).
Proof. unfold Send_delete, Send_update_users_revision, User_update_uuid_revision. db_keeps; done. Qed.
Lemma EmergencyAccess_delete_sharing ea : keeps same_sharing (EmergencyAccess_delete ea).
Proof. unfold EmergencyAccess_delete, User_update_uuid_revision. db_keeps; done. Qed.

Lemma first_stages d u {B} (k : M DB B) :
  storage_works → grants_have_members d →
  ∃ d4, (Send_delete_all_by_user (User.uuid u) ;; EmergencyAccess_delete_all_by_user (User.uuid u) ;;
         EmergencyAccess_delete_all_by_grantee_email (User.email u) ;;
         Membership_delete_all_by_user (User.uuid u) ;; k) d = k d4
  ∧ shrinks d d4 ∧ same_requests d d4
  ∧ no_rows sends (λ r, Send.user_uuid r == Some (User.uuid u)) d4
  ∧ no_rows emergency_access (λ r, (EmergencyAccess.grantor_uuid r == User.uuid u)
                                   || (EmergencyAccess.grantee_uuid r == Some (User.uuid u))) d4
  ∧ no_rows users_organizations (λ r, Membership.user_uuid r == User.uuid u) d4
  ∧ no_rows users_collections (λ r, CollectionUser.user_uuid r == User.uuid u) d4.
Proof.
  intros Hst Hgm. set (uid := User.uuid u).
  set (m1 := Send_delete_all_by_user uid). set (m2 := EmergencyAccess_delete_all_by_user uid).
  set (m3 := EmergencyAccess_delete_all_by_grantee_email (User.email u)).
  assert (S1 : stage (λ _, True) m1 (no_rows sends (λ r, Send.user_uuid r == Some uid))).
  { apply (stage_loop sends Send.uuid); [|apply Send_delete_keeps]. intros; by apply Send_delete_deletes; [|apply _]. }
  assert (S2 : stage (λ _, True) m2 (no_rows emergency_access (λ r, (EmergencyAccess.grantor_uuid r == uid)
                                   || (EmergencyAccess.grantee_uuid r == Some uid)))).
  { split; [apply EmergencyAccess_delete_all_deletes, _|]. unfold m2, EmergencyAccess_delete_all_by_user.
    pose proof EmergencyAccess_delete_keeps. db_keeps; apply H. }
  assert (S3 : stage (λ _, True) m3 (no_rows emergency_access (λ r, (EmergencyAccess.email r == Some (User.email u))
               && (EmergencyAccess.status r == EmergencyAccessStatus_as_i32 EInvited)))).
  { apply (stage_loop emergency_access EmergencyAccess.uuid); [|apply EmergencyAccess_delete_keeps].
    intros; apply EmergencyAccess_delete_deletes, _. }
  assert (Hsh : keeps same_sharing m1 ∧ keeps same_sharing m2 ∧ keeps same_sharing m3).
  { pose proof Send_delete_sharing as Ha. pose proof EmergencyAccess_delete_sharing as Hb.
    unfold m1, m2, m3, Send_delete_all_by_user, EmergencyAccess_delete_all_by_user,
      EmergencyAccess_delete_all_by_grantee_email. split_and!; db_keeps; (apply Ha || apply Hb). }
  destruct Hsh as (K1 & K2 & K3).
  destruct (proj1 S1 d I) as ([] & d1 & R1 & T1 & Q1).
  destruct (proj1 S2 d1 I) as ([] & d2 & R2 & T2 & Q2).
  destruct (proj1 S3 d2 I) as ([] & d3 & R3 & T3 & Q3).
  rewrite (run_bind_Ok _ _ _ _ _ R1), (run_bind_Ok _ _ _ _ _ R2), (run_bind_Ok _ _ _ _ _ R3).
  specialize (K1 d). specialize (K2 d1). specialize (K3 d2). rewrite R1 in K1. rewrite R2 in K2. rewrite R3 in K3.
  pose proof (proj2 S1 d) as A1. pose proof (proj2 S2 d1) as A2. pose proof (proj2 S3 d2) as A3.
  rewrite R1 in A1. rewrite R2 in A2. rewrite R3 in A3. simpl in *.
  destruct (memberships_of_user_deleted d3 uid) as (d4 & R4 & T4 & Q4 & Q5).
  { eapply same_sharing_grants; [|exact Hgm]. etrans; [exact K1|]. etrans; [exact K2|exact K3]. }
  assert (A4 : keeps same_requests (Membership_delete_all_by_user uid)).
  { unfold Membership_delete_all_by_user. pose proof Membership_delete_keeps_requests. db_keeps; apply H. }
  specialize (A4 d3). rewrite R4 in A4. rewrite (run_bind_Ok _ _ _ _ _ R4).
  exists d4. split_and!; try done.
  - etrans; [exact T1|]. etrans; [exact T2|]. by etrans.
  - etrans; [exact A1|]. etrans; [exact A2|]. by etrans.
  - eapply (stable d1); [|exact Q1]. etrans; [exact T2|]. by etrans.
  - eapply (stable d2); [|exact Q2]. by etrans.
Qed.

Lemma stage_ciphers u :
  storage_works →
  stage (λ _, True) (Cipher_delete_all_by_user u)
    (no_rows ciphers (λ c, (Cipher.user_uuid c == Some u) && (Cipher.organization_uuid c == None))).
Proof.
  intros Hst. apply (stage_loop ciphers Cipher.uuid); [|apply Cipher_delete_keeps].
  intros; by apply Cipher_delete_deletes; [|apply _].
Qed.
Lemma stage_folders u :
  stage (λ _, True) (Folder_delete_all_by_user u) (no_rows folders (λ r, Folder.user_uuid r == u)).
Proof.
  apply (stage_loop folders Folder.uuid); [|apply Folder_delete_keeps]. intros; apply Folder_delete_deletes, _.
Qed.
Lemma stage_favorites u :
  stage (λ _, True) (Favorite_delete_all_by_user u) (no_rows favorites (λ r, Favorite.user_uuid r == u)).
Proof. apply stage_modify; [shrink|intros ?; gone_now|done]. Qed.
Lemma stage_devices u :
  stage (λ _, True) (Device_delete_all_by_user u) (no_rows devices (λ r, Device.user_uuid r == u)).
Proof. apply stage_modify; [shrink|intros ?; gone_now|done]. Qed.
Lemma stage_twofactor u :
  stage (λ _, True) (TwoFactor_delete_all_by_user u) (no_rows twofactor (λ r, TwoFactor.user_uuid r == u)).
Proof. apply stage_modify; [shrink|intros ?; gone_now|done]. Qed.
Lemma stage_incomplete u :
  stage (λ _, True) (TwoFactorIncomplete_delete_all_by_user u)
    (no_rows twofactor_incomplete (λ r, TwoFactorIncomplete.user_uuid r == u)).
Proof. apply stage_modify; [shrink|intros ?; gone_now|done]. Qed.

(** The remaining stages, and the state in which the account row is deleted. *)
Lemma last_stages d u {B} (k : M DB B) :
  storage_works →
  ∃ d', (Cipher_delete_all_by_user (User.uuid u) ;; Favorite_delete_all_by_user (User.uuid u) ;;
         Folder_delete_all_by_user (User.uuid u) ;; Device_delete_all_by_user (User.uuid u) ;;
         TwoFactor_delete_all_by_user (User.uuid u) ;; TwoFactorIncomplete_delete_all_by_user (User.uuid u) ;;
         Invitation_take (User.email u) ;; k) d = k d'
  ∧ shrinks d d' ∧ same_requests d d'
  ∧ no_rows ciphers (λ c, (Cipher.user_uuid c == Some (User.uuid u)) && (Cipher.organization_uuid c == None)) d'
  ∧ no_rows favorites (λ r, Favorite.user_uuid r == User.uuid u) d'
  ∧ no_rows folders (λ r, Folder.user_uuid r == User.uuid u) d'
  ∧ no_rows devices (λ r, Device.user_uuid r == User.uuid u) d'
  ∧ no_rows twofactor (λ r, TwoFactor.user_uuid r == User.uuid u) d'
  ∧ no_rows twofactor_incomplete (λ r, TwoFactorIncomplete.user_uuid r == User.uuid u) d'.
Proof.
  intros Hst. set (uid := User.uuid u).
  destruct (stage_run _ _ _ d (stage_ciphers uid Hst) I) as (d1 & -> & T1 & A1 & Q1).
  destruct (stage_run _ _ _ d1 (stage_favorites uid) I) as (d2 & -> & T2 & A2 & Q2).
  destruct (stage_run _ _ _ d2 (stage_folders uid) I) as (d3 & -> & T3 & A3 & Q3).
  destruct (stage_run _ _ _ d3 (stage_devices uid) I) as (d4 & -> & T4 & A4 & Q4).
  destruct (stage_run _ _ _ d4 (stage_twofactor uid) I) as (d5 & -> & T5 & A5 & Q5).
  destruct (stage_run _ _ _ d5 (stage_incomplete uid) I) as (d6 & -> & T6 & A6 & Q6).
  destruct (stage_invitation (User.email u)) as [Si Ai]. specialize (Ai d6).
  destruct (Si d6 I) as (b & d7 & R7 & T7 & _). rewrite R7 in Ai. rewrite (run_bind_Ok _ _ _ _ _ R7).
  assert (T67 : shrinks d5 d7) by (by etrans). assert (T57 : shrinks d4 d7) by (by etrans).
  assert (T47 : shrinks d3 d7) by (by etrans). assert (T37 : shrinks d2 d7) by (by etrans).
  assert (T27 : shrinks d1 d7) by (by etrans).
  exists d7. split_and!; [done|by etrans| |..].
  2-7: match goal with H : ?Q ?x |- ?Q _ => by apply (stable x d7) end.
  do 6 (etrans; [eassumption|]). exact Ai.
Qed.

(** Short of the last statement, the deletion of an account that is not the
    last owner of an organization never fails, and erases what refers to it. *)
Lemma User_delete_erases d u :
  storage_works → grants_have_members d → personal_ciphers (User.uuid u) d →
  is_last_owner (User.uuid u) d = false →
  ∃ d', User_delete u d = delete_row (user_referenced (User.uuid u)) (remove_account (User.uuid u)) "Error deleting user" d'
  ∧ shrinks d d' ∧ same_requests d d' ∧ account_erased (User.uuid u) d'.
Proof.
  intros Hst Hgm Hpc Hlast. unfold User_delete. rewrite run_gets, Hlast.
  match goal with |- ∃ _, (_ ;; _ ;; _ ;; _ ;; ?k) d = _ ∧ _ => destruct (first_stages d u k Hst Hgm) as (d4 & -> & T4 & A4 & Q1 & Q2 & Q3 & Q4) end.
  match goal with |- ∃ _, (_ ;; _ ;; _ ;; _ ;; _ ;; _ ;; _ ;; ?k) d4 = _ ∧ _ => destruct (last_stages d4 u k Hst) as (d' & -> & T & A & Q5 & Q6 & Q7 & Q8 & Q9 & Q10) end.
  exists d'. split_and!; [done|by etrans|by etrans|].
  unfold account_erased. split_and!; try done; try by eapply stable.
  intros c Hc. specialize (Q5 c Hc). simpl in Q5. apply not_true_iff_false. intros Hu.
  assert (Hd : Cipher.organization_uuid c = None).
  { apply Hpc; [|by bools]. eapply rows_subseteq; [|exact Hc]. apply shrinking. by etrans. }
  by rewrite Hu, Hd in Q5.
Qed.

(** Once its traces are erased, only pending login requests refer to an account. *)
Lemma erased_referenced u d :
  account_erased u d →
  user_referenced u d = nonempty (where_ (λ r, AuthRequest.user_uuid r == u) (rows (auth_requests d))).
Proof.
  intros (H1&H2&H3&H4&H5&H6&H7&H8&H9&H10). unfold user_referenced.
  by rewrite (no_rows_nonempty _ _ _ H1), (no_rows_nonempty _ _ _ H2), (no_rows_nonempty _ _ _ H3),
    (no_rows_nonempty _ _ _ H4), (no_rows_nonempty _ _ _ H5), (no_rows_nonempty _ _ _ H6),
    (no_rows_nonempty _ _ _ H7), (no_rows_nonempty _ _ _ H8), (no_rows_nonempty _ _ _ H9),
    (no_rows_nonempty _ _ _ H10).
Qed.
End deletion.
