(* ===== verification/Erasure.v ===== *)
(** What the deletion of an organization or of an account achieves: the
    theorems.

    Deletion is complete (no row of what was deleted is left), it removes
    nothing of other organizations and accounts, and its failures are
    characterised. *)
From S2P Require Import Prelude Schema Roles Users Invariants Samples TwoFactors OneTimeCodes Sends EmergencyRows Memberships Groups Collections VaultItems Ciphers Policies Organizations Deletion.
Local Open Scope Z_scope.

(** ** What is not deleted *)

(** The rows of the table in [d0] that do not satisfy [p] are still there in [d]. *)
Definition kept {K A} `{Countable K} (t : DB → gmap K A) (p : A → bool) (d0 d : DB) : Prop :=
  ∀ k a, t d0 !! k = Some a → p a = false → t d !! k = Some a.

Lemma kept_delete {K A} `{Countable K} (t : DB → gmap K A) p q (d0 d d' : DB) :
  t d' = delete_where q (t d) → (∀ a, a ∈ rows (t d0) → p a = false → q a = false) →
  kept t p d0 d → kept t p d0 d'.
Proof.
  intros Ht Hq Hk k a Ha Hp. rewrite Ht. apply lookup_delete_where. split; [by apply Hk|].
  apply Hq; [|done]. apply elem_of_rows. eauto.
Qed.

(** The ids of the ciphers, collections, memberships and groups of [o]. *)
Definition org_row {A} (uuid : A → string) (of_org : A → bool) (t : gmap string A) (id : string) : bool :=
  existsb (λ r, (uuid r == id) && of_org r) (rows t).
Definition org_cipher (o : string) (d : DB) : string → bool :=
  org_row Cipher.uuid (λ r, Cipher.organization_uuid r == Some o) (ciphers d).
Definition org_collection (o : string) (d : DB) : string → bool :=
  org_row Collection.uuid (λ r, Collection.org_uuid r == o) (collections d).
Definition org_membership (o : string) (d : DB) : string → bool :=
  org_row Membership.uuid (λ r, Membership.org_uuid r == o) (users_organizations d).
Definition org_group (o : string) (d : DB) : string → bool :=
  org_row Group.uuid (λ r, Group.organizations_uuid r == o) (groups d).

Lemma org_row_true {A} (uuid : A → string) of_org t r : r ∈ rows t → of_org r = true → org_row uuid of_org t (uuid r) = true.
Proof. intros Hr Ho. apply existsb_elem. exists r. by rewrite bool_decide_true, Ho. Qed.

(** What the deletion of organization [o] leaves alone: every row of every
    table that is not of [o] itself, of one of its ciphers, collections,
    memberships or groups. Of accounts only the revision date changes. *)
Record outside (o : string) (d0 d : DB) : Prop := {
  out_shrinks : shrinks d0 d;
  out_organizations : kept organizations (λ r, Organization.uuid r == o) d0 d;
  out_members : kept users_organizations (λ r, Membership.org_uuid r == o) d0 d;
  out_api_keys : kept organization_api_key (λ r, OrganizationApiKey.org_uuid r == o) d0 d;
  out_ciphers : kept ciphers (λ r, Cipher.organization_uuid r == Some o) d0 d;
  out_collections : kept collections (λ r, Collection.org_uuid r == o) d0 d;
  out_groups : kept groups (λ r, Group.organizations_uuid r == o) d0 d;
  out_policies : kept org_policies (λ r, OrgPolicy.org_uuid r == o) d0 d;
  out_attachments : kept attachments (λ r, org_cipher o d0 (Attachment.cipher_uuid r)) d0 d;
  out_folders_ciphers : kept folders_ciphers (λ r, org_cipher o d0 (FolderCipher.cipher_uuid r)) d0 d;
  out_favorites : kept favorites (λ r, org_cipher o d0 (Favorite.cipher_uuid r)) d0 d;
  out_archives : kept archives (λ r, org_cipher o d0 (Archive.cipher_uuid r)) d0 d;
  out_users_collections : kept users_collections (λ r, org_collection o d0 (CollectionUser.collection_uuid r)) d0 d;
  out_ciphers_collections : kept ciphers_collections (λ r,
    org_cipher o d0 (CollectionCipher.cipher_uuid r) || org_collection o d0 (CollectionCipher.collection_uuid r)) d0 d;
  out_collections_groups : kept collections_groups (λ r,
    org_collection o d0 (CollectionGroup.collections_uuid r) || org_group o d0 (CollectionGroup.groups_uuid r)) d0 d;
  out_groups_users : kept groups_users (λ r,
    org_group o d0 (GroupUser.groups_uuid r) || org_membership o d0 (GroupUser.users_organizations_uuid r)) d0 d;
  out_users : User.set_updated_at (λ _, 0) <$> users d = User.set_updated_at (λ _, 0) <$> users d0;
  out_devices : devices d = devices d0;
  out_folders : folders d = folders d0;
  out_twofactor : twofactor d = twofactor d0;
  out_incomplete : twofactor_incomplete d = twofactor_incomplete d0;
  out_sends : sends d = sends d0;
  out_emergency : emergency_access d = emergency_access d0;
  out_requests : auth_requests d = auth_requests d0;
  out_invitations : invitations d = invitations d0;
  out_sso_users : sso_users d = sso_users d0;
  out_sso_auth : sso_auth d = sso_auth d0;
}.

Lemma outside_refl o d : outside o d d.
Proof. split; try done; by intros k a. Qed.

(** Two rows of a table with the same primary key are one row. *)
Lemma same_key {A} (uuid : A → string) (t : gmap string A) a b :
  map_Forall (λ k r, uuid r = k) t → a ∈ rows t → b ∈ rows t → uuid a = uuid b → a = b.
Proof.
  intros Ht [k Ha]%elem_of_rows [k' Hb]%elem_of_rows He.
  pose proof (Ht _ _ Ha). pose proof (Ht _ _ Hb). simplify_eq/=. congruence.
Qed.

(** A new revision date is the one change to accounts. *)
Lemma touched_users p f (t : gmap string User.t) :
  User.set_updated_at (λ _, 0) <$> update_where p (User.set_updated_at f) t = User.set_updated_at (λ _, 0) <$> t.
Proof. unfold update_where. rewrite <- map_fmap_compose. apply map_fmap_ext. intros k u _. simpl. by destruct (p u). Qed.

(** Closes the goals [outside o d0 d → outside o d0 d'] of a single statement:
    the tables it does not write are as before; the rows it deletes are of [o]. *)
Ltac of_org :=
  let r := fresh "r" in let Hr := fresh "Hr" in let Hp := fresh "Hp" in let Heq := fresh "Heq" in
  intros r Hr Hp; first [apply bool_decide_false; intros Heq | apply andb_false_iff; right; apply bool_decide_false; intros Heq];
  bools; congruence.
Ltac outside_step :=
  repeat intro;
  match goal with H : outside _ _ _ |- _ => destruct H end;
  split; simpl; try done;
  first [ etrans; [eassumption|shrink]
        | rewrite touched_users; assumption
        | eapply kept_delete; [reflexivity|of_org|assumption]
        | idtac ].

Section frame.
Context `{E : Env}.
Context (o : string) (d0 : DB) (Hwf : wf d0) (Hatt : map_Forall (λ k r, Attachment.id r = k) (attachments d0)).
Notation R := (preserves (outside o d0)).

Lemma loop_outside {A} (t : DB → gmap string A) `{!Shrinking t} p (f : A → M DB ()) :
  (∀ a, a ∈ rows (t d0) → p a = true → keeps R (f a)) →
  keeps R (l ← gets (λ d, where_ p (rows (t d))); for_each l f).
Proof.
  intros Hf d Hd. rewrite run_gets.
  assert (Hl : ∀ a, a ∈ where_ p (rows (t d)) → keeps R (f a)).
  { intros a [Ha Hp]%elem_of_where. apply Hf; [|done]. eapply rows_subseteq; [|exact Ha]. by apply shrinking, (out_shrinks o). }
  by apply (keeps_for_each_elem R (where_ p (rows (t d))) f Hl).
Qed.

Lemma touch_outside u : keeps R (User_update_uuid_revision u).
Proof. apply keeps_modify. intros d. outside_step. Qed.
#[local] Hint Resolve touch_outside : vault.

(** The row [a] of [o] is not a row outside of [o]. *)
Lemma kept_delete_row {A} (t : DB → gmap string A) (uuid : A → string) p a d d' :
  map_Forall (λ k r, uuid r = k) (t d0) → a ∈ rows (t d0) → p a = true →
  t d' = delete_where (λ r, uuid r == uuid a) (t d) → kept t p d0 d → kept t p d0 d'.
Proof.
  intros Ht Ha Hp Hd. eapply kept_delete; [exact Hd|]. intros b Hb Hpb. apply bool_decide_false. intros He.
  rewrite (same_key uuid _ b a Ht Hb Ha He) in Hpb. congruence.
Qed.

Lemma attachments_outside id : org_cipher o d0 id = true → keeps R (Attachment_delete_all_by_cipher id).
Proof.
  intros Hc. apply (loop_outside attachments). intros a Ha Hid. bools. unfold Attachment_delete.
  db_keeps; outside_step. eapply (kept_delete_row attachments Attachment.id); eauto. simpl. congruence.
Qed.

Lemma Cipher_delete_outside c :
  c ∈ rows (ciphers d0) → (Cipher.organization_uuid c == Some o) = true → keeps R (Cipher_delete c).
Proof.
  intros Hc Ho. pose proof (org_row_true Cipher.uuid (λ r, Cipher.organization_uuid r == Some o) _ _ Hc Ho) as Hid.
  fold (org_cipher o d0) in Hid. pose proof (attachments_outside _ Hid) as Ha.
  unfold Cipher_delete, Cipher_update_users_revision, FolderCipher_delete_all_by_cipher,
    CollectionCipher_delete_all_by_cipher, Favorite_delete_all_by_cipher. db_keeps; try exact Ha; outside_step.
  eapply (kept_delete_row ciphers); eauto using wf_ciphers.
Qed.

Lemma Collection_delete_outside c :
  c ∈ rows (collections d0) → (Collection.org_uuid c == o) = true → keeps R (Collection_delete c).
Proof.
  intros Hc Ho. pose proof (org_row_true Collection.uuid (λ r, Collection.org_uuid r == o) _ _ Hc Ho) as Hid.
  fold (org_collection o d0) in Hid.
  unfold Collection_delete, Collection_update_users_revision, CollectionCipher_delete_all_by_collection,
    CollectionUser_delete_all_by_collection, CollectionGroup_delete_all_by_collection, touch_group_users, GroupUser_update_user_revision, touch_member.
  db_keeps; outside_step. eapply (kept_delete_row collections); eauto using wf_collections.
Qed.

(** The grants that go with a membership are on collections of its organization. *)
Lemma member_grants_outside u : keeps R (CollectionUser_delete_all_by_user_and_org u o).
Proof.
  intros d Hd. unfold CollectionUser_delete_all_by_user_and_org. rewrite run_gets.
  apply (keeps_for_each_elem R); [|done]. intros cu Hcu.
  apply list_elem_of_fmap in Hcu as ([cu' c] & -> & [Hj Ho]%elem_of_where).
  apply elem_of_inner_join in Hj as (_ & Hc & Hon). bools.
  assert (org_collection o d0 (CollectionUser.collection_uuid cu') = true) as Hid.
  { rewrite <- Hon. apply org_row_true; [|by apply bool_decide_true].
    eapply rows_subseteq; [apply (sh_collections _ _ (out_shrinks _ _ _ Hd))|done]. }
  apply keeps_modify. outside_step.
Qed.

Lemma Membership_delete_outside m :
  m ∈ rows (users_organizations d0) → (Membership.org_uuid m == o) = true → keeps R (Membership_delete m).
Proof.
  intros Hc Ho. pose proof (org_row_true Membership.uuid (λ r, Membership.org_uuid r == o) _ _ Hc Ho) as Hid.
  fold (org_membership o d0) in Hid. pose proof (member_grants_outside (Membership.user_uuid m)) as Hg.
  assert (Membership.org_uuid m = o) as Ho' by (by bools). rewrite <- Ho' in Hg at 2.
  unfold Membership_delete, GroupUser_delete_all_by_member, touch_member. db_keeps; try exact Hg; outside_step.
  eapply (kept_delete_row users_organizations); eauto using wf_members.
Qed.

Lemma Group_delete_outside og g :
  g ∈ rows (groups d0) → (Group.organizations_uuid g == o) = true → keeps R (Group_delete og g).
Proof.
  intros Hc Ho. pose proof (org_row_true Group.uuid (λ r, Group.organizations_uuid r == o) _ _ Hc Ho) as Hid.
  fold (org_group o d0) in Hid. unfold Group_delete, CollectionGroup_delete_all_by_group, GroupUser_delete_all_by_group,
    touch_group_users, GroupUser_update_user_revision, touch_member. db_keeps; outside_step.
  eapply (kept_delete_row groups); eauto using wf_groups.
Qed.

Lemma Organization_delete_outside og : Organization.uuid og = o → keeps R (Organization_delete og).
Proof.
  intros Ho. unfold Organization_delete. rewrite Ho.
  apply keeps_bind; [apply _|apply (loop_outside ciphers), Cipher_delete_outside|intros _].
  apply keeps_bind; [apply _|apply (loop_outside collections), Collection_delete_outside|intros _].
  apply keeps_bind; [apply _|apply (loop_outside users_organizations), Membership_delete_outside|intros _].
  apply keeps_bind; [apply _| |intros _].
  { apply keeps_modify. intros d. outside_step. }
  apply keeps_bind; [apply _|apply (loop_outside groups), Group_delete_outside|intros _].
  apply keeps_bind; [apply _| |intros _].
  { apply keeps_modify. intros d. outside_step. }
  db_keeps. outside_step.
Qed.
End frame.

(** ** Owners *)

Definition confirmed_owner (o : string) (d : DB) (m : Membership.t) : Prop :=
  m ∈ rows (users_organizations d) ∧ Membership.org_uuid m = o
  ∧ Membership.atype m = MembershipType_as_i32 Owner ∧ Membership.status m = MembershipStatus_as_i32 Confirmed.

Section owners.
Context `{E : Env}.

(** A member that is not the only confirmed owner is followed by another. *)
Lemma another_owner_keyed d o m :
  map_Forall (λ k r, Membership.uuid r = k) (users_organizations d) →
  confirmed_owner o d m → 1 < Membership_count_confirmed_by_org_and_type o Owner d →
  ∃ m', m' ≠ m ∧ confirmed_owner o d m'.
Proof.
  intros Hwf (Hm & Ho & Ht & Hs). unfold Membership_count_confirmed_by_org_and_type, count.
  set (p := λ m : Membership.t, _). intros Hc.
  assert (Hnd : NoDup (where_ p (rows (users_organizations d)))).
  { apply NoDup_ListNoDup, List.NoDup_filter, NoDup_ListNoDup, (NoDup_rows _ Membership.uuid), Hwf. }
  assert (Hin : m ∈ where_ p (rows (users_organizations d))).
  { apply elem_of_where. split; [done|]. unfold p. by rewrite !bool_decide_true. }
  assert (∃ m', m' ∈ where_ p (rows (users_organizations d)) ∧ m' ≠ m) as (m' & [Hm' Hp]%elem_of_where & Hne).
  { destruct (where_ p _) as [|a [|b l]]; simpl in *; [lia..|].
    destruct (decide (a = m)) as [->|]; [|exists a; split; [left|done]].
    exists b. split; [right; left|]. intros ->. by apply NoDup_cons in Hnd as [[]%not_elem_of_cons _]. }
  exists m'. split; [done|]. unfold p in Hp. bools. done.
Qed.

Lemma another_owner d o m :
  wf d → confirmed_owner o d m → 1 < Membership_count_confirmed_by_org_and_type o Owner d →
  ∃ m', m' ≠ m ∧ confirmed_owner o d m'.
Proof. intros Hwf. apply another_owner_keyed, Hwf. Qed.

(** The memberships of other users survive. *)
Definition others_kept (u : string) (d0 d : DB) : Prop :=
  users_organizations d ⊆ users_organizations d0
  ∧ kept users_organizations (λ r, Membership.user_uuid r == u) d0 d.

Lemma others_same u d0 d d' :
  users_organizations d' = users_organizations d → others_kept u d0 d → others_kept u d0 d'.
Proof. intros H [??]. unfold others_kept, kept. by rewrite H. Qed.

Lemma memberships_keep_others d0 u :
  wf d0 → keeps (preserves (others_kept u d0)) (Membership_delete_all_by_user u).
Proof.
  intros Hwf d Hd. unfold Membership_delete_all_by_user. rewrite run_gets.
  assert (Hl : ∀ m, m ∈ Membership_find_any_state_by_user u d → m ∈ rows (users_organizations d0) ∧ Membership.user_uuid m = u).
  { intros m [Hm Hu]%elem_of_where. bools. split; [|done]. eapply rows_subseteq; [apply Hd|done]. }
  apply (keeps_for_each_elem (preserves (others_kept u d0))); [|done].
  intros m [Hm Hu]%Hl. unfold Membership_delete, User_update_uuid_revision, CollectionUser_delete_all_by_user_and_org,
      GroupUser_delete_all_by_member, touch_member, User_update_uuid_revision.
    db_keeps; repeat intro; try (eapply others_same; [|eassumption]; reflexivity).
    match goal with H : others_kept _ _ _ |- _ => destruct H as [Hsub Hkept] end. split.
    - simpl. etrans; [apply delete_where_subseteq|done].
    - eapply (kept_delete_row d0 users_organizations Membership.uuid); [apply Hwf|exact Hm| |done|exact Hkept].
      by apply bool_decide_true.
Qed.

Lemma User_delete_keeps_others d u :
  wf d → others_kept (User.uuid u) d (User_delete u d).2.
Proof.
  intros Hwf. assert (keeps (preserves (others_kept (User.uuid u) d)) (User_delete u)) as K;
    [|apply K; split; [done|by intros k a]].
  pose proof (memberships_keep_others d (User.uuid u) Hwf) as Hm. unfold User_delete.
  unfold Send_delete_all_by_user, Send_delete, Send_update_users_revision, EmergencyAccess_delete_all_by_user,
    EmergencyAccess_delete_all_by_grantee_email, EmergencyAccess_delete, Cipher_delete_all_by_user, Cipher_delete,
    Cipher_update_users_revision, FolderCipher_delete_all_by_cipher, CollectionCipher_delete_all_by_cipher,
    Attachment_delete_all_by_cipher, Attachment_delete, Favorite_delete_all_by_cipher, Favorite_delete_all_by_user,
    Folder_delete_all_by_user, Folder_delete, FolderCipher_delete_all_by_folder, Device_delete_all_by_user,
    TwoFactor_delete_all_by_user, TwoFactorIncomplete_delete_all_by_user, Invitation_take, Invitation_delete,
    User_update_uuid_revision.
  db_keeps; try exact Hm; repeat intro; (eapply others_same; [|eassumption]; reflexivity).
Qed.
End owners.

(** ** Deletion of organizations and accounts *)

Section erasure.
Context `{E : Env}.

(** C35. Deleting an organization succeeds whenever the object store answers.
    Afterwards the organization and every cipher, collection, membership,
    policy, group and API key of it are gone. Everything else stays: every row
    of another organization, every personal cipher, every grant, link, group
    member, attachment, favorite and archive mark that is not of a cipher,
    collection, membership or group of the organization, every device, folder,
    second factor, send, invitation and emergency contact, and of the accounts
    all but the revision date. Sends and login requests have an organization
    column that the program never fills. The event log is kept apart from
    these tables: its rows are not deleted and keep the organization's id. *)
Theorem organization_delete_complete (d : DB) (o : Organization.t) :
  storage_works → wf d → map_Forall (λ k r, Attachment.id r = k) (attachments d) →
  no_rows sends (λ r, Send.organization_uuid r == Some (Organization.uuid o)) d →
  no_rows auth_requests (λ r, AuthRequest.organization_uuid r == Some (Organization.uuid o)) d →
  ∃ d', Organization_delete o d = (Ok (), d') ∧ org_gone (Organization.uuid o) d' ∧ outside (Organization.uuid o) d d'.
Proof.
  intros Hst Hwf Hatt Hs Ha. destruct (Organization_delete_deletes o Hst d (conj Hs Ha)) as ([] & d' & Hd & _ & Hg).
  pose proof (Organization_delete_outside (Organization.uuid o) d Hwf Hatt o eq_refl d (outside_refl _ d)) as Ho.
  rewrite Hd in Ho. by exists d'.
Qed.

(** deleting an account that is not the last owner of an organization and
    has no login request pending succeeds. Every row that refers to the
    account is gone, the account itself too, and no other account. *)
Theorem user_delete_complete (d : DB) (u : User.t) :
  storage_works → wf d → grants_have_members d → personal_ciphers (User.uuid u) d →
  is_last_owner (User.uuid u) d = false →
  no_rows auth_requests (λ r, AuthRequest.user_uuid r == User.uuid u) d →
  ∃ d', User_delete u d = (Ok (), d') ∧ account_erased (User.uuid u) d'
    ∧ dom (users d') = dom (users d) ∖ {[User.uuid u]}.
Proof.
  intros Hst Hwf Hg Hp Hl Hr. destruct (User_delete_erases d u Hst Hg Hp Hl) as (d1 & -> & Hs & [Hreq Hdom] & He).
  assert (Hk : map_Forall (λ k r, User.uuid r = k) (users d1)).
  { intros k r Hk. assert (Hf : (User.uuid <$> users d1) !! k = Some (User.uuid r)) by (by rewrite lookup_fmap, Hk).
    rewrite Hdom, lookup_fmap in Hf. destruct (users d !! k) as [r0|] eqn:Hk0; simplify_eq/=.
    rewrite <- Hf. by apply (wf_users d Hwf). }
  assert (Hdom' : dom (users d) = dom (users d1)) by (by rewrite <- (dom_fmap_L User.uuid (users d)), <- Hdom, dom_fmap_L).
  exists (remove_account (User.uuid u) d1). unfold delete_row. rewrite erased_referenced by done. rewrite Hreq, no_rows_nonempty by done.
  split_and!; [done|exact He|]. rewrite Hdom'. simpl. apply set_eq. intros k.
  rewrite elem_of_difference, not_elem_of_singleton, !elem_of_dom. unfold is_Some. setoid_rewrite lookup_delete_where.
  split; [intros (r & Hr1 & Hr2)|intros [[r Hr1] Hne]].
  - apply bool_decide_eq_false in Hr2. split; [eauto|]. by rewrite <- (Hk _ _ Hr1).
  - exists r. split; [done|]. apply bool_decide_false. by rewrite (Hk _ _ Hr1).
Qed.

(** the same deletion with a login request pending. Sends, memberships,
    ciphers, folders, devices and second factors of the account are erased,
    and only then the statement that deletes the account is refused: the
    caller gets an error, the account stays, its vault is gone. *)
Theorem user_delete_blocked_by_auth_request (d : DB) (u : User.t) (r : AuthRequest.t) :
  storage_works → grants_have_members d → personal_ciphers (User.uuid u) d →
  is_last_owner (User.uuid u) d = false →
  r ∈ rows (auth_requests d) → AuthRequest.user_uuid r = User.uuid u →
  ∃ e d', User_delete u d = (Err e, d') ∧ account_erased (User.uuid u) d'
    ∧ dom (users d') = dom (users d).
Proof.
  intros Hst Hg Hp Hl Hr Hu. destruct (User_delete_erases d u Hst Hg Hp Hl) as (d1 & -> & Hs & [Hreq Hdom] & He).
  unfold delete_row. rewrite erased_referenced by done. rewrite Hreq.
  assert (nonempty (where_ (λ r, AuthRequest.user_uuid r == User.uuid u) (rows (auth_requests d))) = true) as ->.
  { apply nonempty_true. exists r. apply elem_of_where. split; [done|]. by apply bool_decide_true. }
  eexists _, d1. split_and!; [done|done|].
  by rewrite <- (dom_fmap_L User.uuid (users d1)), Hdom, dom_fmap_L.
Qed.

(** Deleting an account never takes the last confirmed owner away from an
    organization, whatever the deletion answers and wherever it stops. *)
Theorem user_delete_keeps_owners (d : DB) (u : User.t) (o : string) (m : Membership.t) :
  wf d → confirmed_owner o d m → ∃ m', confirmed_owner o (User_delete u d).2 m'.
Proof.
  intros Hwf Hm. pose proof (User_delete_keeps_others d u Hwf) as [_ Hk].
  assert (Hother : ∀ m, confirmed_owner o d m → Membership.user_uuid m ≠ User.uuid u →
    ∃ m', confirmed_owner o (User_delete u d).2 m').
  { intros m' (Hin & Ho & Ht & Hs) Hne. exists m'. split; [|done]. apply elem_of_rows in Hin as [k Hin].
    apply elem_of_rows. exists k. apply Hk; [done|]. by apply bool_decide_false. }
  destruct (decide (Membership.user_uuid m = User.uuid u)) as [Hu|Hne]; [|by apply (Hother m)].
  destruct (is_last_owner (User.uuid u) d) eqn:Hl.
  { exists m. unfold User_delete. by rewrite run_gets, Hl. }
  destruct (another_owner d o m Hwf Hm) as (m' & Hne & Hm').
  { destruct Hm as (Hin & Ho & Ht & Hs). unfold is_last_owner in Hl.
    assert (Hf : (Membership.atype m == MembershipType_as_i32 Owner)
      && (Membership_count_confirmed_by_org_and_type (Membership.org_uuid m) Owner d <=? 1) = false).
    { apply not_true_iff_false. intros Ht'. apply not_true_iff_false in Hl. apply Hl, existsb_elem. exists m. split; [|done].
      apply elem_of_where. split; [done|]. by rewrite !bool_decide_true. }
    rewrite bool_decide_true, Ho in Hf by done. simpl in Hf. by apply Z.leb_gt in Hf. }
  apply (Hother m'); [done|]. intros Hu'. destruct Hm as (Hin & Ho & _), Hm' as (Hin' & Ho' & _).
  apply Hne. apply (wf_member_unique d Hwf); congruence.
Qed.
End erasure.

(** ** Witnesses *)

#[local] Existing Instance Sample.env.
Local Open Scope string_scope.

Lemma sample_storage_works : storage_works (E := Sample.env).
Proof. by split. Qed.

(** [p] holds of no row: by evaluation. *)
Definition no_rows_b {K A} `{Countable K} (t : DB → gmap K A) (p : A → bool) (d : DB) : bool :=
  forallb (λ a, negb (p a)) (rows (t d)).
Lemma no_rows_b_sound {K A} `{Countable K} (t : DB → gmap K A) p d : no_rows_b t p d = true → no_rows t p d.
Proof. intros Hb a Ha. apply forallb_elem with (a := a) in Hb; [|done]. by apply negb_true_iff. Qed.

Lemma sample_personal : personal_ciphers "bob" Sample.db.
Proof.
  intros c Hc Hu.
  assert (forallb (λ c, negb (Cipher.user_uuid c == Some "bob") || (Cipher.organization_uuid c == None))
    (rows (ciphers Sample.db)) = true) as Hb by (by vm_compute).
  apply forallb_elem with (a := c) in Hb; [|done]. rewrite bool_decide_true in Hb by done. simpl in Hb. by bools.
Qed.

Definition acme : Organization.t := Organization.mk "acme" "Acme" "a@x" None None.
Definition bob_user : User.t := Sample.user Sample.env "bob" "b@x".
Definition bob_request : AuthRequest.t :=
  AuthRequest.mk "req" "bob" None "phone" 0 "::1" None "code" "pk" None None None 0 None None.
Definition pending_db : DB := set_auth_requests (λ _, {[ "req" := bob_request ]}) Sample.db.

Lemma organization_delete_complete_witness :
  ∃ d', Organization_delete acme Sample.db = (Ok (), d') ∧ org_gone "acme" d' ∧ outside "acme" Sample.db d'.
Proof.
  apply (organization_delete_complete Sample.db acme); [apply sample_storage_works|apply Sample.db_wf|..];
    [by apply (keyed_b_true Attachment.id); vm_compute|by apply no_rows_b_sound; vm_compute..].
Defined.

Lemma user_delete_complete_witness :
  ∃ d', User_delete bob_user Sample.db = (Ok (), d') ∧ account_erased "bob" d'
    ∧ dom (users d') = dom (users Sample.db) ∖ {[ "bob" ]}.
Proof.
  apply (user_delete_complete Sample.db bob_user);
    [apply sample_storage_works|apply Sample.db_wf|apply Sample.db_grants|apply sample_personal|by vm_compute|].
  by apply no_rows_b_sound; vm_compute.
Defined.

Lemma user_delete_blocked_by_auth_request_witness :
  ∃ e d', User_delete bob_user pending_db = (Err e, d') ∧ account_erased "bob" d'
    ∧ dom (users d') = dom (users pending_db).
Proof.
  apply (user_delete_blocked_by_auth_request pending_db bob_user bob_request);
    [apply sample_storage_works|exact Sample.db_grants|exact sample_personal|by vm_compute| |done].
  apply elem_of_rows. by exists "req".
Defined.

Lemma user_delete_keeps_owners_witness :
  ∃ m', confirmed_owner "acme" (User_delete (Sample.user Sample.env "alice" "a@x") Sample.db).2 m'.
Proof.
  apply (user_delete_keeps_owners Sample.db _ "acme" Sample.alice); [apply Sample.db_wf|].
  split; [|done]. apply elem_of_rows. by exists "m-alice".
Defined.
