(* ===== verification/Emergency.v ===== *)
(** Emergency access: the handlers and the background jobs.

    Models src/src/api/core/emergency_access.rs: the contract between a grantor
    and a grantee goes through invitation, acceptance, confirmation, request,
    and approval by the grantor or by the passing of the waiting time; an
    approved grantee reads or takes over the account of the grantor. Handlers
    get the authenticated account ([headers.user]) and the values that the
    request draws at random. The JSON rendering of the answers is not modelled:
    a handler returns the rows it renders. *)
From S2P Require Import Prelude Schema Roles Users Invariants Samples TwoFactors OneTimeCodes Sends EmergencyRows Memberships Groups Collections VaultItems Ciphers Policies Organizations.
From stdpp Require Import pretty.
Local Open Scope Z_scope.

(** [util::NumberOrString]. *)
Inductive NumberOrString := Number (n : Z) | Str (s : string).
Definition NumberOrString_into_string (x : NumberOrString) : string :=
  match x with Number n => pretty n | Str s => s end.

(** [auth::EmergencyAccessInviteJwtClaims], the fields that the handlers read. *)
Module EmergencyAccessInviteJwtClaims.
Record t := mk { email : string; emer_id : string; grantor_name : string; grantor_email : string }.
End EmergencyAccessInviteJwtClaims.
Module Claims := EmergencyAccessInviteJwtClaims.

(** [decode_emergency_access_invite]: the jsonwebtoken crate checks the
    signature, the issuer and the dates of a token. *)
Class InviteTokens := { decode_emergency_access_invite : string → Res Claims.t }.

(** The range of chrono's [NaiveDateTime]; addition panics outside of it. *)
Class Chrono := { naive_min : Z; naive_max : Z }.

(** A day in microseconds. *)
Definition DAY : Z := 86400 * 1000000.

(** [i32] arithmetic of a release build. *)
Definition wrap_i32 (n : Z) : Z := (n + 2 ^ 31) mod 2 ^ 32 - 2 ^ 31.

(** The bodies of the requests. *)
Module EmergencyAccessUpdateData.
Record t := mk { type : NumberOrString; wait_time_days : Z; key_encrypted : option string }.
End EmergencyAccessUpdateData.
Module EmergencyAccessInviteData.
Record t := mk { email : string; type : NumberOrString; wait_time_days : Z }.
End EmergencyAccessInviteData.
Module EmergencyAccessPasswordData.
Record t := mk { new_master_password_hash : string; key : string }.
End EmergencyAccessPasswordData.

(** What [takeover] answers. *)
Module TakeoverAnswer.
Record t := mk { kdf : Z; kdfIterations : Z; kdfMemory : option Z; kdfParallelism : option Z; keyEncrypted : option string }.
End TakeoverAnswer.

Section handlers.
Context `{E : Env}.

Notation EA := EmergencyAccess.t.
Notation status_of s := (EmergencyAccessStatus_as_i32 s).

(** [o.expect(msg)]. *)
Definition expect {A} (o : option A) (msg : string) : M DB A :=
  match o with Some a => mret a | None => panic msg end.

Definition unwrap {A} (o : option A) : M DB A := expect o "called `Option::unwrap()` on a `None` value".

Definition check_emergency_access_enabled : M DB () :=
  if negb emergency_access_allowed then err "Emergency access is not enabled." else mret ().

Definition is_valid_request (ea : EA) (requesting_user_id : string) (requested_access_type : EmergencyAccessType) : bool :=
  (EmergencyAccess.grantee_uuid ea == Some requesting_user_id)
  && (EmergencyAccess.status ea == status_of ERecoveryApproved)
  && (EmergencyAccess.atype ea == EmergencyAccessType_as_i32 requested_access_type).

(** *** Listing *)

(** The accounts whose details [to_json_grantee_details] renders. *)
Definition EmergencyAccess_to_json_grantee_details (ea : EA) : M DB (option User.t) :=
  match EmergencyAccess.grantee_uuid ea with
  | Some grantee_uuid =>
      o ← gets (User_find_by_uuid grantee_uuid);
      u ← expect o "Grantee user not found.";
      mret (Some u)
  | None =>
      match EmergencyAccess.email ea with
      | None => mret None
      | Some email =>
          o ← gets (User_find_by_mail email);
          match o with
          | Some u => mret (Some u)
          | None => ignore (EmergencyAccess_delete_all_by_grantee_email email) ;; mret None
          end
      end
  end.

Definition EmergencyAccess_to_json_grantor_details (ea : EA) : M DB User.t :=
  o ← gets (User_find_by_uuid (EmergencyAccess.grantor_uuid ea));
  expect o "Grantor user not found.".

Fixpoint collect_grantees (l : list EA) : M DB (list (EA * User.t)) :=
  match l with
  | [] => mret []
  | ea :: l =>
      o ← EmergencyAccess_to_json_grantee_details ea;
      rest ← collect_grantees l;
      mret (match o with Some u => (ea, u) :: rest | None => rest end)
  end.

Definition get_contacts (user : User.t) : M DB (list (EA * User.t)) :=
  l ← (if emergency_access_allowed then gets (EmergencyAccess_find_all_by_grantor_uuid (User.uuid user)) else mret []);
  collect_grantees l.

Fixpoint collect_grantors (l : list EA) : M DB (list (EA * User.t)) :=
  match l with
  | [] => mret []
  | ea :: l =>
      u ← EmergencyAccess_to_json_grantor_details ea;
      rest ← collect_grantors l;
      mret ((ea, u) :: rest)
  end.

Definition get_grantees (user : User.t) : M DB (list (EA * User.t)) :=
  l ← (if emergency_access_allowed then gets (EmergencyAccess_find_all_by_grantee_uuid (User.uuid user)) else mret []);
  collect_grantors l.

Definition get_emergency_access (emer_id : string) (user : User.t) : M DB (EA * User.t) :=
  check_emergency_access_enabled ;;
  o ← gets (EmergencyAccess_find_by_uuid_and_grantor_uuid emer_id (User.uuid user));
  match o with
  | Some ea =>
      g ← EmergencyAccess_to_json_grantee_details ea;
      u ← expect g "Grantee user should exist but does not!";
      mret (ea, u)
  | None => err "Emergency access not valid."
  end.

(** *** Editing and deleting *)

Definition post_emergency_access (emer_id : string) (data : EmergencyAccessUpdateData.t) (user : User.t) : M DB EA :=
  check_emergency_access_enabled ;;
  o ← gets (EmergencyAccess_find_by_uuid_and_grantor_uuid emer_id (User.uuid user));
  ea ← some_or o "Emergency access not valid.";
  new_type ← some_or (EmergencyAccessType_from_str (NumberOrString_into_string (EmergencyAccessUpdateData.type data)))
    "Invalid emergency access type.";
  let ea := EmergencyAccess.set_atype (λ _, EmergencyAccessType_as_i32 new_type) ea in
  let ea := EmergencyAccess.set_wait_time_days (λ _, EmergencyAccessUpdateData.wait_time_days data) ea in
  let ea := match EmergencyAccessUpdateData.key_encrypted data with
            | Some k => EmergencyAccess.set_key_encrypted (λ _, Some k) ea
            | None => ea
            end in
  EmergencyAccess_save ea.

Definition put_emergency_access := post_emergency_access.

Definition delete_emergency_access (emer_id : string) (user : User.t) : M DB () :=
  check_emergency_access_enabled ;;
  as_grantor ← gets (EmergencyAccess_find_by_uuid_and_grantor_uuid emer_id (User.uuid user));
  as_grantee ← gets (EmergencyAccess_find_by_uuid_and_grantee_uuid emer_id (User.uuid user));
  ea ← match as_grantor, as_grantee with
       | Some grantor_emer, None => mret grantor_emer
       | None, Some grantee_emer => mret grantee_emer
       | _, _ => err "Emergency access not valid."
       end;
  EmergencyAccess_delete ea.

Definition post_delete_emergency_access := delete_emergency_access.

(** *** Invitation *)

(** [new_id] and [seed] are drawn for the contract and for an account that
    does not exist yet ([User::new] on the address). *)
Definition send_invite (new_id : string) (seed : Seed)
    (data : EmergencyAccessInviteData.t) (user : User.t) : M DB () :=
  check_emergency_access_enabled ;;
  let email := to_lowercase (EmergencyAccessInviteData.email data) in
  new_type ← some_or (EmergencyAccessType_from_str (NumberOrString_into_string (EmergencyAccessInviteData.type data)))
    "Invalid emergency access type.";
  if email == User.email user then err "You can not set yourself as an emergency contact." else
  found ← gets (User_find_by_mail email);
  '(grantee_user, is_new) ← match found with
    | None =>
        if negb invitations_allowed then err ("Grantee user does not exist: " +:+ email) else
        if negb (is_email_domain_allowed email) then err "Email domain not eligible for invitations" else
        when (negb mail_enabled) (Invitation_save (Invitation_new email)) ;;
        u ← User_save (User_new seed email None);
        mret (u, true)
    | Some u => mret (u, User.password_hash u == [])
    end;
  already ← gets (EmergencyAccess_find_by_grantor_uuid_and_grantee_uuid_or_email (User.uuid user)
                    (User.uuid grantee_user) (User.email grantee_user));
  if bool_decide (is_Some already) then err ("Grantee user already invited: " +:+ User.email grantee_user) else
  ea ← EmergencyAccess_save (EmergencyAccess_new new_id (User.uuid user) (User.email grantee_user)
         (status_of EInvited) (EmergencyAccessType_as_i32 new_type) (EmergencyAccessInviteData.wait_time_days data));
  if mail_enabled then
    to ← expect (EmergencyAccess.email ea) "Grantee email does not exists";
    lift (send_mail "emergency_access_invite" to)
  else when (negb is_new) (EmergencyAccess_accept_invite (User.uuid grantee_user) email ea ;; mret ()).

Definition resend_invite (emer_id : string) (user : User.t) : M DB () :=
  check_emergency_access_enabled ;;
  o ← gets (EmergencyAccess_find_by_uuid_and_grantor_uuid emer_id (User.uuid user));
  ea ← some_or o "Emergency access not valid.";
  if negb (EmergencyAccess.status ea == status_of EInvited)
  then err "The grantee user is already accepted or confirmed to the organization" else
  email ← some_or (EmergencyAccess.email ea) "Email not valid.";
  g ← gets (User_find_by_mail email);
  grantee_user ← some_or g "Grantee user not found.";
  if mail_enabled then lift (send_mail "emergency_access_invite" email)
  else if negb (User.password_hash grantee_user == []) then
    EmergencyAccess_accept_invite (User.uuid grantee_user) email ea ;; mret ()
  else
    pending ← gets (Invitation_find_by_mail email);
    when (invitations_allowed && bool_decide (pending = None)) (Invitation_save (Invitation_new email)).

Definition accept_invite `{InviteTokens} (emer_id token : string) (user : User.t) : M DB () :=
  check_emergency_access_enabled ;;
  claims ← lift (decode_emergency_access_invite token);
  if negb (Claims.email claims == User.email user) then err "Claim email does not match current users email" else
  g ← gets (User_find_by_mail (Claims.email claims));
  grantee_user ← match g with
                 | Some u => Invitation_take (Claims.email claims) ;; mret u
                 | None => err "Invited user not found"
                 end;
  o ← gets (EmergencyAccess_find_by_uuid_and_grantee_email emer_id (User.email user));
  ea ← some_or o "Emergency access not valid.";
  go ← gets (User_find_by_uuid (EmergencyAccess.grantor_uuid ea));
  grantor_user ← some_or go "Grantor user not found.";
  if (emer_id == Claims.emer_id claims) && (User.name grantor_user == Claims.grantor_name claims)
     && (User.email grantor_user == Claims.grantor_email claims) then
    EmergencyAccess_accept_invite (User.uuid grantee_user) (User.email grantee_user) ea ;;
    when mail_enabled (lift (send_mail "emergency_access_invite_accepted" (User.email grantor_user)))
  else err "Emergency access invitation error.".

Definition confirm_emergency_access (emer_id key : string) (user : User.t) : M DB EA :=
  check_emergency_access_enabled ;;
  o ← gets (EmergencyAccess_find_by_uuid_and_grantor_uuid emer_id (User.uuid user));
  ea ← some_or o "Emergency access not valid.";
  if negb (EmergencyAccess.status ea == status_of EAccepted)
     || negb (EmergencyAccess.grantor_uuid ea == User.uuid user)
  then err "Emergency access not valid." else
  go ← gets (User_find_by_uuid (User.uuid user));
  grantor_user ← some_or go "Grantor user not found.";
  match EmergencyAccess.grantee_uuid ea with
  | Some grantee_uuid =>
      g ← gets (User_find_by_uuid grantee_uuid);
      grantee_user ← some_or g "Grantee user not found.";
      let ea := EmergencyAccess.set_status (λ _, status_of EConfirmed) ea in
      let ea := EmergencyAccess.set_key_encrypted (λ _, Some key) ea in
      let ea := EmergencyAccess.set_email (λ _, None) ea in
      ea ← EmergencyAccess_save ea;
      when mail_enabled (lift (send_mail "emergency_access_invite_confirmed" (User.email grantee_user))) ;;
      mret ea
  | None => err "Grantee user not found."
  end.

(** *** Request and decision *)

Definition initiate_emergency_access (emer_id : string) (user : User.t) : M DB EA :=
  check_emergency_access_enabled ;;
  o ← gets (EmergencyAccess_find_by_uuid_and_grantee_uuid emer_id (User.uuid user));
  ea ← some_or o "Emergency access not valid.";
  if negb (EmergencyAccess.status ea == status_of EConfirmed) then err "Emergency access not valid." else
  go ← gets (User_find_by_uuid (EmergencyAccess.grantor_uuid ea));
  grantor_user ← some_or go "Grantor user not found.";
  let ea := EmergencyAccess.set_status (λ _, status_of ERecoveryInitiated) ea in
  let ea := EmergencyAccess.set_updated_at (λ _, now) ea in
  let ea := EmergencyAccess.set_recovery_initiated_at (λ _, Some now) ea in
  let ea := EmergencyAccess.set_last_notification_at (λ _, Some now) ea in
  ea ← EmergencyAccess_save ea;
  when mail_enabled (lift (send_mail "emergency_access_recovery_initiated" (User.email grantor_user))) ;;
  mret ea.

Definition approve_emergency_access (emer_id : string) (user : User.t) : M DB EA :=
  check_emergency_access_enabled ;;
  o ← gets (EmergencyAccess_find_by_uuid_and_grantor_uuid emer_id (User.uuid user));
  ea ← some_or o "Emergency access not valid.";
  if negb (EmergencyAccess.status ea == status_of ERecoveryInitiated) then err "Emergency access not valid." else
  go ← gets (User_find_by_uuid (User.uuid user));
  grantor_user ← some_or go "Grantor user not found.";
  match EmergencyAccess.grantee_uuid ea with
  | Some grantee_uuid =>
      g ← gets (User_find_by_uuid grantee_uuid);
      grantee_user ← some_or g "Grantee user not found.";
      ea ← EmergencyAccess_save (EmergencyAccess.set_status (λ _, status_of ERecoveryApproved) ea);
      when mail_enabled (lift (send_mail "emergency_access_recovery_approved" (User.email grantee_user))) ;;
      mret ea
  | None => err "Grantee user not found."
  end.

Definition reject_emergency_access (emer_id : string) (user : User.t) : M DB EA :=
  check_emergency_access_enabled ;;
  o ← gets (EmergencyAccess_find_by_uuid_and_grantor_uuid emer_id (User.uuid user));
  ea ← some_or o "Emergency access not valid.";
  if negb (EmergencyAccess.status ea == status_of ERecoveryInitiated)
     && negb (EmergencyAccess.status ea == status_of ERecoveryApproved)
  then err "Emergency access not valid." else
  match EmergencyAccess.grantee_uuid ea with
  | Some grantee_uuid =>
      g ← gets (User_find_by_uuid grantee_uuid);
      grantee_user ← some_or g "Grantee user not found.";
      ea ← EmergencyAccess_save (EmergencyAccess.set_status (λ _, status_of EConfirmed) ea);
      when mail_enabled (lift (send_mail "emergency_access_recovery_rejected" (User.email grantee_user))) ;;
      mret ea
  | None => err "Grantee user not found."
  end.

(** *** Use of the access *)

Definition view_emergency_access (emer_id : string) (user : User.t) : M DB (list Cipher.t * option string) :=
  check_emergency_access_enabled ;;
  o ← gets (EmergencyAccess_find_by_uuid_and_grantee_uuid emer_id (User.uuid user));
  ea ← some_or o "Emergency access not valid.";
  if negb (is_valid_request ea (User.uuid user) View) then err "Emergency access not valid." else
  ciphers ← gets (Cipher_find_owned_by_user (EmergencyAccess.grantor_uuid ea));
  mret (ciphers, EmergencyAccess.key_encrypted ea).

Definition takeover_emergency_access (emer_id : string) (user : User.t) : M DB TakeoverAnswer.t :=
  check_emergency_access_enabled ;;
  o ← gets (EmergencyAccess_find_by_uuid_and_grantee_uuid emer_id (User.uuid user));
  ea ← some_or o "Emergency access not valid.";
  if negb (is_valid_request ea (User.uuid user) Takeover) then err "Emergency access not valid." else
  go ← gets (User_find_by_uuid (EmergencyAccess.grantor_uuid ea));
  grantor_user ← some_or go "Grantor user not found.";
  mret (TakeoverAnswer.mk (User.client_kdf_type grantor_user) (User.client_kdf_iter grantor_user)
          (User.client_kdf_memory grantor_user) (User.client_kdf_parallelism grantor_user)
          (EmergencyAccess.key_encrypted ea)).

(** [stamp] and [token_for] are drawn by [set_password]. *)
Definition password_emergency_access `{Crypto} (stamp : string) (token_for : string → string)
    (emer_id : string) (data : EmergencyAccessPasswordData.t) (user : User.t) : M DB () :=
  check_emergency_access_enabled ;;
  o ← gets (EmergencyAccess_find_by_uuid_and_grantee_uuid emer_id (User.uuid user));
  ea ← some_or o "Emergency access not valid.";
  if negb (is_valid_request ea (User.uuid user) Takeover) then err "Emergency access not valid." else
  go ← gets (User_find_by_uuid (EmergencyAccess.grantor_uuid ea));
  grantor_user ← some_or go "Grantor user not found.";
  grantor_user ← User_set_password stamp token_for (EmergencyAccessPasswordData.new_master_password_hash data)
    (Some (EmergencyAccessPasswordData.key data)) true None grantor_user;
  grantor_user ← User_save grantor_user;
  TwoFactor_delete_all_by_user (User.uuid grantor_user) ;;
  l ← gets (Membership_find_any_state_by_user (User.uuid grantor_user));
  for_each l (λ m, when (negb (Membership.atype m == MembershipType_as_i32 Owner)) (Membership_delete m)).

Definition policies_emergency_access (emer_id : string) (user : User.t) : M DB (list OrgPolicy.t) :=
  o ← gets (EmergencyAccess_find_by_uuid_and_grantee_uuid emer_id (User.uuid user));
  ea ← some_or o "Emergency access not valid.";
  if negb (is_valid_request ea (User.uuid user) Takeover) then err "Emergency access not valid." else
  go ← gets (User_find_by_uuid (EmergencyAccess.grantor_uuid ea));
  grantor_user ← some_or go "Grantor user not found.";
  gets (OrgPolicy_find_confirmed_by_user (User.uuid grantor_user)).

(** *** Jobs *)

(** [t + TimeDelta::try_days(days).unwrap()]; an [i32] number of days is always
    a [TimeDelta]. *)
Definition plus_days `{Chrono} (t days : Z) : M DB Z :=
  let r := t + days * DAY in
  if (naive_min <=? r) && (r <=? naive_max) then mret r
  else panic "`NaiveDateTime + TimeDelta` overflowed".

(** The two accounts that a job writes to. *)
Definition job_accounts (ea : EA) : M DB (User.t * User.t) :=
  go ← gets (User_find_by_uuid (EmergencyAccess.grantor_uuid ea));
  grantor_user ← expect go "Grantor user not found";
  grantee_uuid ← expect (EmergencyAccess.grantee_uuid ea) "Grantee user invalid";
  g ← gets (User_find_by_uuid grantee_uuid);
  grantee_user ← expect g "Grantee user not found";
  mret (grantor_user, grantee_user).

Definition job_mail (template address : string) : M DB () :=
  match send_mail template address with Ok _ => mret () | Err _ => panic "Error on sending email" end.

Definition timeout_one `{Chrono} (ea : EA) : M DB () :=
  initiated_at ← expect (EmergencyAccess.recovery_initiated_at ea) "called `Option::unwrap()` on a `None` value";
  recovery_allowed_at ← plus_days initiated_at (EmergencyAccess.wait_time_days ea);
  when (recovery_allowed_at <=? now) (
    EmergencyAccess_update_access_status_and_save (status_of ERecoveryApproved) now ea ;;
    when mail_enabled (
      '(grantor_user, grantee_user) ← job_accounts ea;
      job_mail "emergency_access_recovery_timed_out" (User.email grantor_user) ;;
      job_mail "emergency_access_recovery_approved" (User.email grantee_user))).

Definition emergency_request_timeout_job `{Chrono} : M DB () :=
  if negb emergency_access_allowed then mret () else
  l ← gets EmergencyAccess_find_all_recoveries_initiated;
  for_each l timeout_one.

Definition remind_one `{Chrono} (ea : EA) : M DB () :=
  initiated_at ← expect (EmergencyAccess.recovery_initiated_at ea) "called `Option::unwrap()` on a `None` value";
  final_recovery_reminder_at ← plus_days initiated_at (wrap_i32 (EmergencyAccess.wait_time_days ea - 1));
  next_recovery_reminder_at ← match EmergencyAccess.last_notification_at ea with
                              | Some last_notification_at => plus_days last_notification_at 1
                              | None => mret now
                              end;
  when ((final_recovery_reminder_at <=? now) && (next_recovery_reminder_at <=? now)) (
    EmergencyAccess_update_last_notification_date_and_save now ea ;;
    when mail_enabled (
      '(grantor_user, _) ← job_accounts ea;
      job_mail "emergency_access_recovery_reminder" (User.email grantor_user))).

Definition emergency_notification_reminder_job `{Chrono} : M DB () :=
  if negb emergency_access_allowed then mret () else
  l ← gets EmergencyAccess_find_all_recoveries_initiated;
  for_each l remind_one.

(** *** Contracts in the account handlers *)

(** The end of [_register] (src/src/api/core/accounts.rs): without mail, the
    new account accepts the invitations sent to its address. *)
Definition register_accept_invitations (user : User.t) : M DB () :=
  when (negb mail_enabled && emergency_access_allowed) (
    l ← gets (EmergencyAccess_find_all_invited_by_grantee_email (User.email user));
    for_each l (λ ea, ignore (EmergencyAccess_accept_invite (User.uuid user) (User.email user) ea))).

(** The part of [post_rotatekey] on contracts: each gets the key encrypted for
    the new account key. [existing] is read at the start of the request; the
    code writes each new key into that list as well, which the next save of
    the same contract overwrites. *)
Definition rotate_emergency_keys (keys : list (string * string)) (user : User.t) : M DB () :=
  existing ← gets (EmergencyAccess_find_all_confirmed_by_grantor_uuid (User.uuid user));
  for_each keys (λ '(id, key_encrypted),
    ea ← some_or (List.find (λ ea, EmergencyAccess.uuid ea == id) existing)
           "Emergency access doesn't exist or is not owned by the user";
    EmergencyAccess_save (EmergencyAccess.set_key_encrypted (λ _, Some key_encrypted) ea) ;; mret ()).
End handlers.
