(* ===== verification/OrgJson.v ===== *)
(** What clients are shown of organizations.

    Models the JSON renderings of src/src/db/models/organization.rs
    ([Organization::to_json] and the [to_json] family of [Membership]),
    collection.rs ([Collection::to_json], [to_json_details], the grants with the
    id of the member in place of the account), group.rs and org_policy.rs. A
    rendering that looks rows up is a query; an [unwrap] of a missing row is an
    error with status 500. *)
From S2P Require Import Prelude Schema Roles Users Json TwoFactors OneTimeCodes EmergencyRows Memberships Groups Collections Ciphers Policies Organizations Emergency.
Local Open Scope Z_scope.

(** The configuration that only the answers about organizations show. *)
Class OrgConfig := {
  org_events_enabled : bool;
  sso_master_password_policy : option string;
  (** [CONFIG.domain()]. *)
  domain : string;
}.

Notation yes := (JsBool true).
Notation no := (JsBool false).

(** [vec.iter().map(..)] inside [json!]. *)
Definition json_list {A} (f : A → Json) (l : list A) : Json := JsArray (f <$> l).
Definition json_string_opt (o : option string) : Json := json_opt JsString o.

(** [i16::MAX]. *)
Definition max_storage : Json := json_number 32767.

Section rendering.
Context `{E : Env} `{OC : OrgConfig} `{J : JsonText}.

(** ** Organizations *)

Definition Organization_has_keys (o : Organization.t) : bool :=
  bool_decide (is_Some (Organization.private_key o)) && bool_decide (is_Some (Organization.public_key o)).

Definition Organization_to_json (o : Organization.t) : Json :=
  json_object [("id", JsString (Organization.uuid o)); ("name", JsString (Organization.name o)); ("seats", JsNull);
    ("maxCollections", JsNull); ("maxStorageGb", max_storage); ("use2fa", yes); ("useCustomPermissions", yes);
    ("useDirectory", no); ("useEvents", JsBool org_events_enabled); ("useGroups", JsBool org_groups_enabled);
    ("useTotp", yes); ("usePolicies", yes); ("useScim", no); ("useSso", no); ("useKeyConnector", no);
    ("usePasswordManager", yes); ("useSecretsManager", no); ("selfHost", yes); ("useApi", yes);
    ("useDisableSMAdsForUsers", yes); ("useInviteLinks", no); ("useMyItems", no); ("useOrganizationDomains", no);
    ("usePam", no); ("usePhishingBlocker", no); ("hasPublicAndPrivateKeys", JsBool (Organization_has_keys o));
    ("useResetPassword", JsBool mail_enabled); ("allowAdminAccessToAllCollectionItems", yes);
    ("limitCollectionCreation", yes); ("limitCollectionDeletion", yes); ("limitItemDeletion", no);
    ("businessName", JsString (Organization.name o)); ("businessAddress1", JsNull); ("businessAddress2", JsNull);
    ("businessAddress3", JsNull); ("businessCountry", JsNull); ("businessTaxNumber", JsNull);
    ("maxAutoscaleSeats", JsNull); ("maxAutoscaleSmSeats", JsNull); ("maxAutoscaleSmServiceAccounts", JsNull);
    ("secretsManagerPlan", JsNull); ("smSeats", JsNull); ("smServiceAccounts", JsNull);
    ("billingEmail", JsString (Organization.billing_email o)); ("planType", json_number 6); ("usersGetPremium", yes);
    ("object", JsString "organization")]%string.

(** ** Members *)

(** The roles of a custom user: all three on collections, or none. *)
Definition permissions_json (access_all : bool) : Json :=
  json_object [("accessEventLogs", no); ("accessImportExport", no); ("accessReports", no);
    ("createNewCollections", JsBool access_all); ("editAnyCollection", JsBool access_all);
    ("deleteAnyCollection", JsBool access_all); ("manageGroups", no); ("managePolicies", no); ("manageSso", no);
    ("manageUsers", no); ("manageResetPassword", no); ("manageScim", no)]%string.

Definition Membership_to_json (m : Membership.t) : M DB Json :=
  oorg ← gets (Organization_find_by_uuid (Membership.org_uuid m));
  org ← unwrap oorg;
  let membership_type := Membership_type_manager_as_custom m in
  let permissions := permissions_json ((membership_type =? 4) && Membership.access_all m) in
  mret (json_object [("id", JsString (Membership.org_uuid m)); ("identifier", JsNull); ("name", JsString (Organization.name org));
    ("seats", json_number 20); ("maxCollections", JsNull); ("usersGetPremium", yes); ("use2fa", yes); ("useDirectory", no);
    ("useEvents", JsBool org_events_enabled); ("useGroups", JsBool org_groups_enabled); ("useTotp", yes); ("useScim", no);
    ("usePolicies", yes); ("useApi", yes); ("selfHost", yes); ("hasPublicAndPrivateKeys", JsBool (Organization_has_keys org));
    ("resetPasswordEnrolled", JsBool (bool_decide (is_Some (Membership.reset_password_key m))));
    ("useResetPassword", JsBool mail_enabled); ("ssoBound", no); ("useSso", no); ("useKeyConnector", no);
    ("useSecretsManager", no); ("usePasswordManager", yes); ("useCustomPermissions", yes);
    ("useActivateAutofillPolicy", no); ("useAdminSponsoredFamilies", no); ("useRiskInsights", no);
    ("useDisableSMAdsForUsers", yes); ("useInviteLinks", no); ("useMyItems", no); ("useOrganizationDomains", no);
    ("usePam", no); ("usePhishingBlocker", no); ("organizationUserId", JsString (Membership.uuid m));
    ("providerId", JsNull); ("providerName", JsNull); ("providerType", JsNull); ("familySponsorshipFriendlyName", JsNull);
    ("familySponsorshipAvailable", no); ("productTierType", json_number 3); ("keyConnectorEnabled", no);
    ("keyConnectorUrl", JsNull); ("familySponsorshipLastSyncDate", JsNull); ("familySponsorshipValidUntil", JsNull);
    ("familySponsorshipToDelete", JsNull); ("accessSecretsManager", no);
    ("limitCollectionCreation", JsBool (i32_lt_type (Membership.atype m) Manager || negb (Membership.access_all m)));
    ("limitCollectionDeletion", yes); ("limitItemDeletion", no); ("allowAdminAccessToAllCollectionItems", yes);
    ("userIsManagedByOrganization", no); ("userIsClaimedByOrganization", no); ("permissions", permissions);
    ("maxStorageGb", max_storage); ("userId", JsString (Membership.user_uuid m)); ("key", JsString (Membership.akey m));
    ("status", json_number (Membership.status m)); ("type", json_number membership_type); ("enabled", yes);
    ("object", JsString "profileOrganization")]%string).

(** A grant as it is listed: its flags under some id. *)
Definition access_json (id : string) (read_only hide_passwords manage : bool) : Json :=
  json_object [("id", JsString id); ("readOnly", JsBool read_only); ("hidePasswords", JsBool hide_passwords);
    ("manage", JsBool manage)]%string.

(** The collections of [to_json_user_details]: those that the member reaches
    only through a group are left out. *)
Definition member_collections (m : Membership.t) (d : DB) : list Json :=
  let cu := CollectionUser_find_by_organization_and_user_uuid (Membership.org_uuid m) (Membership.user_uuid m) d in
  let cg := CollectionGroup.collections_uuid <$> CollectionGroup_find_by_user (Membership.user_uuid m) d in
  omap (λ c,
    if Membership_has_full_access m
    then Some (access_json (Collection.uuid c) false false (i32_ge_type (Membership.atype m) Manager)) else
    match first (where_ (λ cu, CollectionUser.collection_uuid cu == Collection.uuid c) cu) with
    | Some cu => Some (access_json (Collection.uuid c) (CollectionUser.read_only cu) (CollectionUser.hide_passwords cu)
        (CollectionUser.manage cu || (i32_eq_type (Membership.atype m) Manager && negb (CollectionUser.read_only cu)
                                      && negb (CollectionUser.hide_passwords cu))))
    | None => if bool_decide (Collection.uuid c ∈ cg) then None else Some (access_json (Collection.uuid c) true true false)
    end)
    (Collection_find_by_organization_and_user_uuid (Membership.org_uuid m) (Membership.user_uuid m) d).

Definition Membership_to_json_user_details (include_collections include_groups : bool) (m : Membership.t) : M DB Json :=
  ouser ← gets (User_find_by_uuid (Membership.user_uuid m));
  user ← unwrap ouser;
  d ← gets id;
  let groups := if include_groups && org_groups_enabled
                then GroupUser.groups_uuid <$> GroupUser_find_by_member (Membership.uuid m) d else [] in
  let full_access_group :=
    org_groups_enabled && Group_is_in_full_access_group (Membership.user_uuid m) (Membership.org_uuid m) d in
  let collections := if include_collections && negb (full_access_group || Membership.access_all m)
                     then member_collections m d else [] in
  let membership_type := Membership_type_manager_as_custom m in
  mret (json_object [("id", JsString (Membership.uuid m)); ("userId", JsString (Membership.user_uuid m));
    ("name", if (MembershipStatus_as_i32 Accepted <=? Membership_get_unrevoked_status m)%Z then JsString (User.name user) else JsNull);
    ("email", JsString (User.email user)); ("externalId", json_string_opt (Membership.external_id m));
    ("avatarColor", json_string_opt (User.avatar_color user)); ("groups", json_list JsString groups);
    ("collections", JsArray collections); ("status", json_number (Membership_shown_status m));
    ("type", json_number membership_type); ("accessAll", JsBool (Membership.access_all m));
    ("twoFactorEnabled", JsBool (nonempty (TwoFactor_find_by_user (User.uuid user) d)));
    ("resetPasswordEnrolled", JsBool (bool_decide (is_Some (Membership.reset_password_key m))));
    ("hasMasterPassword", JsBool (nonempty (User.password_hash user)));
    ("permissions", if (membership_type =? 4)%Z && Membership.access_all m then permissions_json true else JsNull);
    ("ssoBound", no); ("managedByOrganization", no); ("claimedByOrganization", no); ("usesKeyConnector", no);
    ("accessSecretsManager", no); ("object", JsString "organizationUserUserDetails")]%string).

Definition Membership_to_json_user_access_restrictions (m : Membership.t) (cu : CollectionUser.t) : Json :=
  access_json (Membership.uuid m) (CollectionUser.read_only cu) (CollectionUser.hide_passwords cu) (CollectionUser.manage cu).

Definition Membership_to_json_details (m : Membership.t) (d : DB) : Json :=
  let coll_uuids :=
    if Membership.access_all m then [] else
    (λ cu, access_json (CollectionUser.collection_uuid cu) (CollectionUser.read_only cu) (CollectionUser.hide_passwords cu)
             (CollectionUser.manage cu)) <$>
    CollectionUser_find_by_organization_and_user_uuid (Membership.org_uuid m) (Membership.user_uuid m) d in
  json_object [("id", JsString (Membership.uuid m)); ("userId", JsString (Membership.user_uuid m));
    ("status", json_number (Membership_shown_status m)); ("type", json_number (Membership.atype m));
    ("accessAll", JsBool (Membership.access_all m)); ("collections", JsArray coll_uuids);
    ("object", JsString "organizationUserDetails")]%string.

Definition Membership_to_json_mini_details (m : Membership.t) : M DB Json :=
  ouser ← gets (User_find_by_uuid (Membership.user_uuid m));
  user ← unwrap ouser;
  mret (json_object [("id", JsString (Membership.uuid m)); ("userId", JsString (Membership.user_uuid m));
    ("type", json_number (Membership_type_manager_as_custom m)); ("status", json_number (Membership_shown_status m));
    ("name", JsString (User.name user)); ("email", JsString (User.email user));
    ("object", JsString "organizationUserUserMiniDetails")]%string).

(** ** Groups *)

Definition Group_to_json (g : Group.t) : Json :=
  json_object [("id", JsString (Group.uuid g)); ("organizationId", JsString (Group.organizations_uuid g));
    ("name", JsString (Group.name g)); ("externalId", json_string_opt (Group.external_id g));
    ("object", JsString "group")]%string.

Definition Group_to_json_details (g : Group.t) (d : DB) : Json :=
  json_object [("id", JsString (Group.uuid g)); ("organizationId", JsString (Group.organizations_uuid g));
    ("name", JsString (Group.name g)); ("accessAll", JsBool (Group.access_all g));
    ("externalId", json_string_opt (Group.external_id g));
    ("collections", json_list (λ cg, access_json (CollectionGroup.collections_uuid cg) (CollectionGroup.read_only cg)
                                       (CollectionGroup.hide_passwords cg) (CollectionGroup.manage cg))
                      (CollectionGroup_find_by_group (Group.uuid g) (Group.organizations_uuid g) d));
    ("object", JsString "groupDetails")]%string.

Definition CollectionGroup_to_json_details_for_group (cg : CollectionGroup.t) : Json :=
  access_json (CollectionGroup.groups_uuid cg) (CollectionGroup.read_only cg) (CollectionGroup.hide_passwords cg)
    (CollectionGroup_shown_manage cg).

(** ** Collections *)

Definition Collection_to_json (c : Collection.t) : Json :=
  json_object [("externalId", json_string_opt (Collection.external_id c)); ("id", JsString (Collection.uuid c));
    ("organizationId", JsString (Collection.org_uuid c)); ("name", JsString (Collection.name c)); ("type", json_number 0);
    ("defaultUserCollectionEmail", JsNull); ("object", JsString "collection")]%string.

(** The flags of [to_json_details] from the data cached for a sync. *)
Definition Collection_sync_flags (c : Collection.t) (sd : CipherSyncData.t) : bool * bool * bool :=
  match CipherSyncData.members sd !! Collection.org_uuid c with
  | Some m =>
      if Membership_has_full_access m then (false, false, i32_ge_type (Membership.atype m) Manager) else
      let is_manager := i32_eq_type (Membership.atype m) Manager in
      match CipherSyncData.user_collections sd !! Collection.uuid c with
      | Some cu => (CollectionUser.read_only cu, CollectionUser.hide_passwords cu,
          is_manager && (CollectionUser.manage cu || (negb (CollectionUser.read_only cu) && negb (CollectionUser.hide_passwords cu))))
      | None =>
          match CipherSyncData.user_collections_groups sd !! Collection.uuid c with
          | Some cg => (CollectionGroup.read_only cg, CollectionGroup.hide_passwords cg,
              is_manager && (CollectionGroup.manage cg || (negb (CollectionGroup.read_only cg) && negb (CollectionGroup.hide_passwords cg))))
          | None => (false, false, false)
          end
      end
  | None => (true, true, false)
  end.

Definition Collection_to_json_details (c : Collection.t) (user_uuid : string) (cipher_sync_data : option CipherSyncData.t) (d : DB)
    : Json :=
  let '(read_only, hide_passwords, manage) :=
    match cipher_sync_data with
    | Some sd => Collection_sync_flags c sd
    | None => Collection_details_flags c user_uuid d
    end in
  Json_set "manage" (JsBool manage) (Json_set "hidePasswords" (JsBool hide_passwords)
    (Json_set "readOnly" (JsBool read_only) (Json_set "object" (JsString "collectionDetails") (Collection_to_json c)))).

(** [CollectionMembership]: a grant with the id of the member. *)
Definition CollectionUser_find_by_organization_swap_user_uuid_with_member_uuid (org_uuid : string) (d : DB)
    : list CollectionUser.t :=
  (λ '(cu, _, m), CollectionUser.mk (Membership.uuid m) (CollectionUser.collection_uuid cu) (CollectionUser.read_only cu)
                    (CollectionUser.hide_passwords cu) (CollectionUser.manage cu)) <$>
  where_ (λ '(_, _, m), Membership.org_uuid m == org_uuid)
    (inner_join
      (where_ (λ '(_, c), Collection.org_uuid c == org_uuid)
        (inner_join (rows (users_collections d)) (rows (collections d)) (λ cu c, Collection.uuid c == CollectionUser.collection_uuid cu)))
      (rows (users_organizations d)) (λ '(cu, _) m, Membership.user_uuid m == CollectionUser.user_uuid cu)).
Definition CollectionUser_find_by_org_and_coll_swap_user_uuid_with_member_uuid (org_uuid collection_uuid : string) (d : DB)
    : list CollectionUser.t :=
  (λ '(cu, m), CollectionUser.mk (Membership.uuid m) (CollectionUser.collection_uuid cu) (CollectionUser.read_only cu)
                 (CollectionUser.hide_passwords cu) (CollectionUser.manage cu)) <$>
  where_ (λ '(_, m), Membership.org_uuid m == org_uuid)
    (inner_join (where_ (λ cu, CollectionUser.collection_uuid cu == collection_uuid) (rows (users_collections d)))
      (rows (users_organizations d)) (λ cu m, Membership.user_uuid m == CollectionUser.user_uuid cu)).

(** [to_json_details_for_member]; the field [user_uuid] holds the member. *)
Definition CollectionMembership_to_json_details_for_member (cm : CollectionUser.t) (membership_type : Z) : Json :=
  access_json (CollectionUser.user_uuid cm) (CollectionUser.read_only cm) (CollectionUser.hide_passwords cm)
    (i32_ge_type membership_type Admin || CollectionUser.manage cm
     || (i32_eq_type membership_type Manager && negb (CollectionUser.read_only cm) && negb (CollectionUser.hide_passwords cm))).

(** ** Policies *)

Definition OrgPolicy_to_json (p : OrgPolicy.t) : Json :=
  let policy := json_object [("id", JsString (OrgPolicy.uuid p)); ("organizationId", JsString (OrgPolicy.org_uuid p));
    ("type", json_number (OrgPolicy.atype p)); ("data", default JsNull (Json_value <$> json_from_str (OrgPolicy.data p)));
    ("enabled", JsBool (OrgPolicy.enabled p)); ("object", JsString "policy")]%string in
  if OrgPolicy.atype p =? 8 then Json_set "canToggleState" yes policy else policy.
End rendering.
