(* ===== verification/EventLog.v ===== *)
(** The event log.

    Models src/src/db/models/event.rs and src/src/api/core/events.rs: the rows,
    what clients report, what the server records, the listings and the clean-up
    job. The table of events refers to no other table by a foreign key, so the
    state is the database of the other components, which the log only reads,
    with the table of events. The readers of dates are parameters. *)
From S2P Require Import Prelude Schema Roles Users Json TwoFactors OneTimeCodes EmergencyRows Memberships Groups Collections Ciphers Guards Policies Organizations Emergency OrgJson Invariants Samples.
From stdpp Require Import pretty.
Local Open Scope Z_scope.

(** ** Rows *)

Module Event.
Record t := mk {
  uuid : string; event_type : Z; user_uuid : option string; org_uuid : option string; cipher_uuid : option string;
  collection_uuid : option string; group_uuid : option string; org_user_uuid : option string; act_user_uuid : option string;
  device_type : option Z; ip_address : option string; event_date : Z; policy_uuid : option string;
  provider_uuid : option string; provider_user_uuid : option string; provider_org_uuid : option string
}.
#[global] Instance t_eq_dec : EqDecision t.
Proof. solve_decision. Defined.
End Event.

Inductive EventType :=
| UserLoggedIn | UserChangedPassword | UserUpdated2fa | UserDisabled2fa | UserRecovered2fa | UserFailedLogIn | UserFailedLogIn2fa
| UserClientExportedVault | UserRequestedDeviceApproval
| CipherCreated | CipherUpdated | CipherDeleted | CipherAttachmentCreated | CipherAttachmentDeleted | CipherShared
| CipherUpdatedCollections | CipherClientViewed | CipherClientToggledPasswordVisible | CipherClientToggledHiddenFieldVisible
| CipherClientToggledCardCodeVisible | CipherClientCopiedPassword | CipherClientCopiedHiddenField | CipherClientCopiedCardCode
| CipherClientAutofilled | CipherSoftDeleted | CipherRestored | CipherClientToggledCardNumberVisible
| CollectionCreated | CollectionUpdated | CollectionDeleted
| GroupCreated | GroupUpdated | GroupDeleted
| OrganizationUserInvited | OrganizationUserConfirmed | OrganizationUserUpdated | OrganizationUserRemoved
| OrganizationUserUpdatedGroups | OrganizationUserUnlinkedSso | OrganizationUserResetPasswordEnroll
| OrganizationUserResetPasswordWithdraw | OrganizationUserAdminResetPassword | OrganizationUserRevoked | OrganizationUserRestored
| OrganizationUserApprovedAuthRequest | OrganizationUserRejectedAuthRequest | OrganizationUserDeleted | OrganizationUserLeft
| OrganizationUpdated | OrganizationPurgedVault | OrganizationClientExportedVault
| PolicyUpdated.

Definition EventType_as_i32 (t : EventType) : Z :=
  match t with
  | UserLoggedIn => 1000 | UserChangedPassword => 1001 | UserUpdated2fa => 1002 | UserDisabled2fa => 1003 | UserRecovered2fa => 1004
  | UserFailedLogIn => 1005 | UserFailedLogIn2fa => 1006 | UserClientExportedVault => 1007 | UserRequestedDeviceApproval => 1010
  | CipherCreated => 1100 | CipherUpdated => 1101 | CipherDeleted => 1102 | CipherAttachmentCreated => 1103
  | CipherAttachmentDeleted => 1104 | CipherShared => 1105 | CipherUpdatedCollections => 1106 | CipherClientViewed => 1107
  | CipherClientToggledPasswordVisible => 1108 | CipherClientToggledHiddenFieldVisible => 1109
  | CipherClientToggledCardCodeVisible => 1110 | CipherClientCopiedPassword => 1111 | CipherClientCopiedHiddenField => 1112
  | CipherClientCopiedCardCode => 1113 | CipherClientAutofilled => 1114 | CipherSoftDeleted => 1115 | CipherRestored => 1116
  | CipherClientToggledCardNumberVisible => 1117
  | CollectionCreated => 1300 | CollectionUpdated => 1301 | CollectionDeleted => 1302
  | GroupCreated => 1400 | GroupUpdated => 1401 | GroupDeleted => 1402
  | OrganizationUserInvited => 1500 | OrganizationUserConfirmed => 1501 | OrganizationUserUpdated => 1502
  | OrganizationUserRemoved => 1503 | OrganizationUserUpdatedGroups => 1504 | OrganizationUserUnlinkedSso => 1505
  | OrganizationUserResetPasswordEnroll => 1506 | OrganizationUserResetPasswordWithdraw => 1507
  | OrganizationUserAdminResetPassword => 1508 | OrganizationUserRevoked => 1511 | OrganizationUserRestored => 1512
  | OrganizationUserApprovedAuthRequest => 1513 | OrganizationUserRejectedAuthRequest => 1514
  | OrganizationUserDeleted => 1515 | OrganizationUserLeft => 1516
  | OrganizationUpdated => 1600 | OrganizationPurgedVault => 1601 | OrganizationClientExportedVault => 1602
  | PolicyUpdated => 1700
  end.

(** The database with its log. *)
Record EventDB := { vault : DB; event : gmap string Event.t }.
Definition set_event (f : gmap string Event.t → gmap string Event.t) (s : EventDB) : EventDB :=
  {| vault := vault s; event := f (event s) |}.

(** [CONFIG.events_days_retain()] and [DateTime::parse_from_rfc3339]. *)
Class EventConfig := { events_days_retain : option Z; parse_rfc3339 : string → option Z }.

(** ** [impl Event] *)
Section rows.
Context `{E : Env} `{J : JsonText} `{CH : Chrono} `{EC : EventConfig}.

Definition Event_new (uuid : string) (event_type : Z) (event_date : option Z) : Event.t :=
  Event.mk uuid event_type None None None None None None None None None (default now event_date) None None None None.

Definition Event_to_json (e : Event.t) : Json :=
  json_object [("type", json_number (Event.event_type e)); ("userId", json_string_opt (Event.user_uuid e));
    ("organizationId", json_string_opt (Event.org_uuid e)); ("cipherId", json_string_opt (Event.cipher_uuid e));
    ("collectionId", json_string_opt (Event.collection_uuid e)); ("groupId", json_string_opt (Event.group_uuid e));
    ("organizationUserId", json_string_opt (Event.org_user_uuid e)); ("actingUserId", json_string_opt (Event.act_user_uuid e));
    ("date", JsString (format_date (Event.event_date e))); ("deviceType", json_opt json_number (Event.device_type e));
    ("ipAddress", json_string_opt (Event.ip_address e)); ("policyId", json_string_opt (Event.policy_uuid e));
    ("providerId", json_string_opt (Event.provider_uuid e)); ("providerUserId", json_string_opt (Event.provider_user_uuid e));
    ("providerOrganizationId", json_string_opt (Event.provider_org_uuid e))]%string.

Definition PAGE_SIZE : Z := 30.

Definition Event_save (e : Event.t) : M EventDB () := modify (set_event <[Event.uuid e := e]>).

(** INSERT OR IGNORE, one by one. *)
Definition Event_save_user_event (events : list Event.t) : M EventDB () :=
  for_each events (λ e, modify (set_event (λ t, if has t (Event.uuid e) then t else <[Event.uuid e := e]> t))).

Definition Event_delete (e : Event.t) : M EventDB () := modify (set_event (delete_where (λ r, Event.uuid r == Event.uuid e))).

(** ORDER BY event_date DESC LIMIT 30; rows of one instant come in the order of
    the table. *)
Definition newer (e e' : Event.t) : Prop := Event.event_date e' ≤ Event.event_date e.
#[export] Instance newer_dec : RelDecision newer := λ e e', Z_le_dec _ _.
Definition page (l : list Event.t) : list Event.t := take (Z.to_nat PAGE_SIZE) (merge_sort newer l).
Definition between (start stop : Z) (e : Event.t) : bool := (start <=? Event.event_date e) && (Event.event_date e <=? stop).

Definition Event_find_by_organization_uuid (org_uuid : string) (start stop : Z) (s : EventDB) : list Event.t :=
  page (where_ (λ e, (Event.org_uuid e == Some org_uuid) && between start stop e) (rows (event s))).

Definition Event_count_by_org (org_uuid : string) (s : EventDB) : Z :=
  count (where_ (λ e, Event.org_uuid e == Some org_uuid) (rows (event s))).

Definition Event_find_by_org_and_member (org_uuid member_uuid : string) (start stop : Z) (s : EventDB) : list Event.t :=
  page (fst <$> where_ (λ '(e, m),
      (Event.org_uuid e == Some org_uuid) && between start stop e
      && ((Event.org_user_uuid e == Some member_uuid) || (Event.user_uuid e == Some (Membership.user_uuid m))
          || (Event.act_user_uuid e == Some (Membership.user_uuid m))))
    (inner_join (rows (event s)) (rows (users_organizations (vault s)))
       (λ _ m, (Membership.uuid m == member_uuid) && (Membership.org_uuid m == org_uuid)))).

Definition Event_find_by_cipher_uuid (cipher_uuid : string) (start stop : Z) (s : EventDB) : list Event.t :=
  page (where_ (λ e, (Event.cipher_uuid e == Some cipher_uuid) && between start stop e) (rows (event s))).

(** [TimeDelta::try_days(n).unwrap()] panics when the milliseconds do not fit
    into 64 bits, the subtraction beyond the range of dates. *)
Definition Event_clean_events : M EventDB () :=
  match events_days_retain with
  | Some days_to_retain =>
      let dt := now - days_to_retain * DAY in
      if negb (Z.abs (days_to_retain * 86400000) <=? 2 ^ 63 - 1) || (dt <? naive_min) || (naive_max <? dt)
      then throw (MkError 500 "panic") else
      modify (set_event (delete_where (λ e, Event.event_date e <? dt)))
  | None => mret ()
  end.

(** ** Recording *)

Definition set_actor (e : Event.t) (user_uuid org_uuid org_user_uuid act_user_uuid : option string) (device_type : Z) (ip : string)
    : Event.t :=
  Event.mk (Event.uuid e) (Event.event_type e) user_uuid org_uuid (Event.cipher_uuid e) (Event.collection_uuid e) (Event.group_uuid e)
    org_user_uuid act_user_uuid (Some device_type) (Some ip) (Event.event_date e) (Event.policy_uuid e) (Event.provider_uuid e)
    (Event.provider_user_uuid e) (Event.provider_org_uuid e).

(** One row without an organization, and one for each membership; [new_id] draws
    their ids. *)
Definition log_user_event_impl (new_id : nat → string) (event_type : Z) (user_id : string) (device_type : Z) (event_date : option Z)
    (ip : string) : M EventDB () :=
  memberships ← gets (λ s, Membership_find_confirmed_by_user user_id (vault s));
  let own := set_actor (Event_new (new_id 0%nat) event_type event_date) (Some user_id) None None (Some user_id) device_type ip in
  let per_org := imap (λ n m, set_actor (Event_new (new_id (S n)) event_type event_date) (Some user_id) (Some (Membership.org_uuid m))
                                (Some (Membership.uuid m)) (Some user_id) device_type ip) memberships in
  Event_save_user_event (own :: per_org).

Definition in_range (lo hi n : Z) : bool := (lo <=? n) && (n <=? hi).

(** The column that names what the event is about, by its type. *)
Definition about (e : Event.t) (event_type : Z) (source_uuid : string) : Event.t :=
  let src := Some source_uuid in
  let cipher := if in_range 1100 1199 event_type then src else Event.cipher_uuid e in
  let collection := if in_range 1300 1399 event_type then src else Event.collection_uuid e in
  let group := if in_range 1400 1499 event_type then src else Event.group_uuid e in
  let member := if in_range 1500 1599 event_type then src else Event.org_user_uuid e in
  let policy := if in_range 1700 1799 event_type then src else Event.policy_uuid e in
  Event.mk (Event.uuid e) (Event.event_type e) (Event.user_uuid e) (Event.org_uuid e) cipher collection group member
    (Event.act_user_uuid e) (Event.device_type e) (Event.ip_address e) (Event.event_date e) policy (Event.provider_uuid e)
    (Event.provider_user_uuid e) (Event.provider_org_uuid e).

Definition log_event_impl (new_id : string) (event_type : Z) (source_uuid org_id act_user_id : string) (device_type : Z)
    (event_date : option Z) (ip : string) : M EventDB () :=
  let e := about (Event_new new_id event_type event_date) event_type source_uuid in
  Event_save (set_actor e (Event.user_uuid e) (Some org_id) (Event.org_user_uuid e) (Some act_user_id) device_type ip).
End rows.

Module EventRange.
Record t := mk { start : string; end_ : string; continuation_token : option string }.
End EventRange.
Module EventCollection.
Record t := mk { type : Z; date : string; cipher_id : option string; organization_id : option string }.
End EventCollection.

(** ** Handlers *)
Section handlers.
Context `{E : Env} `{J : JsonText} `{CH : Chrono} `{EC : EventConfig} `{OC : OrgConfig}.

Definition log_user_event (new_id : nat → string) (event_type : Z) (user_id : string) (device_type : Z) (ip : string) : M EventDB () :=
  when org_events_enabled (log_user_event_impl new_id event_type user_id device_type None ip).
Definition log_event (new_id : string) (event_type : Z) (source_uuid org_id act_user_id : string) (device_type : Z) (ip : string)
    : M EventDB () :=
  when org_events_enabled (log_event_impl new_id event_type source_uuid org_id act_user_id device_type None ip).

(** [parse_date]. *)
Definition parse_date (date : string) : M EventDB Z :=
  match parse_rfc3339 date with Some t => mret t | None => throw (MkError 500 "called `Result::unwrap()` on an `Err` value") end.

Definition get_continuation_token (events_json : list Json) : option string :=
  if Z.of_nat (length events_json) =? PAGE_SIZE then
    match last events_json with
    | Some last_event => match Json_get "date" last_event with JsString s => Some s | _ => None end
    | None => None
    end
  else None.

Definition events_answer (events_json : list Json) : Json :=
  json_object [("data", JsArray events_json); ("object", JsString "list");
    ("continuationToken", json_string_opt (get_continuation_token events_json))]%string.

(** The dates that a listing asks for. *)
Definition range_dates (data : EventRange.t) : M EventDB (Z * Z) :=
  start_date ← parse_date (EventRange.start data);
  end_date ← match EventRange.continuation_token data with
             | Some before_date => parse_date before_date
             | None => parse_date (EventRange.end_ data)
             end;
  mret (start_date, end_date).

Definition get_org_events (org_id : string) (data : EventRange.t) (headers : AdminHeaders.t) : M EventDB Json :=
  if negb (org_id == AdminHeaders.org_id headers) then err "Organization not found" else
  events_json ← (if org_events_enabled then
      '(start_date, end_date) ← range_dates data;
      l ← gets (Event_find_by_organization_uuid org_id start_date end_date);
      mret (Event_to_json <$> l)
    else mret []);
  mret (events_answer events_json).

Definition get_cipher_events (cipher_id : string) (data : EventRange.t) (headers : Headers.t) : M EventDB Json :=
  admin ← gets (λ s, org_events_enabled
                     && Membership_user_has_ge_admin_access_to_cipher (User.uuid (Headers.user headers)) cipher_id (vault s));
  events_json ← (if (admin : bool) then
      '(start_date, end_date) ← range_dates data;
      l ← gets (Event_find_by_cipher_uuid cipher_id start_date end_date);
      mret (Event_to_json <$> l)
    else mret []);
  mret (events_answer events_json).

Definition get_user_events (org_id member_id : string) (data : EventRange.t) (headers : AdminHeaders.t) : M EventDB Json :=
  if negb (org_id == AdminHeaders.org_id headers) then err "Organization not found" else
  events_json ← (if org_events_enabled then
      '(start_date, end_date) ← range_dates data;
      l ← gets (Event_find_by_org_and_member org_id member_id start_date end_date);
      mret (Event_to_json <$> l)
    else mret []);
  mret (events_answer events_json).

(** One reported event; [new_id] draws the ids of its rows. *)
Definition collect_event (new_id : nat → string) (headers : Headers.t) (ev : EventCollection.t) : M EventDB () :=
  let user_id := User.uuid (Headers.user headers) in
  let device_type := Device.atype (Headers.device headers) in
  let type := EventCollection.type ev in
  event_date ← parse_date (EventCollection.date ev);
  if in_range 1000 1099 type then log_user_event_impl new_id type user_id device_type (Some event_date) (Headers.ip headers) else
  if in_range 1600 1699 type then
    match EventCollection.organization_id ev with
    | Some org_id =>
        om ← gets (λ s, Membership_find_confirmed_by_user_and_org user_id org_id (vault s));
        when (bool_decide (is_Some om))
          (log_event_impl (new_id 0%nat) type org_id org_id user_id device_type (Some event_date) (Headers.ip headers))
    | None => mret ()
    end
  else
    match EventCollection.cipher_id ev with
    | Some cipher_uuid =>
        oc ← gets (λ s, Cipher_find_by_uuid cipher_uuid (vault s));
        match oc with
        | Some cipher =>
            accessible ← gets (λ s, Cipher_is_accessible_to_user cipher user_id (vault s));
            match Cipher.organization_uuid cipher with
            | Some org_id =>
                when accessible
                  (log_event_impl (new_id 0%nat) type cipher_uuid org_id user_id device_type (Some event_date) (Headers.ip headers))
            | None => mret ()
            end
        | None => mret ()
        end
    | None => mret ()
    end.

Definition post_events_collect (new_id : nat → nat → string) (data : list EventCollection.t) (headers : Headers.t) : M EventDB () :=
  if negb org_events_enabled then mret () else
  for_each (imap pair data) (λ '(n, ev), collect_event (new_id n) headers ev).

(** The job ignores the result of the statement. *)
Definition event_cleanup_job : M EventDB () :=
  if bool_decide (events_days_retain = None) then mret () else Event_clean_events.
End handlers.

(** ** Listings

    A page of a listing, and what is left for the next one. *)
Section paging.
#[export] Instance newer_trans : Transitive newer.
Proof. intros e e' e''. unfold newer. lia. Qed.
#[export] Instance newer_total : Total newer.
Proof. intros e e'. unfold newer. lia. Qed.

Lemma page_submseteq l : page l ⊆+ l.
Proof. rewrite <-(merge_sort_Permutation newer l) at 2. apply sublist_submseteq, sublist_take. Qed.

Lemma short_page l : Z.of_nat (length (page l)) ≠ PAGE_SIZE → page l ≡ₚ l.
Proof.
  unfold page, PAGE_SIZE. intros Hlen. rewrite take_ge; [apply merge_sort_Permutation|].
  rewrite length_take in Hlen. lia.
Qed.

Lemma full_page l :
  Z.of_nat (length (page l)) = PAGE_SIZE →
  ∃ e, last (page l) = Some e ∧ e ∈ l ∧ (∀ x, x ∈ page l → Event.event_date e ≤ Event.event_date x)
    ∧ ∀ x, x ∈ l → Event.event_date e < Event.event_date x → x ∈ page l.
Proof.
  intros Hlen. assert (Hs : StronglySorted newer (merge_sort newer l)) by (apply StronglySorted_merge_sort; apply _).
  destruct (last (page l)) as [e|] eqn:He; [|apply last_None in He; by rewrite He in Hlen].
  apply last_Some in He as [ps He]. exists e. split; [done|].
  assert (Hl : merge_sort newer l = ps ++ e :: drop (Z.to_nat PAGE_SIZE) (merge_sort newer l)).
  { rewrite <-(take_drop (Z.to_nat PAGE_SIZE) (merge_sort newer l)) at 1. fold (page l). by rewrite He, <-app_assoc. }
  rewrite Hl in Hs. apply StronglySorted_app in Hs as (Hbefore & _ & Hafter). apply StronglySorted_cons in Hafter as [Hafter _].
  split_and!.
  - apply (elem_of_submseteq (page l)); [|apply page_submseteq]. rewrite He. apply elem_of_app. right. left.
  - intros x Hx. rewrite He in Hx. apply elem_of_app in Hx as [Hx|Hx].
    + apply (Hbefore x e Hx). left.
    + by apply list_elem_of_singleton in Hx as ->.
  - intros x Hx Hlt. rewrite <-(merge_sort_Permutation newer l), Hl in Hx. rewrite He.
    apply elem_of_app in Hx as [Hx|[->|Hx]%elem_of_cons]; [by apply elem_of_app; left|lia|].
    rewrite Forall_forall in Hafter. specialize (Hafter x Hx). unfold newer in Hafter. lia.
Qed.
End paging.

(** Nothing on the following pages is newer than the end of a full page. *)
Lemma following_older l e x : last (page l) = Some e → x ∈ drop (Z.to_nat PAGE_SIZE) (merge_sort newer l) → newer e x.
Proof.
  intros [ps He]%last_Some Hx. assert (Hs : StronglySorted newer (merge_sort newer l)) by (apply StronglySorted_merge_sort; apply _).
  rewrite <-(take_drop (Z.to_nat PAGE_SIZE) (merge_sort newer l)) in Hs. fold (page l) in Hs.
  apply StronglySorted_app in Hs as (Hb & _ & _). apply Hb; [|done]. rewrite He. apply elem_of_app. right. left.
Qed.
Lemma length_where_page p l :
  (∀ x, x ∈ drop (Z.to_nat PAGE_SIZE) (merge_sort newer l) → p x = false) → length (where_ p l) = length (where_ p (page l)).
Proof.
  intros Hp. transitivity (length (where_ p (merge_sort newer l))).
  { apply Nat.le_antisymm; apply submseteq_length, where_submseteq; by rewrite merge_sort_Permutation. }
  rewrite <-(take_drop (Z.to_nat PAGE_SIZE) (merge_sort newer l)) at 1. fold (page l). unfold where_ at 1. rewrite List.filter_app.
  fold (where_ p (page l)) (where_ p (drop (Z.to_nat PAGE_SIZE) (merge_sort newer l))). by rewrite (where_none p (drop _ _)), app_nil_r.
Qed.

(** ** Reading the whole log *)
Section reading.
Context `{E : Env} `{J : JsonText} `{CH : Chrono} `{EC : EventConfig} `{OC : OrgConfig}.

(** What a client does: it asks again with the token of the answer, until there
    is none. *)
Fixpoint read_log (fuel : nat) (org_id : string) (data : EventRange.t) (headers : AdminHeaders.t) : M EventDB (list Json) :=
  answer ← get_org_events org_id data headers;
  let events := match Json_get "data" answer with JsArray l => l | _ => [] end in
  match fuel, Json_get "continuationToken" answer with
  | S fuel, JsString token =>
      rest ← read_log fuel org_id (EventRange.mk (EventRange.start data) (EventRange.end_ data) (Some token)) headers;
      mret (events ++ rest)
  | _, _ => mret events
  end.

(** The events that are asked for, and those of one instant. *)
Definition logged (org_id : string) (start stop : Z) (s : EventDB) : list Event.t :=
  where_ (λ e, (Event.org_uuid e == Some org_id) && between start stop e) (rows (event s)).
Definition logged_at (org_id : string) (t : Z) (s : EventDB) : list Event.t :=
  where_ (λ e, (Event.org_uuid e == Some org_id) && (Event.event_date e =? t)) (rows (event s)).

Lemma elem_of_logged org_id start stop s e :
  e ∈ logged org_id start stop s ↔
  e ∈ rows (event s) ∧ Event.org_uuid e = Some org_id ∧ start ≤ Event.event_date e ≤ stop.
Proof. unfold logged, between. by rewrite elem_of_where, !andb_true_iff, !Z.leb_le, bool_decide_eq_true. Qed.

Lemma get_org_events_run org_id data h s start stop :
  org_events_enabled = true → AdminHeaders.org_id h = org_id → range_dates data s = (Ok (start, stop), s) →
  get_org_events org_id data h s = (Ok (events_answer (Event_to_json <$> page (logged org_id start stop s))), s).
Proof.
  intros Hon Horg Hr. unfold get_org_events. rewrite bool_decide_true by done. cbn [negb]. rewrite Hon.
  erewrite run_bind_Ok; [reflexivity|]. by rewrite (run_bind_Ok _ _ _ _ _ Hr).
Qed.
Lemma page_token l :
  get_continuation_token (Event_to_json <$> page l) =
  if Z.of_nat (length (page l)) =? PAGE_SIZE then (λ e, format_date (Event.event_date e)) <$> last (page l) else None.
Proof. unfold get_continuation_token. rewrite length_fmap, fmap_last. by destruct (_ =? _), (last (page l)). Qed.

(** A full page moves the range on, when fewer events than a page fall into one
    instant. *)
Lemma full_page_progress org_id start stop s e :
  (∀ t, Z.of_nat (length (logged_at org_id t s)) < PAGE_SIZE) →
  Z.of_nat (length (page (logged org_id start stop s))) = PAGE_SIZE → last (page (logged org_id start stop s)) = Some e →
  Event.event_date e ≤ stop ∧ (length (logged org_id start (Event.event_date e) s) < length (logged org_id start stop s))%nat.
Proof.
  intros Hfew Hlen He. destruct (full_page _ Hlen) as (e' & He' & Hin & Hmin & Hnew). rewrite He in He'. injection He' as <-.
  pose proof Hin as (_ & _ & _ & Hstop)%elem_of_logged. split; [done|].
  destruct (decide (Exists (λ x, Event.event_date e < Event.event_date x) (page (logged org_id start stop s)))) as [Hex|Hno].
  - apply Exists_exists in Hex as (x & Hx & Hlt). pose proof (elem_of_submseteq _ _ _ Hx (page_submseteq _)) as [Hrow Hp]%elem_of_where.
    apply (length_where_lt _ _ _ x); [|done|done|].
    + intros y _. unfold between. rewrite !andb_true_iff, !Z.leb_le. intuition lia.
    + unfold between. apply andb_false_iff. right. apply andb_false_iff. right. lia.
  - exfalso. specialize (Hfew (Event.event_date e)). rewrite <-Hlen in Hfew. apply Nat2Z.inj_lt, Nat.lt_nge in Hfew. apply Hfew.
    rewrite <-(where_all (λ x, Event.event_date x =? Event.event_date e) (page (logged org_id start stop s))).
    + etrans; [apply submseteq_length, where_submseteq, page_submseteq|]. unfold logged, logged_at.
      rewrite where_where. apply length_where_le. intros x _. rewrite !andb_true_iff. naive_solver.
    + intros x Hx. apply Z.eqb_eq. apply Forall_Exists_neg in Hno. rewrite Forall_forall in Hno. specialize (Hno x Hx). specialize (Hmin x Hx). lia.
Qed.

Lemma read_log_spec fuel org_id data h s start stop :
  org_events_enabled = true → AdminHeaders.org_id h = org_id → range_dates data s = (Ok (start, stop), s) →
  parse_rfc3339 (EventRange.start data) = Some start →
  (∀ e, e ∈ rows (event s) → parse_rfc3339 (format_date (Event.event_date e)) = Some (Event.event_date e)) →
  (∀ t, Z.of_nat (length (logged_at org_id t s)) < PAGE_SIZE) → (length (logged org_id start stop s) <= fuel)%nat →
  ∃ js, read_log fuel org_id data h s = (Ok js, s) ∧ ∀ j, j ∈ js ↔ ∃ e, e ∈ logged org_id start stop s ∧ j = Event_to_json e.
Proof.
  intros Hon Horg Hr Hstart Hdates Hfew. revert data stop Hr Hstart. induction fuel as [|fuel IH]; intros data stop Hr Hstart Hfuel.
  - assert (Hnil : logged org_id start stop s = []) by (apply length_zero_iff_nil; lia).
    exists []. split.
    + cbn [read_log]. rewrite (run_bind_Ok _ _ _ _ _ (get_org_events_run _ _ _ _ _ _ Hon Horg Hr)), Hnil. reflexivity.
    + rewrite Hnil. intros j. split; [by intros ?%not_elem_of_nil|]. by intros (e & ?%not_elem_of_nil & _).
  - cbn [read_log]. rewrite (run_bind_Ok _ _ _ _ _ (get_org_events_run _ _ _ _ _ _ Hon Horg Hr)).
    set (P := page (logged org_id start stop s)).
    change (Json_get "data" (events_answer (Event_to_json <$> P))) with (JsArray (Event_to_json <$> P)).
    change (Json_get "continuationToken" (events_answer (Event_to_json <$> P))) with
      (json_string_opt (get_continuation_token (Event_to_json <$> P))).
    subst P. rewrite page_token. destruct (Z.of_nat _ =? PAGE_SIZE) eqn:Hlen.
    + apply Z.eqb_eq in Hlen. destruct (full_page _ Hlen) as (e & He & Hin & Hmin & Hnew). rewrite He.
      cbn [fmap option_fmap option_map json_string_opt json_opt].
      destruct (full_page_progress _ _ _ _ _ Hfew Hlen He) as [Hstop Hless].
      set (data' := EventRange.mk _ _ _). destruct (IH data' (Event.event_date e)) as (js & Hjs & Hspec).
      * unfold range_dates, parse_date, data'. cbn [EventRange.start EventRange.continuation_token]. rewrite Hstart, Hdates; [done|].
        by apply elem_of_where in Hin as [? _].
      * done.
      * lia.
      * rewrite (run_bind_Ok _ _ _ _ _ Hjs). eexists. split; [reflexivity|]. intros j. rewrite elem_of_app, Hspec. split.
        -- intros [(x & -> & Hx)%list_elem_of_fmap|(x & Hx & ->)]; exists x; split; try done.
           ++ by eapply elem_of_submseteq, page_submseteq.
           ++ apply elem_of_logged in Hx. apply elem_of_logged. intuition lia.
        -- intros (x & Hx & ->). destruct (decide (Event.event_date e < Event.event_date x)) as [Hlt|Hge].
           ++ left. by apply list_elem_of_fmap_2, Hnew.
           ++ right. exists x. split; [|done]. apply elem_of_logged in Hx. apply elem_of_logged. intuition lia.
    + apply Z.eqb_neq in Hlen. cbn [json_string_opt json_opt]. eexists. split; [reflexivity|]. intros j.
      rewrite list_elem_of_fmap. setoid_rewrite (short_page _ Hlen). naive_solver.
Qed.

(** The log is read completely. An administrator who asks for the events of
    a range of dates, and again with the token of each answer until there is
    none, gets every event of the organization in the range and nothing else,
    if fewer than thirty events fall into one instant and dates are read as they
    are printed. At most one request per event is needed. *)
Theorem log_is_read_completely (fuel : nat) (org_id : string) (data : EventRange.t) (h : AdminHeaders.t) (s : EventDB) (start stop : Z) :
  org_events_enabled = true → AdminHeaders.org_id h = org_id → EventRange.continuation_token data = None →
  parse_rfc3339 (EventRange.start data) = Some start → parse_rfc3339 (EventRange.end_ data) = Some stop →
  (∀ e, e ∈ rows (event s) → parse_rfc3339 (format_date (Event.event_date e)) = Some (Event.event_date e)) →
  (∀ t, Z.of_nat (length (logged_at org_id t s)) < PAGE_SIZE) → (length (logged org_id start stop s) <= fuel)%nat →
  ∃ js, read_log fuel org_id data h s = (Ok js, s)
    ∧ ∀ j, j ∈ js ↔ ∃ e, e ∈ rows (event s) ∧ Event.org_uuid e = Some org_id ∧ start ≤ Event.event_date e ≤ stop ∧ j = Event_to_json e.
Proof.
  intros Hon Horg Hct Hstart Hstop Hdates Hfew Hfuel.
  destruct (read_log_spec fuel org_id data h s start stop) as (js & Hjs & Hspec); try done.
  { unfold range_dates, parse_date. by rewrite Hct, Hstart, Hstop. }
  exists js. split; [done|]. intros j. rewrite Hspec. setoid_rewrite elem_of_logged. naive_solver.
Qed.

(** Thirty events of one instant stop the reader: the token of the answer is the
    one that was sent, and older events are never reached. *)
Theorem crowded_instant_stalls (org_id : string) (data : EventRange.t) (h : AdminHeaders.t) (s : EventDB) (start t : Z) (token : string) :
  org_events_enabled = true → AdminHeaders.org_id h = org_id → EventRange.continuation_token data = Some token →
  parse_rfc3339 (EventRange.start data) = Some start → parse_rfc3339 token = Some t → format_date t = token → start ≤ t →
  PAGE_SIZE ≤ Z.of_nat (length (logged_at org_id t s)) →
  ∃ j, get_org_events org_id data h s = (Ok j, s) ∧ Json_get "continuationToken" j = JsString token.
Proof.
  intros Hon Horg Hct Hstart Htoken Hfmt Hle Hmany. eexists. split.
  { apply (get_org_events_run _ _ _ _ start t); [done..|]. unfold range_dates, parse_date. by rewrite Hct, Hstart, Htoken. }
  set (P := page (logged org_id start t s)).
  change (json_string_opt (get_continuation_token (Event_to_json <$> P)) = JsString token). subst P. rewrite page_token.
  assert (Hall : (length (logged_at org_id t s) <= length (logged org_id start t s))%nat).
  { apply length_where_le. intros x _. unfold between. rewrite !andb_true_iff, !Z.leb_le, Z.eqb_eq. intuition lia. }
  assert (Hlen : Z.of_nat (length (page (logged org_id start t s))) = PAGE_SIZE).
  { unfold page, PAGE_SIZE in *. rewrite length_take, merge_sort_Permutation. lia. }
  rewrite (proj2 (Z.eqb_eq _ _) Hlen). destruct (full_page _ Hlen) as (e & He & Hin & Hmin & Hnew). rewrite He. simpl. f_equal.
  rewrite <-Hfmt. f_equal. apply elem_of_logged in Hin as (_ & _ & _ & Hup). destruct (decide (Event.event_date e < t)) as [Hlt|]; [|lia].
  exfalso. set (at_t := λ x, Event.event_date x =? t). set (l := logged org_id start t s) in *.
  assert (Hcount : length (logged_at org_id t s) = length (where_ at_t (page l))).
  { rewrite <-(length_where_page at_t l).
    - unfold at_t, logged_at, l, logged. rewrite where_where. f_equal. apply where_ext. intros x _. unfold between.
      destruct (Event.org_uuid x == _); [|done]. apply eq_true_iff_eq. cbn [andb]. rewrite !andb_true_iff, !Z.leb_le, !Z.eqb_eq. intuition lia.
    - intros x Hx. pose proof (following_older l e x He Hx) as Hold. unfold newer, at_t in *. lia. }
  assert (length (where_ at_t (page l)) < length (where_ (λ _, true) (page l)))%nat as Hless.
  { apply (length_where_lt _ _ _ e); [done| |done|unfold at_t; lia]. apply last_Some in He as [ps ->]. apply elem_of_app. right. left. }
  rewrite (where_all (λ _, true)) in Hless by done. lia.
Qed.
End reading.

(** ** What clients report *)
Section reporting.
Context `{E : Env} `{J : JsonText} `{CH : Chrono} `{EC : EventConfig} `{OC : OrgConfig}.

(** An event that the account of [h] may report. *)
Definition reported_by (h : Headers.t) (d : DB) (e : Event.t) : Prop :=
  let u := User.uuid (Headers.user h) in
  Event.act_user_uuid e = Some u ∧ Event.ip_address e = Some (Headers.ip h)
  ∧ Event.device_type e = Some (Device.atype (Headers.device h))
  ∧ match Event.org_uuid e with
    | None => Event.user_uuid e = Some u
    | Some o =>
        (∃ m, m ∈ rows (users_organizations d) ∧ Membership.user_uuid m = u ∧ Membership.org_uuid m = o
              ∧ Membership.status m = MembershipStatus_as_i32 Confirmed)
        ∨ ∃ c, Cipher_find_by_uuid (Cipher.uuid c) d = Some c ∧ Cipher.organization_uuid c = Some o
            ∧ Cipher_is_accessible_to_user c u d = true
    end.

Section invariant.
Context (h : Headers.t) (s0 : EventDB).
Definition Reported (s : EventDB) : Prop :=
  vault s = vault s0
  ∧ (∀ k e, event s !! k = Some e → event s0 !! k = Some e ∨ reported_by h (vault s0) e).
Notation keeps_log m := (keeps (preserves Reported) m).

Lemma log_insert k e s : Reported s → reported_by h (vault s0) e → Reported (set_event <[k := e]> s).
Proof.
  intros [Hv He] Hr. split; [done|]. intros k' e'. simpl. intros [[<- <-]|[Hne Hl]]%lookup_insert_Some; [by right|by apply He].
Qed.
Lemma log_save e : reported_by h (vault s0) e → keeps_log (Event_save e).
Proof. intros Hr s Hs. by apply log_insert. Qed.
Lemma log_user_rows l : (∀ e, e ∈ l → reported_by h (vault s0) e) → keeps_log (Event_save_user_event l).
Proof.
  unfold Event_save_user_event. induction l as [|e l IH]; intros Hl s Hs; [done|]. cbn [for_each]. rewrite run_modify.
  apply IH; [intros; apply Hl; by right|]. simpl. destruct (has (event s) (Event.uuid e)) eqn:Hh; unfold set_event; rewrite Hh.
  - by destruct s.
  - apply (log_insert (Event.uuid e) e s Hs). apply Hl. left.
Qed.
Lemma log_user_event_own new_id type date :
  keeps_log (log_user_event_impl new_id type (User.uuid (Headers.user h)) (Device.atype (Headers.device h)) date (Headers.ip h)).
Proof.
  intros s Hs. unfold log_user_event_impl. rewrite run_gets. apply log_user_rows; [|done]. destruct Hs as [Hv _]. rewrite Hv.
  intros e [->|(n & m & -> & Hm)%elem_of_lookup_imap_1]%elem_of_cons; [by split_and!|].
  apply list_elem_of_lookup_2, elem_of_where in Hm as [Hm Hu]. bools. split_and!; [done..|]. left. by exists m.
Qed.

Lemma log_event_own new_id type src o date :
  ((∃ m, m ∈ rows (users_organizations (vault s0)) ∧ Membership.user_uuid m = User.uuid (Headers.user h) ∧ Membership.org_uuid m = o
         ∧ Membership.status m = MembershipStatus_as_i32 Confirmed)
   ∨ ∃ c, Cipher_find_by_uuid (Cipher.uuid c) (vault s0) = Some c ∧ Cipher.organization_uuid c = Some o
       ∧ Cipher_is_accessible_to_user c (User.uuid (Headers.user h)) (vault s0) = true) →
  keeps_log (log_event_impl new_id type src o (User.uuid (Headers.user h)) (Device.atype (Headers.device h)) date (Headers.ip h)).
Proof. intros Ho. apply log_save. by split_and!. Qed.

Lemma collect_own new_id ev : keeps_log (collect_event new_id h ev).
Proof.
  unfold collect_event. apply keeps_bind; [apply _|unfold parse_date; by solve_keeps|]. intros date.
  destruct (in_range 1000 1099 _); [apply log_user_event_own|]. destruct (in_range 1600 1699 _).
  - destruct (EventCollection.organization_id ev) as [o|]; [|by solve_keeps]. apply preserves_gets. intros s [Hv _]. rewrite Hv.
    destruct (Membership_find_confirmed_by_user_and_org _ o (vault s0)) as [m|] eqn:Hm; [|apply keeps_ret, _].
    apply head_Some_elem, elem_of_where in Hm as [Hm Hp]. bools. apply keeps_when; [apply _|]. apply log_event_own. left. by exists m.
  - destruct (EventCollection.cipher_id ev) as [k|]; [|by solve_keeps]. apply preserves_gets. intros s [Hv _]. rewrite Hv.
    destruct (Cipher_find_by_uuid k (vault s0)) as [c|] eqn:Hc; [|by solve_keeps]. apply preserves_gets. intros s1 [Hv1 _]. rewrite Hv1.
    destruct (Cipher.organization_uuid c) as [o|] eqn:Ho; [|by solve_keeps].
    destruct (Cipher_is_accessible_to_user c _ (vault s0)) eqn:Hacc; [|apply keeps_ret, _].
    apply keeps_when; [apply _|]. apply log_event_own. right. exists c. split_and!; [|done..].
    pose proof Hc as Hu. apply head_Some_elem, elem_of_where in Hu as [_ Hu]. bools. by rewrite Hu.
Qed.
End invariant.

(** Accounts report events of their own only. Whatever a client reports, the
    log keeps its rows or gains rows that name the account, the device and the
    address of the request as the actor, and an organization only if the account
    is a confirmed member of it or may access one of its ciphers. *)
Theorem reported_events_are_own (new_id : nat → nat → string) (data : list EventCollection.t) (h : Headers.t) (s : EventDB) :
  let s' := (post_events_collect new_id data h s).2 in
  vault s' = vault s ∧ ∀ k e, event s' !! k = Some e → event s !! k = Some e ∨ reported_by h (vault s) e.
Proof.
  assert (Hk : keeps (preserves (Reported h s)) (post_events_collect new_id data h)).
  { unfold post_events_collect. destruct org_events_enabled; cbn [negb]; [|apply keeps_ret, _].
    apply keeps_for_each; [apply _|]. intros [n ev]. apply collect_own. }
  apply Hk. split; [done|]. by left.
Qed.
End reporting.

(** ** Clean-up and columns *)
Section upkeep.
Context `{E : Env} `{J : JsonText} `{CH : Chrono} `{EC : EventConfig} `{OC : OrgConfig}.

(** The job removes the events that are older than the configured days, and no
    others. *)
Theorem cleanup_removes_old_events (days : Z) (s : EventDB) :
  events_days_retain = Some days → Z.abs (days * 86400000) ≤ 2 ^ 63 - 1 → naive_min ≤ now - days * DAY ≤ naive_max →
  ∃ s', event_cleanup_job s = (Ok (), s') ∧ vault s' = vault s
    ∧ ∀ k e, event s' !! k = Some e ↔ event s !! k = Some e ∧ now - days * DAY ≤ Event.event_date e.
Proof.
  intros Hd Hms Hrange. unfold event_cleanup_job, Event_clean_events. rewrite Hd, bool_decide_false by done.
  rewrite (proj2 (Z.leb_le _ _) Hms), !(proj2 (Z.ltb_ge _ _)) by lia. cbn [negb orb]. eexists. split; [reflexivity|]. split; [done|].
  intros k e. simpl. rewrite lookup_delete_where, Z.ltb_ge. naive_solver.
Qed.

(** The server names what an event is about in the column of its kind; only
    events of the account itself and of the organization have no such column. *)
Lemma event_names_its_source (t : EventType) (e : Event.t) (src : string) :
  let n := EventType_as_i32 t in let r := about e n src in
  in_range 1000 1099 n || in_range 1600 1699 n = true
  ∨ Event.cipher_uuid r = Some src ∨ Event.collection_uuid r = Some src ∨ Event.group_uuid r = Some src
  ∨ Event.org_user_uuid r = Some src ∨ Event.policy_uuid r = Some src.
Proof. destruct t; cbn; auto 6. Qed.

(** Reading the events of one cipher asks for the role of a membership and not
    for its state: a revoked administrator still reads them. *)
Theorem revoked_administrator_reads_events (m : Membership.t) (c : Cipher.t) (data : EventRange.t) (h : Headers.t) (s : EventDB)
    (start stop : Z) :
  org_events_enabled = true → m ∈ rows (users_organizations (vault s)) → Membership.user_uuid m = User.uuid (Headers.user h) →
  Membership.atype m = MembershipType_as_i32 Admin → c ∈ rows (ciphers (vault s)) → Cipher.organization_uuid c = Some (Membership.org_uuid m) →
  range_dates data s = (Ok (start, stop), s) →
  get_cipher_events (Cipher.uuid c) data h s =
    (Ok (events_answer (Event_to_json <$> Event_find_by_cipher_uuid (Cipher.uuid c) start stop s)), s).
Proof.
  intros Hon Hm Hu Ht Hc Ho Hr. unfold get_cipher_events. rewrite run_gets, Hon.
  assert (Membership_user_has_ge_admin_access_to_cipher (User.uuid (Headers.user h)) (Cipher.uuid c) (vault s) = true) as ->.
  { unfold Membership_user_has_ge_admin_access_to_cipher. apply nonempty_true. exists (m, c). apply elem_of_where. split.
    - apply elem_of_inner_join. by rewrite !bool_decide_true.
    - by rewrite bool_decide_true, Ht. }
  cbn [andb]. erewrite run_bind_Ok; [reflexivity|]. by rewrite (run_bind_Ok _ _ _ _ _ Hr).
Qed.
End upkeep.

(** ** A log of two pages *)
Lemma length_where_unique {A} (f : A → Z) (p : A → bool) (t : Z) (l : list A) :
  NoDup (f <$> l) → (length (where_ (λ x, p x && (f x =? t)%Z) l) <= 1)%nat.
Proof.
  induction l as [|x l IH]; [simpl; lia|]. rewrite fmap_cons, NoDup_cons. intros [Hx Hl]. simpl. specialize (IH Hl).
  destruct (p x); simpl; [|done]. destruct (f x =? t) eqn:He; [|done]. apply Z.eqb_eq in He. rewrite where_none; [simpl; lia|].
  intros y Hy. apply andb_false_iff. right. apply Z.eqb_neq. intros Hfy. apply Hx. rewrite He, <-Hfy. by apply list_elem_of_fmap_2.
Qed.

Module SampleLog.
#[export] Existing Instance Sample.env.
#[export] Instance json : JsonText :=
  {| json_from_str _ := None; json_to_string _ := ""; format_rfc3339 _ := None; format_date t := SampleCodecs.bits (encode t) |}.
#[export] Instance config : EventConfig := {| events_days_retain := Some 30; parse_rfc3339 s := decode (SampleCodecs.unbits s) |}.
#[export] Instance org_config : OrgConfig := {| org_events_enabled := true; sso_master_password_policy := None; domain := "https://v" |}.

(** Forty events of acme, one per instant. *)
Definition logged_event (t : nat) : Event.t :=
  Event.mk (pretty t) 1107 None (Some "acme") (Some "k1") None None None (Some "bob") (Some 0) (Some "10.0.0.1") (Z.of_nat t) None None None None.
Definition log : EventDB := {| vault := Sample.db; event := list_to_map ((λ t, (pretty t, logged_event t)) <$> seq 0 40) |}.
Definition alice : AdminHeaders.t := AdminHeaders.mk Sample.phone (Sample.user Sample.env "alice" "a@x") Owner "10.0.0.2" "acme".
Definition range : EventRange.t := EventRange.mk (format_date 0) (format_date 39) None.
End SampleLog.
Import SampleLog.

Lemma log_is_read_completely_witness :
  ∃ js, read_log 40 "acme" range alice log = (Ok js, log) ∧ Event_to_json (logged_event 0) ∈ js ∧ Event_to_json (logged_event 39) ∈ js.
Proof.
  destruct (log_is_read_completely 40 "acme" range alice log 0 39) as (js & Hjs & Hspec).
  - reflexivity.
  - reflexivity.
  - reflexivity.
  - vm_compute. reflexivity.
  - vm_compute. reflexivity.
  - intros e _. simpl. by rewrite SampleCodecs.unbits_bits, decode_encode.
  - intros t. unfold PAGE_SIZE, logged_at.
    pose proof (length_where_unique Event.event_date (λ e, Event.org_uuid e == Some "acme"%string) t (rows (event log))) as Hone.
    assert (Hnd : NoDup (Event.event_date <$> rows (event log))) by (apply (bool_decide_unpack _); vm_compute; exact I).
    specialize (Hone Hnd). lia.
  - apply Nat.leb_le. vm_compute. reflexivity.
  - exists js. split; [exact Hjs|]. split; apply Hspec; eexists; (split; [|split; [|split; [|reflexivity]]]).
    + apply elem_of_rows. exists (pretty 0%nat). vm_compute. reflexivity.
    + reflexivity.
    + simpl. lia.
    + apply elem_of_rows. exists (pretty 39%nat). vm_compute. reflexivity.
    + reflexivity.
    + simpl. lia.
Defined.

(** Alice is revoked; her role stays, and she reads the events of k1. *)
Example revoked_alice_reads :
  let s := {| vault := set_users_organizations <["m-alice" := (Membership_revoke Sample.alice).2]> Sample.db; event := event log |} in
  let j := (get_cipher_events "k1" range (Headers.mk Sample.phone (Sample.user Sample.env "alice" "a@x") "10.0.0.2") s).1 in
  match j with Ok j => match Json_get "data" j with JsArray l => length l = 30%nat | _ => False end | Err _ => False end.
Proof. vm_compute. reflexivity. Qed.
