(* ===== verification/Members.v ===== *)
(** The members of an organization: the handlers that change them.

    Models the routes on organizations and members of
    src/src/api/core/organizations.rs (creation, leaving, invitation,
    confirmation, editing, removal, revocation, policies, account recovery),
    [accept_org_invite] of api/core/mod.rs, the enforcement of two-step login of
    api/core/two_factor/mod.rs, the directory import of api/core/public.rs and
    the role change of api/admin.rs. A handler gets what its guard returned and
    the values that the request draws at random. Entries of the event log,
    notifications to other devices and the JSON of the answers are left out. *)
From S2P Require Import Prelude Schema Roles Users Invariants Samples TwoFactors OneTimeCodes Sends EmergencyRows Memberships Groups Collections Guards VaultItems Ciphers Policies Organizations Emergency.
Local Open Scope Z_scope.

(** [serde_json::Value]; the handlers only compare one with [true]. *)
Inductive Value := JBool (b : bool) | JOther (text : string).
#[export] Instance Value_eq_dec : EqDecision Value.
Proof. solve_decision. Defined.

(** ** Bodies of the requests *)

Module CollectionData.
Record t := mk { id : string; read_only : bool; hide_passwords : bool; manage : bool }.
End CollectionData.
Module OrgData.
Record t := mk { billing_email : string; collection_name : string; key : string; name : string;
                 keys : option (string * string) }.
End OrgData.
Module InviteData.
Record t := mk { emails : list string; groups : list string; type : NumberOrString;
                 collections : option (list CollectionData.t); permissions : gmap string Value }.
End InviteData.
Module EditUserData.
Record t := mk { type : NumberOrString; collections : option (list CollectionData.t);
                 groups : option (list string); permissions : gmap string Value }.
End EditUserData.
Module AcceptData.
Record t := mk { token : string; reset_password_key : option string }.
End AcceptData.
Module ConfirmData.
Record t := mk { id : option string; key : option string }.
End ConfirmData.
(** [data] is the JSON text of the field. *)
Module PolicyData.
Record t := mk { enabled : bool; data : string }.
End PolicyData.
Module EnrollmentRequest.
Record t := mk { reset_password_key : option string; master_password_hash : option string; otp : option string }.
End EnrollmentRequest.
Module RecoverAccountRequest.
Record t := mk { new_master_password_hash : string; key : string; reset_master_password : bool; reset_two_factor : bool }.
End RecoverAccountRequest.
Module MembershipTypeData.
Record t := mk { user_type : NumberOrString; user_uuid : string; org_uuid : string }.
End MembershipTypeData.
Module OrgImportGroupData.
Record t := mk { name : string; external_id : string; member_external_ids : list string }.
End OrgImportGroupData.
Module OrgImportUserData.
Record t := mk { email : string; external_id : string; deleted : bool }.
End OrgImportUserData.
Module OrgImportData.
Record t := mk { groups : list OrgImportGroupData.t; members : list OrgImportUserData.t; overwrite_existing : bool }.
End OrgImportData.

(** [InviteJwtClaims] and [decode_invite] (the jsonwebtoken crate). *)
Module InviteJwtClaims.
Record t := mk { email : string; org_id : string; member_id : string; invited_by_email : option string }.
End InviteJwtClaims.
Class OrgInviteTokens := { decode_invite : string → Res InviteJwtClaims.t }.

Definition FAKE_ADMIN_UUID : string := "00000000-0000-0000-0000-000000000000".
Definition FAKE_SSO_IDENTIFIER : string := "00000000-01DC-01DC-01DC-000000000000".

(** The values drawn for the [n]-th new member of a request. *)
Record Draws := {
  new_member_id : nat → string;
  new_seed : nat → Seed;
  new_group_id : nat → string;
  new_factor_id : string → string;
}.

Section handlers.
Context `{E : Env} `{K : Codecs} `{P : PolicyJson} `{C : Crypto}.
Notation status_i32 := MembershipStatus_as_i32.
Notation type_i32 := MembershipType_as_i32.

(** [if org_id != headers.org_id]. *)
Definition check_org (org_id headers_org : string) : M DB () :=
  if negb (org_id == headers_org) then err "Organization not found" else mret ().

(** The [match] of the bulk handlers: the error goes into the answer; a panic
    ends the request. *)
Definition attempt (m : M DB ()) : M DB (option Error) := λ d,
  match m d with
  | (Ok _, d') => (Ok None, d')
  | (Err e, d') => if err_status e =? 500 then (Err e, d') else (Ok (Some e), d')
  end.
Fixpoint bulk {A} (l : list A) (f : A → M DB ()) : M DB (list (option Error)) :=
  match l with
  | [] => mret []
  | a :: l =>
      r ← attempt (f a);
      rest ← bulk l f;
      mret (r :: rest)
  end.

(** *** Organizations *)

Definition create_organization (org_uuid member_uuid collection_uuid : string)
    (data : OrgData.t) (headers : Headers.t) : M DB Organization.t :=
  let user := Headers.user headers in
  if negb (is_org_creation_allowed (User.email user)) then err "User not allowed to create organizations" else
  other ← gets (OrgPolicy_is_applicable_to_user (User.uuid user) SingleOrg None);
  if (other : bool) then err "You may not create an organization. You belong to an organization which has a policy that prohibits you from being a member of any other organization." else
  let '(private_key, public_key) :=
    match OrgData.keys data with Some (prk, pbk) => (Some prk, Some pbk) | None => (None, None) end in
  let org := Organization_new org_uuid (OrgData.name data) (OrgData.billing_email data) private_key public_key in
  let member := Membership_new member_uuid (User.uuid user) (Organization.uuid org) None in
  let collection := Collection_new collection_uuid (Organization.uuid org) (OrgData.collection_name data) None in
  let member := Membership.set_akey (λ _, OrgData.key data) member in
  let member := Membership.set_access_all (λ _, true) member in
  let member := Membership.set_atype (λ _, type_i32 Owner) member in
  let member := Membership.set_status (λ _, status_i32 Confirmed) member in
  Organization_save org ;;
  Membership_save member ;;
  Collection_save collection ;;
  mret org.

Definition delete_organization (org_id : string) (master_password_hash otp : option string)
    (headers : OwnerHeaders.t) : M DB () :=
  check_org org_id (OwnerHeaders.org_id headers) ;;
  PasswordOrOtpData_validate master_password_hash otp (OwnerHeaders.user headers) true ;;
  o ← gets (Organization_find_by_uuid org_id);
  match o with
  | None => err "Organization not found"
  | Some org => Organization_delete org
  end.

Definition leave_organization (org_id : string) (headers : OrgMemberHeaders.t) : M DB () :=
  let membership := OrgMemberHeaders.membership headers in
  if negb (Membership.status membership == status_i32 Confirmed)
  then err "You need to be a Member of the Organization to call this endpoint" else
  n ← gets (Membership_count_confirmed_by_org_and_type org_id Owner);
  if i32_eq_type (Membership.atype membership) Owner && (n <=? 1) then err "The last owner can't leave" else
  Membership_delete membership.

(** *** Invitations *)

(** [InviteData::validate]. *)
Definition InviteData_validate (data : InviteData.t) (org_id : string) : M DB () :=
  org_collections ← gets (Collection_find_by_organization org_id);
  if existsb (λ c, negb (bool_decide (CollectionData.id c ∈ Collection.uuid <$> org_collections)))
       (default [] (InviteData.collections data))
  then err "Invalid collection" else
  org_groups ← gets (Group_find_by_organization org_id);
  if existsb (λ g, negb (bool_decide (g ∈ Group.uuid <$> org_groups))) (InviteData.groups data)
  then err "Invalid group" else mret ().

(** The three boxes of a custom role that stand for all collections. *)
Definition manages_all (raw_type : string) (permissions : gmap string Value) : bool :=
  (raw_type == "4")
  && (permissions !! "editAnyCollection" == Some (JBool true))
  && (permissions !! "deleteAnyCollection" == Some (JBool true))
  && (permissions !! "createNewCollections" == Some (JBool true)).

(** The loops that grant collections and groups to a member. *)
Definition grant_collections (org_id user_uuid : string) (cols : option (list CollectionData.t)) : M DB () :=
  for_each (default [] cols) (λ col,
    o ← gets (Collection_find_by_uuid_and_org (CollectionData.id col) org_id);
    match o with
    | None => err "Collection not found in Organization"
    | Some collection =>
        CollectionUser_save user_uuid (Collection.uuid collection) (CollectionData.read_only col)
          (CollectionData.hide_passwords col) (CollectionData.manage col)
    end).
Definition grant_groups (org_id member_uuid : string) (group_ids : list string) : M DB () :=
  for_each group_ids (λ group_id,
    o ← gets (Group_find_by_uuid_and_org group_id org_id);
    if bool_decide (o = None) then err "Group not found in Organization" else
    GroupUser_save (GroupUser_new group_id member_uuid)).

(** The account behind an invited address: found or created. The flags say
    whether an account was created in this round, and which state the new
    membership starts in. *)
Definition invited_user (draws : Draws) (n : nat) (org_id email : string) : M DB (User.t * bool * Z) :=
  found ← gets (User_find_by_mail email);
  match found with
  | None =>
      if negb invitations_allowed then err ("User does not exist: " +:+ email) else
      if negb (is_email_domain_allowed email) then err "Email domain not eligible for invitations" else
      when (negb mail_enabled) (Invitation_save (Invitation_new email)) ;;
      u ← User_save (User_new (new_seed draws n) email None);
      mret (u, true, status_i32 Invited)
  | Some user =>
      om ← gets (Membership_find_by_user_and_org (User.uuid user) org_id);
      if bool_decide (is_Some om) then err ("User already in organization: " +:+ email) else
      if mail_enabled then mret (user, false, status_i32 Invited) else
      if User.password_hash user == []
      then Invitation_save (Invitation_new email) ;; mret (user, false, status_i32 Invited)
      else mret (user, false, status_i32 Accepted)
  end.

(** One round of the loop of [send_invite]. [user_created] is declared before
    the loop and never set back. *)
Definition invite_one (draws : Draws) (n : nat) (org_id : string) (data : InviteData.t) (headers : AdminHeaders.t)
    (new_type : Z) (access_all : bool) (user_created : bool) (email : string) : M DB bool :=
  '(user, created, member_status) ← invited_user draws n org_id email;
  let user_created := user_created || created in
  let new_member := Membership_new (new_member_id draws n) (User.uuid user) org_id
                      (Some (User.email (AdminHeaders.user headers))) in
  let new_member := Membership.set_access_all (λ _, access_all) new_member in
  let new_member := Membership.set_atype (λ _, new_type) new_member in
  let new_member := Membership.set_status (λ _, member_status) new_member in
  Membership_save new_member ;;
  when mail_enabled (
    o ← gets (Organization_find_by_uuid org_id);
    _ ← some_or o "Error looking up organization";
    match send_mail "send_org_invite" (User.email user) with
    | Ok _ => mret ()
    | Err e =>
        (if (user_created : bool) then User_delete user else Membership_delete new_member) ;;
        err ("Error sending invite: " +:+ err_message e)
    end) ;;
  when (negb access_all) (grant_collections org_id (User.uuid user) (InviteData.collections data)) ;;
  grant_groups org_id (Membership.uuid new_member) (InviteData.groups data) ;;
  mret user_created.

Fixpoint invite_all (draws : Draws) (n : nat) (org_id : string) (data : InviteData.t) (headers : AdminHeaders.t)
    (new_type : Z) (access_all : bool) (user_created : bool) (emails : list string) : M DB () :=
  match emails with
  | [] => mret ()
  | email :: emails =>
      user_created ← invite_one draws n org_id data headers new_type access_all user_created email;
      invite_all draws (S n) org_id data headers new_type access_all user_created emails
  end.

Definition send_invite (draws : Draws) (org_id : string) (data : InviteData.t) (headers : AdminHeaders.t) : M DB () :=
  check_org org_id (AdminHeaders.org_id headers) ;;
  InviteData_validate data org_id ;;
  let raw_type := NumberOrString_into_string (InviteData.type data) in
  t ← some_or (MembershipType_from_str raw_type) "Invalid type";
  let new_type := type_i32 t in
  if negb (i32_eq_type new_type User_) && negb (AdminHeaders.membership_type headers == Owner)
  then err "Only Owners can invite Managers, Admins or Owners" else
  let access_all := i32_ge_type new_type Admin || manages_all raw_type (InviteData.permissions data) in
  invite_all draws 0 org_id data headers new_type access_all false (InviteData.emails data).

Definition reinvite_member_impl (org_id member_id : string) : M DB () :=
  om ← gets (Membership_find_by_uuid_and_org member_id org_id);
  member ← some_or om "The user hasn't been invited to the organization.";
  if negb (Membership.status member == status_i32 Invited)
  then err "The user is already accepted or confirmed to the organization" else
  ou ← gets (User_find_by_uuid (Membership.user_uuid member));
  user ← some_or ou "User not found.";
  if negb invitations_allowed && (User.password_hash user == []) then err "Invitations are not allowed." else
  oo ← gets (Organization_find_by_uuid org_id);
  _ ← some_or oo "Error looking up organization.";
  if mail_enabled then lift (send_mail "send_org_invite" (User.email user))
  else if User.password_hash user == [] then Invitation_save (Invitation_new (User.email user))
  else
    Invitation_take (User.email user) ;;
    Membership_save (Membership.set_status (λ _, status_i32 Accepted) member).

Definition reinvite_member (org_id member_id : string) (headers : AdminHeaders.t) : M DB () :=
  check_org org_id (AdminHeaders.org_id headers) ;;
  reinvite_member_impl org_id member_id.
Definition bulk_reinvite_members (org_id : string) (ids : list string) (headers : AdminHeaders.t)
    : M DB (list (option Error)) :=
  check_org org_id (AdminHeaders.org_id headers) ;;
  bulk ids (reinvite_member_impl org_id).

(** *** Acceptance *)

(** [accept_org_invite] of api/core/mod.rs. *)
Definition accept_org_invite (draws : Draws) (user : User.t) (member : Membership.t) (reset_password_key : option string)
    : M DB () :=
  if negb (Membership.status member == status_i32 Invited) then err "User already accepted the invitation" else
  let member := Membership.set_status (λ _, status_i32 Accepted) member in
  let member := Membership.set_reset_password_key (λ _, reset_password_key) member in
  OrgPolicy_check_user_allowed (new_factor_id draws (Membership.uuid member)) member "join" ;;
  Membership_save member ;;
  when mail_enabled (
    oo ← gets (Organization_find_by_uuid (Membership.org_uuid member));
    org ← some_or oo "Organization not found.";
    lift (send_mail "invite_accepted"
      (default (Organization.billing_email org) (Membership.invited_by_email member)))).

Definition accept_invite `{OrgInviteTokens} (draws : Draws) (org_id member_id : string) (data : AcceptData.t)
    (headers : Headers.t) : M DB () :=
  claims ← lift (decode_invite (AcceptData.token data));
  if negb (InviteJwtClaims.email claims == User.email (Headers.user headers))
  then err "Invitation was issued to a different account" else
  if negb (InviteJwtClaims.org_id claims == org_id) then err "Error accepting the invitation" else
  if negb (InviteJwtClaims.member_id claims == member_id) then err "Error accepting the invitation" else
  let member_id := InviteJwtClaims.member_id claims in
  Invitation_take (InviteJwtClaims.email claims) ;;
  if negb (member_id == FAKE_ADMIN_UUID) then
    om ← gets (Membership_find_by_uuid_and_org member_id (InviteJwtClaims.org_id claims));
    membership ← some_or om "Error accepting the invitation";
    auto ← gets (OrgPolicy_org_is_reset_password_auto_enroll (Membership.org_uuid membership));
    reset_password_key ←
      (if (auto : bool) then
         if bool_decide (AcceptData.reset_password_key data = None)
         then err "Reset password key is required, but not provided."
         else mret (AcceptData.reset_password_key data)
       else mret None);
    let membership := Membership.set_invited_by_email (λ o,
      match o with Some e => Some e | None => InviteJwtClaims.invited_by_email claims end) membership in
    accept_org_invite draws (Headers.user headers) membership reset_password_key
  else when mail_enabled (lift (send_mail "invite_confirmed" (InviteJwtClaims.email claims))).

(** The part of [post_set_password] (api/core/accounts.rs) on memberships: the
    invitation of the organization named in the request is accepted, and
    without mail every other one. *)
Definition set_password_accepts (draws : Draws) (org_identifier : option string) (user : User.t) : M DB () :=
  (match org_identifier with
   | Some identifier =>
       if negb (identifier == FAKE_SSO_IDENTIFIER) && negb (identifier == FAKE_ADMIN_UUID) then
         oo ← gets (Organization_find_by_uuid identifier);
         org ← some_or oo "Failed to retrieve the associated organization";
         om ← gets (Membership_find_by_user_and_org (User.uuid user) (Organization.uuid org));
         membership ← some_or om "Failed to retrieve the invitation";
         accept_org_invite draws user membership None
       else mret ()
   | None => mret ()
   end) ;;
  if mail_enabled then lift (send_mail "welcome" (to_lowercase (User.email user)))
  else Membership_accept_user_invitations (User.uuid user).

(** *** Confirmation *)

Definition confirm_invite_impl (draws : Draws) (org_id member_id key : string) (headers : AdminHeaders.t) : M DB () :=
  check_org org_id (AdminHeaders.org_id headers) ;;
  if (key == "") || (member_id == "") then err "Key or UserId is not set, unable to process request" else
  om ← gets (Membership_find_by_uuid_and_org member_id org_id);
  member_to_confirm ← some_or om "The specified user isn't a member of the organization";
  if negb (i32_eq_type (Membership.atype member_to_confirm) User_)
     && negb (AdminHeaders.membership_type headers == Owner)
  then err "Only Owners can confirm Managers, Admins or Owners" else
  if negb (Membership.status member_to_confirm == status_i32 Accepted) then err "User in invalid state" else
  let member_to_confirm := Membership.set_status (λ _, status_i32 Confirmed) member_to_confirm in
  let member_to_confirm := Membership.set_akey (λ _, key) member_to_confirm in
  OrgPolicy_check_user_allowed (new_factor_id draws member_id) member_to_confirm "confirm" ;;
  when mail_enabled (
    oo ← gets (Organization_find_by_uuid org_id);
    _ ← some_or oo "Error looking up organization.";
    ou ← gets (User_find_by_uuid (Membership.user_uuid member_to_confirm));
    user ← some_or ou "Error looking up user.";
    lift (send_mail "invite_confirmed" (User.email user))) ;;
  Membership_save member_to_confirm.

Definition confirm_invite (draws : Draws) (org_id member_id : string) (data : ConfirmData.t) (headers : AdminHeaders.t)
    : M DB () :=
  confirm_invite_impl draws org_id member_id (default "" (ConfirmData.key data)) headers.

(** [keys] is [None] when the field is missing; a missing id stops the request
    in the middle. *)
Fixpoint bulk_confirm_loop (draws : Draws) (org_id : string) (headers : AdminHeaders.t) (keys : list ConfirmData.t)
    : M DB (list (option Error)) :=
  match keys with
  | [] => mret []
  | invite :: keys =>
      member_id ← expect (ConfirmData.id invite) "called `Option::unwrap()` on a `None` value";
      r ← attempt (confirm_invite_impl draws org_id member_id (default "" (ConfirmData.key invite)) headers);
      rest ← bulk_confirm_loop draws org_id headers keys;
      mret (r :: rest)
  end.
Definition bulk_confirm_invite (draws : Draws) (org_id : string) (keys : option (list ConfirmData.t))
    (headers : AdminHeaders.t) : M DB (list (option Error)) :=
  check_org org_id (AdminHeaders.org_id headers) ;;
  bulk_confirm_loop draws org_id headers (default [] keys).

(** *** Editing and removing *)

Definition edit_member (draws : Draws) (org_id member_id : string) (data : EditUserData.t) (headers : AdminHeaders.t)
    : M DB () :=
  check_org org_id (AdminHeaders.org_id headers) ;;
  let raw_type := NumberOrString_into_string (EditUserData.type data) in
  new_type ← some_or (MembershipType_from_str raw_type) "Invalid type";
  let access_all := type_ge new_type Admin || manages_all raw_type (EditUserData.permissions data) in
  om ← gets (Membership_find_by_uuid_and_org member_id org_id);
  member_to_edit ← some_or om "The specified user isn't member of the organization";
  if negb (i32_eq_type (Membership.atype member_to_edit) new_type)
     && (i32_ge_type (Membership.atype member_to_edit) Admin || type_ge new_type Admin)
     && negb (AdminHeaders.membership_type headers == Owner)
  then err "Only Owners can grant and remove Admin or Owner privileges" else
  if i32_eq_type (Membership.atype member_to_edit) Owner && negb (AdminHeaders.membership_type headers == Owner)
  then err "Only Owners can edit Owner users" else
  n ← gets (Membership_count_confirmed_by_org_and_type org_id Owner);
  if i32_eq_type (Membership.atype member_to_edit) Owner && negb (new_type == Owner)
     && (Membership.status member_to_edit == status_i32 Confirmed) && (n <=? 1)
  then err "Can't delete the last owner" else
  let member_to_edit := Membership.set_access_all (λ _, access_all) member_to_edit in
  let member_to_edit := Membership.set_atype (λ _, type_i32 new_type) member_to_edit in
  OrgPolicy_check_user_allowed (new_factor_id draws member_id) member_to_edit "modify" ;;
  cus ← gets (CollectionUser_find_by_organization_and_user_uuid org_id (Membership.user_uuid member_to_edit));
  for_each cus CollectionUser_delete ;;
  when (negb access_all)
    (grant_collections org_id (Membership.user_uuid member_to_edit) (EditUserData.collections data)) ;;
  GroupUser_delete_all_by_member (Membership.uuid member_to_edit) ;;
  grant_groups org_id (Membership.uuid member_to_edit) (default [] (EditUserData.groups data)) ;;
  Membership_save member_to_edit.

Definition put_member := edit_member.

Definition delete_member_impl (org_id member_id : string) (headers : AdminHeaders.t) : M DB () :=
  check_org org_id (AdminHeaders.org_id headers) ;;
  om ← gets (Membership_find_by_uuid_and_org member_id org_id);
  member_to_delete ← some_or om "User to delete isn't member of the organization";
  if negb (i32_eq_type (Membership.atype member_to_delete) User_)
     && negb (AdminHeaders.membership_type headers == Owner)
  then err "Only Owners can delete Admins or Owners" else
  n ← gets (Membership_count_confirmed_by_org_and_type org_id Owner);
  if i32_eq_type (Membership.atype member_to_delete) Owner
     && (Membership.status member_to_delete == status_i32 Confirmed) && (n <=? 1)
  then err "Can't delete the last owner" else
  ou ← gets (User_find_by_uuid (Membership.user_uuid member_to_delete));
  (match ou with
   | Some user =>
       invited ← gets (Membership_find_invited_by_user (User.uuid user));
       when (negb mail_enabled
             && negb (existsb (λ m, negb (Membership.uuid m == Membership.uuid member_to_delete)) invited))
         (Invitation_take (User.email user) ;; mret ())
   | None => mret ()
   end) ;;
  Membership_delete member_to_delete.

Definition delete_member := delete_member_impl.
Definition bulk_delete_member (org_id : string) (ids : list string) (headers : AdminHeaders.t)
    : M DB (list (option Error)) :=
  check_org org_id (AdminHeaders.org_id headers) ;;
  bulk ids (λ member_id, delete_member_impl org_id member_id headers).

(** *** Revoking and restoring *)

Definition revoke_member_impl (org_id member_id : string) (headers : AdminHeaders.t) : M DB () :=
  check_org org_id (AdminHeaders.org_id headers) ;;
  om ← gets (Membership_find_by_uuid_and_org member_id org_id);
  match om with
  | Some member =>
      if negb (status_i32 Revoked <? Membership.status member) then err "User is already revoked" else
      if Membership.user_uuid member == User.uuid (AdminHeaders.user headers) then err "You cannot revoke yourself" else
      if i32_eq_type (Membership.atype member) Owner && negb (AdminHeaders.membership_type headers == Owner)
      then err "Only owners can revoke other owners" else
      n ← gets (Membership_count_confirmed_by_org_and_type org_id Owner);
      if i32_eq_type (Membership.atype member) Owner && (n <=? 1)
      then err "Organization must have at least one confirmed owner" else
      Membership_save (Membership_revoke member).2
  | None => err "User not found in organization"
  end.

Definition revoke_member := revoke_member_impl.
Definition bulk_revoke_members (org_id : string) (ids : option (list string)) (headers : AdminHeaders.t)
    : M DB (list (option Error)) :=
  check_org org_id (AdminHeaders.org_id headers) ;;
  bulk (default [] ids) (λ member_id, revoke_member_impl org_id member_id headers).

Definition restore_member_impl (draws : Draws) (org_id member_id : string) (headers : AdminHeaders.t) : M DB () :=
  check_org org_id (AdminHeaders.org_id headers) ;;
  om ← gets (Membership_find_by_uuid_and_org member_id org_id);
  match om with
  | Some member =>
      if negb (Membership.status member <? status_i32 Accepted) then err "User is already active" else
      if Membership.user_uuid member == User.uuid (AdminHeaders.user headers) then err "You cannot restore yourself" else
      if i32_eq_type (Membership.atype member) Owner && negb (AdminHeaders.membership_type headers == Owner)
      then err "Only owners can restore other owners" else
      let member := (Membership_restore member).2 in
      OrgPolicy_check_user_allowed (new_factor_id draws member_id) member "restore" ;;
      Membership_save member
  | None => err "User not found in organization"
  end.

Definition restore_member := restore_member_impl.
Definition restore_member_vnext := restore_member_impl.
Definition bulk_restore_members (draws : Draws) (org_id : string) (ids : list string) (headers : AdminHeaders.t)
    : M DB (list (option Error)) :=
  check_org org_id (AdminHeaders.org_id headers) ;;
  bulk ids (λ member_id, restore_member_impl draws org_id member_id headers).

(** *** Two-step login and policies *)

(** [enforce_2fa_policy] and [enforce_2fa_policy_for_org]. *)
Definition enforce_2fa_policy (user : User.t) : M DB () :=
  l ← gets (Membership_find_by_user_and_policy (User.uuid user) (OrgPolicyType_as_i32 TwoFactorAuthentication));
  for_each l (λ member,
    when (i32_lt_type (Membership.atype member) Admin) (
      when mail_enabled (
        oo ← gets (Organization_find_by_uuid (Membership.org_uuid member));
        _ ← expect oo "called `Option::unwrap()` on a `None` value";
        lift (send_mail "send_2fa_removed_from_org" (User.email user))) ;;
      Membership_save (Membership_revoke member).2)).

Definition enforce_2fa_policy_for_org (org_id : string) : M DB () :=
  oo ← gets (Organization_find_by_uuid org_id);
  _ ← expect oo "called `Option::unwrap()` on a `None` value";
  l ← gets (Membership_find_confirmed_by_org org_id);
  for_each l (λ member,
    factors ← gets (TwoFactor_find_by_user (Membership.user_uuid member));
    when (i32_lt_type (Membership.atype member) Admin && bool_decide (factors = [])) (
      when mail_enabled (
        ou ← gets (User_find_by_uuid (Membership.user_uuid member));
        user ← expect ou "called `Option::unwrap()` on a `None` value";
        lift (send_mail "send_2fa_removed_from_org" (User.email user))) ;;
      Membership_save (Membership_revoke member).2)).

(** [type_] is the answer of [data.r#type.into_i32()]. *)
Definition disable_twofactor (type_ : Res Z) (master_password_hash otp : option string) (headers : Headers.t) : M DB () :=
  let user := Headers.user headers in
  PasswordOrOtpData_validate master_password_hash otp user true ;;
  type_ ← lift type_;
  o ← gets (TwoFactor_find_by_user_and_type (User.uuid user) type_);
  (match o with Some twofactor => TwoFactor_delete twofactor | None => mret () end) ;;
  rest ← gets (TwoFactor_find_by_user (User.uuid user));
  when (bool_decide (rest = [])) (enforce_2fa_policy user).

Definition OrgPolicyType_from_i32 (n : Z) : option OrgPolicyType :=
  match n with
  | 0 => Some TwoFactorAuthentication | 1 => Some MasterPassword | 2 => Some PasswordGenerator
  | 3 => Some SingleOrg | 5 => Some PersonalOwnership | 6 => Some DisableSend | 7 => Some SendOptions
  | 8 => Some ResetPassword | 14 => Some RemoveUnlockWithPin | 15 => Some RestrictedItemTypes
  | 16 => Some UriMatchDefaults | _ => None
  end.
Definition is_policy (a b : OrgPolicyType) : bool := OrgPolicyType_as_i32 a =? OrgPolicyType_as_i32 b.

(** The loop of [put_policy] over the members when one organization is
    required. *)
Definition enforce_single_org (org_id : string) : M DB () :=
  l ← gets (Membership_find_by_org org_id);
  for_each l (λ member,
    n ← gets (Membership_count_accepted_and_confirmed_by_user (Membership.user_uuid member) (Membership.org_uuid member));
    when (i32_lt_type (Membership.atype member) Admin
          && negb (Membership.status member == status_i32 Invited) && (0 <? n)) (
      when mail_enabled (
        oo ← gets (Organization_find_by_uuid (Membership.org_uuid member));
        _ ← expect oo "called `Option::unwrap()` on a `None` value";
        ou ← gets (User_find_by_uuid (Membership.user_uuid member));
        user ← expect ou "called `Option::unwrap()` on a `None` value";
        lift (send_mail "send_single_org_removed_from_org" (User.email user))) ;;
      Membership_save (Membership_revoke member).2)).

Definition put_policy (policy_uuid : string) (org_id : string) (pol_type : Z) (data : PolicyData.t)
    (headers : AdminHeaders.t) : M DB OrgPolicy.t :=
  check_org org_id (AdminHeaders.org_id headers) ;;
  pol_type_enum ← some_or (OrgPolicyType_from_i32 pol_type) "Invalid or unsupported policy type";
  let enabled := PolicyData.enabled data in
  single ← gets (OrgPolicy_find_by_org_and_type org_id SingleOrg);
  reset ← gets (OrgPolicy_find_by_org_and_type org_id ResetPassword);
  if enforce_single_org_with_reset_pw_policy && is_policy pol_type_enum ResetPassword && enabled
     && negb (nn single OrgPolicy.enabled)
  then err "Single Organization policy is not enabled. It is mandatory for this policy to be enabled." else
  if enforce_single_org_with_reset_pw_policy && is_policy pol_type_enum SingleOrg && negb enabled
     && nn reset OrgPolicy.enabled
  then err "Account recovery policy is enabled. It is not allowed to disable this policy." else
  when (is_policy pol_type_enum TwoFactorAuthentication && enabled) (enforce_2fa_policy_for_org org_id) ;;
  when (is_policy pol_type_enum SingleOrg && enabled) (enforce_single_org org_id) ;;
  o ← gets (OrgPolicy_find_by_org_and_type org_id pol_type_enum);
  let policy := match o with Some p => p | None => OrgPolicy_new policy_uuid org_id pol_type_enum false "{}" end in
  let policy := OrgPolicy.set_enabled (λ _, enabled) policy in
  let policy := OrgPolicy.set_data (λ _, PolicyData.data data) policy in
  OrgPolicy_save policy ;;
  mret policy.

Definition put_policy_vnext := put_policy.

(** *** Account recovery *)

Definition check_reset_password_applicable (org_id : string) : M DB () :=
  if negb mail_enabled then err "Password reset is not supported on an email-disabled instance." else
  op ← gets (OrgPolicy_find_by_org_and_type org_id ResetPassword);
  policy ← some_or op "Policy not found";
  if negb (OrgPolicy.enabled policy) then err "Reset password policy not enabled" else mret ().

Definition check_reset_password_applicable_and_permissions (org_id member_id : string) (headers : AdminHeaders.t)
    : M DB () :=
  check_reset_password_applicable org_id ;;
  om ← gets (Membership_find_by_uuid_and_org member_id org_id);
  target_user ← some_or om "Reset target user not found";
  match AdminHeaders.membership_type headers with
  | Owner => mret ()
  | Admin => if i32_le_type (Membership.atype target_user) Admin then mret ()
             else err "No permission to reset this user's password"
  | _ => err "No permission to reset this user's password"
  end.

(** [stamp] and [token_for] are drawn by [set_password]. *)
Definition recover_account (stamp : string) (token_for : string → string) (org_id member_id : string)
    (reset_request : RecoverAccountRequest.t) (headers : AdminHeaders.t) : M DB () :=
  check_org org_id (AdminHeaders.org_id headers) ;;
  oo ← gets (Organization_find_by_uuid org_id);
  org ← some_or oo "Required organization not found";
  om ← gets (Membership_find_by_uuid_and_org member_id (Organization.uuid org));
  member ← some_or om "User to reset isn't member of required organization";
  ou ← gets (User_find_by_uuid (Membership.user_uuid member));
  user ← some_or ou "User not found";
  check_reset_password_applicable_and_permissions org_id member_id headers ;;
  if bool_decide (Membership.reset_password_key member = None)
  then err "Password reset not or not correctly enrolled" else
  if negb (Membership.status member == status_i32 Confirmed)
  then err "Organization user must be confirmed for password reset functionality" else
  match send_mail "send_admin_reset_password" (User.email user) with
  | Err e => err ("Error sending user reset password email: " +:+ err_message e)
  | Ok _ =>
      user ← User_set_password stamp token_for (RecoverAccountRequest.new_master_password_hash reset_request)
        (Some (RecoverAccountRequest.key reset_request)) true None user;
      User_save user ;; mret ()
  end.

Definition put_reset_password := recover_account.
Definition put_recover_account (stamp : string) (token_for : string → string) (org_id member_id : string)
    (req : RecoverAccountRequest.t) (headers : AdminHeaders.t) : M DB () :=
  if RecoverAccountRequest.reset_master_password req && negb (RecoverAccountRequest.reset_two_factor req)
  then recover_account stamp token_for org_id member_id req headers
  else err "Unsupported operation".

Definition put_reset_password_enrollment (org_id user_id : string) (reset_request : EnrollmentRequest.t)
    (headers : OrgMemberHeaders.t) : M DB () :=
  if negb (user_id == User.uuid (OrgMemberHeaders.user headers))
  then err "User to enroll isn't member of required organization" else
  let membership := OrgMemberHeaders.membership headers in
  check_reset_password_applicable org_id ;;
  let reset_password_key :=
    match EnrollmentRequest.reset_password_key reset_request with
    | None => None
    | Some key => if key == "" then None else Some key
    end in
  auto ← gets (OrgPolicy_org_is_reset_password_auto_enroll org_id);
  if bool_decide (reset_password_key = None) && (auto : bool)
  then err "Reset password can't be withdrawn due to an enterprise policy" else
  when (bool_decide (is_Some reset_password_key))
    (PasswordOrOtpData_validate (EnrollmentRequest.master_password_hash reset_request)
       (EnrollmentRequest.otp reset_request) (OrgMemberHeaders.user headers) true) ;;
  Membership_save (Membership.set_reset_password_key (λ _, reset_password_key) membership).

(** The part of [post_rotatekey] (api/core/accounts.rs) on memberships: each
    enrolled organization gets the recovery key of the new account key. *)
Definition rotate_reset_password_keys (keys : list (string * string)) (user : User.t) : M DB () :=
  l ← gets (Membership_find_by_user (User.uuid user));
  let existing := where_ (λ m, bool_decide (is_Some (Membership.reset_password_key m))) l in
  for_each keys (λ '(organization_id, reset_password_key),
    membership ← some_or (List.find (λ m, Membership.org_uuid m == organization_id) existing)
                   "Reset password doesn't exist";
    Membership_save (Membership.set_reset_password_key (λ _, Some reset_password_key) membership)).

(** *** The server administrator *)

(** [update_membership_type] of api/admin.rs. *)
Definition update_membership_type (draws : Draws) (data : MembershipTypeData.t) : M DB () :=
  om ← gets (Membership_find_by_user_and_org (MembershipTypeData.user_uuid data) (MembershipTypeData.org_uuid data));
  member_to_edit ← some_or om "The specified user isn't member of the organization";
  t ← some_or (MembershipType_from_str (NumberOrString_into_string (MembershipTypeData.user_type data))) "Invalid type";
  let new_type := type_i32 t in
  n ← gets (Membership_count_confirmed_by_org_and_type (MembershipTypeData.org_uuid data) Owner);
  if i32_eq_type (Membership.atype member_to_edit) Owner && negb (i32_eq_type new_type Owner) && (n <=? 1)
  then err "Can't change the type of the last owner" else
  let member_to_edit := Membership.set_atype (λ _, new_type) member_to_edit in
  OrgPolicy_check_user_allowed (new_factor_id draws (Membership.uuid member_to_edit)) member_to_edit "modify" ;;
  Membership_save member_to_edit.

(** [remove_2fa] and [delete_user] of api/admin.rs. *)
Definition get_user_or_404 (user_id : string) : M DB User.t :=
  ou ← gets (User_find_by_uuid user_id);
  match ou with Some user => mret user | None => err_code "User doesn't exist" 404 end.
Definition remove_2fa (user_id : string) : M DB () :=
  user ← get_user_or_404 user_id;
  TwoFactor_delete_all_by_user (User.uuid user) ;;
  enforce_2fa_policy user ;;
  User_save (User.set_totp_recover (λ _, None) user) ;; mret ().
Definition delete_user (user_id : string) : M DB () :=
  user ← get_user_or_404 user_id;
  User_delete user.
Definition admin_delete_organization (org_id : string) : M DB () :=
  oo ← gets (Organization_find_by_uuid org_id);
  org ← some_or oo "Organization doesn't exist";
  Organization_delete org.

(** *** The directory import of api/core/public.rs *)

Definition import_one (draws : Draws) (n : nat) (org_id : string) (user_data : OrgImportUserData.t) : M DB () :=
  let ext := Some (OrgImportUserData.external_id user_data) in
  om ← gets (Membership_find_by_email_and_org (OrgImportUserData.email user_data) org_id);
  if OrgImportUserData.deleted user_data then
    match om with
    | Some member =>
        c ← gets (Membership_count_confirmed_by_org_and_type org_id Owner);
        let '(revoked, member) :=
          if i32_eq_type (Membership.atype member) Owner && (Membership.status member == status_i32 Confirmed) && (c <=? 1)
          then (false, member) else Membership_revoke member in
        let '(ext_modified, member) := Membership_set_external_id ext member in
        when (revoked || ext_modified) (Membership_save member)
    | None => mret ()
    end
  else
    match om with
    | Some member =>
        let '(restored, member) := Membership_restore member in
        let '(ext_modified, member) := Membership_set_external_id ext member in
        '(restored, member) ←
          (if restored then
             r ← attempt (OrgPolicy_check_user_allowed (new_factor_id draws (Membership.uuid member)) member "restore");
             mret (match r with
                   | None => (true, member)
                   | Some _ => (false, (Membership_revoke member).2)
                   end)
           else mret (false, member));
        when (restored || ext_modified) (Membership_save member)
    | None =>
        found ← gets (User_find_by_mail (OrgImportUserData.email user_data));
        '(user, user_created) ←
          match found with
          | Some user => mret (user, false)
          | None =>
              u ← User_save (User_new (new_seed draws n) (OrgImportUserData.email user_data) None);
              when (negb mail_enabled) (Invitation_save (Invitation_new (User.email u))) ;;
              mret (u, true)
          end;
        let member_status := if mail_enabled || (User.password_hash user == [])
                             then status_i32 Invited else status_i32 Accepted in
        oo ← gets (Organization_find_by_uuid org_id);
        org ← some_or oo "Error looking up organization";
        let new_member := Membership_new (new_member_id draws n) (User.uuid user) org_id
                            (Some (Organization.billing_email org)) in
        let new_member := (Membership_set_external_id ext new_member).2 in
        let new_member := Membership.set_access_all (λ _, false) new_member in
        let new_member := Membership.set_atype (λ _, type_i32 User_) new_member in
        let new_member := Membership.set_status (λ _, member_status) new_member in
        Membership_save new_member ;;
        if mail_enabled then
          match send_mail "send_org_invite" (User.email user) with
          | Ok _ => mret ()
          | Err e =>
              (if (user_created : bool) then User_delete user else Membership_delete new_member) ;;
              err ("Error sending invite: " +:+ err_message e)
          end
        else mret ()
    end.

Fixpoint import_members (draws : Draws) (n : nat) (org_id : string) (l : list OrgImportUserData.t) : M DB () :=
  match l with
  | [] => mret ()
  | user_data :: l => import_one draws n org_id user_data ;; import_members draws (S n) org_id l
  end.

Fixpoint import_groups (draws : Draws) (n : nat) (org_id : string) (l : list OrgImportGroupData.t) : M DB () :=
  match l with
  | [] => mret ()
  | group_data :: l =>
      og ← gets (Group_find_by_external_id_and_org (OrgImportGroupData.external_id group_data) org_id);
      group_uuid ←
        match og with
        | Some group => mret (Group.uuid group)
        | None =>
            group ← Group_save (Group_new trim (new_group_id draws n) org_id (OrgImportGroupData.name group_data) false
                      (Some (OrgImportGroupData.external_id group_data)));
            mret (Group.uuid group)
        end;
      GroupUser_delete_all_by_group group_uuid org_id ;;
      for_each (OrgImportGroupData.member_external_ids group_data) (λ ext_id,
        om ← gets (Membership_find_by_external_id_and_org ext_id org_id);
        match om with
        | Some member => GroupUser_save (GroupUser_new group_uuid (Membership.uuid member))
        | None => mret ()
        end) ;;
      import_groups draws (S n) org_id l
  end.

Definition overwrite_one (org_id : string) (sync_members : list string) (member : Membership.t) : M DB () :=
  match Membership.external_id member with
  | Some user_external_id =>
      when (negb (bool_decide (user_external_id ∈ sync_members))) (
        n ← gets (Membership_count_confirmed_by_org_and_type org_id Owner);
        when (negb (i32_eq_type (Membership.atype member) Owner
                    && (Membership.status member == status_i32 Confirmed) && (n <=? 1)))
          (Membership_delete member))
  | None => mret ()
  end.

Definition ldap_import (draws : Draws) (org_id : string) (data : OrgImportData.t) : M DB () :=
  import_members draws 0 org_id (OrgImportData.members data) ;;
  when org_groups_enabled (import_groups draws 0 org_id (OrgImportData.groups data)) ;;
  when (OrgImportData.overwrite_existing data) (
    l ← gets (Membership_find_by_org org_id);
    for_each l (overwrite_one org_id (OrgImportUserData.external_id <$> OrgImportData.members data))).
End handlers.
