(* ===== verification/Accounts.v ===== *)
(** The account of a user: the handlers.

    Models src/src/api/core/accounts.rs: registration, profile and keys, change
    of the password, of the key derivation and of the address, deletion,
    devices, and the login requests that another device answers. The rotation
    of the account key is modelled up to the items of the vault in [Members]
    and [Emergency]. A handler gets what its guard returned and the values that
    the request draws at random. Mails whose failure is only logged, the event
    log, notifications and the JSON of the answers are left out: a handler
    returns the rows it renders. *)
From S2P Require Import Prelude Schema Roles Users Invariants Samples TwoFactors OneTimeCodes Sends EmergencyRows Memberships Groups Collections Guards VaultItems Ciphers Policies Organizations Emergency Members.
Local Open Scope Z_scope.

(** ** Bodies of the requests *)

Module KDFData.
Record t := mk { kdf : Z; kdf_iterations : Z; kdf_memory : option Z; kdf_parallelism : option Z }.
#[global] Instance t_eq_dec : EqDecision t.
Proof. solve_decision. Defined.
End KDFData.
Module KeysData.
Record t := mk { encrypted_private_key : string; public_key : string }.
End KeysData.
Module MasterPasswordAuthentication.
Record t := mk { kdf : KDFData.t; salt : string; hash : string }.
End MasterPasswordAuthentication.
Module MasterPasswordUnlock.
Record t := mk { kdf : KDFData.t; salt : string; key : string }.
End MasterPasswordUnlock.
Inductive RegisterDataCompat :=
| RegisterDataOld (kdf : KDFData.t) (key master_password_hash : string)
| RegisterDataCur (auth : MasterPasswordAuthentication.t) (unlock : MasterPasswordUnlock.t).
Module RegisterData.
Record t := mk {
  email : string; compat : RegisterDataCompat; keys : option KeysData.t;
  master_password_hint : option string; name : option string; organization_user_id : option string;
  email_verification_token : option string; accept_emergency_access_id : option string;
  accept_emergency_access_invite_token : option string; org_invite_token : option string
}.
End RegisterData.
Module SetPasswordData.
Record t := mk { kdf : KDFData.t; key : string; keys : option KeysData.t; master_password_hash : string;
                 master_password_hint : option string; org_identifier : option string }.
End SetPasswordData.
Module ChangePassData.
Record t := mk { master_password_hash : string; new_master_password_hash : string;
                 master_password_hint : option string; key : string }.
End ChangePassData.
(** [AuthenticationData] and [UnlockData] have the shape of the two records
    above. *)
Module ChangeKdfData.
Record t := mk { authentication_data : MasterPasswordAuthentication.t; unlock_data : MasterPasswordUnlock.t;
                 master_password_hash : string }.
End ChangeKdfData.
Module EmailTokenRequest.
Record t := mk { master_password_hash : string; new_email : string }.
End EmailTokenRequest.
Module ChangeEmailData.
Record t := mk { master_password_hash : string; new_email : string; key : string;
                 new_master_password_hash : string; token : NumberOrString }.
End ChangeEmailData.
Module AuthRequestRequest.
Record t := mk { access_code : string; device_identifier : string; email : string; public_key : string }.
End AuthRequestRequest.
Module AuthResponseRequest.
Record t := mk { device_identifier : string; key : string; master_password_hash : option string;
                 request_approved : bool }.
End AuthResponseRequest.
(** The guard [ClientHeaders]. *)
Module ClientHeaders.
Record t := mk { device_type : Z; ip : string }.
End ClientHeaders.

(** Tokens that the handlers read, as verified by the jsonwebtoken crate. *)
Module RegisterVerifyClaims.
Record t := mk { sub : string; name : option string; verified : bool }.
End RegisterVerifyClaims.
Class AccountTokens := {
  decode_register_verify : string → Res RegisterVerifyClaims.t;
  (** The [sub] of [BasicJwtClaims]. *)
  decode_verify_email : string → Res string;
  decode_delete : string → Res string;
}.
(** The push relay, as the answer to a registration. *)
Class PushRelay := { push_register : Device.t → Res (); push_unregister : string → Res () }.

(** What a request of an account draws at random. *)
Record AccountDraws := {
  draw_seed : Seed; draw_stamp : string; draw_token_for : string → string; draw_factor_id : string;
  draw_api_key : string; draw_email_token : string; draw_id : string
}.

(** ** Checks *)

(** [RegisterData::hash], [kdf], [key] and [unprocessable]. *)
Definition RegisterData_hash (data : RegisterData.t) : string :=
  match RegisterData.compat data with
  | RegisterDataOld _ _ h => h
  | RegisterDataCur a _ => MasterPasswordAuthentication.hash a
  end.
Definition RegisterData_kdf (data : RegisterData.t) : KDFData.t :=
  match RegisterData.compat data with
  | RegisterDataOld k _ _ => k
  | RegisterDataCur a _ => MasterPasswordAuthentication.kdf a
  end.
Definition RegisterData_key (data : RegisterData.t) : string :=
  match RegisterData.compat data with
  | RegisterDataOld _ k _ => k
  | RegisterDataCur _ u => MasterPasswordUnlock.key u
  end.
Definition RegisterData_unprocessable (data : RegisterData.t) : bool :=
  match RegisterData.compat data with
  | RegisterDataOld _ _ _ => false
  | RegisterDataCur a u =>
      let email := to_lowercase (trim (RegisterData.email data)) in
      negb (MasterPasswordAuthentication.kdf a == MasterPasswordUnlock.kdf u)
      || negb (MasterPasswordAuthentication.salt a == email) || negb (MasterPasswordUnlock.salt u == email)
  end.

Definition clean_password_hint (password_hint : option string) : option string :=
  match password_hint with
  | None => None
  | Some h => if trim h == "" then None else Some (trim h)
  end.

Definition set_kdf_data (data : KDFData.t) (user : User.t) : Res User.t :=
  let fail msg := Err (MkError 400 msg) in
  let finish u := Ok (User.set_client_kdf_type (λ _, KDFData.kdf data)
                        (User.set_client_kdf_iter (λ _, KDFData.kdf_iterations data) u)) in
  if (KDFData.kdf data =? 0) && (KDFData.kdf_iterations data <? 100000)
  then fail "PBKDF2 KDF iterations must be at least 100000." else
  if KDFData.kdf data =? 1 then
    if KDFData.kdf_iterations data <? 1 then fail "Argon2 KDF iterations must be at least 1." else
    match KDFData.kdf_memory data with
    | None => fail "Argon2 memory parameter is required."
    | Some m =>
        if negb ((15 <=? m) && (m <=? 1024)) then fail "Argon2 memory must be between 15 MB and 1024 MB." else
        let user := User.set_client_kdf_memory (λ _, KDFData.kdf_memory data) user in
        match KDFData.kdf_parallelism data with
        | None => fail "Argon2 parallelism parameter is required."
        | Some p =>
            if negb ((1 <=? p) && (p <=? 16)) then fail "Argon2 parallelism must be between 1 and 16." else
            finish (User.set_client_kdf_parallelism (λ _, KDFData.kdf_parallelism data) user)
        end
    end
  else finish (User.set_client_kdf_parallelism (λ _, None) (User.set_client_kdf_memory (λ _, None) user)).

(** [if let Some(keys) = data.keys]. *)
Definition with_keys (keys : option KeysData.t) (user : User.t) : User.t :=
  match keys with
  | Some k => User.set_public_key (λ _, Some (KeysData.public_key k))
                (User.set_private_key (λ _, Some (KeysData.encrypted_private_key k)) user)
  | None => user
  end.

Section handlers.
Context `{E : Env} `{K : Codecs} `{P : PolicyJson} `{C : Crypto}.

Definition enforce_password_hint_setting (password_hint : option string) : M DB () :=
  if bool_decide (is_Some password_hint) && negb password_hints_allowed
  then err "Password hints have been disabled by the administrator. Remove the hint and try again." else mret ().

Definition is_email_2fa_required (member_id : option string) (d : DB) : bool :=
  if negb enable_email_2fa then false else
  if email_2fa_enforce_on_verified_invite then true else
  match member_id with
  | Some member_id => OrgPolicy_is_enabled_for_member member_id TwoFactorAuthentication d
  | None => false
  end.

(** ** Registration *)

Section registration.
Context `{AccountTokens, InviteTokens, OrgInviteTokens}.

(** The tokens of a registration that has to prove the address: the name, and
    whether the address counts as verified and an emergency contact waits. *)
Definition check_registration_tokens (data : RegisterData.t) : M DB (option string * bool * bool) :=
  match RegisterData.email_verification_token data, RegisterData.accept_emergency_access_id data,
        RegisterData.accept_emergency_access_invite_token data, RegisterData.organization_user_id data,
        RegisterData.org_invite_token data with
  | Some token, None, None, None, None =>
      claims ← lift (decode_register_verify token);
      if negb (RegisterVerifyClaims.sub claims == RegisterData.email data)
      then err "Email verification token does not match email" else
      mret (match RegisterVerifyClaims.name claims with Some n => Some n | None => RegisterData.name data end,
            RegisterVerifyClaims.verified claims, false)
  | None, Some emer_id, Some token, None, None =>
      if negb emergency_access_allowed then err "Emergency access is not enabled." else
      claims ← lift (decode_emergency_access_invite token);
      if negb (Claims.email claims == RegisterData.email data) then err "Claim email does not match email" else
      if negb (Claims.emer_id claims == emer_id) then err "Claim emer_id does not match accept_emergency_access_id" else
      mret (RegisterData.name data, true, true)
  | None, None, None, Some member_id, Some token =>
      claims ← lift (decode_invite token);
      if negb (InviteJwtClaims.email claims == RegisterData.email data) then err "Claim email does not match email" else
      if negb (InviteJwtClaims.member_id claims == member_id)
      then err "Claim org_user_id does not match organization_user_id" else
      mret (RegisterData.name data, true, false)
  | _, _, _, _, _ => err "Registration is missing required parameters"
  end.

(** The account that a registration completes: the stub of an invitation or a
    new one. The flag is [email_verified] after the check. *)
Definition registered_user (seed : Seed) (email : string) (org_invite_token : option string)
    (email_verified pending_emergency_access : bool) : M DB (User.t * bool) :=
  let refused := "Registration not allowed or user already exists"%string in
  found ← gets (User_find_by_mail email);
  match found with
  | Some user =>
      if negb (User.password_hash user == []) then err refused else
      match org_invite_token with
      | Some token =>
          claims ← lift (decode_invite token);
          if InviteJwtClaims.email claims == email then mret (user, true)
          else err "Registration email does not match invite email"
      | None =>
          taken ← Invitation_take email;
          if (taken : bool) then Membership_accept_user_invitations (User.uuid user) ;; mret (user, email_verified) else
          contact ← gets (EmergencyAccess_find_invited_by_grantee_email email);
          if is_signup_allowed email || (emergency_access_allowed && bool_decide (is_Some contact))
          then mret (user, email_verified) else err refused
      end
  | None =>
      taken ← Invitation_take email;
      if (taken : bool) || is_signup_allowed email || pending_emergency_access
      then mret (User_new seed email None, email_verified) else err refused
  end.

Definition register (draws : AccountDraws) (data : RegisterData.t) (email_verification : bool) : M DB () :=
  let email := to_lowercase (RegisterData.email data) in
  if RegisterData_unprocessable data then err_code "Unexpected RegisterData format" 422 else
  '(name, email_verified, pending) ←
    (if email_verification then check_registration_tokens data else mret (RegisterData.name data, false, false));
  if match name with Some n => (50 <? String.length n)%nat | None => false end
  then err "The field Name must be a string with a maximum length of 50." else
  let password_hint := clean_password_hint (RegisterData.master_password_hint data) in
  enforce_password_hint_setting password_hint ;;
  '(user, email_verified) ← registered_user (draw_seed draws) email (RegisterData.org_invite_token data) email_verified pending;
  Invitation_take email ;;
  user ← lift (set_kdf_data (RegisterData_kdf data) user);
  user ← User_set_password (draw_stamp draws) (draw_token_for draws) (RegisterData_hash data)
           (Some (RegisterData_key data)) true None user;
  let user := User.set_password_hint (λ _, password_hint) user in
  let user := match name with Some n => User.set_name (λ _, n) user | None => user end in
  let user := with_keys (RegisterData.keys data) user in
  let user := if (email_verified : bool) then User.set_verified_at (λ _, Some now) user else user in
  let user := if mail_enabled && signups_verify && negb email_verified
              then User.set_last_verifying_at (λ _, Some (User.created_at user)) user else user in
  when mail_enabled (
    required ← gets (is_email_2fa_required (RegisterData.organization_user_id data));
    when (email_verified && required) (ignore (activate_email_2fa (draw_factor_id draws) user))) ;;
  user ← User_save user;
  register_accept_invitations user.

(** [register_verification_email] of api/identity.rs: [Some token] is answered
    when no mail is needed. [encode] signs the claims. *)
Definition register_verification_email (encode : RegisterVerifyClaims.t → string) (ip email : string) (name : option string)
    : M DB (option string) :=
  lift (check_limit_unauthenticated ip) ;;
  invited ← gets (Invitation_find_by_mail email);
  if negb (is_signup_allowed email || (negb mail_enabled && bool_decide (is_Some invited)))
  then err "Registration not allowed or user already exists" else
  let should_send_mail := mail_enabled && signups_verify in
  let token := encode (RegisterVerifyClaims.mk email name should_send_mail) in
  if should_send_mail then
    ou ← gets (User_find_by_mail email);
    (if nn ou (λ u, bool_decide (is_Some (User.private_key u))) then mret ()
     else lift (send_mail "register_verify_email" email)) ;;
    mret None
  else mret (Some token).
End registration.

Definition post_set_password (draws : AccountDraws) (member_draws : Draws) (data : SetPasswordData.t) (headers : Headers.t)
    : M DB () :=
  let user := Headers.user headers in
  if bool_decide (is_Some (User.private_key user)) then err "Account already initialized, cannot set password" else
  let password_hint := clean_password_hint (SetPasswordData.master_password_hint data) in
  enforce_password_hint_setting password_hint ;;
  user ← lift (set_kdf_data (SetPasswordData.kdf data) user);
  user ← User_set_password (draw_stamp draws) (draw_token_for draws) (SetPasswordData.master_password_hash data)
           (Some (SetPasswordData.key data)) false (Some ["revision_date"%string]) user;
  let user := User.set_password_hint (λ _, password_hint) user in
  let user := with_keys (SetPasswordData.keys data) user in
  set_password_accepts member_draws (SetPasswordData.org_identifier data) user ;;
  User_save user ;; mret ().

(** ** Profile and keys *)

Definition post_profile (name : string) (headers : Headers.t) : M DB User.t :=
  if (50 <? String.length name)%nat then err "The field Name must be a string with a maximum length of 50." else
  User_save (User.set_name (λ _, name) (Headers.user headers)).
Definition put_profile := post_profile.

Definition put_avatar (avatar_color : option string) (headers : Headers.t) : M DB User.t :=
  if match avatar_color with Some c => negb (String.length c =? 7)%nat | None => false end
  then err "The field AvatarColor must be a HTML/Hex color code with a length of 7 characters" else
  User_save (User.set_avatar_color (λ _, avatar_color) (Headers.user headers)).

Definition get_public_keys (user_id : string) : M DB User.t :=
  ou ← gets (User_find_by_uuid user_id);
  match ou with
  | Some user => if bool_decide (is_Some (User.public_key user)) then mret user else err_code "User has no public_key" 404
  | None => err_code "User doesn't exist" 404
  end.

Definition post_keys (data : KeysData.t) (headers : Headers.t) : M DB User.t :=
  User_save (with_keys (Some data) (Headers.user headers)).

(** ** Credentials *)

Definition post_password (draws : AccountDraws) (data : ChangePassData.t) (headers : Headers.t) : M DB () :=
  let user := Headers.user headers in
  if negb (User_check_valid_password user (ChangePassData.master_password_hash data)) then err "Invalid password" else
  let user := User.set_password_hint (λ _, clean_password_hint (ChangePassData.master_password_hint data)) user in
  enforce_password_hint_setting (User.password_hint user) ;;
  user ← User_set_password (draw_stamp draws) (draw_token_for draws) (ChangePassData.new_master_password_hash data)
           (Some (ChangePassData.key data)) true
           (Some ["post_rotatekey"; "get_contacts"; "get_public_keys"; "get_api_webauthn"]%string) user;
  User_save user ;; mret ().

Definition post_kdf (draws : AccountDraws) (data : ChangeKdfData.t) (headers : Headers.t) : M DB () :=
  let user := Headers.user headers in
  let auth := ChangeKdfData.authentication_data data in
  let unlock := ChangeKdfData.unlock_data data in
  if negb (User_check_valid_password user (ChangeKdfData.master_password_hash data)) then err "Invalid password" else
  if negb (MasterPasswordAuthentication.kdf auth == MasterPasswordUnlock.kdf unlock)
  then err "KDF settings must be equal for authentication and unlock" else
  if negb (User.email user == MasterPasswordAuthentication.salt auth) || negb (User.email user == MasterPasswordUnlock.salt unlock)
  then err "Invalid master password salt" else
  user ← lift (set_kdf_data (MasterPasswordUnlock.kdf unlock) user);
  user ← User_set_password (draw_stamp draws) (draw_token_for draws) (MasterPasswordAuthentication.hash auth)
           (Some (MasterPasswordUnlock.key unlock)) true None user;
  User_save user ;; mret ().

Definition post_sstamp (draws : AccountDraws) (master_password_hash otp : option string) (headers : Headers.t) : M DB () :=
  let user := Headers.user headers in
  PasswordOrOtpData_validate master_password_hash otp user true ;;
  user ← User_reset_security_stamp (draw_stamp draws) (draw_token_for draws) user;
  save_result ← answer (User_save user);
  Device_delete_all_by_user (User.uuid user) ;;
  lift save_result ;; mret ().

(** ** The address *)

Definition post_email_token (draws : AccountDraws) (data : EmailTokenRequest.t) (headers : Headers.t) : M DB () :=
  if negb email_change_allowed then err "Email change is not allowed." else
  let user := Headers.user headers in
  if negb (User_check_valid_password user (EmailTokenRequest.master_password_hash data)) then err "Invalid password" else
  existing ← gets (User_find_by_mail (EmailTokenRequest.new_email data));
  if bool_decide (is_Some existing) then err "Email already in use" else
  if negb (is_email_domain_allowed (EmailTokenRequest.new_email data)) then err "Email domain not allowed" else
  let user := User.set_email_new (λ _, Some (EmailTokenRequest.new_email data)) user in
  let user := User.set_email_new_token (λ _, Some (draw_email_token draws)) user in
  User_save user ;; mret ().

Definition post_email (draws : AccountDraws) (data : ChangeEmailData.t) (headers : Headers.t) : M DB () :=
  if negb email_change_allowed then err "Email change is not allowed." else
  let user := Headers.user headers in
  if negb (User_check_valid_password user (ChangeEmailData.master_password_hash data)) then err "Invalid password" else
  existing ← gets (User_find_by_mail (ChangeEmailData.new_email data));
  if bool_decide (is_Some existing) then err "Email already in use" else
  email_new ← some_or (User.email_new user) "No email change pending";
  if negb (email_new == ChangeEmailData.new_email data) then err "Email change mismatch" else
  user ← (if mail_enabled then
            token ← some_or (User.email_new_token user) "No email change pending";
            if negb (token == NumberOrString_into_string (ChangeEmailData.token data)) then err "Token mismatch" else
            mret (User.set_verified_at (λ _, Some now) user)
          else mret (User.set_verified_at (λ _, None) user));
  let user := User.set_email (λ _, ChangeEmailData.new_email data) user in
  let user := User.set_email_new (λ _, None) user in
  let user := User.set_email_new_token (λ _, None) user in
  user ← User_set_password (draw_stamp draws) (draw_token_for draws) (ChangeEmailData.new_master_password_hash data)
           (Some (ChangeEmailData.key data)) true None user;
  User_save user ;; mret ().

Definition post_verify_email : M DB () :=
  if negb mail_enabled then err "Cannot verify email address" else mret ().

Definition post_verify_email_token `{AccountTokens} (user_id token : string) : M DB () :=
  ou ← gets (User_find_by_uuid user_id);
  user ← some_or ou "User doesn't exist";
  match decode_verify_email token with
  | Err _ => err "Invalid claim"
  | Ok sub =>
      if negb (sub == User.uuid user) then err "Invalid claim" else
      let user := User.set_verified_at (λ _, Some now) user in
      let user := User.set_last_verifying_at (λ _, None) user in
      let user := User.set_login_verify_count (λ _, 0) user in
      ignore (User_save user)
  end.

(** ** Deletion *)

Definition post_delete_recover (ip : string) : M DB () :=
  lift (check_limit_unauthenticated ip) ;;
  if mail_enabled then mret () else err "Please contact the administrator to delete your account".

Definition post_delete_recover_token `{AccountTokens} (user_id token : string) : M DB () :=
  match decode_delete token with
  | Err _ => err "Invalid claim"
  | Ok sub =>
      ou ← gets (User_find_by_uuid user_id);
      user ← some_or ou "User doesn't exist";
      if negb (sub == User.uuid user) then err "Invalid claim" else
      User_delete user
  end.

Definition delete_account (master_password_hash otp : option string) (headers : Headers.t) : M DB () :=
  PasswordOrOtpData_validate master_password_hash otp (Headers.user headers) true ;;
  User_delete (Headers.user headers).
Definition post_delete_account := delete_account.

(** ** What anyone may ask *)

(** [revision_date], in milliseconds. *)
Definition revision_date (headers : Headers.t) : Z := User.updated_at (Headers.user headers) / 1000.

Definition NO_HINT : string := "Sorry, you have no password hint...".
Definition password_hint (ip email : string) : M DB () :=
  lift (check_limit_unauthenticated ip) ;;
  if negb password_hints_allowed || (negb mail_enabled && negb show_password_hint)
  then err "This server is not configured to provide password hints." else
  ou ← gets (User_find_by_mail email);
  match ou with
  | None => if mail_enabled then mret () else err NO_HINT
  | Some user =>
      if mail_enabled then lift (send_mail "password_hint" email) else
      match User.password_hint user with
      | Some hint => err ("Your password hint is: " +:+ hint)
      | None => err NO_HINT
      end
  end.

Definition prelogin (email : string) (d : DB) : Z * Z * option Z * option Z :=
  match User_find_by_mail email d with
  | Some user => (User.client_kdf_type user, User.client_kdf_iter user, User.client_kdf_memory user,
                  User.client_kdf_parallelism user)
  | None => (CLIENT_KDF_TYPE_DEFAULT, CLIENT_KDF_ITER_DEFAULT, None, None)
  end.
Definition post_prelogin := prelogin.
Definition prelogin_password := prelogin.

Definition kdf_upgrade (draws : AccountDraws) (pwd_hash : string) (user : User.t) : M DB User.t :=
  if User.password_iterations user <? password_iterations_setting then
    let user := User.set_password_iterations (λ _, password_iterations_setting) user in
    user ← User_set_password (draw_stamp draws) (draw_token_for draws) pwd_hash None false None user;
    saved ← answer (User_save user);
    mret (match saved with Ok user => user | Err _ => user end)
  else mret user.

Definition verify_password (draws : AccountDraws) (master_password_hash : string) (headers : Headers.t) : M DB User.t :=
  let user := Headers.user headers in
  if negb (User_check_valid_password user master_password_hash) then err "Invalid password" else
  kdf_upgrade draws master_password_hash user.

Definition update_api_key (draws : AccountDraws) (rotate : bool) (master_password_hash otp : option string) (headers : Headers.t)
    : M DB User.t :=
  let user := Headers.user headers in
  PasswordOrOtpData_validate master_password_hash otp user true ;;
  if rotate || bool_decide (User.api_key user = None) then
    saved ← answer (User_save (User.set_api_key (λ _, Some (draw_api_key draws)) user));
    match saved with Ok user => mret user | Err _ => panic "Error saving API key" end
  else mret user.
Definition post_api_key (draws : AccountDraws) := update_api_key draws false.
Definition rotate_api_key (draws : AccountDraws) := update_api_key draws true.

(** ** Devices *)

Definition get_known_device (email uuid : string) (d : DB) : bool :=
  match User_find_by_mail email d with
  | Some user => bool_decide (is_Some (Device_find_by_uuid_and_user uuid (User.uuid user) d))
  | None => false
  end.
Definition get_all_devices (headers : Headers.t) (d : DB) : list (Device.t * option AuthRequest.t) :=
  Device_find_with_auth_request_by_user (User.uuid (Headers.user headers)) d.
Definition get_device (device_id : string) (headers : Headers.t) : M DB Device.t :=
  o ← gets (Device_find_by_uuid_and_user device_id (User.uuid (Headers.user headers)));
  some_or o "No device found".

Section push.
Context `{PushRelay}.

(** [register_push_device] of api/push.rs; [new_id] is a new push id. *)
Definition register_push_device (new_id : string) (device : Device.t) : M DB Device.t :=
  if negb push_enabled || negb (Device_is_push_device device) then mret device else
  if bool_decide (Device.push_token device = None) then mret device else
  let device := Device.set_push_uuid (λ o, match o with Some i => Some i | None => Some new_id end) device in
  lift (push_register device) ;;
  saved ← answer (Device_save true device);
  match saved with
  | Ok device => mret device
  | Err e => err ("An error occurred while trying to save the (registered) device push uuid: " +:+ err_message e)
  end.

Definition unregister_push_device (push_id : option string) : M DB () :=
  if negb push_enabled then mret () else
  match push_id with None => mret () | Some id => lift (push_unregister id) end.

Definition put_device_token (draws : AccountDraws) (device_id push_token : string) (headers : Headers.t) : M DB () :=
  o ← gets (Device_find_by_uuid_and_user (Device.uuid (Headers.device headers)) (User.uuid (Headers.user headers)));
  device ← some_or o ("Error: device " +:+ device_id +:+ " should be present before a token can be assigned");
  if Device.push_token device == Some push_token then mret () else
  saved ← answer (Device_save true (Device.set_push_token (λ _, Some push_token) device));
  match saved with
  | Err e => err ("An error occurred while trying to save the device push token: " +:+ err_message e)
  | Ok device => register_push_device (draw_id draws) device ;; mret ()
  end.
Definition post_device_token := put_device_token.

Definition put_clear_device_token (device_id ip : string) : M DB () :=
  lift (check_limit_unauthenticated ip) ;;
  if negb push_enabled then mret () else
  o ← gets (Device_find_by_uuid device_id);
  match o with
  | Some device =>
      Device_clear_push_token_by_uuid device_id ;;
      unregister_push_device (Device.push_uuid device)
  | None => mret ()
  end.
Definition post_clear_device_token := put_clear_device_token.
End push.

(** ** Login requests *)

Definition post_auth_request (draws : AccountDraws) (data : AuthRequestRequest.t) (client_headers : ClientHeaders.t)
    : M DB AuthRequest.t :=
  ou ← gets (User_find_by_mail (AuthRequestRequest.email data));
  user ← some_or ou "AuthRequest doesn't exist";
  od ← gets (Device_find_by_uuid_and_user (AuthRequestRequest.device_identifier data) (User.uuid user));
  if negb (nn od (λ device, Device.atype device == ClientHeaders.device_type client_headers))
  then err "AuthRequest doesn't exist" else
  let auth_request := AuthRequest_new (draw_id draws) (User.uuid user) (AuthRequestRequest.device_identifier data)
    (ClientHeaders.device_type client_headers) (ClientHeaders.ip client_headers) (AuthRequestRequest.access_code data)
    (AuthRequestRequest.public_key data) in
  AuthRequest_save auth_request ;;
  mret auth_request.

Definition get_auth_request (auth_request_id : string) (headers : Headers.t) : M DB AuthRequest.t :=
  o ← gets (AuthRequest_find_by_uuid_and_user auth_request_id (User.uuid (Headers.user headers)));
  some_or o "AuthRequest doesn't exist".

Definition put_auth_request (auth_request_id : string) (data : AuthResponseRequest.t) (headers : Headers.t)
    : M DB AuthRequest.t :=
  o ← gets (AuthRequest_find_by_uuid_and_user auth_request_id (User.uuid (Headers.user headers)));
  auth_request ← some_or o "AuthRequest doesn't exist";
  if negb (Device.uuid (Headers.device headers) == AuthResponseRequest.device_identifier data)
  then err "AuthRequest doesn't exist" else
  if bool_decide (is_Some (AuthRequest.approved auth_request))
  then err "An authentication request with the same device already exists" else
  if AuthResponseRequest.request_approved data then
    let auth_request := AuthRequest.set_approved (λ _, Some (AuthResponseRequest.request_approved data)) auth_request in
    let auth_request := AuthRequest.set_enc_key (λ _, Some (AuthResponseRequest.key data)) auth_request in
    let auth_request := AuthRequest.set_master_password_hash (λ _, AuthResponseRequest.master_password_hash data) auth_request in
    let auth_request := AuthRequest.set_response_device_id (λ _, Some (AuthResponseRequest.device_identifier data)) auth_request in
    let auth_request := AuthRequest.set_response_date (λ _, Some now) auth_request in
    AuthRequest_save auth_request ;; mret auth_request
  else AuthRequest_delete auth_request ;; mret auth_request.

Definition get_auth_request_response (auth_request_id code : string) (client_headers : ClientHeaders.t) : M DB AuthRequest.t :=
  o ← gets (AuthRequest_find_by_uuid auth_request_id);
  auth_request ← some_or o "AuthRequest doesn't exist";
  if negb (AuthRequest.device_type auth_request == ClientHeaders.device_type client_headers)
     || negb (AuthRequest.request_ip auth_request == ClientHeaders.ip client_headers)
     || negb (AuthRequest_check_access_code auth_request code)
  then err "AuthRequest doesn't exist" else mret auth_request.

Definition get_auth_requests_pending (headers : Headers.t) (d : DB) : list AuthRequest.t :=
  where_ (λ r, bool_decide (AuthRequest.approved r = None)) (AuthRequest_find_by_user (User.uuid (Headers.user headers)) d).
Definition get_auth_requests := get_auth_requests_pending.

(** The job [purge_auth_requests]. *)
Definition purge_auth_requests : M DB () := AuthRequest_purge_expired_auth_requests.
End handlers.
