(* ===== verification/Tokens.v ===== *)
(** The tokens of a session.

    Models the claims that src/src/auth.rs signs for a login and for the API key
    of an organization, with the guard [PublicToken] of api/core/public.rs.
    Signing a token, and checking its signature and dates, is the work of the
    jsonwebtoken crate: a parameter. *)
From S2P Require Import Prelude Schema Roles Users Invariants Samples TwoFactors OneTimeCodes Sends EmergencyRows Memberships Groups Collections Guards VaultItems Ciphers Policies Organizations Emergency.
Local Open Scope Z_scope.

(** ** Tokens *)

Inductive AuthMethod := OrgApiKey | Password | Sso | UserApiKey.
#[export] Instance AuthMethod_eq_dec : EqDecision AuthMethod.
Proof. solve_decision. Defined.

Definition AuthMethod_scope (m : AuthMethod) : string :=
  match m with OrgApiKey => "api.organization" | UserApiKey => "api" | Password | Sso => "api offline_access" end.
Definition AuthMethod_scope_vec (m : AuthMethod) : list string :=
  where_ (λ w, negb (w == "")) (split_on (Ascii.ascii_of_nat 32) (AuthMethod_scope m)).
Definition AuthMethod_check_scope (m : AuthMethod) (scope : option string) : M DB string :=
  match scope with
  | None => err "Missing scope"
  | Some scope => if scope == AuthMethod_scope m then mret (AuthMethod_scope m)
                  else err ("Scope (" +:+ scope +:+ ") not supported")
  end.

Inductive TokenWrapper := AccessToken (token : string) | RefreshToken (token : string).
Module RefreshJwtClaims.
Record t := mk { nbf : Z; exp : Z; sub : AuthMethod; device_token : string; token : option TokenWrapper }.
End RefreshJwtClaims.
Module AuthTokens.
Record t := mk { refresh_claims : RefreshJwtClaims.t; access_claims : LoginJwtClaims.t }.
End AuthTokens.
Module TwoFactorRememberClaims.
Record t := mk { sub : string; user_uuid : string }.
End TwoFactorRememberClaims.
Module OrgApiKeyLoginJwtClaims.
Record t := mk { nbf : Z; exp : Z; iss : string; sub : string; client_id : string; client_sub : string; scope : list string }.
End OrgApiKeyLoginJwtClaims.

Class SessionTokens := {
  decode_refresh : string → Res RefreshJwtClaims.t;
  decode_2fa_remember : string → Res TwoFactorRememberClaims.t;
  encode_2fa_remember : TwoFactorRememberClaims.t → string;
  (** [SendTokens::as_send_id]: base64 and the uuid crate. *)
  as_send_id : string → option string;
  decode_api_org : string → Res OrgApiKeyLoginJwtClaims.t;
  (** The setting [CONFIG.domain_origin()]. *)
  domain_origin : string;
}.

(** [s.strip_prefix(p)]. *)
Definition strip_prefix (p s : string) : option string :=
  if String.prefix p s then Some (String.substring (String.length p) (String.length s) s) else None.

Section tokens.
Context `{E : Env} `{S : SessionTokens}.

(** Instants are microseconds, the dates of a token seconds. *)
Definition timestamp (t : Z) : Z := t / 1000000.
Definition HOUR : Z := 3600 * 1000000.

(** [LoginJwtClaims::new] and [LoginJwtClaims::default]. *)
Definition LoginJwtClaims_new (device : Device.t) (user : User.t) (nbf exp : Z) (scope : list string)
    (client_id : option string) : LoginJwtClaims.t :=
  {| LoginJwtClaims.nbf := nbf; LoginJwtClaims.exp := exp; LoginJwtClaims.sub := User.uuid user;
     LoginJwtClaims.name := User.name user; LoginJwtClaims.email := User.email user;
     LoginJwtClaims.email_verified := negb mail_enabled || bool_decide (is_Some (User.verified_at user));
     LoginJwtClaims.sstamp := User.security_stamp user; LoginJwtClaims.device := Device.uuid device;
     LoginJwtClaims.devicetype := DeviceType_to_string (Device.atype device);
     LoginJwtClaims.client_id := default "undefined"%string client_id; LoginJwtClaims.scope := scope |}.
Definition LoginJwtClaims_default (device : Device.t) (user : User.t) (auth_method : AuthMethod) (client_id : option string)
    : LoginJwtClaims.t :=
  LoginJwtClaims_new device user (timestamp now) (timestamp (now + 2 * HOUR)) (AuthMethod_scope_vec auth_method) client_id.

Definition AuthTokens_new (device : Device.t) (user : User.t) (sub : AuthMethod) (client_id : option string) : AuthTokens.t :=
  let access_claims := LoginJwtClaims_default device user sub client_id in
  let validity := if Device_is_mobile device then 90 * 24 * HOUR else 30 * 24 * HOUR in
  AuthTokens.mk (RefreshJwtClaims.mk (timestamp now) (timestamp (now + validity)) sub (Device.refresh_token device) None)
    access_claims.

Definition generate_organization_api_key_login_claims (org_api_key_uuid org_id : string) : OrgApiKeyLoginJwtClaims.t :=
  OrgApiKeyLoginJwtClaims.mk (timestamp now) (timestamp (now + HOUR)) (domain_origin +:+ "|api.organization") org_api_key_uuid ("organization." +:+ org_id) org_id
    ["api.organization"%string].

(** The guard [PublicToken] of api/core/public.rs: the organization whose key
    the token stands for. *)
Definition PublicToken_from_request (req : Request.t) : M DB string :=
  a ← some_or_401 (Request.authorization req) "No access token provided";
  match decode_api_org (rsplit_next "Bearer " a) with
  | Err _ => err_handler "Invalid claim"
  | Ok claims =>
      if timestamp now <? OrgApiKeyLoginJwtClaims.nbf claims then err_handler "Token issued in the future" else
      if OrgApiKeyLoginJwtClaims.exp claims <? timestamp now then err_handler "Token expired" else
      scope ← expect (head (OrgApiKeyLoginJwtClaims.scope claims)) "index out of bounds";
      if negb (domain_origin +:+ "|" +:+ scope == OrgApiKeyLoginJwtClaims.iss claims)
      then err_handler "Token not issued by this server" else
      org_id ← some_or_401 (strip_prefix "organization." (OrgApiKeyLoginJwtClaims.client_id claims)) "Malformed client_id";
      o ← gets (OrganizationApiKey_find_by_org_uuid org_id);
      org_api_key ← some_or_401 o "Invalid client_id";
      if negb (OrganizationApiKey.org_uuid org_api_key == OrgApiKeyLoginJwtClaims.client_sub claims)
      then err_handler "Token not issued for this org" else
      if negb (OrganizationApiKey.uuid org_api_key == OrgApiKeyLoginJwtClaims.sub claims)
      then err_handler "Token not issued for this client" else
      mret (OrgApiKeyLoginJwtClaims.client_sub claims)
  end.
End tokens.
