(* ===== verification/Downloads.v ===== *)
(** Files: their sizes and the links they are downloaded with.

    Models the signed links of src/src/auth.rs, [Attachment::get_url] and
    [Attachment::to_json], the route [attachments] of src/src/api/web.rs, the
    links of Sends ([download_url] and [download_send] of api/core/sends.rs),
    the guard [SendHeaders] of auth/send.rs and [get_display_size] of util.rs.
    The signature of a token is the work of the jsonwebtoken crate, the files
    are behind opendal: both are parameters. *)
From S2P Require Import Prelude Schema Roles Users Invariants Samples OneTimeCodes VaultItems Guards Tokens.
Local Open Scope Z_scope.

(** ** Tokens *)

Module BasicJwtClaims.
Record t := mk { nbf : Z; exp : Z; iss : string; sub : string }.
End BasicJwtClaims.
Module FileDownloadClaims.
Record t := mk { nbf : Z; exp : Z; iss : string; sub : string; file_id : string }.
End FileDownloadClaims.

(** What the jsonwebtoken crate reads of claims to check them. *)
Class Claims (C : Type) := { claims_nbf : C → Z; claims_exp : C → Z; claims_iss : C → string }.
#[export] Instance BasicJwtClaims_claims : Claims BasicJwtClaims.t :=
  {| claims_nbf := BasicJwtClaims.nbf; claims_exp := BasicJwtClaims.exp; claims_iss := BasicJwtClaims.iss |}.
#[export] Instance FileDownloadClaims_claims : Claims FileDownloadClaims.t :=
  {| claims_nbf := FileDownloadClaims.nbf; claims_exp := FileDownloadClaims.exp; claims_iss := FileDownloadClaims.iss |}.

(** [jsonwebtoken::encode], and [jsonwebtoken::decode] with an issuer, the
    leeway and the current second. *)
Class Jwt (C : Type) := {
  jwt_encode : C → string;
  jwt_decode : string → Z → Z → string → Res C;
}.

(** [s.replace(char::is_whitespace, "")]. *)
Fixpoint remove_whitespace (s : string) : string :=
  match s with
  | EmptyString => EmptyString
  | String a s => if is_space a then remove_whitespace s else String a (remove_whitespace s)
  end.

(** What the documentation of the crate promises: a signed token is one word,
    and it is read back within its dates by a reader with its issuer. *)
Class JwtLaws (C : Type) `{Claims C, Jwt C} := {
  jwt_one_word : ∀ c, remove_whitespace (jwt_encode c) = jwt_encode c;
  jwt_read_back : ∀ iss leeway t c,
    claims_iss c = iss → claims_nbf c ≤ t + leeway → t - leeway ≤ claims_exp c →
    jwt_decode iss leeway t (jwt_encode c) = Ok c;
}.

(** ** Files *)

(** opendal, by the kind of files and the path, and the printing of a number
    of bytes, divided by a power of 1024, with two digits. *)
Class FileStore := {
  is_fs_operator : PathType → bool;
  presign_read : PathType → string → Res string;
  (** [save_temp_file]; the flag is [overwrite]. *)
  write_file : PathType → string → bool → Res ();
  (** [NamedFile::open] below the folder. *)
  open_file : PathType → string → option string;
  format_f64_2 : Z → nat → string;
}.

(** *** Sizes *)

(** [n as f64] for a 64-bit integer: 53 bits, half to even. *)
Definition half_even (n q : Z) : Z :=
  let d := n / q in
  let r := n mod q in
  if 2 * r <? q then d else if q <? 2 * r then d + 1 else if Z.even d then d else d + 1.
Definition i64_as_f64 (n : Z) : Z :=
  let a := Z.abs n in
  let q := 2 ^ Z.max 0 (Z.log2 a - 52) in
  Z.sgn n * (half_even a q * q).

Definition UNITS : list string := ["bytes"; "KB"; "MB"; "GB"; "TB"; "PB"]%string.

(** The loop: [m / 1024 ^ k] is the current size; the divisions are exact. *)
Fixpoint display_loop (fuel : nat) (m : Z) (k : nat) : nat :=
  match fuel with
  | O => k
  | S fuel => if 1024 * 1024 ^ Z.of_nat k <? m then display_loop fuel m (S k) else k
  end.
(** Seven rounds are enough for a 64-bit size ([display_loop_ends]). *)
Definition display_unit (n : Z) : nat := display_loop 7 (i64_as_f64 n) 0.

(** [UNITS\[unit_counter\]] panics beyond the end of the table. *)
Definition get_display_size `{FileStore} (size : Z) : Res string :=
  let k := display_unit size in
  match UNITS !! k with
  | Some unit => Ok (format_f64_2 (i64_as_f64 size) k +:+ " " +:+ unit)
  | None => Err (MkError 500 "index out of bounds")
  end.

Section downloads.
Context `{E : Env} `{S : SessionTokens} `{F : FileStore} `{TB : Jwt BasicJwtClaims.t} `{TF : Jwt FileDownloadClaims.t}.

Definition encode_jwt {C} `{Jwt C} (claims : C) : string := jwt_encode claims.
Definition decode_jwt {C} `{Jwt C} (token issuer : string) : Res C :=
  match jwt_decode issuer 30 (timestamp now) (remove_whitespace token) with
  | Ok claims => Ok claims
  | Err e => Err (MkError 400 (err_message e))
  end.

Definition JWT_SEND_ISSUER : string := domain_origin +:+ "|send".
Definition JWT_FILE_DOWNLOAD_ISSUER : string := domain_origin +:+ "|file_download".
Definition decode_send (token : string) : Res BasicJwtClaims.t := decode_jwt token JWT_SEND_ISSUER.
Definition decode_file_download (token : string) : Res FileDownloadClaims.t := decode_jwt token JWT_FILE_DOWNLOAD_ISSUER.

Definition MINUTE : Z := 60 * 1000000.
Definition generate_file_download_claims (cipher_id file_id : string) : FileDownloadClaims.t :=
  FileDownloadClaims.mk (timestamp now) (timestamp (now + 5 * MINUTE)) JWT_FILE_DOWNLOAD_ISSUER cipher_id file_id.
Definition generate_send_claims (send_id file_id : string) : BasicJwtClaims.t :=
  BasicJwtClaims.mk (timestamp now) (timestamp (now + 2 * MINUTE)) JWT_SEND_ISSUER (send_id +:+ "/" +:+ file_id).
Definition generate_send_access_claims (send_id : string) : BasicJwtClaims.t :=
  BasicJwtClaims.mk (timestamp now) (timestamp (now + 2 * MINUTE)) JWT_SEND_ISSUER send_id.

(** *** Attachments *)

Definition Attachment_get_url (host : string) (a : Attachment.t) : Res string :=
  match opendal_operator_for_path_type Attachments with
  | Err e => Err e
  | Ok _ =>
      if is_fs_operator Attachments
      then let token := encode_jwt (generate_file_download_claims (Attachment.cipher_uuid a) (Attachment.id a)) in
           Ok (host +:+ "/attachments/" +:+ Attachment.cipher_uuid a +:+ "/" +:+ Attachment.id a +:+ "?token=" +:+ token)
      else presign_read Attachments (Attachment_get_file_path a)
  end.
(** [Attachment::to_json]: what is computed, the address and the name of the size. *)
Definition Attachment_to_json (host : string) (a : Attachment.t) : Res (string * string) :=
  match Attachment_get_url host a with
  | Err e => Err e
  | Ok url => match get_display_size (Attachment.file_size a) with Ok size_name => Ok (url, size_name) | Err e => Err e end
  end.

(** The route [attachments] of api/web.rs. *)
Definition get_attachment_file (cipher_id file_id token : string) : option string :=
  match decode_file_download token with
  | Err _ => None
  | Ok claims =>
      if negb (FileDownloadClaims.sub claims == cipher_id) || negb (FileDownloadClaims.file_id claims == file_id) then None
      else open_file Attachments (cipher_id +:+ "/" +:+ file_id)
  end.

(** *** Sends *)

Definition download_url (host send_id file_id : string) : Res string :=
  match opendal_operator_for_path_type Sends with
  | Err e => Err e
  | Ok _ =>
      if is_fs_operator Sends
      then let token := encode_jwt (generate_send_claims send_id file_id) in
           Ok (host +:+ "/api/sends/" +:+ send_id +:+ "/" +:+ file_id +:+ "?t=" +:+ token)
      else presign_read Sends (send_id +:+ "/" +:+ file_id)
  end.
Definition download_send (send_id file_id t : string) : option string :=
  match decode_send t with
  | Ok claims =>
      if BasicJwtClaims.sub claims == send_id +:+ "/" +:+ file_id
      then open_file Sends (send_id +:+ "/" +:+ file_id) else None
  | Err _ => None
  end.

(** The guard [SendHeaders]: the Send that the token names. *)
Definition SendHeaders_from_request (req : Request.t) : M DB string :=
  a ← some_or_401 (Request.authorization req) "No access token provided";
  match decode_send (rsplit_next "Bearer " a) with
  | Err _ => err_handler "Invalid claim"
  | Ok claims => mret (BasicJwtClaims.sub claims)
  end.
End downloads.

(** ** The size of a file *)

Lemma display_loop_stop m fuel k :
  m ≤ 1024 ^ Z.of_nat (S k + fuel) → 1024 * 1024 ^ Z.of_nat (display_loop fuel m k) < m → False.
Proof.
  revert k. induction fuel as [|fuel IH]; intros k Hm; simpl.
  - rewrite Nat.add_0_r, Nat2Z.inj_succ, Z.pow_succ_r in Hm by lia. lia.
  - destruct (Z.ltb_spec (1024 * 1024 ^ Z.of_nat k) m) as [Hlt|Hge]; [|lia].
    apply IH. by replace (S (S k) + fuel)%nat with (S k + S fuel)%nat by lia.
Qed.

(** Rounding stays within a factor of two of a power of two. *)
Lemma half_even_bounds n q d : 0 < q → 0 ≤ n → n ≤ d * q → half_even n q ≤ d.
Proof.
  intros Hq Hn Hd. unfold half_even. pose proof (Z.div_mod n q ltac:(lia)) as Hdm.
  pose proof (Z.mod_pos_bound n q Hq) as Hr. set (x := n / q) in *. set (r := n mod q) in *.
  assert (x ≤ d) by nia. assert (x = d → r = 0) by nia.
  destruct (Z.ltb_spec (2 * r) q); [lia|]. destruct (Z.ltb_spec q (2 * r)); [|destruct (Z.even x)]; nia.
Qed.

Lemma f64_below n k : 52 ≤ k → 0 ≤ n ≤ 2 ^ k → i64_as_f64 n ≤ 2 ^ k.
Proof.
  intros Hk [H0 Hn]. unfold i64_as_f64. rewrite Z.abs_eq by done.
  destruct (Z.eq_dec n 0) as [->|Hpos]; [simpl; apply Z.pow_nonneg; lia|]. rewrite Z.sgn_pos, Z.mul_1_l by lia.
  set (e := Z.max 0 (Z.log2 n - 52)). assert (He : 0 ≤ e ≤ k).
  { pose proof (Z.log2_le_mono n (2 ^ k) Hn) as Hl. rewrite Z.log2_pow2 in Hl by lia. lia. }
  assert (2 ^ k = 2 ^ (k - e) * 2 ^ e) as -> by (rewrite <-Z.pow_add_r by lia; f_equal; lia).
  apply Z.mul_le_mono_nonneg_r; [apply Z.pow_nonneg; lia|]. apply half_even_bounds; [apply Z.pow_pos_nonneg; lia|done|].
  rewrite <-Z.pow_add_r by lia. by replace (k - e + e) with k by lia.
Qed.

(** The loop ends with a size of at most 1024 units. *)
Lemma display_loop_ends n : 0 ≤ n < 2 ^ 63 → i64_as_f64 n ≤ 1024 * 1024 ^ Z.of_nat (display_unit n).
Proof.
  intros Hn. destruct (Z.le_gt_cases (i64_as_f64 n) (1024 * 1024 ^ Z.of_nat (display_unit n))) as [|Hgt]; [done|exfalso].
  eapply display_loop_stop; [|exact Hgt]. pose proof (f64_below n 63 ltac:(lia) ltac:(lia)). simpl Z.of_nat. lia.
Qed.

Lemma display_loop_six m : (6 ≤ display_loop 7 m 0)%nat ↔ 2 ^ 60 < m.
Proof.
  cbn [display_loop].
  repeat match goal with |- context [?a <? ?b] => destruct (Z.ltb_spec a b); simpl Z.of_nat in *; try lia end.
Qed.

Lemma f64_above n : 0 ≤ n < 2 ^ 63 → 2 ^ 60 < i64_as_f64 n ↔ 2 ^ 60 + 128 < n.
Proof.
  intros Hn. destruct (Z.le_gt_cases n (2 ^ 60)) as [Hle|Hgt].
  { pose proof (f64_below n 60 ltac:(lia) ltac:(lia)). lia. }
  unfold i64_as_f64. rewrite Z.abs_eq, Z.sgn_pos, Z.mul_1_l by lia.
  assert (Z.log2 n = 60 ∨ Z.log2 n = 61 ∨ Z.log2 n = 62) as Hl.
  { pose proof (Z.log2_le_mono (2 ^ 60) n ltac:(lia)) as H1. rewrite Z.log2_pow2 in H1 by lia.
    pose proof (Z.log2_lt_pow2 n 63 ltac:(lia)). lia. }
  destruct (Z.log2_spec n ltac:(lia)) as [Hb1 Hb2].
  assert (Hq : ∀ q, 0 < q → half_even n q * q = n - n mod q ∨ half_even n q * q = n - n mod q + q).
  { intros q Hpos. unfold half_even. pose proof (Z.div_mod n q ltac:(lia)). repeat case_match; lia. }
  destruct Hl as [Hl|[Hl|Hl]]; rewrite Hl in *; simpl Z.max.
  - clear Hq. unfold half_even. change (2 ^ (60 - 52)) with 256. replace (2 ^ Z.max 0 (60 - 52)) with 256 by done.
    pose proof (Z.div_mod n 256 ltac:(lia)) as Hdm. pose proof (Z.mod_pos_bound n 256 ltac:(lia)).
    set (x := n / 256) in *. set (r := n mod 256) in *. assert (2 ^ 60 = 2 ^ 52 * 256) as H60 by done.
    destruct (Z.ltb_spec (2 * r) 256); [lia|]. destruct (Z.ltb_spec 256 (2 * r)); [lia|].
    destruct (Z.even x) eqn:Hev; [lia|]. assert (x ≠ 2 ^ 52) by (intros Hx; by rewrite Hx in Hev). lia.
  - change (2 ^ Z.max 0 (61 - 52)) with 512. pose proof (Z.mod_pos_bound n 512 ltac:(lia)). destruct (Hq 512 ltac:(lia)); lia.
  - change (2 ^ Z.max 0 (62 - 52)) with 1024. pose proof (Z.mod_pos_bound n 1024 ltac:(lia)). destruct (Hq 1024 ltac:(lia)); lia.
Qed.

(** The name of a size is there up to 1024 petabytes, rounded to a float;
    beyond, the table of units ends and the program panics. *)
Lemma display_size_ok_iff `{FileStore} n :
  0 ≤ n < 2 ^ 63 → is_ok (get_display_size n) = (n <=? 2 ^ 60 + 128).
Proof.
  intros Hn. unfold get_display_size. pose proof (display_loop_six (i64_as_f64 n)) as H6. rewrite f64_above in H6 by done.
  fold (display_unit n) in H6. destruct (Z.leb_spec n (2 ^ 60 + 128)) as [Hle|Hgt].
  - destruct (lookup_lt_is_Some_2 UNITS (display_unit n)) as [u ->]; [simpl; lia|done].
  - rewrite (proj2 (lookup_ge_None UNITS (display_unit n))); [done|]. simpl. lia.
Qed.

(** ** Links *)

Fixpoint slash_free (s : string) : bool :=
  match s with EmptyString => true | String a s => negb (a == Ascii.ascii_of_nat 47) && slash_free s end.

Lemma slash_split s f s' f' :
  slash_free s = true → slash_free s' = true → s +:+ "/" +:+ f = s' +:+ "/" +:+ f' → s = s' ∧ f = f'.
Proof.
  revert s'. induction s as [|a s IH]; intros [|b s']; simpl.
  - intros _ _ [= Heq]. done.
  - intros _ Hb [= <- _]. bools. done.
  - intros Ha _ [= -> _]. bools. done.
  - intros Ha Hb [= -> Heq]. bools. by destruct (IH s') as [-> ->].
Qed.
Lemma slash_in_link s f : slash_free (s +:+ "/" +:+ f) = false.
Proof. induction s as [|a s IH]; simpl; [done|]. by rewrite IH, andb_false_r. Qed.

Section links.
Context `{E : Env} `{S : SessionTokens} `{F : FileStore}.
Context `{TB : Jwt BasicJwtClaims.t} `{TF : Jwt FileDownloadClaims.t}.
Context `{LB : !JwtLaws BasicJwtClaims.t} `{LF : !JwtLaws FileDownloadClaims.t}.

(** A token is read back from the moment it is signed until it expires. *)
Lemma decode_signed {C} `{JwtLaws C} (E' : Env) (c : C) iss d :
  claims_iss c = iss → claims_nbf c = timestamp (@now E) → claims_exp c = timestamp (@now E + d) →
  @now E ≤ @now E' ≤ @now E + d →
  decode_jwt (E:=E') (encode_jwt c) iss = Ok c.
Proof.
  intros Hi Hn He [Hlo Hhi]. unfold decode_jwt, encode_jwt. rewrite jwt_one_word, jwt_read_back; [done|done|..].
  - rewrite Hn. unfold timestamp. pose proof (Z.div_le_mono _ _ 1000000 ltac:(lia) Hlo). lia.
  - rewrite He. unfold timestamp. pose proof (Z.div_le_mono _ _ 1000000 ltac:(lia) Hhi). lia.
Qed.

Lemma decode_send_link (E' : Env) s f :
  @now E ≤ @now E' ≤ @now E + 2 * MINUTE →
  decode_send (E:=E') (encode_jwt (generate_send_claims (E:=E) s f)) = Ok (generate_send_claims (E:=E) s f).
Proof. intros. by apply (decode_signed E' _ _ (2 * MINUTE)). Qed.
Lemma decode_send_access (E' : Env) s :
  @now E ≤ @now E' ≤ @now E + 2 * MINUTE →
  decode_send (E:=E') (encode_jwt (generate_send_access_claims (E:=E) s)) = Ok (generate_send_access_claims (E:=E) s).
Proof. intros. by apply (decode_signed E' _ _ (2 * MINUTE)). Qed.
Lemma decode_file_link (E' : Env) c f :
  @now E ≤ @now E' ≤ @now E + 5 * MINUTE →
  decode_file_download (E:=E') (encode_jwt (generate_file_download_claims (E:=E) c f)) = Ok (generate_file_download_claims (E:=E) c f).
Proof. intros. by apply (decode_signed E' _ _ (5 * MINUTE)). Qed.

(** C27. A link opens the file it was made for and no other. With files on
    disk, the link [Attachment_get_url] makes for an attachment names its
    cipher and its id, and for the five minutes it lasts the token in it makes
    the route open that file, and no file for any other path; so does, for two
    minutes, the link [download_url] makes for a file of a Send. The two
    tokens of Sends, which have the same issuer, do not stand for each other:
    an access token downloads no file, and the token of a link names no Send.
    Ids of Sends have no slash in them: their parser refuses it. *)
Theorem links_open_one_file (E' : Env) (host s f urla urls : string) (a : Attachment.t)
    (Hfa : is_fs_operator Attachments = true) (Hfs : is_fs_operator Sends = true) (Hs : slash_free s = true)
    (Ha : Attachment_get_url (E:=E) host a = Ok urla) (Hd : download_url (E:=E) host s f = Ok urls)
    (Ht : @now E ≤ @now E' ≤ @now E + 2 * MINUTE) :
  (∃ token, urla = host +:+ "/attachments/" +:+ Attachment.cipher_uuid a +:+ "/" +:+ Attachment.id a +:+ "?token=" +:+ token
    ∧ ∀ E'' c' f', @now E ≤ @now E'' ≤ @now E + 5 * MINUTE →
        get_attachment_file (E:=E'') c' f' token
        = if bool_decide (c' = Attachment.cipher_uuid a ∧ f' = Attachment.id a)
          then open_file Attachments (Attachment_get_file_path a) else None)
  ∧ (∃ token, urls = host +:+ "/api/sends/" +:+ s +:+ "/" +:+ f +:+ "?t=" +:+ token
      ∧ (∀ s' f', slash_free s' = true →
           download_send (E:=E') s' f' token
           = if bool_decide (s' = s ∧ f' = f) then open_file Sends (s +:+ "/" +:+ f) else None)
      ∧ ∀ req d id d', rsplit_next "Bearer " (default ""%string (Request.authorization req)) = token →
           SendHeaders_from_request (E:=E') req d = (Ok id, d') → slash_free id = false)
  ∧ ∀ s' f', download_send (E:=E') s' f' (encode_jwt (generate_send_access_claims (E:=E) s)) = None.
Proof.
  split_and!.
  - unfold Attachment_get_url in Ha. destruct (opendal_operator_for_path_type _); [|done]. rewrite Hfa in Ha.
    eexists. split; [by injection Ha as <-|]. intros E'' c' f' Ht'. unfold get_attachment_file.
    rewrite decode_file_link by done. simpl. repeat case_bool_decide; naive_solver.
  - unfold download_url in Hd. destruct (opendal_operator_for_path_type _); [|done]. rewrite Hfs in Hd.
    eexists. split; [by injection Hd as <-|]. split.
    + intros s' f' Hs'. unfold download_send. rewrite decode_send_link by done. simpl. case_bool_decide as Heq.
      * apply slash_split in Heq as [-> ->]; [|done..]. by rewrite bool_decide_eq_true_2.
      * rewrite bool_decide_eq_false_2; [done|]. by intros [-> ->].
    + intros req d id d' Htok Hrun. unfold SendHeaders_from_request in Hrun.
      destruct (Request.authorization req) as [x|]; [|done]. simpl in Htok.
      cbn -[decode_send rsplit_next] in Hrun. rewrite run_ret, Htok, decode_send_link in Hrun by done.
      injection Hrun as <- <-. apply slash_in_link.
  - intros s' f'. unfold download_send. rewrite decode_send_access by done. simpl.
    rewrite bool_decide_eq_false_2; [done|]. intros ->. by rewrite slash_in_link in Hs.
Qed.
End links.

(** ** A sample of the crates

    A token is the list of its claims in binary; its reader checks the issuer
    and the dates. Files have their path as content. *)
Module SampleFiles.
Import SampleCodecs.
#[export] Instance BasicJwtClaims_eq_dec : EqDecision BasicJwtClaims.t.
Proof. solve_decision. Defined.
#[export] Instance FileDownloadClaims_eq_dec : EqDecision FileDownloadClaims.t.
Proof. solve_decision. Defined.
#[export] Instance BasicJwtClaims_countable : Countable BasicJwtClaims.t.
Proof.
  refine (inj_countable' (λ c, (BasicJwtClaims.nbf c, BasicJwtClaims.exp c, BasicJwtClaims.iss c, BasicJwtClaims.sub c))
    (λ '(a, b, c, d), BasicJwtClaims.mk a b c d) _). by intros [].
Defined.
#[export] Instance FileDownloadClaims_countable : Countable FileDownloadClaims.t.
Proof.
  refine (inj_countable' (λ c, (FileDownloadClaims.nbf c, FileDownloadClaims.exp c, FileDownloadClaims.iss c,
      FileDownloadClaims.sub c, FileDownloadClaims.file_id c))
    (λ '(a, b, c, d, e), FileDownloadClaims.mk a b c d e) _). by intros [].
Defined.

#[export] Instance jwt {C} `{Countable C, Claims C} : Jwt C := {|
  jwt_encode c := bits (encode c);
  jwt_decode iss leeway t s :=
    match decode (unbits s) with
    | Some c => if (claims_iss c == iss) && (claims_nbf c <=? t + leeway) && (t - leeway <=? claims_exp c)
                then Ok c else Err (MkError 400 "Token is invalid")
    | None => Err (MkError 400 "Token is invalid")
    end
|}.
Lemma bits_one_word p : remove_whitespace (bits p) = bits p.
Proof. induction p as [p IH|p IH|]; simpl; by rewrite ?IH. Qed.
#[export] Instance jwt_laws {C} `{Countable C, Claims C} : JwtLaws C.
Proof.
  split; [intros c; apply bits_one_word|]. intros iss leeway t c Hi Hn He. simpl. rewrite unbits_bits, decode_encode.
  rewrite bool_decide_eq_true_2 by done. apply Z.leb_le in Hn, He. by rewrite Hn, He.
Qed.
#[export] Instance files : FileStore :=
  {| is_fs_operator := λ _, true; presign_read := λ _ p, Ok p; write_file := λ _ _ _, Ok ();
     open_file := λ _ p, Some p; format_f64_2 := λ _ _, "1.00"%string |}.
#[export] Instance sessions : SessionTokens := {|
  decode_refresh := λ _, Err (MkError 400 ""); decode_2fa_remember := λ _, Err (MkError 400 "");
  encode_2fa_remember := λ _, ""%string; as_send_id := λ s, Some s; decode_api_org := λ _, Err (MkError 400 "");
  domain_origin := "https://v"%string |}.
End SampleFiles.

Import SampleFiles.
Lemma links_open_one_file_witness :
  is_ok (Attachment_get_url (E:=Sample.env) "https://v" (Attachment.mk "f1" "k1" "n" 10 None)) = true
  ∧ (∃ token, ∀ c' f', get_attachment_file (E:=Sample.env) c' f' token
       = if bool_decide (c' = "k1" ∧ f' = "f1")%string then Some "k1/f1"%string else None)
  ∧ download_send (E:=Sample.env) "s1" "f1" (encode_jwt (generate_send_access_claims (E:=Sample.env) "s1")) = None.
Proof.
  destruct (links_open_one_file (E:=Sample.env) (F:=files) Sample.env "https://v" "s1" "f1" _ _ (Attachment.mk "f1" "k1" "n" 10 None)
    eq_refl eq_refl eq_refl eq_refl eq_refl ltac:(unfold MINUTE; lia)) as [(token & _ & Hopen) [_ Haccess]].
  split; [done|]. split; [|apply Haccess].
  exists token. intros c' f'. apply (Hopen Sample.env). unfold MINUTE. lia.
Defined.
