(* ===== verification/Administration.v ===== *)
(** The pages of the administrator.

    Models the login of src/src/api/admin.rs with its cookie, the guard
    [AdminToken], the listings of accounts and organizations, and [User::to_json]
    with the queries that only these pages need. The requests that change
    accounts, members and settings are in the components they change. Templates,
    diagnostics and backups are left out. Argon2 and the rate limit are
    parameters; so are the signatures of tokens, with the laws of [Downloads]
    and two more: an expired token and one of another issuer are refused. *)
From S2P Require Import Prelude Schema Roles Users Json Invariants Samples Memberships Groups Collections VaultItems Ciphers Guards TwoFactors OneTimeCodes EmergencyRows Organizations Emergency OrgJson EventLog Members Accounts Tokens Downloads.
Local Open Scope Z_scope.

(** ** Parameters *)

Class AdminConfig := {
  admin_token : option string;
  disable_admin_token : bool;
  (** Minutes. *)
  admin_session_lifetime : Z;
  domain_path : string;
  ip_header : string;
  (** [PasswordHash::new] and [verify_password]; [None] is a hash that cannot
      be read. *)
  argon2_verify : string → string → option bool;
  check_limit_admin : string → Res ();
  (** [format_naive_datetime_local]. *)
  format_local : Z → string;
}.

(** ** Headers of a request *)

(** The headers that the functions below read, by name. *)
Definition HeaderMap : Type := string → option string.

(** [IpHeader], [Secure] and [Host]; [tls] is whether ROCKET_TLS is set. *)
Definition IpHeader_from_request `{AdminConfig} (headers : HeaderMap) : option string :=
  if headers ip_header then Some ip_header else
  if headers "X-Client-IP"%string then Some "X-Client-IP"%string else
  if headers "X-Real-IP"%string then Some "X-Real-IP"%string else
  if headers "X-Forwarded-For"%string then Some "X-Forwarded-For"%string else None.
Definition Secure_from_request (tls : bool) (headers : HeaderMap) : bool :=
  default (if tls then "https" else "http")%string (headers "X-Forwarded-Proto"%string) == "https"%string.
Definition Host_from_request (domain_set tls : bool) (domain : string) (headers : HeaderMap) : string :=
  if domain_set then domain else
  match headers "Referer"%string with
  | Some referer => referer
  | None =>
      let protocol := default (if tls then "https" else "http")%string (headers "X-Forwarded-Proto"%string) in
      let host := match headers "X-Forwarded-Host"%string with Some host => host | None => default ""%string (headers "Host"%string) end in
      protocol +:+ "://" +:+ host
  end.

(** ** Login *)

Module AdminCookie.
Record t := mk { value : string; path : string; max_age : Z; same_site_strict : bool; http_only : bool; secure : bool }.
End AdminCookie.
(** The cookie [COOKIE_NAME] of a client. *)
Definition Jar : Type := option AdminCookie.t.

Module LoginForm.
Record t := mk { token : string; redirect : option string }.
End LoginForm.

(** What is answered: a redirect, the page with the settings, or the login page
    with a status and a message. *)
Inductive AdminResponse := RedirectTo (url : string) | SettingsPage | LoginPage (status : Z) (msg redirect : option string).

(** [Outcome<AdminToken, _>]. *)
Inductive Outcome := Success (ip : string) | Forward | Failure (msg : string).

Section login.
Context `{E : Env} `{S : SessionTokens} `{TB : Jwt BasicJwtClaims.t} `{CH : Chrono} `{AC : AdminConfig}.

Definition COOKIE_NAME : string := "VW_ADMIN".
Definition ADMIN_PATH : string := "/admin".
Definition admin_path : string := domain_path +:+ ADMIN_PATH.
Definition admin_url : string := domain_origin +:+ admin_path.

Definition JWT_ADMIN_ISSUER : string := domain_origin +:+ "|admin".
Definition decode_admin (token : string) : Res BasicJwtClaims.t := decode_jwt token JWT_ADMIN_ISSUER.

(** [TimeDelta::try_minutes(..).unwrap()], and the sum with the current time,
    panic beyond their ranges. *)
Definition generate_admin_claims : M Jar BasicJwtClaims.t :=
  let exp := now + admin_session_lifetime * MINUTE in
  if (Z.abs (admin_session_lifetime * 60) <=? (2 ^ 63 - 1) / 1000) && (naive_min <=? exp) && (exp <=? naive_max)
  then mret (BasicJwtClaims.mk (timestamp now) (timestamp exp) JWT_ADMIN_ISSUER "admin_panel")
  else throw (MkError 500 "called `Option::unwrap()` on a `None` value").

Definition validate_token (token : string) : bool :=
  match admin_token with
  | None => false
  | Some t => if String.prefix "$argon2" t then default false (argon2_verify t (trim token)) else ct_eq (trim t) (trim token)
  end.

Definition render_admin_login (status : Z) (msg redirect : option string) : AdminResponse :=
  LoginPage status ((λ m, "Error: " +:+ m) <$> msg) redirect.

Definition post_admin_login (data : LoginForm.t) (ip : string) (https : bool) : M Jar AdminResponse :=
  let redirect := LoginForm.redirect data in
  match check_limit_admin ip with
  | Err _ => mret (render_admin_login 429 (Some "Too many requests, try again later."%string) redirect)
  | Ok _ =>
      if validate_token (LoginForm.token data) then
        claims ← generate_admin_claims;
        let jwt := encode_jwt claims in
        modify (λ _, Some (AdminCookie.mk jwt admin_path admin_session_lifetime true true https)) ;;
        mret (match redirect with Some redirect => RedirectTo (admin_path +:+ redirect) | None => SettingsPage end)
      else mret (render_admin_login 401 (Some "Invalid admin token, please try again."%string) redirect)
  end.

Definition logout : M Jar AdminResponse := modify (λ _, None) ;; mret (RedirectTo admin_path).

(** [requested_page]: the segments of the path below the mount point. *)
Definition AdminToken_from_request (ip requested_page : string) : M Jar Outcome :=
  if disable_admin_token then mret (Success ip) else
  cookie ← gets id;
  match cookie with
  | None => mret (if requested_page == "" then Forward else Failure "Unauthorized")%string
  | Some c =>
      match decode_admin (AdminCookie.value c) with
      | Ok _ => mret (Success ip)
      | Err _ => modify (λ _, None) ;; mret (Failure "Session expired")
      end
  end.

(** The start page: [admin_page], or [admin_page_login] when the guard forwards;
    a failed guard is caught by [admin_login]. *)
Definition get_admin (ip requested_page : string) (json : bool) : M Jar AdminResponse :=
  outcome ← AdminToken_from_request ip requested_page;
  match outcome with
  | Success _ => mret SettingsPage
  | Forward => mret (render_admin_login 200 None None)
  | Failure _ => if json then err_code "Authorization failed." 401 else mret (render_admin_login 401 None (Some requested_page))
  end.
End login.

(** ** Listings *)

Section pages.
Context `{E : Env} `{OC : OrgConfig} `{J : JsonText} `{AC : AdminConfig} `{FS : FileStore}.

(** [UserStatus]. *)
Inductive UserStatus := UserEnabled | UserInvited | UserDisabled.
Definition UserStatus_as_i32 (s : UserStatus) : Z := match s with UserEnabled => 0 | UserInvited => 1 | UserDisabled => 2 end.

Definition account_keys_json (u : User.t) : Json :=
  match User.private_key u with
  | Some key =>
      json_object [("publicKeyEncryptionKeyPair",
                    json_object [("wrappedPrivateKey", JsString key); ("publicKey", json_string_opt (User.public_key u));
                      ("signedPublicKey", JsNull); ("object", JsString "publicKeyEncryptionKeyPair")]);
        ("securityState", JsNull); ("signatureKeyPair", JsNull); ("object", JsString "privateKeys")]%string
  | None => JsNull
  end.
Definition User_to_json (u : User.t) : M DB Json :=
  memberships ← gets (Membership_find_confirmed_by_user (User.uuid u));
  orgs_json ← traverse memberships Membership_to_json;
  factors ← gets (TwoFactor_find_by_user (User.uuid u));
  let status := if bool_decide (User.password_hash u = []) then UserInvited else UserEnabled in
  mret (json_object [("_status", json_number (UserStatus_as_i32 status)); ("accountKeys", account_keys_json u);
    ("id", JsString (User.uuid u)); ("name", JsString (User.name u)); ("email", JsString (User.email u));
    ("emailVerified", JsBool (negb mail_enabled || bool_decide (is_Some (User.verified_at u)))); ("premium", yes);
    ("premiumFromOrganization", no); ("culture", JsString "en-US"); ("twoFactorEnabled", JsBool (nonempty factors));
    ("key", JsString (User.akey u)); ("privateKey", json_string_opt (User.private_key u));
    ("securityStamp", JsString (User.security_stamp u)); ("organizations", JsArray orgs_json); ("providers", JsArray []);
    ("providerOrganizations", JsArray []); ("forcePasswordReset", no); ("avatarColor", json_string_opt (User.avatar_color u));
    ("usesKeyConnector", no); ("creationDate", JsString (format_date (User.created_at u))); ("object", JsString "profile")]%string).

(** *** Queries *)

Definition User_get_all (d : DB) : list (User.t * option SsoUser.t) :=
  left_join (rows (users d)) (rows (sso_users d)) (λ u s, SsoUser.user_uuid s == User.uuid u).
Definition later_device (a b : Device.t) : Prop := Device.updated_at b ≤ Device.updated_at a.
#[export] Instance later_device_dec : RelDecision later_device := λ a b, Z_le_dec _ _.
Definition Device_find_latest_active_by_user (user_uuid : string) (d : DB) : option Device.t :=
  first (merge_sort later_device (where_ (λ v, Device.user_uuid v == user_uuid) (rows (devices d)))).
Definition User_last_active (u : User.t) (d : DB) : option Z := Device.updated_at <$> Device_find_latest_active_by_user (User.uuid u) d.
Definition Organization_get_all (d : DB) : list Organization.t := rows (organizations d).
Definition Cipher_count_by_org (org_uuid : string) (d : DB) : Z :=
  count (where_ (λ c, Cipher.organization_uuid c == Some org_uuid) (rows (ciphers d))).
Definition Group_count_by_org (org_uuid : string) (d : DB) : Z :=
  count (where_ (λ g, Group.organizations_uuid g == org_uuid) (rows (groups d))).

(** *** Pages *)

Definition user_with_dates (u : User.t) : M DB Json :=
  usr ← User_to_json u;
  mret (Json_set "createdAt" (JsString (format_local (User.created_at u))) (Json_set "userEnabled" (JsBool (User.enabled u)) usr)).
Definition get_users_json : M DB Json :=
  all ← gets User_get_all;
  l ← traverse all (λ '(u, _),
    usr ← user_with_dates u;
    last ← gets (User_last_active u);
    mret (Json_set "lastActive" (json_opt (λ t, JsString (format_local t)) last) usr));
  mret (JsArray l).
Definition get_user_by_mail_json (mail : string) : M DB Json :=
  o ← gets (User_find_by_mail mail);
  match o with Some u => user_with_dates u | None => err_code "User doesn't exist" 404 end.
Definition get_user_json (user_id : string) : M DB Json := u ← get_user_or_404 user_id; user_with_dates u.

(** The data of the page; rendering the template is left out. *)
Definition users_overview : M DB Json :=
  all ← gets User_get_all;
  l ← traverse all (λ '(u, sso_u),
    usr ← User_to_json u;
    cipher_count ← gets (Cipher_count_owned_by_user (User.uuid u));
    attachment_count ← gets (Attachment_count_by_user (User.uuid u));
    total ← gets (Attachment_size_by_user (User.uuid u));
    attachment_size ← lift (get_display_size total);
    last ← gets (User_last_active u);
    let set k x j := Json_set k x j in
    mret (set "sso_identifier" (JsString (match sso_u with Some s => SsoUser.identifier s | None => "" end))
      (set "last_active" (JsString (match last with Some t => format_local t | None => "Never" end))
      (set "created_at" (JsString (format_local (User.created_at u)))
      (set "user_enabled" (JsBool (User.enabled u))
      (set "attachment_size" (JsString attachment_size)
      (set "attachment_count" (json_number attachment_count)
      (set "cipher_count" (json_number cipher_count) usr)))))))%string);
  mret (JsArray l).

Definition organization_overview (events : string → Z) (o : Organization.t) : M DB Json :=
  let id := Organization.uuid o in
  d ← gets (λ d : DB, d);
  attachment_size ← lift (get_display_size (Attachment_size_by_org id d));
  let set k x j := Json_set k x j in
  mret (set "attachment_size" (JsString attachment_size)
    (set "attachment_count" (json_number (Attachment_count_by_org id d))
    (set "event_count" (json_number (events id))
    (set "group_count" (json_number (Group_count_by_org id d))
    (set "collection_count" (json_number (Collection_count_by_org id d))
    (set "cipher_count" (json_number (Cipher_count_by_org id d))
    (set "user_count" (json_number (Membership_count_by_org id d)) (Organization_to_json o))))))))%string.
Definition organizations_overview : M EventDB Json := λ s,
  match traverse (Organization_get_all (vault s)) (organization_overview (λ id, Event_count_by_org id s)) (vault s) with
  | (Ok l, _) => (Ok (JsArray l), s)
  | (Err e, _) => (Err e, s)
  end.
End pages.

(** ** Sessions *)

(** What the documentation of the crate promises on refusals. *)
Class JwtRefusals (C : Type) `{Claims C, Jwt C} : Prop := {
  jwt_expired : ∀ iss leeway t c, claims_exp c < t - leeway → is_ok (jwt_decode iss leeway t (jwt_encode c)) = false;
  jwt_other_issuer : ∀ iss leeway t c, claims_iss c ≠ iss → is_ok (jwt_decode iss leeway t (jwt_encode c)) = false;
}.

(** What a browser does with the pages of the administrator. *)
Inductive AdminStep := AdmLogin (data : LoginForm.t) (ip : string) (https : bool) | AdmLogout | AdmVisit (ip page : string).

Section sessions.
Context `{S : SessionTokens} `{TB : Jwt BasicJwtClaims.t} `{!JwtLaws BasicJwtClaims.t} `{!JwtRefusals BasicJwtClaims.t}.
Context `{CH : Chrono} `{AC : AdminConfig}.

Definition admin_step (E : Env) (a : AdminStep) (jar : Jar) : Jar :=
  match a with
  | AdmLogin data ip https => (post_admin_login (E := E) data ip https jar).2
  | AdmLogout => (logout jar).2
  | AdmVisit ip page => (AdminToken_from_request (E := E) ip page jar).2
  end.
Definition admin_steps (l : list (Env * AdminStep)) (jar : Jar) : Jar := foldl (λ jar '(E, a), admin_step E a jar) jar l.

(** The end of a session that starts at [E0]. *)
Definition session_end (E0 : Env) : Z := timestamp (now (Env := E0) + admin_session_lifetime * MINUTE).

(** A login with the right token in the history, and no logout after it. *)
Definition logged_in (l : list (Env * AdminStep)) (E0 : Env) : Prop :=
  ∃ l1 data ip https l2, l = l1 ++ (E0, AdmLogin data ip https) :: l2
    ∧ validate_token (LoginForm.token data) = true ∧ check_limit_admin ip = Ok () ∧ ∀ E, (E, AdmLogout) ∉ l2.

Lemma login_jar E0 data ip https jar :
  (post_admin_login (E := E0) data ip https jar).2 = jar
  ∨ validate_token (LoginForm.token data) = true ∧ check_limit_admin ip = Ok ()
    ∧ ∃ c, (post_admin_login (E := E0) data ip https jar).2 = Some c
        ∧ AdminCookie.value c = encode_jwt (BasicJwtClaims.mk (timestamp (now (Env := E0))) (session_end E0) JWT_ADMIN_ISSUER "admin_panel").
Proof.
  unfold post_admin_login. destruct (check_limit_admin ip) as [[]|]; [|by left]. destruct (validate_token _); [|by left].
  unfold generate_admin_claims. cbv zeta. destruct (_ && _ && _); [|by left]. right. do 2 (split; [done|]). cbn. by eexists.
Qed.

Definition from_login (l : list (Env * AdminStep)) (jar : Jar) : Prop :=
  ∀ c, jar = Some c → ∃ E0, logged_in l E0
    ∧ AdminCookie.value c = encode_jwt (BasicJwtClaims.mk (timestamp (now (Env := E0))) (session_end E0) JWT_ADMIN_ISSUER "admin_panel").

Lemma logged_in_more l E0 E a : a ≠ AdmLogout → logged_in l E0 → logged_in (l ++ [(E, a)]) E0.
Proof.
  intros Ha (l1 & data & ip & https & l2 & -> & Hv & Hl & Hn). exists l1, data, ip, https, (l2 ++ [(E, a)]).
  rewrite <-app_assoc. split_and!; [done..|]. intros E'. rewrite elem_of_app, list_elem_of_singleton. naive_solver.
Qed.
Lemma from_login_more l E a jar : a ≠ AdmLogout → from_login l jar → from_login (l ++ [(E, a)]) jar.
Proof. intros Ha Hj c Hc. destruct (Hj c Hc) as (E0 & Hl & Hv). exists E0. split; [by apply logged_in_more|done]. Qed.

Lemma jar_from_login l : from_login l (admin_steps l None).
Proof.
  induction l as [|[E a] l IH] using rev_ind; [done|]. unfold admin_steps. rewrite foldl_app. cbn [foldl]. fold (admin_steps l None).
  set (jar := admin_steps l None) in *. destruct a as [data ip https| |ip page]; cbn [admin_step].
  - destruct (login_jar E data ip https jar) as [->|(Hv & Hl & c & -> & Hc)]; [by apply from_login_more|].
    intros c' [= <-]. exists E. split; [|done]. exists l, data, ip, https, []. split_and!; [done..|]. intros E' Hin. by apply elem_of_nil in Hin.
  - done.
  - assert (H : (AdminToken_from_request (E := E) ip page jar).2 = jar ∨ (AdminToken_from_request (E := E) ip page jar).2 = None).
    { unfold AdminToken_from_request. destruct disable_admin_token; [by left|]. rewrite run_gets. cbn. destruct jar as [c|]; [|by left].
      destruct (decode_admin _); [by left|by right]. }
    destruct H as [->| ->]; [|done]. by apply from_login_more.
Qed.

Lemma guard_run (E : Env) ip page c : disable_admin_token = false →
  AdminToken_from_request (E := E) ip page (Some c)
  = match decode_admin (E := E) (AdminCookie.value c) with
    | Ok _ => (Ok (Success ip), Some c)
    | Err _ => (Ok (Failure "Session expired"), None)
    end.
Proof. intros Hd. unfold AdminToken_from_request. rewrite Hd, run_gets. cbn [id]. by destruct (decode_admin _). Qed.
Lemma decode_own (E : Env) cl : is_ok (decode_admin (E := E) (encode_jwt cl)) = is_ok (jwt_decode JWT_ADMIN_ISSUER 30 (timestamp (now (Env := E))) (jwt_encode cl)).
Proof. unfold decode_admin, decode_jwt, encode_jwt. rewrite jwt_one_word. by destruct (jwt_decode _ _ _ _). Qed.

(** C34. The pages of the administrator need a login. In every history of a
    browser that starts without a cookie, the guard of the administrator lets a
    request through only if the token is disabled by the configuration, or there
    was a login with the right token, within the rate limit, no logout since,
    and the session has not ended, up to the leeway of thirty seconds. *)
Theorem admin_pages_need_login (E : Env) (l : list (Env * AdminStep)) (ip page ip' : string) :
  (AdminToken_from_request (E := E) ip page (admin_steps l None)).1 = Ok (Success ip') →
  disable_admin_token = true ∨ ∃ E0, logged_in l E0 ∧ timestamp (now (Env := E)) ≤ session_end E0 + 30.
Proof.
  destruct disable_admin_token eqn:Hd; [by left|]. destruct (admin_steps l None) as [c|] eqn:Hj.
  2: { unfold AdminToken_from_request. rewrite Hd, run_gets. cbn. by case_bool_decide. }
  destruct (jar_from_login l c Hj) as (E0 & Hl & Hc). rewrite guard_run by done. intros Hs. right. exists E0. split; [done|].
  destruct (Z.le_gt_cases (timestamp (now (Env := E))) (session_end E0 + 30)) as [|Hlate]; [done|]. exfalso.
  assert (Hok : is_ok (decode_admin (E := E) (AdminCookie.value c)) = true) by by destruct (decode_admin _).
  rewrite Hc, decode_own, jwt_expired in Hok; [done|]. cbn. lia.
Qed.

(** A login opens the pages. After a login with the right token, within the
    rate limit, the guard lets every request of the browser through until the
    end of the session, whatever was visited in between. *)
Theorem login_opens_admin_pages (E0 E1 : Env) (data : LoginForm.t) (ip page : string) (https : bool) (jar : Jar) :
  validate_token (LoginForm.token data) = true → check_limit_admin ip = Ok () →
  Z.abs (admin_session_lifetime * 60) ≤ (2 ^ 63 - 1) / 1000 → naive_min ≤ now (Env := E0) + admin_session_lifetime * MINUTE ≤ naive_max →
  timestamp (now (Env := E0)) ≤ timestamp (now (Env := E1)) ≤ session_end E0 →
  (AdminToken_from_request (E := E1) ip page (admin_step E0 (AdmLogin data ip https) jar)).1 = Ok (Success ip).
Proof.
  intros Hv Hl Hlife Hrange Htime. unfold admin_step, post_admin_login. rewrite Hl, Hv. unfold generate_admin_claims. cbv zeta.
  rewrite (proj2 (Z.leb_le _ _) Hlife), !(proj2 (Z.leb_le _ _)) by lia. cbn [andb].
  destruct disable_admin_token eqn:Hd; [unfold AdminToken_from_request; by rewrite Hd|].
  rewrite run_ret, run_modify. cbn [snd mret M_ret]. rewrite guard_run by done. cbn [AdminCookie.value].
  assert (is_ok (decode_admin (E := E1) (encode_jwt (BasicJwtClaims.mk (timestamp (now (Env := E0))) (session_end E0) JWT_ADMIN_ISSUER "admin_panel"))) = true) as Hok.
  { rewrite decode_own, (jwt_read_back JWT_ADMIN_ISSUER); [done|done|cbn; lia|cbn; lia]. }
  fold (session_end E0). by destruct (decode_admin _).
Qed.

(** Tokens for links to Sends, signed with the same key, do not open the pages. *)
Theorem send_tokens_do_not_open_admin (E0 E1 : Env) (send_id file_id ip page : string) (c : AdminCookie.t) :
  disable_admin_token = false → AdminCookie.value c = encode_jwt (generate_send_claims (E := E0) send_id file_id) →
  (AdminToken_from_request (E := E1) ip page (Some c)).1 = Ok (Failure "Session expired").
Proof.
  intros Hd Hc. rewrite guard_run, Hc by done.
  assert (JWT_SEND_ISSUER ≠ JWT_ADMIN_ISSUER) as Hne.
  { unfold JWT_SEND_ISSUER, JWT_ADMIN_ISSUER. clear. induction domain_origin as [|a s IH]; [done|]. intros [= H]. by apply IH. }
  pose proof (decode_own E1 (generate_send_claims (E := E0) send_id file_id)) as Hx. rewrite jwt_other_issuer in Hx by done.
  by destruct (decode_admin _).
Qed.
End sessions.

(** ** A sample session

    A token in plain text and sessions of twenty minutes. *)
Module SampleAdmin.
Import SampleFiles.
#[export] Instance chrono : Chrono := {| naive_min := -8334601315200 * 1000000; naive_max := 8210266876800 * 1000000 - 1 |}.
#[export] Instance config : AdminConfig := {|
  admin_token := Some "secret "%string; disable_admin_token := false; admin_session_lifetime := 20; domain_path := ""%string;
  ip_header := "X-Real-IP"%string; argon2_verify := λ _ _, None;
  check_limit_admin := λ ip, if ip == "10.0.0.9"%string then Err (MkError 429 "") else Ok (); format_local := λ _, ""%string |}.
#[export] Instance jwt_refusals {C} `{Countable C, Claims C} : JwtRefusals C.
Proof.
  split; intros iss leeway t c Hc; simpl; rewrite SampleCodecs.unbits_bits, decode_encode.
  - rewrite (proj2 (Z.leb_gt (t - leeway) _)) by done. by rewrite andb_false_r.
  - by rewrite bool_decide_eq_false_2.
Qed.
Definition form : LoginForm.t := LoginForm.mk "secret" None.
(** Denied by the rate limit, then a wrong token, then the right one. *)
Definition visits : list (Env * AdminStep) :=
  [(Sample.env, AdmLogin form "10.0.0.9" true); (Sample.env, AdmLogin (LoginForm.mk "guess" None) "10.0.0.1" true);
   (Sample.env, AdmLogin form "10.0.0.1" true); (Sample.env, AdmVisit "10.0.0.1" "users/overview")].
End SampleAdmin.

Import SampleFiles SampleAdmin.
Lemma admin_pages_need_login_witness :
  (AdminToken_from_request (E := Sample.env) "10.0.0.1" "diagnostics" (admin_steps visits None)).1 = Ok (Success "10.0.0.1")
  ∧ ∃ E0, logged_in visits E0 ∧ timestamp (now (Env := Sample.env)) ≤ session_end E0 + 30.
Proof.
  assert (H : (AdminToken_from_request (E := Sample.env) "10.0.0.1" "diagnostics" (admin_steps visits None)).1 = Ok (Success "10.0.0.1"))
    by (vm_compute; reflexivity).
  split; [exact H|]. destruct (admin_pages_need_login Sample.env visits "10.0.0.1" "diagnostics" "10.0.0.1" H) as [Hd|Hl]; [discriminate Hd|exact Hl].
Defined.
Lemma login_opens_admin_pages_witness :
  (AdminToken_from_request (E := Sample.env) "10.0.0.1" "diagnostics" (admin_step Sample.env (AdmLogin form "10.0.0.1" true) None)).1
  = Ok (Success "10.0.0.1").
Proof.
  refine (login_opens_admin_pages Sample.env Sample.env form "10.0.0.1" "diagnostics" true None eq_refl eq_refl _ _ _);
    vm_compute; try split; discriminate.
Defined.
