(* ===== verification/SingleSignOn.v ===== *)
(** Single sign-on.

    Models src/src/db/models/sso_auth.rs, the part of user.rs on linked
    identities, src/src/sso.rs, the decisions of src/src/sso_client.rs, and the
    browser half of the flow in api/identity.rs ([authorize],
    [oidcsignin_redirect]). The messages to the identity provider and the
    checks of its tokens are the openidconnect crate: the class
    [IdentityProvider]. *)
From S2P Require Import Prelude Schema Roles Users Invariants Samples TwoFactors OneTimeCodes Sends EmergencyRows Memberships Groups Collections Guards VaultItems Ciphers Policies Organizations Emergency Tokens.
Local Open Scope Z_scope.

(** What the token endpoint, the id token and the user info endpoint say. *)
Module ProviderAnswer.
Record t := mk {
  refresh_token : option string; access_token : string; expires_in : option Z; issuer : string; subject : string;
  id_email : option string; id_email_verified : option bool; id_preferred_username : option string;
  info_email : option string; info_email_verified : option bool; info_preferred_username : option string
}.
End ProviderAnswer.
(** [BasicTokenClaims] with [BasicTokenClaimsValidation]. *)
Module BasicTokenClaims.
Record t := mk { iat : option Z; nbf : option Z; exp : Z; iss : string }.
End BasicTokenClaims.

Class IdentityProvider := {
  sso_authority : string; sso_pkce : bool;
  sso_signups_match_email : bool; sso_allow_unknown_email_verification : bool; sso_auth_only_not_session : bool;
  (** The SHA-256 challenge of a verifier. *)
  pkce_challenge : string → string;
  (** The exchange of a code, with the verifier when PKCE is left to the
      provider; the id token is checked against the nonce. *)
  provider_exchange : string → option string → string → Res ProviderAnswer.t;
  provider_refresh : string → Res (option string * string * option Z);
  provider_check_validity : string → Res ();
  (** [jsonwebtoken::dangerous::insecure_decode]. *)
  insecure_decode : string → option BasicTokenClaims.t;
  (** The SHA-256 hash of the binding cookie, and the base64 state. *)
  sha256_hex : string → string;
  decode_base64_utf8 : string → option string;
  (** The url and nonce of a new request to the provider. *)
  provider_authorize : string → string → Res (string * string);
  domain : string;
  (** [url::Url::parse] of the address to go back to. *)
  parse_url : string → Res string;
  (** The port of [^http://localhost:([0-9]{4})$] (the regex crate). *)
  localhost_port : string → option string;
}.

Section sso.
Context `{E : Env} `{S : SessionTokens} `{O : IdentityProvider}.

(** ** The pending logins (sso_auth.rs) *)

Definition SSO_AUTH_EXPIRATION : Z := 10 * 60 * 1000000.

Definition SsoAuth_new (state client_challenge nonce redirect_uri : string) (binding_hash : option string) : SsoAuth.t :=
  {| SsoAuth.state := state; SsoAuth.client_challenge := client_challenge; SsoAuth.nonce := nonce;
     SsoAuth.redirect_uri := redirect_uri; SsoAuth.code_response := None; SsoAuth.code_response_error := None;
     SsoAuth.auth_response := None; SsoAuth.created_at := now; SsoAuth.updated_at := now;
     SsoAuth.binding_hash := binding_hash |}.
Definition SsoAuth_save (a : SsoAuth.t) : M DB () := modify (set_sso_auth <[SsoAuth.state a := a]>).
Definition SsoAuth_find (state : string) (d : DB) : option SsoAuth.t :=
  first (where_ (λ a, (SsoAuth.state a == state) && (now - SSO_AUTH_EXPIRATION <=? SsoAuth.created_at a)) (rows (sso_auth d))).
Definition SsoAuth_find_by_code (code : string) (d : DB) : option SsoAuth.t :=
  first (where_ (λ a, (SsoAuth.code_response a == Some code) && (now - SSO_AUTH_EXPIRATION <=? SsoAuth.created_at a))
           (rows (sso_auth d))).
Definition SsoAuth_delete (a : SsoAuth.t) : M DB () :=
  modify (set_sso_auth (delete_where (λ r, SsoAuth.state r == SsoAuth.state a))).
Definition SsoAuth_delete_expired : M DB () :=
  modify (set_sso_auth (delete_where (λ r, SsoAuth.created_at r <? now - SSO_AUTH_EXPIRATION))).

(** ** Linked identities (user.rs) *)

(** [SsoUser::save], on PostgreSQL a plain INSERT: the account must exist and
    have no identity yet, and the identity no account. *)
Definition SsoUser_save (s : SsoUser.t) : M DB () :=
  save_row (λ d, has (users d) (SsoUser.user_uuid s) && negb (has (sso_users d) (SsoUser.user_uuid s))
                 && negb (nonempty (where_ (λ r, SsoUser.identifier r == SsoUser.identifier s) (rows (sso_users d)))))
    (set_sso_users <[SsoUser.user_uuid s := s]>) "Error saving SSO user".
Definition SsoUser_find_by_identifier (identifier : string) (d : DB) : option (User.t * SsoUser.t) :=
  head (where_ (λ '(_, s), SsoUser.identifier s == identifier)
          (inner_join (rows (users d)) (rows (sso_users d)) (λ u s, SsoUser.user_uuid s == User.uuid u))).
Definition SsoUser_find_by_mail (mail : string) (d : DB) : option (User.t * option SsoUser.t) :=
  head (where_ (λ '(u, _), User.email u == to_lowercase mail)
          (left_join (rows (users d)) (rows (sso_users d)) (λ u s, SsoUser.user_uuid s == User.uuid u))).

Definition SsoUser_delete (user_uuid : string) : M DB () :=
  modify (set_sso_users (delete_where (λ s, SsoUser.user_uuid s == user_uuid))).

(** The account that a person at the identity provider stands for: the linked
    one, or one with the same address when linking is allowed. *)
Definition user_with_sso (infos : OIDCAuthenticatedUser.t) : M DB (option (User.t * option SsoUser.t)) :=
  linked ← gets (SsoUser_find_by_identifier (OIDCAuthenticatedUser.identifier infos));
  match linked with
  | Some (user, sso_user) => mret (Some (user, Some sso_user))
  | None =>
      same ← gets (SsoUser_find_by_mail (OIDCAuthenticatedUser.email infos));
      match same with
      | None => mret None
      | Some (_, Some _) => err "Existing SSO user with same email"
      | Some (user, None) =>
          if bool_decide (is_Some (User.private_key user)) && negb sso_signups_match_email
          then err "Existing non SSO user with same email" else
          match OIDCAuthenticatedUser.email_verified infos with
          | None => if negb sso_allow_unknown_email_verification then err "Email verification status is unknown"
                    else mret (Some (user, None))
          | Some false => err "Email is not verified by the SSO provider"
          | Some true => mret (Some (user, None))
          end
      end
  end.

(** ** The flow (sso.rs and sso_client.rs) *)

Definition BasicTokenClaims_nbf (c : BasicTokenClaims.t) : Z :=
  match BasicTokenClaims.nbf c, BasicTokenClaims.iat c with
  | Some n, _ => n
  | None, Some i => i
  | None, None => timestamp now
  end.
Definition decode_token_claims (token : string) : option BasicTokenClaims.t :=
  match insecure_decode token with
  | Some c => if (BasicTokenClaims.exp c <? timestamp now - 60) || negb (BasicTokenClaims.iss c == sso_authority)
              then None else Some c
  | None => None
  end.

(** [Client::exchange_code]: PKCE is checked by the provider or here. *)
Definition client_exchange_code (code client_verifier : string) (sso_auth : SsoAuth.t) : M DB ProviderAnswer.t :=
  if sso_pkce then lift (provider_exchange code (Some client_verifier) (SsoAuth.nonce sso_auth)) else
  if negb (pkce_challenge client_verifier == SsoAuth.client_challenge sso_auth) then err "PKCE client challenge failed" else
  lift (provider_exchange code None (SsoAuth.nonce sso_auth)).

Definition or_else {A} (a b : option A) : option A := match a with Some x => Some x | None => b end.

(** [exchange_code]: a code that was exchanged before is answered from the
    stored response. *)
Definition exchange_code (code client_verifier : string) : M DB (SsoAuth.t * OIDCAuthenticatedUser.t) :=
  o ← gets (SsoAuth_find_by_code code);
  sso_auth ← some_or o "Invalid code cannot retrieve sso auth";
  match SsoAuth.auth_response sso_auth with
  | Some authenticated_user => mret (sso_auth, authenticated_user)
  | None =>
      match SsoAuth.code_response sso_auth, SsoAuth.code_response_error sso_auth with
      | _, Some re =>
          SsoAuth_delete sso_auth ;;
          err ("SSO authorization failed: " +:+ OIDCCodeResponseError.error re +:+ ", "
               +:+ default ""%string (OIDCCodeResponseError.error_description re))
      | None, None => SsoAuth_delete sso_auth ;; err "Missing authorization provider return"
      | Some code, None =>
          a ← client_exchange_code code client_verifier sso_auth;
          email ← some_or (or_else (ProviderAnswer.id_email a) (ProviderAnswer.info_email a))
                    "Neither id token nor userinfo contained an email";
          let authenticated_user := {|
            OIDCAuthenticatedUser.refresh_token := ProviderAnswer.refresh_token a;
            OIDCAuthenticatedUser.access_token := ProviderAnswer.access_token a;
            OIDCAuthenticatedUser.expires_in := ProviderAnswer.expires_in a;
            OIDCAuthenticatedUser.identifier := ProviderAnswer.issuer a +:+ "/" +:+ ProviderAnswer.subject a;
            OIDCAuthenticatedUser.email := to_lowercase email;
            OIDCAuthenticatedUser.email_verified :=
              or_else (ProviderAnswer.id_email_verified a) (ProviderAnswer.info_email_verified a);
            OIDCAuthenticatedUser.user_name :=
              or_else (ProviderAnswer.id_preferred_username a) (ProviderAnswer.info_preferred_username a) |} in
          let sso_auth := SsoAuth.set_auth_response (λ _, Some authenticated_user) sso_auth in
          let sso_auth := SsoAuth.set_updated_at (λ _, now) sso_auth in
          SsoAuth_save sso_auth ;;
          mret (sso_auth, authenticated_user)
      end
  end.

Definition create_auth_tokens_impl (device : Device.t) (refresh_token : option string) (access_claims : LoginJwtClaims.t)
    (access_token : string) : AuthTokens.t :=
  let '(nbf, exp, token) :=
    match refresh_token with
    | Some rt =>
        match decode_token_claims rt with
        | None => (timestamp now, timestamp (now + 30 * 24 * HOUR), RefreshToken rt)
        | Some payload => (BasicTokenClaims_nbf payload, BasicTokenClaims.exp payload, RefreshToken rt)
        end
    | None => (LoginJwtClaims.nbf access_claims, LoginJwtClaims.exp access_claims, AccessToken access_token)
    end in
  AuthTokens.mk (RefreshJwtClaims.mk nbf exp Sso (Device.refresh_token device) (Some token)) access_claims.

Definition create_auth_tokens (device : Device.t) (user : User.t) (client_id refresh_token : option string)
    (access_token : string) (expires_in : option Z) : M DB AuthTokens.t :=
  if sso_auth_only_not_session then mret (AuthTokens_new device user Sso client_id) else
  '(ap_nbf, ap_exp) ← match decode_token_claims access_token, expires_in with
    | Some ap, _ => mret (BasicTokenClaims_nbf ap, BasicTokenClaims.exp ap)
    | None, Some exp => mret (timestamp now, timestamp (now + exp))
    | None, None => err "Non jwt access_token and empty expires_in"
    end;
  let access_claims := LoginJwtClaims_new device user ap_nbf ap_exp (AuthMethod_scope_vec Sso) client_id in
  mret (create_auth_tokens_impl device refresh_token access_claims access_token).

Definition redeem (device : Device.t) (user : User.t) (client_id : option string) (sso_user : option SsoUser.t)
    (sso_auth : SsoAuth.t) (auth_user : OIDCAuthenticatedUser.t) : M DB AuthTokens.t :=
  SsoAuth_delete sso_auth ;;
  when (bool_decide (sso_user = None))
    (SsoUser_save (SsoUser.mk (User.uuid user) (OIDCAuthenticatedUser.identifier auth_user))) ;;
  create_auth_tokens device user client_id (OIDCAuthenticatedUser.refresh_token auth_user)
    (OIDCAuthenticatedUser.access_token auth_user) (OIDCAuthenticatedUser.expires_in auth_user).

Definition BW_EXPIRATION : Z := 5 * 60 * 1000000.

Definition exchange_refresh_token (device : Device.t) (user : User.t) (client_id : option string)
    (refresh_claims : RefreshJwtClaims.t) : M DB AuthTokens.t :=
  match RefreshJwtClaims.token refresh_claims with
  | Some (RefreshToken refresh_token) =>
      '(new_refresh_token, access_token, expires_in) ← lift (provider_refresh refresh_token);
      create_auth_tokens device user client_id (or_else new_refresh_token (Some refresh_token)) access_token expires_in
  | Some (AccessToken access_token) =>
      let exp := RefreshJwtClaims.exp refresh_claims in
      if exp <? timestamp (now + BW_EXPIRATION)
      then err "Access token is close to expiration but we have no refresh token" else
      lift (provider_check_validity access_token) ;;
      let access_claims := LoginJwtClaims_new device user (timestamp now) exp (AuthMethod_scope_vec Sso) client_id in
      mret (create_auth_tokens_impl device None access_claims access_token)
  | None => err "No token present while in SSO"
  end.

(** ** The browser half *)

Definition decode_state (base64_state : string) : M DB string :=
  some_or (decode_base64_utf8 base64_state) ("Failed to decode " +:+ base64_state +:+ " using base64").

(** [authorize_url] of sso.rs, with [Client::authorize_url]. *)
Definition authorize_url (state client_challenge client_id raw_redirect_uri : string) (binding_hash : option string)
    : M DB string :=
  redirect_uri ←
    (if (client_id == "web") || (client_id == "browser") then mret (domain +:+ "/sso-connector.html") else
     if (client_id == "desktop") || (client_id == "mobile") then mret "bitwarden://sso-callback"%string else
     if client_id == "cli" then
       port ← some_or (localhost_port raw_redirect_uri) "Failed to extract port number";
       mret ("http://localhost:" +:+ port)
     else err ("Unsupported client " +:+ client_id));
  '(auth_url, nonce) ← lift (provider_authorize state client_challenge);
  SsoAuth_save (SsoAuth_new state client_challenge nonce redirect_uri binding_hash) ;;
  mret auth_url.

(** [authorize]: [binding_token] is drawn at random and set as a cookie. *)
Definition authorize (binding_token client_id redirect_uri state code_challenge code_challenge_method : string)
    : M DB (string * string) :=
  if negb (code_challenge_method == "S256") then err "Unsupported code challenge method" else
  auth_url ← authorize_url state code_challenge client_id redirect_uri (Some (sha256_hex binding_token));
  mret (auth_url, binding_token).

(** [oidcsignin_redirect]: the answer of the provider is stored if the browser
    shows the cookie of the request. *)
Definition oidcsignin_redirect (base64_state code : string) (error : option OIDCCodeResponseError.t)
    (cookie_value : option string) : M DB string :=
  state ← decode_state base64_state;
  o ← gets (SsoAuth_find state);
  sso_auth ← some_or o ("Cannot retrieve sso_auth for " +:+ state);
  match SsoAuth.binding_hash sso_auth, sha256_hex <$> cookie_value with
  | Some expected, Some actual =>
      if ct_eq expected actual then
        let sso_auth := SsoAuth.set_code_response (λ _, Some code) sso_auth in
        let sso_auth := SsoAuth.set_code_response_error (λ _, error) sso_auth in
        let sso_auth := SsoAuth.set_updated_at (λ _, now) sso_auth in
        SsoAuth_save sso_auth ;;
        lift (parse_url (SsoAuth.redirect_uri sso_auth))
      else err ("SSO session binding mismatch for " +:+ state)
  | _, _ => err ("SSO session binding mismatch for " +:+ state)
  end.
End sso.
