(* ===== verification/Identity.v ===== *)
(** Login.

    Models src/src/api/identity.rs (the token endpoint with its grants, the
    second factor, the device of a login), src/src/auth/send.rs, and the
    handlers of api/admin.rs that end sessions and lock accounts. The checks of
    WebAuthn, YubiKey and Duo codes call outside services: they are parameters. *)
From S2P Require Import Prelude Schema Roles Users Invariants Samples TwoFactors OneTimeCodes Sends EmergencyRows Memberships Groups Collections Guards VaultItems Ciphers Policies Organizations Emergency Members Accounts Tokens SingleSignOn.
Local Open Scope Z_scope.

(** Second factors that outside services check. *)
Class FactorProviders := {
  (** Host, integration key and secret of a stored Duo factor (serde_json). *)
  duo_provider_data : string → option (string * string * string);
  enable_duo : bool; duo_host : option string; duo_ikey : option string; duo_skey : option string;
  enable_yubico : bool; yubico_client_id : option string; yubico_secret_key : option string;
  (** [Url::parse(domain).domain().is_some()]. *)
  is_webauthn_2fa_supported : bool;
  validate_webauthn_login : string → string → M DB ();
  validate_yubikey_login : string → string → Res ();
  validate_duo_login : string → string → M DB ();
  (** The challenge of a provider in the answer that asks for a code. *)
  webauthn_challenge : string → M DB ();
  duo_challenge : string → M DB ();
  yubikey_metadata : string → Res ();
  (** [semver]: the client is 2025.5.0 or later. *)
  sends_own_email_code : string → bool;
}.

(** ** The form *)

Module ConnectData.
Record t := mk {
  grant_type : string; refresh_token : option string; client_id : option string; client_secret : option string;
  password : option string; scope : option string; username : option string; device_identifier : option string;
  device_name : option string; device_type : option string; two_factor_provider : option Z;
  two_factor_token : option string; two_factor_remember : option Z; auth_request : option string;
  code : option string; code_verifier : option string; send_id : option string; password_hash_b64 : option string
}.
End ConnectData.

(** What a login draws at random. *)
Record LoginDraws := {
  login_account : AccountDraws; login_push_id : string; login_refresh_token : string; login_email_code : string
}.

(** The answer of the token endpoint. *)
Inductive LoginAnswer :=
| LoggedIn (user : User.t) (device : Device.t) (tokens : AuthTokens.t) (two_factor_token : option string)
| ApiLoggedIn (user : User.t) (device : Device.t) (access : LoginJwtClaims.t)
| OrgLoggedIn (claims : OrgApiKeyLoginJwtClaims.t)
| SendOpened (send_id : string)
| Refreshed (device : Device.t) (tokens : AuthTokens.t).

Definition unwrap_none : string := "called `Option::unwrap()` on a `None` value".

Section login.
Context `{E : Env} `{K : Codecs} `{T : Totp} `{P : PolicyJson} `{C : Crypto} `{R : PushRelay}.
Context `{S : SessionTokens} `{F : FactorProviders} `{O : IdentityProvider}.

(** ** Second factor *)

Definition has_global_duo_credentials : bool :=
  enable_duo && bool_decide (is_Some duo_host) && bool_decide (is_Some duo_ikey) && bool_decide (is_Some duo_skey).

Definition is_twofactor_provider_usable (provider_type : TwoFactorType) (provider_data : option string) : bool :=
  match provider_type with
  | Authenticator | RecoveryCode => true
  | Email => enable_email_2fa
  | Duo | OrganizationDuo =>
      nn provider_data (λ raw, match duo_provider_data raw with
        | Some (host, ik, sk) => negb (host == "") && negb (ik == "") && negb (sk == "")
        | None => false
        end) || has_global_duo_credentials
  | YubiKey => enable_yubico && bool_decide (is_Some yubico_client_id) && bool_decide (is_Some yubico_secret_key)
  | Webauthn => is_webauthn_2fa_supported
  | Remember => negb disable_2fa_remember
  | _ => false
  end.

Definition selected_data (tf : option TwoFactor.t) : M DB string :=
  tf ← some_or tf "Two factor doesn't exist";
  mret (TwoFactor.data tf).

(** The providers of an account that can be used. *)
Definition twofactor_ids (twofactors : list TwoFactor.t) : list Z :=
  TwoFactor.atype <$> where_ (λ tf,
    match TwoFactorType_from_i32 (TwoFactor.atype tf) with
    | Some provider_type => TwoFactor.enabled tf && is_twofactor_provider_usable provider_type (Some (TwoFactor.data tf))
    | None => false
    end) twofactors.

(** [json_err_twofactor]: the effects of building the answer. *)
Definition json_err_twofactor (draws : LoginDraws) (providers : list Z) (user_id : string) (client_version : option string)
    : M DB () :=
  for_each providers (λ provider,
    match TwoFactorType_from_i32 provider with
    | Some Webauthn => if is_webauthn_2fa_supported then webauthn_challenge user_id else mret ()
    | Some Duo =>
        ou ← gets (User_find_by_uuid user_id);
        u ← some_or ou "User does not exist";
        duo_challenge (User.email u)
    | Some YubiKey =>
        o ← gets (TwoFactor_find_by_user_and_type user_id (TwoFactorType_as_i32 YubiKey));
        twofactor ← some_or o "No YubiKey devices registered";
        lift (yubikey_metadata (TwoFactor.data twofactor))
    | Some Email =>
        o ← gets (TwoFactor_find_by_user_and_type user_id (TwoFactorType_as_i32 Email));
        twofactor ← some_or o "No twofactor email registered";
        let disabled_send := nn client_version sends_own_email_code in
        when ((length providers =? 1)%nat && negb disabled_send) (send_token (login_email_code draws) user_id) ;;
        EmailTokenData_from_json (TwoFactor.data twofactor) ;;
        mret ()
    | _ => mret ()
    end).
Definition ask_twofactor {A} (draws : LoginDraws) (providers : list Z) (user_id : string) (client_version : option string)
    (msg : string) : M DB A :=
  json_err_twofactor draws providers user_id client_version ;; err msg.

(** The remembered second factor of a device. *)
Definition remembered (device : Device.t) (user : User.t) (code : string) : bool :=
  nn (Device.twofactor_remember device) (λ token,
    negb disable_2fa_remember && ct_eq token code
    && match decode_2fa_remember code with
       | Ok t => (TwoFactorRememberClaims.sub t == Device.uuid device)
                 && (TwoFactorRememberClaims.user_uuid t == User.uuid user)
       | Err _ => false
       end).

(** The [match] on the selected provider; a recovery code changes the account. *)
Definition check_twofactor (draws : LoginDraws) (providers : list Z) (selected_id : Z) (selected : option TwoFactor.t)
    (twofactor_code : string) (client_version : option string) (device : Device.t) (user : User.t) : M DB User.t :=
  match TwoFactorType_from_i32 selected_id with
  | Some Authenticator =>
      secret ← selected_data selected;
      validate_totp_code_str (draw_factor_id (login_account draws)) (User.uuid user) twofactor_code secret ;; mret user
  | Some Webauthn => validate_webauthn_login (User.uuid user) twofactor_code ;; mret user
  | Some YubiKey =>
      data ← selected_data selected;
      lift (validate_yubikey_login twofactor_code data) ;; mret user
  | Some Duo => validate_duo_login (User.email user) twofactor_code ;; mret user
  | Some Email =>
      data ← selected_data selected;
      validate_email_code_str (User.uuid user) twofactor_code data ;; mret user
  | Some Remember =>
      if remembered device user twofactor_code then mret user else
      when (bool_decide (is_Some (Device.twofactor_remember device)))
        (Device_save true (Device_delete_twofactor_remember device) ;; mret ()) ;;
      ask_twofactor draws providers (User.uuid user) client_version "2FA Remember token not provided or expired"
  | Some RecoveryCode =>
      if negb (User_check_valid_recovery_code user twofactor_code) then err "Recovery code is incorrect. Try again." else
      TwoFactor_delete_all_by_user (User.uuid user) ;;
      enforce_2fa_policy user ;;
      User_save (User.set_totp_recover (λ _, None) user)
  | _ => err "Invalid two factor provider"
  end.

(** [Device::refresh_twofactor_remember]. *)
Definition Device_refresh_twofactor_remember (device : Device.t) : string * Device.t :=
  let token := encode_2fa_remember (TwoFactorRememberClaims.mk (Device.uuid device) (Device.user_uuid device)) in
  (token, Device.set_twofactor_remember (λ _, Some token) device).

Definition twofactor_auth (draws : LoginDraws) (data : ConnectData.t) (ip : string) (client_version : option string)
    (device : Device.t) (user : User.t) : M DB (User.t * Device.t * option string) :=
  twofactors ← gets (TwoFactor_find_by_user (User.uuid user));
  if bool_decide (twofactors = []) then enforce_2fa_policy user ;; mret (user, device, None) else
  TwoFactorIncomplete_mark_incomplete (User.uuid user) (Device.uuid device) (Device.name device) (Device.atype device) ip ;;
  let ids := twofactor_ids twofactors in
  first_id ← some_or (head ids) "No enabled and usable two factor providers are available for this account";
  let selected_id := default first_id (ConnectData.two_factor_provider data) in
  if negb (bool_decide (selected_id ∈ [TwoFactorType_as_i32 Remember; TwoFactorType_as_i32 RecoveryCode]))
     && negb (bool_decide (selected_id ∈ ids))
  then ask_twofactor draws ids (User.uuid user) client_version "Invalid two factor provider" else
  match ConnectData.two_factor_token data with
  | None => ask_twofactor draws ids (User.uuid user) client_version "2FA token not provided"
  | Some twofactor_code =>
      let selected := List.find (λ tf, (TwoFactor.atype tf == selected_id) && TwoFactor.enabled tf) twofactors in
      user ← check_twofactor draws ids selected_id selected twofactor_code client_version device user;
      TwoFactorIncomplete_mark_complete (User.uuid user) (Device.uuid device) ;;
      if negb disable_2fa_remember && (default 0 (ConnectData.two_factor_remember data) =? 1)
      then let '(token, device) := Device_refresh_twofactor_remember device in mret (user, device, Some token)
      else mret (user, device, None)
  end.

(** ** The device of a login *)

(** [get_device] of api/identity.rs. *)
Definition get_login_device (draws : LoginDraws) (data : ConnectData.t) (user : User.t) : M DB Device.t :=
  let device_type := default 14 (ConnectData.device_type data ≫= parse_i32) in
  device_id ← expect (ConnectData.device_identifier data) "No device id provided";
  device_name ← expect (ConnectData.device_name data) "No device name provided";
  o ← gets (Device_find_by_uuid_and_user device_id (User.uuid user));
  match o with
  | Some device => mret device
  | None => Device_save false (Device_new (login_push_id draws) (login_refresh_token draws) device_id (User.uuid user)
                                 device_name device_type)
  end.

(** The mail about a login from a new device. *)
Definition announce_device (user : User.t) (device : Device.t) : M DB () :=
  when (mail_enabled && Device_is_new device) (
    match send_mail "new_device_logged_in" (User.email user) with
    | Ok _ => mret ()
    | Err _ => if require_device_email
               then err "Could not send login notification email. Please contact your administrator." else mret ()
    end).

Definition authenticated_response (draws : LoginDraws) (user : User.t) (device : Device.t) (auth_tokens : AuthTokens.t)
    (twofactor_token : option string) : M DB LoginAnswer :=
  announce_device user device ;;
  device ← (if Device_is_new device then mret device else register_push_device (draw_id (login_account draws)) device);
  device ← Device_save true device;
  mret (LoggedIn user device auth_tokens twofactor_token).

(** ** Grants *)

(** A login request that another device approved stands for the password: of
    this account, approved, at most five minutes old, from the same address,
    with the access code. *)
Definition check_auth_request (auth_request : AuthRequest.t) (user : User.t) (ip password : string) : bool :=
  (AuthRequest.user_uuid auth_request == User.uuid user)
  && default false (AuthRequest.approved auth_request)
  && negb (AuthRequest.creation_date auth_request + 5 * 60 * 1000000 <=? now)
  && (ip == AuthRequest.request_ip auth_request)
  && AuthRequest_check_access_code auth_request password.

Definition check_credentials (data : ConnectData.t) (ip password : string) (user : User.t) : M DB () :=
  match ConnectData.auth_request data with
  | Some auth_request_id =>
      o ← gets (AuthRequest_find_by_uuid_and_user auth_request_id (User.uuid user));
      auth_request ← some_or o "Auth request not found. Try again.";
      if negb (check_auth_request auth_request user ip password)
      then err "Username or access code is incorrect. Try again" else mret ()
  | None =>
      if negb (User_check_valid_password user password)
      then err "Username or password is incorrect. Try again" else mret ()
  end.

(** The iterations are only raised when the password was given. *)
Definition upgrade_login (draws : AccountDraws) (data : ConnectData.t) (password : string) (user : User.t) : M DB User.t :=
  if bool_decide (ConnectData.auth_request data = None) then kdf_upgrade draws password user else mret user.

(** A login whose address still has to be verified: another mail is due after
    the waiting time and below the limit ([u32], read as [i32]). *)
Definition remind_verification (user : User.t) : M DB () :=
  let due := match User.last_verifying_at user with
             | None => true
             | Some t => cast_signed signups_verify_resend_time <? Z.quot (now - t) 1000000
             end in
  let resend_limit := wrap_i32 signups_verify_resend_limit in
  when (due && ((resend_limit =? 0) || (User.login_verify_count user <? resend_limit)))
    (ignore (User_save (User.set_login_verify_count (λ n, wrap_i32 (n + 1))
       (User.set_last_verifying_at (λ _, Some now) user)))).

Definition password_login (draws : LoginDraws) (data : ConnectData.t) (ip : string) (client_version : option string)
    : M DB LoginAnswer :=
  AuthMethod_check_scope Password (ConnectData.scope data) ;;
  lift (check_limit_login ip) ;;
  username ← expect (ConnectData.username data) unwrap_none;
  ou ← gets (User_find_by_mail (trim username));
  user ← some_or ou "Username or password is incorrect. Try again";
  if negb (User.enabled user) then err "This user has been disabled" else
  password ← expect (ConnectData.password data) unwrap_none;
  check_credentials data ip password user ;;
  user ← upgrade_login (login_account draws) data password user;
  if bool_decide (User.verified_at user = None) && mail_enabled && signups_verify
  then remind_verification user ;; err "Please verify your email before trying again." else
  device ← get_login_device draws data user;
  '(user, device, twofactor_token) ← twofactor_auth draws data ip client_version device user;
  authenticated_response draws user device (AuthTokens_new device user Password (ConnectData.client_id data)) twofactor_token.

Definition user_api_key_login (draws : LoginDraws) (data : ConnectData.t) : M DB LoginAnswer :=
  client_id ← expect (ConnectData.client_id data) unwrap_none;
  client_user_id ← some_or (strip_prefix "user." client_id) "Malformed client_id";
  ou ← gets (User_find_by_uuid client_user_id);
  user ← some_or ou "Invalid client_id";
  if negb (User.enabled user) then err "This user has been disabled (API key login)" else
  client_secret ← expect (ConnectData.client_secret data) unwrap_none;
  if negb (User_check_valid_api_key user client_secret) then err "Incorrect client_secret" else
  device ← get_login_device draws data user;
  announce_device user device ;;
  let access_claims := LoginJwtClaims_default device user UserApiKey (ConnectData.client_id data) in
  device ← Device_save true device;
  mret (ApiLoggedIn user device access_claims).

Definition organization_api_key_login (data : ConnectData.t) : M DB LoginAnswer :=
  client_id ← expect (ConnectData.client_id data) unwrap_none;
  org_id ← some_or (strip_prefix "organization." client_id) "Malformed client_id";
  o ← gets (OrganizationApiKey_find_by_org_uuid org_id);
  org_api_key ← some_or o "Invalid client_id";
  client_secret ← expect (ConnectData.client_secret data) unwrap_none;
  if negb (OrganizationApiKey_check_valid_api_key org_api_key client_secret) then err "Incorrect client_secret" else
  mret (OrgLoggedIn (generate_organization_api_key_login_claims (OrganizationApiKey.uuid org_api_key)
                       (OrganizationApiKey.org_uuid org_api_key))).

Definition api_key_login (draws : LoginDraws) (data : ConnectData.t) (ip : string) : M DB LoginAnswer :=
  lift (check_limit_login ip) ;;
  match ConnectData.scope data with
  | Some scope =>
      if scope == AuthMethod_scope UserApiKey then user_api_key_login draws data else
      if scope == AuthMethod_scope OrgApiKey then organization_api_key_login data else
      err "Scope not supported"
  | None => err "Scope not supported"
  end.

(** [refresh_tokens] of auth.rs. *)
Definition refresh_tokens (draws : LoginDraws) (refresh_token : string) (client_id : option string)
    : M DB (Device.t * AuthTokens.t) :=
  match decode_refresh refresh_token with
  | Err _ => err "Invalid refresh token"
  | Ok claims =>
      od ← gets (Device_find_by_refresh_token (RefreshJwtClaims.device_token claims));
      device ← some_or od "Invalid refresh token";
      device ← (if RefreshJwtClaims.sub claims == Sso then Device_save true device else mret device);
      ou ← gets (User_find_by_uuid (Device.user_uuid device));
      user ← some_or ou "Impossible to find user";
      match RefreshJwtClaims.sub claims with
      | Sso =>
          if sso_enabled && sso_auth_only_not_session then mret (device, AuthTokens_new device user Sso client_id)
          else if sso_enabled then
            tokens ← exchange_refresh_token device user client_id claims;
            mret (device, tokens)
          else err "SSO is now disabled, Login again using email and master password"
      | Password =>
          if sso_enabled && sso_only then err "SSO is now required, Login again" else
          '(rotated, device) ← Device_rotate_refresh_token_if_matches (login_refresh_token draws)
                                 (RefreshJwtClaims.device_token claims) device;
          if negb (rotated : bool) then err "Invalid refresh token" else
          mret (device, AuthTokens_new device user Password client_id)
      | _ => err "Invalid auth method, cannot refresh token"
      end
  end.

Definition refresh_login (draws : LoginDraws) (data : ConnectData.t) : M DB LoginAnswer :=
  refresh_token ← some_or (ConnectData.refresh_token data) "Missing refresh_token";
  r ← answer (refresh_tokens draws refresh_token (ConnectData.client_id data));
  match r with
  | Err e => err ("Unable to refresh login credentials: " +:+ err_message e)
  | Ok (device, auth_tokens) =>
      device ← Device_save true device;
      mret (Refreshed device auth_tokens)
  end.

(** *** Single sign-on *)

Definition sso_login (draws : LoginDraws) (data : ConnectData.t) (ip : string) (client_version : option string)
    : M DB LoginAnswer :=
  AuthMethod_check_scope Sso (ConnectData.scope data) ;;
  lift (check_limit_login ip) ;;
  code ← some_or (ConnectData.code data) "Got no code in OIDC data";
  code_verifier ← some_or (ConnectData.code_verifier data) "Got no code verifier in OIDC data";
  '(sso_auth, infos) ← exchange_code code code_verifier;
  found ← user_with_sso infos;
  '(user, device, twofactor_token, sso_user) ←
    match found with
    | None =>
        if negb (is_email_domain_allowed (OIDCAuthenticatedUser.email infos)) then err "Email domain not allowed" else
        match OIDCAuthenticatedUser.email_verified infos with
        | None => if negb sso_allow_unknown_email_verification
                  then err "Your provider does not send email verification status." else mret ()
        | Some false => err "You need to verify your email with your provider before you can log in"
        | Some true => mret ()
        end ;;
        user ← User_save (User.set_verified_at (λ _, Some now)
          (User_new (draw_seed (login_account draws)) (OIDCAuthenticatedUser.email infos) (OIDCAuthenticatedUser.user_name infos)));
        device ← get_login_device draws data user;
        mret (user, device, None, None)
    | Some (user, sso_user) =>
        if negb (User.enabled user) then err "This user has been disabled" else
        device ← get_login_device draws data user;
        '(user, device, twofactor_token) ← twofactor_auth draws data ip client_version device user;
        user ← (if bool_decide (User.private_key user = None) then
                  let user := User.set_verified_at (λ _, Some now) user in
                  let user := match OIDCAuthenticatedUser.user_name infos with
                              | Some n => User.set_name (λ _, n) user | None => user end in
                  User_save user
                else mret user);
        when (negb (User.email user == OIDCAuthenticatedUser.email infos) && mail_enabled)
          (lift (send_mail "sso_change_email" (OIDCAuthenticatedUser.email infos))) ;;
        mret (user, device, twofactor_token, sso_user)
    end;
  auth_tokens ← redeem device user (ConnectData.client_id data) sso_user sso_auth infos;
  authenticated_response draws user device auth_tokens twofactor_token.

(** *** Access to a Send *)

(** [SendTokens::generate_tokens]; the claims name the Send for two minutes. *)
Definition generate_tokens (access_id : string) (password : option string) : M DB string :=
  match as_send_id access_id with
  | None => err_code ("Can't convert " +:+ access_id) 404
  | Some send_id =>
      o ← gets (Send_find_by_uuid send_id);
      match o with
      | None => err_code ("Can't find " +:+ send_id) 404
      | Some send =>
          if nn (Send.max_access_count send) (λ m, m <=? Send.access_count send)
          then err_code ("Send " +:+ send_id +:+ ", max access reached") 404 else
          if negb (Send_is_accessible send) then err_code ("Send " +:+ send_id +:+ ", not accessible") 404 else
          (if bool_decide (is_Some (Send.password_hash send)) then
             match password with
             | Some p => if Send_check_password send p then mret ()
                         else err_code ("Send " +:+ send_id +:+ ", Invalid password") 404
             | None => err "Password required"
             end
           else mret ()) ;;
          '(registered, _) ← Send_register_access send;
          if negb (registered : bool) then err_code ("Send " +:+ send_id +:+ ", max access reached") 404 else
          mret send_id
      end
  end.

(** *** The token endpoint *)

Definition check_is_some {A} (value : option A) (msg : string) : M DB () :=
  if bool_decide (value = None) then err msg else mret ().

Definition login (draws : LoginDraws) (data : ConnectData.t) (ip : string) (client_version : option string)
    : M DB LoginAnswer :=
  let check_device :=
    check_is_some (ConnectData.device_identifier data) "device_identifier cannot be blank" ;;
    check_is_some (ConnectData.device_name data) "device_name cannot be blank" ;;
    check_is_some (ConnectData.device_type data) "device_type cannot be blank" in
  if ConnectData.grant_type data == "refresh_token" then
    check_is_some (ConnectData.refresh_token data) "refresh_token cannot be blank" ;;
    refresh_login draws data
  else if ConnectData.grant_type data == "password" then
    if sso_enabled && sso_only then err "SSO sign-in is required" else
    check_is_some (ConnectData.client_id data) "client_id cannot be blank" ;;
    check_is_some (ConnectData.password data) "password cannot be blank" ;;
    check_is_some (ConnectData.scope data) "scope cannot be blank" ;;
    check_is_some (ConnectData.username data) "username cannot be blank" ;;
    check_device ;;
    password_login draws data ip client_version
  else if ConnectData.grant_type data == "client_credentials" then
    check_is_some (ConnectData.client_id data) "client_id cannot be blank" ;;
    check_is_some (ConnectData.client_secret data) "client_secret cannot be blank" ;;
    check_is_some (ConnectData.scope data) "scope cannot be blank" ;;
    check_device ;;
    api_key_login draws data ip
  else if ConnectData.grant_type data == "authorization_code" then
    if negb sso_enabled then err "SSO sign-in is not available" else
    check_is_some (ConnectData.client_id data) "client_id cannot be blank" ;;
    check_is_some (ConnectData.code data) "code cannot be blank" ;;
    check_is_some (ConnectData.code_verifier data) "code verifier cannot be blank" ;;
    check_device ;;
    sso_login draws data ip client_version
  else if ConnectData.grant_type data == "send_access" then
    lift (check_limit_unauthenticated ip) ;;
    check_is_some (ConnectData.client_id data) "client_id cannot be blank" ;;
    check_is_some (ConnectData.send_id data) "send_id cannot be blank" ;;
    send_id ← expect (ConnectData.send_id data) unwrap_none;
    id ← generate_tokens send_id (ConnectData.password_hash_b64 data);
    mret (SendOpened id)
  else err "Invalid type".

(** ** The administrator of the server (api/admin.rs) *)

Definition Device_find_push_devices_by_user (user_uuid : string) (d : DB) : list Device.t :=
  where_ (λ v, (Device.user_uuid v == user_uuid) && bool_decide (is_Some (Device.push_token v))) (rows (devices d)).

Definition deauth_user (draws : AccountDraws) (user_id : string) : M DB () :=
  user ← get_user_or_404 user_id;
  when push_enabled (
    l ← gets (Device_find_push_devices_by_user (User.uuid user));
    for_each l (λ device, ignore (unregister_push_device (Device.push_uuid device)))) ;;
  Device_delete_all_by_user (User.uuid user) ;;
  user ← User_reset_security_stamp (draw_stamp draws) (draw_token_for draws) user;
  User_save user ;; mret ().

Definition disable_user (draws : AccountDraws) (user_id : string) : M DB () :=
  user ← get_user_or_404 user_id;
  user ← User_reset_security_stamp (draw_stamp draws) (draw_token_for draws) user;
  let user := User.set_enabled (λ _, false) user in
  save_result ← answer (User_save user);
  Device_delete_all_by_user (User.uuid user) ;;
  lift save_result ;; mret ().

Definition enable_user (user_id : string) : M DB () :=
  user ← get_user_or_404 user_id;
  User_save (User.set_enabled (λ _, true) user) ;; mret ().

Definition delete_sso_user (user_id : string) : M DB () := SsoUser_delete user_id.

Definition update_revision_users : M DB () := User_update_all_revisions.

Definition resend_user_invite (user_id : string) : M DB () :=
  ou ← gets (User_find_by_uuid user_id);
  match ou with
  | Some user =>
      if negb (User.password_hash user == []) then err_code "User already accepted invitation" 400 else
      if mail_enabled then lift (send_mail "invite" (User.email user)) else mret ()
  | None => err_code "User doesn't exist" 404
  end.

(** [invite_user]; every error is answered with status 500. *)
Definition with_code_500 {A} (m : M DB A) : M DB A := λ d,
  match m d with
  | (Ok a, d') => (Ok a, d')
  | (Err e, d') => (Err (MkError 500 (err_message e)), d')
  end.
Definition invite_user (draws : AccountDraws) (email : string) : M DB User.t :=
  ou ← gets (User_find_by_mail email);
  if bool_decide (is_Some ou) then err_code "User already exists" 409 else
  let user := User_new (draw_seed draws) email None in
  with_code_500 (if mail_enabled then lift (send_mail "invite" (User.email user))
                 else Invitation_save (Invitation_new (User.email user))) ;;
  with_code_500 (User_save user).
End login.
