(* ===== verification/Vault.v ===== *)
(** The handlers on ciphers, folders and attachments.

    Models src/src/api/core/ciphers.rs and folders.rs, with
    [Cipher::to_json] and [Cipher::validate_cipher_data]. Each handler is the
    whole function: its checks, in the order of the code, and every statement
    that writes. An answer is the row with what the caller is told about it
    ([CipherDetails]), with the data of the cipher as Json.v renders it.
    Notifications and the event log are left out, but not the
    revision dates that are written for them. *)
From S2P Require Import Prelude Schema Roles Users Json Memberships Groups Collections VaultItems Ciphers Guards TwoFactors OneTimeCodes Policies EmergencyRows Organizations Sends Emergency Tokens Downloads.
Local Open Scope Z_scope.

(** The configuration that the handlers read, and code that is not the
    repository's: chrono and semver. *)
Class VaultConfig := {
  (** The address that links are built with; [headers.host] in the source. *)
  host : string;
  max_note_size : Z;
  user_attachment_limit : option Z;
  org_attachment_limit : option Z;
  (** [NaiveDateTime::parse_from_str(s, "%+")]. *)
  parse_iso8601 : string → option Z;
  (** [>=2024.12.0]. *)
  shows_ssh_keys : string → bool;
}.

(** ** Bodies of the requests *)

Module Attachments2Data.
Record t := mk { file_name : string; key : string }.
End Attachments2Data.
Module CipherData.
Record t := mk {
  id : option string; folder_id : option string; organization_id : option string; key : option string;
  type : Z; name : string; notes : option string; fields : option Json;
  login : option Json; secure_note : option Json; card : option Json; identity : option Json; ssh_key : option Json;
  favorite : option bool; reprompt : option Z; password_history : option Json;
  (** A HashMap, in the order of its iteration. *)
  attachments2 : option (list (string * Attachments2Data.t));
  last_known_revision_date : option string; archived_date : option string
}.
Definition eta (r : t) : t :=
  mk (id r) (folder_id r) (organization_id r) (key r) (type r) (name r) (notes r) (fields r) (login r) (secure_note r)
    (card r) (identity r) (ssh_key r) (favorite r) (reprompt r) (password_history r) (attachments2 r)
    (last_known_revision_date r) (archived_date r).
Definition set_folder_id : (option string → option string) → t → t := ltac:(make_setter eta folder_id).
Definition set_organization_id : (option string → option string) → t → t := ltac:(make_setter eta organization_id).
Definition set_last_known_revision_date : (option string → option string) → t → t :=
  ltac:(make_setter eta last_known_revision_date).
End CipherData.
Module PartialCipherData.
Record t := mk { folder_id : option string; favorite : bool }.
End PartialCipherData.
Module ShareCipherData.
Record t := mk { cipher : CipherData.t; collection_ids : list string }.
End ShareCipherData.
Module ShareSelectedCipherData.
Record t := mk { ciphers : list CipherData.t; collection_ids : list string }.
End ShareSelectedCipherData.
Module FolderData.
Record t := mk { name : string; id : option string }.
End FolderData.
Module ImportData.
Record t := mk { ciphers : list CipherData.t; folders : list FolderData.t; folder_relationships : list (nat * nat) }.
End ImportData.
Module AttachmentRequestData.
Record t := mk { key : string; file_name : string; file_size : NumberOrString; admin_request : option bool }.
End AttachmentRequestData.
(** The uploaded file: its length and its raw name. *)
Module UploadData.
Record t := mk { key : option string; length : Z; raw_name : option string }.
End UploadData.
Module MoveCipherData.
Record t := mk { folder_id : option string; ids : list string }.
End MoveCipherData.
Inductive CipherDeleteOptions := SoftSingle | SoftMulti | HardSingle | HardMulti.

(** [UpdateType], as far as the handlers of ciphers use it. *)
Inductive UpdateType := SyncCipherUpdate | SyncCipherCreate | UpdateNone.

(** What a request draws at random. *)
Record VaultDraws := { new_cipher_id : nat → string; new_folder_id : nat → string; new_attachment_id : string }.

(** ** Rendering *)

(** What [Cipher::to_json] tells the caller: the row, the attachments with
    their addresses and the names of their sizes, the collections, and for a user what concerns only him. *)
Module CipherDetails.
Record t := mk {
  row : Cipher.t; attachments : list (Attachment.t * (string * string)); collection_ids : list string; reprompt : Z;
  fields : list Json; password_history : list Json; type_data : Json;
  user_part : option (option string * bool * option Z * bool * bool)
}.
Definition edit (j : t) : option bool := (λ '(_, _, _, e, _), e) <$> user_part j.
Definition view_password (j : t) : option bool := (λ '(_, _, _, _, v), v) <$> user_part j.
End CipherDetails.

(** What a sync answers: profile, settings and keys are rendered from the row
    of the user and left out. *)
Module SyncAnswer.
Record t := mk {
  ciphers : list CipherDetails.t; collections : list (Collection.t * (bool * bool * bool)); folders : list Folder.t;
  sends : list Send.t; policies : list OrgPolicy.t
}.
End SyncAnswer.

Section vault.
Context `{E : Env} `{K : Codecs} `{C : Crypto} `{V : VaultConfig} `{J : JsonText}.
Context `{ST : SessionTokens} `{F : FileStore} `{TF : Jwt FileDownloadClaims.t}.

Fixpoint attachments_json (l : list Attachment.t) : Res (list (Attachment.t * (string * string))) :=
  match l with
  | [] => Ok []
  | a :: l =>
      match Attachment_to_json host a with
      | Err e => Err e
      | Ok j => match attachments_json l with Ok r => Ok ((a, j) :: r) | Err e => Err e end
      end
  end.

Definition reprompt_filter (r : option Z) : option Z :=
  match r with Some r => if (r =? 0) || (r =? 1) then Some r else None | None => None end.

Definition Cipher_to_json (c : Cipher.t) (user_uuid : string) (cipher_sync_data : option CipherSyncData.t)
    (sync_type : CipherSyncType) (d : DB) : Res CipherDetails.t :=
  let attachments := match cipher_sync_data with
    | Some sd => default [] (CipherSyncData.cipher_attachments sd !! Cipher.uuid c)
    | None => Attachment_find_by_cipher (Cipher.uuid c) d
    end in
  match attachments_json attachments with
  | Err e => Err e
  | Ok attachments =>
      let '(read_only, hide_passwords) := match sync_type with
        | SyncUser => match Cipher_get_access_restrictions c user_uuid cipher_sync_data d with
                      | Some (ro, hp, _) => (ro, hp)
                      | None => (true, true)
                      end
        | SyncOrganization => (false, false)
        end in
      let collection_ids := match cipher_sync_data with
        | Some sd => default [] (CipherSyncData.cipher_collections sd !! Cipher.uuid c)
        | None => Cipher_get_admin_collections c user_uuid d
        end in
      let user_part := match sync_type with
        | SyncUser => Some match cipher_sync_data with
            | Some sd => (CipherSyncData.cipher_folders sd !! Cipher.uuid c,
                          bool_decide (Cipher.uuid c ∈ CipherSyncData.cipher_favorites sd),
                          CipherSyncData.cipher_archives sd !! Cipher.uuid c, negb read_only, negb hide_passwords)
            | None => (Cipher_get_folder_uuid c user_uuid d, Favorite_is_favorite (Cipher.uuid c) user_uuid d,
                       Archive_get_archived_at (Cipher.uuid c) user_uuid d, negb read_only, negb hide_passwords)
            end
        | SyncOrganization => None
        end in
      if (1 <=? Cipher.atype c) && (Cipher.atype c <=? 8)
      then Ok (CipherDetails.mk c attachments collection_ids (default 0 (reprompt_filter (Cipher.reprompt c)))
              (fields_json (Cipher.fields c)) (password_history_json (Cipher.password_history c))
              (type_data_json (Cipher.atype c) (Cipher.data c)) user_part)
      else Err (MkError 400 ("Cipher " +:+ Cipher.uuid c +:+ " has an invalid type"))
  end.
Definition render (c : Cipher.t) (user_uuid : string) (sync_type : CipherSyncType) : M DB CipherDetails.t :=
  r ← gets (Cipher_to_json c user_uuid None sync_type);
  lift r.

(** ** Changing a cipher *)

Definition enforce_personal_ownership_policy (data : option CipherData.t) (headers : Headers.t) : M DB () :=
  if match data with None => true | Some data => bool_decide (CipherData.organization_id data = None) end then
    applies ← gets (OrgPolicy_is_applicable_to_user (User.uuid (Headers.user headers)) PersonalOwnership None);
    if (applies : bool)
    then err "Due to an Enterprise Policy, you are restricted from saving items to your personal vault." else mret ()
  else mret ().

(** [clean_cipher_data]; [None] is the panic on an entry that is no object. *)
Fixpoint clean_entries (l : list Json) : option (list Json) :=
  match l with
  | [] => Some []
  | v :: l =>
      match Json_remove "response" v, clean_entries l with
      | Some v, Some l => Some (v :: l)
      | _, _ => None
      end
  end.
Definition clean_cipher_data (v : Json) : option Json :=
  match v with JsArray l => JsArray <$> clean_entries l | _ => Some v end.

(** The check of the client's copy: at most a second older. *)
Definition is_stale (ut : UpdateType) (data : CipherData.t) (cipher : Cipher.t) : bool :=
  match ut, CipherData.last_known_revision_date data with
  | UpdateNone, _ | _, None => false
  | _, Some dt => match parse_iso8601 dt with
                  | None => false
                  | Some dt => 1 <? (Cipher.updated_at cipher - dt) ÷ 1000000
                  end
  end.

Definition notes_too_long (data : CipherData.t) : bool :=
  match CipherData.notes data with Some note => max_note_size <? Z.of_nat (String.length note) | None => false end.

(** The vault that the cipher goes to. *)
Definition place_cipher (cipher : Cipher.t) (data : CipherData.t) (headers : Headers.t)
    (shared_to_collections : option (list string)) : M DB Cipher.t :=
  let user_uuid := User.uuid (Headers.user headers) in
  match CipherData.organization_id data with
  | Some org_id =>
      om ← gets (Membership_find_confirmed_by_user_and_org user_uuid org_id);
      match om with
      | None => err "You don't have permission to add item to organization"
      | Some member =>
          writable ← gets (Cipher_is_write_accessible_to_user cipher user_uuid);
          if match shared_to_collections with Some cols => negb (bool_decide (cols = [])) | None => false end
             || Membership_has_full_access member || writable
          then mret (Cipher.set_user_uuid (λ _, None) (Cipher.set_organization_uuid (λ _, Some org_id) cipher))
          else err "You don't have permission to add cipher directly to organization"
      end
  | None => mret (Cipher.set_user_uuid (λ _, Some user_uuid) cipher)
  end.

Definition check_folder (folder_id : option string) (user_uuid : string) : M DB () :=
  match folder_id with
  | Some folder_id =>
      o ← gets (Folder_find_by_uuid_and_user folder_id user_uuid);
      if bool_decide (o = None) then err "Invalid folder" else mret ()
  | None => mret ()
  end.

(** The loop over the attachments: a missing one is skipped, one of another
    cipher ends it. *)
Fixpoint rename_attachments (cipher_uuid : string) (l : list (string * Attachments2Data.t)) : M DB () :=
  match l with
  | [] => mret ()
  | (id, attachment) :: l =>
      o ← gets (Attachment_find_by_id id);
      match o with
      | None => rename_attachments cipher_uuid l
      | Some saved_att =>
          if negb (Attachment.cipher_uuid saved_att == cipher_uuid) then mret () else
          Attachment_save (Attachment.set_file_name (λ _, Attachments2Data.file_name attachment)
            (Attachment.set_akey (λ _, Some (Attachments2Data.key attachment)) saved_att)) ;;
          rename_attachments cipher_uuid l
      end
  end.

Definition type_data (data : CipherData.t) : M DB Json :=
  type_data_opt ← match CipherData.type data with
    | 1 => mret (CipherData.login data)
    | 2 => mret (CipherData.secure_note data)
    | 3 => mret (CipherData.card data)
    | 4 => mret (CipherData.identity data)
    | 5 => mret (CipherData.ssh_key data)
    | _ => err "Invalid type"
    end;
  match type_data_opt with
  | None => err "Data missing"
  | Some data =>
      data ← unwrap (Json_remove "response" data);
      if Json_is_array (Json_get "uris" data) then
        uris ← unwrap (clean_cipher_data (Json_get "uris" data));
        mret (Json_set "uris" uris data)
      else mret data
  end.

Definition Cipher_set_archived_at (c : Cipher.t) (archived_at : Z) (user_uuid : string) : M DB () :=
  Archive_save user_uuid (Cipher.uuid c) archived_at.
Definition Cipher_unarchive (c : Cipher.t) (user_uuid : string) : M DB () :=
  Archive_delete_by_cipher user_uuid (Cipher.uuid c).

Definition update_cipher_from_data (cipher : Cipher.t) (data : CipherData.t) (headers : Headers.t)
    (shared_to_collections : option (list string)) (ut : UpdateType) : M DB Cipher.t :=
  let user_uuid := User.uuid (Headers.user headers) in
  enforce_personal_ownership_policy (Some data) headers ;;
  if is_stale ut data cipher
  then err "The client copy of this cipher is out of date. Resync the client and try again." else
  if bool_decide (is_Some (Cipher.organization_uuid cipher))
     && negb (Cipher.organization_uuid cipher == CipherData.organization_id data)
  then err "Organization mismatch. Please resync the client before updating the cipher" else
  if notes_too_long data then err "The field Notes exceeds the maximum encrypted value length" else
  cipher ← place_cipher cipher data headers shared_to_collections;
  check_folder (CipherData.folder_id data) user_uuid ;;
  rename_attachments (Cipher.uuid cipher) (default [] (CipherData.attachments2 data)) ;;
  type_data ← type_data data;
  fields ← match CipherData.fields data with
    | Some f => f ← unwrap (clean_cipher_data f); mret (Some (json_to_string f))
    | None => mret None
    end;
  let cipher := Cipher.set_key (λ _, CipherData.key data) cipher in
  let cipher := Cipher.set_name (λ _, CipherData.name data) cipher in
  let cipher := Cipher.set_notes (λ _, CipherData.notes data) cipher in
  let cipher := Cipher.set_fields (λ _, fields) cipher in
  let cipher := Cipher.set_data (λ _, json_to_string type_data) cipher in
  let cipher := Cipher.set_password_history (λ _, json_to_string <$> CipherData.password_history data) cipher in
  let cipher := Cipher.set_reprompt (λ _, reprompt_filter (CipherData.reprompt data)) cipher in
  cipher ← Cipher_save cipher;
  Cipher_move_to_folder (CipherData.folder_id data) user_uuid cipher ;;
  Cipher_set_favorite (CipherData.favorite data) user_uuid cipher ;;
  match CipherData.archived_date data with
  | Some dt_str => match parse_iso8601 dt_str with
                   | Some dt => Cipher_set_archived_at cipher dt user_uuid
                   | None => mret ()
                   end
  | None => mret ()
  end ;;
  match ut with UpdateNone => mret () | _ => Cipher_update_users_revision cipher ;; mret () end ;;
  mret cipher.

(** ** Reading *)

Fixpoint render_all (sd : CipherSyncData.t) (user_uuid : string) (l : list Cipher.t) : M DB (list CipherDetails.t) :=
  match l with
  | [] => mret []
  | c :: l =>
      r ← gets (Cipher_to_json c user_uuid (Some sd) SyncUser);
      j ← lift r;
      rest ← render_all sd user_uuid l;
      mret (j :: rest)
  end.

Definition sync (client_version : option string) (headers : Headers.t) : M DB SyncAnswer.t :=
  let user_uuid := User.uuid (Headers.user headers) in
  ciphers ← gets (Cipher_find_by_user_visible user_uuid);
  let show_ssh_keys := match client_version with Some v => shows_ssh_keys v | None => false end in
  let ciphers := if show_ssh_keys then ciphers else where_ (λ c, negb (Cipher.atype c =? 5)) ciphers in
  cipher_sync_data ← gets (CipherSyncData_new user_uuid SyncUser);
  ciphers ← render_all cipher_sync_data user_uuid ciphers;
  collections ← gets (λ d, (λ c, (c, Collection_details_flags c user_uuid d)) <$> Collection_find_by_user_uuid user_uuid d);
  folders ← gets (Folder_find_by_user user_uuid);
  sends ← gets (Send_find_by_user user_uuid);
  policies ← gets (OrgPolicy_find_confirmed_by_user user_uuid);
  mret (SyncAnswer.mk ciphers collections folders sends policies).

Definition get_ciphers (headers : Headers.t) : M DB (list CipherDetails.t) :=
  let user_uuid := User.uuid (Headers.user headers) in
  ciphers ← gets (Cipher_find_by_user_visible user_uuid);
  cipher_sync_data ← gets (CipherSyncData_new user_uuid SyncUser);
  render_all cipher_sync_data user_uuid ciphers.

Definition get_cipher (cipher_id : string) (headers : Headers.t) : M DB CipherDetails.t :=
  let user_uuid := User.uuid (Headers.user headers) in
  o ← gets (Cipher_find_by_uuid cipher_id);
  cipher ← some_or o "Cipher doesn't exist";
  accessible ← gets (Cipher_is_accessible_to_user cipher user_uuid);
  if negb accessible then err "Cipher is not owned by user" else
  render cipher user_uuid SyncUser.
Definition get_cipher_admin := get_cipher.
Definition get_cipher_details := get_cipher.

(** ** Sharing *)

(** The loop of [share_cipher_by_uuid] over the collections. *)
Fixpoint link_collections (cipher_uuid org_id user_uuid : string) (l : list string) : M DB (list string) :=
  match l with
  | [] => mret []
  | col_id :: l =>
      o ← gets (Collection_find_by_uuid_and_org col_id org_id);
      match o with
      | None => err "Invalid collection ID provided"
      | Some collection =>
          writable ← gets (Collection_is_writable_by_user (Collection.uuid collection) user_uuid);
          if (writable : bool) then
            CollectionCipher_save cipher_uuid (Collection.uuid collection) ;;
            rest ← link_collections cipher_uuid org_id user_uuid l;
            mret (Collection.uuid collection :: rest)
          else err "No rights to modify the collection"
      end
  end.

Definition share_cipher_by_uuid (cipher_id : string) (data : ShareCipherData.t) (headers : Headers.t)
    (override_ut : option UpdateType) : M DB CipherDetails.t :=
  let user_uuid := User.uuid (Headers.user headers) in
  let cipher_data := ShareCipherData.cipher data in
  o ← gets (Cipher_find_by_uuid cipher_id);
  cipher ← some_or o "Cipher doesn't exist";
  writable ← gets (Cipher_is_write_accessible_to_user cipher user_uuid);
  if negb writable then err "Cipher is not write accessible" else
  if bool_decide (is_Some (Cipher.organization_uuid cipher))
     && negb (Cipher.organization_uuid cipher == CipherData.organization_id cipher_data)
  then err "Organization mismatch. Please resync the client before updating the cipher" else
  shared_to_collections ← match CipherData.organization_id cipher_data with
    | Some organization_id => link_collections (Cipher.uuid cipher) organization_id user_uuid (ShareCipherData.collection_ids data)
    | None => mret []
    end;
  let ut := match override_ut with
    | Some ut => ut
    | None => if bool_decide (is_Some (CipherData.last_known_revision_date cipher_data)) then SyncCipherUpdate else SyncCipherCreate
    end in
  cipher ← update_cipher_from_data cipher cipher_data headers (Some shared_to_collections) ut;
  render cipher user_uuid SyncUser.
Definition post_cipher_share (cipher_id : string) (data : ShareCipherData.t) (headers : Headers.t) : M DB CipherDetails.t :=
  share_cipher_by_uuid cipher_id data headers None.
Definition put_cipher_share := post_cipher_share.

(** [put_cipher_share_selected]; the ciphers are taken from the end. *)
Definition put_cipher_share_selected (data : ShareSelectedCipherData.t) (headers : Headers.t) : M DB () :=
  let ciphers := ShareSelectedCipherData.ciphers data in
  let collection_ids := ShareSelectedCipherData.collection_ids data in
  if bool_decide (length ciphers = 0%nat) then err "You must select at least one cipher." else
  if bool_decide (collection_ids = []) then err "You must select at least one collection." else
  if existsb (λ c, bool_decide (CipherData.id c = None)) ciphers then err "Request missing ids field" else
  for_each (reverse ciphers) (λ cipher,
    id ← some_or (CipherData.id cipher) "Request missing ids field";
    share_cipher_by_uuid id (ShareCipherData.mk cipher collection_ids) headers (Some UpdateNone) ;; mret ()).

(** ** Creating and changing *)

Definition post_ciphers_create (draws : VaultDraws) (data : ShareCipherData.t) (headers : Headers.t) : M DB CipherDetails.t :=
  let user_uuid := User.uuid (Headers.user headers) in
  let cipher_data := ShareCipherData.cipher data in
  enforce_personal_ownership_policy (Some cipher_data) headers ;;
  let cipher := Cipher_new (new_cipher_id draws 0) (CipherData.type cipher_data) (CipherData.name cipher_data) in
  let cipher := Cipher.set_user_uuid (λ _, Some user_uuid) cipher in
  cipher ← Cipher_save cipher;
  let cipher_data := CipherData.set_last_known_revision_date (λ _, None) cipher_data in
  res ← answer (share_cipher_by_uuid (Cipher.uuid cipher)
                  (ShareCipherData.mk cipher_data (ShareCipherData.collection_ids data)) headers None);
  match res with
  | Ok j => mret j
  | Err e => if err_status e =? 500 then throw e else Cipher_delete cipher ;; throw e
  end.
Definition post_ciphers_admin := post_ciphers_create.

Definition post_ciphers (draws : VaultDraws) (data : CipherData.t) (headers : Headers.t) : M DB CipherDetails.t :=
  let data := CipherData.set_last_known_revision_date (λ _, None) data in
  cipher ← update_cipher_from_data (Cipher_new (new_cipher_id draws 0) (CipherData.type data) (CipherData.name data))
             data headers None SyncCipherCreate;
  render cipher (User.uuid (Headers.user headers)) SyncUser.

Definition put_cipher (cipher_id : string) (data : CipherData.t) (headers : Headers.t) : M DB CipherDetails.t :=
  let user_uuid := User.uuid (Headers.user headers) in
  o ← gets (Cipher_find_by_uuid cipher_id);
  cipher ← some_or o "Cipher doesn't exist";
  writable ← gets (Cipher_is_write_accessible_to_user cipher user_uuid);
  if negb writable then err "Cipher is not write accessible" else
  cipher ← update_cipher_from_data cipher data headers None SyncCipherUpdate;
  render cipher user_uuid SyncUser.
Definition post_cipher := put_cipher.
Definition put_cipher_admin := put_cipher.
Definition post_cipher_admin := put_cipher.

Definition put_cipher_partial (cipher_id : string) (data : PartialCipherData.t) (headers : Headers.t) : M DB CipherDetails.t :=
  let user_uuid := User.uuid (Headers.user headers) in
  o ← gets (Cipher_find_by_uuid cipher_id);
  cipher ← some_or o "Cipher does not exist";
  accessible ← gets (Cipher_is_accessible_to_user cipher user_uuid);
  if negb accessible then err "Cipher does not exist" else
  check_folder (PartialCipherData.folder_id data) user_uuid ;;
  Cipher_move_to_folder (PartialCipherData.folder_id data) user_uuid cipher ;;
  Cipher_set_favorite (Some (PartialCipherData.favorite data)) user_uuid cipher ;;
  render cipher user_uuid SyncUser.
Definition post_cipher_partial := put_cipher_partial.

(** [Cipher::validate_cipher_data]: the note is too long, or an entry of the
    password history has a password that is no string. *)
Definition invalid_history (v : option Json) : bool :=
  match v with
  | Some (JsArray l) => existsb (λ pwh, match pwh with
      | JsObject m => match Json_lookup "password" m with Some p => negb (Json_is_string p) | None => false end
      | _ => false
      end) l
  | _ => false
  end.
Definition Cipher_validate_cipher_data (cipher_data : list CipherData.t) : M DB () :=
  if existsb (λ c, notes_too_long c || invalid_history (CipherData.password_history c)) cipher_data
  then err "The model state is invalid." else mret ().

(** *** Import *)

Fixpoint import_folders (draws : VaultDraws) (n : nat) (existing : list (option string)) (user_uuid : string)
    (l : list FolderData.t) : M DB (list string) :=
  match l with
  | [] => mret []
  | folder :: l =>
      folder_id ← (if bool_decide (FolderData.id folder ∈ existing) then unwrap (FolderData.id folder)
                   else new_folder ← Folder_save (Folder_new (new_folder_id draws n) user_uuid (FolderData.name folder));
                        mret (Folder.uuid new_folder));
      rest ← import_folders draws (S n) existing user_uuid l;
      mret (folder_id :: rest)
  end.

(** [relations_map.get(&index)]; a later entry for the same cipher wins. *)
Definition relation_of (relations : list (nat * nat)) (index : nat) : option nat :=
  snd <$> List.find (λ '(k, _), bool_decide (k = index)) (reverse relations).

Fixpoint import_ciphers (draws : VaultDraws) (index : nat) (relations : list (nat * nat)) (folders : list string)
    (headers : Headers.t) (l : list CipherData.t) : M DB () :=
  match l with
  | [] => mret ()
  | cipher_data :: l =>
      let folder_id := i ← relation_of relations index; folders !! i in
      let cipher_data := CipherData.set_folder_id (λ _, folder_id) cipher_data in
      update_cipher_from_data (Cipher_new (new_cipher_id draws index) (CipherData.type cipher_data) (CipherData.name cipher_data))
        cipher_data headers None UpdateNone ;;
      import_ciphers draws (S index) relations folders headers l
  end.

Definition post_ciphers_import (draws : VaultDraws) (data : ImportData.t) (headers : Headers.t) : M DB () :=
  let user := Headers.user headers in
  enforce_personal_ownership_policy None headers ;;
  Cipher_validate_cipher_data (ImportData.ciphers data) ;;
  own ← gets (Folder_find_by_user (User.uuid user));
  folders ← import_folders draws 0 ((λ f, Some (Folder.uuid f)) <$> own) (User.uuid user) (ImportData.folders data);
  import_ciphers draws 0 (ImportData.folder_relationships data) folders headers (ImportData.ciphers data) ;;
  User_update_revision user.

(** *** The collections of a cipher *)

(** The loop over the symmetric difference; the order of a HashSet is
    unspecified. *)
Definition change_collections (cipher_uuid org_uuid user_uuid : string) (posted current : gset string) : M DB () :=
  for_each (elements (posted ∖ current) ++ elements (current ∖ posted)) (λ collection,
    o ← gets (Collection_find_by_uuid_and_org collection org_uuid);
    match o with
    | None => err "Invalid collection ID provided"
    | Some collection =>
        writable ← gets (Collection_is_writable_by_user (Collection.uuid collection) user_uuid);
        if (writable : bool) then
          if bool_decide (Collection.uuid collection ∈ posted)
          then CollectionCipher_save cipher_uuid (Collection.uuid collection)
          else CollectionCipher_delete cipher_uuid (Collection.uuid collection)
        else err "No rights to modify the collection"
    end).

Definition update_collections (admin : bool) (cipher_id : string) (collection_ids : list string) (headers : Headers.t)
    : M DB CipherDetails.t :=
  let user_uuid := User.uuid (Headers.user headers) in
  o ← gets (Cipher_find_by_uuid cipher_id);
  cipher ← some_or o "Cipher doesn't exist";
  editable ← gets (Cipher_is_in_editable_collection_by_user cipher user_uuid);
  if negb editable then err "Collection cannot be changed" else
  org_uuid ← some_or (Cipher.organization_uuid cipher) "Cipher is not owned by an organization";
  current ← gets (λ d, if admin then Cipher_get_admin_collections cipher user_uuid d else Cipher_get_collections cipher user_uuid d);
  change_collections (Cipher.uuid cipher) org_uuid user_uuid (list_to_set collection_ids) (list_to_set current) ;;
  Cipher_update_users_revision cipher ;;
  render cipher user_uuid (if admin then SyncOrganization else SyncUser).
Definition post_collections_update : string → list string → Headers.t → M DB CipherDetails.t := update_collections false.
Definition put_collections_update := post_collections_update.
Definition post_collections2_update := post_collections_update.
Definition put_collections2_update := post_collections_update.
Definition post_collections_admin : string → list string → Headers.t → M DB CipherDetails.t := update_collections true.
Definition put_collections_admin := post_collections_admin.

(** ** Attachments *)

Definition get_attachment (cipher_id attachment_id : string) (headers : Headers.t) : M DB (Attachment.t * (string * string)) :=
  o ← gets (Cipher_find_by_uuid cipher_id);
  cipher ← some_or o "Cipher doesn't exist";
  accessible ← gets (Cipher_is_accessible_to_user cipher (User.uuid (Headers.user headers)));
  if negb accessible then err "Cipher is not accessible" else
  oa ← gets (Attachment_find_by_id attachment_id);
  match oa with
  | Some attachment =>
      if cipher_id == Attachment.cipher_uuid attachment
      then j ← lift (Attachment_to_json host attachment); mret (attachment, j)
      else err "Attachment doesn't belong to cipher"
  | None => err "Attachment doesn't exist"
  end.

(** [r.expect(msg)] of a result. *)
Definition or_panic {A} (m : M DB A) (msg : string) : M DB A :=
  r ← answer m;
  match r with Ok a => mret a | Err _ => panic msg end.

Definition NumberOrString_into_i64 (x : NumberOrString) : Res Z :=
  match x with
  | Number n => Ok n
  | Str s => match parse_i64 s with Some n => Ok n | None => Err (MkError 400 "Can't convert to number") end
  end.

Definition post_attachment_v2 (draws : VaultDraws) (cipher_id : string) (data : AttachmentRequestData.t) (headers : Headers.t)
    : M DB (string * CipherDetails.t) :=
  let user_uuid := User.uuid (Headers.user headers) in
  o ← gets (Cipher_find_by_uuid cipher_id);
  cipher ← some_or o "Cipher doesn't exist";
  writable ← gets (Cipher_is_write_accessible_to_user cipher user_uuid);
  if negb writable then err "Cipher is not write accessible" else
  file_size ← lift (NumberOrString_into_i64 (AttachmentRequestData.file_size data));
  if file_size <? 0 then err "Attachment size can't be negative" else
  let attachment := Attachment_new (new_attachment_id draws) (Cipher.uuid cipher) (AttachmentRequestData.file_name data)
                      file_size (Some (AttachmentRequestData.key data)) in
  or_panic (Attachment_save attachment) "Error saving attachment" ;;
  j ← render cipher user_uuid SyncUser;
  mret (Attachment.id attachment, j).

(** [checked_mul], [checked_sub] and [checked_add] of [i64]. *)
Definition checked_i64 (n : Z) : option Z := if (- 2 ^ 63 <=? n) && (n <? 2 ^ 63) then Some n else None.

(** The space that is left: the limit in bytes, less what is used, plus the
    size that the attachment was announced with. *)
Definition size_left (limit_kb already_used size_adjust : Z) : option Z :=
  l ← checked_i64 (limit_kb * 1024);
  l ← checked_i64 (l - already_used);
  checked_i64 (l + size_adjust).

Definition limit_for (limit : option Z) (already_used : DB → Z) (size_adjust : Z) : M DB (option Z) :=
  match limit with
  | Some limit_kb =>
      if limit_kb =? 0 then err "Attachments are disabled" else
      already_used ← gets already_used;
      left ← some_or (size_left limit_kb already_used size_adjust) "Attachment size overflow";
      if left <=? 0 then err "Attachment storage limit reached! Delete some attachments to free up space" else
      mret (Some left)
  | None => mret None
  end.

Definition LEEWAY : Z := 1024 * 1024.

(** The row of an upload: the announced one with its real size, or a new one
    (legacy API). *)
Definition record_upload (draws : VaultDraws) (attachment : option Attachment.t) (cipher_id : string) (data : UploadData.t)
    (size : Z) : M DB () :=
  match attachment with
  | Some attachment =>
      max_size ← some_or (checked_i64 (Attachment.file_size attachment + LEEWAY)) "Invalid attachment size max";
      min_size ← some_or (checked_i64 (Attachment.file_size attachment - LEEWAY)) "Invalid attachment size min";
      if (min_size <=? size) && (size <=? max_size) then
        when (negb (size =? Attachment.file_size attachment))
          (or_panic (Attachment_save (Attachment.set_file_size (λ _, size) attachment)) "Error updating attachment")
      else ignore (Attachment_delete attachment) ;; err "Attachment size mismatch"
  | None =>
      match UploadData.raw_name data, UploadData.key data with
      | None, _ => err "No filename provided"
      | Some _, None => err "No attachment key provided"
      | Some encrypted_filename, Some key =>
          or_panic (Attachment_save (Attachment_new (new_attachment_id draws) cipher_id encrypted_filename size (Some key)))
            "Error saving attachment"
      end
  end.

Definition save_attachment (draws : VaultDraws) (attachment : option Attachment.t) (cipher_id : string) (data : UploadData.t)
    (headers : Headers.t) : M DB Cipher.t :=
  size ← some_or (checked_i64 (UploadData.length data)) "Attachment data size overflow";
  if size <? 0 then err "Attachment size can't be negative" else
  o ← gets (Cipher_find_by_uuid cipher_id);
  cipher ← some_or o "Cipher doesn't exist";
  writable ← gets (Cipher_is_write_accessible_to_user cipher (User.uuid (Headers.user headers)));
  if negb writable then err "Cipher is not write accessible" else
  let size_adjust := match attachment with None => 0 | Some a => Attachment.file_size a end in
  size_limit ← match Cipher.user_uuid cipher, Cipher.organization_uuid cipher with
    | Some user_id, _ => limit_for user_attachment_limit (Attachment_size_by_user user_id) size_adjust
    | None, Some org_id => limit_for org_attachment_limit (Attachment_size_by_org org_id) size_adjust
    | None, None => err "Cipher is neither owned by a user nor an organization"
    end;
  if match size_limit with Some size_limit => size_limit <? size | None => false end
  then err "Attachment storage limit exceeded with this file" else
  let file_id := match attachment with Some a => Attachment.id a | None => new_attachment_id draws end in
  record_upload draws attachment cipher_id data size ;;
  lift (write_file Attachments (cipher_id +:+ "/" +:+ file_id) true) ;;
  Cipher_update_users_revision cipher ;;
  mret cipher.

Definition post_attachment_v2_data (draws : VaultDraws) (cipher_id attachment_id : string) (data : UploadData.t)
    (headers : Headers.t) : M DB () :=
  oa ← gets (Attachment_find_by_id attachment_id);
  match oa with
  | Some attachment =>
      if cipher_id == Attachment.cipher_uuid attachment
      then save_attachment draws (Some attachment) cipher_id data headers ;; mret ()
      else err "Attachment doesn't belong to cipher"
  | None => err "Attachment doesn't exist"
  end.

Definition post_attachment (draws : VaultDraws) (cipher_id : string) (data : UploadData.t) (headers : Headers.t)
    : M DB CipherDetails.t :=
  cipher ← save_attachment draws None cipher_id data headers;
  render cipher (User.uuid (Headers.user headers)) SyncUser.
Definition post_attachment_admin := post_attachment.

Definition delete_cipher_attachment_by_id (cipher_id attachment_id : string) (headers : Headers.t) : M DB CipherDetails.t :=
  let user_uuid := User.uuid (Headers.user headers) in
  oa ← gets (Attachment_find_by_id attachment_id);
  attachment ← some_or oa "Attachment doesn't exist";
  if negb (Attachment.cipher_uuid attachment == cipher_id) then err "Attachment from other cipher" else
  o ← gets (Cipher_find_by_uuid cipher_id);
  cipher ← some_or o "Cipher doesn't exist";
  writable ← gets (Cipher_is_write_accessible_to_user cipher user_uuid);
  if negb writable then err "Cipher cannot be deleted by user" else
  Attachment_delete attachment ;;
  Cipher_update_users_revision cipher ;;
  render cipher user_uuid SyncUser.
Definition delete_attachment := delete_cipher_attachment_by_id.
Definition delete_attachment_admin := delete_cipher_attachment_by_id.
Definition delete_attachment_post := delete_cipher_attachment_by_id.
Definition delete_attachment_post_admin := delete_cipher_attachment_by_id.

Definition post_attachment_share (draws : VaultDraws) (cipher_id attachment_id : string) (data : UploadData.t)
    (headers : Headers.t) : M DB CipherDetails.t :=
  delete_cipher_attachment_by_id cipher_id attachment_id headers ;;
  post_attachment draws cipher_id data headers.

(** ** Deleting, restoring, moving and archiving *)

Definition is_soft (o : CipherDeleteOptions) : bool := match o with SoftSingle | SoftMulti => true | _ => false end.
Definition is_single (o : CipherDeleteOptions) : bool := match o with SoftSingle | HardSingle => true | _ => false end.

Definition delete_cipher_by_uuid (cipher_id : string) (headers : Headers.t) (delete_options : CipherDeleteOptions) : M DB () :=
  o ← gets (Cipher_find_by_uuid cipher_id);
  cipher ← some_or o "Cipher doesn't exist";
  writable ← gets (Cipher_is_write_accessible_to_user cipher (User.uuid (Headers.user headers)));
  if negb writable then err "Cipher can't be deleted by user" else
  cipher ← (if is_soft delete_options then Cipher_save (Cipher.set_deleted_at (λ _, Some now) cipher)
            else Cipher_delete cipher ;; mret cipher);
  when (is_single delete_options) (Cipher_update_users_revision cipher ;; mret ()).
Definition delete_cipher (cipher_id : string) (headers : Headers.t) : M DB () :=
  delete_cipher_by_uuid cipher_id headers HardSingle.
Definition delete_cipher_post := delete_cipher.
Definition delete_cipher_admin := delete_cipher.
Definition delete_cipher_post_admin := delete_cipher.
Definition delete_cipher_put (cipher_id : string) (headers : Headers.t) : M DB () :=
  delete_cipher_by_uuid cipher_id headers SoftSingle.
Definition delete_cipher_put_admin := delete_cipher_put.

Definition delete_multiple_ciphers (ids : list string) (headers : Headers.t) (delete_options : CipherDeleteOptions) : M DB () :=
  for_each ids (λ cipher_id, delete_cipher_by_uuid cipher_id headers delete_options).
Definition delete_cipher_selected (ids : list string) (headers : Headers.t) : M DB () :=
  delete_multiple_ciphers ids headers HardMulti.
Definition delete_cipher_selected_post := delete_cipher_selected.
Definition delete_cipher_selected_admin := delete_cipher_selected.
Definition delete_cipher_selected_post_admin := delete_cipher_selected.
Definition delete_cipher_selected_put (ids : list string) (headers : Headers.t) : M DB () :=
  delete_multiple_ciphers ids headers SoftMulti.
Definition delete_cipher_selected_put_admin := delete_cipher_selected_put.

Definition restore_cipher_by_uuid (cipher_id : string) (headers : Headers.t) (multi_restore : bool) : M DB CipherDetails.t :=
  let user_uuid := User.uuid (Headers.user headers) in
  o ← gets (Cipher_find_by_uuid cipher_id);
  cipher ← some_or o "Cipher doesn't exist";
  writable ← gets (Cipher_is_write_accessible_to_user cipher user_uuid);
  if negb writable then err "Cipher can't be restored by user" else
  cipher ← Cipher_save (Cipher.set_deleted_at (λ _, None) cipher);
  when (negb multi_restore) (Cipher_update_users_revision cipher ;; mret ()) ;;
  render cipher user_uuid SyncUser.
Definition restore_cipher_put (cipher_id : string) (headers : Headers.t) : M DB CipherDetails.t :=
  restore_cipher_by_uuid cipher_id headers false.
Definition restore_cipher_put_admin := restore_cipher_put.

(** The loop of the handlers that answer with a list. *)
Fixpoint each {A} (f : string → M DB A) (ids : list string) : M DB (list A) :=
  match ids with
  | [] => mret []
  | id :: ids => a ← f id; rest ← each f ids; mret (a :: rest)
  end.
Definition restore_multiple_ciphers (ids : list string) (headers : Headers.t) : M DB (list CipherDetails.t) :=
  each (λ cipher_id, restore_cipher_by_uuid cipher_id headers true) ids.
Definition restore_cipher_selected := restore_multiple_ciphers.
Definition restore_cipher_selected_admin := restore_multiple_ciphers.

Definition move_cipher_selected (data : MoveCipherData.t) (headers : Headers.t) : M DB () :=
  let user_id := User.uuid (Headers.user headers) in
  check_folder (MoveCipherData.folder_id data) user_id ;;
  accessible_ciphers ← gets (Cipher_find_by_user_and_ciphers user_id (MoveCipherData.ids data));
  for_each accessible_ciphers (λ cipher, Cipher_move_to_folder (MoveCipherData.folder_id data) user_id cipher) ;;
  if negb (bool_decide (length (MoveCipherData.ids data) = length accessible_ciphers))
  then err "Not all ciphers are moved!" else mret ().
Definition move_cipher_selected_put := move_cipher_selected.

Definition purge_org_vault (org_id : string) (master_password_hash otp : option string) (headers : OwnerHeaders.t) : M DB () :=
  if negb (org_id == OwnerHeaders.org_id headers) then err "Organization not found" else
  let user := OwnerHeaders.user headers in
  PasswordOrOtpData_validate master_password_hash otp user true ;;
  om ← gets (Membership_find_confirmed_by_user_and_org (User.uuid user) org_id);
  match om with
  | Some member =>
      if i32_eq_type (Membership.atype member) Owner then Cipher_delete_all_by_organization org_id
      else err "You don't have permission to purge the organization vault"
  | None => err "You don't have permission to purge the organization vault"
  end.

Definition purge_personal_vault (master_password_hash otp : option string) (headers : Headers.t) : M DB () :=
  let user := Headers.user headers in
  PasswordOrOtpData_validate master_password_hash otp user true ;;
  l ← gets (Cipher_find_owned_by_user (User.uuid user));
  for_each l Cipher_delete ;;
  fs ← gets (Folder_find_by_user (User.uuid user));
  for_each fs Folder_delete ;;
  User_update_revision user.

Definition archive_cipher (cipher_id : string) (headers : Headers.t) (multi_archive : bool) : M DB CipherDetails.t :=
  let user_uuid := User.uuid (Headers.user headers) in
  o ← gets (Cipher_find_by_uuid cipher_id);
  cipher ← some_or o "Cipher doesn't exist";
  accessible ← gets (Cipher_is_accessible_to_user cipher user_uuid);
  if negb accessible then err "Cipher is not accessible for the current user" else
  Cipher_set_archived_at cipher now user_uuid ;;
  when (negb multi_archive) (Cipher_update_users_revision cipher ;; mret ()) ;;
  render cipher user_uuid SyncUser.
Definition unarchive_cipher (cipher_id : string) (headers : Headers.t) (multi_unarchive : bool) : M DB CipherDetails.t :=
  let user_uuid := User.uuid (Headers.user headers) in
  o ← gets (Cipher_find_by_uuid cipher_id);
  cipher ← some_or o "Cipher doesn't exist";
  accessible ← gets (Cipher_is_accessible_to_user cipher user_uuid);
  if negb accessible then err "Cipher is not accessible for the current user" else
  Cipher_unarchive cipher user_uuid ;;
  when (negb multi_unarchive) (Cipher_update_users_revision cipher ;; mret ()) ;;
  render cipher user_uuid SyncUser.
Definition archive_cipher_put (cipher_id : string) (headers : Headers.t) : M DB CipherDetails.t :=
  archive_cipher cipher_id headers false.
Definition unarchive_cipher_put (cipher_id : string) (headers : Headers.t) : M DB CipherDetails.t :=
  unarchive_cipher cipher_id headers false.
Definition archive_multiple_ciphers (ids : list string) (headers : Headers.t) : M DB (list CipherDetails.t) :=
  each (λ cipher_id, archive_cipher cipher_id headers true) ids.
Definition archive_cipher_selected := archive_multiple_ciphers.
Definition unarchive_multiple_ciphers (ids : list string) (headers : Headers.t) : M DB (list CipherDetails.t) :=
  each (λ cipher_id, unarchive_cipher cipher_id headers true) ids.
Definition unarchive_cipher_selected := unarchive_multiple_ciphers.

(** The job [purge_trashed_ciphers]. *)
Definition purge_trashed_ciphers : M DB () := Cipher_purge_trash.

(** ** Folders *)

Definition get_folders (headers : Headers.t) : M DB (list Folder.t) :=
  gets (Folder_find_by_user (User.uuid (Headers.user headers))).
Definition own_folder (folder_id : string) (headers : Headers.t) : M DB Folder.t :=
  o ← gets (Folder_find_by_uuid_and_user folder_id (User.uuid (Headers.user headers)));
  some_or o "Invalid folder".
Definition get_folder := own_folder.
Definition post_folders (draws : VaultDraws) (data : FolderData.t) (headers : Headers.t) : M DB Folder.t :=
  Folder_save (Folder_new (new_folder_id draws 0) (User.uuid (Headers.user headers)) (FolderData.name data)).
Definition put_folder (folder_id : string) (data : FolderData.t) (headers : Headers.t) : M DB Folder.t :=
  folder ← own_folder folder_id headers;
  Folder_save (Folder.set_name (λ _, FolderData.name data) folder).
Definition post_folder := put_folder.
Definition delete_folder (folder_id : string) (headers : Headers.t) : M DB () :=
  folder ← own_folder folder_id headers;
  Folder_delete folder.
Definition delete_folder_post := delete_folder.
End vault.
