(* ===== verification/OrgCollections.v ===== *)
(** Collections and groups of an organization: the handlers.

    Models the routes of src/src/api/core/organizations.rs that create, change
    and delete collections and groups, that assign members, groups and ciphers
    to collections one by one and in bulk, and that import ciphers into an
    organization, with what they answer. A handler gets what its guard returned
    and the values that the request draws at random. Entries of the event log
    are left out. *)
From S2P Require Import Prelude Schema Roles Users Json TwoFactors OneTimeCodes EmergencyRows Memberships Groups Collections Guards VaultItems Ciphers Policies Organizations Emergency OrgJson Members Tokens Downloads Vault.
Local Open Scope Z_scope.

(** ** Bodies of the requests *)

Module CollectionGroupData.
Record t := mk { hide_passwords : bool; id : string; read_only : bool; manage : bool }.
End CollectionGroupData.
Module CollectionMembershipData.
Record t := mk { hide_passwords : bool; id : string; read_only : bool; manage : bool }.
End CollectionMembershipData.
Module FullCollectionData.
Record t := mk { name : string; groups : list CollectionGroupData.t; users : list CollectionMembershipData.t;
                 id : option string; external_id : option string }.
End FullCollectionData.
Module BulkCollectionAccessData.
Record t := mk { collection_ids : list string; groups : list CollectionGroupData.t;
                 users : list CollectionMembershipData.t }.
End BulkCollectionAccessData.
Module GroupRequest.
Record t := mk { name : string; access_all : bool; external_id : option string;
                 collections : list CollectionData.t; users : list string }.
End GroupRequest.
(** [ImportData] of organizations.rs; a relation is the index of a cipher and
    that of a collection. *)
Module OrgVaultImport.
Record t := mk { ciphers : list CipherData.t; collections : list FullCollectionData.t;
                 collection_relationships : list (nat * nat) }.
End OrgVaultImport.
(** [collection_ids] is a HashSet. *)
Module BulkCollectionsData.
Record t := mk { organization_id : string; cipher_ids : list string; collection_ids : gset string;
                 remove_collections : bool }.
End BulkCollectionsData.

(** [.find(|x| !ids.contains(x))]. *)
Definition outsider (ids known : list string) : bool := existsb (λ i, negb (bool_decide (i ∈ known))) ids.

(** [json!({ "data": .., "object": "list", "continuationToken": null })]. *)
Definition list_json (l : list Json) : Json :=
  json_object [("data", JsArray l); ("object", JsString "list"); ("continuationToken", JsNull)]%string.

(** The group as [add_update_group] answers it. *)
Definition group_answer (g : Group.t) : Json :=
  json_object [("id", JsString (Group.uuid g)); ("organizationId", JsString (Group.organizations_uuid g));
    ("name", JsString (Group.name g)); ("accessAll", JsBool (Group.access_all g));
    ("externalId", json_string_opt (Group.external_id g)); ("object", JsString "group")]%string.

Section org_collections.
Context `{E : Env} `{K : Codecs} `{C : Crypto} `{V : VaultConfig} `{J : JsonText}.
Context `{ST : SessionTokens} `{F : FileStore} `{TF : Jwt FileDownloadClaims.t}.
Context `{OC : OrgConfig} `{LT : LoginTokens}.

(** ** Collections: changing *)

Definition FullCollectionData_validate (data : FullCollectionData.t) (org_id : string) : M DB () :=
  org_groups ← gets (Group_find_by_organization org_id);
  if outsider (CollectionGroupData.id <$> FullCollectionData.groups data) (Group.uuid <$> org_groups)
  then err "Invalid group" else
  org_memberships ← gets (Membership_find_by_org org_id);
  if outsider (CollectionMembershipData.id <$> FullCollectionData.users data) (Membership.uuid <$> org_memberships)
  then err "Invalid member" else mret ().

(** The two loops that write the grants of a collection. *)
Definition grant_to_groups (org_id col_id : string) (l : list CollectionGroupData.t) : M DB () :=
  for_each l (λ group,
    CollectionGroup_save org_id (CollectionGroup_new col_id (CollectionGroupData.id group) (CollectionGroupData.read_only group)
      (CollectionGroupData.hide_passwords group) (CollectionGroupData.manage group))).
Definition grant_to_members (org_id col_id : string) (l : list CollectionMembershipData.t) : M DB () :=
  for_each l (λ user,
    o ← gets (Membership_find_by_uuid_and_org (CollectionMembershipData.id user) org_id);
    member ← some_or o "User is not part of organization";
    if Membership.access_all member then mret () else
    CollectionUser_save (Membership.user_uuid member) col_id (CollectionMembershipData.read_only user)
      (CollectionMembershipData.hide_passwords user) (CollectionMembershipData.manage user)).

Definition post_organization_collections (new_collection_id org_id : string) (data : FullCollectionData.t)
    (headers : ManagerHeadersLoose.t) : M DB Json :=
  let membership := ManagerHeadersLoose.membership headers in
  check_org org_id (Membership.org_uuid membership) ;;
  FullCollectionData_validate data org_id ;;
  if i32_eq_type (Membership.atype membership) Manager && negb (Membership.access_all membership)
  then err "You don't have permission to create collections" else
  let collection := Collection_new new_collection_id org_id (FullCollectionData.name data) (FullCollectionData.external_id data) in
  Collection_save collection ;;
  grant_to_groups org_id (Collection.uuid collection) (FullCollectionData.groups data) ;;
  grant_to_members org_id (Collection.uuid collection) (FullCollectionData.users data) ;;
  gets (Collection_to_json_details collection (Membership.user_uuid membership) None).

Definition post_bulk_access_collections (org_id : string) (data : BulkCollectionAccessData.t)
    (headers : ManagerHeadersLoose.t) : M DB () :=
  let membership := ManagerHeadersLoose.membership headers in
  check_org org_id (Membership.org_uuid membership) ;;
  org ← gets (Organization_find_by_uuid org_id);
  if bool_decide (org = None) then err "Can't find organization details" else
  org_groups ← gets (Group_find_by_organization org_id);
  if outsider (CollectionGroupData.id <$> BulkCollectionAccessData.groups data) (Group.uuid <$> org_groups)
  then err "Invalid group" else
  for_each (BulkCollectionAccessData.collection_ids data) (λ col_id,
    o ← gets (Collection_find_by_uuid_and_org col_id org_id);
    collection ← some_or o "Collection not found";
    manageable ← gets (Collection_is_coll_manageable_by_user (Collection.uuid collection) (Membership.user_uuid membership));
    if negb (manageable : bool) then err "Collection not found" else
    Collection_save collection ;;
    CollectionGroup_delete_all_by_collection col_id org_id ;;
    grant_to_groups org_id col_id (BulkCollectionAccessData.groups data) ;;
    CollectionUser_delete_all_by_collection col_id ;;
    grant_to_members org_id col_id (BulkCollectionAccessData.users data)).

Definition post_organization_collection_update (org_id col_id : string) (data : FullCollectionData.t)
    (headers : ManagerHeaders.t) : M DB Json :=
  check_org org_id (ManagerHeaders.org_id headers) ;;
  FullCollectionData_validate data org_id ;;
  org ← gets (Organization_find_by_uuid org_id);
  if bool_decide (org = None) then err "Can't find organization details" else
  o ← gets (Collection_find_by_uuid_and_org col_id org_id);
  collection ← some_or o "Collection not found";
  let collection := Collection.set_name (λ _, FullCollectionData.name data) collection in
  let collection := Collection.set_external_id (λ _,
    match FullCollectionData.external_id data with
    | Some external_id => if trim external_id == "" then None else Some external_id
    | None => None
    end) collection in
  Collection_save collection ;;
  CollectionGroup_delete_all_by_collection col_id org_id ;;
  grant_to_groups org_id col_id (FullCollectionData.groups data) ;;
  CollectionUser_delete_all_by_collection col_id ;;
  grant_to_members org_id col_id (FullCollectionData.users data) ;;
  gets (Collection_to_json_details collection (User.uuid (ManagerHeaders.user headers)) None).
Definition put_organization_collection_update := post_organization_collection_update.

Definition delete_organization_collection_impl (org_id col_id : string) (headers : ManagerHeaders.t) : M DB () :=
  check_org org_id (ManagerHeaders.org_id headers) ;;
  o ← gets (Collection_find_by_uuid_and_org col_id org_id);
  collection ← some_or o "Collection not found";
  Collection_delete collection.
Definition delete_organization_collection := delete_organization_collection_impl.
Definition post_organization_collection_delete := delete_organization_collection_impl.

Definition bulk_delete_organization_collections (org_id : string) (ids : list string) (headers : ManagerHeadersLoose.t) : M DB () :=
  check_org org_id (Membership.org_uuid (ManagerHeadersLoose.membership headers)) ;;
  headers ← ManagerHeaders_from_loose headers ids;
  for_each ids (λ col_id, delete_organization_collection_impl org_id col_id headers).

(** ** Collections: reading *)

Definition get_user_collections (headers : Headers.t) : M DB Json :=
  l ← gets (Collection_find_by_user_uuid (User.uuid (Headers.user headers)));
  mret (list_json (Collection_to_json <$> l)).

Definition get_org_collections_impl (org_id : string) (d : DB) : list Json :=
  Collection_to_json <$> Collection_find_by_organization org_id d.

Definition get_org_collections (org_id : string) (headers : ManagerHeadersLoose.t) : M DB Json :=
  let membership := ManagerHeadersLoose.membership headers in
  check_org org_id (Membership.org_uuid membership) ;;
  if negb (Membership_has_full_access membership) then err_code "Resource not found." 404 else
  l ← gets (get_org_collections_impl org_id);
  mret (list_json l).

(** [membership_type.get(..).unwrap_or(&(MembershipType::User as i32))]. *)
Definition confirmed_type (org_id member_id : string) (d : DB) : Z :=
  match first (where_ (λ m, Membership.uuid m == member_id) (Membership_find_confirmed_by_org org_id d)) with
  | Some m => Membership.atype m
  | None => MembershipType_as_i32 User_
  end.
Definition shown_grant (org_id : string) (d : DB) (cm : CollectionUser.t) : Json :=
  CollectionMembership_to_json_details_for_member cm (confirmed_type org_id (CollectionUser.user_uuid cm) d).
Definition shown_groups (col_id : string) (d : DB) : list Json :=
  if org_groups_enabled then CollectionGroup_to_json_details_for_group <$> CollectionGroup_find_by_collection col_id d else [].

Definition get_org_collections_details (org_id : string) (headers : ManagerHeadersLoose.t) : M DB Json :=
  check_org org_id (Membership.org_uuid (ManagerHeadersLoose.membership headers)) ;;
  let user_id := User.uuid (ManagerHeadersLoose.user headers) in
  om ← gets (Membership_find_by_user_and_org user_id org_id);
  member ← some_or om "User is not part of organization";
  d ← gets id;
  let col_users := CollectionUser_find_by_organization_swap_user_uuid_with_member_uuid org_id d in
  let has_full_access_to_org :=
    Membership_has_full_access member
    || (org_groups_enabled && GroupUser_has_full_access_by_member org_id (Membership.uuid member) d) in
  let manage_all_members :=
    (λ m, access_json (Membership.uuid m) false false true) <$> Membership_find_confirmed_and_manage_all_by_org org_id d in
  let assigned col :=
    has_full_access_to_org
    || CollectionUser_has_access_to_collection_by_user (Collection.uuid col) (Membership.user_uuid member) d
    || (org_groups_enabled && GroupUser_has_access_to_collection_by_member (Collection.uuid col) (Membership.uuid member) d) in
  let shown col :=
    let users := (shown_grant org_id d <$>
                  where_ (λ cm, CollectionUser.collection_uuid cm == Collection.uuid col) col_users) ++ manage_all_members in
    Json_set "unmanaged" no (Json_set "object" (JsString "collectionAccessDetails")
      (Json_set "groups" (JsArray (shown_groups (Collection.uuid col) d)) (Json_set "users" (JsArray users)
        (Json_set "assigned" (JsBool (assigned col)) (Collection_to_json_details col user_id None d))))) in
  mret (list_json (shown <$> where_ assigned (Collection_find_by_organization org_id d))).

Definition get_org_collection_detail (org_id col_id : string) (headers : ManagerHeaders.t) : M DB Json :=
  check_org org_id (ManagerHeaders.org_id headers) ;;
  let user_id := User.uuid (ManagerHeaders.user headers) in
  o ← gets (Collection_find_by_uuid_and_user col_id user_id);
  collection ← some_or o "Collection not found";
  if negb (Collection.org_uuid collection == org_id) then err "Collection is not owned by organization" else
  om ← gets (Membership_find_by_user_and_org user_id org_id);
  member ← some_or om "User is not part of organization";
  d ← gets id;
  let users := shown_grant org_id d <$>
    CollectionUser_find_by_org_and_coll_swap_user_uuid_with_member_uuid org_id (Collection.uuid collection) d in
  mret (Json_set "object" (JsString "collectionAccessDetails") (Json_set "groups" (JsArray (shown_groups (Collection.uuid collection) d))
    (Json_set "users" (JsArray users) (Json_set "assigned" (JsBool (Collection_can_access_collection member (Collection.uuid collection) d))
      (Collection_to_json_details collection user_id None d))))).

Definition get_collection_users (org_id col_id : string) (headers : ManagerHeaders.t) : M DB (list Json) :=
  check_org org_id (ManagerHeaders.org_id headers) ;;
  o ← gets (Collection_find_by_uuid_and_org col_id org_id);
  collection ← some_or o "Collection not found in Organization";
  col_users ← gets (CollectionUser_find_by_collection (Collection.uuid collection));
  traverse col_users (λ col_user,
    om ← gets (Membership_find_by_user_and_org (CollectionUser.user_uuid col_user) org_id);
    member ← unwrap om;
    mret (Membership_to_json_user_access_restrictions member col_user)).

(** ** Groups *)

Definition GroupRequest_to_group (group_uuid org_uuid : string) (r : GroupRequest.t) : Group.t :=
  Group_new trim group_uuid org_uuid (GroupRequest.name r) (GroupRequest.access_all r) (GroupRequest.external_id r).
Definition GroupRequest_update_group (r : GroupRequest.t) (g : Group.t) : Group.t :=
  Group.set_access_all (λ _, GroupRequest.access_all r) (Group.set_name (λ _, GroupRequest.name r) g).
Definition GroupRequest_validate (r : GroupRequest.t) (org_id : string) : M DB () :=
  org_collections ← gets (Collection_find_by_organization org_id);
  if outsider (CollectionData.id <$> GroupRequest.collections r) (Collection.uuid <$> org_collections)
  then err "Invalid collection" else
  org_memberships ← gets (Membership_find_by_org org_id);
  if outsider (GroupRequest.users r) (Membership.uuid <$> org_memberships) then err "Invalid member" else mret ().

Definition CollectionData_to_collection_group (groups_uuid : string) (c : CollectionData.t) : CollectionGroup.t :=
  CollectionGroup_new (CollectionData.id c) groups_uuid (CollectionData.read_only c) (CollectionData.hide_passwords c)
    (CollectionData.manage c).

Definition add_update_group (group : Group.t) (collections : list CollectionData.t) (members : list string) (org_id : string)
    : M DB Json :=
  group ← Group_save group;
  for_each collections (λ col_selection,
    CollectionGroup_save org_id (CollectionData_to_collection_group (Group.uuid group) col_selection)) ;;
  for_each members (λ assigned_member, GroupUser_save (GroupUser_new (Group.uuid group) assigned_member)) ;;
  mret (group_answer group).

(** [if org_id != headers.org_id] and [if !CONFIG.org_groups_enabled()]. *)
Definition check_groups (org_id : string) (headers : AdminHeaders.t) : M DB () :=
  check_org org_id (AdminHeaders.org_id headers) ;;
  if negb org_groups_enabled then err "Group support is disabled" else mret ().

Definition post_groups (new_group_id org_id : string) (data : GroupRequest.t) (headers : AdminHeaders.t) : M DB Json :=
  check_groups org_id headers ;;
  GroupRequest_validate data org_id ;;
  add_update_group (GroupRequest_to_group new_group_id org_id data) (GroupRequest.collections data) (GroupRequest.users data) org_id.

Definition put_group (org_id group_id : string) (data : GroupRequest.t) (headers : AdminHeaders.t) : M DB Json :=
  check_groups org_id headers ;;
  o ← gets (Group_find_by_uuid_and_org group_id org_id);
  group ← some_or o "Group not found";
  GroupRequest_validate data org_id ;;
  let updated_group := GroupRequest_update_group data group in
  CollectionGroup_delete_all_by_group group_id org_id ;;
  GroupUser_delete_all_by_group group_id org_id ;;
  add_update_group updated_group (GroupRequest.collections data) (GroupRequest.users data) org_id.
Definition post_group := put_group.

Definition delete_group_impl (org_id group_id : string) (headers : AdminHeaders.t) : M DB () :=
  check_groups org_id headers ;;
  o ← gets (Group_find_by_uuid_and_org group_id org_id);
  group ← some_or o "Group not found";
  Group_delete org_id group.
Definition delete_group := delete_group_impl.
Definition post_delete_group := delete_group_impl.

Definition bulk_delete_groups (org_id : string) (ids : list string) (headers : AdminHeaders.t) : M DB () :=
  check_groups org_id headers ;;
  for_each ids (λ group_id, delete_group_impl org_id group_id headers).

Definition put_group_members (org_id group_id : string) (assigned_members : list string) (headers : AdminHeaders.t) : M DB () :=
  check_groups org_id headers ;;
  o ← gets (Group_find_by_uuid_and_org group_id org_id);
  if bool_decide (o = None) then err "Group could not be found!" else
  org_memberships ← gets (Membership_find_by_org org_id);
  if outsider assigned_members (Membership.uuid <$> org_memberships) then err "Invalid member" else
  GroupUser_delete_all_by_group group_id org_id ;;
  for_each assigned_members (λ assigned_member, GroupUser_save (GroupUser_new group_id assigned_member)).

Definition post_delete_group_member (org_id group_id member_id : string) (headers : AdminHeaders.t) : M DB () :=
  check_groups org_id headers ;;
  om ← gets (Membership_find_by_uuid_and_org member_id org_id);
  if bool_decide (om = None) then err "User could not be found or does not belong to the organization." else
  o ← gets (Group_find_by_uuid_and_org group_id org_id);
  if bool_decide (o = None) then err "Group could not be found or does not belong to the organization." else
  GroupUser_delete_by_group_and_member group_id member_id.

Definition get_groups_data (details : bool) (org_id : string) (headers : ManagerHeadersLoose.t) : M DB Json :=
  let membership := ManagerHeadersLoose.membership headers in
  check_org org_id (Membership.org_uuid membership) ;;
  d ← gets id;
  let has_full_access := Membership_has_full_access membership
    || (org_groups_enabled && GroupUser_has_full_access_by_member org_id (Membership.uuid membership) d) in
  let allowed := if details then has_full_access
    else has_full_access || Collection_has_manageable_collection_by_user org_id (Membership.user_uuid membership) d in
  if negb allowed then err_code "Resource not found." 404 else
  let groups := if org_groups_enabled then Group_find_by_organization org_id d else [] in
  mret (list_json ((λ g, if details then Group_to_json_details g d else Group_to_json g) <$> groups)).
Definition get_groups := get_groups_data false.
Definition get_groups_details := get_groups_data true.

Definition get_group_details (org_id group_id : string) (headers : AdminHeaders.t) : M DB Json :=
  check_groups org_id headers ;;
  o ← gets (Group_find_by_uuid_and_org group_id org_id);
  group ← some_or o "Group not found";
  gets (Group_to_json_details group).
Definition get_group (org_id group_id : string) (headers : AdminHeaders.t) : M DB Json :=
  check_groups org_id headers ;;
  o ← gets (Group_find_by_uuid_and_org group_id org_id);
  group ← some_or o "Group not found";
  mret (Group_to_json group).
Definition get_group_members (org_id group_id : string) (headers : AdminHeaders.t) : M DB (list string) :=
  check_groups org_id headers ;;
  o ← gets (Group_find_by_uuid_and_org group_id org_id);
  if bool_decide (o = None) then err "Group could not be found!" else
  l ← gets (GroupUser_find_by_group group_id org_id);
  mret (GroupUser.users_organizations_uuid <$> l).

(** ** Ciphers in collections *)

(** [f(..).await.ok()]: a panic is not caught. *)
Definition ok_unless_panic {A} (m : M DB A) : M DB () := λ d,
  match m d with
  | (Err e, d') => if err_status e =? 500 then (Err e, d') else (Ok (), d')
  | (Ok _, d') => (Ok (), d')
  end.

(** The collection that an entry of the import stands for. *)
Definition import_collection (new_id org_id : string) (membership : Membership.t) (existing : list Collection.t)
    (col : FullCollectionData.t) : M DB string :=
  match FullCollectionData.id col ≫= λ col_id, first (where_ (λ c, Collection.uuid c == col_id) existing) with
  | Some collection =>
      writable ← gets (Collection_is_writable_by_user (Collection.uuid collection) (Membership.user_uuid membership));
      if i32_lt_type (Membership.atype membership) Admin && negb writable
      then err "The current user isn't allowed to manage this collection" else mret (Collection.uuid collection)
  | None =>
      if i32_le_type (Membership.atype membership) Manager && negb (Membership_has_full_access membership)
      then err "The current user isn't allowed to create new collections" else
      let new_collection := Collection_new new_id org_id (FullCollectionData.name col) (FullCollectionData.external_id col) in
      Collection_save new_collection ;;
      mret (Collection.uuid new_collection)
  end.

(** A cipher of the import: without a folder, and in the organization. *)
Definition import_cipher (new_id org_id : string) (collections : list string) (headers : Headers.t) (cipher_data : CipherData.t)
    : M DB string :=
  let cipher_data := CipherData.set_organization_id (λ _, Some org_id) (CipherData.set_folder_id (λ _, None) cipher_data) in
  let cipher := Cipher_new new_id (CipherData.type cipher_data) (CipherData.name cipher_data) in
  ok_unless_panic (update_cipher_from_data cipher cipher_data headers (Some collections) UpdateNone) ;;
  mret (Cipher.uuid cipher).

Definition post_org_import (draws : VaultDraws) (new_collection_id : nat → string) (org_id : string) (data : OrgVaultImport.t)
    (headers : OrgMemberHeaders.t) : M DB () :=
  let membership := OrgMemberHeaders.membership headers in
  check_org org_id (Membership.org_uuid membership) ;;
  Cipher_validate_cipher_data (OrgVaultImport.ciphers data) ;;
  existing ← gets (Collection_find_by_organization org_id);
  collections ← traverse (imap pair (OrgVaultImport.collections data)) (λ '(n, col),
    import_collection (new_collection_id n) org_id membership existing col);
  let headers := Headers.mk (OrgMemberHeaders.device headers) (OrgMemberHeaders.user headers) (OrgMemberHeaders.ip headers) in
  ciphers ← traverse (imap pair (OrgVaultImport.ciphers data)) (λ '(n, cipher_data),
    import_cipher (new_cipher_id draws n) org_id collections headers cipher_data);
  for_each (OrgVaultImport.collection_relationships data) (λ '(cipher_index, col_index),
    match ciphers !! cipher_index, collections !! col_index with
    | Some cipher_id, Some col_id => CollectionCipher_save cipher_id col_id
    | _, _ => err "Invalid collection relationship"
    end) ;;
  User_update_revision (Headers.user headers).

(** The order of a HashSet is unspecified. *)
Definition post_bulk_collections (data : BulkCollectionsData.t) (headers : Headers.t) : M DB () :=
  let user_id := User.uuid (Headers.user headers) in
  let org_id := BulkCollectionsData.organization_id data in
  let ids := elements (BulkCollectionsData.collection_ids data) in
  om ← gets (Membership_find_confirmed_by_user_and_org user_id org_id);
  if bool_decide (om = None) then err "You need to be a Member of the Organization to call this endpoint" else
  user_collections ← gets (Collection_find_by_organization_and_user_uuid org_id user_id);
  for_each ids (λ collection_uuid,
    match first (where_ (λ c, Collection.uuid c == collection_uuid) user_collections) with
    | Some collection =>
        writable ← gets (Collection_is_writable_by_user (Collection.uuid collection) user_id);
        if (writable : bool) then mret () else err_code "Resource not found" 404
    | None => err_code "Resource not found" 404
    end) ;;
  for_each (BulkCollectionsData.cipher_ids data) (λ cipher_id,
    o ← gets (Cipher_find_by_uuid_and_org cipher_id org_id);
    match o with
    | Some cipher =>
        writable ← gets (Cipher_is_write_accessible_to_user cipher user_id);
        when writable (for_each ids (λ collection,
          if BulkCollectionsData.remove_collections data
          then CollectionCipher_delete (Cipher.uuid cipher) collection
          else CollectionCipher_save (Cipher.uuid cipher) collection))
    | None => mret ()
    end).
End org_collections.
