(* ===== verification/OrgListings.v ===== *)
(** Organizations: settings, keys and listings.

    Models the routes of src/src/api/core/organizations.rs that show or change
    an organization as a whole, list its members and policies, answer with keys
    and passwords that only administrators may have, and export its vault.
    Entries of the event log are left out. *)
From S2P Require Import Prelude Schema Roles Users Json TwoFactors OneTimeCodes EmergencyRows Memberships Groups Collections Guards VaultItems Ciphers Policies Organizations Emergency OrgJson Members Tokens Downloads Vault OrgCollections.
Local Open Scope Z_scope.

Module OrganizationUpdateData.
Record t := mk { billing_email : string; name : string }.
End OrganizationUpdateData.
Module OrgKeyData.
Record t := mk { encrypted_private_key : string; public_key : string }.
End OrgKeyData.
Module GetOrgUserData.
Record t := mk { include_collections : option bool; include_groups : option bool }.
End GetOrgUserData.
Module OrgExport.
Record t := mk { collections : Json; ciphers : list CipherDetails.t }.
End OrgExport.

Section org_listings.
Context `{E : Env} `{K : Codecs} `{P : PolicyJson} `{C : Crypto} `{V : VaultConfig} `{J : JsonText}.
Context `{ST : SessionTokens} `{F : FileStore} `{TF : Jwt FileDownloadClaims.t}.
Context `{OC : OrgConfig} `{IT : OrgInviteTokens}.

(** ** The organization *)

Definition get_organization (org_id : string) (headers : OwnerHeaders.t) : M DB Json :=
  check_org org_id (OwnerHeaders.org_id headers) ;;
  o ← gets (Organization_find_by_uuid org_id);
  organization ← some_or o "Can't find organization details";
  mret (Organization_to_json organization).

Definition post_organization (org_id : string) (data : OrganizationUpdateData.t) (headers : OwnerHeaders.t) : M DB Json :=
  check_org org_id (OwnerHeaders.org_id headers) ;;
  o ← gets (Organization_find_by_uuid org_id);
  org ← some_or o "Organization not found";
  let org := Organization.mk (Organization.uuid org) (OrganizationUpdateData.name data)
    (to_lowercase (OrganizationUpdateData.billing_email data)) (Organization.private_key org) (Organization.public_key org) in
  Organization_save org ;;
  mret (Organization_to_json org).
Definition put_organization := post_organization.

Definition get_auto_enroll_status (identifier : string) (headers : Headers.t) : M DB Json :=
  d ← gets id;
  let org :=
    if identifier == FAKE_SSO_IDENTIFIER then
      match Membership_find_main_user_org (User.uuid (Headers.user headers)) d with
      | Some member => Organization_find_by_uuid (Membership.org_uuid member) d
      | None => None
      end
    else Organization_find_by_uuid identifier d in
  let '(id, identifier, rp_auto_enroll) :=
    match org with
    | None => (identifier, identifier, false)
    | Some org => (Organization.uuid org, Organization.uuid org, OrgPolicy_org_is_reset_password_auto_enroll (Organization.uuid org) d)
    end in
  mret (json_object [("id", JsString id); ("identifier", JsString identifier); ("resetPasswordEnabled", JsBool rp_auto_enroll)]%string).

Definition get_org_domain_sso_verified : Json :=
  list_json [json_object [("organizationIdentifier", JsString FAKE_SSO_IDENTIFIER); ("organizationName", JsString FAKE_SSO_IDENTIFIER);
                          ("domainName", JsString domain)]%string].

Definition post_org_keys (org_id : string) (data : OrgKeyData.t) (headers : AdminHeaders.t) : M DB Json :=
  check_org org_id (AdminHeaders.org_id headers) ;;
  o ← gets (Organization_find_by_uuid org_id);
  match o with
  | None => err "Can't find organization details"
  | Some org =>
      if Organization_has_keys org then err "Organization Keys already exist" else
      let org := Organization.mk (Organization.uuid org) (Organization.name org) (Organization.billing_email org)
        (Some (OrgKeyData.encrypted_private_key data)) (Some (OrgKeyData.public_key data)) in
      Organization_save org ;;
      mret (json_object [("object", JsString "organizationKeys"); ("publicKey", json_string_opt (Organization.public_key org));
                         ("privateKey", json_string_opt (Organization.private_key org))]%string)
  end.

Definition get_organization_public_key (org_id : string) (headers : OrgMemberHeaders.t) : M DB Json :=
  check_org org_id (Membership.org_uuid (OrgMemberHeaders.membership headers)) ;;
  o ← gets (Organization_find_by_uuid org_id);
  org ← some_or o "Organization not found";
  mret (json_object [("object", JsString "organizationPublicKey"); ("publicKey", json_string_opt (Organization.public_key org))]%string).
Definition get_organization_keys := get_organization_public_key.

(** [org_api_key.save(..).expect(..)]. *)
Definition api_key (new_key_id new_api_key org_id : string) (master_password_hash otp : option string) (rotate : bool)
    (headers : AdminHeaders.t) : M DB Json :=
  check_org org_id (AdminHeaders.org_id headers) ;;
  PasswordOrOtpData_validate master_password_hash otp (AdminHeaders.user headers) true ;;
  o ← gets (OrganizationApiKey_find_by_org_uuid org_id);
  org_api_key ← match o with
    | Some k =>
        if (rotate : bool) then
          let k := OrganizationApiKey.mk (OrganizationApiKey.uuid k) (OrganizationApiKey.org_uuid k) (OrganizationApiKey.atype k)
            new_api_key now in
          or_panic (OrganizationApiKey_save k) "Error rotating organization API Key" ;;
          mret k
        else mret k
    | None =>
        let k := OrganizationApiKey_new new_key_id org_id new_api_key in
        or_panic (OrganizationApiKey_save k) "Error creating organization API Key" ;;
        mret k
    end;
  mret (json_object [("apiKey", JsString (OrganizationApiKey.api_key org_api_key));
    ("revisionDate", JsString (format_date (OrganizationApiKey.revision_date org_api_key))); ("object", JsString "apiKey")]%string).
Definition post_api_key_org (new_key_id new_api_key org_id : string) (hash otp : option string) :=
  api_key new_key_id new_api_key org_id hash otp false.
Definition rotate_api_key_org (new_key_id new_api_key org_id : string) (hash otp : option string) :=
  api_key new_key_id new_api_key org_id hash otp true.

(** ** Members *)

Definition get_members (org_id : string) (data : GetOrgUserData.t) (headers : ManagerHeadersLoose.t) : M DB Json :=
  let membership := ManagerHeadersLoose.membership headers in
  check_org org_id (Membership.org_uuid membership) ;;
  if negb (Membership_has_full_access membership) then err_code "Resource not found." 404 else
  l ← gets (Membership_find_by_org org_id);
  users_json ← traverse l (Membership_to_json_user_details (default false (GetOrgUserData.include_collections data))
                             (default false (GetOrgUserData.include_groups data)));
  mret (list_json users_json).

Definition get_org_user_mini_details (org_id : string) (headers : ManagerHeadersLoose.t) : M DB Json :=
  check_org org_id (Membership.org_uuid (ManagerHeadersLoose.membership headers)) ;;
  l ← gets (Membership_find_by_org org_id);
  members_json ← traverse l Membership_to_json_mini_details;
  mret (list_json members_json).

Definition get_org_user (org_id member_id : string) (data : GetOrgUserData.t) (headers : AdminHeaders.t) : M DB Json :=
  check_org org_id (AdminHeaders.org_id headers) ;;
  o ← gets (Membership_find_by_uuid_and_org member_id org_id);
  user ← some_or o "The specified user isn't a member of the organization";
  let include_groups := default false (GetOrgUserData.include_groups data) in
  Membership_to_json_user_details (default include_groups (GetOrgUserData.include_collections data)) include_groups user.

Definition bulk_public_keys (org_id : string) (ids : list string) (headers : AdminHeaders.t) : M DB Json :=
  check_org org_id (AdminHeaders.org_id headers) ;;
  d ← gets id;
  mret (list_json (omap (λ member_id,
    member ← Membership_find_by_uuid_and_org member_id org_id d;
    user ← User_find_by_uuid (Membership.user_uuid member) d;
    Some (json_object [("object", JsString "organizationUserPublicKeyResponseModel"); ("id", JsString member_id);
                       ("userId", JsString (User.uuid user)); ("key", json_string_opt (User.public_key user))]%string)) ids)).

Definition get_reset_password_details (org_id member_id : string) (headers : AdminHeaders.t) : M DB Json :=
  check_org org_id (AdminHeaders.org_id headers) ;;
  o ← gets (Organization_find_by_uuid org_id);
  org ← some_or o "Required organization not found";
  om ← gets (Membership_find_by_uuid_and_org member_id org_id);
  member ← some_or om "User to reset isn't member of required organization";
  ou ← gets (User_find_by_uuid (Membership.user_uuid member));
  user ← some_or ou "User not found";
  check_reset_password_applicable_and_permissions org_id member_id headers ;;
  mret (json_object [("object", JsString "organizationUserResetPasswordDetails"); ("organizationUserId", JsString member_id);
    ("kdf", json_number (User.client_kdf_type user)); ("kdfIterations", json_number (User.client_kdf_iter user));
    ("kdfMemory", json_opt json_number (User.client_kdf_memory user));
    ("kdfParallelism", json_opt json_number (User.client_kdf_parallelism user));
    ("resetPasswordKey", json_string_opt (Membership.reset_password_key member));
    ("encryptedPrivateKey", json_string_opt (Organization.private_key org))]%string).

(** ** Policies *)

Definition list_policies (org_id : string) (headers : AdminHeaders.t) : M DB Json :=
  check_org org_id (AdminHeaders.org_id headers) ;;
  l ← gets (OrgPolicy_find_by_org org_id);
  mret (list_json (OrgPolicy_to_json <$> l)).

Definition list_policies_token (org_id token : string) : M DB Json :=
  invite ← lift (decode_invite token);
  if negb (InviteJwtClaims.org_id invite == org_id) then err "Token doesn't match request organization" else
  if org_id == FAKE_ADMIN_UUID then mret (JsObject []) else
  l ← gets (OrgPolicy_find_by_org org_id);
  mret (list_json (OrgPolicy_to_json <$> l)).

(** [validate_sso_master_password_policy(..).ok().flatten()]. *)
Definition sso_master_password_policy_value : option Json :=
  text ← sso_master_password_policy;
  match json_from_str text with Some (JsObject m) => Some (Json_value (JsObject m)) | _ => None end.
Definition default_master_password_policy : bool * string :=
  match sso_master_password_policy_value with
  | Some policy => if sso_enabled then (true, json_to_string policy) else (false, "null")
  | None => (false, "null")
  end%string.
Definition get_dummy_master_password_policy (new_policy_id : string) : Json :=
  let '(enabled, data) := default_master_password_policy in
  OrgPolicy_to_json (OrgPolicy_new new_policy_id FAKE_SSO_IDENTIFIER MasterPassword enabled data).
Definition get_master_password_policy (new_policy_id org_id : string) (headers : OrgMemberHeaders.t) : M DB Json :=
  o ← gets (OrgPolicy_find_by_org_and_type org_id MasterPassword);
  let '(enabled, data) := default_master_password_policy in
  mret (OrgPolicy_to_json (default (OrgPolicy_new new_policy_id org_id MasterPassword enabled data) o)).

Definition get_policy (new_policy_id org_id : string) (pol_type : Z) (headers : AdminHeaders.t) : M DB Json :=
  check_org org_id (AdminHeaders.org_id headers) ;;
  pol_type_enum ← some_or (OrgPolicyType_from_i32 pol_type) "Invalid or unsupported policy type";
  o ← gets (OrgPolicy_find_by_org_and_type org_id pol_type_enum);
  mret (OrgPolicy_to_json (default (OrgPolicy_new new_policy_id org_id pol_type_enum false "null") o)).

(** ** The vault of the organization *)

Definition get_org_details_impl (org_id user_id : string) : M DB (list CipherDetails.t) :=
  ciphers ← gets (Cipher_find_by_org org_id);
  sd ← gets (CipherSyncData_new user_id SyncOrganization);
  traverse ciphers (λ c, r ← gets (Cipher_to_json c user_id (Some sd) SyncOrganization); lift r).

Definition get_org_details (organization_id : string) (headers : ManagerHeadersLoose.t) : M DB (list CipherDetails.t) :=
  let membership := ManagerHeadersLoose.membership headers in
  if negb (organization_id == Membership.org_uuid membership) then err_code "Resource not found." 404 else
  if negb (Membership_has_full_access membership) then err_code "Resource not found." 404 else
  get_org_details_impl organization_id (User.uuid (ManagerHeadersLoose.user headers)).

Definition get_org_export (org_id : string) (headers : AdminHeaders.t) : M DB OrgExport.t :=
  check_org org_id (AdminHeaders.org_id headers) ;;
  collections ← gets (get_org_collections_impl org_id);
  ciphers ← get_org_details_impl org_id (User.uuid (AdminHeaders.user headers));
  mret (OrgExport.mk (convert_json_key_lcase_first (JsArray collections)) ciphers).

(** ** Constant answers *)

Definition get_plans : Json :=
  let plan n := json_object [("object", JsString "plan"); ("type", json_number 0); ("product", json_number n); ("name", JsString "Free");
    ("nameLocalizationKey", JsString "planNameFree"); ("bitwardenProduct", json_number n); ("maxUsers", json_number 0);
    ("descriptionLocalizationKey", JsString "planDescFree")]%string in
  list_json [plan 0; plan 1].
Definition empty_data_json : Json := list_json [].
Definition get_billing_metadata : Json := empty_data_json.
Definition get_billing_warnings : Json :=
  json_object [("freeTrial", JsNull); ("inactiveSubscription", JsNull); ("resellerRenewal", JsNull); ("taxId", JsNull)]%string.
Definition get_self_host_billing_metadata : Json :=
  json_object [("isOnSecretsManagerStandalone", no); ("organizationOccupiedSeats", json_number 0)]%string.
End org_listings.
