(* ===== verification/SendRequests.v ===== *)
(** The handlers on Sends.

    Models src/src/api/core/sends.rs, with the rendering of a Send and the
    total of its files ([to_json], [to_json_access] and [size_by_user] of
    db/models/send.rs). Each handler is the whole function, in the order of the
    code; a notification is left out, but not the revision date that is written
    for it. serde_json, base64 and the uuid crate are parameters. *)
From stdpp Require Import pretty.
From S2P Require Import Prelude Schema Roles Users Json Invariants Samples TwoFactors OneTimeCodes Sends EmergencyRows Memberships Groups Collections Guards VaultItems Ciphers Policies Organizations Emergency Tokens Downloads Vault.
Local Open Scope Z_scope.

Class SendConfig := {
  sends_allowed : bool;
  user_send_limit : option Z;
  base64url_nopad : bytes → string;
  (** [Uuid::parse_str(..).unwrap_or_default().as_bytes()]. *)
  uuid_bytes : string → bytes;
}.

Module SendData.
Record t := mk {
  type : Z; key : string; password : option string; max_access_count : option NumberOrString;
  expiration_date : option Z; deletion_date : Z; disabled : bool; hide_email : option bool; emails : option string;
  name : string; notes : option string; text : option Json; file : option Json; file_length : option NumberOrString;
  id : option string
}.
End SendData.
(** The uploaded file: its length and its raw name. *)
Module SendUpload.
Record t := mk { length : Z; raw_name : option string }.
End SendUpload.
Module SendFileData.
Record t := mk { id : string; size : Z; fileName : string }.
End SendFileData.

(** What a request draws at random. *)
Record SendDraws := { new_send_id : string; new_send_salt : bytes; new_file_id : string }.

Definition SEND_INACCESSIBLE_MSG : string := "Send does not exist or is no longer available".
Definition SIZE_525_MB : Z := 550502400.

(** ** JSON of a Send *)

(** [Value::as_i64] and [as_u64] of a number: an integer without an exponent
    or a point; minus zero is read as a float. *)
Definition number_in (lo hi : Z) (n : string) : option Z :=
  if n == "-0" then None else
  match parse_int 65 n with Some z => if (lo <=? z) && (z <? hi) then Some z else None | None => None end.
Definition Json_as_i64 (v : Json) : option Z :=
  match v with JsNumber n => number_in (- 2 ^ 63) (2 ^ 63) n | _ => None end.
Definition Json_as_u64 (v : Json) : option Z :=
  match v with JsNumber n => number_in 0 (2 ^ 64) n | _ => None end.

(** The derived [Deserialize] of a struct: by name, where a name that occurs
    twice is an error, or by position, where the length has to be right. *)
Definition struct_field (names : list string) (m : list (string * Json)) : option Json :=
  match where_ (λ e, bool_decide (e.1 ∈ names)) m with [(_, v)] => Some v | _ => None end.
Definition read_NumberOrString (v : Json) : option NumberOrString :=
  match v with
  | JsString s => Some (Str s)
  | v => Number <$> Json_as_i64 v
  end.
(** [FileData] of [size_by_user]: the field [size], or [Size]. *)
Definition read_FileData (v : Json) : option NumberOrString :=
  match v with
  | JsObject m => struct_field ["size"; "Size"] m ≫= read_NumberOrString
  | JsArray [v] => read_NumberOrString v
  | _ => None
  end.
Definition Json_as_str (v : Json) : option string := match v with JsString s => Some s | _ => None end.
Definition read_SendFileData (v : Json) : option SendFileData.t :=
  let build id size name :=
    id ← Json_as_str id; size ← Json_as_u64 size; name ← Json_as_str name; Some (SendFileData.mk id size name) in
  match v with
  | JsObject m =>
      id ← struct_field ["id"] m; size ← struct_field ["size"] m; name ← struct_field ["fileName"] m; build id size name
  | JsArray [id; size; name] => build id size name
  | _ => None
  end.

Section sends.
Context `{E : Env} `{C : Crypto} `{J : JsonText} `{P : PolicyJson} `{ST : SessionTokens} `{F : FileStore}.
Context `{TB : Jwt BasicJwtClaims.t} `{SC : SendConfig}.

(** The data of a Send: its keys in lower case, its size as text. *)
Definition send_data_json (s : Send.t) : Json :=
  let data := default JsNull (json_from_str (Send.data s) ≫= LowerCase) in
  match Json_find "size" data ≫= Json_as_i64 with
  | Some size => Json_set "size" (JsString (pretty size)) data
  | None => data
  end.
Definition send_part (t : SendType) (s : Send.t) : Json :=
  if Send.atype s =? SendType_as_i32 t then send_data_json s else JsNull.

Definition Send_access_id (s : Send.t) : string := base64url_nopad (uuid_bytes (Send.uuid s)).

Definition Send_to_json (s : Send.t) : Json :=
  json_object [
    ("id", JsString (Send.uuid s)); ("accessId", JsString (Send_access_id s)); ("type", json_number (Send.atype s));
    ("name", JsString (Send.name s)); ("notes", json_opt JsString (Send.notes s));
    ("text", send_part SendText s); ("file", send_part SendFile s);
    ("key", JsString (Send.akey s)); ("maxAccessCount", json_opt json_number (Send.max_access_count s));
    ("accessCount", json_number (Send.access_count s));
    ("password", json_opt (λ h, JsString (base64url_nopad h)) (Send.password_hash s));
    ("authType", json_number (if bool_decide (is_Some (Send.password_hash s)) then 1 else 2));
    ("disabled", JsBool (Send.disabled s)); ("hideEmail", JsBool (default false (Send.hide_email s)));
    ("revisionDate", JsString (format_date (Send.revision_date s)));
    ("expirationDate", json_opt (λ d, JsString (format_date d)) (Send.expiration_date s));
    ("deletionDate", JsString (format_date (Send.deletion_date s))); ("object", JsString "send")]%string.

(** What somebody with the link gets to see. *)
Definition Send_to_json_access (s : Send.t) (d : DB) : Json :=
  json_object [
    ("id", JsString (Send.uuid s)); ("type", json_number (Send.atype s)); ("name", JsString (Send.name s));
    ("text", send_part SendText s); ("file", send_part SendFile s);
    ("expirationDate", json_opt (λ d, JsString (format_date d)) (Send.expiration_date s));
    ("creatorIdentifier", json_opt JsString (Send_creator_identifier s d)); ("object", JsString "send-access")]%string.

Definition Send_find_by_access_id (access_id : string) (d : DB) : option Send.t :=
  match as_send_id access_id with
  | Some uuid => Send_find_by_uuid uuid d
  | None => None
  end.

(** The size that a Send counts with, and the total; [None] is an overflow. *)
Definition send_size (s : Send.t) : option Z :=
  if Send.atype s =? SendType_as_i32 SendFile then
    match json_from_str (Send.data s) ≫= read_FileData with
    | Some size => match NumberOrString_into_i64 size with Ok n => Some n | Err _ => None end
    | None => None
    end
  else None.
Fixpoint total_size (total : Z) (l : list Send.t) : option Z :=
  match l with
  | [] => Some total
  | s :: l =>
      match send_size s with
      | Some size => match checked_i64 (total + size) with Some total => total_size total l | None => None end
      | None => total_size total l
      end
  end.
Definition Send_size_by_user (user_uuid : string) (d : DB) : option Z := total_size 0 (Send_find_by_user user_uuid d).

(** ** Policies *)

Definition enforce_disable_send_policy (headers : Headers.t) : M DB () :=
  applies ← gets (OrgPolicy_is_applicable_to_user (User.uuid (Headers.user headers)) DisableSend None);
  if negb sends_allowed || applies
  then err "Due to an Enterprise Policy, you are only able to delete an existing Send." else mret ().

Definition enforce_disable_hide_email_policy (data : SendData.t) (headers : Headers.t) : M DB () :=
  disabled ← gets (OrgPolicy_is_hide_email_disabled (User.uuid (Headers.user headers)));
  if default false (SendData.hide_email data) && disabled
  then err "Due to an Enterprise Policy, you are not allowed to hide your email address from recipients when creating or editing a Send."
  else mret ().

(** ** Creating *)

Definition NumberOrString_into_i32 (x : NumberOrString) : Res Z :=
  match x with
  | Number n => if (- 2 ^ 31 <=? n) && (n <? 2 ^ 31) then Ok n else Err (MkError 400 "Number does not fit in i32")
  | Str s => match parse_i32 s with Some n => Ok n | None => Err (MkError 400 "Can't convert to number") end
  end.
Definition read_max_access_count (m : option NumberOrString) : M DB (option Z) :=
  match m with
  | Some m => n ← lift (NumberOrString_into_i32 m); mret (Some n)
  | None => mret None
  end.

(** [d.as_object_mut().and_then(|o| o.remove("response"))]. *)
Definition drop_response (v : Json) : Json := default v (Json_remove "response" v).

Definition far_deletion : string :=
  "You cannot have a Send with a deletion date that far into the future. Adjust the Deletion Date to a value less than 31 days from now and try again.".
Definition no_emails : string := "Sends with email verification is not supported".

Definition create_send (draws : SendDraws) (data : SendData.t) (user_id : string) : M DB Send.t :=
  data_val ← (if SendData.type data =? SendType_as_i32 SendText then mret (SendData.text data)
              else if SendData.type data =? SendType_as_i32 SendFile then mret (SendData.file data)
              else err "Invalid Send type");
  d ← some_or data_val "Send data not provided";
  let data_str := json_to_string (drop_response d) in
  if now + 31 * DAY <? SendData.deletion_date data then err far_deletion else
  if bool_decide (is_Some (SendData.emails data)) then err no_emails else
  let send := Send_new (new_send_id draws) (SendData.type data) (SendData.name data) data_str (SendData.key data)
                (SendData.deletion_date data) in
  let send := Send.set_notes (λ _, SendData.notes data) (Send.set_user_uuid (λ _, Some user_id) send) in
  max_access_count ← read_max_access_count (SendData.max_access_count data);
  let send := Send.set_max_access_count (λ _, max_access_count) send in
  let send := Send.set_expiration_date (λ _, SendData.expiration_date data) send in
  let send := Send.set_disabled (λ _, SendData.disabled data) send in
  let send := Send.set_hide_email (λ _, SendData.hide_email data) send in
  mret (Send_set_password (new_send_salt draws) (SendData.password data) send).

Definition get_sends (headers : Headers.t) : M DB (list Json) :=
  l ← gets (Send_find_by_user (User.uuid (Headers.user headers)));
  mret (Send_to_json <$> l).

Definition get_send (send_id : string) (headers : Headers.t) : M DB Json :=
  o ← gets (Send_find_by_uuid_and_user send_id (User.uuid (Headers.user headers)));
  send ← some_or o "Send not found";
  mret (Send_to_json send).

(** [send.save(..)] and the notification with its revision date. *)
Definition save_and_notify (send : Send.t) : M DB Json :=
  send ← Send_save send;
  Send_update_users_revision send ;;
  mret (Send_to_json send).

Definition post_send (draws : SendDraws) (data : SendData.t) (headers : Headers.t) : M DB Json :=
  enforce_disable_send_policy headers ;;
  enforce_disable_hide_email_policy data headers ;;
  if SendData.type data =? SendType_as_i32 SendFile then err "File sends should use /api/sends/file" else
  send ← create_send draws data (User.uuid (Headers.user headers));
  save_and_notify send.

(** *** Files *)

(** The limit on the size of a file, in bytes. *)
Definition send_size_limit (headers : Headers.t) : M DB Z :=
  match user_send_limit with
  | Some limit_kb =>
      if limit_kb =? 0 then err "File uploads are disabled" else
      used ← gets (Send_size_by_user (User.uuid (Headers.user headers)));
      already_used ← some_or used "Existing sends overflow";
      left ← some_or (size_left limit_kb already_used 0) "Send size overflow";
      if left <=? 0 then err "Send storage limit reached! Delete some sends to free up space" else
      mret (Z.min (Z.max left 0) SIZE_525_MB)
  | None => mret SIZE_525_MB
  end.

(** The id and the size of the file, put into the data of its Send. *)
Definition file_json (file_id : string) (size : Z) (size_name : string) (v : Json) : Json :=
  Json_set "sizeName" (JsString size_name) (Json_set "size" (json_number size) (Json_set "id" (JsString file_id) v)).
Definition add_file (file_id : string) (size : Z) (send : Send.t) : M DB Send.t :=
  v ← lift (match json_from_str (Send.data send) with Some v => Ok (Json_value v) | None => Err (MkError 400 "Json") end);
  v ← match v with
      | JsObject _ =>
          size_name ← lift (get_display_size size);
          mret (file_json file_id size size_name v)
      | v => mret v
      end;
  mret (Send.set_data (λ _, json_to_string v) send).

Definition post_send_file (draws : SendDraws) (model : SendData.t) (data : SendUpload.t) (headers : Headers.t) : M DB Json :=
  enforce_disable_send_policy headers ;;
  size ← some_or (checked_i64 (SendUpload.length data)) "Invalid send size";
  if size <? 0 then err "Send size can't be negative" else
  enforce_disable_hide_email_policy model headers ;;
  size_limit ← send_size_limit headers;
  if size_limit <? size then err "Send storage limit exceeded with this file" else
  send ← create_send draws model (User.uuid (Headers.user headers));
  if negb (Send.atype send =? SendType_as_i32 SendFile) then err "Send content is not a file" else
  lift (write_file Sends (Send.uuid send +:+ "/" +:+ new_file_id draws) true) ;;
  send ← add_file (new_file_id draws) size send;
  save_and_notify send.

Definition post_send_file_v2 (draws : SendDraws) (data : SendData.t) (headers : Headers.t) : M DB (string * Json) :=
  enforce_disable_send_policy headers ;;
  if negb (SendData.type data =? SendType_as_i32 SendFile) then err "Send content is not a file" else
  enforce_disable_hide_email_policy data headers ;;
  m ← some_or (SendData.file_length data) "Invalid send length";
  file_length ← lift (NumberOrString_into_i64 m);
  if file_length <? 0 then err "Send size can't be negative" else
  size_limit ← send_size_limit headers;
  if size_limit <? file_length then err "Send storage limit exceeded with this file" else
  send ← create_send draws data (User.uuid (Headers.user headers));
  send ← add_file (new_file_id draws) file_length send;
  send ← Send_save send;
  mret ("/sends/" +:+ Send.uuid send +:+ "/file/" +:+ new_file_id draws, Send_to_json send).

(** [s.ends_with(suffix)]. *)
Definition ends_with (suffix s : string) : bool :=
  (String.length suffix <=? String.length s)%nat
  && (String.substring (String.length s - String.length suffix) (String.length suffix) s == suffix).

Definition post_send_file_v2_data (send_id file_id : string) (data : SendUpload.t) (headers : Headers.t) : M DB () :=
  enforce_disable_send_policy headers ;;
  o ← gets (Send_find_by_uuid_and_user send_id (User.uuid (Headers.user headers)));
  send ← some_or o "Send not found. Unable to save the file.";
  if negb (Send.atype send =? SendType_as_i32 SendFile) then err "Send is not a file type send." else
  send_data ← some_or (json_from_str (Send.data send) ≫= read_SendFileData) "Unable to decode send data as json.";
  raw_file_name ← some_or (SendUpload.raw_name data) "Send file name does not match or is not provided.";
  if negb ((raw_file_name == SendFileData.fileName send_data)
           || Device_is_cli (Headers.device headers) && ends_with raw_file_name (SendFileData.fileName send_data))
  then err "Send file name does not match." else
  if negb (file_id == SendFileData.id send_data) then err "Send file does not match send data." else
  if negb (SendUpload.length data =? SendFileData.size send_data) then err "Send file size does not match." else
  lift (write_file Sends (send_id +:+ "/" +:+ file_id) false) ;;
  Send_update_users_revision send ;;
  mret ().

(** ** Access *)

Definition process_access (send : Send.t) : M DB Json :=
  Send_update_users_revision send ;;
  gets (Send_to_json_access send).

Definition process_access_file (host file_id : string) (send : Send.t) : M DB Json :=
  Send_update_users_revision send ;;
  url ← lift (download_url host (Send.uuid send) file_id);
  mret (json_object [("object", JsString "send-fileDownload"); ("id", JsString file_id); ("url", JsString url)]%string).

(** With a token of [generate_tokens]; [send_id] is what [SendHeaders] read. *)
Definition accessible_send (send_id : string) : M DB Send.t :=
  o ← gets (Send_find_by_uuid send_id);
  match o with
  | None => err_code SEND_INACCESSIBLE_MSG 404
  | Some send => if negb (Send_is_accessible send) then err_code SEND_INACCESSIBLE_MSG 404 else mret send
  end.
Definition post_access (send_id : string) : M DB Json :=
  send ← accessible_send send_id;
  process_access send.
Definition post_access_file (host send_id file_id : string) : M DB Json :=
  send ← accessible_send send_id;
  process_access_file host file_id send.

(** The checks of the legacy routes on the Send they have found. *)
Definition check_legacy_access (wrong : string) (password : option string) (o : option Send.t) : M DB Send.t :=
  match o with
  | None => err_code SEND_INACCESSIBLE_MSG 404
  | Some send =>
      if nn (Send.max_access_count send) (λ m, m <=? Send.access_count send) then err_code SEND_INACCESSIBLE_MSG 404 else
      if negb (Send_is_accessible send) then err_code SEND_INACCESSIBLE_MSG 404 else
      if bool_decide (is_Some (Send.password_hash send)) then
        match password with
        | Some p => if Send_check_password send p then mret send else err wrong
        | None => err_code "Password not provided" 401
        end
      else mret send
  end.
Definition count_access (send : Send.t) : M DB Send.t :=
  '(registered, send) ← Send_register_access send;
  if negb (registered : bool) then err_code SEND_INACCESSIBLE_MSG 404 else mret send.

(** A file is counted when it is downloaded. *)
Definition post_access_legacy (access_id : string) (password : option string) (ip : string) : M DB Json :=
  lift (check_limit_unauthenticated ip) ;;
  o ← gets (Send_find_by_access_id access_id);
  send ← check_legacy_access "Invalid password" password o;
  send ← (if Send.atype send =? SendType_as_i32 SendText then count_access send else Send_save send);
  process_access send.
Definition post_access_file_legacy (host send_id file_id : string) (password : option string) (ip : string) : M DB Json :=
  lift (check_limit_unauthenticated ip) ;;
  o ← gets (Send_find_by_uuid send_id);
  send ← check_legacy_access "Invalid password." password o;
  send ← count_access send;
  process_access_file host file_id send.

(** ** Changing *)

Definition update_send_from_data (draws : SendDraws) (send : Send.t) (data : SendData.t) (headers : Headers.t) (notify : bool)
    : M DB Send.t :=
  if negb (Send.user_uuid send == Some (User.uuid (Headers.user headers))) then err "Send is not owned by user" else
  if negb (Send.atype send =? SendData.type data) then err "Sends can't change type" else
  if now + 31 * DAY <? SendData.deletion_date data then err far_deletion else
  send ← (if SendData.type data =? SendType_as_i32 SendText then
            d ← some_or (SendData.text data) "Send data not provided";
            mret (Send.set_data (λ _, json_to_string (drop_response d)) send)
          else mret send);
  let send := Send.set_name (λ _, SendData.name data) send in
  let send := Send.set_akey (λ _, SendData.key data) send in
  let send := Send.set_deletion_date (λ _, SendData.deletion_date data) send in
  let send := Send.set_notes (λ _, SendData.notes data) send in
  max_access_count ← read_max_access_count (SendData.max_access_count data);
  let send := Send.set_max_access_count (λ _, max_access_count) send in
  let send := Send.set_expiration_date (λ _, SendData.expiration_date data) send in
  let send := Send.set_hide_email (λ _, SendData.hide_email data) send in
  let send := Send.set_disabled (λ _, SendData.disabled data) send in
  let send := match SendData.password data with
              | Some password => Send_set_password (new_send_salt draws) (Some password) send
              | None => send
              end in
  send ← Send_save send;
  when notify (Send_update_users_revision send ;; mret ()) ;;
  mret send.

Definition put_send (draws : SendDraws) (send_id : string) (data : SendData.t) (headers : Headers.t) : M DB Json :=
  enforce_disable_send_policy headers ;;
  enforce_disable_hide_email_policy data headers ;;
  o ← gets (Send_find_by_uuid_and_user send_id (User.uuid (Headers.user headers)));
  send ← some_or o "Send not found";
  if bool_decide (is_Some (SendData.emails data)) then err no_emails else
  send ← update_send_from_data draws send data headers true;
  mret (Send_to_json send).

Definition delete_send (send_id : string) (headers : Headers.t) : M DB () :=
  o ← gets (Send_find_by_uuid_and_user send_id (User.uuid (Headers.user headers)));
  send ← some_or o "Send not found";
  Send_delete send ;;
  Send_update_users_revision send ;;
  mret ().

Definition put_remove_password (send_id : string) (headers : Headers.t) : M DB Json :=
  enforce_disable_send_policy headers ;;
  o ← gets (Send_find_by_uuid_and_user send_id (User.uuid (Headers.user headers)));
  send ← some_or o "Send not found";
  save_and_notify (Send_set_password [] None send).

(** The job [purge_sends]; a connection is always there. *)
Definition purge_sends : M DB () := Send_purge.
End sends.
