(* ===== verification/KeyRotation.v ===== *)
(** The rotation of the key of an account.

    Models [validate_keydata] and [post_rotatekey] of
    src/src/api/core/accounts.rs. A client that changes its account key sends
    everything that is encrypted with it, and the server stores it again: the
    folders, the keys of emergency contacts, the keys for account recovery, the
    Sends and the personal ciphers, and at last the account itself. The rows are
    read at the start of the request and changed in place, so a second entry
    for a row finds what the first one left. *)
From S2P Require Import Prelude Schema Roles Users Json Invariants Samples Memberships Groups Collections VaultItems Ciphers Access Guards TwoFactors OneTimeCodes Policies EmergencyRows Organizations Sends Emergency Members Accounts Tokens Downloads Vault SendRequests.
Local Open Scope Z_scope.

(** ** Body of the request *)

Module UpdateFolderData.
Record t := mk { id : option string; name : string }.
End UpdateFolderData.
Module UpdateEmergencyAccessData.
Record t := mk { id : string; key_encrypted : string }.
End UpdateEmergencyAccessData.
Module UpdateResetPasswordData.
Record t := mk { organization_id : string; reset_password_key : string }.
End UpdateResetPasswordData.
Module MasterPasswordUnlockData.
Record t := mk { kdf_type : Z; kdf_iterations : Z; kdf_parallelism : option Z; kdf_memory : option Z; email : string;
                 master_key_authentication_hash : string; master_key_encrypted_user_key : string }.
End MasterPasswordUnlockData.
Module RotateAccountUnlockData.
Record t := mk {
  emergency_access_unlock_data : list UpdateEmergencyAccessData.t;
  master_password_unlock_data : MasterPasswordUnlockData.t;
  organization_account_recovery_unlock_data : list UpdateResetPasswordData.t
}.
End RotateAccountUnlockData.
Module RotateAccountKeys.
Record t := mk { user_key_encrypted_account_private_key : string; account_public_key : string }.
End RotateAccountKeys.
Module RotateAccountData.
Record t := mk { ciphers : list CipherData.t; folders : list UpdateFolderData.t; sends : list SendData.t }.
End RotateAccountData.
Module KeyData.
Record t := mk {
  account_unlock_data : RotateAccountUnlockData.t; account_keys : RotateAccountKeys.t;
  account_data : RotateAccountData.t; old_master_key_authentication_hash : string
}.
End KeyData.

(** What the request draws at random: the new stamp and tokens, and the salt of
    the password of each Send. *)
Record RotationDraws := { rotate_account : AccountDraws; rotate_send : nat → SendDraws }.

(** ** The handler *)

(** [provided.is_superset(&existing)] fails. *)
Definition missing_some (existing provided : list string) : bool :=
  existsb (λ k, negb (bool_decide (k ∈ provided))) existing.

(** The entries that change a row: personal ciphers, and entries with an id. *)
Definition personal (c : CipherData.t) : bool := bool_decide (CipherData.organization_id c = None).

Definition validate_keydata {S} (data : KeyData.t) (existing_ciphers : list Cipher.t) (existing_folders : list Folder.t)
    (existing_emergency_access : list EmergencyAccess.t) (existing_memberships : list Membership.t)
    (existing_sends : list Send.t) (user : User.t) : M S () :=
  let unlock := KeyData.account_unlock_data data in
  let password := RotateAccountUnlockData.master_password_unlock_data unlock in
  let items := KeyData.account_data data in
  if negb (User.client_kdf_type user =? MasterPasswordUnlockData.kdf_type password)
     || negb (User.client_kdf_iter user =? MasterPasswordUnlockData.kdf_iterations password)
     || negb (User.client_kdf_memory user == MasterPasswordUnlockData.kdf_memory password)
     || negb (User.client_kdf_parallelism user == MasterPasswordUnlockData.kdf_parallelism password)
     || negb (User.email user == MasterPasswordUnlockData.email password)
  then err "Changing the kdf variant or email is not supported during key rotation" else
  if negb (User.public_key user == Some (RotateAccountKeys.account_public_key (KeyData.account_keys data)))
  then err "Changing the asymmetric keypair is not possible during key rotation" else
  if missing_some (Cipher.uuid <$> existing_ciphers) (omap CipherData.id (where_ personal (RotateAccountData.ciphers items)))
  then err "All existing ciphers must be included in the rotation" else
  if missing_some (Folder.uuid <$> existing_folders) (omap UpdateFolderData.id (RotateAccountData.folders items))
  then err "All existing folders must be included in the rotation" else
  if missing_some (EmergencyAccess.uuid <$> existing_emergency_access)
       (UpdateEmergencyAccessData.id <$> RotateAccountUnlockData.emergency_access_unlock_data unlock)
  then err "All existing emergency access keys must be included in the rotation" else
  if missing_some (Membership.org_uuid <$> existing_memberships)
       (UpdateResetPasswordData.organization_id <$> RotateAccountUnlockData.organization_account_recovery_unlock_data unlock)
  then err "All existing reset password keys must be included in the rotation" else
  if missing_some (Send.uuid <$> existing_sends) (omap SendData.id (RotateAccountData.sends items))
  then err "All existing sends must be included in the rotation" else
  mret ().

(** [existing.iter_mut().find(p)], and the work on the row that is found. *)
Fixpoint find_mut {S A} (p : A → bool) (msg : string) (f : A → M S A) (existing : list A) : M S (list A) :=
  match existing with
  | [] => err msg
  | a :: l => if p a then a' ← f a; mret (a' :: l) else l' ← find_mut p msg f l; mret (a :: l')
  end.

(** [for x in l { body }] over entries that change the rows [existing]. *)
Fixpoint change_rows {S X A} (body : nat → X → list A → M S (list A)) (n : nat) (l : list X) (existing : list A) : M S (list A) :=
  match l with
  | [] => mret existing
  | x :: l => existing ← body n x existing; change_rows body (Datatypes.S n) l existing
  end.

Section handlers.
Context `{E : Env} `{K : Codecs} `{C : Crypto} `{V : VaultConfig} `{J : JsonText} `{SC : SendConfig}.

Definition rotate_folder (folder_data : UpdateFolderData.t) (existing : list Folder.t) : M DB (list Folder.t) :=
  match UpdateFolderData.id folder_data with
  | Some folder_id =>
      find_mut (λ f, Folder.uuid f == folder_id) "Folder doesn't exist"
        (λ f, Folder_save (Folder.set_name (λ _, UpdateFolderData.name folder_data) f)) existing
  | None => mret existing
  end.

Definition rotate_contact (data : UpdateEmergencyAccessData.t) (existing : list EmergencyAccess.t) : M DB (list EmergencyAccess.t) :=
  find_mut (λ ea, EmergencyAccess.uuid ea == UpdateEmergencyAccessData.id data)
    "Emergency access doesn't exist or is not owned by the user"
    (λ ea, EmergencyAccess_save (EmergencyAccess.set_key_encrypted (λ _, Some (UpdateEmergencyAccessData.key_encrypted data)) ea))
    existing.

Definition rotate_recovery (data : UpdateResetPasswordData.t) (existing : list Membership.t) : M DB (list Membership.t) :=
  find_mut (λ m, Membership.org_uuid m == UpdateResetPasswordData.organization_id data) "Reset password doesn't exist"
    (λ m, let m := Membership.set_reset_password_key (λ _, Some (UpdateResetPasswordData.reset_password_key data)) m in
          Membership_save m ;; mret m) existing.

(** The id is unwrapped inside the search: without rows nothing panics. *)
Definition rotate_send_row (draws : SendDraws) (headers : Headers.t) (data : SendData.t) (existing : list Send.t) : M DB (list Send.t) :=
  if bool_decide (existing = []) then err "Send doesn't exist" else
  id ← unwrap (SendData.id data);
  find_mut (λ s, Send.uuid s == id) "Send doesn't exist" (λ s, update_send_from_data draws s data headers false) existing.

Definition rotate_cipher (headers : Headers.t) (data : CipherData.t) (existing : list Cipher.t) : M DB (list Cipher.t) :=
  if negb (personal data) then mret existing else
  if bool_decide (existing = []) then err "Cipher doesn't exist" else
  id ← unwrap (CipherData.id data);
  find_mut (λ c, Cipher.uuid c == id) "Cipher doesn't exist" (λ c, update_cipher_from_data c data headers None UpdateNone) existing.

Definition post_rotatekey (draws : RotationDraws) (data : KeyData.t) (headers : Headers.t) : M DB () :=
  let user := Headers.user headers in
  let unlock := KeyData.account_unlock_data data in
  let password := RotateAccountUnlockData.master_password_unlock_data unlock in
  let items := KeyData.account_data data in
  if negb (User_check_valid_password user (KeyData.old_master_key_authentication_hash data)) then err "Invalid password" else
  Cipher_validate_cipher_data (RotateAccountData.ciphers items) ;;
  existing_ciphers ← gets (Cipher_find_owned_by_user (User.uuid user));
  existing_folders ← gets (Folder_find_by_user (User.uuid user));
  existing_emergency_access ← gets (EmergencyAccess_find_all_confirmed_by_grantor_uuid (User.uuid user));
  memberships ← gets (Membership_find_by_user (User.uuid user));
  let existing_memberships := where_ (λ m, bool_decide (is_Some (Membership.reset_password_key m))) memberships in
  existing_sends ← gets (Send_find_by_user (User.uuid user));
  validate_keydata data existing_ciphers existing_folders existing_emergency_access existing_memberships existing_sends user ;;
  change_rows (λ _, rotate_folder) 0 (RotateAccountData.folders items) existing_folders ;;
  change_rows (λ _, rotate_contact) 0 (RotateAccountUnlockData.emergency_access_unlock_data unlock) existing_emergency_access ;;
  change_rows (λ _, rotate_recovery) 0 (RotateAccountUnlockData.organization_account_recovery_unlock_data unlock)
    existing_memberships ;;
  change_rows (λ n, rotate_send_row (rotate_send draws n) headers) 0 (RotateAccountData.sends items) existing_sends ;;
  change_rows (λ _, rotate_cipher headers) 0 (RotateAccountData.ciphers items) existing_ciphers ;;
  let user := User.set_private_key (λ _, Some (RotateAccountKeys.user_key_encrypted_account_private_key (KeyData.account_keys data))) user in
  user ← User_set_password (draw_stamp (rotate_account draws)) (draw_token_for (rotate_account draws))
           (MasterPasswordUnlockData.master_key_authentication_hash password)
           (Some (MasterPasswordUnlockData.master_key_encrypted_user_key password)) true None user;
  User_save user ;; mret ().
End handlers.
