(* ===== verification/SecondFactors.v ===== *)
(** Setting second factors up.

    Models the handlers of src/src/api/core/two_factor: mod.rs (listing, recovery
    code, the job about unfinished logins), authenticator.rs, email.rs, yubikey.rs
    and duo.rs, with the check of a YubiKey and of the signed values of Duo. The
    servers of Yubico and Duo, the HMAC, base64 and the JSON of the stored data
    are parameters; the event log is left out. *)
From stdpp Require Import pretty.
From S2P Require Import Prelude Schema Roles Users Json TwoFactors OneTimeCodes Sends EmergencyRows Memberships Groups Collections Guards VaultItems Ciphers Policies Organizations Emergency OrgJson Members Accounts Tokens SingleSignOn Identity Downloads Vault SendRequests.
Local Open Scope Z_scope.

(** ** Bodies of the requests and stored data *)

Module EnableAuthenticatorData.
Record t := mk { key : string; token : NumberOrString; master_password_hash : option string; otp : option string }.
End EnableAuthenticatorData.
Module DisableAuthenticatorData.
Record t := mk { key : string; master_password_hash : string; type : NumberOrString }.
End DisableAuthenticatorData.
Module SendEmailLoginData.
Record t := mk { device_identifier : option string; email : option string; master_password_hash : option string;
                 auth_request_id : option string; auth_request_access_code : option string }.
End SendEmailLoginData.
Module SendEmailData.
Record t := mk { email : string; master_password_hash : option string; otp : option string }.
End SendEmailData.
Module EmailData.
Record t := mk { email : string; token : string; master_password_hash : option string; otp : option string }.
End EmailData.
Module EnableYubikeyData.
Record t := mk { key1 : option string; key2 : option string; key3 : option string; key4 : option string; key5 : option string;
                 nfc : bool; master_password_hash : option string; otp : option string }.
End EnableYubikeyData.
Module YubikeyMetadata.
Record t := mk { keys : list string; nfc : bool }.
End YubikeyMetadata.
Module DuoData.
Record t := mk { host : string; ik : string; sk : string }.
#[global] Instance t_eq_dec : EqDecision t.
Proof. solve_decision. Defined.
End DuoData.
Module EnableDuoData.
Record t := mk { host : string; client_secret : string; client_id : string; master_password_hash : option string; otp : option string }.
End EnableDuoData.
Inductive DuoStatus := DuoGlobal (d : DuoData.t) | DuoUser (d : DuoData.t) | DuoDisabled (global : bool).

(** The services and crates that the handlers call. *)
Class FactorServices := {
  (** The Yubico server, with client id, secret and one-time password. *)
  yubico_verify : string → string → string → Res ();
  yubikey_to_json : YubikeyMetadata.t → string;
  yubikey_from_json : string → option YubikeyMetadata.t;
  (** [duo_api_request] on /auth/v2/check. *)
  duo_check : DuoData.t → Res ();
  duo_to_json : DuoData.t → string;
  (** [CONFIG.get_duo_akey()]. *)
  duo_akey : string;
  hmac_sign : string → string → string;
  base64_encode : string → string;
  base64_decode_utf8 : string → option string;
}.

(** ** Text *)

Fixpoint to_uppercase (s : string) : string :=
  match s with
  | EmptyString => EmptyString
  | String a s' =>
      let n := Ascii.nat_of_ascii a in
      String (if (97 <=? n)%nat && (n <=? 122)%nat then Ascii.ascii_of_nat (n - 32) else a) (to_uppercase s')
  end.

(** A byte of UTF-8 that continues a character, [chars().count()] and
    [truncate(n)], which panics inside a character. *)
Definition is_continuation (a : Ascii.ascii) : bool := (128 <=? Ascii.nat_of_ascii a)%nat && (Ascii.nat_of_ascii a <? 192)%nat.
Fixpoint chars_count (s : string) : nat :=
  match s with EmptyString => 0 | String a s' => (if is_continuation a then 0 else 1) + chars_count s' end.
Definition is_char_boundary (n : nat) (s : string) : bool :=
  match String.get n s with Some a => negb (is_continuation a) | None => (n =? String.length s)%nat end.
Definition truncate (n : nat) (s : string) : option string :=
  if (String.length s <=? n)%nat then Some s else if is_char_boundary n s then Some (String.substring 0 n s) else None.
Fixpoint stars (n : nat) : string := match n with O => "" | S n => String (Ascii.ascii_of_nat 42) (stars n) end.
Definition at_sign : Ascii.ascii := Ascii.ascii_of_nat 64.
Definition bar : Ascii.ascii := Ascii.ascii_of_nat 124.

(** [None] is a panic: no at sign, an empty name, or a name whose second byte is
    not the end of a character. *)
Definition obscure_email (email : string) : option string :=
  match rsplit_once at_sign email with
  | None => None
  | Some (name, domain) =>
      let name_size := chars_count name in
      new_name ← (if (name_size =? 0)%nat then None
                  else if (name_size <=? 3)%nat then Some (stars name_size)
                  else (λ short, short +:+ stars (name_size - 2)) <$> truncate 2 name);
      Some (new_name +:+ "@" +:+ domain)
  end.

Section handlers.
Context `{E : Env} `{K : Codecs} `{T : Totp} `{P : PolicyJson} `{C : Crypto} `{R : PushRelay}.
Context `{S : SessionTokens} `{F : FactorProviders} `{O : IdentityProvider} `{J : JsonText} `{CH : Chrono} `{FS : FactorServices}.

(** ** Listing and recovery: mod.rs *)

Definition TwoFactor_to_json_provider (tf : TwoFactor.t) : Json :=
  json_object [("enabled", JsBool (TwoFactor.enabled tf)); ("type", json_number (TwoFactor.atype tf));
    ("object", JsString "twoFactorProvider")]%string.

Definition get_twofactor (headers : Headers.t) : M DB Json :=
  twofactors ← gets (TwoFactor_find_by_user (User.uuid (Headers.user headers)));
  let usable := where_ (λ tf, match TwoFactorType_from_i32 (TwoFactor.atype tf) with
                              | Some provider_type => is_twofactor_provider_usable provider_type (Some (TwoFactor.data tf))
                              | None => false
                              end) twofactors in
  mret (json_object [("data", json_list TwoFactor_to_json_provider usable); ("object", JsString "list");
    ("continuationToken", JsNull)])%string.

Definition get_recover (master_password_hash otp : option string) (headers : Headers.t) : M DB Json :=
  let user := Headers.user headers in
  PasswordOrOtpData_validate master_password_hash otp user true ;;
  mret (json_object [("code", json_string_opt (User.totp_recover user)); ("object", JsString "twoFactorRecover")])%string.

Definition disable_twofactor_put := disable_twofactor.

Definition get_device_verification_settings : Json :=
  json_object [("isDeviceVerificationSectionEnabled", no); ("unknownDeviceVerificationEnabled", no);
    ("object", JsString "deviceVerificationSettings")]%string.

(** The job: a panic on a missing account or an impossible date ends it. *)
Definition send_incomplete_2fa_notifications : M DB () :=
  if (incomplete_2fa_time_limit <=? 0) || negb mail_enabled then mret () else
  let time_before := now - incomplete_2fa_time_limit * 60 * 1000000 in
  if negb (incomplete_2fa_time_limit * 60000 <=? 2 ^ 63 - 1) || (time_before <? naive_min)
  then panic "called `Option::unwrap()` on a `None` value" else
  incomplete_logins ← gets (TwoFactorIncomplete_find_logins_before time_before);
  for_each incomplete_logins (λ login,
    ou ← gets (User_find_by_uuid (TwoFactorIncomplete.user_uuid login));
    user ← expect ou "User not found";
    match send_mail "send_incomplete_2fa_login" (User.email user) with
    | Ok _ => ignore (TwoFactorIncomplete_delete login)
    | Err _ => mret ()
    end).

(** ** Authenticator *)

Definition authenticator_json (enabled : bool) (key : string) : Json :=
  json_object [("enabled", JsBool enabled); ("key", JsString key); ("object", JsString "twoFactorAuthenticator")]%string.

(** [new_key] is the key that the request draws. *)
Definition generate_authenticator (new_key : string) (master_password_hash otp : option string) (headers : Headers.t) : M DB Json :=
  let user := Headers.user headers in
  PasswordOrOtpData_validate master_password_hash otp user false ;;
  twofactor ← gets (TwoFactor_find_by_user_and_type (User.uuid user) (TwoFactorType_as_i32 Authenticator));
  mret (match twofactor with
        | Some tf => authenticator_json true (TwoFactor.data tf)
        | None => authenticator_json false new_key
        end).

(** [tf_id] is the id of a new row, [code] a new recovery code. *)
Definition activate_authenticator (tf_id code : string) (data : EnableAuthenticatorData.t) (headers : Headers.t) : M DB Json :=
  let user := Headers.user headers in
  let key := EnableAuthenticatorData.key data in
  let token := NumberOrString_into_string (EnableAuthenticatorData.token data) in
  PasswordOrOtpData_validate (EnableAuthenticatorData.master_password_hash data) (EnableAuthenticatorData.otp data) user true ;;
  decoded_key ← some_or (base32_decode key) "Invalid totp secret";
  if negb (length decoded_key =? 20)%nat then err "Invalid key length" else
  validate_totp_code tf_id (User.uuid user) token (to_uppercase key) ;;
  generate_recover_code code user ;;
  mret (authenticator_json true key).
Definition activate_authenticator_put := activate_authenticator.

Definition disable_authenticator (data : DisableAuthenticatorData.t) (headers : Headers.t) : M DB Json :=
  let user := Headers.user headers in
  type_ ← lift (NumberOrString_into_i32 (DisableAuthenticatorData.type data));
  if negb (User_check_valid_password user (DisableAuthenticatorData.master_password_hash data)) then err "Invalid password" else
  o ← gets (TwoFactor_find_by_user_and_type (User.uuid user) type_);
  (match o with
   | Some twofactor =>
       if TwoFactor.data twofactor == DisableAuthenticatorData.key data then TwoFactor_delete twofactor
       else err ("TOTP key for user " +:+ User.email user +:+ " does not match recorded value, cannot deactivate")
   | None => mret ()
   end) ;;
  rest ← gets (TwoFactor_find_by_user (User.uuid user));
  when (bool_decide (rest = [])) (enforce_2fa_policy user) ;;
  mret (json_object [("enabled", no); ("keys", json_number type_); ("object", JsString "twoFactorProvider")])%string.

(** ** E-mail *)

(** The account of the latest unfinished login on the device. *)
Definition later_login (a b : TwoFactorIncomplete.t) : Prop := TwoFactorIncomplete.login_time b ≤ TwoFactorIncomplete.login_time a.
#[export] Instance later_login_dec : RelDecision later_login := λ a b, Z_le_dec _ _.
Definition User_find_by_device_for_email2fa (device_uuid : string) (d : DB) : option User.t :=
  match first (merge_sort later_login
                 (where_ (λ t, TwoFactorIncomplete.device_uuid t == device_uuid) (rows (twofactor_incomplete d)))) with
  | Some t => User_find_by_uuid (TwoFactorIncomplete.user_uuid t) d
  | None => None
  end.

Definition nonempty_text (o : option string) : option string :=
  match o with Some s => if s == "" then None else Some s | None => None end%string.

(** [token] is the code that the request draws. *)
Definition send_email_login (token : string) (data : SendEmailLoginData.t) (client_headers : ClientHeaders.t) : M DB () :=
  if negb enable_email_2fa then err "Email 2FA is disabled" else
  lift (check_limit_login (ClientHeaders.ip client_headers)) ;;
  user ← match nonempty_text (SendEmailLoginData.email data) with
    | Some email =>
        ou ← gets (User_find_by_mail email);
        user ← some_or ou "Username or password is incorrect. Try again.";
        match nonempty_text (SendEmailLoginData.master_password_hash data), nonempty_text (SendEmailLoginData.auth_request_id data) with
        | Some master_password_hash, _ =>
            if negb (User_check_valid_password user master_password_hash)
            then err "Username or password is incorrect. Try again." else mret user
        | None, Some auth_request_id =>
            oa ← gets (AuthRequest_find_by_uuid auth_request_id);
            auth_request ← some_or oa "AuthRequest doesn't exist";
            code ← some_or (SendEmailLoginData.auth_request_access_code data) "no auth request access code";
            if negb (AuthRequest.device_type auth_request =? ClientHeaders.device_type client_headers)
               || negb (AuthRequest.request_ip auth_request == ClientHeaders.ip client_headers)
               || negb (AuthRequest_check_access_code auth_request code)
            then err "AuthRequest doesn't exist" else mret user
        | None, None => err "No password hash has been submitted."
        end
    | None =>
        device_identifier ← some_or (SendEmailLoginData.device_identifier data) "No device identifier has been submitted.";
        ou ← gets (User_find_by_device_for_email2fa device_identifier);
        some_or ou "Username or password is incorrect. Try again."
    end;
  send_token token (User.uuid user).

Definition email_json (email enabled : Json) : Json :=
  json_object [("email", email); ("enabled", enabled); ("object", JsString "twoFactorEmail")]%string.

Definition get_email (master_password_hash otp : option string) (headers : Headers.t) : M DB Json :=
  let user := Headers.user headers in
  PasswordOrOtpData_validate master_password_hash otp user false ;;
  o ← gets (TwoFactor_find_by_user_and_type (User.uuid user) (TwoFactorType_as_i32 Email));
  match o with
  | Some x => e ← EmailTokenData_from_json (TwoFactor.data x); mret (email_json (JsString (EmailTokenData.email e)) yes)
  | None => mret (email_json JsNull no)
  end.

Definition send_email (tf_id token : string) (data : SendEmailData.t) (headers : Headers.t) : M DB () :=
  let user := Headers.user headers in
  PasswordOrOtpData_validate (SendEmailData.master_password_hash data) (SendEmailData.otp data) user false ;;
  if negb enable_email_2fa then err "Email 2FA is disabled" else
  o ← gets (TwoFactor_find_by_user_and_type (User.uuid user) (TwoFactorType_as_i32 Email));
  (match o with Some tf => TwoFactor_delete tf | None => mret () end) ;;
  let twofactor_data := EmailTokenData_new (SendEmailData.email data) token in
  TwoFactor_save (TwoFactor_new tf_id (User.uuid user) EmailVerificationChallenge (email_to_json twofactor_data)) ;;
  lift (send_mail "send_token" (EmailTokenData.email twofactor_data)).

(** [email]: the last step of the set-up. *)
Definition confirm_email (code : string) (data : EmailData.t) (headers : Headers.t) : M DB Json :=
  let user := Headers.user headers in
  PasswordOrOtpData_validate (EmailData.master_password_hash data) (EmailData.otp data) user true ;;
  o ← gets (TwoFactor_find_by_user_and_type (User.uuid user) (TwoFactorType_as_i32 EmailVerificationChallenge));
  twofactor ← some_or o "Two factor not found";
  email_data ← EmailTokenData_from_json (TwoFactor.data twofactor);
  issued_token ← some_or (EmailTokenData.last_token email_data) "No token available";
  if negb (ct_eq issued_token (EmailData.token data)) then err "Token is invalid" else
  let email_data := EmailTokenData_reset_token email_data in
  let twofactor := {| TwoFactor.uuid := TwoFactor.uuid twofactor; TwoFactor.user_uuid := TwoFactor.user_uuid twofactor;
                      TwoFactor.atype := TwoFactorType_as_i32 Email; TwoFactor.enabled := TwoFactor.enabled twofactor;
                      TwoFactor.data := email_to_json email_data; TwoFactor.last_used := TwoFactor.last_used twofactor |} in
  TwoFactor_save twofactor ;;
  generate_recover_code code user ;;
  mret (email_json (JsString (EmailTokenData.email email_data)) (JsString "true")).

(** ** YubiKey *)

(** [r.map_res(msg)?]. *)
Definition map_res (r : Res ()) (msg : string) : M DB () := match r with Ok _ => mret () | Err _ => err msg end.

Definition parse_yubikeys (data : EnableYubikeyData.t) : list string :=
  where_ (λ e, negb (e == ""))%string
    (omap id [EnableYubikeyData.key1 data; EnableYubikeyData.key2 data; EnableYubikeyData.key3 data; EnableYubikeyData.key4 data;
              EnableYubikeyData.key5 data]).

Definition jsonify_yubikeys (yubikeys : list string) : Json :=
  foldl (λ result '(i, key), Json_set ("Key" +:+ pretty (i + 1)%nat) (JsString key) result) (JsObject []) (imap pair yubikeys).

Definition yubikey_answer (m : YubikeyMetadata.t) : Json :=
  Json_set "object" (JsString "twoFactorU2f") (Json_set "nfc" (JsBool (YubikeyMetadata.nfc m))
    (Json_set "enabled" yes (jsonify_yubikeys (YubikeyMetadata.keys m)))).

Definition get_yubico_credentials : Res (string * string) :=
  if negb enable_yubico then Err (MkError 400 "Yubico support is disabled") else
  match yubico_client_id, yubico_secret_key with
  | Some id, Some secret => Ok (id, secret)
  | _, _ => Err (MkError 400 "`YUBICO_CLIENT_ID` or `YUBICO_SECRET_KEY` environment variable is not set. Yubikey OTP Disabled")
  end.

Definition verify_yubikey_otp (otp : string) : Res () :=
  match get_yubico_credentials with
  | Ok (yubico_id, yubico_secret) =>
      match yubico_verify yubico_id yubico_secret otp with Ok _ => Ok () | Err _ => Err (MkError 400 "Failed to verify OTP") end
  | Err e => Err e
  end.

Definition generate_yubikey (master_password_hash otp : option string) (headers : Headers.t) : M DB Json :=
  lift get_yubico_credentials ;;
  let user := Headers.user headers in
  PasswordOrOtpData_validate master_password_hash otp user false ;;
  r ← gets (TwoFactor_find_by_user_and_type (User.uuid user) (TwoFactorType_as_i32 YubiKey));
  match r with
  | Some r => m ← some_or (yubikey_from_json (TwoFactor.data r)) "JSON error"; mret (yubikey_answer m)
  | None => mret (json_object [("enabled", no); ("object", JsString "twoFactorU2f")])%string
  end.

(** [x.get(..12)]. *)
Definition key_id (x : string) : option string :=
  if (12 <=? String.length x)%nat && is_char_boundary 12 x then Some (String.substring 0 12 x) else None.

Definition activate_yubikey (tf_id code : string) (data : EnableYubikeyData.t) (headers : Headers.t) : M DB Json :=
  let user := Headers.user headers in
  PasswordOrOtpData_validate (EnableYubikeyData.master_password_hash data) (EnableYubikeyData.otp data) user true ;;
  o ← gets (TwoFactor_find_by_user_and_type (User.uuid user) (TwoFactorType_as_i32 YubiKey));
  let yubikey_data := match o with Some tf => tf | None => TwoFactor_new tf_id (User.uuid user) YubiKey "" end in
  let yubikeys := parse_yubikeys data in
  if bool_decide (yubikeys = []) then err "A key is required." else
  for_each yubikeys (λ yubikey,
    if (String.length yubikey =? 0)%nat || (String.length yubikey =? 12)%nat then mret ()
    else map_res (verify_yubikey_otp yubikey) "Invalid Yubikey OTP provided") ;;
  let yubikey_metadata := YubikeyMetadata.mk (omap key_id yubikeys) (EnableYubikeyData.nfc data) in
  TwoFactor_save (TwoFactor.set_data (λ _, yubikey_to_json yubikey_metadata) yubikey_data) ;;
  generate_recover_code code user ;;
  mret (yubikey_answer yubikey_metadata).
Definition activate_yubikey_put := activate_yubikey.

(** [validate_yubikey_login]. *)
Definition yubikey_login (response twofactor_data : string) : M DB () :=
  if negb (String.length response =? 44)%nat then err "Invalid Yubikey OTP length" else
  yubikey_metadata ← expect (yubikey_from_json twofactor_data) "Can't parse Yubikey Metadata";
  if negb (is_char_boundary 12 response) then panic "byte index 12 is not a char boundary" else
  let response_id := String.substring 0 12 response in
  if negb (bool_decide (response_id ∈ YubikeyMetadata.keys yubikey_metadata)) then err "Given Yubikey is not registered" else
  map_res (verify_yubikey_otp response) "Failed to verify Yubikey against OTP server".

(** ** Duo *)

Definition DuoData_global : M DB (option DuoData.t) :=
  match enable_duo, duo_host with
  | true, Some host => ik ← unwrap duo_ikey; sk ← unwrap duo_skey; mret (Some (DuoData.mk host ik sk))
  | _, _ => mret None
  end.
Definition DuoData_msg (s : string) : DuoData.t := DuoData.mk s s s.
Definition DuoData_secret : DuoData.t := DuoData_msg "<global_secret>".

(** [replace_range(4.., "************")] panics on shorter text. *)
Definition obscure_text (s : string) : option string :=
  if is_char_boundary 4 s then Some (String.substring 0 4 s +:+ "************") else None.
Definition DuoData_obscure (d : DuoData.t) : option DuoData.t :=
  host ← obscure_text (DuoData.host d); ik ← obscure_text (DuoData.ik d); sk ← obscure_text (DuoData.sk d);
  Some (DuoData.mk host ik sk).

Definition DuoStatus_data (s : DuoStatus) : option DuoData.t :=
  match s with DuoGlobal d | DuoUser d => Some d | DuoDisabled _ => None end.

Definition DISABLED_MESSAGE_DEFAULT : string := "<To use the global Duo keys, please leave these fields untouched>".

Definition get_user_duo_data (user_id : string) : M DB DuoStatus :=
  o ← gets (TwoFactor_find_by_user_and_type user_id (TwoFactorType_as_i32 Duo));
  match o with
  | None => g ← DuoData_global; mret (DuoDisabled (bool_decide (is_Some g)))
  | Some twofactor =>
      match duo_provider_data (TwoFactor.data twofactor) with
      | Some (host, ik, sk) => mret (DuoUser (DuoData.mk host ik sk))
      | None => g ← DuoData_global; mret (match g with Some global => DuoGlobal global | None => DuoDisabled false end)
      end
  end.

Definition duo_json (enabled : bool) (data : option DuoData.t) : Json :=
  json_object [("enabled", JsBool enabled); ("host", json_opt (λ d, JsString (DuoData.host d)) data);
    ("clientSecret", json_opt (λ d, JsString (DuoData.sk d)) data); ("clientId", json_opt (λ d, JsString (DuoData.ik d)) data);
    ("object", JsString "twoFactorDuo")]%string.

Definition get_duo (master_password_hash otp : option string) (headers : Headers.t) : M DB Json :=
  let user := Headers.user headers in
  PasswordOrOtpData_validate master_password_hash otp user false ;;
  status ← get_user_duo_data (User.uuid user);
  match status with
  | DuoGlobal _ => mret (duo_json true (Some DuoData_secret))
  | DuoUser data => o ← unwrap (DuoData_obscure data); mret (duo_json true (Some o))
  | DuoDisabled true => mret (duo_json false (Some (DuoData_msg DISABLED_MESSAGE_DEFAULT)))
  | DuoDisabled false => mret (duo_json false None)
  end.

Definition empty_or_default (s : string) : bool := (trim s == "")%string || (s == DISABLED_MESSAGE_DEFAULT).
Definition check_duo_fields_custom (data : EnableDuoData.t) : bool :=
  negb (empty_or_default (EnableDuoData.host data)) && negb (empty_or_default (EnableDuoData.client_secret data))
  && negb (empty_or_default (EnableDuoData.client_id data)).

Definition activate_duo (tf_id code : string) (data : EnableDuoData.t) (headers : Headers.t) : M DB Json :=
  let user := Headers.user headers in
  PasswordOrOtpData_validate (EnableDuoData.master_password_hash data) (EnableDuoData.otp data) user true ;;
  '(shown, data_str) ← (if check_duo_fields_custom data then
      let data_req := DuoData.mk (EnableDuoData.host data) (EnableDuoData.client_id data) (EnableDuoData.client_secret data) in
      map_res (duo_check data_req) "Failed to validate Duo credentials" ;;
      shown ← unwrap (DuoData_obscure data_req);
      mret (shown, duo_to_json data_req)
    else mret (DuoData_secret, ""%string));
  TwoFactor_save (TwoFactor_new tf_id (User.uuid user) Duo data_str) ;;
  generate_recover_code code user ;;
  mret (duo_json true (Some shown)).
Definition activate_duo_put := activate_duo.

Definition DUO_EXPIRE : Z := 300.
Definition APP_EXPIRE : Z := 3600.
Definition AUTH_PREFIX : string := "AUTH".
Definition DUO_PREFIX : string := "TX".
Definition APP_PREFIX : string := "APP".

(** Integration key, secret, application key and host. *)
Definition get_duo_keys_email (email : string) : M DB (string * string * string * string) :=
  ou ← gets (User_find_by_mail email);
  data ← match ou with
    | Some u => status ← get_user_duo_data (User.uuid u); mret (DuoStatus_data status)
    | None => DuoData_global
    end;
  data ← some_or data "Can't fetch Duo Keys";
  mret (DuoData.ik data, DuoData.sk data, duo_akey, DuoData.host data).

Definition sign_duo_values (key email ikey prefix : string) (expire : Z) : string :=
  let val := email +:+ "|" +:+ ikey +:+ "|" +:+ pretty expire in
  let cookie := prefix +:+ "|" +:+ base64_encode val in
  cookie +:+ "|" +:+ hmac_sign key cookie.

Definition generate_duo_signature (email : string) : M DB (string * string) :=
  let time := now / 1000000 in
  '(ik, sk, ak, host) ← get_duo_keys_email email;
  let duo_sign := sign_duo_values sk email ik DUO_PREFIX (time + DUO_EXPIRE) in
  let app_sign := sign_duo_values ak email ik APP_PREFIX (time + APP_EXPIRE) in
  mret (duo_sign +:+ ":" +:+ app_sign, host).

Definition parse_duo_values (key val ikey prefix : string) (time : Z) : Res string :=
  match split_on bar val with
  | [u_prefix; u_b64; u_sig] =>
      let sig := hmac_sign key (u_prefix +:+ "|" +:+ u_b64) in
      if negb (ct_eq (hmac_sign key sig) (hmac_sign key u_sig)) then Err (MkError 400 "Duo signatures don't match") else
      if negb (u_prefix == prefix) then Err (MkError 400 "Prefixes don't match") else
      match base64_decode_utf8 u_b64 with
      | None => Err (MkError 400 "Invalid Duo cookie encoding")
      | Some cookie =>
          match split_on bar cookie with
          | [username; u_ikey; expire] =>
              if negb (ct_eq ikey u_ikey) then Err (MkError 400 "Invalid ikey") else
              match parse_i64 expire with
              | None => Err (MkError 400 "Invalid expire time")
              | Some expire => if expire <=? time then Err (MkError 400 "Expired authorization") else Ok username
              end
          | _ => Err (MkError 400 "Invalid cookie length")
          end
      end
  | _ => Err (MkError 400 "Invalid value length")
  end.

(** [validate_duo_login]. *)
Definition duo_login (email response : string) : M DB () :=
  match split_on (Ascii.ascii_of_nat 58) response with
  | [auth_sig; app_sig] =>
      let time := now / 1000000 in
      '(ik, sk, ak, _) ← get_duo_keys_email email;
      auth_user ← lift (parse_duo_values sk auth_sig ik AUTH_PREFIX time);
      app_user ← lift (parse_duo_values ak app_sig ik APP_PREFIX time);
      if negb (ct_eq auth_user app_user) || negb (ct_eq auth_user email) then err "Error validating duo authentication" else mret ()
  | _ => err "Invalid response length"
  end.
End handlers.
