(* ===== verification/Passkeys.v ===== *)
(** Security keys.

    Models src/src/api/core/two_factor/webauthn.rs: the handlers that list,
    register and delete keys, the challenge of a login and its check, with the
    flags on backups that older registrations lack. The webauthn crate is a
    parameter: it draws and checks challenges. The JSON of the stored keys is
    read and written by parameters; the states of the crate are changed as JSON
    values, as in the code. The event log is left out. *)
From S2P Require Import Prelude Schema Roles Users Json TwoFactors OneTimeCodes Sends EmergencyRows Memberships Groups Collections Guards VaultItems Ciphers Policies Organizations Emergency OrgJson Members Accounts Tokens SingleSignOn Identity Downloads Vault SendRequests SecondFactors.
Local Open Scope Z_scope.

(** ** Data *)

(** The bodies of the requests; bytes in base64 are strings of their values. *)
Module AuthenticatorAttestationResponseRawCopy.
Record t := mk { attestation_object : string; client_data_json : string }.
End AuthenticatorAttestationResponseRawCopy.
Module RegisterPublicKeyCredentialCopy.
Record t := mk { id : string; raw_id : string; response : AuthenticatorAttestationResponseRawCopy.t; type : string }.
End RegisterPublicKeyCredentialCopy.
Module AuthenticatorAssertionResponseRawCopy.
Record t := mk { authenticator_data : string; client_data_json : string; signature : string; user_handle : option string }.
End AuthenticatorAssertionResponseRawCopy.
Module PublicKeyCredentialCopy.
Record t := mk { id : string; raw_id : string; response : AuthenticatorAssertionResponseRawCopy.t; extensions : Json; type : string }.
End PublicKeyCredentialCopy.
Module EnableWebauthnData.
Record t := mk { id : NumberOrString; name : string; device_response : RegisterPublicKeyCredentialCopy.t;
                 master_password_hash : option string; otp : option string }.
End EnableWebauthnData.
Module DeleteU2FData.
Record t := mk { id : NumberOrString; master_password_hash : string }.
End DeleteU2FData.

(** Keys of the older protocol. *)
Module Registration.
Record t := mk { key_handle : string; pub_key : string; attestation_cert : option string; device_name : option string }.
End Registration.
Module U2FRegistration.
Record t := mk { id : Z; name : string; reg : Registration.t; counter : Z; compromised : bool; migrated : option bool }.
End U2FRegistration.

(** The types of the crate that the copies are turned into. *)
Module RegisterPublicKeyCredential.
Record t := mk { id : string; raw_id : string; attestation_object : string; client_data_json : string;
                 transports : option (list string); type : string; extensions : option Json }.
End RegisterPublicKeyCredential.
Module PublicKeyCredential.
Record t := mk { id : string; raw_id : string; authenticator_data : string; client_data_json : string; signature : string;
                 user_handle : option string; extensions : Json; type : string }.
End PublicKeyCredential.

Definition RegisterPublicKeyCredential_from (r : RegisterPublicKeyCredentialCopy.t) : RegisterPublicKeyCredential.t :=
  let response := RegisterPublicKeyCredentialCopy.response r in
  RegisterPublicKeyCredential.mk (RegisterPublicKeyCredentialCopy.id r) (RegisterPublicKeyCredentialCopy.raw_id r)
    (AuthenticatorAttestationResponseRawCopy.attestation_object response)
    (AuthenticatorAttestationResponseRawCopy.client_data_json response) None (RegisterPublicKeyCredentialCopy.type r) None.
Definition PublicKeyCredential_from (r : PublicKeyCredentialCopy.t) : PublicKeyCredential.t :=
  let response := PublicKeyCredentialCopy.response r in
  PublicKeyCredential.mk (PublicKeyCredentialCopy.id r) (PublicKeyCredentialCopy.raw_id r)
    (AuthenticatorAssertionResponseRawCopy.authenticator_data response)
    (AuthenticatorAssertionResponseRawCopy.client_data_json response) (AuthenticatorAssertionResponseRawCopy.signature response)
    (AuthenticatorAssertionResponseRawCopy.user_handle response) (PublicKeyCredentialCopy.extensions r) (PublicKeyCredentialCopy.type r).

(** ** The crate *)

(** The types of webauthn-rs and what the code calls of them. The states of a
    registration and of an authentication are read and written as JSON. *)
Class WebauthnCrate := {
  Passkey : Type;
  cred_id : Passkey → string;
  backup_eligible : Passkey → bool;
  backup_state : Passkey → bool;
  set_eligible : bool → Passkey → Passkey;
  set_state : bool → Passkey → Passkey;
  PasskeyRegistration : Type;
  PasskeyRegistration_to_value : PasskeyRegistration → Json;
  PasskeyRegistration_from_value : Json → option PasskeyRegistration;
  PasskeyAuthentication : Type;
  PasskeyAuthentication_to_value : PasskeyAuthentication → Json;
  PasskeyAuthentication_from_value : Json → option PasskeyAuthentication;
  (** The options sent to the client, without extensions and with verification
      of the user discouraged; with the id of the application. *)
  CreationOptions : Type;
  clear_extensions : CreationOptions → CreationOptions;
  discourage_creation : CreationOptions → CreationOptions;
  CreationOptions_to_value : CreationOptions → Json;
  RequestOptions : Type;
  discourage_request : RequestOptions → RequestOptions;
  set_appid : string → RequestOptions → RequestOptions;
  RequestOptions_to_value : RequestOptions → Json;
  AuthenticationResult : Type;
  result_cred_id : AuthenticationResult → string;
  start_passkey_registration : string → string → string → list string → Res (CreationOptions * PasskeyRegistration);
  finish_passkey_registration : RegisterPublicKeyCredential.t → PasskeyRegistration → Res Passkey;
  start_passkey_authentication : list Passkey → Res (RequestOptions * PasskeyAuthentication);
  finish_passkey_authentication : PublicKeyCredential.t → PasskeyAuthentication → Res AuthenticationResult;
  (** [update_credential]: the answer, and the key after it. *)
  update_credential : AuthenticationResult → Passkey → option bool * Passkey;
  (** [Uuid::from_str] succeeds. *)
  Uuid_valid : string → bool;
  (** [serde_json::from_value::<Base64UrlSafeData>]. *)
  base64_from_value : Json → option string;
}.

Module WebauthnRegistration.
Record t `{WebauthnCrate} := mk { id : Z; name : string; migrated : bool; credential : Passkey }.
Arguments mk {_} _ _ _ _.
Definition set_credential `{WebauthnCrate} (p : Passkey) (r : t) : t := mk (id r) (name r) (migrated r) p.
End WebauthnRegistration.

(** The JSON of the stored keys and of the answer of a client. *)
Class WebauthnCodecs `{WebauthnCrate} := {
  registrations_to_string : list WebauthnRegistration.t → string;
  registrations_from_str : string → option (list WebauthnRegistration.t);
  u2f_to_string : list U2FRegistration.t → string;
  u2f_from_str : string → option (list U2FRegistration.t);
  credential_from_str : string → option PublicKeyCredentialCopy.t;
}.

(** [v[k]] on the left of an assignment: [null] becomes an object, a missing key
    is added; [None] is the panic on any other value. *)
Definition Json_index_mut (k : string) (f : Json → option Json) (v : Json) : option Json :=
  match v with
  | JsNull => x ← f JsNull; Some (JsObject [(k, x)])
  | JsObject m => x ← f (default JsNull (Json_lookup k m)); Some (JsObject (Json_insert k x m))
  | _ => None
  end.
Definition assign (x : Json) : Json → option Json := λ _, Some x.
Definition not_indexable : string := "cannot access key in JSON value".

Section webauthn.
Context `{E : Env} `{K : Codecs} `{C : Crypto} `{F : FactorProviders} `{J : JsonText} `{W : !WebauthnCrate} `{WC : !WebauthnCodecs}.

Definition bad_json : Error := MkError 400 "Error parsing JSON".

Definition WebauthnRegistration_to_json (r : WebauthnRegistration.t) : Json :=
  json_object [("id", json_number (WebauthnRegistration.id r)); ("name", JsString (WebauthnRegistration.name r));
    ("migrated", JsBool (WebauthnRegistration.migrated r))]%string.

(** The key with the new flags, and whether something changed. *)
Definition WebauthnRegistration_set_backup_eligible (eligible state : bool) (r : WebauthnRegistration.t) : bool * WebauthnRegistration.t :=
  let cred := WebauthnRegistration.credential r in
  let '(changed, cred) := if negb (eqb (backup_state cred) state) then (true, set_state state cred) else (false, cred) in
  let '(changed, cred) := if eligible && negb (backup_eligible cred) then (true, set_eligible true cred) else (changed, cred) in
  (changed, WebauthnRegistration.set_credential cred r).

Definition get_webauthn_registrations (user_id : string) : M DB (bool * list WebauthnRegistration.t) :=
  o ← gets (TwoFactor_find_by_user_and_type user_id (TwoFactorType_as_i32 Webauthn));
  match o with
  | Some tf =>
      match registrations_from_str (TwoFactor.data tf) with
      | Some l => mret (TwoFactor.enabled tf, l)
      | None => throw bad_json
      end
  | None => mret (false, [])
  end.

(** ** Registration *)

Definition keys_json (object : string) (enabled : bool) (l : list WebauthnRegistration.t) : Json :=
  json_object [("enabled", JsBool enabled); ("keys", json_list WebauthnRegistration_to_json l); ("object", JsString object)]%string.

Definition get_webauthn (master_password_hash otp : option string) (headers : Headers.t) : M DB Json :=
  if negb is_webauthn_2fa_supported then err "Configured `DOMAIN` is not compatible with Webauthn" else
  let user := Headers.user headers in
  PasswordOrOtpData_validate master_password_hash otp user false ;;
  r ← get_webauthn_registrations (User.uuid user);
  mret (keys_json "twoFactorWebAuthn" r.1 r.2).

(** The two assignments to the state of a registration. *)
Definition discourage_state (state : Json) : option Json :=
  state ← Json_index_mut "rs" (Json_index_mut "policy" (assign (JsString "discouraged"))) state;
  Json_index_mut "rs" (Json_index_mut "extensions" (λ v, match v with JsObject _ => Some (JsObject []) | _ => None end)) state.

Definition generate_webauthn_challenge (tf_id : string) (master_password_hash otp : option string) (headers : Headers.t) : M DB Json :=
  let user := Headers.user headers in
  PasswordOrOtpData_validate master_password_hash otp user false ;;
  r ← get_webauthn_registrations (User.uuid user);
  let registrations := (λ r, cred_id (WebauthnRegistration.credential r)) <$> r.2 in
  (if Uuid_valid (User.uuid user) then mret () else panic "Failed to parse UUID") ;;
  cs ← lift (start_passkey_registration (User.uuid user) (User.email user) (User_display_name user) registrations);
  let '(challenge, state) := cs in
  state ← expect (discourage_state (PasskeyRegistration_to_value state)) not_indexable;
  TwoFactor_save (TwoFactor_new tf_id (User.uuid user) WebauthnRegisterChallenge (json_to_string state)) ;;
  let challenge := discourage_creation (clear_extensions challenge) in
  value ← expect (v ← Json_index_mut "status" (assign (JsString "ok")) (CreationOptions_to_value challenge);
                  Json_index_mut "errorMessage" (assign (JsString "")) v) not_indexable;
  mret value.

(** [tf_id] and [code] are drawn for the row and for the recovery code. *)
Definition activate_webauthn (tf_id code : string) (data : EnableWebauthnData.t) (headers : Headers.t) : M DB Json :=
  let user := Headers.user headers in
  PasswordOrOtpData_validate (EnableWebauthnData.master_password_hash data) (EnableWebauthnData.otp data) user true ;;
  o ← gets (TwoFactor_find_by_user_and_type (User.uuid user) (TwoFactorType_as_i32 WebauthnRegisterChallenge));
  tf ← some_or o "Can't recover challenge";
  match json_from_str (TwoFactor.data tf) ≫= PasskeyRegistration_from_value with
  | None => throw bad_json
  | Some state =>
      TwoFactor_delete tf ;;
      credential ← lift (finish_passkey_registration (RegisterPublicKeyCredential_from (EnableWebauthnData.device_response data)) state);
      r ← get_webauthn_registrations (User.uuid user);
      id ← lift (NumberOrString_into_i32 (EnableWebauthnData.id data));
      let registrations := r.2 ++ [WebauthnRegistration.mk id (EnableWebauthnData.name data) false credential] in
      TwoFactor_save (TwoFactor_new tf_id (User.uuid user) Webauthn (registrations_to_string registrations)) ;;
      generate_recover_code code user ;;
      mret (keys_json "twoFactorU2f" true registrations)
  end.
Definition activate_webauthn_put := activate_webauthn.

(** [data.iter().position(..)] and [data.remove(pos)]. *)
Fixpoint remove_first {A} (p : A → bool) (l : list A) : option (A * list A) :=
  match l with
  | [] => None
  | x :: l => if p x then Some (x, l) else '(y, r) ← remove_first p l; Some (y, x :: r)
  end.

(** The keys of the older protocol, without the one that was migrated. *)
Definition forget_u2f (removed : WebauthnRegistration.t) (user_id : string) : M DB () :=
  o ← gets (TwoFactor_find_by_user_and_type user_id (TwoFactorType_as_i32 U2f));
  match o with
  | Some u2f =>
      data ← some_or (u2f_from_str (TwoFactor.data u2f)) "Error parsing U2F data";
      let data := where_ (λ r, negb (Registration.key_handle (U2FRegistration.reg r) == cred_id (WebauthnRegistration.credential removed))) data in
      TwoFactor_save (TwoFactor.set_data (λ _, u2f_to_string data) u2f)
  | None => mret ()
  end.

Definition delete_webauthn (data : DeleteU2FData.t) (headers : Headers.t) : M DB Json :=
  let user := Headers.user headers in
  id ← lift (NumberOrString_into_i32 (DeleteU2FData.id data));
  if negb (User_check_valid_password user (DeleteU2FData.master_password_hash data)) then err "Invalid password" else
  o ← gets (TwoFactor_find_by_user_and_type (User.uuid user) (TwoFactorType_as_i32 Webauthn));
  tf ← some_or o "Webauthn data not found!";
  match registrations_from_str (TwoFactor.data tf) with
  | None => throw bad_json
  | Some data =>
      r ← some_or (remove_first (λ r, WebauthnRegistration.id r =? id) data) "Webauthn entry not found";
      let '(removed_item, data) := r in
      TwoFactor_save (TwoFactor.set_data (λ _, registrations_to_string data) tf) ;;
      forget_u2f removed_item (User.uuid user) ;;
      mret (keys_json "twoFactorU2f" true data)
  end.

(** ** Login *)

Definition generate_webauthn_login (tf_id domain user_id : string) : M DB Json :=
  r ← get_webauthn_registrations user_id;
  let creds := WebauthnRegistration.credential <$> r.2 in
  if bool_decide (length creds = 0%nat) then err "No Webauthn devices registered" else
  rs ← lift (start_passkey_authentication creds);
  let '(response, state) := rs in
  let app_id := domain +:+ "/app-id.json" in
  state ← expect (s ← Json_index_mut "ast" (Json_index_mut "policy" (assign (JsString "discouraged"))) (PasskeyAuthentication_to_value state);
                  Json_index_mut "ast" (Json_index_mut "appid" (assign (JsString app_id))) s) not_indexable;
  TwoFactor_save (TwoFactor_new tf_id user_id WebauthnLoginChallenge (json_to_string state)) ;;
  mret (RequestOptions_to_value (set_appid app_id (discourage_request response))).

Definition FLAG_BACKUP_ELIGIBLE : Z := 0x08.
Definition FLAG_BACKUP_STATE : Z := 0x10.

(** One credential of the state of the challenge; [None] is a panic. *)
Definition flag_credential (rsp_id : string) (eligible state : bool) (cred : Json) : option Json :=
  match Json_find "cred_id" cred with
  | None => Some cred
  | Some v =>
      id ← base64_from_value v;
      if ct_eq id rsp_id
      then c ← Json_index_mut "backup_eligible" (assign (JsBool eligible)) cred; Json_index_mut "backup_state" (assign (JsBool state)) c
      else Some cred
  end.
Definition flag_state (rsp_id : string) (eligible state : bool) (raw_state : Json) : option Json :=
  match Json_find "ast" raw_state with
  | Some ast =>
      match Json_find "credentials" ast with
      | Some (JsArray credentials) =>
          l ← mapM (flag_credential rsp_id eligible state) credentials;
          Some (Json_set "ast" (Json_set "credentials" (JsArray l) ast) raw_state)
      | _ => Some raw_state
      end
  | None => Some raw_state
  end.

(** The loop over the keys: the first with the id of the answer, changed. *)
Fixpoint flag_registrations (rsp_id : string) (eligible state : bool) (l : list WebauthnRegistration.t)
    : bool * list WebauthnRegistration.t :=
  match l with
  | [] => (false, [])
  | reg :: l' =>
      if ct_eq (cred_id (WebauthnRegistration.credential reg)) rsp_id
      then let '(changed, reg) := WebauthnRegistration_set_backup_eligible eligible state reg in (changed, reg :: l')
      else let '(changed, l') := flag_registrations rsp_id eligible state l' in (changed, reg :: l')
  end.

Definition check_and_update_backup_eligible (rsp : PublicKeyCredential.t) (registrations : list WebauthnRegistration.t)
    (state : PasskeyAuthentication) : M DB (bool * list WebauthnRegistration.t * PasskeyAuthentication) :=
  match String.get 32 (PublicKeyCredential.authenticator_data rsp) with
  | Some bits =>
      let bits := Z.of_nat (Ascii.nat_of_ascii bits) in
      let eligible := negb (Z.land bits FLAG_BACKUP_ELIGIBLE =? 0) in
      let backup := negb (Z.land bits FLAG_BACKUP_STATE =? 0) in
      if eligible then
        let rsp_id := PublicKeyCredential.raw_id rsp in
        let '(changed, registrations) := flag_registrations rsp_id eligible backup registrations in
        if changed then
          raw_state ← expect (flag_state rsp_id eligible backup (PasskeyAuthentication_to_value state)) not_indexable;
          match PasskeyAuthentication_from_value raw_state with
          | Some state => mret (true, registrations, state)
          | None => throw bad_json
          end
        else mret (false, registrations, state)
      else mret (false, registrations, state)
  | None => mret (false, registrations, state)
  end.

(** The loop over the keys after the answer was accepted: whether the key with
    its id was updated, and the keys after it. *)
Fixpoint update_registrations (result : AuthenticationResult) (l : list WebauthnRegistration.t) : option (bool * list WebauthnRegistration.t) :=
  match l with
  | [] => None
  | reg :: l' =>
      if ct_eq (cred_id (WebauthnRegistration.credential reg)) (result_cred_id result)
      then let '(updated, p) := update_credential result (WebauthnRegistration.credential reg) in
           Some (bool_decide (updated = Some true), WebauthnRegistration.set_credential p reg :: l')
      else '(updated, l') ← update_registrations result l'; Some (updated, reg :: l')
  end.

Definition webauthn_login (tf_id user_id response : string) : M DB () :=
  o ← gets (TwoFactor_find_by_user_and_type user_id (TwoFactorType_as_i32 WebauthnLoginChallenge));
  tf ← some_or o "Can't recover login challenge";
  match json_from_str (TwoFactor.data tf) ≫= PasskeyAuthentication_from_value with
  | None => throw bad_json
  | Some state =>
      TwoFactor_delete tf ;;
      match credential_from_str response with
      | None => throw bad_json
      | Some rsp =>
          let rsp := PublicKeyCredential_from rsp in
          r ← get_webauthn_registrations user_id;
          c ← check_and_update_backup_eligible rsp r.2 state;
          let '(backup_flags_updated, registrations, state) := c in
          authentication_result ← lift (finish_passkey_authentication rsp state);
          u ← some_or (update_registrations authentication_result registrations) "Credential not present";
          let '(credential_updated, registrations) := u in
          when (credential_updated || backup_flags_updated)
            (TwoFactor_save (TwoFactor_new tf_id user_id Webauthn (registrations_to_string registrations)))
      end
  end.

(** The providers of a login with these functions for security keys. *)
Definition with_passkeys (challenge_id login_id domain : string) : FactorProviders := {|
  duo_provider_data := duo_provider_data; enable_duo := enable_duo; duo_host := duo_host; duo_ikey := duo_ikey; duo_skey := duo_skey;
  enable_yubico := enable_yubico; yubico_client_id := yubico_client_id; yubico_secret_key := yubico_secret_key;
  is_webauthn_2fa_supported := is_webauthn_2fa_supported; validate_webauthn_login := webauthn_login login_id;
  validate_yubikey_login := validate_yubikey_login; validate_duo_login := validate_duo_login;
  webauthn_challenge := λ user_id, generate_webauthn_login challenge_id domain user_id ;; mret (); duo_challenge := duo_challenge;
  yubikey_metadata := yubikey_metadata; sends_own_email_code := sends_own_email_code |}.
End webauthn.

(** ** A sample of the crate

    A key is its id with the two flags. A challenge lists the ids that may
    answer; an answer is the id of its key. *)
Module SamplePasskeys.
Notation key := (string * bool * bool)%type.
Definition creds_json (l : list key) : Json := JsArray ((λ k, JsObject [("cred_id", JsString k.1.1)])%string <$> l).
Definition in_creds (id : string) (v : Json) : bool :=
  match Json_get "credentials" (Json_get "ast" v) with
  | JsArray l => existsb (λ c, match Json_get "cred_id" c with JsString s => s == id | _ => false end) l
  | _ => false
  end.
#[export] Instance crate : WebauthnCrate := {|
  Passkey := key; cred_id k := k.1.1; backup_eligible k := k.1.2; backup_state k := k.2;
  set_eligible b k := (k.1.1, b, k.2); set_state b k := (k.1.1, k.1.2, b);
  PasskeyRegistration := Json; PasskeyRegistration_to_value := id; PasskeyRegistration_from_value := Some;
  PasskeyAuthentication := Json; PasskeyAuthentication_to_value := id; PasskeyAuthentication_from_value := Some;
  CreationOptions := (); clear_extensions := id; discourage_creation := id; CreationOptions_to_value _ := JsObject [];
  RequestOptions := (); discourage_request := id; set_appid _ := id; RequestOptions_to_value _ := JsObject [];
  AuthenticationResult := string; result_cred_id := id;
  start_passkey_registration u _ _ _ := Ok (tt, JsObject [("rs", JsObject [("challenge", JsString u); ("extensions", JsObject [])])]%string);
  finish_passkey_registration r _ := Ok (RegisterPublicKeyCredential.raw_id r, false, false);
  start_passkey_authentication l := Ok (tt, JsObject [("ast", JsObject [("credentials", creds_json l)])]%string);
  finish_passkey_authentication r v :=
    if in_creds (PublicKeyCredential.raw_id r) v then Ok (PublicKeyCredential.raw_id r) else Err (MkError 400 "Unknown key");
  update_credential _ k := (Some true, k); Uuid_valid _ := true; base64_from_value v := match v with JsString s => Some s | _ => None end |}.

Definition fields (r : WebauthnRegistration.t) : Z * string * bool * key :=
  (WebauthnRegistration.id r, WebauthnRegistration.name r, WebauthnRegistration.migrated r, WebauthnRegistration.credential r).
Definition of_fields (x : Z * string * bool * key) : WebauthnRegistration.t :=
  let '(i, n, m, k) := x in WebauthnRegistration.mk i n m k.
#[export] Instance codecs : WebauthnCodecs := {|
  registrations_to_string l := SampleCodecs.bits (encode (map fields l));
  registrations_from_str s := option_map (map of_fields) (decode (A := list (Z * string * bool * (string * bool * bool))) (SampleCodecs.unbits s));
  u2f_to_string _ := ""%string; u2f_from_str _ := None;
  credential_from_str s := Some (PublicKeyCredentialCopy.mk s s (AuthenticatorAssertionResponseRawCopy.mk "" "" "" None) JsNull "public-key"); |}.
End SamplePasskeys.
