(* ===== verification/Configuration.v ===== *)
(** The configuration of the server.

    Models src/src/config.rs: the table of settings that [make_config!] expands
    (names, types, whether an administrator may change them, and what happens
    when they are not set), building a configuration from the environment and
    the stored settings, its validation, the requests of the administrator that
    change it, the file it is kept in, and the report for support. Of
    src/src/storage.rs, src/src/db/mod.rs and src/src/util.rs it has what these
    functions call. A configuration is a finite map from names to values; the
    file system, URLs, regular expressions, schedules and hashes are parameters.
    Descriptions of settings, templates and messages on the console are left
    out. *)
From stdpp Require Import pretty.
From S2P Require Import Prelude Schema Users Json Network OneTimeCodes Tokens Guards SecondFactors.
Local Open Scope Z_scope.

(** ** Text *)

Definition slash : Ascii.ascii := Ascii.ascii_of_nat 47.
Definition starts_with (p s : string) : bool := String.prefix p s.
(** [s.contains(c)]. *)
Fixpoint contains (c : Ascii.ascii) (s : string) : bool :=
  match s with EmptyString => false | String a s => (a == c) || contains c s end.
(** [s.trim_start_matches(c)] and [s.trim_end_matches(c)]. *)
Fixpoint trim_start_matches (c : Ascii.ascii) (s : string) : string :=
  match s with EmptyString => EmptyString | String a s' => if a == c then trim_start_matches c s' else s end.
Fixpoint trim_end_matches (c : Ascii.ascii) (s : string) : string :=
  match s with
  | EmptyString => EmptyString
  | String a s' =>
      match trim_end_matches c s' with
      | EmptyString => if a == c then EmptyString else String a EmptyString
      | r => String a r
      end
  end.
(** [s.split_once(c)]: the text before the first [c]. *)
Definition before_first (c : Ascii.ascii) (s : string) : option string :=
  match split_on c s with w :: _ :: _ => Some w | _ => None end.
(** [s.split_whitespace()]. *)
Fixpoint words (s : string) : list string :=
  match s with
  | EmptyString => [EmptyString]
  | String a s' =>
      if is_space a then EmptyString :: words s'
      else match words s' with w :: ws => String a w :: ws | [] => [String a EmptyString] end
  end.
Definition split_whitespace (s : string) : list string := where_ (λ w, negb (w == "")%string) (words s).
(** [s.matches("{}").count()]. *)
Fixpoint placeholders (s : string) : nat :=
  match s with
  | String a (String b s' as s1) =>
      if (a == Ascii.ascii_of_nat 123) && (b == Ascii.ascii_of_nat 125) then S (placeholders s') else placeholders s1
  | _ => O
  end.
(** [&s[..n]]; [None] is the panic inside a character or behind the end. *)
Definition slice_to (n : nat) (s : string) : option string :=
  if (n <=? String.length s)%nat && is_char_boundary n s then Some (String.substring 0 n s) else None.

(** A panic, and one on a slice. *)
Definition crash {S A} (msg : string) : M S A := throw (MkError 500 msg).
Definition sliced {S} (o : option string) : M S string :=
  match o with Some s => mret s | None => crash "byte index is not a char boundary" end.

(** A check that has no state. *)
Definition checked {A} (m : M () A) : Res A := (m ()).1.

(** ** Crates and the machine *)

(** The features of the build: [cfg(mysql)], [cfg(postgresql)], [cfg(sqlite)]
    and [cfg(s3)]. *)
Class BuildFeatures := { with_mysql : bool; with_postgresql : bool; with_sqlite : bool; with_s3 : bool }.

(** What [path.metadata()] answers: the path is missing, cannot be read, or is
    there with its kind and its permissions. *)
Inductive Metadata := NotFound | Unreadable (msg : string) | Found (is_dir : bool) (mode : Z).

(** The crates url, email_address, regex, cron, argon2, which and openidconnect
    and the file system, as far as the configuration asks them. *)
Class ConfigCrates := {
  Url : Type;
  Url_parse : string → option Url;
  Url_origin : Url → string;
  Url_path : Url → string;
  Url_domain : Url → option string;
  Url_query : Url → option string;
  (** [url.path_segments()], [url.set_path(..)] and [url.to_string()]. *)
  Url_path_segments : Url → option (list string);
  Url_set_path : string → Url → Url;
  Url_to_string : Url → string;
  (** The domain of an address that [EmailAddress::from_str] reads. *)
  EmailAddress_domain : string → option string;
  Regex_valid : string → bool;
  Schedule_valid : string → bool;
  PasswordHash_valid : string → bool;
  which : string → option string;
  IssuerUrl_valid : string → bool;
  RedirectUrl_valid : string → bool;
  is_dir : string → bool;
  exists_path : string → bool;
  can_append : string → bool;
  metadata : string → Metadata;
}.

Section storage.
Context `{BF : BuildFeatures} `{CC : ConfigCrates}.

(** *** src/src/storage.rs *)

Definition is_uri (path : string) : bool := starts_with "s3://" path.
Definition path_segments (url : Url) : list string := where_ (λ s, negb (s == "")%string) (default [] (Url_path_segments url)).
Definition set_path_segments (url : Url) (segments : list string) : Url :=
  Url_set_path (match segments with [] => "" | _ => "/" +:+ String.concat "/" segments end) url.

Definition join_plain (base child : string) : string :=
  let base := trim_end_matches slash base in
  let child := trim_start_matches slash child in
  if base == "" then child else if child == "" then base else base +:+ "/" +:+ child.
Definition s3_join_path (base child : string) : string :=
  match Url_parse base with
  | Some url => Url_to_string (set_path_segments url (path_segments url ++ where_ (λ s, negb (s == "")%string) (split_on slash child)))
  | None => join_plain base child
  end.
Definition join_path (base child : string) : string :=
  if with_s3 && is_uri base then s3_join_path base child else join_plain base child.

(** *** src/src/util.rs *)

Definition is_valid_email (email : string) : bool :=
  match EmailAddress_domain email with
  | Some domain =>
      match Url_parse ("https://" +:+ domain) with
      | Some email_url =>
          (Url_path email_url == "/") && bool_decide (is_Some (Url_domain email_url)) && bool_decide (Url_query email_url = None)
      | None => false
      end
  | None => false
  end%string.
End storage.

Inductive FeatureFlagFilter := Unfiltered | ValidOnly | InvalidOnly.

Definition SUPPORTED_FEATURE_FLAGS : list string :=
  ["desktop-ui-migration-milestone-1"; "desktop-ui-migration-milestone-2"; "desktop-ui-migration-milestone-3";
   "desktop-ui-migration-milestone-4"; "pm-5594-safari-account-switching"; "ssh-agent"; "ssh-agent-v2"; "ssh-key-vault-item";
   "pm-25373-windows-biometrics-v2"; "pm-26340-linux-biometrics-v2"; "anon-addy-self-host-alias"; "simple-login-self-host-alias";
   "mutual-tls"; "cxp-import-mobile"; "cxp-export-mobile"; "pm-30529-webauthn-related-origins"]%string.

(** The keys of the map; every value is [true]. *)
Definition parse_experimental_client_feature_flags (flags : string) (filter_mode : FeatureFlagFilter) : gset string :=
  list_to_set (where_ (λ flag, match filter_mode with
                               | Unfiltered => true
                               | ValidOnly => bool_decide (flag ∈ SUPPORTED_FEATURE_FLAGS)
                               | InvalidOnly => negb (bool_decide (flag ∈ SUPPORTED_FEATURE_FLAGS))
                               end)
                 (where_ (λ flag, negb (flag == "")%string) (trim <$> split_commas flags))).

(** *** [DbConnType] of src/src/db/mod.rs *)

Inductive DbConnType := Mysql | Postgresql | Sqlite.
#[export] Instance DbConnType_eq_dec : EqDecision DbConnType.
Proof. solve_decision. Defined.

Section database.
Context `{BF : BuildFeatures} `{CC : ConfigCrates}.

Definition DbConnType_from_url (url : string) : M () DbConnType :=
  mysql ← (if (6 <? String.length url)%nat then s ← sliced (slice_to 6 url); mret (s == "mysql:")%string else mret false);
  if (mysql : bool) then
    if with_mysql then mret Mysql else err "`DATABASE_URL` is a MySQL URL, but the 'mysql' feature is not enabled" else
  postgresql ← (if (11 <? String.length url)%nat then
                  s ← sliced (slice_to 11 url);
                  if (s == "postgresql:")%string then mret true else s ← sliced (slice_to 9 url); mret (s == "postgres:")%string
                else mret false);
  if (postgresql : bool) then
    if with_postgresql then mret Postgresql else err "`DATABASE_URL` is a PostgreSQL URL, but the 'postgresql' feature is not enabled" else
  sqlite ← (if (7 <? String.length url)%nat then s ← sliced (slice_to 7 url); mret (s == "sqlite:")%string else mret false);
  if (sqlite : bool) then
    if with_sqlite then mret Sqlite else err "`DATABASE_URL` is a SQLite URL, but the 'sqlite' feature is not enabled" else
  if with_sqlite then
    if exists_path url then mret Sqlite
    else err ("`DATABASE_URL` does not match any known database scheme (mysql://, postgresql://, sqlite://) and no existing SQLite database was found at '" +:+ url +:+ "'.")
  else err "`DATABASE_URL` does not match any known database scheme (mysql://, postgresql://, sqlite://)".
End database.

(** ** Values that are derived from other settings *)

Section derived.
Context `{CC : ConfigCrates}.

Definition extract_url_origin (url : string) : string :=
  match Url_parse url with Some u => Url_origin u | None => "" end%string.
Definition extract_url_path (url : string) : string :=
  match Url_parse url with Some u => trim_end_matches slash (Url_path u) | None => "" end%string.
Definition generate_smtp_img_src (embed_images : bool) (domain : string) : string :=
  if embed_images then "cid:" else trim_end_matches slash domain +:+ "/vw_static/".
Definition generate_sso_callback_path (domain : string) : string :=
  trim_end_matches slash domain +:+ "/identity/connect/oidc-signin".
Definition generate_icon_service_url (icon_service : string) : string :=
  if icon_service == "internal" then "" else
  if icon_service == "bitwarden" then "https://icons.bitwarden.net/{}/icon.png" else
  if icon_service == "duckduckgo" then "https://icons.duckduckgo.com/ip3/{}.ico" else
  if icon_service == "google" then "https://www.google.com/s2/favicons?domain={}&sz=32" else icon_service.
Definition generate_icon_service_csp (icon_service icon_service_url : string) : string :=
  let csp_string := default ""%string (before_first (Ascii.ascii_of_nat 123) icon_service_url) in
  if icon_service == "google" then csp_string +:+ " https://*.gstatic.com/favicon" else csp_string.
Definition smtp_convert_deprecated_ssl_options (smtp_ssl smtp_explicit_tls : option bool) : string :=
  if default false smtp_explicit_tls then "force_tls" else if negb (default true smtp_ssl) then "off" else "starttls".
End derived.

(** ** The table of settings *)

(** The types of settings; [Pass] is a [String] that is not shown. *)
Inductive Kind := TString | TPass | TBool | TU8 | TU16 | TU32 | TU64 | TUsize | TI32 | TI64.
#[export] Instance Kind_eq_dec : EqDecision Kind.
Proof. solve_decision. Defined.
Inductive Value := VStr (s : string) | VBool (b : bool) | VNum (n : Z).
#[export] Instance Value_eq_dec : EqDecision Value.
Proof. solve_decision. Defined.

(** The range of a type of integers. *)
Definition num_range (k : Kind) : option (Z * Z) :=
  match k with
  | TU8 => Some (0, 2 ^ 8) | TU16 => Some (0, 2 ^ 16) | TU32 => Some (0, 2 ^ 32) | TU64 | TUsize => Some (0, 2 ^ 64)
  | TI32 => Some (- 2 ^ 31, 2 ^ 31) | TI64 => Some (- 2 ^ 63, 2 ^ 63)
  | TString | TPass | TBool => None
  end.
Definition has_kind (k : Kind) (v : Value) : bool :=
  match v with
  | VStr _ => (k == TString) || (k == TPass)
  | VBool _ => k == TBool
  | VNum n => match num_range k with Some (lo, hi) => (lo <=? n) && (n <? hi) | None => false end
  end.

(** [ConfigItems] and [ConfigBuilder]: an entry for each field that is not
    [None]. Reading a field that was not filled gives the default of its type,
    as in the [ConfigItems::default()] that [build] starts from. *)
Definition ConfigItems : Type := gmap string Value.
Definition ConfigBuilder : Type := gmap string Value.
Definition opt_str (c : ConfigItems) (name : string) : option string :=
  match c !! name with Some (VStr s) => Some s | _ => None end.
Definition opt_flag (c : ConfigItems) (name : string) : option bool :=
  match c !! name with Some (VBool b) => Some b | _ => None end.
Definition opt_num (c : ConfigItems) (name : string) : option Z :=
  match c !! name with Some (VNum n) => Some n | _ => None end.
Definition str (c : ConfigItems) (name : string) : string := default ""%string (opt_str c name).
Definition flag (c : ConfigItems) (name : string) : bool := default false (opt_flag c name).
Definition num (c : ConfigItems) (name : string) : Z := default 0 (opt_num c name).

(** What happens when a setting is not given: nothing, a default, or a value
    made from other settings; a [Generated] one ignores what is given. *)
Inductive NoneAction := Optional | Def (v : Value) | Auto (f : ConfigItems → Value) | Generated (f : ConfigItems → Value).
Record Item := mkItem { item_name : string; item_kind : Kind; item_editable : bool; item_action : NoneAction }.

Section table.
Context `{BF : BuildFeatures} `{CC : ConfigCrates}.
Local Open Scope string_scope.

Definition folders_group : list Item :=
  [mkItem "data_folder" TString false (Def (VStr "data"));
   mkItem "database_url" TString false (Auto (λ c, VStr ("sqlite://" +:+ join_path (str c "data_folder") "db.sqlite3")));
   mkItem "icon_cache_folder" TString false (Auto (λ c, VStr (join_path (str c "data_folder") "icon_cache")));
   mkItem "attachments_folder" TString false (Auto (λ c, VStr (join_path (str c "data_folder") "attachments")));
   mkItem "sends_folder" TString false (Auto (λ c, VStr (join_path (str c "data_folder") "sends")));
   mkItem "tmp_folder" TString false (Auto (λ c, VStr (join_path (str c "data_folder") "tmp")));
   mkItem "templates_folder" TString false (Auto (λ c, VStr (join_path (str c "data_folder") "templates")));
   mkItem "rsa_key_filename" TString false (Auto (λ c, VStr (join_path (str c "data_folder") "rsa_key")));
   mkItem "web_vault_folder" TString false (Def (VStr "web-vault/"))].
Definition ws_group : list Item :=
  [mkItem "enable_websocket" TBool false (Def (VBool true))].
Definition push_group : list Item :=
  [mkItem "push_enabled" TBool false (Def (VBool false));
   mkItem "push_relay_uri" TString false (Def (VStr "https://push.bitwarden.com"));
   mkItem "push_identity_uri" TString false (Def (VStr "https://identity.bitwarden.com"));
   mkItem "push_installation_id" TPass false (Def (VStr ""));
   mkItem "push_installation_key" TPass false (Def (VStr ""))].
Definition jobs_group : list Item :=
  [mkItem "job_poll_interval_ms" TU64 false (Def (VNum 30000));
   mkItem "send_purge_schedule" TString false (Def (VStr "0 5 * * * *"));
   mkItem "trash_purge_schedule" TString false (Def (VStr "0 5 0 * * *"));
   mkItem "incomplete_2fa_schedule" TString false (Def (VStr "30 * * * * *"));
   mkItem "emergency_notification_reminder_schedule" TString false (Def (VStr "0 3 * * * *"));
   mkItem "emergency_request_timeout_schedule" TString false (Def (VStr "0 7 * * * *"));
   mkItem "event_cleanup_schedule" TString false (Def (VStr "0 10 0 * * *"));
   mkItem "auth_request_purge_schedule" TString false (Def (VStr "30 * * * * *"));
   mkItem "duo_context_purge_schedule" TString false (Def (VStr "30 * * * * *"));
   mkItem "purge_incomplete_sso_auth" TString false (Def (VStr "0 20 0 * * *"))].
Definition settings_group : list Item :=
  [mkItem "domain" TString true (Def (VStr "http://localhost"));
   mkItem "domain_set" TBool false (Def (VBool false));
   mkItem "domain_origin" TString false (Auto (λ c, VStr (extract_url_origin (str c "domain"))));
   mkItem "domain_path" TString false (Auto (λ c, VStr (extract_url_path (str c "domain"))));
   mkItem "web_vault_enabled" TBool false (Def (VBool true));
   mkItem "sends_allowed" TBool true (Def (VBool true));
   mkItem "hibp_api_key" TPass true Optional;
   mkItem "user_attachment_limit" TI64 true Optional;
   mkItem "org_attachment_limit" TI64 true Optional;
   mkItem "user_send_limit" TI64 true Optional;
   mkItem "trash_auto_delete_days" TI64 true Optional;
   mkItem "incomplete_2fa_time_limit" TI64 true (Def (VNum 3));
   mkItem "disable_icon_download" TBool true (Def (VBool false));
   mkItem "signups_allowed" TBool true (Def (VBool true));
   mkItem "signups_verify" TBool true (Def (VBool false));
   mkItem "signups_verify_resend_time" TU64 true (Def (VNum 3600));
   mkItem "signups_verify_resend_limit" TU32 true (Def (VNum 6));
   mkItem "signups_domains_whitelist" TString true (Def (VStr ""));
   mkItem "org_events_enabled" TBool false (Def (VBool false));
   mkItem "org_creation_users" TString true (Def (VStr ""));
   mkItem "invitations_allowed" TBool true (Def (VBool true));
   mkItem "invitation_expiration_hours" TU32 false (Def (VNum 120));
   mkItem "emergency_access_allowed" TBool true (Def (VBool true));
   mkItem "email_change_allowed" TBool true (Def (VBool true));
   mkItem "password_iterations" TI32 true (Def (VNum 600000));
   mkItem "password_hints_allowed" TBool true (Def (VBool true));
   mkItem "show_password_hint" TBool true (Def (VBool false));
   mkItem "admin_token" TPass true Optional;
   mkItem "invitation_org_name" TString true (Def (VStr "Vaultwarden"));
   mkItem "events_days_retain" TI64 false Optional].
Definition client_group : list Item :=
  [mkItem "client_suppress_onboarding" TBool true (Def (VBool false))].
Definition advanced_requests : list Item :=
  [mkItem "ip_header" TString true (Def (VStr "X-Real-IP"));
   mkItem "_ip_header_enabled" TBool false (Generated (λ c, VBool (negb (to_lowercase (trim (str c "ip_header")) == "none"))));
   mkItem "ip_header_trusted_proxies" TString true (Def (VStr "local"));
   mkItem "icon_service" TString false (Def (VStr "internal"));
   mkItem "_icon_service_url" TString false (Generated (λ c, VStr (generate_icon_service_url (str c "icon_service"))));
   mkItem "_icon_service_csp" TString false (Generated (λ c, VStr (generate_icon_service_csp (str c "icon_service") (str c "_icon_service_url"))));
   mkItem "icon_redirect_code" TU32 true (Def (VNum 302));
   mkItem "icon_cache_ttl" TU64 true (Def (VNum 2592000));
   mkItem "icon_cache_negttl" TU64 true (Def (VNum 259200));
   mkItem "icon_download_timeout" TU64 true (Def (VNum 10));
   mkItem "icon_blacklist_regex" TString false Optional;
   mkItem "icon_blacklist_non_global_ips" TBool false (Def (VBool true));
   mkItem "http_request_block_regex" TString true Optional;
   mkItem "http_request_block_non_global_ips" TBool true (Auto (λ c, VBool (flag c "icon_blacklist_non_global_ips")))].
Definition advanced_rest : list Item :=
  [mkItem "disable_2fa_remember" TBool true (Def (VBool false));
   mkItem "authenticator_disable_time_drift" TBool true (Def (VBool false));
   mkItem "experimental_client_feature_flags" TString false (Def (VStr ""));
   mkItem "require_device_email" TBool true (Def (VBool false));
   mkItem "reload_templates" TBool true (Def (VBool false));
   mkItem "extended_logging" TBool false (Def (VBool true));
   mkItem "log_timestamp_format" TString true (Def (VStr "%Y-%m-%d %H:%M:%S.%3f"));
   mkItem "use_syslog" TBool false (Def (VBool false));
   mkItem "log_file" TString false Optional;
   mkItem "log_level" TString false (Def (VStr "info"));
   mkItem "enable_db_wal" TBool false (Def (VBool true));
   mkItem "db_connection_retries" TU32 false (Def (VNum 15));
   mkItem "database_timeout" TU64 false (Def (VNum 30));
   mkItem "database_idle_timeout" TU64 false (Def (VNum 600));
   mkItem "database_max_conns" TU32 false (Def (VNum 10));
   mkItem "database_min_conns" TU32 false (Def (VNum 2));
   mkItem "database_conn_init" TString false (Def (VStr ""));
   mkItem "disable_admin_token" TBool false (Def (VBool false));
   mkItem "allowed_iframe_ancestors" TString true (Def (VStr ""));
   mkItem "allowed_connect_src" TString true (Def (VStr ""));
   mkItem "login_ratelimit_seconds" TU64 false (Def (VNum 60));
   mkItem "login_ratelimit_max_burst" TU32 false (Def (VNum 10));
   mkItem "unauthenticated_ratelimit_seconds" TU64 false (Def (VNum 60));
   mkItem "unauthenticated_ratelimit_max_burst" TU32 false (Def (VNum 50));
   mkItem "admin_ratelimit_seconds" TU64 false (Def (VNum 300));
   mkItem "admin_ratelimit_max_burst" TU32 false (Def (VNum 3));
   mkItem "admin_session_lifetime" TI64 true (Def (VNum 20));
   mkItem "org_groups_enabled" TBool false (Def (VBool false));
   mkItem "increase_note_size_limit" TBool true (Def (VBool false));
   mkItem "_max_note_size" TUsize false (Generated (λ c, VNum (if flag c "increase_note_size_limit" then 100000 else 10000)));
   mkItem "enforce_single_org_with_reset_pw_policy" TBool false (Def (VBool false));
   mkItem "dns_prefer_ipv6" TBool true (Def (VBool false))].
Definition sso_group : list Item :=
  [mkItem "sso_enabled" TBool true (Def (VBool false));
   mkItem "sso_only" TBool true (Def (VBool false));
   mkItem "sso_signups_match_email" TBool true (Def (VBool true));
   mkItem "sso_allow_unknown_email_verification" TBool true (Def (VBool false));
   mkItem "sso_client_id" TString true (Def (VStr ""));
   mkItem "sso_client_secret" TPass true (Def (VStr ""));
   mkItem "sso_authority" TString true (Def (VStr ""));
   mkItem "sso_scopes" TString true (Def (VStr "email profile"));
   mkItem "sso_authorize_extra_params" TString true (Def (VStr ""));
   mkItem "sso_pkce" TBool true (Def (VBool true));
   mkItem "sso_audience_trusted" TString true Optional;
   mkItem "sso_callback_path" TString true (Generated (λ c, VStr (generate_sso_callback_path (str c "domain"))));
   mkItem "sso_master_password_policy" TString true Optional;
   mkItem "sso_auth_only_not_session" TBool true (Def (VBool false));
   mkItem "sso_client_cache_expiration" TU64 true (Def (VNum 0));
   mkItem "sso_debug_tokens" TBool true (Def (VBool false))].
Definition yubico_group : list Item :=
  [mkItem "_enable_yubico" TBool true (Def (VBool true));
   mkItem "yubico_client_id" TString true Optional;
   mkItem "yubico_secret_key" TPass true Optional;
   mkItem "yubico_server" TString true Optional].
Definition duo_group : list Item :=
  [mkItem "_enable_duo" TBool true (Def (VBool true));
   mkItem "duo_use_iframe" TBool false (Def (VBool false));
   mkItem "duo_ikey" TString true Optional;
   mkItem "duo_skey" TPass true Optional;
   mkItem "duo_host" TString true Optional;
   mkItem "_duo_akey" TPass false Optional].
Definition smtp_group : list Item :=
  [mkItem "_enable_smtp" TBool true (Def (VBool true));
   mkItem "use_sendmail" TBool true (Def (VBool false));
   mkItem "sendmail_command" TString false Optional;
   mkItem "smtp_host" TString true Optional;
   mkItem "smtp_ssl" TBool false Optional;
   mkItem "smtp_explicit_tls" TBool false Optional;
   mkItem "smtp_security" TString true (Auto (λ c, VStr (smtp_convert_deprecated_ssl_options (opt_flag c "smtp_ssl") (opt_flag c "smtp_explicit_tls"))));
   mkItem "smtp_port" TU16 true (Auto (λ c, VNum (if str c "smtp_security" == "force_tls" then 465 else if str c "smtp_security" == "starttls" then 587 else 25)));
   mkItem "smtp_from" TString true (Def (VStr ""));
   mkItem "smtp_from_name" TString true (Def (VStr "Vaultwarden"));
   mkItem "smtp_username" TString true Optional;
   mkItem "smtp_password" TPass true Optional;
   mkItem "smtp_auth_mechanism" TString true Optional;
   mkItem "smtp_timeout" TU64 true (Def (VNum 15));
   mkItem "helo_name" TString true Optional;
   mkItem "smtp_embed_images" TBool true (Def (VBool true));
   mkItem "_smtp_img_src" TString false (Generated (λ c, VStr (generate_smtp_img_src (flag c "smtp_embed_images") (str c "domain"))));
   mkItem "smtp_debug" TBool false (Def (VBool false));
   mkItem "smtp_accept_invalid_certs" TBool true (Def (VBool false));
   mkItem "smtp_accept_invalid_hostnames" TBool true (Def (VBool false))].
Definition email_2fa_group : list Item :=
  [mkItem "_enable_email_2fa" TBool true (Auto (λ c, VBool (flag c "_enable_smtp" && (bool_decide (is_Some (opt_str c "smtp_host")) || flag c "use_sendmail"))));
   mkItem "email_token_size" TU8 true (Def (VNum 6));
   mkItem "email_expiration_time" TU64 true (Def (VNum 600));
   mkItem "email_attempts_limit" TU64 true (Def (VNum 3));
   mkItem "email_2fa_enforce_on_verified_invite" TBool true (Def (VBool false));
   mkItem "email_2fa_auto_fallback" TBool true (Def (VBool false))].

(** All settings, in the order of the source. *)
Definition config_table : list Item :=
  folders_group ++ ws_group ++ push_group ++ jobs_group ++ settings_group ++ client_group ++ advanced_requests ++ advanced_rest
  ++ sso_group ++ yubico_group ++ duo_group ++ smtp_group ++ email_2fa_group.
End table.

(** ** Building a configuration *)

Section build.
Context `{BF : BuildFeatures} `{CC : ConfigCrates}.

Definition clear_non_editable (b : ConfigBuilder) : ConfigBuilder :=
  foldl (λ b i, if item_editable i then b else delete (item_name i) b) b config_table.

(** [merge]: the values of [other] win; the names of those that replace one. *)
Definition merge (b other : ConfigBuilder) : ConfigBuilder * list string :=
  foldl (λ '(acc, overrides) i,
    match other !! item_name i with
    | Some v => (<[item_name i := v]> acc, if b !! item_name i then overrides ++ [to_uppercase (item_name i)] else overrides)
    | None => (acc, overrides)
    end) (b, []) config_table.

(** [@build]: the value of one field. *)
Definition build_item (value : option Value) (config : ConfigItems) (action : NoneAction) : option Value :=
  match action with
  | Optional => value
  | Def v => Some (default v value)
  | Auto f => Some (default (f config) value)
  | Generated f => Some (f config)
  end.
Definition set_item (name : string) (o : option Value) (c : ConfigItems) : ConfigItems :=
  match o with Some v => <[name := v]> c | None => delete name c end.
(** The loop over the fields, and the work after it. *)
Definition build_loop (b : ConfigBuilder) (l : list Item) (c : ConfigItems) : ConfigItems :=
  foldl (λ config i, set_item (item_name i) (build_item (b !! item_name i) config (item_action i)) config) c l.
Definition finish (domain_set : bool) (config : ConfigItems) : ConfigItems :=
  let config := <["domain" := VStr (trim_end_matches slash (str config "domain"))]> (<["domain_set" := VBool domain_set]> config) in
  let config := <["signups_domains_whitelist" := VStr (to_lowercase (trim (str config "signups_domains_whitelist")))]> config in
  let config := <["org_creation_users" := VStr (to_lowercase (trim (str config "org_creation_users")))]> config in
  if opt_str config "http_request_block_regex" then config
  else set_item "http_request_block_regex" (VStr <$> opt_str config "icon_blacklist_regex") config.
Definition build (b : ConfigBuilder) : ConfigItems :=
  finish (bool_decide (is_Some (b !! "domain"))) (build_loop b config_table ∅).

(** *** The environment *)

Definition parse_unsigned (limit : Z) (s : string) : option Z :=
  let o := match s with
           | String a s' => if a == Ascii.ascii_of_nat 43 then parse_nat s' else parse_nat s
           | EmptyString => None
           end in
  match o with Some n => if n <? limit then Some n else None | None => None end.
(** [try_parse_string] at the type of a setting. *)
Definition parse_value (k : Kind) (s : string) : option Value :=
  match k with
  | TString | TPass => Some (VStr s)
  | TBool => let s := to_lowercase s in
             if bool_decide (s ∈ ["true"; "t"; "yes"; "y"; "1"]%string) then Some (VBool true) else
             if bool_decide (s ∈ ["false"; "f"; "no"; "n"; "0"]%string) then Some (VBool false) else None
  | TI32 => VNum <$> parse_i32 s
  | TI64 => VNum <$> parse_i64 s
  | TU8 => VNum <$> parse_unsigned (2 ^ 8) s
  | TU16 => VNum <$> parse_unsigned (2 ^ 16) s
  | TU32 => VNum <$> parse_unsigned (2 ^ 32) s
  | TU64 | TUsize => VNum <$> parse_unsigned (2 ^ 64) s
  end.

(** The variables of the process after the environment file was read, and the
    files that they name. *)
Variable env_var : string → option string.
Variable read_to_string : string → option string.

Definition get_env_str_value {St} (key : string) : M St (option string) :=
  match env_var key, env_var (key +:+ "_FILE") with
  | Some _, Some _ => crash ("You should not define both " +:+ key +:+ " and " +:+ key +:+ "_FILE!")
  | Some v_env, None => mret (Some v_env)
  | None, Some v_file =>
      match read_to_string v_file with
      | Some content => mret (Some (trim content))
      | None => crash ("Failed to load " +:+ key)
      end
  | None, None => mret None
  end.
(** [get_env] and [get_env_bool]. *)
Definition get_env {St} (k : Kind) (key : string) : M St (option Value) :=
  s ← get_env_str_value key; mret (s ≫= parse_value k).
Definition ConfigBuilder_from_env {St} : M St ConfigBuilder :=
  l ← traverse config_table (λ i, o ← get_env (item_kind i) (to_uppercase (item_name i)); mret (item_name i, o));
  mret (foldl (λ b '(name, o), set_item name o b) ∅ l).
End build.

(** ** Validation *)

(** [Path::parent] on a Unix system: the path without its last component;
    [None] for the root and the empty path. *)
Fixpoint drop_last_while (p : string → bool) (l : list string) : list string :=
  match l with
  | [] => []
  | w :: l' => match drop_last_while p l' with [] => if p w then [] else [w] | r => w :: r end
  end.
Definition parent (path : string) : option string :=
  let absolute := starts_with "/" path in
  let idle (w : string) := (w == "") || (w == ".") in
  let comps := split_on slash path in
  let body := match comps with
              | w :: l => if absolute then drop_last_while idle l else w :: drop_last_while idle l
              | [] => []
              end in
  let body := if absolute then body else drop_last_while (λ w, w == "") body in
  match body with
  | [] => None
  | _ =>
      let rest := removelast body in
      let rest := match rest with
                  | w :: l => if absolute then drop_last_while idle rest else w :: drop_last_while idle l
                  | [] => []
                  end in
      Some (if absolute then "/" +:+ String.concat "/" rest else String.concat "/" rest)
  end%string.

(** [Path::file_name]: the last component, unless it is [..]. *)
Definition path_file_name (path : string) : option string :=
  match list.last (where_ (λ w, negb ((w == "") || (w == "."))) (split_on slash path)) with
  | Some w => if w == ".." then None else Some w
  | None => None
  end%string.
Definition dot : Ascii.ascii := Ascii.ascii_of_nat 46.

(** *** Paths of src/src/storage.rs, and the file with the settings *)

Section paths.
Context `{BF : BuildFeatures} `{CC : ConfigCrates}.

Definition s3_with_extension (path extension : string) : string :=
  let plain := path +:+ "." +:+ extension in
  match Url_parse path with
  | Some url =>
      match rev (path_segments url) with
      | file_name :: l => Url_to_string (set_path_segments url (rev l ++ [file_name +:+ "." +:+ extension]))
      | [] => plain
      end
  | None => plain
  end.
Definition with_extension (path extension : string) : string :=
  let extension := trim_start_matches dot extension in
  if with_s3 && is_uri path then s3_with_extension path extension else path +:+ "." +:+ extension.

Definition s3_parent (path : string) : option string :=
  match Url_parse path with
  | Some url =>
      match rev (path_segments url) with
      | _ :: l => Some (Url_to_string (set_path_segments url (rev l)))
      | [] => None
      end
  | None => parent path
  end.
Definition storage_parent (path : string) : option string := if with_s3 && is_uri path then s3_parent path else parent path.

Definition s3_file_name (path : string) : option string :=
  match Url_parse path with
  | Some url => list.last (path_segments url)
  | None => path_file_name path
  end.
Definition storage_file_name (path : string) : option string :=
  if with_s3 && is_uri path then s3_file_name path else path_file_name path.

Definition CONFIG_FILE {St} (env_var read_to_string : string → option string) : M St string :=
  folder ← get_env_str_value env_var read_to_string "DATA_FOLDER";
  let data_folder := default "data"%string folder in
  o ← get_env_str_value env_var read_to_string "CONFIG_FILE";
  mret (default (join_path data_folder "config.json") o).
Definition CONFIG_FILE_PARENT_DIR (config_file : string) : string := default "data"%string (storage_parent config_file).
Definition CONFIG_FILENAME (config_file : string) : string := default "config.json"%string (storage_file_name config_file).

Definition private_rsa_key (c : ConfigItems) : string := with_extension (str c "rsa_key_filename") "pem".
(** The folder of [opendal_operator_for_path_type]; [None] is its error. *)
Definition path_of_type (c : ConfigItems) (t : PathType) : option string :=
  match t with
  | Data => Some (str c "data_folder")
  | IconCache => Some (str c "icon_cache_folder")
  | Attachments => Some (str c "attachments_folder")
  | Sends => Some (str c "sends_folder")
  | RsaKey => storage_parent (private_rsa_key c)
  end.
End paths.

Section validation.
Context `{BF : BuildFeatures} `{CC : ConfigCrates} `{IN : IpNets} `{J : JsonText}.
Implicit Types (cfg : ConfigItems).

(** [if c { err!(msg) }]. *)
Definition refuse (c : bool) (msg : string) : M () () := if c then err msg else mret ().
Definition is_set (o : option string) : bool := bool_decide (is_Some o).

Definition check_database_url cfg : M () () :=
  if with_sqlite then
    let url := str cfg "database_url" in
    t ← DbConnType_from_url url;
    if t == Sqlite then
      let file_path := default url (strip_prefix "sqlite://" url) in
      if contains slash file_path then
        match parent file_path with
        | Some p => refuse (negb (is_dir p)) ("SQLite database directory `" +:+ p +:+ "` does not exist or is not a directory")
        | None => mret ()
        end
      else mret ()
    else mret ()
  else mret ().

Definition check_trusted_proxies cfg : M () () :=
  let trusted_proxies := trim (str cfg "ip_header_trusted_proxies") in
  if negb (to_lowercase trusted_proxies == "all") && negb (to_lowercase trusted_proxies == "local") then
    for_each (where_ (λ e, negb (trim e == "")%string) (split_commas trusted_proxies)) (λ entry,
      refuse (bool_decide (parse_trusted_proxy entry = None))
        ("Invalid IP_HEADER_TRUSTED_PROXIES entry `" +:+ trim entry +:+ "`, expected an IP or CIDR range"))
  else mret ().

Definition check_numbers cfg : M () () :=
  refuse (num cfg "password_iterations" <? 100000)
    "PASSWORD_ITERATIONS should be at least 100000 or higher. The default is 600000!" ;;
  let limit := 256 in
  refuse ((num cfg "database_max_conns" <? 1) || (limit <? num cfg "database_max_conns"))
    "`DATABASE_MAX_CONNS` contains an invalid value. Ensure it is between 1 and 256." ;;
  refuse ((num cfg "database_min_conns" <? 1) || (limit <? num cfg "database_min_conns"))
    "`DATABASE_MIN_CONNS` contains an invalid value. Ensure it is between 1 and 256." ;;
  refuse (num cfg "database_max_conns" <? num cfg "database_min_conns")
    "`DATABASE_MIN_CONNS` must be smaller than or equal to `DATABASE_MAX_CONNS`." ;;
  match opt_str cfg "log_file" with
  | Some log_file => refuse (negb (can_append log_file)) "Unable to write to log file"
  | None => mret ()
  end.

Definition check_addresses cfg : M () () :=
  let dom := to_lowercase (str cfg "domain") in
  refuse (negb (starts_with "http://" dom) && negb (starts_with "https://" dom))
    "DOMAIN variable needs to contain the protocol (http, https). Use 'http[s]://bw.example.com' instead of 'bw.example.com'" ;;
  for_each (split_whitespace (to_lowercase (str cfg "allowed_connect_src"))) (λ url,
    refuse (negb (starts_with "https://" url) || bool_decide (¬ is_Some (Url_parse url)))
      "ALLOWED_CONNECT_SRC variable contains one or more invalid URLs. Only FQDN's starting with https are allowed") ;;
  let whitelist := str cfg "signups_domains_whitelist" in
  refuse (negb (whitelist == "")%string && existsb (λ d, trim d == "")%string (split_commas whitelist))
    "`SIGNUPS_DOMAINS_WHITELIST` contains empty tokens" ;;
  let org_creation_users := to_lowercase (trim (str cfg "org_creation_users")) in
  refuse (negb ((org_creation_users == "") || (org_creation_users == "all") || (org_creation_users == "none"))%string
          && existsb (λ u, negb (contains (Ascii.ascii_of_nat 64) u)) (split_commas org_creation_users))
    "`ORG_CREATION_USERS` contains invalid email addresses".

Definition check_push cfg : M () () :=
  refuse (flag cfg "push_enabled"
          && ((str cfg "push_installation_id" == "") || (str cfg "push_installation_key" == ""))%string)
    "Misconfigured Push Notification service" ;;
  if flag cfg "push_enabled" then
    let push_relay_uri := to_lowercase (str cfg "push_relay_uri") in
    refuse (negb (starts_with "https://" push_relay_uri)) "`PUSH_RELAY_URI` must start with 'https://'." ;;
    refuse (bool_decide (¬ is_Some (Url_parse push_relay_uri))) "Invalid URL format for `PUSH_RELAY_URI`." ;;
    let push_identity_uri := to_lowercase (str cfg "push_identity_uri") in
    refuse (negb (starts_with "https://" push_identity_uri)) "`PUSH_IDENTITY_URI` must start with 'https://'." ;;
    refuse (bool_decide (¬ is_Some (Url_parse push_identity_uri))) "Invalid URL format for `PUSH_IDENTITY_URI`."
  else mret ().

(** Unknown flags are only an error when the configuration is changed. *)
Definition check_flags cfg (on_update : bool) : M () () :=
  let invalid_flags := parse_experimental_client_feature_flags (str cfg "experimental_client_feature_flags") InvalidOnly in
  refuse (negb (bool_decide (invalid_flags = ∅)) && on_update) "Unrecognized experimental client feature flags".

Definition MAX_FILESIZE_KB : Z := Z.shiftr (2 ^ 63 - 1) 10.
Definition out_of_bounds (o : option Z) : bool :=
  match o with Some limit => negb ((0 <=? limit) && (limit <=? MAX_FILESIZE_KB)) | None => false end.
Definition check_limits cfg : M () () :=
  refuse (out_of_bounds (opt_num cfg "user_attachment_limit")) "`USER_ATTACHMENT_LIMIT` is out of bounds" ;;
  refuse (out_of_bounds (opt_num cfg "org_attachment_limit")) "`ORG_ATTACHMENT_LIMIT` is out of bounds" ;;
  refuse (out_of_bounds (opt_num cfg "user_send_limit")) "`USER_SEND_LIMIT` is out of bounds".

Definition validate_internal_sso_issuer_url (sso_authority : string) : M () string :=
  if IssuerUrl_valid sso_authority then mret sso_authority else err ("Invalid sso_authority URL (" +:+ sso_authority +:+ ")").
Definition validate_internal_sso_redirect_url (sso_callback_path : string) : M () string :=
  if RedirectUrl_valid sso_callback_path then mret sso_callback_path
  else err ("Invalid sso_callback_path (" +:+ sso_callback_path +:+ " built using `domain`) URL").
Definition validate_sso_master_password_policy (sso_master_password_policy : option string) : M () (option Json) :=
  match sso_master_password_policy with
  | None => mret None
  | Some mpp =>
      match json_from_str mpp with
      | Some (JsObject m) => mret (Some (Json_value (JsObject m)))
      | Some _ => err "Invalid sso_master_password_policy: parsed value is not a JSON object"
      | None => err "Invalid sso_master_password_policy, Ensure that it's correctly escaped with ''"
      end
  end.

Definition check_providers cfg : M () () :=
  let duo_host := is_set (opt_str cfg "duo_host") in
  let duo_ikey := is_set (opt_str cfg "duo_ikey") in
  let duo_skey := is_set (opt_str cfg "duo_skey") in
  refuse (flag cfg "_enable_duo" && (duo_host || duo_ikey || duo_skey) && negb (duo_host && duo_ikey && duo_skey))
    "All Duo options need to be set for global Duo support" ;;
  (if flag cfg "sso_enabled" then
     refuse ((str cfg "sso_client_id" == "") || (str cfg "sso_client_secret" == "") || (str cfg "sso_authority" == ""))%string
       "`SSO_CLIENT_ID`, `SSO_CLIENT_SECRET` and `SSO_AUTHORITY` must be set for SSO support" ;;
     validate_internal_sso_issuer_url (str cfg "sso_authority") ;;
     validate_internal_sso_redirect_url (str cfg "sso_callback_path") ;;
     validate_sso_master_password_policy (opt_str cfg "sso_master_password_policy") ;; mret ()
   else mret ()) ;;
  if flag cfg "_enable_yubico" then
    refuse (negb (eqb (is_set (opt_str cfg "yubico_client_id")) (is_set (opt_str cfg "yubico_secret_key"))))
      "Both `YUBICO_CLIENT_ID` and `YUBICO_SECRET_KEY` must be set for Yubikey OTP support" ;;
    match opt_str cfg "yubico_server" with
    | Some yubico_server =>
        refuse (negb (starts_with "https://" (to_lowercase yubico_server)))
          "`YUBICO_SERVER` must be a valid URL and start with 'https://'. Either unset this variable or provide a valid URL."
    | None => mret ()
    end
  else mret ().

(** [!mode & 0o111 != 0] on the 32 bits of the permissions. *)
Definition lacks_execute_bit (mode : Z) : bool := negb (Z.land (2 ^ 32 - 1 - mode) 0x49 =? 0).
Definition check_sendmail cfg : M () () :=
  let command := default "sendmail"%string (opt_str cfg "sendmail_command") in
  path ← (if starts_with "/" command then mret command
          else some_or (which command) ("sendmail command " +:+ command +:+ " not found in $PATH"));
  match metadata path with
  | NotFound => err ("sendmail command not found at `" +:+ path +:+ "`")
  | Unreadable e => err ("failed to access sendmail command at `" +:+ path +:+ "`: " +:+ e)
  | Found is_dir mode =>
      refuse is_dir ("sendmail command at `" +:+ path +:+ "` isn't a directory") ;;
      refuse (lacks_execute_bit mode) ("sendmail command at `" +:+ path +:+ "` isn't executable")
  end.

Definition check_mail cfg : M () () :=
  (if flag cfg "_enable_smtp" then
     refuse (negb (bool_decide (str cfg "smtp_security" ∈ ["off"; "starttls"; "force_tls"]%string)))
       "`SMTP_SECURITY` is invalid. It needs to be one of the following options: starttls, force_tls or off" ;;
     (if flag cfg "use_sendmail" then check_sendmail cfg
      else
        refuse (eqb (is_set (opt_str cfg "smtp_host")) (str cfg "smtp_from" == "")%string)
          "Both `SMTP_HOST` and `SMTP_FROM` need to be set for email support without `USE_SENDMAIL`" ;;
        refuse (negb (eqb (is_set (opt_str cfg "smtp_username")) (is_set (opt_str cfg "smtp_password"))))
          "Both `SMTP_USERNAME` and `SMTP_PASSWORD` need to be set to enable email authentication without `USE_SENDMAIL`") ;;
     refuse ((is_set (opt_str cfg "smtp_host") || flag cfg "use_sendmail") && negb (is_valid_email (str cfg "smtp_from")))
       ("SMTP_FROM '" +:+ str cfg "smtp_from" +:+ "' is not a valid email address") ;;
     refuse (flag cfg "_enable_email_2fa" && (num cfg "email_token_size" <? 6)) "`EMAIL_TOKEN_SIZE` has a minimum size of 6"
   else mret ()) ;;
  refuse (flag cfg "_enable_email_2fa" && negb (is_set (opt_str cfg "smtp_host") || flag cfg "use_sendmail"))
    "To enable email 2FA, a mail transport must be configured" ;;
  refuse (negb (flag cfg "_enable_email_2fa") && flag cfg "email_2fa_enforce_on_verified_invite")
    "To enforce email 2FA on verified invitations, email 2fa has to be enabled!" ;;
  refuse (negb (flag cfg "_enable_email_2fa") && flag cfg "email_2fa_auto_fallback")
    "To use email 2FA as automatic fallback, email 2fa has to be enabled!".

Definition check_icons cfg : M () () :=
  match opt_str cfg "http_request_block_regex" with
  | Some r => refuse (negb (Regex_valid r)) "`HTTP_REQUEST_BLOCK_REGEX` is invalid"
  | None => mret ()
  end ;;
  let icon_service := str cfg "icon_service" in
  (if bool_decide (icon_service ∈ ["internal"; "bitwarden"; "duckduckgo"; "google"]%string) then mret () else
   refuse (negb (starts_with "http" icon_service)) ("Icon service URL `" +:+ icon_service +:+ "` must start with 'http'") ;;
   match placeholders icon_service with
   | 1%nat => mret ()
   | 0%nat => err ("Icon service URL `" +:+ icon_service +:+ "` has no placeholder '{}'")
   | _ => err ("Icon service URL `" +:+ icon_service +:+ "` has more than one placeholder '{}'")
   end) ;;
  refuse (negb (bool_decide (num cfg "icon_redirect_code" ∈ [301; 302; 307; 308])))
    "Only HTTP 301/302 and 307/308 redirects are supported" ;;
  refuse (num cfg "invitation_expiration_hours" <? 1) "`INVITATION_EXPIRATION_HOURS` has a minimum duration of 1 hour".

Definition scheduled_jobs : list string :=
  ["send_purge_schedule"; "trash_purge_schedule"; "incomplete_2fa_schedule"; "emergency_notification_reminder_schedule";
   "emergency_request_timeout_schedule"; "event_cleanup_schedule"; "auth_request_purge_schedule"]%string.
Definition check_schedules cfg : M () () :=
  for_each scheduled_jobs (λ name,
    refuse (negb (str cfg name == "")%string && negb (Schedule_valid (str cfg name)))
      ("`" +:+ to_uppercase name +:+ "` is not a valid cron expression")).

Definition check_admin_token cfg : M () () :=
  if negb (flag cfg "disable_admin_token") then
    match opt_str cfg "admin_token" with
    | Some t => refuse (starts_with "$argon2" t && negb (PasswordHash_valid t)) "The configured Argon2 PHC in `ADMIN_TOKEN` is invalid"
    | None => mret ()
    end
  else mret ().

Definition validate_config cfg (on_update : bool) : M () () :=
  check_database_url cfg ;; check_trusted_proxies cfg ;; check_numbers cfg ;; check_addresses cfg ;; check_push cfg ;;
  check_flags cfg on_update ;; check_limits cfg ;; check_providers cfg ;; check_mail cfg ;; check_icons cfg ;;
  check_schedules cfg ;; check_admin_token cfg.
End validation.

(** ** The running configuration *)

(** *** The file with the settings of the administrator *)

Definition value_to_json (v : Value) : Json :=
  match v with VStr s => JsString s | VBool b => JsBool b | VNum n => json_number n end.
(** An integer of a type, from the text of a number; a fraction, an exponent
    and a negative zero are no integers. *)
Definition read_integer (k : Kind) (t : string) : option Value :=
  match parse_int 66 t with
  | Some n => if (pretty n == t) && has_kind k (VNum n) then Some (VNum n) else None
  | None => None
  end.
(** [map.next_value::<Option<T>>()]; [None] is the error. *)
Definition next_value (k : Kind) (j : Json) : option (option Value) :=
  match j with
  | JsNull => Some None
  | JsString s => if has_kind k (VStr s) then Some (Some (VStr s)) else None
  | JsBool b => if has_kind k (VBool b) then Some (Some (VBool b)) else None
  | JsNumber t => Some <$> read_integer k t
  | JsArray _ | JsObject _ => None
  end.

Section file.
Context `{BF : BuildFeatures} `{CC : ConfigCrates}.

Definition find_item (name : string) : option Item := List.find (λ i, item_name i == name) config_table.

(** Serializing the struct: its fields in order, without those that are not set. *)
Definition serialize (b : ConfigBuilder) : Json :=
  JsObject (omap (λ i, v ← b !! item_name i; Some (item_name i, value_to_json v)) config_table).
(** [visit_map]. *)
Definition read_entry (b : ConfigBuilder) (e : string * Json) : option ConfigBuilder :=
  match find_item e.1 with
  | Some i =>
      match b !! item_name i with
      | Some _ => None
      | None => o ← next_value (item_kind i) e.2; Some (set_item (item_name i) o b)
      end
  | None => Some b
  end.
Definition deserialize (j : Json) : option ConfigBuilder :=
  match j with
  | JsObject m => foldl (λ o e, b ← o; read_entry b e) (Some ∅) m
  | _ => None
  end.
End file.

(** The store of the file, and the printer of serde_json with line breaks. *)
Class ConfigStore := {
  operator_for_path : Res ();
  write_file : Res ();
  delete_file : Res ();
  json_to_string_pretty : Json → string;
}.

(** [Inner], and the content of the file. *)
Record Config := mkConfig {
  config : ConfigItems;
  env : ConfigBuilder;
  usr : ConfigBuilder;
  overrides : list string;
  file : option string;
}.

Section config.
Context `{BF : BuildFeatures} `{CC : ConfigCrates} `{IN : IpNets} `{J : JsonText} `{CS : ConfigStore}.

(** [ConfigBuilder::from_file().await.unwrap_or_default()]. *)
Definition ConfigBuilder_from_file (f : option string) : ConfigBuilder :=
  default ∅ (t ← f; j ← json_from_str t; deserialize j).

(** [Config::load]: the environment that was read and the content of the file. *)
Definition Config_load (skip_validation : bool) (env : ConfigBuilder) (f : option string) : Res Config :=
  let usr := ConfigBuilder_from_file f in
  let '(builder, overrides) := merge env usr in
  let config := build builder in
  match (if skip_validation then Ok () else checked (validate_config config false)) with
  | Ok _ => Ok (mkConfig config env usr overrides f)
  | Err e => Err e
  end.

Definition update_config (other : ConfigBuilder) (ignore_non_editable : bool) : M Config () :=
  let builder := if ignore_non_editable then clear_non_editable other else other in
  let config_str := json_to_string_pretty (serialize builder) in
  env ← gets env;
  let '(merged, overrides) := merge env builder in
  let config := build merged in
  lift (checked (validate_config config true)) ;;
  modify (λ s, mkConfig config (Configuration.env s) builder overrides (file s)) ;;
  lift operator_for_path ;;
  lift write_file ;;
  modify (λ s, mkConfig (Configuration.config s) (Configuration.env s) (usr s) (Configuration.overrides s) (Some config_str)).

Definition update_config_partial (other : ConfigBuilder) : M Config () :=
  usr ← gets usr;
  update_config (merge usr other).1 false.

Definition delete_user_config : M Config () :=
  lift operator_for_path ;;
  lift delete_file ;;
  modify (λ s, mkConfig (build (env s)) (env s) ∅ [] None).

(** [akey] is the key that the call draws. *)
Definition get_duo_akey (akey : string) : M Config string :=
  o ← gets (λ s, opt_str (config s) "_duo_akey");
  match o with
  | Some k => mret k
  | None => ignore (update_config_partial {["_duo_akey" := VStr akey]}) ;; mret akey
  end.

(** *** The requests of the administrator *)

Definition unable (what : string) (m : M Config ()) : M Config () :=
  r ← answer m;
  match r with Ok _ => mret () | Err e => err ("Unable to " +:+ what +:+ " config: " +:+ err_message e) end.
Definition post_config (data : ConfigBuilder) : M Config () := unable "save" (update_config data true).
Definition delete_config : M Config () := unable "delete" delete_user_config.

(** *** What is read from a configuration *)

Implicit Types (c : ConfigItems).
Definition mail_enabled_in c : bool := flag c "_enable_smtp" && (is_set (opt_str c "smtp_host") || flag c "use_sendmail").
Definition is_signup_disabled c : bool :=
  (negb (flag c "signups_allowed") && (str c "signups_domains_whitelist" == "")%string
   && (mail_enabled_in c || negb (flag c "invitations_allowed")))
  || (flag c "sso_enabled" && flag c "sso_only").
Definition is_admin_token_set c : bool :=
  match opt_str c "admin_token" with Some t => negb (trim t == "")%string | None => false end.
(** [None] is the panic on a domain that is no URL. *)
Definition is_webauthn_2fa_supported c : option bool :=
  url ← Url_parse (str c "domain"); Some (bool_decide (is_Some (Url_domain url))).
Definition sso_master_password_policy_value c : option Json :=
  match checked (validate_sso_master_password_policy (opt_str c "sso_master_password_policy")) with
  | Ok o => o
  | Err _ => None
  end.
Definition sso_scopes_vec c : list string := split_whitespace (str c "sso_scopes").

(** *** The report for support *)

(** [n] counts the characters before, at 16 bits. *)
Fixpoint mask_from (n : Z) (colon_match : bool) (value : string) : string :=
  match value with
  | EmptyString => EmptyString
  | String a s =>
      if is_continuation a then mask_from n colon_match s else
      let n := (n + 1) mod 2 ^ 16 in
      if (a == Ascii.ascii_of_nat 58) && (n <=? 11) then String a (mask_from n true s) else
      if ((a == slash) && (n <=? 13) && colon_match) || (a == Ascii.ascii_of_nat 44) then String a (mask_from n colon_match s)
      else String (Ascii.ascii_of_nat 42) (mask_from n colon_match s)
  end.
Definition privacy_mask : string → string := mask_from 0 false.

Definition PRIVACY_CONFIG : list string :=
  ["allowed_connect_src"; "allowed_iframe_ancestors"; "database_url"; "domain_origin"; "domain_path"; "domain"; "helo_name";
   "org_creation_users"; "signups_domains_whitelist"; "_smtp_img_src"; "smtp_from_name"; "smtp_from"; "smtp_host"; "smtp_username";
   "sso_authority"; "sso_callback_path"; "sso_client_id"]%string.

(** [@supportstr]. *)
Definition supportstr (c : ConfigItems) (i : Item) : Json :=
  match item_kind i, item_action i with
  | TPass, Optional => json_opt (λ _, JsString "***") (c !! item_name i)
  | TPass, _ => JsString "***"
  | _, _ => json_opt value_to_json (c !! item_name i)
  end.
Definition mask_key (j : Json) (key : string) : Json :=
  match Json_find key j with Some (JsString s) => Json_set key (JsString (privacy_mask s)) j | _ => j end.
Definition get_support_json c : Json :=
  foldl mask_key (json_object ((λ i, (item_name i, supportstr c i)) <$> config_table)) PRIVACY_CONFIG.
End config.
