(* ===== verification/Icons.v ===== *)
(** Icons of web sites.

    Models src/src/api/icons.rs: the answer to a request for the icon of a host,
    from the cache or from the site, the search for icons in the page of the site
    with the emitter for its tags, the choice among them, and the checks on what
    is downloaded. Of src/src/util.rs it has the wrapper [Cached]. URLs, the HTTP
    client, the tokenizer of HTML, regular expressions, data URLs, the filter of
    SVG images and the file store are parameters; texts and files are strings of
    bytes. The cookie jar and the default headers of the client are left out. *)
From S2P Require Import Prelude Schema Roles Users Json Network SecondFactors Configuration.
Local Open Scope Z_scope.

(** ** Text *)

(** [std::str::from_utf8]. *)
Definition in_range (lo hi b : Z) : bool := (lo <=? b) && (b <=? hi).
Fixpoint utf8_valid (l : list Z) : bool :=
  match l with
  | [] => true
  | b0 :: l0 =>
      if b0 <? 0x80 then utf8_valid l0 else
      if in_range 0xc2 0xdf b0 then match l0 with b1 :: l1 => in_range 0x80 0xbf b1 && utf8_valid l1 | _ => false end else
      if in_range 0xe0 0xef b0 then
        match l0 with
        | b1 :: b2 :: l2 => in_range (if b0 =? 0xe0 then 0xa0 else 0x80) (if b0 =? 0xed then 0x9f else 0xbf) b1 && in_range 0x80 0xbf b2 && utf8_valid l2
        | _ => false
        end else
      if in_range 0xf0 0xf4 b0 then
        match l0 with
        | b1 :: b2 :: b3 :: l3 => in_range (if b0 =? 0xf0 then 0x90 else 0x80) (if b0 =? 0xf4 then 0x8f else 0xbf) b1
            && in_range 0x80 0xbf b2 && in_range 0x80 0xbf b3 && utf8_valid l3
        | _ => false
        end
      else false
  end.
Definition utf8_or_default (s : string) : string := if utf8_valid (as_bytes s) then s else ""%string.
(** [s.contains(p)] of a text in a text. *)
Fixpoint contains_str (p s : string) : bool :=
  String.prefix p s || match s with EmptyString => false | String _ s' => contains_str p s' end.
(** [s.matches(c).count()] and [s.replace("{}", t)]. *)
Fixpoint count_char (c : Ascii.ascii) (s : string) : nat :=
  match s with EmptyString => O | String a s' => (if a == c then 1 else 0) + count_char c s' end.
Fixpoint replace_braces (t s : string) : string :=
  match s with
  | String a (String b s' as s1) =>
      if (a == Ascii.ascii_of_nat 123) && (b == Ascii.ascii_of_nat 125) then t +:+ replace_braces t s' else String a (replace_braces t s1)
  | s => s
  end.
(** The [Display] of [url::Host]. *)
Definition Host_to_string (h : Host) : string := match h with HostIpv6 a => "[" +:+ v6_to_string a +:+ "]" | h => host_str h end.

(** ** The type of an image *)

(** A slice pattern with a rest, where [None] stands for any byte. *)
Fixpoint matches_signature (p : list (option Z)) (l : list Z) : bool :=
  match p, l with
  | [], _ => true
  | _ :: _, [] => false
  | None :: p, _ :: l => matches_signature p l
  | Some b :: p, a :: l => (a =? b) && matches_signature p l
  end.
Definition byte_at (n : nat) (l : list Z) : Z := default 0 (l !! n).

Definition check_svg_after_xml_declaration (bytes : string) : option string :=
  let content := String.substring 0 1024 bytes in
  if utf8_valid (as_bytes content) && (contains_str "<svg" content || contains_str "<SVG" content) then Some "svg+xml"%string else None.
Definition get_icon_type (bytes : string) : option string :=
  let l := as_bytes (String.substring 0 16 bytes) in
  let sig p := matches_signature p l in
  (if sig (Some <$> [137; 80; 78; 71; 13; 10; 26; 10]) then Some "png"%string
   else if sig ((Some <$> [0; 0; 1; 0]) ++ [None; None]) && (0 <? byte_at 4 l + 256 * byte_at 5 l) then Some "x-icon"%string
   else if sig ((Some <$> [82; 73; 70; 70]) ++ replicate 4 None ++ (Some <$> [87; 69; 66; 80])) then Some "webp"%string
   else if sig ((Some <$> [255; 216; 255]) ++ [None]) && (0xc0 <=? byte_at 3 l) then Some "jpeg"%string
   else if sig (Some <$> [71; 73; 70; 56; 55; 97]) || sig (Some <$> [71; 73; 70; 56; 57; 97]) then Some "gif"%string
   else if sig ((Some <$> [66; 77]) ++ replicate 4 None ++ (Some <$> [0; 0; 0; 0])) then Some "bmp"%string
   else if sig (Some <$> [60; 115; 118; 103]) then Some "svg+xml"%string
   else if sig (Some <$> [60; 63; 120; 109; 108]) then check_svg_after_xml_declaration bytes
   else None).

(** ** Tags of the page *)

Module Tag.
Record t := mk { name : string; attributes : gmap string string }.
End Tag.
Module FaviconToken.
Record t := mk { tag : Tag.t; closing : bool }.
End FaviconToken.
Module FaviconEmitter.
Record t := mk {
  current_token : option FaviconToken.t; last_start_tag : string; current_attribute : option (string * string); emit_token : bool
}.
Definition default : t := mk None "" None false.
End FaviconEmitter.

(** The icon that a [link] tag announces. *)
Definition announces_icon (attributes : gmap string string) : bool :=
  match attributes !! "rel"%string, attributes !! "href"%string with
  | Some rel, Some _ => let rel_value := utf8_or_default rel in contains_str "icon" rel_value && negb (contains_str "mask-icon" rel_value)
  | _, _ => false
  end.

Definition flush_current_attribute (emit_current_tag : bool) (e : FaviconEmitter.t) : FaviconEmitter.t :=
  match FaviconEmitter.current_token e with
  | None => e
  | Some token =>
      let tag_name := Tag.name (FaviconToken.tag token) in
      let attributes := Tag.attributes (FaviconToken.tag token) in
      let '(attributes, current_attribute) :=
        match FaviconEmitter.current_attribute e with
        | Some (k, v) =>
            if (tag_name == "base")%string || (tag_name == "link")%string
            then (match attributes !! k with Some _ => attributes | None => <[k := v]> attributes end, None)
            else (attributes, Some (k, v))
        | None => (attributes, None)
        end in
      let emit :=
        if (tag_name == "head")%string && FaviconToken.closing token then true
        else if (tag_name == "base")%string && bool_decide (is_Some (attributes !! "href"%string)) then true
        else if (tag_name == "link")%string && emit_current_tag && announces_icon attributes then true
        else FaviconEmitter.emit_token e in
      FaviconEmitter.mk (Some (FaviconToken.mk (Tag.mk tag_name attributes) (FaviconToken.closing token)))
        (FaviconEmitter.last_start_tag e) current_attribute emit
  end.

(** The calls that the tokenizer makes; those that the emitter ignores are one. *)
Inductive EmitterCall :=
| SetLastStartTag (o : option string) | PopToken | InitStartTag | InitEndTag | EmitCurrentTag | PushTagName (s : string)
| InitAttribute | PushAttributeName (s : string) | PushAttributeValue (s : string) | CurrentIsAppropriateEndTagToken | OtherCall.

Definition fresh_token (closing : bool) : FaviconToken.t := FaviconToken.mk (Tag.mk "" ∅) closing.
Definition with_token (t : FaviconToken.t) (e : FaviconEmitter.t) : FaviconEmitter.t :=
  FaviconEmitter.mk (Some t) (FaviconEmitter.last_start_tag e) (FaviconEmitter.current_attribute e) (FaviconEmitter.emit_token e).
Definition with_attribute (a : option (string * string)) (e : FaviconEmitter.t) : FaviconEmitter.t :=
  FaviconEmitter.mk (FaviconEmitter.current_token e) (FaviconEmitter.last_start_tag e) a (FaviconEmitter.emit_token e).
Definition with_start_tag (s : string) (e : FaviconEmitter.t) : FaviconEmitter.t :=
  FaviconEmitter.mk (FaviconEmitter.current_token e) s (FaviconEmitter.current_attribute e) (FaviconEmitter.emit_token e).

Definition pop_token (e : FaviconEmitter.t) : option FaviconToken.t * FaviconEmitter.t :=
  if FaviconEmitter.emit_token e
  then (FaviconEmitter.current_token e, FaviconEmitter.mk None (FaviconEmitter.last_start_tag e) (FaviconEmitter.current_attribute e) false)
  else (None, e).
Definition emit_current_tag (e : FaviconEmitter.t) : FaviconEmitter.t :=
  let e := flush_current_attribute true e in
  with_start_tag (match FaviconEmitter.current_token e with
                  | Some token => if FaviconToken.closing token then "" else Tag.name (FaviconToken.tag token)
                  | None => ""
                  end)%string e.
Definition push_tag_name (s : string) (e : FaviconEmitter.t) : FaviconEmitter.t :=
  match FaviconEmitter.current_token e with
  | Some token => with_token (FaviconToken.mk (Tag.mk (Tag.name (FaviconToken.tag token) +:+ s) (Tag.attributes (FaviconToken.tag token)))
                                (FaviconToken.closing token)) e
  | None => e
  end.
Definition init_attribute (e : FaviconEmitter.t) : FaviconEmitter.t :=
  let e := flush_current_attribute false e in
  with_attribute (match FaviconEmitter.current_token e with
                  | Some token => if bool_decide (Tag.name (FaviconToken.tag token) ∈ ["link"; "head"; "base"]%string) then Some ("", "")%string else None
                  | None => None
                  end) e.
Definition push_attribute_name (s : string) (e : FaviconEmitter.t) : FaviconEmitter.t :=
  match FaviconEmitter.current_attribute e with Some (k, v) => with_attribute (Some (k +:+ s, v)) e | None => e end.
Definition push_attribute_value (s : string) (e : FaviconEmitter.t) : FaviconEmitter.t :=
  match FaviconEmitter.current_attribute e with Some (k, v) => with_attribute (Some (k, v +:+ s)) e | None => e end.
(** Answered to the tokenizer only. *)
Definition current_is_appropriate_end_tag_token (e : FaviconEmitter.t) : bool :=
  match FaviconEmitter.current_token e with
  | Some token => FaviconToken.closing token && negb (FaviconEmitter.last_start_tag e == "")%string
      && (FaviconEmitter.last_start_tag e == Tag.name (FaviconToken.tag token))
  | None => false
  end.

Definition emitter_call (c : EmitterCall) (e : FaviconEmitter.t) : FaviconEmitter.t :=
  match c with
  | SetLastStartTag o => with_start_tag (default ""%string o) e
  | PopToken => (pop_token e).2
  | InitStartTag => with_token (fresh_token false) e
  | InitEndTag => with_token (fresh_token true) e
  | EmitCurrentTag => emit_current_tag e
  | PushTagName s => push_tag_name s e
  | InitAttribute => init_attribute e
  | PushAttributeName s => push_attribute_name s e
  | PushAttributeValue s => push_attribute_value s e
  | CurrentIsAppropriateEndTagToken | OtherCall => e
  end.
(** The tokens that come out. *)
Fixpoint emitted (l : list EmitterCall) (e : FaviconEmitter.t) : list FaviconToken.t :=
  match l with
  | [] => []
  | c :: l => option_list (match c with PopToken => (pop_token e).1 | _ => None end) ++ emitted l (emitter_call c e)
  end.

(** ** What is looked up elsewhere *)

Class IconConfig := {
  icon_cache_ttl : Z; icon_cache_negttl : Z; disable_icon_download : bool; icon_service_url : string; icon_redirect_code : Z;
  (** The file static/images/fallback-icon.png. *)
  FALLBACK_ICON : string;
}.
(** A response: the address it came from and its body in chunks, [None] for an
    error while reading. *)
Record Page (Url : Type) := mkPage { page_url : Url; chunks : list (option string) }.
Arguments mkPage {_}. Arguments page_url {_}. Arguments chunks {_}.
Class IconCrates := {
  Url : Type;
  Url_parse : string → option Url; Url_scheme : Url → string; Url_host : Url → option Host;
  Url_join : Url → string → option Url; Url_to_string : Url → string;
  (** A request of the client, with its number, address and referer; its error is
      that of the filter if one is in its chain. *)
  send_get : nat → string → string → HRes (Page Url);
  (** The calls that the tokenizer makes while it reads a page. *)
  tokenizer_calls : string → list EmitterCall;
  (** The two groups of the first match of [(\d+)\D*(\d+)]. *)
  size_captures : string → option (string * string);
  (** The body of a data URL: [None] if it is none, [Some None] if it cannot be
      decoded. *)
  data_url_body : string → option (option string);
  svg_filter : string → option string;
}.
(** A file of the cache; the store may refuse an operation on a path. *)
Record IconFile := mkFile { content : string; modified : Z }.
Class IconStore := { operator_ok : bool; io_fails : string → string → bool }.

Module Icon.
Record t := mk { priority : Z; href : string }.
End Icon.
Module IconUrlResult.
Record t := mk { iconlist : list Icon.t; referer : string }.
End IconUrlResult.
(** [Cached]. *)
Module Cached.
Record t (R : Type) := mk { response : R; is_immutable : bool; ttl : Z }.
Arguments mk {_}. Arguments response {_}. Arguments is_immutable {_}. Arguments ttl {_}.
End Cached.

Section icons.
Context `{E : Env} `{HttpConfig} `{NetCrates} `{IconConfig} `{IC : IconCrates} `{IS : IconStore}.

Record IconState := mkIcons { regex_cache : RegexCache; icon_files : gmap string IconFile; fetched : list string }.
(** A computation, which keeps the state it has reached; [None] is a panic. *)
Definition IM (A : Type) : Type := IconState → option (HRes A) * IconState.
#[global] Instance IM_ret : MRet IM := λ A a s, (Some (inl a), s).
#[global] Instance IM_bind : MBind IM := λ A B f m s,
  match m s with (Some (inl a), s) => f a s | (Some (inr e), s) => (Some (inr e), s) | (None, s) => (None, s) end.
Definition fail {A} (e : CustomHttpClientError) : IM A := λ s, (Some (inr e), s).
Definition panicked {A} : IM A := λ s, (None, s).
Definition attempt {A} (m : IM A) : IM (HRes A) := λ s, match m s with (Some r, s) => (Some (inl r), s) | (None, s) => (None, s) end.
Definition query {A} (f : IconState → A) : IM A := λ s, (Some (inl (f s)), s).
Definition with_files (f : gmap string IconFile → gmap string IconFile) : IM () :=
  λ s, (Some (inl ()), mkIcons (regex_cache s) (f (icon_files s)) (fetched s)).
(** [CustomHttpClientError::downcast_ref(&e).is_some()]. *)
Definition is_custom (e : CustomHttpClientError) : bool := match e with OtherError _ => false | _ => true end.

Definition block_host (host : Host) : IM () := λ s,
  match should_block_host host (regex_cache s) with
  | Some (r, g) => (Some r, mkIcons g (icon_files s) (fetched s))
  | None => (None, s)
  end.

(** ** Downloads *)

Definition send (url referer : string) : IM (Page Url) := λ s,
  (Some (send_get (length (fetched s)) url referer), mkIcons (regex_cache s) (icon_files s) (fetched s ++ [url])).
Definition get_page_with_referer (url referer : string) : IM (Page Url) :=
  match Url_parse url with
  | None => fail (OtherError "Invalid URL")
  | Some parsed_url =>
      if negb (bool_decide (Url_scheme parsed_url ∈ ["http"; "https"]%string)) then fail (OtherError "Invalid scheme") else
      match Url_host parsed_url with
      | None => fail (OtherError "Invalid host")
      | Some host =>
          block_host host ;; send url referer
      end
  end.
Definition get_page (url : string) : IM (Page Url) := get_page_with_referer url "".
(** [get_page(a).or_else(|_| get_page(b))]. *)
Definition get_page_or (a b : string) : IM (Page Url) :=
  r ← attempt (get_page a); match r with inl p => mret p | inr _ => get_page b end.

(** At most [max_size] chunks are taken, and reading ends with the one that
    reaches [max_size] bytes. *)
Fixpoint read_chunks (left_ size max_size : Z) (l : list (option string)) : string :=
  match l with
  | Some chunk :: l =>
      if left_ <=? 0 then ""%string else
      let size := size + Z.of_nat (String.length chunk) in
      chunk +:+ if max_size <=? size then ""%string else read_chunks (left_ - 1) size max_size l
  | _ => ""%string
  end.
Definition stream_to_bytes_limit (res : Page Url) (max_size : Z) : string := read_chunks max_size 0 max_size (chunks res).

Definition parse_sizes (sizes : string) : Z * Z :=
  if (sizes == "")%string then (0, 0) else
  match size_captures (trim sizes) with
  | Some (w, h) => (default 0 (parse_unsigned (2 ^ 16) w), default 0 (parse_unsigned (2 ^ 16) h))
  | None => (0, 0)
  end.
Definition PRIORITY_MAP : list (string * Z) := [(".png", 10); (".jpg", 20); (".jpeg", 20)]%string.
Definition get_icon_priority (href sizes : string) : Z :=
  let '(width, height) := parse_sizes sizes in
  if negb (width =? 0) && negb (height =? 0) then
    if width =? height then
      if width =? 32 then 1 else if width =? 64 then 2 else if (24 <=? width) && (width <=? 192) then 3 else if width =? 16 then 4 else 5
    else 200
  else match rsplit_once dot href with
       | Some (_, extension) => default 30 (snd <$> List.find (λ kv, kv.1 == to_lowercase extension) PRIORITY_MAP)
       | None => 30
       end.

Fixpoint read_tokens (tokens : list FaviconToken.t) (base_url : Url) : Url * list Tag.t :=
  match tokens with
  | [] => (base_url, [])
  | token :: tokens =>
      let tag := FaviconToken.tag token in
      if (Tag.name tag == "link")%string then let '(base_url, tags) := read_tokens tokens base_url in (base_url, tag :: tags)
      else if (Tag.name tag == "base")%string then
        read_tokens tokens (match Tag.attributes tag !! "href"%string with
                            | Some href => default base_url (Url_join base_url (utf8_or_default href))
                            | None => base_url
                            end)
      else if (Tag.name tag == "head")%string && FaviconToken.closing token then (base_url, [])
      else read_tokens tokens base_url
  end.
Definition icon_of_tag (base_url : Url) (tag : Tag.t) : option Icon.t :=
  icon_href ← Tag.attributes tag !! "href"%string;
  full_href ← Url_join base_url (utf8_or_default icon_href);
  let sizes := match Tag.attributes tag !! "sizes"%string with Some v => utf8_or_default v | None => ""%string end in
  Some (Icon.mk (get_icon_priority (Url_to_string full_href) sizes) (Url_to_string full_href)).
Definition get_favicons_node (dom : list FaviconToken.t) (url : Url) : list Icon.t :=
  let '(base_url, icon_tags) := read_tokens dom url in omap (icon_of_tag base_url) icon_tags.

(** [sort_by_key], which is stable. *)
Fixpoint insert_icon (x : Icon.t) (l : list Icon.t) : list Icon.t :=
  match l with
  | [] => [x]
  | y :: l' => if Icon.priority x <=? Icon.priority y then x :: l else y :: insert_icon x l'
  end.
Definition sort_icons (l : list Icon.t) : list Icon.t := foldr insert_icon [] l.

(** The page of the site, under the names that are tried. *)
Definition get_site (domain : string) : IM (Page Url) :=
  let ssldomain := "https://" +:+ domain in
  let httpdomain := "http://" +:+ domain in
  r ← attempt (get_page ssldomain);
  match r with
  | inl p => mret p
  | inr e =>
      if is_custom e then fail e else
      r ← attempt (get_page httpdomain);
      match r with
      | inl p => mret p
      | inr e =>
          let is_ip := bool_decide (is_Some (parse_ip domain)) in
          if negb is_ip && (1 <? count_char dot domain)%nat then
            match rev (split_on dot domain) with
            | tld :: base :: _ =>
                let base_domain := base +:+ "." +:+ tld in
                match get_valid_host base_domain with
                | inl _ => get_page_or ("https://" +:+ base_domain) ("http://" +:+ base_domain)
                | inr _ => fail e
                end
            | _ => panicked
            end
          else if negb is_ip && (count_char dot domain <? 2)%nat then
            let www_domain := "www." +:+ domain in
            match get_valid_host www_domain with
            | inl _ => get_page_or ("https://" +:+ www_domain) ("http://" +:+ www_domain)
            | inr _ => fail e
            end
          else fail e
      end
  end.
Definition get_icon_url (domain : string) : IM IconUrlResult.t :=
  let ssldomain := "https://" +:+ domain in
  let httpdomain := "http://" +:+ domain in
  resp ← attempt (get_site domain);
  match resp with
  | inl page =>
      let url := page_url page in
      match Url_join url "/favicon.ico", Url_join url "/apple-touch-icon.png" with
      | Some favicon, Some touch_icon =>
          let limited_reader := stream_to_bytes_limit page (384 * 1024) in
          let dom := emitted (tokenizer_calls limited_reader) FaviconEmitter.default in
          let iconlist := [Icon.mk 35 (Url_to_string favicon); Icon.mk 40 (Url_to_string touch_icon)] ++ get_favicons_node dom url in
          mret (IconUrlResult.mk (sort_icons iconlist) (Url_to_string url))
      | _, _ => panicked
      end
  | inr _ =>
      let iconlist := [Icon.mk 35 (ssldomain +:+ "/favicon.ico"); Icon.mk 40 (ssldomain +:+ "/apple-touch-icon.png");
                       Icon.mk 35 (httpdomain +:+ "/favicon.ico"); Icon.mk 40 (httpdomain +:+ "/apple-touch-icon.png")] in
      mret (IconUrlResult.mk (sort_icons iconlist) "")
  end.

(** The loop of [download_icon]: the icon and its type, or nothing when all of
    the list were tried. *)
Fixpoint try_icons (referer : string) (icons : list Icon.t) : IM (option (string * string)) :=
  match icons with
  | [] => mret None
  | icon :: icons =>
      if starts_with "data:image" (Icon.href icon) then
        match data_url_body (Icon.href icon) with
        | Some (Some body) =>
            if 67 <=? Z.of_nat (String.length body) then
              match get_icon_type body with Some icon_type => mret (Some (body, icon_type)) | None => try_icons referer icons end
            else try_icons referer icons
        | _ => try_icons referer icons
        end
      else
        r ← attempt (get_page_with_referer (Icon.href icon) referer);
        match r with
        | inr e => if bool_decide (icons = []) then fail e else if is_custom e then fail e else try_icons referer icons
        | inl res =>
            let buffer := stream_to_bytes_limit res (5120 * 1024) in
            match get_icon_type buffer with Some icon_type => mret (Some (buffer, icon_type)) | None => try_icons referer icons end
        end
  end.
Definition download_icon (domain : string) : IM (string * option string) :=
  icon_result ← get_icon_url domain;
  found ← try_icons (IconUrlResult.referer icon_result) (take 5 (IconUrlResult.iconlist icon_result));
  match found with
  | None => fail (OtherError "Empty response or unable find a valid icon")
  | Some (buffer, icon_type) =>
      if (icon_type == "svg+xml")%string then
        match svg_filter buffer with
        | Some sanitized_svg => mret (sanitized_svg, Some icon_type)
        | None => mret (""%string, None)
        end
      else mret (buffer, Some icon_type)
  end.

(** ** The cache *)

Definition save_icon (path icon : string) : IM () :=
  if negb operator_ok || io_fails "write" path then mret () else with_files (λ m, <[path := mkFile icon now]> m).
(** [file_is_expired]; [None] is an error. *)
Definition file_is_expired (path : string) (ttl : Z) (s : IconState) : option bool :=
  if negb operator_ok || io_fails "stat" path then None else
  f ← icon_files s !! path;
  if now <? modified f then None else
  let age := (now - modified f) / 1000000 in
  Some ((0 <? ttl) && (ttl <=? age)).
Definition icon_is_negcached (path : string) : IM bool :=
  let miss_indicator := path +:+ ".miss" in
  expired ← query (file_is_expired miss_indicator icon_cache_negttl);
  match expired with
  | Some true => (if negb operator_ok || io_fails "delete" miss_indicator then mret () else with_files (λ m, delete miss_indicator m)) ;; mret false
  | Some false => mret true
  | None => mret false
  end.
Definition icon_is_expired (path : string) (s : IconState) : bool := default true (file_is_expired path icon_cache_ttl s).
Definition get_cached_icon (path : string) : IM (option string) := query (λ s,
  if icon_is_expired path s then None else
  if negb operator_ok || io_fails "read" path then None else content <$> icon_files s !! path).
Definition get_icon (domain : string) : IM (option (string * string)) :=
  let path := domain +:+ ".png" in
  negcached ← icon_is_negcached path;
  if (negcached : bool) then mret None else
  cached ← get_cached_icon path;
  match cached with
  | Some icon => mret (Some (icon, default "x-icon"%string (get_icon_type icon)))
  | None =>
      if disable_icon_download then mret None else
      r ← attempt (download_icon domain);
      match r with
      | inl (icon, icon_type) => save_icon path icon ;; mret (Some (icon, default "x-icon"%string icon_type))
      | inr e => if is_custom e then mret None else save_icon (path +:+ ".miss") "" ;; mret None
      end
  end.

(** ** The routes *)

Definition Cached_long {R} (response : R) (is_immutable : bool) : Cached.t R := Cached.mk response is_immutable 604800.
Definition Cached_short {R} (response : R) (is_immutable : bool) : Cached.t R := Cached.mk response is_immutable 600.
Definition Cached_ttl {R} (response : R) (ttl : Z) (is_immutable : bool) : Cached.t R := Cached.mk response is_immutable ttl.

Definition icon_external (host : string) : IM (Cached.t (option (Z * string))) :=
  match get_valid_host host with
  | inr _ => mret (Cached_ttl None icon_cache_negttl true)
  | inl host =>
      r ← attempt (block_host host);
      match r with
      | inr _ => mret (Cached_ttl None icon_cache_negttl true)
      | inl _ =>
          let url := replace_braces (Host_to_string host) icon_service_url in
          let redir := if bool_decide (icon_redirect_code ∈ [301; 302; 307; 308]) then Some (icon_redirect_code, url) else None in
          mret (Cached_ttl redir icon_cache_ttl true)
      end
  end.
(** The type of the content, below [image], and its bytes. *)
Definition icon_internal (host : string) : IM (Cached.t (string * string)) :=
  let fallback := Cached_ttl ("png"%string, FALLBACK_ICON) icon_cache_negttl true in
  match get_valid_host host with
  | inr _ => mret fallback
  | inl host =>
      r ← attempt (block_host host);
      match r with
      | inr _ => mret fallback
      | inl _ =>
          o ← get_icon (Host_to_string host);
          match o with
          | Some (icon, icon_type) => mret (Cached_ttl (icon_type, icon) icon_cache_ttl true)
          | None => mret fallback
          end
      end
  end.
End icons.
