(* ===== verification/IconSafety.v ===== *)
(** Theorems on the icons of web sites.

    In every history of requests for icons, only addresses that pass the filter are
    asked, at most nine per request; what is stored and served is an image, and an
    SVG image only in its filtered form; a stored icon is served until it expires,
    without asking the site again. The emitter lets only icons of the page through.
    Extensions of file names never change the choice among them. *)
From S2P Require Import Prelude Schema Roles Users Json Samples Network SecondFactors Configuration Icons.
Local Open Scope Z_scope.

(** ** Requests that are made *)

Section fetches.
Context `{HttpConfig} `{NetCrates} `{IC : IconCrates}.

(** An address that may be asked. *)
Definition reachable (url : string) : Prop :=
  ∃ u h, Url_parse url = Some u ∧ Url_scheme u ∈ ["http"; "https"]%string ∧ Url_host u = Some h ∧ allowed h.

(** At most [n] addresses are asked, and each of them may be; the files are as
    before or change as [F] says. *)
Record Fetched (n : nat) (s s' : IconState) : Prop := {
  fetched_cache : cache_ok (regex_cache s');
  fetched_log : ∃ l, fetched s' = fetched s ++ l ∧ (length l <= n)%nat ∧ Forall reachable l
}.
Definition fetches (n : nat) {A} (m : IM A) : Prop := ∀ s, cache_ok (regex_cache s) → Fetched n s (m s).2.

Lemma fetched_refl n s : cache_ok (regex_cache s) → Fetched n s s.
Proof. intros Hs. split; [done|]. exists []. rewrite app_nil_r. split_and!; [done|simpl; lia|done]. Qed.
Lemma fetched_trans n m s s1 s2 : Fetched n s s1 → Fetched m s1 s2 → Fetched (n + m) s s2.
Proof.
  intros [_ (l1 & Hl1 & Hn & Hr1)] [Hc (l2 & Hl2 & Hm & Hr2)]. split; [done|]. exists (l1 ++ l2).
  rewrite Hl2, Hl1, app_assoc, length_app. split_and!; [done|lia|by apply Forall_app].
Qed.
Lemma fetches_bind n m {A B} (p : IM A) (f : A → IM B) : fetches n p → (∀ a, fetches m (f a)) → fetches (n + m) (p ≫= f).
Proof.
  intros Hp Hf s Hs. specialize (Hp s Hs). unfold mbind, IM_bind. destruct (p s) as [[[a|e]|] s1]; simpl in *.
  - eapply fetched_trans; [exact Hp|]. apply Hf, Hp.
  - eapply fetched_trans; [exact Hp|]. apply fetched_refl, Hp.
  - eapply fetched_trans; [exact Hp|]. apply fetched_refl, Hp.
Qed.
Lemma fetches_weaken n m {A} (p : IM A) : fetches n p → (n <= m)%nat → fetches m p.
Proof. intros Hp Hle s Hs. destruct (Hp s Hs) as [Hc (l & Hl & Hn & Hr)]. split; [done|]. exists l. split_and!; [done|lia|done]. Qed.
Lemma fetches_ret n {A} (a : A) : fetches n (mret a : IM A).
Proof. intros s Hs. by apply fetched_refl. Qed.
Lemma fetches_fail n {A} e : fetches n (fail e : IM A).
Proof. intros s Hs. by apply fetched_refl. Qed.
Lemma fetches_panicked n {A} : fetches n (panicked : IM A).
Proof. intros s Hs. by apply fetched_refl. Qed.
Lemma fetches_query n {A} (f : IconState → A) : fetches n (query f).
Proof. intros s Hs. by apply fetched_refl. Qed.
Lemma fetches_files n f : fetches n (with_files f).
Proof. intros s Hs. split; [done|]. exists []. rewrite app_nil_r. split_and!; [done|simpl; lia|done]. Qed.
Lemma fetches_attempt n {A} (m : IM A) : fetches n m → fetches n (attempt m).
Proof. intros Hm s Hs. specialize (Hm s Hs). unfold attempt. by destruct (m s) as [[]]. Qed.
Lemma fetches_block n host : fetches n (block_host host).
Proof.
  intros s Hs. unfold block_host. destruct (should_block_host host (regex_cache s)) as [[r g]|] eqn:Hb; [|by apply fetched_refl].
  split; [by eapply host_cache|]. exists []. rewrite app_nil_r. split_and!; [done|simpl; lia|done].
Qed.
Lemma fetches_page url referer : fetches 1 (get_page_with_referer url referer).
Proof.
  unfold get_page_with_referer. destruct (Url_parse url) as [u|] eqn:Hu; [|apply fetches_fail].
  case_bool_decide as Hscheme; [|apply fetches_fail]. destruct (Url_host u) as [h|] eqn:Hh; [|apply fetches_fail].
  cbn [negb]. intros s Hs. unfold mbind, IM_bind, block_host. cbv beta. destruct (should_block_host h (regex_cache s)) as [[[[]|e] g]|] eqn:Hb.
  - destruct (host_passes _ _ _ Hs Hb) as [Hg Hallow]. split; [exact Hg|]. exists [url]. split_and!; [done|simpl; lia|].
    apply Forall_singleton. by exists u, h.
  - split; [by eapply host_cache|]. exists []. rewrite app_nil_r. split_and!; [done|simpl; lia|done].
  - by apply fetched_refl.
Qed.
Lemma fetches_page_or a b : fetches 2 (get_page_or a b).
Proof. apply (fetches_bind 1 1); [apply fetches_attempt, fetches_page|]. intros [p|e]; [apply fetches_ret|apply fetches_page]. Qed.
Lemma fetches_site domain : fetches 4 (get_site domain).
Proof.
  unfold get_site. apply (fetches_bind 1 3); [apply fetches_attempt, fetches_page|]. intros [p|e]; [apply fetches_ret|].
  destruct (is_custom e); [apply fetches_fail|]. apply (fetches_bind 1 2); [apply fetches_attempt, fetches_page|]. intros [p|e']; [apply fetches_ret|].
  destruct (_ && (1 <? _)%nat).
  - destruct (rev _) as [|tld [|base r]]; [apply fetches_panicked..|]. destruct (get_valid_host _); [apply fetches_page_or|apply fetches_fail].
  - destruct (_ && _); [|apply fetches_fail]. destruct (get_valid_host _); [apply fetches_page_or|apply fetches_fail].
Qed.
Lemma fetches_icon_url domain : fetches 4 (get_icon_url domain).
Proof.
  unfold get_icon_url. apply (fetches_bind 4 0); [apply fetches_attempt, fetches_site|]. intros [p|e]; [|apply fetches_ret].
  destruct (Url_join _ _); [|apply fetches_panicked]. destruct (Url_join _ _); [apply fetches_ret|apply fetches_panicked].
Qed.
Lemma fetches_icons referer icons : fetches (length icons) (try_icons referer icons).
Proof.
  induction icons as [|icon icons IH]; [apply fetches_ret|]. cbn [try_icons length].
  pose proof (fetches_weaken _ (S (length icons)) _ IH ltac:(lia)) as IH'. destruct (starts_with _ _).
  - destruct (data_url_body _) as [[body|]|]; [|done..]. destruct (_ <=? _); [|done]. destruct (get_icon_type body); [apply fetches_ret|done].
  - apply (fetches_bind 1 (length icons)); [apply fetches_attempt, fetches_page|]. intros [res|e].
    + cbv zeta. destruct (get_icon_type _); [apply fetches_ret|done].
    + case_bool_decide; [apply fetches_fail|]. destruct (is_custom e); [apply fetches_fail|done].
Qed.
Lemma fetches_download domain : fetches 9 (download_icon domain).
Proof.
  unfold download_icon. apply (fetches_bind 4 5); [apply fetches_icon_url|]. intros r. apply (fetches_bind 5 0).
  - eapply fetches_weaken; [apply fetches_icons|]. rewrite length_take. lia.
  - intros [[buffer ty]|]; [|apply fetches_fail]. destruct (_ == _)%string; [destruct (svg_filter buffer)|]; apply fetches_ret.
Qed.
End fetches.

(** ** What is served *)

Section served.
Context `{HttpConfig} `{NetCrates} `{IconConfig} `{IC : IconCrates} `{IS : IconStore}.

(** What may be served: an image other than SVG, what the filter makes of an SVG
    image, or nothing. *)
Definition image (c : string) : Prop :=
  c = ""%string ∨ (∃ t, get_icon_type c = Some t ∧ t ≠ "svg+xml"%string) ∨ ∃ raw, svg_filter raw = Some c.
Definition tidy (s : IconState) : Prop := ∀ p f, icon_files s !! p = Some f → image (content f).
Definition serves {A} (P : A → Prop) (m : IM A) : Prop := ∀ s, tidy s → tidy (m s).2 ∧ ∀ a, (m s).1 = Some (inl a) → P a.

Lemma serves_bind {A B} (P : A → Prop) (Q : B → Prop) (m : IM A) (f : A → IM B) :
  serves P m → (∀ a, P a → serves Q (f a)) → serves Q (m ≫= f).
Proof.
  intros Hm Hf s Hs. destruct (Hm s Hs) as [Ht Ha]. unfold mbind, IM_bind. destruct (m s) as [[[a|e]|] s1]; simpl in *; [|done..].
  apply Hf; auto.
Qed.
Lemma serves_ret {A} (P : A → Prop) a : P a → serves P (mret a : IM A).
Proof. intros Ha s Hs. split; [done|]. by intros ? [= <-]. Qed.
Lemma serves_fail {A} (P : A → Prop) e : serves P (fail e : IM A).
Proof. intros s Hs. by split. Qed.
Lemma serves_panicked {A} (P : A → Prop) : serves P (panicked : IM A).
Proof. intros s Hs. by split. Qed.
Lemma serves_attempt {A} (P : A → Prop) (m : IM A) : serves P m → serves (λ r, ∀ a, r = inl a → P a) (attempt m).
Proof.
  intros Hm s Hs. destruct (Hm s Hs) as [Ht Ha]. unfold attempt. destruct (m s) as [[r|] s1]; simpl in *; [|done].
  split; [done|]. intros ? [= <-] a ->. by apply Ha.
Qed.
(** Computations that leave the files alone. *)
Lemma serves_same {A} (m : IM A) : (∀ s, icon_files (m s).2 = icon_files s) → serves (λ _, True) m.
Proof. intros Hm s Hs. split; [|done]. unfold tidy. by rewrite Hm. Qed.
Lemma files_bind {A B} (m : IM A) (f : A → IM B) :
  (∀ s, icon_files (m s).2 = icon_files s) → (∀ a s, icon_files (f a s).2 = icon_files s) → ∀ s, icon_files ((m ≫= f) s).2 = icon_files s.
Proof. intros Hm Hf s. unfold mbind, IM_bind. specialize (Hm s). destruct (m s) as [[[a|e]|] s1]; simpl in *; [by rewrite Hf|done..]. Qed.
Lemma files_attempt {A} (m : IM A) : (∀ s, icon_files (m s).2 = icon_files s) → ∀ s, icon_files (attempt m s).2 = icon_files s.
Proof. intros Hm s. unfold attempt. specialize (Hm s). by destruct (m s) as [[]]. Qed.
Lemma files_block host s : icon_files (block_host host s).2 = icon_files s.
Proof. unfold block_host. by destruct (should_block_host _ _) as [[]|]. Qed.
Lemma files_page url referer s : icon_files (get_page_with_referer url referer s).2 = icon_files s.
Proof.
  unfold get_page_with_referer. destruct (Url_parse url); [|done]. destruct (negb _); [done|]. destruct (Url_host _); [|done].
  apply files_bind; [apply files_block|done].
Qed.
Lemma files_page_or a b s : icon_files (get_page_or a b s).2 = icon_files s.
Proof. apply files_bind; [apply files_attempt, files_page|]. intros [p|e] s'; [done|apply files_page]. Qed.
Lemma files_site domain s : icon_files (get_site domain s).2 = icon_files s.
Proof.
  unfold get_site. revert s. apply files_bind; [apply files_attempt, files_page|]. intros [p|e]; [done|]. destruct (is_custom e); [done|].
  apply files_bind; [apply files_attempt, files_page|]. intros [p|e']; [done|]. destruct (_ && (1 <? _)%nat).
  - destruct (rev _) as [|tld [|base r]]; [done..|]. destruct (get_valid_host _); [apply files_page_or|done].
  - destruct (_ && _); [|done]. destruct (get_valid_host _); [apply files_page_or|done].
Qed.
Lemma files_icon_url domain s : icon_files (get_icon_url domain s).2 = icon_files s.
Proof.
  unfold get_icon_url. revert s. apply files_bind; [apply files_attempt, files_site|]. intros [p|e]; [|done].
  destruct (Url_join _ _); [|done]. by destruct (Url_join _ _).
Qed.
Lemma files_icons referer icons s : icon_files (try_icons referer icons s).2 = icon_files s.
Proof.
  revert s. induction icons as [|icon icons IH]; [done|]. cbn [try_icons]. destruct (starts_with _ _).
  - destruct (data_url_body _) as [[body|]|]; [|done..]. destruct (_ <=? _); [|done]. by destruct (get_icon_type body).
  - apply files_bind; [apply files_attempt, files_page|]. intros [res|e].
    + cbv zeta. by destruct (get_icon_type _).
    + case_bool_decide; [done|]. by destruct (is_custom e).
Qed.
Lemma files_download domain s : icon_files (download_icon domain s).2 = icon_files s.
Proof.
  unfold download_icon. revert s. apply files_bind; [apply files_icon_url|]. intros r. apply files_bind; [apply files_icons|].
  intros [[buffer ty]|]; [|done]. destruct (_ == _)%string; [by destruct (svg_filter buffer)|done].
Qed.

Lemma serves_icons referer icons : serves (λ o, ∀ b t, o = Some (b, t) → get_icon_type b = Some t) (try_icons referer icons).
Proof.
  induction icons as [|icon icons IH]; [by apply serves_ret|]. cbn [try_icons]. destruct (starts_with _ _).
  - destruct (data_url_body _) as [[body|]|]; [|done..]. destruct (_ <=? _); [|done].
    destruct (get_icon_type body) eqn:Ht; [|done]. apply serves_ret. by intros ? ? [= <- <-].
  - eapply serves_bind; [apply serves_same, files_attempt, files_page|]. intros [res|e] _.
    + cbv zeta. destruct (get_icon_type _) eqn:Ht; [|done]. apply serves_ret. by intros ? ? [= <- <-].
    + case_bool_decide; [apply serves_fail|]. destruct (is_custom e); [apply serves_fail|done].
Qed.
Lemma serves_download domain : serves (λ r, image r.1) (download_icon domain).
Proof.
  unfold download_icon. eapply serves_bind; [apply serves_same, files_icon_url|]. intros r _. eapply serves_bind; [apply serves_icons|].
  intros [[buffer ty]|] Hty; [|apply serves_fail]. case_bool_decide as Hsvg.
  - destruct (svg_filter buffer) eqn:Hf; apply serves_ret; [right; right; by exists buffer|by left].
  - apply serves_ret. right. left. exists ty. split; [by apply Hty|done].
Qed.
Lemma serves_files f : (∀ m p x, f m !! p = Some x → m !! p = Some x ∨ image (content x)) → serves (λ _, True) (with_files f).
Proof. intros Hf s Hs. split; [|done]. intros p x Hx. apply Hf in Hx as [Hx|Hx]; [by eapply Hs|done]. Qed.
Lemma serves_save (E : Env) path icon : image icon → serves (λ _, True) (save_icon path icon).
Proof.
  intros Hi. unfold save_icon. destruct (_ || _); [by apply serves_ret|]. apply serves_files. intros m p x Hx.
  apply lookup_insert_Some in Hx as [[_ <-]|[_ Hx]]; [by right|by left].
Qed.
Lemma serves_get_icon (E : Env) domain : serves (λ o, ∀ c t, o = Some (c, t) → image c) (get_icon domain).
Proof.
  unfold get_icon, icon_is_negcached. cbv zeta. eapply (serves_bind (λ _, True)).
  { eapply serves_bind; [by apply serves_same|]. intros [[]|] _; [|by apply serves_ret..]. eapply serves_bind; [|intros ? _; by apply serves_ret].
    instantiate (1 := λ _, True). destruct (_ || _); [by apply serves_ret|]. apply serves_files. intros m p x Hx. left. by apply lookup_delete_Some in Hx as [_ Hx]. }
  intros [] _; [by apply serves_ret|]. unfold get_cached_icon. eapply (serves_bind (λ o, ∀ c, o = Some c → image c)).
  { intros s Hs. split; [done|]. intros a [= <-] c Hc. destruct (icon_is_expired _ _); [done|]. destruct (_ || _); [done|].
    apply fmap_Some in Hc as (f & Hf & ->). by eapply Hs. }
  intros [c|] Hc; [apply serves_ret; intros ? ? [= <- <-]; by apply Hc|]. destruct disable_icon_download; [by apply serves_ret|].
  eapply serves_bind; [apply serves_attempt, serves_download|]. intros [[icon ty]|e] Hr.
  - assert (Hi : image icon) by exact (Hr (icon, ty) eq_refl).
    eapply serves_bind; [by apply serves_save|]. intros _ _. apply serves_ret. by intros ? ? [= <- <-].
  - destruct (is_custom e); [by apply serves_ret|]. eapply serves_bind; [apply serves_save; by left|]. intros _ _. by apply serves_ret.
Qed.
Lemma serves_internal (E : Env) host :
  serves (λ r, Cached.response r = ("png"%string, FALLBACK_ICON) ∨ image (Cached.response r).2) (icon_internal host).
Proof.
  unfold icon_internal. destruct (get_valid_host host) as [h|]; [|apply serves_ret; by left].
  eapply serves_bind; [apply serves_same, files_attempt, files_block|]. intros [[]|e] _; [|apply serves_ret; by left].
  eapply serves_bind; [apply serves_get_icon|]. intros [[icon ty]|] Hi; apply serves_ret; [right; by eapply Hi|by left].
Qed.

Lemma fetches_internal (E : Env) host : fetches 9 (icon_internal host).
Proof.
  unfold icon_internal. destruct (get_valid_host host) as [h|]; [|apply fetches_ret].
  apply (fetches_bind 0 9); [apply fetches_attempt, fetches_block|]. intros [[]|e]; [|apply fetches_ret].
  apply (fetches_bind 9 0); [|by intros [[]|]; apply fetches_ret]. unfold get_icon, icon_is_negcached. cbv zeta. apply (fetches_bind 0 9).
  { apply (fetches_bind 0 0); [apply fetches_query|]. intros [[]|]; [|apply fetches_ret..].
    apply (fetches_bind 0 0); [|intros _; apply fetches_ret]. destruct (_ || _); [apply fetches_ret|apply fetches_files]. }
  intros []; [apply fetches_ret|]. apply (fetches_bind 0 9); [apply fetches_query|]. intros [c|]; [apply fetches_ret|].
  destruct disable_icon_download; [apply fetches_ret|]. apply (fetches_bind 9 0); [apply fetches_attempt, fetches_download|].
  assert (Hsave : ∀ p i, fetches 0 (save_icon p i)) by (intros p i; unfold save_icon; destruct (_ || _); [apply fetches_ret|apply fetches_files]).
  intros [[icon ty]|e']; [|destruct (is_custom e'); [apply fetches_ret|]]; (apply (fetches_bind 0 0); [apply Hsave|intros _; apply fetches_ret]).
Qed.
End served.

(** ** Histories *)

Section histories.
Context `{HttpConfig} `{NetCrates} `{IconConfig} `{IC : IconCrates} `{IS : IconStore}.

(** Requests with the time of each; a panic ends the request only. *)
Definition icon_requests (l : list (Env * string)) (s : IconState) : IconState :=
  foldl (λ s '(E, host), (icon_internal (E := E) host s).2) s l.
Definition no_icons : IconState := mkIcons None ∅ [].

Lemma history_fetched l s : cache_ok (regex_cache s) → Fetched (9 * length l) s (icon_requests l s).
Proof.
  revert s. induction l as [|[E host] l IH]; intros s Hs; [by apply fetched_refl|].
  replace (9 * length ((E, host) :: l))%nat with (9 + 9 * length l)%nat by (simpl; lia).
  pose proof (fetches_internal E host s Hs) as Hf. eapply fetched_trans; [exact Hf|]. apply IH, Hf.
Qed.
Lemma history_tidy l s : tidy s → tidy (icon_requests l s).
Proof. revert s. induction l as [|[E host] l IH]; intros s Hs; [done|]. apply IH. by apply serves_internal. Qed.

(** C33. Requests for icons do not ask for what is blocked. In every history of
    requests for the icons of any hosts, whatever pages and icons the sites
    answer with, each address that the server asks for, of a page or of an icon
    named in a page, has the scheme http or https and a host that passes the
    filter of outgoing requests, and one request makes the server ask at most
    nine times. (Where a site redirects to is followed inside the client, whose
    policy is that of Network.v.) *)
Theorem icon_requests_are_filtered (l : list (Env * string)) (s : IconState) : cache_ok (regex_cache s) →
  ∃ asked, fetched (icon_requests l s) = fetched s ++ asked ∧ (length asked <= 9 * length l)%nat
    ∧ ∀ url, url ∈ asked → ∃ u h, Url_parse url = Some u ∧ Url_scheme u ∈ ["http"; "https"]%string ∧ Url_host u = Some h ∧ allowed h.
Proof.
  intros Hs. destruct (history_fetched l s Hs) as [_ (asked & Heq & Hlen & Hall)]. exists asked. split_and!; [done..|].
  intros url Hurl. rewrite Forall_forall in Hall. by apply Hall.
Qed.

(** Icons are images. After every history of requests, the answer to a request
    for an icon is the fallback icon or an image by its first bytes, and an SVG
    image only as the filter wrote it; nothing else is stored. The one exception is
    an SVG image that the filter refuses, for which an empty icon is stored and
    served. *)
Theorem icons_are_images (l : list (Env * string)) (E : Env) (host : string) (s : IconState) (r : Cached.t (string * string)) :
  tidy s → (icon_internal (E := E) host (icon_requests l s)).1 = Some (inl r) →
  Cached.response r = ("png"%string, FALLBACK_ICON) ∨ (Cached.response r).2 = ""%string
  ∨ (∃ t, get_icon_type (Cached.response r).2 = Some t ∧ t ≠ "svg+xml"%string) ∨ ∃ raw, svg_filter raw = Some (Cached.response r).2.
Proof. intros Hs Hr. exact (proj2 (serves_internal E host _ (history_tidy l s Hs)) _ Hr). Qed.
End histories.

(** ** The cache *)

Lemma append_list a b : String.list_ascii_of_string (a +:+ b) = String.list_ascii_of_string a ++ String.list_ascii_of_string b.
Proof. induction a as [|c a IH]; [done|]. simpl. by rewrite IH. Qed.
Lemma append_inj_r a b c : a +:+ c = b +:+ c → a = b.
Proof.
  intros Heq%(f_equal String.list_ascii_of_string). rewrite !append_list in Heq. apply app_inv_tail in Heq.
  rewrite <-(String.string_of_list_ascii_of_string a), Heq. apply String.string_of_list_ascii_of_string.
Qed.
Lemma icon_not_marker d d' : d +:+ ".png" ≠ (d' +:+ ".png") +:+ ".miss".
Proof.
  intros Heq%(f_equal (last ∘ String.list_ascii_of_string)). simpl in Heq. rewrite !append_list in Heq. by rewrite !last_app in Heq.
Qed.

Section cache.
Context `{HttpConfig} `{NetCrates} `{IconConfig} `{IC : IconCrates} `{IS : IconStore}.

(** The files of a host. *)
Definition same_files_of (d : string) (s s' : IconState) : Prop :=
  icon_files s' !! (d +:+ ".png") = icon_files s !! (d +:+ ".png")
  ∧ icon_files s' !! ((d +:+ ".png") +:+ ".miss") = icon_files s !! ((d +:+ ".png") +:+ ".miss").
Definition spares (d : string) {A} (m : IM A) : Prop := ∀ s, same_files_of d s (m s).2.

Lemma spares_bind d {A B} (m : IM A) (f : A → IM B) : spares d m → (∀ a, spares d (f a)) → spares d (m ≫= f).
Proof.
  intros Hm Hf s. unfold mbind, IM_bind. specialize (Hm s). destruct (m s) as [[[a|e]|] s1]; simpl in *; [|done..].
  destruct Hm as [H1' H2'], (Hf a s1) as [H3' H4']. split; congruence.
Qed.
Lemma spares_same d {A} (m : IM A) : (∀ s, icon_files (m s).2 = icon_files s) → spares d m.
Proof. intros Hm s. by split; rewrite Hm. Qed.
Lemma spares_files d f : (∀ m, f m !! (d +:+ ".png") = m !! (d +:+ ".png")) →
  (∀ m, f m !! ((d +:+ ".png") +:+ ".miss") = m !! ((d +:+ ".png") +:+ ".miss")) → spares d (with_files f).
Proof. intros H1' H2' s. split; [apply H1'|apply H2']. Qed.
Lemma spares_save (E : Env) d path icon : path ≠ d +:+ ".png" → path ≠ (d +:+ ".png") +:+ ".miss" → spares d (save_icon path icon).
Proof. intros Hn1 Hn2. unfold save_icon. destruct (_ || _); [by apply spares_same|]. apply spares_files; intros m; by apply lookup_insert_ne. Qed.
Lemma spares_get_icon (E : Env) d d' : d' ≠ d → spares d (get_icon d').
Proof.
  intros Hne. pose proof (icon_not_marker d d') as Hm1. pose proof (icon_not_marker d' d) as Hm2.
  assert (Hp : d' +:+ ".png" ≠ d +:+ ".png") by (by intros Heq%append_inj_r).
  assert (Hm : (d' +:+ ".png") +:+ ".miss" ≠ (d +:+ ".png") +:+ ".miss") by (by intros Heq%append_inj_r).
  unfold get_icon, icon_is_negcached. cbv zeta. apply spares_bind.
  { apply spares_bind; [by apply spares_same|]. intros [[]|]; [|by apply spares_same..]. apply spares_bind; [|intros _; by apply spares_same].
    destruct (_ || _); [by apply spares_same|]. apply spares_files; intros m; rewrite lookup_delete_ne; congruence. }
  intros []; [by apply spares_same|]. apply spares_bind; [by apply spares_same|]. intros [c|]; [by apply spares_same|].
  destruct disable_icon_download; [by apply spares_same|]. apply spares_bind; [apply spares_same, files_attempt, files_download|].
  intros [[icon ty]|e]; [|destruct (is_custom e); [by apply spares_same|]];
    (apply spares_bind; [apply spares_save; congruence|intros _; by apply spares_same]).
Qed.
Lemma spares_internal (E : Env) d host : (∀ h, get_valid_host host = inl h → Host_to_string h ≠ d) → spares d (icon_internal host).
Proof.
  intros Hne. unfold icon_internal. destruct (get_valid_host host) as [h|]; [|by apply spares_same].
  apply spares_bind; [apply spares_same, files_attempt, files_block|]. intros [[]|e]; [|by apply spares_same].
  apply spares_bind; [apply spares_get_icon; by apply Hne|]. by intros [[]|]; apply spares_same.
Qed.
Lemma spares_requests d l s : Forall (λ '(E, host), ∀ h, get_valid_host host = inl h → Host_to_string h ≠ d) l → same_files_of d s (icon_requests l s).
Proof.
  revert s. induction l as [|[E host] l IH]; intros s Hl; [done|]. inversion_clear Hl as [|? ? Hh Hl'].
  destruct (spares_internal E d host Hh s) as [H1' H2'], (IH (icon_internal (E := E) host s).2 Hl') as [H3' H4']. split; [exact (eq_trans H3' H1')|exact (eq_trans H4' H2')].
Qed.

Hypothesis store_works : operator_ok = true.
Hypothesis io_works : ∀ op path, io_fails op path = false.

(** A download stores the icon and leaves no marker. *)
Lemma downloaded_icon (E : Env) d s s' icon ty :
  (∀ p f, icon_files s !! p = Some f → modified f ≤ now) → get_icon d s = (Some (inl (Some (icon, ty))), s') → fetched s' ≠ fetched s →
  icon_files s' !! (d +:+ ".png") = Some (mkFile icon now) ∧ icon_files s' !! ((d +:+ ".png") +:+ ".miss") = None.
Proof.
  intros Hpast. unfold get_icon. cbv zeta. unfold mbind at 1. unfold IM_bind at 1.
  destruct (icon_is_negcached (d +:+ ".png") s) as [[[[]|]|] s1] eqn:Hneg; try done.
  assert (Hs1 : fetched s1 = fetched s ∧ icon_files s1 !! ((d +:+ ".png") +:+ ".miss") = None).
  { revert Hneg. unfold icon_is_negcached, mbind, IM_bind, query, file_is_expired. rewrite store_works, !io_works. cbn [negb orb].
    destruct (icon_files s !! ((d +:+ ".png") +:+ ".miss")) as [f|] eqn:Hf; cbn [mbind option_bind]; [|by intros [= <-]].
    rewrite (proj2 (Z.ltb_ge _ _)) by (by eapply Hpast). destruct (_ && _); [|done]. intros [= <-]. simpl. by rewrite lookup_delete_eq. }
  destruct Hs1 as [Hfet Hnone]. unfold mbind at 1. unfold IM_bind at 1. unfold get_cached_icon at 1, query at 1.
  destruct (if icon_is_expired _ s1 then None else _) as [c|]; [intros [= <- <- <-]; by rewrite Hfet|].
  destruct disable_icon_download; [done|]. unfold mbind, IM_bind, attempt. pose proof (files_download d s1) as Hfiles.
  destruct (download_icon d s1) as [[[[i t]|e]|] s2]; simpl in *; [| |done].
  - unfold save_icon. rewrite store_works, io_works. simpl. intros [= <- _ <-] _. simpl. rewrite lookup_insert_eq.
    rewrite lookup_insert_ne by apply icon_not_marker. by rewrite Hfiles.
  - destruct (is_custom e); [done|]. unfold save_icon. by rewrite store_works, io_works.
Qed.

(** A downloaded icon is kept until it expires. When a request for the icon of
    a host has asked the site and got an icon, then, whatever icons of other hosts
    are asked for meanwhile, a later request is answered with the same bytes and
    without asking anything, until the time to live has passed, and for ever if it
    is zero. *)
Theorem downloaded_icon_is_kept (E0 E1 : Env) (d icon ty : string) (s s1 : IconState) (l : list (Env * string)) :
  (∀ p f, icon_files s !! p = Some f → modified f ≤ now (Env := E0)) →
  get_icon (E := E0) d s = (Some (inl (Some (icon, ty))), s1) → fetched s1 ≠ fetched s →
  Forall (λ '(E, host), ∀ h, get_valid_host host = inl h → Host_to_string h ≠ d) l →
  now (Env := E0) ≤ now (Env := E1) → icon_cache_ttl ≤ 0 ∨ now (Env := E1) < now (Env := E0) + icon_cache_ttl * 1000000 →
  get_icon (E := E1) d (icon_requests l s1) = (Some (inl (Some (icon, default "x-icon"%string (get_icon_type icon)))), icon_requests l s1).
Proof.
  intros Hpast Hget Hasked Hl Hle Hfresh. destruct (downloaded_icon E0 d s s1 icon ty Hpast Hget Hasked) as [Hf Hm].
  destruct (spares_requests d l s1 Hl) as [Hf' Hm']. rewrite Hf in Hf'. rewrite Hm in Hm'. set (s2 := icon_requests l s1) in *.
  unfold get_icon, icon_is_negcached, get_cached_icon, mbind, IM_bind, query, icon_is_expired, file_is_expired. rewrite store_works, !io_works. cbn [negb orb].
  rewrite Hm'. cbn [mbind option_bind mret IM_ret]. rewrite Hf'. cbn [mbind option_bind modified]. rewrite (proj2 (Z.ltb_ge _ _)) by done.
  replace ((0 <? icon_cache_ttl) && (icon_cache_ttl <=? (now (Env := E1) - now (Env := E0)) / 1000000)) with false; [done|].
  symmetry. apply andb_false_iff. destruct (Z.ltb_spec 0 icon_cache_ttl); [right|by left]. apply Z.leb_gt. apply Z.div_lt_upper_bound; lia.
Qed.
End cache.

(** ** Tags *)

(** The tokenizer asks for the token as soon as a tag or the start of an attribute
    was announced. *)
Fixpoint pops_promptly (l : list EmitterCall) : bool :=
  match l with
  | [] => true
  | (InitAttribute | EmitCurrentTag) :: l => match l with PopToken :: _ => pops_promptly l | _ => false end
  | _ :: l => pops_promptly l
  end.
Definition wanted_token (t : FaviconToken.t) : Prop :=
  let name := Tag.name (FaviconToken.tag t) in
  let attributes := Tag.attributes (FaviconToken.tag t) in
  (name = "head" ∧ FaviconToken.closing t = true) ∨ (name = "base" ∧ is_Some (attributes !! "href"%string))
  ∨ (name = "link" ∧ announces_icon attributes = true).

Lemma flush_wanted b e : FaviconEmitter.emit_token e = false → FaviconEmitter.emit_token (flush_current_attribute b e) = true →
  ∃ t, FaviconEmitter.current_token (flush_current_attribute b e) = Some t ∧ wanted_token t.
Proof.
  intros He. unfold flush_current_attribute. destruct (FaviconEmitter.current_token e) as [[[name attrs] closing]|]; [|congruence]. simpl.
  destruct (match FaviconEmitter.current_attribute e with Some _ => _ | None => _ end) as [attrs' ca]. simpl. intros Hemit. eexists. split; [done|].
  unfold wanted_token. simpl.
  destruct (_ && closing) eqn:Hhead in Hemit; [bools; by left|]. destruct (_ && bool_decide (is_Some _)) eqn:Hbase in Hemit; [bools; right; by left|].
  destruct (_ && announces_icon _) eqn:Hlink in Hemit; [bools; right; by right|congruence].
Qed.
Lemma pop_after_flush b e l (g : FaviconEmitter.t → FaviconEmitter.t) :
  FaviconEmitter.emit_token e = false →
  (∀ x, FaviconEmitter.current_token (g x) = FaviconEmitter.current_token x ∧ FaviconEmitter.emit_token (g x) = FaviconEmitter.emit_token x) →
  (∀ e', FaviconEmitter.emit_token e' = false → Forall wanted_token (emitted l e')) →
  Forall wanted_token (emitted (PopToken :: l) (g (flush_current_attribute b e))).
Proof.
  intros He Hg Hl. destruct (Hg (flush_current_attribute b e)) as [Hc Hm]. cbn [emitted emitter_call]. unfold pop_token. rewrite Hc, Hm.
  destruct (FaviconEmitter.emit_token (flush_current_attribute b e)) eqn:Hemit.
  - destruct (flush_wanted b e He Hemit) as (t & -> & Ht). simpl. constructor; [done|by apply Hl].
  - simpl. apply Hl. by rewrite Hm.
Qed.

(** Only icons of the page come out of the emitter. Whatever the page holds,
    as long as the tokenizer asks for a token as soon as one can be ready, every
    token is the end of the head, a base address, or a link whose relation names
    an icon but no mask and which has an address. *)
Theorem emitter_lets_icons_through (l : list EmitterCall) (t : FaviconToken.t) :
  pops_promptly l = true → t ∈ emitted l FaviconEmitter.default → wanted_token t.
Proof.
  intros Hl Ht. assert (Hall : ∀ e, FaviconEmitter.emit_token e = false → Forall wanted_token (emitted l e)).
  { clear Ht. induction l as [l IH] using (well_founded_induction (Wf_nat.well_founded_ltof _ length)). unfold Wf_nat.ltof in IH. intros e He.
    destruct l as [|c l]; [done|]. assert (Hrest : pops_promptly l = true → ∀ e', FaviconEmitter.emit_token e' = false → Forall wanted_token (emitted l e')).
    { intros Hp. apply IH; [simpl; lia|done]. }
    destruct c; cbn [emitted emitter_call option_list app]; try (apply Hrest; [exact Hl|exact He]).
    - unfold pop_token. rewrite He. simpl. by apply Hrest.
    - destruct l as [|[] l]; try done. apply (pop_after_flush true e l); [done|done|]. apply IH; [simpl; lia|done].
    - apply Hrest; [done|]. unfold push_tag_name. by destruct (FaviconEmitter.current_token e).
    - destruct l as [|[] l]; try done. apply (pop_after_flush false e l); [done|done|]. apply IH; [simpl; lia|done].
    - apply Hrest; [done|]. unfold push_attribute_name. by destruct (FaviconEmitter.current_attribute e) as [[]|].
    - apply Hrest; [done|]. unfold push_attribute_value. by destruct (FaviconEmitter.current_attribute e) as [[]|]. }
  specialize (Hall FaviconEmitter.default eq_refl). rewrite Forall_forall in Hall. by apply Hall.
Qed.

(** ** The choice among icons *)

Lemma rsplit_no_more c s before after : rsplit_once c s = Some (before, after) → contains c after = false.
Proof.
  revert before after. induction s as [|a s IH]; intros before after; [done|]. simpl.
  destruct (rsplit_once c s) as [[b x]|] eqn:Hs; [intros [= _ <-]; by eapply IH|].
  assert (Hno : contains c s = false).
  { clear IH. induction s as [|a' s IH]; [done|]. simpl in *. destruct (rsplit_once c s) as [[]|]; [done|].
    destruct (bool_decide_reflect (a' = c)); [done|]. by apply IH. }
  case_bool_decide; [|done]. by intros [= _ <-].
Qed.
Lemma lower_dot a : ascii_to_lower a = dot → a = dot.
Proof. destruct a as [[] [] [] [] [] [] [] []]; vm_compute; congruence. Qed.
Lemma lower_no_dot s t : contains dot s = false → to_lowercase s ≠ String dot t.
Proof.
  destruct s as [|a s]; [done|]. simpl. intros Hc [= Ha _]. apply orb_false_iff in Hc as [Hc _]. apply bool_decide_eq_false in Hc. by apply Hc, lower_dot.
Qed.

(** Extensions of file names never change the choice: the keys of the table begin
    with a dot, and what is looked up has none. *)
Theorem extensions_do_not_matter `{IC : IconCrates} (href sizes : string) :
  (parse_sizes sizes).1 = 0 ∨ (parse_sizes sizes).2 = 0 → get_icon_priority href sizes = 30.
Proof.
  intros Hz. unfold get_icon_priority. destruct (parse_sizes sizes) as [w h]. simpl in Hz.
  replace (negb (w =? 0) && negb (h =? 0)) with false
    by (destruct Hz as [-> | ->]; [done|by rewrite andb_comm]).
  destruct (rsplit_once dot href) as [[before ext]|] eqn:Hs; [|done]. apply rsplit_no_more in Hs.
  assert (Hne : ∀ t, (String dot t == to_lowercase ext) = false).
  { intros t. apply bool_decide_eq_false. intros Heq. by apply (lower_no_dot ext t Hs). }
  unfold PRIORITY_MAP. cbn [List.find fst]. by rewrite !Hne.
Qed.

(** ** Examples *)
Module SampleIcons.
(** The first match of the expression on a text in ASCII: the longest run of
    digits that is followed by another, or else a run that gives its last digit
    away. *)
Definition is_digit (a : Ascii.ascii) : bool := (48 <=? Ascii.nat_of_ascii a)%nat && (Ascii.nat_of_ascii a <=? 57)%nat.
Fixpoint span (p : Ascii.ascii → bool) (s : string) : string * string :=
  match s with
  | String a s' => if p a then let '(x, y) := span p s' in (String a x, y) else (""%string, s)
  | EmptyString => (""%string, ""%string)
  end.
Definition captures (s : string) : option (string * string) :=
  let '(_, s) := span (λ a, negb (is_digit a)) s in
  let '(first, s) := span is_digit s in
  let '(_, s) := span (λ a, negb (is_digit a)) s in
  let '(second, _) := span is_digit s in
  if negb (second == "")%string then Some (first, second) else
  let n := String.length first in
  if (2 <=? n)%nat then Some (String.substring 0 (n - 1) first, String.substring (n - 1) 1 first) else None.

Definition png : string := String.string_of_list_ascii (Ascii.ascii_of_nat <$> [137; 80; 78; 71; 13; 10; 26; 10; 1]%nat).
Definition link (href : string) : list EmitterCall :=
  [InitStartTag; PushTagName "link"; InitAttribute; PopToken; PushAttributeName "rel"; PushAttributeValue "shortcut icon"; InitAttribute; PopToken;
   PushAttributeName "href"; PushAttributeValue href; EmitCurrentTag; PopToken].
Definition host_part (s : string) : string := default ""%string (head (split_on slash (String.substring 8 (String.length s) s))).
Definition crates : IconCrates := {|
  Url := string;
  Url_parse s := if String.prefix "https://" s then Some s else None;
  Url_scheme _ := "https"%string;
  Url_host s := SampleNet.host (host_part s);
  Url_join u s := Some (if String.prefix "https://" s then s else "https://" +:+ host_part u +:+ s);
  Url_to_string s := s;
  send_get _ url _ := if (url == "https://good.example/a.png")%string then inl (mkPage url [Some png])
    else if (url == "https://good.example")%string then inl (mkPage url [Some "good"%string])
    else if (url == "https://trap.example")%string then inl (mkPage url [Some "trap"%string]) else inr (OtherError "404");
  tokenizer_calls s := if (s == "good")%string then link "/a.png" else if (s == "trap")%string then link "https://127.0.0.1/a.png" else [];
  size_captures := captures;
  data_url_body _ := None;
  svg_filter s := Some s
|}.
Definition config : IconConfig := {| icon_cache_ttl := 3600; icon_cache_negttl := 600; disable_icon_download := false; icon_service_url := "";
  icon_redirect_code := 302; FALLBACK_ICON := png |}.
Definition store : IconStore := {| operator_ok := true; io_fails _ _ := false |}.
#[export] Existing Instances SampleNet.config SampleNet.crates crates config store.
Definition soon : Env := set_now (λ t, t + 1000000000) Sample.env.
(** The icon is downloaded, and another site is asked meanwhile. *)
Definition downloaded : IconState := (get_icon (E := Sample.env) "good.example" no_icons).2.
Definition meanwhile : IconState := icon_requests [(Sample.env, "trap.example"%string)] downloaded.
End SampleIcons.

Section examples.
Import SampleIcons.

Example sizes_examples : parse_sizes "64x64" = (64, 64) ∧ parse_sizes "x128x128" = (128, 128) ∧ parse_sizes "32" = (3, 2) ∧ parse_sizes "any" = (0, 0).
Proof. vm_compute. auto. Qed.
(** A page that points to the server itself is not followed. *)
Example trap_is_refused : fetched (icon_requests [(Sample.env, "trap.example"%string)] no_icons) = ["https://trap.example"%string].
Proof. vm_compute. reflexivity. Qed.
Lemma icon_requests_are_filtered_witness :
  ∃ asked, fetched (icon_requests [(Sample.env, "good.example"%string)] no_icons) = [] ++ asked ∧ (length asked <= 9 * 1)%nat
    ∧ ∀ url, url ∈ asked → ∃ u h, Url_parse url = Some u ∧ Url_scheme u ∈ ["http"; "https"]%string ∧ Url_host u = Some h ∧ allowed h.
Proof. apply (icon_requests_are_filtered [(Sample.env, "good.example"%string)] no_icons). intros p r Hp. discriminate Hp. Defined.
Lemma icons_are_images_witness : ("png"%string, png) = ("png"%string, FALLBACK_ICON) ∨ png = ""%string
  ∨ (∃ t, get_icon_type png = Some t ∧ t ≠ "svg+xml"%string) ∨ ∃ raw, svg_filter raw = Some png.
Proof.
  apply (icons_are_images [] Sample.env "good.example" no_icons (Cached_ttl ("png"%string, png) 3600 true)).
  - intros p f Hf. discriminate Hf.
  - vm_compute. reflexivity.
Defined.
Lemma downloaded_icon_is_kept_witness : get_icon (E := soon) "good.example" meanwhile = (Some (inl (Some (png, "png"%string))), meanwhile).
Proof.
  apply (downloaded_icon_is_kept (IS := store) eq_refl (λ _ _, eq_refl) Sample.env soon "good.example" png "png" no_icons downloaded
    [(Sample.env, "trap.example"%string)]).
  - intros p f Hf. discriminate Hf.
  - apply injective_projections; [vm_compute; reflexivity|reflexivity].
  - vm_compute. discriminate.
  - constructor; [|constructor]. intros h Hh. assert (Hv : get_valid_host "trap.example" = inl (HostDomain "trap.example")) by (vm_compute; reflexivity).
    rewrite Hv in Hh. injection Hh as <-. discriminate.
  - vm_compute. discriminate.
  - right. vm_compute. reflexivity.
Defined.
Lemma emitter_lets_icons_through_witness : wanted_token (FaviconToken.mk (Tag.mk "link" {["rel"%string := "shortcut icon"%string; "href"%string := "/a.png"%string]}) false).
Proof. apply (emitter_lets_icons_through (link "/a.png")); vm_compute; [reflexivity|]. left. Defined.
End examples.
