(* ===== verification/VaultAccess.v ===== *)
(** Who can change which cipher.

    The requests on ciphers, attachments and folders of one account, in any
    order, leave every cipher alone that the account cannot write: its row, its
    collections and its attachments stay as they were. The proof is an invariant
    ([Spared]) relative to the first state: the tables that decide about access
    do not change, and neither do the rows of the ciphers that are out of
    reach. A read only tells facts about the first state, so the checks of a
    handler stay valid until it writes. *)
From S2P Require Import Prelude Schema Roles Users Json Invariants Samples Memberships Groups Collections VaultItems Ciphers Access Guards TwoFactors OneTimeCodes Policies EmergencyRows Organizations Sends Emergency Members Tokens Downloads Vault OrgCollections.
Local Open Scope Z_scope.

(** ** Access as a function of the shares *)

(** The shares of a cipher that [get_access_restrictions] combines. *)
Definition shares_write (l : list (bool * bool * bool)) : bool :=
  match l with [] => false | _ => negb (forallb (λ f, f.1.1) l) || existsb (λ f, f.2) l end.

Lemma shares_write_true l :
  shares_write l = true ↔ (∃ f, f ∈ l ∧ f.1.1 = false) ∨ (∃ f, f ∈ l ∧ f.2 = true).
Proof.
  assert (shares_write l = true ↔ negb (forallb (λ f, f.1.1) l) || existsb (λ f, f.2) l = true) as ->.
  { by destruct l. }
  rewrite orb_true_iff, existsb_elem, negb_true_iff, <-not_true_iff_false, forallb_elem.
  f_equiv. split.
  - intros Hn. induction l as [|f l IH]; [destruct Hn; by intros ? ?%not_elem_of_nil|].
    destruct (f.1.1) eqn:Hf; [|exists f; split; [left|done]].
    destruct IH as (g & Hg & ?); [|exists g; split; [by right|done]].
    intros Hall. apply Hn. intros g [->|Hg]%elem_of_cons; [done|by apply Hall].
  - intros (f & Hf & Hro) Hall. by rewrite Hall in Hro.
Qed.
Lemma shares_write_ext l l' : (∀ f, f ∈ l ↔ f ∈ l') → shares_write l = shares_write l'.
Proof. intros Heq. apply eq_true_iff_eq. rewrite !shares_write_true. by setoid_rewrite Heq. Qed.

Section access.
Context `{E : Env}.

Lemma write_accessible_shares c u d :
  Cipher_is_write_accessible_to_user c u d =
  Cipher_is_owned_by_user c u || Cipher_is_in_full_access_org c u None d || Cipher_is_in_full_access_group c u None d
  || shares_write (match Cipher_get_user_collections_access_flags c u d with
                   | [] => Cipher_get_group_collections_access_flags c u d
                   | l => l end).
Proof.
  unfold Cipher_is_write_accessible_to_user, Cipher_get_access_restrictions.
  destruct (_ || _ || _); [done|]. unfold shares_write.
  destruct (Cipher_get_user_collections_access_flags c u d) as [|f l].
  - destruct (Cipher_get_group_collections_access_flags c u d) as [|g l]; [done|]. by rewrite combine_flags_spec.
  - by rewrite combine_flags_spec.
Qed.

Lemma editable_is_writable c u d :
  Cipher_is_in_editable_collection_by_user c u d = true → Cipher_is_write_accessible_to_user c u d = true.
Proof.
  unfold Cipher_is_in_editable_collection_by_user, Cipher_is_write_accessible_to_user.
  destruct (Cipher_get_access_restrictions c u None d) as [[[[] []] []]|]; done.
Qed.

(** ** The invariant *)

(** The tables that decide what an account may do. *)
Definition grants (d : DB) :=
  (users_organizations d, groups d, groups_users d, users_collections d, collections_groups d).
(** The tables that the invariant looks at. *)
Definition vault_tables (d : DB) := (grants d, ciphers d, ciphers_collections d, attachments d).

(** Rows are stored under their keys. *)
Record vault_keyed (d : DB) : Prop := {
  vk_ciphers : map_Forall (λ k r, Cipher.uuid r = k) (ciphers d);
  vk_links : map_Forall (λ k r, (CollectionCipher.cipher_uuid r, CollectionCipher.collection_uuid r) = k) (ciphers_collections d);
  vk_attachments : map_Forall (λ k r, Attachment.id r = k) (attachments d)
}.

Section spared.
Context (u : string) (d0 : DB).

(** The account may write the cipher of that id, or there was none. *)
Definition free (uuid : string) : bool :=
  match ciphers d0 !! uuid with Some c => Cipher_is_write_accessible_to_user c u d0 | None => true end.
(** The attachment of that id belongs to such a cipher, or there was none. *)
Definition attachment_free (id : string) : bool :=
  match attachments d0 !! id with Some a => free (Attachment.cipher_uuid a) | None => true end.

Record Spared (d : DB) : Prop := {
  sp_grants : grants d = grants d0;
  sp_keyed : vault_keyed d;
  sp_cipher : ∀ uuid, free uuid = false → ciphers d !! uuid = ciphers d0 !! uuid;
  sp_links : ∀ uuid col, free uuid = false → ciphers_collections d !! (uuid, col) = ciphers_collections d0 !! (uuid, col);
  sp_attachments : ∀ id a, free (Attachment.cipher_uuid a) = false →
    attachments d !! id = Some a ↔ attachments d0 !! id = Some a
}.

Lemma spared_refl : vault_keyed d0 → Spared d0.
Proof. by constructor. Qed.

Lemma spared_tables d d' : vault_tables d' = vault_tables d → Spared d → Spared d'.
Proof.
  unfold vault_tables. intros Heq [H1 [K1 K2 K3] H2 H3 H4].
  pose proof (f_equal (λ t, t.1.1.1) Heq) as Hr. pose proof (f_equal (λ t, t.1.1.2) Heq) as Hc.
  pose proof (f_equal (λ t, t.1.2) Heq) as Hl. pose proof (f_equal snd Heq) as Ha. cbn [fst snd] in *. clear Heq.
  constructor; [congruence|constructor|..]; rewrite ?Hc, ?Hl, ?Ha; assumption.
Qed.

(** A handler that writes none of these tables. *)
Lemma spared_same {A} (m : M DB A) : keeps (same_on vault_tables) m → keeps (preserves Spared) m.
Proof. intros Hm d Hd. eapply spared_tables; [|exact Hd]. apply Hm. Qed.

(** *** Access does not change *)

Lemma spared_row d c r :
  Spared d → free (Cipher.uuid c) = false →
  r ∈ rows (ciphers d) ∧ Cipher.uuid r = Cipher.uuid c ↔ ciphers d0 !! Cipher.uuid c = Some r.
Proof.
  intros Hd Hf. rewrite <-(sp_cipher d Hd _ Hf). split.
  - intros [(k & Hk)%elem_of_rows <-]. by rewrite (vk_ciphers _ (sp_keyed _ Hd) _ _ Hk).
  - intros Hr. split; [apply elem_of_rows; eauto|]. exact (vk_ciphers _ (sp_keyed _ Hd) _ _ Hr).
Qed.
Lemma spared_link d c cc :
  Spared d → free (Cipher.uuid c) = false →
  cc ∈ rows (ciphers_collections d) ∧ CollectionCipher.cipher_uuid cc = Cipher.uuid c ↔
  ciphers_collections d0 !! (Cipher.uuid c, CollectionCipher.collection_uuid cc) = Some cc.
Proof.
  intros Hd Hf. rewrite <-(sp_links d Hd _ _ Hf). split.
  - intros [(k & Hk)%elem_of_rows <-]. by rewrite (vk_links _ (sp_keyed _ Hd) _ _ Hk).
  - intros Hr. split; [apply elem_of_rows; eauto|].
    pose proof (vk_links _ (sp_keyed _ Hd) _ _ Hr) as Hk. by simplify_eq/=.
Qed.

Lemma user_flags_spared d c :
  vault_keyed d0 → Spared d → free (Cipher.uuid c) = false →
  ∀ f, f ∈ Cipher_get_user_collections_access_flags c u d ↔ f ∈ Cipher_get_user_collections_access_flags c u d0.
Proof.
  intros Hk Hd Hf f. pose proof (spared_refl Hk) as H0. rewrite !user_flags_elem.
  pose proof (sp_grants _ Hd) as Hr. unfold grants in Hr. simplify_eq.
  pose proof (λ r, spared_row d c r Hd Hf). pose proof (λ r, spared_row d0 c r H0 Hf).
  pose proof (λ cc, spared_link d c cc Hd Hf). pose proof (λ cc, spared_link d0 c cc H0 Hf).
  split; intros (r & cc & cu & ? & ? & ? & ? & ? & ? & ? & ->);
    exists r, cc, cu; split_and!; try congruence; try naive_solver.
Qed.
Lemma group_flags_spared d c :
  vault_keyed d0 → Spared d → free (Cipher.uuid c) = false →
  ∀ f, f ∈ Cipher_get_group_collections_access_flags c u d ↔ f ∈ Cipher_get_group_collections_access_flags c u d0.
Proof.
  intros Hk Hd Hf f. pose proof (spared_refl Hk) as H0. rewrite !group_flags_elem.
  pose proof (sp_grants _ Hd) as Hr. unfold grants in Hr. simplify_eq.
  pose proof (λ r, spared_row d c r Hd Hf). pose proof (λ r, spared_row d0 c r H0 Hf).
  pose proof (λ cc, spared_link d c cc Hd Hf). pose proof (λ cc, spared_link d0 c cc H0 Hf).
  split; intros (? & r & cc & cg & gu & m & g & ? & ? & ? & ? & ? & ? & ? & ? & ? & ? & ? & ? & ? & ? & ->);
    (split; [done|]); exists r, cc, cg, gu, m, g; split_and!; try congruence; try naive_solver.
Qed.

Lemma nil_ext {A} (l l' : list A) : (∀ f, f ∈ l ↔ f ∈ l') → l = [] → l' = [].
Proof. intros Heq ->. destruct l' as [|f l']; [done|]. exfalso. apply (not_elem_of_nil f), Heq. left. Qed.

Lemma write_access_spared d c :
  vault_keyed d0 → Spared d → free (Cipher.uuid c) = false →
  Cipher_is_write_accessible_to_user c u d = Cipher_is_write_accessible_to_user c u d0.
Proof.
  intros Hk Hd Hf. rewrite !write_accessible_shares.
  pose proof (user_flags_spared d c Hk Hd Hf) as Hu. pose proof (group_flags_spared d c Hk Hd Hf) as Hg.
  f_equal.
  - pose proof (sp_grants _ Hd) as Hr. unfold grants in Hr. injection Hr as Hm Hgr Hgu Huc Hcg.
    unfold Cipher_is_in_full_access_org, Cipher_is_in_full_access_group, Group_is_in_full_access_group,
      Membership_find_confirmed_by_user_and_org, Membership_find_by_user_and_org. by rewrite Hm, Hgr, Hgu.
  - destruct (Cipher_get_user_collections_access_flags c u d) as [|f l] eqn:E1.
    + apply nil_ext in Hu as ->; [|done]. by apply shares_write_ext.
    + destruct (Cipher_get_user_collections_access_flags c u d0) as [|f0 l0] eqn:E2; [|by apply shares_write_ext].
      exfalso. apply (not_elem_of_nil f), Hu. left.
Qed.

(** *** What the reads of a handler tell *)

Section reads.
Hypothesis Hk : vault_keyed d0.

Lemma found_cipher d uuid c :
  Spared d → Cipher_find_by_uuid uuid d = Some c →
  Cipher.uuid c = uuid ∧ (free uuid = false → ciphers d0 !! uuid = Some c).
Proof.
  intros Hd. unfold Cipher_find_by_uuid, first. intros [Hc Hu]%head_Some_elem%elem_of_where. bools. subst uuid.
  split; [done|]. intros Hf. by apply (spared_row d c c Hd Hf).
Qed.
Lemma writable_is_free d c :
  Spared d → (free (Cipher.uuid c) = false → ciphers d0 !! Cipher.uuid c = Some c) →
  Cipher_is_write_accessible_to_user c u d = true → free (Cipher.uuid c) = true.
Proof.
  intros Hd Hc Hw. destruct (free (Cipher.uuid c)) eqn:Hf; [done|]. rewrite <-Hf. unfold free.
  rewrite (Hc eq_refl). rewrite <-(write_access_spared d c) by done. done.
Qed.
Lemma stored_writable_is_free d c :
  Spared d → c ∈ rows (ciphers d) → Cipher_is_write_accessible_to_user c u d = true → free (Cipher.uuid c) = true.
Proof. intros Hd Hc. apply writable_is_free; [done|]. intros Hf. by apply (spared_row d c c Hd Hf). Qed.

Lemma stored_attachment_free d a :
  Spared d → a ∈ rows (attachments d) → free (Attachment.cipher_uuid a) = true → attachment_free (Attachment.id a) = true.
Proof.
  intros Hd (k & Ha)%elem_of_rows Hf. pose proof (vk_attachments _ (sp_keyed _ Hd) _ _ Ha) as Hid. simpl in Hid. subst k.
  unfold attachment_free. destruct (attachments d0 !! Attachment.id a) as [b|] eqn:Hb; [|done].
  destruct (free (Attachment.cipher_uuid b)) eqn:Hfb; [done|].
  apply (sp_attachments _ Hd _ _ Hfb) in Hb. congruence.
Qed.
Lemma found_attachment d id a :
  Attachment_find_by_id id d = Some a → a ∈ rows (attachments d).
Proof. unfold Attachment_find_by_id, first. by intros [? _]%head_Some_elem%elem_of_where. Qed.

(** The check that most handlers start with. *)
Lemma spared_checked {A} uuid msg msg' (f : Cipher.t → M DB A) :
  (∀ c, Cipher.uuid c = uuid → free uuid = true → keeps (preserves Spared) (f c)) →
  keeps (preserves Spared) (o ← gets (Cipher_find_by_uuid uuid); cipher ← some_or o msg;
    writable ← gets (Cipher_is_write_accessible_to_user cipher u);
    if negb writable then err msg' else f cipher).
Proof.
  intros Hf. apply preserves_gets. intros d Hd. apply preserves_some_or. intros c Hc.
  destruct (found_cipher _ _ _ Hd Hc) as [Hu Hin]. apply preserves_gets. intros d' Hd'.
  destruct (Cipher_is_write_accessible_to_user c u d') eqn:Hw; simpl; [|apply keeps_err; apply _].
  apply Hf; [done|]. subst uuid. by eapply writable_is_free.
Qed.
End reads.

(** *** Statements on ciphers within reach *)

Definition set_tables_spared (f : DB → DB) : Prop := ∀ d, Spared d → Spared (f d).

Lemma spared_put_cipher c : free (Cipher.uuid c) = true → set_tables_spared (set_ciphers <[Cipher.uuid c := c]>).
Proof.
  intros Hf d [H1 [K1 K2 K3] H2 H3 H4]. constructor; try done.
  - constructor; [|done..]. by apply map_Forall_insert_2.
  - intros uuid Hn. simpl. rewrite lookup_insert_ne; [by apply H2|]. congruence.
Qed.
Lemma spared_drop_cipher uuid :
  free uuid = true → set_tables_spared (set_ciphers (delete_where (λ r, Cipher.uuid r == uuid))).
Proof.
  intros Hf d [H1 [K1 K2 K3] H2 H3 H4]. constructor; try done.
  - constructor; [|done..]. by apply keyed_delete_where.
  - intros k Hn. simpl. rewrite lookup_delete_where_ne; [by apply H2|]. intros c Hc. apply bool_decide_eq_false.
    pose proof (K1 _ _ Hc). simpl in *. congruence.
Qed.

Lemma spared_put_link uuid col :
  free uuid = true →
  set_tables_spared (set_ciphers_collections <[(uuid, col) := CollectionCipher.mk uuid col]>).
Proof.
  intros Hf d [H1 [K1 K2 K3] H2 H3 H4]. constructor; try done.
  - constructor; [done| |done]. by apply map_Forall_insert_2.
  - intros k col' Hn. simpl. rewrite lookup_insert_ne; [by apply H3|]. congruence.
Qed.
Lemma spared_drop_links uuid (p : CollectionCipher.t → bool) :
  free uuid = true → (∀ r, p r = true → CollectionCipher.cipher_uuid r = uuid) →
  set_tables_spared (set_ciphers_collections (delete_where p)).
Proof.
  intros Hf Hp d [H1 [K1 K2 K3] H2 H3 H4]. constructor; try done.
  - constructor; [done| |done]. by apply keyed_delete_where.
  - intros k col Hn. simpl. rewrite lookup_delete_where_ne; [by apply H3|]. intros r Hr. pose proof (K2 _ _ Hr) as Hk.
    destruct (p r) eqn:Hpr; [|done]. apply Hp in Hpr. simplify_eq/=. congruence.
Qed.

Lemma spared_put_attachment a :
  free (Attachment.cipher_uuid a) = true → attachment_free (Attachment.id a) = true →
  set_tables_spared (set_attachments <[Attachment.id a := a]>).
Proof.
  intros Hf Ha d [H1 [K1 K2 K3] H2 H3 H4]. constructor; try done.
  - constructor; [done..|]. by apply map_Forall_insert_2.
  - intros id b Hn. simpl. destruct (decide (id = Attachment.id a)) as [->|Hne].
    + rewrite lookup_insert_eq. split; [intros; simplify_eq; congruence|].
      intros Hb. unfold attachment_free in Ha. rewrite Hb in Ha. congruence.
    + rewrite lookup_insert_ne by done. by apply H4.
Qed.
Lemma spared_drop_attachment a :
  attachment_free (Attachment.id a) = true →
  set_tables_spared (set_attachments (delete_where (λ r, Attachment.id r == Attachment.id a))).
Proof.
  intros Ha d [H1 [K1 K2 K3] H2 H3 H4]. constructor; try done.
  - constructor; [done..|]. by apply keyed_delete_where.
  - intros id b Hn. simpl. rewrite lookup_delete_where, (H4 id b Hn). split; [by intros []|]. intros Hb. split; [done|].
    apply bool_decide_eq_false. intros Heq. pose proof (proj2 (H4 id b Hn) Hb) as Hd. pose proof (K3 _ _ Hd). simpl in *. subst id.
    unfold attachment_free in Ha. rewrite <-Heq, Hb in Ha. congruence.
Qed.

(** *** Row operations *)

Lemma spared_modify f : set_tables_spared f → keeps (preserves Spared) (modify f).
Proof. intros Hf d Hd. by apply Hf. Qed.
Lemma spared_save_row ok f msg : set_tables_spared f → keeps (preserves Spared) (save_row ok f msg).
Proof. intros Hf. apply keeps_save_row; [apply _|]. exact Hf. Qed.
Lemma spared_delete_row rf f msg : set_tables_spared f → keeps (preserves Spared) (delete_row rf f msg).
Proof. intros Hf. apply keeps_delete_row; [apply _|]. exact Hf. Qed.

Lemma spared_touch v : keeps (preserves Spared) (User_update_uuid_revision v).
Proof. apply spared_same. unfold User_update_uuid_revision. by db_keeps. Qed.
Lemma spared_users_revision c : keeps (preserves Spared) (Cipher_update_users_revision c).
Proof. unfold Cipher_update_users_revision. pose proof spared_touch. by db_keeps. Qed.
Lemma spared_collection_revision c : keeps (preserves Spared) (CollectionCipher_update_users_revision c).
Proof. unfold CollectionCipher_update_users_revision, Collection_update_users_revision. pose proof spared_touch. by db_keeps. Qed.

Lemma spared_Cipher_save c : free (Cipher.uuid c) = true → keeps (preserves Spared) (Cipher_save c).
Proof.
  intros Hf. unfold Cipher_save. apply keeps_bind; [apply _|apply spared_users_revision|intros _].
  apply keeps_bind; [apply _| |intros; db_keeps].
  apply spared_save_row. exact (spared_put_cipher (Cipher.set_updated_at (λ _, now) c) Hf).
Qed.
Lemma spared_link_save uuid col : free uuid = true → keeps (preserves Spared) (CollectionCipher_save uuid col).
Proof.
  intros Hf. unfold CollectionCipher_save. apply keeps_bind; [apply _|apply spared_collection_revision|intros _].
  by apply spared_save_row, spared_put_link.
Qed.
Lemma spared_link_delete uuid col : free uuid = true → keeps (preserves Spared) (CollectionCipher_delete uuid col).
Proof.
  intros Hf. unfold CollectionCipher_delete. apply keeps_bind; [apply _|apply spared_collection_revision|intros _].
  apply spared_modify, (spared_drop_links uuid); [done|]. intros r Hr. by bools.
Qed.
Lemma spared_Attachment_save a :
  free (Attachment.cipher_uuid a) = true → attachment_free (Attachment.id a) = true → keeps (preserves Spared) (Attachment_save a).
Proof. intros. unfold Attachment_save. by apply spared_save_row, spared_put_attachment. Qed.
Lemma spared_Attachment_delete a : attachment_free (Attachment.id a) = true → keeps (preserves Spared) (Attachment_delete a).
Proof.
  intros. unfold Attachment_delete. apply keeps_bind; [apply _| |intros _]; [by apply spared_modify, spared_drop_attachment|db_keeps].
Qed.

Section writes.
Hypothesis Hk : vault_keyed d0.

Lemma spared_Cipher_delete c : free (Cipher.uuid c) = true → keeps (preserves Spared) (Cipher_delete c).
Proof.
  intros Hf. unfold Cipher_delete. apply keeps_bind; [apply _|apply spared_users_revision|intros _].
  apply keeps_bind; [apply _|apply spared_same; unfold FolderCipher_delete_all_by_cipher; by db_keeps|intros _].
  apply keeps_bind; [apply _| |intros _].
  { apply spared_modify, (spared_drop_links (Cipher.uuid c)); [done|]. intros r Hr. by bools. }
  apply keeps_bind; [apply _| |intros _].
  { unfold Attachment_delete_all_by_cipher. apply preserves_gets. intros d Hd. apply keeps_for_each_elem; [apply _|].
    intros a [Ha Hc]%elem_of_where. bools. apply spared_Attachment_delete. eapply stored_attachment_free; [done..|]. by rewrite Hc. }
  apply keeps_bind; [apply _|apply spared_same; unfold Favorite_delete_all_by_cipher; by db_keeps|intros _].
  apply spared_delete_row. intros d Hd. eapply spared_tables; [|by apply (spared_drop_cipher (Cipher.uuid c) Hf d)]. done.
Qed.

(** *** What hangs on an account: folders, favorites, archives *)

Lemma spared_move o v c : keeps (preserves Spared) (Cipher_move_to_folder o v c).
Proof.
  apply spared_same. unfold Cipher_move_to_folder, User_update_uuid_revision, FolderCipher_save, FolderCipher_delete. by db_keeps.
Qed.
Lemma spared_favorite o v c : keeps (preserves Spared) (Cipher_set_favorite o v c).
Proof. apply spared_same. unfold Cipher_set_favorite, Favorite_set_favorite, User_update_uuid_revision. by db_keeps. Qed.
Lemma spared_archive c t v : keeps (preserves Spared) (Cipher_set_archived_at c t v).
Proof. apply spared_same. unfold Cipher_set_archived_at, Archive_save, User_update_uuid_revision. by db_keeps. Qed.
Lemma spared_unarchive c v : keeps (preserves Spared) (Cipher_unarchive c v).
Proof. apply spared_same. unfold Cipher_unarchive, Archive_delete_by_cipher, User_update_uuid_revision. by db_keeps. Qed.
Lemma spared_Folder_save f : keeps (preserves Spared) (Folder_save f).
Proof. apply spared_same. unfold Folder_save, User_update_uuid_revision. by db_keeps. Qed.
Lemma spared_Folder_delete f : keeps (preserves Spared) (Folder_delete f).
Proof. apply spared_same. unfold Folder_delete, FolderCipher_delete_all_by_folder, User_update_uuid_revision. by db_keeps. Qed.
End writes.
End spared.
End access.

(** ** The handlers *)

Section handlers.
Context `{E : Env} `{K : Codecs} `{C : Crypto} `{V : VaultConfig} `{J : JsonText}.
Context `{ST : SessionTokens} `{F : FileStore} `{TF : Jwt FileDownloadClaims.t}.
Context (u : string) (d0 : DB).
Hypothesis Hk : vault_keyed d0.

Notation Spared := (Spared u d0).
Notation free := (free u d0).
Notation attachment_free := (attachment_free u d0).
Notation spares m := (keeps (preserves Spared) m).

#[local] Hint Resolve spared_users_revision spared_move spared_favorite spared_archive spared_unarchive
  spared_Folder_save spared_Folder_delete spared_Cipher_save spared_Cipher_delete spared_link_save spared_link_delete : vault.

Lemma spares_render c v t : spares (render c v t).
Proof. unfold render. db_keeps. Qed.
Lemma spares_policy data h : spares (enforce_personal_ownership_policy data h).
Proof. unfold enforce_personal_ownership_policy. db_keeps. Qed.
Lemma spares_check_folder o v : spares (check_folder o v).
Proof. unfold check_folder. db_keeps. Qed.
Lemma spares_type_data data : spares (type_data data).
Proof. unfold type_data, unwrap, expect, panic. db_keeps. Qed.
#[local] Hint Resolve spares_render spares_policy spares_check_folder spares_type_data : vault.

Lemma spares_or_panic {A} (m : M DB A) msg : spares m → spares (or_panic m msg).
Proof. intros Hm. unfold or_panic, panic. db_keeps. Qed.

Lemma spares_rename uuid l : free uuid = true → spares (rename_attachments uuid l).
Proof.
  intros Hf. induction l as [|[id a] l IH]; simpl; [db_keeps|]. apply preserves_gets. intros d Hd.
  destruct (Attachment_find_by_id id d) as [b|] eqn:Hb; [|done]. apply found_attachment in Hb.
  case_bool_decide as Hc; simpl; [|db_keeps]. apply keeps_bind; [apply _| |intros _; exact IH].
  apply spared_Attachment_save; simpl; [by rewrite Hc|]. eapply stored_attachment_free; [done..|]. by rewrite Hc.
Qed.

Lemma place_cipher_uuid c data h cols d c' d' :
  place_cipher c data h cols d = (Ok c', d') → Cipher.uuid c' = Cipher.uuid c.
Proof. unfold place_cipher. intros Hr. repeat run_step Hr; by subst. Qed.

Lemma spares_update c data h cols ut : free (Cipher.uuid c) = true → spares (update_cipher_from_data c data h cols ut).
Proof.
  intros Hf. unfold update_cipher_from_data. apply keeps_bind; [apply _|auto with vault|intros _].
  do 3 (apply keeps_if; [apply keeps_err; apply _|]).
  apply (preserves_bind_post _ (λ c', Cipher.uuid c' = Cipher.uuid c)).
  { unfold place_cipher. db_keeps. }
  { intros. by eapply place_cipher_uuid. }
  intros c' Hu. apply keeps_bind; [apply _|auto with vault|intros _].
  apply keeps_bind; [apply _|apply spares_rename; by rewrite Hu|intros _].
  apply keeps_bind; [apply _|auto with vault|intros v].
  apply keeps_bind; [apply _|unfold unwrap, expect, panic; db_keeps|intros fields].
  apply keeps_bind; [apply _|apply spared_Cipher_save; simpl; by rewrite Hu|intros c''].
  db_keeps.
Qed.
#[local] Hint Resolve spares_update : vault.

(** *** Sharing, creating and changing *)

Lemma spares_link_collections uuid org v l : free uuid = true → spares (link_collections uuid org v l).
Proof. intros Hf. induction l as [|col l IH]; simpl; db_keeps. Qed.
Lemma spares_change_collections uuid org v p c : free uuid = true → spares (change_collections uuid org v p c).
Proof. intros Hf. unfold change_collections. db_keeps. Qed.
#[local] Hint Resolve spares_link_collections spares_change_collections : vault.

Section account.
Context (h : Headers.t).
Hypothesis Hh : User.uuid (Headers.user h) = u.

Lemma spares_share uuid data ut : spares (share_cipher_by_uuid uuid data h ut).
Proof.
  unfold share_cipher_by_uuid. rewrite Hh. apply spared_checked; [done|]. intros c <- Hf. db_keeps.
Qed.
#[local] Hint Resolve spares_share : vault.
Lemma spares_share_selected data : spares (put_cipher_share_selected data h).
Proof. unfold put_cipher_share_selected. db_keeps. Qed.

Lemma spares_create draws data : free (new_cipher_id draws 0) = true → spares (post_ciphers_create draws data h).
Proof.
  intros Hf. unfold post_ciphers_create. apply keeps_bind; [apply _|auto with vault|intros _].
  apply (preserves_bind_post _ (λ c, Cipher.uuid c = new_cipher_id draws 0)).
  { by apply spared_Cipher_save. }
  { intros d c d' _ Hr. unfold Cipher_save in Hr. repeat run_step Hr. done. }
  intros c Hc. assert (free (Cipher.uuid c) = true) by by rewrite Hc. db_keeps.
Qed.
Lemma spares_post_ciphers draws data : free (new_cipher_id draws 0) = true → spares (post_ciphers draws data h).
Proof. intros Hf. unfold post_ciphers. db_keeps. Qed.
Lemma spares_put_cipher uuid data : spares (put_cipher uuid data h).
Proof. unfold put_cipher. rewrite Hh. apply spared_checked; [done|]. intros c <- Hf. db_keeps. Qed.
Lemma spares_partial uuid data : spares (put_cipher_partial uuid data h).
Proof. unfold put_cipher_partial. db_keeps. Qed.

Lemma spares_import draws data : (∀ n, free (new_cipher_id draws n) = true) → spares (post_ciphers_import draws data h).
Proof.
  intros Hf. unfold post_ciphers_import, Cipher_validate_cipher_data.
  assert (∀ n ex l, spares (import_folders draws n ex (User.uuid (Headers.user h)) l)) as Hfold.
  { intros n ex l. revert n. induction l as [|f l IH]; intros n; simpl; [db_keeps|]. unfold unwrap, expect, panic. db_keeps. }
  assert (∀ n rel fs l, spares (import_ciphers draws n rel fs h l)) as Himp.
  { intros n rel fs l. revert n. induction l as [|c l IH]; intros n; simpl; [db_keeps|].
    apply keeps_bind; [apply _|by apply spares_update, Hf|intros _]. apply IH. }
  unfold User_update_revision. db_keeps. all: apply spared_same; unfold User_update_uuid_revision; by db_keeps.
Qed.

Lemma spares_update_collections admin uuid cols : spares (update_collections admin uuid cols h).
Proof.
  unfold update_collections. rewrite Hh. apply preserves_gets. intros d Hd. apply preserves_some_or. intros c Hc.
  destruct (found_cipher _ _ _ _ _ Hd Hc) as [<- Hin]. apply preserves_gets. intros d' Hd'.
  destruct (Cipher_is_in_editable_collection_by_user c u d') eqn:He; simpl; [|apply keeps_err; apply _].
  apply editable_is_writable in He. assert (free (Cipher.uuid c) = true) by by eapply writable_is_free. db_keeps.
Qed.

(** *** Attachments *)

Lemma spares_post_attachment_v2 draws uuid data :
  attachment_free (new_attachment_id draws) = true → spares (post_attachment_v2 draws uuid data h).
Proof.
  intros Ha. unfold post_attachment_v2. rewrite Hh. apply spared_checked; [done|]. intros c Hc Hf.
  assert (∀ a, Attachment.id a = new_attachment_id draws → Attachment.cipher_uuid a = Cipher.uuid c →
    spares (or_panic (Attachment_save a) "Error saving attachment")) as Hsave.
  { intros a Hid Hcu. apply spares_or_panic, spared_Attachment_save; congruence. }
  db_keeps. all: try by apply Hsave.
Qed.

Lemma spares_limit_for limit used adj : spares (limit_for limit used adj).
Proof. unfold limit_for. db_keeps. Qed.
#[local] Hint Resolve spares_limit_for : vault.

(** The attachment that an upload belongs to, if it was announced. *)
Definition upload_target (draws : VaultDraws) (oa : option Attachment.t) (uuid : string) : Prop :=
  match oa with
  | Some a => Attachment.cipher_uuid a = uuid ∧ (free uuid = true → attachment_free (Attachment.id a) = true)
  | None => attachment_free (new_attachment_id draws) = true
  end.

Lemma spares_record_upload draws oa uuid data size :
  upload_target draws oa uuid → free uuid = true → spares (record_upload draws oa uuid data size).
Proof.
  intros Ht Hf. unfold record_upload. destruct oa as [a|]; simpl in Ht.
  - destruct Ht as [Hc Ha]. specialize (Ha Hf).
    assert (spares (or_panic (Attachment_save (Attachment.set_file_size (λ _, size) a)) "Error updating attachment")) as Hs.
    { apply spares_or_panic, spared_Attachment_save; simpl; congruence. }
    pose proof (spared_Attachment_delete u d0 a Ha). db_keeps.
  - destruct (UploadData.raw_name data); [|db_keeps]. destruct (UploadData.key data); [|db_keeps].
    by apply spares_or_panic, spared_Attachment_save.
Qed.
Lemma spares_save_attachment draws oa uuid data :
  upload_target draws oa uuid → spares (save_attachment draws oa uuid data h).
Proof.
  intros Ht. unfold save_attachment. rewrite Hh. apply keeps_bind; [apply _|db_keeps|intros size].
  apply keeps_if; [db_keeps|]. apply spared_checked; [done|]. intros c Hc Hf.
  pose proof (spares_record_upload draws oa uuid data size Ht Hf). db_keeps.
Qed.
Lemma spares_upload_v2 draws uuid id data : spares (post_attachment_v2_data draws uuid id data h).
Proof.
  unfold post_attachment_v2_data. apply preserves_gets. intros d Hd.
  destruct (Attachment_find_by_id id d) as [a|] eqn:Ha; [|db_keeps]. apply found_attachment in Ha.
  case_bool_decide as Hc; [|db_keeps]. apply keeps_bind; [apply _| |intros; db_keeps].
  apply spares_save_attachment. split; [done|]. intros Hf. eapply stored_attachment_free; [done..|]. by rewrite <-Hc.
Qed.
Lemma spares_post_attachment draws uuid data :
  attachment_free (new_attachment_id draws) = true → spares (post_attachment draws uuid data h).
Proof.
  intros Ha. unfold post_attachment. apply keeps_bind; [apply _|by apply spares_save_attachment|intros; db_keeps].
Qed.
Lemma spares_delete_attachment uuid id : spares (delete_cipher_attachment_by_id uuid id h).
Proof.
  unfold delete_cipher_attachment_by_id. rewrite Hh. apply preserves_gets. intros d Hd. apply preserves_some_or.
  intros a Ha%found_attachment. case_bool_decide as Hc; simpl; [|db_keeps]. apply spared_checked; [done|]. intros c Hcu Hf.
  assert (spares (Attachment_delete a)).
  { apply spared_Attachment_delete. eapply stored_attachment_free; [done..|]. by rewrite Hc. }
  db_keeps.
Qed.
#[local] Hint Resolve spares_delete_attachment spares_post_attachment : vault.
Lemma spares_attachment_share draws uuid id data :
  attachment_free (new_attachment_id draws) = true → spares (post_attachment_share draws uuid id data h).
Proof. intros Ha. unfold post_attachment_share. db_keeps. Qed.

(** *** Deleting, restoring, moving, archiving *)

Lemma spares_delete_cipher uuid o : spares (delete_cipher_by_uuid uuid h o).
Proof. unfold delete_cipher_by_uuid. rewrite Hh. apply spared_checked; [done|]. intros c <- Hf. db_keeps. Qed.
Lemma spares_restore uuid m : spares (restore_cipher_by_uuid uuid h m).
Proof. unfold restore_cipher_by_uuid. rewrite Hh. apply spared_checked; [done|]. intros c <- Hf. db_keeps. Qed.
Lemma spares_archive_cipher uuid m : spares (archive_cipher uuid h m).
Proof. unfold archive_cipher. db_keeps. Qed.
Lemma spares_unarchive_cipher uuid m : spares (unarchive_cipher uuid h m).
Proof. unfold unarchive_cipher. db_keeps. Qed.
Lemma spares_each {A} (f : string → M DB A) ids : (∀ id, spares (f id)) → spares (each f ids).
Proof. intros Hf. induction ids as [|id ids IH]; simpl; db_keeps. Qed.
Lemma spares_move data : spares (move_cipher_selected data h).
Proof. unfold move_cipher_selected. db_keeps. Qed.

Lemma spares_validate mp otp v del : spares (PasswordOrOtpData_validate mp otp v del).
Proof.
  apply spared_same. unfold PasswordOrOtpData_validate, validate_protected_action_otp, TwoFactor_delete, TwoFactor_save. by db_keeps.
Qed.
#[local] Hint Resolve spares_validate : vault.

Lemma owned_is_free d c : Spared d → c ∈ Cipher_find_owned_by_user u d → free (Cipher.uuid c) = true.
Proof.
  intros Hd [Hc Ho]%elem_of_where. bools. eapply stored_writable_is_free; [done..|].
  rewrite write_accessible_shares. unfold Cipher_is_owned_by_user. by rewrite H, bool_decide_true.
Qed.
Lemma spares_purge_personal mp otp : spares (purge_personal_vault mp otp h).
Proof.
  unfold purge_personal_vault, User_update_revision. rewrite Hh. pose proof (spared_touch u d0).
  apply keeps_bind; [apply _|auto with vault|intros _].
  apply preserves_gets. intros d Hd. apply keeps_bind; [apply _| |intros; db_keeps].
  apply keeps_for_each_elem; [apply _|]. intros c Hc. apply spared_Cipher_delete. by eapply owned_is_free.
Qed.
End account.

(** *** The vault of an organization *)

Lemma spares_bulk_collections h data : User.uuid (Headers.user h) = u → spares (post_bulk_collections data h).
Proof.
  intros Hh. unfold post_bulk_collections. rewrite Hh. apply keeps_bind; [apply _|db_keeps|intros om].
  apply keeps_if; [db_keeps|]. apply keeps_bind; [apply _|db_keeps|intros cols].
  apply keeps_bind; [apply _|db_keeps|intros _]. apply keeps_for_each; [apply _|]. intros id.
  apply preserves_gets. intros d Hd. destruct (Cipher_find_by_uuid_and_org id _ d) as [c|] eqn:Hc; [|db_keeps].
  unfold Cipher_find_by_uuid_and_org, first in Hc. apply head_Some_elem, elem_of_where in Hc as [Hc _].
  apply preserves_gets. intros d' Hd'. destruct (Cipher_is_write_accessible_to_user c u d') eqn:Hw; simpl; [|db_keeps].
  assert (free (Cipher.uuid c) = true).
  { apply (writable_is_free u d0 Hk d'); [done| |done]. intros Hf. by apply (spared_row u d0 d c c Hd Hf). }
  db_keeps.
Qed.

Lemma spares_ok_unless_panic {A} (m : M DB A) : spares m → spares (ok_unless_panic m).
Proof. intros Hm d Hd. specialize (Hm d Hd). unfold ok_unless_panic. destruct (m d) as [[a|e] d']; [done|]. by case_match. Qed.
Lemma spares_Collection_save c : spares (Collection_save c).
Proof. apply spared_same. unfold Collection_save, Collection_update_users_revision, User_update_uuid_revision. by db_keeps. Qed.
Lemma spares_import_collection id org m ex col : spares (import_collection id org m ex col).
Proof. unfold import_collection. pose proof spares_Collection_save. db_keeps. Qed.

Lemma spares_org_import draws cols org data h :
  (∀ n, free (new_cipher_id draws n) = true) → spares (post_org_import draws cols org data h).
Proof.
  intros Hf. unfold post_org_import, check_org, Cipher_validate_cipher_data.
  apply keeps_bind; [apply _|db_keeps|intros _]. apply keeps_bind; [apply _|db_keeps|intros _].
  apply keeps_bind; [apply _|db_keeps|intros existing]. apply keeps_bind; [apply _| |intros collections].
  { apply keeps_traverse; [apply _|]. intros [n col]. apply spares_import_collection. }
  apply (preserves_bind_post _ (Forall (λ id, free id = true))).
  - apply keeps_traverse; [apply _|]. intros [n c]. unfold import_cipher. apply keeps_bind; [apply _| |intros; db_keeps].
    apply spares_ok_unless_panic, spares_update. simpl. apply Hf.
  - intros s l s' _. apply traverse_Ok. intros [n c] s1 b s1' Hrun. unfold import_cipher in Hrun.
    apply bind_Ok in Hrun as ([] & s2 & _ & [-> _]%ret_Ok). simpl. apply Hf.
  - intros ids Hids. apply keeps_bind; [apply _| |intros _].
    + apply keeps_for_each; [apply _|]. intros [i j]. destruct (ids !! i) as [id|] eqn:Hi; [|db_keeps].
      destruct (collections !! j) as [col|]; [|db_keeps]. apply spared_link_save. exact (Forall_lookup_1 _ _ _ _ Hids Hi).
    + unfold User_update_revision. apply spared_same. unfold User_update_uuid_revision. by db_keeps.
Qed.

Lemma org_is_free org m d d' c :
  Spared d → Spared d' → Membership_find_confirmed_by_user_and_org u org d = Some m →
  i32_eq_type (Membership.atype m) Owner = true → c ∈ Cipher_find_by_org org d' → free (Cipher.uuid c) = true.
Proof.
  intros Hd Hd' Hm Ho [Hc Horg]%elem_of_where. bools. eapply stored_writable_is_free; [done..|].
  assert (Membership_find_confirmed_by_user_and_org u org d' = Some m) as Hm'.
  { rewrite <-Hm. pose proof (sp_grants _ _ _ Hd) as H1. pose proof (sp_grants _ _ _ Hd') as H2.
    unfold grants in *. unfold Membership_find_confirmed_by_user_and_org. congruence. }
  rewrite write_accessible_shares. unfold Cipher_is_in_full_access_org. rewrite Horg, Hm'.
  assert (Membership_has_full_access m = true) as ->; [|by rewrite orb_true_r].
  apply head_Some_elem, elem_of_where in Hm as [_ Hp]. unfold i32_eq_type in Ho. bools.
  unfold Membership_has_full_access, Membership_has_status. rewrite Ho.
  by rewrite (bool_decide_eq_true_2 (Membership.status m = _)), orb_true_r.
Qed.
Lemma spares_purge_org org mp otp h : User.uuid (OwnerHeaders.user h) = u → spares (purge_org_vault org mp otp h).
Proof.
  intros Hh. unfold purge_org_vault. rewrite Hh. apply keeps_if; [db_keeps|].
  apply keeps_bind; [apply _|apply spares_validate|intros _]. apply preserves_gets. intros d Hd.
  destruct (Membership_find_confirmed_by_user_and_org u org d) as [m|] eqn:Hm; [|db_keeps].
  destruct (i32_eq_type (Membership.atype m) Owner) eqn:Ho; [|db_keeps].
  apply preserves_gets. intros d' Hd'. apply keeps_for_each_elem; [apply _|]. intros c Hc.
  apply spared_Cipher_delete. by eapply (org_is_free org m d d').
Qed.
End handlers.

(** ** Histories *)

(** The requests of an account on ciphers, attachments and folders. Those that
    only read are left out: they change nothing. *)
Inductive VaultRequest :=
| PutCipherShare (id : string) (data : ShareCipherData.t)
| PutCipherShareSelected (data : ShareSelectedCipherData.t)
| PostCiphersCreate (draws : VaultDraws) (data : ShareCipherData.t)
| PostCiphers (draws : VaultDraws) (data : CipherData.t)
| PutCipher (id : string) (data : CipherData.t)
| PutCipherPartial (id : string) (data : PartialCipherData.t)
| PostCiphersImport (draws : VaultDraws) (data : ImportData.t)
| UpdateCollections (admin : bool) (id : string) (collection_ids : list string)
| PostAttachmentV2 (draws : VaultDraws) (id : string) (data : AttachmentRequestData.t)
| PostAttachmentV2Data (draws : VaultDraws) (id attachment_id : string) (data : UploadData.t)
| PostAttachment (draws : VaultDraws) (id : string) (data : UploadData.t)
| PostAttachmentShare (draws : VaultDraws) (id attachment_id : string) (data : UploadData.t)
| DeleteAttachment (id attachment_id : string)
| DeleteCiphers (ids : list string) (options : CipherDeleteOptions)
| RestoreCipherPut (id : string)
| RestoreCiphers (ids : list string)
| MoveCipherSelected (data : MoveCipherData.t)
| ArchiveCiphers (ids : list string) (multi : bool)
| UnarchiveCiphers (ids : list string) (multi : bool)
| PurgePersonalVault (master_password_hash otp : option string)
| PurgeOrgVault (org_id : string) (master_password_hash otp : option string) (owner : OwnerHeaders.t)
| PostFolders (draws : VaultDraws) (data : FolderData.t)
| PutFolder (id : string) (data : FolderData.t)
| DeleteFolder (id : string)
| PostBulkCollections (data : BulkCollectionsData.t)
| PostOrgImport (draws : VaultDraws) (new_collection_id : nat → string) (org_id : string) (data : OrgVaultImport.t)
    (member : OrgMemberHeaders.t).

(** The answer is dropped: an error leaves what was written before it. *)
Definition vault_request `{E : Env} `{K : Codecs} `{C : Crypto} `{V : VaultConfig} `{J : JsonText} `{ST : SessionTokens} `{F : FileStore} `{TF : Jwt FileDownloadClaims.t}
    (r : VaultRequest) (h : Headers.t) : M DB () :=
  match r with
  | PutCipherShare id data => ignore (put_cipher_share id data h)
  | PutCipherShareSelected data => ignore (put_cipher_share_selected data h)
  | PostCiphersCreate draws data => ignore (post_ciphers_create draws data h)
  | PostCiphers draws data => ignore (post_ciphers draws data h)
  | PutCipher id data => ignore (put_cipher id data h)
  | PutCipherPartial id data => ignore (put_cipher_partial id data h)
  | PostCiphersImport draws data => ignore (post_ciphers_import draws data h)
  | UpdateCollections admin id cols => ignore (update_collections admin id cols h)
  | PostAttachmentV2 draws id data => ignore (post_attachment_v2 draws id data h)
  | PostAttachmentV2Data draws id a data => ignore (post_attachment_v2_data draws id a data h)
  | PostAttachment draws id data => ignore (post_attachment draws id data h)
  | PostAttachmentShare draws id a data => ignore (post_attachment_share draws id a data h)
  | DeleteAttachment id a => ignore (delete_attachment id a h)
  | DeleteCiphers ids o => ignore (delete_multiple_ciphers ids h o)
  | RestoreCipherPut id => ignore (restore_cipher_put id h)
  | RestoreCiphers ids => ignore (restore_multiple_ciphers ids h)
  | MoveCipherSelected data => ignore (move_cipher_selected data h)
  | ArchiveCiphers ids m => ignore (each (λ id, archive_cipher id h m) ids)
  | UnarchiveCiphers ids m => ignore (each (λ id, unarchive_cipher id h m) ids)
  | PurgePersonalVault p o => ignore (purge_personal_vault p o h)
  | PurgeOrgVault org p o owner => ignore (purge_org_vault org p o owner)
  | PostFolders draws data => ignore (post_folders draws data h)
  | PutFolder id data => ignore (put_folder id data h)
  | DeleteFolder id => ignore (delete_folder id h)
  | PostBulkCollections data => ignore (post_bulk_collections data h)
  | PostOrgImport draws cols org data member => ignore (post_org_import draws cols org data member)
  end.

(** The identifiers that a request draws are not in use. *)
Definition fresh_draws (d : DB) (draws : VaultDraws) : Prop :=
  (∀ n, ciphers d !! new_cipher_id draws n = None) ∧ attachments d !! new_attachment_id draws = None.
(** A request of the account [u]. *)
Definition request_of (u : string) (d : DB) (r : VaultRequest) : Prop :=
  match r with
  | PostCiphersCreate draws _ | PostCiphers draws _ | PostCiphersImport draws _ | PostAttachmentV2 draws _ _
  | PostAttachmentV2Data draws _ _ _ | PostAttachment draws _ _ | PostAttachmentShare draws _ _ _ => fresh_draws d draws
  | PurgeOrgVault _ _ _ owner => User.uuid (OwnerHeaders.user owner) = u
  | PostOrgImport draws _ _ _ _ => fresh_draws d draws
  | _ => True
  end.

Section requests.
Context `{E : Env} `{K : Codecs} `{C : Crypto} `{V : VaultConfig} `{J : JsonText}.
Context `{ST : SessionTokens} `{F : FileStore} `{TF : Jwt FileDownloadClaims.t}.

Lemma fresh_free u d0 draws n : fresh_draws d0 draws → free u d0 (new_cipher_id draws n) = true.
Proof. intros [Hf _]. unfold free. by rewrite Hf. Qed.
Lemma fresh_attachment_free u d0 draws : fresh_draws d0 draws → attachment_free u d0 (new_attachment_id draws) = true.
Proof. intros [_ Hf]. unfold attachment_free. by rewrite Hf. Qed.

Lemma request_spares u d0 h r :
  vault_keyed d0 → User.uuid (Headers.user h) = u → request_of u d0 r →
  keeps (preserves (Spared u d0)) (vault_request r h).
Proof.
  intros Hk Hh Hr. destruct r; simpl in Hr |- *; apply keeps_ignore.
  - by apply spares_share.
  - by apply spares_share_selected.
  - by apply spares_create, fresh_free.
  - by apply spares_post_ciphers, fresh_free.
  - by apply spares_put_cipher.
  - by apply spares_partial.
  - apply spares_import. intros. by apply fresh_free.
  - by apply spares_update_collections.
  - by apply spares_post_attachment_v2, fresh_attachment_free.
  - by apply spares_upload_v2.
  - by apply spares_post_attachment, fresh_attachment_free.
  - by apply spares_attachment_share, fresh_attachment_free.
  - by apply spares_delete_attachment.
  - apply keeps_for_each; [apply _|]. intros id. by apply spares_delete_cipher.
  - by apply spares_restore.
  - apply spares_each. intros id. by apply spares_restore.
  - by apply spares_move.
  - apply spares_each. intros id. by apply spares_archive_cipher.
  - apply spares_each. intros id. by apply spares_unarchive_cipher.
  - by apply spares_purge_personal.
  - by apply spares_purge_org.
  - apply spared_Folder_save.
  - unfold put_folder, own_folder. pose proof (spared_Folder_save u d0). db_keeps.
  - unfold delete_folder, own_folder. pose proof (spared_Folder_delete u d0). db_keeps.
  - by apply spares_bulk_collections.
  - apply spares_org_import. intros. by apply fresh_free.
Qed.

End requests.

Section histories.
Context `{E : Env} `{K : Codecs} `{C : Crypto} `{V : VaultConfig} `{J : JsonText}.
Context `{ST : SessionTokens} `{F : FileStore} `{TF : Jwt FileDownloadClaims.t}.

(** Requests with the time and the session of each. *)
Fixpoint vault_history (l : list (Z * Headers.t * VaultRequest)) (d : DB) : DB :=
  match l with
  | [] => d
  | (t, h, r) :: l => vault_history l (vault_request (E := set_now (λ _, t) E) r h d).2
  end.

(** The invariant does not depend on the clock. *)
Lemma spared_clock u d0 t d : Spared (E := set_now (λ _, t) E) u d0 d ↔ Spared (E := E) u d0 d.
Proof. split; intros [H1 H2 H3 H4 H5]; constructor; assumption. Qed.

Lemma history_spares u d0 l d :
  vault_keyed d0 → (∀ t h r, (t, h, r) ∈ l → User.uuid (Headers.user h) = u ∧ request_of u d0 r) →
  Spared u d0 d → Spared u d0 (vault_history l d).
Proof.
  intros Hk. revert d. induction l as [|[[t h] r] l IH]; intros d Hl Hd; simpl; [done|].
  apply IH. { intros. apply (Hl t0). by right. }
  destruct (Hl t h r) as [Hh Hr]; [left|].
  apply (spared_clock u d0 t), (request_spares (E := set_now (λ _, t) E)); [done..|]. by apply spared_clock.
Qed.

(** C7. No sequence of requests of an account, at whatever times and with
    whatever answers, changes a cipher that the account cannot write: the row
    of the cipher, the collections it is in and its attachments are those of
    the first state. *)
Theorem requests_spare_unwritable_ciphers (u : string) (d : DB) (l : list (Z * Headers.t * VaultRequest)) (c : Cipher.t) :
  vault_keyed d →
  (∀ t h r, (t, h, r) ∈ l → User.uuid (Headers.user h) = u ∧ request_of u d r) →
  ciphers d !! Cipher.uuid c = Some c →
  Cipher_is_write_accessible_to_user c u d = false →
  let d' := vault_history l d in
  ciphers d' !! Cipher.uuid c = Some c
  ∧ (∀ col, ciphers_collections d' !! (Cipher.uuid c, col) = ciphers_collections d !! (Cipher.uuid c, col))
  ∧ (∀ id a, Attachment.cipher_uuid a = Cipher.uuid c → attachments d' !! id = Some a ↔ attachments d !! id = Some a).
Proof.
  intros Hk Hl Hc Hw d'. pose proof (history_spares u d l d Hk Hl (spared_refl u d Hk)) as Hd.
  assert (free u d (Cipher.uuid c) = false) as Hf. { unfold free. by rewrite Hc. }
  split_and!.
  - unfold d'. by rewrite (sp_cipher _ _ _ Hd _ Hf).
  - intros col. by apply (sp_links _ _ _ Hd).
  - intros id a Ha. apply (sp_attachments _ _ _ Hd). by rewrite Ha.
Qed.
End histories.

(** ** Sharing with a collection *)

Section sharing.
Context `{E : Env} `{K : Codecs} `{C : Crypto} `{V : VaultConfig} `{J : JsonText}.
Context `{ST : SessionTokens} `{F : FileStore} `{TF : Jwt FileDownloadClaims.t}.

(** A statement that cannot fail. *)
Definition succeeds {A} (m : M DB A) : Prop := total (λ _, True) m (λ _ _, True).

Lemma succeeds_touch v : succeeds (User_update_uuid_revision v).
Proof. by apply total_modify. Qed.
Lemma succeeds_for_each {A} (l : list A) (f : A → M DB ()) : (∀ a, succeeds (f a)) → succeeds (for_each l f).
Proof. intros Hf. apply (total_for_each (λ _ _, True)). intros. apply Hf. Qed.
Lemma succeeds_collection_revision col : succeeds (CollectionCipher_update_users_revision col).
Proof.
  unfold CollectionCipher_update_users_revision, Collection_update_users_revision. apply total_gets. intros [k|]; [|by apply total_ret].
  intros d _. rewrite run_gets. apply succeeds_for_each; [|done]. intros m. apply succeeds_touch.
Qed.

(** The tables that decide about access, and the shares. *)
Definition rights (d : DB) :=
  (users_organizations d, groups d, groups_users d, collections d, users_collections d, collections_groups d).
Definition share_tables (d : DB) := (rights d, ciphers d, ciphers_collections d).

Lemma link_save_run uuid col d :
  is_Some (ciphers d !! uuid) → is_Some (collections d !! col) →
  ∃ d', CollectionCipher_save uuid col d = (Ok (), d') ∧ rights d' = rights d ∧ ciphers d' = ciphers d
    ∧ ciphers_collections d' = <[(uuid, col) := CollectionCipher.mk uuid col]> (ciphers_collections d).
Proof.
  intros Hc Hcol. unfold CollectionCipher_save.
  destruct (succeeds_collection_revision col d I) as ([] & d1 & Hrun & _).
  assert (share_tables d1 = share_tables d) as Hs.
  { eapply (same_part share_tables); [|exact Hrun].
    unfold CollectionCipher_update_users_revision, Collection_update_users_revision, User_update_uuid_revision. by db_keeps. }
  rewrite (run_bind_Ok _ _ _ _ _ Hrun). unfold save_row, has.
  pose proof (f_equal (λ t, t.1.1) Hs) as Hr. pose proof (f_equal (λ t, t.1.2) Hs) as Hci. pose proof (f_equal snd Hs) as Hl.
  unfold share_tables in *. cbn [fst snd] in *.
  pose proof (f_equal (λ t, t.1.1.2) Hr) as Hco. unfold rights in Hco. cbn [fst snd] in Hco.
  rewrite Hci, Hco, !bool_decide_true by done. simpl. eexists. split; [reflexivity|]. unfold rights in *. simpl. by rewrite Hl, Hci.
Qed.

(** A member with a grant on a collection that is not read-only can write what
    the collection holds. *)
Lemma grant_writes c col v cu d :
  c ∈ rows (ciphers d) → CollectionCipher.mk (Cipher.uuid c) col ∈ rows (ciphers_collections d) →
  cu ∈ rows (users_collections d) → CollectionUser.user_uuid cu = v → CollectionUser.collection_uuid cu = col →
  CollectionUser.read_only cu = false → Cipher_is_write_accessible_to_user c v d = true.
Proof.
  intros Hc Hl Hcu Hv Hcol Hro.
  destruct (grant_gives_access c v d (CollectionUser.read_only cu, CollectionUser.hide_passwords cu, CollectionUser.manage cu))
    as [_ Hw]; [|by apply Hw].
  apply user_flags_elem. exists c, (CollectionCipher.mk (Cipher.uuid c) col), cu. by split_and!.
Qed.

(** What [update_cipher_from_data] refuses after the collections were linked. *)
Definition refused (ut : option UpdateType) (data : CipherData.t) (c : Cipher.t) : Prop :=
  is_stale (match ut with
            | Some ut => ut
            | None => if bool_decide (is_Some (CipherData.last_known_revision_date data)) then SyncCipherUpdate else SyncCipherCreate
            end) data c = true
  ∨ notes_too_long data = true.

Lemma update_refused c data h cols ut d org :
  CipherData.organization_id data = Some org → refused ut data c →
  ∃ e, update_cipher_from_data c data h cols (match ut with
         | Some ut => ut
         | None => if bool_decide (is_Some (CipherData.last_known_revision_date data)) then SyncCipherUpdate else SyncCipherCreate
         end) d = (Err e, d).
Proof.
  intros Horg Href. unfold update_cipher_from_data, enforce_personal_ownership_policy, refused in *.
  rewrite Horg, (bool_decide_eq_false_2 (Some org = None)), run_ret by done.
  destruct (is_stale _ data c); [by eexists|]. destruct Href as [|Hn]; [done|].
  destruct (_ && _); [by eexists|]. rewrite Hn. by eexists.
Qed.

(** C39. When an account shares a personal cipher with a collection of an
    organization and the update is then refused (the client's copy is out of
    date, or the note too long), the request fails but the cipher stays linked
    to the collection: it is still personal, and every account with a grant on
    the collection that is not read-only can change and delete it. *)
Theorem failed_share_exposes_cipher (h : Headers.t) (data : CipherData.t) (ut : option UpdateType) (c : Cipher.t) (k : Collection.t)
    (org : string) (d : DB) :
  wf d → ciphers d !! Cipher.uuid c = Some c →
  Cipher.user_uuid c = Some (User.uuid (Headers.user h)) → Cipher.organization_uuid c = None →
  CipherData.organization_id data = Some org →
  Collection_find_by_uuid_and_org (Collection.uuid k) org d = Some k →
  Collection_is_writable_by_user (Collection.uuid k) (User.uuid (Headers.user h)) d = true →
  refused ut data c →
  ∃ e d', share_cipher_by_uuid (Cipher.uuid c) (ShareCipherData.mk data [Collection.uuid k]) h ut d = (Err e, d')
  ∧ ciphers d' !! Cipher.uuid c = Some c
  ∧ ∀ v cu, cu ∈ rows (users_collections d) → CollectionUser.user_uuid cu = v →
      CollectionUser.collection_uuid cu = Collection.uuid k → CollectionUser.read_only cu = false →
      Cipher_is_write_accessible_to_user c v d' = true.
Proof.
  intros Hwf Hc Hown Horg Hdata Hfind Hcol Href.
  assert (Cipher_find_by_uuid (Cipher.uuid c) d = Some c) as Hfc.
  { unfold Cipher_find_by_uuid, first. apply head_unique.
    - apply elem_of_where. split; [apply elem_of_rows; eauto|by apply bool_decide_true].
    - intros b [Hb Hu]%elem_of_where. bools. eapply (rows_key Cipher.uuid); [by apply wf_ciphers|done| |done]. apply elem_of_rows; eauto. }
  assert (Cipher_is_write_accessible_to_user c (User.uuid (Headers.user h)) d = true) as Hw.
  { rewrite write_accessible_shares. unfold Cipher_is_owned_by_user. by rewrite Hown, bool_decide_true. }
  assert (is_Some (collections d !! Collection.uuid k)) as Hk.
  { unfold Collection_find_by_uuid_and_org, first in Hfind. apply head_Some_elem, elem_of_where in Hfind as [(x & Hx)%elem_of_rows _].
    pose proof (wf_collections _ Hwf _ _ Hx) as Hxk. simpl in Hxk. subst x. eauto. }
  destruct (link_save_run (Cipher.uuid c) (Collection.uuid k) d) as (d' & Hsave & Hr & Hci & Hl); [eauto|done|].
  assert (∃ e, share_cipher_by_uuid (Cipher.uuid c) (ShareCipherData.mk data [Collection.uuid k]) h ut d = (Err e, d')) as [e He].
  { unfold share_cipher_by_uuid. rewrite run_gets, Hfc. cbn [some_or]. rewrite run_ret, run_gets, Hw. cbn [negb].
    rewrite Horg, (bool_decide_eq_false_2 (is_Some None)) by by intros []. cbn [andb ShareCipherData.cipher ShareCipherData.collection_ids].
    rewrite Hdata. rewrite (run_bind_Ok _ _ _ [Collection.uuid k] d').
    - destruct (update_refused c data h (Some [Collection.uuid k]) ut d' org Hdata Href) as [e He].
      exists e. by rewrite (run_bind_Err _ _ _ _ _ He).
    - simpl. by rewrite run_gets, Hfind, run_gets, Hcol, (run_bind_Ok _ _ _ _ _ Hsave). }
  exists e, d'. split_and!; [done|by rewrite Hci|].
  intros v cu Hcu Hv Hcc Hro. eapply (grant_writes c (Collection.uuid k) v cu); [rewrite Hci; apply elem_of_rows; eauto| | |done..].
  - rewrite Hl. apply elem_of_rows. eexists. apply lookup_insert_eq.
  - pose proof (f_equal (λ t, t.1.2) Hr) as Huc. unfold rights in Huc. cbn [fst snd] in Huc. by rewrite Huc.
Qed.

(** *** A share that succeeds *)

Lemma rights_collections d d' uuid org :
  rights d' = rights d → Collection_find_by_uuid_and_org uuid org d' = Collection_find_by_uuid_and_org uuid org d.
Proof. unfold rights, Collection_find_by_uuid_and_org. intros Hr. by simplify_eq; congruence. Qed.
Lemma rights_writable d d' uuid v :
  rights d' = rights d → Collection_is_writable_by_user uuid v d' = Collection_is_writable_by_user uuid v d.
Proof.
  unfold rights. intros Hr. injection Hr as H1 H2 H3 H4 H5 H6. unfold Collection_is_writable_by_user.
  by rewrite ?H1, ?H2, ?H3, ?H4, ?H5, ?H6.
Qed.

Lemma link_save_Ok uuid col d d' :
  CollectionCipher_save uuid col d = (Ok (), d') →
  rights d' = rights d ∧ ciphers d' = ciphers d
  ∧ ciphers_collections d' = <[(uuid, col) := CollectionCipher.mk uuid col]> (ciphers_collections d).
Proof.
  intros Hr. unfold CollectionCipher_save in Hr. run_step Hr. unfold save_row in Hr.
  assert (share_tables s = share_tables d) as Hs.
  { eapply (same_part share_tables); [|exact Hrun].
    unfold CollectionCipher_update_users_revision, Collection_update_users_revision, User_update_uuid_revision. by db_keeps. }
  destruct (_ && _); [|done]. injection Hr as <-.
  pose proof (f_equal (λ t, t.1.1) Hs) as H1. pose proof (f_equal (λ t, t.1.2) Hs) as H2. pose proof (f_equal snd Hs) as H3.
  unfold share_tables in *. cbn [fst snd] in *. unfold rights in *. simpl. by rewrite H3.
Qed.

Lemma link_collections_Ok uuid org v l d r d' :
  link_collections uuid org v l d = (Ok r, d') →
  rights d' = rights d ∧ ciphers d' = ciphers d
  ∧ (∀ key, is_Some (ciphers_collections d !! key) → is_Some (ciphers_collections d' !! key))
  ∧ ∀ col, col ∈ l → is_Some (Collection_find_by_uuid_and_org col org d)
      ∧ Collection_is_writable_by_user col v d = true ∧ is_Some (ciphers_collections d' !! (uuid, col)).
Proof.
  revert d r. induction l as [|col l IH]; simpl; intros d r Hr.
  { run_step Hr. split_and!; [done..|]. by intros ? ?%not_elem_of_nil. }
  run_step Hr. run_step Hrun. destruct (Collection_find_by_uuid_and_org col org d) as [k|] eqn:Hk; [|done].
  assert (Collection.uuid k = col) as Hu.
  { unfold Collection_find_by_uuid_and_org, first in Hk. apply head_Some_elem, elem_of_where in Hk as [_ ?]. by bools. }
  subst col. run_step Hr. run_step Hrun. destruct (Collection_is_writable_by_user (Collection.uuid k) v d) eqn:Hw; [|done].
  run_step Hr. destruct a. apply link_save_Ok in Hrun as (R1 & R2 & R3).
  run_step Hr. run_step Hr. apply IH in Hrun as (S1 & S2 & S3 & S4). split_and!; [congruence..| |].
  - intros key [x Hx]. apply S3. rewrite R3. destruct (decide (key = (uuid, Collection.uuid k))) as [->|Hne].
    + by rewrite lookup_insert_eq.
    + by rewrite lookup_insert_ne, Hx.
  - intros col' [->|Hin]%elem_of_cons.
    + split_and!; [by rewrite Hk|done|]. apply S3. rewrite R3, lookup_insert_eq. by eexists.
    + destruct (S4 col' Hin) as (F1 & F2 & F3). by rewrite (rights_collections d), (rights_writable d) in *.
Qed.

(** The tables that the attachments of a cipher are not in. *)
Lemma rename_same uuid l : keeps (same_on share_tables) (rename_attachments uuid l).
Proof. induction l as [|[id a] l IH]; simpl; unfold Attachment_save in *; db_keeps; done. Qed.
Lemma after_save_same c data v ut : keeps (same_on share_tables)
  (Cipher_move_to_folder (CipherData.folder_id data) v c ;;
   Cipher_set_favorite (CipherData.favorite data) v c ;;
   match CipherData.archived_date data with
   | Some dt_str => match parse_iso8601 dt_str with Some dt => Cipher_set_archived_at c dt v | None => mret () end
   | None => mret ()
   end ;;
   match ut with UpdateNone => mret () | _ => Cipher_update_users_revision c ;; mret () end ;;
   mret c).
Proof.
  unfold Cipher_move_to_folder, Cipher_set_favorite, Favorite_set_favorite, Cipher_set_archived_at, Archive_save, FolderCipher_save,
    FolderCipher_delete, Cipher_update_users_revision, User_update_uuid_revision. by db_keeps.
Qed.
Lemma cipher_save_Ok c d c' d' :
  Cipher_save c d = (Ok c', d') →
  c' = Cipher.set_updated_at (λ _, now) c ∧ rights d' = rights d ∧ ciphers_collections d' = ciphers_collections d
  ∧ ciphers d' = <[Cipher.uuid c := c']> (ciphers d).
Proof.
  intros Hr. unfold Cipher_save in Hr. run_step Hr.
  assert (share_tables s = share_tables d) as Hs.
  { eapply (same_part share_tables); [|exact Hrun]. unfold Cipher_update_users_revision, User_update_uuid_revision. by db_keeps. }
  run_step Hr. unfold save_row in Hrun0. destruct (_ && _); [|done]. injection Hrun0 as <- <-. run_step Hr.
  pose proof (f_equal (λ t, t.1.1) Hs) as H1. pose proof (f_equal (λ t, t.1.2) Hs) as H2. pose proof (f_equal snd Hs) as H3.
  unfold share_tables, rights in *. cbn [fst snd] in *. simpl. by rewrite H2, H3.
Qed.

Lemma place_cipher_Ok c data h cols d c' d' org :
  CipherData.organization_id data = Some org → place_cipher c data h cols d = (Ok c', d') →
  d' = d ∧ c' = Cipher.set_user_uuid (λ _, None) (Cipher.set_organization_uuid (λ _, Some org) c)
  ∧ is_Some (Membership_find_confirmed_by_user_and_org (User.uuid (Headers.user h)) org d).
Proof.
  intros Horg Hr. unfold place_cipher in Hr. rewrite Horg in Hr. repeat run_step Hr. repeat run_step Hrun. repeat run_step Hrun0.
  subst. eauto.
Qed.

Lemma update_Ok c data h cols ut d c' d' org :
  CipherData.organization_id data = Some org → update_cipher_from_data c data h cols ut d = (Ok c', d') →
  Cipher.uuid c' = Cipher.uuid c ∧ Cipher.organization_uuid c' = Some org ∧ Cipher.user_uuid c' = None
  ∧ ciphers d' = <[Cipher.uuid c := c']> (ciphers d) ∧ ciphers_collections d' = ciphers_collections d ∧ rights d' = rights d
  ∧ is_Some (Membership_find_confirmed_by_user_and_org (User.uuid (Headers.user h)) org d).
Proof.
  intros Horg Hr. unfold update_cipher_from_data, enforce_personal_ownership_policy in Hr.
  rewrite Horg, (bool_decide_eq_false_2 (Some org = None)), run_ret in Hr by done.
  run_step Hr. run_step Hr. run_step Hr. run_step Hr. eapply place_cipher_Ok in Hrun as (-> & Hplace & Hm); [|done].
  run_step Hr. assert (share_tables s = share_tables d) as T1.
  { eapply (same_part share_tables); [|exact Hrun]. unfold check_folder. by db_keeps. }
  run_step Hr. pose proof (same_part _ _ _ _ _ (rename_same _ _) Hrun0) as T2.
  run_step Hr. assert (share_tables s1 = share_tables s0) as T3.
  { eapply (same_part share_tables); [|exact Hrun1]. unfold type_data, unwrap, expect, panic. by db_keeps. }
  run_step Hr. assert (share_tables s2 = share_tables s1) as T4.
  { eapply (same_part share_tables); [|exact Hrun2]. unfold unwrap, expect, panic. by db_keeps. }
  run_step Hr. apply cipher_save_Ok in Hrun3 as (Hc' & R1 & R2 & R3).
  pose proof (same_part _ _ _ _ _ (after_save_same _ _ _ _) Hr) as T5.
  assert (c' = a4) as ->. { do 4 (apply bind_Ok in Hr as (? & ? & _ & Hr)). by apply ret_Ok in Hr as [-> _]. }
  assert (share_tables s2 = share_tables d) as T by congruence. clear T1 T2 T3 T4 Hr Hrun Hrun0 Hrun1 Hrun2.
  pose proof (f_equal (λ t, t.1.1) T) as A1. pose proof (f_equal (λ t, t.1.2) T) as A2. pose proof (f_equal snd T) as A3.
  pose proof (f_equal (λ t, t.1.1) T5) as B1. pose proof (f_equal (λ t, t.1.2) T5) as B2. pose proof (f_equal snd T5) as B3.
  unfold share_tables in *. cbn [fst snd] in *. subst a a4. simpl in *. split_and!; congruence.
Qed.

Lemma to_json_row c v sd t d j : Cipher_to_json c v sd t d = Ok j → CipherDetails.row j = c.
Proof.
  unfold Cipher_to_json. destruct (attachments_json _) as [l|]; [|done]. destruct t.
  - destruct (match Cipher_get_access_restrictions c v sd d with Some (ro, hp, _) => _ | None => _ end). case_match; [|done].
    by intros [= <-].
  - case_match; [|done]. by intros [= <-].
Qed.
Lemma render_Ok c v t d j d' : render c v t d = (Ok j, d') → CipherDetails.row j = c ∧ d' = d.
Proof. intros Hr. unfold render in Hr. run_step Hr. run_step Hrun. run_step Hr. eauto using to_json_row. Qed.

(** A successful request to share a cipher with collections of an
    organization moves it there: the caller could write the cipher and is a
    confirmed member, every named collection belongs to the organization, was
    writable for the caller and holds the cipher now, and the stored row, which
    is also the one in the answer, belongs to the organization and to no
    account. *)
Theorem share_moves_cipher (uuid : string) (data : ShareCipherData.t) (h : Headers.t) (ut : option UpdateType) (org : string)
    (d d' : DB) (j : CipherDetails.t) :
  CipherData.organization_id (ShareCipherData.cipher data) = Some org →
  share_cipher_by_uuid uuid data h ut d = (Ok j, d') →
  let u := User.uuid (Headers.user h) in
  (∃ c, Cipher_find_by_uuid uuid d = Some c ∧ Cipher_is_write_accessible_to_user c u d = true)
  ∧ is_Some (Membership_find_confirmed_by_user_and_org u org d)
  ∧ (∀ col, col ∈ ShareCipherData.collection_ids data →
       is_Some (Collection_find_by_uuid_and_org col org d) ∧ Collection_is_writable_by_user col u d = true
       ∧ is_Some (ciphers_collections d' !! (uuid, col)))
  ∧ let c' := CipherDetails.row j in
    ciphers d' !! uuid = Some c' ∧ Cipher.organization_uuid c' = Some org ∧ Cipher.user_uuid c' = None.
Proof.
  intros Horg Hr u. unfold share_cipher_by_uuid in Hr. rewrite run_gets in Hr.
  apply bind_Ok in Hr as (c & d1 & [Hc ->]%some_or_Ok & Hr). rewrite run_gets in Hr.
  destruct (Cipher_is_write_accessible_to_user c _ d) eqn:Hw; [|discriminate Hr]. cbn [negb] in Hr.
  assert (Cipher.uuid c = uuid) as Hu.
  { unfold Cipher_find_by_uuid, first in Hc. apply head_Some_elem, elem_of_where in Hc as [_ ?]. by bools. }
  run_step Hr. rewrite Horg in Hr. apply bind_Ok in Hr as (cols & d1 & Hl & Hr).
  apply link_collections_Ok in Hl as (L1 & L2 & _ & L3).
  apply bind_Ok in Hr as (c' & d2 & Hup & Hr). eapply update_Ok in Hup as (U1 & U2 & U3 & U4 & U5 & U6 & U7); [|exact Horg].
  apply render_Ok in Hr as [-> ->]. split_and!.
  - eauto.
  - pose proof (f_equal (λ t, t.1.1.1.1.1) L1) as Hm. unfold rights in Hm. cbn [fst snd] in Hm.
    unfold Membership_find_confirmed_by_user_and_org in *. by rewrite <-Hm.
  - intros col Hcol. destruct (L3 col Hcol) as (? & ? & ?). split_and!; [done..|]. by rewrite U5, <-Hu.
  - simpl. split_and!; [|done..]. rewrite U4, <-Hu. apply lookup_insert_eq.
Qed.
End sharing.

(** ** A sample deployment

    Bob can only read the cipher k1 of the organization and owns k2; a group
    lets him write the collection dev, on which Carol has a grant. *)
Module SampleVault.
#[export] Instance config : VaultConfig := {|
  max_note_size := 10; user_attachment_limit := Some 1; org_attachment_limit := Some 1;
  parse_iso8601 := λ s, if s == "early" then Some (-5000000) else None;
  shows_ssh_keys := λ _, true; host := "https://v" |}.
#[export] Instance crypto : Crypto := {| pbkdf2 := λ secret _ _, secret |}.
#[export] Existing Instances Sample.env SampleCodecs.codecs SampleJson.sample_json SampleFiles.files SampleFiles.sessions SampleFiles.jwt
  SampleFiles.FileDownloadClaims_countable.

Definition session (u : string) : Headers.t := Headers.mk Sample.phone (Sample.user Sample.env u u) "10.0.0.1".
Definition draws : VaultDraws :=
  {| new_cipher_id := λ _, "fresh"; new_folder_id := λ _, "folder"; new_attachment_id := "file" |}.
Definition data (org : option string) (last : option string) : CipherData.t :=
  CipherData.mk None None org None 1 "login" None None (Some (JsObject [("response", JsNull)])) None None None None None None None
    None last None.
Definition k1_file := Attachment.mk "f1" "k1" "2.name" 100 None.
Definition carol_dev := CollectionUser.mk "carol" "dev" false false false.
Definition carol := Sample.mem "m-carol" "carol" false 2 2.
Definition db : DB :=
  set_users <["carol" := Sample.user Sample.env "carol" "c@x"]>
  (set_users_organizations <["m-carol" := carol]>
  (set_users_collections <[("carol", "dev") := carol_dev]> (set_attachments <["f1" := k1_file]> Sample.db))).
End SampleVault.
Import SampleVault.

(** Bob deletes, overwrites and moves k1, without effect, and changes k2. *)
Definition sample_history : list (Z * Headers.t * VaultRequest) :=
  [(1, session "bob", DeleteCiphers ["k1"] HardMulti);
   (2, session "bob", PutCipher "k1" (data (Some "acme") None));
   (3, session "bob", DeleteAttachment "k1" "f1");
   (4, session "bob", UpdateCollections false "k1" ["dev"]);
   (5, session "bob", PostCiphers draws (data None None));
   (6, session "bob", PutCipher "k2" (data None None))].

Lemma sample_keyed : vault_keyed db.
Proof. constructor; apply (bool_decide_unpack _); vm_compute; done. Qed.

Example sample_history_works : Cipher.updated_at <$> ciphers (vault_history sample_history db) !! "k2" = Some 6
  ∧ is_Some (ciphers (vault_history sample_history db) !! "fresh").
Proof. split; [vm_compute; reflexivity|apply (bool_decide_unpack _); vm_compute; done]. Qed.

Lemma requests_spare_unwritable_ciphers_witness :
  Cipher_is_write_accessible_to_user Sample.k1 "bob" db = false
  ∧ ciphers (vault_history sample_history db) !! "k1" = Some Sample.k1
  ∧ attachments (vault_history sample_history db) !! "f1" = Some k1_file.
Proof.
  destruct (requests_spare_unwritable_ciphers "bob" db sample_history Sample.k1) as (H1 & H2 & H3).
  - exact sample_keyed.
  - intros t h r Hin. apply list_elem_of_In in Hin. simpl in Hin. destruct_or! Hin; try contradiction; injection Hin as <- <- <-;
      (split; [reflexivity|]); first [exact I|split; [intros n|]; vm_compute; reflexivity].
  - vm_compute. reflexivity.
  - vm_compute. reflexivity.
  - split; [vm_compute; reflexivity|]. split; [exact H1|]. apply (H3 "f1" k1_file); vm_compute; reflexivity.
Defined.

Lemma failed_share_exposes_cipher_witness :
  ∃ e d', share_cipher_by_uuid "k2" (ShareCipherData.mk (data (Some "acme") (Some "early")) ["dev"]) (session "bob") None db = (Err e, d')
  ∧ Cipher_is_write_accessible_to_user Sample.k2 "carol" db = false
  ∧ Cipher_is_write_accessible_to_user Sample.k2 "carol" d' = true
  (** Carol saves the cipher as her own. *)
  ∧ (c ← ciphers (put_cipher "k2" (data None None) (session "carol") d').2 !! "k2"; Cipher.user_uuid c) = Some "carol".
Proof.
  destruct (failed_share_exposes_cipher (session "bob") (data (Some "acme") (Some "early")) None Sample.k2 Sample.dev "acme" db)
    as (e & d' & Hr & _ & Hw).
  - apply wf_b_sound. vm_compute. reflexivity.
  - vm_compute. reflexivity.
  - reflexivity.
  - reflexivity.
  - reflexivity.
  - vm_compute. reflexivity.
  - vm_compute. reflexivity.
  - left. vm_compute. reflexivity.
  - exists e, d'. split; [exact Hr|]. split; [vm_compute; reflexivity|]. split.
    + apply (Hw "carol" carol_dev); [|reflexivity..]. apply (elem_of_rows_key _ ("carol", "dev")). vm_compute. reflexivity.
    + assert (d' = (share_cipher_by_uuid "k2" (ShareCipherData.mk (data (Some "acme") (Some "early")) ["dev"]) (session "bob") None db).2) as ->
        by exact (eq_sym (f_equal snd Hr)). vm_compute. reflexivity.
Defined.

Lemma share_moves_cipher_witness :
  let d' := (share_cipher_by_uuid "k2" (ShareCipherData.mk (data (Some "acme") None) ["dev"]) (session "bob") None db).2 in
  is_Some (ciphers_collections d' !! ("k2", "dev"))
  ∧ Cipher.organization_uuid <$> ciphers d' !! "k2" = Some (Some "acme").
Proof.
  intros d'. destruct (share_cipher_by_uuid "k2" (ShareCipherData.mk (data (Some "acme") None) ["dev"]) (session "bob") None db)
    as [[j|e] d''] eqn:Hr; [|vm_compute in Hr; discriminate Hr].
  destruct (share_moves_cipher "k2" (ShareCipherData.mk (data (Some "acme") None) ["dev"]) (session "bob") None "acme" db d'' j
    eq_refl Hr) as (_ & _ & Hcol & Hrow & Horg & _).
  split; [apply (Hcol "dev"); left|]. simpl in d'. unfold d'. rewrite Hrow. simpl. by rewrite Horg.
Defined.
