(* ===== verification/Quotas.v ===== *)
(** The storage limits for attachments.

    An upload that is accepted keeps the attachments of its vault, of an
    account or of an organization, within the configured limit. The queries sum
    a join of two tables; here the sum is one over the rows of the attachments,
    each with its size or nothing. *)
From S2P Require Import Prelude Schema Roles Users Json Invariants Samples Memberships Groups Collections VaultItems Ciphers Access SyncAccess Guards TwoFactors OneTimeCodes Policies EmergencyRows Organizations Sends Emergency Tokens Downloads Vault VaultAccess.
Local Open Scope Z_scope.

(** ** Sums *)

Definition sumZ (l : list Z) : Z := foldr Z.add 0 l.

Lemma sumZ_cons x l : sumZ (x :: l) = x + sumZ l.
Proof. done. Qed.
Lemma sumZ_app l l' : sumZ (l ++ l') = sumZ l + sumZ l'.
Proof. induction l as [|x l IH]; simpl; lia. Qed.
#[export] Instance sumZ_proper : Proper (Permutation ==> eq) sumZ.
Proof. intros l l'. induction 1; simpl; lia. Qed.
Lemma sumZ_bind {A B} (f : A → list B) (w : B → Z) l : sumZ (w <$> (l ≫= f)) = sumZ ((λ a, sumZ (w <$> f a)) <$> l).
Proof. induction l as [|a l IH]; csimpl; [done|]. by rewrite fmap_app, sumZ_app, IH. Qed.
Lemma sumZ_nonneg l : (∀ x, x ∈ l → 0 ≤ x) → 0 ≤ sumZ l.
Proof.
  induction l as [|x l IH]; intros Hl; simpl; [done|]. assert (0 ≤ x) by (apply Hl; left).
  assert (0 ≤ sumZ l) by (apply IH; intros; apply Hl; by right). lia.
Qed.

Lemma where_bind {A B} (p : B → bool) (f : A → list B) l : where_ p (l ≫= f) = l ≫= (λ a, where_ p (f a)).
Proof. induction l as [|a l IH]; csimpl; [done|]. unfold where_ in *. by rewrite List.filter_app, IH. Qed.

(** ** Attachments by owner *)

Section owner.
(** [Cipher::user_uuid] or [Cipher::organization_uuid] is a given owner. *)
Context (owns : Cipher.t → bool).

Definition owned_attachments (d : DB) : list Attachment.t :=
  fst <$> where_ (λ '(_, oc), nn oc owns)
    (left_join (rows (attachments d)) (rows (ciphers d)) (λ a c, Cipher.uuid c == Attachment.cipher_uuid a)).

(** What an attachment counts against the owner. *)
Definition weight (ciphers : gmap string Cipher.t) (a : Attachment.t) : Z :=
  match ciphers !! Attachment.cipher_uuid a with
  | Some c => if owns c then Attachment.file_size a else 0
  | None => 0
  end.
Definition used (ciphers : gmap string Cipher.t) (t : gmap string Attachment.t) : Z := sumZ (weight ciphers <$> rows t).

Lemma keyed_partner (t : gmap string Cipher.t) uuid :
  map_Forall (λ k r, Cipher.uuid r = k) t →
  where_ (λ c, Cipher.uuid c == uuid) (rows t) = match t !! uuid with Some c => [c] | None => [] end.
Proof.
  intros Hk. destruct (t !! uuid) as [c|] eqn:Hc.
  - apply where_singleton.
    + by eapply NoDup_rows.
    + apply elem_of_rows. eauto.
    + apply bool_decide_true. by apply Hk.
    + intros b Hb Hu. bools. eapply (rows_key Cipher.uuid); [done|done|apply elem_of_rows; eauto|]. rewrite Hu. symmetry. by apply Hk.
  - destruct (where_ _ (rows t)) as [|b l] eqn:Hw; [done|]. exfalso.
    assert (b ∈ where_ (λ c, Cipher.uuid c == uuid) (rows t)) as [Hb Hu]%elem_of_where by (rewrite Hw; left).
    bools. apply elem_of_rows in Hb as (k & Hb). pose proof (Hk _ _ Hb). simpl in *. congruence.
Qed.

Lemma owned_sum d :
  map_Forall (λ k r, Cipher.uuid r = k) (ciphers d) →
  sumZ (Attachment.file_size <$> owned_attachments d) = used (ciphers d) (attachments d).
Proof.
  intros Hk. unfold owned_attachments, used, left_join. rewrite where_bind, <-list_fmap_compose, sumZ_bind.
  f_equal. apply list_fmap_ext. intros i a _. rewrite keyed_partner by done. unfold weight.
  destruct (ciphers d !! Attachment.cipher_uuid a) as [c|]; simpl; [|done]. destruct (owns c); simpl; lia.
Qed.

(** An attachment that is stored replaces what was under its id. *)
Lemma used_insert cs t a :
  used cs (<[Attachment.id a := a]> t)
  = used cs t - from_option (weight cs) 0 (t !! Attachment.id a) + weight cs a.
Proof.
  assert (∀ t x, t !! Attachment.id a = None → used cs (<[Attachment.id a := x]> t) = weight cs x + used cs t) as Hnew.
  { intros t' x Hx. unfold used, rows. rewrite (map_to_list_insert t' _ x Hx). done. }
  destruct (t !! Attachment.id a) as [b|] eqn:Hb; simpl; [|rewrite Hnew by done; lia].
  assert (t = <[Attachment.id a := b]> (base.delete (Attachment.id a) t)) as Ht by by rewrite insert_delete_id.
  assert (base.delete (Attachment.id a) t !! Attachment.id a = None) as Hd by apply lookup_delete_eq.
  pose proof (Hnew _ b Hd) as H1. rewrite <-Ht in H1. pose proof (Hnew _ a Hd) as H2. rewrite insert_delete_eq in H2. lia.
Qed.
End owner.

(** ** Uploads *)

Section uploads.
Context `{E : Env} `{K : Codecs} `{C : Crypto} `{V : VaultConfig} `{J : JsonText}.
Context `{ST : SessionTokens} `{F : FileStore} `{TF : Jwt FileDownloadClaims.t}.

(** Who a cipher belongs to, for its attachments, and the limit in kilobytes. *)
Definition owner_of (c c' : Cipher.t) : bool :=
  match Cipher.user_uuid c with
  | Some v => Cipher.user_uuid c' == Some v
  | None => match Cipher.organization_uuid c with Some o => Cipher.organization_uuid c' == Some o | None => false end
  end.
Definition owner_limit (c : Cipher.t) : option Z :=
  match Cipher.user_uuid c with Some _ => user_attachment_limit | None => org_attachment_limit end.
(** The total that the limit is compared with. *)
Definition vault_size (c : Cipher.t) (d : DB) : Z :=
  match Cipher.user_uuid c with
  | Some v => Attachment_size_by_user v d
  | None => match Cipher.organization_uuid c with Some o => Attachment_size_by_org o d | None => 0 end
  end.

(** Stored sizes are not negative, as the requests check; their sum may be of any
    size. *)
Definition sizes_nonneg (d : DB) : Prop := ∀ a, a ∈ rows (attachments d) → 0 ≤ Attachment.file_size a.
(** What the attachments of the vault of a cipher take, as a number without bound. *)
Definition vault_bytes (c : Cipher.t) (d : DB) : Z := sumZ (Attachment.file_size <$> owned_attachments (owner_of c) d).

Lemma weight_bounds owns cs a : 0 ≤ Attachment.file_size a → 0 ≤ weight owns cs a ≤ Attachment.file_size a.
Proof. unfold weight. intros. destruct (cs !! _) as [c|]; [destruct (owns c)|]; lia. Qed.
Lemma used_nonneg owns cs t : (∀ a, a ∈ rows t → 0 ≤ Attachment.file_size a) → 0 ≤ used owns cs t.
Proof.
  unfold used. induction (rows t) as [|a l IH]; intros Ha; [done|]. rewrite !fmap_cons, !sumZ_cons.
  pose proof (weight_bounds owns cs a (Ha a ltac:(left))). assert (0 ≤ sumZ (weight owns cs <$> l)) by (apply IH; intros; apply Ha; by right). lia.
Qed.

(** The total that the queries answer with: the sum, or the largest number. *)
Lemma vault_size_used c d :
  map_Forall (λ k r, Cipher.uuid r = k) (ciphers d) → is_Some (Cipher.user_uuid c) ∨ is_Some (Cipher.organization_uuid c) →
  0 ≤ used (owner_of c) (ciphers d) (attachments d) →
  vault_size c d = if used (owner_of c) (ciphers d) (attachments d) <? 2 ^ 63 then used (owner_of c) (ciphers d) (attachments d) else 2 ^ 63 - 1.
Proof.
  intros Hk Hown Hu. rewrite <-owned_sum in * by done.
  unfold vault_size, owner_of, Attachment_size_by_user, Attachment_size_by_org, sum_sizes, Attachment_of_user, Attachment_of_org in *.
  destruct (Cipher.user_uuid c) as [v|]; [|destruct (Cipher.organization_uuid c) as [o|]; [|by destruct Hown as [[]|[]]]];
    unfold owned_attachments, sumZ in *;
    rewrite (proj2 (Z.leb_le (- 2 ^ 63) _)) by lia; reflexivity.
Qed.

Lemma size_left_Some kb usd adj l :
  size_left kb usd adj = Some l → l = kb * 1024 - usd + adj ∧ kb * 1024 < 2 ^ 63.
Proof.
  unfold size_left, checked_i64. intros H.
  repeat (case_match; simplify_eq/=; []). bools. rewrite Z.ltb_lt in *. lia.
Qed.

Lemma limit_for_Ok limit usd adj d o d' :
  limit_for limit usd adj d = (Ok o, d') →
  d' = d ∧ ∀ kb, limit = Some kb → ∃ l, o = Some l ∧ l = kb * 1024 - usd d + adj ∧ kb * 1024 < 2 ^ 63.
Proof.
  intros Hr. unfold limit_for in Hr. destruct limit as [kb|]; [|by apply ret_Ok in Hr as [-> ->]].
  destruct (kb =? 0); [done|]. rewrite run_gets in Hr. apply bind_Ok in Hr as (l & d1 & [Hl ->]%some_or_Ok & Hr).
  destruct (l <=? 0); [done|]. apply ret_Ok in Hr as [-> ->]. split; [done|]. intros ? [= <-].
  apply size_left_Some in Hl. naive_solver.
Qed.

Lemma or_panic_Ok {A} (m : M DB A) msg d a d' : or_panic m msg d = (Ok a, d') → m d = (Ok a, d').
Proof.
  unfold or_panic. intros Hr. apply bind_Ok in Hr as (r & d1 & Hm%answer_Ok & Hr). destruct r; [|done].
  by apply ret_Ok in Hr as [-> ->].
Qed.

(** The row that an accepted upload leaves. *)
Definition uploaded (draws : VaultDraws) (oa : option Attachment.t) (uuid : string) (size : Z) (a : Attachment.t) : Prop :=
  Attachment.cipher_uuid a = uuid ∧ Attachment.file_size a = size
  ∧ Attachment.id a = match oa with Some b => Attachment.id b | None => new_attachment_id draws end.

Lemma record_upload_Ok draws oa uuid data size d d' :
  match oa with Some a => attachments d !! Attachment.id a = Some a ∧ Attachment.cipher_uuid a = uuid | None => True end →
  record_upload draws oa uuid data size d = (Ok (), d') →
  ciphers d' = ciphers d ∧ ∃ a, uploaded draws oa uuid size a ∧ attachments d' = <[Attachment.id a := a]> (attachments d).
Proof.
  intros Hoa Hr. unfold record_upload in Hr. destruct oa as [a|].
  - destruct Hoa as [Hst Hc]. apply bind_Ok in Hr as (mx & d1 & [_ ->]%some_or_Ok & Hr).
    apply bind_Ok in Hr as (mn & d2 & [_ ->]%some_or_Ok & Hr). destruct (_ && _).
    + destruct (Z.eqb_spec size (Attachment.file_size a)) as [->|Hne]; simpl in Hr.
      * apply ret_Ok in Hr as [_ ->]. split; [done|]. exists a. split; [done|]. by rewrite insert_id.
      * apply or_panic_Ok in Hr. unfold Attachment_save, save_row in Hr. destruct (has _ _); [|done]. injection Hr as <-.
        split; [done|]. exists (Attachment.set_file_size (λ _, size) a). done.
    + apply bind_Ok in Hr as (? & ? & _ & Hr). done.
  - destruct (UploadData.raw_name data) as [n|]; [|done]. destruct (UploadData.key data) as [k|]; [|done].
    apply or_panic_Ok in Hr. unfold Attachment_save, save_row in Hr. destruct (has _ _); [|done]. injection Hr as <-.
    split; [done|]. by exists (Attachment_new (new_attachment_id draws) uuid n size (Some k)).
Qed.

(** The real size is within the leeway of the announced one. *)
Lemma record_upload_near draws a uuid data size d d' :
  record_upload draws (Some a) uuid data size d = (Ok (), d') → Attachment.file_size a - LEEWAY ≤ size.
Proof.
  intros Hr. unfold record_upload in Hr. apply bind_Ok in Hr as (mx & d1 & [_ ->]%some_or_Ok & Hr).
  apply bind_Ok in Hr as (mn & d2 & [Hmn ->]%some_or_Ok & Hr). unfold checked_i64 in Hmn. destruct (_ && _) in Hmn; [|done]. injection Hmn as <-.
  destruct (Z.leb_spec (Attachment.file_size a - LEEWAY) size); [done|]. simpl in Hr. by apply bind_Ok in Hr as (? & ? & _ & Hr).
Qed.

Lemma keyed_find d uuid c : vault_keyed d → Cipher_find_by_uuid uuid d = Some c → ciphers d !! uuid = Some c.
Proof.
  intros Hk. unfold Cipher_find_by_uuid, first. intros [(k & Hc)%elem_of_rows Hu]%head_Some_elem%elem_of_where. bools. subst uuid.
  by rewrite (vk_ciphers _ Hk _ _ Hc).
Qed.

Lemma owner_of_self c : is_Some (Cipher.user_uuid c) ∨ is_Some (Cipher.organization_uuid c) → owner_of c c = true.
Proof.
  unfold owner_of. intros Hown. destruct (Cipher.user_uuid c); [by apply bool_decide_true|].
  destruct (Cipher.organization_uuid c); [by apply bool_decide_true|by destruct Hown as [[]|[]]].
Qed.
(** The answer of an upload is the cipher that it was for. *)
Lemma save_attachment_cipher draws oa uuid data h d c c' d' :
  save_attachment draws oa uuid data h d = (Ok c', d') → Cipher_find_by_uuid uuid d = Some c → c' = c.
Proof.
  intros Hr Hc. unfold save_attachment in Hr. apply bind_Ok in Hr as (size & d1 & [_ ->]%some_or_Ok & Hr).
  destruct (size <? 0); [done|]. rewrite run_gets in Hr. apply bind_Ok in Hr as (c0 & d1 & [Hc0 ->]%some_or_Ok & Hr).
  rewrite run_gets in Hr. destruct (negb _); [done|]. apply bind_Ok in Hr as (lim & d1 & _ & Hr).
  destruct (match lim with Some l => l <? size | None => false end); [done|].
  do 3 (apply bind_Ok in Hr as (? & ? & _ & Hr)). apply ret_Ok in Hr as [-> _]. congruence.
Qed.

Lemma save_attachment_within draws oa uuid data h d c d' :
  vault_keyed d → sizes_nonneg d →
  match oa with
  | Some a => attachments d !! Attachment.id a = Some a ∧ Attachment.cipher_uuid a = uuid
  | None => attachments d !! new_attachment_id draws = None
  end →
  save_attachment draws oa uuid data h d = (Ok c, d') →
  ∀ kb, owner_limit c = Some kb → match oa with Some _ => kb * 1024 < 2 ^ 63 - 1 - LEEWAY | None => True end → vault_bytes c d' ≤ kb * 1024.
Proof.
  intros Hk Hpos Hoa Hr kb Hkb Hmax. unfold save_attachment in Hr.
  apply bind_Ok in Hr as (size & d1 & [_ ->]%some_or_Ok & Hr). destruct (Z.ltb_spec size 0); [done|].
  rewrite run_gets in Hr. apply bind_Ok in Hr as (c0 & d1 & [Hc ->]%some_or_Ok & Hr). rewrite run_gets in Hr.
  destruct (Cipher_is_write_accessible_to_user c0 _ d); [|done]. cbn [negb] in Hr.
  set (adj := match oa with None => 0 | Some a => Attachment.file_size a end) in Hr.
  apply bind_Ok in Hr as (lim & d1 & Hlim & Hr).
  assert (d1 = d ∧ (is_Some (Cipher.user_uuid c0) ∨ is_Some (Cipher.organization_uuid c0))
    ∧ ∀ kb, owner_limit c0 = Some kb → ∃ l, lim = Some l ∧ l = kb * 1024 - vault_size c0 d + adj ∧ kb * 1024 < 2 ^ 63)
    as (-> & Hown & Hl).
  { unfold owner_limit, vault_size. destruct (Cipher.user_uuid c0) as [v|]; [apply limit_for_Ok in Hlim as [-> ?]; eauto|].
    destruct (Cipher.organization_uuid c0) as [o|]; [apply limit_for_Ok in Hlim as [-> ?]; eauto|done]. }
  destruct (match lim with Some l => l <? size | None => false end) eqn:Hle; [done|].
  apply bind_Ok in Hr as ([] & d2 & Hrec & Hr).
  assert (Hlow : adj - LEEWAY ≤ size ∨ oa = None) by (destruct oa; [left; by eapply record_upload_near|by right]).
  apply record_upload_Ok in Hrec as (Hci & a & (Ha1 & Ha2 & Ha3) & Hat); [|by destruct oa].
  apply bind_Ok in Hr as ([] & d3 & [_ ->]%lift_Ok & Hr). apply bind_Ok in Hr as (us & d4 & Hus & Hr).
  apply ret_Ok in Hr as [-> ->].
  assert ((ciphers d4, attachments d4) = (ciphers d2, attachments d2)) as [= Hci2 Hat2].
  { eapply (same_part (λ d, (ciphers d, attachments d))); [|exact Hus].
    unfold Cipher_update_users_revision, User_update_uuid_revision. by db_keeps. }
  rewrite Hci in Hci2. rewrite Hat in Hat2. destruct (Hl kb Hkb) as (l & -> & Hll & Hkb2). apply Z.ltb_ge in Hle.
  apply (keyed_find _ _ _ Hk) in Hc. assert (owner_of c0 c0 = true) as Hself by by apply owner_of_self.
  assert (weight (owner_of c0) (ciphers d) a = size) as Hwa. { unfold weight. by rewrite Ha1, Hc, Hself. }
  assert (from_option (weight (owner_of c0) (ciphers d)) 0 (attachments d !! Attachment.id a) = adj) as Hwo.
  { rewrite Ha3. destruct oa as [b|]; [|by rewrite Hoa]. destruct Hoa as [-> Hbc]. simpl. unfold weight. by rewrite Hbc, Hc, Hself. }
  pose proof (used_nonneg (owner_of c0) (ciphers d) (attachments d) Hpos) as Hb.
  pose proof (used_insert (owner_of c0) (ciphers d) (attachments d) a) as Hins. rewrite Hwa, Hwo in Hins.
  rewrite (vault_size_used c0 d) in Hll; [|apply vk_ciphers, Hk|done|done].
  unfold vault_bytes. rewrite owned_sum by (rewrite Hci2; apply vk_ciphers, Hk). rewrite Hci2, Hat2, Hins.
  destruct (Z.ltb_spec (used (owner_of c0) (ciphers d) (attachments d)) (2 ^ 63)) as [|Hbig]; [lia|].
  destruct oa as [b|]; [destruct Hlow as [Hlow|]; [lia|done]|]. unfold adj in *. lia.
Qed.

(** C23. An accepted upload keeps a vault within its storage limit: after the
    request, on either version of the interface, the attachments of the vault
    of the cipher (of its account, or of its organization) take at most the
    configured number of kilobytes, whatever sizes were announced before, also when
    their sum exceeds the range of the column and the query answers with the
    largest number. For an announced attachment the limit has to be more than one
    mebibyte below 2^63 bytes. *)
Theorem uploads_respect_quota (draws : VaultDraws) (uuid id : string) (data : UploadData.t) (h : Headers.t) (d d' : DB) (c : Cipher.t) :
  vault_keyed d → sizes_nonneg d → attachments d !! new_attachment_id draws = None →
  Cipher_find_by_uuid uuid d = Some c →
  (∃ j, post_attachment draws uuid data h d = (Ok j, d')) ∨ post_attachment_v2_data draws uuid id data h d = (Ok (), d') →
  ∀ kb, owner_limit c = Some kb → kb * 1024 < 2 ^ 63 - 1 - LEEWAY → vault_bytes c d' ≤ kb * 1024.
Proof.
  intros Hk Hs Hnew Hc [[j Hr]|Hr] kb Hkb Hmax.
  - unfold post_attachment in Hr. apply bind_Ok in Hr as (c' & d1 & Hsave & [_ ->]%render_Ok).
    assert (c' = c) as -> by (eapply save_attachment_cipher; eauto). by eapply (save_attachment_within _ None).
  - unfold post_attachment_v2_data in Hr. rewrite run_gets in Hr. destruct (Attachment_find_by_id id d) as [a|] eqn:Ha; [|done].
    apply found_attachment in Ha as (k & Ha)%elem_of_rows. pose proof (vk_attachments _ Hk _ _ Ha) as Hid. simpl in Hid. subst k.
    case_bool_decide as Hcu; [|done]. apply bind_Ok in Hr as (c' & d1 & Hsave & [_ ->]%ret_Ok).
    assert (c' = c) as -> by (eapply save_attachment_cipher; eauto). by eapply (save_attachment_within _ (Some a)).
Qed.

(** ** Sizes that cannot be shown *)

Lemma attachments_json_fails l a :
  a ∈ l → 2 ^ 60 + 128 < Attachment.file_size a < 2 ^ 63 → ∃ e, attachments_json l = Err e.
Proof.
  intros Ha Hn. assert (Hj : ∃ e, Attachment_to_json host a = Err e).
  { pose proof (display_size_ok_iff (Attachment.file_size a) ltac:(lia)) as Hs.
    replace (Attachment.file_size a <=? 2 ^ 60 + 128) with false in Hs by (symmetry; apply Z.leb_gt; lia).
    unfold Attachment_to_json. destruct (Attachment_get_url host a); [|eauto].
    destruct (get_display_size _); [done|eauto]. }
  induction l as [|b l IH]; [by apply not_elem_of_nil in Ha|]. simpl.
  apply elem_of_cons in Ha as [<-|Ha]; [by destruct Hj as [e ->]; eauto|].
  destruct (Attachment_to_json host b); [|eauto]. destruct (IH Ha) as [e ->]. eauto.
Qed.

Lemma to_json_fails c v sd t d a :
  a ∈ match sd with
      | Some sd => default [] (CipherSyncData.cipher_attachments sd !! Cipher.uuid c)
      | None => Attachment_find_by_cipher (Cipher.uuid c) d
      end →
  2 ^ 60 + 128 < Attachment.file_size a < 2 ^ 63 → ∃ e, Cipher_to_json c v sd t d = Err e.
Proof.
  intros Ha Hn. destruct (attachments_json_fails _ a Ha Hn) as [e He]. exists e. unfold Cipher_to_json. by rewrite He.
Qed.

Lemma render_all_fails sd v l c d :
  c ∈ l → (∃ e, Cipher_to_json c v (Some sd) SyncUser d = Err e) → ∃ e d', render_all sd v l d = (Err e, d').
Proof.
  intros Hc [e He]. induction l as [|b l IH]; [by apply not_elem_of_nil in Hc|]. simpl. rewrite run_gets.
  apply elem_of_cons in Hc as [<-|Hc]; [rewrite He; eauto|].
  destruct (Cipher_to_json b v (Some sd) SyncUser d) as [j|e']; [|eauto]. destruct (IH Hc) as (e' & d' & Hr).
  exists e', d'. rewrite (run_bind_Ok _ _ _ j d) by done. by rewrite (run_bind_Err _ _ _ e' d').
Qed.

(** Who reads the attachments of a cipher in a sync. *)
Definition reads_cipher (v : string) (c : Cipher.t) (d : DB) : Prop :=
  c ∈ Cipher_find_by_user_visible v d ∧ c ∈ rows (ciphers d) ∧ Cipher.atype c ≠ 5
  ∧ (Cipher.user_uuid c = Some v ∨ ∃ o, Cipher.organization_uuid c = Some o ∧ o ∈ Membership_get_orgs_by_user v d).

Lemma sync_fails v ver h c a d :
  User.uuid (Headers.user h) = v → reads_cipher v c d → a ∈ rows (attachments d) →
  Attachment.cipher_uuid a = Cipher.uuid c → 2 ^ 60 + 128 < Attachment.file_size a < 2 ^ 63 →
  ∃ e d', sync ver h d = (Err e, d').
Proof.
  intros <- (Hvis & Hrow & Hty & Hown) Ha Hca Hn. unfold sync. rewrite !run_gets.
  set (l := if _ : bool then _ else _). assert (c ∈ l) as Hl.
  { unfold l. destruct (match ver with Some v => shows_ssh_keys v | None => false end); [done|].
    apply elem_of_where. split; [done|]. by apply negb_true_iff, Z.eqb_neq. }
  destruct (render_all_fails (CipherSyncData_new (User.uuid (Headers.user h)) SyncUser d) (User.uuid (Headers.user h)) l c d Hl)
    as (e & d' & Hr); [|exists e, d'; by rewrite (run_bind_Err _ _ _ e d')].
  apply (to_json_fails _ _ _ _ _ a); [|done]. apply collect_vecs_elem, list_elem_of_fmap. exists a. split; [by rewrite Hca|].
  apply list_elem_of_fmap. exists (a, Some c). split; [done|]. apply elem_of_where. split.
  - apply elem_of_left_join. split_and!; [done..|]. by apply bool_decide_eq_true.
  - simpl. apply orb_true_iff. destruct Hown as [->|(o & -> & Ho)]; [left; by apply bool_decide_eq_true|].
    right. by apply bool_decide_eq_true.
Qed.

(** The announced size of an attachment is only checked not to be negative,
    and it is stored before it is rendered. Beyond 1024 petabytes the name of a
    size panics, so that one announcement by a member who can write a shared
    cipher makes the answer fail, and from then on every sync of every member
    who sees the cipher, and every request that reads it. *)
Theorem huge_announcement_blocks_vaults (draws : VaultDraws) (id : string) (data : AttachmentRequestData.t) (h : Headers.t)
    (c : Cipher.t) (n : Z) (d : DB) :
  Cipher_find_by_uuid id d = Some c → has (ciphers d) (Cipher.uuid c) = true →
  Cipher_is_write_accessible_to_user c (User.uuid (Headers.user h)) d = true →
  NumberOrString_into_i64 (AttachmentRequestData.file_size data) = Ok n → 2 ^ 60 + 128 < n < 2 ^ 63 →
  ∃ e d', post_attachment_v2 draws id data h d = (Err e, d')
  ∧ (∀ (v : Headers.t) ver, reads_cipher (User.uuid (Headers.user v)) c d → ∃ e d'', sync ver v d' = (Err e, d''))
  ∧ ∀ v : Headers.t, ∃ e d'', get_cipher id v d' = (Err e, d'').
Proof.
  intros Hc Hhas Hw Hsize Hn. unfold post_attachment_v2. rewrite run_gets, Hc. cbn [some_or]. rewrite run_ret, run_gets, Hw.
  cbn [negb]. rewrite (run_bind_Ok _ _ _ n d) by by rewrite Hsize.
  destruct (Z.ltb_spec n 0); [lia|]. set (a := Attachment_new _ _ _ n _). set (d' := set_attachments <[Attachment.id a := a]> d).
  assert (Hsave : or_panic (Attachment_save a) "Error saving attachment" d = (Ok (), d')).
  { unfold or_panic, Attachment_save, save_row, answer, mbind, M_bind. simpl. by rewrite Hhas. }
  rewrite (run_bind_Ok _ _ _ _ _ Hsave).
  assert (Ha : a ∈ rows (attachments d')) by (apply elem_of_rows; exists (Attachment.id a); apply lookup_insert_eq).
  assert (Hj : ∀ v t, ∃ e, Cipher_to_json c v None t d' = Err e).
  { intros v t. apply (to_json_fails _ _ None _ _ a); [|done]. apply elem_of_where. split; [done|]. by apply bool_decide_eq_true. }
  destruct (Hj (User.uuid (Headers.user h)) SyncUser) as [e He]. exists e, d'. split_and!.
  - rewrite (run_bind_Err _ _ _ e d'); [done|]. unfold render. rewrite run_gets, He. done.
  - intros v ver Hv. by eapply (sync_fails _ ver v c a d').
  - intros v. unfold get_cipher. rewrite run_gets. change (Cipher_find_by_uuid id d') with (Cipher_find_by_uuid id d).
    rewrite Hc. cbn [some_or]. rewrite run_ret, run_gets. destruct (negb _); [eauto|].
    destruct (Hj (User.uuid (Headers.user v)) SyncUser) as [e' He']. exists e', d'. unfold render. by rewrite run_gets, He'.
Qed.
End uploads.

Import SampleVault.
(** Bob uploads to his own cipher, within the kilobyte that he has. *)
Definition upload (n : Z) : UploadData.t := UploadData.mk (Some "2.key") n (Some "2.name").

Lemma uploads_respect_quota_witness :
  (∃ e d', post_attachment draws "k2" (upload 1025) (session "bob") db = (Err e, d'))
  ∧ vault_bytes Sample.k2 (post_attachment draws "k2" (upload 1024) (session "bob") db).2 ≤ 1 * 1024.
Proof.
  split; [do 2 eexists; vm_compute; reflexivity|].
  destruct (post_attachment draws "k2" (upload 1024) (session "bob") db) as [[j|e] d'] eqn:Hr; [|vm_compute in Hr; discriminate Hr].
  apply (uploads_respect_quota draws "k2" "" (upload 1024) (session "bob") db d' Sample.k2).
  - exact sample_keyed.
  - assert (Forall (λ a, 0 ≤ Attachment.file_size a) (rows (attachments db))) as Hall
      by (apply (bool_decide_unpack _); vm_compute; done).
    rewrite Forall_forall in Hall. exact Hall.
  - vm_compute. reflexivity.
  - vm_compute. reflexivity.
  - left. exists j. exact Hr.
  - reflexivity.
  - vm_compute. reflexivity.
Defined.

(** Alice, who owns the organization, announces an attachment of the shared
    cipher k1; Bob can no longer sync. *)
Lemma huge_announcement_blocks_vaults_witness :
  ∃ e d', post_attachment_v2 draws "k1" (AttachmentRequestData.mk "2.k" "2.n" (Number (2 ^ 62)) None) (session "alice") db = (Err e, d')
  ∧ ∃ e d'', sync None (session "bob") d' = (Err e, d'').
Proof.
  destruct (huge_announcement_blocks_vaults draws "k1" (AttachmentRequestData.mk "2.k" "2.n" (Number (2 ^ 62)) None)
    (session "alice") Sample.k1 (2 ^ 62) db) as (e & d' & Hr & Hs & _).
  - vm_compute. reflexivity.
  - vm_compute. reflexivity.
  - vm_compute. reflexivity.
  - reflexivity.
  - lia.
  - exists e, d'. split; [exact Hr|]. apply Hs. split_and!.
    + apply (bool_decide_unpack _). vm_compute. exact I.
    + apply (bool_decide_unpack _). vm_compute. exact I.
    + intros Hk. vm_compute in Hk. discriminate Hk.
    + right. exists (default "" (Cipher.organization_uuid Sample.k1)). split; [reflexivity|].
      apply (bool_decide_unpack _). vm_compute. exact I.
Defined.
