(* ===== verification/SendAccess.v ===== *)
(** Who opens and who changes a Send.

    Theorems on the handlers of SendRequests.v and on the token of a Send
    (Identity.v): what it takes to open a Send, that a Send is only changed and
    removed by its owner, that the link shown to the owner opens it, and how far
    the storage limit holds. *)
From stdpp Require Import pretty.
From S2P Require Import Prelude Schema Roles Users Json Invariants Samples TwoFactors OneTimeCodes Sends EmergencyRows Memberships Groups Collections Guards VaultItems Ciphers Policies Organizations Emergency Members Accounts Tokens SingleSignOn Identity Downloads Vault VaultAccess Quotas SendRequests.
Local Open Scope Z_scope.

(** ** Opening a Send *)

Section opening.
Context `{E : Env} `{C : Crypto} `{J : JsonText} `{ST : SessionTokens} `{F : FileStore}.
Context `{TB : Jwt BasicJwtClaims.t} `{SC : SendConfig}.

(** What a visitor needs. *)
Definition may_open (s : Send.t) (password : option string) : Prop :=
  Send_is_accessible s = true
  ∧ nn (Send.max_access_count s) (λ m, m <=? Send.access_count s) = false
  ∧ (Send.password_hash s = None ∨ ∃ p, password = Some p ∧ Send_check_password s p = true).

Lemma found_send uuid d s : wf d → Send_find_by_uuid uuid d = Some s → Send.uuid s = uuid ∧ sends d !! uuid = Some s.
Proof.
  intros Hwf [Hs Hu]%head_Some_elem%elem_of_where. bools. subst uuid. split; [done|].
  apply elem_of_rows in Hs as (k & Hs). by rewrite (wf_sends _ Hwf _ _ Hs).
Qed.

(** A counted access: the row was below its limit and is counted. *)
Lemma register_access_true s r s' d d' :
  wf d → sends d !! Send.uuid s = Some r → Send_register_access s d = (Ok (true, s'), d') →
  below_limit (Send.uuid s) r = true ∧ s' = counted s ∧ sends d' = <[Send.uuid s := counted r]> (sends d) ∧ users d' = users (Send_update_users_revision s d).2.
Proof.
  intros Hwf Hr Hrun.
  assert (Hs' : s' = counted s ∧ users d' = users (Send_update_users_revision s d).2).
  { unfold Send_register_access in Hrun. apply bind_Ok in Hrun as (l & d1 & Hu & Hrun). rewrite Hu. simpl.
    rewrite run_gets in Hrun. destruct (existsb _ _); [done|]. rewrite run_modify in Hrun.
    destruct (_ =? 0); [done|]. by injection Hrun as <- <-. }
  destruct Hs' as [-> Hus].
  destruct (Z.lt_ge_cases (Send.access_count r) i32_max) as [Hlt|Hge].
  - destruct (register_access_spec d s r Hwf Hr (λ _, Hlt)) as (s' & d1 & H1 & H2 & _). rewrite Hrun in H1.
    destruct (below_limit (Send.uuid s) r); [|done]. injection H1 as <- <-. by split_and!.
  - destruct (below_limit (Send.uuid s) r) eqn:Hbl; exfalso; unfold Send_register_access in Hrun;
      destruct (update_users_revision_run s d) as (l & d1 & Hu & Hs1 & _);
      rewrite (run_bind_Ok _ _ _ _ _ Hu), run_gets, Hs1 in Hrun.
    + replace (existsb _ _) with true in Hrun; [done|]. symmetry. apply existsb_elem. exists r.
      split; [apply elem_of_where; split; [apply elem_of_rows; eauto|done]|by apply Z.leb_le].
    + replace (where_ (below_limit (Send.uuid s)) (rows (sends d))) with (@nil Send.t) in Hrun; [done|].
      symmetry. apply elem_of_nil_inv. intros b [Hb Hbl']%elem_of_where.
      rewrite (below_limit_unique d (Send.uuid s) r b Hwf Hr Hb Hbl') in Hbl'. congruence.
Qed.

Lemma check_legacy_access_Ok wrong password o s d d' :
  check_legacy_access wrong password o d = (Ok s, d') → o = Some s ∧ d' = d ∧ may_open s password.
Proof.
  unfold check_legacy_access, may_open. destruct o as [s0|]; [|done].
  destruct (nn (Send.max_access_count s0) _) eqn:Hmax; [done|]. destruct (Send_is_accessible s0) eqn:Hacc; [|done]. simpl.
  case_bool_decide as Hpw.
  - destruct password as [p|]; [|done]. destruct (Send_check_password s0 p) eqn:Hc; [|done]. intros [= -> ->]. eauto 10.
  - intros [= -> ->]. split_and!; [done..|]. left. by apply eq_None_not_Some.
Qed.

Lemma count_access_Ok s r s' d d' :
  wf d → sends d !! Send.uuid s = Some r → count_access s d = (Ok s', d') →
  s' = counted s ∧ sends d' = <[Send.uuid s := counted r]> (sends d).
Proof.
  intros Hwf Hr Hrun. unfold count_access in Hrun. apply bind_Ok in Hrun as ([b s1] & d1 & Hreg & Hrun).
  destruct b; [|done]. injection Hrun as -> ->. apply (register_access_true s r) in Hreg as (_ & ? & ? & _); done.
Qed.

Lemma revision_sends s d : sends (Send_update_users_revision s d).2 = sends d.
Proof. unfold Send_update_users_revision. by destruct (Send.user_uuid s). Qed.

Lemma process_access_Ok s d j d' : process_access s d = (Ok j, d') → sends d' = sends d ∧ j = Send_to_json_access s d'.
Proof.
  unfold process_access. intros Hrun. apply bind_Ok in Hrun as (l & d1 & Hu & [<- ->]%gets_Ok). split; [|done].
  by rewrite <-(revision_sends s d), Hu.
Qed.
(** The answer is the link to this file of the Send. *)
Definition file_answer (host fid : string) (s : Send.t) (j : Json) : Prop :=
  ∃ url, download_url host (Send.uuid s) fid = Ok url
    ∧ j = json_object [("object", JsString "send-fileDownload"); ("id", JsString fid); ("url", JsString url)]%string.
Lemma process_access_file_Ok host fid s d j d' : process_access_file host fid s d = (Ok j, d') → sends d' = sends d ∧ file_answer host fid s j.
Proof.
  unfold process_access_file. intros Hrun. apply bind_Ok in Hrun as (l & d1 & Hu & Hrun).
  apply bind_Ok in Hrun as (url & d2 & [Hurl ->]%lift_Ok & [-> ->]%ret_Ok). split; [by rewrite <-(revision_sends s d), Hu|]. by exists url.
Qed.
Lemma Send_save_Ok s d s' d' :
  Send_save s d = (Ok s', d') →
  s' = Send.set_revision_date (λ _, now) s ∧ sends d' = <[Send.uuid s := s']> (sends d).
Proof.
  unfold Send_save. intros Hrun. apply bind_Ok in Hrun as (l & d1 & Hu & Hrun).
  apply bind_Ok in Hrun as ([] & d2 & Hsave & [-> ->]%ret_Ok). split; [done|].
  unfold save_row in Hsave. destruct (_ && _); [|done]. injection Hsave as <-. simpl. by rewrite <-(revision_sends s d), Hu.
Qed.

(** C24. A Send is only opened to those who may. By its link and by the older
    request for its file it opens within its dates, below its limit and with its
    password, and each of them is counted, exactly once, except looking at a file
    without downloading it. Newer clients ask for a token: it is issued under the
    same conditions and counted once. With a token the Send and the links to its
    files are then shown as long as the Send is within its dates, without the
    password and without being counted again. *)
Theorem sends_open_to_the_entitled (aid sid fid addr ip : string) (password : option string) (d d' : DB) (Hwf : wf d) :
  (∀ j, post_access_legacy aid password ip d = (Ok j, d') →
    ∃ s, Send_find_by_access_id aid d = Some s ∧ may_open s password
    ∧ let s' := if Send.atype s =? 0 then counted s else Send.set_revision_date (λ _, now) s in
      sends d' = <[Send.uuid s := s']> (sends d) ∧ j = Send_to_json_access s' d')
  ∧ (∀ j, post_access_file_legacy addr sid fid password ip d = (Ok j, d') →
    ∃ s, Send_find_by_uuid sid d = Some s ∧ may_open s password ∧ sends d' = <[Send.uuid s := counted s]> (sends d)
      ∧ file_answer addr fid (counted s) j)
  ∧ (∀ id, generate_tokens aid password d = (Ok id, d') →
    ∃ s, Send_find_by_access_id aid d = Some s ∧ Send.uuid s = id ∧ may_open s password
    ∧ sends d' = <[id := counted s]> (sends d))
  ∧ (∀ j, post_access sid d = (Ok j, d') →
    ∃ s, Send_find_by_uuid sid d = Some s ∧ Send_is_accessible s = true ∧ sends d' = sends d ∧ j = Send_to_json_access s d')
  ∧ (∀ j, post_access_file addr sid fid d = (Ok j, d') →
    ∃ s, Send_find_by_uuid sid d = Some s ∧ Send_is_accessible s = true ∧ sends d' = sends d ∧ file_answer addr fid s j).
Proof.
  split_and!.
  - intros j Hrun. unfold post_access_legacy in Hrun. run_step Hrun. run_step Hrun0. rewrite run_gets in Hrun.
    apply bind_Ok in Hrun as (s & d1 & (Ho & -> & Hmay)%check_legacy_access_Ok & Hrun). exists s. split_and!; [done..|].
    unfold Send_find_by_access_id in Ho. destruct (as_send_id aid) as [u|]; [|done].
    apply found_send in Ho as [Hu Hs]; [|done]. rewrite <-Hu in Hs. apply bind_Ok in Hrun as (s' & d1 & Hsave & Hrun).
    apply process_access_Ok in Hrun as [Hd' Hj]. change (SendType_as_i32 SendText) with 0 in Hsave. destruct (Send.atype s =? 0).
    + apply (count_access_Ok s s) in Hsave as [-> Hd1]; [|done..]. split; [congruence|done].
    + apply Send_save_Ok in Hsave as [-> Hd1]. split; [congruence|done].
  - intros j Hrun. unfold post_access_file_legacy in Hrun. run_step Hrun. run_step Hrun0. rewrite run_gets in Hrun.
    apply bind_Ok in Hrun as (s & d1 & (Ho & -> & Hmay)%check_legacy_access_Ok & Hrun). exists s. split; [done|]. split; [done|].
    apply found_send in Ho as [Hu Hs]; [|done]. rewrite <-Hu in Hs. apply bind_Ok in Hrun as (s' & d1 & Hcount & Hrun).
    apply process_access_file_Ok in Hrun as [Hd' Hj]. apply (count_access_Ok s s) in Hcount as [-> Hd1]; [|done..]. split; [congruence|done].
  - intros id Hrun. unfold generate_tokens in Hrun. unfold Send_find_by_access_id. destruct (as_send_id aid) as [u|]; [|done].
    rewrite run_gets in Hrun. destruct (Send_find_by_uuid u d) as [s|] eqn:Ho; [|done]. exists s.
    apply found_send in Ho as [Hu Hs]; [|done].
    destruct (nn (Send.max_access_count s) _) eqn:Hmax; [done|]. destruct (Send_is_accessible s) eqn:Hacc; [|done]. simpl in Hrun.
    apply bind_Ok in Hrun as ([] & d1 & Hpw & Hrun).
    assert (d1 = d ∧ may_open s password) as [-> Hmay].
    { unfold may_open. case_bool_decide as Hh.
      - destruct password as [p|]; [|done]. destruct (Send_check_password s p) eqn:Hc; [|done]. injection Hpw as <-. eauto 10.
      - injection Hpw as <-. split_and!; [done..|]. left. by apply eq_None_not_Some. }
    apply bind_Ok in Hrun as ([b s1] & d1 & Hreg & Hrun). destruct b; [|done]. injection Hrun as <- <-.
    rewrite <-Hu in Hs. apply (register_access_true s s) in Hreg as (_ & _ & Hd1 & _); [|done..]. rewrite <-Hu. by split_and!.
  - intros j Hrun. unfold post_access, accessible_send in Hrun. apply bind_Ok in Hrun as (s & d1 & Hacc & Hrun).
    rewrite run_gets in Hacc. destruct (Send_find_by_uuid sid d) as [s0|] eqn:Ho; [|done].
    destruct (Send_is_accessible s0) eqn:Ha; [|done]. injection Hacc as -> ->. exists s. by apply process_access_Ok in Hrun as [-> ->].
  - intros j Hrun. unfold post_access_file, accessible_send in Hrun. apply bind_Ok in Hrun as (s & d1 & Hacc & Hrun).
    rewrite run_gets in Hacc. destruct (Send_find_by_uuid sid d) as [s0|] eqn:Ho; [|done].
    destruct (Send_is_accessible s0) eqn:Ha; [|done]. injection Hacc as -> ->. exists s. by apply process_access_file_Ok in Hrun as [-> Hj].
Qed.
End opening.

(** ** Changing a Send *)

(** The row as it is after views: more accesses, another revision date. *)
Definition viewed (r r' : Send.t) : Prop :=
  ∃ n t, Send.access_count r ≤ n ∧ r' = Send.set_revision_date (λ _, t) (Send.set_access_count (λ _, n) r).

Lemma viewed_refl r : viewed r r.
Proof. exists (Send.access_count r), (Send.revision_date r). split; [done|]. by destruct r. Qed.
Lemma viewed_date t r r' : viewed r r' → viewed r (Send.set_revision_date (λ _, t) r').
Proof. intros (n & t' & Hn & ->). exists n, t. split; [done|]. by destruct r. Qed.
Lemma viewed_counted `{Env} r r' : viewed r r' → viewed r (counted r').
Proof.
  intros (n & t' & Hn & ->). exists (n + 1), now. split; [lia|]. by destruct r.
Qed.
Lemma viewed_owner r r' : viewed r r' → Send.user_uuid r' = Send.user_uuid r.
Proof. by intros (n & t & _ & ->). Qed.
Lemma viewed_uuid r r' : viewed r r' → Send.uuid r' = Send.uuid r.
Proof. by intros (n & t & _ & ->). Qed.

Section ownership.
Context `{E : Env} `{C : Crypto} `{J : JsonText} `{P : PolicyJson} `{ST : SessionTokens} `{F : FileStore}.
Context `{TB : Jwt BasicJwtClaims.t} `{SC : SendConfig}.
(** The account whose Sends are watched, and the first state. *)
Context (u : string) (d0 : DB).

(** A row that may be stored: a Send of [u] has only been viewed. *)
Definition fine (s : Send.t) : Prop :=
  ∀ r, sends d0 !! Send.uuid s = Some r → Send.user_uuid r = Some u → viewed r s.
Record Kept (d : DB) : Prop := {
  kept_keyed : map_Forall (λ k r, Send.uuid r = k) (sends d);
  kept_fine : ∀ s, s ∈ rows (sends d) → fine s;
  kept_there : ∀ id r, sends d0 !! id = Some r → Send.user_uuid r = Some u → is_Some (sends d !! id);
}.
Notation keeps_sends m := (keeps (preserves Kept) m).

Lemma kept_same {A} (m : M DB A) : keeps (same_on sends) m → keeps_sends m.
Proof.
  intros Hm d [H1 H2 H3]. specialize (Hm d). unfold same_on in Hm. constructor; by rewrite Hm.
Qed.
Lemma kept_revision s : keeps_sends (Send_update_users_revision s).
Proof. apply kept_same. unfold Send_update_users_revision, User_update_uuid_revision. by db_keeps. Qed.

(** Rows that are not [u]'s stay so under the same id. *)
Lemma fine_other s s' : fine s → Send.user_uuid s ≠ Some u → Send.uuid s' = Send.uuid s → fine s'.
Proof. intros Hs Hu Hid r Hr Hru. rewrite Hid in Hr. specialize (Hs r Hr Hru). apply viewed_owner in Hs. congruence. Qed.

Lemma kept_put s : fine s → ∀ d, Kept d → Kept (set_sends <[Send.uuid s := s]> d).
Proof.
  intros Hs d [H1 H2 H3]. constructor; simpl.
  - apply map_Forall_insert_2; done.
  - intros r (k & Hr)%elem_of_rows. destruct (decide (k = Send.uuid s)) as [->|Hk].
    + rewrite lookup_insert_eq in Hr. by injection Hr as <-.
    + rewrite lookup_insert_ne in Hr by done. apply H2, elem_of_rows. eauto.
  - intros id r Hr Hu. destruct (decide (id = Send.uuid s)) as [->|Hk]; [by rewrite lookup_insert_eq|].
    rewrite lookup_insert_ne by done. eauto.
Qed.
Lemma kept_Send_save s : fine s → keeps_sends (Send_save s).
Proof.
  intros Hs. unfold Send_save. apply keeps_bind; [apply _|apply kept_revision|intros _].
  apply keeps_bind; [apply _| |intros; db_keeps]. apply keeps_save_row; [apply _|]. intros d Hd.
  apply (kept_put (Send.set_revision_date (λ _, now) s)); [|done]. intros r Hr Hu. apply viewed_date. by apply Hs.
Qed.
Lemma kept_register s : keeps_sends (Send_register_access s).
Proof.
  unfold Send_register_access. apply keeps_bind; [apply _|apply kept_revision|intros _].
  apply preserves_gets. intros d _. apply keeps_if; [apply keeps_throw; apply _|].
  apply keeps_bind; [apply _| |intros; db_keeps]. apply keeps_modify. intros d1 [H1 H2 H3]. constructor; simpl.
  - intros k r. rewrite lookup_update_where. intros (r0 & Hr & ->)%fmap_Some. apply H1 in Hr. by destruct (below_limit _ r0).
  - intros r (r0 & Hr0 & ->)%elem_of_rows_update. pose proof (H2 r0 Hr0) as Hf. destruct (below_limit _ r0); [|done].
    intros r Hr Hu. apply viewed_counted. by apply Hf.
  - intros id r Hr Hu. rewrite lookup_update_where. by apply fmap_is_Some, (H3 id r).
Qed.
Lemma kept_Send_delete s : fine s → Send.user_uuid s ≠ Some u → keeps_sends (Send_delete s).
Proof.
  intros Hs Hu. unfold Send_delete. apply keeps_bind; [apply _|apply kept_revision|intros _].
  apply keeps_bind; [apply _|db_keeps|intros _]. apply keeps_modify. intros d [H1 H2 H3]. constructor; simpl.
  - by apply keyed_delete_where.
  - intros r [Hr _]%elem_of_rows_delete_where. by apply H2.
  - intros id r Hr Hru. destruct (H3 id r Hr Hru) as [r' Hr']. exists r'. apply lookup_delete_where. split; [done|].
    apply bool_decide_eq_false. intros Hid. pose proof (H1 _ _ Hr') as Hk. simpl in Hk. rewrite Hk in Hid. subst id.
    apply Hu. specialize (Hs r Hr Hru). apply viewed_owner in Hs. congruence.
Qed.

Lemma found_fine uuid d s : Kept d → Send_find_by_uuid uuid d = Some s → fine s.
Proof. intros Hd [Hs _]%head_Some_elem%elem_of_where. by apply (kept_fine d). Qed.
Lemma found_owner_fine uuid v d s :
  Kept d → v ≠ u → Send_find_by_uuid_and_user uuid v d = Some s → fine s ∧ Send.user_uuid s ≠ Some u.
Proof.
  intros Hd Hv [Hs Hu]%head_Some_elem%elem_of_where. bools. split; [by apply (kept_fine d)|congruence].
Qed.

#[local] Hint Resolve kept_revision kept_register : vault.

Lemma kept_count s : keeps_sends (count_access s).
Proof. unfold count_access. db_keeps. Qed.
Lemma kept_access s : keeps_sends (process_access s).
Proof. unfold process_access. db_keeps. Qed.
Lemma kept_access_file addr fid s : keeps_sends (process_access_file addr fid s).
Proof. unfold process_access_file. db_keeps. Qed.
Lemma kept_policy h : keeps_sends (enforce_disable_send_policy h).
Proof. unfold enforce_disable_send_policy. db_keeps. Qed.
Lemma kept_hide data h : keeps_sends (enforce_disable_hide_email_policy data h).
Proof. unfold enforce_disable_hide_email_policy. db_keeps. Qed.
Lemma kept_limit h : keeps_sends (send_size_limit h).
Proof. unfold send_size_limit. db_keeps. Qed.
#[local] Hint Resolve kept_count kept_access kept_access_file kept_policy kept_hide kept_limit : vault.

Lemma read_max_Ok m d a d' : read_max_access_count m d = (Ok a, d') → d' = d.
Proof.
  unfold read_max_access_count. destruct m as [m|]; [|by intros [= <- <-]].
  unfold lift. simpl. destruct (NumberOrString_into_i32 m); [|done]. by intros [= <- <-].
Qed.
Lemma create_send_Ok draws data v d s d' :
  create_send draws data v d = (Ok s, d') →
  d' = d ∧ Send.uuid s = new_send_id draws ∧ Send.user_uuid s = Some v ∧ Send.atype s = SendData.type data.
Proof.
  unfold create_send. intros Hrun. run_step Hrun. assert (s0 = d) as ->.
  { by repeat run_step Hrun0. }
  repeat run_step Hrun. subst. repeat match goal with H : _ _ = (Ok _, _) |- _ => progress run_step H end.
  all: match goal with H : read_max_access_count _ _ = _ |- _ => apply read_max_Ok in H as -> end.
  all: unfold Send_set_password; by destruct (SendData.password data).
Qed.
Lemma kept_create draws data v : keeps_sends (create_send draws data v).
Proof. unfold create_send, read_max_access_count. db_keeps. Qed.
Lemma add_file_Ok fid n s d s' d' :
  add_file fid n s d = (Ok s', d') → Send.uuid s' = Send.uuid s ∧ Send.user_uuid s' = Send.user_uuid s.
Proof. unfold add_file. intros Hrun. do 2 run_step Hrun. by apply ret_Ok in Hrun as [-> ->]. Qed.
Lemma kept_add_file fid n s : keeps_sends (add_file fid n s).
Proof. unfold add_file. db_keeps. Qed.
Lemma kept_save_notify s : fine s → keeps_sends (save_and_notify s).
Proof. intros Hs. unfold save_and_notify. pose proof (kept_Send_save s Hs). db_keeps. Qed.
#[local] Hint Resolve kept_create kept_add_file kept_save_notify kept_Send_save : vault.

Section requests_of_others.
Context (h : Headers.t).
Hypothesis Hv : User.uuid (Headers.user h) ≠ u.

Lemma fine_created draws data v s d d' :
  sends d0 !! new_send_id draws = None → create_send draws data v d = (Ok s, d') → fine s.
Proof. intros Hf (_ & Hid & _)%create_send_Ok r Hr. congruence. Qed.
Lemma fine_file fid n s s' d d' : fine s → add_file fid n s d = (Ok s', d') → Send.user_uuid s ≠ Some u → fine s'.
Proof. intros Hs [Hid _]%add_file_Ok Hu. by eapply fine_other. Qed.

(** A Send that is created and stored by the rest of the handler. *)
Lemma kept_create_then {A} draws data (f : Send.t → M DB A) :
  sends d0 !! new_send_id draws = None →
  (∀ s, fine s → Send.user_uuid s ≠ Some u → keeps_sends (f s)) →
  keeps_sends (create_send draws data (User.uuid (Headers.user h)) ≫= f).
Proof.
  intros Hf Hk. apply (preserves_bind_post _ (λ s, fine s ∧ Send.user_uuid s ≠ Some u)); [auto with vault| |naive_solver].
  intros d s d' _ Hr. split; [by eapply fine_created|]. apply create_send_Ok in Hr as (_ & _ & -> & _). congruence.
Qed.
Lemma kept_file_then {A} fid n s (f : Send.t → M DB A) :
  fine s → Send.user_uuid s ≠ Some u → (∀ s, fine s → keeps_sends (f s)) → keeps_sends (add_file fid n s ≫= f).
Proof.
  intros Hs Hu Hk. apply (preserves_bind_post _ fine); [auto with vault| |done].
  intros d s' d' _ Hr. by eapply fine_file.
Qed.

Lemma kept_post_send draws data : sends d0 !! new_send_id draws = None → keeps_sends (post_send draws data h).
Proof.
  intros Hf. unfold post_send. do 2 (apply keeps_bind; [apply _|auto with vault|intros _]).
  apply keeps_if; [db_keeps|]. apply kept_create_then; [done|]. auto with vault.
Qed.
Lemma kept_post_file draws model data : sends d0 !! new_send_id draws = None → keeps_sends (post_send_file draws model data h).
Proof.
  intros Hf. unfold post_send_file. apply keeps_bind; [apply _|auto with vault|intros _].
  apply keeps_bind; [apply _|db_keeps|intros n]. apply keeps_if; [db_keeps|].
  do 2 (apply keeps_bind; [apply _|auto with vault|intros ?]). apply keeps_if; [db_keeps|].
  apply kept_create_then; [done|]. intros s Hs Hu. apply keeps_if; [db_keeps|].
  apply keeps_bind; [apply _|db_keeps|intros _]. apply kept_file_then; [done..|]. auto with vault.
Qed.
Lemma kept_post_file_v2 draws data : sends d0 !! new_send_id draws = None → keeps_sends (post_send_file_v2 draws data h).
Proof.
  intros Hf. unfold post_send_file_v2. apply keeps_bind; [apply _|auto with vault|intros _]. apply keeps_if; [db_keeps|].
  apply keeps_bind; [apply _|auto with vault|intros _]. do 2 (apply keeps_bind; [apply _|db_keeps|intros ?]).
  apply keeps_if; [db_keeps|]. apply keeps_bind; [apply _|auto with vault|intros ?]. apply keeps_if; [db_keeps|].
  apply kept_create_then; [done|]. intros s Hs Hu. apply kept_file_then; [done..|]. intros s' Hs'.
  pose proof (kept_Send_save s' Hs'). db_keeps.
Qed.
Lemma kept_file_data id fid data : keeps_sends (post_send_file_v2_data id fid data h).
Proof. unfold post_send_file_v2_data. db_keeps. Qed.

(** The Send of the caller, read from the database. *)
Lemma kept_own {A} id msg (f : Send.t → M DB A) :
  (∀ s, fine s → Send.user_uuid s ≠ Some u → keeps_sends (f s)) →
  keeps_sends (o ← gets (Send_find_by_uuid_and_user id (User.uuid (Headers.user h))); send ← some_or o msg; f send).
Proof.
  intros Hf. apply preserves_gets. intros d Hd. apply preserves_some_or. intros s Hs.
  apply found_owner_fine in Hs as [Hs Hu]; [|done..]. by apply Hf.
Qed.
Lemma kept_update draws s data : fine s → Send.user_uuid s ≠ Some u → keeps_sends (update_send_from_data draws s data h true).
Proof.
  intros Hs Hu. unfold update_send_from_data. do 3 (apply keeps_if; [db_keeps|]).
  apply (preserves_bind_post _ (λ s', Send.uuid s' = Send.uuid s)).
  { db_keeps. }
  { intros d s' d' _ Hr. case_match; [run_step Hr|]; by apply ret_Ok in Hr as [-> _]. }
  intros s' Hs'. apply keeps_bind; [apply _|unfold read_max_access_count; db_keeps|intros m].
  apply keeps_bind; [apply _| |intros; db_keeps].
  apply kept_Send_save. eapply fine_other; [exact Hs|done|]. destruct (SendData.password data); done.
Qed.
Lemma kept_put_send draws id data : keeps_sends (put_send draws id data h).
Proof.
  unfold put_send. do 2 (apply keeps_bind; [apply _|auto with vault|intros _]). apply kept_own. intros s Hs Hu.
  apply keeps_if; [db_keeps|]. apply keeps_bind; [apply _|by apply kept_update|intros; db_keeps].
Qed.
Lemma kept_delete_send id : keeps_sends (delete_send id h).
Proof.
  unfold delete_send. apply kept_own. intros s Hs Hu. pose proof (kept_Send_delete s Hs Hu). db_keeps.
Qed.
Lemma kept_remove_password id : keeps_sends (put_remove_password id h).
Proof.
  unfold put_remove_password. apply keeps_bind; [apply _|auto with vault|intros _]. apply kept_own. intros s Hs Hu.
  apply kept_save_notify. by eapply fine_other.
Qed.
End requests_of_others.

Lemma kept_accessible id : keeps_sends (accessible_send id).
Proof. unfold accessible_send. db_keeps. Qed.
Lemma kept_post_access id : keeps_sends (post_access id).
Proof. unfold post_access. pose proof kept_accessible. db_keeps. Qed.
Lemma kept_post_access_file addr id fid : keeps_sends (post_access_file addr id fid).
Proof. unfold post_access_file. pose proof kept_accessible. db_keeps. Qed.
Lemma kept_check wrong pw o : keeps_sends (check_legacy_access wrong pw o).
Proof. unfold check_legacy_access. db_keeps. Qed.
Lemma kept_access_legacy aid pw ip : keeps_sends (post_access_legacy aid pw ip).
Proof.
  unfold post_access_legacy. apply keeps_bind; [apply _|db_keeps|intros _]. apply preserves_gets. intros d Hd.
  apply (preserves_bind_post _ fine); [apply kept_check| |].
  { intros d1 s d' _ Hr. apply check_legacy_access_Ok in Hr as (Ho & _ & _). unfold Send_find_by_access_id in Ho.
    destruct (as_send_id aid); [|done]. by eapply found_fine. }
  intros s Hs. pose proof (kept_Send_save s Hs). db_keeps.
Qed.
Lemma kept_file_legacy addr id fid pw ip : keeps_sends (post_access_file_legacy addr id fid pw ip).
Proof. unfold post_access_file_legacy. pose proof kept_check. db_keeps. Qed.
Lemma kept_tokens aid pw : keeps_sends (generate_tokens aid pw).
Proof. unfold generate_tokens. db_keeps. Qed.
End ownership.

(** The requests on Sends; those of visitors carry no session. *)
Inductive SendRequest :=
| PostSend (draws : SendDraws) (data : SendData.t) (h : Headers.t)
| PostSendFile (draws : SendDraws) (model : SendData.t) (data : SendUpload.t) (h : Headers.t)
| PostSendFileV2 (draws : SendDraws) (data : SendData.t) (h : Headers.t)
| PostSendFileV2Data (id fid : string) (data : SendUpload.t) (h : Headers.t)
| PutSend (draws : SendDraws) (id : string) (data : SendData.t) (h : Headers.t)
| DeleteSend (id : string) (h : Headers.t)
| PutRemovePassword (id : string) (h : Headers.t)
| OpenSend (aid : string) (password : option string)
| PostAccess (id : string)
| PostAccessFile (addr id fid : string)
| PostAccessLegacy (aid : string) (password : option string) (ip : string)
| PostAccessFileLegacy (addr id fid : string) (password : option string) (ip : string).

Section send_histories.
Context `{E : Env} `{C : Crypto} `{J : JsonText} `{P : PolicyJson} `{ST : SessionTokens} `{F : FileStore}.
Context `{TB : Jwt BasicJwtClaims.t} `{SC : SendConfig}.

Definition send_request (r : SendRequest) : M DB () :=
  match r with
  | PostSend draws data h => ignore (post_send draws data h)
  | PostSendFile draws model data h => ignore (post_send_file draws model data h)
  | PostSendFileV2 draws data h => ignore (post_send_file_v2 draws data h)
  | PostSendFileV2Data id fid data h => ignore (post_send_file_v2_data id fid data h)
  | PutSend draws id data h => ignore (put_send draws id data h)
  | DeleteSend id h => ignore (delete_send id h)
  | PutRemovePassword id h => ignore (put_remove_password id h)
  | OpenSend aid password => ignore (generate_tokens aid password)
  | PostAccess id => ignore (post_access id)
  | PostAccessFile addr id fid => ignore (post_access_file addr id fid)
  | PostAccessLegacy aid password ip => ignore (post_access_legacy aid password ip)
  | PostAccessFileLegacy addr id fid password ip => ignore (post_access_file_legacy addr id fid password ip)
  end.

(** A request of somebody else than [u]; the id of a new Send is not in use. *)
Definition request_of_other (u : string) (d : DB) (r : SendRequest) : Prop :=
  match r with
  | PostSend draws _ h | PostSendFile draws _ _ h | PostSendFileV2 draws _ h =>
      User.uuid (Headers.user h) ≠ u ∧ sends d !! new_send_id draws = None
  | PostSendFileV2Data _ _ _ h | PutSend _ _ _ h | DeleteSend _ h | PutRemovePassword _ h => User.uuid (Headers.user h) ≠ u
  | _ => True
  end.

Lemma send_request_keeps u d0 r : request_of_other u d0 r → keeps (preserves (Kept u d0)) (send_request r).
Proof.
  intros Hr. destruct r; simpl in Hr |- *; apply keeps_ignore; try match type of Hr with _ ∧ _ => destruct Hr end.
  - by apply kept_post_send.
  - by apply kept_post_file.
  - by apply kept_post_file_v2.
  - by apply kept_file_data.
  - by apply kept_put_send.
  - by apply kept_delete_send.
  - by apply kept_remove_password.
  - apply kept_tokens.
  - apply kept_post_access.
  - apply kept_post_access_file.
  - apply kept_access_legacy.
  - apply kept_file_legacy.
Qed.
End send_histories.

Section send_ownership.
Context `{E : Env} `{C : Crypto} `{J : JsonText} `{P : PolicyJson} `{ST : SessionTokens} `{F : FileStore}.
Context `{TB : Jwt BasicJwtClaims.t} `{SC : SendConfig}.

Fixpoint send_history (l : list (Z * SendRequest)) (d : DB) : DB :=
  match l with
  | [] => d
  | (t, r) :: l => send_history l (send_request (E := set_now (λ _, t) E) r d).2
  end.

(** C25. Whatever others do with the Sends of an account, at whatever times, with
    sessions of their own or without any: a Send of the account stays, and
    nothing in it changes except the number of accesses, which does not
    decrease, and the date of its last change. Its content, its password, its
    dates and its limit are the owner's. *)
Theorem sends_belong_to_their_owner (u : string) (d : DB) (l : list (Z * SendRequest)) (id : string) (r : Send.t) :
  wf d → (∀ t q, (t, q) ∈ l → request_of_other u d q) →
  sends d !! id = Some r → Send.user_uuid r = Some u →
  ∃ r', sends (send_history l d) !! id = Some r' ∧ viewed r r'.
Proof.
  intros Hwf Hl Hr Hu.
  assert (Kept u d (send_history l d)) as Hk.
  { assert (Kept u d d) as Hd.
    { constructor; [apply (wf_sends _ Hwf)| |eauto]. intros s (k & Hs)%elem_of_rows r0 Hr0 _.
      pose proof (wf_sends _ Hwf _ _ Hs) as Hks. simpl in Hks. rewrite Hks, Hs in Hr0. injection Hr0 as <-. apply viewed_refl. }
    revert Hd. generalize d at 2 4. induction l as [|[t q] l IH]; intros d1 Hd1; simpl; [done|].
    apply IH; [intros; eapply Hl; by right|]. apply (send_request_keeps (E := set_now (λ _, t) E)); [|done]. eapply Hl. left. }
  destruct (kept_there _ _ _ Hk id r Hr Hu) as [r' Hr']. exists r'. split; [done|].
  pose proof (wf_sends _ Hwf _ _ Hr) as Hid. pose proof (kept_keyed _ _ _ Hk _ _ Hr') as Hid'. simpl in Hid, Hid'.
  apply (kept_fine _ _ _ Hk r'); [apply elem_of_rows; eauto| |done]. by rewrite Hid'.
Qed.
End send_ownership.

(** ** The storage limit *)

(** *** Fields of a struct *)

Lemma struct_field_one names k v m :
  StronglySorted key_lt m → Json_lookup k m = Some v → k ∈ names → (∀ e, e ∈ m → e.1 ∈ names → e.1 = k) →
  struct_field names m = Some v.
Proof.
  intros Hs Hk Hin Hu. unfold struct_field. induction Hs as [|[k' y] m Hm IH Hall]; [done|].
  simpl in *. case_bool_decide as Hkk.
  - subst k'. injection Hk as ->. rewrite bool_decide_eq_true_2 by done.
    destruct (where_ _ m) as [|e l] eqn:Hw; [done|exfalso].
    assert (e ∈ where_ (λ e : string * Json, bool_decide (e.1 ∈ names)) m) as [He Hn]%elem_of_where by (rewrite Hw; left).
    bools. rewrite Forall_forall in Hall. specialize (Hall e He). unfold key_lt in Hall. simpl in Hall.
    rewrite (Hu e) in Hall; [|by right|done]. by rewrite compare_refl in Hall.
  - rewrite bool_decide_eq_false_2.
    + apply IH; [done|]. intros e He. apply Hu. by right.
    + intros Hn. apply Hkk. symmetry. apply (Hu (k', y)); [left|done].
Qed.
Lemma lookup_entry k v m : Json_lookup k m = Some v → (k, v) ∈ m.
Proof. induction m as [|[k' y] m IH]; simpl; [done|]. case_bool_decide as Hk; [subst; intros [= ->]; left|]. right. auto. Qed.
Lemma struct_field_two names k k' v v' m :
  Json_lookup k m = Some v → Json_lookup k' m = Some v' → k ≠ k' → k ∈ names → k' ∈ names → struct_field names m = None.
Proof.
  intros Hv%lookup_entry Hv'%lookup_entry Hne Hk Hk'. unfold struct_field.
  assert (∀ e, e ∈ m → e.1 ∈ names → e ∈ where_ (λ e : string * Json, bool_decide (e.1 ∈ names)) m) as Hin.
  { intros e He Hn. apply elem_of_where. split; [done|]. by apply bool_decide_eq_true. }
  pose proof (Hin _ Hv Hk) as H1. pose proof (Hin _ Hv' Hk') as H2.
  destruct (where_ _ m) as [|e1 [|e2 l]]; [done| |by destruct e1].
  apply list_elem_of_singleton in H1, H2. destruct Hne. congruence.
Qed.

(** *** Numbers *)

Lemma digit_char n : (n < 10)%N → digit (pretty_N_char n) = Some (Z.of_N n).
Proof.
  intros Hn. assert (n ∈ [0; 1; 2; 3; 4; 5; 6; 7; 8; 9]%N) as Hin.
  { assert (∃ k : nat, (k < 10)%nat ∧ n = N.of_nat k) as (k & Hk & ->) by (exists (N.to_nat n); lia).
    do 10 (destruct k as [|k]; [set_solver|]). lia. }
  repeat (apply elem_of_cons in Hin as [->|Hin]; [done|]). by apply not_elem_of_nil in Hin.
Qed.
Lemma parse_pretty_go x s : parse_digits 0 (pretty_N_go x s) = parse_digits (Z.of_N x) s.
Proof.
  revert s. induction (N.lt_wf_0 x) as [x _ IH]. intros s. destruct (decide (0 < x)%N) as [Hx|Hx].
  - rewrite pretty_N_go_step by done. rewrite IH by (apply N.div_lt; lia). cbn [parse_digits].
    rewrite digit_char by (apply N.mod_lt; lia). f_equal. rewrite N2Z.inj_div, N2Z.inj_mod.
    pose proof (Z.div_mod (Z.of_N x) 10 ltac:(lia)). simpl. lia.
  - assert (x = 0%N) as -> by lia. by rewrite pretty_N_go_0.
Qed.
Lemma parse_pretty n : 0 ≤ n → parse_nat (pretty n) = Some n.
Proof.
  intros Hn. destruct n as [|p|p]; [done| |lia]. change (pretty (Z.pos p)) with (pretty (N.pos p)).
  unfold pretty, pretty_N. rewrite decide_False by lia. pose proof (parse_pretty_go (N.pos p) "") as Hp. simpl in Hp.
  unfold parse_nat. destruct (pretty_N_go (N.pos p) ""); [by injection Hp|done].
Qed.

Lemma parse_int_pretty bits n : - 2 ^ (bits - 1) ≤ n < 2 ^ (bits - 1) → parse_int bits (pretty n) = Some n.
Proof.
  intros Hn. unfold parse_int. destruct (Z.le_gt_cases 0 n) as [Hp|Hneg].
  - pose proof (parse_pretty n Hp) as Hr. destruct (pretty n) as [|a s] eqn:Hs; [done|].
    assert (Hd : digit a ≠ None). { intros Ha. cbn in Hr. by rewrite Ha in Hr. }
    rewrite !bool_decide_eq_false_2 by (intros ->; by destruct Hd). rewrite Hr.
    by rewrite (proj2 (Z.leb_le _ _)), (proj2 (Z.ltb_lt _ _)) by lia.
  - destruct n as [| |p]; try lia. assert (parse_nat (pretty (Npos p)) = Some (Z.pos p)) as Hr by (apply (parse_pretty (Z.pos p)); lia).
    change (pretty (Z.neg p)) with (String (Ascii.ascii_of_nat 45) (pretty (Npos p))). cbv iota beta. rewrite bool_decide_eq_true_2 by done. rewrite Hr.
    change (Z.opp <$> Some (Z.pos p)) with (Some (Z.neg p)). cbv iota beta.
    by rewrite (proj2 (Z.leb_le _ _)), (proj2 (Z.ltb_lt _ _)) by lia.
Qed.

Lemma number_reads_back n : 0 ≤ n < 2 ^ 63 → Json_as_i64 (json_number n) = Some n.
Proof.
  intros Hn. pose proof (parse_pretty n ltac:(lia)) as Hp. unfold Json_as_i64, json_number, number_in, parse_int.
  destruct (pretty n) as [|a s] eqn:Hs; [done|]. unfold parse_nat in Hp. cbn [parse_digits] in Hp.
  rewrite (bool_decide_eq_false_2 (String a s = "-0")) by by intros [= -> ->].
  rewrite (bool_decide_eq_false_2 (a = Ascii.ascii_of_nat 45)), (bool_decide_eq_false_2 (a = Ascii.ascii_of_nat 43))
    by (intros ->; done).
  cbn [parse_nat parse_digits]. rewrite Hp. change (65 - 1) with 64.
  replace (- 2 ^ 64 <=? n) with true by (symmetry; apply Z.leb_le; lia).
  replace (n <? 2 ^ 64) with true by (symmetry; apply Z.ltb_lt; lia). cbn [andb].
  replace (- 2 ^ 63 <=? n) with true by (symmetry; apply Z.leb_le; lia).
  by replace (n <? 2 ^ 63) with true by (symmetry; apply Z.ltb_lt; lia).
Qed.

(** *** Totals *)

Section totals.
Context `{J : JsonText}.

Definition sizes_nonneg (d : DB) : Prop := ∀ s n, s ∈ rows (sends d) → send_size s = Some n → 0 ≤ n.
(** What a Send counts for the account [u]. *)
Definition send_weight (u : string) (s : Send.t) : Z :=
  if Send.user_uuid s == Some u then default 0 (send_size s) else 0.

Lemma total_size_sum l t :
  (∀ s n, s ∈ l → send_size s = Some n → 0 ≤ n) → 0 ≤ t < 2 ^ 63 →
  let sum := t + sumZ ((λ s, default 0 (send_size s)) <$> l) in
  total_size t l = if sum <? 2 ^ 63 then Some sum else None.
Proof.
  revert t. induction l as [|s l IH]; intros t Hn Ht; cbv zeta.
  { simpl. rewrite Z.add_0_r. destruct (Z.ltb_spec t (2 ^ 63)); [done|lia]. }
  assert (0 ≤ sumZ ((λ s, default 0 (send_size s)) <$> l)) as Hpos.
  { apply sumZ_nonneg. intros x (s' & -> & Hs')%list_elem_of_fmap.
    destruct (send_size s') as [n|] eqn:Hsz; simpl; [|done]. eapply Hn; [right|]; done. }
  rewrite fmap_cons, sumZ_cons. cbn [total_size].
  destruct (send_size s) as [n|] eqn:Hsz; [change (default 0 (Some n)) with n|change (default 0 None) with 0; rewrite Z.add_0_l; by apply IH; [intros; eapply Hn; [right|]|]].
  assert (0 ≤ n) by (eapply Hn; [left|done]). unfold checked_i64.
  replace (- 2 ^ 63 <=? t + n) with true by (symmetry; apply Z.leb_le; lia). cbn [andb].
  destruct (Z.ltb_spec (t + n) (2 ^ 63)).
  - rewrite IH; [by rewrite Z.add_assoc|intros; eapply Hn; [right|]; done|lia].
  - destruct (Z.ltb_spec (t + (n + sumZ ((λ s, default 0 (send_size s)) <$> l))) (2 ^ 63)); [lia|done].
Qed.
Lemma user_sum u l :
  sumZ ((λ s, default 0 (send_size s)) <$> where_ (λ s, Send.user_uuid s == Some u) l) = sumZ (send_weight u <$> l).
Proof.
  induction l as [|s l IH]; [done|]. rewrite fmap_cons, sumZ_cons, <-IH. unfold send_weight, where_. cbn [List.filter].
  case_bool_decide; [by rewrite fmap_cons, sumZ_cons|lia].
Qed.
Lemma size_by_user_sum u d :
  sizes_nonneg d → let sum := sumZ (send_weight u <$> rows (sends d)) in
  Send_size_by_user u d = if sum <? 2 ^ 63 then Some sum else None.
Proof.
  intros Hn sum. unfold Send_size_by_user, Send_find_by_user. rewrite total_size_sum; [by rewrite user_sum| |lia].
  intros s n [Hs _]%elem_of_where. by apply Hn.
Qed.
Lemma rows_insert_sum (w : Send.t → Z) k s (t : gmap string Send.t) :
  t !! k = None → sumZ (w <$> rows (<[k := s]> t)) = w s + sumZ (w <$> rows t).
Proof. intros Hk. unfold rows. rewrite (map_to_list_insert t k s Hk). done. Qed.
End totals.

Section limits.
Context `{E : Env} `{C : Crypto} `{J : JsonText} `{P : PolicyJson} `{ST : SessionTokens} `{F : FileStore}.
Context `{TB : Jwt BasicJwtClaims.t} `{SC : SendConfig}.

Definition json_reads_back (v : Json) : Prop := json_from_str (json_to_string v) = Some v.
(** The JSON that a client sends for a file is printed and read back, with the
    entries that the server adds as well. *)
Definition file_reads_back (f : Json) : Prop :=
  json_reads_back (drop_response f)
  ∧ ∀ fid n name, json_reads_back (file_json fid n name (Json_value (drop_response f))).

Lemma create_file_send draws data v f d s d' :
  SendData.type data = 1 → SendData.file data = Some f → create_send draws data v d = (Ok s, d') →
  Send.data s = json_to_string (drop_response f).
Proof.
  intros Ht Hf. unfold create_send. rewrite Ht, Hf. cbn [Z.eqb SendType_as_i32 Pos.eqb some_or]. rewrite run_ret. cbn [some_or]. rewrite run_ret. intros Hrun.
  repeat run_step Hrun. subst. unfold Send_set_password. by destruct (SendData.password data).
Qed.

Lemma add_file_data fid n s m d s' d' :
  json_from_str (Send.data s) = Some (JsObject m) → add_file fid n s d = (Ok s', d') →
  d' = d ∧ ∃ name, s' = Send.set_data (λ _, json_to_string (file_json fid n name (Json_value (JsObject m)))) s.
Proof.
  intros Hd. unfold add_file. rewrite Hd. intros Hrun. apply bind_Ok in Hrun as (v & d1 & [[= <-] ->]%lift_Ok & Hrun).
  apply bind_Ok in Hrun as (v & d1 & Hv & [-> ->]%ret_Ok). unfold Json_value in *. cbn [Json_map_keys] in *.
  apply bind_Ok in Hv as (name & d2 & [_ ->]%lift_Ok & [-> ->]%ret_Ok). eauto.
Qed.

(** The entries of a file that the server has completed. *)
Lemma file_entries fid n name m :
  ∃ m', file_json fid n name (Json_value (JsObject m)) = JsObject m' ∧ StronglySorted key_lt m'
  ∧ Json_lookup "size" m' = Some (json_number n)
  ∧ (∀ k v, k ∉ ["id"; "size"; "sizeName"]%string → Json_lookup k (foldl (λ acc '(k, x), Json_insert k x acc) [] ((λ '(k, x), (k, Json_map_keys id x)) <$> m)) = Some v → Json_lookup k m' = Some v)
  ∧ ∀ k, k ∉ ["id"; "size"; "sizeName"]%string → (∀ e, e ∈ m → e.1 ≠ k) → ∀ e, e ∈ m' → e.1 ≠ k.
Proof.
  unfold file_json, Json_value. cbn [Json_map_keys Json_set]. eexists. split; [done|]. set (m0 := foldl _ [] _).
  assert (StronglySorted key_lt m0) as Hm0 by (apply foldl_insert_sorted; constructor). split_and!.
  - by repeat apply insert_sorted.
  - by rewrite lookup_insert_other, lookup_insert_same.
  - intros k v Hk Hv. by rewrite !lookup_insert_other by set_solver.
  - intros k Hk Hm. apply Forall_forall. repeat (apply insert_Forall; [simpl; set_solver|]).
    apply foldl_insert_Forall; [|constructor]. apply Forall_forall. intros e (e0 & -> & He0)%list_elem_of_fmap.
    destruct e0 as [k0 x0]. exact (Hm _ He0).
Qed.

Lemma size_limit_Ok h lim d d' :
  send_size_limit h d = (Ok lim, d') →
  d' = d ∧ ∀ kb, user_send_limit = Some kb → kb * 1024 < 2 ^ 63
  ∧ ∃ used, Send_size_by_user (User.uuid (Headers.user h)) d = Some used ∧ lim ≤ kb * 1024 - used.
Proof.
  unfold send_size_limit. destruct user_send_limit as [kb|]; [|by intros [= <- <-]].
  destruct (kb =? 0); [done|]. rewrite run_gets. intros Hrun.
  apply bind_Ok in Hrun as (used & d1 & [Hused ->]%some_or_Ok & Hrun).
  apply bind_Ok in Hrun as (left & d1 & [Hleft ->]%some_or_Ok & Hrun).
  destruct (left <=? 0) eqn:Hl; [done|]. apply Z.leb_gt in Hl. apply ret_Ok in Hrun as [-> ->]. split; [done|].
  intros kb' [= <-]. apply size_left_Some in Hleft as [-> Hkb]. split; [done|].
  eexists. split; [done|]. lia.
Qed.

Lemma policy_Ok h d d' : enforce_disable_send_policy h d = (Ok (), d') → d' = d.
Proof. unfold enforce_disable_send_policy. rewrite run_gets. case_match; [done|]. by intros [= <-]. Qed.
Lemma hide_Ok data h d d' : enforce_disable_hide_email_policy data h d = (Ok (), d') → d' = d.
Proof. unfold enforce_disable_hide_email_policy. rewrite run_gets. case_match; [done|]. by intros [= <-]. Qed.

(** What an accepted file leaves: one more row, with the size of the file. *)
Definition stored_file (draws : SendDraws) (m : list (string * Json)) (h : Headers.t) (n : Z) (d d' : DB) : Prop :=
  ∃ s name, sends d' = <[new_send_id draws := s]> (sends d)
  ∧ Send.user_uuid s = Some (User.uuid (Headers.user h)) ∧ Send.atype s = 1
  ∧ Send.data s = json_to_string (file_json (new_file_id draws) n name (Json_value (drop_response (JsObject m)))).

Lemma store_file draws data m h n s d d1 s1 s2 d' :
  SendData.type data = 1 → SendData.file data = Some (JsObject m) → file_reads_back (JsObject m) →
  create_send draws data (User.uuid (Headers.user h)) d = (Ok s, d) →
  add_file (new_file_id draws) n s d = (Ok s1, d1) → Send_save s1 d1 = (Ok s2, d') → stored_file draws m h n d d'.
Proof.
  intros Ht Hf [Hrb _] Hc Ha Hs. pose proof (create_file_send _ _ _ _ _ _ _ Ht Hf Hc) as Hdata.
  apply create_send_Ok in Hc as (_ & Hid & Hu & Hty). rewrite Ht in Hty.
  apply (add_file_data _ _ _ (where_ (λ '(k', _), negb (k' == "response")) m)) in Ha as (-> & name & ->); [|by rewrite Hdata].
  apply Send_save_Ok in Hs as [-> Hd']. exists (Send.set_revision_date (λ _, now) (Send.set_data
    (λ _, json_to_string (file_json (new_file_id draws) n name (Json_value (drop_response (JsObject m))))) s)), name.
  simpl in *. rewrite Hid in Hd'. done.
Qed.

Lemma accepted_file draws data up m h d d' :
  SendData.file data = Some (JsObject m) → file_reads_back (JsObject m) →
  (∃ j, post_send_file draws data up h d = (Ok j, d')) ∨ (∃ j, post_send_file_v2 draws data h d = (Ok j, d')) →
  ∃ n, 0 ≤ n ∧ stored_file draws m h n d d'
  ∧ ∀ kb, user_send_limit = Some kb → kb * 1024 < 2 ^ 63
    ∧ ∃ used, Send_size_by_user (User.uuid (Headers.user h)) d = Some used ∧ n ≤ kb * 1024 - used.
Proof.
  intros Hf Hrb [[j Hrun]|[j Hrun]].
  - unfold post_send_file in Hrun. apply bind_Ok in Hrun as ([] & d1 & ->%policy_Ok & Hrun).
    apply bind_Ok in Hrun as (n & d1 & [_ ->]%some_or_Ok & Hrun). destruct (Z.ltb_spec n 0); [done|].
    apply bind_Ok in Hrun as ([] & d1 & ->%hide_Ok & Hrun). apply bind_Ok in Hrun as (lim & d1 & [-> Hlim]%size_limit_Ok & Hrun).
    destruct (Z.ltb_spec lim n); [done|]. apply bind_Ok in Hrun as (s & d1 & Hc & Hrun).
    pose proof (create_send_Ok _ _ _ _ _ _ Hc) as (-> & _ & _ & Hty). destruct (Z.eqb_spec (Send.atype s) (SendType_as_i32 SendFile)) as [H1|]; [|done].
    apply bind_Ok in Hrun as ([] & d1 & [_ ->]%lift_Ok & Hrun). apply bind_Ok in Hrun as (s1 & d1 & Ha & Hrun).
    unfold save_and_notify in Hrun. apply bind_Ok in Hrun as (s2 & d2 & Hs & Hrun).
    apply bind_Ok in Hrun as (l & d3 & Hu & [_ ->]%ret_Ok). exists n. split_and!; [done| |].
    + assert (SendData.type data = 1) as Ht by (rewrite <-Hty; exact H1).
      assert (stored_file draws m h n d d2) as (s3 & name & H2 & H3) by by eapply store_file.
      exists s3, name. by rewrite <-(revision_sends s2 d2), Hu in H2.
    + intros kb Hkb. destruct (Hlim kb Hkb) as (? & used & ? & ?). split; [done|]. exists used. split; [done|lia].
  - unfold post_send_file_v2 in Hrun. apply bind_Ok in Hrun as ([] & d1 & ->%policy_Ok & Hrun).
    destruct (Z.eqb_spec (SendData.type data) (SendType_as_i32 SendFile)) as [H1|]; [|done].
    apply bind_Ok in Hrun as ([] & d1 & ->%hide_Ok & Hrun). apply bind_Ok in Hrun as (x & d1 & [_ ->]%some_or_Ok & Hrun).
    apply bind_Ok in Hrun as (n & d1 & [_ ->]%lift_Ok & Hrun). destruct (Z.ltb_spec n 0); [done|].
    apply bind_Ok in Hrun as (lim & d1 & [-> Hlim]%size_limit_Ok & Hrun). destruct (Z.ltb_spec lim n); [done|].
    apply bind_Ok in Hrun as (s & d1 & Hc & Hrun). pose proof (create_send_Ok _ _ _ _ _ _ Hc) as (-> & _).
    apply bind_Ok in Hrun as (s1 & d1 & Ha & Hrun). apply bind_Ok in Hrun as (s2 & d2 & Hs & [_ ->]%ret_Ok).
    exists n. split_and!; [done|by eapply store_file|]. intros kb Hkb. destruct (Hlim kb Hkb) as (? & used & ? & ?).
    split; [done|]. exists used. split; [done|lia].
Qed.

Lemma response_entries k m : (∀ e, e ∈ m → e.1 ≠ k) → ∀ e, e ∈ where_ (λ '(k' , _), negb (k' == "response")) m → (e : string * Json).1 ≠ k.
Proof. intros Hm e [He _]%elem_of_where. by apply Hm. Qed.


(** The size that the row of a completed file counts with. *)
Lemma stored_size s v m :
  Send.atype s = 1 → Send.data s = json_to_string v → json_reads_back v → v = JsObject m →
  send_size s = match struct_field ["size"; "Size"]%string m ≫= read_NumberOrString with
                | Some size => match NumberOrString_into_i64 size with Ok n => Some n | Err _ => None end
                | None => None
                end.
Proof. intros Ht Hd Hr ->. unfold send_size. by rewrite Ht, Hd, Hr. Qed.

Lemma nonneg_insert k s (d d' : DB) :
  sizes_nonneg d → sends d' = <[k := s]> (sends d) → (∀ n, send_size s = Some n → 0 ≤ n) → sizes_nonneg d'.
Proof.
  intros Hd Heq Hs s' n (k' & Hs')%elem_of_rows Hn. rewrite Heq in Hs'.
  destruct (decide (k' = k)) as [->|Hk].
  - rewrite lookup_insert_eq in Hs'. injection Hs' as <-. by apply Hs.
  - rewrite lookup_insert_ne in Hs' by done. eapply Hd; [apply elem_of_rows; eauto|done].
Qed.

(** The total after one more Send. *)
Lemma total_after k s u d d' used :
  sizes_nonneg d → sends d !! k = None → sends d' = <[k := s]> (sends d) → Send.user_uuid s = Some u →
  (∀ n, send_size s = Some n → 0 ≤ n) → Send_size_by_user u d = Some used → used + default 0 (send_size s) < 2 ^ 63 →
  Send_size_by_user u d' = Some (used + default 0 (send_size s)).
Proof.
  intros Hd Hk Heq Hu Hs Hused Hlt. rewrite size_by_user_sum in Hused by done.
  rewrite size_by_user_sum by by eapply nonneg_insert. rewrite Heq, rows_insert_sum by done.
  destruct (_ <? _); [|done]. injection Hused as Hused.
  assert (send_weight u s = default 0 (send_size s)) as Hw by (unfold send_weight; by rewrite bool_decide_eq_true_2).
  rewrite Hw, Hused, Z.add_comm. by rewrite (proj2 (Z.ltb_lt _ _) Hlt).
Qed.

(** The storage limit of Sends holds for honest files. When a file is
    accepted on either version of the interface, and its description is a JSON
    object without an entry named [Size], the files of the account take at most
    the configured number of kilobytes afterwards. *)
Theorem accepted_files_respect_limit (draws : SendDraws) (data : SendData.t) (up : SendUpload.t) (m : list (string * Json))
    (h : Headers.t) (d d' : DB) (kb : Z) :
  user_send_limit = Some kb → sizes_nonneg d → sends d !! new_send_id draws = None →
  SendData.file data = Some (JsObject m) → (∀ e, e ∈ m → e.1 ≠ "Size"%string) → file_reads_back (JsObject m) →
  (∃ j, post_send_file draws data up h d = (Ok j, d')) ∨ (∃ j, post_send_file_v2 draws data h d = (Ok j, d')) →
  ∃ total, Send_size_by_user (User.uuid (Headers.user h)) d' = Some total ∧ total ≤ kb * 1024.
Proof.
  intros Hkb Hn Hfresh Hf Hm Hrb Hrun.
  destruct (accepted_file _ _ _ _ _ _ _ Hf Hrb Hrun) as (n & Hpos & (s & name & Hd' & Hu & Hty & Hdata) & Hlim).
  destruct (Hlim kb Hkb) as (Hk63 & used & Hused & Hle).
  assert (0 ≤ used) as Hused0.
  { rewrite size_by_user_sum in Hused by done. destruct (_ <? _); [|done]. injection Hused as <-. apply sumZ_nonneg.
    intros x (s0 & -> & Hs0)%list_elem_of_fmap. unfold send_weight. case_bool_decide; [|done].
    destruct (send_size s0) as [n0|] eqn:Hsz; simpl; [by eapply Hn|done]. }
  assert (send_size s = Some n) as Hsz.
  { destruct Hrb as [_ Hrb].
    destruct (file_entries (new_file_id draws) n name (where_ (λ '(k', _), negb (k' == "response")) m))
      as (m' & Hm' & Hsorted & Hsize & _ & Hno).
    rewrite (stored_size _ _ m' Hty Hdata (Hrb _ _ _) Hm').
    rewrite (struct_field_one _ "size" (json_number n)); [|done|done|set_solver|].
    - simpl. assert (n < 2 ^ 63) by lia. pose proof (number_reads_back n ltac:(lia)) as Hnum. unfold json_number in *.
      simpl in Hnum |- *. by rewrite Hnum.
    - intros e He Hin. apply elem_of_cons in Hin as [->|Hin]; [done|]. apply list_elem_of_singleton in Hin.
      destruct (Hno "Size"%string ltac:(set_solver) (response_entries _ _ Hm) e He). done. }
  rewrite (total_after (new_send_id draws) s _ d d' used); [|done|done|done|done| |done|]; rewrite ?Hsz; simpl.
  - eexists. split; [done|lia].
  - intros n' [= <-]. done.
  - lia.
Qed.

(** The storage limit is evaded by a file whose description has an entry
    [Size] next to the one the server adds: both names stand for the same field
    when sizes are summed up, the description is refused as a duplicate, and
    the file is not counted. The total is the same after as before, so that the
    next file is accepted again, and so on. *)
Theorem duplicate_size_evades_limit (draws : SendDraws) (data : SendData.t) (up : SendUpload.t) (m : list (string * Json))
    (v : Json) (h : Headers.t) (d d' : DB) :
  sizes_nonneg d → sends d !! new_send_id draws = None →
  SendData.file data = Some (JsObject m) → file_reads_back (JsObject m) →
  Json_find "Size" (Json_value (drop_response (JsObject m))) = Some v →
  (∃ j, post_send_file draws data up h d = (Ok j, d')) ∨ (∃ j, post_send_file_v2 draws data h d = (Ok j, d')) →
  Send_size_by_user (User.uuid (Headers.user h)) d' = Send_size_by_user (User.uuid (Headers.user h)) d.
Proof.
  intros Hn Hfresh Hf Hrb Hv Hrun.
  destruct (accepted_file _ _ _ _ _ _ _ Hf Hrb Hrun) as (n & Hpos & (s & name & Hd' & Hu & Hty & Hdata) & _).
  assert (send_size s = None) as Hsz.
  { destruct Hrb as [_ Hrb].
    destruct (file_entries (new_file_id draws) n name (where_ (λ '(k', _), negb (k' == "response")) m))
      as (m' & Hm' & Hsorted & Hsize & Hother & _).
    rewrite (stored_size _ _ m' Hty Hdata (Hrb _ _ _) Hm'). specialize (Hother "Size"%string v ltac:(set_solver) Hv).
    by rewrite (struct_field_two _ _ _ _ _ _ Hsize Hother) by set_solver. }
  assert (sizes_nonneg d') as Hn' by (eapply (nonneg_insert _ s); [exact Hn|exact Hd'|by rewrite Hsz]).
  rewrite (size_by_user_sum _ d' Hn'), (size_by_user_sum _ d Hn).
  rewrite Hd', rows_insert_sum by done. by replace (send_weight (User.uuid (Headers.user h)) s) with 0
    by (unfold send_weight; rewrite Hsz; by case_bool_decide).
Qed.
End limits.

(** ** The link of a Send *)

Section link.
Context `{E : Env} `{C : Crypto} `{J : JsonText} `{P : PolicyJson} `{ST : SessionTokens} `{F : FileStore}.
Context `{TB : Jwt BasicJwtClaims.t} `{SC : SendConfig}.

Lemma shown_fields s d :
  Json_find "accessId" (Send_to_json s) = Some (JsString (Send_access_id s))
  ∧ Json_find "text" (Send_to_json s) = Some (send_part SendText s) ∧ Json_find "name" (Send_to_json s) = Some (JsString (Send.name s))
  ∧ Json_find "text" (Send_to_json_access s d) = Some (send_part SendText s)
  ∧ Json_find "name" (Send_to_json_access s d) = Some (JsString (Send.name s)).
Proof. split_and!; reflexivity. Qed.

Lemma wf_put_send s d : wf d → wf (set_sends <[Send.uuid s := s]> d).
Proof. intros Hwf. pose proof (wf_sends _ Hwf) as Hk. destruct Hwf. constructor; simpl; try done. by apply map_Forall_insert_2. Qed.
Lemma wf_revision s d : wf d → wf (Send_update_users_revision s d).2.
Proof. destruct (update_users_revision_run s d) as (l & d1 & -> & _ & H). exact H. Qed.
Lemma Send_save_wf s d s' d' : wf d → Send_save s d = (Ok s', d') → wf d'.
Proof.
  intros Hwf. unfold Send_save. intros Hrun. apply bind_Ok in Hrun as (l & d1 & Hu & Hrun).
  apply bind_Ok in Hrun as ([] & d2 & Hsave & [-> ->]%ret_Ok). unfold save_row in Hsave. destruct (_ && _); [|done].
  injection Hsave as <-. apply (wf_put_send (Send.set_revision_date (λ _, now) s)).
  pose proof (wf_revision s d Hwf) as Hw. by rewrite Hu in Hw.
Qed.

(** What [create_send] builds of a text. *)
Lemma create_text_send draws data v d s d' :
  SendData.type data ≠ 1 → create_send draws data v d = (Ok s, d') →
  Send.atype s = 0 ∧ Send.access_count s = 0 ∧ Send.disabled s = SendData.disabled data
  ∧ Send.expiration_date s = SendData.expiration_date data ∧ Send.deletion_date s = SendData.deletion_date data
  ∧ (∃ e, read_max_access_count (SendData.max_access_count data) e = (Ok (Send.max_access_count s), e))
  ∧ match SendData.password data with
    | Some p => Send_check_password s p = true
    | None => Send.password_hash s = None
    end.
Proof.
  intros Ht. unfold create_send. intros Hrun. run_step Hrun. repeat run_step Hrun. subst.
  destruct (Z.eqb_spec (SendData.type data) (SendType_as_i32 SendText)) as [H0|]; [|destruct (Z.eqb_spec (SendData.type data) (SendType_as_i32 SendFile)); done].
  match goal with H : read_max_access_count _ _ = _ |- _ => rename H into Hmax end.
  pose proof (read_max_Ok _ _ _ _ Hmax) as ->. unfold Send_set_password.
  destruct (SendData.password data) as [p|]; simpl; split_and!; try done; eauto.
  unfold Send_check_password, verify_password_hash, hash_password. simpl. by apply bool_decide_eq_true.
Qed.

(** The limit that the client asks for leaves room for one access. *)
Definition leaves_room (m : option NumberOrString) : Prop :=
  match m with
  | None => True
  | Some m => match NumberOrString_into_i32 m with Ok n => 0 < n | Err _ => False end
  end.

Lemma room_below m s e :
  leaves_room m → read_max_access_count m e = (Ok (Send.max_access_count s), e) → Send.access_count s = 0 →
  nn (Send.max_access_count s) (λ m, m <=? Send.access_count s) = false ∧ below_limit (Send.uuid s) s = true.
Proof.
  intros Hr Hm Hc. unfold below_limit. rewrite Hc, bool_decide_eq_true_2 by done.
  destruct m as [m|]; unfold read_max_access_count in Hm.
  - simpl in Hr. unfold lift, mbind, M_bind in Hm. simpl in Hm. destruct (NumberOrString_into_i32 m) as [n|]; [|done].
    injection Hm as <-. simpl. split; [by apply Z.leb_gt|by apply Z.ltb_lt].
  - by injection Hm as <-.
Qed.

Lemma found_by_link aid s d :
  wf d → sends d !! Send.uuid s = Some s → as_send_id aid = Some (Send.uuid s) → Send_find_by_access_id aid d = Some s.
Proof.
  intros Hwf Hs Ha. unfold Send_find_by_access_id, Send_find_by_uuid, first. rewrite Ha. apply head_unique.
  - apply elem_of_where. split; [apply elem_of_rows; eauto|]. by apply bool_decide_eq_true.
  - intros b [(k & Hb)%elem_of_rows Hbu]%elem_of_where. bools. pose proof (wf_sends _ Hwf _ _ Hb) as Hkb. simpl in Hkb.
    rewrite <-Hbu, Hkb in Hs. congruence.
Qed.

(** A stored text that has not been opened opens to whoever passes the checks. *)
Lemma stored_text_opens s aid password ip d :
  wf d → sends d !! Send.uuid s = Some s → as_send_id aid = Some (Send.uuid s) → check_limit_unauthenticated ip = Ok () →
  check_legacy_access "Invalid password" password (Some s) d = (Ok s, d) →
  Send.atype s = 0 → Send.access_count s = 0 → below_limit (Send.uuid s) s = true →
  ∃ d', post_access_legacy aid password ip d = (Ok (Send_to_json_access (counted s) d'), d').
Proof.
  intros Hwf Hs Ha Hip Hcheck Hat Hcnt Hbelow.
  destruct (register_access_spec d s s Hwf Hs) as (s2 & d3 & Hreg & _ & _); [rewrite Hcnt; unfold i32_max; lia|].
  rewrite Hbelow in Hreg. destruct (register_access_true s s s2 d d3 Hwf Hs Hreg) as (_ & -> & _ & _).
  destruct (update_users_revision_run (counted s) d3) as (l' & d4 & Hrev' & _ & _). exists d4.
  unfold post_access_legacy. rewrite (run_bind_Ok _ _ _ () d) by by rewrite Hip. rewrite run_gets, (found_by_link aid s d) by done.
  rewrite (run_bind_Ok _ _ _ _ _ Hcheck), Hat. cbn [SendType_as_i32 Z.eqb].
  rewrite (run_bind_Ok _ _ _ (counted s) d3); [|unfold count_access; by rewrite (run_bind_Ok _ _ _ _ _ Hreg)].
  unfold process_access. by rewrite (run_bind_Ok _ _ _ _ _ Hrev').
Qed.

(** The password that was set opens, and no password when none was set. *)
Lemma check_legacy_passes password s d :
  nn (Send.max_access_count s) (λ m, m <=? Send.access_count s) = false → Send_is_accessible s = true →
  match password with Some p => Send_check_password s p = true | None => Send.password_hash s = None end →
  check_legacy_access "Invalid password" password (Some s) d = (Ok s, d).
Proof.
  intros Hmx Hacc Hpw. unfold check_legacy_access. rewrite Hmx, Hacc. simpl. destruct password as [p|].
  - rewrite Hpw. by case_bool_decide.
  - by rewrite Hpw.
Qed.

End link.

(** ** A sample deployment

    JSON values are printed in binary, so that every value is read back; an
    account may store two kilobytes. *)
Module SampleSends.
#[export] Instance Json_eq_dec : EqDecision Json.
Proof.
  unfold EqDecision. fix go 1. intros v w.
  pose proof (@list_eq_dec Json go) as Hl.
  pose proof (@list_eq_dec (string * Json) (@prod_eq_dec string _ Json go)) as Hm.
  destruct v as [|b|n|s|l|m], w as [|b'|n'|s'|l'|m']; try (right; discriminate); [by left|..].
  - destruct (decide (b = b')); [left|right]; congruence.
  - destruct (decide (n = n')); [left|right]; congruence.
  - destruct (decide (s = s')); [left|right]; congruence.
  - destruct (Hl l l'); [left|right]; congruence.
  - destruct (Hm m m'); [left|right]; congruence.
Defined.

Fixpoint tree_of (v : Json) : gen_tree (bool + string) :=
  match v with
  | JsNull => GenNode 0 []
  | JsBool b => GenLeaf (inl b)
  | JsNumber n => GenNode 1 [GenLeaf (inr n)]
  | JsString s => GenLeaf (inr s)
  | JsArray l => GenNode 2 (tree_of <$> l)
  | JsObject m => GenNode 3 ((λ '(k, v), GenNode 4 [GenLeaf (inr k); tree_of v]) <$> m)
  end.
Fixpoint of_tree (t : gen_tree (bool + string)) : Json :=
  match t with
  | GenNode 1 [GenLeaf (inr n)] => JsNumber n
  | GenLeaf (inl b) => JsBool b
  | GenLeaf (inr s) => JsString s
  | GenNode 2 l => JsArray (of_tree <$> l)
  | GenNode 3 l => JsObject ((λ t, match t with GenNode 4 [GenLeaf (inr k); v] => (k, of_tree v) | _ => (""%string, JsNull) end) <$> l)
  | _ => JsNull
  end.
Lemma of_tree_of v : of_tree (tree_of v) = v.
Proof.
  induction v as [|b|n|s|l IH|m IH] using Json_induction; simpl; try done; f_equal.
  - induction IH as [|v l Hv _ IHl]; csimpl; [done|]. by rewrite Hv, IHl.
  - induction IH as [|[k v] m Hv _ IHm]; csimpl; [done|]. simpl in Hv. by rewrite Hv, IHm.
Qed.
#[export] Instance Json_countable : Countable Json := inj_countable' tree_of of_tree of_tree_of.

#[export] Instance json : JsonText := {|
  json_from_str s := decode (SampleCodecs.unbits s); json_to_string v := SampleCodecs.bits (encode v);
  format_rfc3339 _ := None; format_date _ := epoch |}.
Lemma json_law v : json_reads_back v.
Proof. unfold json_reads_back. simpl. by rewrite SampleCodecs.unbits_bits, decode_encode. Qed.

#[export] Instance send_config : SendConfig := {|
  sends_allowed := true; user_send_limit := Some 2;
  base64url_nopad b := String.string_of_list_ascii ((λ n, Ascii.ascii_of_nat (Z.to_nat n)) <$> b); uuid_bytes := as_bytes |}.
#[export] Instance policies : PolicyJson := {| auto_enroll_enabled _ := Some false; disable_hide_email _ := Some false |}.
#[export] Existing Instances Sample.env SampleVault.crypto SampleFiles.sessions SampleFiles.files SampleFiles.jwt
  SampleFiles.BasicJwtClaims_countable.

Definition draws (id : string) : SendDraws := {| new_send_id := id; new_send_salt := []; new_file_id := "f" |}.
Definition text_data (password : option string) : SendData.t :=
  SendData.mk 0 "key" password (Some (Number 3)) None 2000000000 false None None "note" None
    (Some (JsObject [("text", JsString "secret")])) None None None.
Definition file_data (m : list (string * Json)) : SendData.t :=
  SendData.mk 1 "key" None None None 2000000000 false None None "file" None None (Some (JsObject m)) (Some (Number 1500)) None.
Definition bob : Headers.t := SampleVault.session "bob".
Definition alice : Headers.t := SampleVault.session "alice".
Definition with_text : DB := (post_send (draws "s1") (text_data (Some "pw")) bob Sample.db).2.
End SampleSends.
Import SampleSends.

(** The parts of a run that succeeds. *)
Lemma run_ok {A} (m : M DB A) d : is_ok (m d).1 = true → ∃ a, m d = (Ok a, (m d).2).
Proof. destruct (m d) as [[a|e] d']; [eauto|done]. Qed.
Ltac runs m d H := let j := fresh "j" in destruct (run_ok m d ltac:(vm_compute; reflexivity)) as [j H].

Lemma sends_open_to_the_entitled_witness :
  ∃ s, Send_find_by_uuid "s1" with_text = Some s ∧ may_open s (Some "pw"%string)
  ∧ sends (post_access_file_legacy "h" "s1" "f" (Some "pw"%string) "ip" with_text).2 = <["s1" := counted s]> (sends with_text).
Proof.
  assert (Hwf : wf with_text) by (apply wf_b_sound; vm_compute; reflexivity).
  runs (post_access_file_legacy "h" "s1" "f" (Some "pw"%string) "ip") with_text Hr.
  pose proof (sends_open_to_the_entitled "s1" "s1" "f" "h" "ip" (Some "pw"%string) with_text
    (post_access_file_legacy "h" "s1" "f" (Some "pw"%string) "ip" with_text).2 Hwf) as (_ & Hfile & _).
  destruct (Hfile _ Hr) as (s & Hs & Hmay & Hd & _). exists s. split; [exact Hs|]. split; [exact Hmay|].
  rewrite Hd. destruct (found_send "s1" with_text s Hwf Hs) as [-> _]. reflexivity.
Defined.

(** Alice tries to change and to remove a text of Bob; then it is opened. *)
Definition intrusion : list (Z * SendRequest) :=
  [(5, PutSend (draws "x") "s1" (text_data None) alice); (6, DeleteSend "s1" alice); (7, PostAccessLegacy "s1" (Some "pw"%string) "ip")].

Lemma sends_belong_to_their_owner_witness :
  ∃ r r', sends with_text !! "s1"%string = Some r ∧ sends (send_history intrusion with_text) !! "s1"%string = Some r' ∧ viewed r r'.
Proof.
  assert (∃ r, sends with_text !! "s1"%string = Some r ∧ Send.user_uuid r = Some "bob"%string) as (r & Hr & Hu)
    by (eexists; split; [vm_compute; reflexivity|reflexivity]).
  exists r. destruct (sends_belong_to_their_owner "bob" with_text intrusion "s1" r) as (r' & Hr' & Hv).
  - apply wf_b_sound. vm_compute. reflexivity.
  - intros t q Hq. repeat (apply elem_of_cons in Hq as [[= -> ->]|Hq]; [vm_compute; first [done|discriminate]|]).
    by apply not_elem_of_nil in Hq.
  - exact Hr.
  - exact Hu.
  - exists r'. split; [exact Hr|]. split; [exact Hr'|exact Hv].
Defined.

(** One file of 1500 bytes fits; a second one does not, unless it hides its size. *)
Definition honest := file_data [("fileName", JsString "n")].
Definition sly := file_data [("Size", JsNull); ("fileName", JsString "n")].

Lemma accepted_files_respect_limit_witness :
  let d' := (post_send_file_v2 (draws "s1") honest bob Sample.db).2 in
  (∃ total, Send_size_by_user "bob" d' = Some total ∧ total ≤ 2 * 1024)
  ∧ is_ok (post_send_file_v2 (draws "s2") honest bob d').1 = false.
Proof.
  split; [|vm_compute; reflexivity]. runs (post_send_file_v2 (draws "s1") honest bob) Sample.db Hr.
  apply (accepted_files_respect_limit (draws "s1") honest (SendUpload.mk 0 None) [("fileName", JsString "n")] bob Sample.db _ 2).
  - reflexivity.
  - intros s n Hs. vm_compute in Hs. apply not_elem_of_nil in Hs as [].
  - reflexivity.
  - reflexivity.
  - intros e ->%list_elem_of_singleton. discriminate.
  - split; [apply json_law|]. intros. apply json_law.
  - right. exists j. exact Hr.
Defined.

Lemma duplicate_size_evades_limit_witness :
  let d' := (post_send_file_v2 (draws "s1") sly bob Sample.db).2 in
  Send_size_by_user "bob" d' = Send_size_by_user "bob" Sample.db
  ∧ is_ok (post_send_file_v2 (draws "s2") sly bob d').1 = true.
Proof.
  split; [|vm_compute; reflexivity]. runs (post_send_file_v2 (draws "s1") sly bob) Sample.db Hr.
  apply (duplicate_size_evades_limit (draws "s1") sly (SendUpload.mk 0 None) [("Size", JsNull); ("fileName", JsString "n")]
    JsNull bob Sample.db).
  - intros s n Hs. vm_compute in Hs. apply not_elem_of_nil in Hs as [].
  - reflexivity.
  - reflexivity.
  - split; [apply json_law|]. intros. apply json_law.
  - reflexivity.
  - right. exists j. exact Hr.
Defined.

Definition shown (r : Res Json) : Json := match r with Ok j => j | Err _ => JsNull end.
