(* ===== verification/Rotation.v ===== *)
(** The rotation of an account key: theorems.

    A rotation that succeeds stores every row that was encrypted with the old
    key again, as the request gives it, and changes the account last. The loops
    of the handler have one shape ([changes_row]): an entry replaces one of the
    rows that were read, in the list and in its table. *)
From S2P Require Import Prelude Schema Roles Users Json Invariants Samples Memberships Groups Collections VaultItems Ciphers Access Guards TwoFactors OneTimeCodes Policies EmergencyRows Organizations Sends Emergency Members Accounts Tokens Downloads Vault SendRequests KeyRotation VaultAccess SendAccess.
Local Open Scope Z_scope.

(** ** Loops that change stored rows

    [T] is the table, [key] its primary key, [name] what an entry names a row
    by, [entry] the name that an entry gives and [fits] what it makes of the
    row. *)
Lemma NoDup_fmap_same {A B} (f : A → B) (l : list A) a b : NoDup (f <$> l) → a ∈ l → b ∈ l → f a = f b → a = b.
Proof.
  induction l as [|c l IH]; [by intros _ ?%not_elem_of_nil|]. rewrite fmap_cons, NoDup_cons. intros [Hc Hl].
  intros [->|Ha]%elem_of_cons [->|Hb]%elem_of_cons He; auto.
  - destruct Hc. rewrite He. by apply list_elem_of_fmap_2.
  - destruct Hc. rewrite <-He. by apply list_elem_of_fmap_2.
Qed.

Section changing.
Context {S R X : Type} (T : S → gmap string R) (key name : R → string) (entry : X → option string) (fits : X → R → Prop).
Context (body : nat → X → list R → M S (list R)).

(** One turn skips its entry, or replaces one row in the list and the table. *)
Definition changes_row : Prop := ∀ n x l d l' d', body n x l d = (Ok l', d') →
  (entry x = None ∧ l' = l ∧ T d' = T d)
  ∨ ∃ pre r r' post, l = pre ++ r :: post ∧ l' = pre ++ r' :: post ∧ entry x = Some (name r)
      ∧ key r' = key r ∧ name r' = name r ∧ fits x r' ∧ T d' = <[key r := r']> (T d).

Record tracked (d : S) (l : list R) : Prop := {
  tr_names : NoDup (name <$> l);
  tr_keys : NoDup (key <$> l);
  tr_stored : ∀ r, r ∈ l → T d !! key r = Some r
}.

Lemma change_tracked pre r r' post d d' :
  tracked d (pre ++ r :: post) → key r' = key r → name r' = name r → T d' = <[key r := r']> (T d) →
  tracked d' (pre ++ r' :: post).
Proof.
  intros [Hn Hk Hs] Hkr Hnr HT. assert (Hne : ∀ x, x ∈ pre ++ post → key x ≠ key r).
  { intros x Hx He. rewrite fmap_app, fmap_cons in Hk. apply NoDup_app in Hk as (_ & Hd & Hk). apply NoDup_cons in Hk as [Hk _].
    apply elem_of_app in Hx as [Hx|Hx].
    - apply (Hd (key x)); [by apply list_elem_of_fmap_2|]. rewrite He. left.
    - apply Hk. rewrite <-He. by apply list_elem_of_fmap_2. }
  split.
  - by rewrite fmap_app, fmap_cons, Hnr, <-fmap_cons, <-fmap_app.
  - by rewrite fmap_app, fmap_cons, Hkr, <-fmap_cons, <-fmap_app.
  - intros x Hx. rewrite HT. apply elem_of_app in Hx as [Hx|[->|Hx]%elem_of_cons].
    + rewrite lookup_insert_ne by (apply not_eq_sym, Hne, elem_of_app; auto). apply Hs. apply elem_of_app; auto.
    + by rewrite Hkr, lookup_insert_eq.
    + rewrite lookup_insert_ne by (apply not_eq_sym, Hne, elem_of_app; auto). apply Hs. apply elem_of_app; right; by right.
Qed.

Lemma change_rows_spec xs n l d l' d' :
  changes_row → tracked d l → change_rows body n xs l d = (Ok l', d') →
  tracked d' l' ∧ (λ r, (key r, name r)) <$> l' = (λ r, (key r, name r)) <$> l
  ∧ (∀ k, k ∉ key <$> l → T d' !! k = T d !! k)
  ∧ (∀ r, r ∈ l' → name r ∉ omap entry xs → r ∈ l)
  ∧ (∀ r, r ∈ l' → name r ∈ omap entry xs → ∃ x, x ∈ xs ∧ entry x = Some (name r) ∧ fits x r).
Proof.
  intros Hb. revert n l d. induction xs as [|x xs IH]; intros n l d Htr Hrun; simpl in Hrun.
  { apply ret_Ok in Hrun as [<- <-]. split_and!; [done..|]. intros r _ []%not_elem_of_nil. }
  apply bind_Ok in Hrun as (l1 & d1 & Hx & Hrun). apply Hb in Hx as [(He & -> & HT)|(pre & r & r' & post & -> & -> & He & Hkr & Hnr & Hfit & HT)].
  - assert (Htr1 : tracked d1 l) by (destruct Htr; split; [done..|]; intros; rewrite HT; auto).
    destruct (IH _ _ _ Htr1 Hrun) as (H1 & H2 & H3 & H4 & H5). simpl. rewrite He. rewrite HT in H3. split_and!; [done..|]. intros r Hr Hin. destruct (H5 r Hr Hin) as (y & Hy & ?). exists y. split; [by right|done].
  - assert (Htr1 : tracked d1 (pre ++ r' :: post)) by by eapply change_tracked.
    destruct (IH _ _ _ Htr1 Hrun) as (H1 & H2 & H3 & H4 & H5). simpl. rewrite He.
    split_and!; [done| | | |].
    + rewrite H2, !fmap_app, !fmap_cons. by rewrite Hkr, Hnr.
    + intros k Hk. rewrite H3, HT, lookup_insert_ne; [done| |].
      * intros <-. apply Hk. apply list_elem_of_fmap_2, elem_of_app. right. left.
      * contradict Hk. rewrite fmap_app, fmap_cons in *. by rewrite Hkr in Hk.
    + intros y Hy [Hyn Hyx]%not_elem_of_cons. specialize (H4 y Hy Hyx). apply elem_of_app in H4 as [?|[->|?]%elem_of_cons].
      * apply elem_of_app; auto.
      * by rewrite Hnr in Hyn.
      * apply elem_of_app; right; by right.
    + intros y Hy Hin. destruct (decide (name y ∈ omap entry xs)) as [Hxs|Hxs].
      * destruct (H5 y Hy Hxs) as (z & Hz & ?). exists z. split; [by right|done].
      * apply elem_of_cons in Hin as [Hin|?]; [|done]. exists x. split; [left|]. rewrite Hin. split; [done|].
        specialize (H4 y Hy Hxs). assert (y = r') as ->; [|done].
        eapply (NoDup_fmap_same name); [apply (tr_names _ _ Htr1)|done|apply elem_of_app; right; left|]. congruence.
Qed.

(** Every listed row is changed by an entry for it, and no other row is. *)
Lemma rows_changed xs n l d l' d' :
  changes_row → tracked d l → missing_some (name <$> l) (omap entry xs) = false → change_rows body n xs l d = (Ok l', d') →
  (∀ r, r ∈ l → ∃ x r', x ∈ xs ∧ entry x = Some (name r) ∧ T d' !! key r = Some r' ∧ fits x r')
  ∧ (∀ k, k ∉ key <$> l → T d' !! k = T d !! k).
Proof.
  intros Hb Htr Hall Hrun. destruct (change_rows_spec _ _ _ _ _ _ Hb Htr Hrun) as (Htr' & Hsame & Hother & _ & Hfit).
  split; [|done]. intros r Hr. assert ((key r, name r) ∈ (λ r, (key r, name r)) <$> l') as (r' & Heq & Hr')%list_elem_of_fmap.
  { rewrite Hsame. by apply (list_elem_of_fmap_2 (λ r, (key r, name r))). }
  injection Heq as Hk Hn. destruct (Hfit r' Hr') as (x & Hx & He & Hf).
  - rewrite <-Hn. apply not_true_iff_false in Hall. destruct (decide (name r ∈ omap entry xs)) as [|Hno]; [done|].
    destruct Hall. apply existsb_elem. exists (name r). split; [by apply list_elem_of_fmap_2|]. by rewrite bool_decide_false.
  - exists x, r'. rewrite Hn, Hk. split_and!; [done..| |done]. by apply Htr'.
Qed.
End changing.

(** Rows as a query reads them. *)
Definition queried {R} (key : R → string) (t : gmap string R) (l : list R) : Prop := NoDup l ∧ ∀ r, r ∈ l → t !! key r = Some r.
Lemma queried_where {R} key (t : gmap string R) p l : queried key t l → queried key t (where_ p l).
Proof.
  intros [Hnd Hl]. split; [by apply NoDup_ListNoDup, List.NoDup_filter, NoDup_ListNoDup|].
  intros r [Hr _]%elem_of_where. by apply Hl.
Qed.
Lemma queried_rows {R} key (t : gmap string R) : map_Forall (λ k r, key r = k) t → queried key t (rows t).
Proof.
  intros Hk. split; [by apply (NoDup_rows _ key)|]. intros r (k & Hr)%elem_of_rows. by rewrite (Hk _ _ Hr).
Qed.
Lemma queried_tracked {S R} (T : S → gmap string R) (key name : R → string) l s :
  queried key (T s) l → (∀ r r', r ∈ l → r' ∈ l → name r = name r' → r = r') → tracked T key name s l.
Proof.
  intros [Hnd Hl] Hn. split; [|..|done].
  - apply NoDup_fmap_2_strong; [|done]. intros r r' Hr Hr'. by apply Hn.
  - apply NoDup_fmap_2_strong; [|done]. intros r r' Hr Hr' He. apply Hl in Hr, Hr'. congruence.
Qed.

Lemma find_mut_Ok {S A} p msg (f : A → M S A) l d l' d' :
  find_mut p msg f l d = (Ok l', d') →
  ∃ pre a a' post, l = pre ++ a :: post ∧ l' = pre ++ a' :: post ∧ p a = true ∧ f a d = (Ok a', d').
Proof.
  revert l'. induction l as [|a l IH]; simpl; intros l' Hr; [done|]. destruct (p a) eqn:Hp.
  - apply bind_Ok in Hr as (a' & d1 & Ha & Hr). apply ret_Ok in Hr as [-> ->]. by exists [], a, a', l.
  - apply bind_Ok in Hr as (l1 & d1 & Hl & Hr). apply ret_Ok in Hr as [-> ->].
    destruct (IH _ Hl) as (pre & b & b' & post & -> & -> & Hb & Hf). by exists (a :: pre), b, b', post.
Qed.
Lemma keeps_find_mut {S A} (R : relation S) `{!PreOrder R} p msg (f : A → M S A) l : (∀ a, keeps R (f a)) → keeps R (find_mut p msg f l).
Proof. intros Hf. induction l as [|a l IH]; simpl; solve_keeps. Qed.
Lemma keeps_change_rows {S X A} (R : relation S) `{!PreOrder R} (body : nat → X → list A → M S (list A)) n l ex :
  (∀ n x ex, keeps R (body n x ex)) → keeps R (change_rows body n l ex).
Proof. intros Hb. revert n ex. induction l as [|x l IH]; intros n ex; simpl; solve_keeps. Qed.

(** ** What each loop writes *)
Section loops.
Context `{E : Env} `{K : Codecs} `{C : Crypto} `{V : VaultConfig} `{J : JsonText} `{SC : SendConfig}.

(** The entry of the request, as the row shows it. *)
Definition folder_fits (x : UpdateFolderData.t) (f : Folder.t) : Prop := Folder.name f = UpdateFolderData.name x.
Definition contact_fits (x : UpdateEmergencyAccessData.t) (ea : EmergencyAccess.t) : Prop :=
  EmergencyAccess.key_encrypted ea = Some (UpdateEmergencyAccessData.key_encrypted x).
Definition recovery_fits (x : UpdateResetPasswordData.t) (m : Membership.t) : Prop :=
  Membership.reset_password_key m = Some (UpdateResetPasswordData.reset_password_key x).
Definition send_fits (x : SendData.t) (s : Send.t) : Prop :=
  Send.name s = SendData.name x ∧ Send.akey s = SendData.key x ∧ Send.notes s = SendData.notes x
  ∧ (SendData.type x = SendType_as_i32 SendText →
     ∃ text, SendData.text x = Some text ∧ Send.data s = json_to_string (drop_response text)).
Definition cipher_fits (u : string) (x : CipherData.t) (c : Cipher.t) : Prop :=
  Cipher.user_uuid c = Some u ∧ Cipher.key c = CipherData.key x ∧ Cipher.name c = CipherData.name x
  ∧ Cipher.notes c = CipherData.notes x ∧ Cipher.password_history c = json_to_string <$> CipherData.password_history x
  ∧ (∃ j d, type_data x d = (Ok j, d) ∧ Cipher.data c = json_to_string j)
  ∧ match CipherData.fields x with
    | Some f => ∃ f', clean_cipher_data f = Some f' ∧ Cipher.fields c = Some (json_to_string f')
    | None => Cipher.fields c = None
    end.

Lemma folders_change : changes_row folders Folder.uuid Folder.uuid UpdateFolderData.id folder_fits (λ _, rotate_folder).
Proof.
  intros n x l d l' d'. unfold rotate_folder. destruct (UpdateFolderData.id x) as [k|] eqn:Hid.
  - intros (pre & f & f' & post & -> & -> & Hf & Hr)%find_mut_Ok. bools. right. exists pre, f, f', post.
    unfold Folder_save in Hr. run_step Hr. apply modify_Ok in Hrun as ->. run_step Hr. unfold save_row in Hrun. destruct (has _ _); [|done].
    injection Hrun as <- <-. run_step Hr. by split_and!.
  - intros [-> ->]%ret_Ok. by left.
Qed.
Lemma contacts_change : changes_row emergency_access EmergencyAccess.uuid EmergencyAccess.uuid
  (λ x, Some (UpdateEmergencyAccessData.id x)) contact_fits (λ _, rotate_contact).
Proof.
  intros n x l d l' d' (pre & f & f' & post & -> & -> & Hf & Hr)%find_mut_Ok. bools. right. exists pre, f, f', post.
  unfold EmergencyAccess_save in Hr. run_step Hr. apply modify_Ok in Hrun as ->. run_step Hr. unfold save_row in Hrun. destruct (_ && _); [|done].
  injection Hrun as <- <-. run_step Hr. by split_and!; rewrite ?Hf.
Qed.
Lemma recovery_change : changes_row users_organizations Membership.uuid Membership.org_uuid
  (λ x, Some (UpdateResetPasswordData.organization_id x)) recovery_fits (λ _, rotate_recovery).
Proof.
  intros n x l d l' d' (pre & f & f' & post & -> & -> & Hf & Hr)%find_mut_Ok. bools. right. exists pre, f, f', post.
  cbv zeta in Hr. run_step Hr. unfold Membership_save in Hrun. run_step Hrun. apply modify_Ok in Hrun0 as ->. unfold save_row in Hrun.
  destruct (_ && _); [|done]. injection Hrun as <- <-. run_step Hr. by split_and!; rewrite ?Hf.
Qed.

Lemma sends_change draws h : changes_row sends Send.uuid Send.uuid SendData.id send_fits
  (λ n, rotate_send_row (draws n) h).
Proof.
  intros n x l d l' d' Hr. unfold rotate_send_row in Hr. case_bool_decide; [done|]. destruct (SendData.id x) as [k|] eqn:Hid; [|done].
  cbn [unwrap expect] in Hr. rewrite run_ret in Hr. apply find_mut_Ok in Hr as (pre & f & f' & post & -> & -> & Hf & Hr).
  bools. right. exists pre, f, f', post. unfold update_send_from_data in Hr. run_step Hr. run_step Hr. run_step Hr.
  apply bind_Ok in Hr as (g & d1 & Hg & Hr). assert (d1 = d ∧ Send.uuid g = Send.uuid f
    ∧ (SendData.type x = SendType_as_i32 SendText → ∃ text, SendData.text x = Some text ∧ Send.data g = json_to_string (drop_response text))) as (-> & Hug & Hdg).
  { destruct (_ =? _) eqn:Ht in Hg.
    - destruct (SendData.text x) as [text|]; [|done]. cbn [some_or] in Hg. rewrite run_ret in Hg. apply ret_Ok in Hg as [-> ->].
      split_and!; [done..|]. eauto.
    - apply ret_Ok in Hg as [-> ->]. split_and!; [done..|]. intros He. rewrite He in Ht. done. }
  apply bind_Ok in Hr as (mx & d2 & Hmx & Hr). assert (sends d2 = sends d) as HT.
  { eapply (same_part sends); [|exact Hmx]. unfold read_max_access_count. by db_keeps. }
  apply bind_Ok in Hr as (g' & d3 & Hsv & Hr). apply Send_save_Ok in Hsv as [Hg' HT3]. cbn [when] in Hr. rewrite run_ret in Hr.
  apply ret_Ok in Hr as [-> ->]. rewrite HT in HT3.
  destruct (SendData.password x); subst g'; split_and!; try done; cbn in *; congruence.
Qed.

Lemma type_data_pure x d j d' : type_data x d = (Ok j, d') → d' = d.
Proof.
  intros Hr. symmetry. change ((λ d : DB, d) d = (λ d : DB, d) d'). symmetry. eapply (same_part (λ d, d)); [|exact Hr].
  unfold type_data, unwrap, expect, panic. by db_keeps.
Qed.
Lemma personal_update_Ok c x h d c' d' :
  CipherData.organization_id x = None → update_cipher_from_data c x h None UpdateNone d = (Ok c', d') →
  Cipher.uuid c' = Cipher.uuid c ∧ cipher_fits (User.uuid (Headers.user h)) x c' ∧ ciphers d' = <[Cipher.uuid c := c']> (ciphers d).
Proof.
  intros Horg Hr. unfold update_cipher_from_data in Hr. run_step Hr. assert (share_tables s = share_tables d) as T0.
  { eapply (same_part share_tables); [|exact Hrun]. unfold enforce_personal_ownership_policy. by db_keeps. }
  run_step Hr. run_step Hr. run_step Hr. apply bind_Ok in Hr as (g & d1 & Hg & Hr). unfold place_cipher in Hg. rewrite Horg in Hg.
  apply ret_Ok in Hg as [-> ->].
  run_step Hr. assert (share_tables s0 = share_tables s) as T1.
  { eapply (same_part share_tables); [|exact Hrun0]. unfold check_folder. by db_keeps. }
  run_step Hr. pose proof (same_part _ _ _ _ _ (rename_same _ _) Hrun1) as T2.
  apply bind_Ok in Hr as (j & d2 & Hj & Hr). pose proof (type_data_pure _ _ _ _ Hj) as ->.
  apply bind_Ok in Hr as (fs & d3 & Hfs & Hr). assert (d3 = s1 ∧ match CipherData.fields x with
    | Some f => ∃ f', clean_cipher_data f = Some f' ∧ fs = Some (json_to_string f') | None => fs = None end) as [-> Hfields].
  { destruct (CipherData.fields x) as [f|]; [|by apply ret_Ok in Hfs as [-> ->]]. destruct (clean_cipher_data f) as [f'|]; [|done].
    cbn [unwrap expect] in Hfs. rewrite run_ret in Hfs. apply ret_Ok in Hfs as [-> ->]. eauto. }
  apply bind_Ok in Hr as (c1 & d4 & Hsv & Hr). apply cipher_save_Ok in Hsv as (Hsaved & _ & _ & R3).
  pose proof (same_part _ _ _ _ _ (after_save_same c1 x (User.uuid (Headers.user h)) UpdateNone) Hr) as T5.
  assert (c' = c1) as ->. { do 4 (apply bind_Ok in Hr as (? & ? & _ & Hr)). by apply ret_Ok in Hr as [-> _]. }
  assert (ciphers s1 = ciphers d) as HT. { pose proof (f_equal (λ t, t.1.2) (eq_trans T2 (eq_trans T1 T0))) as A. exact A. }
  pose proof (f_equal (λ t, t.1.2) T5) as HT5. unfold share_tables in HT5. cbn [fst snd] in HT5. rewrite HT5, R3, HT.
  clear - Hsaved Hj Hfields. subst c1. unfold cipher_fits. split_and!; try done. by exists j, s1.
Qed.
Definition cipher_entry (x : CipherData.t) : option string := if personal x then CipherData.id x else None.
Lemma ciphers_change h : changes_row ciphers Cipher.uuid Cipher.uuid cipher_entry (cipher_fits (User.uuid (Headers.user h)))
  (λ _, rotate_cipher h).
Proof.
  intros n x l d l' d' Hr. unfold rotate_cipher, cipher_entry in *. destruct (personal x) eqn:Hp; cbn [negb] in Hr.
  - case_bool_decide; [done|]. destruct (CipherData.id x) as [k|]; [|done]. cbn [unwrap expect] in Hr. rewrite run_ret in Hr.
    apply find_mut_Ok in Hr as (pre & f & f' & post & -> & -> & Hf & Hr). unfold personal in Hp. bools.
    apply personal_update_Ok in Hr as (Hu & Hfit & HT); [|done]. right. subst k. exists pre, f, f', post. do 6 (split; [done|]). done.
  - apply ret_Ok in Hr as [-> ->]. by left.
Qed.

(** The loops write to their own table only, among these. *)
Definition but_folders (d : DB) := (emergency_access d, users_organizations d, sends d, ciphers d).
Definition but_contacts (d : DB) := (folders d, users_organizations d, sends d, ciphers d).
Definition but_recovery (d : DB) := (folders d, emergency_access d, sends d, ciphers d).
Definition but_sends (d : DB) := (folders d, emergency_access d, users_organizations d, ciphers d).
Definition but_ciphers (d : DB) := (folders d, emergency_access d, users_organizations d, sends d).

Lemma folders_only l ex : keeps (same_on but_folders) (change_rows (λ _, rotate_folder) 0 l ex).
Proof.
  apply keeps_change_rows; [apply _|]. intros _ x ex'. unfold rotate_folder. case_match; [|apply keeps_ret, _].
  apply keeps_find_mut; [apply _|]. intros f. unfold Folder_save, User_update_uuid_revision. by db_keeps.
Qed.
Lemma contacts_only l ex : keeps (same_on but_contacts) (change_rows (λ _, rotate_contact) 0 l ex).
Proof.
  apply keeps_change_rows; [apply _|]. intros _ x ex'. apply keeps_find_mut; [apply _|]. intros f.
  unfold EmergencyAccess_save, User_update_uuid_revision. by db_keeps.
Qed.
Lemma recovery_only l ex : keeps (same_on but_recovery) (change_rows (λ _, rotate_recovery) 0 l ex).
Proof.
  apply keeps_change_rows; [apply _|]. intros _ x ex'. apply keeps_find_mut; [apply _|]. intros f.
  unfold Membership_save, User_update_uuid_revision. by db_keeps.
Qed.
Lemma sends_only draws h l ex : keeps (same_on but_sends) (change_rows (λ n, rotate_send_row (draws n) h) 0 l ex).
Proof.
  apply keeps_change_rows; [apply _|]. intros n x ex'. unfold rotate_send_row, unwrap, expect, panic.
  solve_keeps; apply keeps_find_mut; try apply _; intros f.
  all: unfold update_send_from_data, read_max_access_count, Send_save, Send_update_users_revision, User_update_uuid_revision; by db_keeps.
Qed.
Lemma ciphers_only h l ex : keeps (same_on but_ciphers) (change_rows (λ _, rotate_cipher h) 0 l ex).
Proof.
  apply keeps_change_rows; [apply _|]. intros n x ex'. unfold rotate_cipher, unwrap, expect, panic.
  solve_keeps; apply keeps_find_mut; try apply _; intros f.
  all: unfold update_cipher_from_data, enforce_personal_ownership_policy, place_cipher, check_folder, type_data, unwrap, expect, panic.
  all: unfold Cipher_save, Cipher_move_to_folder, Cipher_set_favorite, Favorite_set_favorite, Cipher_set_archived_at, Archive_save,
    FolderCipher_save, FolderCipher_delete, Cipher_update_users_revision, User_update_uuid_revision; db_keeps; try done.
  all: match goal with |- context [rename_attachments _ ?l] => induction l as [|[] ? IH]; simpl; unfold Attachment_save in *; db_keeps; done end.
Qed.

(** The rows [old] of [T] are stored again as the entries say, and no others. *)
Definition stored_again {R X} (T : DB → gmap string R) (key name : R → string) (entry : X → option string) (fits : X → R → Prop)
    (old : list R) (entries : list X) (d d' : DB) : Prop :=
  (∀ r, r ∈ old → ∃ x r', x ∈ entries ∧ entry x = Some (name r) ∧ T d' !! key r = Some r' ∧ fits x r')
  ∧ (∀ k, k ∉ key <$> old → T d' !! k = T d !! k).

Lemma loop_stores {R X} T (key name : R → string) entry fits body (old : list R) (entries : list X) l' d d1 d2 d' :
  changes_row T key name entry fits body → queried key (T d) old → (∀ r r', r ∈ old → r' ∈ old → name r = name r' → r = r') →
  missing_some (name <$> old) (omap entry entries) = false → change_rows body 0 entries old d1 = (Ok l', d2) →
  T d1 = T d → T d' = T d2 → stored_again T key name entry fits old entries d d'.
Proof.
  intros Hb Hq Hn Hall Hrun H1 H2. unfold stored_again. rewrite H2, <-H1 in *. eapply rows_changed; [done| |done..].
  by apply queried_tracked.
Qed.
Lemma stored_same {R} key (t : gmap string R) l r r' : queried key t l → r ∈ l → r' ∈ l → key r = key r' → r = r'.
Proof. intros [_ Hl] Hr%Hl Hr'%Hl He. congruence. Qed.

Lemma validate_Ok {S} data cs fs eas ms ss user (s s' : S) :
  validate_keydata data cs fs eas ms ss user s = (Ok (), s') →
  let unlock := KeyData.account_unlock_data data in let items := KeyData.account_data data in
  s' = s
  ∧ missing_some (Cipher.uuid <$> cs) (omap CipherData.id (where_ personal (RotateAccountData.ciphers items))) = false
  ∧ missing_some (Folder.uuid <$> fs) (omap UpdateFolderData.id (RotateAccountData.folders items)) = false
  ∧ missing_some (EmergencyAccess.uuid <$> eas) (UpdateEmergencyAccessData.id <$> RotateAccountUnlockData.emergency_access_unlock_data unlock) = false
  ∧ missing_some (Membership.org_uuid <$> ms)
      (UpdateResetPasswordData.organization_id <$> RotateAccountUnlockData.organization_account_recovery_unlock_data unlock) = false
  ∧ missing_some (Send.uuid <$> ss) (omap SendData.id (RotateAccountData.sends items)) = false.
Proof. unfold validate_keydata. intros Hr. cbv zeta in *. do 7 run_step Hr. apply ret_Ok in Hr as [_ ->]. by split_and!. Qed.

Lemma omap_total {A B} (f : A → B) (l : list A) : omap (λ x, Some (f x)) l = f <$> l.
Proof. induction l as [|x l IH]; [done|]. simpl. by f_equal. Qed.
Lemma omap_cipher_entry l : omap cipher_entry l = omap CipherData.id (where_ personal l).
Proof. induction l as [|x l IH]; [done|]. unfold cipher_entry at 1; simpl. destruct (personal x); simpl; [|exact IH]. destruct (CipherData.id x); [by f_equal|exact IH]. Qed.

(** The account, at the end of the request. *)
Definition rotated_tables (d : DB) := (folders d, emergency_access d, users_organizations d, sends d, ciphers d).
Lemma account_saved stamp tokens hash key user d d' :
  (u ← User_set_password stamp tokens hash (Some key) true None user; User_save u ;; mret ()) d = (Ok (), d') →
  rotated_tables d' = rotated_tables d
  ∧ ∃ v, users d' !! User.uuid user = Some v ∧ User.akey v = key ∧ User.private_key v = User.private_key user
      ∧ User.security_stamp v = stamp
      ∧ User.password_hash v = hash_password (as_bytes hash) (User.salt user) (cast_unsigned (User.password_iterations user)).
Proof.
  intros Hr. split.
  { eapply (same_part rotated_tables); [|exact Hr].
    unfold User_set_password, User_reset_security_stamp, Device_rotate_refresh_tokens_by_user, Device_save, User_save. by db_keeps. }
  apply bind_Ok in Hr as (v & d1 & Hv & Hr). unfold User_set_password, User_reset_security_stamp in Hv. run_step Hv. run_step Hv.
  apply bind_Ok in Hr as (w & d2 & Hw & Hr). apply ret_Ok in Hr as [_ ->]. unfold User_save in Hw. run_step Hw. run_step Hw.
  unfold save_row in Hrun0. destruct (negb (nonempty _)) in Hrun0; [|done]. injection Hrun0 as _ <-. run_step Hw. eexists.
  split; [apply lookup_insert_eq|]. by split_and!.
Qed.

(** C22. A rotation is complete. When the handler answers, every folder, contact
    key, recovery key, Send and personal cipher that the account had is stored
    as an entry of the request for it gives it, the account has the new keys,
    the new password and a new security stamp, and the rows of others in these
    tables are as before. *)
Theorem rotation_is_complete (draws : RotationDraws) (data : KeyData.t) (h : Headers.t) (d d' : DB) :
  wf d → post_rotatekey draws data h d = (Ok (), d') →
  let u := User.uuid (Headers.user h) in
  let unlock := KeyData.account_unlock_data data in let items := KeyData.account_data data in
  let password := RotateAccountUnlockData.master_password_unlock_data unlock in
  stored_again folders Folder.uuid Folder.uuid UpdateFolderData.id folder_fits
    (Folder_find_by_user u d) (RotateAccountData.folders items) d d'
  ∧ stored_again emergency_access EmergencyAccess.uuid EmergencyAccess.uuid (λ x, Some (UpdateEmergencyAccessData.id x)) contact_fits
      (EmergencyAccess_find_all_confirmed_by_grantor_uuid u d) (RotateAccountUnlockData.emergency_access_unlock_data unlock) d d'
  ∧ stored_again users_organizations Membership.uuid Membership.org_uuid (λ x, Some (UpdateResetPasswordData.organization_id x)) recovery_fits
      (where_ (λ m, bool_decide (is_Some (Membership.reset_password_key m))) (Membership_find_by_user u d))
      (RotateAccountUnlockData.organization_account_recovery_unlock_data unlock) d d'
  ∧ stored_again sends Send.uuid Send.uuid SendData.id send_fits (Send_find_by_user u d) (RotateAccountData.sends items) d d'
  ∧ stored_again ciphers Cipher.uuid Cipher.uuid cipher_entry (cipher_fits u)
      (Cipher_find_owned_by_user u d) (RotateAccountData.ciphers items) d d'
  ∧ ∃ v, users d' !! u = Some v ∧ User.akey v = MasterPasswordUnlockData.master_key_encrypted_user_key password
      ∧ User.private_key v = Some (RotateAccountKeys.user_key_encrypted_account_private_key (KeyData.account_keys data))
      ∧ User.security_stamp v = draw_stamp (rotate_account draws)
      ∧ User.password_hash v = hash_password (as_bytes (MasterPasswordUnlockData.master_key_authentication_hash password))
          (User.salt (Headers.user h)) (cast_unsigned (User.password_iterations (Headers.user h))).
Proof.
  intros Hwf Hr u unlock items password. unfold post_rotatekey in Hr. cbv zeta in Hr. run_step Hr.
  apply bind_Ok in Hr as ([] & d0 & Hval & Hr). assert (d0 = d) as ->.
  { unfold Cipher_validate_cipher_data in Hval. run_step Hval. by apply ret_Ok in Hval as [_ ->]. }
  rewrite !run_gets in Hr. apply bind_Ok in Hr as ([] & d0 & Hv & Hr). apply validate_Ok in Hv as (-> & Vc & Vf & Ve & Vm & Vs).
  apply bind_Ok in Hr as (l1 & d1 & H1 & Hr). apply bind_Ok in Hr as (l2 & d2 & H2 & Hr). apply bind_Ok in Hr as (l3 & d3 & H3 & Hr).
  apply bind_Ok in Hr as (l4 & d4 & H4 & Hr). apply bind_Ok in Hr as (l5 & d5 & H5 & Hr). apply account_saved in Hr as [T6 Hacc].
  pose proof (same_part _ _ _ _ _ (folders_only _ _) H1) as T1. pose proof (same_part _ _ _ _ _ (contacts_only _ _) H2) as T2.
  pose proof (same_part _ _ _ _ _ (recovery_only _ _) H3) as T3. pose proof (same_part _ _ _ _ _ (sends_only _ _ _ _) H4) as T4.
  pose proof (same_part _ _ _ _ _ (ciphers_only _ _ _) H5) as T5.
  unfold but_folders, but_contacts, but_recovery, but_sends, but_ciphers, rotated_tables in *.
  injection T1 as A1 A2 A3 A4. injection T2 as B1 B2 B3 B4. injection T3 as C1 C2 C3 C4. injection T4 as D1 D2 D3 D4.
  injection T5 as E1 E2 E3 E4. injection T6 as F1 F2 F3 F4 F5.
  assert (Qf : queried Folder.uuid (folders d) (Folder_find_by_user u d)) by apply queried_where, queried_rows, Hwf.
  assert (Qe : queried EmergencyAccess.uuid (emergency_access d) (EmergencyAccess_find_all_confirmed_by_grantor_uuid u d)).
  { apply queried_where, queried_rows, Hwf. }
  assert (Qs : queried Send.uuid (sends d) (Send_find_by_user u d)) by apply queried_where, queried_rows, Hwf.
  assert (Qc : queried Cipher.uuid (ciphers d) (Cipher_find_owned_by_user u d)) by apply queried_where, queried_rows, Hwf.
  split_and!; [..|done].
  - eapply loop_stores; [apply folders_change|exact Qf|intros ??; by eapply stored_same|exact Vf|exact H1|done|congruence].
  - eapply loop_stores; [apply contacts_change|exact Qe|intros ??; by eapply stored_same|by rewrite omap_total|exact H2|done|congruence].
  - eapply loop_stores; [apply recovery_change|apply queried_where, queried_where, queried_rows, Hwf| |by rewrite omap_total|exact H3|congruence..].
    intros m m' [[Hm Hu]%elem_of_where _]%elem_of_where [[Hm' Hu']%elem_of_where _]%elem_of_where He. bools.
    eapply wf_member_unique; [exact Hwf|done|done|congruence|done].
  - eapply loop_stores; [apply sends_change|exact Qs|intros ??; by eapply stored_same|exact Vs|exact H4|congruence..].
  - eapply loop_stores; [apply ciphers_change|exact Qc|intros ??; by eapply stored_same|by rewrite omap_cipher_entry|exact H5|congruence..].
Qed.

(** ** A rotation that stops half way *)

(** What opens an account. *)
Definition credentials (d : DB) : gmap string (string * option string * list Z * string) :=
  (λ v, (User.akey v, User.private_key v, User.password_hash v, User.security_stamp v)) <$> users d.
Definition stopped (d : DB) := (folders d, credentials d, users_organizations d, org_policies d).

Lemma credentials_touch u : keeps (same_on credentials) (User_update_uuid_revision u).
Proof.
  apply keeps_modify. intros d. unfold same_on, credentials. simpl. apply map_eq. intros k.
  rewrite !lookup_fmap, lookup_update_where. destruct (users d !! k); [|done]. simpl. by destruct (_ == _).
Qed.
Lemma stopped_touch u : keeps (same_on stopped) (User_update_uuid_revision u).
Proof. intros d. unfold same_on, stopped. pose proof (credentials_touch u d) as Hc. unfold same_on in Hc. by rewrite Hc. Qed.
Lemma folders_credentials l ex : keeps (same_on (λ d, (credentials d, users_organizations d, org_policies d)))
  (change_rows (λ _, rotate_folder) 0 l ex).
Proof.
  apply keeps_change_rows; [apply _|]. intros _ x ex'. unfold rotate_folder. case_match; [|apply keeps_ret, _].
  apply keeps_find_mut; [apply _|]. intros f. unfold Folder_save. db_keeps; try done.
  intros d. pose proof (credentials_touch (Folder.user_uuid (Folder.set_name (λ _, UpdateFolderData.name x) f)) d) as Hc.
  unfold same_on in *. by rewrite Hc.
Qed.
Lemma contacts_stopped l ex : keeps (same_on stopped) (change_rows (λ _, rotate_contact) 0 l ex).
Proof.
  apply keeps_change_rows; [apply _|]. intros _ x ex'. apply keeps_find_mut; [apply _|]. intros f.
  unfold EmergencyAccess_save. db_keeps; [apply stopped_touch|done].
Qed.
Lemma sends_stopped draws h l ex : keeps (same_on stopped) (change_rows (λ n, rotate_send_row (draws n) h) 0 l ex).
Proof.
  apply keeps_change_rows; [apply _|]. intros n x ex'. unfold rotate_send_row, unwrap, expect, panic.
  pose proof stopped_touch as Ht. solve_keeps; apply keeps_find_mut; try apply _; intros f.
  all: unfold update_send_from_data, read_max_access_count, Send_save, Send_update_users_revision; by db_keeps.
Qed.

(** The policy only looks at memberships and policies. *)
Lemma applicable_ext u ty d d' :
  users_organizations d' = users_organizations d → org_policies d' = org_policies d →
  OrgPolicy_is_applicable_to_user u ty None d' = OrgPolicy_is_applicable_to_user u ty None d.
Proof.
  intros Hm Hp. unfold OrgPolicy_is_applicable_to_user, OrgPolicy_find_accepted_and_confirmed_by_user_and_active_policy, policies_of_user,
    below_admin_in, Membership_find_confirmed_by_user_and_org. by rewrite Hm, Hp.
Qed.

Lemma find_mut_refused {S A} p msg (f : A → M S A) l s :
  (∀ a, ∃ e, f a s = (Err e, s)) → ∃ e, find_mut p msg f l s = (Err e, s).
Proof.
  intros Hf. induction l as [|a l [e IH]]; simpl; [by eexists|]. destruct (p a).
  - destruct (Hf a) as [e1 He]. exists e1. by apply run_bind_Err.
  - exists e. by apply run_bind_Err.
Qed.
Lemma cipher_loop_refused h n xs ex s :
  OrgPolicy_is_applicable_to_user (User.uuid (Headers.user h)) PersonalOwnership None s = true →
  existsb personal xs = true → ∃ e, change_rows (λ _, rotate_cipher h) n xs ex s = (Err e, s).
Proof.
  intros Hap. revert n. induction xs as [|x xs IH]; intros n Hex; [done|]. cbn [existsb change_rows] in *.
  destruct (personal x) eqn:Hp; cbn [orb] in Hex.
  - assert (∃ e, rotate_cipher h x ex s = (Err e, s)) as [e He]; [|exists e; by apply run_bind_Err].
    unfold rotate_cipher. rewrite Hp. cbn [negb]. case_bool_decide; [by eexists|].
    destruct (CipherData.id x) as [k|]; [|by eexists]. cbn [unwrap expect]. rewrite run_ret. apply find_mut_refused.
    intros c. eexists. unfold update_cipher_from_data, enforce_personal_ownership_policy. unfold personal in Hp. rewrite Hp.
    apply run_bind_Err. by rewrite run_gets, Hap.
  - destruct (IH (Datatypes.S n) Hex) as [e He]. exists e. erewrite run_bind_Ok; [exact He|]. unfold rotate_cipher. by rewrite Hp.
Qed.

(** A rotation under the policy on personal ownership loses data. When the
    policy binds an account with personal ciphers that is not enrolled in
    account recovery, a valid request to rotate the key is refused in any case,
    but only after the folders were stored with the new key: the account keeps
    its old keys, password and stamp, and the names of its folders are those
    that only the refused key opens. *)
Theorem policy_breaks_rotation (draws : RotationDraws) (data : KeyData.t) (h : Headers.t) (d d1 : DB) (l : list Folder.t) :
  let u := User.uuid (Headers.user h) in
  let unlock := KeyData.account_unlock_data data in let items := KeyData.account_data data in
  wf d → OrgPolicy_is_applicable_to_user u PersonalOwnership None d = true → Cipher_find_owned_by_user u d ≠ [] →
  User_check_valid_password (Headers.user h) (KeyData.old_master_key_authentication_hash data) = true →
  Cipher_validate_cipher_data (RotateAccountData.ciphers items) d = (Ok (), d) →
  validate_keydata data (Cipher_find_owned_by_user u d) (Folder_find_by_user u d) (EmergencyAccess_find_all_confirmed_by_grantor_uuid u d)
    (where_ (λ m, bool_decide (is_Some (Membership.reset_password_key m))) (Membership_find_by_user u d)) (Send_find_by_user u d)
    (Headers.user h) d = (Ok (), d) →
  RotateAccountUnlockData.organization_account_recovery_unlock_data unlock = [] →
  change_rows (λ _, rotate_folder) 0 (RotateAccountData.folders items) (Folder_find_by_user u d) d = (Ok l, d1) →
  ∃ e d', post_rotatekey draws data h d = (Err e, d') ∧ credentials d' = credentials d
    ∧ stored_again folders Folder.uuid Folder.uuid UpdateFolderData.id folder_fits
        (Folder_find_by_user u d) (RotateAccountData.folders items) d d'.
Proof.
  intros u unlock items Hwf Hap Hown Hpw Hcd Hv Hrec Hf.
  pose proof (same_part _ _ _ _ _ (folders_credentials _ _) Hf) as T1. injection T1 as A1 A2 A3.
  assert (Hlate : ∃ e d', post_rotatekey draws data h d = (Err e, d') ∧ stopped d' = stopped d1).
  { unfold post_rotatekey. cbv zeta. rewrite Hpw. cbn [negb]. rewrite (run_bind_Ok _ _ _ _ _ Hcd), !run_gets.
    pose proof (validate_Ok _ _ _ _ _ _ _ _ _ Hv) as (_ & Vc & _). rewrite (run_bind_Ok _ _ _ _ _ Hv), (run_bind_Ok _ _ _ _ _ Hf).
    destruct (change_rows (λ _, rotate_contact) 0 (RotateAccountUnlockData.emergency_access_unlock_data unlock)
      (EmergencyAccess_find_all_confirmed_by_grantor_uuid u d) d1) as [[l2|e] d2] eqn:H2;
      pose proof (same_part _ _ _ _ _ (contacts_stopped _ _) H2) as S2; [|exists e, d2; by rewrite (run_bind_Err _ _ _ _ _ H2)].
    rewrite (run_bind_Ok _ _ _ _ _ H2). fold unlock. rewrite Hrec. cbn [change_rows]. rewrite run_ret.
    destruct (change_rows (λ n, rotate_send_row (rotate_send draws n) h) 0 (RotateAccountData.sends items) (Send_find_by_user u d) d2) as [[l4|e] d4] eqn:H4;
      pose proof (same_part _ _ _ _ _ (sends_stopped _ _ _ _) H4) as S4;
      [|exists e, d4; split; [by rewrite (run_bind_Err _ _ _ _ _ H4)|congruence]].
    rewrite (run_bind_Ok _ _ _ _ _ H4). unfold stopped in S2, S4. injection S2 as B1 B2 B3 B4. injection S4 as D1 D2 D3 D4.
    destruct (cipher_loop_refused h 0 (RotateAccountData.ciphers items) (Cipher_find_owned_by_user u d) d4) as [e He].
    - fold u. rewrite (applicable_ext u _ d); [done|congruence..].
    - destruct (Cipher_find_owned_by_user u d) as [|c cs]; [done|]. apply not_true_iff_false in Vc. apply not_false_iff_true.
      intros Hno. destruct Vc. apply existsb_elem. exists (Cipher.uuid c). split; [left|]. rewrite bool_decide_false; [done|].
      intros (x & [Hx Hp]%elem_of_where & _)%list_elem_of_omap. apply not_true_iff_false in Hno. apply Hno, existsb_elem. eauto.
    - exists e, d4. split; [by apply run_bind_Err|]. unfold stopped. congruence. }
  destruct Hlate as (e & d' & Hrun & S). unfold stopped in S. injection S as S1 S2 S3 S4. exists e, d'. split_and!; [done|congruence|].
  pose proof (validate_Ok _ _ _ _ _ _ _ _ _ Hv) as (_ & _ & Vf & _).
  assert (Qf : queried Folder.uuid (folders d) (Folder_find_by_user u d)) by apply queried_where, queried_rows, Hwf.
  eapply loop_stores; [apply folders_change|exact Qf|intros ??; by eapply stored_same|exact Vf|exact Hf|done|done].
Qed.
End loops.

(** ** Bob changes his key

    He has a folder, an emergency contact, a recovery key, a text to send and a
    cipher. *)
Module SampleRotation.
#[export] Existing Instances Sample.env SampleCodecs.codecs SampleVault.config SampleVault.crypto SampleSends.json SampleSends.send_config.

Definition bob : User.t := User.set_public_key (λ _, Some "public") (Sample.user Sample.env "bob" "b@x").
Definition session : Headers.t := Headers.mk Sample.phone bob "10.0.0.1".
Definition contact := EmergencyAccess.mk "e1" "bob" (Some "alice") None (Some "old") 0 2 7 None None 0 0.
Definition text := Send.mk "s1" (Some "bob") None "old" None 0 "{}" "old" None None None None 0 0 0 None 0 false None.
Definition db (recovery : option string) : DB :=
  set_users <["bob" := bob]> (set_emergency_access <["e1" := contact]> (set_sends <["s1" := text]>
  (set_users_organizations <["m-bob" := Membership.set_reset_password_key (λ _, recovery) Sample.bob]> Sample.db))).
Definition restricted : DB := set_org_policies <["p1" := OrgPolicy.mk "p1" "acme" 5 true "null"]> (db None).

Definition draws : RotationDraws := {|
  rotate_account := {| draw_seed := MkSeed "" "" []; draw_stamp := "stamp2"; draw_token_for := λ v, v; draw_factor_id := "";
    draw_api_key := ""; draw_email_token := ""; draw_id := "" |};
  rotate_send _ := {| new_send_id := ""; new_send_salt := []; new_file_id := "" |} |}.
Definition item (id : string) : CipherData.t :=
  CipherData.mk (Some id) None None None 1 "new" None None (Some (JsObject [("response", JsNull)])) None None None None None None None
    None None None.
Definition data (recovery : list UpdateResetPasswordData.t) : KeyData.t :=
  KeyData.mk
    (RotateAccountUnlockData.mk [UpdateEmergencyAccessData.mk "e1" "new"]
       (MasterPasswordUnlockData.mk (User.client_kdf_type bob) (User.client_kdf_iter bob) None None "b@x" "hash" "key") recovery)
    (RotateAccountKeys.mk "private" "public")
    (RotateAccountData.mk [item "k2"] [UpdateFolderData.mk None "null"; UpdateFolderData.mk (Some "f1") "new"]
       [SendData.mk 0 "new" None None None 0 false None None "new" None (Some (JsObject [])) None None (Some "s1")]) "".
End SampleRotation.
Import SampleRotation.

Lemma rotation_is_complete_witness :
  let d' := (post_rotatekey draws (data [UpdateResetPasswordData.mk "acme" "new"]) session (db (Some "old"))).2 in
  (∃ c, ciphers d' !! "k2" = Some c ∧ Cipher.name c = "new"%string)
  ∧ (∃ s, sends d' !! "s1" = Some s ∧ Send.akey s = "new"%string)
  ∧ (∃ m, users_organizations d' !! "m-bob" = Some m ∧ Membership.reset_password_key m = Some "new"%string)
  ∧ ∃ v, users d' !! "bob" = Some v ∧ User.akey v = "key"%string.
Proof.
  intros d'. assert (post_rotatekey draws (data [UpdateResetPasswordData.mk "acme" "new"]) session (db (Some "old")) = (Ok (), d')) as Hrun.
  { subst d'. vm_compute. reflexivity. }
  clearbody d'.
  destruct (rotation_is_complete draws _ session (db (Some "old")) d' ltac:(by apply wf_b_sound; vm_compute) Hrun)
    as (_ & _ & Hm & Hs & Hc & v & Hv & Hkey & _).
  clear Hrun. split_and!; [..|exists v; split; [exact Hv|exact Hkey]].
  - destruct Hc as [Hc _]. destruct (Hc Sample.k2) as (x & c & Hx & _ & Hl & Hfit); [apply (bool_decide_unpack _); by vm_compute|].
    exists c. split; [done|]. apply list_elem_of_singleton in Hx as ->. apply Hfit.
  - destruct Hs as [Hs _]. destruct (Hs text) as (x & s & Hx & _ & Hl & Hfit); [vm_compute; left|].
    exists s. split; [done|]. apply list_elem_of_singleton in Hx as ->. apply Hfit.
  - destruct Hm as [Hm _]. destruct (Hm (Membership.set_reset_password_key (λ _, Some "old"%string) Sample.bob)) as (x & m & Hx & _ & Hl & Hfit).
    { apply (bool_decide_unpack _). by vm_compute. }
    exists m. split; [done|]. apply list_elem_of_singleton in Hx as ->. apply Hfit.
Defined.

Lemma policy_breaks_rotation_witness :
  ∃ e d', post_rotatekey draws (data []) session restricted = (Err e, d') ∧ credentials d' = credentials restricted
    ∧ ∃ f, folders d' !! "f1" = Some f ∧ Folder.name f = "new"%string.
Proof.
  destruct (change_rows (λ _, rotate_folder) 0 (RotateAccountData.folders (KeyData.account_data (data [])))
    (Folder_find_by_user "bob" restricted) restricted) as [r d1] eqn:Hf. destruct r as [l|e]; [|vm_compute in Hf; discriminate Hf].
  destruct (policy_breaks_rotation draws (data []) session restricted d1 l) as (e & d' & Hrun & Hcred & Hst & _).
  - by apply wf_b_sound; vm_compute.
  - vm_compute. reflexivity.
  - vm_compute. discriminate.
  - vm_compute. reflexivity.
  - vm_compute. reflexivity.
  - vm_compute. reflexivity.
  - reflexivity.
  - exact Hf.
  - clear Hf. exists e, d'. split; [exact Hrun|]. split; [exact Hcred|]. clear Hrun Hcred. destruct (Hst (Folder.mk "f1" 0 0 "bob" "Home")) as (x & f & Hx & Hid & Hl & Hfit).
    { apply (bool_decide_unpack _). by vm_compute. }
    exists f. split; [done|]. repeat (apply elem_of_cons in Hx as [->|Hx]; [first [done|apply Hfit]|]). by apply not_elem_of_nil in Hx.
Defined.
