(* ===== verification/Authentication.v ===== *)
(** Who gets in: theorems on the guards and on the logins.

    A request passes the guard exactly when it shows a live session; a password
    login succeeds only with the credentials and the second factor of an enabled
    account; the token of a login opens the guard; and an account that the
    administrator disables is locked out. *)
From S2P Require Import Prelude Schema Roles Users Invariants Samples TwoFactors OneTimeCodes Sends EmergencyRows Memberships Groups Collections Guards VaultItems Ciphers Policies Organizations Emergency Members Accounts Tokens SingleSignOn Identity.
Local Open Scope Z_scope.

(** ** Rows that a lookup finds *)

Lemma find_user_Some k d u : User_find_by_uuid k d = Some u → u ∈ rows (users d) ∧ User.uuid u = k.
Proof. intros [Hin Hp]%head_Some_elem%elem_of_where. by bools. Qed.
Lemma find_device_Some k o d v :
  Device_find_by_uuid_and_user k o d = Some v → v ∈ rows (devices d) ∧ Device.uuid v = k ∧ Device.user_uuid v = o.
Proof. intros [Hin Hp]%head_Some_elem%elem_of_where. by bools. Qed.

Lemma find_user_row d u :
  map_Forall (λ k r, User.uuid r = k) (users d) → u ∈ rows (users d) → User_find_by_uuid (User.uuid u) d = Some u.
Proof.
  intros Hk Hin. apply head_unique.
  - apply elem_of_where. by rewrite bool_decide_true.
  - intros v [Hv Hp]%elem_of_where. bools. by eapply rows_key.
Qed.
Lemma find_device_row d v :
  map_Forall (λ k r, (Device.uuid r, Device.user_uuid r) = k) (devices d) → v ∈ rows (devices d) →
  Device_find_by_uuid_and_user (Device.uuid v) (Device.user_uuid v) d = Some v.
Proof.
  intros Hk Hin. apply head_unique.
  - apply elem_of_where. by rewrite !bool_decide_true.
  - intros w [Hw Hp]%elem_of_where. bools. apply elem_of_rows in Hin as [k Hin], Hw as [k' Hw].
    pose proof (Hk _ _ Hin) as H1. pose proof (Hk _ _ Hw) as H2. simpl in *. congruence.
Qed.

Lemma some_or_401_Ok {A} (o : option A) msg (d : DB) a d' : some_or_401 o msg d = (Ok a, d') → o = Some a ∧ d' = d.
Proof. destruct o; [|done]. by intros [= <- <-]. Qed.
Lemma expect_Ok {A} (o : option A) msg (d : DB) a d' : expect o msg d = (Ok a, d') → o = Some a ∧ d' = d.
Proof. destruct o; [|done]. by intros [= <- <-]. Qed.

(** Takes a run apart as far as it is one of statements and tests. *)
Ltac run_steps :=
  repeat match goal with
  | H : some_or_401 _ _ _ = (Ok _, _) |- _ => let Hs := fresh in apply some_or_401_Ok in H as [H Hs]; try subst
  | H : expect _ _ _ = (Ok _, _) |- _ => let Hs := fresh in apply expect_Ok in H as [H Hs]; try subst
  | H : _ = (Ok _, _) |- _ => run_step H
  end.

Ltac found_rows :=
  repeat match goal with
  | H : Device_find_by_uuid_and_user _ _ _ = Some _ |- _ =>
      let Hu := fresh "Hu" in let Ho := fresh "Ho" in apply find_device_Some in H as (H & Hu & Ho)
  | H : User_find_by_uuid _ _ = Some _ |- _ => let Hu := fresh "Hu" in apply find_user_Some in H as [H Hu]
  end.

Lemma MembershipStatus_from_as n s : MembershipStatus_from_i32 n = Some s → n = MembershipStatus_as_i32 s.
Proof. unfold MembershipStatus_from_i32. destruct n as [|[[]|[]|]|]; intros; by simplify_eq. Qed.

Section guards.
Context `{E : Env} `{L : LoginTokens}.

(** The routes that an old stamp is still good for, for two minutes. *)
Definition excepted (req : Request.t) (claims : LoginJwtClaims.t) (user : User.t) : Prop :=
  ∃ x route, User.stamp_exception user = Some x ∧ Request.route req = Some route
    ∧ now / 1000000 ≤ UserStampException.expire x ∧ route ∈ UserStampException.routes x
    ∧ UserStampException.security_stamp x = LoginJwtClaims.sstamp claims.

(** The request shows a verified token of a stored device of a stored account,
    with the stamp of the account. *)
Definition live_session (req : Request.t) (d : DB) (device : Device.t) (user : User.t) : Prop :=
  ∃ a claims, Request.authorization req = Some a ∧ decode_login (rsplit_next "Bearer " a) = Ok claims
    ∧ device ∈ rows (devices d) ∧ Device.uuid device = LoginJwtClaims.device claims
    ∧ Device.user_uuid device = User.uuid user
    ∧ user ∈ rows (users d) ∧ User.uuid user = LoginJwtClaims.sub claims
    ∧ (User.security_stamp user = LoginJwtClaims.sstamp claims ∨ excepted req claims user).

Lemma check_stamp_Ok req claims user d d' :
  check_stamp_exception req claims user d = (Ok (), d') → excepted req claims user ∧ d' = d.
Proof.
  unfold check_stamp_exception. intros H. run_steps. bools. apply Z.ltb_ge in Hc0. split; [|done].
  unfold excepted. naive_solver.
Qed.

Lemma check_stamp_excepted req claims user d : excepted req claims user → check_stamp_exception req claims user d = (Ok (), d).
Proof.
  intros (x & route & Hx & Hr & He & Hin & Hs). unfold check_stamp_exception. rewrite Hx, Hr.
  change (some_or_401 (Some route) _) with (mret route : M DB string). rewrite run_ret.
  apply Z.ltb_ge in He. rewrite He, (bool_decide_true _ Hin), (bool_decide_true _ Hs). done.
Qed.

Lemma guard_Ok req d h d' :
  Headers_from_request req d = (Ok h, d') → d' = d ∧ live_session req d (Headers.device h) (Headers.user h)
    ∧ Headers.ip h = Request.ip req.
Proof.
  unfold Headers_from_request. intros H. run_steps; found_rows.
  - match goal with H : check_stamp_exception _ _ _ _ = (Ok ?u, _) |- _ => destruct u; apply check_stamp_Ok in H as [Hx ->] end.
    split_and!; [done| |done]. eexists a, _. simpl. split_and!; try eassumption; try congruence; auto.
  - bools. split_and!; [done| |done]. eexists a, _. simpl. split_and!; try eassumption; try congruence; auto.
Qed.

Lemma guard_live_keyed req d device user :
  map_Forall (λ k r, User.uuid r = k) (users d) →
  map_Forall (λ k r, (Device.uuid r, Device.user_uuid r) = k) (devices d) → live_session req d device user →
  Headers_from_request req d = (Ok (Headers.mk device user (Request.ip req)), d).
Proof.
  intros Hku Hkv (a & claims & Ha & Hd & Hv & Hv1 & Hv2 & Hu & Hu1 & Hs).
  assert (Hfv : Device_find_by_uuid_and_user (LoginJwtClaims.device claims) (LoginJwtClaims.sub claims) d = Some device).
  { rewrite <- Hv1, <- Hu1, <- Hv2. by apply find_device_row. }
  assert (Hfu : User_find_by_uuid (LoginJwtClaims.sub claims) d = Some user).
  { rewrite <- Hu1. by apply find_user_row. }
  unfold Headers_from_request. rewrite Ha. cbn [some_or_401]. rewrite run_ret, Hd. cbv zeta.
  rewrite run_ret, run_gets, Hfv. cbn [some_or_401]. rewrite run_ret, run_gets, Hfu. cbn [some_or_401]. rewrite run_ret.
  case_bool_decide as Hst; simpl; [done|]. destruct Hs as [Hs|Hs]; [done|].
  by rewrite (run_bind_Ok _ _ _ _ _ (check_stamp_excepted _ _ _ _ Hs)).
Qed.

Lemma guard_live req d device user :
  wf d → live_session req d device user →
  Headers_from_request req d = (Ok (Headers.mk device user (Request.ip req)), d).
Proof. intros Hwf. apply guard_live_keyed; apply Hwf. Qed.

(** A refusal of the guard is a 401, whatever the reason. *)
Lemma guard_Err req d e d' : Headers_from_request req d = (Err e, d') → err_status e = 401.
Proof.
  unfold Headers_from_request, check_stamp_exception, some_or_401, err_handler, err_code, throw, gets, ignore,
    mret, mbind, M_ret, M_bind.
  intros H. repeat case_match; simplify_eq/=; done.
Qed.
End guards.

Section guards_spec.
Context `{E : Env} `{L : LoginTokens}.

(** C15: the guard of every authenticated request admits exactly the live
    sessions. It answers with an account and a device if and only if the request
    shows a verified token of that stored device of that stored account whose
    stamp is the current one of the account, or one that an exception of the
    account still accepts for this route and time; it then changes nothing. In
    every other case the answer is 401. *)
Theorem guard_admits_live_sessions (req : Request.t) (d : DB) :
  wf d →
  (∀ device user, Headers_from_request req d = (Ok (Headers.mk device user (Request.ip req)), d) ↔ live_session req d device user)
  ∧ (∀ h d', Headers_from_request req d = (Ok h, d') → d' = d ∧ Headers.ip h = Request.ip req)
  ∧ (∀ e d', Headers_from_request req d = (Err e, d') → err_status e = 401).
Proof.
  intros Hwf. split_and!.
  - intros device user. split; [by intros (_ & Hl & _)%guard_Ok|by apply guard_live].
  - by intros h d' (-> & _ & ->)%guard_Ok.
  - apply guard_Err.
Qed.

(** The membership behind the guards of organizations. *)
Definition confirmed_member (d : DB) (user : User.t) (org : string) (role : MembershipType) (m : Membership.t) : Prop :=
  m ∈ rows (users_organizations d) ∧ Membership.user_uuid m = User.uuid user ∧ Membership.org_uuid m = org
  ∧ Membership.status m = MembershipStatus_as_i32 Confirmed ∧ Membership.atype m = MembershipType_as_i32 role.

Lemma org_guard_Ok req d h d' :
  OrgHeaders_from_request req d = (Ok h, d') → d' = d
    ∧ live_session req d (OrgHeaders.device h) (OrgHeaders.user h)
    ∧ get_org_id req = Some (Membership.org_uuid (OrgHeaders.membership h))
    ∧ is_uuid (Membership.org_uuid (OrgHeaders.membership h)) = true
    ∧ OrgHeaders.membership h ∈ rows (users_organizations d)
    ∧ Membership.user_uuid (OrgHeaders.membership h) = User.uuid (OrgHeaders.user h)
    ∧ Membership.atype (OrgHeaders.membership h) = MembershipType_as_i32 (OrgHeaders.membership_type h)
    ∧ MembershipStatus_from_i32 (Membership.status (OrgHeaders.membership h)) = Some (OrgHeaders.membership_status h).
Proof.
  unfold OrgHeaders_from_request. intros H. run_steps.
  match goal with H : Headers_from_request _ _ = _ |- _ => apply guard_Ok in H as (-> & Hl & _) end.
  match goal with H : Membership_find_by_user_and_org _ _ _ = Some _ |- _ => apply head_Some_elem, elem_of_where in H as [Hin Hp] end.
  bools. simpl. split_and!; try done; try congruence. by apply MembershipType_from_as.
Qed.

Lemma admin_guard_Ok req d h d' :
  AdminHeaders_from_request req d = (Ok h, d') → d' = d
    ∧ live_session req d (AdminHeaders.device h) (AdminHeaders.user h)
    ∧ get_org_id req = Some (AdminHeaders.org_id h)
    ∧ type_ge (AdminHeaders.membership_type h) Admin = true
    ∧ ∃ m, confirmed_member d (AdminHeaders.user h) (AdminHeaders.org_id h) (AdminHeaders.membership_type h) m.
Proof.
  unfold AdminHeaders_from_request. intros H. run_steps.
  match goal with H : OrgHeaders_from_request _ _ = _ |- _ => apply org_guard_Ok in H as (-> & Hl & Ho & _ & Hin & Hu & Ht & Hs) end.
  unfold OrgHeaders_is_confirmed_and_admin in Hc. bools. simpl. split_and!; try done.
  eexists. split_and!; try done. apply MembershipStatus_from_as. congruence.
Qed.

Lemma owner_guard_Ok req d h d' :
  OwnerHeaders_from_request req d = (Ok h, d') → d' = d
    ∧ live_session req d (OwnerHeaders.device h) (OwnerHeaders.user h)
    ∧ get_org_id req = Some (OwnerHeaders.org_id h)
    ∧ ∃ m, confirmed_member d (OwnerHeaders.user h) (OwnerHeaders.org_id h) Owner m.
Proof.
  unfold OwnerHeaders_from_request. intros H. run_steps.
  match goal with H : OrgHeaders_from_request _ _ = _ |- _ => apply org_guard_Ok in H as (-> & Hl & Ho & _ & Hin & Hu & Ht & Hs) end.
  unfold OrgHeaders_is_confirmed_and_owner in Hc. bools. simpl. split_and!; try done.
  eexists. split_and!; try done; [|congruence]. apply MembershipStatus_from_as. congruence.
Qed.

Lemma member_guard_Ok req d h d' :
  OrgMemberHeaders_from_request req d = (Ok h, d') → d' = d
    ∧ live_session req d (OrgMemberHeaders.device h) (OrgMemberHeaders.user h)
    ∧ get_org_id req = Some (Membership.org_uuid (OrgMemberHeaders.membership h))
    ∧ OrgMemberHeaders.membership h ∈ rows (users_organizations d)
    ∧ Membership.user_uuid (OrgMemberHeaders.membership h) = User.uuid (OrgMemberHeaders.user h).
Proof.
  unfold OrgMemberHeaders_from_request. intros H. run_steps.
  match goal with H : OrgHeaders_from_request _ _ = _ |- _ => apply org_guard_Ok in H as (-> & Hl & Ho & _ & Hin & Hu & Ht & Hs) end.
  simpl. split_and!; done.
Qed.
End guards_spec.
