(* ===== verification/Logins.v ===== *)
(** What a login needs, and what it gives.

    Theorems on the token endpoint of [Identity]: the credentials and the second
    factor that a password login checks, the way from its token to the guard of
    [Guards], the accounts that single sign-on opens, and the lock-out of a
    disabled account. *)
From S2P Require Import Prelude Schema Roles Users Invariants Samples TwoFactors OneTimeCodes Sends EmergencyRows Memberships Groups Collections Guards VaultItems Ciphers Policies Organizations Emergency Members Accounts Tokens SingleSignOn Identity Authentication.
Local Open Scope Z_scope.

Section steps.
Context `{E : Env} `{K : Codecs} `{T : Totp} `{P : PolicyJson} `{C : Crypto} `{R : PushRelay}.
Context `{S : SessionTokens} `{F : FactorProviders} `{O : IdentityProvider}.

(** What a login leaves alone of the account row. *)
Record same_login (u u' : User.t) : Prop := {
  sl_uuid : User.uuid u' = User.uuid u;
  sl_email : User.email u' = User.email u;
  sl_enabled : User.enabled u' = User.enabled u;
  sl_verified : User.verified_at u' = User.verified_at u;
  sl_stamp : User.security_stamp u' = User.security_stamp u
}.
#[export] Instance same_login_preorder : PreOrder same_login.
Proof. split; [by split|]. intros u1 u2 u3 [] []. split; congruence. Qed.

Lemma user_save_Ok u d u' d' :
  User_save u d = (Ok u', d') → u' = User.set_updated_at (λ _, now) u ∧ d' = set_users <[User.uuid u := u']> d.
Proof.
  unfold User_save. intros H. run_steps. unfold save_row in Hrun. case_match; by simplify_eq.
Qed.
Lemma user_save_Err u d e d' : User_save u d = (Err e, d') → d' = d.
Proof.
  unfold User_save, save_row, mbind, M_bind, err, throw. destruct (negb _); [by intros [= _ <-]|].
  destruct (negb (nonempty _)); [done|]. by intros [= _ <-].
Qed.
Lemma device_save_Ok b v d v' d' :
  Device_save b v d = (Ok v', d') →
  v' = (if b then Device.set_updated_at (λ _, now) v else v) ∧ has (users d) (Device.user_uuid v) = true
  ∧ d' = set_devices <[device_key v' := v']> d.
Proof.
  unfold Device_save. intros H. run_steps. unfold save_row in Hrun.
  destruct b; simpl in *; case_match; by simplify_eq.
Qed.

Lemma kdf_upgrade_factors draws pw u : keeps (same_on twofactor) (kdf_upgrade draws pw u).
Proof. unfold kdf_upgrade, User_set_password, User_reset_security_stamp, User_save. db_keeps; done. Qed.
Lemma kdf_upgrade_Ok draws pw u d u' d' :
  kdf_upgrade draws pw u d = (Ok u', d') → same_login u u' ∧ User.totp_recover u' = User.totp_recover u.
Proof.
  intros H.
  unfold kdf_upgrade, User_set_password in H. run_steps; [|by split].
  match goal with H : User_save _ _ = (?r, _) |- _ => destruct r; [apply user_save_Ok in H as [-> _]|] end; by split.
Qed.

Lemma upgrade_Ok draws data pw u d u' d' :
  upgrade_login draws data pw u d = (Ok u', d') →
  same_login u u' ∧ User.totp_recover u' = User.totp_recover u ∧ twofactor d' = twofactor d ∧ devices d' = devices d.
Proof.
  unfold upgrade_login. intros H. case_bool_decide.
  - destruct (kdf_upgrade_Ok _ _ _ _ _ _ H). split_and!; try done; (eapply same_part; [|exact H]);
      [apply kdf_upgrade_factors|unfold kdf_upgrade, User_set_password, User_save; db_keeps; done].
  - run_steps. done.
Qed.

Lemma check_scope_Ok m o d a d' : AuthMethod_check_scope m o d = (Ok a, d') → o = Some (AuthMethod_scope m) ∧ d' = d.
Proof. unfold AuthMethod_check_scope. intros H. run_steps. by bools; subst. Qed.

(** ** The device *)

Lemma login_device_Ok draws data u d v d' :
  get_login_device draws data u d = (Ok v, d') →
  Device.user_uuid v = User.uuid u ∧ Some (Device.uuid v) = ConnectData.device_identifier data
  ∧ v ∈ rows (devices d') ∧ (v ∈ rows (devices d) ∨ Device.twofactor_remember v = None).
Proof.
  unfold get_login_device. intros H. run_steps; found_rows.
  - split_and!; try congruence; eauto.
  - apply device_save_Ok in H as (-> & _ & ->). simpl. split_and!; try done; [|by right].
    apply elem_of_rows. eexists. db_simpl. apply lookup_insert_eq.
Qed.
Lemma login_device_factors draws data u : keeps (same_on twofactor) (get_login_device draws data u).
Proof. unfold get_login_device, expect, panic, Device_save. db_keeps; done. Qed.

(** ** The second factor *)

(** The request passes a second factor of the account: the check of an enabled
    factor accepts the code on the factors as stored, the device was
    remembered, or the code is the recovery code. *)
Definition passed_factor (draws : LoginDraws) (data : ConnectData.t) (device : Device.t) (user : User.t) (d : DB) : Prop :=
  ∃ code, ConnectData.two_factor_token data = Some code ∧
    (remembered device user code = true ∨ User_check_valid_recovery_code user code = true
     ∨ ∃ tf d1 d2, tf ∈ TwoFactor_find_by_user (User.uuid user) d ∧ TwoFactor.enabled tf = true ∧ twofactor d1 = twofactor d
       ∧ match TwoFactorType_from_i32 (TwoFactor.atype tf) with
         | Some Authenticator => validate_totp_code_str (draw_factor_id (login_account draws)) (User.uuid user) code
                                   (TwoFactor.data tf) d1 = (Ok (), d2)
         | Some Email => validate_email_code_str (User.uuid user) code (TwoFactor.data tf) d1 = (Ok (), d2)
         | Some YubiKey => validate_yubikey_login code (TwoFactor.data tf) = Ok ()
         | Some Webauthn => validate_webauthn_login (User.uuid user) code d1 = (Ok (), d2)
         | Some Duo => validate_duo_login (User.email user) code d1 = (Ok (), d2)
         | _ => False
         end).

Lemma find_selected (l : list TwoFactor.t) id tf :
  List.find (λ tf, (TwoFactor.atype tf == id) && TwoFactor.enabled tf) l = Some tf →
  tf ∈ l ∧ TwoFactor.atype tf = id ∧ TwoFactor.enabled tf = true.
Proof. intros [Hin Hp]%find_some. apply list_elem_of_In in Hin. by bools. Qed.

Lemma usable_factor (l : list TwoFactor.t) id :
  id ∈ twofactor_ids l → ∃ tf, tf ∈ l ∧ TwoFactor.atype tf = id ∧ TwoFactor.enabled tf = true.
Proof.
  intros (tf & -> & Htf)%list_elem_of_fmap. apply elem_of_where in Htf as [Hin Hp]. case_match; [|done]. bools. eauto.
Qed.

Lemma mark_incomplete_factors u v n t ip : keeps (same_on twofactor) (TwoFactorIncomplete_mark_incomplete u v n t ip).
Proof. unfold TwoFactorIncomplete_mark_incomplete. db_keeps; done. Qed.

Lemma ask_never_Ok {A} draws ids u cv msg d (a : A) d' : ask_twofactor draws ids u cv msg d = (Ok a, d') → False.
Proof. unfold ask_twofactor. intros H. run_steps. Qed.

Lemma check_twofactor_Ok draws data id code cv device user d d1 u' d' :
  let l := TwoFactor_find_by_user (User.uuid user) d in
  ConnectData.two_factor_token data = Some code → twofactor d1 = twofactor d →
  id ∈ [TwoFactorType_as_i32 Remember; TwoFactorType_as_i32 RecoveryCode] ∨ id ∈ twofactor_ids l →
  check_twofactor draws (twofactor_ids l) id (List.find (λ tf, (TwoFactor.atype tf == id) && TwoFactor.enabled tf) l)
    code cv device user d1 = (Ok u', d') →
  same_login user u' ∧ passed_factor draws data device user d.
Proof.
  intros l Hcode Hsame Hid H. unfold check_twofactor in H.
  assert (Hother : ∀ t, TwoFactorType_from_i32 id = Some t → t ≠ Remember → t ≠ RecoveryCode → id ∈ twofactor_ids l).
  { intros t Ht H1 H2. destruct Hid as [[->|[->|[]%elem_of_nil]%elem_of_cons]%elem_of_cons|]; by simplify_eq/=. }
  (* The factor that was checked: the selected row, or an enabled one of the type. *)
  assert (Hby : ∀ tf d2, tf ∈ l → TwoFactor.atype tf = id → TwoFactor.enabled tf = true →
    match TwoFactorType_from_i32 id with
    | Some Authenticator => validate_totp_code_str (draw_factor_id (login_account draws)) (User.uuid user) code
                              (TwoFactor.data tf) d1 = (Ok (), d2)
    | Some Email => validate_email_code_str (User.uuid user) code (TwoFactor.data tf) d1 = (Ok (), d2)
    | Some YubiKey => validate_yubikey_login code (TwoFactor.data tf) = Ok ()
    | Some Webauthn => validate_webauthn_login (User.uuid user) code d1 = (Ok (), d2)
    | Some Duo => validate_duo_login (User.email user) code d1 = (Ok (), d2)
    | _ => False
    end → passed_factor draws data device user d).
  { intros tf d2 Hin Ha He Hv. exists code. split; [done|]. right; right. exists tf, d1, d2. by rewrite Ha. }
  unfold selected_data in H.
  destruct (TwoFactorType_from_i32 id) as [[]|] eqn:Ht; run_steps; try done;
    repeat match goal with
    | u : () |- _ => destruct u
    | Hs : List.find _ _ = Some _ |- _ => apply find_selected in Hs as (? & ? & ?)
    end.
  all: try (split; [done|]; by eapply Hby).
  - split; [done|]. destruct (usable_factor l id) as (tf & Hin & Ha & He); [by eapply Hother|]. by eapply Hby.
  - split; [done|]. exists code. eauto.
  - by apply ask_never_Ok in H.
  - split; [done|]. destruct (usable_factor l id) as (tf & Hin & Ha & He); [by eapply Hother|]. by eapply Hby.
  - apply user_save_Ok in H as [-> _]. split; [by split|]. exists code. bools. eauto.
Qed.

Lemma twofactor_auth_Ok draws data ip cv device user d u' v' token d' :
  twofactor_auth draws data ip cv device user d = (Ok (u', v', token), d') →
  same_login user u' ∧ Device.uuid v' = Device.uuid device ∧ Device.user_uuid v' = Device.user_uuid device
  ∧ (TwoFactor_find_by_user (User.uuid user) d = [] ∨ passed_factor draws data device user d).
Proof.
  unfold twofactor_auth. intros H. run_steps; try (by apply ask_never_Ok in H); bools; simplify_eq; [by split_and!; [done..|left]| |].
  all: match goal with
    | Hm : TwoFactorIncomplete_mark_incomplete _ _ _ _ _ _ = (_, ?s) |- _ =>
        assert (Hs : twofactor s = twofactor d) by exact (same_part _ _ _ _ _ (mark_incomplete_factors _ _ _ _ _) Hm)
    end.
  all: match goal with Hx : check_twofactor _ _ _ _ _ _ _ _ _ = (Ok _, _) |- _ =>
         eapply check_twofactor_Ok in Hx as [Hu Hp]; [|eassumption..|] end.
  all: try (match goal with Hx : _ ∨ _ |- _ => destruct Hx as [Hx|Hx]; bools; by auto end).
  unfold Device_refresh_twofactor_remember in *. simplify_eq. by auto.
Qed.

Lemma find_factors_same u d d' : twofactor d' = twofactor d → TwoFactor_find_by_user u d' = TwoFactor_find_by_user u d.
Proof. intros Hs. unfold TwoFactor_find_by_user. by rewrite Hs. Qed.

Lemma passed_factor_ext draws data device user user' d d' :
  User.uuid user' = User.uuid user → User.email user' = User.email user →
  User.totp_recover user' = User.totp_recover user → twofactor d' = twofactor d →
  passed_factor draws data device user' d' → passed_factor draws data device user d.
Proof.
  intros Hu He Hr Hs. unfold passed_factor, remembered, User_check_valid_recovery_code.
  rewrite Hu, He, Hr, Hs, (find_factors_same _ _ _ Hs). done.
Qed.

(** ** The credentials *)

(** The master password, or a login request of the account that another device
    approved in the last five minutes for this address and access code. *)
Definition presented_credentials (data : ConnectData.t) (ip : string) (user : User.t) (d : DB) : Prop :=
  ∃ password, ConnectData.password data = Some password ∧
    match ConnectData.auth_request data with
    | None => User_check_valid_password user password = true
    | Some id => ∃ r, r ∈ rows (auth_requests d) ∧ AuthRequest.uuid r = id ∧ AuthRequest.user_uuid r = User.uuid user
        ∧ AuthRequest.approved r = Some true ∧ now < AuthRequest.creation_date r + 5 * 60 * 1000000
        ∧ AuthRequest.request_ip r = ip ∧ AuthRequest.access_code r = password
    end.

Lemma check_credentials_Ok data ip password user d d' :
  ConnectData.password data = Some password → check_credentials data ip password user d = (Ok (), d') →
  d' = d ∧ presented_credentials data ip user d.
Proof.
  intros Hpw H. unfold check_credentials in H. unfold presented_credentials.
  destruct (ConnectData.auth_request data) as [id|] eqn:Hid; run_steps; bools; [|by eauto].
  match goal with Hf : AuthRequest_find_by_uuid_and_user _ _ _ = Some _ |- _ =>
    apply head_Some_elem, elem_of_where in Hf as [Hin Hp] end.
  unfold check_auth_request, AuthRequest_check_access_code, ct_eq in *. bools.
  split; [done|]. eexists. split; [exact Hpw|]. eexists. split_and!; try done.
  - destruct (AuthRequest.approved _) as [[]|]; done.
  - apply Z.leb_gt. done.
Qed.

Lemma authenticated_response_Ok draws user device tokens token d a d' :
  authenticated_response draws user device tokens token d = (Ok a, d') →
  ∃ device', a = LoggedIn user device' tokens token ∧ Device.uuid device' = Device.uuid device
    ∧ Device.user_uuid device' = Device.user_uuid device.
Proof.
  unfold authenticated_response, register_push_device. intros H. run_steps;
    repeat match goal with Hs : Device_save _ _ _ = (Ok _, _) |- _ => apply device_save_Ok in Hs as (-> & _ & ->) end;
    eexists; split; done.
Qed.
End steps.

(** ** Single sign-on *)

Section sso.
Context `{E : Env} `{K : Codecs} `{T : Totp} `{P : PolicyJson} `{C : Crypto} `{R : PushRelay}.
Context `{S : SessionTokens} `{F : FactorProviders} `{O : IdentityProvider}.

(** An identity of the provider stands for an account: it is linked to it, or
    the account has the address of the identity and no other identity, the
    address counts as verified, and an account with a vault is only matched when
    the server allows it. *)
Definition sso_stands_for (infos : OIDCAuthenticatedUser.t) (user : User.t) (d : DB) : Prop :=
  (∃ s, s ∈ rows (sso_users d) ∧ SsoUser.user_uuid s = User.uuid user
        ∧ SsoUser.identifier s = OIDCAuthenticatedUser.identifier infos)
  ∨ (User.email user = to_lowercase (OIDCAuthenticatedUser.email infos)
     ∧ (∀ s, s ∈ rows (sso_users d) → SsoUser.user_uuid s ≠ User.uuid user)
     ∧ (User.private_key user = None ∨ sso_signups_match_email = true)
     ∧ (OIDCAuthenticatedUser.email_verified infos = Some true
        ∨ OIDCAuthenticatedUser.email_verified infos = None ∧ sso_allow_unknown_email_verification = true)).

Lemma user_with_sso_Ok infos d r d' :
  user_with_sso infos d = (Ok r, d') →
  d' = d ∧ ∀ user sso_user, r = Some (user, sso_user) → user ∈ rows (users d) ∧ sso_stands_for infos user d.
Proof.
  unfold user_with_sso. intros H. run_steps; (split; [done|]); intros user sso_user Hr; simplify_eq.
  { match goal with Hf : SsoUser_find_by_identifier _ _ = Some _ |- _ =>
      apply head_Some_elem, elem_of_where in Hf as [Hin Hp] end.
    apply elem_of_inner_join in Hin as (Hu & Hs & Hj). bools. split; [done|]. left. eauto. }
  all: match goal with Hf : SsoUser_find_by_mail _ _ = Some _ |- _ =>
         apply head_Some_elem, elem_of_where in Hf as [Hin Hp] end;
       apply elem_of_left_join in Hin as (Hu & Hs); bools; (split; [done|]); right; (split_and!; [done| | |by auto]).
  all: try (intros s Hin He; specialize (Hs s Hin); by rewrite bool_decide_true in Hs).
  all: match goal with Hk : _ ∨ _ |- _ => destruct Hk; bools; [left|by right] end; by apply eq_None_not_Some.
Qed.

Lemma exchange_code_same {X} (t : DB → X) code v :
  (∀ f d, t (set_sso_auth f d) = t d) → keeps (same_on t) (exchange_code code v).
Proof.
  intros Ht. unfold exchange_code, client_exchange_code, SsoAuth_delete, SsoAuth_save. db_keeps; apply Ht.
Qed.

End sso.

(** What the parts of a successful login tell. *)
Ltac login_facts :=
  repeat match goal with
  | Hu : upgrade_login _ _ _ _ _ = (Ok _, _) |- _ =>
      let Hl := fresh "Hlog" in apply upgrade_Ok in Hu as (Hl & ? & ? & ?); destruct Hl
  | Hs : AuthMethod_check_scope _ _ _ = (Ok _, _) |- _ => apply check_scope_Ok in Hs as [_ ->]
  | Hs : check_credentials _ _ _ _ _ = (Ok ?u, _) |- _ =>
      destruct u; apply check_credentials_Ok in Hs as [-> ?]; [|done]
  | Hs : authenticated_response _ _ _ _ _ _ = (Ok _, _) |- _ =>
      apply authenticated_response_Ok in Hs as (? & -> & _)
  | Hs : twofactor_auth _ _ _ _ _ _ _ = (Ok _, _) |- _ =>
      let Hl := fresh "Hlog" in apply twofactor_auth_Ok in Hs as (Hl & _ & _ & ?); destruct Hl
  | Hf : User_find_by_mail _ _ = Some _ |- _ => apply head_Some_elem, elem_of_where in Hf as [? ?]
  | Hf : User_find_by_uuid _ _ = Some _ |- _ => apply find_user_Some in Hf as [? ?]
  | Hs : User_save _ _ = (Ok _, _) |- _ => apply user_save_Ok in Hs as [-> _]
  | Hs : user_with_sso _ _ = (Ok _, _) |- _ => apply user_with_sso_Ok in Hs as [-> ?]
  end.

Section sso_logins.
Context `{E : Env} `{K : Codecs} `{T : Totp} `{P : PolicyJson} `{C : Crypto} `{R : PushRelay}.
Context `{S : SessionTokens} `{F : FactorProviders} `{O : IdentityProvider}.

Lemma sso_stands_for_same infos user d d' :
  sso_users d' = sso_users d → sso_stands_for infos user d' → sso_stands_for infos user d.
Proof. unfold sso_stands_for. by intros ->. Qed.

Lemma sso_login_Ok draws data ip cv d a d' :
  sso_login draws data ip cv d = (Ok a, d') →
  ∃ code verifier sso_auth infos d1 user' device' tokens token,
    ConnectData.code data = Some code ∧ ConnectData.code_verifier data = Some verifier
    ∧ exchange_code code verifier d = (Ok (sso_auth, infos), d1)
    ∧ a = LoggedIn user' device' tokens token
    ∧ (User.uuid user' = seed_uuid (draw_seed (login_account draws))
       ∨ ∃ user, user ∈ rows (users d) ∧ User.enabled user = true ∧ User.uuid user' = User.uuid user
           ∧ sso_stands_for infos user d).
Proof.
  unfold sso_login. intros H. run_steps; login_facts; simplify_eq.
  all: match goal with Hx : exchange_code _ _ _ = (Ok _, _) |- _ =>
    pose proof (same_part users _ _ _ _ (exchange_code_same users _ _ (λ _ _, eq_refl)) Hx) as Hus;
    pose proof (same_part sso_users _ _ _ _ (exchange_code_same sso_users _ _ (λ _ _, eq_refl)) Hx) as Hss;
    eexists _, _, _, _, _, _, _, _, _; (split_and!; [done|done|exact Hx|done|]) end.
  all: try (left; reflexivity).
  all: right; match goal with Hf : ∀ _ _, Some _ = Some _ → _ |- _ => destruct (Hf _ _ eq_refl) as [Hin Hst] end;
       rewrite Hus in Hin; apply sso_stands_for_same with (d := d) in Hst; [|done]; bools;
       eexists; (split_and!; [exact Hin|done| |exact Hst]); repeat case_match; done.
Qed.
End sso_logins.

Section logins.
Context `{E : Env} `{K : Codecs} `{T : Totp} `{P : PolicyJson} `{C : Crypto} `{R : PushRelay}.
Context `{S : SessionTokens} `{F : FactorProviders} `{O : IdentityProvider}.

(** C14: a password login needs the account, its credentials and its second
    factor. If the token endpoint answers a password login with tokens, they are
    for the enabled account with the given address; the request showed the
    master password, or names a login request of this account that was approved
    less than five minutes after it was made and comes from the same network
    address with the same access code; the address is verified where that is
    required; and unless the account has no second factor, the request passed
    one of them, on a device of this account. *)
Theorem password_login_needs_proof (draws : LoginDraws) (data : ConnectData.t) (ip : string) (cv : option string)
    (d : DB) (a : LoginAnswer) (d' : DB) :
  password_login draws data ip cv d = (Ok a, d') →
  ∃ username user device user' device' tokens token,
    ConnectData.username data = Some username ∧ user ∈ rows (users d) ∧ User.email user = to_lowercase (trim username)
    ∧ User.enabled user = true ∧ presented_credentials data ip user d
    ∧ (mail_enabled = true → signups_verify = true → is_Some (User.verified_at user))
    ∧ Device.user_uuid device = User.uuid user ∧ (device ∈ rows (devices d) ∨ Device.twofactor_remember device = None)
    ∧ (TwoFactor_find_by_user (User.uuid user) d = [] ∨ passed_factor draws data device user d)
    ∧ a = LoggedIn user' device' tokens token ∧ User.uuid user' = User.uuid user
    ∧ LoginJwtClaims.sub (AuthTokens.access_claims tokens) = User.uuid user.
Proof.
  unfold password_login. intros H. run_steps.
  repeat match goal with
  | Hu : upgrade_login _ _ _ _ _ = (Ok _, _) |- _ => apply upgrade_Ok in Hu as (Hlog & Hrec & Htf & Hdev)
  | Hs : AuthMethod_check_scope _ _ _ = (Ok _, _) |- _ => apply check_scope_Ok in Hs as [_ ->]
  | Hs : check_credentials _ _ _ _ _ = (Ok ?u, _) |- _ =>
      destruct u; apply check_credentials_Ok in Hs as [-> Hcred]; [|done]
  | Hs : authenticated_response _ _ _ _ _ _ = (Ok _, _) |- _ =>
      apply authenticated_response_Ok in Hs as (device' & -> & _)
  | Hs : twofactor_auth _ _ _ _ _ _ _ = (Ok _, _) |- _ => apply twofactor_auth_Ok in Hs as (Hlog' & _ & _ & Hfactor)
  | Hf : User_find_by_mail _ _ = Some _ |- _ => apply head_Some_elem, elem_of_where in Hf as [Hin Hp]
  end.
  match goal with Hv : get_login_device _ _ _ _ = (Ok _, _) |- _ =>
    pose proof (same_part _ _ _ _ _ (login_device_factors _ _ _) Hv) as Htf';
    apply login_device_Ok in Hv as (Hown & _ & _ & Hold) end.
  rewrite Hdev in Hold. rewrite Htf in Htf'. destruct Hlog, Hlog'. bools.
  eexists _, _, _, _, _, _, _. split_and!; try done; try congruence.
  - intros Hm Hv. rewrite <- sl_verified0. destruct (User.verified_at a7); [done|]. rewrite Hm, Hv in Hc0. by destruct Hc0.
  - rewrite sl_uuid0, (find_factors_same _ _ _ Htf') in Hfactor. destruct Hfactor as [|Hfactor]; [by left|right].
    by eapply passed_factor_ext; [..|exact Hfactor].
  - simpl. congruence.
Qed.

(** The account of a password login, for the theorems below. *)
Lemma password_login_Ok draws data ip cv d a d' :
  password_login draws data ip cv d = (Ok a, d') →
  ∃ user user' device' tokens token, user ∈ rows (users d) ∧ User.enabled user = true
    ∧ a = LoggedIn user' device' tokens token ∧ User.uuid user' = User.uuid user.
Proof.
  unfold password_login. intros H. run_steps; login_facts; bools.
  eexists _, _, _, _, _. split_and!; [eassumption|done|done|congruence].
Qed.

(** C20: single sign-on opens only accounts that the identity stands for. If
    the token endpoint answers a login with a code of the identity provider, the
    tokens are for a new account, or for an enabled account that is linked to
    the identity, or for an enabled account that has the address of the identity
    and is linked to none. In this last case the account has no vault unless the
    server allows matching by address, and the provider says that the address is
    verified, or it says nothing of that and the server is set to accept it,
    which its settings describe as a risk of account takeover. *)
Theorem sso_login_opens_own_accounts (draws : LoginDraws) (data : ConnectData.t) (ip : string) (cv : option string)
    (d : DB) (a : LoginAnswer) (d' : DB) :
  sso_login draws data ip cv d = (Ok a, d') →
  ∃ code verifier sso_auth infos d1 user' device' tokens token,
    ConnectData.code data = Some code ∧ ConnectData.code_verifier data = Some verifier
    ∧ exchange_code code verifier d = (Ok (sso_auth, infos), d1)
    ∧ a = LoggedIn user' device' tokens token
    ∧ (User.uuid user' = seed_uuid (draw_seed (login_account draws))
       ∨ ∃ user, user ∈ rows (users d) ∧ User.enabled user = true ∧ User.uuid user' = User.uuid user
           ∧ sso_stands_for infos user d).
Proof. apply sso_login_Ok. Qed.

(** ** Locked accounts *)

(** The account that the answer of a login is about. *)
Definition answers_for (a : LoginAnswer) (u : string) : Prop :=
  match a with
  | LoggedIn user _ _ _ | ApiLoggedIn user _ _ => User.uuid user = u
  | Refreshed device _ => Device.user_uuid device = u
  | OrgLoggedIn _ | SendOpened _ => False
  end.

(** The row of the account is disabled, and it has no devices. *)
Definition locked_out (u : string) (d : DB) : Prop :=
  (∀ v, v ∈ rows (users d) → User.uuid v = u → User.enabled v = false)
  ∧ (∀ v, v ∈ rows (devices d) → Device.user_uuid v ≠ u).

Lemma api_login_enabled draws data d a d' u :
  user_api_key_login draws data d = (Ok a, d') → answers_for a u →
  ∃ user, user ∈ rows (users d) ∧ User.enabled user = true ∧ User.uuid user = u.
Proof. unfold user_api_key_login. intros H Ha. run_steps; login_facts; bools; simpl in Ha; eauto. Qed.

Lemma rotate_Ok new expected v d b v' d' :
  Device_rotate_refresh_token_if_matches new expected v d = (Ok (b, v'), d') → Device.user_uuid v' = Device.user_uuid v.
Proof. unfold Device_rotate_refresh_token_if_matches. case_match; intros; by simplify_eq. Qed.

Lemma refresh_Ok draws token cid d v tokens d' :
  refresh_tokens draws token cid d = (Ok (v, tokens), d') →
  ∃ v0, v0 ∈ rows (devices d) ∧ Device.user_uuid v0 = Device.user_uuid v.
Proof.
  unfold refresh_tokens. intros H. run_steps;
    repeat match goal with
    | Hf : Device_find_by_refresh_token _ _ = Some _ |- _ => apply head_Some_elem, elem_of_where in Hf as [Hin _]
    | Hs : Device_save _ _ _ = (Ok _, _) |- _ => apply device_save_Ok in Hs as (-> & _ & ->)
    | Hr : Device_rotate_refresh_token_if_matches _ _ _ _ = (Ok _, _) |- _ => apply rotate_Ok in Hr
    end; simplify_eq; eauto.
Qed.

Lemma refresh_login_device draws data d a d' u :
  refresh_login draws data d = (Ok a, d') → answers_for a u → ∃ v, v ∈ rows (devices d) ∧ Device.user_uuid v = u.
Proof.
  unfold refresh_login. intros H Ha. run_steps.
  match goal with Hr : refresh_tokens _ _ _ _ = (Ok _, _) |- _ => apply refresh_Ok in Hr as (v0 & Hin & Hu) end.
  match goal with Hs : Device_save _ _ _ = (Ok _, _) |- _ => apply device_save_Ok in Hs as (-> & _ & _) end.
  simpl in Ha. exists v0. split; [done|congruence].
Qed.

Lemma locked_out_login draws data ip cv d a d' u :
  locked_out u d → seed_uuid (draw_seed (login_account draws)) ≠ u →
  login draws data ip cv d = (Ok a, d') → ¬ answers_for a u.
Proof.
  intros [Hu Hv] Hseed H Ha.
  assert (Hen : ∀ user, user ∈ rows (users d) → User.enabled user = true → User.uuid user = u → False).
  { intros user Hin Ht Hid. specialize (Hu user Hin Hid). congruence. }
  unfold login, api_key_login, check_is_some in H. run_steps; login_facts.
  - destruct (refresh_login_device _ _ _ _ _ _ H Ha) as (v & Hin & Hd). by apply (Hv v).
  - destruct (password_login_Ok _ _ _ _ _ _ _ H) as (user & user' & device' & tokens & token & Hin & Ht & -> & He).
    simpl in Ha. apply (Hen user); [done..|congruence].
  - destruct (api_login_enabled _ _ _ _ _ _ H Ha) as (user & Hin & Ht & He). by eapply Hen.
  - unfold organization_api_key_login in H. by run_steps.
  - destruct (sso_login_Ok _ _ _ _ _ _ _ H)
      as (_ & _ & _ & infos & _ & user' & device' & tokens & token & _ & _ & _ & -> & [He|(user & Hin & Ht & He & _)]);
      simpl in Ha; [congruence|]. apply (Hen user); [done..|congruence].
  - done.
Qed.

Lemma reset_stamp_Ok stamp token_for u d u' d' :
  User_reset_security_stamp stamp token_for u d = (Ok u', d') → u' = User.set_security_stamp (λ _, stamp) u ∧ users d' = users d.
Proof.
  intros H. split; [unfold User_reset_security_stamp in H; by run_steps|].
  eapply (same_part users); [|exact H].
  unfold User_reset_security_stamp, Device_rotate_refresh_tokens_by_user, Device_save. db_keeps; done.
Qed.

Lemma disable_user_locks draws u d d' :
  wf d → disable_user draws u d = (Ok (), d') → locked_out u d'.
Proof.
  intros Hwf H. unfold disable_user, get_user_or_404, Device_delete_all_by_user in H. run_steps.
  match goal with Hr : User_reset_security_stamp _ _ _ _ = _ |- _ => apply reset_stamp_Ok in Hr as [-> Hus] end.
  match goal with Hf : User_find_by_uuid _ _ = Some _ |- _ => apply find_user_Some in Hf as [Hin Hid] end.
  match goal with Hs : User_save _ _ = (Ok _, _) |- _ => apply user_save_Ok in Hs as [-> ->] end.
  split.
  - intros v Hv Hvu. db_simpl. apply elem_of_rows in Hv as [k Hv]. simpl in Hv.
    apply lookup_insert_Some in Hv as [[<- <-]|[Hne Hv]]; [done|].
    rewrite Hus in Hv. pose proof (wf_users _ Hwf _ _ Hv) as Hk. simpl in Hk. congruence.
  - intros v Hv. db_simpl. apply elem_of_rows_delete_where in Hv as [_ Hp]. simpl in Hp. bools. congruence.
Qed.
End logins.

(** ** From the login to the guard *)

Section sessions.
Context `{E : Env} `{K : Codecs} `{T : Totp} `{P : PolicyJson} `{C : Crypto} `{R : PushRelay}.
Context `{S : SessionTokens} `{F : FactorProviders} `{O : IdentityProvider}.

(** The account [u] is stored with the stamp [st], and rows under their keys. *)
Definition stamped (u st : string) (d : DB) : Prop :=
  map_Forall (λ k r, User.uuid r = k) (users d)
  ∧ map_Forall (λ k r, (Device.uuid r, Device.user_uuid r) = k) (devices d)
  ∧ ∃ v, users d !! u = Some v ∧ User.security_stamp v = st.

Lemma stamped_same u st d d' : users d' = users d → devices d' = devices d → stamped u st d → stamped u st d'.
Proof. unfold stamped. by intros -> ->. Qed.
Lemma stamped_part {A} u st (m : M DB A) d r d' :
  keeps (same_on users) m → keeps (same_on devices) m → m d = (r, d') → stamped u st d → stamped u st d'.
Proof. intros H1 H2 Hm. apply stamped_same; by eapply same_part. Qed.

Lemma stamped_user_save u st v d v' d' :
  User_save v d = (Ok v', d') → User.uuid v = u → User.security_stamp v = st → stamped u st d → stamped u st d'.
Proof.
  intros [-> ->]%user_save_Ok Hu Hs (H1 & H2 & H3). split_and!; db_simpl.
  - apply map_Forall_insert_2; done.
  - done.
  - subst u. rewrite lookup_insert_eq. eexists. split; [done|]. done.
Qed.
Lemma stamped_device_save u st b v d v' d' :
  Device_save b v d = (Ok v', d') → stamped u st d → stamped u st d' ∧ v' ∈ rows (devices d').
Proof.
  intros (-> & _ & ->)%device_save_Ok (H1 & H2 & H3). split.
  - split_and!; db_simpl; [done|by apply map_Forall_insert_2|done].
  - apply elem_of_rows. eexists. db_simpl. apply lookup_insert_eq.
Qed.
Lemma stamped_touch u st w : keeps (preserves (stamped u st)) (User_update_uuid_revision w).
Proof.
  intros d (H1 & H2 & v & Hv & Hs). split_and!; simpl; db_simpl.
  - intros k r Hr. rewrite lookup_update_where in Hr. apply fmap_Some in Hr as (r0 & Hr0 & ->).
    specialize (H1 _ _ Hr0). simpl in *. by case_match.
  - done.
  - rewrite lookup_update_where, Hv. simpl. eexists. split; [done|]. by case_match.
Qed.
Lemma enforce_2fa_stamped u st user : keeps (preserves (stamped u st)) (enforce_2fa_policy user).
Proof.
  pose proof (stamped_touch u st). unfold enforce_2fa_policy, Membership_save, expect, panic.
  db_keeps; try done. intros Hst. by eapply stamped_same.
Qed.

(** The checks of WebAuthn and Duo do not write accounts or devices. *)
Definition providers_keep_sessions : Prop :=
  ∀ w code, keeps (same_on users) (validate_webauthn_login w code) ∧ keeps (same_on devices) (validate_webauthn_login w code)
    ∧ keeps (same_on users) (validate_duo_login w code) ∧ keeps (same_on devices) (validate_duo_login w code).

Lemma totp_same {X} (t : DB → X) id u code secret :
  (∀ f d, t (set_twofactor f d) = t d) → keeps (same_on t) (validate_totp_code_str id u code secret).
Proof. intros Ht. unfold validate_totp_code_str, validate_totp_code, TwoFactor_save. db_keeps; apply Ht. Qed.
Lemma email_code_same {X} (t : DB → X) u code data :
  (∀ f d, t (set_twofactor f d) = t d) → keeps (same_on t) (validate_email_code_str u code data).
Proof.
  intros Ht. unfold validate_email_code_str, EmailTokenData_from_json, TwoFactor_save. db_keeps; apply Ht.
Qed.
Lemma incomplete_same {X} (t : DB → X) u v n ty ip :
  (∀ f d, t (set_twofactor_incomplete f d) = t d) → keeps (same_on t) (TwoFactorIncomplete_mark_incomplete u v n ty ip).
Proof. intros Ht. unfold TwoFactorIncomplete_mark_incomplete. db_keeps; apply Ht. Qed.
Lemma complete_same {X} (t : DB → X) u v :
  (∀ f d, t (set_twofactor_incomplete f d) = t d) → keeps (same_on t) (TwoFactorIncomplete_mark_complete u v).
Proof.
  intros Ht. unfold TwoFactorIncomplete_mark_complete, TwoFactorIncomplete_delete_by_user_and_device. db_keeps; apply Ht.
Qed.

Lemma upgrade_stamped draws data pw u d u' d' st :
  upgrade_login draws data pw u d = (Ok u', d') → User.security_stamp u = st →
  stamped (User.uuid u) st d → stamped (User.uuid u) st d'.
Proof.
  unfold upgrade_login, kdf_upgrade, User_set_password. intros H Hs. run_steps; try done.
  intros Hst. match goal with Hv : User_save _ _ = (?r, _) |- _ =>
    destruct r; [by eapply stamped_user_save|by apply user_save_Err in Hv as ->] end.
Qed.

Lemma login_device_stamped draws data w d v d' u st :
  get_login_device draws data w d = (Ok v, d') → stamped u st d → stamped u st d'.
Proof.
  unfold get_login_device. intros H. run_steps; [done|]. intros Hst. by eapply stamped_device_save.
Qed.

Lemma check_twofactor_stamped draws ids id sel code cv device user d u' d' st :
  providers_keep_sessions → check_twofactor draws ids id sel code cv device user d = (Ok u', d') →
  User.security_stamp user = st → stamped (User.uuid user) st d → stamped (User.uuid user) st d'.
Proof.
  intros Hp H Hs Hst. unfold check_twofactor, selected_data in H. run_steps; try done; try (by apply ask_never_Ok in H).
  - eapply stamped_part; [..|eassumption|done]; by apply totp_same.
  - eapply stamped_part; [..|eassumption|done]; by apply email_code_same.
  - eapply stamped_part; [..|eassumption|done]; apply Hp.
  - eapply stamped_part; [..|eassumption|done]; apply Hp.
  - eapply stamped_user_save; [exact H|done..|].
    match goal with He : enforce_2fa_policy _ ?s1 = (_, ?s2) |- stamped ?u ?st ?s2 =>
      pose proof (enforce_2fa_stamped u st user s1) as Hk; rewrite He in Hk; apply Hk end.
    match goal with Ht : TwoFactor_delete_all_by_user _ _ = (_, _) |- _ => eapply stamped_part; [..|exact Ht|done] end;
      unfold TwoFactor_delete_all_by_user; db_keeps; done.
Qed.

Lemma twofactor_stamped draws data ip cv device user d r d' st :
  providers_keep_sessions → twofactor_auth draws data ip cv device user d = (Ok r, d') →
  User.security_stamp user = st → stamped (User.uuid user) st d → stamped (User.uuid user) st d'.
Proof.
  intros Hp H Hs Hst. unfold twofactor_auth in H. run_steps; try (by apply ask_never_Ok in H).
  { match goal with He : enforce_2fa_policy _ ?s1 = (_, ?s2) |- stamped ?u ?st ?s2 =>
      pose proof (enforce_2fa_stamped u st user s1) as Hk; rewrite He in Hk; by apply Hk end. }
  all: match goal with Hm : TwoFactorIncomplete_mark_complete _ _ _ = _ |- _ =>
      eapply stamped_part; [..|exact Hm|]; [by apply complete_same..|] end.
  all: eapply check_twofactor_stamped; [done|eassumption|done|].
  all: eapply stamped_part; [..|eassumption|done]; by apply incomplete_same.
Qed.

Lemma response_stamped draws user device tokens token d user' device' tokens' token' d' u st :
  authenticated_response draws user device tokens token d = (Ok (LoggedIn user' device' tokens' token'), d') →
  stamped u st d →
  stamped u st d' ∧ device' ∈ rows (devices d') ∧ user' = user ∧ tokens' = tokens
  ∧ Device.uuid device' = Device.uuid device ∧ Device.user_uuid device' = Device.user_uuid device.
Proof.
  intros H Hst. unfold authenticated_response, register_push_device in H. run_steps; simplify_eq;
    repeat match goal with
    | Ha : announce_device _ _ _ = _ |- _ =>
        eapply stamped_part in Ha; [|unfold announce_device; db_keeps..|exact Hst]
    | Hd : Device_save _ _ ?s = (Ok _, _), Hs : stamped _ _ ?s |- _ =>
        pose proof (device_save_Ok _ _ _ _ _ Hd) as (? & _ & _); eapply stamped_device_save in Hd as [? ?]; [|exact Hs]
    end; subst; split_and!; done.
Qed.

(** *** The header of a request *)

Lemma substring_all s n : (String.length s ≤ n)%nat → String.substring 0 n s = s.
Proof. revert n. induction s as [|a s IH]; intros [|n] Hn; simpl in *; try done; [lia|]. f_equal. apply IH. lia. Qed.

Lemma after_last_cons pat c s :
  after_last pat (String c s) = match after_last pat s with
    | Some r => Some r
    | None => if String.prefix pat (String c s)
              then Some (String.substring (String.length pat) (String.length (String c s)) (String c s)) else None
    end.
Proof. done. Qed.

Lemma bearer t : after_last "Bearer " t = None → rsplit_next "Bearer " ("Bearer " +:+ t) = t.
Proof.
  intros Ht. unfold rsplit_next.
  assert (after_last "Bearer " ("Bearer " +:+ t) = Some (String.substring 7 (7 + String.length t) ("Bearer " +:+ t))) as ->.
  { let y := eval vm_compute in ("Bearer " +:+ t) in change ("Bearer " +:+ t) with y.
    rewrite !after_last_cons, Ht. by destruct t. }
  simpl. apply substring_all. lia.
Qed.

(** C18: the token of a login opens the guard. After a password login, every
    request whose header carries the access token passes the guard, at any time
    at which the token is still accepted, and is treated as coming from the
    device and the account of the login. *)
Theorem login_token_opens_guard `{L : LoginTokens} (E' : Env) (draws : LoginDraws) (data : ConnectData.t) (ip : string)
    (cv : option string) (d : DB) (user : User.t) (device : Device.t) (tokens : AuthTokens.t) (token : option string)
    (d' : DB) (req : Request.t) (jwt : string) :
  wf d → providers_keep_sessions →
  password_login (E := E) draws data ip cv d = (Ok (LoggedIn user device tokens token), d') →
  decode_login jwt = Ok (AuthTokens.access_claims tokens) → after_last "Bearer " jwt = None →
  Request.authorization req = Some ("Bearer " +:+ jwt) →
  ∃ h, Headers_from_request (E := E') req d' = (Ok h, d') ∧ Headers.device h = device
    ∧ User.uuid (Headers.user h) = User.uuid user.
Proof.
  intros Hwf Hp H Hjwt Hb Hreq. unfold password_login in H. run_steps.
  match goal with Hs : AuthMethod_check_scope _ _ _ = (Ok _, _) |- _ => apply check_scope_Ok in Hs as [_ ->] end.
  match goal with Hs : check_credentials _ _ _ _ _ = (Ok ?u, _) |- _ =>
    destruct u; apply check_credentials_Ok in Hs as [-> _]; [|done] end.
  match goal with Hf : User_find_by_mail _ _ = Some ?u |- _ => rename u into row;
    apply head_Some_elem, elem_of_where in Hf as [Hin _] end.
  assert (Hst : stamped (User.uuid row) (User.security_stamp row) d).
  { split_and!; [apply Hwf..|]. apply elem_of_rows in Hin as [k Hin].
    pose proof (wf_users _ Hwf _ _ Hin) as Hk. simpl in Hk. subst k. eauto. }
  match goal with Hu : upgrade_login _ _ _ _ _ = _ |- _ =>
    eapply upgrade_stamped in Hst; [|exact Hu|done]; apply upgrade_Ok in Hu as (Hlog & _); destruct Hlog end.
  match goal with Hu : get_login_device _ _ _ _ = _ |- _ =>
    eapply login_device_stamped in Hst; [|exact Hu]; apply login_device_Ok in Hu as (Hown & _) end.
  rewrite <- sl_uuid0, <- sl_stamp0 in Hst.
  match goal with Hu : twofactor_auth _ _ _ _ _ _ _ = _ |- _ =>
    eapply twofactor_stamped in Hst; [|exact Hp|exact Hu|done]; apply twofactor_auth_Ok in Hu as (Hlog & Hv1 & Hv2 & _);
    destruct Hlog end.
  eapply response_stamped in H as (Hst' & Hrow & -> & -> & Hd1 & Hd2); [|exact Hst].
  destruct Hst' as (Hku & Hkv & u' & Hu' & Hs'). pose proof (Hku _ _ Hu') as Hid. simpl in Hid.
  exists (Headers.mk device u' (Request.ip req)). split; [|split; [done|simpl; congruence]].
  apply guard_live_keyed; [done..|]. eexists _, _. split_and!; [exact Hreq|rewrite bearer by done; exact Hjwt|done|..].
  - done.
  - congruence.
  - apply elem_of_rows. eauto.
  - simpl. congruence.
  - left. simpl. congruence.
Qed.
End sessions.

(** ** Disabled accounts *)

Section lockout.
Context `{E : Env} `{C : Crypto} `{L : LoginTokens}.

(** C19: an account that the administrator disables is locked out at once. When
    the request has succeeded, no request passes the guard for this account, at
    any time and with whatever token; and no request to the token endpoint, by
    password, API key, refresh token or single sign-on, is answered with tokens
    for it, as long as a new account does not draw its identifier. *)
Theorem disabled_account_is_locked_out (draws : AccountDraws) (u : string) (d d' : DB) :
  wf d → disable_user (E := E) draws u d = (Ok (), d') →
  (∀ (E' : Env) req h d2, Headers_from_request (E := E') req d' = (Ok h, d2) → User.uuid (Headers.user h) ≠ u)
  ∧ (∀ (E' : Env) `{Codecs, Totp, PolicyJson, PushRelay, SessionTokens, FactorProviders, IdentityProvider}
       draws' data ip cv a d2,
       seed_uuid (draw_seed (login_account draws')) ≠ u → login (E := E') draws' data ip cv d' = (Ok a, d2) →
       ¬ answers_for a u).
Proof.
  intros Hwf [Hu Hv]%disable_user_locks; [|done]. split.
  - intros E' req h d2 (_ & (a & claims & _ & _ & Hin & _ & Ho & _) & _)%guard_Ok Hh. eapply Hv; [exact Hin|congruence].
  - intros. by eapply locked_out_login.
Qed.
End lockout.

(** ** A concrete server *)

Module SampleLogin.
Import Sample.

Definition crypto : Crypto := {| pbkdf2 password _ _ := password |}.
Definition push : PushRelay := {| push_register _ := Ok (); push_unregister _ := Ok () |}.
Definition policies : PolicyJson := {| auto_enroll_enabled _ := Some false; disable_hide_email _ := Some false |}.
Definition refusal {A} : Res A := Err (MkError 400 "refused").
Definition sessions : SessionTokens := {|
  decode_refresh _ := refusal; decode_2fa_remember _ := refusal; encode_2fa_remember _ := "remember";
  as_send_id s := Some s; decode_api_org _ := refusal; domain_origin := "https://vault.example"
|}.
Definition factors : FactorProviders := {|
  duo_provider_data _ := None; enable_duo := false; duo_host := None; duo_ikey := None; duo_skey := None;
  enable_yubico := false; yubico_client_id := None; yubico_secret_key := None; is_webauthn_2fa_supported := true;
  validate_webauthn_login _ _ := mret (); validate_yubikey_login _ _ := Ok (); validate_duo_login _ _ := mret ();
  webauthn_challenge _ := mret (); duo_challenge _ := mret (); yubikey_metadata _ := Ok ();
  sends_own_email_code _ := false
|}.
Definition provider : IdentityProvider := {|
  sso_authority := "https://id.example"; sso_pkce := true; sso_signups_match_email := false;
  sso_allow_unknown_email_verification := false; sso_auth_only_not_session := true;
  pkce_challenge v := v; provider_exchange _ _ _ := refusal; provider_refresh _ := refusal;
  provider_check_validity _ := Ok (); insecure_decode _ := None; sha256_hex s := s; decode_base64_utf8 s := Some s;
  provider_authorize _ _ := refusal; domain := "https://vault.example"; parse_url s := Ok s; localhost_port _ := None
|}.
#[export] Existing Instances env crypto push policies sessions factors provider SampleCodecs.codecs SampleCodecs.totp.

Definition account_draws : AccountDraws := {|
  draw_seed := MkSeed "new" "stamp'" []; draw_stamp := "stamp'"; draw_token_for _ := "fresh"; draw_factor_id := "tf";
  draw_api_key := "key"; draw_email_token := "token"; draw_id := "id"
|}.
Definition draws : LoginDraws := {|
  login_account := account_draws; login_push_id := "push"; login_refresh_token := "r"; login_email_code := "123456"
|}.

(** Bob has the password "secret"; his identity at the provider is linked, and
    one code of the provider has been exchanged. *)
Definition with_password : User.t :=
  User.set_password_hash (λ _, as_bytes "secret") (User.set_private_key (λ _, Some "key") (Sample.user env "bob" "b@x")).
Definition infos : OIDCAuthenticatedUser.t :=
  OIDCAuthenticatedUser.mk None "access" None "https://id.example/bob" "b@x" (Some true) None.
Definition login_db : DB :=
  set_sso_auth (λ _, {[ "state" := SsoAuth.mk "state" "c" "n" "/" (Some "code") None (Some infos) now now None ]})
    (set_sso_users (λ _, {[ "bob" := SsoUser.mk "bob" "https://id.example/bob" ]})
      (set_users <["bob" := with_password]> db)).

Definition form (grant scope : string) (password code : option string) : ConnectData.t := {|
  ConnectData.grant_type := grant; ConnectData.refresh_token := None; ConnectData.client_id := Some "web";
  ConnectData.client_secret := None; ConnectData.password := password; ConnectData.scope := Some scope;
  ConnectData.username := Some " B@x"; ConnectData.device_identifier := Some "phone";
  ConnectData.device_name := Some "Phone"; ConnectData.device_type := Some "0"; ConnectData.two_factor_provider := None;
  ConnectData.two_factor_token := None; ConnectData.two_factor_remember := None; ConnectData.auth_request := None;
  ConnectData.code := code; ConnectData.code_verifier := code; ConnectData.send_id := None;
  ConnectData.password_hash_b64 := None
|}.
Definition by_password := form "password" "api offline_access" (Some "secret") None.
Definition by_code := form "authorization_code" "api offline_access" None (Some "code").

(** The token of a login is the word "jwt", with the claims of that login. *)
Definition claims : LoginJwtClaims.t :=
  LoginJwtClaims_default phone with_password Password (Some "web").
Definition tokens : LoginTokens := {|
  decode_login s := if s == "jwt" then Ok claims else refusal; is_uuid _ := true
|}.
#[export] Existing Instance tokens.
Definition request : Request.t := Request.mk (Some "Bearer jwt") (Some "sync") "10.0.0.1" None None None None.
End SampleLogin.

Section witnesses.
Import SampleLogin.

Lemma login_db_wf : wf login_db.
Proof. by apply wf_b_sound; vm_compute. Qed.

Definition password_run := password_login draws by_password "10.0.0.1" None login_db.
Definition answered (r : Res LoginAnswer) : LoginAnswer := match r with Ok a => a | Err _ => SendOpened "" end.

Lemma password_login_needs_proof_witness :
  ∃ username user device user' device' tokens token,
    ConnectData.username by_password = Some username ∧ user ∈ rows (users login_db)
    ∧ User.email user = to_lowercase (trim username) ∧ User.enabled user = true
    ∧ presented_credentials by_password "10.0.0.1" user login_db
    ∧ (mail_enabled = true → signups_verify = true → is_Some (User.verified_at user))
    ∧ Device.user_uuid device = User.uuid user
    ∧ (device ∈ rows (devices login_db) ∨ Device.twofactor_remember device = None)
    ∧ (TwoFactor_find_by_user (User.uuid user) login_db = [] ∨ passed_factor draws by_password device user login_db)
    ∧ answered password_run.1 = LoggedIn user' device' tokens token ∧ User.uuid user' = User.uuid user
    ∧ LoginJwtClaims.sub (AuthTokens.access_claims tokens) = User.uuid user.
Proof. apply (password_login_needs_proof draws by_password "10.0.0.1" None login_db _ password_run.2). vm_compute. reflexivity. Defined.

Definition sso_run := sso_login draws by_code "10.0.0.1" None login_db.
Lemma sso_login_opens_own_accounts_witness :
  ∃ code verifier sso_auth infos d1 user' device' tokens token,
    ConnectData.code by_code = Some code ∧ ConnectData.code_verifier by_code = Some verifier
    ∧ exchange_code code verifier login_db = (Ok (sso_auth, infos), d1)
    ∧ answered sso_run.1 = LoggedIn user' device' tokens token
    ∧ (User.uuid user' = seed_uuid (draw_seed (login_account draws))
       ∨ ∃ user, user ∈ rows (users login_db) ∧ User.enabled user = true ∧ User.uuid user' = User.uuid user
           ∧ sso_stands_for infos user login_db).
Proof. apply (sso_login_opens_own_accounts draws by_code "10.0.0.1" None login_db _ sso_run.2). vm_compute. reflexivity. Defined.

Definition logged_in (a : LoginAnswer) : User.t * Device.t * AuthTokens.t * option string :=
  match a with
  | LoggedIn user device tokens token => (user, device, tokens, token)
  | _ => (with_password, Sample.phone, AuthTokens_new Sample.phone with_password Password None, None)
  end.
Lemma login_token_opens_guard_witness :
  ∃ h, Headers_from_request request password_run.2 = (Ok h, password_run.2)
    ∧ Headers.device h = (logged_in (answered password_run.1)).1.1.2
    ∧ User.uuid (Headers.user h) = User.uuid (logged_in (answered password_run.1)).1.1.1.
Proof.
  apply (login_token_opens_guard Sample.env draws by_password "10.0.0.1" None login_db _ _
    (logged_in (answered password_run.1)).1.2 (logged_in (answered password_run.1)).2 _ _ "jwt").
  - apply login_db_wf.
  - done.
  - vm_compute. reflexivity.
  - vm_compute. reflexivity.
  - reflexivity.
  - reflexivity.
Defined.

Lemma guard_admits_live_sessions_witness : live_session request login_db Sample.phone with_password.
Proof.
  apply (guard_admits_live_sessions request login_db login_db_wf). vm_compute. reflexivity.
Defined.

Definition disabled_db : DB := (disable_user account_draws "bob" login_db).2.
Lemma disabled_account_is_locked_out_witness :
  (∀ h d2, Headers_from_request request disabled_db = (Ok h, d2) → User.uuid (Headers.user h) ≠ "bob")
  ∧ ¬ answers_for (answered (login draws by_password "10.0.0.1" None disabled_db).1) "bob".
Proof.
  destruct (disabled_account_is_locked_out account_draws "bob" login_db disabled_db login_db_wf) as [H1 H2];
    [vm_compute; reflexivity|].
  split; [apply H1|vm_compute; done].
Defined.
End witnesses.
