(* ===== verification/FactorSafety.v ===== *)
(** Who changes a second factor.

    The requests of accounts on their second factors, one after another: without
    the password of an account or a code sent to it, its factors stay. The
    invariant is relative to the first state; rows that hold the codes for
    protected actions are left out, because checking a code changes them. *)
From stdpp Require Import pretty.
From S2P Require Import Prelude Schema Roles Users Json Invariants Samples TwoFactors OneTimeCodes Sends EmergencyRows Memberships Groups Collections Guards VaultItems Ciphers Policies Organizations Emergency OrgJson Members Accounts Tokens SingleSignOn Identity Downloads Vault SendRequests SecondFactors Passkeys VaultAccess Quotas SendAccess Authentication Logins.
Local Open Scope Z_scope.

(** The requests, with the ids and codes that they draw. *)
Inductive SetupRequest :=
| GetTwofactor
| GetRecover (hash otp : option string)
| DisableTwofactor (type_ : Res Z) (hash otp : option string)
| GenerateAuthenticator (new_key : string) (hash otp : option string)
| ActivateAuthenticator (tf_id code : string) (data : EnableAuthenticatorData.t)
| DisableAuthenticator (data : DisableAuthenticatorData.t)
| GetEmail (hash otp : option string)
| SendEmail (tf_id token : string) (data : SendEmailData.t)
| ConfirmEmail (code : string) (data : EmailData.t)
| GenerateYubikey (hash otp : option string)
| ActivateYubikey (tf_id code : string) (data : EnableYubikeyData.t)
| GetDuo (hash otp : option string)
| ActivateDuo (tf_id code : string) (data : EnableDuoData.t)
| GetWebauthn (hash otp : option string)
| WebauthnChallenge (tf_id : string) (hash otp : option string)
| ActivateWebauthn (tf_id code : string) (data : EnableWebauthnData.t)
| DeleteWebauthn (data : DeleteU2FData.t).

(** The password or code of a request. *)
Definition proof_of (r : SetupRequest) : option string * option string :=
  match r with
  | GetTwofactor => (None, None)
  | GetRecover hash otp | DisableTwofactor _ hash otp | GenerateAuthenticator _ hash otp | GetEmail hash otp
  | GenerateYubikey hash otp | GetDuo hash otp | GetWebauthn hash otp | WebauthnChallenge _ hash otp => (hash, otp)
  | ActivateAuthenticator _ _ data => (EnableAuthenticatorData.master_password_hash data, EnableAuthenticatorData.otp data)
  | DisableAuthenticator data => (Some (DisableAuthenticatorData.master_password_hash data), None)
  | SendEmail _ _ data => (SendEmailData.master_password_hash data, SendEmailData.otp data)
  | ConfirmEmail _ data => (EmailData.master_password_hash data, EmailData.otp data)
  | ActivateYubikey _ _ data => (EnableYubikeyData.master_password_hash data, EnableYubikeyData.otp data)
  | ActivateDuo _ _ data => (EnableDuoData.master_password_hash data, EnableDuoData.otp data)
  | ActivateWebauthn _ _ data => (EnableWebauthnData.master_password_hash data, EnableWebauthnData.otp data)
  | DeleteWebauthn data => (Some (DeleteU2FData.master_password_hash data), None)
  end.
Definition new_row (r : SetupRequest) : option string :=
  match r with
  | ActivateAuthenticator id _ _ | SendEmail id _ _ | ActivateYubikey id _ _ | ActivateDuo id _ _
  | WebauthnChallenge id _ _ | ActivateWebauthn id _ _ => Some id
  | _ => None
  end.

Section setup.
Context `{E : Env} `{K : Codecs} `{T : Totp} `{P : PolicyJson} `{C : Crypto} `{R : PushRelay}.
Context `{S : SessionTokens} `{F : FactorProviders} `{O : IdentityProvider} `{J : JsonText} `{CH : Chrono} `{FS : FactorServices}.
Context `{W : !WebauthnCrate} `{WC : !WebauthnCodecs}.

Definition setup (h : Headers.t) (r : SetupRequest) : M DB () :=
  match r with
  | GetTwofactor => get_twofactor h ;; mret ()
  | GetRecover hash otp => get_recover hash otp h ;; mret ()
  | DisableTwofactor type_ hash otp => disable_twofactor type_ hash otp h
  | GenerateAuthenticator new_key hash otp => generate_authenticator new_key hash otp h ;; mret ()
  | ActivateAuthenticator tf_id code data => activate_authenticator tf_id code data h ;; mret ()
  | DisableAuthenticator data => disable_authenticator data h ;; mret ()
  | GetEmail hash otp => get_email hash otp h ;; mret ()
  | SendEmail tf_id token data => send_email tf_id token data h
  | ConfirmEmail code data => confirm_email code data h ;; mret ()
  | GenerateYubikey hash otp => generate_yubikey hash otp h ;; mret ()
  | ActivateYubikey tf_id code data => activate_yubikey tf_id code data h ;; mret ()
  | GetDuo hash otp => get_duo hash otp h ;; mret ()
  | ActivateDuo tf_id code data => activate_duo tf_id code data h ;; mret ()
  | GetWebauthn hash otp => get_webauthn hash otp h ;; mret ()
  | WebauthnChallenge tf_id hash otp => generate_webauthn_challenge tf_id hash otp h ;; mret ()
  | ActivateWebauthn tf_id code data => activate_webauthn tf_id code data h ;; mret ()
  | DeleteWebauthn data => delete_webauthn data h ;; mret ()
  end.

(** The request proves nothing about its account: neither way to use the code
    accepts it. *)
Definition unproven (h : Headers.t) (r : SetupRequest) (d : DB) : Prop :=
  ∀ delete_if_valid, is_ok (PasswordOrOtpData_validate (proof_of r).1 (proof_of r).2 (Headers.user h) delete_if_valid d).1 = false.

Section invariant.
Context (u : string) (d0 : DB).

(** A factor of the account. *)
Definition factor_of (tf : TwoFactor.t) : Prop := TwoFactor.user_uuid tf = u ∧ TwoFactor.atype tf ≠ action_type.
Definition not_ours (k : string) : Prop := ∀ tf, twofactor d0 !! k = Some tf → ¬ factor_of tf.

Record Kept (d : DB) : Prop := {
  kept_keyed : map_Forall (λ k r, TwoFactor.uuid r = k) (twofactor d);
  kept_factors : ∀ k tf, factor_of tf → twofactor d !! k = Some tf ↔ twofactor d0 !! k = Some tf
}.
Notation keeps_factors m := (keeps (preserves Kept) m).

Lemma factors_kept_same {A} (m : M DB A) : keeps (same_on twofactor) m → keeps_factors m.
Proof. intros Hm d [Hk Hf]. specialize (Hm d). unfold same_on in Hm. by split; rewrite Hm. Qed.

(** A row of somebody else, or one of the codes for protected actions. *)
Definition harmless (tf : TwoFactor.t) : Prop := ¬ factor_of tf ∧ not_ours (TwoFactor.uuid tf).

Lemma stored_harmless d tf : Kept d → tf ∈ rows (twofactor d) → ¬ factor_of tf → harmless tf.
Proof.
  intros [Hk Hf] (k & Htf)%elem_of_rows Hno. split; [done|]. intros tf' Hl Hours. pose proof (Hk _ _ Htf) as Hkey. simpl in Hkey. subst k.
  apply Hf in Hl; [|done]. by simplify_eq.
Qed.
Lemma factors_kept_save tf : harmless tf → keeps_factors (TwoFactor_save tf).
Proof.
  intros [Hno Hfree] d [Hk Hf]. unfold TwoFactor_save. rewrite run_modify.
  set (p := λ r, (TwoFactor.user_uuid r == TwoFactor.user_uuid tf) && (TwoFactor.atype r == TwoFactor.atype tf)).
  assert (Hdel : ∀ k r, factor_of r → delete_where p (twofactor d) !! k = Some r ↔ twofactor d0 !! k = Some r).
  { intros k r Hr. rewrite lookup_delete_where, <-Hf by done. split; [naive_solver|]. intros Hl. split; [done|]. unfold p.
    destruct (bool_decide_reflect (TwoFactor.user_uuid r = TwoFactor.user_uuid tf)); [|done].
    destruct (bool_decide_reflect (TwoFactor.atype r = TwoFactor.atype tf)); [|done]. destruct Hno. unfold factor_of in *. by rewrite <-e, <-e0. }
  unfold save_row. destruct (has _ _); simpl; split; simpl.
  - apply map_Forall_insert_2; [done|]. by apply keyed_delete_where.
  - intros k r Hr. rewrite lookup_insert_Some. split.
    + intros [[<- <-]|[_ Hl]]; [done|]. by apply Hdel.
    + intros Hl. right. split; [|by apply Hdel]. intros <-. by apply (Hfree r).
  - by apply keyed_delete_where.
  - done.
Qed.
Lemma factors_kept_change f tf : harmless tf → keeps_factors (TwoFactor_save (TwoFactor.set_data f tf)).
Proof. intros Htf. apply factors_kept_save. by destruct tf. Qed.
Lemma factors_kept_delete tf : not_ours (TwoFactor.uuid tf) → keeps_factors (TwoFactor_delete tf).
Proof.
  intros Hfree d [Hk Hf]. split; simpl; [by apply keyed_delete_where|]. intros k r Hr. rewrite lookup_delete_where, <-Hf by done.
  split; [naive_solver|]. intros Hl. split; [done|]. apply bool_decide_false. intros He. pose proof (Hk _ _ Hl) as Hkey. simpl in Hkey.
  apply (Hfree r); [|done]. apply Hf; [done|]. by rewrite <-He, Hkey.
Qed.

Lemma found_factor d v ty tf : TwoFactor_find_by_user_and_type v ty d = Some tf →
  tf ∈ rows (twofactor d) ∧ TwoFactor.user_uuid tf = v ∧ TwoFactor.atype tf = ty.
Proof. intros [Htf Hp]%head_Some_elem%elem_of_where. by bools. Qed.

(** Checking a code changes only the row of the code. *)
Lemma factors_kept_validate hash otp user del : keeps_factors (PasswordOrOtpData_validate hash otp user del).
Proof.
  unfold PasswordOrOtpData_validate. destruct hash, otp; try apply keeps_err, _; [by solve_keeps|].
  unfold validate_protected_action_otp. apply preserves_gets. intros d Hd.
  destruct (TwoFactor_find_by_user_and_type _ action_type d) as [pa|] eqn:Hpa; [|apply keeps_err, _].
  apply found_factor in Hpa as (Hin & Hu & Ht). assert (Hh : harmless pa).
  { eapply stored_harmless; [done..|]. by intros [_ []]. }
  apply preserves_some_or. intros pa' [= <-]. apply preserves_some_or. intros p Hp. cbv zeta.
  set (pa' := TwoFactor.set_data _ pa). assert (harmless pa') by (by destruct pa).
  repeat case_match; try apply keeps_err, _; try (apply keeps_bind; [apply _| |intros; apply keeps_err, _]).
  - by apply factors_kept_delete, H.
  - by apply factors_kept_save.
  - unfold when. destruct del; [by apply factors_kept_delete, H|apply keeps_ret, _].
Qed.

(** Requests of other accounts. *)
Lemma factors_kept_recover code user : keeps_factors (generate_recover_code code user).
Proof. apply factors_kept_same. unfold generate_recover_code, User_save. by db_keeps. Qed.
Lemma factors_kept_policy user : keeps_factors (enforce_2fa_policy user).
Proof. apply factors_kept_same. unfold enforce_2fa_policy, Membership_save, User_update_uuid_revision, expect, panic. by db_keeps. Qed.

Section others.
Context (h : Headers.t) (Hother : User.uuid (Headers.user h) ≠ u).

Lemma factors_kept_new id ty data : not_ours id → keeps_factors (TwoFactor_save (TwoFactor_new id (User.uuid (Headers.user h)) ty data)).
Proof. intros Hid. apply factors_kept_save. split; [|done]. by intros [? _]. Qed.
Lemma factors_kept_found {A} ty (f : option TwoFactor.t → M DB A) :
  keeps_factors (f None) → (∀ tf, harmless tf → TwoFactor.user_uuid tf = User.uuid (Headers.user h) → keeps_factors (f (Some tf))) →
  keeps_factors (gets (TwoFactor_find_by_user_and_type (User.uuid (Headers.user h)) ty) ≫= f).
Proof.
  intros Hn Hs. apply preserves_gets. intros d Hd. destruct (TwoFactor_find_by_user_and_type _ ty d) as [tf|] eqn:Hf; [|done].
  apply found_factor in Hf as (Hin & Hu & _). apply Hs; [|done]. eapply stored_harmless; [done..|]. intros [He _]. congruence.
Qed.

(** [keeps_step], with the lemmas on factors. *)
Ltac kept :=
  repeat first
    [ apply factors_kept_validate | apply factors_kept_recover | apply factors_kept_policy
    | apply factors_kept_found; [|intros ?tf ?Hh ?Hu]
    | lazymatch goal with |- keeps _ (some_or _ _ ≫= _) => apply preserves_some_or; intros ?a ?Ha; simplify_eq end
    | progress intros | solve [eauto 3 with vault typeclass_instances] | keeps_step ].

Lemma factors_kept_totp id token secret : not_ours id → keeps_factors (validate_totp_code id (User.uuid (Headers.user h)) token secret).
Proof.
  intros Hid. unfold validate_totp_code. apply preserves_some_or. intros key _. apply preserves_gets. intros d Hd.
  assert (Hh : harmless (totp_load id (User.uuid (Headers.user h)) secret d)).
  { unfold totp_load. destruct (TwoFactor_find_by_user_and_type _ _ d) as [tf|] eqn:Hf.
    - apply found_factor in Hf as (Hin & Hu & _). eapply stored_harmless; [done..|]. intros [He _]. congruence.
    - split; [|done]. by intros [? _]. }
  destruct (totp_decide _ _ _) as [t|] eqn:Ht; [|apply keeps_err, _]. apply factors_kept_save. unfold totp_decide in Ht.
  repeat case_match; simplify_eq. by destruct (totp_load _ _ _ _).
Qed.

Lemma factors_kept_setup r : (∀ id, new_row r = Some id → not_ours id) → keeps_factors (setup h r).
Proof.
  intros Hid. destruct r; cbn [setup]; cbn [new_row] in Hid.
  - unfold get_twofactor. kept.
  - unfold get_recover. kept.
  - unfold disable_twofactor. kept. apply factors_kept_delete, Hh.
  - unfold generate_authenticator. kept.
  - unfold activate_authenticator. kept. apply factors_kept_totp. by apply Hid.
  - unfold disable_authenticator. kept. apply factors_kept_delete, Hh.
  - unfold get_email, EmailTokenData_from_json. kept.
  - unfold send_email. kept; [by apply factors_kept_new, Hid|apply factors_kept_delete, Hh|by apply factors_kept_new, Hid].
  - unfold confirm_email, EmailTokenData_from_json. kept. apply factors_kept_save. split; [|apply Hh]. intros [He _]. cbn in He. congruence.
  - unfold generate_yubikey. kept.
  - unfold activate_yubikey, map_res. kept.
    + apply factors_kept_save. split; [|by apply Hid]. by intros [? _].
    + by apply factors_kept_change.
  - unfold get_duo, get_user_duo_data, DuoData_global, unwrap, expect, panic. kept.
  - unfold activate_duo, map_res, unwrap, expect, panic. kept. by apply factors_kept_new, Hid.
  - unfold get_webauthn, get_webauthn_registrations. kept.
  - unfold generate_webauthn_challenge, get_webauthn_registrations, expect, panic. kept. by apply factors_kept_new, Hid.
  - unfold activate_webauthn, get_webauthn_registrations. kept; [apply factors_kept_delete, Hh|by apply factors_kept_new, Hid].
  - unfold delete_webauthn, forget_u2f. kept; by apply factors_kept_change.
Qed.
End others.

(** Requests of the account without a proof. *)
Lemma refused_first {A} (m : M DB ()) (f : () → M DB A) d : is_ok (m d).1 = false → ∃ e, (m ≫= f) d = (Err e, (m d).2).
Proof. unfold mbind, M_bind. destruct (m d) as [[a|e] d']; [done|]. by exists e. Qed.
Lemma refused_then {A B} (m : M DB A) (f : A → M DB B) d d' : (∃ e, m d = (Err e, d')) → ∃ e, (m ≫= f) d = (Err e, d').
Proof. intros [e He]. exists e. by apply run_bind_Err. Qed.
Lemma factors_kept_refused {A} (m : M DB A) hash otp user del d :
  Kept d → (∃ e, m d = (Err e, (PasswordOrOtpData_validate hash otp user del d).2)) → Kept (m d).2.
Proof. intros Hd [e ->]. by apply factors_kept_validate. Qed.

Lemma disable_unproven data h d :
  User_check_valid_password (Headers.user h) (DisableAuthenticatorData.master_password_hash data) = false →
  ∃ e, disable_authenticator data h d = (Err e, d).
Proof. intros Hpw. unfold disable_authenticator. destruct (NumberOrString_into_i32 _); [|by eexists]. rewrite Hpw. by eexists. Qed.

Lemma delete_unproven data h d :
  User_check_valid_password (Headers.user h) (DeleteU2FData.master_password_hash data) = false → ∃ e, delete_webauthn data h d = (Err e, d).
Proof. intros Hpw. unfold delete_webauthn. destruct (NumberOrString_into_i32 _); [|by eexists]. rewrite Hpw. by eexists. Qed.

Lemma factors_kept_unproven h r d : Kept d → unproven h r d → Kept (setup h r d).2.
Proof.
  intros Hd Hno. unfold unproven in Hno. destruct r; cbn [setup proof_of fst snd] in *.
  1: by apply (factors_kept_same (get_twofactor h ;; mret ())); [unfold get_twofactor; solve_keeps|].
  all: try (eapply factors_kept_refused; [exact Hd|]; first [by apply refused_first|apply refused_then; by apply refused_first]).
  - match goal with |- context [disable_authenticator ?data h] => destruct (disable_unproven data h d) as [e He] end.
    { apply not_true_iff_false. intros Hpw. specialize (Hno true). cbn [PasswordOrOtpData_validate] in Hno. by rewrite Hpw in Hno. }
    by rewrite (run_bind_Err _ _ _ _ _ He).
  - unfold generate_yubikey. destruct get_yubico_credentials as [a|e]; [|done].
    eapply factors_kept_refused; [exact Hd|]. apply refused_then. by apply refused_first.
  - unfold get_webauthn. destruct (negb is_webauthn_2fa_supported); [done|].
    eapply factors_kept_refused; [exact Hd|]. apply refused_then. by apply refused_first.
  - match goal with |- context [delete_webauthn ?data h] => destruct (delete_unproven data h d) as [e He] end.
    { apply not_true_iff_false. intros Hpw. specialize (Hno true). cbn [PasswordOrOtpData_validate] in Hno. by rewrite Hpw in Hno. }
    by rewrite (run_bind_Err _ _ _ _ _ He).
Qed.
End invariant.

(** A request leaves the factors of an account: it is one of somebody else, or
    proves nothing. *)
Lemma factors_kept_request u d0 h r d :
  Kept u d0 d → (∀ id, new_row r = Some id → not_ours u d0 id) → (User.uuid (Headers.user h) = u → unproven h r d) →
  Kept u d0 (setup h r d).2.
Proof.
  intros Hd Hid Hp. destruct (decide (User.uuid (Headers.user h) = u)) as [He|Hne]; [by apply factors_kept_unproven, Hp|by apply factors_kept_setup].
Qed.
End setup.

Section histories.
Context `{K : Codecs} `{T : Totp} `{P : PolicyJson} `{C : Crypto} `{R : PushRelay}.
Context `{S : SessionTokens} `{F : FactorProviders} `{O : IdentityProvider} `{J : JsonText} `{CH : Chrono} `{FS : FactorServices}.
Context `{W : !WebauthnCrate} `{WC : !WebauthnCodecs}.

(** Requests one after another, each with its time and settings. *)
Fixpoint setup_history (l : list (Env * Headers.t * SetupRequest)) (d : DB) : DB :=
  match l with [] => d | (E, h, r) :: l => setup_history l (setup h r d).2 end.
(** No request of the account proves that its password or a code is known. *)
Fixpoint unproven_along (u : string) (l : list (Env * Headers.t * SetupRequest)) (d : DB) : Prop :=
  match l with
  | [] => True
  | (E, h, r) :: l => (User.uuid (Headers.user h) = u → unproven h r d) ∧ unproven_along u l (setup h r d).2
  end.

End histories.

(** ** Steps of the set-up that surprise *)
Section surprises.
Context `{E : Env} `{K : Codecs} `{T : Totp} `{P : PolicyJson} `{C : Crypto} `{R : PushRelay}.
Context `{S : SessionTokens} `{F : FactorProviders} `{O : IdentityProvider} `{J : JsonText} `{CH : Chrono} `{FS : FactorServices}.

Lemma password_accepted hash user del d : User_check_valid_password user hash = true →
  PasswordOrOtpData_validate (Some hash) None user del d = (Ok (), d).
Proof. intros Hpw. unfold PasswordOrOtpData_validate. by rewrite Hpw. Qed.

(** Activating an authenticator again with another key is answered with the new
    key, checked against it, and keeps the old one. *)
Theorem reactivation_keeps_old_key (tf_id code hash : string) (data : EnableAuthenticatorData.t) (h : Headers.t) (d d' : DB) (j : Json)
    (tf : TwoFactor.t) :
  EnableAuthenticatorData.master_password_hash data = Some hash → EnableAuthenticatorData.otp data = None →
  TwoFactor_find_by_user_and_type (User.uuid (Headers.user h)) (TwoFactorType_as_i32 Authenticator) d = Some tf →
  activate_authenticator tf_id code data h d = (Ok j, d') →
  j = authenticator_json true (EnableAuthenticatorData.key data)
  ∧ ∃ tf', TwoFactor_find_by_user_and_type (User.uuid (Headers.user h)) (TwoFactorType_as_i32 Authenticator) d' = Some tf'
      ∧ TwoFactor.data tf' = TwoFactor.data tf.
Proof.
  intros Hh Ho Hf Hrun. unfold activate_authenticator in Hrun. cbv zeta in Hrun. rewrite Hh, Ho in Hrun.
  destruct (User_check_valid_password (Headers.user h) hash) eqn:Hpw.
  2: { unfold PasswordOrOtpData_validate in Hrun. by rewrite Hpw in Hrun. }
  rewrite (run_bind_Ok _ _ _ _ _ (password_accepted _ _ _ _ Hpw)) in Hrun.
  apply bind_Ok in Hrun as (key & d1 & Hkey & Hrun). apply some_or_Ok in Hkey as [Hkey ->]. run_step Hrun.
  apply bind_Ok in Hrun as ([] & d1 & Htotp & Hrun). unfold validate_totp_code in Htotp. run_step Htotp. apply some_or_Ok in Hrun0 as [_ ->].
  rewrite run_gets in Htotp. unfold totp_load in Htotp. rewrite Hf in Htotp. unfold totp_decide in Htotp.
  destruct (totp_search _ _ _ _ _) as [[step|]|]; [|done..]. apply found_factor in Hf as (_ & Hu & Hty).
  destruct (has (users d) (TwoFactor.user_uuid tf)) eqn:Hhas.
  2: { unfold TwoFactor_save in Htotp. rewrite run_modify in Htotp. unfold save_row in Htotp. simpl in Htotp. by rewrite Hhas in Htotp. }
  destruct (TwoFactor_save_find (TwoFactor.set_last_used (λ _, step) tf) d) as (d2 & Hsave & _ & Hfind); [by destruct tf|].
  rewrite Hsave in Htotp. injection Htotp as <-. apply bind_Ok in Hrun as ([] & d3 & Hrec & Hrun). apply ret_Ok in Hrun as [-> ->]. split; [done|].
  exists (TwoFactor.set_last_used (λ _, step) tf). split; [|by destruct tf].
  assert (twofactor d3 = twofactor d2) as Hsame.
  { eapply (same_part twofactor); [|exact Hrec]. unfold generate_recover_code, User_save. by db_keeps. }
  unfold TwoFactor_find_by_user_and_type in *. rewrite Hsame. rewrite <-Hu, <-Hty. by destruct tf.
Qed.

(** Asking to change the address of the e-mail factor removes the factor at once:
    an account with no other one is left without a second factor, and the
    organizations that require one are not told. *)
Theorem pending_address_drops_factor (tf_id token : string) (data : SendEmailData.t) (h : Headers.t) (d d' : DB) (tf : TwoFactor.t)
    (hash : string) :
  wf d → SendEmailData.master_password_hash data = Some hash → SendEmailData.otp data = None →
  TwoFactor_find_by_user (User.uuid (Headers.user h)) d = [tf] → TwoFactor.atype tf = TwoFactorType_as_i32 Email →
  send_email tf_id token data h d = (Ok (), d') →
  TwoFactor_find_by_user (User.uuid (Headers.user h)) d' = [] ∧ users_organizations d' = users_organizations d.
Proof.
  intros Hwf Hh Ho Hall Hty Hrun. unfold send_email in Hrun. cbv zeta in Hrun. rewrite Hh, Ho in Hrun.
  destruct (User_check_valid_password (Headers.user h) hash) eqn:Hpw.
  2: { unfold PasswordOrOtpData_validate in Hrun. by rewrite Hpw in Hrun. }
  rewrite (run_bind_Ok _ _ _ _ _ (password_accepted _ _ _ _ Hpw)) in Hrun. run_step Hrun. rewrite run_gets in Hrun.
  assert (Hrows : ∀ r, r ∈ rows (twofactor d) → TwoFactor.user_uuid r = User.uuid (Headers.user h) → TwoFactor.atype r < 1000 → r = tf).
  { intros r Hr Hu Hlt. apply list_elem_of_singleton. rewrite <-Hall. apply elem_of_where. split; [done|].
    rewrite bool_decide_true by done. by apply Z.ltb_lt. }
  assert (Hin : tf ∈ TwoFactor_find_by_user (User.uuid (Headers.user h)) d) by (rewrite Hall; left).
  apply elem_of_where in Hin as [Hin Hp]. bools.
  assert (TwoFactor_find_by_user_and_type (User.uuid (Headers.user h)) (TwoFactorType_as_i32 Email) d = Some tf) as Hf.
  { unfold TwoFactor_find_by_user_and_type, first. apply head_unique.
    - apply elem_of_where. by rewrite !bool_decide_true.
    - intros r [Hr Hq]%elem_of_where. bools. apply Hrows; [done|done|]. by rewrite H2. }
  rewrite Hf in Hrun. unfold TwoFactor_delete in Hrun. rewrite run_modify in Hrun. apply bind_Ok in Hrun as ([] & d1 & Hsave & Hrun).
  unfold TwoFactor_save in Hsave. rewrite run_modify in Hsave. unfold save_row in Hsave. destruct (has _ _) in Hsave; [|done].
  injection Hsave as <-. apply lift_Ok in Hrun as [_ ->]. split; [|done].
  apply where_none. intros r (k & Hr)%elem_of_rows. simpl in Hr. apply lookup_insert_Some in Hr as [[_ <-]|[_ Hr]]; [by rewrite andb_comm|].
  apply lookup_delete_where in Hr as [Hr _]. apply lookup_delete_where in Hr as [Hr Hne]. apply not_true_iff_false. intros Hq. bools.
  destruct (Hrows r) as []; [apply elem_of_rows; eauto|done|by apply Z.ltb_lt|done].
Qed.
End surprises.

(** ** The signed values of Duo *)

(** Text without a character. *)
Fixpoint lacks (c : Ascii.ascii) (s : string) : bool :=
  match s with EmptyString => true | String a s' => negb (a == c) && lacks c s' end.

Lemma split_last c s : lacks c s = true → split_on c s = [s].
Proof. induction s as [|a s IH]; [done|]. simpl. intros [Ha Hs]%andb_true_iff. apply negb_true_iff in Ha. rewrite Ha. by rewrite IH. Qed.
Lemma split_first c s rest : lacks c s = true → split_on c (s +:+ String c rest) = s :: split_on c rest.
Proof.
  induction s as [|a s IH]; simpl; [by rewrite bool_decide_true|]. intros [Ha Hs]%andb_true_iff. apply negb_true_iff in Ha.
  rewrite Ha. by rewrite IH.
Qed.
Lemma split_bar s rest : lacks bar s = true → split_on bar (s +:+ "|" +:+ rest) = s :: split_on bar rest.
Proof. apply split_first. Qed.
Lemma split_colon s rest : lacks (Ascii.ascii_of_nat 58) s = true →
  split_on (Ascii.ascii_of_nat 58) (s +:+ ":" +:+ rest) = s :: split_on (Ascii.ascii_of_nat 58) rest.
Proof. apply split_first. Qed.
Lemma split_lacks c s w : w ∈ split_on c s → lacks c w = true.
Proof.
  revert w. induction s as [|a s IH]; intros w; simpl; [by intros ->%list_elem_of_singleton|].
  destruct (a == c) eqn:Ha; [intros [->|Hw]%elem_of_cons; [done|by apply IH]|].
  destruct (split_on c s) as [|x xs] eqn:Hs; [intros ->%list_elem_of_singleton; by simpl; rewrite Ha|].
  intros [->|Hw]%elem_of_cons; simpl; [rewrite Ha; apply IH; left|apply IH; by right].
Qed.
Lemma append_assoc s t w : (s +:+ t) +:+ w = s +:+ (t +:+ w).
Proof. induction s as [|a s IH]; [done|]. apply (f_equal (String a)), IH. Qed.
Lemma lacks_app c s t : lacks c (s +:+ t) = lacks c s && lacks c t.
Proof. induction s as [|a s IH]; [done|]. simpl. by rewrite IH, andb_assoc. Qed.

Lemma pretty_lacks c n : digit c = None → 0 ≤ n → lacks c (pretty n) = true.
Proof.
  intros Hc Hn. pose proof (parse_pretty n Hn) as Hp. assert (Hd : ∀ s acc m, parse_digits acc s = Some m → lacks c s = true).
  { induction s as [|a s IH]; intros acc m; [done|]. simpl. destruct (digit a) as [x|] eqn:Ha; [|done]. intros Hs.
    rewrite (IH _ _ Hs), bool_decide_false; [done|]. intros ->. congruence. }
  unfold parse_nat in Hp. destruct (pretty n) eqn:Hs; [done|]. by eapply Hd.
Qed.
Lemma parse_i64_pretty n : 0 ≤ n < 2 ^ 63 → parse_i64 (pretty n) = Some n.
Proof. intros Hn. apply parse_int_pretty. lia. Qed.

Section duo.
Context `{K : Codecs} `{T : Totp} `{P : PolicyJson} `{C : Crypto} `{R : PushRelay}.
Context `{S : SessionTokens} `{F : FactorProviders} `{O : IdentityProvider} `{J : JsonText} `{CH : Chrono} `{FS : FactorServices}.

(** Base64 reads back what it wrote; base64 and hexadecimal text has no
    separators. *)
Class DuoLaws : Prop := {
  base64_reads_back : ∀ s, base64_decode_utf8 (base64_encode s) = Some s;
  base64_plain : ∀ c s, c = bar ∨ c = Ascii.ascii_of_nat 58 → lacks c (base64_encode s) = true;
  hmac_plain : ∀ c k s, c = bar ∨ c = Ascii.ascii_of_nat 58 → lacks c (hmac_sign k s) = true;
}.
Context `{L : !DuoLaws}.

Lemma signed_value_reads_back key email ikey prefix expire time :
  lacks bar email = true → lacks bar ikey = true → lacks bar prefix = true → 0 ≤ expire < 2 ^ 63 → time < expire →
  parse_duo_values key (sign_duo_values key email ikey prefix expire) ikey prefix time = Ok email.
Proof.
  intros He Hi Hp Hr Ht. unfold parse_duo_values, sign_duo_values, ct_eq.
  set (val := email +:+ "|" +:+ ikey +:+ "|" +:+ pretty expire).
  assert (split_on bar ((prefix +:+ "|" +:+ base64_encode val) +:+ "|" +:+ hmac_sign key (prefix +:+ "|" +:+ base64_encode val))
    = [prefix; base64_encode val; hmac_sign key (prefix +:+ "|" +:+ base64_encode val)]) as ->.
  { rewrite !append_assoc. rewrite split_bar by done. rewrite split_bar by (apply base64_plain; auto).
    by rewrite split_last by (apply hmac_plain; auto). }
  rewrite bool_decide_true by done. cbn [negb]. rewrite bool_decide_true by done. cbn [negb]. rewrite base64_reads_back.
  unfold val. rewrite split_bar by done. rewrite split_bar by done. rewrite split_last by (apply pretty_lacks; [done|lia]).
  rewrite bool_decide_true by done. cbn [negb]. rewrite parse_i64_pretty by done. by rewrite (proj2 (Z.leb_gt _ _)).
Qed.

Lemma signed_value_plain key email ikey prefix expire :
  lacks (Ascii.ascii_of_nat 58) prefix = true → lacks (Ascii.ascii_of_nat 58) (sign_duo_values key email ikey prefix expire) = true.
Proof. intros Hp. unfold sign_duo_values. rewrite !lacks_app, Hp, base64_plain, hmac_plain by auto. done. Qed.

(** Duo's answer to a request of the server is accepted. The server signs a
    request for an address at one time; the answer of Duo, which signs the
    address with the shared secret, together with the part that the server
    signed for itself, passes the check at a later time before both expire. *)
Theorem duo_answer_is_accepted (E1 E2 : Env) (email ik sk ak host : string) (d : DB) (auth_expire : Z) :
  get_duo_keys_email email d = (Ok (ik, sk, ak, host), d) → lacks bar email = true → lacks bar ik = true →
  let asked := now (Env := E1) / 1000000 in let answered := now (Env := E2) / 1000000 in
  0 ≤ asked < 2 ^ 62 → answered < asked + APP_EXPIRE → answered < auth_expire < 2 ^ 63 → 0 ≤ auth_expire →
  ∃ tx app, generate_duo_signature (E := E1) email d = (Ok (tx +:+ ":" +:+ app, host), d)
    ∧ duo_login (E := E2) email (sign_duo_values sk email ik AUTH_PREFIX auth_expire +:+ ":" +:+ app) d = (Ok (), d).
Proof.
  intros Hkeys He Hi asked answered Ha Happ Hauth Hpos.
  exists (sign_duo_values sk email ik DUO_PREFIX (asked + DUO_EXPIRE)), (sign_duo_values ak email ik APP_PREFIX (asked + APP_EXPIRE)).
  unfold APP_EXPIRE in *. split.
  - unfold generate_duo_signature. by rewrite (run_bind_Ok _ _ _ _ _ Hkeys).
  - unfold duo_login. rewrite split_colon, split_last by (by apply signed_value_plain). rewrite (run_bind_Ok _ _ _ _ _ Hkeys).
    fold answered. rewrite !signed_value_reads_back by (done || lia). unfold lift, ct_eq.
    unfold mbind, M_bind. by rewrite bool_decide_true.
Qed.

(** The parts of a value never have a bar in them: an account whose address has
    one cannot answer a request of Duo. *)
Theorem bar_blocks_duo (E : Env) (email response : string) (d : DB) :
  lacks bar email = false → is_ok (duo_login email response d).1 = false.
Proof.
  intros Hbar. destruct (duo_login email response d) as [[[]|e] d'] eqn:Hr; [|done]. exfalso. unfold duo_login in Hr.
  destruct (split_on _ response) as [|auth [|app []]]; try done. apply bind_Ok in Hr as ([[[ik sk] ak] host] & d1 & _ & Hr).
  apply bind_Ok in Hr as (user & d2 & Hp & Hr). apply lift_Ok in Hp as [Hp ->]. apply bind_Ok in Hr as (user' & d2 & _ & Hr).
  run_step Hr. apply orb_false_iff in Hc as [_ Hc]. apply negb_false_iff, bool_decide_eq_true in Hc. subst user.
  unfold parse_duo_values in Hp. repeat case_match; simplify_eq.
  assert (lacks bar email = true); [|congruence]. eapply split_lacks.
  match goal with Hs : split_on bar _ = [email; _; _] |- _ => rewrite Hs; left end.
Qed.
End duo.

(** ** Bob's e-mail factor and Alice's Duo *)
Module SampleFactors.
#[export] Existing Instances Sample.env SampleCodecs.codecs SampleLogin.policies SampleLogin.crypto SampleLogin.push SampleLogin.sessions
  SampleLogin.provider SampleSends.json.
#[export] Instance totp : Totp := {| totp_custom _ _ := "424242"; base32_decode _ := Some (repeat 0 20) |}.
#[export] Instance chrono : Chrono := {| naive_min := -8334601315200 * 1000000; naive_max := 8210266876800 * 1000000 - 1 |}.
#[export] Instance factors : FactorProviders := {|
  duo_provider_data _ := None; enable_duo := true; duo_host := Some "api.duo"; duo_ikey := Some "ik"; duo_skey := Some "sk";
  enable_yubico := false; yubico_client_id := None; yubico_secret_key := None; is_webauthn_2fa_supported := true;
  validate_webauthn_login _ _ := mret (); validate_yubikey_login _ _ := Ok (); validate_duo_login _ _ := mret ();
  webauthn_challenge _ := mret (); duo_challenge _ := mret (); yubikey_metadata _ := Ok (); sends_own_email_code _ := false |}.
#[export] Instance services : FactorServices := {|
  yubico_verify _ _ _ := Ok (); yubikey_to_json _ := ""; yubikey_from_json _ := None; duo_check _ := Ok (); duo_to_json _ := "";
  duo_akey := "ak"; hmac_sign k s := SampleCodecs.bits (encode (k, s)); base64_encode s := SampleCodecs.bits (encode s);
  base64_decode_utf8 s := decode (SampleCodecs.unbits s) |}.

Definition email_factor : TwoFactor.t := TwoFactor.mk "tf1" "bob" 1 true (email_to_json (EmailTokenData.mk "b@x" None 0 0)) 0.
Definition db : DB := set_twofactor <["tf1" := email_factor]> (set_users <["bob" := SampleLogin.with_password]> Sample.db).
Definition duo_db : DB := set_twofactor <["tf2" := TwoFactor.mk "tf2" "bob" 2 true "" 0]> db.
Definition bob : Headers.t := Headers.mk Sample.phone SampleLogin.with_password "10.0.0.1".
Definition alice : Headers.t := Headers.mk Sample.phone (Sample.user Sample.env "alice" "a@x") "10.0.0.2".

(** Somebody at Bob's unlocked device does not know the password; Alice sets Duo
    up. *)
Definition requests : list (Env * Headers.t * SetupRequest) :=
  [(Sample.env, bob, DisableTwofactor (Ok 1) (Some "guess") None);
   (Sample.env, alice, ActivateDuo "tf2" "code" (EnableDuoData.mk "" "" "" (Some "") None));
   (Sample.env, bob, SendEmail "tf3" "123456" (SendEmailData.mk "eve@x" None (Some "000000")))].
Lemma bits_plain c p : c ≠ Ascii.zero → c ≠ Ascii.one → lacks c (SampleCodecs.bits p) = true.
Proof. intros Hz Ho. induction p as [p IH|p IH|]; simpl; rewrite ?IH; try done; by rewrite bool_decide_false. Qed.
Lemma duo_laws : DuoLaws.
Proof.
  split; simpl.
  - intros s. by rewrite SampleCodecs.unbits_bits, decode_encode.
  - intros c s Hc. apply bits_plain; destruct Hc; by subst.
  - intros c k s Hc. apply bits_plain; destruct Hc; by subst.
Qed.
End SampleFactors.
Import SampleFactors SamplePasskeys.


Lemma duo_answer_is_accepted_witness :
  ∃ tx app, generate_duo_signature "b@x" duo_db = (Ok (tx +:+ ":" +:+ app, "api.duo"%string), duo_db)
    ∧ duo_login "b@x" (sign_duo_values "sk" "b@x" "ik" AUTH_PREFIX 9999999999 +:+ ":" +:+ app) duo_db = (Ok (), duo_db).
Proof.
  pose proof duo_laws as Hlaws. apply (duo_answer_is_accepted Sample.env Sample.env "b@x" "ik" "sk" "ak" "api.duo" duo_db 9999999999).
  - vm_compute. reflexivity.
  - reflexivity.
  - reflexivity.
  - vm_compute. split; [discriminate|reflexivity].
  - vm_compute. reflexivity.
  - vm_compute. split; reflexivity.
  - lia.
Defined.

(** The name is cut inside a character, or is empty, or there is no name: the
    answer to the login of such an account panics. *)
Example obscured_addresses :
  obscure_email "bytes@example.ext" = Some "by***@example.ext"%string ∧ obscure_email "byt@example.ext" = Some "***@example.ext"%string
  ∧ obscure_email (String (Ascii.ascii_of_nat 98) (String (Ascii.ascii_of_nat 195) (String (Ascii.ascii_of_nat 169) "late@example.ext"))) = None.
Proof. vm_compute. done. Qed.
