(* ===== verification/KeyLogins.v ===== *)
(** Theorems on security keys.

    In every history of requests on second factors and of logins with security
    keys, a challenge is answered at most once. An accepted answer comes from a
    key of the account, and the keys of the account stay the same ones. A new key
    is listed after its registration and can be removed again. Removing the last
    key leaves the account with a factor that blocks every login. *)
From S2P Require Import Prelude Schema Roles Users Json Invariants Samples TwoFactors OneTimeCodes Sends EmergencyRows Memberships Groups Collections Guards VaultItems Ciphers Policies Organizations Emergency OrgJson Members Accounts Tokens SingleSignOn Identity Downloads Vault SendRequests SecondFactors Passkeys VaultAccess Quotas SendAccess Authentication Logins FactorSafety.
Local Open Scope Z_scope.

(** What is assumed of the crates: stored keys are read back, and a key keeps its
    id when its counter or its flags change. *)
Class WebauthnLaws `{WebauthnCodecs} : Prop := {
  registrations_read_back : ∀ l, registrations_from_str (registrations_to_string l) = Some l;
  updated_id : ∀ r p, cred_id (update_credential r p).2 = cred_id p;
  eligible_id : ∀ b p, cred_id (set_eligible b p) = cred_id p;
  state_id : ∀ b p, cred_id (set_state b p) = cred_id p;
}.

(** ** Challenges *)

Inductive KeyStep :=
| AskKey (tf_id domain user_id : string)
| AnswerKey (tf_id user_id response : string)
| SetUp (h : Headers.t) (r : SetupRequest).

Section challenges.
Context `{K : Codecs} `{T : Totp} `{P : PolicyJson} `{C : Crypto} `{R : PushRelay}.
Context `{S : SessionTokens} `{F : FactorProviders} `{O : IdentityProvider} `{J : JsonText} `{CH : Chrono} `{FS : FactorServices}.
Context `{W : !WebauthnCrate} `{WC : !WebauthnCodecs}.

Definition key_step (E : Env) (s : KeyStep) : M DB () :=
  match s with
  | AskKey tf_id domain user_id => generate_webauthn_login tf_id domain user_id ;; mret ()
  | AnswerKey tf_id user_id response => webauthn_login tf_id user_id response
  | SetUp h r => setup h r
  end.

(** The challenges that an account is sent and the answers that are accepted. *)
Definition asks (u : string) (s : KeyStep) : bool := match s with AskKey _ _ v => v == u | _ => false end.
Definition answers (u : string) (s : KeyStep) : bool := match s with AnswerKey _ v _ => v == u | _ => false end.
Fixpoint succeeded (which : KeyStep → bool) (l : list (Env * KeyStep)) (d : DB) : nat :=
  match l with
  | [] => 0
  | (E, s) :: l => ((if which s && is_ok (key_step E s d).1 then 1 else 0) + succeeded which l (key_step E s d).2)%nat
  end.

Definition challenge_type : Z := TwoFactorType_as_i32 WebauthnLoginChallenge.
Definition pending (u : string) (d : DB) : bool := bool_decide (is_Some (TwoFactor_find_by_user_and_type u challenge_type d)).
(** UNIQUE (user_uuid, atype). *)
Definition one_row_each (d : DB) : Prop :=
  ∀ r1 r2, r1 ∈ rows (twofactor d) → r2 ∈ rows (twofactor d) →
    TwoFactor.user_uuid r1 = TwoFactor.user_uuid r2 → TwoFactor.atype r1 = TwoFactor.atype r2 → r1 = r2.

Section calm.
Context (u : string) (b : bool).

(** A challenge of the account: rows with its id and the type. *)
Definition is_challenge (tf : TwoFactor.t) : Prop := TwoFactor.user_uuid tf = u ∧ TwoFactor.atype tf = challenge_type.
Record Calm (d : DB) : Prop := {
  calm_keyed : map_Forall (λ k r, TwoFactor.uuid r = k) (twofactor d);
  calm_unique : one_row_each d;
  calm_pending : ∀ tf, tf ∈ rows (twofactor d) → is_challenge tf → b = true
}.
Notation calm m := (keeps (preserves Calm) m).

Lemma pending_iff d : pending u d = true ↔ ∃ tf, tf ∈ rows (twofactor d) ∧ is_challenge tf.
Proof.
  unfold pending. rewrite bool_decide_eq_true. unfold TwoFactor_find_by_user_and_type, first. split.
  - intros [tf [Hin Hp]%head_where_Some]. exists tf. split; [done|]. split; by bools.
  - intros (tf & Hin & [Hu Ht]). destruct (head_is_Some (where_ (λ t, (TwoFactor.user_uuid t == u) && (TwoFactor.atype t == challenge_type))
      (rows (twofactor d))) tf) as (x & Hx & _); [|by exists x]. apply elem_of_where. split; [done|]. by rewrite Hu, Ht, !bool_decide_true.
Qed.

Lemma calm_delete p : ∀ d, Calm d → Calm (set_twofactor (delete_where p) d).
Proof.
  intros d [Hk Hu Hp]. split; simpl.
  - by apply keyed_delete_where.
  - intros r1 r2 [H1 _]%elem_of_rows_delete_where [H2 _]%elem_of_rows_delete_where. by apply Hu.
  - intros tf [Hin _]%elem_of_rows_delete_where. by apply Hp.
Qed.
Lemma calm_same {A} (m : M DB A) : keeps (same_on twofactor) m → calm m.
Proof. intros Hm d [Hk Hu Hp]. specialize (Hm d). unfold same_on in Hm. by split; unfold one_row_each in *; rewrite Hm. Qed.
Lemma calm_save tf : (is_challenge tf → b = true) → calm (TwoFactor_save tf).
Proof.
  intros Htf d Hd. unfold TwoFactor_save. rewrite run_modify.
  set (p := λ r, (TwoFactor.user_uuid r == TwoFactor.user_uuid tf) && (TwoFactor.atype r == TwoFactor.atype tf)).
  pose proof (calm_delete p d Hd) as Hc. set (d1 := set_twofactor (delete_where p) d) in *.
  unfold save_row. destruct (has _ _); [|done]. destruct Hc as [Hk Hu Hp].
  assert (Hgone : ∀ r, r ∈ rows (twofactor d1) → p r = false) by by intros r [_ Hr]%elem_of_rows_delete_where.
  assert (Hin : ∀ r, r ∈ rows (<[TwoFactor.uuid tf := tf]> (twofactor d1)) → r = tf ∨ r ∈ rows (twofactor d1)).
  { intros r (k & [[_ <-]|[_ Hr]]%lookup_insert_Some)%elem_of_rows; [by left|right]. apply elem_of_rows. by exists k. }
  split; simpl.
  - by apply map_Forall_insert_2.
  - intros r1 r2 [->|H1]%Hin [->|H2]%Hin He Ht; [done| | |by apply Hu].
    + pose proof (Hgone _ H2) as Hp2. unfold p in Hp2. by rewrite He, Ht, !bool_decide_true in Hp2.
    + pose proof (Hgone _ H1) as Hp1. unfold p in Hp1. by rewrite He, Ht, !bool_decide_true in Hp1.
  - intros r [->|Hr]%Hin; [done|]. by apply Hp.
Qed.

Context `{E : Env}.
Lemma calm_delete_row tf : calm (TwoFactor_delete tf).
Proof. intros d Hd. by apply calm_delete. Qed.
Lemma calm_found {A} v ty (f : option TwoFactor.t → M DB A) :
  calm (f None) → (∀ tf, TwoFactor.atype tf = ty → calm (f (Some tf))) → calm (gets (TwoFactor_find_by_user_and_type v ty) ≫= f).
Proof.
  intros Hn Hs. apply preserves_gets. intros d Hd. destruct (TwoFactor_find_by_user_and_type v ty d) as [tf|] eqn:Hf; [|done].
  apply found_factor in Hf as (_ & _ & Ht). by apply Hs.
Qed.
(** A row of another type is stored. *)
Lemma calm_store tf ty : TwoFactor.atype tf = ty → bool_decide (ty = challenge_type) = false → calm (TwoFactor_save tf).
Proof. intros Ht Hty. apply calm_save. intros [_ Hc]. apply bool_decide_eq_false in Hty. congruence. Qed.
Lemma calm_recover code user : calm (generate_recover_code code user).
Proof. apply calm_same. unfold generate_recover_code, User_save. by db_keeps. Qed.
Lemma calm_policy user : calm (enforce_2fa_policy user).
Proof. apply calm_same. unfold enforce_2fa_policy, Membership_save, User_update_uuid_revision, expect, panic. by db_keeps. Qed.

(** [keeps_step], with the lemmas on challenges. *)
Ltac calmly :=
  repeat first
    [ apply calm_recover | apply calm_policy | apply calm_delete_row
    | apply calm_found; [|intros ?tf ?Ht]
    | lazymatch goal with |- keeps _ (some_or _ _ ≫= _) => apply preserves_some_or; intros ?a ?Ha; simplify_eq end
    | lazymatch goal with |- keeps _ (TwoFactor_save _) => eapply calm_store; [cbn; first [eassumption|reflexivity]|reflexivity] end
    | progress intros | solve [eauto 3 with vault typeclass_instances] | keeps_step ].

Lemma calm_validate hash otp user del : calm (PasswordOrOtpData_validate hash otp user del).
Proof. unfold PasswordOrOtpData_validate, validate_protected_action_otp. calmly. Qed.
Lemma calm_totp id v token secret : calm (validate_totp_code id v token secret).
Proof.
  unfold validate_totp_code. apply preserves_some_or. intros key _. apply preserves_gets. intros d Hd.
  destruct (totp_load_user id v secret d) as [_ Ht].
  destruct (totp_decide _ _ _) as [t|] eqn:Hdec; [|apply keeps_err, _]. unfold totp_decide in Hdec.
  repeat case_match; simplify_eq. eapply calm_store; [exact Ht|reflexivity].
Qed.
Lemma calm_setup h r : calm (setup h r).
Proof.
  destruct r; cbn [setup]; apply keeps_bind || idtac; try (typeclasses eauto); try (intros; apply keeps_ret, _).
  all: unfold get_twofactor, get_recover, disable_twofactor, generate_authenticator, activate_authenticator, disable_authenticator,
    get_email, EmailTokenData_from_json, send_email, confirm_email, generate_yubikey, activate_yubikey, get_duo, get_user_duo_data,
    activate_duo, DuoData_global, get_webauthn, generate_webauthn_challenge, activate_webauthn, delete_webauthn, forget_u2f,
    get_webauthn_registrations, map_res, unwrap, expect, panic.
  all: repeat (calmly; try first [apply calm_validate|apply calm_totp]).
Qed.

Lemma calm_registrations v : calm (get_webauthn_registrations v).
Proof. unfold get_webauthn_registrations. calmly. Qed.
Lemma calm_flags rsp l state : calm (check_and_update_backup_eligible rsp l state).
Proof. unfold check_and_update_backup_eligible, expect, panic. calmly. Qed.
Lemma calm_answer_rest tf_id v rsp state :
  calm (r ← get_webauthn_registrations v;
        c ← check_and_update_backup_eligible rsp r.2 state;
        let '(flags, registrations, state) := c in
        result ← lift (finish_passkey_authentication rsp state);
        u ← some_or (update_registrations result registrations) "Credential not present";
        let '(updated, registrations) := u in
        when (updated || flags) (TwoFactor_save (TwoFactor_new tf_id v Webauthn (registrations_to_string registrations)))).
Proof. repeat (calmly; try first [apply calm_registrations|apply calm_flags]). Qed.
Lemma calm_answer tf_id v response : calm (webauthn_login tf_id v response).
Proof.
  unfold webauthn_login. apply calm_found; [apply keeps_err, _|]. intros tf Ht. apply preserves_some_or. intros ? [= <-].
  destruct (json_from_str (TwoFactor.data tf) ≫= PasskeyAuthentication_from_value); [|apply keeps_throw, _]. apply keeps_bind; [apply _|apply calm_delete_row|]. intros _.
  destruct (credential_from_str response); [|apply keeps_throw, _]. apply calm_answer_rest.
Qed.
Lemma calm_ask tf_id domain v : v ≠ u ∨ b = true → calm (generate_webauthn_login tf_id domain v ;; mret ()).
Proof.
  intros Hv. unfold generate_webauthn_login, expect, panic. repeat (calmly; try apply calm_registrations).
  apply calm_save. intros [Hu _]. by destruct Hv.
Qed.
End calm.

(** A challenge that is answered is gone. *)
Lemma calm_start u d : map_Forall (λ k r, TwoFactor.uuid r = k) (twofactor d) → one_row_each d → Calm u (pending u d) d.
Proof. intros Hk Hu. split; [done|done|]. intros tf Hin Hc. apply pending_iff. by exists tf. Qed.
Lemma calm_le u b d : Calm u b d → (pending u d = true → b = true).
Proof. intros [_ _ Hp] (tf & Hin & Hc)%pending_iff. by eapply Hp. Qed.
Lemma calm_answered `{Env} tf_id u response d d' :
  Calm u (pending u d) d → webauthn_login tf_id u response d = (Ok (), d') → pending u d = true ∧ Calm u false d'.
Proof.
  intros Hd Hrun. unfold webauthn_login in Hrun. rewrite run_gets in Hrun.
  destruct (TwoFactor_find_by_user_and_type u _ d) as [tf|] eqn:Hf; [|done]. cbn [some_or] in Hrun. rewrite run_ret in Hrun.
  pose proof (found_factor _ _ _ _ Hf) as (Hin & Hu & Ht).
  split; [apply pending_iff; by exists tf|].
  destruct (json_from_str (TwoFactor.data tf) ≫= PasskeyAuthentication_from_value) as [state|]; [|done].
  set (d1 := set_twofactor (delete_where (λ r, TwoFactor.uuid r == TwoFactor.uuid tf)) d).
  assert (Hd1 : Calm u false d1).
  { destruct (calm_delete u (pending u d) (λ r, TwoFactor.uuid r == TwoFactor.uuid tf) d Hd) as [Hk1 Hu1 _]. split; [done|done|].
    intros r [Hr Hne]%elem_of_rows_delete_where [Hru Hrt]. apply bool_decide_eq_false in Hne. destruct Hne. f_equal.
    destruct Hd as [_ Huniq _]. apply Huniq; [done|done|congruence|]. by rewrite Hrt, Ht. }
  unfold TwoFactor_delete in Hrun. rewrite run_modify in Hrun. fold d1 in Hrun. destruct (credential_from_str response) as [rsp|]; [|done].
  pose proof (calm_answer_rest u false tf_id u (PublicKeyCredential_from rsp) state d1 Hd1) as Hk. by rewrite Hrun in Hk.
Qed.

Lemma step_calm u b E s d : asks u s = false → Calm u b d → Calm u b (key_step E s d).2.
Proof.
  intros Ha Hd. destruct s; cbn [key_step asks] in *; [|by apply calm_answer|by apply calm_setup].
  apply calm_ask; [|done]. left. by apply bool_decide_eq_false in Ha.
Qed.
(** A challenge that cannot be stored leaves no row more. *)
Lemma registrations_run `{Env} v d : ∃ r, get_webauthn_registrations v d = (r, d).
Proof. unfold get_webauthn_registrations. rewrite run_gets. repeat case_match; by eexists. Qed.
Lemma challenge_failed `{Env} tf_id domain v d e d' : generate_webauthn_login tf_id domain v d = (Err e, d') → twofactor d' ⊆ twofactor d.
Proof.
  unfold generate_webauthn_login. destruct (registrations_run v d) as [[r|e'] Hr].
  2: { rewrite (run_bind_Err _ _ _ _ _ Hr). by intros [= _ <-]. }
  rewrite (run_bind_Ok _ _ _ _ _ Hr). case_bool_decide; [by intros [= _ <-]|].
  destruct (start_passkey_authentication _) as [[response state]|e']; [|by intros [= _ <-]].
  rewrite (run_bind_Ok (lift (Ok (response, state))) _ _ _ _ eq_refl). cbv beta iota zeta.
  match goal with |- context [expect ?o _] => destruct o as [v'|]; [|by intros [= _ <-]] end.
  rewrite (run_bind_Ok (expect (Some v') not_indexable) _ _ _ _ eq_refl). unfold TwoFactor_save, save_row.
  unfold mbind, M_bind. cbn [modify]. destruct (has _ _); [done|]. intros [= _ <-]. apply delete_where_subseteq.
Qed.
Lemma ask_failed `{Env} tf_id domain v d : is_ok (key_step _ (AskKey tf_id domain v) d).1 = false →
  twofactor (key_step _ (AskKey tf_id domain v) d).2 ⊆ twofactor d.
Proof.
  cbn [key_step]. destruct (generate_webauthn_login tf_id domain v d) as [[a|e] d'] eqn:Hg.
  - by rewrite (run_bind_Ok _ _ _ _ _ Hg).
  - rewrite (run_bind_Err _ _ _ _ _ Hg). intros _. by eapply challenge_failed.
Qed.
Lemma pending_less u d d' : twofactor d' ⊆ twofactor d → pending u d' = true → pending u d = true.
Proof. intros Hsub (tf & Hin & Hc)%pending_iff. apply pending_iff. exists tf. split; [by eapply rows_subseteq|done]. Qed.
Lemma calm_true u d b : Calm u b d → Calm u true d.
Proof. by intros [Hk Hu _]; split. Qed.

(** C11. A challenge for a security key is answered at most once. In every history
    of requests on second factors and of logins with security keys, of any
    accounts and on every path, the answers that are accepted for an account are
    at most as many as the challenges it was sent, and one more if a challenge was
    open at the start: an answer that was accepted is not accepted again. *)
Theorem challenges_are_answered_once (u : string) (l : list (Env * KeyStep)) (d : DB) :
  wf d → one_row_each d →
  (succeeded (answers u) l d <= succeeded (asks u) l d + if pending u d then 1 else 0)%nat.
Proof.
  intros Hwf Huniq. assert (Hd : Calm u (pending u d) d) by (apply calm_start; [apply Hwf|done]). clear Hwf Huniq.
  revert d Hd. induction l as [|[E s] l IH]; intros d Hd; [cbn; lia|]. cbn [succeeded].
  assert (Hnext : Calm u (pending u (key_step E s d).2) (key_step E s d).2).
  { assert (Calm u true (key_step E s d).2) as [Hk Hu _]; [|by apply calm_start]. destruct (asks u s) eqn:Ha.
    - destruct s; try done. apply calm_ask; [by right|]. by eapply calm_true.
    - apply step_calm; [done|]. by eapply calm_true. }
  specialize (IH _ Hnext). destruct (asks u s) eqn:Ha.
  - assert (answers u s = false) as -> by by destruct s. destruct s as [tf_id domain v| |]; try done. cbn [andb].
    destruct (is_ok (key_step E (AskKey tf_id domain v) d).1) eqn:Hok; [destruct (pending u _) in IH; destruct (pending u d); lia|].
    pose proof (pending_less u _ _ (ask_failed tf_id domain v d Hok)) as Hle.
    destruct (pending u (key_step E (AskKey tf_id domain v) d).2); [rewrite Hle by done|]; lia.
  - cbn [andb]. pose proof (calm_le _ _ _ (step_calm u _ E s d Ha Hd)) as Hle. destruct (answers u s && _) eqn:Hans.
    + apply andb_true_iff in Hans as [Hans Hok]. destruct s as [|tf_id v response|]; try done. apply bool_decide_eq_true in Hans as ->.
      cbn [key_step] in *. destruct (webauthn_login tf_id u response d) as [[[]|] d'] eqn:Hrun; [|done].
      destruct (calm_answered tf_id u response d d' Hd Hrun) as [Hp Hc]. cbn [snd] in *. pose proof (calm_le _ _ _ Hc) as Hf.
      destruct (pending u d') in *; [by specialize (Hf eq_refl)|]. rewrite Hp. lia.
    + destruct (pending u _) in *; [rewrite Hle by done|]; lia.
Qed.
End challenges.

(** ** Rows found by account and type *)

Section rows.
Implicit Types d : DB.

Lemma find_unique d u ty tf : one_row_each d →
  TwoFactor_find_by_user_and_type u ty d = Some tf ↔ tf ∈ rows (twofactor d) ∧ TwoFactor.user_uuid tf = u ∧ TwoFactor.atype tf = ty.
Proof.
  intros Huniq. split; [apply found_factor|]. intros (Hin & Hu & Ht). unfold TwoFactor_find_by_user_and_type, first. apply head_unique.
  - apply elem_of_where. by rewrite Hu, Ht, !bool_decide_true.
  - intros r [Hr Hp]%elem_of_where. bools. apply Huniq; [done|done|congruence..].
Qed.
Lemma find_same_rows d d' u ty : one_row_each d → one_row_each d' →
  (∀ tf, TwoFactor.atype tf = ty → tf ∈ rows (twofactor d') ↔ tf ∈ rows (twofactor d)) →
  TwoFactor_find_by_user_and_type u ty d' = TwoFactor_find_by_user_and_type u ty d.
Proof. intros Hd Hd' Hsame. apply option_eq. intros tf. rewrite !find_unique by done. naive_solver. Qed.

Lemma unique_delete d p : one_row_each d → one_row_each (set_twofactor (delete_where p) d).
Proof. intros Hd r1 r2 [H1 _]%elem_of_rows_delete_where [H2 _]%elem_of_rows_delete_where. by apply Hd. Qed.
Lemma find_deleted d u ty tf : map_Forall (λ k r, TwoFactor.uuid r = k) (twofactor d) → one_row_each d →
  tf ∈ rows (twofactor d) → TwoFactor.atype tf ≠ ty →
  TwoFactor_find_by_user_and_type u ty (set_twofactor (delete_where (λ r, TwoFactor.uuid r == TwoFactor.uuid tf)) d)
  = TwoFactor_find_by_user_and_type u ty d.
Proof.
  intros Hk Hu Hin Hty. apply find_same_rows; [done|by apply unique_delete|]. intros r Hr. simpl.
  rewrite elem_of_rows_delete_where, bool_decide_eq_false. split; [naive_solver|]. intros Hrin. split; [done|]. intros He. destruct Hty.
  rewrite <-Hr. f_equal. symmetry. by apply (rows_key TwoFactor.uuid (twofactor d)).
Qed.
Lemma save_keyed_unique `{Env} tf d d' r : map_Forall (λ k r, TwoFactor.uuid r = k) (twofactor d) → one_row_each d →
  TwoFactor_save tf d = (r, d') → map_Forall (λ k r, TwoFactor.uuid r = k) (twofactor d') ∧ one_row_each d'.
Proof.
  intros Hk Hu Hrun. assert (Calm "" true d) as Hc by by split.
  pose proof (calm_save "" true tf (λ _, eq_refl) d Hc) as [Hk' Hu' _]. by rewrite Hrun in Hk', Hu'.
Qed.
Lemma find_changed `{Env} f tf d d' r u ty : map_Forall (λ k r, TwoFactor.uuid r = k) (twofactor d) → one_row_each d →
  tf ∈ rows (twofactor d) → TwoFactor.atype tf ≠ ty → TwoFactor_save (TwoFactor.set_data f tf) d = (r, d') →
  TwoFactor_find_by_user_and_type u ty d' = TwoFactor_find_by_user_and_type u ty d.
Proof.
  intros Hk Hu Hin Hty Hrun. destruct (save_keyed_unique _ _ _ _ Hk Hu Hrun) as [_ Hu']. apply find_same_rows; [done..|]. intros r' Hr'.
  unfold TwoFactor_save, save_row in Hrun. rewrite run_modify in Hrun.
  set (p := λ r : TwoFactor.t, _) in Hrun. assert (Hkeep : r' ∈ rows (delete_where p (twofactor d)) ↔ r' ∈ rows (twofactor d)).
  { rewrite elem_of_rows_delete_where. split; [naive_solver|]. intros Hr. split; [done|]. unfold p. cbn.
    rewrite (bool_decide_false (TwoFactor.atype r' = _)) by congruence. apply andb_false_r. }
  destruct (has _ _); injection Hrun as _ <-; [|done]. rewrite <-Hkeep. simpl. rewrite !elem_of_rows. setoid_rewrite lookup_insert_Some. split.
  - intros (k & [[_ He]|[_ Hl]]); [|by exists k]. destruct Hty. by rewrite <-Hr', <-He.
  - intros (k & Hl). exists k. right. split; [|done]. intros <-. destruct Hty. rewrite <-Hr'. f_equal. symmetry.
    apply (rows_key TwoFactor.uuid (twofactor d)); [done|apply Hkeep, elem_of_rows; by eexists|done|].
    apply lookup_delete_where in Hl as [Hl _]. by apply Hk in Hl.
Qed.
End rows.

(** ** Keys of an account *)

Section keys.
Context `{E : Env} `{K : Codecs} `{C : Crypto} `{F : FactorProviders} `{J : JsonText} `{W : !WebauthnCrate} `{WC : !WebauthnCodecs}.
Context `{WL : !WebauthnLaws}.

(** The same key, with another counter or other flags. *)
Definition same_key (r r' : WebauthnRegistration.t) : Prop :=
  WebauthnRegistration.id r' = WebauthnRegistration.id r ∧ WebauthnRegistration.name r' = WebauthnRegistration.name r
  ∧ WebauthnRegistration.migrated r' = WebauthnRegistration.migrated r
  ∧ cred_id (WebauthnRegistration.credential r') = cred_id (WebauthnRegistration.credential r).
#[local] Instance same_key_refl : Reflexive same_key.
Proof. by intros r. Qed.
#[local] Instance same_key_trans : Transitive same_key.
Proof. intros a b c (?&?&?&?) (?&?&?&?). repeat split; congruence. Qed.

Lemma same_keys_refl l : Forall2 same_key l l.
Proof. induction l; by constructor. Qed.
Lemma set_credential_same p r : cred_id p = cred_id (WebauthnRegistration.credential r) → same_key r (WebauthnRegistration.set_credential p r).
Proof. by repeat split. Qed.
Lemma set_backup_same b1 b2 r : same_key r (WebauthnRegistration_set_backup_eligible b1 b2 r).2.
Proof.
  unfold WebauthnRegistration_set_backup_eligible. destruct (negb _); destruct (b1 && _); simpl; apply set_credential_same;
    by rewrite ?eligible_id, ?state_id.
Qed.
Lemma flagged_same id b1 b2 l : Forall2 same_key l (flag_registrations id b1 b2 l).2.
Proof.
  induction l as [|r l IH]; simpl; [done|]. destruct (ct_eq _ id).
  - pose proof (set_backup_same b1 b2 r) as Hr. destruct (WebauthnRegistration_set_backup_eligible b1 b2 r). simpl. constructor; [done|].
    apply same_keys_refl.
  - destruct (flag_registrations id b1 b2 l). simpl in *. by constructor.
Qed.
Lemma checked_same rsp l state d c l' state' d' :
  check_and_update_backup_eligible rsp l state d = (Ok (c, l', state'), d') → d' = d ∧ Forall2 same_key l l'.
Proof.
  unfold check_and_update_backup_eligible. intros Hrun.
  pose proof (same_keys_refl l) as Hl.
  destruct (String.get _ _) as [bits|]; [|by injection Hrun as <- <- <- <-]. destruct (negb _); [|by injection Hrun as <- <- <- <-].
  pose proof (flagged_same (PublicKeyCredential.raw_id rsp) true (negb (Z.land (Z.of_nat (Ascii.nat_of_ascii bits)) FLAG_BACKUP_STATE =? 0)) l) as Hf.
  destruct (flag_registrations _ _ _ l) as [changed l1]. destruct changed.
  - destruct (flag_state _ _ _ _) as [raw|]; [|done]. cbn [expect] in Hrun. rewrite run_ret in Hrun.
    destruct (PasskeyAuthentication_from_value raw); [|done]. by injection Hrun as <- <- <- <-.
  - injection Hrun as <- <- <- <-. auto.
Qed.
Lemma updated_same result l c l' : update_registrations result l = Some (c, l') →
  Forall2 same_key l l' ∧ ∃ r, r ∈ l ∧ cred_id (WebauthnRegistration.credential r) = result_cred_id result.
Proof.
  revert c l'. induction l as [|r l IH]; intros c l'; [done|]. simpl. unfold ct_eq at 1. case_bool_decide as Hc.
  - pose proof (updated_id result (WebauthnRegistration.credential r)) as Hu. destruct (update_credential _ _) as [o p]. intros [= <- <-].
    split; [|exists r; split; [left|done]]. constructor; [by apply set_credential_same|apply same_keys_refl].
  - destruct (update_registrations result l) as [[c1 l1]|]; [|done]. simpl. intros [= <- <-].
    destruct (IH _ _ eq_refl) as (Hl & r' & Hin & Hr'). split; [by constructor|]. exists r'. split; [by right|done].
Qed.

Lemma registrations_at u d d' :
  TwoFactor_find_by_user_and_type u (TwoFactorType_as_i32 Webauthn) d' = TwoFactor_find_by_user_and_type u (TwoFactorType_as_i32 Webauthn) d →
  (get_webauthn_registrations u d').1 = (get_webauthn_registrations u d).1.
Proof. intros Hf. unfold get_webauthn_registrations. rewrite !run_gets, Hf. repeat case_match; done. Qed.
Lemma registrations_of u d en keys d' :
  (get_webauthn_registrations u d').1 = (get_webauthn_registrations u d).1 → get_webauthn_registrations u d = (Ok (en, keys), d) →
  get_webauthn_registrations u d' = (Ok (en, keys), d').
Proof. intros Hs Hg. destruct (registrations_run u d') as [r Hr]. rewrite Hr, Hg in Hs. simpl in Hs. by rewrite Hr, Hs. Qed.
Lemma saved_registrations tf u l d d' :
  TwoFactor.user_uuid tf = u → TwoFactor.atype tf = TwoFactorType_as_i32 Webauthn → TwoFactor.data tf = registrations_to_string l →
  TwoFactor_save tf d = (Ok (), d') → get_webauthn_registrations u d' = (Ok (TwoFactor.enabled tf, l), d').
Proof.
  intros Hu Ht Hdata Hrun. destruct (has (users d) (TwoFactor.user_uuid tf)) eqn:Hhas.
  2: { unfold TwoFactor_save, save_row in Hrun. rewrite run_modify in Hrun. simpl in Hrun. by rewrite Hhas in Hrun. }
  destruct (TwoFactor_save_find tf d Hhas) as (d2 & Hs & _ & Hf). rewrite Hs in Hrun. injection Hrun as <-.
  unfold get_webauthn_registrations. rewrite run_gets, <-Hu, <-Ht, Hf, Hdata, registrations_read_back. done.
Qed.

(** C12. An accepted answer comes from a key of the account. When the answer of a
    security key is accepted at a login, a challenge was open for the account, the
    crate accepted the answer for that challenge, and the key it names is one of
    the keys of the account. The challenge is closed, and the account has the same
    keys as before, up to counters and flags. *)
Theorem accepted_answer_is_own_key (tf_id u response : string) (d d' : DB) (en : bool) (keys : list WebauthnRegistration.t) :
  wf d → one_row_each d → get_webauthn_registrations u d = (Ok (en, keys), d) → webauthn_login tf_id u response d = (Ok (), d') →
  pending u d = true ∧ pending u d' = false
  ∧ (∃ rsp tf state state' result key,
       credential_from_str response = Some rsp ∧ TwoFactor_find_by_user_and_type u challenge_type d = Some tf
       ∧ json_from_str (TwoFactor.data tf) ≫= PasskeyAuthentication_from_value = Some state
       ∧ (∃ c l d1, check_and_update_backup_eligible (PublicKeyCredential_from rsp) keys state d1 = (Ok (c, l, state'), d1))
       ∧ finish_passkey_authentication (PublicKeyCredential_from rsp) state' = Ok result
       ∧ key ∈ keys ∧ cred_id (WebauthnRegistration.credential key) = result_cred_id result)
  ∧ ∃ en' keys', get_webauthn_registrations u d' = (Ok (en', keys'), d') ∧ Forall2 same_key keys keys'.
Proof.
  intros Hwf Huniq Hkeys Hrun. pose proof (wf_twofactor _ Hwf) as Hk.
  destruct (calm_answered tf_id u response d d' (calm_start u d Hk Huniq) Hrun) as [Hp Hc]. split; [done|].
  split; [apply not_true_iff_false; intros Hx; by apply (calm_le _ _ _ Hc) in Hx|].
  unfold webauthn_login in Hrun. rewrite run_gets in Hrun.
  destruct (TwoFactor_find_by_user_and_type u _ d) as [tf|] eqn:Hf; [|done]. cbn [some_or] in Hrun. rewrite run_ret in Hrun.
  destruct (json_from_str (TwoFactor.data tf) ≫= PasskeyAuthentication_from_value) as [state|] eqn:Hst; [|done].
  unfold TwoFactor_delete in Hrun. rewrite run_modify in Hrun. set (d1 := set_twofactor _ d) in Hrun.
  pose proof (found_factor _ _ _ _ Hf) as (Hin & _ & Ht).
  assert (Hkeys1 : get_webauthn_registrations u d1 = (Ok (en, keys), d1)).
  { eapply registrations_of; [|exact Hkeys]. apply registrations_at, find_deleted; [done..|]. by rewrite Ht. }
  destruct (credential_from_str response) as [rsp|] eqn:Hrsp; [|done]. rewrite (run_bind_Ok _ _ _ _ _ Hkeys1) in Hrun. cbn [snd] in Hrun.
  apply bind_Ok in Hrun as ([[c l] state'] & d2 & Hcheck & Hrun). destruct (checked_same _ _ _ _ _ _ _ _ Hcheck) as [-> Hl].
  apply bind_Ok in Hrun as (result & d2 & Hfin & Hrun). apply lift_Ok in Hfin as [Hfin ->].
  apply bind_Ok in Hrun as ([c2 l2] & d2 & Hup & Hrun). apply some_or_Ok in Hup as [Hup ->].
  destruct (updated_same _ _ _ _ Hup) as (Hl2 & key & Hkey & Hid). split.
  - apply list_elem_of_lookup in Hkey as [i Hi]. destruct (Forall2_lookup_r _ _ _ _ _ Hl Hi) as (key0 & Hi0 & (_ & _ & _ & Hcred)).
    exists rsp, tf, state, state', result, key0. split_and!; [done..| | |by eapply list_elem_of_lookup_2|congruence]; [|done]. by exists c, l, d1.
  - destruct (c2 || c) eqn:Hsave; cbn [when] in Hrun.
    + exists true, l2. split; [|by etrans]. by apply (saved_registrations (TwoFactor_new tf_id u Webauthn (registrations_to_string l2)) u l2 d1 d').
    + injection Hrun as <-. exists en, keys. split; [done|apply same_keys_refl].
Qed.

(** A key that was registered is listed. A registration that is accepted with
    the password of the account adds the key that the crate read from the answer
    to the open challenge at the end of the list of keys, with the name and number
    of the request, and keeps all others. *)
Theorem registered_key_is_listed (tf_id code hash : string) (data : EnableWebauthnData.t) (h : Headers.t) (d d' : DB) (j : Json)
    (en : bool) (keys : list WebauthnRegistration.t) :
  wf d → one_row_each d → EnableWebauthnData.master_password_hash data = Some hash → EnableWebauthnData.otp data = None →
  get_webauthn_registrations (User.uuid (Headers.user h)) d = (Ok (en, keys), d) → activate_webauthn tf_id code data h d = (Ok j, d') →
  ∃ tf state credential id,
    TwoFactor_find_by_user_and_type (User.uuid (Headers.user h)) (TwoFactorType_as_i32 WebauthnRegisterChallenge) d = Some tf
    ∧ json_from_str (TwoFactor.data tf) ≫= PasskeyRegistration_from_value = Some state
    ∧ finish_passkey_registration (RegisterPublicKeyCredential_from (EnableWebauthnData.device_response data)) state = Ok credential
    ∧ NumberOrString_into_i32 (EnableWebauthnData.id data) = Ok id
    ∧ get_webauthn_registrations (User.uuid (Headers.user h)) d'
      = (Ok (true, keys ++ [WebauthnRegistration.mk id (EnableWebauthnData.name data) false credential]), d').
Proof.
  intros Hwf Huniq Hh Ho Hkeys Hrun. pose proof (wf_twofactor _ Hwf) as Hk. unfold activate_webauthn in Hrun. cbv zeta in Hrun. rewrite Hh, Ho in Hrun.
  destruct (User_check_valid_password (Headers.user h) hash) eqn:Hpw.
  2: { unfold PasswordOrOtpData_validate in Hrun. by rewrite Hpw in Hrun. }
  rewrite (run_bind_Ok _ _ _ _ _ (password_accepted _ _ _ _ Hpw)), run_gets in Hrun.
  apply bind_Ok in Hrun as (tf & d1 & Htf & Hrun). apply some_or_Ok in Htf as [Htf ->].
  destruct (json_from_str (TwoFactor.data tf) ≫= PasskeyRegistration_from_value) as [state|] eqn:Hst; [|done].
  unfold TwoFactor_delete in Hrun. rewrite run_modify in Hrun. set (d1 := set_twofactor _ d) in Hrun.
  apply bind_Ok in Hrun as (credential & d2 & Hfin & Hrun). apply lift_Ok in Hfin as [Hfin ->].
  pose proof (found_factor _ _ _ _ Htf) as (Hin & _ & Ht).
  assert (Hkeys1 : get_webauthn_registrations (User.uuid (Headers.user h)) d1 = (Ok (en, keys), d1)).
  { eapply registrations_of; [|exact Hkeys]. apply registrations_at, find_deleted; [done..|]. by rewrite Ht. }
  rewrite (run_bind_Ok _ _ _ _ _ Hkeys1) in Hrun. cbn [snd] in Hrun.
  apply bind_Ok in Hrun as (id & d2 & Hid & Hrun). apply lift_Ok in Hid as [Hid ->].
  apply bind_Ok in Hrun as ([] & d2 & Hsave & Hrun). apply bind_Ok in Hrun as ([] & d3 & Hrec & Hrun). apply ret_Ok in Hrun as [_ ->].
  exists tf, state, credential, id. split_and!; [done..|].
  eapply registrations_of; [|by eapply (saved_registrations (TwoFactor_new tf_id _ Webauthn _) _ _ d1 d2)]. apply registrations_at.
  unfold TwoFactor_find_by_user_and_type. enough (twofactor d3 = twofactor d2) as -> by done.
  eapply (same_part twofactor); [|exact Hrec]. unfold generate_recover_code, User_save. by db_keeps.
Qed.

Lemma remove_first_Some {A} (p : A → bool) l x r : remove_first p l = Some (x, r) →
  ∃ l1 l2, l = l1 ++ x :: l2 ∧ r = l1 ++ l2 ∧ p x = true ∧ Forall (λ y, p y = false) l1.
Proof.
  revert r. induction l as [|y l IH]; intros r; [done|]. simpl. destruct (p y) eqn:Hy.
  - intros [= <- <-]. by exists [], l.
  - destruct (remove_first p l) as [[z r']|]; [|done]. simpl. intros [= <- <-]. destruct (IH _ eq_refl) as (l1 & l2 & -> & -> & Hz & Hl1).
    exists (y :: l1), l2. by split_and!; [..|constructor].
Qed.

(** A key that is removed is gone: the first one with the given number. *)
Theorem removed_key_is_gone (data : DeleteU2FData.t) (h : Headers.t) (d d' : DB) (j : Json) (en : bool) (keys : list WebauthnRegistration.t) :
  wf d → one_row_each d → get_webauthn_registrations (User.uuid (Headers.user h)) d = (Ok (en, keys), d) →
  delete_webauthn data h d = (Ok j, d') →
  ∃ id l1 key l2, NumberOrString_into_i32 (DeleteU2FData.id data) = Ok id ∧ keys = l1 ++ key :: l2
    ∧ WebauthnRegistration.id key = id ∧ Forall (λ r, WebauthnRegistration.id r ≠ id) l1
    ∧ get_webauthn_registrations (User.uuid (Headers.user h)) d' = (Ok (en, l1 ++ l2), d').
Proof.
  intros Hwf Huniq Hkeys Hrun. pose proof (wf_twofactor _ Hwf) as Hk. unfold delete_webauthn in Hrun. cbv zeta in Hrun.
  apply bind_Ok in Hrun as (id & d1 & Hid & Hrun). apply lift_Ok in Hid as [Hid ->]. destruct (negb _); [done|]. rewrite run_gets in Hrun.
  apply bind_Ok in Hrun as (tf & d1 & Htf & Hrun). apply some_or_Ok in Htf as [Htf ->].
  unfold get_webauthn_registrations in Hkeys. rewrite run_gets, Htf in Hkeys.
  destruct (registrations_from_str (TwoFactor.data tf)) as [l|]; [|done]. injection Hkeys as <- <-.
  apply bind_Ok in Hrun as ([key r] & d1 & Hrem & Hrun). apply some_or_Ok in Hrem as [Hrem ->].
  destruct (remove_first_Some _ _ _ _ Hrem) as (l1 & l2 & -> & -> & Hkid & Hl1).
  apply bind_Ok in Hrun as ([] & d1 & Hsave & Hrun). apply bind_Ok in Hrun as ([] & d2 & Hu2f & Hrun). apply ret_Ok in Hrun as [_ ->].
  exists id, l1, key, l2. split_and!; [done|done|by apply Z.eqb_eq| |].
  { eapply Forall_impl; [exact Hl1|]. intros r Hr%Z.eqb_neq. done. }
  destruct (save_keyed_unique _ _ _ _ Hk Huniq Hsave) as [Hk1 Hu1]. pose proof (found_factor _ _ _ _ Htf) as (_ & Hu & Ht).
  assert (Hs : get_webauthn_registrations (User.uuid (Headers.user h)) d1 = (Ok (TwoFactor.enabled tf, l1 ++ l2), d1)).
  { by apply (saved_registrations (TwoFactor.set_data (λ _, registrations_to_string (l1 ++ l2)) tf) _ _ d d1). }
  eapply registrations_of; [|exact Hs]. apply registrations_at.
  unfold forget_u2f in Hu2f. rewrite run_gets in Hu2f.
  destruct (TwoFactor_find_by_user_and_type _ (TwoFactorType_as_i32 U2f) d1) as [u2f|] eqn:Hfu; [|by injection Hu2f as <-].
  apply bind_Ok in Hu2f as (old & d3 & Hold & Hu2f). apply some_or_Ok in Hold as [_ ->]. pose proof (found_factor _ _ _ _ Hfu) as (Hin & _ & Htu).
  eapply find_changed; [..|exact Hu2f]; [done..|]. by rewrite Htu.
Qed.

Lemma empty_ring challenge_id domain u d tf :
  TwoFactor_find_by_user_and_type u (TwoFactorType_as_i32 Webauthn) d = Some tf → registrations_from_str (TwoFactor.data tf) = Some [] →
  generate_webauthn_login challenge_id domain u d = (Err (MkError 400 "No Webauthn devices registered"), d).
Proof.
  intros Hf Hempty. assert (get_webauthn_registrations u d = (Ok (TwoFactor.enabled tf, []), d)) as Hg.
  { unfold get_webauthn_registrations. by rewrite run_gets, Hf, Hempty. }
  unfold generate_webauthn_login. by rewrite (run_bind_Ok _ _ _ _ _ Hg).
Qed.
Lemma only_factor u d tf ty : TwoFactor_find_by_user u d = [tf] → TwoFactor.atype tf = ty → ty < 1000 →
  TwoFactor_find_by_user_and_type u ty d = Some tf.
Proof.
  intros Hall Ht Hlt. assert (Hin : tf ∈ TwoFactor_find_by_user u d) by (rewrite Hall; left). apply elem_of_where in Hin as [Hin Hp]. bools.
  unfold TwoFactor_find_by_user_and_type, first. apply head_unique.
  - apply elem_of_where. by rewrite !bool_decide_true.
  - intros r [Hr Hq]%elem_of_where. bools. apply list_elem_of_singleton. rewrite <-Hall. apply elem_of_where. split; [done|].
    rewrite bool_decide_true by done. apply Z.ltb_lt. lia.
Qed.

End keys.

(** ** Bob's security key

    Bob registers a key, logs in with it, and removes it. *)
Module SampleKeys.
Import SampleFactors SamplePasskeys.
#[export] Instance laws : WebauthnLaws.
Proof.
  split; try done. intros l. simpl. rewrite SampleCodecs.unbits_bits, decode_encode. simpl. f_equal. rewrite map_map.
  rewrite (map_ext _ (λ r, r)); [apply map_id|]. by intros [].
Qed.
Definition db0 : DB := set_users <["bob" := SampleLogin.with_password]> Sample.db.
Definition enable : EnableWebauthnData.t :=
  EnableWebauthnData.mk (Number 1) "blue" (RegisterPublicKeyCredentialCopy.mk "key-1" "key-1" (AuthenticatorAttestationResponseRawCopy.mk "" "") "public-key")
    (Some "secret") None.
Definition blue : WebauthnRegistration.t := @WebauthnRegistration.mk crate 1 "blue" false ("key-1", false, false)%string.
Definition challenged : DB := (generate_webauthn_challenge "c1" (Some "secret") None bob db0).2.
Definition registered : DB := (activate_webauthn "w1" "code" enable bob challenged).2.
Definition asked : DB := (generate_webauthn_login "c2" "https://v" "bob" registered).2.
Definition removed : DB := (delete_webauthn (DeleteU2FData.mk (Number 1) "secret") bob registered).2.
Definition ring : TwoFactor.t := TwoFactor.mk "w1" "bob" 7 true (registrations_to_string []) 0.
Definition marked : DB := (TwoFactorIncomplete_mark_incomplete "bob" (Device.uuid Sample.phone) (Device.name Sample.phone) (Device.atype Sample.phone) "10.0.0.1" removed).2.
(** Bob answers twice, and somebody asks to remove his key without the password. *)
Definition logins : list (Env * KeyStep) :=
  [(Sample.env, AskKey "c2" "https://v" "bob"); (Sample.env, AnswerKey "w2" "bob" "key-1"); (Sample.env, AnswerKey "w3" "bob" "key-1");
   (Sample.env, SetUp bob (DeleteWebauthn (DeleteU2FData.mk (Number 1) "guess")))].
(** One row for each account and type, decided. *)
Definition one_row_each_b (d : DB) : bool :=
  forallb (λ r1, forallb (λ r2, negb ((TwoFactor.user_uuid r1 == TwoFactor.user_uuid r2) && (TwoFactor.atype r1 == TwoFactor.atype r2))
    || bool_decide (r1 = r2)) (rows (twofactor d))) (rows (twofactor d)).
Lemma one_row_each_sound d : one_row_each_b d = true → one_row_each d.
Proof.
  unfold one_row_each_b. rewrite forallb_elem. intros Hall r1 r2 H1 H2 Hu Ht. specialize (Hall r1 H1). rewrite forallb_elem in Hall.
  specialize (Hall r2 H2). rewrite Hu, Ht, !bool_decide_true in Hall by done. simpl in Hall. by apply bool_decide_eq_true in Hall.
Qed.
End SampleKeys.
Import SampleFactors SamplePasskeys SampleKeys.

Lemma challenges_are_answered_once_witness :
  (succeeded (answers "bob") logins registered <= succeeded (asks "bob") logins registered + 0)%nat
  ∧ succeeded (answers "bob") logins registered = 1%nat.
Proof.
  split; [|vm_compute; reflexivity].
  refine (challenges_are_answered_once "bob" logins registered _ _).
  - by apply wf_b_sound; vm_compute.
  - by apply one_row_each_sound; vm_compute.
Defined.

Lemma accepted_answer_is_own_key_witness :
  pending "bob" asked = true ∧ pending "bob" (webauthn_login "w2" "bob" "key-1" asked).2 = false.
Proof.
  destruct (accepted_answer_is_own_key "w2" "bob" "key-1" asked (webauthn_login "w2" "bob" "key-1" asked).2 true
    [blue]) as (Hp & Hp' & _).
  - by apply wf_b_sound; vm_compute.
  - by apply one_row_each_sound; vm_compute.
  - vm_compute. reflexivity.
  - vm_compute. reflexivity.
  - by split.
Defined.

Lemma registered_key_is_listed_witness :
  ∃ credential, get_webauthn_registrations "bob" registered = (Ok (true, [WebauthnRegistration.mk 1 "blue" false credential]), registered).
Proof.
  destruct (registered_key_is_listed "w1" "code" "secret" enable bob challenged registered (keys_json "twoFactorU2f" true [blue])
    false []) as (tf & state & credential & id & _ & _ & _ & Hid & Hl).
  - by apply wf_b_sound; vm_compute.
  - by apply one_row_each_sound; vm_compute.
  - reflexivity.
  - reflexivity.
  - vm_compute. reflexivity.
  - vm_compute. reflexivity.
  - injection Hid as <-. exists credential. exact Hl.
Defined.

