(* ===== verification/DuoFlow.v ===== *)
(** Duo as an identity provider.

    Models src/src/api/core/two_factor/duo_oidc.rs and the rows of
    src/src/db/models/two_factor_duo_context.rs: the address that a client is sent
    to, the stored context of a login, and the check of the code that comes back,
    with their theorems. The service of Duo, the signature of tokens, the digest
    and the building of URLs are parameters. *)
From stdpp Require Import pretty.
From S2P Require Import Prelude Schema Roles Users Json Samples TwoFactors OneTimeCodes Sends EmergencyRows Memberships Groups Collections Guards VaultItems Ciphers Policies Organizations Emergency OrgJson Members Accounts Tokens SingleSignOn Identity Downloads Vault SendRequests SecondFactors Passkeys VaultAccess Quotas SendAccess Authentication Logins FactorSafety.
Local Open Scope Z_scope.

(** ** Data *)

Module TwoFactorDuoContext.
Record t := mk { state : string; user_email : string; nonce : string; exp : Z }.
End TwoFactorDuoContext.
(** A copy of the context. *)
Module DuoAuthContext.
Record t := mk { state : string; user_email : string; nonce : string; exp : Z }.
End DuoAuthContext.
Module ClientAssertion.
Record t := mk { iss : string; sub : string; aud : string; exp : Z; jti : string; iat : Z }.
End ClientAssertion.
Module AuthorizationRequest.
Record t := mk { response_type : string; scope : string; exp : Z; client_id : string; redirect_uri : string; state : string;
                 duo_uname : string; iss : string; aud : string; nonce : string }.
End AuthorizationRequest.
Inductive HealthCheckResponse := HealthOK (stat : string) | HealthFail (message message_detail : string).
Module IdTokenResponse.
Record t := mk { id_token : string; access_token : string; expires_in : Z; token_type : string }.
End IdTokenResponse.
Module IdTokenClaims.
Record t := mk { preferred_username : string; nonce : string }.
End IdTokenClaims.
Module DuoClient.
Record t := mk { client_id : string; client_secret : string; api_host : string; redirect_uri : string }.
End DuoClient.

(** What a request to Duo comes to: it may be blocked before it is sent, fail, or
    be answered with a status and a body that may be unreadable. *)
Inductive Reply (A : Type) := Blocked (e : Error) | Unsent | Answered (status : Z) (body : option A).
Arguments Blocked {A} _.
Arguments Unsent {A}.
Arguments Answered {A} _ _.

Class DuoOidc := {
  encode_assertion : string → ClientAssertion.t → option string;
  encode_request : string → AuthorizationRequest.t → option string;
  health_post : string → list (string * string) → Reply HealthCheckResponse;
  token_post : string → list (string * string) → Reply IdTokenResponse.t;
  (** [jsonwebtoken::decode], with the secret, the audience and the issuer. *)
  decode_id_token : string → string → string → string → option IdTokenClaims.t;
  (** SHA-512/256 in lower case hexadecimal digits. *)
  digest_hex : string → string;
  DuoUrl : Type;
  DuoUrl_parse : string → option DuoUrl;
  DuoUrl_join : DuoUrl → string → option DuoUrl;
  DuoUrl_append_pair : string → string → DuoUrl → DuoUrl;
  DuoUrl_to_string : DuoUrl → string;
  server_domain : string;
}.

(** The database with the table twofactor_duo_ctx. *)
Record DuoDB := mkDuoDB { duo_vault : DB; duo_ctx : gmap string TwoFactorDuoContext.t }.
Definition set_ctx (f : gmap string TwoFactorDuoContext.t → gmap string TwoFactorDuoContext.t) (s : DuoDB) : DuoDB :=
  mkDuoDB (duo_vault s) (f (duo_ctx s)).
Definition in_vault {A} (m : M DB A) : M DuoDB A := λ s, let '(r, d) := m (duo_vault s) in (r, mkDuoDB d (duo_ctx s)).

(** ** Rows *)

Section rows.
Context `{E : Env}.
Definition timestamp_now : Z := now / 1000000.

Definition TwoFactorDuoContext_find_by_state (state : string) (s : DuoDB) : option TwoFactorDuoContext.t :=
  first (where_ (λ c, TwoFactorDuoContext.state c == state) (rows (duo_ctx s))).
Definition TwoFactorDuoContext_save (state user_email nonce : string) (ttl : Z) : M DuoDB () :=
  exists_ ← gets (TwoFactorDuoContext_find_by_state state);
  match exists_ with
  | Some _ => mret ()
  | None => modify (set_ctx <[state := TwoFactorDuoContext.mk state user_email nonce (timestamp_now + ttl)]>)
  end.
Definition TwoFactorDuoContext_find_expired (s : DuoDB) : list TwoFactorDuoContext.t :=
  where_ (λ c, TwoFactorDuoContext.exp c <? timestamp_now) (rows (duo_ctx s)).
Definition TwoFactorDuoContext_delete (c : TwoFactorDuoContext.t) : M DuoDB () :=
  modify (set_ctx (delete_where (λ r, TwoFactorDuoContext.state r == TwoFactorDuoContext.state c))).
Definition TwoFactorDuoContext_purge_expired_duo_contexts : M DuoDB () :=
  l ← gets TwoFactorDuoContext_find_expired;
  for_each l (λ c, ignore (TwoFactorDuoContext_delete c)).
(** The job, when it gets a connection. *)
Definition purge_duo_contexts : M DuoDB () := TwoFactorDuoContext_purge_expired_duo_contexts.
End rows.

(** ** The client of Duo *)

Section client.
Context `{E : Env} `{K : Codecs} `{T : Totp} `{P : PolicyJson} `{C : Crypto} `{R : PushRelay}.
Context `{S : SessionTokens} `{F : FactorProviders} `{O : IdentityProvider} `{J : JsonText} `{CH : Chrono} `{FS : FactorServices}.
Context `{D : DuoOidc}.

Definition DUO_REDIRECT_LOCATION : string := "duo-redirect-connector.html".
Definition JWT_VALIDITY_SECS : Z := 300.
Definition CTX_VALIDITY_SECS : Z := 300.

(** [jwt_id] is drawn. *)
Definition new_client_assertion (client : DuoClient.t) (jwt_id url : string) : ClientAssertion.t :=
  ClientAssertion.mk (DuoClient.client_id client) (DuoClient.client_id client) url (timestamp_now + JWT_VALIDITY_SECS) jwt_id timestamp_now.
Definition encode_duo_jwt (token : option string) : M DuoDB string := some_or token "Error encoding Duo JWT".

Definition health_check (client : DuoClient.t) (jwt_id : string) : M DuoDB () :=
  let health_check_url := "https://" +:+ DuoClient.api_host client +:+ "/oauth/v1/health_check" in
  token ← encode_duo_jwt (encode_assertion (DuoClient.client_secret client) (new_client_assertion client jwt_id health_check_url));
  match health_post health_check_url [("client_assertion", token); ("client_id", DuoClient.client_id client)]%string with
  | Blocked e => throw e
  | Unsent => err "Error requesting Duo health check"
  | Answered _ None => err "Duo health check response decode error"
  | Answered _ (Some (HealthFail message message_detail)) =>
      err ("Duo health check FAIL response, msg: " +:+ message +:+ ", detail: " +:+ message_detail)
  | Answered _ (Some (HealthOK health_stat)) =>
      if negb (health_stat == "OK")%string then err ("Duo health check failed, got OK-like body with stat " +:+ health_stat) else mret ()
  end.

Definition make_authz_req_url (client : DuoClient.t) (duo_username state nonce : string) : M DuoDB string :=
  let jwt_payload := AuthorizationRequest.mk "code" "openid" (timestamp_now + JWT_VALIDITY_SECS) (DuoClient.client_id client)
    (DuoClient.redirect_uri client) state duo_username (DuoClient.client_id client) ("https://" +:+ DuoClient.api_host client) nonce in
  token ← encode_duo_jwt (encode_request (DuoClient.client_secret client) jwt_payload);
  auth_url ← some_or (DuoUrl_parse ("https://" +:+ DuoClient.api_host client +:+ "/oauth/v1/authorize")) "Error parsing Duo authorization URL";
  mret (DuoUrl_to_string (DuoUrl_append_pair "request" token
    (DuoUrl_append_pair "client_id" (DuoClient.client_id client) (DuoUrl_append_pair "response_type" "code" auth_url)))).

Definition token_form (client : DuoClient.t) (duo_code token : string) : list (string * string) :=
  [("grant_type", "authorization_code"); ("code", duo_code); ("redirect_uri", DuoClient.redirect_uri client);
   ("client_assertion_type", "urn:ietf:params:oauth:client-assertion-type:jwt-bearer"); ("client_assertion", token)]%string.
Definition exchange_authz_code_for_result (client : DuoClient.t) (jwt_id duo_code duo_username nonce : string) : M DuoDB () :=
  if (duo_code == "")%string then err "Empty Duo authorization code" else
  let token_url := "https://" +:+ DuoClient.api_host client +:+ "/oauth/v1/token" in
  token ← encode_duo_jwt (encode_assertion (DuoClient.client_secret client) (new_client_assertion client jwt_id token_url));
  match token_post token_url (token_form client duo_code token) with
  | Blocked e => throw e
  | Unsent => err "Error exchanging Duo code"
  | Answered status_code body =>
      if negb (status_code =? 200) then err ("Failure response from Duo: " +:+ pretty status_code) else
      response ← some_or body "Error decoding ID token response";
      claims ← some_or (decode_id_token (DuoClient.client_secret client) (DuoClient.client_id client) token_url (IdTokenResponse.id_token response))
        "Failed to decode Duo token";
      let matching_nonces := ct_eq nonce (IdTokenClaims.nonce claims) in
      let matching_usernames := ct_eq duo_username (IdTokenClaims.preferred_username claims) in
      if negb (matching_nonces && matching_usernames) then err "Error validating Duo authorization, nonce or username mismatch." else mret ()
  end.

Definition extract_context (state : string) : M DuoDB (option DuoAuthContext.t) :=
  o ← gets (TwoFactorDuoContext_find_by_state state);
  match o with
  | None => mret None
  | Some ctx =>
      if TwoFactorDuoContext.exp ctx <? timestamp_now
      then ignore (TwoFactorDuoContext_delete ctx) ;; mret None
      else
        let ret_ctx := DuoAuthContext.mk (TwoFactorDuoContext.state ctx) (TwoFactorDuoContext.user_email ctx)
          (TwoFactorDuoContext.nonce ctx) (TwoFactorDuoContext.exp ctx) in
        ignore (TwoFactorDuoContext_delete ctx) ;; mret (Some ret_ctx)
  end.

Definition make_callback_url (client_name : string) : M DuoDB string :=
  base ← some_or (DuoUrl_parse (server_domain +:+ "/")) "Error parsing configured domain URL (check your domain configuration)";
  callback ← some_or (DuoUrl_join base DUO_REDIRECT_LOCATION) "Error constructing Duo redirect URL (check your domain configuration)";
  mret (DuoUrl_to_string (DuoUrl_append_pair "client" client_name callback)).

(** ** The two halves of the flow *)

(** [jwt_id], [state] and [nonce] are drawn. *)
Definition get_duo_auth_url (jwt_id state nonce email client_id device_identifier : string) : M DuoDB string :=
  '(ik, sk, _, host) ← in_vault (get_duo_keys_email email);
  callback_url ← make_callback_url client_id;
  let client := DuoClient.mk ik sk host callback_url in
  health_check client jwt_id ;;
  let hash := digest_hex (nonce +:+ device_identifier) in
  TwoFactorDuoContext_save state email nonce CTX_VALIDITY_SECS ;;
  make_authz_req_url client email state hash.

Definition duo_oidc_login (jwt_id jwt_id2 email two_factor_token client_id device_identifier : string) : M DuoDB () :=
  match split_on bar two_factor_token with
  | [code; state] =>
      '(ik, sk, _, host) ← in_vault (get_duo_keys_email email);
      o ← extract_context state;
      ctx ← some_or o "Error validating duo authentication";
      let matching_usernames := ct_eq email (DuoAuthContext.user_email ctx) in
      let matching_states := ct_eq state (DuoAuthContext.state ctx) in
      let unexpired_context := timestamp_now <? DuoAuthContext.exp ctx in
      if negb (matching_usernames && matching_states && unexpired_context) then err "Error validating duo authentication" else
      callback_url ← make_callback_url client_id;
      let client := DuoClient.mk ik sk host callback_url in
      health_check client jwt_id ;;
      let hash := digest_hex (DuoAuthContext.nonce ctx +:+ device_identifier) in
      r ← answer (exchange_authz_code_for_result client jwt_id2 code email hash);
      match r with Ok _ => mret () | Err _ => err "Error validating duo authentication" end
  | _ => err "Invalid response length"
  end.
End client.

(** ** Histories *)

(** What happens to the contexts; other requests change the vault. *)
Inductive DuoStep :=
| DuoAsk (jwt_id state nonce email client_id device : string)
| DuoAnswer (jwt_id jwt_id2 email token client_id device : string)
| DuoPurge
| VaultChange (d : DB).

Section histories.
Context `{K : Codecs} `{T : Totp} `{P : PolicyJson} `{C : Crypto} `{R : PushRelay}.
Context `{S : SessionTokens} `{F : FactorProviders} `{O : IdentityProvider} `{J : JsonText} `{CH : Chrono} `{FS : FactorServices}.
Context `{D : DuoOidc}.

Definition duo_step (E : Env) (a : DuoStep) : M DuoDB () :=
  match a with
  | DuoAsk jwt_id state nonce email client_id device => get_duo_auth_url jwt_id state nonce email client_id device ;; mret ()
  | DuoAnswer jwt_id jwt_id2 email token client_id device => duo_oidc_login jwt_id jwt_id2 email token client_id device
  | DuoPurge => purge_duo_contexts
  | VaultChange d => modify (λ s, mkDuoDB d (duo_ctx s))
  end.
Definition duo_steps (l : list (Env * DuoStep)) (s : DuoDB) : DuoDB := foldl (λ s '(E, a), (duo_step E a s).2) s l.

(** Contexts only go. *)
Definition fewer (s s' : DuoDB) : Prop := duo_ctx s' ⊆ duo_ctx s.
#[local] Instance fewer_preorder : PreOrder fewer.
Proof. unfold fewer. split; [intros s; reflexivity|]. intros a b c Hab Hbc. by etrans. Qed.
(** Contexts go, or the given one comes. *)
Definition at_most (c0 : TwoFactorDuoContext.t) (s s' : DuoDB) : Prop :=
  ∀ k c, duo_ctx s' !! k = Some c → duo_ctx s !! k = Some c ∨ c = c0 ∧ k = TwoFactorDuoContext.state c0.
#[local] Instance at_most_preorder c0 : PreOrder (at_most c0).
Proof. split; [by intros s k c; left|]. intros a b c Hab Hbc k x [Hx|Hx]%Hbc; [by apply Hab|by right]. Qed.
Lemma fewer_at_most c0 {A} (m : M DuoDB A) : keeps fewer m → keeps (at_most c0) m.
Proof. intros Hm s k c Hc. left. by eapply lookup_weaken; [|apply (Hm s)]. Qed.

Lemma fewer_same s s' : duo_ctx s' = duo_ctx s → fewer s s'.
Proof. unfold fewer. by intros ->. Qed.
Lemma fewer_run {A} (m : M DuoDB A) s r s' k c : keeps fewer m → m s = (r, s') → duo_ctx s' !! k = Some c → duo_ctx s !! k = Some c.
Proof. intros Hm Hrun Hc. eapply lookup_weaken; [exact Hc|]. specialize (Hm s). by rewrite Hrun in Hm. Qed.
Lemma fewer_vault {A} (m : M DB A) : keeps fewer (in_vault m).
Proof. intros s. apply fewer_same. unfold in_vault. by destruct (m (duo_vault s)). Qed.
Lemma fewer_delete c : keeps fewer (TwoFactorDuoContext_delete c).
Proof. apply keeps_modify. intros s. apply delete_where_subseteq. Qed.

(** [keeps_step], with the lemmas on contexts. *)
Ltac duo_keeps :=
  repeat first [apply fewer_vault | apply fewer_delete | progress intros | solve [eauto 3 with vault typeclass_instances] | keeps_step].

Section steps.
Context `{E : Env}.
Lemma fewer_purge : keeps fewer purge_duo_contexts.
Proof. unfold purge_duo_contexts, TwoFactorDuoContext_purge_expired_duo_contexts. duo_keeps. Qed.
Lemma fewer_callback name : keeps fewer (make_callback_url name).
Proof. unfold make_callback_url. duo_keeps. Qed.
Lemma fewer_health client jwt_id : keeps fewer (health_check client jwt_id).
Proof. unfold health_check, encode_duo_jwt. duo_keeps. Qed.
Lemma fewer_exchange client jwt_id code email nonce : keeps fewer (exchange_authz_code_for_result client jwt_id code email nonce).
Proof. unfold exchange_authz_code_for_result, encode_duo_jwt. duo_keeps. Qed.
Lemma fewer_extract state : keeps fewer (extract_context state).
Proof. unfold extract_context. duo_keeps. Qed.
Lemma fewer_answer jwt_id jwt_id2 email token client_id device : keeps fewer (duo_oidc_login jwt_id jwt_id2 email token client_id device).
Proof.
  unfold duo_oidc_login. repeat (duo_keeps; try first [apply fewer_callback|apply fewer_health|apply fewer_exchange|apply fewer_extract]).
Qed.
Lemma ask_context jwt_id state nonce email client_id device :
  keeps (at_most (TwoFactorDuoContext.mk state email nonce (timestamp_now + CTX_VALIDITY_SECS)))
    (get_duo_auth_url jwt_id state nonce email client_id device).
Proof.
  unfold get_duo_auth_url. apply keeps_bind; [apply _|apply fewer_at_most, fewer_vault|]. intros [[[ik sk] ak] host].
  apply keeps_bind; [apply _|apply fewer_at_most, fewer_callback|]. intros callback.
  apply keeps_bind; [apply _|apply fewer_at_most, fewer_health|]. intros _.
  apply keeps_bind; [apply _| |].
  - unfold TwoFactorDuoContext_save. apply keeps_bind; [apply _|apply keeps_gets, _|]. intros [c|]; [apply keeps_ret, _|].
    apply keeps_modify. intros s0 k c Hc. simpl in Hc. apply lookup_insert_Some in Hc as [[<- <-]|[_ Hc]]; [by right|by left].
  - intros _. apply fewer_at_most. unfold make_authz_req_url, encode_duo_jwt. duo_keeps.
Qed.
End steps.

(** A flow that was started for an address, with its secrets. *)
Definition started (l : list (Env * DuoStep)) (E0 : Env) (state email nonce : string) : Prop :=
  ∃ jwt_id client_id device, (E0, DuoAsk jwt_id state nonce email client_id device) ∈ l.
Definition from_flows (l : list (Env * DuoStep)) (s : DuoDB) : Prop :=
  ∀ k c, duo_ctx s !! k = Some c → TwoFactorDuoContext.state c = k ∧ ∃ E0 : Env,
    started l E0 k (TwoFactorDuoContext.user_email c) (TwoFactorDuoContext.nonce c)
    ∧ TwoFactorDuoContext.exp c = timestamp_now + CTX_VALIDITY_SECS.

Lemma from_flows_more l x s s' : fewer s s' → from_flows l s → from_flows (l ++ [x]) s'.
Proof.
  intros Hf Hl k c Hc. destruct (Hl k c) as (Hk & E0 & (j & cl & dv & Hin) & Hx); [by eapply lookup_weaken|]. split; [done|].
  exists E0. split; [|done]. exists j, cl, dv. apply elem_of_app. by left.
Qed.
Lemma contexts_from_flows l s0 : duo_ctx s0 = ∅ → from_flows l (duo_steps l s0).
Proof.
  intros H0. induction l as [|[E a] l IH] using rev_ind; [intros k c; simpl; by rewrite H0|].
  unfold duo_steps. rewrite foldl_app. cbn [foldl]. fold (duo_steps l s0). set (s := duo_steps l s0) in *. destruct a; cbn [duo_step].
  - set (x := (E, _)). intros k c Hc. pose proof (ask_context jwt_id state nonce email client_id device s) as Hm.
    destruct (get_duo_auth_url jwt_id state nonce email client_id device s) as [[url|e] s1] eqn:Hrun.
    1: rewrite (run_bind_Ok _ _ _ _ _ Hrun) in Hc. 2: rewrite (run_bind_Err _ _ _ _ _ Hrun) in Hc.
    all: destruct (Hm k c Hc) as [Hold|[-> ->]]; [by eapply (from_flows_more l x s s); [apply fewer_same|exact IH|]|].
    all: split; [done|]; exists E; split; [|done]; exists jwt_id, client_id, device; apply elem_of_app; right; left.
  - eapply from_flows_more; [|exact IH]. apply fewer_answer.
  - eapply from_flows_more; [|exact IH]. apply fewer_purge.
  - eapply from_flows_more; [|exact IH]. by apply fewer_same.
Qed.

Lemma find_keyed state s : (∀ k c, duo_ctx s !! k = Some c → TwoFactorDuoContext.state c = k) →
  TwoFactorDuoContext_find_by_state state s = duo_ctx s !! state.
Proof.
  intros Hk. unfold TwoFactorDuoContext_find_by_state, first. destruct (duo_ctx s !! state) as [c|] eqn:Hc.
  - apply head_unique.
    + apply elem_of_where. rewrite bool_decide_true by by apply Hk. split; [|done]. apply elem_of_rows. by exists state.
    + intros c' [(k & Hc')%elem_of_rows Hs%bool_decide_eq_true]%elem_of_where. rewrite (Hk _ _ Hc') in Hs. subst k. congruence.
  - rewrite where_none; [done|]. intros c' (k & Hc')%elem_of_rows. apply bool_decide_eq_false. intros Hs. rewrite (Hk _ _ Hc') in Hs. subst k. congruence.
Qed.
Lemma delete_keyed c s : (∀ k c, duo_ctx s !! k = Some c → TwoFactorDuoContext.state c = k) →
  delete_where (λ r, TwoFactorDuoContext.state r == TwoFactorDuoContext.state c) (duo_ctx s) = delete (TwoFactorDuoContext.state c) (duo_ctx s).
Proof.
  intros Hk. apply map_eq. intros k. apply option_eq. intros x. rewrite lookup_delete_where, lookup_delete_Some, bool_decide_eq_false.
  split; intros [H1 H2].
  - split; [|done]. intros <-. by rewrite (Hk _ _ H1) in H2.
  - split; [done|]. rewrite (Hk _ _ H2). done.
Qed.

(** ** What an accepted code needs *)

Definition ctx_keyed (s : DuoDB) : Prop := ∀ k c, duo_ctx s !! k = Some c → TwoFactorDuoContext.state c = k.

Lemma extract_run `{Env} state s ctx s' : ctx_keyed s → extract_context state s = (Ok (Some ctx), s') →
  ∃ c, duo_ctx s !! state = Some c ∧ duo_ctx s' = delete state (duo_ctx s)
    ∧ ctx = DuoAuthContext.mk state (TwoFactorDuoContext.user_email c) (TwoFactorDuoContext.nonce c) (TwoFactorDuoContext.exp c).
Proof.
  intros Hk Hrun. unfold extract_context in Hrun. rewrite run_gets, find_keyed in Hrun by done.
  destruct (duo_ctx s !! state) as [c|] eqn:Hc; [|done]. destruct (_ <? _); [done|]. injection Hrun as <- <-. exists c. split; [done|].
  pose proof (Hk _ _ Hc) as Hs. split; [|by rewrite Hs]. simpl. rewrite delete_keyed by done. by rewrite Hs.
Qed.
Lemma exchange_Ok `{Env} client jwt_id code email nonce s s' : exchange_authz_code_for_result client jwt_id code email nonce s = (Ok (), s') →
  ∃ url form response claims, token_post url form = Answered 200 (Some response) ∧ ("code"%string, code) ∈ form
    ∧ decode_id_token (DuoClient.client_secret client) (DuoClient.client_id client) url (IdTokenResponse.id_token response) = Some claims
    ∧ IdTokenClaims.nonce claims = nonce ∧ IdTokenClaims.preferred_username claims = email.
Proof.
  unfold exchange_authz_code_for_result. intros Hrun. destruct (code == _); [done|]. cbv zeta in Hrun.
  apply bind_Ok in Hrun as (token & s1 & _ & Hrun). set (url := _ +:+ _) in Hrun.
  destruct (token_post _ _) as [e| |status body] eqn:Hpost; [done..|]. destruct (Z.eqb_spec status 200) as [->|]; [|done]. simpl negb in Hrun. cbv iota in Hrun.
  apply bind_Ok in Hrun as (response & s2 & Hb & Hrun). apply some_or_Ok in Hb as [-> ->].
  apply bind_Ok in Hrun as (claims & s3 & Hcl & Hrun). apply some_or_Ok in Hcl as [Hcl ->].
  destruct (negb _) eqn:Hm in Hrun; [done|]. apply negb_false_iff in Hm. unfold ct_eq in Hm. bools.
  exists url, (token_form client code token), response, claims. split_and!; [done| |done..]. unfold token_form. right. left.
Qed.

(** An accepted code: the open context, the keys of the account, and the answer
    of Duo for them. *)
Lemma accepted_code `{Env} jwt_id jwt_id2 email token client_id device s s' : ctx_keyed s →
  duo_oidc_login jwt_id jwt_id2 email token client_id device s = (Ok (), s') →
  ∃ code state c ik sk ak host, split_on bar token = [code; state] ∧ duo_ctx s !! state = Some c
    ∧ TwoFactorDuoContext.user_email c = email ∧ timestamp_now < TwoFactorDuoContext.exp c
    ∧ (get_duo_keys_email email (duo_vault s)).1 = Ok (ik, sk, ak, host)
    ∧ (∃ url form response claims, token_post url form = Answered 200 (Some response) ∧ ("code"%string, code) ∈ form
         ∧ decode_id_token sk ik url (IdTokenResponse.id_token response) = Some claims
         ∧ IdTokenClaims.nonce claims = digest_hex (TwoFactorDuoContext.nonce c +:+ device) ∧ IdTokenClaims.preferred_username claims = email)
    ∧ duo_ctx s' !! state = None.
Proof.
  intros Hk Hrun. unfold duo_oidc_login in Hrun. destruct (split_on bar token) as [|code [|state [|? ?]]] eqn:Hsplit; [done..| |done].
  apply bind_Ok in Hrun as ([[[ik sk] ak] host] & s1 & Hkeys & Hrun). unfold in_vault in Hkeys.
  destruct (get_duo_keys_email email (duo_vault s)) as [r d1] eqn:Hg. injection Hkeys as -> <-.
  apply bind_Ok in Hrun as (o & s1 & Hext & Hrun). apply bind_Ok in Hrun as (ctx & s2 & Ho & Hrun). apply some_or_Ok in Ho as [-> ->].
  destruct (extract_run _ _ _ _ (Hk : ctx_keyed (mkDuoDB d1 (duo_ctx s))) Hext) as (c & Hc & Hdel & ->). simpl in Hc, Hdel.
  destruct (negb _) eqn:Hm in Hrun; [done|]. apply negb_false_iff in Hm. unfold ct_eq in Hm. simpl in Hm. bools.
  apply bind_Ok in Hrun as (callback & s2 & Hcb & Hrun). apply bind_Ok in Hrun as ([] & s3 & Hh & Hrun).
  apply bind_Ok in Hrun as ([[]|e] & s4 & Hex & Hrun); [|done]. apply ret_Ok in Hrun as [_ ->]. apply answer_Ok in Hex.
  destruct (exchange_Ok _ _ _ _ _ _ _ Hex) as (url & form & response & claims & Hpost & Hcode & Hdec & Hn & Hu).
  exists code, state, c, ik, sk, ak, host. split_and!; [done..|by apply Z.ltb_lt|done| |].
  - by exists url, form, response, claims.
  - destruct (duo_ctx s4 !! state) as [x|] eqn:Hx; [|done]. exfalso.
    apply (fewer_run _ _ _ _ _ _ (fewer_exchange _ _ _ _ _) Hex), (fewer_run _ _ _ _ _ _ (fewer_health _ _) Hh),
      (fewer_run _ _ _ _ _ _ (fewer_callback _) Hcb) in Hx.
    by rewrite Hdel, lookup_delete_eq in Hx.
Qed.

(** C13. A code of Duo needs a flow of this server. In every history that starts
    without contexts, a code is accepted for an address only if the server started
    a flow with the state of the code for the same address less than five minutes
    before, and Duo answered for the code, under the keys of the account, with a
    token for that address and for the secret of the flow, bound to the device of
    the request. The context is spent. *)
Theorem duo_login_needs_flow (E : Env) (l : list (Env * DuoStep)) (s0 s' : DuoDB) (jwt_id jwt_id2 email token client_id device : string) :
  duo_ctx s0 = ∅ → duo_oidc_login jwt_id jwt_id2 email token client_id device (duo_steps l s0) = (Ok (), s') →
  ∃ code state nonce ik sk ak host, split_on bar token = [code; state]
    ∧ (∃ E0 : Env, started l E0 state email nonce ∧ timestamp_now (E := E) < timestamp_now (E := E0) + CTX_VALIDITY_SECS)
    ∧ (get_duo_keys_email email (duo_vault (duo_steps l s0))).1 = Ok (ik, sk, ak, host)
    ∧ (∃ url form response claims, token_post url form = Answered 200 (Some response) ∧ ("code"%string, code) ∈ form
         ∧ decode_id_token sk ik url (IdTokenResponse.id_token response) = Some claims
         ∧ IdTokenClaims.nonce claims = digest_hex (nonce +:+ device) ∧ IdTokenClaims.preferred_username claims = email)
    ∧ duo_ctx s' !! state = None.
Proof.
  intros H0 Hrun. pose proof (contexts_from_flows l s0 H0) as Hflows.
  assert (Hk : ctx_keyed (duo_steps l s0)) by (intros k c Hc; by apply Hflows in Hc as [Hc _]).
  destruct (accepted_code _ _ _ _ _ _ _ _ Hk Hrun) as (code & state & c & ik & sk & ak & host & Hsplit & Hc & Hu & Hexp & Hkeys & Hduo & Hgone).
  destruct (Hflows _ _ Hc) as (_ & E0 & Hst & Hx). exists code, state, (TwoFactorDuoContext.nonce c), ik, sk, ak, host.
  split_and!; [done| |done..]. exists E0. rewrite <-Hu. split; [done|]. by rewrite <-Hx.
Qed.

(** *** States are used once *)

Definition open_state (state : string) (s : DuoDB) : nat := if duo_ctx s !! state then 1 else 0.
Definition draws_state (state : string) (a : DuoStep) : bool := match a with DuoAsk _ st _ _ _ _ => st == state | _ => false end.
Definition uses_state (state : string) (a : DuoStep) : bool :=
  match a with DuoAnswer _ _ _ token _ _ => match split_on bar token with [_; st] => st == state | _ => false end | _ => false end.
(** How often the state is drawn, and how often a code with it is accepted. *)
Definition drawn (state : string) (l : list (Env * DuoStep)) : nat := length (where_ (λ x, draws_state state x.2) l).
Fixpoint used (state : string) (l : list (Env * DuoStep)) (s : DuoDB) : nat :=
  match l with
  | [] => 0
  | (E, a) :: l => ((if uses_state state a && is_ok (duo_step E a s).1 then 1 else 0) + used state l (duo_step E a s).2)%nat
  end.

Lemma open_fewer state s s' : fewer s s' → (open_state state s' <= open_state state s)%nat.
Proof.
  intros Hf. unfold open_state. destruct (duo_ctx s' !! state) as [c|] eqn:Hc; [|destruct (duo_ctx s !! state); lia].
  by rewrite (lookup_weaken _ _ _ _ Hc Hf).
Qed.
Lemma keyed_fewer s s' : fewer s s' → ctx_keyed s → ctx_keyed s'.
Proof. intros Hf Hk k c Hc. apply Hk. by eapply lookup_weaken. Qed.
Lemma step_at_most E a s : match a with DuoAsk _ _ _ _ _ _ => ∃ c0, draws_state (TwoFactorDuoContext.state c0) a = true ∧ at_most c0 s (duo_step E a s).2
                           | _ => fewer s (duo_step E a s).2 end.
Proof.
  destruct a; cbn [duo_step]; [|apply fewer_answer|apply fewer_purge|by apply fewer_same].
  exists (TwoFactorDuoContext.mk state email nonce (timestamp_now + CTX_VALIDITY_SECS)). split; [by apply bool_decide_eq_true|].
  apply keeps_bind; [apply _|apply ask_context|]. intros _. apply keeps_ret, _.
Qed.
Lemma step_keyed E a s : ctx_keyed s → ctx_keyed (duo_step E a s).2.
Proof.
  intros Hk. pose proof (step_at_most E a s) as Ha. destruct a; [|by eapply keyed_fewer..].
  destruct Ha as (c0 & _ & Ha). intros k c [Hc|[-> ->]]%Ha; [by apply Hk|done].
Qed.
Lemma step_open state E a s : (open_state state (duo_step E a s).2 <= open_state state s + if draws_state state a then 1 else 0)%nat.
Proof.
  pose proof (step_at_most E a s) as Ha. destruct (draws_state state a) eqn:Hd.
  { unfold open_state. destruct (_ !! state), (_ !! state); lia. }
  rewrite Nat.add_0_r. destruct a; [|by apply open_fewer..]. destruct Ha as (c0 & Hc0 & Ha). unfold open_state.
  destruct (duo_ctx _ !! state) as [c|] eqn:Hc; [|destruct (_ !! state); lia]. destruct (Ha _ _ Hc) as [->|[-> ->]]; [done|].
  cbn [draws_state] in *. congruence.
Qed.

(** A code is accepted at most once for each time its state was drawn. *)
Theorem duo_states_are_used_once (state : string) (l : list (Env * DuoStep)) (s : DuoDB) :
  ctx_keyed s → (used state l s <= drawn state l + open_state state s)%nat.
Proof.
  revert s. induction l as [|[E a] l IH]; intros s Hk; [simpl; lia|]. cbn [used]. specialize (IH _ (step_keyed E a s Hk)).
  pose proof (step_open state E a s) as Ho.
  assert (drawn state ((E, a) :: l) = (if draws_state state a then 1 else 0) + drawn state l)%nat as ->.
  { unfold drawn, where_. cbn [List.filter snd]. by destruct (draws_state state a). }
  destruct (uses_state state a && _) eqn:Hu; [|lia]. apply andb_true_iff in Hu as [Hu Hok].
  destruct a as [|jwt_id jwt_id2 email token client_id device| |]; try done. cbn [draws_state duo_step uses_state] in *.
  destruct (duo_oidc_login jwt_id jwt_id2 email token client_id device s) as [[[]|e] s'] eqn:Hrun; [|done].
  destruct (accepted_code _ _ _ _ _ _ _ _ Hk Hrun) as (code & st & c & ik & sk & ak & host & Hsplit & Hc & _ & _ & _ & _ & Hgone).
  rewrite Hsplit in Hu. apply bool_decide_eq_true in Hu as ->. cbn [snd] in *. unfold open_state in *. rewrite Hc, Hgone in *. lia.
Qed.
End histories.

(** ** Bob's login with Duo

    Duo answers every code with a token for Bob and the secret of his flow. *)
Module SampleDuo.
Import SampleFactors SamplePasskeys.
#[export] Instance oidc : DuoOidc := {|
  encode_assertion _ _ := Some "jwt"; encode_request _ _ := Some "request"; health_post _ _ := Answered 200 (Some (HealthOK "OK"));
  token_post _ _ := Answered 200 (Some (IdTokenResponse.mk "nonce1phone" "" 0 "")); decode_id_token _ _ _ t := Some (IdTokenClaims.mk "b@x" t);
  digest_hex s := s; DuoUrl := string; DuoUrl_parse := Some; DuoUrl_join b p := Some (b +:+ p);
  DuoUrl_append_pair k v u := u +:+ "&" +:+ k +:+ "=" +:+ v; DuoUrl_to_string u := u; server_domain := "https://v" |}%string.
Definition start : DuoDB := mkDuoDB duo_db ∅.
(** Bob starts two flows; the job runs in between. *)
Definition steps : list (Env * DuoStep) :=
  [(Sample.env, DuoAsk "j1" "state1" "nonce1" "b@x" "web" "phone"); (Sample.env, DuoPurge);
   (Sample.env, DuoAsk "j2" "state2" "nonce2" "b@x" "web" "phone")].
Definition answered : DuoDB := (duo_oidc_login "j3" "j4" "b@x" "code|state1" "web" "phone" (duo_steps steps start)).2.
End SampleDuo.
Import SampleFactors SamplePasskeys SampleDuo.

Lemma duo_login_needs_flow_witness :
  ∃ E0 : Env, started steps E0 "state1" "b@x" "nonce1" ∧ timestamp_now (E := Sample.env) < timestamp_now (E := E0) + CTX_VALIDITY_SECS.
Proof.
  destruct (duo_login_needs_flow Sample.env steps start answered "j3" "j4" "b@x" "code|state1" "web" "phone")
    as (code & state & nonce & ik & sk & ak & host & Hsplit & (E0 & Hst & Ht) & _ & (url & form & response & claims & Hpost & _ & Hdec & Hn & _) & _).
  - reflexivity.
  - vm_compute. reflexivity.
  - vm_compute in Hsplit. injection Hsplit as <- <-. exists E0. split; [|exact Ht].
    cbn in Hpost. injection Hpost as <-. cbn in Hdec. injection Hdec as <-. cbn in Hn. destruct Hst as (j & c & dv & Hin).
    apply list_elem_of_In in Hin. cbn in Hin. destruct_or! Hin; try contradiction; inversion Hin; subst. exists "j1"%string, "web"%string, "phone"%string. left.
Defined.
Example second_use_refused :
  (duo_oidc_login "j3" "j4" "b@x" "code|state1" "web" "phone" answered).1 = Err (MkError 400 "Error validating duo authentication").
Proof. vm_compute. reflexivity. Qed.
