(* ===== verification/Notifications.v ===== *)
(** Notifications.

    Models src/src/api/notifications.rs and the sending half of
    src/src/api/push.rs: the frames of messages, the hub that keeps the open
    connections of accounts and of pending login requests, what is sent to whom,
    and the token for the push relay, with their theorems. The encoder of
    MessagePack values, the reader of the first message of a client and the relay
    are parameters. A channel holds a hundred messages; a delivery that comes to
    a full one waits, while other requests and clients go on. *)
From S2P Require Import Prelude Schema Roles Users Json Samples Memberships Groups Collections VaultItems Ciphers Guards.
Local Open Scope Z_scope.

(** ** Values and frames *)

(** [rmpv::Value], as far as it is used. *)
Inductive Packed :=
| PNil | PInt (n : Z) | PStr (s : string) | PArray (l : list Packed) | PMap (l : list (Packed * Packed)) | PExt (tag : Z) (bytes : list Z).

Inductive UpdateType :=
| SyncCipherUpdate | SyncCipherCreate | SyncLoginDelete | SyncFolderDelete | SyncCiphers | SyncVault | SyncOrgKeys | SyncFolderCreate
| SyncFolderUpdate | SyncSettings | LogOut | SyncSendCreate | SyncSendUpdate | SyncSendDelete | AuthRequest_ | AuthRequestResponse | NoUpdate.
Definition UpdateType_as_i32 (ut : UpdateType) : Z :=
  match ut with
  | SyncCipherUpdate => 0 | SyncCipherCreate => 1 | SyncLoginDelete => 2 | SyncFolderDelete => 3 | SyncCiphers => 4 | SyncVault => 5
  | SyncOrgKeys => 6 | SyncFolderCreate => 7 | SyncFolderUpdate => 8 | SyncSettings => 10 | LogOut => 11 | SyncSendCreate => 12
  | SyncSendUpdate => 13 | SyncSendDelete => 14 | AuthRequest_ => 15 | AuthRequestResponse => 16 | NoUpdate => 100
  end.

Class NotifyConfig := {
  enable_websocket : bool;
  (** [rmpv::encode::write_value]. *)
  write_value : Packed → list Z;
  (** [serde_json::from_str::<InitialMessage>]: protocol and version. *)
  initial_message : string → option (string * Z);
}.

Section frames.
Context `{N : NotifyConfig}.

(** The size in groups of seven bits, lowest first; a [usize] has at most ten. *)
Fixpoint size_bytes (fuel : nat) (size : Z) : list Z :=
  match fuel with
  | O => []
  | S fuel =>
      let size_part := Z.land size 0x7f in
      let size := Z.shiftr size 7 in
      let size_part := if 0 <? size then Z.lor size_part 0x80 else size_part in
      size_part :: if size =? 0 then [] else size_bytes fuel size
  end.
Definition serialize (val : Packed) : list Z :=
  let buf := write_value val in
  size_bytes 10 (Z.of_nat (length buf)) ++ buf.

(** [i64::to_be_bytes]. *)
Definition to_be_bytes (n : Z) : list Z := (λ i, Z.land (Z.shiftr (n mod 2 ^ 64) (8 * i)) 0xff) <$> [7; 6; 5; 4; 3; 2; 1; 0].
(** A date is in microseconds. *)
Definition serialize_date (date : Z) : Packed :=
  let seconds := date / 1000000 in
  let nanos := (date mod 1000000) * 1000 in
  let timestamp := Z.lor (Z.shiftl nanos 34) seconds in
  PExt (-1) (to_be_bytes timestamp).
Definition convert_option (o : option string) : Packed := match o with Some a => PStr a | None => PNil end.

Definition create_update (payload : list (string * Packed)) (ut : UpdateType) (acting_device_id : option string) : list Z :=
  serialize (PArray [PInt 1; PMap []; PNil; PStr "ReceiveMessage";
    PArray [PMap [(PStr "ContextId", convert_option acting_device_id); (PStr "Type", PInt (UpdateType_as_i32 ut));
                  (PStr "Payload", PMap ((λ '(k, v), (PStr k, v)) <$> payload))]]]).
Definition create_anonymous_update (payload : list (string * Packed)) (ut : UpdateType) (user_id : string) : list Z :=
  serialize (PArray [PInt 1; PMap []; PNil; PStr "AuthRequestResponseRecieved";
    PArray [PMap [(PStr "Type", PInt (UpdateType_as_i32 ut)); (PStr "Payload", PMap ((λ '(k, v), (PStr k, v)) <$> payload));
                  (PStr "UserId", PStr user_id)]]]).
Definition create_ping : list Z := serialize (PArray [PInt 6]).
End frames.

(** ** The hub *)

(** [WSEntryMapGuard] and [WSAnonymousEntryMapGuard]: a connection that is open. *)
Module WSEntryMapGuard.
Record t := mk { user_uuid : string; entry_uuid : string; addr : string }.
End WSEntryMapGuard.
Module WSAnonymousEntryMapGuard.
Record t := mk { token : string; entry_uuid : string; addr : string }.
End WSAnonymousEntryMapGuard.

(** Who is listening: an account, or whoever holds the id of a login request. *)
Inductive Topic := Account (user_id : string) | Pending (auth_request_id : string).
#[export] Instance Topic_eq_dec : EqDecision Topic.
Proof. solve_decision. Defined.

(** A request in the middle of a delivery: the senders that it has cloned and
    not used yet, the accounts (or the login request) it has still to look up, the
    message, and what it hands to the push relay at the end. *)
Module Delivery.
Record t := mk { senders : list string; topics : list Topic; data : list Z; pushed : list Json }.
End Delivery.

(** [WS_USERS] and [WS_ANONYMOUS_SUBSCRIPTIONS] with the guards of the open
    connections, the messages that wait in the channel of each and those that
    its loop has taken out, the deliveries under way, and what was handed to
    the relay. *)
Record Hub := mkHub {
  ws_users : gmap string (list string);
  anonymous : gmap string (list string);
  connections : gmap string Z;
  guards : list WSEntryMapGuard.t;
  anonymous_guards : list WSAnonymousEntryMapGuard.t;
  channels : gmap string (list (list Z));
  received : gmap string (list (list Z));
  tasks : list Delivery.t;
  relayed : list Json
}.
Definition empty_hub : Hub := mkHub ∅ ∅ ∅ [] [] ∅ ∅ [] [].
Definition Hub_eta (h : Hub) : Hub :=
  mkHub (ws_users h) (anonymous h) (connections h) (guards h) (anonymous_guards h) (channels h) (received h) (tasks h) (relayed h).
Definition set_ws_users : (gmap string (list string) → gmap string (list string)) → Hub → Hub := ltac:(make_setter Hub_eta ws_users).
Definition set_anonymous : (gmap string (list string) → gmap string (list string)) → Hub → Hub := ltac:(make_setter Hub_eta anonymous).
Definition set_connections : (gmap string Z → gmap string Z) → Hub → Hub := ltac:(make_setter Hub_eta connections).
Definition set_guards : (list WSEntryMapGuard.t → list WSEntryMapGuard.t) → Hub → Hub := ltac:(make_setter Hub_eta guards).
Definition set_anonymous_guards : (list WSAnonymousEntryMapGuard.t → list WSAnonymousEntryMapGuard.t) → Hub → Hub :=
  ltac:(make_setter Hub_eta anonymous_guards).
Definition set_channels : (gmap string (list (list Z)) → gmap string (list (list Z))) → Hub → Hub := ltac:(make_setter Hub_eta channels).
Definition set_received : (gmap string (list (list Z)) → gmap string (list (list Z))) → Hub → Hub := ltac:(make_setter Hub_eta received).
Definition set_tasks : (list Delivery.t → list Delivery.t) → Hub → Hub := ltac:(make_setter Hub_eta tasks).
Definition set_relayed : (list Json → list Json) → Hub → Hub := ltac:(make_setter Hub_eta relayed).

Definition MAX_ANONYMOUS_CONNECTIONS_PER_IP : Z := 25.
Definition RECORD_SEPARATOR : Ascii.ascii := Ascii.ascii_of_nat 0x1e.
Definition INITIAL_RESPONSE : list Z := [0x7b; 0x7d; 0x1e].

(** [map.entry(key).or_default().push(entry)], and [retain] on the entry. *)
Definition subscribe (key entry : string) (m : gmap string (list string)) : gmap string (list string) :=
  <[key := default [] (m !! key) ++ [entry]]> m.
Definition unsubscribe (key entry : string) (m : gmap string (list string)) : gmap string (list string) :=
  alter (where_ (λ e, negb (e == entry))) key m.
(** [mpsc::channel::<Message>(100)]: the two ends are made together, and the
    receiver is dropped with the connection. *)
Definition CHANNEL_CAPACITY : nat := 100.
Definition open_channel (entry : string) (h : Hub) : Hub := set_received <[entry := []]> (set_channels <[entry := []]> h).
Definition close_channel (entry : string) (h : Hub) : Hub := set_received (delete entry) (set_channels (delete entry) h).
(** [sender.send(..)]: [None] while the channel is full. Sending into a closed
    channel is an error that is only logged. *)
Definition send (entry : string) (data : list Z) (h : Hub) : option Hub :=
  match channels h !! entry with
  | None => Some h
  | Some waiting =>
      if (length waiting <? CHANNEL_CAPACITY)%nat then Some (set_channels <[entry := waiting ++ [data]]> h) else None
  end.
(** [rx.recv()] in the loop of the connection, which hands the message to the
    client. *)
Definition recv (entry : string) : M Hub () := modify (λ h,
  match channels h !! entry with
  | Some (m :: waiting) => set_received (alter (λ l, l ++ [m]) entry) (set_channels <[entry := waiting]> h)
  | _ => h
  end).

(** The senders of an account or a login request, cloned. *)
Definition subscribers (h : Hub) (t : Topic) : list string :=
  match t with Account u => default [] (ws_users h !! u) | Pending a => default [] (anonymous h !! a) end.

(** The loops of the two [send_update] around their one point of waiting: the
    [n]-th delivery sends to its next sender, clones the senders of its next
    account, or ends and hands its notification to the relay. *)
Definition resume (n : nat) : M Hub () := modify (λ h,
  match tasks h !! n with
  | None => h
  | Some (Delivery.mk (sender :: senders) topics data pushed) =>
      match send sender data h with
      | Some h => set_tasks <[n := Delivery.mk senders topics data pushed]> h
      | None => h
      end
  | Some (Delivery.mk [] (topic :: topics) data pushed) =>
      set_tasks <[n := Delivery.mk (subscribers h topic) topics data pushed]> h
  | Some (Delivery.mk [] [] data pushed) => set_relayed (λ l, l ++ pushed) (set_tasks (base.delete n) h)
  end).
(** A request starts a delivery. *)
Definition start (topics : list Topic) (data : list Z) (pushed : list Json) : M Hub () :=
  modify (set_tasks (λ l, l ++ [Delivery.mk [] topics data pushed])).

(** [WsAccessTokenHeader], with the text after the last [Bearer ]. *)
Definition WsAccessTokenHeader_from_request (authorization : option string) : option string := rsplit_next "Bearer " <$> authorization.

Section hub.
Context `{N : NotifyConfig} `{L : LoginTokens}.

(** [entry_uuid] is drawn. *)
Definition websockets_hub (access_token header_token : option string) (ip entry_uuid : string) : M Hub WSEntryMapGuard.t :=
  token ← match access_token, header_token with
    | Some token, _ => mret token
    | None, Some token => mret token
    | None, None => err_code "Invalid claim" 401
    end;
  match decode_login token with
  | Err _ => err_code "Invalid token" 401
  | Ok claims =>
      let user := LoginJwtClaims.sub claims in
      let guard := WSEntryMapGuard.mk user entry_uuid ip in
      modify (λ h, open_channel entry_uuid (set_guards (cons guard) (set_ws_users (subscribe user entry_uuid) h))) ;;
      mret guard
  end.
(** [drop]: the connection is closed. *)
Definition WSEntryMapGuard_drop (g : WSEntryMapGuard.t) : M Hub () :=
  modify (λ h, close_channel (WSEntryMapGuard.entry_uuid g)
    (set_guards (where_ (λ x, negb (WSEntryMapGuard.entry_uuid x == WSEntryMapGuard.entry_uuid g)))
      (set_ws_users (unsubscribe (WSEntryMapGuard.user_uuid g) (WSEntryMapGuard.entry_uuid g)) h))).

Definition try_reserve (addr : string) : M Hub bool := λ h,
  let count := default 0 (connections h !! addr) in
  let set n := set_connections <[addr := n]> h in
  if MAX_ANONYMOUS_CONNECTIONS_PER_IP <=? count then (Ok false, set count) else (Ok true, set (count + 1)).
Definition release (addr : string) : M Hub () := modify (set_connections (λ c,
  match c !! addr with
  | Some count => let count := Z.max 0 (count - 1) in if count =? 0 then delete addr c else <[addr := count]> c
  | None => c
  end)).

Definition anonymous_websockets_hub (token ip entry_uuid : string) : M Hub WSAnonymousEntryMapGuard.t :=
  reserved ← try_reserve ip;
  if negb (reserved : bool) then err_code "Too many connections" 429 else
  let guard := WSAnonymousEntryMapGuard.mk token entry_uuid ip in
  modify (λ h, open_channel entry_uuid (set_anonymous_guards (cons guard) (set_anonymous (subscribe token entry_uuid) h))) ;;
  mret guard.
Definition WSAnonymousEntryMapGuard_drop (g : WSAnonymousEntryMapGuard.t) : M Hub () :=
  let token := WSAnonymousEntryMapGuard.token g in
  modify (λ h, close_channel (WSAnonymousEntryMapGuard.entry_uuid g)
    (set_anonymous_guards (where_ (λ x, negb (WSAnonymousEntryMapGuard.entry_uuid x == WSAnonymousEntryMapGuard.entry_uuid g)))
      (set_anonymous (λ m,
        let m := unsubscribe token (WSAnonymousEntryMapGuard.entry_uuid g) m in
        match m !! token with Some [] => delete token m | _ => m end) h))) ;;
  release (WSAnonymousEntryMapGuard.addr g).

Definition anonymous_send_update (token : string) (data : list Z) : M Hub () := start [Pending token] data [].

(** What a client sends, and what the loop of its connection does: it answers,
    stays quiet or ends. *)
Inductive Message := Ping (b : list Z) | Pong (b : list Z) | Text (s : string) | Binary (b : list Z) | Close.
Inductive Reaction := Yield (m : Message) | Quiet | Break.
Definition strip_separator (s : string) : string :=
  match rev (String.list_ascii_of_string s) with
  | a :: l => if a == RECORD_SEPARATOR then String.string_of_list_ascii (rev l) else s
  | [] => s
  end.
Definition on_message (message : option Message) : Reaction :=
  match message with
  | Some (Ping b) => Yield (Pong b)
  | Some (Pong _) => Quiet
  | Some (Text s) =>
      match initial_message (strip_separator s) with
      | Some (protocol, version) => if (protocol == "messagepack")%string && (version =? 1) then Yield (Binary INITIAL_RESPONSE) else Quiet
      | None => Quiet
      end
  | Some Close => Break
  | Some (Binary b) => Yield (Binary b)
  | None => Break
  end.
(** One round of the loop: a message of the client, one out of the channel, or the
    timer. *)
Inductive Event := FromClient (message : option Message) | FromHub (res : option (list Z)) | Tick.
Definition on_event (ev : Event) : Reaction :=
  match ev with
  | FromClient message => on_message message
  | FromHub (Some res) => Yield (Binary res)
  | FromHub None => Break
  | Tick => Yield (Ping create_ping)
  end.
(** What the client is sent; with the break the guard is dropped. *)
Fixpoint stream (l : list Event) : list Message :=
  match l with
  | [] => []
  | ev :: l => match on_event ev with Yield m => m :: stream l | Quiet => stream l | Break => [] end
  end.
End hub.

(** ** What is sent

    Each function starts a delivery; the database is read only. *)
Section senders.
Context `{E : Env} `{N : NotifyConfig} `{J : JsonText}.

Definition NOTIFICATIONS_DISABLED : bool := negb enable_websocket && negb push_enabled.

Definition relay_json (user_id : Json) (device_id identifier : option string) (type : Z) (payload : list (string * Json)) : Json :=
  json_object [("userId", user_id); ("organizationId", JsNull); ("deviceId", json_opt JsString device_id);
    ("identifier", json_opt JsString identifier); ("type", json_number type); ("payload", json_object payload);
    ("clientType", JsNull); ("installationId", JsNull)]%string.

Definition push_cipher_update (ut : UpdateType) (cipher : Cipher.t) (device : Device.t) (d : DB) : list Json :=
  match Cipher.organization_uuid cipher, Cipher.user_uuid cipher with
  | Some _, _ => []
  | None, None => []
  | None, Some user_id =>
      if Device_check_user_has_push_device user_id d
      then [relay_json (JsString user_id) (Device.push_uuid device) (Some (Device.uuid device)) (UpdateType_as_i32 ut)
              [("id", JsString (Cipher.uuid cipher)); ("userId", json_opt JsString (Cipher.user_uuid cipher)); ("organizationId", JsNull);
               ("collectionIds", JsNull); ("revisionDate", JsString (format_date (Cipher.updated_at cipher)))]]%string
      else []
  end.
Definition push_logout (user : User.t) (acting_device : option Device.t) (d : DB) : list Json :=
  if Device_check_user_has_push_device (User.uuid user) d
  then [relay_json (JsString (User.uuid user)) (acting_device ≫= Device.push_uuid) (Device.uuid <$> acting_device) (UpdateType_as_i32 LogOut)
          [("userId", JsString (User.uuid user)); ("date", JsString (format_date (User.updated_at user)))]]%string
  else [].
Definition push_user_update (ut : UpdateType) (user : User.t) (push_uuid : option string) (d : DB) : list Json :=
  if Device_check_user_has_push_device (User.uuid user) d
  then [relay_json (JsString (User.uuid user)) push_uuid None (UpdateType_as_i32 ut)
          [("userId", JsString (User.uuid user)); ("date", JsString (format_date (User.updated_at user)))]]%string
  else [].
Definition push_folder_update (ut : UpdateType) (folder : Folder.t) (device : Device.t) (d : DB) : list Json :=
  if Device_check_user_has_push_device (Folder.user_uuid folder) d
  then [relay_json (JsString (Folder.user_uuid folder)) (Device.push_uuid device) (Some (Device.uuid device)) (UpdateType_as_i32 ut)
          [("id", JsString (Folder.uuid folder)); ("userId", JsString (Folder.user_uuid folder));
           ("revisionDate", JsString (format_date (Folder.updated_at folder)))]]%string
  else [].
Definition push_send_update (ut : UpdateType) (send : Send.t) (device : Device.t) (d : DB) : list Json :=
  match Send.user_uuid send with
  | Some s =>
      if Device_check_user_has_push_device s d
      then [relay_json (json_opt JsString (Send.user_uuid send)) (Device.push_uuid device) (Some (Device.uuid device)) (UpdateType_as_i32 ut)
              [("id", JsString (Send.uuid send)); ("userId", json_opt JsString (Send.user_uuid send));
               ("revisionDate", JsString (format_date (Send.revision_date send)))]]%string
      else []
  | None => []
  end.
Definition push_auth_request (user_id auth_request_id : string) (device : Device.t) (d : DB) : list Json :=
  if Device_check_user_has_push_device user_id d
  then [relay_json (JsString user_id) (Device.push_uuid device) (Some (Device.uuid device)) (UpdateType_as_i32 AuthRequest_)
          [("userId", JsString user_id); ("id", JsString auth_request_id)]]%string
  else [].
Definition push_auth_response (user_id auth_request_id : string) (device : Device.t) (d : DB) : list Json :=
  if Device_check_user_has_push_device user_id d
  then [relay_json (JsString user_id) (Device.push_uuid device) (Some (Device.uuid device)) (UpdateType_as_i32 AuthRequestResponse)
          [("userId", JsString user_id); ("id", JsString auth_request_id)]]%string
  else [].

(** The common end: over the connections of the given accounts, and to the relay. *)
Definition deliver (user_ids : list string) (data : list Z) (pushed : list Json) : M Hub () :=
  start (if enable_websocket then Account <$> user_ids else []) data (if push_enabled then pushed else []).

Definition send_user_update (ut : UpdateType) (user : User.t) (push_uuid : option string) (d : DB) : M Hub () :=
  if NOTIFICATIONS_DISABLED then mret () else
  let data := create_update [("UserId", PStr (User.uuid user)); ("Date", serialize_date (User.updated_at user))]%string ut None in
  deliver [User.uuid user] data (push_user_update ut user push_uuid d).
Definition send_logout (user : User.t) (acting_device : option Device.t) (d : DB) : M Hub () :=
  if NOTIFICATIONS_DISABLED then mret () else
  let data := create_update [("UserId", PStr (User.uuid user)); ("Date", serialize_date (User.updated_at user))]%string LogOut
    (Device.uuid <$> acting_device) in
  deliver [User.uuid user] data (push_logout user acting_device d).
Definition send_folder_update (ut : UpdateType) (folder : Folder.t) (device : Device.t) (d : DB) : M Hub () :=
  if NOTIFICATIONS_DISABLED then mret () else
  let data := create_update [("Id", PStr (Folder.uuid folder)); ("UserId", PStr (Folder.user_uuid folder));
    ("RevisionDate", serialize_date (Folder.updated_at folder))]%string ut (Some (Device.uuid device)) in
  deliver [Folder.user_uuid folder] data (push_folder_update ut folder device d).
Definition send_cipher_update (ut : UpdateType) (cipher : Cipher.t) (user_ids : list string) (device : Device.t)
    (collection_uuids : option (list string)) (d : DB) : M Hub () :=
  if NOTIFICATIONS_DISABLED then mret () else
  let org_id := convert_option (Cipher.organization_uuid cipher) in
  let '(user_id, collections, revision_date) := match collection_uuids with
    | Some l => (PNil, PArray (PStr <$> l), serialize_date now)
    | None => (convert_option (Cipher.user_uuid cipher), PNil, serialize_date (Cipher.updated_at cipher))
    end in
  let data := create_update [("Id", PStr (Cipher.uuid cipher)); ("UserId", user_id); ("OrganizationId", org_id);
    ("CollectionIds", collections); ("RevisionDate", revision_date)]%string ut (Some (Device.uuid device)) in
  deliver user_ids data (if (length user_ids =? 1)%nat then push_cipher_update ut cipher device d else []).
Definition send_send_update (ut : UpdateType) (send : Send.t) (user_ids : list string) (device : Device.t) (d : DB) : M Hub () :=
  if NOTIFICATIONS_DISABLED then mret () else
  let data := create_update [("Id", PStr (Send.uuid send)); ("UserId", convert_option (Send.user_uuid send));
    ("RevisionDate", serialize_date (Send.revision_date send))]%string ut None in
  deliver user_ids data (if (length user_ids =? 1)%nat then push_send_update ut send device d else []).
Definition send_auth_request (user_id auth_request_uuid : string) (device : Device.t) (d : DB) : M Hub () :=
  if NOTIFICATIONS_DISABLED then mret () else
  let data := create_update [("Id", PStr auth_request_uuid); ("UserId", PStr user_id)]%string AuthRequest_ (Some (Device.uuid device)) in
  deliver [user_id] data (push_auth_request user_id auth_request_uuid device d).
Definition send_auth_response (user_id auth_request_id : string) (device : Device.t) (d : DB) : M Hub () :=
  if NOTIFICATIONS_DISABLED then mret () else
  let data := create_update [("Id", PStr auth_request_id); ("UserId", PStr user_id)]%string AuthRequestResponse (Some (Device.uuid device)) in
  deliver [user_id] data (push_auth_response user_id auth_request_id device d).
Definition anonymous_send_auth_response (user_id auth_request_id : string) : M Hub () :=
  if negb enable_websocket then mret () else
  anonymous_send_update auth_request_id
    (create_anonymous_update [("Id", PStr auth_request_id); ("UserId", PStr user_id)]%string AuthRequestResponse user_id).
End senders.

(** ** The token of the push relay *)

(** [LocalAuthPushToken]; instants are in nanoseconds. *)
Module LocalAuthPushToken.
Record t := mk { access_token : string; valid_until : Z }.
End LocalAuthPushToken.
Module AuthPushToken.
Record t := mk { access_token : string; expires_in : Z }.
End AuthPushToken.
(** What the identity server answers when it is asked. *)
Inductive TokenReply := TokenBlocked (e : Error) | TokenUnsent | TokenUnreadable | TokenReceived (t : AuthPushToken.t).

Definition second : Z := 1000000000.
(** [Instant::saturating_duration_since] and [as_secs]. *)
Definition seconds_left (valid_until instant : Z) : Z := Z.max 0 (valid_until - instant) / second.
(** [expires_in] is an [i32]; its division rounds towards zero. *)
Definition half_expires_in (expires_in : Z) : Z := Z.max (Z.quot expires_in 2) 0.

(** [instant] is the time of the check, [received] the time at which the answer is
    stored. *)
Definition get_auth_api_token (instant received : Z) (reply : TokenReply) : M LocalAuthPushToken.t string :=
  api_token ← gets id;
  if 0 <? seconds_left (LocalAuthPushToken.valid_until api_token) instant then mret (LocalAuthPushToken.access_token api_token) else
  match reply with
  | TokenBlocked e => throw e
  | TokenUnsent => err "Error getting push token from bitwarden server"
  | TokenUnreadable => err "Unexpected push token received from bitwarden server"
  | TokenReceived t =>
      let valid_until := received + half_expires_in (AuthPushToken.expires_in t) * second in
      modify (λ _, LocalAuthPushToken.mk (AuthPushToken.access_token t) valid_until) ;;
      mret (AuthPushToken.access_token t)
  end.
(** The request that [send_to_push_relay] makes when the filter of outgoing
    requests lets it through: nothing, or the header and the
    notification. *)
Definition send_to_push_relay `{Env} (instant received : Z) (reply : TokenReply) (notification : Json)
    : M LocalAuthPushToken.t (option (string * Json)) :=
  if negb push_enabled then mret None else
  r ← answer (get_auth_api_token instant received reply);
  match r with
  | Ok token => mret (Some ("Bearer " +:+ token, notification))
  | Err _ => mret None
  end.

(** ** Frames are read back *)

(** The reader of BinaryMessageFormat: a size, then that many bytes. *)
Fixpoint read_size (l : list Z) : option (Z * list Z) :=
  match l with
  | [] => None
  | b :: l => if b <? 128 then Some (b, l) else '(n, r) ← read_size l; Some (b - 128 + 128 * n, r)
  end.
Fixpoint read_frames (fuel : nat) (l : list Z) : option (list (list Z)) :=
  match fuel, l with
  | _, [] => Some []
  | O, _ => None
  | S fuel, _ =>
      '(n, r) ← read_size l;
      if Z.of_nat (length r) <? n then None else
      fs ← read_frames fuel (drop (Z.to_nat n) r); Some (take (Z.to_nat n) r :: fs)
  end.
(** The 64-bit timestamp of MessagePack: thirty bits of nanoseconds and
    thirty-four of seconds. *)
Definition from_be_bytes (l : list Z) : Z := foldl (λ acc b, acc * 256 + b) 0 l.
Definition read_timestamp (v : Packed) : option (Z * Z) :=
  match v with
  | PExt tag l => if (tag =? -1) && (length l =? 8)%nat then let v := from_be_bytes l in Some (v mod 2 ^ 34, v / 2 ^ 34) else None
  | _ => None
  end.

Lemma lor_128 p : 0 ≤ p < 128 → Z.lor p 0x80 = p + 128.
Proof.
  intros Hp. assert (Hall : Forall (λ p, Z.lor p 0x80 = p + 128) (seqZ 0 128)) by (apply (bool_decide_unpack _); vm_compute; exact I).
  rewrite Forall_forall in Hall. apply Hall, elem_of_seqZ. lia.
Qed.
Lemma size_read fuel n r : 0 ≤ n < 128 ^ Z.of_nat fuel → (0 < fuel)%nat → read_size (size_bytes fuel n ++ r) = Some (n, r).
Proof.
  revert n. induction fuel as [|fuel IH]; intros n Hn Hf; [lia|]. cbn [size_bytes].
  replace 0x7f with (Z.ones 7) by done. rewrite Z.land_ones, Z.shiftr_div_pow2 by lia. change (2 ^ 7) with 128.
  pose proof (Z.mod_pos_bound n 128 ltac:(lia)) as Hmod. pose proof (Z.div_mod n 128 ltac:(lia)) as Hdiv.
  destruct (Z.ltb_spec 0 (n / 128)) as [Hpos|Hzero].
  - rewrite lor_128 by done. rewrite (proj2 (Z.eqb_neq _ _)) by lia. cbn [app read_size]. rewrite (proj2 (Z.ltb_ge _ _)) by lia.
    assert (Hlt : n / 128 < 128 ^ Z.of_nat fuel).
    { apply Z.div_lt_upper_bound; [lia|]. rewrite Nat2Z.inj_succ, Z.pow_succ_r in Hn by lia. lia. }
    destruct fuel as [|fuel]; [simpl in Hlt; lia|]. rewrite IH by lia. simpl. do 2 f_equal. lia.
  - assert (n / 128 = 0) as Hz by (pose proof (Z.div_pos n 128); lia). rewrite Hz. simpl. rewrite (proj2 (Z.ltb_lt _ _)) by lia. do 2 f_equal. lia.
Qed.

Section read_back.
Context `{N : NotifyConfig}.

(** Messages are read back. A client that receives messages one after the
    other cuts the stream into the same messages, whatever they are, as long as
    each is shorter than 2^64 bytes. *)
Theorem frames_read_back (vals : list Packed) :
  Forall (λ v, Z.of_nat (length (write_value v)) < 2 ^ 64) vals →
  read_frames (length vals) (mjoin (serialize <$> vals)) = Some (write_value <$> vals).
Proof.
  induction vals as [|v vals IH]; intros Hlen; [done|]. inversion_clear Hlen as [|? ? Hv Hvals].
  change (mjoin (serialize <$> v :: vals)) with (serialize v ++ mjoin (serialize <$> vals)). set (rest := mjoin (serialize <$> vals)) in *.
  unfold serialize. rewrite <-app_assoc. cbn [length read_frames].
  destruct (size_bytes 10 _ ++ _) as [|b l] eqn:Hl; [done|]. rewrite <-Hl, size_read by lia. cbn [mbind option_bind].
  rewrite length_app, (proj2 (Z.ltb_ge _ _)) by lia. rewrite Nat2Z.id, drop_app_length, take_app_length. by rewrite IH.
Qed.
End read_back.

Lemma be_bytes_read n : 0 ≤ n < 2 ^ 64 → from_be_bytes (to_be_bytes n) = n.
Proof.
  intros Hn. unfold to_be_bytes, from_be_bytes. rewrite Z.mod_small by done. cbn [fmap list_fmap foldl].
  replace 0xff with (Z.ones 8) by done. rewrite !Z.land_ones, !Z.shiftr_div_pow2 by lia.
  change (2 ^ (8 * 7)) with (2 ^ 56). change (2 ^ (8 * 6)) with (2 ^ 48). change (2 ^ (8 * 5)) with (2 ^ 40). change (2 ^ (8 * 4)) with (2 ^ 32).
  change (2 ^ (8 * 3)) with (2 ^ 24). change (2 ^ (8 * 2)) with (2 ^ 16). change (2 ^ (8 * 1)) with (2 ^ 8). change (2 ^ (8 * 0)) with 1.
  Z.to_euclidean_division_equations. lia.
Qed.

(** Dates from 1970 to 2514 are read back to the nanosecond. *)
Theorem date_read_back (date : Z) : 0 ≤ date < 2 ^ 34 * 1000000 →
  read_timestamp (serialize_date date) = Some (date / 1000000, date mod 1000000 * 1000).
Proof.
  intros Hd. unfold serialize_date, read_timestamp. cbv zeta.
  match goal with |- context [if ?c then _ else _] => change c with true end. cbv iota.
  set (s := date / 1000000). set (n := date mod 1000000 * 1000).
  assert (Hs : 0 ≤ s < 2 ^ 34) by (subst s; Z.to_euclidean_division_equations; lia).
  assert (Hn : 0 ≤ n < 2 ^ 30) by (subst n; Z.to_euclidean_division_equations; lia).
  assert (Hlor : Z.lor (Z.shiftl n 34) s = n * 2 ^ 34 + s).
  { assert (Z.land (Z.shiftl n 34) s = 0) as Hland.
    { rewrite <-(Z.mod_small s (2 ^ 34)), <-(Z.land_ones s), (Z.land_comm s), Z.land_assoc, (Z.land_ones (Z.shiftl n 34)) by lia.
      by rewrite Z.shiftl_mul_pow2, Z.mod_mul, Z.land_0_l by lia. }
    pose proof (Z.add_lor_land (Z.shiftl n 34) s) as Hsum. rewrite <-Z.shiftl_mul_pow2 by lia. lia. }
  rewrite Hlor, be_bytes_read by lia. do 2 f_equal.
  - rewrite Z.add_comm, Z.mod_add by lia. by apply Z.mod_small.
  - rewrite Z.div_add_l by lia. rewrite (Z.div_small s) by done. lia.
Qed.

(** ** Histories of the hub *)

Inductive HubStep :=
| Connect (access_token header_token : option string) (ip entry : string)
| Disconnect (entry : string)
| Deliver (user_ids : list string) (data : list Z) (pushed : list Json)
| AnonymousConnect (token ip entry : string)
| AnonymousDisconnect (entry : string)
| AnonymousResponse (user_id auth_request_id : string)
(** A delivery goes on; the loop of a connection takes a message out. *)
| Resume (n : nat)
| Receive (entry : string).

Section hub_histories.
Context `{E : Env} `{N : NotifyConfig} `{L : LoginTokens}.

Definition hub_step (s : HubStep) : M Hub () :=
  match s with
  | Connect access_token header_token ip entry => websockets_hub access_token header_token ip entry ;; mret ()
  | Disconnect entry =>
      o ← gets (λ h, List.find (λ g, WSEntryMapGuard.entry_uuid g == entry) (guards h));
      match o with Some g => WSEntryMapGuard_drop g | None => mret () end
  | Deliver user_ids data pushed => deliver user_ids data pushed
  | AnonymousConnect token ip entry => anonymous_websockets_hub token ip entry ;; mret ()
  | AnonymousDisconnect entry =>
      o ← gets (λ h, List.find (λ g, WSAnonymousEntryMapGuard.entry_uuid g == entry) (anonymous_guards h));
      match o with Some g => WSAnonymousEntryMapGuard_drop g | None => mret () end
  | AnonymousResponse user_id auth_request_id => anonymous_send_auth_response user_id auth_request_id
  | Resume n => resume n
  | Receive entry => recv entry
  end.
Definition hub_steps (l : list HubStep) (h : Hub) : Hub := foldl (λ h s, (hub_step s h).2) h l.

(** The topic of a connection that is opened. *)
Definition opened (s : HubStep) : option (Topic * string) :=
  match s with
  | Connect access_token header_token _ entry =>
      token ← (match access_token with Some t => Some t | None => header_token end);
      match decode_login token with Ok claims => Some (Account (LoginJwtClaims.sub claims), entry) | Err _ => None end
  | AnonymousConnect token _ entry => Some (Pending token, entry)
  | _ => None
  end.
(** The step draws the entry, or closes its connection. *)
Definition touches (e : string) (s : HubStep) : bool :=
  match s with
  | Connect _ _ _ entry | AnonymousConnect _ _ entry | Disconnect entry | AnonymousDisconnect entry => entry == e
  | _ => false
  end.
(** What a topic is sent by a step. *)
Definition sent_by (t : Topic) (s : HubStep) : list (list Z) :=
  match t, s with
  | Account u, Deliver user_ids data _ => if enable_websocket then (λ _, data) <$> where_ (λ v, v == u) user_ids else []
  | Pending a, AnonymousResponse user_id auth_request_id =>
      if enable_websocket && (auth_request_id == a)
      then [create_anonymous_update [("Id", PStr auth_request_id); ("UserId", PStr user_id)]%string AuthRequestResponse user_id] else []
  | _, _ => []
  end.

(** What a delivery under way has still to send into the channel of the entry,
    that is subscribed to [t]. *)
Definition due (e : string) (t : Topic) (d : Delivery.t) : list (list Z) :=
  ((λ _, Delivery.data d) <$> where_ (λ x, x == e) (Delivery.senders d))
  ++ ((λ _, Delivery.data d) <$> where_ (λ x, x == t) (Delivery.topics d)).

(** The entry is subscribed once, to its topic only. These are the messages it
    has been given, those that wait in its channel and those it will be sent. *)
Record Listens (e : string) (t : Topic) (ms : list (list Z)) (h : Hub) : Prop := {
  listens_only : ∀ t', e ∈ subscribers h t' → t' = t;
  listens_once : where_ (λ x, x == e) (subscribers h t) = [e];
  listens_channel : ∃ got waiting, received h !! e = Some got ∧ channels h !! e = Some waiting ∧ (length waiting ≤ CHANNEL_CAPACITY)%nat
    ∧ got ++ waiting ++ mjoin (due e t <$> tasks h) ≡ₚ ms
}.

Lemma where_other (e e' : string) (l : list string) : e ≠ e' → where_ (λ x, x == e) (where_ (λ x, negb (x == e')) l) = where_ (λ x, x == e) l.
Proof.
  intros Hne. rewrite where_where. apply where_ext. intros x _. destruct (bool_decide_reflect (x = e)) as [->|]; [|by rewrite andb_false_r].
  by rewrite (bool_decide_false (e = e')).
Qed.
Lemma subscribed_other k e' m k' e : e ≠ e' →
  where_ (λ x, x == e) (default [] (subscribe k e' m !! k')) = where_ (λ x, x == e) (default [] (m !! k')).
Proof.
  intros Hne. unfold subscribe. destruct (decide (k = k')) as [->|Hk]; [|by rewrite lookup_insert_ne].
  rewrite lookup_insert_eq. simpl. unfold where_. rewrite List.filter_app. simpl. rewrite bool_decide_false by done. apply app_nil_r.
Qed.
Lemma unsubscribed_other k e' m k' e : e ≠ e' →
  where_ (λ x, x == e) (default [] (unsubscribe k e' m !! k')) = where_ (λ x, x == e) (default [] (m !! k')).
Proof.
  intros Hne. unfold unsubscribe. destruct (decide (k = k')) as [->|Hk]; [|by rewrite lookup_alter_ne].
  rewrite lookup_alter_eq. destruct (m !! k') as [l|]; simpl; [|done]. by apply where_other.
Qed.
Lemma where_nonempty (e : string) (l : list string) : e ∈ l ↔ where_ (λ x, x == e) l ≠ [].
Proof.
  split.
  - intros Hin Hnil. assert (e ∈ where_ (λ x, x == e) l) as Hx by (apply elem_of_where; by rewrite bool_decide_true). rewrite Hnil in Hx. by apply elem_of_nil in Hx.
  - intros Hne. destruct (where_ (λ x, x == e) l) as [|x r] eqn:Hw; [done|].
    assert (x ∈ where_ (λ x, x == e) l) as [Hin Hx]%elem_of_where by (rewrite Hw; left). apply bool_decide_eq_true in Hx as ->. done.
Qed.
Lemma emptied_default (m : gmap string (list string)) k k' :
  default [] ((match m !! k with Some [] => delete k m | _ => m end) !! k') = default [] (m !! k').
Proof.
  destruct (m !! k) as [[|x l]|] eqn:Hk; [|done..]. destruct (decide (k = k')) as [<-|Hne]; [by rewrite lookup_delete_eq, Hk|by rewrite lookup_delete_ne].
Qed.
Lemma find_entry {A} (f : A → string) l e g : List.find (λ g, f g == e) l = Some g → f g = e.
Proof. intros [_ He]%List.find_some. by apply bool_decide_eq_true in He. Qed.
(** The subscriptions of an entry decide what a topic sends to it. *)
Lemma listens_same e t ms h h' :
  Listens e t ms h → (∀ t', where_ (λ x, x == e) (subscribers h' t') = where_ (λ x, x == e) (subscribers h t')) →
  received h' !! e = received h !! e → channels h' !! e = channels h !! e → tasks h' = tasks h → Listens e t ms h'.
Proof.
  intros [Ho H1 Hc] Hs Hr Hch Ht. split; [|by rewrite Hs|by rewrite Hr, Hch, Ht].
  intros t' Hin. apply Ho. apply where_nonempty. rewrite <-Hs. by apply where_nonempty.
Qed.
Lemma listens_due e t ms h t' : Listens e t ms h → length (where_ (λ x, x == e) (subscribers h t')) = if t' == t then 1%nat else 0%nat.
Proof.
  intros [Ho H1 _]. case_bool_decide as Heq; [by rewrite Heq, H1|].
  destruct (where_ (λ x, x == e) (subscribers h t')) as [|x r] eqn:Hw; [done|]. destruct Heq. apply Ho, where_nonempty. by rewrite Hw.
Qed.

(** One of several deliveries changes. *)
Lemma task_total {A} (f : Delivery.t → list A) l n d :
  l !! n = Some d → mjoin (f <$> l) ≡ₚ f d ++ mjoin (f <$> base.delete n l).
Proof.
  revert n. induction l as [|x l IH]; intros [|n] Hn; simplify_eq/=; [done|]. rewrite (IH n Hn). by rewrite !app_assoc, (Permutation_app_comm (f x)).
Qed.
Lemma task_changed {A} (f : Delivery.t → list A) l n d d' :
  l !! n = Some d → mjoin (f <$> <[n := d']> l) ≡ₚ f d' ++ mjoin (f <$> base.delete n l).
Proof.
  revert n. induction l as [|x l IH]; intros [|n] Hn; simplify_eq/=; [done|]. rewrite (IH n Hn). by rewrite !app_assoc, (Permutation_app_comm (f x)).
Qed.

Lemma started_listens e t ms topics data pushed h :
  Listens e t ms h → Listens e t (ms ++ ((λ _, data) <$> where_ (λ x, x == t) topics)) (start topics data pushed h).2.
Proof.
  intros [Ho H1 (got & waiting & Hr & Hc & Hlen & Hp)]. split; [done|done|]. exists got, waiting. split_and!; [done..|].
  simpl. rewrite fmap_app. rewrite join_app. simpl. unfold due at 2. simpl. rewrite app_nil_r.
  by rewrite (app_assoc waiting), (app_assoc got), <-Hp.
Qed.

(** A delivery that goes on sends what was due. *)
Lemma resumed_listens e t ms n h : Listens e t ms h → Listens e t ms (resume n h).2.
Proof.
  intros Hl. pose proof (λ t', listens_due e t ms h t' Hl) as Hd. pose proof Hl as [Ho H1 (got & waiting & Hr & Hc & Hlen & Hp)].
  unfold resume, modify. simpl.
  destruct (tasks h !! n) as [[senders topics data pushed]|] eqn:Hn; [|done].
  pose proof (task_total (due e t) _ _ _ Hn) as Htot. rewrite Htot in Hp.
  destruct senders as [|x senders]; [destruct topics as [|t' topics]|].
  - split; [done|done|]. exists got, waiting. split_and!; done.
  - split; [done|done|]. exists got, waiting. split_and!; try done. simpl. rewrite (task_changed _ _ _ _ _ Hn), <-Hp. f_equiv. f_equiv. f_equiv.
    unfold due. simpl. specialize (Hd t').
    destruct (where_ (λ x, x == e) (subscribers h t')) as [|y [|]]; case_bool_decide; simplify_eq/=; done.
  - unfold send. destruct (channels h !! x) as [q|] eqn:Hq.
    + destruct (Nat.ltb_spec (length q) CHANNEL_CAPACITY) as [Hlt|Hge]; [|done]. split; [done|done|]. simpl.
      destruct (decide (x = e)) as [->|Hne].
      * exists got, (waiting ++ [data]). simplify_eq. rewrite lookup_insert_eq. split_and!; [done|done|rewrite length_app; simpl; lia|].
        rewrite (task_changed _ _ _ _ _ Hn), <-Hp. f_equiv. rewrite <-app_assoc. f_equiv.
        unfold due. simpl. by rewrite bool_decide_true.
      * exists got, waiting. rewrite lookup_insert_ne by done. split_and!; try done.
        rewrite (task_changed _ _ _ _ _ Hn), <-Hp. f_equiv. f_equiv. f_equiv. unfold due. simpl. by rewrite bool_decide_false.
    + split; [done|done|]. simpl. exists got, waiting. split_and!; try done.
      rewrite (task_changed _ _ _ _ _ Hn), <-Hp. f_equiv. f_equiv. f_equiv. unfold due. simpl.
      rewrite bool_decide_false by congruence. done.
Qed.
Lemma received_listens e t ms e' h : Listens e t ms h → Listens e t ms (recv e' h).2.
Proof.
  intros Hl. pose proof Hl as [Ho H1 (got & waiting & Hr & Hc & Hlen & Hp)]. unfold recv, modify. simpl.
  destruct (channels h !! e') as [[|m q]|] eqn:Hq; [done| |done]. split; [done|done|]. simpl. destruct (decide (e' = e)) as [->|Hne].
  - simplify_eq. exists (got ++ [m]), q. rewrite lookup_alter_eq, lookup_insert_eq, Hr. split_and!; [done|done|simpl in Hlen; lia|].
    rewrite <-Hp. by rewrite <-app_assoc.
  - exists got, waiting. by rewrite lookup_alter_ne, lookup_insert_ne.
Qed.

Lemma untouched_listens e t ms s h : Listens e t ms h → touches e s = false → Listens e t (ms ++ sent_by t s) (hub_step s h).2.
Proof.
  intros Hl Ht.
  assert (Hnil : ∀ h', Listens e t ms h' → sent_by t s = [] → Listens e t (ms ++ sent_by t s) h') by (intros h' Hh' ->; by rewrite app_nil_r).
  assert (Hsame : ∀ h', (∀ t', where_ (λ x, x == e) (subscribers h' t') = where_ (λ x, x == e) (subscribers h t')) →
    received h' !! e = received h !! e → channels h' !! e = channels h !! e → tasks h' = tasks h → Listens e t ms h')
    by (intros; by eapply listens_same).
  destruct s as [access header ip e'|e'|ids data pushed|token ip e'|e'|u a|n|e']; cbn in Ht; try (apply bool_decide_eq_false in Ht).
  - apply Hnil; [|by destruct t]. cbn. unfold websockets_hub.
    destruct access as [token|]; [|destruct header as [token|]; [|exact Hl]];
      (unfold mbind, M_bind; cbn; destruct (decode_login token) as [claims|]; [|exact Hl];
       apply Hsame; simpl; [|by rewrite lookup_insert_ne..|done]; intros [v|v]; [apply subscribed_other; congruence|done]).
  - apply Hnil; [|by destruct t]. unfold hub_step. rewrite run_gets.
    destruct (List.find _ _) as [g|] eqn:Hf; [|exact Hl]. apply find_entry in Hf.
    apply Hsame; simpl; [|rewrite lookup_delete_ne; congruence..|done]. intros [v|v]; [apply unsubscribed_other; congruence|done].
  - cbn [hub_step]. unfold deliver. set (topics := if enable_websocket then _ else _).
    replace (sent_by t (Deliver ids data pushed)) with ((λ _, data) <$> where_ (λ x, x == t) topics); [by apply started_listens|].
    unfold topics. destruct t as [u|a]; cbn [sent_by]; (destruct enable_websocket; [|done]); clear.
    + induction ids as [|v ids IH]; [done|]. cbn. repeat case_bool_decide; simplify_eq/=; [f_equal; exact IH|exact IH].
    + induction ids as [|v ids IH]; [done|]. cbn. rewrite bool_decide_false by done. exact IH.
  - apply Hnil; [|by destruct t]. cbn. unfold anonymous_websockets_hub, try_reserve, mbind, M_bind.
    cbv zeta. destruct (_ <=? _); simpl; [by apply Hsame; [intros []|..]|].
    apply Hsame; simpl; [|by rewrite lookup_insert_ne..|done]. intros [v|v]; [done|apply subscribed_other; congruence].
  - apply Hnil; [|by destruct t]. unfold hub_step. rewrite run_gets.
    destruct (List.find _ _) as [g|] eqn:Hf; [|exact Hl]. apply find_entry in Hf.
    apply Hsame; simpl; [|rewrite lookup_delete_ne; congruence..|done].
    intros [v|v]; [done|]. simpl. rewrite emptied_default. apply unsubscribed_other; congruence.
  - cbn [hub_step]. unfold anonymous_send_auth_response. destruct enable_websocket eqn:Hen; cbn [negb];
      [|apply Hnil; [done|destruct t; cbn; by rewrite ?Hen]].
    set (data := create_anonymous_update _ _ _). unfold anonymous_send_update.
    replace (sent_by t (AnonymousResponse u a)) with ((λ _, data) <$> where_ (λ x, x == t) [Pending a]); [by apply started_listens|].
    destruct t as [v|b]; cbn [sent_by]; rewrite ?Hen; cbn [andb]; fold data; clearbody data; cbn [where_ List.filter].
    + by rewrite bool_decide_false.
    + destruct (bool_decide_reflect (a = b)) as [->|Hne]; [by rewrite bool_decide_true|rewrite bool_decide_false by congruence; done].
  - apply Hnil; [by apply resumed_listens|by destruct t].
  - apply Hnil; [by apply received_listens|by destruct t].
Qed.
Lemma fresh_subscribed k e m : (∀ k', e ∉ (default [] (m !! k') : list string)) →
  (∀ k', e ∈ (default [] (subscribe k e m !! k') : list string) → k' = k) ∧ where_ (λ x, x == e) (default [] (subscribe k e m !! k)) = [e].
Proof.
  intros Hf. unfold subscribe. split.
  - intros k' Hin. destruct (decide (k = k')) as [->|Hk]; [done|]. rewrite lookup_insert_ne in Hin by done. by apply Hf in Hin.
  - rewrite lookup_insert_eq. simpl. unfold where_. rewrite List.filter_app. simpl. rewrite bool_decide_true by done.
    destruct (List.filter _ _) as [|x r] eqn:Hw; [done|]. destruct (Hf k). apply where_nonempty. unfold where_. by rewrite Hw.
Qed.
Lemma opened_listens s h t e u : (∀ t', e ∉ subscribers h t') → opened s = Some (t, e) → (hub_step s h).1 = Ok u →
  Listens e t (mjoin (due e t <$> tasks h)) (hub_step s h).2.
Proof.
  intros Hf Ho Hok. pose proof (λ k, Hf (Account k)) as Hu. pose proof (λ k, Hf (Pending k)) as Ha.
  destruct s as [access header ip e'| | |token ip e'| | | |]; try done; cbn in *.
  - unfold websockets_hub, mbind, M_bind in *. destruct access as [token|], header as [token'|]; simplify_eq/=;
      (destruct (decode_login _) as [claims|]; simplify_eq/=; destruct (fresh_subscribed (LoginJwtClaims.sub claims) e (ws_users h) Hu) as [H1 H2];
       split; simpl; [intros [v|v] Hin; [f_equal; by apply H1|by apply Ha in Hin]|done|exists [], []; rewrite !lookup_insert_eq; split_and!; [done..|simpl; lia|done]]).
  - simplify_eq/=. unfold anonymous_websockets_hub, try_reserve, mbind, M_bind in *. cbv zeta in *. destruct (_ <=? _); simplify_eq/=.
    destruct (fresh_subscribed token e (anonymous h) Ha) as [H1 H2].
    split; simpl; [intros [v|v] Hin; [by apply Hu in Hin|f_equal; by apply H1]|done|exists [], []; rewrite !lookup_insert_eq; split_and!; [done..|simpl; lia|done]].
Qed.
Lemma steps_listens e t l ms h : Listens e t ms h → Forall (λ s, touches e s = false) l → Listens e t (ms ++ mjoin (sent_by t <$> l)) (hub_steps l h).
Proof.
  revert ms h. induction l as [|s l IH]; intros ms h Hl Ht; [by rewrite app_nil_r|]. inversion_clear Ht as [|? ? Hs Hl'].
  specialize (IH _ _ (untouched_listens _ _ _ _ _ Hl Hs) Hl'). cbn. by rewrite app_assoc.
Qed.

(** A delivery goes on unless it comes to an open channel that is full. *)
Lemma resume_waits n h d : tasks h !! n = Some d → tasks (resume n h).2 = tasks h →
  ∃ sender senders waiting, Delivery.senders d = sender :: senders ∧ channels h !! sender = Some waiting ∧ (CHANNEL_CAPACITY ≤ length waiting)%nat.
Proof.
  assert (Hlen : ∀ (x : Delivery.t) (l : list Delivery.t) (n : nat), l !! n = Some x → base.delete n l ≠ l).
  { intros x l k Hk Heq. apply (f_equal length) in Heq. pose proof (length_delete l k ltac:(eauto)). apply lookup_lt_Some in Hk. lia. }
  assert (Hins : ∀ (x y : Delivery.t) (l : list Delivery.t) (n : nat), l !! n = Some x → <[n := y]> l = l → y = x).
  { intros x y l k Hk Heq. pose proof (lookup_lt_Some _ _ _ Hk). rewrite <-Heq, list_lookup_insert_eq in Hk by done. congruence. }
  intros Hn. unfold resume, modify. simpl. rewrite Hn. destruct d as [[|x senders] [|t topics] data pushed]; simpl.
  - intros Heq. by destruct (Hlen _ _ _ Hn).
  - intros Heq%(Hins _ _ _ _ Hn). injection Heq as _ Heq. apply (f_equal length) in Heq. simpl in Heq. lia.
  - unfold send. destruct (channels h !! x) as [q|] eqn:Hq.
    + destruct (Nat.ltb_spec (length q) CHANNEL_CAPACITY) as [Hlt|Hge]; [|intros _; eauto 10].
      intros Heq%(Hins _ _ _ _ Hn). injection Heq as Heq. apply (f_equal length) in Heq. simpl in Heq. lia.
    + intros Heq%(Hins _ _ _ _ Hn). injection Heq as Heq. apply (f_equal length) in Heq. simpl in Heq. lia.
  - unfold send. destruct (channels h !! x) as [q|] eqn:Hq.
    + destruct (Nat.ltb_spec (length q) CHANNEL_CAPACITY) as [Hlt|Hge]; [|intros _; eauto 10].
      intros Heq%(Hins _ _ _ _ Hn). injection Heq as Heq. apply (f_equal length) in Heq. simpl in Heq. lia.
    + intros Heq%(Hins _ _ _ _ Hn). injection Heq as Heq. apply (f_equal length) in Heq. simpl in Heq. lia.
Qed.

(** C37. A connection gets the updates of its topic, each once and nothing else.
    Once a client has connected, for the account of its token or for a pending
    login request, and until the connection is closed, whatever other clients
    do and however the deliveries of different requests interleave: the
    messages it was handed, those that wait in its channel (a hundred at most)
    and those that the deliveries under way have still to send to it are
    together exactly what was sent to its account, or as the answer to its
    request, since it connected, and what deliveries had still to send to the
    topic when it connected. The order of messages of different requests is
    open. A delivery goes on unless the next client on its way is connected and
    has a hundred messages unread. *)
Theorem connections_get_their_updates (s : HubStep) (h : Hub) (t : Topic) (e : string) (l : list HubStep) :
  (∀ t', e ∉ subscribers h t') → opened s = Some (t, e) → (hub_step s h).1 = Ok () → Forall (λ x, touches e x = false) l →
  let h' := hub_steps l (hub_step s h).2 in
  (∃ got waiting, received h' !! e = Some got ∧ channels h' !! e = Some waiting ∧ (length waiting ≤ CHANNEL_CAPACITY)%nat
     ∧ got ++ waiting ++ mjoin (due e t <$> tasks h') ≡ₚ mjoin (due e t <$> tasks h) ++ mjoin (sent_by t <$> l))
  ∧ ∀ n d, tasks h' !! n = Some d → tasks (resume n h').2 = tasks h' →
      ∃ sender senders waiting, Delivery.senders d = sender :: senders ∧ channels h' !! sender = Some waiting
        ∧ (CHANNEL_CAPACITY ≤ length waiting)%nat.
Proof.
  intros Hf Ho Hok Ht h'. split; [|by intros n d; apply resume_waits].
  exact (listens_channel _ _ _ _ (steps_listens e t l _ _ (opened_listens s h t e () Hf Ho Hok) Ht)).
Qed.

(** A delivery that has come to a full channel is not moved by other steps. *)
Lemma step_stalls x senders topics data pushed waiting s h :
  channels h !! x = Some waiting → (CHANNEL_CAPACITY ≤ length waiting)%nat → touches x s = false → s ≠ Receive x →
  Delivery.mk (x :: senders) topics data pushed ∈ tasks h →
  channels (hub_step s h).2 !! x = Some waiting ∧ Delivery.mk (x :: senders) topics data pushed ∈ tasks (hub_step s h).2.
Proof.
  intros Hx Hfull Ht Hnr Hin. destruct s as [access header ip e'|e'|ids dt ps|token ip e'|e'|u a|n|e']; cbn in Ht; try (apply bool_decide_eq_false in Ht).
  - cbn. unfold websockets_hub. destruct access as [token|]; [|destruct header as [token|]; [|done]];
      (unfold mbind, M_bind; cbn; destruct (decode_login token) as [claims|]; [|done]; simpl; by rewrite lookup_insert_ne).
  - unfold hub_step. rewrite run_gets. destruct (List.find _ _) as [g|] eqn:Hf; [|done]. apply find_entry in Hf.
    simpl. rewrite lookup_delete_ne; [done|congruence].
  - split; [done|]. simpl. apply elem_of_app. by left.
  - cbn. unfold anonymous_websockets_hub, try_reserve, mbind, M_bind. cbv zeta. destruct (_ <=? _); simpl; [done|]. by rewrite lookup_insert_ne.
  - unfold hub_step. rewrite run_gets. destruct (List.find _ _) as [g|] eqn:Hf; [|done]. apply find_entry in Hf.
    simpl. rewrite lookup_delete_ne; [done|congruence].
  - cbn [hub_step]. unfold anonymous_send_auth_response. destruct (negb _); [done|]. split; [done|]. simpl. apply elem_of_app. by left.
  - cbn [hub_step]. unfold resume, modify. simpl.
    assert (Hkeep : ∀ d d', tasks h !! n = Some d → d ≠ Delivery.mk (x :: senders) topics data pushed →
      Delivery.mk (x :: senders) topics data pushed ∈ <[n := d']> (tasks h) ∧ Delivery.mk (x :: senders) topics data pushed ∈ base.delete n (tasks h)).
    { intros d d' Hn Hne. apply list_elem_of_lookup in Hin as [k Hk]. assert (k ≠ n) by congruence. split.
      - apply list_elem_of_lookup. exists k. by rewrite list_lookup_insert_ne.
      - apply list_elem_of_lookup. destruct (decide (k < n)%nat).
        + exists k. by rewrite list_lookup_delete_lt.
        + exists (pred k). rewrite list_lookup_delete_ge by lia. by replace (S (pred k)) with k by lia. }
    destruct (tasks h !! n) as [[[|y ys] [|t0 ts] dt ps]|] eqn:Hn; [| | | |done].
    + simpl. split; [done|]. by eapply Hkeep.
    + simpl. split; [done|]. by eapply Hkeep.
    + unfold send. destruct (channels h !! y) as [q|] eqn:Hq.
      * destruct (Nat.ltb_spec (length q) CHANNEL_CAPACITY) as [Hlt|Hge]; [|done]. simpl.
        assert (y ≠ x) by (intros ->; simplify_eq; lia). rewrite lookup_insert_ne by done. split; [done|]. eapply Hkeep; [done|congruence].
      * simpl. split; [done|]. eapply Hkeep; [done|]. congruence.
    + unfold send. destruct (channels h !! y) as [q|] eqn:Hq.
      * destruct (Nat.ltb_spec (length q) CHANNEL_CAPACITY) as [Hlt|Hge]; [|done]. simpl.
        assert (y ≠ x) by (intros ->; simplify_eq; lia). rewrite lookup_insert_ne by done. split; [done|]. eapply Hkeep; [done|congruence].
      * simpl. split; [done|]. eapply Hkeep; [done|]. congruence.
  - cbn [hub_step]. unfold recv, modify. simpl. destruct (channels h !! e') as [[|m q]|]; [done| |done]. simpl.
    rewrite lookup_insert_ne; [done|]. congruence.
Qed.
(** A client that does not read stalls the delivery that has come to it: as
    long as it neither takes a message out nor goes, the delivery stays where it
    is, and with it everything that it has still to send. *)
Theorem unread_client_stalls_delivery (x : string) senders topics data pushed waiting (l : list HubStep) (h : Hub) :
  channels h !! x = Some waiting → (CHANNEL_CAPACITY ≤ length waiting)%nat → Forall (λ s, touches x s = false ∧ s ≠ Receive x) l →
  Delivery.mk (x :: senders) topics data pushed ∈ tasks h → Delivery.mk (x :: senders) topics data pushed ∈ tasks (hub_steps l h).
Proof.
  intros Hx Hfull Hl. revert h Hx. induction Hl as [|s l [Hs Hr] _ IH]; intros h Hx Hin; [done|]. simpl.
  destruct (step_stalls x senders topics data pushed waiting s h Hx Hfull Hs Hr Hin). by apply IH.
Qed.

(** The open connections without an account of an address. *)
Definition open_from (ip : string) (h : Hub) : Z := Z.of_nat (length (where_ (λ g, WSAnonymousEntryMapGuard.addr g == ip) (anonymous_guards h))).
Definition drawn_entry (s : HubStep) : option string := match s with AnonymousConnect _ _ entry => Some entry | _ => None end.

Record SlotsOk (drawn : list string) (h : Hub) : Prop := {
  slots_distinct : NoDup (WSAnonymousEntryMapGuard.entry_uuid <$> anonymous_guards h);
  slots_drawn : WSAnonymousEntryMapGuard.entry_uuid <$> anonymous_guards h ⊆ drawn;
  slots_counted : ∀ ip, connections h !! ip = if open_from ip h =? 0 then None else Some (open_from ip h);
  slots_bounded : ∀ ip, open_from ip h ≤ MAX_ANONYMOUS_CONNECTIONS_PER_IP
}.

Lemma slots_same drawn h h' : anonymous_guards h' = anonymous_guards h → connections h' = connections h → SlotsOk drawn h → SlotsOk drawn h'.
Proof. intros Hg Hc [H1 H2 H3 H4]. split; unfold open_from in *; rewrite ?Hg, ?Hc; auto. Qed.
Lemma where_sublist {A} (p : A → bool) l : where_ p l `sublist_of` l.
Proof. induction l as [|x l IH]; [done|]. cbn. destruct (p x); [by apply sublist_skip|by apply sublist_cons]. Qed.
(** Closing one connection of distinct ones. *)
Lemma removed_count ip g (gs : list WSAnonymousEntryMapGuard.t) :
  NoDup (WSAnonymousEntryMapGuard.entry_uuid <$> gs) → g ∈ gs →
  Z.of_nat (length (where_ (λ x, WSAnonymousEntryMapGuard.addr x == ip)
    (where_ (λ x, negb (WSAnonymousEntryMapGuard.entry_uuid x == WSAnonymousEntryMapGuard.entry_uuid g)) gs))) =
  Z.of_nat (length (where_ (λ x, WSAnonymousEntryMapGuard.addr x == ip) gs)) - if WSAnonymousEntryMapGuard.addr g == ip then 1 else 0.
Proof.
  induction gs as [|x gs IH]; intros Hnd Hg; [by apply elem_of_nil in Hg|]. cbn in Hnd. apply NoDup_cons in Hnd as [Hx Hnd].
  cbn [where_ List.filter]. apply elem_of_cons in Hg as [->|Hg].
  - rewrite (bool_decide_true (_ = _)) by done. cbn [negb].
    assert (List.filter (λ y, negb (WSAnonymousEntryMapGuard.entry_uuid y == WSAnonymousEntryMapGuard.entry_uuid x)) gs = gs) as ->.
    { apply where_all. intros y Hy. rewrite bool_decide_false; [done|]. intros He. destruct Hx. rewrite <-He. by apply list_elem_of_fmap_2. }
    case_bool_decide; cbn [length]; lia.
  - rewrite (bool_decide_false (_ = _)) by (intros He; destruct Hx; rewrite He; by apply list_elem_of_fmap_2). cbn [negb List.filter].
    specialize (IH Hnd Hg). unfold where_ in IH. destruct (WSAnonymousEntryMapGuard.addr x == ip); cbn [length]; lia.
Qed.
Lemma connected_slots drawn token ip e h : SlotsOk drawn h → e ∉ drawn → SlotsOk (drawn ++ [e]) (anonymous_websockets_hub token ip e h).2.
Proof.
  intros [Hd Hsub Hc Hb] He. unfold anonymous_websockets_hub, try_reserve, mbind, M_bind. cbv zeta.
  assert (Hcount : default 0 (connections h !! ip) = open_from ip h) by (rewrite Hc; destruct (Z.eqb_spec (open_from ip h) 0); simpl; lia).
  assert (Hpos : 0 ≤ open_from ip h) by (unfold open_from; lia).
  rewrite Hcount. destruct (Z.leb_spec MAX_ANONYMOUS_CONNECTIONS_PER_IP (open_from ip h)) as [Hfull|Hroom]; simpl.
  - split; simpl; [done|set_solver| |done]. intros ip'. change (open_from ip' _) with (open_from ip' h).
    destruct (decide (ip = ip')) as [<-|Hne]; [|by rewrite lookup_insert_ne].
    rewrite lookup_insert_eq, (proj2 (Z.eqb_neq _ _)) by (unfold MAX_ANONYMOUS_CONNECTIONS_PER_IP in *; lia). done.
  - assert (Hopen : ∀ ip' h', anonymous_guards h' = WSAnonymousEntryMapGuard.mk token e ip :: anonymous_guards h →
      open_from ip' h' = (if ip == ip' then 1 else 0) + open_from ip' h).
    { intros ip' h' Hg. unfold open_from. rewrite Hg. cbn [where_ List.filter WSAnonymousEntryMapGuard.addr]. case_bool_decide; cbn [length]; unfold where_; lia. }
    split; simpl.
    + apply NoDup_cons. split; [|done]. intros Hin. by apply He, Hsub.
    + set_solver.
    + intros ip'. match goal with |- context [open_from ip' ?h'] => rewrite (Hopen ip' h' eq_refl) end. destruct (bool_decide_reflect (ip = ip')) as [<-|Hne].
      * rewrite lookup_insert_eq, (proj2 (Z.eqb_neq _ _)) by lia. f_equal. lia.
      * rewrite lookup_insert_ne by done. apply Hc.
    + intros ip'. match goal with |- context [open_from ip' ?h'] => rewrite (Hopen ip' h' eq_refl) end. destruct (bool_decide_reflect (ip = ip')) as [<-|Hne]; [lia|apply Hb].
Qed.
Lemma dropped_slots drawn g h : SlotsOk drawn h → g ∈ anonymous_guards h → SlotsOk drawn (WSAnonymousEntryMapGuard_drop g h).2.
Proof.
  intros [Hd Hsub Hc Hb] Hg. unfold WSAnonymousEntryMapGuard_drop, release, mbind, M_bind. simpl.
  pose proof (λ ip, removed_count ip g _ Hd Hg) as Hopen. set (ip := WSAnonymousEntryMapGuard.addr g) in *.
  assert (Hpos : 0 < open_from ip h).
  { unfold open_from. assert (g ∈ where_ (λ x, WSAnonymousEntryMapGuard.addr x == ip) (anonymous_guards h)) as Hin.
    { apply elem_of_where. split; [done|]. by apply bool_decide_true. }
    destruct (where_ (λ x, WSAnonymousEntryMapGuard.addr x == ip) _); [by apply elem_of_nil in Hin|]. simpl. lia. }
  assert (Hsl : WSAnonymousEntryMapGuard.entry_uuid <$> where_ (λ x, negb (WSAnonymousEntryMapGuard.entry_uuid x == WSAnonymousEntryMapGuard.entry_uuid g)) (anonymous_guards h)
    `sublist_of` (WSAnonymousEntryMapGuard.entry_uuid <$> anonymous_guards h)) by (apply fmap_sublist, where_sublist).
  split; simpl.
  - by eapply sublist_NoDup.
  - intros x Hx. apply Hsub. by eapply elem_of_sublist.
  - intros ip'. unfold open_from. simpl. rewrite Hopen. fold (open_from ip' h). rewrite (Hc ip), (proj2 (Z.eqb_neq _ _)) by lia.
    destruct (bool_decide_reflect (ip = ip')) as [<-|Hne].
    + rewrite Z.max_r by lia. destruct (_ =? 0); [by rewrite lookup_delete_eq|by rewrite lookup_insert_eq].
    + rewrite Z.sub_0_r. destruct (Z.max _ _ =? 0); [rewrite lookup_delete_ne by done|rewrite lookup_insert_ne by done]; apply Hc.
  - intros ip'. unfold open_from at 1. simpl. rewrite Hopen. specialize (Hb ip'). unfold open_from in Hb. case_bool_decide; lia.
Qed.
Lemma slots_step drawn s h : SlotsOk drawn h → NoDup (drawn ++ option_list (drawn_entry s)) →
  SlotsOk (drawn ++ option_list (drawn_entry s)) (hub_step s h).2.
Proof.
  intros Hs Hnd. destruct s as [access header ip e|e|ids data pushed|token ip e|e|u a|n|e]; cbn [drawn_entry option_list] in *; rewrite ?app_nil_r in *.
  - cbn. unfold websockets_hub. destruct access as [token|]; [|destruct header as [token|]; [|done]];
      (unfold mbind, M_bind; cbn; destruct (decode_login token); [by apply (slots_same drawn h)|done]).
  - unfold hub_step. rewrite run_gets. destruct (List.find _ _); [by apply (slots_same drawn h)|done].
  - by apply (slots_same drawn h).
  - apply NoDup_app in Hnd as (_ & Hn & _). pose proof (connected_slots drawn token ip e h Hs) as Hc. cbn. unfold mbind, M_bind.
    destruct (anonymous_websockets_hub token ip e h) as [[]]; apply Hc; intros Hin; apply (Hn e Hin); by left.
  - unfold hub_step. rewrite run_gets. destruct (List.find _ _) as [g|] eqn:Hf; [|done]. apply dropped_slots; [done|].
    apply List.find_some in Hf as [Hin _]. by apply list_elem_of_In.
  - cbn. unfold anonymous_send_auth_response. destruct (negb _); [done|by apply (slots_same drawn h)].
  - apply (slots_same drawn h); [..|done]; cbn [hub_step]; unfold resume, send, modify; cbn [snd]; repeat case_match; by simplify_eq/=.
  - apply (slots_same drawn h); [..|done]; cbn [hub_step]; unfold recv, modify; cbn [snd]; by repeat case_match.
Qed.
Lemma slots_steps l drawn h : SlotsOk drawn h → NoDup (drawn ++ omap drawn_entry l) → SlotsOk (drawn ++ omap drawn_entry l) (hub_steps l h).
Proof.
  revert drawn h. induction l as [|s l IH]; intros drawn h Hs Hnd; [by rewrite app_nil_r in *|].
  assert (Hl : drawn ++ omap drawn_entry (s :: l) = (drawn ++ option_list (drawn_entry s)) ++ omap drawn_entry l).
  { rewrite <-app_assoc. f_equal. cbn. by destruct (drawn_entry s). }
  rewrite Hl in *. apply IH; [|done]. apply slots_step; [done|]. by apply NoDup_app in Hnd as [? _].
Qed.
Lemma empty_slots : SlotsOk [] empty_hub.
Proof. split; [apply NoDup_nil_2|done|done|done]. Qed.

(** C38. The places for clients without an account. At any time at most twenty-five
    of them are connected from an address; the counter of the address is their
    number, and there is none for an address from which none is connected. A
    further client is turned away exactly when all places of its address are
    taken. *)
Theorem anonymous_places (l : list HubStep) (ip : string) : NoDup (omap drawn_entry l) →
  let h := hub_steps l empty_hub in
  open_from ip h ≤ MAX_ANONYMOUS_CONNECTIONS_PER_IP ∧
  connections h !! ip = (if open_from ip h =? 0 then None else Some (open_from ip h)) ∧
  ∀ token e, (anonymous_websockets_hub token ip e h).1 =
    if open_from ip h =? MAX_ANONYMOUS_CONNECTIONS_PER_IP then Err (MkError 429 "Too many connections")
    else Ok (WSAnonymousEntryMapGuard.mk token e ip).
Proof.
  intros Hnd h. destruct (slots_steps l [] empty_hub empty_slots Hnd) as [_ _ Hc Hb]. fold h in Hc, Hb. split_and!; [apply Hb|apply Hc|].
  intros token e. unfold anonymous_websockets_hub, try_reserve, mbind, M_bind. cbv zeta. rewrite Hc. specialize (Hb ip).
  destruct (Z.eqb_spec (open_from ip h) 0) as [Hz|Hz]; [by rewrite Hz|]. simpl.
  destruct (Z.eqb_spec (open_from ip h) MAX_ANONYMOUS_CONNECTIONS_PER_IP) as [He|He];
    [rewrite (proj2 (Z.leb_le _ _)) by lia; done|rewrite (proj2 (Z.leb_gt _ _)) by lia; done].
Qed.
End hub_histories.

(** ** The token of the relay is fresh *)

(** Questions for the token, with the answers of the identity server. *)
Record TokenCall := mkTokenCall { asked_at : Z; received_at : Z; server_reply : TokenReply }.
Definition token_calls (start : Z) (l : list TokenCall) : LocalAuthPushToken.t :=
  foldl (λ s c, (get_auth_api_token (asked_at c) (received_at c) (server_reply c) s).2) (LocalAuthPushToken.mk "" start) l.

Lemma cached_token start l : token_calls start l = LocalAuthPushToken.mk "" start ∨
  ∃ c t, c ∈ l ∧ server_reply c = TokenReceived t ∧
    token_calls start l = LocalAuthPushToken.mk (AuthPushToken.access_token t) (received_at c + half_expires_in (AuthPushToken.expires_in t) * second).
Proof.
  induction l as [|c l IH] using rev_ind; [by left|].
  assert (token_calls start (l ++ [c]) = token_calls start l ∨ ∃ t, server_reply c = TokenReceived t ∧
    token_calls start (l ++ [c]) = LocalAuthPushToken.mk (AuthPushToken.access_token t) (received_at c + half_expires_in (AuthPushToken.expires_in t) * second))
    as [->|(t & Hr & Hc)].
  { unfold token_calls. rewrite foldl_app. cbn [foldl]. set (s := foldl _ _ l). unfold get_auth_api_token. rewrite run_gets. unfold id.
    destruct (0 <? _); [by left|]. destruct (server_reply c) as [| | |t]; [by left..|]. right. by exists t. }
  - destruct IH as [->|(c' & t & Hin & Hr & ->)]; [by left|]. right. exists c', t. split_and!; [set_solver|done..].
  - right. exists c, t. split_and!; [set_solver|done..].
Qed.

(** The relay is never sent a stale token. Whatever was asked before and
    however the identity server answered, a token that is handed out was received
    for this very question, or for an earlier one, and then a second or more is
    left of the first half of its life. *)
Theorem relay_token_is_fresh (start : Z) (l : list TokenCall) (c : TokenCall) (token : string) :
  start ≤ asked_at c → (get_auth_api_token (asked_at c) (received_at c) (server_reply c) (token_calls start l)).1 = Ok token →
  ∃ c' t, c' ∈ l ++ [c] ∧ server_reply c' = TokenReceived t ∧ token = AuthPushToken.access_token t ∧
    (c' = c ∨ asked_at c + second ≤ received_at c' + Z.max (Z.quot (AuthPushToken.expires_in t) 2) 0 * second).
Proof.
  intros Hstart. unfold get_auth_api_token. rewrite run_gets. unfold id. destruct (Z.ltb_spec 0 (seconds_left (LocalAuthPushToken.valid_until (token_calls start l)) (asked_at c))) as [Hleft|_].
  - intros [= <-]. assert (asked_at c + second ≤ LocalAuthPushToken.valid_until (token_calls start l)) as Hs.
    { unfold seconds_left, second in *. Z.to_euclidean_division_equations. lia. }
    destruct (cached_token start l) as [Hc|(c' & t & Hin & Hr & Hc)]; rewrite Hc in *; simpl in *.
    + unfold second in Hs. lia.
    + exists c', t. split_and!; [set_solver|done..|by right].
  - destruct (server_reply c) as [| | |t] eqn:Hr; try done. intros [= <-]. exists c, t. split_and!; [set_solver|done..|by left].
Qed.

(** ** Examples *)
Module SampleHub.
Definition notify : NotifyConfig := {|
  enable_websocket := true;
  write_value v := match v with PInt n => [n] | PArray l => repeat 7 (130 + length l) | _ => [0xc0] end;
  initial_message s := if (s == "{}")%string then Some ("messagepack"%string, 1) else None
|}.
Definition tokens : LoginTokens := {|
  decode_login s := if s == "ada-jwt" then Ok (LoginJwtClaims.mk 0 2000 "ada" "" "" true "stamp" "phone" "" "web" []) else Err (MkError 401 "Invalid token");
  is_uuid _ := true
|}.
#[export] Existing Instance notify.
#[export] Existing Instance tokens.
(** Ada has two devices; Bob, whose token is refused, has none. The first
    update has reached her phone and waits for the other device, which leaves;
    the last one has just been started. *)
Definition connect_ada : HubStep := Connect (Some "ada-jwt") None "10.0.0.1" "e1".
Definition later : list HubStep :=
  [Connect None (Some "ada-jwt") "10.0.0.2" "e2"; Connect (Some "bob-jwt") None "10.0.0.3" "e3"; Deliver ["bob"; "ada"] [1] [];
   Resume 0; Resume 0; Resume 0; Receive "e1"; Disconnect "e2"; AnonymousConnect "req" "10.0.0.4" "e4"; AnonymousResponse "ada" "req";
   Resume 1; Resume 1; Deliver ["ada"] [2] []; Resume 2; Resume 2; Deliver ["ada"] [3] []].
(** A hundred and one updates for Ada, of whose devices only the second reads. *)
Definition flood : list HubStep :=
  mjoin ((λ n : nat, [Deliver ["ada"] [Z.of_nat n] []; Resume 0; Resume 0; Resume 0; Resume 0; Receive "e2"]) <$> seq 1 101).
(** Twenty-six clients from one address, of whom the last is turned away, and one leaves. *)
Definition crowd : list HubStep :=
  ((λ n, AnonymousConnect "req" "10.0.0.4" (String (Ascii.ascii_of_nat (65 + n)) "")) <$> seq 0 26) ++ [AnonymousDisconnect "C"].
End SampleHub.
Section examples.
Import SampleHub Sample.
#[local] Existing Instance env.

Example hub_example :
  received (hub_steps (connect_ada :: later) empty_hub) !! "e1" = Some [[1]] ∧
  channels (hub_steps (connect_ada :: later) empty_hub) !! "e1" = Some [[2]] ∧
  channels (hub_steps (connect_ada :: later) empty_hub) !! "e4" = Some [135 :: 1 :: repeat 7 135] ∧
  tasks (hub_steps (connect_ada :: later) empty_hub)
    = [Delivery.mk ["e2"] [] [1] []; Delivery.mk [] [] (135 :: 1 :: repeat 7 135) []; Delivery.mk [] [] [2] []; Delivery.mk [] [Account "ada"] [3] []] ∧
  open_from "10.0.0.4" (hub_steps (take 26 crowd) empty_hub) = 25 ∧ connections (hub_steps crowd empty_hub) !! "10.0.0.4" = Some 24.
Proof. vm_compute. auto 10. Qed.
(** The second device, which reads everything, does not get the last update. *)
Example flood_example :
  let h := hub_steps (connect_ada :: take 1 later ++ flood) empty_hub in
  length <$> channels h !! "e1" = Some 100%nat ∧ length <$> received h !! "e2" = Some 100%nat ∧ channels h !! "e2" = Some [] ∧
  tasks h = [Delivery.mk ["e1"; "e2"] [] [101] []].
Proof. vm_compute. auto. Qed.

Lemma frames_read_back_witness : read_frames 2 (mjoin (serialize <$> [PInt 5; PArray [PNil]])) = Some [[5]; repeat 7 131].
Proof. exact (frames_read_back (N := notify) [PInt 5; PArray [PNil]] ltac:(repeat constructor)). Defined.
Lemma connections_get_their_updates_witness : ∃ got waiting,
  received (hub_steps later (hub_step connect_ada empty_hub).2) !! "e1" = Some got ∧
  channels (hub_steps later (hub_step connect_ada empty_hub).2) !! "e1" = Some waiting ∧ (length waiting ≤ 100)%nat ∧
  got ++ waiting ++ mjoin (due "e1" (Account "ada") <$> tasks (hub_steps later (hub_step connect_ada empty_hub).2)) ≡ₚ [[1]; [2]; [3]].
Proof.
  refine (proj1 (connections_get_their_updates connect_ada empty_hub (Account "ada") "e1" later _ _ _ _)).
  - intros [u|a]; apply not_elem_of_nil.
  - reflexivity.
  - reflexivity.
  - repeat constructor.
Defined.
Lemma unread_client_stalls_delivery_witness :
  Delivery.mk ["e1"; "e2"] [] [101] [] ∈ tasks (hub_steps [Resume 0; Receive "e2"] (hub_steps (connect_ada :: take 1 later ++ flood) empty_hub)).
Proof.
  refine (unread_client_stalls_delivery "e1" ["e2"] [] [101] [] ((λ n : nat, [Z.of_nat n]) <$> seq 1 100) _ _ _ _ _ _).
  - vm_compute. reflexivity.
  - simpl. unfold CHANNEL_CAPACITY. lia.
  - repeat constructor; done.
  - vm_compute. left.
Defined.
Lemma anonymous_places_witness :
  open_from "10.0.0.4" (hub_steps (take 26 crowd) empty_hub) ≤ 25 ∧
  (anonymous_websockets_hub "req" "10.0.0.4" "e" (hub_steps (take 26 crowd) empty_hub)).1 = Err (MkError 429 "Too many connections").
Proof.
  assert (Hnd : NoDup (omap drawn_entry (take 26 crowd))) by (apply (bool_decide_unpack _); vm_compute; exact I).
  destruct (anonymous_places (take 26 crowd) "10.0.0.4" Hnd) as (Hle & _ & Hans). split; [exact Hle|].
  rewrite Hans. vm_compute. reflexivity.
Defined.
Lemma relay_token_is_fresh_witness :
  ∃ c' t, c' ∈ [mkTokenCall 5 6 (TokenReceived (AuthPushToken.mk "abc" 3600))] ++ [mkTokenCall (1000 * second) 0 TokenUnsent] ∧
    server_reply c' = TokenReceived t ∧ "abc" = AuthPushToken.access_token t ∧
    (c' = mkTokenCall (1000 * second) 0 TokenUnsent ∨
     asked_at (mkTokenCall (1000 * second) 0 TokenUnsent) + second ≤ received_at c' + Z.max (Z.quot (AuthPushToken.expires_in t) 2) 0 * second).
Proof.
  apply (relay_token_is_fresh 0 [mkTokenCall 5 6 (TokenReceived (AuthPushToken.mk "abc" 3600))] (mkTokenCall (1000 * second) 0 TokenUnsent) "abc").
  - simpl. unfold second. lia.
  - reflexivity.
Defined.
End examples.
