(* ===== verification/Settings.v ===== *)
(** Theorems on the configuration.

    In every history of requests of the administrator the running configuration
    is the one built from the environment and the stored settings, it has passed
    the validation unless the stored settings were deleted, and settings that
    may neither be edited nor are derived from others stay as the environment or
    the start gave them, two of them apart. Saved settings are read back after a
    restart. The report for support shows nothing of passwords and
    only the mask of addresses. *)
From stdpp Require Import pretty.
From S2P Require Import Prelude Schema Roles Users Json Network Samples TwoFactors OneTimeCodes Policies Guards Members Accounts Tokens SingleSignOn Identity SecondFactors Configuration SendAccess FactorSafety.
Local Open Scope Z_scope.

(** ** The table *)

Section table_facts.
Context `{BF : BuildFeatures} `{CC : ConfigCrates}.

Lemma table_NoDup : NoDup (item_name <$> config_table).
Proof. apply (bool_decide_unpack _). vm_compute. exact I. Qed.

Lemma table_unique i j : i ∈ config_table → j ∈ config_table → item_name i = item_name j → i = j.
Proof.
  pose proof table_NoDup as H. induction config_table as [|x l IH]; intros Hi Hj He; [by apply elem_of_nil in Hi|].
  cbn in H. apply NoDup_cons in H as [Hx Hl].
  apply elem_of_cons in Hi as [->|Hi], Hj as [->|Hj]; try done; [| |by apply IH].
  - destruct Hx. rewrite He. by apply list_elem_of_fmap_2.
  - destruct Hx. rewrite <-He. by apply list_elem_of_fmap_2.
Qed.

Lemma find_item_Some name i : find_item name = Some i → i ∈ config_table ∧ item_name i = name.
Proof.
  intros H. apply List.find_some in H as [Hi Hn]. rewrite list_elem_of_In. by apply bool_decide_eq_true in Hn.
Qed.
Lemma find_item_elem i : i ∈ config_table → find_item (item_name i) = Some i.
Proof.
  intros Hi. destruct (find_item (item_name i)) as [j|] eqn:Hf.
  - apply find_item_Some in Hf as [Hj Hn]. f_equal. by apply table_unique.
  - exfalso. pose proof (List.find_none _ _ Hf i) as Hn. cbn in Hn. rewrite bool_decide_true in Hn by done.
    by specialize (Hn (proj1 (list_elem_of_In _ _) Hi)).
Qed.
End table_facts.

(** ** Building *)

Section building.
Context `{BF : BuildFeatures} `{CC : ConfigCrates}.

Lemma set_item_eq name o c : set_item name o c !! name = o.
Proof. destruct o; simpl; [apply lookup_insert_eq|apply lookup_delete_eq]. Qed.
Lemma set_item_ne name name' o c : name ≠ name' → set_item name o c !! name' = c !! name'.
Proof. intros. destruct o; simpl; [by apply lookup_insert_ne|by apply lookup_delete_ne]. Qed.
Lemma build_loop_cons b i l c :
  build_loop b (i :: l) c = build_loop b l (set_item (item_name i) (build_item (b !! item_name i) c (item_action i)) c).
Proof. done. Qed.
Lemma build_loop_app b l l' c : build_loop b (l ++ l') c = build_loop b l' (build_loop b l c).
Proof. apply foldl_app. Qed.
Lemma build_loop_other b l c name : name ∉ (item_name <$> l) → build_loop b l c !! name = c !! name.
Proof.
  revert c. induction l as [|i l IH]; intros c Hn; [done|]. rewrite fmap_cons, not_elem_of_cons in Hn. destruct Hn as [Hi Hl].
  rewrite build_loop_cons, IH by done. by apply set_item_ne.
Qed.
(** A setting has the value that its action gives it at its place in the loop. *)
Lemma build_loop_item b i : i ∈ config_table →
  ∃ c, build_loop b config_table ∅ !! item_name i = build_item (b !! item_name i) c (item_action i).
Proof.
  intros (l1 & l2 & Hl)%list_elem_of_split. pose proof table_NoDup as Hd. rewrite Hl in *. rewrite build_loop_app, build_loop_cons.
  rewrite fmap_app, fmap_cons in Hd. apply NoDup_app in Hd as (_ & _ & [Hi _]%NoDup_cons).
  eexists. rewrite build_loop_other by done. apply set_item_eq.
Qed.

Lemma insert_item_ne name name' v (c : ConfigItems) : name ≠ name' → <[name := v]> c !! name' = c !! name'.
Proof. apply lookup_insert_ne. Qed.
Lemma insert_item_eq name v (c : ConfigItems) : <[name := v]> c !! name = Some v.
Proof. apply lookup_insert_eq. Qed.

(** The settings that [build] changes after the loop. *)
Definition finished : list string :=
  ["domain"; "domain_set"; "signups_domains_whitelist"; "org_creation_users"; "http_request_block_regex"]%string.
Lemma finish_other ds c name : name ∉ finished → finish ds c !! name = c !! name.
Proof.
  intros Hn. unfold finished in Hn. rewrite !not_elem_of_cons in Hn. destruct Hn as (H1 & H2 & H3 & H4 & H5 & _).
  unfold finish. cbv zeta. destruct (opt_str _ "http_request_block_regex"); rewrite ?set_item_ne, !insert_item_ne by congruence; done.
Qed.
Lemma build_lookup b name : name ∉ finished → build b !! name = build_loop b config_table ∅ !! name.
Proof. apply finish_other. Qed.

Lemma kind_of i name k : find_item name = Some i → (item_kind <$> find_item name) = Some k → item_kind i = k.
Proof. intros ->. by intros [= ->]. Qed.
End building.

(** ** Merging *)

Section merging.
Context `{BF : BuildFeatures} `{CC : ConfigCrates}.

Lemma merge_loop (b other acc : ConfigBuilder) (l : list Item) (ov : list string) name :
  (foldl (λ '(acc, overrides) i,
    match other !! item_name i with
    | Some v => (<[item_name i := v]> acc, if b !! item_name i then overrides ++ [to_uppercase (item_name i)] else overrides)
    | None => (acc, overrides)
    end) (acc, ov) l).1 !! name
  = if bool_decide (name ∈ item_name <$> l) then match other !! name with Some v => Some v | None => acc !! name end else acc !! name.
Proof.
  revert acc ov. induction l as [|i l IH]; intros acc ov; [done|]. cbn [foldl]. rewrite (fmap_cons item_name).
  assert (Hin : bool_decide (name ∈ item_name i :: (item_name <$> l)) = (name == item_name i) || bool_decide (name ∈ item_name <$> l)).
  { rewrite <-bool_decide_or. apply bool_decide_ext. by rewrite elem_of_cons. }
  rewrite Hin. destruct (decide (name = item_name i)) as [->|Hn]; [rewrite bool_decide_true by done|rewrite (bool_decide_false (name = _)) by done];
    cbn [orb].
  - destruct (other !! item_name i) as [v|] eqn:Ho; rewrite IH, ?Ho, ?insert_item_eq; by destruct (bool_decide _).
  - destruct (other !! item_name i) as [v|] eqn:Ho; rewrite IH, ?insert_item_ne by done; done.
Qed.
Lemma merge_lookup (b other : ConfigBuilder) i : i ∈ config_table →
  (merge b other).1 !! item_name i = match other !! item_name i with Some v => Some v | None => b !! item_name i end.
Proof. intros Hi. unfold merge. rewrite merge_loop, bool_decide_true; [done|]. by apply list_elem_of_fmap_2. Qed.
Lemma empty_item name : (∅ : ConfigBuilder) !! name = None.
Proof. apply lookup_empty. Qed.
Lemma merge_nothing (b : ConfigBuilder) : (merge b ∅).1 = b.
Proof.
  apply map_eq. intros name. unfold merge. rewrite merge_loop, empty_item. by destruct (bool_decide _).
Qed.

Lemma clear_loop_editable (b : ConfigBuilder) (l : list Item) name :
  (∀ i, i ∈ l → item_name i = name → item_editable i = true) →
  foldl (λ b i, if item_editable i then b else delete (item_name i) b) b l !! name = b !! name.
Proof.
  revert b. induction l as [|i l IH]; intros b Hl; cbn [foldl]; [done|].
  rewrite IH by (intros; apply Hl; [by right|done]). destruct (item_editable i) eqn:He; [done|]. apply lookup_delete_ne.
  intros Hn. rewrite Hl in He; [done|left|done].
Qed.
Lemma clear_loop_fixed (b : ConfigBuilder) (l : list Item) i : i ∈ l → item_editable i = false →
  foldl (λ b i, if item_editable i then b else delete (item_name i) b) b l !! item_name i = None.
Proof.
  intros Hi He. revert b Hi. induction l as [|j l IH]; intros b Hi; cbn [foldl]; [by apply elem_of_nil in Hi|].
  apply elem_of_cons in Hi as [<-|Hi]; [|by apply IH]. rewrite He. clear IH.
  assert (Hnone : ∀ b : ConfigBuilder, b !! item_name i = None →
            foldl (λ b i, if item_editable i then b else delete (item_name i) b) b l !! item_name i = None).
  { clear. induction l as [|j l IH]; intros b Hb; cbn [foldl]; [done|]. apply IH. destruct (item_editable j); [done|].
    apply lookup_delete_None. by right. }
  apply Hnone, lookup_delete_eq.
Qed.
Lemma clear_lookup_editable b i : i ∈ config_table → item_editable i = true → clear_non_editable b !! item_name i = b !! item_name i.
Proof. intros Hi He. apply clear_loop_editable. intros j Hj Hn. by rewrite (table_unique j i Hj Hi Hn). Qed.
Lemma clear_lookup_fixed b i : i ∈ config_table → item_editable i = false → clear_non_editable b !! item_name i = None.
Proof. apply clear_loop_fixed. Qed.
End merging.

(** ** Histories of requests *)

(** What changes the configuration of a running server: the two requests of the
    administrator, and the first use of global Duo keys. *)
Inductive ConfigRequest := PostConfig (data : ConfigBuilder) | DeleteConfig | DuoKey (akey : string).

Section histories.
Context `{BF : BuildFeatures} `{CC : ConfigCrates} `{IN : IpNets} `{J : JsonText}.

Definition config_request `{CS : ConfigStore} (r : ConfigRequest) : M Config () :=
  match r with
  | PostConfig data => post_config data
  | DeleteConfig => delete_config
  | DuoKey akey => get_duo_akey akey ;; mret ()
  end.
(** The store of the file answers each request in its own way. *)
Definition config_history (l : list (ConfigStore * ConfigRequest)) (s : Config) : Config :=
  foldl (λ s '(CS, r), (config_request (CS := CS) r s).2) s l.

Local Opaque build merge clear_non_editable validate_config serialize.

Definition passes (c : ConfigItems) : Prop := checked (validate_config c false) = Ok ().

(** Unknown flags are the only check that is stricter for a change. *)
Lemma checked_then {B} (m : M () ()) (f : M () B) b : checked (m ;; f) = Ok b ↔ checked m = Ok () ∧ checked f = Ok b.
Proof.
  unfold checked, mbind, M_bind. destruct (m ()) as [[[]|e] []]; cbn; [naive_solver|]. split; [done|]. by intros [? _].
Qed.
Lemma update_passes c : checked (validate_config c true) = Ok () → passes c.
Proof.
  Transparent validate_config. unfold passes, validate_config. rewrite !checked_then. intros (H1 & H2 & H3 & H4 & H5 & H6 & Hrest). repeat split; try done; [|apply Hrest..].
  unfold check_flags. by rewrite andb_false_r.
Qed.
Local Opaque validate_config.

Lemma update_config_run `{CS : ConfigStore} other fixed s r s' : update_config other fixed s = (r, s') →
  let b := if (fixed : bool) then clear_non_editable other else other in
  s' = s ∨ passes (config s') ∧ env s' = env s ∧ usr s' = b ∧ config s' = build (merge (env s) b).1.
Proof.
  unfold update_config. set (b := if fixed then clear_non_editable other else other). rewrite run_gets.
  destruct (merge (env s) b) as [merged ov] eqn:Hm. unfold lift, mbind, M_bind, modify.
  destruct (checked (validate_config (build merged) true)) as [[]|e] eqn:Hv; [|intros [= <- <-]; by left].
  intros Hr. right. apply update_passes in Hv. by repeat case_match; simplify_eq/=.
Qed.

(** [s] can be reached from [s0]. *)
Record Administered (s0 s : Config) : Prop := {
  adm_env : env s = env s0;
  adm_config : config s = build (merge (env s) (usr s)).1;
  adm_valid : passes (config s) ∨ usr s = ∅;
  adm_fixed : ∀ i, i ∈ config_table → item_editable i = false → item_name i ≠ "_duo_akey"%string →
    usr s !! item_name i = None ∨ usr s !! item_name i = usr s0 !! item_name i;
}.

Lemma unable_state what m s : (unable what m s).2 = (m s).2.
Proof. unfold unable, answer, mbind, M_bind. by destruct (m s) as [[[]|e] s']. Qed.

Lemma administered_update `{CS : ConfigStore} s0 s other fixed :
  Administered s0 s →
  (∀ i, i ∈ config_table → item_editable i = false → item_name i ≠ "_duo_akey"%string →
     (if (fixed : bool) then clear_non_editable other else other) !! item_name i = None
     ∨ (if fixed then clear_non_editable other else other) !! item_name i = usr s0 !! item_name i) →
  Administered s0 (update_config other fixed s).2.
Proof.
  intros [He Hc Hv Hf] Hother. destruct (update_config other fixed s) as [r s'] eqn:Hr.
  apply update_config_run in Hr as [->|(Hp & He' & Hu & Hc')]; [done|]. cbn. split; [congruence| |by left|].
  - by rewrite He', Hu.
  - rewrite Hu. exact Hother.
Qed.

Lemma administered_request `{CS : ConfigStore} s0 s r : Administered s0 s → Administered s0 (config_request r s).2.
Proof.
  intros Hs. pose proof Hs as [He Hc Hv Hf]. destruct r as [data| |akey]; cbn [config_request].
  - unfold post_config. rewrite unable_state. apply administered_update; [done|]. intros i Hi Hed _. left. by apply clear_lookup_fixed.
  - unfold delete_config. rewrite unable_state. unfold delete_user_config, lift, mbind, M_bind, modify.
    destruct operator_for_path as [[]|]; [|done]. destruct delete_file as [[]|]; [|done]. cbn. split; cbn; [done| |by right|by left].
    by rewrite merge_nothing.
  - unfold get_duo_akey. unfold mbind at 1, M_bind at 1. unfold mbind at 1, M_bind at 1, gets. destruct (opt_str _ _); [done|].
    unfold ignore, update_config_partial. unfold mbind, M_bind, gets. cbn. apply administered_update; [done|].
    intros i Hi Hed Hn. cbn. rewrite merge_lookup by done.
    assert (({["_duo_akey"%string := VStr akey]} : ConfigBuilder) !! item_name i = None) as -> by by apply lookup_singleton_ne.
    by apply Hf.
Qed.

Lemma administered_history l s0 s : Administered s0 s → Administered s0 (config_history l s).
Proof. revert s. induction l as [|[CS r] l IH]; intros s Hs; [done|]. by apply IH, administered_request. Qed.

Lemma load_administered env f s : Config_load false env f = Ok s → Administered s s.
Proof.
  unfold Config_load. destruct (merge env (ConfigBuilder_from_file f)) as [b ov] eqn:Hm.
  destruct (checked _) as [[]|e] eqn:Hv; [|done]. intros [= <-]. split; cbn; [done|by rewrite Hm|by left|by right].
Qed.

(** A setting that is not derived has the value given for it, or its default. *)
Definition plain (i : Item) : Prop := match item_action i with Optional | Def _ => True | _ => False end.
Lemma fixed_unfinished i : i ∈ config_table → item_editable i = false → item_name i ≠ "domain_set"%string → item_name i ∉ finished.
Proof.
  intros Hi He Hn Hf. apply find_item_elem in Hi. assert (Hed : item_editable <$> find_item (item_name i) = Some true).
  { unfold finished in Hf. rewrite !elem_of_cons, elem_of_nil in Hf.
    destruct Hf as [->|[Hd|[->|[->|[->|[]]]]]]; [reflexivity|by destruct Hn|reflexivity..]. }
  rewrite Hi in Hed. cbn in Hed. congruence.
Qed.
Lemma build_plain b b' i : i ∈ config_table → plain i → item_name i ∉ finished → b !! item_name i = b' !! item_name i →
  build b !! item_name i = build b' !! item_name i.
Proof.
  intros Hi Hp Hf Hb. rewrite !build_lookup by done. destruct (build_loop_item b i Hi) as [c ->], (build_loop_item b' i Hi) as [c' ->].
  rewrite Hb. unfold plain in Hp. by destruct (item_action i).
Qed.

(** C31. Requests of the administrator keep the configuration in order. In every
    history of saving settings, deleting them and drawing the Duo key, with any
    answers of the file store, after a start of the server: the configuration is
    the one built from the environment and the stored settings, the environment
    is the one of the start, and the configuration has passed the validation
    unless there are no stored settings. Each setting that may neither be edited
    nor is derived from others, other than [domain_set] and [_duo_akey], has the
    value that the environment alone gives it or the one it had after the start,
    when the file of settings may have given it. A derived setting such as
    [domain_origin] follows the setting that it is derived from, [domain_set]
    the editable domain, and [_duo_akey] is drawn. *)
Theorem requests_keep_fixed_settings (e : ConfigBuilder) (f : option string) (s0 : Config) (l : list (ConfigStore * ConfigRequest)) :
  Config_load false e f = Ok s0 →
  let s := config_history l s0 in
  env s = env s0 ∧ config s = build (merge (env s) (usr s)).1 ∧ (passes (config s) ∨ usr s = ∅)
  ∧ ∀ i, i ∈ config_table → item_editable i = false → plain i → item_name i ∉ ["_duo_akey"; "domain_set"]%string →
      config s !! item_name i = build (env s0) !! item_name i ∨ config s !! item_name i = config s0 !! item_name i.
Proof.
  intros Hload s. pose proof (load_administered _ _ _ Hload) as H0. pose proof (adm_config _ _ H0) as Hc0.
  destruct (administered_history l s0 s0 H0) as [He Hc Hv Hf]. fold s in He, Hc, Hv, Hf. split_and!; try done.
  intros i Hi Hed Hp Hn. rewrite !not_elem_of_cons in Hn. destruct Hn as (Hk & Hd & _).
  assert (item_name i ∉ finished) as Hfin by by apply fixed_unfinished.
  rewrite Hc. destruct (Hf i Hi Hed Hk) as [Hu|Hu].
  - left. apply build_plain; try done. rewrite merge_lookup by done. by rewrite Hu, He.
  - right. rewrite Hc0. apply build_plain; try done. rewrite !merge_lookup by done. by rewrite Hu, He.
Qed.
End histories.

(** ** The file *)

Lemma value_reads_back k v : has_kind k v = true → next_value k (value_to_json v) = Some (Some v).
Proof.
  intros Hk. destruct v as [s|b|n]; unfold json_number; cbn [value_to_json next_value]; [by rewrite Hk..|].
  unfold json_number, next_value, read_integer.
  rewrite parse_int_pretty, bool_decide_true by (done || (destruct k; cbn in Hk; lia)). by rewrite Hk.
Qed.

Section file_facts.
Context `{BF : BuildFeatures} `{CC : ConfigCrates} `{IN : IpNets} `{J : JsonText} `{CS : ConfigStore}.

(** What reading a file or a request can give. *)
Definition readable (b : ConfigBuilder) : Prop :=
  ∀ name v, b !! name = Some v → ∃ i, i ∈ config_table ∧ item_name i = name ∧ has_kind (item_kind i) v = true.

Lemma next_value_kind k j v : next_value k j = Some (Some v) → has_kind k v = true.
Proof.
  destruct j; cbn; repeat case_match; intros; simplify_eq; try done. unfold read_integer in *. repeat case_match; simplify_eq/=.
  by match goal with H : _ && _ = true |- _ => apply andb_true_iff in H as [_ ?] end.
Qed.
Lemma read_entry_readable b e b' : readable b → read_entry b e = Some b' → readable b'.
Proof.
  intros Hb. unfold read_entry. destruct (find_item e.1) as [i|] eqn:Hi; [|by intros [= <-]].
  destruct (b !! item_name i) eqn:Hl; [done|]. destruct (next_value _ _) as [o|] eqn:Hn; [|done]. intros [= <-]. intros name v Hv.
  destruct (decide (item_name i = name)) as [<-|Hne]; [|by rewrite set_item_ne in Hv by done; apply Hb].
  rewrite set_item_eq in Hv. subst o. exists i. split_and!; [by apply (find_item_Some e.1)|done|by eapply next_value_kind].
Qed.
Lemma deserialize_readable j b : deserialize j = Some b → readable b.
Proof.
  destruct j as [| | | | |m]; try done. cbn. assert (He : readable ∅) by (intros name v Hv; by rewrite empty_item in Hv).
  revert He. generalize (∅ : ConfigBuilder). induction m as [|e m IH]; intros b0 Hb0; cbn; [by intros [= <-]|].
  destruct (read_entry b0 e) as [b1|] eqn:Hr; cbn; [|intros Hm; exfalso; clear -Hm; by induction m].
  apply IH. by eapply read_entry_readable.
Qed.

Lemma file_reads_back b : readable b → deserialize (serialize b) = Some b.
Proof.
  intros Hb. unfold serialize, deserialize.
  assert (∀ l (acc : ConfigBuilder), (∀ i, i ∈ l → i ∈ config_table) → NoDup (item_name <$> l) → (∀ i, i ∈ l → acc !! item_name i = None) →
    ∃ c, foldl (λ o e, b ← o; read_entry b e) (Some acc)
           (omap (λ i, v ← b !! item_name i; Some (item_name i, value_to_json v)) l) = Some c
      ∧ ∀ name, c !! name = if bool_decide (name ∈ item_name <$> l) then b !! name else acc !! name) as Hl.
  { induction l as [|i l IH]; intros acc Hin Hnd Hacc; [by exists acc|]. rewrite fmap_cons in Hnd. apply NoDup_cons in Hnd as [Hi Hnd].
    assert (Hi' : i ∈ config_table) by (apply Hin; left). assert (Hai : acc !! item_name i = None) by (apply Hacc; left).
    assert (Hset : ∀ o, ∀ j, j ∈ l → set_item (item_name i) o acc !! item_name j = None).
    { intros o j Hj. rewrite set_item_ne; [apply Hacc; by right|]. intros He. destruct Hi. rewrite He. by apply list_elem_of_fmap_2. }
    assert (Hgo : ∀ name, bool_decide (name ∈ item_name i :: (item_name <$> l)) = (item_name i == name) || bool_decide (name ∈ item_name <$> l)).
    { intros name. rewrite <-bool_decide_or. apply bool_decide_ext. rewrite elem_of_cons. naive_solver. }
    rewrite (fmap_cons item_name). cbn [omap list_omap]. destruct (b !! item_name i) as [v|] eqn:Hv; cbn [mbind option_bind foldl].
    - destruct (Hb _ _ Hv) as (i' & Hi2 & Hn & Hk). apply table_unique in Hn as ->; [|done..].
      unfold read_entry at 2. cbn [fst snd]. rewrite find_item_elem, Hai, value_reads_back by done. cbn [mbind option_bind].
      destruct (IH (set_item (item_name i) (Some v) acc)) as (c & Hc & Hspec); [by intros; apply Hin; right|done|apply Hset|].
      exists c. split; [done|]. intros name. rewrite Hspec, Hgo. destruct (decide (item_name i = name)) as [<-|Hne].
      + rewrite set_item_eq, (bool_decide_true (_ = _)), (bool_decide_false (_ ∈ _)) by done. by rewrite Hv.
      + by rewrite set_item_ne, (bool_decide_false (_ = _)) by done.
    - destruct (IH acc) as (c & Hc & Hspec); [by intros; apply Hin; right|done|by intros; apply Hacc; right|].
      exists c. split; [done|]. intros name. rewrite Hspec, Hgo. destruct (decide (item_name i = name)) as [<-|Hne].
      + rewrite (bool_decide_true (_ = _)), (bool_decide_false (_ ∈ _)) by done. cbn. congruence.
      + by rewrite (bool_decide_false (_ = _)) by done. }
  destruct (Hl config_table ∅) as (c & -> & Hspec); [done|apply table_NoDup|intros; apply empty_item|].
  f_equal. apply map_eq. intros name. rewrite Hspec. case_bool_decide as Hn; [done|]. rewrite empty_item.
  destruct (b !! name) as [v|] eqn:Hv; [|done]. destruct (Hb _ _ Hv) as (i & Hi & <- & _). destruct Hn. by apply list_elem_of_fmap_2.
Qed.

Lemma clear_readable b : readable b → readable (clear_non_editable b).
Proof.
  intros Hb name v Hv. apply Hb. revert Hv. unfold clear_non_editable. clear Hb. generalize config_table as l.
  intros l. revert b. induction l as [|i l IH]; intros b; [done|]. cbn [foldl]. intros Hv%IH.
  destruct (item_editable i); [done|]. apply lookup_delete_Some in Hv. naive_solver.
Qed.

Local Opaque build merge clear_non_editable validate_config serialize.
Lemma post_config_Ok data s s' : post_config data s = (Ok (), s') →
  let b := clear_non_editable data in
  passes (config s') ∧ config s' = build (merge (env s) b).1 ∧ env s' = env s ∧ usr s' = b
  ∧ file s' = Some (json_to_string_pretty (serialize b)).
Proof.
  unfold post_config, unable. intros Hr. run_step Hr. run_step Hrun. destruct a as [[]|e]; [|done]. injection Hr as <-.
  unfold update_config in Hrun. rewrite run_gets in Hrun. destruct (merge (env s) (clear_non_editable data)) as [m ov] eqn:Hm.
  run_step Hrun. run_step Hrun0. destruct a. apply update_passes in Hrun0. rewrite run_modify in Hrun.
  run_step Hrun. run_step Hrun1. run_step Hrun. run_step Hrun2. run_step Hrun. by repeat split.
Qed.

Lemma from_file_text b : (∀ j, json_from_str (json_to_string_pretty j) = Some j) → readable b →
  ConfigBuilder_from_file (Some (json_to_string_pretty (serialize b))) = b.
Proof. intros Htext Hb. unfold ConfigBuilder_from_file. cbn. rewrite Htext. cbn. by rewrite file_reads_back. Qed.

(** C32. Saved settings survive a restart. When the request of the administrator
    to save settings is answered, a new start of the server with the same
    environment and the file that was written reads the same settings, passes
    the validation and has the same configuration. *)
Theorem saved_settings_survive_restart (body : Json) (data : ConfigBuilder) (s s' : Config) :
  (∀ j, json_from_str (json_to_string_pretty j) = Some j) →
  deserialize body = Some data → post_config data s = (Ok (), s') →
  ∃ s1, Config_load false (env s') (file s') = Ok s1 ∧ config s1 = config s' ∧ usr s1 = usr s'.
Proof.
  intros Htext Hbody Hpost. apply post_config_Ok in Hpost as (Hp & Hc & He & Hu & Hf).
  assert (Hfile : ConfigBuilder_from_file (file s') = usr s').
  { rewrite Hf, Hu. apply from_file_text; [done|]. by eapply clear_readable, deserialize_readable. }
  unfold Config_load. rewrite Hfile, He, Hu. destruct (merge (env s) (clear_non_editable data)) as [m ov] eqn:Hm.
  cbn in Hc. rewrite <-Hc, Hp. eexists. by split_and!.
Qed.
End file_facts.

(** ** The report for support *)

(** *** Objects with the same entries are the same *)

Lemma lookup_below k m : Forall (λ e, String.compare k e.1 = Lt) m → Json_lookup k m = None.
Proof.
  induction 1 as [|[k' x] m Hk Hm IH]; [done|]. simpl in *. rewrite bool_decide_false; [done|]. intros ->.
  by rewrite compare_refl in Hk.
Qed.
Lemma lookup_head_lt k x m k' x' m' :
  StronglySorted key_lt ((k', x') :: m') → String.compare k k' = Lt → Json_lookup k ((k, x) :: m) ≠ Json_lookup k ((k', x') :: m').
Proof.
  intros [Hs Hall]%StronglySorted_inv Hlt. simpl. rewrite bool_decide_true by done.
  rewrite bool_decide_false by (intros ->; by rewrite compare_refl in Hlt). rewrite lookup_below; [done|].
  eapply Forall_impl; [exact Hall|]. intros e He. by eapply compare_trans.
Qed.
Lemma sorted_ext m1 m2 : StronglySorted key_lt m1 → StronglySorted key_lt m2 → (∀ k, Json_lookup k m1 = Json_lookup k m2) → m1 = m2.
Proof.
  intros H1. revert m2. induction H1 as [|[k1 x1] m1 Hs1 IH Hall1]; intros [|[k2 x2] m2] H2 Hl; [done| | |].
  - specialize (Hl k2). simpl in Hl. by rewrite bool_decide_true in Hl.
  - specialize (Hl k1). simpl in Hl. by rewrite bool_decide_true in Hl.
  - destruct (String.compare k1 k2) eqn:Hc.
    + apply String.compare_eq_iff in Hc as ->. apply StronglySorted_inv in H2 as [Hs2 Hall2].
      pose proof (Hl k2) as Hk. simpl in Hk. rewrite !bool_decide_true in Hk by done. injection Hk as ->. f_equal. apply IH; [done|].
      intros k. specialize (Hl k). simpl in Hl. case_bool_decide as Hk; [|done]. subst k. by rewrite !lookup_below.
    + by destruct (lookup_head_lt k1 x1 m1 k2 x2 m2).
    + destruct (lookup_head_lt k2 x2 m2 k1 x1 m1); [by constructor|by rewrite String.compare_antisym, Hc|done].
Qed.

Section support.
Context `{BF : BuildFeatures} `{CC : ConfigCrates}.

(** Two texts of which the report shows the same. *)
Definition same_mask (o1 o2 : option Json) : Prop :=
  ∃ s1 s2, o1 = Some (JsString s1) ∧ o2 = Some (JsString s2) ∧ privacy_mask s1 = privacy_mask s2.
(** Two objects that agree, up to masks at [keys]. *)
Definition alike (keys : list string) (m1 m2 : list (string * Json)) : Prop :=
  StronglySorted key_lt m1 ∧ StronglySorted key_lt m2
  ∧ ∀ k, Json_lookup k m1 = Json_lookup k m2 ∨ k ∈ keys ∧ same_mask (Json_lookup k m1) (Json_lookup k m2).

Lemma alike_insert keys k x1 x2 m1 m2 : alike keys m1 m2 → x1 = x2 ∨ k ∈ keys ∧ same_mask (Some x1) (Some x2) →
  alike keys (Json_insert k x1 m1) (Json_insert k x2 m2).
Proof.
  intros (Hs1 & Hs2 & Hl) Hx. split_and!; [by apply insert_sorted..|]. intros k'. destruct (decide (k' = k)) as [->|Hne].
  - rewrite !lookup_insert_same. naive_solver.
  - by rewrite !lookup_insert_other by done.
Qed.
Lemma alike_mask keys k m1 m2 : alike (k :: keys) m1 m2 →
  ∃ m1' m2', mask_key (JsObject m1) k = JsObject m1' ∧ mask_key (JsObject m2) k = JsObject m2' ∧ alike keys m1' m2'.
Proof.
  intros (Hs1 & Hs2 & Hl). unfold mask_key. cbn [Json_find].
  assert (Hrest : ∀ k', k' ≠ k → Json_lookup k' m1 = Json_lookup k' m2 ∨ k' ∈ keys ∧ same_mask (Json_lookup k' m1) (Json_lookup k' m2)).
  { intros k' Hne. destruct (Hl k') as [?|[[?|?]%elem_of_cons ?]]; [by left|done|by right]. }
  assert (Hset : ∀ s, alike keys (Json_insert k (JsString s) m1) (Json_insert k (JsString s) m2)).
  { intros s. split_and!; [by apply insert_sorted..|]. intros k'. destruct (decide (k' = k)) as [->|Hne]; [left; by rewrite !lookup_insert_same|].
    rewrite !lookup_insert_other by done. by apply Hrest. }
  destruct (Hl k) as [He|[_ (s1 & s2 & -> & -> & Hm)]].
  - rewrite <-He. destruct (Json_lookup k m1) as [[]|] eqn:Hk; try (by eexists _, _; split_and!; [done..|apply Hset]).
    all: exists m1, m2; do 4 (split; [done|]); intros k'; destruct (decide (k' = k)) as [->|Hne]; [left; congruence|by apply Hrest].
  - rewrite Hm. by eexists _, _; split_and!; [done..|apply Hset].
Qed.
Lemma alike_masks keys m1 m2 : alike keys m1 m2 → foldl mask_key (JsObject m1) keys = foldl mask_key (JsObject m2) keys.
Proof.
  revert m1 m2. induction keys as [|k keys IH]; intros m1 m2 Ha.
  - destruct Ha as (Hs1 & Hs2 & Hl). cbn. f_equal. apply sorted_ext; [done..|]. intros k. destruct (Hl k) as [?|[Hk _]]; [done|by apply elem_of_nil in Hk].
  - apply alike_mask in Ha as (m1' & m2' & H1 & H2 & Ha). cbn [foldl]. rewrite H1, H2. by apply IH.
Qed.

(** What the report may depend on: of a password whether it is set, of a
    setting on the list its mask, of any other setting its value. *)
Definition same_report (i : Item) (o1 o2 : option Value) : Prop :=
  if item_kind i == TPass then is_Some o1 ↔ is_Some o2
  else o1 = o2 ∨ item_name i ∈ PRIVACY_CONFIG ∧ ∃ s1 s2, o1 = Some (VStr s1) ∧ o2 = Some (VStr s2) ∧ privacy_mask s1 = privacy_mask s2.

Lemma supportstr_alike c1 c2 i : same_report i (c1 !! item_name i) (c2 !! item_name i) →
  supportstr c1 i = supportstr c2 i ∨ item_name i ∈ PRIVACY_CONFIG ∧ same_mask (Some (supportstr c1 i)) (Some (supportstr c2 i)).
Proof.
  unfold same_report, supportstr. destruct (item_kind i == TPass) eqn:Hk.
  - apply bool_decide_eq_true in Hk. rewrite Hk. intros Hi. left. destruct (item_action i); try done.
    destruct (c1 !! _), (c2 !! _); cbn; try done; exfalso; destruct Hi as [H1 H2]; [by destruct H1|by destruct H2].
  - apply bool_decide_eq_false in Hk. intros [He|(Hn & s1 & s2 & H1 & H2 & Hm)].
    + left. rewrite He. by destruct (item_kind i).
    + right. split; [done|]. exists s1, s2. rewrite H1, H2. by destruct (item_kind i).
Qed.

(** The report for support keeps secrets. Two configurations in which the
    same passwords are set, whatever they are, in which addresses, names and
    hosts have the same mask, and which agree on all other settings have the
    same report. *)
Theorem support_report_hides_secrets (c1 c2 : ConfigItems) :
  (∀ i, i ∈ config_table → same_report i (c1 !! item_name i) (c2 !! item_name i)) → get_support_json c1 = get_support_json c2.
Proof.
  intros Hall. unfold get_support_json, json_object. apply alike_masks.
  assert (∀ l m1 m2, (∀ i, i ∈ l → same_report i (c1 !! item_name i) (c2 !! item_name i)) → alike PRIVACY_CONFIG m1 m2 →
    alike PRIVACY_CONFIG (foldl (λ acc '(k, x), Json_insert k x acc) m1 ((λ i, (item_name i, supportstr c1 i)) <$> l))
      (foldl (λ acc '(k, x), Json_insert k x acc) m2 ((λ i, (item_name i, supportstr c2 i)) <$> l))) as Hl.
  { induction l as [|i l IH]; intros m1 m2 Hr Ha; [done|]. cbn. apply IH; [by intros; apply Hr; right|].
    apply alike_insert; [done|]. apply supportstr_alike, Hr. left. }
  apply Hl; [done|]. split_and!; [constructor..|by left].
Qed.

(** A mask only has stars, colons, slashes and commas. *)
Lemma masks_have_no_letters s : Forall (λ a, a ∈ Ascii.ascii_of_nat <$> [42; 44; 47; 58]%nat) (String.list_ascii_of_string (privacy_mask s)).
Proof.
  unfold privacy_mask. generalize 0, false. induction s as [|a s IH]; intros n b; cbn [mask_from]; [constructor|].
  case_match; [done|]. case_match; [|case_match]; cbn [String.list_ascii_of_string]; constructor; try done.
  - match goal with H : _ && _ = true |- _ => apply andb_true_iff in H as [H _] end. apply bool_decide_eq_true in H0 as ->. set_solver.
  - match goal with H : _ || _ = true |- _ => apply orb_true_iff in H as [H|H] end.
    + repeat match goal with H : _ && _ = true |- _ => apply andb_true_iff in H as [H _] end. apply bool_decide_eq_true in H1 as ->. set_solver.
    + apply bool_decide_eq_true in H1 as ->. set_solver.
  - set_solver.
Qed.
End support.

(** Runs that succeed, from the answer of the validation. *)
Section runs.
Context `{BF : BuildFeatures} `{CC : ConfigCrates} `{IN : IpNets} `{J : JsonText} `{CS : ConfigStore}.
Local Opaque build merge clear_non_editable validate_config serialize.

Lemma load_run e f u : ConfigBuilder_from_file f = u → passes (build (merge e u).1) →
  Config_load false e f = Ok (mkConfig (build (merge e u).1) e u (merge e u).2 f).
Proof. intros Hu Hp. unfold Config_load. rewrite Hu. destruct (merge e u) as [b ov]. by rewrite Hp. Qed.
Lemma post_config_run data s : operator_for_path = Ok () → write_file = Ok () →
  let b := clear_non_editable data in
  checked (validate_config (build (merge (env s) b).1) true) = Ok () →
  post_config data s = (Ok (), mkConfig (build (merge (env s) b).1) (env s) b (merge (env s) b).2 (Some (json_to_string_pretty (serialize b)))).
Proof.
  intros Ho Hw b Hv. unfold post_config, unable, answer, update_config. fold b. unfold mbind, M_bind, gets, lift, modify.
  destruct (merge (env s) b) as [m ov] eqn:Hm. cbn in Hv. by rewrite Hv, Ho, Hw.
Qed.
Lemma delete_config_run s : operator_for_path = Ok () → delete_file = Ok () →
  delete_config s = (Ok (), mkConfig (build (env s)) (env s) ∅ [] None).
Proof. intros Ho Hd. unfold delete_config, unable, answer, delete_user_config, mbind, M_bind, lift, modify. by rewrite Ho, Hd. Qed.
End runs.

(** ** What a valid configuration promises *)

Section promises.
Context `{BF : BuildFeatures} `{CC : ConfigCrates} `{IN : IpNets} `{J : JsonText}.
Context `{K : Codecs} `{T : Totp} `{P : PolicyJson} `{C : Crypto} `{R : PushRelay} `{F : FactorProviders} `{FS : FactorServices}.

Lemma refuse_Ok c msg : checked (refuse c msg) = Ok () ↔ c = false.
Proof. unfold refuse. by destruct c. Qed.
Lemma limit_fits o n : out_of_bounds o = false → o = Some n → 0 ≤ n * 1024 < 2 ^ 63.
Proof. intros Ho ->. unfold out_of_bounds in Ho. apply negb_false_iff, andb_true_iff in Ho. unfold MAX_FILESIZE_KB in Ho. change (Z.shiftr (2 ^ 63 - 1) 10) with 9007199254740991 in Ho. lia. Qed.

(** Valid settings are safe to use. In a configuration that has passed the
    validation the storage limits are not negative and still fit into 64 bits as
    bytes, the numbers of database connections are in order, passwords are
    hashed with 100000 iterations at least, codes by mail have six digits at
    least where mail is on, invitations live for an hour at least, redirects have
    one of the four codes, and the global keys of Duo are read without a panic. *)
Theorem valid_settings_are_usable (c : ConfigItems) (d : DB) :
  passes c →
  (∀ name n, name ∈ ["user_attachment_limit"; "org_attachment_limit"; "user_send_limit"]%string → opt_num c name = Some n → 0 ≤ n * 1024 < 2 ^ 63)
  ∧ 1 ≤ num c "database_min_conns" ≤ num c "database_max_conns" ∧ num c "database_max_conns" ≤ 256
  ∧ 100000 ≤ num c "password_iterations" ∧ 1 ≤ num c "invitation_expiration_hours"
  ∧ num c "icon_redirect_code" ∈ [301; 302; 307; 308]
  ∧ (mail_enabled_in c = true → flag c "_enable_email_2fa" = true → 6 ≤ num c "email_token_size")
  ∧ (enable_duo = flag c "_enable_duo" → duo_host = opt_str c "duo_host" → duo_ikey = opt_str c "duo_ikey" → duo_skey = opt_str c "duo_skey" →
     ∃ o, DuoData_global d = (Ok o, d)).
Proof.
  unfold passes, validate_config. rewrite !checked_then. intros (_ & _ & Hnum & _ & _ & _ & Hlim & Hprov & Hmail & Hicon & _ & _).
  unfold check_numbers in Hnum. cbv zeta in Hnum. rewrite !checked_then, !refuse_Ok in Hnum. destruct Hnum as (H1 & H2 & H3 & H4 & _).
  unfold check_limits in Hlim. rewrite !checked_then, !refuse_Ok in Hlim. destruct Hlim as (L1 & L2 & L3).
  unfold check_providers in Hprov. cbv zeta in Hprov. rewrite !checked_then, !refuse_Ok in Hprov. destruct Hprov as (D & _).
  unfold check_icons in Hicon. cbv zeta in Hicon. rewrite !checked_then, !refuse_Ok in Hicon. destruct Hicon as (_ & _ & Hcode & Hinv).
  unfold check_mail in Hmail. rewrite !checked_then in Hmail. destruct Hmail as (Hsmtp & _). split_and!; try lia.
  - intros name n Hn Ho. rewrite !elem_of_cons, elem_of_nil in Hn. destruct Hn as [->|[->|[->|[]]]];
      [by apply (limit_fits _ _ L1)|by apply (limit_fits _ _ L2)|by apply (limit_fits _ _ L3)].
  - by apply negb_false_iff, bool_decide_eq_true in Hcode.
  - intros Hen H2fa. unfold mail_enabled_in in Hen. apply andb_true_iff in Hen as [Hen _]. rewrite Hen, !checked_then, !refuse_Ok, H2fa in Hsmtp. lia.
  - intros He Hh Hi Hk. unfold DuoData_global. rewrite He, Hh, Hi, Hk. unfold is_set in D.
    destruct (flag c "_enable_duo"); [|by eexists]. destruct (opt_str c "duo_host"); [|by eexists].
    destruct (opt_str c "duo_ikey"), (opt_str c "duo_skey"); cbn in D; try done. by eexists.
Qed.
End promises.

(** ** Behaviour that surprises *)

Section surprises.
Context `{BF : BuildFeatures} `{CC : ConfigCrates} `{IN : IpNets} `{J : JsonText} `{CS : ConfigStore}.
Local Opaque build merge clear_non_editable validate_config serialize.

(** Saving settings drops the Duo key that the server had drawn: it may not be
    edited, so it is never part of what is saved. *)
Theorem saving_drops_duo_key (data : ConfigBuilder) (s s' : Config) :
  post_config data s = (Ok (), s') → env s !! "_duo_akey" = None → opt_str (config s') "_duo_akey" = None.
Proof.
  intros (_ & Hc & _)%post_config_Ok He. rewrite Hc. unfold opt_str.
  assert (Hi : mkItem "_duo_akey" TPass false Optional ∈ config_table) by (apply (find_item_Some "_duo_akey"); reflexivity).
  set (i := mkItem "_duo_akey" TPass false Optional) in *. change "_duo_akey"%string with (item_name i).
  rewrite build_lookup by (vm_compute; set_solver). destruct (build_loop_item (merge (env s) (clear_non_editable data)).1 i Hi) as [c ->].
  cbn [item_action i build_item]. rewrite merge_lookup, clear_lookup_fixed by done. cbn. by rewrite He.
Qed.

(** When the checks for a change refuse the configuration, for example for an
    unknown flag of the environment, with which the server does start, the Duo
    key is never kept: each call answers with the key it has drawn. *)
Theorem refused_update_redraws_duo_key (akey : string) (s : Config) :
  opt_str (config s) "_duo_akey" = None →
  (∀ b, checked (validate_config (build (merge (env s) b).1) true) ≠ Ok ()) →
  get_duo_akey akey s = (Ok akey, s).
Proof.
  intros Hk Hbad. unfold get_duo_akey. rewrite run_gets, Hk. unfold ignore, update_config_partial, mbind, M_bind, gets. cbn.
  unfold update_config. rewrite run_gets. set (b := (merge (usr s) _).1). destruct (merge (env s) b) as [m ov] eqn:Hm.
  specialize (Hbad b). rewrite Hm in Hbad. unfold lift, mbind, M_bind. cbn in *.
  by destruct (checked (validate_config (build m) true)) as [[]|e].
Qed.
End surprises.

(** ** A concrete server *)

Module SampleSettings.
#[export] Existing Instance SampleSends.json.
#[export] Instance features : BuildFeatures := {| with_mysql := false; with_postgresql := false; with_sqlite := true; with_s3 := false |}.
#[export] Instance crates : ConfigCrates := {|
  Url := string; Url_parse s := if starts_with "http" s then Some s else None; Url_origin := id; Url_path _ := "/"; Url_domain := Some;
  Url_query _ := None; Url_path_segments _ := None; Url_set_path _ := id; Url_to_string := id;
  EmailAddress_domain e := snd <$> rsplit_once at_sign e; Regex_valid _ := true; Schedule_valid _ := true; PasswordHash_valid _ := true;
  which := Some; IssuerUrl_valid _ := true; RedirectUrl_valid _ := true; is_dir d := (d == "data"); exists_path _ := false;
  can_append _ := true; metadata _ := NotFound |}%string.
#[export] Instance nets : IpNets := {| IpNet := IpAddr; parse_ipnet _ := None; ipnet_from := id; ipnet_contains _ _ := false |}.
#[export] Instance store : ConfigStore := {|
  operator_for_path := Ok (); write_file := Ok (); delete_file := Ok (); json_to_string_pretty := json_to_string |}.

(** The environment names a host of Duo and no keys; the stored settings turn
    Duo off. *)
Definition duo_env : ConfigBuilder := {["duo_host" := VStr "duo.example"]}.
Definition duo_off : ConfigBuilder := {["_enable_duo" := VBool false]}.
Definition duo_file : option string := Some (json_to_string_pretty (serialize duo_off)).
Definition started : Config := mkConfig (build (merge duo_env duo_off).1) duo_env duo_off (merge duo_env duo_off).2 duo_file.
(** A request that turns sign-ups off, and tries to change a fixed setting. *)
Definition body : Json := JsObject [("_enable_duo", JsBool false); ("signups_allowed", JsBool false); ("log_level", JsString "off")].
Definition settings : ConfigBuilder := <["log_level" := VStr "off"]> (<["signups_allowed" := VBool false]> duo_off).
Definition stored : ConfigBuilder := clear_non_editable settings.
Definition saved : Config :=
  mkConfig (build (merge (env started) stored).1) (env started) stored (merge (env started) stored).2
    (Some (json_to_string_pretty (serialize stored))).
Definition password (p : string) : ConfigItems := <["smtp_password" := VStr p]> (<["smtp_host" := VStr p]> (build ∅)).
(** Codes by mail with a mail server that is not enabled. *)
Definition mute : ConfigItems :=
  build (<["_enable_smtp" := VBool false]> (<["smtp_host" := VStr "mail.example"]> (<["_enable_email_2fa" := VBool true]> {["email_token_size" := VNum 0]}))).

Lemma body_read : deserialize body = Some settings.
Proof. vm_compute. reflexivity. Qed.
Lemma duo_off_readable : readable duo_off.
Proof. apply (deserialize_readable (JsObject [("_enable_duo", JsBool false)])). vm_compute. reflexivity. Qed.
Lemma file_text j : json_from_str (json_to_string_pretty j) = Some j.
Proof. exact (SampleSends.json_law j). Qed.
Lemma start : Config_load false duo_env duo_file = Ok started.
Proof.
  apply load_run; [|vm_compute; reflexivity]. apply from_file_text; [exact file_text|exact duo_off_readable].
Qed.
Lemma save : post_config settings started = (Ok (), saved).
Proof.
  assert (Hv : checked (validate_config (build (merge (env started) stored).1) true) = Ok ()) by (vm_compute; reflexivity).
  exact (post_config_run settings started eq_refl eq_refl Hv).
Qed.
End SampleSettings.

Section sample_settings.
Import SampleSettings.

Example unedited_log_level : str (config saved) "log_level" = "info"%string ∧ flag (config saved) "signups_allowed" = false.
Proof. by vm_compute. Qed.

(** Deleting the stored settings is not validated: the server goes on with a
    configuration with which it would not start again, and in which asking for
    the global keys of Duo panics. *)
Theorem deletion_skips_validation :
  delete_config started = (Ok (), mkConfig (build duo_env) duo_env ∅ [] None)
  ∧ checked (validate_config (build duo_env) false) = Err (MkError 400 "All Duo options need to be set for global Duo support").
Proof. split; [by apply delete_config_run|]. vm_compute. reflexivity. Qed.

(** The checks on codes by mail are skipped when mail is off, and the check that
    mail can be sent does not ask whether it is on: codes by mail are enabled,
    with no digits, on a server that sends no mail. *)
Theorem codes_without_mail :
  passes mute ∧ mail_enabled_in mute = false ∧ flag mute "_enable_email_2fa" = true ∧ num mute "email_token_size" = 0.
Proof. vm_compute. done. Qed.

(** A sendmail command that only its owner may run is refused. *)
Example owner_may_execute : lacks_execute_bit 0x1c0 = true ∧ lacks_execute_bit 0x1ed = false.
Proof. done. Qed.

(** A file with the same key twice is refused as a whole, and the settings that
    were saved are lost: the comment on the reader promises the last value. *)
Example duplicate_key_refused :
  deserialize (JsObject [("signups_allowed", JsBool false); ("signups_allowed", JsBool true)])%string = None.
Proof. by vm_compute. Qed.

(** The paths of src/src/storage.rs, on the inputs of its tests. *)
Example handles_local_paths :
  join_path "data" "attachments" = "data/attachments"%string ∧ with_extension "data/rsa_key" "pem" = "data/rsa_key.pem"%string
  ∧ storage_parent "data/rsa_key.pem" = Some "data"%string ∧ storage_file_name "data/rsa_key.pem" = Some "rsa_key.pem"%string.
Proof. by vm_compute. Qed.

Definition changes : list (ConfigStore * ConfigRequest) := [(store, PostConfig settings); (store, DuoKey "k"); (store, DeleteConfig)].
Lemma requests_keep_fixed_settings_witness :
  env (config_history changes started) = env started
  ∧ (config (config_history changes started) !! "data_folder" = build (env started) !! "data_folder"
     ∨ config (config_history changes started) !! "data_folder" = config started !! "data_folder").
Proof.
  assert (Hi : mkItem "data_folder" TString false (Def (VStr "data")) ∈ config_table) by (apply (find_item_Some "data_folder"); reflexivity).
  assert (Hn : ("data_folder" : string) ∉ ["_duo_akey"; "domain_set"]%string) by (apply (bool_decide_unpack _); exact I).
  destruct (requests_keep_fixed_settings duo_env duo_file started changes start) as (He & _ & _ & Hfix).
  split; [exact He|]. exact (Hfix _ Hi eq_refl I Hn).
Defined.

Lemma saved_settings_survive_restart_witness :
  ∃ s1, Config_load false (env saved) (file saved) = Ok s1 ∧ config s1 = config saved ∧ usr s1 = usr saved.
Proof. exact (saved_settings_survive_restart body settings started saved file_text body_read save). Defined.

Lemma support_report_hides_secrets_witness : get_support_json (password "hunter2") = get_support_json (password "*******").
Proof.
  apply support_report_hides_secrets. intros i Hi. unfold same_report, password. pose proof (find_item_elem i Hi) as Hf.
  destruct (decide (item_name i = "smtp_password"%string)) as [Hn|Hp].
  { rewrite Hn in *. by rewrite (kind_of i "smtp_password" TPass Hf eq_refl), bool_decide_true, !insert_item_eq. }
  rewrite !(insert_item_ne "smtp_password") by done. destruct (decide (item_name i = "smtp_host"%string)) as [Hn|Hh].
  { rewrite Hn in *. rewrite (kind_of i "smtp_host" TString Hf eq_refl), bool_decide_false, !insert_item_eq by done. right.
    split; [apply (bool_decide_unpack _); exact I|]. eexists _, _. split_and!; [done..|]. vm_compute. reflexivity. }
  rewrite !insert_item_ne by done. case_bool_decide; [done|by left].
Defined.

Lemma valid_settings_are_usable_witness : num (build ∅) "database_max_conns" ≤ 256 ∧ num (build ∅) "icon_redirect_code" ∈ [301; 302; 307; 308].
Proof.
  assert (Hp : passes (build ∅)) by (vm_compute; reflexivity).
  destruct (valid_settings_are_usable (F := SampleFactors.factors) (build ∅) Sample.db Hp) as (_ & _ & Hmax & _ & _ & Hcode & _).
  by split.
Defined.
End sample_settings.
