(* ===== verification/Rosters.v ===== *)
(** The members of an organization as a state machine.

    [step a] is what the actor [a] may do to the table of memberships, one row
    at a time: who may invite, accept, confirm, promote, revoke, restore and
    remove whom, and that the last confirmed owner stays. The lemmas show that
    every handler of [Members] makes steps of this machine only, on every path.
    [Owners] draws the conclusions. *)
From S2P Require Import Prelude Schema Roles Users Invariants Samples TwoFactors OneTimeCodes Sends EmergencyRows Memberships Groups Collections Guards VaultItems Ciphers Policies Organizations Deletion Erasure Emergency Members.
Local Open Scope Z_scope.

Notation roster := users_organizations.
Notation Roster := (gmap string Membership.t).
Notation status_i32 := MembershipStatus_as_i32.
Notation type_i32 := MembershipType_as_i32.

(** ** Who acts *)

Inductive Actor :=
(** An account with a role of Admin or Owner in an organization. *)
| Member (user : string) (role : MembershipType) (org : string)
(** An account, on its own memberships. *)
| Account (user : string)
(** An account, as the founder of a new organization. *)
| Founder (user org : string)
(** The holder of a signed invitation. *)
| Invitee (member_id org : string)
(** The holder of the API key of an organization. *)
| Directory (org : string)
(** The administrator of the server. *)
| Administrator
(** The emergency contact that takes an account over. *)
| Contact (grantor : string).

Definition owner_row (m : Membership.t) : Prop :=
  Membership.atype m = type_i32 Owner ∧ Membership.status m = status_i32 Confirmed.

(** If [m] is a confirmed owner, its organization has another one. *)
Definition spared (T : Roster) (m : Membership.t) : Prop :=
  owner_row m → ∃ k m', T !! k = Some m' ∧ k ≠ Membership.uuid m
    ∧ Membership.org_uuid m' = Membership.org_uuid m ∧ owner_row m'.

(** [m'] has the identity, the role and the key of [m]. *)
Record same_role (m m' : Membership.t) : Prop := {
  sr_uuid : Membership.uuid m' = Membership.uuid m;
  sr_user : Membership.user_uuid m' = Membership.user_uuid m;
  sr_org : Membership.org_uuid m' = Membership.org_uuid m;
  sr_access_all : Membership.access_all m' = Membership.access_all m;
  sr_akey : Membership.akey m' = Membership.akey m;
  sr_status : Membership.status m' = Membership.status m;
  sr_atype : Membership.atype m' = Membership.atype m
}.

(** What the schema promises of the table: rows are stored under their id, and
    an account has one membership per organization. *)
Record orderly (T : Roster) : Prop := {
  od_key : map_Forall (λ k r, Membership.uuid r = k) T;
  od_unique : ∀ k k' m m', T !! k = Some m → T !! k' = Some m' →
    Membership.user_uuid m = Membership.user_uuid m' → Membership.org_uuid m = Membership.org_uuid m' → k = k'
}.

(** No other membership of the account of [m] in the organization of [m]. *)
Definition alone (T : Roster) (m : Membership.t) : Prop :=
  ∀ k m', T !! k = Some m' → Membership.user_uuid m' = Membership.user_uuid m →
    Membership.org_uuid m' = Membership.org_uuid m → k = Membership.uuid m.

Lemma orderly_insert T k m :
  orderly T → Membership.uuid m = k → alone T m → orderly (<[k := m]> T).
Proof.
  intros [Hk Hu] <- Ha. split; [by apply map_Forall_insert_2|]. intros k1 k2 m1 m2 H1 H2 He Ho.
  apply lookup_insert_Some in H1 as [[<- <-]|[Hn1 H1]], H2 as [[<- <-]|[Hn2 H2]]; [done| | |by eapply Hu].
  - symmetry. by eapply Ha.
  - by eapply Ha.
Qed.
Lemma orderly_delete T k : orderly T → orderly (base.delete k T).
Proof.
  intros [Hk Hu]. split; [by apply map_Forall_delete|]. intros k1 k2 m1 m2 [_ H1]%lookup_delete_Some [_ H2]%lookup_delete_Some.
  by apply Hu.
Qed.
(** A row that is there is alone, and so is a changed row of the same member. *)
Lemma alone_present T m m' :
  orderly T → T !! Membership.uuid m = Some m → Membership.uuid m' = Membership.uuid m →
  Membership.user_uuid m' = Membership.user_uuid m → Membership.org_uuid m' = Membership.org_uuid m → alone T m'.
Proof. intros [Hk Hu] Hm He Hus Ho k m2 H2 Hu2 Ho2. rewrite He. eapply Hu; [done|done|congruence..]. Qed.

Section machine.
Context `{E : Env}.

(** An invitation starts open, or accepted when no mail is sent. *)
Definition invited_status (m : Membership.t) : Prop :=
  Membership.status m = status_i32 Invited
  ∨ (mail_enabled = false ∧ Membership.status m = status_i32 Accepted).

Definition may_accept (a : Actor) (m : Membership.t) : Prop :=
  a = Invitee (Membership.uuid m) (Membership.org_uuid m) ∨ a = Account (Membership.user_uuid m)
  ∨ (mail_enabled = false ∧ ∃ u r, a = Member u r (Membership.org_uuid m)).

(** An owner is only revoked and restored by an owner, and nobody by itself;
    a policy revokes members below Admin. *)
Definition may_suspend (a : Actor) (m : Membership.t) : Prop :=
  (∃ u r, a = Member u r (Membership.org_uuid m) ∧ u ≠ Membership.user_uuid m
          ∧ (Membership.atype m = type_i32 Owner → r = Owner))
  ∨ a = Directory (Membership.org_uuid m).

Definition may_remove (a : Actor) (m : Membership.t) : Prop :=
  (∃ u r, a = Member u r (Membership.org_uuid m) ∧ (Membership.atype m = type_i32 User_ ∨ r = Owner))
  ∨ a = Account (Membership.user_uuid m) ∨ a = Directory (Membership.org_uuid m) ∨ a = Administrator
  ∨ (a = Contact (Membership.user_uuid m) ∧ Membership.atype m ≠ type_i32 Owner)
  (** An invitation whose mail fails can take the account of the address, and
      with it its memberships elsewhere. *)
  ∨ (mail_enabled = true ∧ ∃ o, o ≠ Membership.org_uuid m ∧ (a = Directory o ∨ ∃ u r, a = Member u r o)).

Inductive step (a : Actor) (T : Roster) : Roster → Prop :=
| st_create m :
    a = Founder (Membership.user_uuid m) (Membership.org_uuid m) → T !! Membership.uuid m = None →
    (∀ k m', T !! k = Some m' → Membership.org_uuid m' ≠ Membership.org_uuid m) → owner_row m →
    step a T (<[Membership.uuid m := m]> T)
| st_invite m t u r :
    a = Member u r (Membership.org_uuid m) → T !! Membership.uuid m = None → alone T m → invited_status m →
    Membership.atype m = type_i32 t → t = User_ ∨ r = Owner →
    step a T (<[Membership.uuid m := m]> T)
| st_import m :
    a = Directory (Membership.org_uuid m) → T !! Membership.uuid m = None → alone T m → invited_status m →
    Membership.atype m = type_i32 User_ → Membership.access_all m = false →
    step a T (<[Membership.uuid m := m]> T)
| st_profile m m' :
    T !! Membership.uuid m = Some m → same_role m m' →
    a = Account (Membership.user_uuid m) ∨ a = Directory (Membership.org_uuid m) →
    step a T (<[Membership.uuid m := m']> T)
| st_accept m m' :
    T !! Membership.uuid m = Some m → Membership.status m = status_i32 Invited → may_accept a m →
    same_role (Membership.set_status (λ _, status_i32 Accepted) m) m' →
    step a T (<[Membership.uuid m := m']> T)
| st_confirm m key u r :
    T !! Membership.uuid m = Some m → Membership.status m = status_i32 Accepted → key ≠ "" →
    a = Member u r (Membership.org_uuid m) → Membership.atype m = type_i32 User_ ∨ r = Owner →
    step a T (<[Membership.uuid m :=
      Membership.set_akey (λ _, key) (Membership.set_status (λ _, status_i32 Confirmed) m)]> T)
| st_edit m t all u r :
    T !! Membership.uuid m = Some m → a = Member u r (Membership.org_uuid m) →
    (Membership.atype m ≠ type_i32 t →
       i32_ge_type (Membership.atype m) Admin = true ∨ type_ge t Admin = true → r = Owner) →
    (Membership.atype m = type_i32 Owner → r = Owner) → (t ≠ Owner → spared T m) →
    step a T (<[Membership.uuid m :=
      Membership.set_atype (λ _, type_i32 t) (Membership.set_access_all (λ _, all) m)]> T)
| st_assign m t :
    T !! Membership.uuid m = Some m → a = Administrator → (t ≠ Owner → spared T m) →
    step a T (<[Membership.uuid m := Membership.set_atype (λ _, type_i32 t) m]> T)
| st_revoke m :
    T !! Membership.uuid m = Some m → may_suspend a m ∨ i32_lt_type (Membership.atype m) Admin = true →
    spared T m → step a T (<[Membership.uuid m := (Membership_revoke m).2]> T)
| st_restore m :
    T !! Membership.uuid m = Some m → may_suspend a m →
    step a T (<[Membership.uuid m := (Membership_restore m).2]> T)
| st_remove m :
    T !! Membership.uuid m = Some m → may_remove a m → spared T m →
    step a T (base.delete (Membership.uuid m) T).

(** ** Runs *)

Lemma step_orderly a T T' : orderly T → step a T T' → orderly T'.
Proof.
  intros HT Hs. destruct Hs;
    first [ by apply orderly_delete
          | by apply orderly_insert
          | match goal with H : same_role _ _ |- _ => destruct H end;
            apply orderly_insert; [done..|]; by eapply alone_present
          | apply orderly_insert; [done..|]; by eapply alone_present
          | idtac ].
  - apply orderly_insert; [done..|]. intros k m' Hm' _ Ho. by destruct (H1 k m' Hm').
  - unfold Membership_revoke. case_match; (apply orderly_insert; [done..|]; by eapply alone_present).
  - unfold Membership_restore. case_match; (apply orderly_insert; [done..|]; by eapply alone_present).
Qed.

(** [steps a d d']: the memberships of [d'] come from those of [d] by steps of
    the actor. *)
Definition steps (a : Actor) (d d' : DB) : Prop :=
  orderly (roster d) → rtc (step a) (roster d) (roster d').

Lemma rtc_step_orderly a T T' : rtc (step a) T T' → orderly T → orderly T'.
Proof. induction 1; eauto using step_orderly. Qed.

Lemma steps_orderly a d d' : steps a d d' → orderly (roster d) → orderly (roster d').
Proof. intros Hs Hk. eapply rtc_step_orderly; [by apply Hs|done]. Qed.

#[export] Instance steps_preorder a : PreOrder (steps a).
Proof.
  split; [intros d _; apply rtc_refl|]. intros d1 d2 d3 H1 H2 Hk. etrans; [by apply H1|].
  apply H2. by eapply steps_orderly.
Qed.

Lemma same_steps {A} a (m : M DB A) : keeps (same_on roster) m → keeps (steps a) m.
Proof. intros Hm d _. by rewrite (Hm d). Qed.
End machine.

(** ** Statements that leave memberships alone *)

Section frame.
Context `{E : Env} `{K : Codecs} `{J : PolicyJson} `{C : Crypto}.
Notation R := (same_on roster).

Lemma touch_same u : keeps R (User_update_uuid_revision u).
Proof. unfold User_update_uuid_revision. db_keeps; done. Qed.
Lemma invitation_save_same i : keeps R (Invitation_save i).
Proof. unfold Invitation_save. db_keeps; done. Qed.
Lemma invitation_take_same mail : keeps R (Invitation_take mail).
Proof. unfold Invitation_take, Invitation_delete. db_keeps; done. Qed.
Lemma user_save_same u : keeps R (User_save u).
Proof. unfold User_save. db_keeps; done. Qed.
Lemma org_save_same o : keeps R (Organization_save o).
Proof. unfold Organization_save, User_update_uuid_revision. db_keeps; done. Qed.
Lemma collection_save_same c : keeps R (Collection_save c).
Proof. unfold Collection_save, Collection_update_users_revision, User_update_uuid_revision. db_keeps; done. Qed.
Lemma policy_save_same p : keeps R (OrgPolicy_save p).
Proof. unfold OrgPolicy_save. db_keeps; done. Qed.
Lemma check_allowed_same id m action : keeps R (OrgPolicy_check_user_allowed id m action).
Proof.
  unfold OrgPolicy_check_user_allowed, find_and_activate_email_2fa, activate_email_2fa, TwoFactor_save. db_keeps; done.
Qed.
Lemma validate_same pw otp u del : keeps R (PasswordOrOtpData_validate pw otp u del).
Proof.
  unfold PasswordOrOtpData_validate, validate_protected_action_otp, TwoFactor_delete, TwoFactor_save. db_keeps; done.
Qed.
Lemma factor_delete_same tf : keeps R (TwoFactor_delete tf).
Proof. unfold TwoFactor_delete. db_keeps; done. Qed.
Lemma factors_delete_same u : keeps R (TwoFactor_delete_all_by_user u).
Proof. unfold TwoFactor_delete_all_by_user. db_keeps; done. Qed.
Lemma group_user_save_same gu : keeps R (GroupUser_save gu).
Proof. unfold GroupUser_save, GroupUser_update_user_revision, User_update_uuid_revision. db_keeps; done. Qed.
Lemma group_users_delete_same m : keeps R (GroupUser_delete_all_by_member m).
Proof. unfold GroupUser_delete_all_by_member, touch_member, User_update_uuid_revision. db_keeps; done. Qed.
Lemma group_clear_same g o : keeps R (GroupUser_delete_all_by_group g o).
Proof.
  unfold GroupUser_delete_all_by_group, touch_group_users, GroupUser_update_user_revision, User_update_uuid_revision.
  db_keeps; done.
Qed.
Lemma group_save_same g : keeps R (Group_save g).
Proof. unfold Group_save. db_keeps; done. Qed.
Lemma grant_collections_same o u l : keeps R (grant_collections o u l).
Proof. unfold grant_collections, CollectionUser_save, User_update_uuid_revision. db_keeps; done. Qed.
Lemma collection_user_delete_same cu : keeps R (CollectionUser_delete cu).
Proof. unfold CollectionUser_delete, User_update_uuid_revision. db_keeps; done. Qed.
Lemma collection_users_delete_same u o : keeps R (CollectionUser_delete_all_by_user_and_org u o).
Proof. unfold CollectionUser_delete_all_by_user_and_org. db_keeps; done. Qed.
Lemma set_password_same stamp tokens pw key reset routes u : keeps R (User_set_password stamp tokens pw key reset routes u).
Proof.
  unfold User_set_password, User_reset_security_stamp, Device_rotate_refresh_tokens_by_user, Device_save. db_keeps; done.
Qed.
Lemma check_org_same o o' : keeps R (check_org o o').
Proof. unfold check_org. db_keeps. Qed.
Lemma expect_same {A} (o : option A) msg : keeps R (expect o msg).
Proof. unfold expect, panic. db_keeps. Qed.
End frame.
#[export] Hint Resolve touch_same invitation_save_same invitation_take_same user_save_same org_save_same
  collection_save_same policy_save_same check_allowed_same validate_same factor_delete_same factors_delete_same
  group_user_save_same group_users_delete_same group_clear_same group_save_same grant_collections_same
  collection_user_delete_same collection_users_delete_same set_password_same check_org_same expect_same : vault.

Section frame2.
Context `{E : Env}.
Notation R := (same_on roster).
Lemma grant_groups_same o m l : keeps R (grant_groups o m l).
Proof. unfold grant_groups. db_keeps. Qed.
End frame2.
#[export] Hint Resolve grant_groups_same : vault.

(** ** Statements that write a membership *)

Section writes.
Context `{E : Env}.

Lemma member_save_cases m d :
  orderly (roster d) →
  match Membership_save m d with
  | (Err _, d') => roster d' = roster d
  | (Ok _, d') => roster d' = <[Membership.uuid m := m]> (roster d) ∧ alone (roster d) m
  end.
Proof.
  intros Hk. unfold Membership_save, User_update_uuid_revision. rewrite run_modify. unfold save_row.
  destruct (_ && _) eqn:Hok; [|done]. split; [done|]. apply andb_true_iff in Hok as [_ Hno]. apply negb_true_iff in Hno.
  intros k m' Hm' Hu Ho. pose proof (od_key _ Hk _ _ Hm') as Hkey. simpl in Hkey. subst k.
  destruct (decide (Membership.uuid m' = Membership.uuid m)) as [|Hne]; [done|]. exfalso.
  rewrite nonempty_false in Hno. apply (Hno m'), elem_of_where. split; [apply elem_of_rows; eauto|].
  rewrite !bool_decide_true, bool_decide_false by done. done.
Qed.

Lemma member_save_leaves m (Q : Roster → Prop) d :
  orderly (roster d) → Q (roster d) → (alone (roster d) m → Q (<[Membership.uuid m := m]> (roster d))) →
  leaves roster (Membership_save m) Q d.
Proof.
  intros Hk H1 H2. pose proof (member_save_cases m d Hk) as Hc. unfold leaves.
  destruct (Membership_save m d) as [[] d'] eqn:Hs; simpl; [destruct Hc as [-> Ha]; by apply H2|by rewrite Hc].
Qed.

(** A save in the middle of a handler. *)
Lemma leaves_save {A} m (f : () → M DB A) (Q : Roster → Prop) d :
  orderly (roster d) → Q (roster d) →
  (∀ d', roster d' = <[Membership.uuid m := m]> (roster d) → alone (roster d) m → leaves roster (f ()) Q d') →
  leaves roster (Membership_save m ≫= f) Q d.
Proof.
  intros Hk HQ Hf. pose proof (member_save_cases m d Hk) as Hc. unfold leaves, mbind, M_bind.
  destruct (Membership_save m d) as [[[]|e] d']; simpl; [destruct Hc as [Hd' Ha]; by apply Hf|by rewrite Hc].
Qed.

Lemma delete_where_key {A} (key : A → string) (t : gmap string A) k :
  map_Forall (λ k r, key r = k) t → delete_where (λ r, key r == k) t = base.delete k t.
Proof.
  intros Ht. apply map_eq. intros k'. destruct (decide (k' = k)) as [->|Hne].
  - rewrite lookup_delete_eq. apply eq_None_not_Some. intros [a [Ha Hp]%lookup_delete_where].
    pose proof (Ht _ _ Ha). by bools.
  - rewrite lookup_delete_ne by done. apply option_eq. intros a. rewrite lookup_delete_where. split; [by intros []|].
    intros Ha. split; [done|]. apply bool_decide_false. pose proof (Ht _ _ Ha). by simplify_eq/=.
Qed.

Lemma member_delete_leaves m (Q : Roster → Prop) d :
  orderly (roster d) → Q (roster d) → Q (base.delete (Membership.uuid m) (roster d)) → leaves roster (Membership_delete m) Q d.
Proof.
  intros Hk H1 H2. unfold Membership_delete. apply leaves_skip; [db_keeps|done|intros _ d1 Hd1 _].
  apply leaves_skip; [db_keeps|by rewrite Hd1|intros _ d2 Hd2 _].
  apply leaves_skip; [db_keeps|by rewrite Hd2, Hd1|intros _ d3 Hd3 _].
  unfold leaves, delete_row. destruct (member_referenced _ _); simpl; [by rewrite Hd3, Hd2, Hd1|].
  rewrite Hd3, Hd2, Hd1, (delete_where_key Membership.uuid) by apply Hk. done.
Qed.

(** The rows that the lookups find. *)
Lemma find_member_Some (p : Membership.t → bool) d m :
  orderly (roster d) → first (where_ p (rows (roster d))) = Some m →
  roster d !! Membership.uuid m = Some m ∧ p m = true.
Proof.
  intros Hk [[k Hm]%elem_of_rows Hp]%head_Some_elem%elem_of_where. pose proof (od_key _ Hk _ _ Hm). by simplify_eq/=.
Qed.

Lemma found_in_org k o d m :
  orderly (roster d) → Membership_find_by_uuid_and_org k o d = Some m →
  roster d !! k = Some m ∧ Membership.uuid m = k ∧ Membership.org_uuid m = o.
Proof. intros Hk [Hm Hp]%find_member_Some; [|done]. bools. by subst. Qed.

(** Counting owners: a handler that gives up when [b] holds and there is one
    owner at most spares [m], if [b] holds for confirmed owners. *)
Lemma count_spares d m o (b : bool) :
  b && (Membership_count_confirmed_by_org_and_type o Owner d <=? 1) = false →
  orderly (roster d) → roster d !! Membership.uuid m = Some m → Membership.org_uuid m = o →
  (owner_row m → b = true) → spared (roster d) m.
Proof.
  intros Hc Hk Hm Ho Hb Hown. rewrite (Hb Hown) in Hc. apply Z.leb_gt in Hc. destruct Hown as [Ht Hs].
  destruct (another_owner_keyed d o m (od_key _ Hk)) as (m' & Hne & (Hin & Ho' & Ht' & Hs')); [|done|].
  { split; [|done]. apply elem_of_rows. eauto. }
  apply elem_of_rows in Hin as [k Hin]. exists k, m'. split_and!; [done| |congruence|done].
  intros ->. pose proof (od_key _ Hk _ _ Hin). simplify_eq/=.
Qed.

Lemma owner_row_b m : owner_row m →
  i32_eq_type (Membership.atype m) Owner = true ∧ (Membership.status m == status_i32 Confirmed) = true.
Proof. intros [Ht Hs]. unfold i32_eq_type. by rewrite !bool_decide_true. Qed.
End writes.

(** ** Handlers *)

(** The memberships at hand are reached already. *)
Ltac here := match goal with H : rtc (step _) _ _ |- _ => exact H end.

(** Walks down a handler to the statement that writes a membership. *)
Ltac stroll :=
  repeat first
    [ apply leaves_gets
    | apply leaves_some_or; [here|intros ? ?]
    | apply leaves_if; intros ?; [here|]
    | match goal with |- leaves _ (match ?o with Some _ => _ | None => _ end) _ _ => destruct o eqn:?; [|here] end ].

(** Passes a part of a handler that leaves memberships alone. *)
Ltac pass :=
  apply leaves_skip;
  [ solve [db_keeps] | here
  | let d' := fresh "d" in let Hd := fresh "Hd" in intros ? d' Hd _; rewrite <- Hd in *; clear Hd ].

Ltac by_steps :=
  let d := fresh "d" in let Hk := fresh "Hk" in intros d Hk;
  let Q := fresh "Q" in let HQ := fresh "HQ" in
  match goal with |- rtc (step ?a) _ (roster (?m _).2) =>
    change (leaves roster m (rtc (step a) (roster d)) d);
    assert (HQ : rtc (step a) (roster d) (roster d)) by apply rtc_refl end.

(** The member that a lookup found. *)
Ltac found :=
  match goal with
  | Hk : orderly (roster ?d), H : Membership_find_by_uuid_and_org _ _ ?d = Some ?a |- _ =>
      let Hm := fresh "Hm" in let Hu := fresh "Hu" in let Ho := fresh "Ho" in
      destruct (found_in_org _ _ _ _ Hk H) as (Hm & Hu & Ho); clear H; rename a into m; subst
  end.

Lemma revoke_uuid m : Membership.uuid (Membership_revoke m).2 = Membership.uuid m.
Proof. unfold Membership_revoke. by case_match. Qed.
Lemma restore_uuid m : Membership.uuid (Membership_restore m).2 = Membership.uuid m.
Proof. unfold Membership_restore. by case_match. Qed.

(** The role checks of the handlers. *)
Lemma owner_or n t (r : MembershipType) :
  negb (i32_eq_type n t) && negb (r == Owner) = false → n = type_i32 t ∨ r = Owner.
Proof. unfold i32_eq_type. intros [H|H]%andb_false_iff; bools; auto. Qed.
Lemma owner_only n (r : MembershipType) :
  i32_eq_type n Owner && negb (r == Owner) = false → n = type_i32 Owner → r = Owner.
Proof. unfold i32_eq_type. intros [H|H]%andb_false_iff Hn; by bools. Qed.

Lemma owner_grants n t (r : MembershipType) :
  negb (i32_eq_type n t) && (i32_ge_type n Admin || type_ge t Admin) && negb (r == Owner) = false →
  n ≠ type_i32 t → i32_ge_type n Admin = true ∨ type_ge t Admin = true → r = Owner.
Proof.
  unfold i32_eq_type. intros H Hn Ha. rewrite bool_decide_false in H by done.
  destruct Ha as [Ha|Ha]; rewrite Ha, ?orb_true_r in H; simpl in H; by bools.
Qed.

Ltac roles :=
  repeat match goal with
  | H : negb (i32_eq_type _ _) && (_ || _) && negb (_ == Owner) = false |- _ => pose proof (owner_grants _ _ _ H); clear H
  | H : negb (i32_eq_type _ _) && negb (_ == Owner) = false |- _ => apply owner_or in H
  | H : i32_eq_type _ Owner && negb (_ == Owner) = false |- _ => pose proof (owner_only _ _ H); clear H
  end; bools.

Section handlers.
Context `{E : Env} `{K : Codecs} `{J : PolicyJson} `{C : Crypto}.

(** The actor behind the guard of an administrator. *)
Definition acts (headers : AdminHeaders.t) : Actor :=
  Member (User.uuid (AdminHeaders.user headers)) (AdminHeaders.membership_type headers) (AdminHeaders.org_id headers).

Lemma leaves_check_org {A} (Q : Roster → Prop) o o' (f : () → M DB A) d :
  Q (roster d) → (o = o' → leaves roster (f ()) Q d) → leaves roster (check_org o o' ≫= f) Q d.
Proof. intros HQ Hf. unfold check_org. case_bool_decide; [by apply Hf|done]. Qed.
Ltac guarded := apply leaves_check_org; [assumption|intros ->].

Lemma confirm_steps draws org_id member_id key headers :
  keeps (steps (acts headers)) (confirm_invite_impl draws org_id member_id key headers).
Proof.
  by_steps. unfold confirm_invite_impl. guarded. stroll. found. roles. pass. pass.
  apply member_save_leaves; [done|here|intros _]. eapply rtc_once, (st_confirm _ _ m key); [done..| |done].
  unfold acts. by rewrite Ho.
Qed.

Lemma delete_steps org_id member_id headers :
  keeps (steps (acts headers)) (delete_member_impl org_id member_id headers).
Proof.
  by_steps. unfold delete_member_impl. guarded. stroll. found.
  assert (Hs : spared (roster d) m).
  { eapply count_spares; [done..|]. by intros [-> ->]%owner_row_b. }
  roles. pass. apply member_delete_leaves; [done|here|]. apply rtc_once, st_remove; [done| |done].
  left. eexists _, _. split; [unfold acts; by rewrite Ho|done].
Qed.

Lemma revoke_steps org_id member_id headers :
  keeps (steps (acts headers)) (revoke_member_impl org_id member_id headers).
Proof.
  by_steps. unfold revoke_member_impl. guarded. stroll. found.
  assert (Hs : spared (roster d) m).
  { eapply count_spares; [done..|]. by intros [-> _]%owner_row_b. }
  roles. apply member_save_leaves; [done|here|intros _]. rewrite revoke_uuid. apply rtc_once, st_revoke; [done| |done].
  left. left. eexists _, _. split_and!; [unfold acts; by rewrite Ho|done..].
Qed.

Lemma restore_steps draws org_id member_id headers :
  keeps (steps (acts headers)) (restore_member_impl draws org_id member_id headers).
Proof.
  by_steps. unfold restore_member_impl. guarded. stroll. found. roles. pass.
  apply member_save_leaves; [done|here|intros _]. rewrite restore_uuid. apply rtc_once, st_restore; [done|].
  left. eexists _, _. split_and!; [unfold acts; by rewrite Ho|done..].
Qed.

Lemma reinvite_steps org_id member_id headers :
  org_id = AdminHeaders.org_id headers → keeps (steps (acts headers)) (reinvite_member_impl org_id member_id).
Proof.
  intros ->. by_steps. unfold reinvite_member_impl. stroll. found. bools.
  apply leaves_if; intros _; [apply leaves_keeps; [db_keeps|here]|].
  pass. apply member_save_leaves; [done|here|intros _]. apply rtc_once, (st_accept _ _ m); [done..| |by split].
  right; right. split; [done|]. eexists _, _. unfold acts. by rewrite Ho.
Qed.

Lemma edit_steps draws org_id member_id data headers :
  keeps (steps (acts headers)) (edit_member draws org_id member_id data headers).
Proof.
  by_steps. unfold edit_member. guarded. stroll. found. rename a into t.
  assert (Hs : t ≠ Owner → spared (roster d) m).
  { intros Ht. eapply count_spares; [done..|]. intros [-> ->]%owner_row_b. by rewrite bool_decide_false. }
  roles. do 6 pass. apply member_save_leaves; [done|here|intros _].
  eapply rtc_once, (st_edit _ _ m t); [done|unfold acts; by rewrite Ho|done..].
Qed.

(** *** Bulk requests *)

Lemma keeps_attempt R (m : M DB ()) : keeps R m → keeps R (attempt m).
Proof. intros Hm d. specialize (Hm d). unfold attempt. destruct (m d) as [[] ?]; [done|]. by case_match. Qed.

Lemma keeps_bulk R `{!PreOrder R} {A} (l : list A) (f : A → M DB ()) : (∀ a, keeps R (f a)) → keeps R (bulk l f).
Proof.
  intros Hf. induction l as [|a l IH]; simpl; [apply keeps_ret, _|].
  apply keeps_bind; [done|by apply keeps_attempt|intros r]. apply keeps_bind; [done..|intros; apply keeps_ret, _].
Qed.

(** The check of the organization comes first. *)
Lemma keeps_check_org {A} (R : relation DB) `{!PreOrder R} o o' (f : () → M DB A) :
  (o = o' → keeps R (f ())) → keeps R (check_org o o' ≫= f).
Proof.
  intros Hf. unfold check_org. case_bool_decide as Ho; [exact (Hf Ho)|].
  intros d. simpl. reflexivity.
Qed.

Lemma bulk_confirm_steps draws org_id keys headers :
  keeps (steps (acts headers)) (bulk_confirm_invite draws org_id keys headers).
Proof.
  apply keeps_check_org; [apply _|intros _]. induction (default [] keys) as [|c l IH]; simpl; [apply keeps_ret, _|].
  apply keeps_bind; [apply _|apply same_steps, expect_same|intros id].
  apply keeps_bind; [apply _|apply keeps_attempt, confirm_steps|intros r].
  apply keeps_bind; [apply _|exact IH|intros; apply keeps_ret, _].
Qed.
Lemma bulk_delete_steps org_id ids headers : keeps (steps (acts headers)) (bulk_delete_member org_id ids headers).
Proof. apply keeps_check_org; [apply _|intros _]. apply keeps_bulk; [apply _|intros; apply delete_steps]. Qed.
Lemma bulk_revoke_steps org_id ids headers : keeps (steps (acts headers)) (bulk_revoke_members org_id ids headers).
Proof. apply keeps_check_org; [apply _|intros _]. apply keeps_bulk; [apply _|intros; apply revoke_steps]. Qed.
Lemma bulk_restore_steps draws org_id ids headers :
  keeps (steps (acts headers)) (bulk_restore_members draws org_id ids headers).
Proof. apply keeps_check_org; [apply _|intros _]. apply keeps_bulk; [apply _|intros; apply restore_steps]. Qed.
Lemma bulk_reinvite_steps org_id ids headers : keeps (steps (acts headers)) (bulk_reinvite_members org_id ids headers).
Proof. apply keeps_check_org; [apply _|intros ->]. apply keeps_bulk; [apply _|intros; by apply reinvite_steps]. Qed.

(** *** Acceptance *)

Lemma accept_org_steps a draws user m m0 key d :
  orderly (roster d) → roster d !! Membership.uuid m0 = Some m0 → may_accept a m0 → same_role m0 m →
  leaves roster (accept_org_invite draws user m key) (rtc (step a) (roster d)) d.
Proof.
  intros Hk Hm Ha Hr. assert (HQ : rtc (step a) (roster d) (roster d)) by apply rtc_refl.
  unfold accept_org_invite. stroll. bools. pass. apply leaves_tail; [db_keeps|].
  apply member_save_leaves; [done|here|intros _]. change (Membership.uuid (Membership.set_reset_password_key _ _)) with (Membership.uuid m).
  rewrite (sr_uuid _ _ Hr). destruct Hr. apply rtc_once, (st_accept _ _ m0); [done|congruence|done|by split].
Qed.

Lemma accept_steps `{OrgInviteTokens} draws org_id member_id data headers :
  keeps (steps (Invitee member_id org_id)) (accept_invite draws org_id member_id data headers).
Proof.
  by_steps. unfold accept_invite. pass. stroll. bools. pass.
  apply leaves_if; intros _; [|apply leaves_keeps; [db_keeps|here]]. stroll. found. pass.
  apply (accept_org_steps _ _ _ _ m); [done|by rewrite Hu|left; congruence|by split].
Qed.

#[local] Opaque accept_org_invite.

(** One UPDATE of many rows is a sequence of steps. *)
Lemma update_steps a p f T :
  orderly T → (∀ T m, orderly T → T !! Membership.uuid m = Some m → p m = true → step a T (<[Membership.uuid m := f m]> T)) →
  rtc (step a) T (update_where p f T).
Proof.
  intros HT Hstep.
  set (U := foldr (λ k T', match T !! k with
    | Some m => if p m then <[k := f m]> T' else T' | None => T' end) T).
  assert (HU : ∀ l k, U l !! k = if decide (k ∈ l) then update_where p f T !! k else T !! k).
  { induction l as [|k l IH]; intros k'; [by rewrite decide_False by apply not_elem_of_nil|]. simpl.
    destruct (decide (k' = k)) as [->|Hne].
    - rewrite decide_True by left. rewrite lookup_update_where. destruct (T !! k) as [m|] eqn:Hm; simpl.
      + destruct (p m) eqn:Hp; [by rewrite lookup_insert_eq|]. rewrite IH, lookup_update_where, Hm. simpl. rewrite Hp. by case_decide.
      + rewrite IH, lookup_update_where, Hm. by case_decide.
    - transitivity (U l !! k').
      { destruct (T !! k) as [m|]; [|done]. destruct (p m); [|done]. by rewrite lookup_insert_ne. }
      rewrite IH. apply decide_ext. rewrite elem_of_cons. naive_solver. }
  assert (Hl : ∀ l, NoDup l → rtc (step a) T (U l)).
  { induction l as [|k l IH]; intros Hnd; [apply rtc_refl|]. apply NoDup_cons in Hnd as [Hk Hnd]. specialize (IH Hnd).
    simpl. destruct (T !! k) as [m|] eqn:Hm; [|done]. destruct (p m) eqn:Hp; [|done]. eapply rtc_r; [exact IH|].
    pose proof (od_key _ HT _ _ Hm) as Hkey. simpl in Hkey. subst k. apply Hstep; [by eapply rtc_step_orderly| |done].
    by rewrite HU, decide_False. }
  replace (update_where p f T) with (U (elements (dom T))); [apply Hl, NoDup_elements|].
  apply map_eq. intros k. rewrite HU. case_decide as Hk; [done|]. rewrite elem_of_elements, not_elem_of_dom in Hk.
  by rewrite lookup_update_where, Hk.
Qed.

Lemma accept_all_steps u : keeps (steps (Account u)) (Membership_accept_user_invitations u).
Proof.
  intros d Hk. simpl. apply update_steps; [done|]. intros T m HT Hm Hp. bools.
  apply (st_accept _ _ m); [done..| |by split]. right; left. congruence.
Qed.

Lemma set_password_steps draws org_identifier user :
  keeps (steps (Account (User.uuid user))) (set_password_accepts draws org_identifier user).
Proof.
  apply keeps_bind; [apply _| |intros _].
  - destruct org_identifier as [id|]; [|db_keeps]. case_match; [|db_keeps].
    by_steps. stroll. apply find_member_Some in H1 as [Hm Hp]; [|done]. bools.
    apply (accept_org_steps _ _ _ _ a0); [done..| |by split]. right; left. congruence.
  - case_match; [db_keeps|apply accept_all_steps].
Qed.

(** *** The own membership *)

Lemma leave_steps org_id headers d :
  let m := OrgMemberHeaders.membership headers in
  orderly (roster d) → roster d !! Membership.uuid m = Some m → Membership.org_uuid m = org_id →
  leaves roster (leave_organization org_id headers) (rtc (step (Account (Membership.user_uuid m))) (roster d)) d.
Proof.
  intros m Hk Hm Ho. assert (HQ : rtc (step (Account (Membership.user_uuid m))) (roster d) (roster d)) by apply rtc_refl.
  unfold leave_organization. fold m. stroll. assert (Hs : spared (roster d) m).
  { eapply count_spares; [done..|]. by intros [-> _]%owner_row_b. }
  apply member_delete_leaves; [done|here|]. apply rtc_once, st_remove; [done| |done]. by right; left.
Qed.

Lemma enroll_steps org_id user_id req headers d :
  let m := OrgMemberHeaders.membership headers in
  orderly (roster d) → roster d !! Membership.uuid m = Some m →
  leaves roster (put_reset_password_enrollment org_id user_id req headers)
    (rtc (step (Account (Membership.user_uuid m))) (roster d)) d.
Proof.
  intros m Hk Hm. assert (HQ : rtc (step (Account (Membership.user_uuid m))) (roster d) (roster d)) by apply rtc_refl.
  unfold put_reset_password_enrollment. fold m. stroll.
  apply leaves_skip; [unfold check_reset_password_applicable; db_keeps|here|intros _ d1 Hd1 _]. rewrite <- Hd1 in *. clear Hd1.
  stroll. pass. apply member_save_leaves; [done|here|intros _]. apply rtc_once, (st_profile _ _ m); [done|by split|by left].
Qed.

(** *** Loops over members read before *)

(** The table [T] differs from [T0] in rows that [P] allows. *)
Definition drift (P : Membership.t → option Membership.t → Prop) (T0 T : Roster) : Prop :=
  ∀ k, T !! k = T0 !! k ∨ ∃ m, T0 !! k = Some m ∧ P m (T !! k).

Lemma drift_refl P T : drift P T T.
Proof. intros k. by left. Qed.
Lemma drift_insert P T0 T m m' :
  T0 !! Membership.uuid m = Some m → P m (Some m') → drift P T0 T → drift P T0 (<[Membership.uuid m := m']> T).
Proof.
  intros Hm HP HT k. destruct (decide (k = Membership.uuid m)) as [->|Hne].
  - right. exists m. by rewrite lookup_insert_eq.
  - rewrite lookup_insert_ne by done. apply HT.
Qed.
Lemma drift_delete P T0 T m :
  T0 !! Membership.uuid m = Some m → P m None → drift P T0 T → drift P T0 (base.delete (Membership.uuid m) T).
Proof.
  intros Hm HP HT k. destruct (decide (k = Membership.uuid m)) as [->|Hne].
  - right. exists m. by rewrite lookup_delete_eq.
  - rewrite lookup_delete_ne by done. apply HT.
Qed.

(** [run a I d T]: [T] comes from the memberships of [d] by steps, and is in [I]. *)
Definition run (a : Actor) (I : Roster → Prop) (d : DB) (T : Roster) : Prop := rtc (step a) (roster d) T ∧ I T.

Lemma run_here a (I : Roster → Prop) d : I (roster d) → run a I d (roster d).
Proof. split; [apply rtc_refl|done]. Qed.

Lemma loop_steps {X} a (I : Roster → Prop) (l : list X) (f : X → M DB ()) d :
  orderly (roster d) → I (roster d) →
  (∀ x d1, x ∈ l → orderly (roster d1) → I (roster d1) → leaves roster (f x) (run a I d1) d1) →
  leaves roster (for_each l f) (run a I d) d.
Proof.
  intros Hk HI Hf.
  assert (Hloop : keeps (preserves (λ d1, orderly (roster d1) ∧ run a I d (roster d1))) (for_each l f)).
  { apply keeps_for_each_elem; [apply _|]. intros x Hx d1 (Hk1 & Hr1 & HI1).
    destruct (Hf x d1 Hx Hk1 HI1) as [Hr2 HI2]. split; [by eapply rtc_step_orderly|]. split; [by etrans|done]. }
  apply Hloop. split; [done|]. by apply run_here.
Qed.

(** The members of a query are rows of the table. *)
Lemma query_rows d m : orderly (roster d) → m ∈ rows (roster d) → roster d !! Membership.uuid m = Some m.
Proof. intros Hk [k Hm]%elem_of_rows. pose proof (od_key _ Hk _ _ Hm). by simplify_eq/=. Qed.

Lemma rotate_steps keys user : keeps (steps (Account (User.uuid user))) (rotate_reset_password_keys keys user).
Proof.
  intros d Hk. unfold rotate_reset_password_keys. rewrite run_gets.
  set (I := drift (λ m o, ∃ m', o = Some m' ∧ same_role m m') (roster d)).
  apply (loop_steps _ I); [done|apply drift_refl|]. intros [o key] d1 _ Hk1 HI.
  apply leaves_some_or; [by apply run_here|]. intros m [Hf%list_elem_of_In _]%List.find_some.
  apply elem_of_where in Hf as [[Hm Hu]%elem_of_where _]. bools. apply query_rows in Hm; [|done].
  apply member_save_leaves; [done|by apply run_here|intros _].
  change (Membership.uuid (Membership.set_reset_password_key _ _)) with (Membership.uuid m). split.
  - destruct (HI (Membership.uuid m)) as [He|(m0 & Hm0 & m1 & He & Hr)].
    + rewrite Hm in He. apply rtc_once, (st_profile _ _ m); [done|by split|left; congruence].
    + simplify_eq. destruct Hr. rewrite <- sr_uuid0 in *.
      apply rtc_once, (st_profile _ _ m1); [done|by split|left; congruence].
  - apply drift_insert; [done| |done]. eexists. split; [done|by split].
Qed.

(** *** Policies *)

Notation revokes := (drift (λ m o, o = Some (Membership_revoke m).2)).

(** Below Admin nobody is an owner. *)
Lemma below_admin_spared T m : i32_lt_type (Membership.atype m) Admin = true → spared T m.
Proof. intros Hlt [Ht _]. by rewrite Ht in Hlt. Qed.

Lemma revoke_write a d0 m d :
  roster d0 !! Membership.uuid m = Some m → i32_lt_type (Membership.atype m) Admin = true →
  orderly (roster d) → revokes (roster d0) (roster d) →
  leaves roster (Membership_save (Membership_revoke m).2) (run a (revokes (roster d0)) d) d.
Proof.
  intros Hm Hlt Hk HI. apply member_save_leaves; [done|by apply run_here|intros _]. rewrite revoke_uuid. split.
  - destruct (HI (Membership.uuid m)) as [He|(m0 & Hm0 & He)].
    + rewrite Hm in He. apply rtc_once, st_revoke; [done|by right|by apply below_admin_spared].
    + simplify_eq. rewrite insert_id by done. apply rtc_refl.
  - by apply drift_insert.
Qed.

(** The body of the three loops: a mail, then the revocation. *)
Lemma revoke_body a (c : bool) (mails : M DB ()) d0 m d :
  roster d0 !! Membership.uuid m = Some m → (c = true → i32_lt_type (Membership.atype m) Admin = true) →
  keeps (same_on roster) mails → orderly (roster d) → revokes (roster d0) (roster d) →
  leaves roster (when c (mails ;; Membership_save (Membership_revoke m).2)) (run a (revokes (roster d0)) d) d.
Proof.
  intros Hm Hc Hmails Hk HI. destruct c; [|by apply run_here].
  apply leaves_skip; [done|by apply run_here|intros _ d1 Hd _]. unfold run. rewrite <- Hd in *. by apply revoke_write; [|apply Hc|..].
Qed.

Lemma enforce_2fa_steps a user : keeps (steps a) (enforce_2fa_policy user).
Proof.
  intros d Hk. unfold enforce_2fa_policy. rewrite run_gets. apply (loop_steps _ (revokes (roster d))); [done|apply drift_refl|].
  intros m d1 Hm Hk1 HI. apply list_elem_of_fmap in Hm as ([m' p] & -> & [[Hm _]%elem_of_inner_join _]%elem_of_where).
  apply revoke_body; [by apply query_rows|done|db_keeps|done..].
Qed.

Lemma enforce_2fa_org_steps a org_id : keeps (steps a) (enforce_2fa_policy_for_org org_id).
Proof.
  intros d Hk. unfold enforce_2fa_policy_for_org. rewrite run_gets. destruct (Organization_find_by_uuid _ _) as [o|]; [|apply rtc_refl].
  rewrite (run_bind_Ok _ _ d o d eq_refl), run_gets. apply (loop_steps _ (revokes (roster d))); [done|apply drift_refl|].
  intros m d1 [Hm _]%elem_of_where Hk1 HI. apply leaves_gets.
  apply revoke_body; [by apply query_rows|intros; by bools|db_keeps|done..].
Qed.

Lemma enforce_single_steps a org_id : keeps (steps a) (enforce_single_org org_id).
Proof.
  intros d Hk. unfold enforce_single_org. rewrite run_gets. apply (loop_steps _ (revokes (roster d))); [done|apply drift_refl|].
  intros m d1 [Hm _]%elem_of_where Hk1 HI. apply leaves_gets.
  apply revoke_body; [by apply query_rows|intros; by bools|db_keeps|done..].
Qed.

Lemma put_policy_steps a policy_uuid org_id pol_type data headers :
  keeps (steps a) (put_policy policy_uuid org_id pol_type data headers).
Proof.
  pose proof (enforce_2fa_org_steps a org_id). pose proof (enforce_single_steps a org_id).
  pose proof (λ p, same_steps a _ (policy_save_same p)). pose proof (same_steps a _ (check_org_same org_id (AdminHeaders.org_id headers))).
  unfold put_policy. db_keeps; auto.
Qed.

(** *** Removal *)

Notation removes q := (drift (λ m o, o = None ∧ q m)).

Lemma remove_write a (q : Membership.t → Prop) d0 m d :
  roster d0 !! Membership.uuid m = Some m → q m → may_remove a m →
  (roster d !! Membership.uuid m = Some m → spared (roster d) m) →
  orderly (roster d) → removes q (roster d0) (roster d) →
  leaves roster (Membership_delete m) (run a (removes q (roster d0)) d) d.
Proof.
  intros Hm Hq Ha Hs Hk HI. apply member_delete_leaves; [done|by apply run_here|]. split; [|by apply drift_delete].
  destruct (HI (Membership.uuid m)) as [He|(m0 & Hm0 & He & _)].
  - rewrite Hm in He. apply rtc_once, st_remove; [done..|by apply Hs].
  - rewrite delete_id by done. apply rtc_refl.
Qed.

(** An account that may be deleted leaves another owner behind, of another
    account, in each of its organizations. *)
Lemma not_last_owner d u m :
  orderly (roster d) → is_last_owner u d = false → roster d !! Membership.uuid m = Some m →
  Membership.user_uuid m = u → owner_row m →
  ∃ k m', roster d !! k = Some m' ∧ Membership.user_uuid m' ≠ u
    ∧ Membership.org_uuid m' = Membership.org_uuid m ∧ owner_row m'.
Proof.
  intros Hk Hl Hm Hu Hown. destruct (count_spares d m (Membership.org_uuid m) true) as (k & m' & Hm' & Hne & Ho & Hown'); try done.
  - apply not_true_iff_false. intros Hc. apply not_true_iff_false in Hl. apply Hl, existsb_elem. exists m.
    destruct Hown as [Ht Hs]. split; [|by rewrite Ht].
    apply elem_of_where. split; [apply elem_of_rows; eauto|]. by rewrite !bool_decide_true.
  - exists k, m'. split_and!; [done| |done..]. intros Hu'. apply Hne.
    eapply (od_unique _ Hk); [done|done|congruence|done].
Qed.

Lemma delete_all_steps a u d :
  orderly (roster d) → is_last_owner u d = false →
  (∀ m, roster d !! Membership.uuid m = Some m → Membership.user_uuid m = u → may_remove a m) →
  leaves roster (Membership_delete_all_by_user u) (run a (λ T, T ⊆ roster d) d) d.
Proof.
  intros Hk Hl Ha. set (I := removes (λ m, Membership.user_uuid m = u) (roster d)).
  assert (Hrun : leaves roster (Membership_delete_all_by_user u) (run a I d) d).
  2: { destruct Hrun as [Hr HI]. split; [exact Hr|]. apply map_subseteq_spec. intros k m Hm.
       destruct (HI k) as [He|(? & _ & He & _)]; congruence. }
  apply (loop_steps a I); [done|apply drift_refl|]. intros m d1 [Hm Hu]%elem_of_where Hk1 HI.
  apply query_rows in Hm; [|done]. bools. apply remove_write; [done|done|by apply Ha| |done|done]. intros Hm1 Hown.
  destruct (not_last_owner d u m Hk Hl Hm Hu Hown) as (k & m' & Hm' & Hu' & Ho' & Hown').
  exists k, m'. split_and!; [| |done..].
  - destruct (HI k) as [->|(m0 & Hm0 & _ & Hq)]; [done|]. simplify_eq.
  - intros ->. simplify_eq.
Qed.

(** The statements of [User_delete] on other tables. *)
Lemma sends_delete_same u : keeps (same_on roster) (Send_delete_all_by_user u).
Proof. unfold Send_delete_all_by_user, Send_delete, Send_update_users_revision, User_update_uuid_revision. db_keeps; done. Qed.
Lemma contracts_delete_same u : keeps (same_on roster) (EmergencyAccess_delete_all_by_user u).
Proof. unfold EmergencyAccess_delete_all_by_user, EmergencyAccess_delete, User_update_uuid_revision. db_keeps; done. Qed.
Lemma addressed_delete_same e : keeps (same_on roster) (EmergencyAccess_delete_all_by_grantee_email e).
Proof. unfold EmergencyAccess_delete_all_by_grantee_email, EmergencyAccess_delete, User_update_uuid_revision. db_keeps; done. Qed.

Lemma user_delete_steps a u d :
  orderly (roster d) →
  (∀ m, roster d !! Membership.uuid m = Some m → Membership.user_uuid m = User.uuid u → may_remove a m) →
  leaves roster (User_delete u) (run a (λ T, T ⊆ roster d) d) d.
Proof.
  intros Hk Ha. assert (HQ : run a (λ T, T ⊆ roster d) d (roster d)) by (by apply run_here).
  unfold User_delete. apply leaves_gets. apply leaves_if; intros Hl; [done|].
  assert (Hl' : ∀ d', roster d' = roster d → is_last_owner (User.uuid u) d' = false).
  { intros d' Hd'. revert Hl. unfold is_last_owner, Membership_find_confirmed_by_user, Membership_count_confirmed_by_org_and_type.
    by rewrite Hd'. }
  clear Hl. apply leaves_skip; [apply sends_delete_same|done|intros _ d1 Hd1 _].
  apply leaves_skip; [apply contracts_delete_same|by rewrite Hd1|intros _ d2 Hd2 _].
  apply leaves_skip; [apply addressed_delete_same|by rewrite Hd2, Hd1|intros _ d3 Hd3 _].
  assert (Hd : roster d3 = roster d) by congruence. unfold run. rewrite <- Hd in *. clear Hd.
  apply leaves_tail; [intros _|by apply delete_all_steps; [|apply Hl'|]].
  unfold Cipher_delete_all_by_user, Cipher_delete, Cipher_update_users_revision, FolderCipher_delete_all_by_cipher,
    CollectionCipher_delete_all_by_cipher, Attachment_delete_all_by_cipher, Attachment_delete,
    Favorite_delete_all_by_cipher, Favorite_delete_all_by_user, Folder_delete_all_by_user, Folder_delete,
    FolderCipher_delete_all_by_folder, Device_delete_all_by_user, TwoFactorIncomplete_delete_all_by_user,
    User_update_uuid_revision. db_keeps; done.
Qed.

(** What an emergency contact removes: the memberships of the grantor, except
    where it is an owner. *)
Lemma set_password_uuid stamp tokens pw key reset routes u d u' d' :
  User_set_password stamp tokens pw key reset routes u d = (Ok u', d') → User.uuid u' = User.uuid u.
Proof.
  unfold User_set_password, User_reset_security_stamp. destruct reset, routes, key; unfold mbind, M_bind, mret, M_ret;
    repeat case_match; intros; by simplify_eq/=.
Qed.
Lemma user_save_uuid u d u' d' : User_save u d = (Ok u', d') → User.uuid u' = User.uuid u.
Proof. unfold User_save, mbind, M_bind, mret, M_ret. repeat case_match; intros; by simplify_eq/=. Qed.

Lemma takeover_steps stamp token_for emer_id data user d :
  orderly (roster d) →
  leaves roster (password_emergency_access stamp token_for emer_id data user)
    (λ T, T = roster d ∨ ∃ ea, EmergencyAccess_find_by_uuid_and_grantee_uuid emer_id (User.uuid user) d = Some ea
       ∧ is_valid_request ea (User.uuid user) Takeover = true
       ∧ rtc (step (Contact (EmergencyAccess.grantor_uuid ea))) (roster d) T) d.
Proof.
  intros Hk. unfold password_emergency_access, check_emergency_access_enabled.
  destruct (negb _); [by left|]. apply leaves_skip; [db_keeps|by left|intros u0 d0 _ [= _ <-]].
  apply leaves_gets, leaves_some_or; [by left|intros ea Hea]. apply leaves_if; intros Hv; [by left|]. apply negb_false_iff in Hv.
  apply leaves_gets, leaves_some_or; [by left|intros g Hg]. apply head_where_Some in Hg as [_ Hg]. bools.
  apply leaves_skip; [db_keeps|by left|intros g1 d1 Hd1 Hg1%set_password_uuid].
  apply leaves_skip; [db_keeps|by left|intros g2 d2 Hd2 Hg2%user_save_uuid].
  apply leaves_skip; [db_keeps|left; congruence|intros _ d3 Hd3 _]. assert (Hd : roster d3 = roster d) by congruence.
  right. exists ea. split_and!; [done..|]. rewrite <- Hd. rewrite <- Hd in Hk. rewrite run_gets.
  apply (loop_steps _ (removes (λ _, True) (roster d3))); [done|apply drift_refl|].
  intros m d4 [Hm Hu]%elem_of_where Hk4 HI. bools. destruct (negb _) eqn:Hown; [|by apply run_here]. bools.
  apply remove_write; [by apply query_rows|done| |by intros _ []|done..].
  right; right; right; right; left. split; [congruence|done].
Qed.

(** *** Second factors and the server administrator *)

Lemma disable_twofactor_steps a type_ pw otp headers : keeps (steps a) (disable_twofactor type_ pw otp headers).
Proof.
  apply keeps_bind; [apply _|apply same_steps; db_keeps|intros _].
  apply keeps_bind; [apply _|apply same_steps; db_keeps|intros ty].
  apply keeps_bind; [apply _|apply same_steps; db_keeps|intros o].
  apply keeps_bind; [apply _|apply same_steps; db_keeps|intros _].
  apply keeps_bind; [apply _|apply same_steps; db_keeps|intros l]. apply keeps_when; [apply _|apply enforce_2fa_steps].
Qed.

Lemma remove_2fa_steps a user_id : keeps (steps a) (remove_2fa user_id).
Proof.
  apply keeps_bind; [apply _|apply same_steps; unfold get_user_or_404, err_code; db_keeps|intros u].
  apply keeps_bind; [apply _|apply same_steps; db_keeps|intros _].
  apply keeps_bind; [apply _|apply enforce_2fa_steps|intros _]. apply same_steps; db_keeps.
Qed.

Lemma delete_user_steps user_id : keeps (steps Administrator) (delete_user user_id).
Proof.
  by_steps. unfold delete_user. apply leaves_skip; [unfold get_user_or_404, err_code; db_keeps|here|intros u d1 Hd1 _].
  rewrite <- Hd1 in *. refine (proj1 (user_delete_steps _ _ _ Hk _)). intros. by right; right; right; left.
Qed.

Lemma account_delete_steps u : keeps (steps (Account (User.uuid u))) (User_delete u).
Proof. intros d Hk. refine (proj1 (user_delete_steps _ _ _ Hk _)). intros m _ <-. by right; left. Qed.

Lemma assign_steps draws data : keeps (steps Administrator) (update_membership_type draws data).
Proof.
  by_steps. unfold update_membership_type. stroll. apply find_member_Some in H as [Hm Hp]; [|done]. bools. rename a into m, a0 into t.
  assert (Hs : t ≠ Owner → spared (roster d) m).
  { intros Ht. eapply count_spares; [|done..|].
    - apply andb_false_iff. destruct H1 as [H1|H1]; [left; exact H1|right; exact H1].
    - intros [-> _]%owner_row_b. unfold i32_eq_type. rewrite bool_decide_false; [done|]. by destruct t. }
  pass. apply member_save_leaves; [done|here|intros _]. by apply rtc_once, (st_assign _ _ m t).
Qed.

(** *** New members *)

(** Nothing is written under the ids that are drawn later. *)
Definition unused (draws : Draws) (n : nat) (T : Roster) : Prop := ∀ j, (n ≤ j)%nat → T !! new_member_id draws j = None.

Lemma unused_subseteq draws n T T' : T' ⊆ T → unused draws n T → unused draws n T'.
Proof. intros Hs Hu j Hj. apply eq_None_not_Some. intros [m Hm]. apply (lookup_weaken _ _ _ _ Hm) in Hs. by rewrite Hu in Hs. Qed.
Lemma unused_insert draws n T m :
  Inj (=) (=) (new_member_id draws) → unused draws n T → unused draws (S n) (<[new_member_id draws n := m]> T).
Proof.
  intros Hi Hu j Hj. rewrite lookup_insert_ne; [apply Hu; lia|]. intros He%Hi. lia.
Qed.
Lemma unused_weaken draws n T : unused draws n T → unused draws (S n) T.
Proof. intros Hu j Hj. apply Hu. lia. Qed.

(** When the mail of an invitation fails, the account or the membership goes. *)
Lemma rollback_steps {A} a (user : User.t) (nm : Membership.t) (created : bool) msg d :
  orderly (roster d) → roster d !! Membership.uuid nm = Some nm → Membership.user_uuid nm = User.uuid user →
  ¬ owner_row nm → may_remove a nm →
  (∀ m, Membership.org_uuid m ≠ Membership.org_uuid nm → may_remove a m) →
  leaves roster ((if created then User_delete user else Membership_delete nm) ;; err (A := A) msg)
    (run a (λ T, T ⊆ roster d) d) d.
Proof.
  intros Hk Hm Hu Hno Ha Hother. apply leaves_tail; [intros _; apply keeps_err, _|]. destruct created.
  - apply user_delete_steps; [done|]. intros m Hm1 Hu1.
    destruct (decide (Membership.org_uuid m = Membership.org_uuid nm)) as [Ho|Ho]; [|by apply Hother].
    assert (He : Membership.uuid m = Membership.uuid nm) by (eapply (od_unique _ Hk); [done|done|congruence|done]).
    rewrite He in Hm1. by simplify_eq.
  - apply member_delete_leaves; [done|by apply run_here|]. split; [|apply delete_subseteq].
    apply rtc_once, st_remove; [done..|]. by intros ?.
Qed.

Lemma invited_user_same draws n o email : keeps (same_on roster) (invited_user draws n o email).
Proof. unfold invited_user. db_keeps. Qed.

Lemma invited_user_status draws n o email d u c st d' :
  invited_user draws n o email d = (Ok (u, c, st), d') →
  st = status_i32 Invited ∨ (mail_enabled = false ∧ st = status_i32 Accepted).
Proof.
  unfold invited_user, mbind, M_bind, gets, mret, M_ret. repeat case_match; intros; simplify_eq/=; auto.
Qed.

(** The end of an invitation: the steps so far, and a mail that may fail. *)
Lemma mail_steps a draws n (user : User.t) nm (created : bool) d d1 :
  orderly (roster d) → step a (roster d) (roster d1) → unused draws (S n) (roster d1) →
  roster d1 !! Membership.uuid nm = Some nm → Membership.user_uuid nm = User.uuid user →
  ¬ owner_row nm → may_remove a nm → (∀ m, Membership.org_uuid m ≠ Membership.org_uuid nm → may_remove a m) →
  leaves roster
    (match send_mail "send_org_invite" (User.email user) with
     | Ok _ => mret ()
     | Err e => (if created then User_delete user else Membership_delete nm) ;;
                err ("Error sending invite: " +:+ err_message e)
     end) (run a (unused draws (S n)) d) d1.
Proof.
  intros Hk Hs Hu Hm Hus Hno Ha Hother. destruct (send_mail _ _) as [|e]; [by split; [apply rtc_once|]|].
  destruct (rollback_steps (A := ()) a user nm created ("Error sending invite: " +:+ err_message e) d1) as [Hr Hsub];
    [by eapply step_orderly|done..|].
  split; [by eapply rtc_l|]. by eapply unused_subseteq.
Qed.

Lemma invite_one_steps draws n data headers t all created email d :
  Inj (=) (=) (new_member_id draws) → orderly (roster d) → unused draws n (roster d) →
  t = User_ ∨ AdminHeaders.membership_type headers = Owner →
  leaves roster (invite_one draws n (AdminHeaders.org_id headers) data headers (type_i32 t) all created email)
    (run (acts headers) (unused draws (S n)) d) d.
Proof.
  intros Hi Hk Hu Ht. assert (HQ : run (acts headers) (unused draws (S n)) d (roster d)).
  { by apply run_here, unused_weaken. }
  unfold invite_one. apply leaves_skip; [apply invited_user_same|done|intros [[user c] st] d1 Hd Hst%invited_user_status].
  unfold run in *. rewrite <- Hd in *. clear Hd. cbv zeta. set (nm := Membership.set_status _ _).
  apply leaves_save; [done..|intros d2 Hd2 Ha]. change (Membership.uuid nm) with (new_member_id draws n) in Hd2.
  assert (Hs : step (acts headers) (roster d1) (roster d2)).
  { rewrite Hd2. apply (st_invite _ _ nm t (User.uuid (AdminHeaders.user headers)) (AdminHeaders.membership_type headers)); try done.
    by apply Hu. }
  assert (Hu2 : unused draws (S n) (roster d2)) by (rewrite Hd2; by apply unused_insert).
  apply leaves_tail; [intros; db_keeps|]. destruct mail_enabled eqn:Hmail; [|by split; [apply rtc_once|]].
  apply leaves_gets, leaves_some_or; [by split; [apply rtc_once|]|intros org _]. fold nm.
  apply mail_steps; try done.
  - by rewrite Hd2, lookup_insert_eq.
  - intros [_ Hc]. simpl in Hc. destruct Hst as [->|[? ->]]; done.
  - left. eexists _, _. split; [done|]. destruct Ht as [->|]; [by left|by right].
  - intros m Ho. do 5 right. split; [done|]. exists (AdminHeaders.org_id headers). split; [by intros He; apply Ho|].
    right. eexists _, _. done.
Qed.

Lemma leaves_run {A B} a (I : Roster → Prop) (m : M DB A) (f : A → M DB B) d :
  orderly (roster d) → leaves roster m (run a I d) d →
  (∀ x d1, orderly (roster d1) → I (roster d1) → leaves roster (f x) (rtc (step a) (roster d1)) d1) →
  leaves roster (m ≫= f) (rtc (step a) (roster d)) d.
Proof.
  intros Hk Hm Hf. unfold leaves, mbind, M_bind in *. destruct (m d) as [[x|e] d1]; simpl in *; destruct Hm as [Hr HI]; [|done].
  etrans; [done|]. apply Hf; [by eapply rtc_step_orderly|done].
Qed.

Lemma invite_all_steps draws data headers t all emails n created d :
  Inj (=) (=) (new_member_id draws) → t = User_ ∨ AdminHeaders.membership_type headers = Owner →
  orderly (roster d) → unused draws n (roster d) →
  leaves roster (invite_all draws n (AdminHeaders.org_id headers) data headers (type_i32 t) all created emails)
    (rtc (step (acts headers)) (roster d)) d.
Proof.
  intros Hi Ht. revert n created d. induction emails as [|email emails IH]; intros n created d Hk Hu; [apply rtc_refl|].
  simpl. eapply leaves_run; [done|by apply invite_one_steps|]. intros x d1 Hk1 Hu1. by apply IH.
Qed.

Lemma invite_steps draws org_id data headers d :
  Inj (=) (=) (new_member_id draws) → orderly (roster d) → unused draws 0 (roster d) →
  leaves roster (send_invite draws org_id data headers) (rtc (step (acts headers)) (roster d)) d.
Proof.
  intros Hi Hk Hu. assert (HQ : rtc (step (acts headers)) (roster d) (roster d)) by apply rtc_refl.
  unfold send_invite. guarded. apply leaves_skip; [unfold InviteData_validate; db_keeps|here|intros _ d1 Hd _].
  rewrite <- Hd in *. clear Hd. stroll. roles. apply invite_all_steps; [done| |done..].
  destruct H0 as [Ht|]; [left|by right]. by destruct a.
Qed.

Lemma create_steps org_uuid member_uuid collection_uuid data headers d :
  orderly (roster d) → roster d !! member_uuid = None →
  (∀ k m, roster d !! k = Some m → Membership.org_uuid m ≠ org_uuid) →
  leaves roster (create_organization org_uuid member_uuid collection_uuid data headers)
    (rtc (step (Founder (User.uuid (Headers.user headers)) org_uuid)) (roster d)) d.
Proof.
  intros Hk Hnew Horg. set (a := Founder _ _). assert (HQ : rtc (step a) (roster d) (roster d)) by apply rtc_refl.
  unfold create_organization. stroll. destruct (match OrgData.keys data with Some _ => _ | None => _ end) as [prk pbk].
  pass. apply leaves_tail; [intros; db_keeps|]. apply member_save_leaves; [done|here|intros _].
  by apply rtc_once, st_create.
Qed.

(** *** The directory *)

Lemma set_external_role ext m : same_role m (Membership_set_external_id ext m).2.
Proof. unfold Membership_set_external_id. case_bool_decide; by split. Qed.

Lemma profile_step a T m m' :
  T !! Membership.uuid m = Some m → same_role m m' → a = Directory (Membership.org_uuid m) →
  step a T (<[Membership.uuid m' := m']> T).
Proof. intros Hm Hr ->. rewrite (sr_uuid _ _ Hr). apply (st_profile _ _ m); [done..|by right]. Qed.

(** A change of state followed by one of the profile, in one write. *)
Lemma then_profile a T m m1 m2 :
  Membership.uuid m1 = Membership.uuid m → Membership.org_uuid m1 = Membership.org_uuid m →
  step a T (<[Membership.uuid m := m1]> T) → same_role m1 m2 → a = Directory (Membership.org_uuid m) →
  rtc (step a) T (<[Membership.uuid m2 := m2]> T).
Proof.
  intros Hu Ho Hs Hr Ha. eapply rtc_l; [exact Hs|]. apply rtc_once.
  replace (<[Membership.uuid m2 := m2]> T) with (<[Membership.uuid m2 := m2]> (<[Membership.uuid m := m1]> T)).
  - apply (profile_step _ _ m1); [by rewrite Hu, lookup_insert_eq|done|by rewrite Ho].
  - rewrite (sr_uuid _ _ Hr), Hu. apply insert_insert_eq.
Qed.

(** [T] has the members of [d], and comes from it by steps. *)
Definition updates (a : Actor) (d : DB) : Roster → Prop := run a (λ T, dom T = dom (roster d)) d.

Lemma updates_here a d : updates a d (roster d).
Proof. by apply run_here. Qed.
Lemma updates_insert a d m m2 :
  roster d !! Membership.uuid m = Some m → Membership.uuid m2 = Membership.uuid m →
  rtc (step a) (roster d) (<[Membership.uuid m2 := m2]> (roster d)) → updates a d (<[Membership.uuid m2 := m2]> (roster d)).
Proof. intros Hm Hu Hr. split; [done|]. rewrite Hu. by apply dom_insert_lookup_L. Qed.

Lemma import_revoke_steps org_id ext m d :
  orderly (roster d) → roster d !! Membership.uuid m = Some m → Membership.org_uuid m = org_id →
  leaves roster
    (c ← gets (Membership_count_confirmed_by_org_and_type org_id Owner);
     let '(revoked, member) :=
       if i32_eq_type (Membership.atype m) Owner && (Membership.status m == status_i32 Confirmed) && (c <=? 1)
       then (false, m) else Membership_revoke m in
     let '(ext_modified, member) := Membership_set_external_id ext member in
     when (revoked || ext_modified) (Membership_save member))
    (updates (Directory org_id) d) d.
Proof.
  intros Hk Hm Ho. apply leaves_gets. set (b := _ && _ && _). destruct b eqn:Hb; unfold b in Hb.
  - destruct (Membership_set_external_id ext m) as [em m2] eqn:He. pose proof (set_external_role ext m) as Hr. rewrite He in Hr.
    destruct (false || em); [|apply updates_here]. apply member_save_leaves; [done|apply updates_here|intros _].
    apply (updates_insert _ _ m); [done|by apply Hr|]. apply rtc_once, (profile_step _ _ m); [done..|by rewrite Ho].
  - destruct (Membership_revoke m) as [rv m1] eqn:Hrv. destruct (Membership_set_external_id ext m1) as [em m2] eqn:He.
    pose proof (set_external_role ext m1) as Hr. rewrite He in Hr. simpl in Hr.
    destruct (rv || em); [|apply updates_here]. apply member_save_leaves; [done|apply updates_here|intros _].
    assert (m1 = (Membership_revoke m).2) as -> by (by rewrite Hrv).
    apply (updates_insert _ _ m); [done|rewrite (sr_uuid _ _ Hr); apply revoke_uuid|].
    apply (then_profile _ _ m (Membership_revoke m).2); [apply revoke_uuid|unfold Membership_revoke; by case_match| |done|by rewrite Ho].
    apply st_revoke; [done|left; right; by rewrite Ho|]. eapply count_spares; [done..|]. by intros [-> ->]%owner_row_b.
Qed.

(** A member that is restored and, when a policy forbids it, revoked again. *)
Lemma restore_again m ext :
  (Membership_restore m).1 = true →
  let m2 := (Membership_revoke (Membership_set_external_id ext (Membership_restore m).2).2).2 in
  same_role m m2 ∨ same_role (Membership_restore m).2 m2.
Proof.
  unfold Membership_restore. destruct (Z.ltb_spec (Membership.status m) (status_i32 Invited)) as [Hlt|]; [|done]. intros _.
  simpl. set (m1 := Membership.set_status _ m). pose proof (set_external_role ext m1) as Hr. destruct Hr.
  unfold Membership_revoke. case_match; [left|right; by split]. split; try done. simpl. rewrite sr_status0. simpl. unfold ACTIVATE_REVOKE_DIFF. lia.
Qed.

Lemma import_restore_steps draws org_id ext m d :
  orderly (roster d) → roster d !! Membership.uuid m = Some m → Membership.org_uuid m = org_id →
  leaves roster
    (let '(restored, member) := Membership_restore m in
     let '(ext_modified, member) := Membership_set_external_id ext member in
     '(restored, member) ←
       (if restored then
          r ← attempt (OrgPolicy_check_user_allowed (new_factor_id draws (Membership.uuid member)) member "restore");
          mret (match r with
                | None => (true, member)
                | Some _ => (false, (Membership_revoke member).2)
                end)
        else mret (false, member));
     when (restored || ext_modified) (Membership_save member))
    (updates (Directory org_id) d) d.
Proof.
  intros Hk Hm Ho.
  assert (Hst : ∀ m2, same_role m m2 ∨ same_role (Membership_restore m).2 m2 →
    updates (Directory org_id) d (<[Membership.uuid m2 := m2]> (roster d))).
  { intros m2 Hr. apply (updates_insert _ _ m); [done| |].
    { destruct Hr as [Hr|Hr]; rewrite (sr_uuid _ _ Hr); [done|apply restore_uuid]. }
    destruct Hr as [Hr|Hr]; [apply rtc_once, (profile_step _ _ m); [done..|by rewrite Ho]|].
    apply (then_profile _ _ m (Membership_restore m).2); [apply restore_uuid|unfold Membership_restore; by case_match| |done|by rewrite Ho].
    apply st_restore; [done|right; by rewrite Ho]. }
  pose proof (restore_again m ext) as Hagain.
  destruct (Membership_restore m) as [rs m1] eqn:Hrs. pose proof (set_external_role ext m1) as Hr.
  destruct (Membership_set_external_id ext m1) as [em m2] eqn:He. simpl in *. rewrite He in Hagain.
  assert (Hwrite : ∀ (b : bool) m3 d1, roster d1 = roster d → m3 = m2 ∨ (rs = true ∧ m3 = (Membership_revoke m2).2) →
    leaves roster (when b (Membership_save m3)) (updates (Directory org_id) d) d1).
  { intros b m3 d1 Hd1 Hm3. pose proof (updates_here (Directory org_id) d) as HQ. unfold updates, run in *. rewrite <- Hd1 in *.
    destruct b; [|exact HQ]. apply member_save_leaves; [done|exact HQ|intros _]. apply Hst.
    destruct Hm3 as [->|[-> ->]]; [by right|by apply Hagain]. }
  destruct rs.
  - apply leaves_skip; [|apply updates_here|].
    + apply keeps_bind; [apply _|apply keeps_attempt, check_allowed_same|intros; apply keeps_ret, _].
    + intros [r3 m3] d1 Hd1 Hrun. apply Hwrite; [done|]. unfold mbind, M_bind, attempt, mret, M_ret in Hrun.
      destruct (OrgPolicy_check_user_allowed _ _ _ d) as [[] ?]; repeat case_match; simplify_eq; auto.
  - apply leaves_skip; [db_keeps|apply updates_here|]. intros [r3 m3] d1 Hd1 [= <- <- <-]. apply Hwrite; auto.
Qed.

Lemma unused_dom draws n T T' : dom T' = dom T → unused draws n T → unused draws n T'.
Proof. intros Hd Hu j Hj. apply not_elem_of_dom. rewrite Hd. by apply not_elem_of_dom, Hu. Qed.

Lemma updates_unused a draws n d T : unused draws n (roster d) → updates a d T → run a (unused draws (S n)) d T.
Proof. intros Hu [Hr Hd]. split; [done|]. eapply unused_dom; [done|]. by apply unused_weaken. Qed.

Lemma found_by_email_and_org email org_id d m :
  orderly (roster d) → Membership_find_by_email_and_org email org_id d = Some m →
  roster d !! Membership.uuid m = Some m ∧ Membership.org_uuid m = org_id.
Proof.
  intros Hk. unfold Membership_find_by_email_and_org. case_match; [|done]. intros [Hm Hp]%find_member_Some; [|done]. by bools.
Qed.

Lemma import_one_steps draws n org_id data d :
  Inj (=) (=) (new_member_id draws) → orderly (roster d) → unused draws n (roster d) →
  leaves roster (import_one draws n org_id data) (run (Directory org_id) (unused draws (S n)) d) d.
Proof.
  intros Hi Hk Hu. assert (HQ : run (Directory org_id) (unused draws (S n)) d (roster d)).
  { by apply run_here, unused_weaken. }
  unfold import_one. apply leaves_gets.
  destruct (Membership_find_by_email_and_org _ _ d) as [m|] eqn:Hf.
  { apply found_by_email_and_org in Hf as [Hm Ho]; [|done]. destruct (OrgImportUserData.deleted data);
      (eapply updates_unused; [done|]); [by apply import_revoke_steps|by apply import_restore_steps]. }
  destruct (OrgImportUserData.deleted data); [exact HQ|]. apply leaves_gets.
  apply leaves_skip; [db_keeps|exact HQ|]. intros [user created] d1 Hd _. unfold run in *. rewrite <- Hd in *. clear Hd.
  apply leaves_gets, leaves_some_or; [exact HQ|intros org _]. cbv zeta. set (nm := Membership.set_status _ _).
  set (nm0 := Membership_new _ _ _ _) in nm. pose proof (set_external_role (Some (OrgImportUserData.external_id data)) nm0) as Hr.
  set (nm1 := (Membership_set_external_id _ nm0).2) in *.
  assert (Hnu : Membership.uuid nm = new_member_id draws n) by (apply (sr_uuid _ _ Hr)).
  assert (Hno : Membership.org_uuid nm = org_id) by (apply (sr_org _ _ Hr)).
  assert (Hus : Membership.user_uuid nm = User.uuid user) by (apply (sr_user _ _ Hr)).
  assert (Hst : invited_status nm).
  { unfold invited_status, nm. simpl. destruct mail_enabled; [by left|]. simpl. case_bool_decide; [by left|by right]. }
  apply leaves_save; [done..|intros d2 Hd2 Ha].
  assert (Hs : step (Directory org_id) (roster d1) (roster d2)).
  { rewrite Hd2. apply st_import; [by rewrite Hno|rewrite Hnu; by apply Hu|done..]. }
  assert (Hu2 : unused draws (S n) (roster d2)) by (rewrite Hd2, Hnu; by apply unused_insert).
  destruct mail_enabled eqn:Hmail; [|by split; [apply rtc_once|]].
  apply mail_steps; try done.
  - by rewrite Hd2, lookup_insert_eq.
  - intros [_ Hc]. destruct Hst as [Hst|[_ Hst]]; by rewrite Hc in Hst.
  - right; right; left. by rewrite Hno.
  - rewrite Hno. intros m Ho. do 5 right. split; [done|]. exists org_id. split; [by intros He; apply Ho|by left].
Qed.

Lemma import_members_steps draws l n org_id d :
  Inj (=) (=) (new_member_id draws) → orderly (roster d) → unused draws n (roster d) →
  leaves roster (import_members draws n org_id l) (rtc (step (Directory org_id)) (roster d)) d.
Proof.
  intros Hi. revert n d. induction l as [|x l IH]; intros n d Hk Hu; [apply rtc_refl|].
  simpl. eapply leaves_run; [done|by apply import_one_steps|]. intros [] d1 Hk1 Hu1. by apply IH.
Qed.

Lemma import_groups_same draws l n org_id : keeps (same_on roster) (import_groups draws n org_id l).
Proof. revert n. induction l as [|g l IH]; intros n; simpl; [db_keeps|]. db_keeps; apply IH. Qed.

Lemma overwrite_steps org_id ids : keeps (steps (Directory org_id))
  (l ← gets (Membership_find_by_org org_id); for_each l (overwrite_one org_id ids)).
Proof.
  intros d Hk. rewrite run_gets. apply (loop_steps _ (removes (λ _, True) (roster d))); [done|apply drift_refl|].
  intros m d1 [Hm Ho]%elem_of_where Hk1 HI. bools. unfold overwrite_one. destruct (Membership.external_id m); [|by apply run_here].
  destruct (negb _); [|by apply run_here]. apply leaves_gets. set (b := _ && _ && _).
  destruct b eqn:Hb; [by apply run_here|]. unfold b in Hb. simpl.
  apply remove_write; [by apply query_rows|done|right; right; left; congruence| |done..].
  intros Hm1. eapply count_spares; [done..|]. by intros [-> ->]%owner_row_b.
Qed.

Lemma ldap_import_steps draws org_id data d :
  Inj (=) (=) (new_member_id draws) → orderly (roster d) → unused draws 0 (roster d) →
  leaves roster (ldap_import draws org_id data) (rtc (step (Directory org_id)) (roster d)) d.
Proof.
  intros Hi Hk Hu. unfold ldap_import.
  assert (Hrest : keeps (steps (Directory org_id))
    (when org_groups_enabled (import_groups draws 0 org_id (OrgImportData.groups data)) ;;
     when (OrgImportData.overwrite_existing data) (
       l ← gets (Membership_find_by_org org_id);
       for_each l (overwrite_one org_id (OrgImportUserData.external_id <$> OrgImportData.members data))))).
  { apply keeps_bind; [apply _|apply same_steps, keeps_when; [apply _|apply import_groups_same]|intros _].
    apply keeps_when; [apply _|apply overwrite_steps]. }
  eapply (leaves_run _ (λ _, True)); [done| |].
  - split; [by apply import_members_steps|done].
  - intros [] d1 Hk1 _. by apply Hrest.
Qed.
End handlers.
