(* ===== verification/Owners.v ===== *)
(** Who changes the members of an organization.

    A request goes through its guard and its handler ([perform]). Theorems: each
    request makes only the steps of the machine of [Rosters] that its sender is
    entitled to; an administrator cannot make owners, or raise anybody to
    administrator; no history of requests leaves an organization without an
    owner; and nobody becomes a confirmed member without an administrator of
    the organization. *)
From S2P Require Import Prelude Schema Roles Users Invariants Samples TwoFactors OneTimeCodes Sends EmergencyRows Memberships Groups Collections Guards VaultItems Ciphers Policies Organizations Deletion Erasure Emergency Members Accounts Tokens SingleSignOn Identity Authentication Rosters.
Local Open Scope Z_scope.

(** ** Requests *)

(** What an administrator of the organization asks for. *)
Inductive AdminAct :=
| Invite (draws : Draws) (data : InviteData.t)
| Reinvite (member_id : string)
| BulkReinvite (ids : list string)
| Confirm (draws : Draws) (member_id : string) (data : ConfirmData.t)
| BulkConfirm (draws : Draws) (keys : option (list ConfirmData.t))
| Edit (draws : Draws) (member_id : string) (data : EditUserData.t)
| Remove (member_id : string)
| BulkRemove (ids : list string)
| Revoke (member_id : string)
| BulkRevoke (ids : option (list string))
| Restore (draws : Draws) (member_id : string)
| BulkRestore (draws : Draws) (ids : list string)
| SetPolicy (policy_uuid : string) (pol_type : Z) (data : PolicyData.t).

Inductive Event :=
| AsAdmin (req : Request.t) (org_id : string) (act : AdminAct)
| DeleteOrganization (req : Request.t) (org_id : string) (master_password_hash otp : option string)
| Leave (req : Request.t) (org_id : string)
| Enroll (req : Request.t) (org_id user_id : string) (data : EnrollmentRequest.t)
| CreateOrganization (req : Request.t) (org_uuid member_uuid collection_uuid : string) (data : OrgData.t)
| AcceptInvite (req : Request.t) (draws : Draws) (org_id member_id : string) (data : AcceptData.t)
| SetPassword (req : Request.t) (draws : AccountDraws) (member_draws : Draws) (data : SetPasswordData.t)
| DisableTwoFactor (req : Request.t) (type_ : Res Z) (master_password_hash otp : option string)
| DeleteAccount (req : Request.t) (master_password_hash otp : option string)
| RecoverDelete (user_id token : string)
| TakeOver (req : Request.t) (stamp : string) (token_for : string → string) (emer_id : string)
    (data : EmergencyAccessPasswordData.t)
| Register (draws : AccountDraws) (data : RegisterData.t) (email_verification : bool)
| Import (req : Request.t) (draws : Draws) (data : OrgImportData.t)
(** The part of [post_rotatekey] that writes memberships. *)
| RotateKeys (req : Request.t) (keys : list (string * string))
(** The account lost its last second factor: at the token endpoint, by its
    recovery code, or with its authenticator. *)
| LoseTwoFactor (user : User.t)
| AdminAssign (draws : Draws) (data : MembershipTypeData.t)
| AdminRemove2fa (user_id : string)
| AdminDeleteUser (user_id : string)
| AdminDeleteOrganization (org_id : string).

Section perform.
Context `{E : Env} `{K : Codecs} `{J : PolicyJson} `{C : Crypto} `{L : LoginTokens} `{S : SessionTokens}.
Context `{A : AccountTokens} `{I : OrgInviteTokens} `{V : InviteTokens}.

Definition done_ {X} (m : M DB X) : M DB () := m ;; mret ().

Definition admin_act (org_id : string) (act : AdminAct) (headers : AdminHeaders.t) : M DB () :=
  match act with
  | Invite draws data => send_invite draws org_id data headers
  | Reinvite id => reinvite_member org_id id headers
  | BulkReinvite ids => done_ (bulk_reinvite_members org_id ids headers)
  | Confirm draws id data => confirm_invite draws org_id id data headers
  | BulkConfirm draws keys => done_ (bulk_confirm_invite draws org_id keys headers)
  | Edit draws id data => edit_member draws org_id id data headers
  | Remove id => delete_member org_id id headers
  | BulkRemove ids => done_ (bulk_delete_member org_id ids headers)
  | Revoke id => revoke_member org_id id headers
  | BulkRevoke ids => done_ (bulk_revoke_members org_id ids headers)
  | Restore draws id => restore_member draws org_id id headers
  | BulkRestore draws ids => done_ (bulk_restore_members draws org_id ids headers)
  | SetPolicy policy_uuid pol_type data => done_ (put_policy policy_uuid org_id pol_type data headers)
  end.

(** The segment of the path that names the organization; Rocket refuses one
    that is no UUID. *)
Definition routed (req : Request.t) (org_id : string) : bool :=
  (Request.param1 req == Some org_id) && is_uuid org_id.

Definition perform (ev : Event) : M DB () :=
  match ev with
  | AsAdmin req org_id act =>
      headers ← AdminHeaders_from_request req;
      admin_act org_id act headers
  | DeleteOrganization req org_id pw otp =>
      headers ← OwnerHeaders_from_request req;
      delete_organization org_id pw otp headers
  | Leave req org_id =>
      if negb (routed req org_id) then err_code "Not Found" 404 else
      headers ← OrgMemberHeaders_from_request req;
      leave_organization org_id headers
  | Enroll req org_id user_id data =>
      headers ← OrgMemberHeaders_from_request req;
      put_reset_password_enrollment org_id user_id data headers
  | CreateOrganization req org_uuid member_uuid collection_uuid data =>
      headers ← Headers_from_request req;
      done_ (create_organization org_uuid member_uuid collection_uuid data headers)
  | AcceptInvite req draws org_id member_id data =>
      headers ← Headers_from_request req;
      accept_invite draws org_id member_id data headers
  | SetPassword req draws member_draws data =>
      headers ← Headers_from_request req;
      post_set_password draws member_draws data headers
  | DisableTwoFactor req type_ pw otp =>
      headers ← Headers_from_request req;
      disable_twofactor type_ pw otp headers
  | DeleteAccount req pw otp =>
      headers ← Headers_from_request req;
      delete_account pw otp headers
  | RecoverDelete user_id token => post_delete_recover_token user_id token
  | TakeOver req stamp token_for emer_id data =>
      headers ← Headers_from_request req;
      password_emergency_access stamp token_for emer_id data (Headers.user headers)
  | Register draws data email_verification => register draws data email_verification
  | Import req draws data =>
      org_id ← PublicToken_from_request req;
      ldap_import draws org_id data
  | RotateKeys req keys =>
      headers ← Headers_from_request req;
      rotate_reset_password_keys keys (Headers.user headers)
  | LoseTwoFactor user => enforce_2fa_policy user
  | AdminAssign draws data => update_membership_type draws data
  | AdminRemove2fa user_id => remove_2fa user_id
  | AdminDeleteUser user_id => delete_user user_id
  | AdminDeleteOrganization org_id => admin_delete_organization org_id
  end.
End perform.

(** ** Who is entitled to a step *)

Section entitled.
Context `{E : Env} `{L : LoginTokens} `{S : SessionTokens} `{A : AccountTokens} `{I : OrgInviteTokens}.

(** The request shows a live session of the account [u]. *)
Definition session_of (req : Request.t) (d : DB) (user : User.t) : Prop := ∃ device, live_session req d device user.

(** The account that a registration is about: a new one, or one with this
    address that has no password yet. *)
Definition registrant (draws : AccountDraws) (data : RegisterData.t) (d : DB) (u : string) : Prop :=
  u = seed_uuid (draw_seed draws)
  ∨ ∃ user, user ∈ rows (users d) ∧ User.uuid user = u ∧ User.email user = to_lowercase (RegisterData.email data)
      ∧ User.password_hash user = [].

(** The actor that the sender of a request is entitled to be: what the stored
    rows and the tokens of the request prove about him. *)
Definition entitled (ev : Event) (d : DB) (a : Actor) : Prop :=
  match ev with
  | AsAdmin req org_id _ => ∃ user role m, session_of req d user ∧ type_ge role Admin = true
      ∧ confirmed_member d user org_id role m ∧ a = Member (User.uuid user) role org_id
  | CreateOrganization req org_uuid _ _ _ => ∃ user, session_of req d user ∧ a = Founder (User.uuid user) org_uuid
  | Leave req _ | Enroll req _ _ _ | SetPassword req _ _ _
  | DisableTwoFactor req _ _ _ | DeleteAccount req _ _ | RotateKeys req _ =>
      ∃ user, session_of req d user ∧ a = Account (User.uuid user)
  | AcceptInvite req _ org_id member_id data => ∃ user claims, session_of req d user
      ∧ decode_invite (AcceptData.token data) = Ok claims ∧ InviteJwtClaims.email claims = User.email user
      ∧ InviteJwtClaims.member_id claims = member_id ∧ a = Invitee member_id org_id
  | RecoverDelete user_id token => decode_delete token = Ok user_id ∧ a = Account user_id
  | TakeOver req _ _ emer_id _ => ∃ user ea, session_of req d user
      ∧ EmergencyAccess_find_by_uuid_and_grantee_uuid emer_id (User.uuid user) d = Some ea
      ∧ is_valid_request ea (User.uuid user) Takeover = true ∧ a = Contact (EmergencyAccess.grantor_uuid ea)
  | Register draws data _ => ∃ u, registrant draws data d u ∧ a = Account u
  | Import req _ _ => ∃ key, key ∈ rows (organization_api_key d) ∧ a = Directory (OrganizationApiKey.org_uuid key)
  | LoseTwoFactor user => a = Account (User.uuid user)
  | AdminAssign _ _ | AdminRemove2fa _ | AdminDeleteUser _ => a = Administrator
  | DeleteOrganization _ _ _ _ | AdminDeleteOrganization _ => False
  end.

(** The identifiers that a request draws for new rows are new. *)
Definition fresh_draws (ev : Event) (d : DB) : Prop :=
  match ev with
  | AsAdmin _ _ (Invite draws _) | Import _ draws _ =>
      Inj (=) (=) (new_member_id draws) ∧ unused draws 0 (roster d)
  | CreateOrganization _ org_uuid member_uuid _ _ =>
      roster d !! member_uuid = None ∧ ∀ k m, roster d !! k = Some m → Membership.org_uuid m ≠ org_uuid
  | _ => True
  end.

(** A request dissolves an organization: one of its owners, or the
    administrator of the server. *)
Definition dissolving (ev : Event) (d : DB) (o : string) : Prop :=
  match ev with
  | DeleteOrganization req o' _ _ => o' = o ∧ ∃ user m, session_of req d user ∧ confirmed_member d user o Owner m
  | AdminDeleteOrganization o' => o' = o
  | _ => False
  end.
End entitled.

(** [T'] is [T] without some memberships of the organization. *)
Definition dissolves (o : string) : Roster → Roster → Prop := drift (λ m x, x = None ∧ Membership.org_uuid m = o).

(** ** The guards *)

Section guards.
Context `{E : Env} `{L : LoginTokens} `{S : SessionTokens}.

Lemma guard_same req : keeps (same_on roster) (Headers_from_request req).
Proof. unfold Headers_from_request, check_stamp_exception, some_or_401, err_handler, User_save. db_keeps; done. Qed.
End guards.

Section requests.
Context `{E : Env} `{K : Codecs} `{J : PolicyJson} `{C : Crypto} `{L : LoginTokens} `{S : SessionTokens}.
Context `{A : AccountTokens} `{I : OrgInviteTokens} `{V : InviteTokens}.

Lemma leaves_guard {H X} (g : M DB H) (f : H → M DB X) (Q : Roster → Prop) d :
  keeps (same_on roster) g → (∀ h d', g d = (Ok h, d') → d' = d) → Q (roster d) →
  (∀ h, g d = (Ok h, d) → leaves roster (f h) Q d) → leaves roster (g ≫= f) Q d.
Proof.
  intros Hg Hd HQ Hf. apply leaves_skip; [done..|]. intros h d' _ Hr. pose proof (Hd _ _ Hr). subst. by apply Hf.
Qed.

Lemma org_guard_same req : keeps (same_on roster) (OrgHeaders_from_request req).
Proof.
  pose proof (guard_same req). unfold OrgHeaders_from_request, some_or_401, err_handler. db_keeps; done.
Qed.
Lemma admin_guard_same req : keeps (same_on roster) (AdminHeaders_from_request req).
Proof. pose proof (org_guard_same req). unfold AdminHeaders_from_request, err_handler. db_keeps; done. Qed.
Lemma owner_guard_same req : keeps (same_on roster) (OwnerHeaders_from_request req).
Proof. pose proof (org_guard_same req). unfold OwnerHeaders_from_request, err_handler. db_keeps; done. Qed.
Lemma member_guard_same req : keeps (same_on roster) (OrgMemberHeaders_from_request req).
Proof. pose proof (org_guard_same req). unfold OrgMemberHeaders_from_request, err_handler. db_keeps; done. Qed.
Lemma public_guard_same req : keeps (same_on roster) (PublicToken_from_request req).
Proof. unfold PublicToken_from_request, some_or_401, err_handler, expect, panic. db_keeps; done. Qed.

(** *** Dissolution *)

Lemma dissolve_members o d :
  orderly (roster d) → leaves roster (Membership_delete_all_by_organization o) (dissolves o (roster d)) d.
Proof.
  intros Hk. unfold Membership_delete_all_by_organization. apply leaves_gets.
  enough (Hl : keeps (preserves (λ d1, orderly (roster d1) ∧ dissolves o (roster d) (roster d1)))
            (for_each (Membership_find_by_org o d) Membership_delete)) by (apply Hl; split; [done|apply drift_refl]).
  apply keeps_for_each_elem; [apply _|]. intros m [Hm Ho]%elem_of_where d1 [Hk1 HI].
  apply query_rows in Hm; [|done]. bools.
  enough (Hq : leaves roster (Membership_delete m) (λ T, orderly T ∧ dissolves o (roster d) T) d1) by exact Hq.
  apply member_delete_leaves; [done..|]. split; [by apply orderly_delete|by apply drift_delete].
Qed.

(** The rows of an organization on other tables. *)
Lemma org_ciphers_same o : keeps (same_on roster) (Cipher_delete_all_by_organization o).
Proof.
  unfold Cipher_delete_all_by_organization, Cipher_delete, Cipher_update_users_revision, FolderCipher_delete_all_by_cipher,
    CollectionCipher_delete_all_by_cipher, Attachment_delete_all_by_cipher, Attachment_delete,
    Favorite_delete_all_by_cipher, User_update_uuid_revision. db_keeps; done.
Qed.
Lemma org_collections_same o : keeps (same_on roster) (Collection_delete_all_by_organization o).
Proof.
  unfold Collection_delete_all_by_organization, Collection_delete, Collection_update_users_revision,
    CollectionCipher_delete_all_by_collection, CollectionUser_delete_all_by_collection,
    CollectionGroup_delete_all_by_collection, touch_group_users, GroupUser_update_user_revision, touch_member,
    User_update_uuid_revision. db_keeps; done.
Qed.
Lemma org_rest_same o :
  keeps (same_on roster) (OrgPolicy_delete_all_by_organization o)
  ∧ keeps (same_on roster) (Group_delete_all_by_organization o)
  ∧ keeps (same_on roster) (OrganizationApiKey_delete_all_by_organization o).
Proof.
  unfold OrgPolicy_delete_all_by_organization, Group_delete_all_by_organization, Group_delete,
    CollectionGroup_delete_all_by_group, GroupUser_delete_all_by_group, OrganizationApiKey_delete_all_by_organization,
    touch_group_users, GroupUser_update_user_revision, touch_member, User_update_uuid_revision. split_and!; db_keeps; done.
Qed.

Lemma dissolve_steps og d :
  orderly (roster d) → leaves roster (Organization_delete og) (dissolves (Organization.uuid og) (roster d)) d.
Proof.
  intros Hk. assert (HQ : dissolves (Organization.uuid og) (roster d) (roster d)) by apply drift_refl.
  unfold Organization_delete. apply leaves_skip; [apply org_ciphers_same|done|intros _ d1 Hd1 _]. rewrite <- Hd1 in *.
  apply leaves_skip; [apply org_collections_same|done|intros _ d2 Hd2 _]. rewrite <- Hd2 in *.
  apply leaves_tail; [|by apply dissolve_members]. intros _.
  destruct (org_rest_same (Organization.uuid og)) as (? & ? & ?). db_keeps; done.
Qed.

(** *** The acts of an administrator *)

Lemma admin_act_steps org_id act headers d :
  org_id = AdminHeaders.org_id headers → orderly (roster d) →
  match act with Invite draws _ => Inj (=) (=) (new_member_id draws) ∧ unused draws 0 (roster d) | _ => True end →
  leaves roster (admin_act org_id act headers) (rtc (step (acts headers)) (roster d)) d.
Proof.
  intros -> Hk Hf.
  assert (Hd : ∀ X (m : M DB X), keeps (steps (acts headers)) m → keeps (steps (acts headers)) (done_ m)).
  { intros X m Hm. apply keeps_bind; [apply _|done|intros; apply keeps_ret, _]. }
  assert (Hs : ∀ m : M DB (), keeps (steps (acts headers)) m → leaves roster m (rtc (step (acts headers)) (roster d)) d).
  { intros m Hm. by apply (Hm d). }
  destruct act; simpl.
  - destruct Hf. by apply invite_steps.
  - apply Hs, keeps_check_org; [apply _|intros _; by apply reinvite_steps].
  - apply Hs, Hd, bulk_reinvite_steps.
  - apply Hs, confirm_steps.
  - apply Hs, Hd, bulk_confirm_steps.
  - apply Hs, edit_steps.
  - apply Hs, delete_steps.
  - apply Hs, Hd, bulk_delete_steps.
  - apply Hs, revoke_steps.
  - apply Hs, Hd, bulk_revoke_steps.
  - apply Hs, restore_steps.
  - apply Hs, Hd, bulk_restore_steps.
  - apply Hs, Hd, put_policy_steps.
Qed.

Lemma admin_act_elsewhere org_id act headers d :
  org_id ≠ AdminHeaders.org_id headers → (admin_act org_id act headers d).2 = d.
Proof.
  intros Hne.
  assert (Hc : ∀ X (f : () → M DB X), ((check_org org_id (AdminHeaders.org_id headers) ≫= f) d).2 = d).
  { intros X f. unfold check_org. by rewrite bool_decide_false. }
  assert (Hd : ∀ X (f : () → M DB X), (done_ (check_org org_id (AdminHeaders.org_id headers) ≫= f) d).2 = d).
  { intros X f. unfold done_, check_org. by rewrite bool_decide_false. }
  destruct act; simpl; first [apply Hc | apply Hd].
Qed.

(** *** Accounts *)

Lemma set_kdf_uuid k u u' : set_kdf_data k u = Ok u' → User.uuid u' = User.uuid u.
Proof. unfold set_kdf_data. intros H. repeat case_match; by simplify_eq. Qed.

Lemma hint_same h : keeps (same_on roster) (enforce_password_hint_setting h).
Proof. unfold enforce_password_hint_setting. db_keeps; done. Qed.

Lemma post_set_password_steps draws mdraws data headers :
  keeps (steps (Account (User.uuid (Headers.user headers)))) (post_set_password draws mdraws data headers).
Proof.
  by_steps. unfold post_set_password. apply leaves_if; intros _; [here|].
  apply leaves_skip; [apply hint_same|here|intros _ d1 Hd1 _]. rewrite <- Hd1 in *.
  apply leaves_skip; [db_keeps|here|]. intros u1 d2 Hd2 Hu1. rewrite <- Hd2 in *.
  apply lift_Ok in Hu1 as [Hu1 _]. apply set_kdf_uuid in Hu1.
  apply leaves_skip; [apply set_password_same|here|]. intros u2 d3 Hd3 Hu2. rewrite <- Hd3 in *.
  apply set_password_uuid in Hu2. apply leaves_tail; [intros _; db_keeps|].
  rewrite <- Hu1, <- Hu2. set (u := with_keys _ _).
  replace (User.uuid u2) with (User.uuid u) by (unfold u, with_keys; by case_match).
  by apply (set_password_steps mdraws (SetPasswordData.org_identifier data) u d3).
Qed.

Lemma registered_user_steps draws data token v pending d :
  orderly (roster d) →
  let '(r, d1) := registered_user (draw_seed draws) (to_lowercase (RegisterData.email data)) token v pending d in
  match r with
  | Ok (user, _) => registrant draws data d (User.uuid user) ∧ rtc (step (Account (User.uuid user))) (roster d) (roster d1)
  | Err _ => roster d1 = roster d
  end.
Proof.
  intros Hk. unfold registered_user. rewrite run_gets.
  pose proof (invitation_take_same (to_lowercase (RegisterData.email data)) d) as Ht. unfold same_on in Ht.
  destruct (User_find_by_mail _ d) as [user|] eqn:Hf.
  - apply head_Some_elem, elem_of_where in Hf as [Hin He]. bools.
    destruct (User.password_hash user == []) eqn:Hp; simpl; [|done]. bools.
    assert (Hu : registrant draws data d (User.uuid user)).
    { right. exists user. split_and!; [done..| |done]. rewrite He. apply to_lowercase_idem. }
    destruct token as [token|].
    + unfold lift, mbind, M_bind. destruct (decode_invite token) as [claims|e]; [|done]. case_bool_decide; [|done].
      split; [done|apply rtc_refl].
    + unfold mbind, M_bind. destruct (Invitation_take _ d) as [[b|e] d1]; simpl in Ht; [|done]. destruct b.
      * split; [done|]. rewrite <- Ht in *. by apply (accept_all_steps (User.uuid user) d1).
      * simpl. destruct (is_signup_allowed _ || _); [|done]. split; [done|]. rewrite Ht. apply rtc_refl.
  - unfold mbind, M_bind. destruct (Invitation_take _ d) as [[b|e] d1]; simpl in Ht; [|done].
    destruct (b || _ || _); [|done]. simpl. split; [by left|]. rewrite Ht. apply rtc_refl.
Qed.

Lemma tokens_Ok data d a d' : check_registration_tokens data d = (Ok a, d') → d' = d.
Proof. unfold check_registration_tokens. intros H. run_steps; done. Qed.
Lemma accept_contracts_same user : keeps (same_on roster) (register_accept_invitations user).
Proof.
  unfold register_accept_invitations, EmergencyAccess_accept_invite, EmergencyAccess_save, User_update_uuid_revision.
  db_keeps; done.
Qed.

Lemma register_steps draws data verification d :
  orderly (roster d) →
  leaves roster (register draws data verification)
    (λ T, T = roster d ∨ ∃ u, registrant draws data d u ∧ rtc (step (Account u)) (roster d) T) d.
Proof.
  intros Hk. unfold register. apply leaves_if; intros _; [by left|].
  apply leaves_guard; [by destruct verification; [unfold check_registration_tokens|]; db_keeps| |by left|].
  { intros h d'. destruct verification; [apply tokens_Ok|by intros [=]]. }
  intros [[name v] pending] _. apply leaves_if; intros _; [by left|].
  apply leaves_guard; [apply hint_same|unfold enforce_password_hint_setting; intros [] d'; case_match; by intros [=]|by left|].
  intros [] _.
  pose proof (registered_user_steps draws data (RegisterData.org_invite_token data) v pending d Hk) as Hr.
  apply leaves_bind; [|by intros e d1 He; rewrite He in Hr; left].
  intros [user v'] d1 Ho. rewrite Ho in Hr. destruct Hr as [Hu Hst].
  apply leaves_keeps; [|right; eauto]. pose proof (accept_contracts_same). pose proof set_password_same.
  unfold activate_email_2fa, TwoFactor_save. db_keeps; auto; done.
Qed.

(** *** Requests *)

Lemma live_guard req d h d' : Headers_from_request req d = (Ok h, d') → d' = d ∧ session_of req d (Headers.user h).
Proof. intros (-> & Hl & _)%guard_Ok. split; [done|]. by eexists. Qed.

Lemma public_guard_Ok req d o d' :
  PublicToken_from_request req d = (Ok o, d') →
  d' = d ∧ ∃ key, key ∈ rows (organization_api_key d) ∧ OrganizationApiKey.org_uuid key = o.
Proof.
  unfold PublicToken_from_request. intros H. run_steps. split; [done|].
  match goal with Hf : OrganizationApiKey_find_by_org_uuid _ _ = Some ?k |- _ =>
    exists k; apply head_Some_elem, elem_of_where in Hf as [Hin Hp] end. by bools.
Qed.

(** What a request leaves behind. *)
Definition outcome (ev : Event) (d : DB) (T : Roster) : Prop :=
  T = roster d ∨ (∃ a, entitled ev d a ∧ rtc (step a) (roster d) T)
  ∨ (∃ o, dissolving ev d o ∧ dissolves o (roster d) T).

Lemma outcome_here ev d : outcome ev d (roster d).
Proof. by left. Qed.
Lemma outcome_steps {X} ev d a (m : M DB X) :
  orderly (roster d) → entitled ev d a → keeps (steps a) m → leaves roster m (outcome ev d) d.
Proof. intros Hk Ha Hm. right; left. exists a. split; [done|]. by apply (Hm d). Qed.
Lemma outcome_leaves {X} ev d a (m : M DB X) :
  entitled ev d a → leaves roster m (rtc (step a) (roster d)) d → leaves roster m (outcome ev d) d.
Proof. intros Ha Hm. right; left. exists a. by split. Qed.

Lemma user_request {X} ev req (f : Headers.t → M DB X) d :
  (∀ h, session_of req d (Headers.user h) → leaves roster (f h) (outcome ev d) d) →
  leaves roster (Headers_from_request req ≫= f) (outcome ev d) d.
Proof.
  intros Hf. apply leaves_guard; [apply guard_same|by intros h d' [-> _]%live_guard|apply outcome_here|].
  intros h [_ Hs]%live_guard. by apply Hf.
Qed.

Lemma admin_request req org_id act d :
  orderly (roster d) → fresh_draws (AsAdmin req org_id act) d →
  leaves roster (perform (AsAdmin req org_id act)) (outcome (AsAdmin req org_id act) d) d.
Proof.
  intros Hk Hf. apply leaves_guard; [apply admin_guard_same|by intros h d' [-> _]%admin_guard_Ok|apply outcome_here|].
  intros h (_ & Hl & _ & Ht & m & Hm)%admin_guard_Ok.
  destruct (decide (org_id = AdminHeaders.org_id h)) as [->|Hne]; [|unfold leaves; rewrite admin_act_elsewhere by done; apply outcome_here].
  eapply outcome_leaves; [|by apply admin_act_steps; [..|destruct act]]. simpl. unfold session_of. naive_solver.
Qed.

Lemma member_row req d h d' :
  orderly (roster d) → OrgMemberHeaders_from_request req d = (Ok h, d') →
  roster d !! Membership.uuid (OrgMemberHeaders.membership h) = Some (OrgMemberHeaders.membership h).
Proof. intros Hk (_ & _ & _ & Hin & _)%member_guard_Ok. by apply query_rows. Qed.

Lemma leave_request req org_id d :
  orderly (roster d) → leaves roster (perform (Leave req org_id)) (outcome (Leave req org_id) d) d.
Proof.
  intros Hk. simpl. apply leaves_if; intros Hr; [apply outcome_here|]. unfold routed in Hr. bools.
  apply leaves_guard; [apply member_guard_same|by intros h d' [-> _]%member_guard_Ok|apply outcome_here|].
  intros h Hh. pose proof (member_row _ _ _ _ Hk Hh) as Hm. apply member_guard_Ok in Hh as (_ & Hl & Ho & _ & Hu).
  eapply outcome_leaves; [|apply leave_steps; [done..|]].
  - eexists. split; [by eexists|]. by rewrite Hu.
  - unfold get_org_id in Ho. match goal with H : Request.param1 _ = Some _ |- _ => rewrite H in Ho end. case_match; congruence.
Qed.

Lemma enroll_request req org_id user_id data d :
  orderly (roster d) → leaves roster (perform (Enroll req org_id user_id data)) (outcome (Enroll req org_id user_id data) d) d.
Proof.
  intros Hk. simpl.
  apply leaves_guard; [apply member_guard_same|by intros h d' [-> _]%member_guard_Ok|apply outcome_here|].
  intros h Hh. pose proof (member_row _ _ _ _ Hk Hh) as Hm. apply member_guard_Ok in Hh as (_ & Hl & _ & _ & Hu).
  eapply outcome_leaves; [|by apply enroll_steps]. eexists. split; [by eexists|]. by rewrite Hu.
Qed.

Lemma delete_org_request req org_id pw otp d :
  orderly (roster d) →
  leaves roster (perform (DeleteOrganization req org_id pw otp)) (outcome (DeleteOrganization req org_id pw otp) d) d.
Proof.
  intros Hk. simpl.
  apply leaves_guard; [apply owner_guard_same|by intros h d' [-> _]%owner_guard_Ok|apply outcome_here|].
  intros h (_ & Hl & _ & m & Hm)%owner_guard_Ok. unfold delete_organization.
  apply leaves_check_org; [apply outcome_here|intros ->].
  apply leaves_skip; [apply validate_same|apply outcome_here|intros _ d1 Hd1 _]. apply leaves_gets.
  destruct (Organization_find_by_uuid _ d1) as [og|] eqn:Hog; [|unfold leaves; simpl; rewrite Hd1; apply outcome_here].
  apply head_Some_elem, elem_of_where in Hog as [_ Hog]. bools. right; right. exists (OwnerHeaders.org_id h). split.
  - simpl. unfold session_of. naive_solver.
  - rewrite <- Hd1 in *. match goal with H : Organization.uuid _ = _ |- _ => rewrite <- H end. by apply dissolve_steps.
Qed.

Lemma admin_delete_org_request org_id d :
  orderly (roster d) →
  leaves roster (perform (AdminDeleteOrganization org_id)) (outcome (AdminDeleteOrganization org_id) d) d.
Proof.
  intros Hk. simpl. unfold admin_delete_organization. apply leaves_gets. apply leaves_some_or; [apply outcome_here|].
  intros og [_ Ho]%head_Some_elem%elem_of_where. bools. right; right. exists (Organization.uuid og).
  split; [done|by apply dissolve_steps].
Qed.

Lemma accept_request draws org_id member_id data req h d :
  orderly (roster d) → session_of req d (Headers.user h) →
  leaves roster (accept_invite draws org_id member_id data h) (outcome (AcceptInvite req draws org_id member_id data) d) d.
Proof.
  intros Hk Hs. assert ((∃ claims, decode_invite (AcceptData.token data) = Ok claims
    ∧ InviteJwtClaims.email claims = User.email (Headers.user h) ∧ InviteJwtClaims.member_id claims = member_id)
    ∨ (accept_invite draws org_id member_id data h d).2 = d) as [(claims & Hc & He & Hm)|Hd].
  { unfold accept_invite, mbind, M_bind, lift. destruct (decode_invite _) as [claims|e]; [|by right].
    case_bool_decide; simpl; [|by right]. case_bool_decide; simpl; [|by right]. case_bool_decide; simpl; [|by right].
    left. eauto. }
  - eapply outcome_leaves; [|by apply accept_steps]. eexists _, _. by split_and!.
  - unfold leaves. rewrite Hd. apply outcome_here.
Qed.

Lemma delete_account_request req pw otp h d :
  orderly (roster d) → session_of req d (Headers.user h) →
  leaves roster (delete_account pw otp h) (outcome (DeleteAccount req pw otp) d) d.
Proof.
  intros Hk Hs. unfold delete_account. apply leaves_skip; [apply validate_same|apply outcome_here|intros _ d1 Hd1 _].
  right; left. eexists. split; [by eexists|]. rewrite <- Hd1 in *. by apply account_delete_steps.
Qed.

Lemma recover_delete_request user_id token d :
  orderly (roster d) → leaves roster (post_delete_recover_token user_id token) (outcome (RecoverDelete user_id token) d) d.
Proof.
  intros Hk. unfold post_delete_recover_token. destruct (decode_delete token) as [sub|e] eqn:Hc; [|apply outcome_here].
  apply leaves_gets, leaves_some_or; [apply outcome_here|]. intros u [_ Hu]%find_user_Some.
  apply leaves_if; intros Hs; [apply outcome_here|]. bools. subst.
  eapply outcome_steps; [done| |apply account_delete_steps]. by split.
Qed.

Lemma takeover_request req stamp token_for emer_id data h d :
  orderly (roster d) → session_of req d (Headers.user h) →
  leaves roster (password_emergency_access stamp token_for emer_id data (Headers.user h))
    (outcome (TakeOver req stamp token_for emer_id data) d) d.
Proof.
  intros Hk Hs. destruct (takeover_steps stamp token_for emer_id data (Headers.user h) d Hk) as [He|(ea & Hf & Hv & Hst)];
    [by left|]. right; left. eexists. split; [by eexists _, ea|done].
Qed.

Lemma perform_outcome ev d :
  orderly (roster d) → fresh_draws ev d → leaves roster (perform ev) (outcome ev d) d.
Proof.
  intros Hk Hf. destruct ev; try (simpl; apply user_request; intros h Hs).
  - by apply admin_request.
  - by apply delete_org_request.
  - by apply leave_request.
  - by apply enroll_request.
  - destruct Hf. apply leaves_tail; [intros; db_keeps|]. eapply outcome_leaves; [|by apply create_steps]. by eexists.
  - by apply accept_request.
  - eapply outcome_steps; [done| |apply post_set_password_steps]. by eexists.
  - eapply outcome_steps; [done| |apply disable_twofactor_steps]. by eexists.
  - by apply delete_account_request.
  - by apply recover_delete_request.
  - by apply takeover_request.
  - destruct (register_steps draws data email_verification d Hk) as [Hr|(u & Hu & Hst)]; [by left|].
    right; left. eexists. split; [by eexists|done].
  - destruct Hf. apply leaves_guard; [apply public_guard_same|by intros h d' [-> _]%public_guard_Ok|apply outcome_here|].
    intros o (_ & key & Hin & <-)%public_guard_Ok. eapply outcome_leaves; [|by apply ldap_import_steps]. by eexists.
  - eapply outcome_steps; [done| |apply rotate_steps]. by eexists.
  - by eapply outcome_steps; [..|apply enforce_2fa_steps].
  - by eapply outcome_steps; [..|apply assign_steps].
  - by eapply outcome_steps; [..|apply remove_2fa_steps].
  - by eapply outcome_steps; [..|apply delete_user_steps].
  - by apply admin_delete_org_request.
Qed.
End requests.

(** ** What the machine keeps *)

(** The organization has a confirmed owner. *)
Definition owned (o : string) (T : Roster) : Prop := ∃ k m, T !! k = Some m ∧ Membership.org_uuid m = o ∧ owner_row m.

(** The account is a confirmed member, or was one when it was revoked. *)
Definition confirmed_in (u o : string) (m : Membership.t) : Prop :=
  Membership.user_uuid m = u ∧ Membership.org_uuid m = o ∧ Membership.status m mod 128 = status_i32 Confirmed.
Definition joined (u o : string) (T : Roster) : Prop := ∃ k m, T !! k = Some m ∧ confirmed_in u o m.

Lemma revoke_keeps m :
  same_role (Membership.set_status (λ _, Membership.status (Membership_revoke m).2) m) (Membership_revoke m).2
  ∧ Membership.status (Membership_revoke m).2 mod 128 = Membership.status m mod 128.
Proof.
  unfold Membership_revoke, ACTIVATE_REVOKE_DIFF. case_match; simpl; (split; [by split|]); [|done].
  rewrite <- (Z_mod_plus_full (Membership.status m) (-1) 128). f_equal.
Qed.
Lemma restore_keeps m :
  same_role (Membership.set_status (λ _, Membership.status (Membership_restore m).2) m) (Membership_restore m).2
  ∧ Membership.status (Membership_restore m).2 mod 128 = Membership.status m mod 128.
Proof.
  unfold Membership_restore, ACTIVATE_REVOKE_DIFF. case_match; simpl; (split; [by split|]); [|done].
  rewrite <- (Z_mod_plus_full (Membership.status m) 1 128). f_equal.
Qed.
Lemma restore_owner m : owner_row m → (Membership_restore m).2 = m.
Proof. intros [_ Hs]. unfold Membership_restore. by rewrite Hs. Qed.

Section machine.
Context `{E : Env}.

Lemma owned_insert o T k m : owned o T → (∀ m0, T !! k = Some m0 → Membership.org_uuid m0 = o → owner_row m0 →
    (Membership.org_uuid m = o ∧ owner_row m) ∨ ∃ k' m', T !! k' = Some m' ∧ k' ≠ k ∧ Membership.org_uuid m' = o ∧ owner_row m') →
  owned o (<[k := m]> T).
Proof.
  intros (k0 & m0 & Hm0 & Ho & Hr) Hk. destruct (decide (k0 = k)) as [->|Hne].
  - destruct (Hk m0 Hm0 Ho Hr) as [[]|(k' & m' & Hm' & Hne & ?)].
    + exists k, m. by rewrite lookup_insert_eq.
    + exists k', m'. by rewrite lookup_insert_ne.
  - exists k0, m0. by rewrite lookup_insert_ne.
Qed.

Lemma spared_owner T m :
  spared T m → owner_row m →
  ∃ k' m', T !! k' = Some m' ∧ k' ≠ Membership.uuid m ∧ Membership.org_uuid m' = Membership.org_uuid m ∧ owner_row m'.
Proof. auto. Qed.

(** The last owner stays. *)
Lemma step_owned a o T T' : step a T T' → owned o T → owned o T'.
Proof.
  intros Hs Ho. destruct Hs as [| | |m m' Hm Hr _|m m' Hm Hi _ _|m key u r Hm Ha _ _ _|m t all u r Hm _ _ _ Hsp
    |m t Hm _ Hsp|m Hm _ Hsp|m Hm _|m Hm _ Hsp];
    try (apply owned_insert; [done|]; intros m0 Hm0 Ho0 Hr0; simplify_eq).
  - left. destruct Hr, Hr0. split; [congruence|split; congruence].
  - destruct Hr0 as [_ Hr0]. by rewrite Hi in Hr0.
  - destruct Hr0 as [_ Hr0]. by rewrite Ha in Hr0.
  - destruct (decide (t = Owner)) as [->|Hne]; [left; split; [done|]; split; [done|apply Hr0]|right; by apply spared_owner; auto].
  - destruct (decide (t = Owner)) as [->|Hne]; [left; split; [done|]; split; [done|apply Hr0]|right; by apply spared_owner; auto].
  - right. by apply spared_owner.
  - left. by rewrite restore_owner.
  - destruct Ho as (k0 & m0 & Hm0 & Ho & Hr0). destruct (decide (k0 = Membership.uuid m)) as [->|Hne].
    + simplify_eq. destruct (spared_owner _ _ Hsp Hr0) as (k & m' & ? & ? & ?). exists k, m'. by rewrite lookup_delete_ne.
    + exists k0, m0. by rewrite lookup_delete_ne.
Qed.

Lemma joined_insert u o T k m :
  joined u o (<[k := m]> T) → joined u o T ∨ confirmed_in u o m.
Proof.
  intros (k0 & m0 & Hm0 & Hc). apply lookup_insert_Some in Hm0 as [[<- <-]|[_ Hm0]]; [by right|]. left. by exists k0, m0.
Qed.

(** Membership comes from an administrator, or with the organization. *)
Lemma step_joined a u o T T' :
  step a T T' → ¬ joined u o T → joined u o T' → (∃ v r, a = Member v r o) ∨ a = Founder u o.
Proof.
  intros Hs Hn Hj.
  assert (Hsame : ∀ m m', T !! Membership.uuid m = Some m → Membership.user_uuid m' = Membership.user_uuid m →
    Membership.org_uuid m' = Membership.org_uuid m → Membership.status m' mod 128 = Membership.status m mod 128 →
    confirmed_in u o m' → False).
  { intros m m' Hm H1 H2 H3 (Hu & Ho & Hst). apply Hn. exists (Membership.uuid m), m. split_and!; [done|split_and!; congruence]. }
  destruct Hs as [m Ha _ _ _|m t v r Ha _ _ _ _ _|m _ _ _ Hi _ _|m m' Hm Hr _|m m' Hm _ _ Hr|m key v r Hm _ _ Ha _
    |m t all v r Hm _ _ _ _|m t Hm _ _|m Hm _ _|m Hm _|m Hm _ _]; try (apply joined_insert in Hj as [Hj|Hj]; [by destruct Hn|]).
  - right. by destruct Hj as (<- & <- & _).
  - left. destruct Hj as (_ & <- & _). eauto.
  - destruct Hj as (_ & _ & Hj). destruct Hi as [Hi|[_ Hi]]; by rewrite Hi in Hj.
  - destruct (Hsame m m' Hm (sr_user _ _ Hr) (sr_org _ _ Hr)); [by rewrite (sr_status _ _ Hr)|done].
  - destruct Hj as (_ & _ & Hj). by rewrite (sr_status _ _ Hr) in Hj.
  - left. destruct Hj as (_ & <- & _). simpl. eauto.
  - by destruct (Hsame m _ Hm eq_refl eq_refl eq_refl Hj).
  - by destruct (Hsame m _ Hm eq_refl eq_refl eq_refl Hj).
  - destruct (revoke_keeps m) as [Hr Hst]. by destruct (Hsame m _ Hm (sr_user _ _ Hr) (sr_org _ _ Hr) Hst Hj).
  - destruct (restore_keeps m) as [Hr Hst]. by destruct (Hsame m _ Hm (sr_user _ _ Hr) (sr_org _ _ Hr) Hst Hj).
  - destruct Hj as (k & m0 & [_ Hm0]%lookup_delete_Some & Hc). destruct Hn. by exists k, m0.
Qed.
End machine.

(** A row as the code writes them: the number of a role, and the number of a
    status or, when revoked, that number less 128. *)
Definition typed (m : Membership.t) : Prop :=
  (∃ t, Membership.atype m = type_i32 t)
  ∧ ∃ s, s ≠ Revoked ∧ (Membership.status m = status_i32 s ∨ Membership.status m = status_i32 s - ACTIVATE_REVOKE_DIFF).

Lemma revoke_typed m : typed m → typed (Membership_revoke m).2.
Proof.
  intros [Ht (s & Hs & He)]. unfold Membership_revoke, ACTIVATE_REVOKE_DIFF in *. case_match; [|by split; [|exists s]].
  split; [done|]. exists s. split; [done|]. right. simpl. destruct He as [He|He]; [by rewrite He|].
  rewrite He in *. by destruct s.
Qed.
Lemma restore_typed m : typed m → typed (Membership_restore m).2.
Proof.
  intros [Ht (s & Hs & He)]. unfold Membership_restore, ACTIVATE_REVOKE_DIFF in *. case_match; [|by split; [|exists s]].
  split; [done|]. exists s. split; [done|]. left. simpl. destruct He as [He|He]; rewrite He in *; [by destruct s|lia].
Qed.
Lemma typed_same_role m m' : same_role m m' → typed m → typed m'.
Proof. intros Hr [Ht Hs]. split; [by rewrite (sr_atype _ _ Hr)|by rewrite (sr_status _ _ Hr)]. Qed.

Lemma step_typed `{E : Env} a T T' : step a T T' → map_Forall (λ _, typed) T → map_Forall (λ _, typed) T'.
Proof.
  assert (Hst : ∀ m s, s ≠ Revoked → typed m → typed (Membership.set_status (λ _, status_i32 s) m)).
  { intros m s Hs [Ht _]. split; [done|]. exists s. auto. }
  assert (Hty : ∀ m t, typed m → typed (Membership.set_atype (λ _, type_i32 t) m)).
  { intros m t [_ Hs]. split; [by exists t|done]. }
  intros Hs HT. assert (Hrow : ∀ m, T !! Membership.uuid m = Some m → typed m) by (intros m Hm; by apply (HT _ _ Hm)).
  destruct Hs as [m _ _ _ [Ht Hs]|m t v r _ _ _ Hs Ht _|m _ _ _ Hs Ht _|m m' Hm Hr _|m m' Hm _ _ Hr|m key v r Hm _ _ _ _
    |m t all v r Hm _ _ _ _|m t Hm _ _|m Hm _ _|m Hm _|m Hm _ _]; try (apply map_Forall_insert_2; [|done]).
  - split; [by exists Owner|]. exists Confirmed. auto.
  - split; [by exists t|]. destruct Hs as [Hs|[_ Hs]]; [by exists Invited; auto|by exists Accepted; auto].
  - split; [by exists User_|]. destruct Hs as [Hs|[_ Hs]]; [by exists Invited; auto|by exists Accepted; auto].
  - eapply typed_same_role; [done|auto].
  - eapply typed_same_role; [done|auto].
  - apply (Hst m Confirmed); auto.
  - apply (Hty (Membership.set_access_all (λ _, all) m)). by apply Hrow in Hm.
  - apply Hty; auto.
  - apply revoke_typed; auto.
  - apply restore_typed; auto.
  - by apply map_Forall_delete.
Qed.

(** *** Administrators below Owner *)

Definition high (m : Membership.t) : Prop := i32_ge_type (Membership.atype m) Admin = true.

(** From [T] to [T'] nobody in the organization was raised to administrator or
    owner, none of these was confirmed or given a key, and the owners stayed. *)
Record unraised (o : string) (T T' : Roster) : Prop := {
  ur_high : ∀ k m', T' !! k = Some m' → Membership.org_uuid m' = o → high m' →
    ∃ m, T !! k = Some m ∧ Membership.org_uuid m = o ∧ Membership.user_uuid m = Membership.user_uuid m'
      ∧ Membership.atype m = Membership.atype m' ∧ Membership.akey m = Membership.akey m'
      ∧ (Membership.status m' mod 128 = status_i32 Confirmed → Membership.status m mod 128 = status_i32 Confirmed);
  ur_owner : ∀ k m, T !! k = Some m → Membership.org_uuid m = o → Membership.atype m = type_i32 Owner →
    ∃ m', T' !! k = Some m' ∧ Membership.org_uuid m' = o ∧ Membership.user_uuid m' = Membership.user_uuid m
      ∧ Membership.atype m' = type_i32 Owner ∧ Membership.akey m' = Membership.akey m
      ∧ (Membership.status m' = Membership.status m
         ∨ Membership.status m = status_i32 Invited ∧ Membership.status m' = status_i32 Accepted)
}.
#[export] Instance unraised_preorder o : PreOrder (unraised o).
Proof.
  split; [split; intros k m Hm; exists m; auto 8|]. intros T1 T2 T3 [H1 H1'] [H2 H2']. split.
  - intros k m3 Hm3 Ho Hh. destruct (H2 _ _ Hm3 Ho Hh) as (m2 & Hm2 & Ho2 & Hu2 & Ht2 & Hk2 & Hs2).
    destruct (H1 _ _ Hm2 Ho2) as (m1 & Hm1 & Ho1 & Hu1 & Ht1 & Hk1 & Hs1); [by unfold high; rewrite Ht2|].
    exists m1. split_and!; [done|done|congruence..|auto].
  - intros k m1 Hm1 Ho Ht. destruct (H1' _ _ Hm1 Ho Ht) as (m2 & Hm2 & Ho2 & Hu2 & Ht2 & Hk2 & Hs2).
    destruct (H2' _ _ Hm2 Ho2 Ht2) as (m3 & Hm3 & Ho3 & Hu3 & Ht3 & Hk3 & Hs3).
    exists m3. split_and!; [done|done|congruence|done|congruence|].
    destruct Hs2 as [Hs2|[Ha Hb]], Hs3 as [Hs3|[Ha' Hb']]; rewrite ?Hs2, ?Hs3 in *; auto.
Qed.

(** One row changes. *)
Lemma unraised_insert o T m m' :
  T !! Membership.uuid m = Some m → Membership.user_uuid m' = Membership.user_uuid m →
  Membership.org_uuid m' = Membership.org_uuid m →
  (high m' → Membership.atype m' = Membership.atype m ∧ Membership.akey m' = Membership.akey m
     ∧ (Membership.status m' mod 128 = status_i32 Confirmed → Membership.status m mod 128 = status_i32 Confirmed)) →
  (Membership.org_uuid m = o → Membership.atype m = type_i32 Owner → Membership.atype m' = type_i32 Owner
     ∧ Membership.akey m' = Membership.akey m
     ∧ (Membership.status m' = Membership.status m
        ∨ Membership.status m = status_i32 Invited ∧ Membership.status m' = status_i32 Accepted)) →
  unraised o T (<[Membership.uuid m := m']> T).
Proof.
  intros Hm Hu Ho Hh Hw. split.
  - intros k m1 [[<- <-]|[_ Hm1]]%lookup_insert_Some Ho1 Hh1; [|by exists m1; auto 8].
    destruct (Hh Hh1) as (? & ? & ?). exists m. split_and!; [done|congruence..|done].
  - intros k m1 Hm1 Ho1 Ht1. destruct (decide (k = Membership.uuid m)) as [->|Hne].
    + simplify_eq. destruct (Hw eq_refl Ht1) as (? & ? & ?). exists m'. rewrite lookup_insert_eq. by split_and!.
    + exists m1. rewrite lookup_insert_ne by done. auto 8.
Qed.

Lemma low_not_high m t : Membership.atype m = type_i32 t → type_ge t Admin = false → ¬ high m.
Proof. unfold high. intros -> Ht. by destruct t. Qed.

Lemma step_unraised `{E : Env} u r o T T' : step (Member u r o) T T' → r ≠ Owner → unraised o T T'.
Proof.
  intros Hs Hr. destruct Hs as [m Ha _ _ _|m t v r' Ha Hn _ _ Ht Hx|m Ha _ _ _ _ _|m m' _ _ Ha|m m' Hm Hi _ Hsr
    |m key v r' Hm _ _ Ha Hx|m t all v r' Hm Ha Hx Hw _|m t _ Ha _|m Hm Ha _|m Hm Ha|m Hm Ha _]; try done.
  - assert (t = User_) as -> by (destruct Hx; [done|congruence]). split.
    + intros k m1 [[<- <-]|[_ Hm1]]%lookup_insert_Some Ho1 Hh1; [|by exists m1; auto 8].
      by eapply low_not_high in Hh1.
    + intros k m1 Hm1 Ho1 Ht1. exists m1. rewrite lookup_insert_ne by (intros <-; congruence). auto 8.
  - by destruct Ha.
  - destruct Hsr as [_ Hsu Hso _ Hsk Hss Hst]. apply unraised_insert; [done..| |].
    + intros _. split_and!; [done..|]. by rewrite Hss.
    + intros _ Hto. split_and!; [by rewrite Hst|done|right; done].
  - assert (Membership.atype m = type_i32 User_) as Hu by (destruct Hx; [done|congruence]).
    apply unraised_insert; [done..| |].
    + intros Hh. by eapply low_not_high in Hh.
    + intros _ Hto. rewrite Hu in Hto. done.
  - assert (r' = r) as -> by congruence. apply unraised_insert; [done..| |].
    + intros Hh. destruct (decide (Membership.atype m = type_i32 t)) as [He|Hne]; [by split_and!|].
      destruct Hr. apply Hx; [done|]. right. unfold high in Hh. simpl in Hh. by destruct t.
    + intros _ Hto. by destruct (Hr (Hw Hto)).
  - destruct (revoke_keeps m) as [[] Hst]. apply unraised_insert; [done..| |].
    + intros _. split_and!; [done..|]. by rewrite Hst.
    + intros Ho Hto. destruct Ha as [[(v & r' & Ha & _ & Hw)|Ha]|Ha]; [|done|].
      * destruct Hr. assert (r' = r) as <- by congruence. auto.
      * by rewrite Hto in Ha.
  - destruct (restore_keeps m) as [[] Hst]. apply unraised_insert; [done..| |].
    + intros _. split_and!; [done..|]. by rewrite Hst.
    + intros Ho Hto. destruct Ha as [(v & r' & Ha & _ & Hw)|Ha]; [|done].
      destruct Hr. assert (r' = r) as <- by congruence. auto.
  - split.
    + intros k m1 [_ Hm1]%lookup_delete_Some Ho1 Hh1. exists m1. auto 8.
    + intros k m1 Hm1 Ho1 Ht1. exists m1. rewrite lookup_delete_ne; [auto 8|]. intros <-. simplify_eq.
      destruct Ha as [(v & r' & Ha & Hx)|[Ha|[Ha|[Ha|[[Ha _]|(_ & o' & Hne & [Ha|(v & r' & Ha)])]]]]]; simplify_eq.
      destruct Hx as [Hx|Hx]; [by rewrite Ht1 in Hx|done].
Qed.

(** ** Histories of requests *)

Section histories.
Context `{K : Codecs} `{J : PolicyJson} `{C : Crypto} `{L : LoginTokens} `{S : SessionTokens}.
Context `{A : AccountTokens} `{I : OrgInviteTokens} `{V : InviteTokens}.

(** Requests one after another, each at its own time and settings. *)
Inductive history (d0 : DB) : list (Env * Event) → DB → Prop :=
| h_start : history d0 [] d0
| h_next l d (E : Env) ev r d' :
    history d0 l d → fresh_draws ev d → perform ev d = (r, d') → history d0 (l ++ [(E, ev)]) d'.

Lemma dissolves_orderly o T T' : dissolves o T T' → orderly T → orderly T'.
Proof.
  intros Hd [Hk Hu]. assert (Hsub : ∀ k m, T' !! k = Some m → T !! k = Some m).
  { intros k m Hm. destruct (Hd k) as [He|(m0 & Hm0 & He & _)]; congruence. }
  split; [intros k m Hm; by apply Hk, Hsub|]. intros k k' m m' Hm Hm'. apply Hu; by apply Hsub.
Qed.
Lemma dissolves_owned o o' T T' : dissolves o' T T' → o' ≠ o → owned o T → owned o T'.
Proof.
  intros Hd Hne (k & m & Hm & Ho & Hr). exists k, m. split_and!; [|done..].
  destruct (Hd k) as [->|(m0 & Hm0 & _ & Ho')]; [done|congruence].
Qed.
Lemma dissolves_joined u o o' T T' : dissolves o' T T' → joined u o T' → joined u o T.
Proof. intros Hd (k & m & Hm & Hc). exists k, m. destruct (Hd k) as [He|(m0 & Hm0 & He & _)]; [by rewrite <- He|congruence]. Qed.

Lemma perform_outcome_run (E : Env) ev d r d' :
  orderly (roster d) → fresh_draws ev d → perform ev d = (r, d') → outcome ev d (roster d').
Proof. intros Hk Hf Hp. pose proof (perform_outcome ev d Hk Hf) as Ho. unfold leaves in Ho. by rewrite Hp in Ho. Qed.

Lemma outcome_orderly (E : Env) ev d T : outcome ev d T → orderly (roster d) → orderly T.
Proof.
  intros [->|[(a & _ & Hs)|(o & _ & Hd)]] Hk; [done|by eapply rtc_step_orderly|by eapply dissolves_orderly].
Qed.
Lemma history_orderly d0 l d : history d0 l d → orderly (roster d0) → orderly (roster d).
Proof.
  induction 1 as [|l d E ev r d' _ IH Hf Hp]; [done|]. intros Hk. specialize (IH Hk).
  exact (outcome_orderly E ev d _ (perform_outcome_run E ev d r d' IH Hf Hp) IH).
Qed.

Lemma rtc_owned `{E : Env} a o T T' : rtc (step a) T T' → owned o T → owned o T'.
Proof. induction 1; eauto using step_owned. Qed.

#[export] Instance confirmed_in_dec u o m : Decision (confirmed_in u o m).
Proof. unfold confirmed_in. apply _. Defined.
Lemma joined_or_not u o T : joined u o T ∨ ¬ joined u o T.
Proof.
  destruct (decide (map_Forall (λ _ m, ¬ confirmed_in u o m) T)) as [Hn|Hj].
  - right. intros (k & m & Hm & Hc). by apply (Hn k m).
  - left. apply map_not_Forall in Hj as (k & m & Hm & Hc); [|apply _]. exists k, m. split; [done|]. by apply dec_stable.
Qed.

(** The step at which an account joins. *)
Lemma rtc_joined `{E : Env} a u o T T' :
  rtc (step a) T T' → ¬ joined u o T → joined u o T' → (∃ v r, a = Member v r o) ∨ a = Founder u o.
Proof.
  induction 1 as [T|T1 T2 T3 Hs Hr IH]; [done|]. intros Hn Hj.
  destruct (joined_or_not u o T2) as [Hj2|Hn2]; [by eapply step_joined|by apply IH].
Qed.
End histories.

Section theorems.
Context `{K : Codecs} `{J : PolicyJson} `{C : Crypto} `{L : LoginTokens} `{S : SessionTokens}.
Context `{A : AccountTokens} `{I : OrgInviteTokens} `{V : InviteTokens}.

(** C3: every request about members refines the roster machine. On every path
    of every handler, errors included, a request leaves the table of memberships
    as it was, or changes it by steps that the machine allows to an actor that
    the sender proves to be (a confirmed administrator of that organization with
    a live session, the account itself, the holder of an invitation, of the API
    key of the organization or of an approved takeover, or the server's
    administrator), or dissolves an organization for one of its owners or the
    server's administrator. The table stays orderly. *)
Theorem requests_refine_roster_machine (E : Env) (ev : Event) (d : DB) (r : Res ()) (d' : DB) :
  orderly (roster d) → fresh_draws ev d → perform ev d = (r, d') →
  orderly (roster d')
  ∧ (roster d' = roster d ∨ (∃ a, entitled ev d a ∧ rtc (step a) (roster d) (roster d'))
     ∨ (∃ o, dissolving ev d o ∧ dissolves o (roster d) (roster d'))).
Proof.
  intros Hk Hf Hp. pose proof (perform_outcome_run E ev d r d' Hk Hf Hp) as Ho. split; [|exact Ho].
  by eapply outcome_orderly.
Qed.

(** C16: an administrator cannot raise anybody. A request of an administrator
    of the organization who is not an owner, whatever it asks for and however it
    ends, makes nobody an administrator or owner of the organization, confirms
    none of them and gives none of them a key, and leaves every owner in place
    with his role and key; at most an invitation of an owner becomes accepted. *)
Theorem administrators_cannot_promote (E : Env) (req : Request.t) (o : string) (act : AdminAct) (d : DB) (r : Res ()) (d' : DB) :
  orderly (roster d) → fresh_draws (AsAdmin req o act) d →
  (∀ user m, session_of req d user → confirmed_member d user o Owner m → False) →
  perform (AsAdmin req o act) d = (r, d') → unraised o (roster d) (roster d').
Proof.
  intros Hk Hf Hno Hp. destruct (perform_outcome_run E _ _ _ _ Hk Hf Hp) as [->|[(a & Ha & Hs)|(o' & [] & _)]]; [done|].
  destruct Ha as (user & role & m & Hsess & _ & Hm & ->).
  assert (Hr : role ≠ Owner) by (intros ->; by eapply Hno). clear -Hs Hr.
  induction Hs as [|T1 T2 T3 Hst _ IH]; [done|]. etrans; [by eapply step_unraised|done].
Qed.

(** C5: organizations keep an owner. In every history of requests, each at its
    own time, an organization that has a confirmed owner keeps one, unless the
    history contains a request to delete that organization. *)
Theorem organizations_keep_an_owner (d0 : DB) (l : list (Env * Event)) (d : DB) (o : string) :
  history d0 l d → orderly (roster d0) → owned o (roster d0) →
  (∀ E ev, (E, ev) ∈ l → match ev with DeleteOrganization _ o' _ _ | AdminDeleteOrganization o' => o' ≠ o | _ => True end) →
  owned o (roster d).
Proof.
  intros Hh Hk Ho. induction Hh as [|l d E ev r d' Hh IH Hf Hp]; intros Hno; [done|].
  assert (Hod : owned o (roster d)) by (apply IH; intros E' ev' Hin; apply (Hno E' ev'), elem_of_app; by left).
  pose proof (history_orderly _ _ _ Hh Hk) as Hkd. specialize (Hno E ev).
  destruct (perform_outcome_run E ev d r d' Hkd Hf Hp) as [->|[(a & _ & Hs)|(o' & Hd & Hds)]].
  - done.
  - by eapply rtc_owned.
  - eapply dissolves_owned; [done| |done]. destruct ev; try done; simpl in Hd.
    + destruct Hd as [<- _]. apply Hno. set_solver.
    + subst. apply Hno. set_solver.
Qed.


(** memberships stay well typed. In every history of requests, if every
    stored membership has the number of a role and the number of a status, or
    the latter less 128 for a revoked one, this is still so at the end; a number
    sent by a client never reaches the table unchecked. *)
Theorem memberships_stay_typed (d0 : DB) (l : list (Env * Event)) (d : DB) :
  history d0 l d → orderly (roster d0) → map_Forall (λ _, typed) (roster d0) → map_Forall (λ _, typed) (roster d).
Proof.
  intros Hh Hk Ht. induction Hh as [|l d E ev r d' Hh IH Hf Hp]; [done|].
  pose proof (history_orderly _ _ _ Hh Hk) as Hkd.
  destruct (perform_outcome_run E ev d r d' Hkd Hf Hp) as [->|[(a & _ & Hs)|(o & _ & Hds)]]; [done| |].
  - clear -Hs IH. induction Hs; eauto using step_typed.
  - intros k m Hm. destruct (Hds k) as [He|(m0 & _ & He & _)]; [|congruence]. rewrite He in Hm. by apply (IH k m).
Qed.
End theorems.

(** ** A concrete organization *)

Lemma orderly_checked T :
  bool_decide (map_Forall (λ k m, Membership.uuid m = k ∧ map_Forall (λ k' m',
    Membership.user_uuid m = Membership.user_uuid m' → Membership.org_uuid m = Membership.org_uuid m' → k = k') T) T) = true →
  orderly T.
Proof.
  intros H%bool_decide_eq_true. split; [intros k m Hm; apply (H k m Hm)|].
  intros k k' m m' Hm Hm'. by apply (proj2 (H k m Hm)).
Qed.

Module SampleRoster.
Import Sample.

(** Beside Alice, the owner, and Bob, a member: Dave is an administrator, and
    Carol has accepted her invitation. *)
Definition carol := mem "m-carol" "carol" false 1 2.
Definition dave := mem "m-dave" "dave" false 2 1.
Definition roster_db : DB :=
  set_users_organizations (λ t, <["m-carol" := carol]> (<["m-dave" := dave]> t))
    (set_users (λ t, <["carol" := user env "carol" "c@x"]> (<["dave" := user env "dave" "d@x"]> t))
      (set_devices (λ t, <[("desk", "alice") := Device.mk "desk" 0 0 "alice" "Desk" 0 None None "t2" None]>
         (<[("pad", "dave") := Device.mk "pad" 0 0 "dave" "Pad" 0 None None "t3" None]> t)) db)).

Definition claims (sub device : string) : LoginJwtClaims.t :=
  LoginJwtClaims.mk 0 2000 sub "" "" true "stamp" device "" "web" [].
Definition refusal {A} : Res A := Err (MkError 400 "refused").
Definition login : LoginTokens := {|
  decode_login s := if s == "alice-jwt" then Ok (claims "alice" "desk")
                    else if s == "dave-jwt" then Ok (claims "dave" "pad") else refusal;
  is_uuid _ := true
|}.
Definition sessions : SessionTokens := {|
  decode_refresh _ := refusal; decode_2fa_remember _ := refusal; encode_2fa_remember _ := ""; as_send_id s := Some s;
  decode_api_org _ := refusal; domain_origin := ""
|}.
Definition account_tokens : AccountTokens := {|
  decode_register_verify _ := refusal; decode_verify_email _ := refusal; decode_delete _ := refusal |}.
Definition invites : OrgInviteTokens := {| decode_invite _ := refusal |}.
Definition contacts : InviteTokens := {| decode_emergency_access_invite _ := refusal |}.
Definition crypto : Crypto := {| pbkdf2 password _ _ := password |}.
Definition policies : PolicyJson := {| auto_enroll_enabled _ := None; disable_hide_email _ := None |}.
#[export] Existing Instances env login sessions account_tokens invites contacts crypto policies SampleCodecs.codecs.

Definition draws : Draws := {|
  new_member_id _ := "m-new"; new_seed _ := MkSeed "new" "stamp" []; new_group_id _ := "g-new"; new_factor_id _ := "tf-new"
|}.
Definition as_ (jwt : string) : Request.t :=
  Request.mk (Some ("Bearer " +:+ jwt)) None "10.0.0.1" (Some "acme") None None None.
Definition confirm_carol (jwt : string) : Event :=
  AsAdmin (as_ jwt) "acme" (Confirm draws "m-carol" (ConfirmData.mk None (Some "key"))).
Definition after (jwt : string) : DB := (perform (confirm_carol jwt) roster_db).2.
End SampleRoster.

Section witnesses.
Import SampleRoster.

Lemma roster_db_orderly : orderly (roster roster_db).
Proof. apply orderly_checked. by vm_compute. Qed.

Lemma requests_refine_roster_machine_witness :
  orderly (roster (after "alice-jwt")) ∧ roster (after "alice-jwt") !! "m-carol" ≠ roster roster_db !! "m-carol".
Proof.
  split; [|by vm_compute].
  apply (requests_refine_roster_machine Sample.env (confirm_carol "alice-jwt") roster_db
    (perform (confirm_carol "alice-jwt") roster_db).1 (after "alice-jwt")); [apply roster_db_orderly|done|].
  unfold after. by destruct (perform _ _).
Defined.

Lemma administrators_cannot_promote_witness : unraised "acme" (roster roster_db) (roster (after "dave-jwt")).
Proof.
  apply (administrators_cannot_promote Sample.env (as_ "dave-jwt") "acme"
    (Confirm draws "m-carol" (ConfirmData.mk None (Some "key"))) roster_db (perform (confirm_carol "dave-jwt") roster_db).1).
  - apply roster_db_orderly.
  - done.
  - intros user m (device & a & c & Ha & Hc & _ & _ & _ & _ & Hu & _) (Hin & Hm & _ & _ & Ht).
    injection Ha as <-. vm_compute in Hc. injection Hc as <-. simpl in Hu. rewrite Hu in Hm.
    assert (Hall : Forall (λ m, ¬ (Membership.user_uuid m = "dave" ∧ Membership.atype m = 0)) (rows (roster roster_db))).
    { apply (bool_decide_eq_true_1 _). by vm_compute. }
    rewrite Forall_forall in Hall. by apply (Hall m Hin).
  - unfold after, confirm_carol. by destruct (perform _ _).
Defined.

Lemma confirming : history roster_db [(Sample.env, confirm_carol "alice-jwt")] (after "alice-jwt").
Proof.
  apply (h_next roster_db [] roster_db Sample.env _ (perform (confirm_carol "alice-jwt") roster_db).1);
    [apply h_start|done|]. unfold after. by destruct (perform _ _).
Qed.

Lemma organizations_keep_an_owner_witness : owned "acme" (roster (after "alice-jwt")).
Proof.
  apply (organizations_keep_an_owner roster_db [(Sample.env, confirm_carol "alice-jwt")] _ "acme" confirming roster_db_orderly).
  - exists "m-alice", Sample.alice. by split_and!.
  - intros E ev Hin. by apply list_elem_of_singleton in Hin as [= -> ->].
Defined.


Lemma memberships_stay_typed_witness : map_Forall (λ _, typed) (roster (after "alice-jwt")).
Proof.
  apply (memberships_stay_typed roster_db _ _ confirming roster_db_orderly).
  assert (Hall : map_Forall (λ _ m, Membership.atype m ∈ [0; 1; 2; 3] ∧ Membership.status m ∈ [0; 1; 2]) (roster roster_db)).
  { apply (bool_decide_eq_true_1 _). by vm_compute. }
  intros k m Hm. destruct (Hall k m Hm) as [Ht Hs]. split.
  - set_unfold in Ht. destruct Ht as [->|[->|[->|[->|[]]]]]; [by exists Owner|by exists Admin|by exists User_|by exists Manager].
  - set_unfold in Hs. destruct Hs as [->|[->|[->|[]]]]; [exists Invited|exists Accepted|exists Confirmed]; auto.
Defined.

(** Mails to one address are refused. *)
Definition bouncing : Env :=
  set_send_mail (λ _ _ to, if to == "e@x" then Err (MkError 400 "refused") else Ok ()) Sample.env.
Definition two_invitations : Event :=
  AsAdmin (as_ "alice-jwt") "acme" (Invite
    {| new_member_id n := match n with O => "m-0" | _ => "m-1" end;
       new_seed n := MkSeed (match n with O => "u-0" | _ => "u-1" end) "stamp" [];
       new_group_id _ := "g-new"; new_factor_id s := s |}
    (InviteData.mk ["new@x"; "e@x"] [] (Number 2) None ∅)).
Definition invited_db : DB := (perform (E := bouncing) two_invitations roster_db).2.

(** an invitation that fails can delete an account. The flag that says that
    the invited account was created by the request is not reset between the
    addresses. Alice invites an address without account and then Eve, who has
    one; the mail to Eve is refused; the answer is an error, and the account of
    Eve is gone. *)
Theorem failed_invitation_deletes_existing_account :
  users roster_db !! "eve" = Some (Sample.user Sample.env "eve" "e@x")
  ∧ users invited_db !! "eve" = None ∧ is_ok (perform (E := bouncing) two_invitations roster_db).1 = false.
Proof. vm_compute. done. Qed.
End witnesses.
