(* ===== verification/CollectionControl.v ===== *)
(** Who controls a collection.

    The requests on collections and groups go through their guard and handler
    ([control]). An account that does not manage a collection cannot change the
    collection, nor who has access to it, with any sequence of such requests,
    and cannot come to manage it. *)
From S2P Require Import Prelude Schema Roles Users Json Invariants Samples Memberships Groups Collections CollectionAccess Guards TwoFactors OneTimeCodes VaultItems Ciphers Policies EmergencyRows Organizations Emergency OrgJson Members Tokens Downloads Vault OrgCollections Authentication Owners.
Local Open Scope Z_scope.

(** ** The right to manage a collection *)

Section manages.
Context `{E : Env}.

(** The ways to manage a collection: a grant with the flag, a role or access to
    everything, a group with access to everything, the grant of a group. *)
Inductive manages (u c : string) (d : DB) : Prop :=
| mg_grant col cu : col ∈ rows (collections d) → Collection.uuid col = c → cu ∈ rows (users_collections d) →
    CollectionUser.collection_uuid cu = c → CollectionUser.user_uuid cu = u → CollectionUser.manage cu = true → manages u c d
| mg_member col m : col ∈ rows (collections d) → Collection.uuid col = c → m ∈ rows (users_organizations d) →
    Collection.org_uuid col = Membership.org_uuid m → Membership.user_uuid m = u →
    Membership.access_all m = true ∨ Membership.atype m ≤ MembershipType_as_i32 Admin → manages u c d
| mg_group_all col m gu g : col ∈ rows (collections d) → Collection.uuid col = c → m ∈ rows (users_organizations d) →
    Collection.org_uuid col = Membership.org_uuid m → Membership.user_uuid m = u →
    gu ∈ rows (groups_users d) → GroupUser.users_organizations_uuid gu = Membership.uuid m →
    g ∈ rows (groups d) → Group.uuid g = GroupUser.groups_uuid gu → Group.organizations_uuid g = Membership.org_uuid m →
    Group.access_all g = true → manages u c d
| mg_group col m gu cg : col ∈ rows (collections d) → Collection.uuid col = c → m ∈ rows (users_organizations d) →
    Collection.org_uuid col = Membership.org_uuid m → Membership.user_uuid m = u →
    gu ∈ rows (groups_users d) → GroupUser.users_organizations_uuid gu = Membership.uuid m →
    cg ∈ rows (collections_groups d) → CollectionGroup.groups_uuid cg = GroupUser.groups_uuid gu →
    CollectionGroup.collections_uuid cg = c → CollectionGroup.manage cg = true → manages u c d.

Lemma manageable_manages u c d : Collection_is_coll_manageable_by_user c u d = true → manages u c d.
Proof.
  unfold Collection_is_coll_manageable_by_user, flagged_access. rewrite nonempty_true.
  intros ([[[[[col ocu] om] ogu] og] ocg] & [Hj Hp]%elem_of_where).
  apply elem_of_left_join in Hj as [Hj Hcg]. apply elem_of_left_join in Hj as [Hj Hg].
  apply elem_of_left_join in Hj as [Hj Hgu]. apply direct_join_elem in Hj as (Hcol & Hcu & Hom).
  apply andb_true_iff in Hp as [Hc Hp]. bools. rewrite !orb_true_iff in Hp.
  destruct Hp as [[[Hp|[Hp|Hp]]|Hp]|Hp]; bools.
  - destruct (Hcu _ eq_refl) as (? & ? & ?). eapply mg_grant; eauto; congruence.
  - destruct (Hom _ eq_refl) as (? & ? & ?). eapply mg_member; eauto.
  - destruct (Hom _ eq_refl) as (? & ? & ?). eapply mg_member; eauto. right. by apply Z.leb_le.
  - destruct Hg as [? ?]. bools. destruct Hgu as [? ?]. bools. destruct (Hom _ eq_refl) as (? & ? & ?). eapply mg_group_all; eauto.
  - unfold same_member in *. bools. destruct Hcg as [? ?]. bools. destruct Hgu as [? ?]. bools. destruct (Hom _ eq_refl) as (? & ? & ?).
    eapply mg_group; eauto; congruence.
Qed.

Lemma manages_manageable u c d : manages u c d → Collection_is_coll_manageable_by_user c u d = true.
Proof.
  intros Hm. unfold Collection_is_coll_manageable_by_user, flagged_access. apply nonempty_true.
  destruct Hm as [col cu Hcol Hc Hcu Hcuc Hcuu Hflag|col m Hcol Hc Hm Ho Hu Hr|col m gu g Hcol Hc Hm Ho Hu Hgu Hgm Hg Hgg Hgo Hall
    |col m gu cg Hcol Hc Hm Ho Hu Hgu Hgm Hcg Hgg Hcc Hflag].
  - assert (Hj : (col, Some cu) ∈ left_join (rows (collections d)) (rows (users_collections d)) (λ c cu,
        (CollectionUser.collection_uuid cu == Collection.uuid c) && (CollectionUser.user_uuid cu == u))).
    { apply elem_of_left_join. split_and!; [done..|]. by rewrite !bool_decide_true by congruence. }
    destruct (left_join_total _ (rows (users_organizations d)) (λ '(c, _) m,
       (Collection.org_uuid c == Membership.org_uuid m) && (Membership.user_uuid m == u)) _ Hj) as [om Hj1].
    destruct (access_join_weaken _ _ _ _ _ Hj1) as (ogu & og & ocg & Hj2). eexists. apply elem_of_where. split; [exact Hj2|].
    cbn [nn]. by rewrite !bool_decide_true.
  - destruct (direct_join_ex u d col None m) as (ocu & Hj & _); [done..|].
    destruct (access_join_weaken _ _ _ _ _ Hj) as (ogu & og & ocg & Hj2). eexists. apply elem_of_where. split; [exact Hj2|].
    cbn [nn]. rewrite (bool_decide_true _ Hc). simpl. destruct Hr as [Ha|Ht%Z.leb_le].
    + rewrite (bool_decide_true _ Ha). simpl. by rewrite orb_true_r.
    + simpl in Ht. rewrite Ht. simpl. by rewrite !orb_true_r.
  - destruct (direct_join_ex u d col None m) as (ocu & Hj & _); [done..|].
    destruct (access_join_ex u d col ocu m gu (Some g) None) as (og & ocg & Hj' & Hog & _); [done..|by intros ? [= <-]|done|].
    rewrite Hog in Hj' by done. eexists. apply elem_of_where. split; [exact Hj'|].
    cbn [nn]. rewrite (bool_decide_true _ Hc), (bool_decide_true _ Hall). simpl. by rewrite !orb_true_r.
  - destruct (direct_join_ex u d col None m) as (ocu & Hj & _); [done..|].
    destruct (access_join_ex u d col ocu m gu None (Some cg)) as (og & ocg & Hj' & _ & Hocg); [done..|intros ? [= <-]; by rewrite Hc|].
    rewrite Hocg in Hj' by done. eexists. apply elem_of_where. split; [exact Hj'|]. unfold same_member. cbn [nn].
    rewrite (bool_decide_true _ Hc), (bool_decide_true _ Hgm), (bool_decide_true _ Hflag). simpl. by rewrite !orb_true_r.
Qed.
End manages.

(** ** The invariant *)

(** Rows are stored under their keys. *)
Record control_keyed (d : DB) : Prop := {
  ck_collections : map_Forall (λ k r, Collection.uuid r = k) (collections d);
  ck_users : map_Forall (λ k r, (CollectionUser.user_uuid r, CollectionUser.collection_uuid r) = k) (users_collections d);
  ck_groups_on : map_Forall (λ k r, collection_group_key r = k) (collections_groups d);
  ck_groups : map_Forall (λ k r, Group.uuid r = k) (groups d);
  ck_joined : map_Forall (λ k r, group_user_key r = k) (groups_users d)
}.

(** The group of a grant is stored and of the organization of the collection. *)
Definition grants_within_orgs (d : DB) : Prop :=
  ∀ c g r, collections_groups d !! (c, g) = Some r →
  ∃ col gr, collections d !! c = Some col ∧ groups d !! g = Some gr ∧ Group.organizations_uuid gr = Collection.org_uuid col.

Section untouched.
Context (u c : string) (col0 : Collection.t) (d0 : DB).
Notation home := (Collection.org_uuid col0).

(** Relative to the first state: the members, the collection, its grants, the
    groups of its organization are the same, and no member of the organization
    joined a group. *)
Record Untouched (d : DB) : Prop := {
  ut_members : users_organizations d = users_organizations d0;
  ut_keyed : control_keyed d;
  ut_row : collections d !! c = Some col0;
  ut_users : ∀ v, users_collections d !! (v, c) = users_collections d0 !! (v, c);
  ut_groups_on : ∀ g, collections_groups d !! (c, g) = collections_groups d0 !! (c, g);
  ut_groups : ∀ g gr, Group.organizations_uuid gr = home → groups d !! g = Some gr ↔ groups d0 !! g = Some gr;
  ut_joined : ∀ g m r, m ∈ rows (users_organizations d0) → Membership.org_uuid m = home →
    groups_users d !! (g, Membership.uuid m) = Some r → groups_users d0 !! (g, Membership.uuid m) = Some r
}.

(** The tables that the invariant looks at. *)
Definition control_tables (d : DB) :=
  (users_organizations d, collections d, users_collections d, collections_groups d, groups d, groups_users d).
Lemma untouched_tables d d' : control_tables d' = control_tables d → Untouched d → Untouched d'.
Proof.
  unfold control_tables. intros Heq [H1 [K1 K2 K3 K4 K5] H2 H3 H4 H5 H6]. injection Heq as E1 E2 E3 E4 E5 E6.
  constructor; [congruence|constructor|..]; rewrite ?E2, ?E3, ?E4, ?E5, ?E6; assumption.
Qed.
Lemma untouched_same {A} (m : M DB A) : keeps (same_on control_tables) m → keeps (preserves Untouched) m.
Proof. intros Hm d Hd. eapply untouched_tables; [|exact Hd]. apply Hm. Qed.

(** *** Management does not change *)

Lemma stored_collection d col : Untouched d → col ∈ rows (collections d) → Collection.uuid col = c → col = col0.
Proof.
  intros Hd (k & Hk)%elem_of_rows Hc. pose proof (ck_collections _ (ut_keyed _ Hd) _ _ Hk) as Hu. simpl in Hu.
  pose proof (ut_row _ Hd). congruence.
Qed.
Lemma row_of_key {A} (t : gmap string A) k a : t !! k = Some a → a ∈ rows t.
Proof. intros. apply elem_of_rows. eauto. Qed.

Lemma manages_before d : collections d0 !! c = Some col0 → Untouched d → manages u c d → manages u c d0.
Proof.
  intros Hc0%row_of_key Hd Hm. pose proof (ut_keyed _ Hd) as [K1 K2 K3 K4 K5].
  assert (Hu0 : Collection.uuid col0 = c) by exact (K1 _ _ (ut_row _ Hd)).
  assert (Hjoin : ∀ gu m, gu ∈ rows (groups_users d) → GroupUser.users_organizations_uuid gu = Membership.uuid m →
    m ∈ rows (users_organizations d) → home = Membership.org_uuid m → gu ∈ rows (groups_users d0)).
  { intros gu m (k & Hk)%elem_of_rows Hgm Hin Ho. pose proof (K5 _ _ Hk) as Hkey. unfold group_user_key in Hkey. subst k.
    rewrite Hgm in Hk. apply elem_of_rows. eexists. rewrite (ut_members _ Hd) in Hin. by eapply (ut_joined _ Hd). }
  destruct Hm as [col cu Hcol Hc (k & Hcu)%elem_of_rows Hcuc Hcuu Hflag|col m Hcol Hc Hm Ho Hu Hr
    |col m gu g Hcol Hc Hm Ho Hu Hgu Hgm (k & Hg)%elem_of_rows Hgg Hgo Hall
    |col m gu cg Hcol Hc Hm Ho Hu Hgu Hgm (k & Hcg)%elem_of_rows Hgg Hcc Hflag];
    apply stored_collection in Hcol as ->; try done.
  - pose proof (K2 _ _ Hcu) as Hkey. simpl in Hkey. subst k. rewrite Hcuc in Hcu. rewrite (ut_users _ Hd) in Hcu.
    eapply (mg_grant u c d0 col0 cu); try done. apply elem_of_rows. eauto.
  - rewrite (ut_members _ Hd) in Hm. by eapply mg_member.
  - pose proof (Hjoin _ _ Hgu Hgm Hm Ho). rewrite (ut_members _ Hd) in Hm. eapply (mg_group_all u c d0 col0 m gu g); try done.
    apply elem_of_rows. exists k. apply (ut_groups _ Hd); [congruence|done].
  - pose proof (Hjoin _ _ Hgu Hgm Hm Ho). rewrite (ut_members _ Hd) in Hm. eapply (mg_group u c d0 col0 m gu cg); try done.
    pose proof (K3 _ _ Hcg) as Hkey. unfold collection_group_key in Hkey. subst k. rewrite Hcc, (ut_groups_on _ Hd) in Hcg.
    apply elem_of_rows. eauto.
Qed.

(** *** Statements on other collections and organizations *)

Definition keeps_untouched (f : DB → DB) : Prop := ∀ d, Untouched d → Untouched (f d).

Lemma untouched_put_collection x : Collection.uuid x ≠ c → keeps_untouched (set_collections <[Collection.uuid x := x]>).
Proof.
  intros Hx d [H1 [K1 K2 K3 K4 K5] H2 H3 H4 H5 H6]. constructor; try done; [constructor; try done|].
  - by apply map_Forall_insert_2.
  - simpl. by rewrite lookup_insert_ne.
Qed.
Lemma untouched_drop_collection k : k ≠ c → keeps_untouched (set_collections (delete_where (λ r, Collection.uuid r == k))).
Proof.
  intros Hx d [H1 [K1 K2 K3 K4 K5] H2 H3 H4 H5 H6]. constructor; try done; [constructor; try done|].
  - by apply keyed_delete_where.
  - simpl. rewrite lookup_delete_where_ne; [done|]. intros r Hr. apply bool_decide_eq_false. pose proof (K1 _ _ Hr). simpl in *. congruence.
Qed.
Lemma untouched_put_user r : CollectionUser.collection_uuid r ≠ c →
  keeps_untouched (set_users_collections <[(CollectionUser.user_uuid r, CollectionUser.collection_uuid r) := r]>).
Proof.
  intros Hx d [H1 [K1 K2 K3 K4 K5] H2 H3 H4 H5 H6]. constructor; try done; [constructor; try done|].
  - by apply map_Forall_insert_2.
  - intros v. simpl. rewrite lookup_insert_ne; [done|]. congruence.
Qed.
Lemma untouched_drop_users k : k ≠ c →
  keeps_untouched (set_users_collections (delete_where (λ r, CollectionUser.collection_uuid r == k))).
Proof.
  intros Hx d [H1 [K1 K2 K3 K4 K5] H2 H3 H4 H5 H6]. constructor; try done; [constructor; try done|].
  - by apply keyed_delete_where.
  - intros v. simpl. rewrite lookup_delete_where_ne; [done|]. intros r Hr. apply bool_decide_eq_false. pose proof (K2 _ _ Hr). simpl in *. congruence.
Qed.
Lemma untouched_put_grant r : CollectionGroup.collections_uuid r ≠ c →
  keeps_untouched (set_collections_groups <[collection_group_key r := r]>).
Proof.
  intros Hx d [H1 [K1 K2 K3 K4 K5] H2 H3 H4 H5 H6]. constructor; try done; [constructor; try done|].
  - by apply map_Forall_insert_2.
  - intros g. simpl. rewrite lookup_insert_ne; [done|]. unfold collection_group_key. congruence.
Qed.
Lemma untouched_drop_grants p :
  (∀ g r, collections_groups d0 !! (c, g) = Some r → p r = false) → keeps_untouched (set_collections_groups (delete_where p)).
Proof.
  intros Hp d [H1 [K1 K2 K3 K4 K5] H2 H3 H4 H5 H6]. constructor; try done; [constructor; try done|].
  - by apply keyed_delete_where.
  - intros g. simpl. rewrite lookup_delete_where_ne; [done|]. intros r Hr. rewrite H4 in Hr. by eapply Hp.
Qed.

(** The group of that id is not one of the organization. *)
Definition elsewhere (g : string) : Prop := ∀ gr, groups d0 !! g = Some gr → Group.organizations_uuid gr ≠ home.

Lemma untouched_put_group x : Group.organizations_uuid x ≠ home → elsewhere (Group.uuid x) →
  keeps_untouched (set_groups <[Group.uuid x := x]>).
Proof.
  intros Hx He d [H1 [K1 K2 K3 K4 K5] H2 H3 H4 H5 H6]. constructor; try done; [constructor; try done|].
  - by apply map_Forall_insert_2.
  - intros g gr Hgr. simpl. destruct (decide (g = Group.uuid x)) as [->|Hne].
    + rewrite lookup_insert_eq. split; [congruence|]. intros H. by destruct (He _ H).
    + rewrite lookup_insert_ne by done. by apply H5.
Qed.
Lemma untouched_drop_group k : elsewhere k → keeps_untouched (set_groups (delete_where (λ r, Group.uuid r == k))).
Proof.
  intros He d [H1 [K1 K2 K3 K4 K5] H2 H3 H4 H5 H6]. constructor; try done; [constructor; try done|].
  - by apply keyed_delete_where.
  - intros g gr Hgr. simpl. rewrite lookup_delete_where, (H5 _ _ Hgr). split; [by intros []|]. intros Hg. split; [done|].
    apply bool_decide_eq_false. intros Hk. pose proof (proj2 (H5 _ _ Hgr) Hg) as Hd. pose proof (K4 _ _ Hd). simpl in *. subst g.
    rewrite Hk in Hg. by destruct (He _ Hg).
Qed.
Lemma untouched_put_joined r :
  (∀ m, m ∈ rows (users_organizations d0) → Membership.uuid m = GroupUser.users_organizations_uuid r → Membership.org_uuid m ≠ home) →
  keeps_untouched (set_groups_users <[group_user_key r := r]>).
Proof.
  intros Hx d [H1 [K1 K2 K3 K4 K5] H2 H3 H4 H5 H6]. constructor; try done; [constructor; try done|].
  - by apply map_Forall_insert_2.
  - intros g m r' Hm Ho. simpl. rewrite lookup_insert_ne; [by apply H6|]. unfold group_user_key. intros [= _ Hk]. by eapply Hx.
Qed.
Lemma untouched_drop_joined p : keeps_untouched (set_groups_users (delete_where p)).
Proof.
  intros d [H1 [K1 K2 K3 K4 K5] H2 H3 H4 H5 H6]. constructor; try done; [constructor; try done|].
  - by apply keyed_delete_where.
  - intros g m r Hm Ho. simpl. rewrite lookup_delete_where. intros [Hr _]. by eapply H6.
Qed.

Lemma untouched_modify f : keeps_untouched f → keeps (preserves Untouched) (modify f).
Proof. intros Hf d Hd. by apply Hf. Qed.
Lemma untouched_save_row ok f msg : keeps_untouched f → keeps (preserves Untouched) (save_row ok f msg).
Proof. intros Hf. apply keeps_save_row; [apply _|]. exact Hf. Qed.
Lemma untouched_delete_row rf f msg : keeps_untouched f → keeps (preserves Untouched) (delete_row rf f msg).
Proof. intros Hf. apply keeps_delete_row; [apply _|]. exact Hf. Qed.
End untouched.

(** ** The handlers *)

Lemma outsider_false ids known i : outsider ids known = false → i ∈ ids → i ∈ known.
Proof.
  intros Hout Hi. destruct (decide (i ∈ known)) as [|Hn]; [done|]. exfalso. apply not_true_iff_false in Hout.
  apply Hout, existsb_elem. exists i. split; [done|]. by rewrite bool_decide_eq_false_2.
Qed.

Section handlers.
Context `{E : Env} `{K : Codecs} `{C : Crypto} `{V : VaultConfig} `{J : JsonText}.
Context `{ST : SessionTokens} `{F : FileStore} `{TF : Jwt FileDownloadClaims.t}.
Context `{OC : OrgConfig} `{LT : LoginTokens}.
Context (u c : string) (col0 : Collection.t) (d0 : DB).
Notation home := (Collection.org_uuid col0).
Notation Untouched := (Untouched c col0 d0).
Notation spares m := (keeps (preserves Untouched) m).

(** *** Row operations *)

Lemma ut_touch v : spares (User_update_uuid_revision v).
Proof. apply untouched_same. unfold User_update_uuid_revision. by db_keeps. Qed.
#[local] Hint Resolve ut_touch : vault.
Lemma ut_touch_member v : spares (GroupUser_update_user_revision v).
Proof. unfold GroupUser_update_user_revision. db_keeps. Qed.
#[local] Hint Resolve ut_touch_member : vault.
Lemma ut_touch_group g o : spares (touch_group_users g o).
Proof. unfold touch_group_users. db_keeps. Qed.
Lemma ut_collection_revision x : spares (Collection_update_users_revision x).
Proof. unfold Collection_update_users_revision. db_keeps. Qed.
#[local] Hint Resolve ut_touch_group ut_collection_revision : vault.

Lemma ut_Collection_save x : Collection.uuid x ≠ c → spares (Collection_save x).
Proof.
  intros Hx. unfold Collection_save. apply keeps_bind; [apply _|auto with vault|intros _].
  by apply untouched_save_row, untouched_put_collection.
Qed.
Lemma ut_CollectionUser_save v k ro hp mg : k ≠ c → spares (CollectionUser_save v k ro hp mg).
Proof.
  intros Hk. unfold CollectionUser_save. apply keeps_bind; [apply _|auto with vault|intros _].
  apply untouched_save_row. exact (untouched_put_user c col0 d0 (CollectionUser.mk v k ro hp mg) Hk).
Qed.
Lemma ut_drop_users k : k ≠ c → spares (CollectionUser_delete_all_by_collection k).
Proof.
  intros Hk. unfold CollectionUser_delete_all_by_collection. apply keeps_bind; [apply _|db_keeps|intros l].
  apply keeps_bind; [apply _|db_keeps|intros _]. by apply untouched_modify, untouched_drop_users.
Qed.
Lemma ut_CollectionGroup_save o r : CollectionGroup.collections_uuid r ≠ c → spares (CollectionGroup_save o r).
Proof.
  intros Hr. unfold CollectionGroup_save. apply keeps_bind; [apply _|auto with vault|intros _].
  by apply untouched_save_row, untouched_put_grant.
Qed.
Lemma ut_GroupUser_save r :
  (∀ m, m ∈ rows (users_organizations d0) → Membership.uuid m = GroupUser.users_organizations_uuid r → Membership.org_uuid m ≠ home) →
  spares (GroupUser_save r).
Proof.
  intros Hr. unfold GroupUser_save. apply keeps_bind; [apply _|auto with vault|intros _].
  by apply untouched_save_row, untouched_put_joined.
Qed.
Lemma ut_drop_joined g o : spares (GroupUser_delete_all_by_group g o).
Proof.
  unfold GroupUser_delete_all_by_group. apply keeps_bind; [apply _|auto with vault|intros _].
  apply untouched_modify, untouched_drop_joined.
Qed.
Lemma ut_remove_member g m : spares (GroupUser_delete_by_group_and_member g m).
Proof.
  unfold GroupUser_delete_by_group_and_member, touch_member. apply keeps_bind; [apply _|db_keeps|intros _].
  apply untouched_modify, untouched_drop_joined.
Qed.
Lemma ut_Group_save x : Group.organizations_uuid x ≠ home → elsewhere col0 d0 (Group.uuid x) → spares (Group_save x).
Proof.
  intros Hx He. unfold Group_save. apply keeps_bind; [apply _| |intros; db_keeps].
  apply untouched_save_row. exact (untouched_put_group c col0 d0 (Group.set_revision_date (λ _, now) x) Hx He).
Qed.
#[local] Hint Resolve ut_CollectionUser_save ut_drop_users ut_drop_joined ut_remove_member : vault.

Section keyed.
Hypothesis Hk0 : control_keyed d0.

Lemma ut_drop_grants_of k o : k ≠ c → spares (CollectionGroup_delete_all_by_collection k o).
Proof.
  intros Hk. unfold CollectionGroup_delete_all_by_collection. apply keeps_bind; [apply _|db_keeps|intros l].
  apply keeps_bind; [apply _|db_keeps|intros _]. apply untouched_modify, untouched_drop_grants. intros g r Hr.
  pose proof (ck_groups_on _ Hk0 _ _ Hr) as Hkey. unfold collection_group_key in Hkey. apply bool_decide_eq_false. congruence.
Qed.
#[local] Hint Resolve ut_drop_grants_of : vault.

Lemma ut_Collection_delete x : Collection.uuid x ≠ c → spares (Collection_delete x).
Proof.
  intros Hx. unfold Collection_delete. apply keeps_bind; [apply _|auto with vault|intros _].
  apply keeps_bind; [apply _|apply untouched_same; unfold CollectionCipher_delete_all_by_collection; by db_keeps|intros _].
  apply keeps_bind; [apply _|auto with vault|intros _]. apply keeps_bind; [apply _|auto with vault|intros _].
  by apply untouched_delete_row, untouched_drop_collection.
Qed.

(** *** Collections *)

Lemma ut_grant_to_groups o k l : k ≠ c → spares (grant_to_groups o k l).
Proof. intros Hk. unfold grant_to_groups. apply keeps_for_each; [apply _|]. intros g. by apply ut_CollectionGroup_save. Qed.
Lemma ut_grant_to_members o k l : k ≠ c → spares (grant_to_members o k l).
Proof. intros Hk. unfold grant_to_members. db_keeps. Qed.
#[local] Hint Resolve ut_grant_to_groups ut_grant_to_members : vault.
Lemma ut_check_org o o' : spares (check_org o o').
Proof. unfold check_org. db_keeps. Qed.
Lemma ut_validate data o : spares (FullCollectionData_validate data o).
Proof. unfold FullCollectionData_validate. db_keeps. Qed.
#[local] Hint Resolve ut_check_org ut_validate : vault.

Lemma ut_post_collections id o data h : id ≠ c → spares (post_organization_collections id o data h).
Proof.
  intros Hid. unfold post_organization_collections. assert (Collection.uuid (Collection_new id o (FullCollectionData.name data)
    (FullCollectionData.external_id data)) ≠ c) as Hc by exact Hid. pose proof (ut_Collection_save _ Hc). db_keeps.
Qed.
Lemma found_collection_uuid k o d x : Collection_find_by_uuid_and_org k o d = Some x → Collection.uuid x = k.
Proof. unfold Collection_find_by_uuid_and_org, first. intros [_ Hp]%head_Some_elem%elem_of_where. by bools. Qed.

Lemma ut_update_collection o k data h : k ≠ c → spares (post_organization_collection_update o k data h).
Proof.
  intros Hk. unfold post_organization_collection_update. apply keeps_bind; [apply _|auto with vault|intros _].
  apply keeps_bind; [apply _|auto with vault|intros _]. apply keeps_bind; [apply _|db_keeps|intros org].
  apply keeps_if; [db_keeps|]. apply preserves_gets. intros d Hd. apply preserves_some_or. intros x Hx%found_collection_uuid.
  apply keeps_bind; [apply _|apply ut_Collection_save; simpl; congruence|intros _]. db_keeps.
Qed.
Lemma ut_delete_collection o k h : k ≠ c → spares (delete_organization_collection_impl o k h).
Proof.
  intros Hk. unfold delete_organization_collection_impl. apply keeps_bind; [apply _|auto with vault|intros _].
  apply preserves_gets. intros d Hd. apply preserves_some_or. intros x Hx%found_collection_uuid.
  apply ut_Collection_delete. congruence.
Qed.
End keyed.

(** *** Requests of someone who does not manage the collection *)

Section unmanaged.
Hypothesis Hk0 : control_keyed d0.
Hypothesis Hc0 : collections d0 !! c = Some col0.
Hypothesis Hno : ¬ manages u c d0.

Lemma unmanaged d k : Untouched d → Collection_is_coll_manageable_by_user k u d = true → k ≠ c.
Proof. intros Hd Hm ->. apply Hno. eapply manages_before; [done..|]. by apply manageable_manages. Qed.

Lemma ut_bulk_access o data h :
  Membership.user_uuid (ManagerHeadersLoose.membership h) = u → spares (post_bulk_access_collections o data h).
Proof.
  intros Hu. unfold post_bulk_access_collections. rewrite Hu. apply keeps_bind; [apply _|by apply ut_check_org|intros _].
  apply keeps_bind; [apply _|db_keeps|intros org]. apply keeps_if; [db_keeps|]. apply keeps_bind; [apply _|db_keeps|intros gs].
  apply keeps_if; [db_keeps|]. apply keeps_for_each; [apply _|]. intros k. apply preserves_gets. intros d Hd.
  apply preserves_some_or. intros x Hx%found_collection_uuid. apply preserves_gets. intros d' Hd'.
  destruct (Collection_is_coll_manageable_by_user _ u d') eqn:Hm; simpl; [|db_keeps].
  apply unmanaged in Hm; [|done]. assert (Hk : k ≠ c) by congruence. pose proof (ut_Collection_save _ Hm).
  pose proof (ut_grant_to_groups o k (BulkCollectionAccessData.groups data) Hk).
  pose proof (ut_grant_to_members o k (BulkCollectionAccessData.users data) Hk). pose proof (ut_drop_grants_of Hk0 k o Hk).
  pose proof (ut_drop_users k Hk). db_keeps.
Qed.

Lemma ut_bulk_delete o ids h :
  Membership.user_uuid (ManagerHeadersLoose.membership h) = u → spares (bulk_delete_organization_collections o ids h).
Proof.
  intros Hu. unfold bulk_delete_organization_collections. apply keeps_bind; [apply _|by apply ut_check_org|intros _].
  apply (preserves_bind_post _ (λ _, Forall (λ k, k ≠ c) ids)).
  - unfold ManagerHeaders_from_loose. db_keeps.
  - intros d x d' Hd Hr. unfold ManagerHeaders_from_loose in Hr. apply bind_Ok in Hr as ([] & d1 & Hr & _). rewrite Hu in Hr.
    revert d Hd Hr. induction ids as [|k l IH]; intros d Hd Hr; [constructor|]. simpl in Hr.
    apply bind_Ok in Hr as ([] & d2 & H1 & H2). destruct (is_uuid k); simpl in H1; [|done]. rewrite run_gets in H1.
    destruct (Collection_is_coll_manageable_by_user k u d) eqn:Hm; simpl in H1; [|done]. apply ret_Ok in H1 as [_ ->].
    constructor; [by eapply unmanaged|by eapply IH].
  - intros x Hids. apply keeps_for_each_elem; [apply _|]. intros k Hk. apply ut_delete_collection; [done|].
    by eapply (proj1 (Forall_forall _ _) Hids).
Qed.

(** *** Groups of another organization *)

Section groups.
Context (o : string).
Hypothesis Ho : o ≠ home.
Hypothesis Hgr : ∀ g r, collections_groups d0 !! (c, g) = Some r → ∃ gr, groups d0 !! g = Some gr ∧ Group.organizations_uuid gr = home.
Hypothesis Hkm : map_Forall (λ k r, Membership.uuid r = k) (users_organizations d0).

Lemma found_group_elsewhere d g x :
  Untouched d → Group_find_by_uuid_and_org g o d = Some x →
  Group.uuid x = g ∧ Group.organizations_uuid x = o ∧ elsewhere col0 d0 g.
Proof.
  intros Hd. unfold Group_find_by_uuid_and_org, first. intros [(k & Hx)%elem_of_rows Hp]%head_Some_elem%elem_of_where. bools.
  pose proof (ck_groups _ (ut_keyed _ _ _ _ Hd) _ _ Hx) as Hk. simpl in Hk. split_and!; [done..|].
  intros gr Hgr' Horg. apply (ut_groups _ _ _ _ Hd _ _ Horg) in Hgr'. congruence.
Qed.
Lemma ut_drop_grants_by g o' : elsewhere col0 d0 g → spares (CollectionGroup_delete_all_by_group g o').
Proof.
  intros He. unfold CollectionGroup_delete_all_by_group. apply keeps_bind; [apply _|by apply ut_touch_group|intros _].
  apply untouched_modify, untouched_drop_grants. intros g' r Hr. apply bool_decide_eq_false. intros Heq.
  pose proof (ck_groups_on _ Hk0 _ _ Hr) as Hkey. unfold collection_group_key in Hkey. destruct (Hgr _ _ Hr) as (gr & Hg & Horg).
  injection Hkey as _ Hg'. rewrite <-Hg', Heq in Hg. by destruct (He _ Hg).
Qed.
Lemma ut_Group_delete x : elsewhere col0 d0 (Group.uuid x) → spares (Group_delete o x).
Proof.
  intros He. unfold Group_delete. apply keeps_bind; [apply _|by apply ut_drop_grants_by|intros _].
  apply keeps_bind; [apply _|by apply ut_drop_joined|intros _]. by apply untouched_delete_row, untouched_drop_group.
Qed.

(** Members and collections of the other organization. *)
Definition outside_member (id : string) : Prop :=
  ∀ m, m ∈ rows (users_organizations d0) → Membership.uuid m = id → Membership.org_uuid m ≠ home.
Lemma known_members ids d :
  Untouched d → outsider ids (Membership.uuid <$> Membership_find_by_org o d) = false → Forall outside_member ids.
Proof.
  intros Hd Hout. apply Forall_forall. intros id Hid m Hm Hu Horg.
  assert (id ∈ Membership.uuid <$> Membership_find_by_org o d) as (m' & Hu' & [Hm' Hp]%elem_of_where)%list_elem_of_fmap.
  { by eapply outsider_false. }
  bools. rewrite (ut_members _ _ _ _ Hd) in Hm'. apply elem_of_rows in Hm as (k & Hm), Hm' as (k' & Hm').
  pose proof (Hkm _ _ Hm). pose proof (Hkm _ _ Hm'). simpl in *. congruence.
Qed.
Lemma known_collections ids d :
  Untouched d → outsider ids (Collection.uuid <$> Collection_find_by_organization o d) = false → Forall (λ k, k ≠ c) ids.
Proof.
  intros Hd Hout. apply Forall_forall. intros k Hk ->.
  assert (c ∈ Collection.uuid <$> Collection_find_by_organization o d) as (x & Hu & [Hx Hp]%elem_of_where)%list_elem_of_fmap.
  { by eapply outsider_false. }
  bools. eapply stored_collection in Hx; [|done..]. congruence.
Qed.

Lemma ut_join_members g l : Forall outside_member l → spares (for_each l (λ m, GroupUser_save (GroupUser_new g m))).
Proof.
  intros Hl. apply keeps_for_each_elem; [apply _|]. intros id Hid. apply ut_GroupUser_save. simpl.
  exact (proj1 (Forall_forall _ _) Hl id Hid).
Qed.
Lemma ut_add_update g cols l :
  Group.organizations_uuid g ≠ home → elsewhere col0 d0 (Group.uuid g) → Forall (λ k, k ≠ c) (CollectionData.id <$> cols) →
  Forall outside_member l → spares (add_update_group g cols l o).
Proof.
  intros Hg He Hcols Hl. unfold add_update_group. apply keeps_bind; [apply _|by apply ut_Group_save|intros g'].
  apply keeps_bind; [apply _| |intros _].
  - apply keeps_for_each_elem; [apply _|]. intros x Hx. apply ut_CollectionGroup_save. simpl.
    apply (proj1 (Forall_forall _ _) Hcols). apply list_elem_of_fmap. eauto.
  - apply keeps_bind; [apply _|by apply ut_join_members|intros; db_keeps].
Qed.

Lemma ut_validate_group r {X} (f : () → M DB X) :
  (Forall (λ k, k ≠ c) (CollectionData.id <$> GroupRequest.collections r) → Forall outside_member (GroupRequest.users r) → spares (f ())) →
  spares (GroupRequest_validate r o ≫= f).
Proof.
  intros Hf. apply (preserves_bind_post _ (λ _, Forall (λ k, k ≠ c) (CollectionData.id <$> GroupRequest.collections r)
    ∧ Forall outside_member (GroupRequest.users r))).
  - unfold GroupRequest_validate. db_keeps.
  - intros d x d' Hd Hr. unfold GroupRequest_validate in Hr. rewrite run_gets in Hr.
    destruct (outsider (CollectionData.id <$> _) _) eqn:H1; [done|]. rewrite run_gets in Hr.
    destruct (outsider (GroupRequest.users r) _) eqn:H2; [done|]. split; [by eapply known_collections|by eapply known_members].
  - intros [] [H1 H2]. by apply Hf.
Qed.

Lemma ut_check_groups h : spares (check_groups o h).
Proof. unfold check_groups, check_org. db_keeps. Qed.

Lemma ut_post_groups id data h : groups d0 !! id = None → spares (post_groups id o data h).
Proof.
  intros Hid. unfold post_groups. apply keeps_bind; [apply _|apply ut_check_groups|intros _].
  apply ut_validate_group. intros H1 H2. apply ut_add_update; [done| |done..]. intros gr Hg. simpl in Hg. congruence.
Qed.
Lemma ut_put_group g data h : spares (put_group o g data h).
Proof.
  unfold put_group. apply keeps_bind; [apply _|apply ut_check_groups|intros _]. apply preserves_gets. intros d Hd.
  apply preserves_some_or. intros x Hx. apply (found_group_elsewhere _ _ _ Hd) in Hx as (Hxg & Hxo & He).
  apply ut_validate_group. intros H1 H2. apply keeps_bind; [apply _|by apply ut_drop_grants_by|intros _].
  apply keeps_bind; [apply _|apply ut_drop_joined|intros _]. apply ut_add_update; [simpl; congruence|simpl; by rewrite Hxg|done..].
Qed.
Lemma ut_delete_group g h : spares (delete_group_impl o g h).
Proof.
  unfold delete_group_impl. apply keeps_bind; [apply _|apply ut_check_groups|intros _]. apply preserves_gets. intros d Hd.
  apply preserves_some_or. intros x Hx. apply (found_group_elsewhere _ _ _ Hd) in Hx as (<- & Hxo & He). by apply ut_Group_delete.
Qed.
Lemma ut_bulk_delete_groups ids h : spares (bulk_delete_groups o ids h).
Proof. unfold bulk_delete_groups. pose proof ut_delete_group. pose proof ut_check_groups. db_keeps. Qed.
Lemma ut_put_group_members g l h : spares (put_group_members o g l h).
Proof.
  unfold put_group_members. apply keeps_bind; [apply _|apply ut_check_groups|intros _]. apply keeps_bind; [apply _|db_keeps|intros x].
  apply keeps_if; [db_keeps|]. apply preserves_gets. intros d Hd. destruct (outsider _ _) eqn:Hout; [db_keeps|].
  apply keeps_bind; [apply _|apply ut_drop_joined|intros _]. apply ut_join_members. by eapply known_members.
Qed.
Lemma ut_delete_group_member g m h : spares (post_delete_group_member o g m h).
Proof. unfold post_delete_group_member. pose proof ut_check_groups. pose proof ut_remove_member. db_keeps. Qed.
End groups.
End unmanaged.

(** *** Importing into an organization *)

Notation same m := (keeps (same_on control_tables) m).
Lemma same_touch v : same (User_update_uuid_revision v).
Proof. unfold User_update_uuid_revision. by db_keeps. Qed.
#[local] Hint Resolve same_touch : vault.
Lemma same_users_revision x : same (Cipher_update_users_revision x).
Proof. unfold Cipher_update_users_revision. by db_keeps. Qed.
Lemma same_rename uuid l : same (rename_attachments uuid l).
Proof. induction l as [|[id a] l IH]; simpl; [by db_keeps|]. unfold Attachment_save. by db_keeps. Qed.
#[local] Hint Resolve same_users_revision same_rename : vault.
Lemma same_update x data h cols ut : same (update_cipher_from_data x data h cols ut).
Proof.
  unfold update_cipher_from_data, enforce_personal_ownership_policy, place_cipher, check_folder, type_data, unwrap, expect, panic, Cipher_save,
    Cipher_move_to_folder, FolderCipher_save, FolderCipher_delete, Cipher_set_favorite, Favorite_set_favorite, Cipher_set_archived_at, Archive_save.
  by db_keeps.
Qed.
Lemma same_ok_unless_panic {A} (m : M DB A) : same m → same (ok_unless_panic m).
Proof. intros Hm d. specialize (Hm d). unfold ok_unless_panic. destruct (m d) as [[a|e] d']; [done|]. by case_match. Qed.
Lemma same_link x k : same (CollectionCipher_save x k).
Proof.
  unfold CollectionCipher_save, CollectionCipher_update_users_revision, Collection_update_users_revision. by db_keeps.
Qed.

Lemma ut_org_import draws ids o data h : (∀ n, ids n ≠ c) → spares (post_org_import draws ids o data h).
Proof.
  intros Hids. unfold post_org_import, Cipher_validate_cipher_data, check_org, User_update_revision.
  apply keeps_bind; [apply _|db_keeps|intros _]. apply keeps_bind; [apply _|db_keeps|intros _].
  apply keeps_bind; [apply _|db_keeps|intros ex]. apply keeps_bind; [apply _| |intros cols].
  { apply keeps_traverse; [apply _|]. intros [n x]. unfold import_collection.
    pose proof (ut_Collection_save (Collection_new (ids n) o (FullCollectionData.name x) (FullCollectionData.external_id x)) (Hids n)).
    db_keeps. }
  apply keeps_bind; [apply _| |intros xs].
  { apply keeps_traverse; [apply _|]. intros [n x]. unfold import_cipher. apply keeps_bind; [apply _| |intros; db_keeps].
    apply untouched_same, same_ok_unless_panic, same_update. }
  apply keeps_bind; [apply _| |intros _; apply ut_touch].
  apply keeps_for_each; [apply _|]. intros [i j]. destruct (xs !! i); [|db_keeps]. destruct (cols !! j); [|db_keeps].
  apply untouched_same, same_link.
Qed.
End handlers.

(** ** Requests *)

(** The acts of managers on the collections of an organization, on one
    collection, and of administrators on groups. *)
Inductive ManagerAct :=
| CreateCollection (new_id : string) (data : FullCollectionData.t)
| BulkAccess (data : BulkCollectionAccessData.t)
| BulkDelete (ids : list string).
Inductive CollectionAct := UpdateCollection (data : FullCollectionData.t) | DeleteCollection.
Inductive GroupAct :=
| CreateGroup (new_id : string) (data : GroupRequest.t)
| UpdateGroup (group_id : string) (data : GroupRequest.t)
| DeleteGroup (group_id : string)
| BulkDeleteGroups (ids : list string)
| SetGroupMembers (group_id : string) (members : list string)
| RemoveGroupMember (group_id member_id : string).
Inductive ControlRequest :=
| AsManager (org_id : string) (act : ManagerAct)
| OnCollection (org_id col_id : string) (act : CollectionAct)
| OnGroups (org_id : string) (act : GroupAct)
| ImportInto (draws : VaultDraws) (new_collection_id : nat → string) (org_id : string) (data : OrgVaultImport.t).

Section control.
Context `{E : Env} `{K : Codecs} `{C : Crypto} `{V : VaultConfig} `{J : JsonText}.
Context `{ST : SessionTokens} `{F : FileStore} `{TF : Jwt FileDownloadClaims.t}.
Context `{LT : LoginTokens}.

Definition manager_act (org_id : string) (act : ManagerAct) (h : ManagerHeadersLoose.t) : M DB () :=
  match act with
  | CreateCollection new_id data => post_organization_collections new_id org_id data h ;; mret ()
  | BulkAccess data => post_bulk_access_collections org_id data h
  | BulkDelete ids => bulk_delete_organization_collections org_id ids h
  end.
Definition collection_act (org_id col_id : string) (act : CollectionAct) (h : ManagerHeaders.t) : M DB () :=
  match act with
  | UpdateCollection data => post_organization_collection_update org_id col_id data h ;; mret ()
  | DeleteCollection => delete_organization_collection org_id col_id h
  end.
Definition group_act (org_id : string) (act : GroupAct) (h : AdminHeaders.t) : M DB () :=
  match act with
  | CreateGroup new_id data => post_groups new_id org_id data h ;; mret ()
  | UpdateGroup g data => put_group org_id g data h ;; mret ()
  | DeleteGroup g => delete_group org_id g h
  | BulkDeleteGroups ids => bulk_delete_groups org_id ids h
  | SetGroupMembers g l => put_group_members org_id g l h
  | RemoveGroupMember g m => post_delete_group_member org_id g m h
  end.

(** The guard and the handler. On the routes of one collection its id is a
    segment of the path, which Rocket refuses unless it is a UUID. *)
Definition control (req : Request.t) (r : ControlRequest) : M DB () :=
  match r with
  | AsManager org_id act => h ← ManagerHeadersLoose_from_request req; manager_act org_id act h
  | OnCollection org_id col_id act =>
      if negb ((Request.param3 req == Some col_id) && is_uuid col_id) then err_code "Not Found" 404 else
      h ← ManagerHeaders_from_request req; collection_act org_id col_id act h
  | OnGroups org_id act => h ← AdminHeaders_from_request req; group_act org_id act h
  | ImportInto draws ids org_id data => h ← OrgMemberHeaders_from_request req; post_org_import draws ids org_id data h
  end.

(** The identifiers that a request draws are not in use. *)
Definition fresh_ids (d : DB) (r : ControlRequest) : Prop :=
  match r with
  | AsManager _ (CreateCollection id _) => collections d !! id = None
  | OnGroups _ (CreateGroup id _) => groups d !! id = None
  | ImportInto _ ids _ _ => ∀ n, collections d !! ids n = None
  | _ => True
  end.
(** Whoever passes the guard with the request is the account. *)
Definition request_from (u : string) (req : Request.t) : Prop :=
  ∀ a claims, Request.authorization req = Some a → decode_login (rsplit_next "Bearer " a) = Ok claims → LoginJwtClaims.sub claims = u.

(** *** The guards *)

Lemma session_user u req d device user : request_from u req → live_session req d device user → User.uuid user = u.
Proof. intros Hu (a & claims & Ha & Hd & _ & _ & _ & _ & Hs & _). rewrite Hs. by eapply Hu. Qed.

Lemma guard_tables req : keeps (same_on control_tables) (Headers_from_request req).
Proof. unfold Headers_from_request, check_stamp_exception, some_or_401, err_handler, User_save. db_keeps; done. Qed.
Lemma org_guard_tables req : keeps (same_on control_tables) (OrgHeaders_from_request req).
Proof. pose proof (guard_tables req). unfold OrgHeaders_from_request, some_or_401, err_handler. db_keeps; done. Qed.

Lemma loose_guard_tables req : keeps (same_on control_tables) (ManagerHeadersLoose_from_request req).
Proof. pose proof (org_guard_tables req). unfold ManagerHeadersLoose_from_request, err_handler. db_keeps; done. Qed.
Lemma manager_guard_tables req : keeps (same_on control_tables) (ManagerHeaders_from_request req).
Proof. pose proof (org_guard_tables req). unfold ManagerHeaders_from_request, err_handler. db_keeps; done. Qed.
Lemma admin_guard_tables req : keeps (same_on control_tables) (AdminHeaders_from_request req).
Proof. pose proof (org_guard_tables req). unfold AdminHeaders_from_request, err_handler. db_keeps; done. Qed.
Lemma member_guard_tables req : keeps (same_on control_tables) (OrgMemberHeaders_from_request req).
Proof. pose proof (org_guard_tables req). unfold OrgMemberHeaders_from_request, err_handler. db_keeps; done. Qed.

Lemma loose_guard_Ok req d h d' :
  ManagerHeadersLoose_from_request req d = (Ok h, d') → d' = d
    ∧ live_session req d (ManagerHeadersLoose.device h) (ManagerHeadersLoose.user h)
    ∧ Membership.user_uuid (ManagerHeadersLoose.membership h) = User.uuid (ManagerHeadersLoose.user h).
Proof.
  unfold ManagerHeadersLoose_from_request. intros H. apply bind_Ok in H as (oh & d1 & Ho & H).
  apply org_guard_Ok in Ho as (-> & Hl & _ & _ & _ & Hu & _). case_match; [|done]. by apply ret_Ok in H as [-> ->].
Qed.
Lemma manager_guard_Ok req d h d' :
  ManagerHeaders_from_request req d = (Ok h, d') → d' = d
    ∧ live_session req d (ManagerHeaders.device h) (ManagerHeaders.user h)
    ∧ ∃ k, get_col_id req = Some k ∧ Collection_is_coll_manageable_by_user k (User.uuid (ManagerHeaders.user h)) d = true.
Proof.
  unfold ManagerHeaders_from_request. intros H. apply bind_Ok in H as (oh & d1 & Ho & H).
  apply org_guard_Ok in Ho as (-> & Hl & _ & _ & _ & Hu & _). case_match; [|done].
  destruct (get_col_id req) as [k|]; [|done]. rewrite run_gets in H. rewrite Hu in H.
  destruct (Collection_is_coll_manageable_by_user k _ d) eqn:Hm; simpl in H; [|done].
  apply ret_Ok in H as [-> ->]. simpl. eauto.
Qed.

(** *** What a request leaves alone *)

Section spared.
Context (u c : string) (col0 : Collection.t) (d0 : DB).
Hypothesis Hwf : wf d0.
Hypothesis Hk0 : control_keyed d0.
Hypothesis Hgr : grants_within_orgs d0.
Hypothesis Hc0 : collections d0 !! c = Some col0.
Hypothesis Hno : ¬ manages u c d0.
Notation Untouched := (Untouched c col0 d0).

Lemma control_guard {H} (g : M DB H) (f : H → M DB ()) :
  keeps (same_on control_tables) g → (∀ d h d', g d = (Ok h, d') → d' = d) →
  (∀ d h, Untouched d → g d = (Ok h, d) → keeps (preserves Untouched) (f h)) → keeps (preserves Untouched) (g ≫= f).
Proof.
  intros Hg Hd Hf. apply (preserves_bind_post _ (λ h, keeps (preserves Untouched) (f h))); [by apply untouched_same| |done].
  intros d h d' Hu Hr. pose proof (Hd _ _ _ Hr). subst d'. by eapply Hf.
Qed.

(** An administrator of the organization would manage the collection. *)
Lemma admin_elsewhere d user org role m :
  Untouched d → User.uuid user = u → confirmed_member d user org role m → type_ge role Admin = true → org ≠ Collection.org_uuid col0.
Proof.
  intros Hd Hu (Hm & Hmu & Hmo & _ & Ht) Hr ->. apply Hno. rewrite (ut_members _ _ _ _ Hd) in Hm.
  eapply (mg_member u c d0 col0 m); [by eapply row_of_key| |done|done|congruence|].
  - exact (ck_collections _ Hk0 _ _ Hc0).
  - right. rewrite Ht. by destruct role.
Qed.

Lemma group_act_spares o act h : o ≠ Collection.org_uuid col0 → fresh_ids d0 (OnGroups o act) → keeps (preserves Untouched) (group_act o act h).
Proof.
  intros Ho Hf. assert (Hg : ∀ g r, collections_groups d0 !! (c, g) = Some r →
    ∃ gr, groups d0 !! g = Some gr ∧ Group.organizations_uuid gr = Collection.org_uuid col0).
  { intros g r Hr. destruct (Hgr _ _ _ Hr) as (col & gr & Hcol & Hg & Horg). exists gr. split; [done|]. congruence. }
  pose proof (wf_members _ Hwf) as Hkm. destruct act; simpl in Hf |- *.
  - apply keeps_bind; [apply _|by apply ut_post_groups|intros; db_keeps].
  - apply keeps_bind; [apply _|by apply ut_put_group|intros; db_keeps].
  - by apply ut_delete_group.
  - by apply ut_bulk_delete_groups.
  - by apply ut_put_group_members.
  - by apply ut_delete_group_member.
Qed.

(** An administrator of another organization is refused. *)
Lemma group_act_refused o act h d : o ≠ AdminHeaders.org_id h → (group_act o act h d).2 = d.
Proof.
  intros Ho. assert (Hc : check_groups o h d = (Err (MkError 400 "Organization not found"), d)).
  { unfold check_groups, check_org. by rewrite bool_decide_eq_false_2. }
  destruct act; unfold group_act, post_groups, put_group, delete_group, delete_group_impl, bulk_delete_groups, put_group_members,
    post_delete_group_member; unfold mbind, M_bind; by rewrite Hc.
Qed.

Lemma control_spares req r : request_from u req → fresh_ids d0 r → keeps (preserves Untouched) (control req r).
Proof.
  intros Hu Hf. destruct r as [o act|o k act|o act|draws ids o data]; simpl in Hf |- *.
  - apply control_guard.
    { apply loose_guard_tables. }
    { by intros d h d' [-> _]%loose_guard_Ok. }
    intros d h Hd (_ & Hl & Hm)%loose_guard_Ok. apply (session_user u) in Hl; [|done]. rewrite Hl in Hm. destruct act; simpl.
    + apply keeps_bind; [apply _| |intros; db_keeps]. apply ut_post_collections. congruence.
    + by eapply ut_bulk_access.
    + by eapply ut_bulk_delete.
  - destruct ((Request.param3 req == Some k) && is_uuid k) eqn:Hroute; simpl; [|db_keeps]. bools. apply control_guard.
    { apply manager_guard_tables. }
    { by intros d h d' [-> _]%manager_guard_Ok. }
    intros d h Hd (_ & Hl & k' & Hk' & Hm)%manager_guard_Ok. apply (session_user u) in Hl; [|done]. rewrite Hl in Hm.
    assert (k' = k) as ->. { unfold get_col_id, uuid_or_none in Hk'. rewrite H in Hk'. by rewrite H0 in Hk'; injection Hk'. }
    eapply unmanaged in Hm; [|done..]. destruct act; simpl.
    + apply keeps_bind; [apply _|by apply ut_update_collection|intros; db_keeps].
    + by apply ut_delete_collection.
  - apply control_guard.
    { apply admin_guard_tables. }
    { by intros d h d' [-> _]%admin_guard_Ok. }
    intros d h Hd (_ & Hl & _ & Hr & m & Hm)%admin_guard_Ok. apply (session_user u) in Hl; [|done].
    pose proof (admin_elsewhere _ _ _ _ _ Hd Hl Hm Hr) as Hne.
    destruct (decide (o = AdminHeaders.org_id h)) as [->|Ho]; [by apply group_act_spares|].
    intros d1 Hd1. by rewrite group_act_refused.
  - apply control_guard.
    { apply member_guard_tables. }
    { by intros d h d' [-> _]%member_guard_Ok. }
    intros d h Hd _. apply ut_org_import. intros n Hn. rewrite <-Hn, (Hf n) in Hc0. done.
Qed.
End spared.

Lemma untouched_refl c col0 d : control_keyed d → collections d !! c = Some col0 → Untouched c col0 d d.
Proof. by constructor. Qed.
End control.

Section histories.
Context `{K : Codecs} `{C : Crypto} `{V : VaultConfig} `{J : JsonText}.
Context `{ST : SessionTokens} `{F : FileStore} `{TF : Jwt FileDownloadClaims.t} `{LT : LoginTokens}.

(** Requests one after another, each with its time and settings. *)
Fixpoint control_history (l : list (Env * Request.t * ControlRequest)) (d : DB) : DB :=
  match l with
  | [] => d
  | (E, req, r) :: l => control_history l (control req r d).2
  end.

(** C8. Nobody takes a collection over. Whatever requests on collections, groups
    and imports an account makes, at whatever times and in whatever
    organizations, a collection that the account does not manage keeps its row
    and all its grants to members and groups, and the account still does not
    manage it afterwards. *)
Theorem unmanaged_collections_stay (u c : string) (col : Collection.t) (d : DB) (l : list (Env * Request.t * ControlRequest)) :
  wf d → control_keyed d → grants_within_orgs d →
  (∀ E req r, (E, req, r) ∈ l → request_from u req ∧ fresh_ids d r) →
  collections d !! c = Some col → Collection_is_coll_manageable_by_user c u d = false →
  let d' := control_history l d in
  collections d' !! c = Some col
  ∧ (∀ v, users_collections d' !! (v, c) = users_collections d !! (v, c))
  ∧ (∀ g, collections_groups d' !! (c, g) = collections_groups d !! (c, g))
  ∧ Collection_is_coll_manageable_by_user c u d' = false.
Proof.
  intros Hwf Hk Hgr Hl Hc Hno. assert (Hm : ¬ manages u c d).
  { intros Hm%manages_manageable. congruence. }
  assert (Untouched c col d (control_history l d)) as Hd.
  { assert (Untouched c col d d) as Hd by by apply untouched_refl. revert Hd. generalize d at 2 4.
    induction l as [|[[E req] r] l IH]; intros d1 Hd1; simpl; [done|]. apply IH; [intros; eapply Hl; by right|].
    destruct (Hl E req r) as [Hu Hf]; [left|]. by apply (control_spares u c col d). }
  split_and!; [apply Hd..|]. apply not_true_iff_false. intros Hmg%manageable_manages. apply Hm. by eapply manages_before.
Qed.
End histories.

(** ** A manager of one collection

    Erin manages the collection [ops] of the sample organization, not [dev]. *)
Module SampleControl.
#[export] Instance config : VaultConfig := {|
  max_note_size := 10; user_attachment_limit := None; org_attachment_limit := None; parse_iso8601 _ := None;
  shows_ssh_keys _ := true; host := "https://v" |}.
#[export] Instance crypto : Crypto := {| pbkdf2 secret _ _ := secret |}.
#[export] Instance login : LoginTokens := {|
  decode_login s := if s == "erin-jwt" then Ok (LoginJwtClaims.mk 0 2000 "erin" "" "" true "stamp" "tablet" "" "web" [])
                    else Err (MkError 400 "refused");
  is_uuid _ := true |}.
#[export] Existing Instances Sample.env SampleCodecs.codecs SampleJson.sample_json SampleFiles.files SampleFiles.sessions SampleFiles.jwt
  SampleFiles.FileDownloadClaims_countable.

Definition db : DB :=
  set_users <["erin" := Sample.user Sample.env "erin" "erin@x"]>
  (set_devices <[("tablet", "erin") := Device.mk "tablet" 0 0 "erin" "Tablet" 0 None None "t9" None]>
  (set_users_organizations <["m-erin" := Sample.mem "m-erin" "erin" false 2 3]>
  (set_users_collections <[("erin", "ops") := CollectionUser.mk "erin" "ops" false false true]> Sample.db))).

Definition req (col : string) : Request.t := Request.mk (Some "Bearer erin-jwt") None "10.0.0.2" (Some "acme") (Some col) None None.
Definition data : FullCollectionData.t :=
  FullCollectionData.mk "Operations" [CollectionGroupData.mk false "devs" true false]
    [CollectionMembershipData.mk false "m-erin" false true; CollectionMembershipData.mk true "m-bob" true false;
     CollectionMembershipData.mk false "m-bob" false false] None None.
Definition requests : list (Env * Request.t * ControlRequest) :=
  [(Sample.env, req "ops", OnCollection "acme" "ops" (UpdateCollection data));
   (Sample.env, req "dev", OnCollection "acme" "dev" DeleteCollection);
   (Sample.env, req "dev", AsManager "acme" (BulkAccess (BulkCollectionAccessData.mk ["ops"; "dev"] [] [])));
   (Sample.env, req "dev", AsManager "acme" (BulkDelete ["dev"]));
   (Sample.env, req "dev", OnGroups "acme" (DeleteGroup "devs"))].

Lemma db_keyed : control_keyed db.
Proof. constructor; apply (bool_decide_unpack _); vm_compute; done. Qed.
Lemma db_within : grants_within_orgs db.
Proof.
  assert (map_Forall (λ k _, ∃ col gr, collections db !! k.1 = Some col ∧ groups db !! k.2 = Some gr
    ∧ Group.organizations_uuid gr = Collection.org_uuid col) (collections_groups db)) as Hall.
  { apply map_Forall_insert_2; [|apply map_Forall_empty]. exists Sample.dev, Sample.devs. by vm_compute. }
  intros c g r Hr. exact (Hall (c, g) r Hr).
Qed.
Lemma from_erin col : request_from "erin" (req col).
Proof. intros a claims [= <-]. vm_compute. by intros [= <-]. Qed.
End SampleControl.
Import SampleControl.

(** Erin's change of [ops] works; her other requests leave [dev] alone. *)
Example requests_work : Collection.name <$> collections (control_history requests db) !! "ops" = Some "Operations"%string.
Proof. vm_compute. reflexivity. Qed.

Lemma unmanaged_collections_stay_witness :
  collections (control_history requests db) !! "dev" = Some Sample.dev
  ∧ Collection_is_coll_manageable_by_user "dev" "erin" (control_history requests db) = false.
Proof.
  destruct (unmanaged_collections_stay "erin" "dev" Sample.dev db requests) as (H1 & _ & _ & H4).
  - by apply wf_b_sound; vm_compute.
  - apply db_keyed.
  - apply db_within.
  - intros E r c Hin. unfold requests in Hin.
    repeat (apply elem_of_cons in Hin as [[= -> -> ->]|Hin]; [split; [apply from_erin|done]|]). by apply not_elem_of_nil in Hin.
  - done.
  - by vm_compute.
  - by split.
Defined.
