(* ===== verification/GrantIntegrity.v ===== *)
(** Grants on collections: what the handlers leave.

    A successful change of a collection leaves exactly the grants that were
    asked for. The requests on collections, groups and imports leave grants
    within one organization and with its members; [MemberGrants] shows the same
    of the requests on members and draws the conclusion for histories. *)
From S2P Require Import Prelude Schema Roles Users Json Invariants Samples Memberships Groups Collections CollectionAccess Guards TwoFactors OneTimeCodes VaultItems Ciphers Policies EmergencyRows Organizations Emergency OrgJson Members Tokens Downloads Vault OrgCollections Authentication Rosters Owners CollectionControl.
Local Open Scope Z_scope.

(** ** Grants stay within one organization *)

(** A grant is held by a member of the organization of the collection. *)
Definition holders_are_members (d : DB) : Prop :=
  ∀ v c r, users_collections d !! (v, c) = Some r →
  ∃ col m, collections d !! c = Some col ∧ m ∈ rows (users_organizations d) ∧ Membership.user_uuid m = v
    ∧ Membership.org_uuid m = Collection.org_uuid col.

Record grants_sound (d : DB) : Prop := {
  gs_keyed : control_keyed d;
  gs_groups : grants_within_orgs d;
  gs_holders : holders_are_members d;
  gs_members : orderly (users_organizations d)
}.

Section sound.
(** What a handler has checked: the members, and the collections [ks] and groups
    [gs] that are of organization [o] as far as they are stored. *)
Context (T : gmap string Membership.t) (o : string) (ks gs : string → Prop).

Record Sound (d : DB) : Prop := {
  so_sound : grants_sound d;
  so_members : users_organizations d = T;
  so_collections : ∀ k col, ks k → collections d !! k = Some col → Collection.org_uuid col = o;
  so_groups : ∀ g gr, gs g → groups d !! g = Some gr → Group.organizations_uuid gr = o
}.
Notation sound m := (keeps (preserves Sound) m).

Lemma sound_tables d d' : control_tables d' = control_tables d → Sound d → Sound d'.
Proof.
  unfold control_tables. intros Heq [[[K1 K2 K3 K4 K5] Hg Hh Hmk] H1 H2 H3]. injection Heq as E1 E2 E3 E4 E5 E6.
  constructor; [constructor; [constructor|..]|..]; unfold grants_within_orgs, holders_are_members;
    rewrite ?E1, ?E2, ?E3, ?E4, ?E5, ?E6; assumption.
Qed.
Lemma sound_same {A} (m : M DB A) : keeps (same_on control_tables) m → sound m.
Proof. intros Hm d Hd. eapply sound_tables; [|exact Hd]. apply Hm. Qed.
Lemma sound_save_row ok f msg : (∀ d, ok d = true → Sound d → Sound (f d)) → sound (save_row ok f msg).
Proof. intros Hf d Hd. unfold save_row. destruct (ok d) eqn:Hok; simpl; [by apply Hf|done]. Qed.
Lemma sound_delete_row rf f msg : (∀ d, rf d = false → Sound d → Sound (f d)) → sound (delete_row rf f msg).
Proof. intros Hf d Hd. unfold delete_row. destruct (rf d) eqn:Hok; simpl; [done|by apply Hf]. Qed.

Lemma sound_put_collection x d : Collection.org_uuid x = o → ks (Collection.uuid x) → Sound d → Sound (set_collections <[Collection.uuid x := x]> d).
Proof.
  intros Hx Hk [[[K1 K2 K3 K4 K5] Hg Hh Hmk] H1 H2 H3].
  assert (Hold : ∀ k col, collections d !! k = Some col →
    ∃ col', <[Collection.uuid x := x]> (collections d) !! k = Some col' ∧ Collection.org_uuid col' = Collection.org_uuid col).
  { intros k col Hc. destruct (decide (k = Collection.uuid x)) as [->|Hne].
    - exists x. rewrite lookup_insert_eq. split; [done|]. rewrite Hx. symmetry. by eapply H2.
    - exists col. by rewrite lookup_insert_ne. }
  constructor; [constructor; [..|done]|done| |done]; simpl.
  - constructor; try done. by apply map_Forall_insert_2.
  - intros c g r Hr. destruct (Hg _ _ _ Hr) as (col & gr & Hc & Hgr & Horg). destruct (Hold _ _ Hc) as (col' & Hc' & He).
    exists col', gr. simpl. split_and!; [done..|congruence].
  - intros v c r Hr. destruct (Hh _ _ _ Hr) as (col & m & Hc & Hm & Hv & Horg). destruct (Hold _ _ Hc) as (col' & Hc' & He).
    exists col', m. simpl. split_and!; [done..|congruence].
  - intros k col Hk' Hc. destruct (decide (k = Collection.uuid x)) as [->|Hne].
    + rewrite lookup_insert_eq in Hc. congruence.
    + rewrite lookup_insert_ne in Hc by done. by eapply H2.
Qed.
Lemma sound_drop_collection k d :
  collection_referenced k d = false → Sound d → Sound (set_collections (delete_where (λ r, Collection.uuid r == k)) d).
Proof.
  intros Hrf [[[K1 K2 K3 K4 K5] Hg Hh Hmk] H1 H2 H3]. unfold collection_referenced in Hrf. bools.
  assert (Hold : ∀ c col, c ≠ k → collections d !! c = Some col → delete_where (λ r, Collection.uuid r == k) (collections d) !! c = Some col).
  { intros c col Hne Hc. apply lookup_delete_where. split; [done|]. apply bool_decide_eq_false. pose proof (K1 _ _ Hc). simpl in *. congruence. }
  constructor; [constructor; [..|done]|done| |done]; simpl.
  - constructor; try done. by apply keyed_delete_where.
  - intros c g r Hr. destruct (Hg _ _ _ Hr) as (col & gr & Hc & Hgr & Horg). exists col, gr. simpl. split_and!; [|done..].
    apply Hold; [|done]. intros ->. pose proof (K3 _ _ Hr) as Hkey. unfold collection_group_key in Hkey.
    match goal with H : nonempty (where_ _ (rows (collections_groups d))) = false |- _ => rewrite nonempty_false in H; apply (H r) end.
    apply elem_of_where. split; [apply elem_of_rows; eauto|]. apply bool_decide_eq_true. congruence.
  - intros v c r Hr. destruct (Hh _ _ _ Hr) as (col & m & Hc & Hm & Hv & Horg). exists col, m. simpl. split_and!; [|done..].
    apply Hold; [|done]. intros ->. pose proof (K2 _ _ Hr) as Hkey. simpl in Hkey.
    match goal with H : nonempty (where_ _ (rows (users_collections d))) = false |- _ => rewrite nonempty_false in H; apply (H r) end.
    apply elem_of_where. split; [apply elem_of_rows; eauto|]. apply bool_decide_eq_true. congruence.
  - intros c col Hc [Hcol _]%lookup_delete_where. by eapply H2.
Qed.

Lemma sound_put_user r d :
  ks (CollectionUser.collection_uuid r) → is_Some (collections d !! CollectionUser.collection_uuid r) →
  (∃ m, m ∈ rows T ∧ Membership.user_uuid m = CollectionUser.user_uuid r ∧ Membership.org_uuid m = o) → Sound d →
  Sound (set_users_collections <[(CollectionUser.user_uuid r, CollectionUser.collection_uuid r) := r]> d).
Proof.
  intros Hk [col Hcol] (m & Hm & Hv & Ho) [[[K1 K2 K3 K4 K5] Hg Hh Hmk] H1 H2 H3]. constructor; [constructor; [..|done]|done..]; simpl.
  - constructor; try done. by apply map_Forall_insert_2.
  - done.
  - intros v c r' Hr. destruct (decide ((v, c) = (CollectionUser.user_uuid r, CollectionUser.collection_uuid r))) as [[= -> ->]|Hne].
    + exists col, m. simpl. rewrite H1. split_and!; try done. rewrite Ho. symmetry. by eapply H2.
    + simpl in Hr. rewrite lookup_insert_ne in Hr by done. by eapply Hh.
Qed.
Lemma sound_drop_users p d : Sound d → Sound (set_users_collections (delete_where p) d).
Proof.
  intros [[[K1 K2 K3 K4 K5] Hg Hh Hmk] H1 H2 H3]. constructor; [constructor; [..|done]|done..]; simpl.
  - constructor; try done. by apply keyed_delete_where.
  - done.
  - intros v c r [Hr _]%lookup_delete_where. by eapply Hh.
Qed.
Lemma sound_put_grant r d :
  ks (CollectionGroup.collections_uuid r) → is_Some (collections d !! CollectionGroup.collections_uuid r) →
  gs (CollectionGroup.groups_uuid r) → is_Some (groups d !! CollectionGroup.groups_uuid r) → Sound d →
  Sound (set_collections_groups <[collection_group_key r := r]> d).
Proof.
  intros Hk [col Hcol] Hgg [gr Hgr] [[[K1 K2 K3 K4 K5] Hg Hh Hmk] H1 H2 H3]. constructor; [constructor; [..|done]|done..]; simpl.
  - constructor; try done. by apply map_Forall_insert_2.
  - intros c g r' Hr. simpl in Hr. destruct (decide ((c, g) = collection_group_key r)) as [[= -> ->]|Hne].
    + exists col, gr. simpl. split_and!; try done. rewrite (H2 _ _ Hk Hcol). by eapply H3.
    + rewrite lookup_insert_ne in Hr by done. by eapply Hg.
  - done.
Qed.
Lemma sound_drop_grants p d : Sound d → Sound (set_collections_groups (delete_where p) d).
Proof.
  intros [[[K1 K2 K3 K4 K5] Hg Hh Hmk] H1 H2 H3]. constructor; [constructor; [..|done]|done..]; simpl.
  - constructor; try done. by apply keyed_delete_where.
  - intros c g r [Hr _]%lookup_delete_where. by eapply Hg.
  - done.
Qed.
Lemma sound_put_group x d : Group.organizations_uuid x = o → gs (Group.uuid x) → Sound d → Sound (set_groups <[Group.uuid x := x]> d).
Proof.
  intros Hx Hk [[[K1 K2 K3 K4 K5] Hg Hh Hmk] H1 H2 H3]. constructor; [constructor; [..|done]|done..|]; simpl.
  - constructor; try done. by apply map_Forall_insert_2.
  - intros c g r Hr. destruct (Hg _ _ _ Hr) as (col & gr & Hc & Hgr & Horg). simpl. destruct (decide (g = Group.uuid x)) as [->|Hne].
    + exists col, x. rewrite lookup_insert_eq. split_and!; try done. pose proof (H3 _ _ Hk Hgr). congruence.
    + exists col, gr. by rewrite lookup_insert_ne.
  - done.
  - intros g gr Hgs Hgr. destruct (decide (g = Group.uuid x)) as [->|Hne].
    + rewrite lookup_insert_eq in Hgr. congruence.
    + rewrite lookup_insert_ne in Hgr by done. by eapply H3.
Qed.
Lemma sound_drop_group k d : group_referenced k d = false → Sound d → Sound (set_groups (delete_where (λ r, Group.uuid r == k)) d).
Proof.
  intros Hrf [[[K1 K2 K3 K4 K5] Hg Hh Hmk] H1 H2 H3]. unfold group_referenced in Hrf. bools. constructor; [constructor; [..|done]|done..|]; simpl.
  - constructor; try done. by apply keyed_delete_where.
  - intros c g r Hr. destruct (Hg _ _ _ Hr) as (col & gr & Hc & Hgr & Horg). exists col, gr. simpl. split_and!; try done.
    apply lookup_delete_where. split; [done|]. apply bool_decide_eq_false. intros Heq. pose proof (K4 _ _ Hgr) as Hgk. simpl in Hgk.
    pose proof (K3 _ _ Hr) as Hkey. unfold collection_group_key in Hkey.
    match goal with H : nonempty (where_ _ (rows (collections_groups d))) = false |- _ => rewrite nonempty_false in H; apply (H r) end.
    apply elem_of_where. split; [apply elem_of_rows; eauto|]. apply bool_decide_eq_true. congruence.
  - done.
  - intros g gr Hgs [Hgr _]%lookup_delete_where. by eapply H3.
Qed.
Lemma sound_put_joined r d : Sound d → Sound (set_groups_users <[group_user_key r := r]> d).
Proof.
  intros [[[K1 K2 K3 K4 K5] Hg Hh Hmk] H1 H2 H3]. constructor; [constructor; [..|done]|done..]; try done. constructor; try done. by apply map_Forall_insert_2.
Qed.
Lemma sound_drop_joined p d : Sound d → Sound (set_groups_users (delete_where p) d).
Proof.
  intros [[[K1 K2 K3 K4 K5] Hg Hh Hmk] H1 H2 H3]. constructor; [constructor; [..|done]|done..]; try done. constructor; try done. by apply keyed_delete_where.
Qed.

End sound.

(** A statement that only reads. *)
Lemma reads_then {A B} (I : DB → Prop) (m : M DB A) (f : A → M DB B) d :
  keeps (=) m → I d → (∀ a, m d = (Ok a, d) → I (f a d).2) → I ((m ≫= f) d).2.
Proof.
  intros Hm HI Hf. specialize (Hm d). unfold mbind, M_bind. destruct (m d) as [[a|e] d'] eqn:Hr; simpl in *; subst; auto.
Qed.

Lemma snd_bind_ret {A} (m : M DB A) (d : DB) : ((m ≫= λ _, mret ()) d).2 = (m d).2.
Proof. unfold mbind, M_bind. by destruct (m d) as [[]]. Qed.

Section row_operations.
Context `{E : Env} (T : gmap string Membership.t) (o : string) (ks gs : string → Prop).
Notation Sound := (Sound T o ks gs).
Notation sound m := (keeps (preserves Sound) m).

Lemma so_touch v : sound (User_update_uuid_revision v).
Proof. apply sound_same, same_touch. Qed.
#[local] Hint Resolve so_touch : vault.
Lemma so_touch_member v : sound (GroupUser_update_user_revision v).
Proof. unfold GroupUser_update_user_revision. db_keeps. Qed.
#[local] Hint Resolve so_touch_member : vault.
Lemma so_touch_group g o' : sound (touch_group_users g o').
Proof. unfold touch_group_users. db_keeps. Qed.
Lemma so_collection_revision x : sound (Collection_update_users_revision x).
Proof. unfold Collection_update_users_revision. db_keeps. Qed.
#[local] Hint Resolve so_touch_group so_collection_revision : vault.

Lemma so_modify f : (∀ d, Sound d → Sound (f d)) → sound (modify f).
Proof. intros Hf d Hd. by apply Hf. Qed.

Lemma so_Collection_save x : Collection.org_uuid x = o → ks (Collection.uuid x) → sound (Collection_save x).
Proof.
  intros Hx Hk. unfold Collection_save. apply keeps_bind; [apply _|auto with vault|intros _].
  apply sound_save_row. intros d _. by apply sound_put_collection.
Qed.
Lemma so_CollectionGroup_save o' r : ks (CollectionGroup.collections_uuid r) → gs (CollectionGroup.groups_uuid r) → sound (CollectionGroup_save o' r).
Proof.
  intros Hk Hg. unfold CollectionGroup_save. apply keeps_bind; [apply _|auto with vault|intros _].
  apply sound_save_row. intros d Hok. unfold has in Hok. bools. by apply sound_put_grant.
Qed.
Lemma so_GroupUser_save r : sound (GroupUser_save r).
Proof.
  unfold GroupUser_save. apply keeps_bind; [apply _|auto with vault|intros _]. apply sound_save_row. intros d _. apply sound_put_joined.
Qed.
Lemma so_Group_save x : Group.organizations_uuid x = o → gs (Group.uuid x) → sound (Group_save x).
Proof.
  intros Hx Hg. unfold Group_save. apply keeps_bind; [apply _| |intros; db_keeps]. apply sound_save_row. intros d _.
  by apply (sound_put_group T o ks gs (Group.set_revision_date (λ _, now) x)).
Qed.

Lemma so_drop_users k : sound (CollectionUser_delete_all_by_collection k).
Proof.
  unfold CollectionUser_delete_all_by_collection. apply keeps_bind; [apply _|db_keeps|intros l].
  apply keeps_bind; [apply _|db_keeps|intros _]. apply so_modify. intros d. apply sound_drop_users.
Qed.
Lemma so_drop_grants_of k o' : sound (CollectionGroup_delete_all_by_collection k o').
Proof.
  unfold CollectionGroup_delete_all_by_collection. apply keeps_bind; [apply _|db_keeps|intros l].
  apply keeps_bind; [apply _|db_keeps|intros _]. apply so_modify. intros d. apply sound_drop_grants.
Qed.
Lemma so_drop_grants_by g o' : sound (CollectionGroup_delete_all_by_group g o').
Proof.
  unfold CollectionGroup_delete_all_by_group. apply keeps_bind; [apply _|auto with vault|intros _].
  apply so_modify. intros d. apply sound_drop_grants.
Qed.
Lemma so_drop_joined g o' : sound (GroupUser_delete_all_by_group g o').
Proof.
  unfold GroupUser_delete_all_by_group. apply keeps_bind; [apply _|auto with vault|intros _]. apply so_modify. intros d. apply sound_drop_joined.
Qed.
Lemma so_remove_member g m : sound (GroupUser_delete_by_group_and_member g m).
Proof.
  unfold GroupUser_delete_by_group_and_member, touch_member. apply keeps_bind; [apply _|db_keeps|intros _].
  apply so_modify. intros d. apply sound_drop_joined.
Qed.
#[local] Hint Resolve so_drop_users so_drop_grants_of so_drop_grants_by so_drop_joined so_remove_member so_GroupUser_save : vault.
Lemma so_Collection_delete x : sound (Collection_delete x).
Proof.
  unfold Collection_delete. apply keeps_bind; [apply _|auto with vault|intros _].
  apply keeps_bind; [apply _|apply sound_same; unfold CollectionCipher_delete_all_by_collection; by db_keeps|intros _].
  apply keeps_bind; [apply _|auto with vault|intros _]. apply keeps_bind; [apply _|auto with vault|intros _].
  apply sound_delete_row. intros d Hrf. by apply sound_drop_collection.
Qed.
Lemma so_Group_delete o' x : sound (Group_delete o' x).
Proof.
  unfold Group_delete. apply keeps_bind; [apply _|auto with vault|intros _]. apply keeps_bind; [apply _|auto with vault|intros _].
  apply sound_delete_row. intros d Hrf. by apply sound_drop_group.
Qed.

Lemma so_grant_to_groups o' k l : ks k → Forall gs (CollectionGroupData.id <$> l) → sound (grant_to_groups o' k l).
Proof.
  intros Hk Hl. unfold grant_to_groups. apply keeps_for_each_elem; [apply _|]. intros g Hg. apply so_CollectionGroup_save; [done|]. simpl.
  apply (proj1 (Forall_forall _ _) Hl). apply list_elem_of_fmap. eauto.
Qed.
Lemma so_grant_to_members k l : ks k → sound (grant_to_members o k l).
Proof.
  intros Hk. unfold grant_to_members. apply keeps_for_each; [apply _|]. intros e. apply preserves_gets. intros d Hd.
  apply preserves_some_or. intros m Hm. destruct (Membership.access_all m); [db_keeps|].
  unfold Membership_find_by_uuid_and_org, first in Hm. apply head_Some_elem, elem_of_where in Hm as [Hm Hp]. bools.
  rewrite (so_members _ _ _ _ _ Hd) in Hm. unfold CollectionUser_save. apply keeps_bind; [apply _|auto with vault|intros _].
  apply sound_save_row. intros d' Hok Hd'. unfold has in Hok. bools.
  by apply (sound_put_user T o ks gs (CollectionUser.mk (Membership.user_uuid m) k (CollectionMembershipData.read_only e)
    (CollectionMembershipData.hide_passwords e) (CollectionMembershipData.manage e))); eauto.
Qed.
End row_operations.

(** ** The handlers *)

Section requests.
Context `{E : Env} `{K : Codecs} `{C : Crypto} `{V : VaultConfig} `{J : JsonText}.
Context `{ST : SessionTokens} `{F : FileStore} `{TF : Jwt FileDownloadClaims.t} `{LT : LoginTokens}.

(** Enters the part of a handler that writes, with what it has checked. *)
Lemma sound_run {A} o ks gs (m : M DB A) d :
  grants_sound d → keeps (preserves (Sound (users_organizations d) o ks gs)) m →
  (∀ k col, ks k → collections d !! k = Some col → Collection.org_uuid col = o) →
  (∀ g gr, gs g → groups d !! g = Some gr → Group.organizations_uuid gr = o) → grants_sound (m d).2.
Proof. intros Hd Hm Hk Hg. by apply (so_sound _ _ _ _ _ (Hm d (Build_Sound _ _ _ _ d Hd eq_refl Hk Hg))). Qed.

Lemma known_groups o ids d :
  control_keyed d → outsider ids (Group.uuid <$> Group_find_by_organization o d) = false →
  ∀ g gr, g ∈ ids → groups d !! g = Some gr → Group.organizations_uuid gr = o.
Proof.
  intros Hk Hout g gr Hg Hgr. apply (outsider_false _ _ _ Hout) in Hg.
  apply list_elem_of_fmap in Hg as (x & -> & [(k & Hx)%elem_of_rows Hp]%elem_of_where). bools.
  pose proof (ck_groups _ Hk _ _ Hx). simpl in *. congruence.
Qed.
Lemma known_collections_of o ids d :
  control_keyed d → outsider ids (Collection.uuid <$> Collection_find_by_organization o d) = false →
  ∀ c col, c ∈ ids → collections d !! c = Some col → Collection.org_uuid col = o.
Proof.
  intros Hk Hout c col Hc Hcol. apply (outsider_false _ _ _ Hout) in Hc.
  apply list_elem_of_fmap in Hc as (x & -> & [(k & Hx)%elem_of_rows Hp]%elem_of_where). bools.
  pose proof (ck_collections _ Hk _ _ Hx). simpl in *. congruence.
Qed.
Lemma found_collection o k d x :
  control_keyed d → Collection_find_by_uuid_and_org k o d = Some x → collections d !! k = Some x ∧ Collection.uuid x = k ∧ Collection.org_uuid x = o.
Proof.
  intros Hk. unfold Collection_find_by_uuid_and_org, first. intros [(k' & Hx)%elem_of_rows Hp]%head_Some_elem%elem_of_where. bools.
  pose proof (ck_collections _ Hk _ _ Hx). simpl in *. split_and!; congruence.
Qed.
Lemma found_group o g d x :
  control_keyed d → Group_find_by_uuid_and_org g o d = Some x → groups d !! g = Some x ∧ Group.uuid x = g ∧ Group.organizations_uuid x = o.
Proof.
  intros Hk. unfold Group_find_by_uuid_and_org, first. intros [(k' & Hx)%elem_of_rows Hp]%head_Some_elem%elem_of_where. bools.
  pose proof (ck_groups _ Hk _ _ Hx). simpl in *. split_and!; congruence.
Qed.

Lemma reads_check_org o o' : keeps (=) (check_org o o').
Proof. unfold check_org. db_keeps. Qed.
Lemma reads_check_groups o h : keeps (=) (check_groups o h).
Proof. unfold check_groups, check_org. db_keeps. Qed.
Lemma reads_validate data o : keeps (=) (FullCollectionData_validate data o).
Proof. unfold FullCollectionData_validate. db_keeps. Qed.
Lemma validated data o d :
  FullCollectionData_validate data o d = (Ok (), d) →
  outsider (CollectionGroupData.id <$> FullCollectionData.groups data) (Group.uuid <$> Group_find_by_organization o d) = false.
Proof. unfold FullCollectionData_validate. rewrite run_gets. by destruct (outsider _ _). Qed.
Lemma reads_validate_group r o : keeps (=) (GroupRequest_validate r o).
Proof. unfold GroupRequest_validate. db_keeps. Qed.
Lemma validated_group r o d :
  GroupRequest_validate r o d = (Ok (), d) →
  outsider (CollectionData.id <$> GroupRequest.collections r) (Collection.uuid <$> Collection_find_by_organization o d) = false.
Proof. unfold GroupRequest_validate. rewrite run_gets. by destruct (outsider _ _). Qed.
Lemma elements_Forall (l : list string) : Forall (λ x, x ∈ l) l.
Proof. by apply Forall_forall. Qed.

(** *** Collections *)

Lemma sound_post_collections id o data h d :
  grants_sound d → collections d !! id = None → grants_sound (post_organization_collections id o data h d).2.
Proof.
  intros Hd Hid. unfold post_organization_collections. apply reads_then; [apply reads_check_org|done|intros _ _].
  apply reads_then; [apply reads_validate|done|]. intros [] Hval%validated. destruct (_ && _); [done|].
  apply (sound_run o (eq id) (λ g, g ∈ CollectionGroupData.id <$> FullCollectionData.groups data)); [done| | |].
  - apply keeps_bind; [apply _|by apply so_Collection_save|intros _].
    apply keeps_bind; [apply _|apply so_grant_to_groups; [done|apply elements_Forall]|intros _].
    apply keeps_bind; [apply _|by apply so_grant_to_members|intros _]. db_keeps.
  - intros k col <- Hc. congruence.
  - apply known_groups; [apply Hd|done].
Qed.

Lemma sound_update_collection o k data h d : grants_sound d → grants_sound (post_organization_collection_update o k data h d).2.
Proof.
  intros Hd. unfold post_organization_collection_update. apply reads_then; [apply reads_check_org|done|intros _ _].
  apply reads_then; [apply reads_validate|done|]. intros [] Hval%validated. rewrite run_gets. case_bool_decide; [done|]. rewrite run_gets.
  destruct (Collection_find_by_uuid_and_org k o d) as [x|] eqn:Hx; [|done]. unfold some_or. rewrite run_ret.
  apply found_collection in Hx as (Hx & Hxk & Hxo); [|apply Hd].
  apply (sound_run o (eq k) (λ g, g ∈ CollectionGroupData.id <$> FullCollectionData.groups data)); [done| | |].
  - apply keeps_bind; [apply _|by apply so_Collection_save|intros _].
    apply keeps_bind; [apply _|apply so_drop_grants_of|intros _].
    apply keeps_bind; [apply _|apply so_grant_to_groups; [done|apply elements_Forall]|intros _].
    apply keeps_bind; [apply _|apply so_drop_users|intros _].
    apply keeps_bind; [apply _|by apply so_grant_to_members|intros _]. db_keeps.
  - intros k' col <- Hc. congruence.
  - apply known_groups; [apply Hd|done].
Qed.

Lemma sound_delete_collection o k h d : grants_sound d → grants_sound (delete_organization_collection_impl o k h d).2.
Proof.
  intros Hd. unfold delete_organization_collection_impl. apply reads_then; [apply reads_check_org|done|intros _ _]. rewrite run_gets.
  destruct (Collection_find_by_uuid_and_org k o d) as [x|]; [|done]. unfold some_or. rewrite run_ret.
  by apply (sound_run o (λ _, False) (λ _, False)); [|apply so_Collection_delete|..].
Qed.

Lemma sound_for_each {A} (l : list A) (f : A → M DB ()) d : (∀ a d, grants_sound d → grants_sound (f a d).2) → grants_sound d → grants_sound (for_each l f d).2.
Proof. intros Hf. apply (keeps_for_each (preserves grants_sound)). intros a d1 Hd1. by apply Hf. Qed.

Lemma sound_bulk_delete o ids h d : grants_sound d → grants_sound (bulk_delete_organization_collections o ids h d).2.
Proof.
  intros Hd. unfold bulk_delete_organization_collections. apply reads_then; [apply reads_check_org|done|intros _ _].
  apply reads_then; [unfold ManagerHeaders_from_loose; db_keeps|done|]. intros h' _.
  apply sound_for_each; [|done]. intros k d1. apply sound_delete_collection.
Qed.

Lemma sound_bulk_access o data h d : grants_sound d → grants_sound (post_bulk_access_collections o data h d).2.
Proof.
  intros Hd. unfold post_bulk_access_collections. apply reads_then; [apply reads_check_org|done|intros _ _]. rewrite run_gets.
  case_bool_decide; [done|]. rewrite run_gets. destruct (outsider _ _) eqn:Hout; [done|].
  set (gs := λ g, g ∈ CollectionGroupData.id <$> BulkCollectionAccessData.groups data).
  apply (sound_run o (λ _, False) gs); [done| |done|by apply known_groups; [apply Hd|]].
  apply keeps_for_each; [apply _|]. intros k d1 Hd1. rewrite run_gets.
  destruct (Collection_find_by_uuid_and_org k o d1) as [x|] eqn:Hx; [|done]. unfold some_or. rewrite run_ret, run_gets.
  apply found_collection in Hx as (Hx & Hxk & Hxo); [|apply Hd1]. destruct (Collection_is_coll_manageable_by_user _ _ d1); simpl; [|done].
  assert (Sound (users_organizations d) o (eq k) gs d1) as Hd1'.
  { destruct Hd1 as [H1 H2 H3 H4]. constructor; try done. intros k' col <- Hc. congruence. }
  match goal with |- Sound _ _ _ _ (?m d1).2 => assert (keeps (preserves (Sound (users_organizations d) o (eq k) gs)) m) as Hm end.
  { apply keeps_bind; [apply _|by apply so_Collection_save|intros _].
    apply keeps_bind; [apply _|apply so_drop_grants_of|intros _].
    apply keeps_bind; [apply _|apply so_grant_to_groups; [done|apply elements_Forall]|intros _].
    apply keeps_bind; [apply _|apply so_drop_users|intros _]. by apply so_grant_to_members. }
  destruct (Hm d1 Hd1') as [H1 H2 H3 H4]. by constructor.
Qed.

Lemma sound_org_import draws ids o data h d :
  grants_sound d → (∀ n, collections d !! ids n = None) → grants_sound (post_org_import draws ids o data h d).2.
Proof.
  intros Hd Hids. unfold post_org_import. apply reads_then; [apply reads_check_org|done|intros _ _].
  apply reads_then; [unfold Cipher_validate_cipher_data; db_keeps|done|intros _ _]. rewrite run_gets.
  apply (sound_run o (λ k, ∃ n, k = ids n) (λ _, False)); [done| |by intros k col [n ->] Hc; rewrite Hids in Hc|done].
  apply keeps_bind; [apply _| |intros cols].
  { apply keeps_traverse; [apply _|]. intros [n x]. unfold import_collection. case_match; [db_keeps|]. apply keeps_if; [db_keeps|].
    apply keeps_bind; [apply _|apply so_Collection_save; simpl; eauto|intros; db_keeps]. }
  apply keeps_bind; [apply _| |intros xs].
  { apply keeps_traverse; [apply _|]. intros [n x]. unfold import_cipher. apply keeps_bind; [apply _| |intros; db_keeps].
    apply sound_same, same_ok_unless_panic, same_update. }
  apply keeps_bind; [apply _| |intros _; unfold User_update_revision; apply so_touch].
  apply keeps_for_each; [apply _|]. intros [i j]. destruct (xs !! i); [|db_keeps]. destruct (cols !! j); [|db_keeps].
  apply sound_same, same_link.
Qed.

(** *** Groups *)

Lemma so_add_update (T : gmap string Membership.t) o g cols l :
  Group.organizations_uuid g = o →
  keeps (preserves (Sound T o (λ k, k ∈ CollectionData.id <$> cols) (eq (Group.uuid g)))) (add_update_group g cols l o).
Proof.
  intros Ho. unfold add_update_group. apply (preserves_bind_post _ (λ g', Group.uuid g' = Group.uuid g)).
  - by apply so_Group_save.
  - intros s g' s' _ Hr. unfold Group_save in Hr. apply bind_Ok in Hr as ([] & s1 & _ & [-> _]%ret_Ok). done.
  - intros g' Hg'. apply keeps_bind; [apply _| |intros _].
    + apply keeps_for_each_elem; [apply _|]. intros x Hx. apply so_CollectionGroup_save; simpl; [|done].
      apply list_elem_of_fmap. eauto.
    + apply keeps_bind; [apply _| |intros; db_keeps]. apply keeps_for_each; [apply _|]. intros m. apply so_GroupUser_save.
Qed.
Lemma sound_post_groups id o data h d : grants_sound d → groups d !! id = None → grants_sound (post_groups id o data h d).2.
Proof.
  intros Hd Hid. unfold post_groups. apply reads_then; [apply reads_check_groups|done|intros _ _].
  apply reads_then; [apply reads_validate_group|done|]. intros [] Hval%validated_group.
  eapply sound_run; [done|by apply so_add_update|by apply known_collections_of; [apply Hd|]|]. intros g gr <- Hg. simpl in Hg. congruence.
Qed.
Lemma sound_update_group o g data h d : grants_sound d → grants_sound (put_group o g data h d).2.
Proof.
  intros Hd. unfold put_group. apply reads_then; [apply reads_check_groups|done|intros _ _]. rewrite run_gets.
  destruct (Group_find_by_uuid_and_org g o d) as [x|] eqn:Hx; [|done]. unfold some_or. rewrite run_ret.
  apply found_group in Hx as (Hx & Hxg & Hxo); [|apply Hd].
  apply reads_then; [apply reads_validate_group|done|]. intros [] Hval%validated_group.
  eapply sound_run; [done| |by apply known_collections_of; [apply Hd|]|]; cycle 1.
  - instantiate (1 := eq (Group.uuid x)). intros g' gr <- Hg. congruence.
  - apply keeps_bind; [apply _|apply so_drop_grants_by|intros _]. apply keeps_bind; [apply _|apply so_drop_joined|intros _].
    by apply (so_add_update _ o (GroupRequest_update_group data x)).
Qed.
Lemma sound_delete_group o g h d : grants_sound d → grants_sound (delete_group_impl o g h d).2.
Proof.
  intros Hd. unfold delete_group_impl. apply reads_then; [apply reads_check_groups|done|intros _ _]. rewrite run_gets.
  destruct (Group_find_by_uuid_and_org g o d) as [x|]; [|done]. unfold some_or. rewrite run_ret.
  by apply (sound_run o (λ _, False) (λ _, False)); [|apply so_Group_delete|..].
Qed.

Lemma group_act_sound o act h d : grants_sound d → fresh_ids d (OnGroups o act) → grants_sound (group_act o act h d).2.
Proof.
  intros Hd Hf. assert (Hset : ∀ {A} (m : M DB A), (∀ T, keeps (preserves (Sound T o (λ _, False) (λ _, False))) m) → grants_sound (m d).2).
  { intros A m Hm. by apply (sound_run o (λ _, False) (λ _, False)). }
  destruct act as [id data|g data|g|ids|g l|g m]; simpl in Hf |- *.
  - rewrite snd_bind_ret. by apply sound_post_groups.
  - rewrite snd_bind_ret. by apply sound_update_group.
  - by apply sound_delete_group.
  - unfold bulk_delete_groups. apply reads_then; [apply reads_check_groups|done|intros _ _].
    apply sound_for_each; [|done]. intros g d1. apply sound_delete_group.
  - apply Hset. intros T. unfold put_group_members, check_groups, check_org. pose proof (so_drop_joined T o (λ _, False) (λ _, False)).
    pose proof (so_GroupUser_save T o (λ _, False) (λ _, False)). db_keeps.
  - apply Hset. intros T. unfold post_delete_group_member, check_groups, check_org.
    pose proof (so_remove_member T o (λ _, False) (λ _, False)). db_keeps.
Qed.

Lemma control_sound req r d : grants_sound d → fresh_ids d r → grants_sound (control req r d).2.
Proof.
  intros Hd Hf. assert (Hguard : ∀ {H} (g : M DB H) (f : H → M DB ()), keeps (same_on control_tables) g →
    (∀ h d', g d = (Ok h, d') → d' = d) → (∀ h, grants_sound (f h d).2) → grants_sound ((g ≫= f) d).2).
  { intros H g f Hg Hgd Hfd. unfold mbind, M_bind. specialize (Hg d). destruct (g d) as [[h|e] d'] eqn:Hr.
    - by rewrite (Hgd _ _ eq_refl).
    - simpl in *. apply (so_sound (users_organizations d) ""%string (λ _, False) (λ _, False)). eapply sound_tables; [exact Hg|].
      by constructor. }
  destruct r as [o act|o k act|o act|draws ids o data]; simpl in Hf |- *.
  - apply Hguard; [apply loose_guard_tables|by intros h d' [-> _]%loose_guard_Ok|]. intros h. destruct act; simpl.
    + rewrite snd_bind_ret. by apply sound_post_collections.
    + by apply sound_bulk_access.
    + by apply sound_bulk_delete.
  - destruct (negb _); [done|]. apply Hguard; [apply manager_guard_tables|by intros h d' [-> _]%manager_guard_Ok|].
    intros h. destruct act; simpl; [rewrite snd_bind_ret; by apply sound_update_collection|by apply sound_delete_collection].
  - apply Hguard; [apply admin_guard_tables|by intros h d' [-> _]%admin_guard_Ok|]. intros h. by apply group_act_sound.
  - apply Hguard; [apply member_guard_tables|by intros h d' [-> _]%member_guard_Ok|]. intros h. by apply sound_org_import.
Qed.
End requests.

Lemma listing_total d l o :
  (∀ r, r ∈ l → ∃ m, m ∈ rows (users_organizations d) ∧ Membership.user_uuid m = CollectionUser.user_uuid r ∧ Membership.org_uuid m = o) →
  ∃ js, traverse l (λ col_user,
    om ← gets (Membership_find_by_user_and_org (CollectionUser.user_uuid col_user) o);
    member ← unwrap om; mret (Membership_to_json_user_access_restrictions member col_user)) d = (Ok js, d) ∧ length js = length l.
Proof.
  induction l as [|r l IH]; intros Hl; simpl; [by exists []|].
  destruct IH as (js & Hjs & Hlen); [intros; apply Hl; by right|]. destruct (Hl r) as (m & Hm & Hu & Ho); [left|].
  assert (∃ m', Membership_find_by_user_and_org (CollectionUser.user_uuid r) o d = Some m') as [m' Hm'].
  { unfold Membership_find_by_user_and_org, first. destruct (where_ _ _) as [|m' ms] eqn:Hw; [|by exists m'].
    assert (m ∈ []) as []%not_elem_of_nil. rewrite <-Hw. apply elem_of_where. split; [done|]. by rewrite !bool_decide_true. }
  exists (Membership_to_json_user_access_restrictions m' r :: js). split; [|simpl; by rewrite Hlen].
  erewrite run_bind_Ok by (rewrite run_gets, Hm'; reflexivity). by rewrite (run_bind_Ok _ _ _ _ _ Hjs).
Qed.

(** ** The grants that a change leaves *)

(** The entries of a request as a table: a later one for the same key wins. *)
Definition write_all {A B} (f : A → option (string * B)) (l : list A) : gmap string B :=
  foldl (λ t a, match f a with Some (x, b) => <[x := b]> t | None => t end) ∅ l.

Definition group_entry (k : string) (g : CollectionGroupData.t) : option (string * CollectionGroup.t) :=
  Some (CollectionGroupData.id g, CollectionGroup_new k (CollectionGroupData.id g) (CollectionGroupData.read_only g)
    (CollectionGroupData.hide_passwords g) (CollectionGroupData.manage g)).
(** The members with access to everything need no grant. *)
Definition member_entry (o k : string) (d : DB) (e : CollectionMembershipData.t) : option (string * CollectionUser.t) :=
  m ← Membership_find_by_uuid_and_org (CollectionMembershipData.id e) o d;
  if Membership.access_all m then None else
  Some (Membership.user_uuid m, CollectionUser.mk (Membership.user_uuid m) k (CollectionMembershipData.read_only e)
    (CollectionMembershipData.hide_passwords e) (CollectionMembershipData.manage e)).
Definition requested_groups (k : string) (l : list CollectionGroupData.t) : gmap string CollectionGroup.t := write_all (group_entry k) l.
Definition requested_users (o k : string) (l : list CollectionMembershipData.t) (d : DB) : gmap string CollectionUser.t :=
  write_all (member_entry o k d) l.

Lemma write_all_ext {A B} (f g : A → option (string * B)) l : (∀ a, f a = g a) → write_all f l = write_all g l.
Proof. intros Hfg. unfold write_all. generalize (∅ : gmap string B). induction l as [|a l IH]; intros t; simpl; [done|]. by rewrite Hfg. Qed.
(** Writing into a table with composite keys. *)
Lemma foldl_writes {A B} (key : string → string * string) (f : A → option (string * B)) (l : list A) (t0 : gmap (string * string) B) x :
  Inj (=) (=) key →
  foldl (λ t a, match f a with Some (x, b) => <[key x := b]> t | None => t end) t0 l !! key x
  = match write_all f l !! x with Some b => Some b | None => t0 !! key x end.
Proof.
  intros Hinj. unfold write_all. induction l as [|a l IH] using rev_ind; [done|]. rewrite !foldl_app. simpl.
  destruct (f a) as [[y b]|]; [|done]. destruct (decide (y = x)) as [->|Hne].
  - by rewrite !lookup_insert_eq.
  - rewrite !lookup_insert_ne; [done|done|]. intros Heq. apply Hne. by apply (inj key).
Qed.

Section exact.
Context `{E : Env} `{K : Codecs} `{C : Crypto} `{V : VaultConfig} `{J : JsonText}.
Context `{ST : SessionTokens} `{F : FileStore} `{TF : Jwt FileDownloadClaims.t}.

Lemma tables_of {A} (m : M DB A) d a d' : keeps (same_on control_tables) m → m d = (Ok a, d') → control_tables d' = control_tables d.
Proof. intros Hm Hr. specialize (Hm d). by rewrite Hr in Hm. Qed.
Lemma same_touch_group g o : keeps (same_on control_tables) (touch_group_users g o).
Proof. unfold touch_group_users, GroupUser_update_user_revision. pose proof same_touch. by db_keeps. Qed.

Lemma grant_to_groups_Ok o k l d d' :
  grant_to_groups o k l d = (Ok (), d') →
  collections_groups d' = foldl (λ t a, match group_entry k a with Some (x, b) => <[(k, x) := b]> t | None => t end) (collections_groups d) l
  ∧ users_organizations d' = users_organizations d ∧ collections d' = collections d ∧ users_collections d' = users_collections d.
Proof.
  revert d. induction l as [|g l IH]; intros d Hr; simpl in Hr |- *.
  - by apply ret_Ok in Hr as [_ ->].
  - apply bind_Ok in Hr as ([] & d1 & Hs & Hr). apply IH in Hr as (H1 & H2 & H3 & H4).
    unfold CollectionGroup_save in Hs. apply bind_Ok in Hs as ([] & d2 & Ht & Hs). apply tables_of in Ht; [|apply same_touch_group].
    unfold control_tables in Ht. injection Ht as T1 T2 T3 T4 T5 T6.
    unfold save_row in Hs. destruct (_ && _); [|done]. injection Hs as <-. simpl in *. rewrite H1, H2, H3, H4, T4. by split_and!.
Qed.
Lemma grant_to_members_Ok o k l d d' :
  grant_to_members o k l d = (Ok (), d') →
  users_collections d' = foldl (λ t a, match member_entry o k d a with Some (x, b) => <[(x, k) := b]> t | None => t end) (users_collections d) l
  ∧ collections d' = collections d ∧ collections_groups d' = collections_groups d.
Proof.
  assert (∀ d1, users_organizations d1 = users_organizations d → grant_to_members o k l d1 = (Ok (), d') →
    users_collections d' = foldl (λ t a, match member_entry o k d a with Some (x, b) => <[(x, k) := b]> t | None => t end) (users_collections d1) l
    ∧ collections d' = collections d1 ∧ collections_groups d' = collections_groups d1) as Hgen; [|by apply Hgen].
  induction l as [|e l IH]; intros d1 Hd1 Hr; simpl in Hr |- *.
  - by apply ret_Ok in Hr as [_ ->].
  - apply bind_Ok in Hr as ([] & d2 & Hs & Hr). rewrite run_gets in Hs.
    assert (Membership_find_by_uuid_and_org (CollectionMembershipData.id e) o d1 =
            Membership_find_by_uuid_and_org (CollectionMembershipData.id e) o d) as Hm.
    { unfold Membership_find_by_uuid_and_org. by rewrite Hd1. }
    rewrite Hm in Hs. unfold member_entry at 2. destruct (Membership_find_by_uuid_and_org _ o d) as [m|]; [|done]. unfold some_or in Hs. rewrite run_ret in Hs. simpl.
    destruct (Membership.access_all m).
    + apply ret_Ok in Hs as [_ ->]. by apply IH.
    + unfold CollectionUser_save in Hs. apply bind_Ok in Hs as ([] & d3 & Ht & Hs). apply tables_of in Ht; [|apply same_touch].
      unfold control_tables in Ht. injection Ht as T1 T2 T3 T4 T5 T6.
      unfold save_row in Hs. destruct (_ && _); [|done]. injection Hs as <-.
      apply IH in Hr as (H1 & H2 & H3); [|simpl; congruence]. simpl in *. rewrite H1, H2, H3, T2, T3, T4. by split_and!.
Qed.

Lemma drop_grants_Ok k o d d' :
  CollectionGroup_delete_all_by_collection k o d = (Ok (), d') →
  collections_groups d' = delete_where (λ r, CollectionGroup.collections_uuid r == k) (collections_groups d)
  ∧ users_organizations d' = users_organizations d ∧ collections d' = collections d ∧ users_collections d' = users_collections d.
Proof.
  unfold CollectionGroup_delete_all_by_collection. rewrite run_gets. intros Hr. apply bind_Ok in Hr as ([] & d1 & Ht & Hr).
  apply tables_of in Ht; [|apply keeps_for_each; [apply _|]; intros r; apply same_touch_group].
  unfold control_tables in Ht. injection Ht as T1 T2 T3 T4 T5 T6. apply modify_Ok in Hr as ->. simpl. by rewrite T4.
Qed.
Lemma drop_users_Ok k d d' :
  CollectionUser_delete_all_by_collection k d = (Ok (), d') →
  users_collections d' = delete_where (λ r, CollectionUser.collection_uuid r == k) (users_collections d)
  ∧ users_organizations d' = users_organizations d ∧ collections d' = collections d ∧ collections_groups d' = collections_groups d.
Proof.
  unfold CollectionUser_delete_all_by_collection. rewrite run_gets. intros Hr. apply bind_Ok in Hr as ([] & d1 & Ht & Hr).
  apply tables_of in Ht; [|apply keeps_for_each; [apply _|]; intros r; apply same_touch].
  unfold control_tables in Ht. injection Ht as T1 T2 T3 T4 T5 T6. apply modify_Ok in Hr as ->. simpl. by rewrite T3.
Qed.
Lemma Collection_save_Ok x d d' :
  Collection_save x d = (Ok (), d') →
  collections d' = <[Collection.uuid x := x]> (collections d) ∧ users_organizations d' = users_organizations d
  ∧ users_collections d' = users_collections d ∧ collections_groups d' = collections_groups d.
Proof.
  unfold Collection_save. intros Hr. apply bind_Ok in Hr as ([] & d1 & Ht & Hr).
  apply tables_of in Ht; [|unfold Collection_update_users_revision; pose proof same_touch; by db_keeps].
  unfold control_tables in Ht. injection Ht as T1 T2 T3 T4 T5 T6. unfold save_row in Hr. destruct (has _ _); [|done].
  injection Hr as <-. simpl. by rewrite T2.
Qed.

(** Changing a collection sets its grants. When the change is accepted, the
    collection has the new name, its grants to groups and to members are exactly
    the entries of the request (the later one of two for the same holder; none
    for members who have access to everything), and every other collection has
    the row and the grants it had. *)
Theorem collection_update_sets_grants (o k : string) (data : FullCollectionData.t) (h : ManagerHeaders.t) (d d' : DB) (j : Json) :
  control_keyed d → post_organization_collection_update o k data h d = (Ok j, d') →
  (∃ x, collections d' !! k = Some x ∧ Collection.org_uuid x = o ∧ Collection.name x = FullCollectionData.name data)
  ∧ (∀ g, collections_groups d' !! (k, g) = requested_groups k (FullCollectionData.groups data) !! g)
  ∧ (∀ v, users_collections d' !! (v, k) = requested_users o k (FullCollectionData.users data) d !! v)
  ∧ (∀ k' x', k' ≠ k → collections d !! k' = Some x' →
       collections d' !! k' = Some x' ∧ (∀ g, collections_groups d' !! (k', g) = collections_groups d !! (k', g))
       ∧ ∀ v, users_collections d' !! (v, k') = users_collections d !! (v, k')).
Proof.
  intros Hk Hrun.
  assert (Hothers : ∀ k' x', k' ≠ k → collections d !! k' = Some x' → Untouched k' x' d d').
  { intros k' x' Hne Hx'. pose proof (ut_update_collection k' x' d Hk o k data h ltac:(done) d (untouched_refl _ _ _ Hk Hx')) as Hu.
    by rewrite Hrun in Hu. }
  unfold post_organization_collection_update in Hrun. apply bind_Ok in Hrun as ([] & d1 & Hc & Hrun).
  pose proof (reads_check_org o (ManagerHeaders.org_id h) d) as Hd1. rewrite Hc in Hd1. simpl in Hd1. subst d1.
  apply bind_Ok in Hrun as ([] & d1 & Hv & Hrun). pose proof (reads_validate data o d) as Hd1. rewrite Hv in Hd1. simpl in Hd1. subst d1.
  rewrite run_gets in Hrun. case_bool_decide; [done|]. rewrite run_gets in Hrun.
  destruct (Collection_find_by_uuid_and_org k o d) as [x|] eqn:Hx; [|done]. unfold some_or in Hrun. rewrite run_ret in Hrun.
  apply found_collection in Hx as (Hx & Hxk & Hxo); [|done].
  apply bind_Ok in Hrun as ([] & d1 & (S1 & S2 & S3 & S4)%Collection_save_Ok & Hrun).
  apply bind_Ok in Hrun as ([] & d2 & (G1 & G2 & G3 & G4)%drop_grants_Ok & Hrun).
  apply bind_Ok in Hrun as ([] & d3 & (A1 & A2 & A3 & A4)%grant_to_groups_Ok & Hrun).
  apply bind_Ok in Hrun as ([] & d4 & (U1 & U2 & U3 & U4)%drop_users_Ok & Hrun).
  apply bind_Ok in Hrun as ([] & d5 & (B1 & B2 & B3)%grant_to_members_Ok & Hrun). apply gets_Ok in Hrun as [_ ->].
  split_and!.
  - eexists. rewrite B2, U3, A3, G3, S1. simpl. rewrite Hxk. split; [apply lookup_insert_eq|]. done.
  - intros g. rewrite B3, U4, A1. rewrite (foldl_writes (pair k)) by (by intros ? ? [= ->]). unfold requested_groups.
    destruct (write_all _ _ !! g); [done|]. rewrite G1. apply eq_None_not_Some. intros [r [Hr Hp]%lookup_delete_where].
    rewrite S4 in Hr. pose proof (ck_groups_on _ Hk _ _ Hr) as Hkey. unfold collection_group_key in Hkey. bools. congruence.
  - intros v. rewrite B1. rewrite (foldl_writes (λ x, (x, k))) by (by intros ? ? [= ->]). unfold requested_users.
    assert (∀ e, Membership_find_by_uuid_and_org e o d4 = Membership_find_by_uuid_and_org e o d) as Hfind.
    { intros e. unfold Membership_find_by_uuid_and_org. by rewrite U2, A2, G2, S2. }
    rewrite (write_all_ext _ (member_entry o k d)) by (intros e; unfold member_entry; by rewrite Hfind).
    destruct (write_all _ _ !! v); [done|]. rewrite U1. apply eq_None_not_Some. intros [r [Hr Hp]%lookup_delete_where].
    rewrite A4, G4, S3 in Hr. pose proof (ck_users _ Hk _ _ Hr) as Hkey. simpl in Hkey. bools. congruence.
  - intros k' x' Hne Hx'. destruct (Hothers k' x' Hne Hx'). by split_and!.
Qed.
End exact.

(** ** Erin's requests *)

Import SampleControl.

Lemma sample_sound : grants_sound db.
Proof.
  constructor; [apply db_keyed|apply db_within| |by apply orderly_checked; vm_compute].
  assert (map_Forall (λ k _, ∃ col m, collections db !! k.2 = Some col ∧ m ∈ rows (users_organizations db) ∧ Membership.user_uuid m = k.1
    ∧ Membership.org_uuid m = Collection.org_uuid col) (users_collections db)) as Hall.
  { apply map_Forall_insert_2; [|apply map_Forall_insert_2; [|apply map_Forall_empty]].
    - exists Sample.ops, (Sample.mem "m-erin" "erin" false 2 3). split_and!; [by vm_compute| |done..]. apply elem_of_rows. exists "m-erin". by vm_compute.
    - exists Sample.ops, Sample.bob. split_and!; [by vm_compute| |done..]. apply elem_of_rows. exists "m-bob". by vm_compute. }
  intros v c r Hr. exact (Hall (v, c) r Hr).
Qed.

Definition erin : ManagerHeaders.t :=
  ManagerHeaders.mk (Device.mk "tablet" 0 0 "erin" "Tablet" 0 None None "t9" None) (Sample.user Sample.env "erin" "erin@x") "10.0.0.2" "acme".

(** The second entry for Bob wins. *)
Lemma collection_update_sets_grants_witness :
  let d' := (post_organization_collection_update "acme" "ops" data erin db).2 in
  users_collections d' !! ("bob", "ops")%string = Some (CollectionUser.mk "bob" "ops" false false false)
  ∧ collections_groups d' !! ("ops", "devs")%string = Some (CollectionGroup.mk "ops" "devs" true false false).
Proof.
  destruct (post_organization_collection_update "acme" "ops" data erin db) as [r d'] eqn:Hrun.
  assert (∃ j, r = Ok j) as [j ->].
  { assert (match (post_organization_collection_update "acme" "ops" data erin db).1 with Ok _ => true | Err _ => false end = true) as Hok by by vm_compute.
    rewrite Hrun in Hok. destruct r as [j|]; [by exists j|done]. }
  destruct (collection_update_sets_grants "acme" "ops" data erin db d' j db_keyed Hrun) as (_ & Hg & Hu & _).
  cbv zeta. cbn [snd]. split; [rewrite (Hu "bob"%string)|rewrite (Hg "devs"%string)]; by vm_compute.
Defined.
