(* ===== verification/MemberGrants.v ===== *)
(** Grants through the requests on members.

    The requests that invite, change, remove or import members, and those that
    found or delete organizations and accounts, leave the grants of collections
    sound too ([GrantIntegrity]): whoever loses a membership loses the grants
    first. Together with the requests on collections and groups this makes the
    theorem on histories of both. *)
From S2P Require Import Prelude Schema Roles Users Json Invariants Samples TwoFactors OneTimeCodes Sends Memberships Groups Collections Guards VaultItems Ciphers Policies EmergencyRows Organizations Deletion Erasure Emergency OrgJson Members Accounts Tokens Downloads SingleSignOn Identity Vault OrgCollections Authentication Rosters Owners CollectionControl GrantIntegrity.
Local Open Scope Z_scope.

(** ** What stays the same while a request runs *)

(** The account and organization of a membership, and the organization of a
    collection and of a group, by their ids. *)
Record Ids := MkIds {
  id_member : string → string * string;
  id_collection : string → string;
  id_group : string → string
}.

Section kept.
Context (I : Ids).

(** Grants are sound, and every id stands for what [I] says. *)
Record Kept (d : DB) : Prop := {
  kp_sound : grants_sound d;
  kp_members : map_Forall (λ k m, (Membership.user_uuid m, Membership.org_uuid m) = id_member I k) (roster d);
  kp_collections : map_Forall (λ k c, Collection.org_uuid c = id_collection I k) (collections d);
  kp_groups : map_Forall (λ k g, Group.organizations_uuid g = id_group I k) (groups d)
}.
Notation stays m := (keeps (preserves Kept) m).

Definition known (m : Membership.t) : Prop :=
  (Membership.user_uuid m, Membership.org_uuid m) = id_member I (Membership.uuid m).

Lemma known_row d m : Kept d → m ∈ rows (roster d) → known m.
Proof.
  intros Hd [k Hm]%elem_of_rows. pose proof (od_key _ (gs_members _ (kp_sound _ Hd)) _ _ Hm) as Hk. simpl in Hk. subst k.
  by apply (kp_members _ Hd).
Qed.
Lemma known_where d p m : Kept d → m ∈ where_ p (rows (roster d)) → known m.
Proof. intros Hd [Hm _]%elem_of_where. by eapply known_row. Qed.
Lemma known_first d p m : Kept d → first (where_ p (rows (roster d))) = Some m → known m.
Proof. intros Hd Hm%head_Some_elem. by eapply known_where. Qed.

(** [Sound] without anything checked. *)
Lemma nothing_checked o d : grants_sound d → Sound (roster d) o (λ _, False) (λ _, False) d.
Proof. intros Hd. by constructor. Qed.

Lemma kept_tables d d' : control_tables d' = control_tables d → Kept d → Kept d'.
Proof.
  intros Heq [Hs Hm Hc Hg]. assert (grants_sound d') by (eapply so_sound, sound_tables, (nothing_checked ""%string); eauto).
  unfold control_tables in Heq. injection Heq as E1 E2 E3 E4 E5 E6. constructor; [done|..]; by rewrite ?E1, ?E2, ?E5.
Qed.
Lemma stays_same {A} (m : M DB A) : keeps (same_on control_tables) m → stays m.
Proof. intros Hm d Hd. eapply kept_tables; [|exact Hd]. apply Hm. Qed.
Lemma stays_save_row ok f msg : (∀ d, ok d = true → Kept d → Kept (f d)) → stays (save_row ok f msg).
Proof. intros Hf d Hd. unfold save_row. destruct (ok d) eqn:Hok; simpl; [by apply Hf|done]. Qed.
Lemma stays_delete_row rf f msg : (∀ d, rf d = false → Kept d → Kept (f d)) → stays (delete_row rf f msg).
Proof. intros Hf d Hd. unfold delete_row. destruct (rf d) eqn:Hok; simpl; [done|by apply Hf]. Qed.
Lemma stays_modify f : (∀ d, Kept d → Kept (f d)) → stays (modify f).
Proof. intros Hf d Hd. by apply Hf. Qed.

(** *** Writes to the tables *)

Lemma kept_drop_users p d : Kept d → Kept (set_users_collections (delete_where p) d).
Proof. intros [Hs Hm Hc Hg]. constructor; try done. by eapply so_sound, sound_drop_users, (nothing_checked ""%string). Qed.
Lemma kept_drop_grants p d : Kept d → Kept (set_collections_groups (delete_where p) d).
Proof. intros [Hs Hm Hc Hg]. constructor; try done. by eapply so_sound, sound_drop_grants, (nothing_checked ""%string). Qed.
Lemma kept_drop_joined p d : Kept d → Kept (set_groups_users (delete_where p) d).
Proof. intros [Hs Hm Hc Hg]. constructor; try done. by eapply so_sound, sound_drop_joined, (nothing_checked ""%string). Qed.
Lemma kept_put_joined r d : Kept d → Kept (set_groups_users <[group_user_key r := r]> d).
Proof. intros [Hs Hm Hc Hg]. constructor; try done. by eapply so_sound, sound_put_joined, (nothing_checked ""%string). Qed.
Lemma kept_drop_collection k d :
  collection_referenced k d = false → Kept d → Kept (set_collections (delete_where (λ r, Collection.uuid r == k)) d).
Proof.
  intros Hr [Hs Hm Hc Hg]. constructor; try done; [|by apply keyed_delete_where].
  by eapply so_sound, sound_drop_collection, (nothing_checked ""%string).
Qed.
Lemma kept_drop_group k d :
  group_referenced k d = false → Kept d → Kept (set_groups (delete_where (λ r, Group.uuid r == k)) d).
Proof.
  intros Hr [Hs Hm Hc Hg]. constructor; try done; [|by apply keyed_delete_where].
  by eapply so_sound, sound_drop_group, (nothing_checked ""%string).
Qed.
Lemma kept_put_group x d :
  Group.organizations_uuid x = id_group I (Group.uuid x) → Kept d → Kept (set_groups <[Group.uuid x := x]> d).
Proof.
  intros Hx [Hs Hm Hc Hg]. constructor; try done; [|by apply map_Forall_insert_2].
  eapply so_sound, (sound_put_group (roster d) (Group.organizations_uuid x) (λ _, False) (λ g, g = Group.uuid x)); [done..|].
  constructor; [done..|]. intros g gr -> Hgr. rewrite Hx. by apply (Hg _ _ Hgr).
Qed.
Lemma kept_put_collection x d :
  Collection.org_uuid x = id_collection I (Collection.uuid x) → Kept d → Kept (set_collections <[Collection.uuid x := x]> d).
Proof.
  intros Hx [Hs Hm Hc Hg]. constructor; try done; [|by apply map_Forall_insert_2].
  eapply so_sound, (sound_put_collection (roster d) (Collection.org_uuid x) (λ k, k = Collection.uuid x) (λ _, False)); [done..|].
  constructor; [done..| |done]. intros k col -> Hcol. rewrite Hx. by apply (Hc _ _ Hcol).
Qed.
Lemma kept_put_user r d :
  is_Some (collections d !! CollectionUser.collection_uuid r) →
  (∃ m, m ∈ rows (roster d) ∧ Membership.user_uuid m = CollectionUser.user_uuid r
     ∧ Membership.org_uuid m = id_collection I (CollectionUser.collection_uuid r)) →
  Kept d → Kept (set_users_collections <[(CollectionUser.user_uuid r, CollectionUser.collection_uuid r) := r]> d).
Proof.
  intros Hcol Hmem [Hs Hm Hc Hg]. constructor; try done.
  eapply so_sound, (sound_put_user (roster d) (id_collection I (CollectionUser.collection_uuid r))
    (λ k, k = CollectionUser.collection_uuid r) (λ _, False)); [done..|].
  constructor; [done..| |done]. intros k col -> Hk. by apply (Hc _ _ Hk).
Qed.

(** A changed membership is of the same account in the same organization. *)
Lemma kept_put_member m d : known m → alone (roster d) m → Kept d → Kept (set_users_organizations <[Membership.uuid m := m]> d).
Proof.
  intros Hk Ha [[Hs1 Hs2 Hs3 Hs4] Hm Hc Hg]. constructor; [constructor; [destruct Hs1; by constructor|..|by apply orderly_insert]|..];
    try done; try by apply map_Forall_insert_2.
  intros v c r Hr. destruct (Hs3 _ _ _ Hr) as (col & m0 & Hcol & [k0 Hm0]%elem_of_rows & Hv & Ho).
  destruct (decide (k0 = Membership.uuid m)) as [->|Hne].
  - pose proof (Hm _ _ Hm0) as Hid. simpl in Hid. unfold known in Hk. rewrite <- Hk in Hid. injection Hid as Hu Hor.
    exists col, m. split_and!; [done| |congruence..]. apply elem_of_rows. exists (Membership.uuid m). simpl. by rewrite lookup_insert_eq.
  - exists col, m0. split_and!; try done. apply elem_of_rows. exists k0. simpl. by rewrite lookup_insert_ne.
Qed.
(** Only the identity of the rows matters. *)
Lemma kept_update_members p f d :
  (∀ m, Membership.uuid (f m) = Membership.uuid m ∧ Membership.user_uuid (f m) = Membership.user_uuid m
     ∧ Membership.org_uuid (f m) = Membership.org_uuid m) → Kept d → Kept (set_users_organizations (update_where p f) d).
Proof.
  intros Hf [[Hs1 Hs2 Hs3 Hs4] Hm Hc Hg].
  assert (Hg' : ∀ m, let m' := if p m then f m else m in Membership.uuid m' = Membership.uuid m
    ∧ Membership.user_uuid m' = Membership.user_uuid m ∧ Membership.org_uuid m' = Membership.org_uuid m).
  { intros m. simpl. destruct (p m); [apply Hf|done]. }
  constructor; [constructor; [destruct Hs1; by constructor|..]|..]; try done.
  - intros v c r Hr. destruct (Hs3 _ _ _ Hr) as (col & m0 & Hcol & [k0 Hm0]%elem_of_rows & Hv & Ho).
    destruct (Hg' m0) as (H1 & H2 & H3). exists col. eexists. split_and!; [done| |rewrite H2; done|rewrite H3; done].
    apply elem_of_rows. exists k0. simpl. by rewrite lookup_update_where, Hm0.
  - assert (Hold : ∀ k m', update_where p f (roster d) !! k = Some m' → ∃ m, roster d !! k = Some m
      ∧ Membership.uuid m' = Membership.uuid m ∧ Membership.user_uuid m' = Membership.user_uuid m ∧ Membership.org_uuid m' = Membership.org_uuid m).
    { intros k m'. rewrite lookup_update_where. destruct (roster d !! k) as [m|]; [|done]. intros [= <-]. exists m. split; [done|apply Hg']. }
    split; simpl.
    + intros k m' (m & Hk & -> & _)%Hold. by apply (od_key _ Hs4).
    + intros k k' m1 m2 (n1 & Hk & _ & -> & ->)%Hold (n2 & Hk' & _ & -> & ->)%Hold. by apply (od_unique _ Hs4).
  - intros k m'. simpl. rewrite lookup_update_where. destruct (roster d !! k) as [m|] eqn:Hk; [|done]. intros [= <-].
    destruct (Hg' m) as (_ & -> & ->). by apply Hm.
Qed.

(** The account has no grant on a collection of the organization. *)
Definition ungranted (u o : string) (d : DB) : Prop :=
  ∀ c r, users_collections d !! (u, c) = Some r → ∀ col, collections d !! c = Some col → Collection.org_uuid col ≠ o.

Lemma kept_drop_member m d :
  known m → ungranted (Membership.user_uuid m) (Membership.org_uuid m) d → Kept d →
  Kept (set_users_organizations (delete_where (λ r, Membership.uuid r == Membership.uuid m)) d).
Proof.
  intros Hk Hn [[Hs1 Hs2 Hs3 Hs4] Hm Hc Hg].
  constructor; [constructor; [destruct Hs1; by constructor|..]|..]; try done; try by apply keyed_delete_where.
  2: { simpl. rewrite (delete_where_key Membership.uuid) by apply Hs4. by apply orderly_delete. }
  intros v c r Hr. destruct (Hs3 _ _ _ Hr) as (col & m0 & Hcol & [k0 Hm0]%elem_of_rows & Hv & Ho).
  pose proof (od_key _ Hs4 _ _ Hm0) as Hk0. simpl in Hk0. exists col, m0. split_and!; try done. apply elem_of_rows. exists k0. simpl.
  apply lookup_delete_where. split; [done|]. apply bool_decide_false. intros He.
  pose proof (Hm _ _ Hm0) as Hid. simpl in Hid. rewrite <- Hk0, He, <- Hk in Hid. injection Hid as Hu Hor.
  eapply (Hn c r); [|exact Hcol|]; [by rewrite <- Hu, Hv|congruence].
Qed.
End kept.

(** ** Statements *)

Section statements.
Context `{E : Env} `{K : Codecs} `{J : PolicyJson} `{C : Crypto}.
Notation same m := (keeps (same_on control_tables) m).

(** Those that leave memberships, collections, groups and grants alone. *)
Lemma same_touch_user u : same (User_update_uuid_revision u).
Proof. apply same_touch. Qed.
Lemma same_invitation_save i : same (Invitation_save i).
Proof. unfold Invitation_save. db_keeps; done. Qed.
Lemma same_invitation_take mail : same (Invitation_take mail).
Proof. unfold Invitation_take, Invitation_delete. db_keeps; done. Qed.
Lemma same_user_save u : same (User_save u).
Proof. unfold User_save. db_keeps; done. Qed.
Lemma same_org_save o : same (Organization_save o).
Proof. unfold Organization_save, User_update_uuid_revision. db_keeps; done. Qed.
Lemma same_policy_save p : same (OrgPolicy_save p).
Proof. unfold OrgPolicy_save. db_keeps; done. Qed.
Lemma same_check_allowed id m action : same (OrgPolicy_check_user_allowed id m action).
Proof.
  unfold OrgPolicy_check_user_allowed, find_and_activate_email_2fa, activate_email_2fa, TwoFactor_save. db_keeps; done.
Qed.
Lemma same_validate pw otp u del : same (PasswordOrOtpData_validate pw otp u del).
Proof.
  unfold PasswordOrOtpData_validate, validate_protected_action_otp, TwoFactor_delete, TwoFactor_save. db_keeps; done.
Qed.
Lemma same_factor_delete tf : same (TwoFactor_delete tf).
Proof. unfold TwoFactor_delete. db_keeps; done. Qed.
Lemma same_factors_delete u : same (TwoFactor_delete_all_by_user u).
Proof. unfold TwoFactor_delete_all_by_user. db_keeps; done. Qed.
Lemma same_set_password stamp tokens pw key reset routes u : same (User_set_password stamp tokens pw key reset routes u).
Proof.
  unfold User_set_password, User_reset_security_stamp, Device_rotate_refresh_tokens_by_user, Device_save. db_keeps; done.
Qed.
Lemma same_check_org o o' : same (check_org o o').
Proof. unfold check_org. db_keeps. Qed.
Lemma same_expect {A} (o : option A) msg : same (expect o msg).
Proof. unfold expect, panic. db_keeps. Qed.
Lemma same_delete_cipher c : same (Cipher_delete c).
Proof.
  unfold Cipher_delete, Cipher_update_users_revision, FolderCipher_delete_all_by_cipher,
    CollectionCipher_delete_all_by_cipher, Attachment_delete_all_by_cipher, Attachment_delete, Favorite_delete_all_by_cipher,
    User_update_uuid_revision. db_keeps; done.
Qed.
Lemma same_before_members u e :
  same (Send_delete_all_by_user u) ∧ same (EmergencyAccess_delete_all_by_user u)
  ∧ same (EmergencyAccess_delete_all_by_grantee_email e).
Proof.
  unfold Send_delete_all_by_user, Send_delete, Send_update_users_revision, EmergencyAccess_delete_all_by_user,
    EmergencyAccess_delete_all_by_grantee_email, EmergencyAccess_delete, User_update_uuid_revision.
  split_and!; db_keeps; done.
Qed.
Lemma same_after_members u :
  same (Favorite_delete_all_by_user u) ∧ same (Folder_delete_all_by_user u) ∧ same (Device_delete_all_by_user u)
  ∧ same (TwoFactorIncomplete_delete_all_by_user u).
Proof.
  unfold Favorite_delete_all_by_user, Folder_delete_all_by_user, Folder_delete, FolderCipher_delete_all_by_folder,
    Device_delete_all_by_user, TwoFactorIncomplete_delete_all_by_user, User_update_uuid_revision.
  split_and!; db_keeps; done.
Qed.
Lemma same_hint h : same (enforce_password_hint_setting h).
Proof. unfold enforce_password_hint_setting. db_keeps; done. Qed.
Lemma same_accept_contracts user : same (register_accept_invitations user).
Proof.
  unfold register_accept_invitations, EmergencyAccess_accept_invite, EmergencyAccess_save, User_update_uuid_revision.
  db_keeps; done.
Qed.

Context (I : Ids).
Notation Kept := (Kept I).
Notation stays m := (keeps (preserves Kept) m).

Lemma stays_touch u : stays (User_update_uuid_revision u).
Proof. apply stays_same, same_touch. Qed.
Lemma stays_touch_member v : stays (GroupUser_update_user_revision v).
Proof. apply stays_same. pose proof same_touch. unfold GroupUser_update_user_revision. db_keeps; auto. Qed.
Lemma stays_touch_group g o : stays (touch_group_users g o).
Proof. pose proof stays_touch_member. unfold touch_group_users. db_keeps; auto. Qed.
#[local] Hint Resolve stays_touch stays_touch_member stays_touch_group : vault.

Lemma stays_member_save m : known I m → stays (Membership_save m).
Proof.
  intros Hm d Hd. pose proof (member_save_cases m d (gs_members _ (kp_sound _ _ Hd))) as Hc. revert Hc.
  unfold Membership_save, User_update_uuid_revision. rewrite run_modify. set (d1 := set_users _ d). assert (Hd1 : Kept d1) by (by apply (stays_touch (Membership.user_uuid m) d)).
  unfold save_row. destruct (_ && _); simpl; [|done]. intros [_ Ha]. by apply kept_put_member.
Qed.
Lemma stays_group_user_save r : stays (GroupUser_save r).
Proof. unfold GroupUser_save. apply keeps_bind; [apply _|auto with vault|intros _]. apply stays_save_row. intros d _. apply kept_put_joined. Qed.
Lemma stays_drop_joined_member k : stays (GroupUser_delete_all_by_member k).
Proof.
  unfold GroupUser_delete_all_by_member, touch_member. apply keeps_bind; [apply _|db_keeps|intros _].
  apply stays_modify. intros d. apply kept_drop_joined.
Qed.
Lemma stays_drop_joined g o : stays (GroupUser_delete_all_by_group g o).
Proof.
  unfold GroupUser_delete_all_by_group. apply keeps_bind; [apply _|auto with vault|intros _].
  apply stays_modify. intros d. apply kept_drop_joined.
Qed.
Lemma stays_collection_user_delete cu : stays (CollectionUser_delete cu).
Proof.
  unfold CollectionUser_delete. apply keeps_bind; [apply _|auto with vault|intros _]. apply stays_modify. intros d. apply kept_drop_users.
Qed.
Lemma stays_collection_delete x : stays (Collection_delete x).
Proof.
  unfold Collection_delete, Collection_update_users_revision, CollectionCipher_delete_all_by_collection,
    CollectionUser_delete_all_by_collection, CollectionGroup_delete_all_by_collection.
  repeat (apply keeps_bind; [apply _| |intros _]); [db_keeps|apply stays_same; by db_keeps| | |].
  - apply keeps_bind; [apply _|db_keeps|intros l]. apply keeps_bind; [apply _|db_keeps|intros _].
    apply stays_modify. intros d. apply kept_drop_users.
  - apply keeps_bind; [apply _|db_keeps|intros l]. apply keeps_bind; [apply _|db_keeps|intros _].
    apply stays_modify. intros d. apply kept_drop_grants.
  - apply stays_delete_row. intros d Hr. by apply kept_drop_collection.
Qed.
Lemma stays_group_delete o x : stays (Group_delete o x).
Proof.
  unfold Group_delete, CollectionGroup_delete_all_by_group. apply keeps_bind; [apply _| |intros _].
  - apply keeps_bind; [apply _|db_keeps|intros _]. apply stays_modify. intros d. apply kept_drop_grants.
  - apply keeps_bind; [apply _|apply stays_drop_joined|intros _]. apply stays_delete_row. intros d Hr. by apply kept_drop_group.
Qed.
Lemma stays_group_save x : Group.organizations_uuid x = id_group I (Group.uuid x) → stays (Group_save x).
Proof.
  intros Hx. unfold Group_save. apply keeps_bind; [apply _| |intros; db_keeps]. apply stays_save_row. intros d _.
  by apply (kept_put_group I (Group.set_revision_date (λ _, now) x)).
Qed.
Lemma stays_collection_save x : Collection.org_uuid x = id_collection I (Collection.uuid x) → stays (Collection_save x).
Proof.
  intros Hx. unfold Collection_save, Collection_update_users_revision. apply keeps_bind; [apply _|db_keeps|intros _].
  apply stays_save_row. intros d _. by apply kept_put_collection.
Qed.
Lemma stays_grant_groups o m l : stays (grant_groups o m l).
Proof. pose proof stays_group_user_save. unfold grant_groups. db_keeps; auto. Qed.
Lemma stays_accept_all u : stays (Membership_accept_user_invitations u).
Proof. apply stays_modify. intros d. by apply kept_update_members. Qed.

(** *** The end of a membership *)

(** The loop deletes the grants of the account on the collections of the list. *)
Lemma drop_loop u (l : list CollectionUser.t) d :
  let d' := (for_each l (λ x, modify (set_users_collections (delete_where (λ r,
      (CollectionUser.user_uuid r == u) && (CollectionUser.collection_uuid r == CollectionUser.collection_uuid x))))) d).2 in
  collections d' = collections d
  ∧ ∀ k r, users_collections d' !! k = Some r → users_collections d !! k = Some r
      ∧ ∀ x, x ∈ l → CollectionUser.user_uuid r = u → CollectionUser.collection_uuid r ≠ CollectionUser.collection_uuid x.
Proof.
  revert d. induction l as [|a l IH]; intros d; simpl.
  { split; [done|]. intros k r Hr. split; [done|]. by intros x ?%not_elem_of_nil. }
  destruct (IH (set_users_collections (delete_where (λ r, (CollectionUser.user_uuid r == u)
    && (CollectionUser.collection_uuid r == CollectionUser.collection_uuid a))) d)) as [Hc Hr].
  split; [exact Hc|]. intros k r Hk. destruct (Hr k r Hk) as [[Hk' Hp]%lookup_delete_where Hl]. split; [done|].
  intros x [->|Hx]%elem_of_cons Hu; [|by apply Hl]. intros Heq. by rewrite Hu, Heq, !bool_decide_true in Hp.
Qed.

Lemma stays_member_grants u o d :
  Kept d → let d' := (CollectionUser_delete_all_by_user_and_org u o d).2 in Kept d' ∧ ungranted u o d'.
Proof.
  intros Hd. assert (Kept (CollectionUser_delete_all_by_user_and_org u o d).2) as Hd'.
  { unfold CollectionUser_delete_all_by_user_and_org. rewrite run_gets. apply (keeps_for_each (preserves Kept)); [|done].
    intros x. apply stays_modify. intros d1. apply kept_drop_users. }
  split; [done|]. unfold CollectionUser_delete_all_by_user_and_org. rewrite run_gets.
  destruct (drop_loop u (CollectionUser_find_by_organization_and_user_uuid o u d) d) as [Hc Hr].
  intros c r Hcr col Hcol Ho. rewrite Hc in Hcol. destruct (Hr _ _ Hcr) as [Hcr0 Hl].
  pose proof (ck_users _ (gs_keyed _ (kp_sound _ _ Hd)) _ _ Hcr0) as Hkey. simpl in Hkey. injection Hkey as Hu Hcu.
  apply (Hl r); [|done|done]. unfold CollectionUser_find_by_organization_and_user_uuid.
  apply list_elem_of_fmap. exists (r, col). split; [done|]. apply elem_of_where. split; [|by apply bool_decide_true].
  apply elem_of_inner_join. split_and!.
  - apply elem_of_where. split; [apply elem_of_rows; eauto|by apply bool_decide_true].
  - apply elem_of_rows. eauto.
  - apply bool_decide_true. pose proof (ck_collections _ (gs_keyed _ (kp_sound _ _ Hd)) _ _ Hcol). simpl in *. congruence.
Qed.

Lemma stays_member_delete m : known I m → stays (Membership_delete m).
Proof.
  intros Hm. unfold Membership_delete. apply keeps_bind; [apply _|auto with vault|intros _]. intros d Hd.
  destruct (stays_member_grants (Membership.user_uuid m) (Membership.org_uuid m) d Hd) as [Hd1 Hn1].
  unfold mbind at 1, M_bind at 1. destruct (CollectionUser_delete_all_by_user_and_org _ _ d) as [[[]|e] d1] eqn:Hrun; [|done].
  simpl in Hd1, Hn1. clear Hrun Hd d. set (P d := Kept d ∧ ungranted (Membership.user_uuid m) (Membership.org_uuid m) d).
  assert (Hjoin : keeps (preserves P) (GroupUser_delete_all_by_member (Membership.uuid m))).
  { intros d [H1 H2]. split; [by apply stays_drop_joined_member|].
    assert (keeps (same_on (λ d, (users_collections d, collections d))) (GroupUser_delete_all_by_member (Membership.uuid m))) as Hsame.
    { unfold GroupUser_delete_all_by_member, touch_member, User_update_uuid_revision. db_keeps; done. }
    specialize (Hsame d). unfold same_on in Hsame. injection Hsame as E1 E2. unfold ungranted. by rewrite E1, E2. }
  specialize (Hjoin d1 (conj Hd1 Hn1)). unfold mbind, M_bind.
  destruct (GroupUser_delete_all_by_member _ d1) as [[[]|e] d2]; destruct Hjoin as [Hd2 Hn2]; simpl in *; [|done].
  unfold delete_row. destruct (member_referenced _ d2); simpl; [done|]. by apply kept_drop_member.
Qed.

Lemma stays_members_delete (q : DB → list Membership.t) :
  (∀ d m, m ∈ q d → m ∈ rows (roster d)) → stays (l ← gets q; for_each l Membership_delete).
Proof.
  intros Hq. apply preserves_gets. intros d Hd. apply keeps_for_each_elem; [apply _|]. intros m Hm.
  apply stays_member_delete. by eapply known_row, Hq.
Qed.

Lemma stays_user_delete u : stays (User_delete u).
Proof.
  pose proof (same_before_members (User.uuid u) (User.email u)) as (S1 & S2 & S3).
  pose proof (same_after_members (User.uuid u)) as (S4 & S5 & S6 & S7).
  assert (S8 : same (Cipher_delete_all_by_user (User.uuid u))).
  { pose proof same_delete_cipher. unfold Cipher_delete_all_by_user. db_keeps; auto. }
  assert (Hm : stays (Membership_delete_all_by_user (User.uuid u))).
  { apply stays_members_delete. by intros d m [Hm _]%elem_of_where. }
  unfold User_delete. apply keeps_bind; [apply _|db_keeps|intros b]. apply keeps_if; [db_keeps|].
  repeat (apply keeps_bind; [apply _|solve [exact Hm | apply stays_same; first [done | apply same_factors_delete | apply same_invitation_take]]|intros _]).
  apply stays_same. by db_keeps.
Qed.

Lemma stays_org_delete og : stays (Organization_delete og).
Proof.
  pose proof stays_collection_delete as Hc. pose proof stays_group_delete as Hg. pose proof same_delete_cipher as Hci.
  unfold Organization_delete, Cipher_delete_all_by_organization, Collection_delete_all_by_organization,
    Membership_delete_all_by_organization, OrgPolicy_delete_all_by_organization, Group_delete_all_by_organization,
    OrganizationApiKey_delete_all_by_organization.
  apply keeps_bind; [apply _|apply stays_same; by db_keeps; auto|intros _].
  apply keeps_bind; [apply _|db_keeps; auto|intros _].
  apply keeps_bind; [apply _|apply stays_members_delete; by intros d m [Hm _]%elem_of_where|intros _].
  apply keeps_bind; [apply _|apply stays_same; by db_keeps|intros _].
  apply keeps_bind; [apply _|db_keeps; auto|intros _].
  apply keeps_bind; [apply _|apply stays_same; by db_keeps|intros _]. apply stays_same. by db_keeps.
Qed.
End statements.
Create HintDb control.
#[export] Hint Resolve same_touch_user same_invitation_save same_invitation_take same_user_save same_org_save same_policy_save
  same_check_allowed same_validate same_factor_delete same_factors_delete same_set_password same_check_org same_expect
  same_hint same_accept_contracts keeps_ret keeps_gets keeps_throw keeps_err keeps_lift keeps_some_or : control.
#[export] Hint Extern 3 (keeps (preserves (Kept _)) _) => apply stays_same; solve [auto with control typeclass_instances] : vault.
#[export] Hint Resolve stays_touch stays_group_user_save stays_drop_joined_member stays_drop_joined stays_collection_user_delete
  stays_grant_groups stays_accept_all stays_user_delete stays_org_delete : vault.

(** Walks through a handler and remembers what it has read. *)
Ltac go :=
  repeat first
    [ progress intros
    | solve [eauto 4 with vault typeclass_instances]
    | apply preserves_gets; intros ? ?
    | apply preserves_some_or; intros ? ?
    | apply stays_member_save
    | apply stays_member_delete
    | keeps_step ].

(** ** Handlers that change and remove members *)

Section handlers.
Context `{E : Env} `{K : Codecs} `{J : PolicyJson} `{C : Crypto} (I : Ids).
Notation Kept := (Kept I).
Notation stays m := (keeps (preserves Kept) m).

Lemma known_role m m' : same_role m m' → known I m → known I m'.
Proof. intros []. unfold known. by rewrite sr_uuid, sr_user, sr_org. Qed.
Lemma known_revoke m : known I m → known I (Membership_revoke m).2.
Proof. unfold Membership_revoke. by case_match. Qed.
Lemma known_restore m : known I m → known I (Membership_restore m).2.
Proof. unfold Membership_restore. by case_match. Qed.
Lemma known_external ext m : known I m → known I (Membership_set_external_id ext m).2.
Proof. apply known_role, set_external_role. Qed.
#[local] Hint Resolve known_first known_where known_row known_revoke known_restore known_external : vault.

(** The membership that is written is one that was read. *)
Ltac recall :=
  match goal with
  | Hd : MemberGrants.Kept _ ?d, H : _ = Some ?a |- known _ _ =>
      let Hk := fresh "Hk" in
      assert (Hk : known I a) by (eapply (known_first I d); [exact Hd|exact H]);
      first [exact Hk | exact (known_revoke _ Hk) | exact (known_restore _ Hk)]
  end.
Ltac walk := go; recall.

Lemma stays_check_org {A} o o' (f : () → M DB A) : (o = o' → stays (f ())) → stays (check_org o o' ≫= f).
Proof. apply keeps_check_org, _. Qed.

Lemma stays_confirm draws o id key h : stays (confirm_invite_impl draws o id key h).
Proof. unfold confirm_invite_impl. walk. Qed.
Lemma stays_remove o id h : stays (delete_member_impl o id h).
Proof. unfold delete_member_impl. walk. Qed.
Lemma stays_revoke o id h : stays (revoke_member_impl o id h).
Proof. unfold revoke_member_impl. walk. Qed.
Lemma stays_restore draws o id h : stays (restore_member_impl draws o id h).
Proof. unfold restore_member_impl. walk. Qed.
Lemma stays_reinvite o id : stays (reinvite_member_impl o id).
Proof. unfold reinvite_member_impl. walk. Qed.
Lemma stays_assign draws data : stays (update_membership_type draws data).
Proof. unfold update_membership_type. walk. Qed.
Lemma stays_accept_org draws user m key : known I m → stays (accept_org_invite draws user m key).
Proof. intros Hm. unfold accept_org_invite. go; exact Hm. Qed.
Lemma stays_accept `{OrgInviteTokens} draws o id data h : stays (accept_invite draws o id data h).
Proof. unfold accept_invite. go; apply stays_accept_org; recall. Qed.
Lemma stays_set_password_accepts draws o user : stays (set_password_accepts draws o user).
Proof. unfold set_password_accepts. go; apply stays_accept_org; recall. Qed.
Lemma stays_leave o h : known I (OrgMemberHeaders.membership h) → stays (leave_organization o h).
Proof. intros Hm. unfold leave_organization. go. Qed.
Lemma stays_enroll o u req h : known I (OrgMemberHeaders.membership h) → stays (put_reset_password_enrollment o u req h).
Proof. intros Hm. unfold put_reset_password_enrollment, check_reset_password_applicable. go; exact Hm. Qed.

(** *** Loops over members *)

Lemma stays_loop (q : DB → list Membership.t) (f : Membership.t → M DB ()) :
  (∀ d m, m ∈ q d → m ∈ rows (roster d)) → (∀ m, known I m → stays (f m)) → stays (l ← gets q; for_each l f).
Proof.
  intros Hq Hf. apply preserves_gets. intros d Hd. apply keeps_for_each_elem; [apply _|]. intros m Hm.
  apply Hf. by eapply known_row, Hq.
Qed.
Lemma stays_2fa user : stays (enforce_2fa_policy user).
Proof.
  apply stays_loop.
  - intros d m Hm. by apply list_elem_of_fmap in Hm as ([m' p] & -> & [[Hm _]%elem_of_inner_join _]%elem_of_where).
  - intros m Hm. go; by apply known_revoke.
Qed.
Lemma stays_2fa_org o : stays (enforce_2fa_policy_for_org o).
Proof.
  unfold enforce_2fa_policy_for_org. apply keeps_bind; [apply _|go|intros oo]. apply keeps_bind; [apply _|go|intros _].
  apply stays_loop; [by intros d m [Hm _]%elem_of_where|]. intros m Hm. go; by apply known_revoke.
Qed.
Lemma stays_single_org o : stays (enforce_single_org o).
Proof. apply stays_loop; [by intros d m [Hm _]%elem_of_where|]. intros m Hm. go; by apply known_revoke. Qed.
Lemma stays_put_policy id o ty data h : stays (put_policy id o ty data h).
Proof. pose proof (stays_2fa_org o). pose proof (stays_single_org o). unfold put_policy. go. Qed.
Lemma stays_disable_2fa ty pw otp h : stays (disable_twofactor ty pw otp h).
Proof. pose proof stays_2fa. unfold disable_twofactor. go. Qed.
Lemma stays_remove_2fa id : stays (remove_2fa id).
Proof. pose proof stays_2fa. unfold remove_2fa, get_user_or_404, err_code. go. Qed.
Lemma stays_rotate keys user : stays (rotate_reset_password_keys keys user).
Proof.
  unfold rotate_reset_password_keys. apply preserves_gets. intros d Hd. apply keeps_for_each; [apply _|]. intros [o key].
  apply preserves_some_or. intros m [Hf%list_elem_of_In _]%List.find_some. apply stays_member_save.
  apply elem_of_where in Hf as [Hm _]. exact (known_where I d _ m Hd Hm).
Qed.
Lemma stays_takeover stamp token_for id data user : stays (password_emergency_access stamp token_for id data user).
Proof.
  unfold password_emergency_access, check_emergency_access_enabled.
  apply keeps_bind; [apply _|go|intros _]. apply preserves_gets. intros d _. apply preserves_some_or. intros ea _.
  apply keeps_if; [go|]. apply preserves_gets. intros d1 _. apply preserves_some_or. intros g _.
  apply keeps_bind; [apply _|go|intros g1]. apply keeps_bind; [apply _|go|intros g2]. apply keeps_bind; [apply _|go|intros _].
  apply stays_loop; [by intros d2 m [Hm _]%elem_of_where|]. intros m Hm. go.
Qed.

(** *** Bulk requests *)

Lemma stays_bulk {A} (l : list A) (f : A → M DB ()) : (∀ a, stays (f a)) → stays (bulk l f).
Proof. intros Hf. apply keeps_bulk; [apply _|exact Hf]. Qed.
Lemma stays_bulk_confirm draws o keys h : stays (bulk_confirm_invite draws o keys h).
Proof.
  apply stays_check_org. intros _. induction (default [] keys) as [|c l IH]; simpl; [go|].
  apply keeps_bind; [apply _|go|intros id]. apply keeps_bind; [apply _|apply keeps_attempt, stays_confirm|intros r].
  apply keeps_bind; [apply _|exact IH|intros; go].
Qed.

(** *** Changing a member *)

(** While the table of memberships is [T]. *)
Definition At (T : Roster) (d : DB) : Prop := Kept d ∧ roster d = T.
Lemma at_of {A} T (m : M DB A) : stays m → keeps (same_on roster) m → keeps (preserves (At T)) m.
Proof. intros H1 H2 d [Hd HT]. split; [by apply H1|]. rewrite <- HT. apply H2. Qed.
Lemma at_same {A} T (m : M DB A) : keeps (same_on control_tables) m → keeps (preserves (At T)) m.
Proof.
  intros Hm. apply at_of; [by apply stays_same|]. intros d. specialize (Hm d). unfold same_on, control_tables in *. congruence.
Qed.

(** A member of the organization is given grants on its collections. *)
Lemma at_grant_collections T o u cols :
  (∃ m, m ∈ rows T ∧ Membership.user_uuid m = u ∧ Membership.org_uuid m = o) →
  keeps (preserves (At T)) (grant_collections o u cols).
Proof.
  intros (m & Hm & Hu & Ho). unfold grant_collections. apply keeps_for_each; [apply _|]. intros col.
  apply preserves_gets. intros d [Hd HT]. destruct (Collection_find_by_uuid_and_org _ o d) as [c|] eqn:Hc; [|go].
  apply found_collection in Hc as (Hc & Hcid & Hco); [|apply Hd].
  assert (id_collection I (Collection.uuid c) = o) as Hio by (rewrite Hcid, <- Hco; symmetry; by apply (kp_collections _ _ Hd)).
  unfold CollectionUser_save. apply keeps_bind; [apply _|apply at_same, same_touch|intros _].
  intros d1 [Hd1 HT1]. unfold save_row. destruct (_ && _) eqn:Hok; simpl; [|done]. unfold has in Hok. bools. split; [|done].
  apply (kept_put_user I (CollectionUser.mk u (Collection.uuid c) (CollectionData.read_only col)
    (CollectionData.hide_passwords col) (CollectionData.manage col))); [done| |done].
  simpl. exists m. rewrite HT1, Hio. by split_and!.
Qed.

(** A part that ends in a write to memberships. *)
Definition ends {A} (T : Roster) (m : M DB A) : Prop := ∀ d, At T d → Kept (m d).2.
Lemma ends_stays {A} T (m : M DB A) : stays m → ends T m.
Proof. intros Hm d [Hd _]. by apply Hm. Qed.
Lemma ends_bind {A B} T (m : M DB A) (f : A → M DB B) :
  (∀ d, At T d → match m d with (Ok _, d') => At T d' | (Err _, d') => Kept d' end) → (∀ a, ends T (f a)) → ends T (m ≫= f).
Proof. intros Hm Hf d Hd. specialize (Hm d Hd). unfold mbind, M_bind. destruct (m d) as [[a|e] d']; [by apply Hf|done]. Qed.
Lemma ends_at {A B} T (m : M DB A) (f : A → M DB B) : keeps (preserves (At T)) m → (∀ a, ends T (f a)) → ends T (m ≫= f).
Proof. intros Hm. apply ends_bind. intros d Hd. specialize (Hm d Hd). by destruct (m d) as [[] d']; [|destruct Hm]. Qed.
Lemma ends_gets {A B} T (g : DB → A) (f : A → M DB B) : (∀ d, At T d → ends T (f (g d))) → ends T (gets g ≫= f).
Proof. intros Hf d Hd. by apply (Hf d Hd). Qed.
Lemma ends_some_or {A B} T (o : option A) msg (f : A → M DB B) : (∀ a, o = Some a → ends T (f a)) → ends T (some_or o msg ≫= f).
Proof. intros Hf. destruct o as [a|]; [by apply Hf|]. by intros d []. Qed.
Lemma ends_if {A} T (c : bool) (m n : M DB A) : ends T m → ends T n → ends T (if c then m else n).
Proof. by destruct c. Qed.

Lemma stays_edit draws o id data h : stays (edit_member draws o id data h).
Proof.
  apply stays_check_org. intros _. enough (He : ∀ T, ends T
    (let raw_type := NumberOrString_into_string (EditUserData.type data) in
     new_type ← some_or (MembershipType_from_str raw_type) "Invalid type"; _)) by (intros d Hd; by apply (He (roster d))).
  intros T. apply ends_some_or. intros t _. apply ends_gets. intros d Hd. apply ends_some_or. intros m Hm.
  assert (m ∈ rows T ∧ Membership.org_uuid m = o) as [HmT Hmo].
  { destruct Hd as [_ <-]. apply head_Some_elem, elem_of_where in Hm as [Hin Hp]. bools. done. }
  assert (known I m) as Hk by (eapply (known_first I d); [apply Hd|exact Hm]).
  repeat first [apply ends_if; [apply ends_stays; go|] | apply ends_gets; intros ? _].
  apply ends_at; [apply at_same, same_check_allowed|intros _]. apply ends_gets. intros d1 _.
  apply ends_at; [apply at_of; [apply keeps_for_each; [apply _|intros; apply stays_collection_user_delete]|db_keeps]|intros _].
  apply ends_at; [apply keeps_when; [apply _|apply at_grant_collections; eauto]|intros _].
  apply ends_at; [apply at_of; [apply stays_drop_joined_member|db_keeps]|intros _].
  apply ends_at; [apply at_of; [apply stays_grant_groups|db_keeps]|intros _].
  apply ends_stays, stays_member_save. exact Hk.
Qed.
End handlers.

(** ** New members *)

(** The ids of the rows that are stored; a group that is not stored yet will be
    of organization [o]. *)
Definition ids_of (o : string) (d : DB) : Ids := MkIds
  (λ k, match roster d !! k with Some m => (Membership.user_uuid m, Membership.org_uuid m) | None => (""%string, ""%string) end)
  (λ k, match collections d !! k with Some c => Collection.org_uuid c | None => o end)
  (λ k, match groups d !! k with Some g => Group.organizations_uuid g | None => o end).
Lemma kept_ids o d : grants_sound d → Kept (ids_of o d) d.
Proof. intros Hd. constructor; [done|..]; intros k r Hr; simpl; by rewrite Hr. Qed.

(** The id [k] is drawn for a membership of [v]. *)
Definition with_member (I : Ids) (k : string) (v : string * string) : Ids :=
  MkIds (λ k', if k' == k then v else id_member I k') (id_collection I) (id_group I).
Lemma kept_with_member I k v d : roster d !! k = None → Kept I d → Kept (with_member I k v) d.
Proof.
  intros Hk [Hs Hm Hc Hg]. constructor; try done. intros k' m Hm'. simpl. rewrite bool_decide_false by congruence. by apply Hm.
Qed.
Lemma known_with_member I m :
  known (with_member I (Membership.uuid m) (Membership.user_uuid m, Membership.org_uuid m)) m.
Proof. unfold known. simpl. by rewrite bool_decide_true. Qed.

Section new_members.
Context `{E : Env} `{K : Codecs} `{J : PolicyJson} `{C : Crypto}.

(** [Kept] for some ids of members. *)
Definition KeptIn (G : string → string) (d : DB) : Prop := ∃ I, id_group I = G ∧ Kept I d.

Lemma keptin_stays {A} G (m : M DB A) d : (∀ I, keeps (preserves (Kept I)) m) → KeptIn G d → KeptIn G (m d).2.
Proof. intros Hm (I & HI & Hd). exists I. split; [done|]. by apply Hm. Qed.
Lemma keptin_same {A B} G (m : M DB A) (f : A → M DB B) d :
  keeps (same_on control_tables) m → KeptIn G d →
  (∀ a d', m d = (Ok a, d') → roster d' = roster d → KeptIn G d' → KeptIn G (f a d').2) → KeptIn G ((m ≫= f) d).2.
Proof.
  intros Hm HK Hf. pose proof (keptin_stays G m d (λ I, stays_same I m Hm) HK) as Hd'. specialize (Hm d).
  unfold mbind, M_bind. destruct (m d) as [[a|e] d']; simpl in *; [|done]. apply Hf; [done| |done].
  unfold same_on, control_tables in Hm. congruence.
Qed.

Lemma member_save_Ok m d d' : Membership_save m d = (Ok (), d') → m ∈ rows (roster d').
Proof.
  unfold Membership_save, User_update_uuid_revision. rewrite run_modify. unfold save_row. destruct (_ && _); [|done].
  intros [= <-]. apply elem_of_rows. exists (Membership.uuid m). simpl. apply lookup_insert_eq.
Qed.

(** The membership is saved, and [f] goes on with it. *)
Lemma keptin_new_member {B} G m (f : () → M DB B) d :
  roster d !! Membership.uuid m = None → KeptIn G d →
  (∀ I T, id_group I = G → known I m → m ∈ rows T → ends I T (f ())) → KeptIn G ((Membership_save m ≫= f) d).2.
Proof.
  intros Hfresh (I & HI & Hd) Hf. set (v := (Membership.user_uuid m, Membership.org_uuid m)).
  set (I' := with_member I (Membership.uuid m) v). exists I'. split; [done|].
  pose proof (stays_member_save I' m (known_with_member I m) d (kept_with_member I _ v d Hfresh Hd)) as Hd1.
  unfold mbind, M_bind. destruct (Membership_save m d) as [[[]|e] d1] eqn:Hs; simpl in *; [|done].
  apply (Hf I' (roster d1)); [done|apply known_with_member|by eapply member_save_Ok|done].
Qed.

(** A mail that may fail, and what is taken back then. *)
Lemma ends_mail {B} I T (user : User.t) nm (created : bool) (f : () → M DB B) :
  known I nm → (∀ a, ends I T (f a)) →
  ends I T (match send_mail "send_org_invite" (User.email user) with
            | Ok _ => mret ()
            | Err e => (if created then User_delete user else Membership_delete nm) ;;
                       err ("Error sending invite: " +:+ err_message e)
            end ≫= f).
Proof.
  intros Hk Hf. destruct (send_mail _ _) as [|e]; [intros d Hd; by apply Hf|]. apply ends_bind; [|exact Hf].
  intros d [Hd _].
  assert (Hs : keeps (preserves (Kept I)) ((if created then User_delete user else Membership_delete nm) ;;
    err (A := ()) ("Error sending invite: " +:+ err_message e))).
  { destruct created; go. }
  specialize (Hs d Hd). unfold mbind, M_bind in *.
  destruct ((if created then User_delete user else Membership_delete nm) d) as [[[]|e'] d']; done.
Qed.

Lemma same_invited_user draws n o email : keeps (same_on control_tables) (invited_user draws n o email).
Proof.
  pose proof same_invitation_save. pose proof same_user_save. unfold invited_user. db_keeps; auto.
Qed.

Lemma keptin_invite_one G draws n o data h t all created email d :
  unused draws n (roster d) → KeptIn G d → KeptIn G (invite_one draws n o data h t all created email d).2.
Proof.
  intros Hu HK. unfold invite_one. apply keptin_same; [apply same_invited_user|done|]. intros [[user c] st] d1 _ Hd1 HK1.
  cbv zeta. set (nm := Membership.set_status _ _). apply keptin_new_member; [rewrite Hd1; by apply Hu|done|].
  intros I T _ Hk HT. match goal with |- ends I T (_ ≫= ?rest) => set (f := rest) end.
  assert (Hrest : ∀ a, ends I T (f a)).
  { intros []. apply ends_at; [apply keeps_when; [apply _|apply at_grant_collections; by exists nm]|intros _].
    apply ends_stays. pose proof (stays_grant_groups I). go. }
  destruct mail_enabled; [|exact (Hrest ())]. cbn [when]. intros d2 Hd2. unfold mbind at 1, M_bind at 1. rewrite run_gets.
  destruct (Organization_find_by_uuid o d2) as [org|]; [|by destruct Hd2].
  exact (ends_mail I T user nm (created || c) f Hk Hrest d2 Hd2).
Qed.

Lemma keptin_invite_all G draws data h t all emails n created d :
  Inj (=) (=) (new_member_id draws) → t = User_ ∨ AdminHeaders.membership_type h = Owner →
  orderly (roster d) → unused draws n (roster d) → KeptIn G d →
  KeptIn G (invite_all draws n (AdminHeaders.org_id h) data h (type_i32 t) all created emails d).2.
Proof.
  intros Hi Ht. revert n created d. induction emails as [|email emails IH]; intros n created d Ho Hu HK; [done|]. simpl.
  pose proof (keptin_invite_one G draws n (AdminHeaders.org_id h) data h (type_i32 t) all created email d Hu HK) as HK1.
  destruct (invite_one_steps draws n data h t all created email d Hi Ho Hu Ht) as [Hr1 Hu1].
  unfold mbind, M_bind. destruct (invite_one _ _ _ _ _ _ _ _ _ d) as [[b|e] d1]; simpl in *; [|done].
  apply IH; [by eapply rtc_step_orderly|done..].
Qed.

Lemma keptin_invite G draws o data h d :
  Inj (=) (=) (new_member_id draws) → orderly (roster d) → unused draws 0 (roster d) → KeptIn G d →
  KeptIn G (send_invite draws o data h d).2.
Proof.
  intros Hi Ho Hu HK. unfold send_invite.
  apply keptin_same; [apply same_check_org|done|]. intros [] d1 Hd1 _ _. unfold check_org in Hd1.
  case_bool_decide as Heq; [|done]. apply ret_Ok in Hd1 as [_ ->]. subst o.
  apply keptin_same; [unfold InviteData_validate; by db_keeps|done|]. intros _ d1 _ Hd1 HK1.
  destruct (MembershipType_from_str _) as [t|]; [|done]. cbv zeta. unfold some_or. rewrite run_ret.
  destruct (negb _ && negb _) eqn:Hc; [done|]. rewrite <- Hd1 in Ho, Hu. apply keptin_invite_all; [done| |done..].
  apply owner_or in Hc as [Hc|]; [left|by right]. by destruct t.
Qed.

(** *** Founding *)

Lemma sound_create o m c data h d :
  roster d !! m = None → collections d !! c = None → grants_sound d →
  grants_sound (create_organization o m c data h d).2.
Proof.
  intros Hm Hc Hd. set (I := with_member (ids_of o d) m (User.uuid (Headers.user h), o)).
  assert (Hk : Kept I d) by (apply kept_with_member; [done|by apply kept_ids]).
  enough (Hs : keeps (preserves (Kept I)) (create_organization o m c data h)) by (by apply (kp_sound I), Hs).
  unfold create_organization. apply keeps_if; [go|]. apply keeps_bind; [apply _|go|intros b]. apply keeps_if; [go|].
  destruct (match OrgData.keys data with Some _ => _ | None => _ end) as [prk pbk].
  apply keeps_bind; [apply _|go|intros _]. apply keeps_bind; [apply _| |intros _].
  { apply stays_member_save. unfold known. simpl. by rewrite bool_decide_true. }
  apply keeps_bind; [apply _| |intros; go]. apply stays_collection_save. simpl. by rewrite Hc.
Qed.

(** *** The directory *)

Lemma keptin_import_one G draws n o data d :
  unused draws n (roster d) → KeptIn G d → KeptIn G (import_one draws n o data d).2.
Proof.
  intros Hu HK. unfold import_one. rewrite run_gets.
  destruct (Membership_find_by_email_and_org _ o d) as [m|] eqn:Hf.
  { destruct HK as (I & HI & Hd). assert (Hk : known I m).
    { unfold Membership_find_by_email_and_org in Hf. case_match; [|done]. by eapply known_first. }
    exists I. split; [done|]. destruct (OrgImportUserData.deleted data).
    - rewrite run_gets. match goal with |- Kept I (?p d).2 => enough (Hs : keeps (preserves (Kept I)) p) by by apply Hs end.
      destruct (_ && _ && _); [|destruct (Membership_revoke m) as [rv m1] eqn:Hrv].
      + destruct (Membership_set_external_id _ m) as [em m2] eqn:He. pose proof (known_external I (Some (OrgImportUserData.external_id data)) m Hk) as H2.
        rewrite He in H2. go.
      + pose proof (known_revoke I m Hk) as H1. rewrite Hrv in H1.
        destruct (Membership_set_external_id _ m1) as [em m2] eqn:He. pose proof (known_external I (Some (OrgImportUserData.external_id data)) m1 H1) as H2.
        rewrite He in H2. go.
    - match goal with |- Kept I (?p d).2 => enough (Hs : keeps (preserves (Kept I)) p) by by apply Hs end.
      destruct (Membership_restore m) as [rs m1] eqn:Hrs. pose proof (known_restore I m Hk) as H1. rewrite Hrs in H1.
      destruct (Membership_set_external_id _ m1) as [em m2] eqn:He. pose proof (known_external I (Some (OrgImportUserData.external_id data)) m1 H1) as H2.
      rewrite He in H2. simpl in H2.
      apply (preserves_bind_post _ (λ x, known I x.2)).
      + destruct rs; [|go]. apply keeps_bind; [apply _|apply keeps_attempt, stays_same, same_check_allowed|intros; go].
      + intros s [b m3] s' _ Hr. destruct rs; [|by apply ret_Ok in Hr as [[= -> ->] _]].
        apply bind_Ok in Hr as (r & s1 & _ & Hr). apply ret_Ok in Hr as [Hr _]. destruct r; simplify_eq; [by apply (known_revoke I)|done].
      + intros [b m3] Hm3. simpl in Hm3. go. }
  destruct (OrgImportUserData.deleted data); [done|]. rewrite run_gets.
  apply keptin_same; [pose proof same_user_save; pose proof same_invitation_save; db_keeps; auto|done|].
  intros [user created] d1 _ Hd1 HK1. rewrite run_gets. destruct (Organization_find_by_uuid o d1) as [org|]; [|done].
  unfold some_or. rewrite run_ret. cbv zeta. set (nm := Membership.set_status _ _).
  assert (Membership.uuid nm = new_member_id draws n) as Hid
    by exact (sr_uuid _ _ (set_external_role (Some (OrgImportUserData.external_id data))
                             (Membership_new (new_member_id draws n) (User.uuid user) o (Some (Organization.billing_email org))))).
  apply keptin_new_member; [rewrite Hid, Hd1; by apply Hu|done|]. intros I T _ Hk HT.
  destruct mail_enabled; [|apply ends_stays; go]. intros d2 Hd2.
  pose proof (ends_mail I T user nm created mret Hk (λ _, ends_stays I T _ (keeps_ret _ _)) d2 Hd2) as Hm. revert Hm.
  unfold mbind at 1, M_bind at 1.
  match goal with |- context [match ?x with (_, _) => _ end] => destruct x as [[[]|e] d3] end; done.
Qed.

Lemma keptin_import_members G draws o l n d :
  Inj (=) (=) (new_member_id draws) → orderly (roster d) → unused draws n (roster d) → KeptIn G d →
  KeptIn G (import_members draws n o l d).2.
Proof.
  intros Hi. revert n d. induction l as [|x l IH]; intros n d Ho Hu HK; [done|]. simpl.
  pose proof (keptin_import_one G draws n o x d Hu HK) as HK1.
  destruct (import_one_steps draws n o x d Hi Ho Hu) as [Hr1 Hu1].
  unfold mbind, M_bind. destruct (import_one _ _ _ _ d) as [[[]|e] d1]; simpl in *; [|done].
  apply IH; [by eapply rtc_step_orderly|done..].
Qed.

Lemma stays_import_groups I draws o l n :
  (∀ n, id_group I (new_group_id draws n) = o) → keeps (preserves (Kept I)) (import_groups draws n o l).
Proof.
  intros Hg. revert n. induction l as [|g l IH]; intros n; simpl; [go|]. apply keeps_bind; [apply _|go|intros og].
  apply keeps_bind; [apply _| |intros id].
  - destruct og; [go|]. apply keeps_bind; [apply _| |intros; go]. apply stays_group_save. simpl. by rewrite Hg.
  - apply keeps_bind; [apply _|apply stays_drop_joined|intros _]. apply keeps_bind; [apply _| |intros _; apply IH].
    apply keeps_for_each; [apply _|]. intros ext. apply preserves_gets. intros d _.
    case_match; [apply stays_group_user_save|apply keeps_ret, _].
Qed.

Lemma sound_import draws o data d :
  Inj (=) (=) (new_member_id draws) → orderly (roster d) → unused draws 0 (roster d) →
  (∀ n, groups d !! new_group_id draws n = None) → grants_sound d → grants_sound (ldap_import draws o data d).2.
Proof.
  intros Hi Ho Hu Hg Hd. set (G := id_group (ids_of o d)).
  assert (HG : ∀ n, G (new_group_id draws n) = o) by (intros n; unfold G; simpl; by rewrite Hg).
  assert (HK : KeptIn G d) by (exists (ids_of o d); split; [done|by apply kept_ids]).
  pose proof (keptin_import_members G draws o (OrgImportData.members data) 0 d Hi Ho Hu HK) as HK1.
  unfold ldap_import, mbind at 1, M_bind at 1. destruct (import_members _ _ _ _ d) as [[[]|e] d1]; simpl in HK1;
    destruct HK1 as (I & HI & HK1); [|exact (kp_sound I _ HK1)].
  match goal with |- grants_sound (?p d1).2 => enough (Hs : keeps (preserves (Kept I)) p) by by apply (kp_sound I), Hs end.
  apply keeps_bind; [apply _|apply keeps_when; [apply _|apply stays_import_groups; by rewrite HI]|intros _].
  apply keeps_when; [apply _|]. apply stays_loop; [by intros d2 m [Hm _]%elem_of_where|].
  intros m Hm. unfold overwrite_one. go.
Qed.
End new_members.

(** ** Requests *)

Section requests.
Context `{E : Env} `{K : Codecs} `{J : PolicyJson} `{C : Crypto} `{L : LoginTokens} `{S : SessionTokens}.
Context `{A : AccountTokens} `{OI : OrgInviteTokens} `{V : InviteTokens}.

Lemma sound_stays {X} (m : M DB X) d : (∀ I, keeps (preserves (Kept I)) m) → grants_sound d → grants_sound (m d).2.
Proof. intros Hm Hd. exact (kp_sound _ _ (Hm (ids_of "" d) d (kept_ids "" d Hd))). Qed.
Lemma sound_guard {H X} (g : M DB H) (f : H → M DB X) d :
  keeps (same_on control_tables) g → grants_sound d →
  (∀ h d', g d = (Ok h, d') → control_tables d' = control_tables d → grants_sound d' → grants_sound (f h d').2) →
  grants_sound ((g ≫= f) d).2.
Proof.
  intros Hg Hd Hf. pose proof (sound_stays g d (λ I, stays_same I g Hg) Hd) as Hd'. specialize (Hg d).
  unfold mbind, M_bind. destruct (g d) as [[h|e] d']; simpl in *; [by apply Hf|done].
Qed.
Lemma same_owner_guard req : keeps (same_on control_tables) (OwnerHeaders_from_request req).
Proof. pose proof (org_guard_tables req). unfold OwnerHeaders_from_request, err_handler. db_keeps; done. Qed.
Lemma same_public_guard req : keeps (same_on control_tables) (PublicToken_from_request req).
Proof. unfold PublicToken_from_request, some_or_401, err_handler, expect, panic. db_keeps; done. Qed.

(** *** Accounts *)

Lemma stays_registered_user I seed email token v pending : keeps (preserves (Kept I)) (registered_user seed email token v pending).
Proof.
  unfold registered_user. apply preserves_gets. intros d _. case_match; [|go]. apply keeps_if; [go|].
  case_match; [go|]. apply keeps_bind; [apply _|go|intros b]. apply keeps_if; go.
Qed.
Lemma stays_register I draws data v : keeps (preserves (Kept I)) (register draws data v).
Proof.
  pose proof (stays_registered_user I). unfold register. apply keeps_if; [unfold err_code; go|].
  apply keeps_bind; [apply _| |intros [[name ev] pending]].
  { destruct v; [|go]. apply stays_same. unfold check_registration_tokens. by db_keeps. }
  apply keeps_if; [go|]. apply keeps_bind; [apply _|go|intros _]. apply keeps_bind; [apply _|auto|intros [user ev']].
  apply keeps_bind; [apply _|go|intros _]. apply keeps_bind; [apply _|go|intros u1]. apply keeps_bind; [apply _|go|intros u2].
  apply keeps_bind; [apply _| |intros _]; [|go].
  apply stays_same. unfold activate_email_2fa, TwoFactor_save. by db_keeps.
Qed.
Lemma stays_post_set_password I draws mdraws data h : keeps (preserves (Kept I)) (post_set_password draws mdraws data h).
Proof.
  pose proof (stays_set_password_accepts I). unfold post_set_password. apply keeps_if; [go|].
  apply keeps_bind; [apply _|go|intros _]. apply keeps_bind; [apply _|go|intros u1]. apply keeps_bind; [apply _|go|intros u2].
  apply keeps_bind; [apply _|auto|intros _]. go.
Qed.

(** *** Administrators of an organization *)

Lemma sound_admin_act o act h d :
  match act with Invite draws _ => Inj (=) (=) (new_member_id draws) ∧ unused draws 0 (roster d) | _ => True end →
  grants_sound d → grants_sound (admin_act o act h d).2.
Proof.
  intros Hf Hd.
  assert (Hb : ∀ {X} I (l : list X) (f : X → M DB ()), (∀ a, keeps (preserves (Kept I)) (f a)) →
    keeps (preserves (Kept I)) (done_ (check_org o (AdminHeaders.org_id h) ;; bulk l f))).
  { intros X I l f Hl. apply keeps_bind; [apply _| |intros; go]. apply stays_check_org. intros _. by apply stays_bulk. }
  destruct act; simpl; [|apply sound_stays; [intros I|done]..].
  - destruct Hf as [Hi Hu]. destruct (keptin_invite (id_group (ids_of "" d)) draws o data h d Hi (gs_members _ Hd) Hu) as (I & _ & HI).
    { exists (ids_of "" d). split; [done|by apply kept_ids]. }
    exact (kp_sound _ _ HI).
  - apply stays_check_org. intros _. apply stays_reinvite.
  - apply Hb. intros a. apply stays_reinvite.
  - unfold confirm_invite. apply stays_confirm.
  - apply keeps_bind; [apply _|apply stays_bulk_confirm|intros; go].
  - apply stays_edit.
  - apply stays_remove.
  - apply Hb. intros a. apply stays_remove.
  - apply stays_revoke.
  - apply Hb. intros a. apply stays_revoke.
  - apply stays_restore.
  - apply Hb. intros a. apply stays_restore.
  - apply keeps_bind; [apply _|apply stays_put_policy|intros; go].
Qed.

(** Besides memberships, the drawn ids of collections and groups are new. *)
Definition fresh_event (ev : Event) (d : DB) : Prop :=
  fresh_draws ev d ∧
  match ev with
  | CreateOrganization _ _ _ collection_uuid _ => collections d !! collection_uuid = None
  | Import _ draws _ => ∀ n, groups d !! new_group_id draws n = None
  | _ => True
  end.

Lemma sound_own_membership {X} req (f : OrgMemberHeaders.t → M DB X) d :
  (∀ I h, known I (OrgMemberHeaders.membership h) → keeps (preserves (Kept I)) (f h)) → grants_sound d →
  grants_sound ((OrgMemberHeaders_from_request req ≫= f) d).2.
Proof.
  intros Hf Hd. apply sound_guard; [apply member_guard_tables|done|].
  intros h d' (-> & _ & _ & Hin & _)%member_guard_Ok _ _. pose proof (kept_ids "" d Hd) as Hk.
  apply (kp_sound (ids_of "" d)). apply Hf; [by eapply known_row|done].
Qed.

Lemma perform_sound ev d : grants_sound d → fresh_event ev d → grants_sound (perform ev d).2.
Proof.
  intros Hd [Hf Hf2]. destruct ev; simpl in Hf, Hf2 |- *;
    try (apply sound_guard; [apply guard_tables|exact Hd|]; intros h d' _ Ht Hd').
  - apply sound_guard; [apply admin_guard_tables|done|]. intros h d' (-> & _)%admin_guard_Ok _ _.
    apply sound_admin_act; [by destruct act|done].
  - apply sound_guard; [apply same_owner_guard|done|]. intros h d' _ _ Hd'. apply sound_stays; [|done].
    intros I. unfold delete_organization. go.
  - destruct (negb _); [done|]. apply sound_own_membership; [|done]. intros I h. apply stays_leave.
  - apply sound_own_membership; [|done]. intros I h. apply stays_enroll.
  - unfold done_. rewrite snd_bind_ret. unfold control_tables in Ht. injection Ht as E1 E2 _ _ _ _.
    destruct Hf as [Hm _]. apply sound_create; [by rewrite E1|by rewrite E2|done].
  - apply sound_stays; [|done]. intros I. apply stays_accept.
  - apply sound_stays; [|done]. intros I. apply stays_post_set_password.
  - apply sound_stays; [|done]. intros I. apply stays_disable_2fa.
  - apply sound_stays; [|done]. intros I. unfold delete_account. go.
  - apply sound_stays; [|done]. intros I. unfold post_delete_recover_token. case_match; go.
  - apply sound_stays; [|done]. intros I. apply stays_takeover.
  - apply sound_stays; [|done]. intros I. apply stays_register.
  - destruct Hf as [Hi Hu]. apply sound_guard; [apply same_public_guard|done|]. intros o d' _ Ht Hd'.
    unfold control_tables in Ht. injection Ht as E1 _ _ _ E5 _.
    apply sound_import; [done|by apply gs_members|by rewrite E1|by rewrite E5|done].
  - apply sound_stays; [|done]. intros I. apply stays_rotate.
  - apply sound_stays; [|done]. intros I. apply stays_2fa.
  - apply sound_stays; [|done]. intros I. apply stays_assign.
  - apply sound_stays; [|done]. intros I. apply stays_remove_2fa.
  - apply sound_stays; [|done]. intros I. unfold delete_user, get_user_or_404, err_code. go.
  - apply sound_stays; [|done]. intros I. unfold admin_delete_organization. go.
Qed.
End requests.

(** ** Histories *)

Inductive GrantRequest :=
(** A request on collections or groups, or an import into an organization. *)
| OnGrants (req : Request.t) (r : ControlRequest)
(** A request on members, organizations or accounts. *)
| OnMembers (ev : Event).

Section histories.
Context `{K : Codecs} `{C : Crypto} `{V : VaultConfig} `{JT : JsonText} `{J : PolicyJson}.
Context `{ST : SessionTokens} `{F : FileStore} `{TF : Jwt FileDownloadClaims.t} `{LT : LoginTokens}.
Context `{A : AccountTokens} `{OI : OrgInviteTokens} `{IT : InviteTokens}.

Definition serve `{E : Env} (x : GrantRequest) : M DB () :=
  match x with OnGrants req r => control req r | OnMembers ev => perform ev end.
Definition fresh (x : GrantRequest) (d : DB) : Prop :=
  match x with OnGrants _ r => fresh_ids d r | OnMembers ev => fresh_event ev d end.

(** Requests one after another, each at its own time and settings. *)
Fixpoint served (l : list (Env * GrantRequest)) (d : DB) : DB :=
  match l with [] => d | (E, x) :: l => served l (serve (E := E) x d).2 end.
(** Every request draws identifiers that are not in use when it is made. *)
Fixpoint fresh_along (l : list (Env * GrantRequest)) (d : DB) : Prop :=
  match l with [] => True | (E, x) :: l => fresh x d ∧ fresh_along l (serve (E := E) x d).2 end.

Lemma served_sound l d : grants_sound d → fresh_along l d → grants_sound (served l d).
Proof.
  revert d. induction l as [|[E x] l IH]; intros d Hd Hf; simpl in *; [done|]. destruct Hf as [Hx Hf].
  apply IH; [|done]. destruct x as [req r|ev]; [by apply control_sound|by apply perform_sound].
Qed.

(** C9. Grants stay where they belong. In every history of requests on
    collections and groups, of imports, and of the requests of administrators,
    members, directories and the server's administrator that invite, confirm,
    change, revoke or remove members or found or delete organizations and
    accounts, on every path of their guards and handlers: a grant of a
    collection to a group is one to a stored group of the organization of the
    collection, and a grant to an account is one to a member of that
    organization, so that whoever is removed has lost the grants. Listing the
    members of a collection, which unwraps the membership of every holder,
    therefore answers with all of them. The ids that requests draw for new
    rows are assumed to be new. *)
Theorem grants_stay_sound (l : list (Env * GrantRequest)) (d : DB) (E : Env) (o k : string) (h : ManagerHeaders.t) (x : Collection.t) :
  grants_sound d → fresh_along l d →
  let d' := served l d in
  grants_sound d'
  ∧ (ManagerHeaders.org_id h = o → Collection_find_by_uuid_and_org k o d' = Some x →
     ∃ js, get_collection_users o k h d' = (Ok js, d') ∧ length js = length (CollectionUser_find_by_collection k d')).
Proof.
  intros Hd Hf d'. pose proof (served_sound l d Hd Hf : grants_sound d') as Hd'. split; [done|]. intros Ho Hx.
  unfold get_collection_users, check_org. rewrite Ho, bool_decide_true by done. simpl. rewrite run_ret, run_gets, Hx. unfold some_or.
  rewrite run_ret, run_gets. apply found_collection in Hx as (Hx & <- & Hxo); [|apply Hd'].
  apply (listing_total d'). intros r [(kk & Hr)%elem_of_rows Hp]%elem_of_where. bools.
  pose proof (ck_users _ (gs_keyed _ Hd') _ _ Hr) as Hkey. simpl in Hkey. subst kk.
  destruct (gs_holders _ Hd' _ _ _ Hr) as (col & m & Hc & Hm & Hv & Horg). exists m. split_and!; [done..|congruence].
Qed.
End histories.

(** ** Erin changes a collection, Alice removes Bob *)

Module SampleGrants.
Import SampleControl.
#[export] Instance both : LoginTokens := {|
  decode_login s := if s == "erin-jwt" then Ok (SampleRoster.claims "erin" "tablet")
                    else if s == "alice-jwt" then Ok (SampleRoster.claims "alice" "desk") else Err (MkError 400 "refused");
  is_uuid _ := true |}.
#[export] Existing Instances SampleControl.config SampleControl.crypto SampleRoster.account_tokens SampleRoster.invites
  SampleRoster.contacts SampleRoster.policies Sample.env SampleCodecs.codecs SampleJson.sample_json SampleFiles.files SampleFiles.sessions
  SampleFiles.jwt SampleFiles.FileDownloadClaims_countable.
Definition db : DB := set_devices <[("desk", "alice") := Device.mk "desk" 0 0 "alice" "Desk" 0 None None "t2" None]> SampleControl.db.
Definition requests : list (Env * GrantRequest) :=
  [(Sample.env, OnGrants (req "ops") (OnCollection "acme" "ops" (UpdateCollection data)));
   (Sample.env, OnMembers (AsAdmin (SampleRoster.as_ "alice-jwt") "acme" (Remove "m-bob")))].
Lemma db_sound : grants_sound db.
Proof. eapply so_sound, (sound_tables (users_organizations db) ""%string (λ _, False) (λ _, False) SampleControl.db); [done|]. by constructor; [apply sample_sound|..]. Qed.
End SampleGrants.
Import SampleGrants.

(** Bob had a grant on [ops]; Erin is the only one left. *)
Lemma grants_stay_sound_witness :
  is_Some (users_collections (served (take 1 requests) db) !! ("bob", "ops")%string)
  ∧ ∃ js, get_collection_users "acme" "ops" erin (served requests db) = (Ok js, served requests db) ∧ length js = 1%nat.
Proof.
  split; [by eexists; vm_compute|].
  destruct (grants_stay_sound requests db Sample.env "acme" "ops" erin (Collection.mk "ops" "acme" "Operations" None)) as [_ Hlist].
  - apply db_sound.
  - by vm_compute.
  - destruct Hlist as (js & Hjs & Hlen); [done|by vm_compute|]. exists js. split; [exact Hjs|]. rewrite Hlen. by vm_compute.
Defined.
