(* ===== verification/Contracts.v ===== *)
(** Emergency access: the contract between grantor and grantee.

    [moves] is the contract as a state machine over one row: who may do what,
    in which state, and at which time. The theorems show that the handlers and
    jobs of [Emergency] refine it, and what follows for every history. *)
From S2P Require Import Prelude Schema Roles Users Invariants Samples TwoFactors OneTimeCodes Sends EmergencyRows Memberships Groups Collections VaultItems Ciphers Policies Organizations Emergency.
Local Open Scope Z_scope.

Notation EA := EmergencyAccess.t.
Notation contracts := emergency_access.
Notation status_of s := (EmergencyAccessStatus_as_i32 s).

(** What a handler leaves in the table of contracts. *)
Notation after := (leaves contracts) (only parsing).
Notation same_contracts := (same_on contracts).

(** ** The contract as a state machine *)

Inductive Request :=
| GetContacts | GetGrantees | GetOne (emer_id : string)
| Update (emer_id : string) (data : EmergencyAccessUpdateData.t)
| Delete (emer_id : string)
| Invite (new_id : string) (seed : Seed) (data : EmergencyAccessInviteData.t)
| Reinvite (emer_id : string)
| Accept (emer_id token : string)
| Confirm (emer_id key : string)
| Initiate (emer_id : string) | Approve (emer_id : string) | Reject (emer_id : string)
| ViewVault (emer_id : string) | TakeOver (emer_id : string)
| SetPassword (stamp : string) (token_for : string → string) (emer_id : string) (data : EmergencyAccessPasswordData.t)
| GetPolicies (emer_id : string).

Inductive Event :=
| By (user : User.t) (r : Request)
| TimeoutJob | ReminderJob
| Registered (user : User.t)
| RotateKeys (user : User.t) (keys : list (string * string))
| AccountDeleted (user : User.t).

Section contract.
Context `{E : Env}.

Notation saved ea := (EmergencyAccess.set_updated_at (λ _, now) ea).
Notation with_status s ea := (EmergencyAccess.set_status (λ _, status_of s) ea).

(** The row of an accepted invitation. *)
Definition accepted (grantee : string) (ea : EA) : EA :=
  saved (EmergencyAccess.set_email (λ _, None)
    (EmergencyAccess.set_grantee_uuid (λ _, Some grantee) (with_status EAccepted ea))).

(** [moves e k o o']: event [e] may take contract [k] from [o] to [o']. *)
Inductive moves (e : Event) (k : string) : option EA → option EA → Prop :=
| mv_same o : moves e k o o
| mv_invited user seed data email atype wait :
    e = By user (Invite k seed data) →
    moves e k None (Some (saved (EmergencyAccess_new k (User.uuid user) email (status_of EInvited) atype wait)))
| mv_invited_accepted user seed data email atype wait grantee :
    e = By user (Invite k seed data) → mail_enabled = false →
    moves e k None
      (Some (accepted grantee (saved (EmergencyAccess_new k (User.uuid user) email (status_of EInvited) atype wait))))
| mv_edited user data ea atype wait key :
    e = By user (Update k data) → EmergencyAccess.grantor_uuid ea = User.uuid user →
    key = EmergencyAccess.key_encrypted ea ∨ is_Some key →
    moves e k (Some ea) (Some (saved (EmergencyAccess.set_key_encrypted (λ _, key)
      (EmergencyAccess.set_wait_time_days (λ _, wait) (EmergencyAccess.set_atype (λ _, atype) ea)))))
| mv_reinvited user ea grantee :
    e = By user (Reinvite k) → EmergencyAccess.grantor_uuid ea = User.uuid user → mail_enabled = false →
    EmergencyAccess.status ea = status_of EInvited →
    moves e k (Some ea) (Some (accepted grantee ea))
| mv_accepted user token ea grantee :
    e = By user (Accept k token) → EmergencyAccess.email ea = Some (User.email user) →
    EmergencyAccess.status ea ≠ status_of EAccepted →
    moves e k (Some ea) (Some (accepted grantee ea))
| mv_confirmed user key ea grantee :
    e = By user (Confirm k key) → EmergencyAccess.grantor_uuid ea = User.uuid user →
    EmergencyAccess.status ea = status_of EAccepted → EmergencyAccess.grantee_uuid ea = Some grantee →
    moves e k (Some ea) (Some (saved (EmergencyAccess.set_email (λ _, None)
      (EmergencyAccess.set_key_encrypted (λ _, Some key) (with_status EConfirmed ea)))))
| mv_initiated user ea :
    e = By user (Initiate k) → EmergencyAccess.grantee_uuid ea = Some (User.uuid user) →
    EmergencyAccess.status ea = status_of EConfirmed →
    moves e k (Some ea) (Some (saved (EmergencyAccess.set_last_notification_at (λ _, Some now)
      (EmergencyAccess.set_recovery_initiated_at (λ _, Some now)
        (saved (with_status ERecoveryInitiated ea))))))
| mv_approved user ea :
    e = By user (Approve k) → EmergencyAccess.grantor_uuid ea = User.uuid user →
    EmergencyAccess.status ea = status_of ERecoveryInitiated →
    moves e k (Some ea) (Some (saved (with_status ERecoveryApproved ea)))
| mv_rejected user ea :
    e = By user (Reject k) → EmergencyAccess.grantor_uuid ea = User.uuid user →
    EmergencyAccess.status ea = status_of ERecoveryInitiated ∨ EmergencyAccess.status ea = status_of ERecoveryApproved →
    moves e k (Some ea) (Some (saved (with_status EConfirmed ea)))
| mv_deleted user ea :
    e = By user (Delete k) →
    EmergencyAccess.grantor_uuid ea = User.uuid user ∨ EmergencyAccess.grantee_uuid ea = Some (User.uuid user) →
    moves e k (Some ea) None
(** An invitation to an account that no longer exists goes away when listed. *)
| mv_stale user ea :
    e = By user GetContacts ∨ (∃ id, e = By user (GetOne id)) → EmergencyAccess.status ea = status_of EInvited →
    moves e k (Some ea) None
| mv_timed_out ea t :
    e = TimeoutJob → EmergencyAccess.status ea = status_of ERecoveryInitiated →
    EmergencyAccess.recovery_initiated_at ea = Some t → t + EmergencyAccess.wait_time_days ea * DAY ≤ now →
    moves e k (Some ea) (Some (with_status ERecoveryApproved (saved ea)))
| mv_reminded ea :
    e = ReminderJob → EmergencyAccess.status ea = status_of ERecoveryInitiated →
    moves e k (Some ea) (Some (EmergencyAccess.set_last_notification_at (λ _, Some now) (saved ea)))
| mv_registered user ea :
    e = Registered user → mail_enabled = false → EmergencyAccess.email ea = Some (User.email user) →
    EmergencyAccess.status ea = status_of EInvited →
    moves e k (Some ea) (Some (accepted (User.uuid user) ea))
| mv_rotated user keys ea key :
    e = RotateKeys user keys → EmergencyAccess.grantor_uuid ea = User.uuid user →
    status_of EConfirmed ≤ EmergencyAccess.status ea →
    moves e k (Some ea) (Some (saved (EmergencyAccess.set_key_encrypted (λ _, Some key) ea)))
| mv_account_deleted user ea :
    e = AccountDeleted user → moves e k (Some ea) None.

(** Every contract of [d] moves to its state in [T]. *)
Definition all_move (e : Event) (d : DB) (T : gmap string EA) : Prop :=
  ∀ k, moves e k (contracts d !! k) (T !! k).

Lemma all_move_insert e d d' k ea o :
  contracts d' = contracts d → contracts d !! k = o → moves e k o (Some ea) → all_move e d (<[k := ea]> (contracts d')).
Proof.
  intros -> Hk Hm k'. destruct (decide (k' = k)) as [->|Hne].
  - by rewrite lookup_insert_eq, Hk.
  - rewrite lookup_insert_ne by done. apply mv_same.
Qed.

Lemma all_move_same e d d' : contracts d' = contracts d → all_move e d (contracts d').
Proof. intros -> k. apply mv_same. Qed.
End contract.
#[export] Hint Resolve all_move_same : vault.

(** Walks down a handler to the statement that writes the contract. *)
Ltac walk :=
  repeat first
    [ apply leaves_gets
    | apply leaves_some_or; [by apply all_move_same|intros ?? ]
    | apply leaves_if; intros ?; [by apply all_move_same|]
    | match goal with |- leaves _ (match ?o with Some _ => _ | None => _ end) _ _ => destruct o eqn:?; [|by apply all_move_same] end ].

Section effects.
Context `{E : Env}.

(** Contracts are stored under their id. *)
Definition keyed (d : DB) : Prop := map_Forall (λ k r, EmergencyAccess.uuid r = k) (contracts d).

(** The rows that the lookups find. *)
Lemma find_by_uuid_Some (p : EA → bool) k d ea :
  keyed d → first (where_ (λ r, (EmergencyAccess.uuid r == k) && p r) (rows (contracts d))) = Some ea →
  contracts d !! k = Some ea ∧ EmergencyAccess.uuid ea = k ∧ p ea = true.
Proof.
  intros Hwf [[k' Hk]%elem_of_rows Hp]%head_Some_elem%elem_of_where.
  apply andb_true_iff in Hp as [Hu%bool_decide_eq_true Hp]. pose proof (Hwf _ _ Hk) as Hk'.
  simpl in Hk'. simplify_eq. done.
Qed.

Lemma after_enabled {A} (Q : gmap string EA → Prop) (m : () → M DB A) d :
  Q (contracts d) → after (m ()) Q d → after (check_emergency_access_enabled ≫= m) Q d.
Proof. intros HQ Hm. unfold check_emergency_access_enabled. by destruct emergency_access_allowed. Qed.

(** The state after a successful save, as the code writes it. *)
Notation saved ea := (EmergencyAccess.set_updated_at (λ _, now) ea).

Lemma save_after ea (Q : gmap string EA → Prop) d :
  Q (contracts d) → Q (<[EmergencyAccess.uuid ea := saved ea]> (contracts d)) →
  after (EmergencyAccess_save ea) Q d.
Proof.
  intros H1 H2. unfold leaves, EmergencyAccess_save, mbind, M_bind, User_update_uuid_revision, modify, save_row. simpl.
  by destruct (_ && _).
Qed.

Lemma keeps_mail (b : bool) template address (ea : EA) :
  keeps same_contracts (when b (lift (send_mail template address)) ;; mret ea).
Proof. db_keeps. Qed.

(** The common shape: look the contract up, check, write it, send a mail. *)
Ltac start := apply after_enabled; [by apply all_move_same|]; walk.
Ltac found H Hwf :=
  let Hk := fresh "Hk" in let Hu := fresh "Hu" in let Hg := fresh "Hg" in
  destruct (find_by_uuid_Some _ _ _ _ Hwf H) as (Hk & Hu & Hg); bools.
Ltac write_row :=
  apply save_after; [by apply all_move_same|]; cbn [EmergencyAccess.uuid];
  match goal with H : EmergencyAccess.uuid ?a = ?k |- context [<[?u := _]> _] => change u with (EmergencyAccess.uuid a); rewrite H end;
  eapply all_move_insert; [done..|].

Lemma approve_moves d user emer_id :
  keyed d → after (approve_emergency_access emer_id user) (all_move (By user (Approve emer_id)) d) d.
Proof.
  intros Hwf. unfold approve_emergency_access. start. found H Hwf.
  apply leaves_tail; [intros; apply keeps_mail|]. write_row. by eapply mv_approved.
Qed.

Lemma reject_moves d user emer_id :
  keyed d → after (reject_emergency_access emer_id user) (all_move (By user (Reject emer_id)) d) d.
Proof.
  intros Hwf. unfold reject_emergency_access. start. found H Hwf.
  apply leaves_tail; [intros; apply keeps_mail|]. write_row. eapply mv_rejected; [done..|].
  destruct H0; bools; auto.
Qed.

Lemma initiate_moves d user emer_id :
  keyed d → after (initiate_emergency_access emer_id user) (all_move (By user (Initiate emer_id)) d) d.
Proof.
  intros Hwf. unfold initiate_emergency_access. start. found H Hwf.
  apply leaves_tail; [intros; apply keeps_mail|]. write_row. by eapply mv_initiated.
Qed.

Lemma confirm_moves d user emer_id key :
  keyed d → after (confirm_emergency_access emer_id key user) (all_move (By user (Confirm emer_id key)) d) d.
Proof.
  intros Hwf. unfold confirm_emergency_access. start. found H Hwf.
  apply leaves_tail; [intros; apply keeps_mail|]. write_row. by eapply mv_confirmed.
Qed.

Lemma update_moves d user emer_id data :
  keyed d → after (post_emergency_access emer_id data user) (all_move (By user (Update emer_id data)) d) d.
Proof.
  intros Hwf. unfold post_emergency_access. start. found H Hwf.
  destruct (EmergencyAccessUpdateData.key_encrypted data) as [key|]; write_row.
  - by eapply (mv_edited _ _ user _ _ _ _ (Some key)); [..|right].
  - exact (mv_edited _ _ user data a (EmergencyAccessType_as_i32 a0) (EmergencyAccessUpdateData.wait_time_days data)
      (EmergencyAccess.key_encrypted a) eq_refl Hg (or_introl eq_refl)).
Qed.

Lemma delete_moves d user emer_id :
  keyed d → after (delete_emergency_access emer_id user) (all_move (By user (Delete emer_id)) d) d.
Proof.
  intros Hwf. unfold delete_emergency_access. start.
  assert (Hdel : ∀ ea, contracts d !! emer_id = Some ea → EmergencyAccess.uuid ea = emer_id →
    EmergencyAccess.grantor_uuid ea = User.uuid user ∨ EmergencyAccess.grantee_uuid ea = Some (User.uuid user) →
    after (EmergencyAccess_delete ea) (all_move (By user (Delete emer_id)) d) d).
  { intros ea Hk Hu Hg k. simpl. destruct (delete_where _ (contracts d) !! k) as [r|] eqn:Hr.
    - apply lookup_delete_where in Hr as [-> _]. apply mv_same.
    - destruct (contracts d !! k) as [r|] eqn:Hk'; [|apply mv_same].
      destruct (decide (k = emer_id)) as [->|Hne]; [|exfalso].
      + simplify_eq. eapply mv_deleted; [done|]. naive_solver.
      + apply (not_elem_of_dom (D := gset string)) in Hr. apply Hr. apply elem_of_dom. exists r.
        apply lookup_delete_where. split; [done|]. apply bool_decide_false. by rewrite (Hwf _ _ Hk'), Hu. }
  destruct (EmergencyAccess_find_by_uuid_and_grantor_uuid _ _ d) as [ea|] eqn:H1,
    (EmergencyAccess_find_by_uuid_and_grantee_uuid _ _ d) as [ea'|] eqn:H2;
    try (by apply all_move_same).
  - found H1 Hwf. apply Hdel; auto.
  - found H2 Hwf. apply Hdel; auto.
Qed.

(** Accepting an invitation. *)
Lemma accept_after d grantee email ea (Q : gmap string EA → Prop) :
  Q (contracts d) →
  (EmergencyAccess.email ea = Some email → EmergencyAccess.status ea ≠ status_of EAccepted →
   Q (<[EmergencyAccess.uuid ea := accepted grantee ea]> (contracts d))) →
  after (EmergencyAccess_accept_invite grantee email ea) Q d.
Proof.
  intros HQ Hacc. unfold EmergencyAccess_accept_invite.
  apply leaves_if; intros H1; [done|]. apply leaves_if; intros H2; [done|]. bools.
  apply save_after; [done|]. by apply Hacc.
Qed.

Lemma reinvite_moves d user emer_id :
  keyed d → after (resend_invite emer_id user) (all_move (By user (Reinvite emer_id)) d) d.
Proof.
  intros Hwf. unfold resend_invite. start. found H Hwf.
  apply leaves_if; intros H4.
  - apply leaves_tail; [intros; apply keeps_ret, _|]. apply accept_after; [by apply all_move_same|]. intros _ _.
    rewrite Hu. eapply all_move_insert; [done..|]. by eapply mv_reinvited.
  - apply leaves_keeps; [|by apply all_move_same]. unfold Invitation_save. db_keeps; done.
Qed.

Lemma accept_moves `{InviteTokens} d user emer_id token :
  keyed d → after (accept_invite emer_id token user) (all_move (By user (Accept emer_id token)) d) d.
Proof.
  intros Hwf. unfold accept_invite. apply after_enabled; [by apply all_move_same|].
  apply leaves_skip; [apply keeps_lift, _|by apply all_move_same|]. intros claims d1 Hd1 _.
  apply leaves_if; intros Hc; [by apply all_move_same|]. apply leaves_gets.
  apply leaves_skip; [|by apply all_move_same|].
  { unfold Invitation_take, Invitation_delete. db_keeps; done. }
  intros g d2 Hd2 _. assert (Hd : contracts d2 = contracts d) by congruence.
  assert (Hwf2 : keyed d2) by (unfold keyed; by rewrite Hd). clear Hc Hd2 Hd1.
  apply leaves_gets. apply leaves_some_or; [by apply all_move_same|]. intros ea Hea. found Hea Hwf2.
  apply leaves_gets. apply leaves_some_or; [by apply all_move_same|]. intros grantor _.
  apply leaves_if; intros _; [|by apply all_move_same].
  apply leaves_tail; [intros; db_keeps|]. apply accept_after; [by apply all_move_same|]. intros _ Hst.
  rewrite Hu. eapply all_move_insert; [done|by rewrite <- Hd|]. by eapply mv_accepted.
Qed.

Lemma save_bind_after {A} ea (f : EA → M DB A) (Q : gmap string EA → Prop) d :
  Q (contracts d) →
  (∀ d', contracts d' = <[EmergencyAccess.uuid ea := saved ea]> (contracts d) → after (f (saved ea)) Q d') →
  after (EmergencyAccess_save ea ≫= f) Q d.
Proof.
  intros H1 H2. unfold leaves, EmergencyAccess_save, User_update_uuid_revision.
  unfold mbind, M_bind, modify, save_row. simpl. destruct (_ && _); [|done]. by apply H2.
Qed.

Lemma invite_moves d user new_id seed data :
  contracts d !! new_id = None →
  after (send_invite new_id seed data user) (all_move (By user (Invite new_id seed data)) d) d.
Proof.
  intros Hfresh. unfold send_invite. start.
  apply leaves_skip; [|by apply all_move_same|].
  { unfold Invitation_save, User_save. db_keeps; done. }
  intros [grantee is_new] d1 Hd1 _. walk.
  apply save_bind_after; [by apply all_move_same|]. simpl. intros d2 Hd2.
  assert (Hinv : all_move (By user (Invite new_id seed data)) d (contracts d2)).
  { rewrite Hd2. eapply all_move_insert; [done..|]. by eapply mv_invited. }
  apply leaves_if; intros Hmail; [by apply leaves_keeps; [db_keeps|]|].
  destruct is_new; simpl; [done|]. apply leaves_tail; [intros; apply keeps_ret, _|].
  apply accept_after; [done|]. intros _ _. rewrite Hd2. simpl. rewrite insert_insert_eq.
  eapply all_move_insert; [done..|]. by eapply mv_invited_accepted.
Qed.

(** *** Listing *)

(** Only invitations of [d0] are missing in [d]. *)
Definition only_invitations_gone (d0 d : DB) : Prop :=
  contracts d ⊆ contracts d0
  ∧ ∀ k ea, contracts d0 !! k = Some ea → contracts d !! k = None → EmergencyAccess.status ea = status_of EInvited.

Lemma invitations_gone_refl d : only_invitations_gone d d.
Proof. split; [done|]. intros k ea -> [=]. Qed.

Lemma delete_invited d0 ea :
  keyed d0 → ea ∈ rows (contracts d0) → EmergencyAccess.status ea = status_of EInvited →
  keeps (preserves (only_invitations_gone d0)) (EmergencyAccess_delete ea).
Proof.
  intros Hwf [k0 Hk0]%elem_of_rows Hst. unfold EmergencyAccess_delete, User_update_uuid_revision. db_keeps.
  { repeat intro. done. }
  intros [Hsub Hgone]. split; simpl; [etrans; [apply delete_where_subseteq|done]|]. intros k r Hr Hno.
  destruct (contracts s !! k) as [r'|] eqn:Hk; [|by eapply Hgone].
  assert (r' = r) as -> by (eapply lookup_weaken in Hk; [|done]; congruence).
  destruct (decide (EmergencyAccess.uuid r = EmergencyAccess.uuid ea)) as [He|Hne].
  - pose proof (Hwf _ _ Hr). pose proof (Hwf _ _ Hk0). simpl in *. congruence.
  - exfalso. assert (Hs : delete_where (λ r, EmergencyAccess.uuid r == EmergencyAccess.uuid ea) (contracts s) !! k = Some r).
    { apply lookup_delete_where. split; [done|]. by apply bool_decide_false. }
    congruence.
Qed.

Lemma grantee_details_stale d0 ea :
  keyed d0 → keeps (preserves (only_invitations_gone d0)) (EmergencyAccess_to_json_grantee_details ea).
Proof.
  intros Hwf. unfold EmergencyAccess_to_json_grantee_details, expect, panic. db_keeps.
  unfold EmergencyAccess_delete_all_by_grantee_email. intros d Hd. rewrite run_gets.
  apply (keeps_for_each_elem (preserves (only_invitations_gone d0))); [|done].
  intros r [Hr Hp]%elem_of_where. bools. apply delete_invited; [done| |done].
  eapply rows_subseteq; [apply Hd|done].
Qed.

Lemma stale_moves e d T :
  (∃ user, e = By user GetContacts ∨ ∃ id, e = By user (GetOne id)) →
  only_invitations_gone d T → all_move e d (contracts T).
Proof.
  intros [user He] [Hsub Hgone] k. destruct (contracts T !! k) as [r|] eqn:Hr.
  - rewrite (lookup_weaken _ _ _ _ Hr Hsub). apply mv_same.
  - destruct (contracts d !! k) as [ea|] eqn:Hk; [|apply mv_same]. by eapply mv_stale, Hgone.
Qed.

Lemma get_contacts_moves d user : keyed d → after (get_contacts user) (all_move (By user GetContacts) d) d.
Proof.
  intros Hwf. apply stale_moves; [eauto|]. assert (Hk : keeps (preserves (only_invitations_gone d)) (get_contacts user)).
  { unfold get_contacts. apply keeps_bind; [apply _|db_keeps|]. intros l.
    induction l as [|ea l IH]; simpl; [apply keeps_ret, _|].
    apply keeps_bind; [apply _|by apply grantee_details_stale|]. intros o.
    apply keeps_bind; [apply _|exact IH|]. intros; apply keeps_ret, _. }
  apply Hk, invitations_gone_refl.
Qed.

Lemma get_one_moves d user emer_id :
  keyed d → after (get_emergency_access emer_id user) (all_move (By user (GetOne emer_id)) d) d.
Proof.
  intros Hwf. apply stale_moves; [eauto|].
  assert (Hk : keeps (preserves (only_invitations_gone d)) (get_emergency_access emer_id user)).
  { unfold get_emergency_access, check_emergency_access_enabled, expect, panic. pose proof (grantee_details_stale d) as Hg.
    db_keeps. }
  apply Hk, invitations_gone_refl.
Qed.

(** *** Requests that only read contracts *)

Lemma get_grantees_keeps user : keeps same_contracts (get_grantees user).
Proof.
  unfold get_grantees. apply keeps_bind; [apply _|db_keeps|]. intros l. induction l as [|ea l IH]; simpl; [db_keeps|].
  apply keeps_bind; [apply _| |intros u]; [unfold EmergencyAccess_to_json_grantor_details, expect, panic; db_keeps|].
  apply keeps_bind; [apply _|exact IH|]. intros; apply keeps_ret, _.
Qed.

Lemma view_keeps emer_id user : keeps same_contracts (view_emergency_access emer_id user).
Proof. unfold view_emergency_access, check_emergency_access_enabled. db_keeps. Qed.
Lemma takeover_keeps emer_id user : keeps same_contracts (takeover_emergency_access emer_id user).
Proof. unfold takeover_emergency_access, check_emergency_access_enabled. db_keeps. Qed.
Lemma policies_keeps emer_id user : keeps same_contracts (policies_emergency_access emer_id user).
Proof. unfold policies_emergency_access. db_keeps. Qed.

Lemma Membership_delete_same_contracts m : keeps same_contracts (Membership_delete m).
Proof.
  unfold Membership_delete, User_update_uuid_revision, CollectionUser_delete_all_by_user_and_org,
    GroupUser_delete_all_by_member, touch_member, User_update_uuid_revision. db_keeps; done.
Qed.

Lemma password_keeps `{Crypto} stamp token_for emer_id data user :
  keeps same_contracts (password_emergency_access stamp token_for emer_id data user).
Proof.
  pose proof Membership_delete_same_contracts as Hm.
  unfold password_emergency_access, check_emergency_access_enabled, User_set_password, User_reset_security_stamp,
    Device_rotate_refresh_tokens_by_user, Device_save, User_save, TwoFactor_delete_all_by_user.
  db_keeps; first [done|apply Hm].
Qed.

(** *** Jobs *)

(** [job_rel e d0 d]: the contracts of [d0] move to those of [d], by a change
    [f] of the rows that satisfy [p]. *)
Definition job_rel (p : EA → Prop) (f : EA → EA) (d0 d : DB) : Prop :=
  ∀ k, contracts d !! k = contracts d0 !! k
       ∨ ∃ ea, contracts d0 !! k = Some ea ∧ p ea ∧ contracts d !! k = Some (f ea).

Lemma job_rel_update p f d0 d d' ea :
  keyed d0 → (∀ r, EmergencyAccess.uuid (f r) = EmergencyAccess.uuid r) → (∀ r, f (f r) = f r) →
  ea ∈ rows (contracts d0) → p ea →
  contracts d' = update_where (λ r, EmergencyAccess.uuid r == EmergencyAccess.uuid ea) f (contracts d) →
  job_rel p f d0 d → job_rel p f d0 d'.
Proof.
  intros Hwf Hu Hidem [k0 Hk0]%elem_of_rows Hp Hd Hrel k. rewrite Hd. unfold update_where. rewrite lookup_fmap.
  pose proof (Hwf _ _ Hk0) as Hkey0. simpl in Hkey0.
  assert (Hhit : ∀ r, contracts d0 !! k = Some r → EmergencyAccess.uuid r = EmergencyAccess.uuid ea → r = ea).
  { intros r Hr He. pose proof (Hwf _ _ Hr) as Hkey. simpl in Hkey. congruence. }
  destruct (Hrel k) as [-> | (r & Hr & Hpr & ->)].
  - destruct (contracts d0 !! k) as [r|] eqn:Hr; simpl; [|by left]. case_bool_decide as He; [|by left].
    right. exists ea. rewrite (Hhit r eq_refl He). done.
  - simpl. right. exists r. split_and!; [done..|]. case_bool_decide; [|done]. by rewrite Hidem.
Qed.

Definition elapsed (ea : EA) : Prop :=
  EmergencyAccess.status ea = status_of ERecoveryInitiated
  ∧ ∃ t, EmergencyAccess.recovery_initiated_at ea = Some t ∧ t + EmergencyAccess.wait_time_days ea * DAY ≤ now.
Definition initiated (ea : EA) : Prop := EmergencyAccess.status ea = status_of ERecoveryInitiated.

Definition timed_out (ea : EA) : EA :=
  EmergencyAccess.set_status (λ _, status_of ERecoveryApproved) (saved ea).
Definition reminded (ea : EA) : EA := EmergencyAccess.set_last_notification_at (λ _, Some now) (saved ea).

Lemma job_rel_same p f d0 d d' : contracts d' = contracts d → job_rel p f d0 d → job_rel p f d0 d'.
Proof. unfold job_rel. by intros ->. Qed.

Lemma plus_days_Ok `{Chrono} t days d r d' : plus_days t days d = (Ok r, d') → r = t + days * DAY ∧ d' = d.
Proof. unfold plus_days. destruct (_ && _); [|done]. by intros [= <- <-]. Qed.
Lemma plus_days_state `{Chrono} t days d : (plus_days t days d).2 = d.
Proof. unfold plus_days. by destruct (_ && _). Qed.

Lemma job_mails_keep ea : keeps same_contracts (job_accounts ea).
Proof. unfold job_accounts, expect, panic. db_keeps. Qed.
Lemma job_mail_keeps template address : keeps same_contracts (job_mail template address).
Proof. unfold job_mail, panic. db_keeps. Qed.

Lemma job_rel_keeps {A} p f d0 (m : M DB A) :
  keeps same_contracts m → keeps (preserves (job_rel p f d0)) m.
Proof. intros Hm d Hd. eapply job_rel_same; [apply Hm|done]. Qed.

(** What both jobs do with a contract that is due: one UPDATE, then mails. *)
Lemma job_write_rel p f d0 ea (m mails : M DB ()) d :
  keyed d0 → (∀ r, EmergencyAccess.uuid (f r) = EmergencyAccess.uuid r) → (∀ r, f (f r) = f r) →
  ea ∈ rows (contracts d0) → p ea → keeps same_contracts mails →
  (∀ d, contracts (m d).2 = update_where (λ r, EmergencyAccess.uuid r == EmergencyAccess.uuid ea) f (contracts d)) →
  job_rel p f d0 d → job_rel p f d0 ((m ;; mails) d).2.
Proof.
  intros Hwf Hu Hi Hea Hp Hmails Hm Hd.
  assert (K : keeps (preserves (job_rel p f d0)) (m ;; mails)); [|by apply K].
  apply keeps_bind; [apply _| |intros _; by apply job_rel_keeps].
  intros d1 Hd1. by eapply (job_rel_update p f d0 d1 _ ea).
Qed.

(** Adding days either succeeds with the sum or stops the job. *)
Lemma plus_days_job `{Chrono} {A} (I : DB → Prop) t days (f : Z → M DB A) d :
  I d → I (f (t + days * DAY) d).2 → I ((plus_days t days ≫= f) d).2.
Proof.
  intros H1 H2. destruct (plus_days t days d) as [[r|e] d1] eqn:Hp.
  - destruct (plus_days_Ok _ _ _ _ _ Hp) as [-> ->]. by rewrite (run_bind_Ok _ _ _ _ _ Hp).
  - rewrite (run_bind_Err _ _ _ _ _ Hp). pose proof (plus_days_state t days d) as Hs. rewrite Hp in Hs. simpl in *. by subst.
Qed.

Lemma timeout_one_rel `{Chrono} d0 ea :
  keyed d0 → ea ∈ rows (contracts d0) → initiated ea →
  keeps (preserves (job_rel elapsed timed_out d0)) (timeout_one ea).
Proof.
  intros Hwf Hea Hst d Hd. unfold timeout_one.
  destruct (EmergencyAccess.recovery_initiated_at ea) as [t|] eqn:Ht; [|done]. unfold expect. rewrite run_ret.
  apply plus_days_job; [done|]. destruct (_ <=? now) eqn:Hnow; [|done]. apply Z.leb_le in Hnow.
  unfold when at 1. unfold EmergencyAccess_update_access_status_and_save.
  destruct (EmergencyAccess.grantee_uuid ea) as [g|]; [|done].
  apply (job_write_rel _ _ _ ea); try done.
  - split; [done|]. eauto.
  - pose proof (job_mails_keep ea) as Hj. pose proof job_mail_keeps. db_keeps; first [apply Hj|apply H0].
Qed.

Lemma remind_one_rel `{Chrono} d0 ea :
  keyed d0 → ea ∈ rows (contracts d0) → initiated ea →
  keeps (preserves (job_rel initiated reminded d0)) (remind_one ea).
Proof.
  intros Hwf Hea Hst d Hd. unfold remind_one.
  destruct (EmergencyAccess.recovery_initiated_at ea) as [t|]; [|done]. unfold expect. rewrite run_ret.
  apply plus_days_job; [done|].
  assert (Hrest : ∀ next, job_rel initiated reminded d0
    (when ((t + wrap_i32 (EmergencyAccess.wait_time_days ea - 1) * DAY <=? now) && (next <=? now))
      (EmergencyAccess_update_last_notification_date_and_save now ea ;;
       when mail_enabled ('(grantor_user, _) ← job_accounts ea;
         job_mail "emergency_access_recovery_reminder" (User.email grantor_user))) d).2).
  { intros next. destruct (_ && _); [|done]. apply (job_write_rel _ _ _ ea); try done.
    pose proof (job_mails_keep ea) as Hj. pose proof job_mail_keeps. db_keeps; first [apply Hj|apply H0]. }
  destruct (EmergencyAccess.last_notification_at ea) as [last|]; [|apply Hrest].
  apply plus_days_job; [done|apply Hrest].
Qed.

Lemma recoveries_initiated_elem d ea :
  ea ∈ EmergencyAccess_find_all_recoveries_initiated d → ea ∈ rows (contracts d) ∧ initiated ea.
Proof. intros [Hea Hp]%elem_of_where. bools. done. Qed.

Lemma job_rel_refl p f d : job_rel p f d d.
Proof. intros k. by left. Qed.

Lemma timeout_job_moves `{Chrono} d : keyed d → after emergency_request_timeout_job (all_move TimeoutJob d) d.
Proof.
  intros Hwf. unfold emergency_request_timeout_job. apply leaves_if; intros _; [by apply all_move_same|]. apply leaves_gets.
  intros k. assert (Hrel : job_rel elapsed timed_out d (for_each (EmergencyAccess_find_all_recoveries_initiated d) timeout_one d).2).
  { apply (keeps_for_each_elem (preserves (job_rel elapsed timed_out d))); [|apply job_rel_refl].
    intros ea [Hea Hst]%recoveries_initiated_elem. by apply timeout_one_rel. }
  destruct (Hrel k) as [-> | (ea & -> & [Hst (t & Ht & Hnow)] & ->)]; [apply mv_same|]. by eapply mv_timed_out.
Qed.

Lemma reminder_job_moves `{Chrono} d : keyed d → after emergency_notification_reminder_job (all_move ReminderJob d) d.
Proof.
  intros Hwf. unfold emergency_notification_reminder_job. apply leaves_if; intros _; [by apply all_move_same|]. apply leaves_gets.
  intros k. assert (Hrel : job_rel initiated reminded d (for_each (EmergencyAccess_find_all_recoveries_initiated d) remind_one d).2).
  { apply (keeps_for_each_elem (preserves (job_rel initiated reminded d))); [|apply job_rel_refl].
    intros ea [Hea Hst]%recoveries_initiated_elem. by apply remind_one_rel. }
  destruct (Hrel k) as [-> | (ea & -> & Hst & ->)]; [apply mv_same|]. by eapply mv_reminded.
Qed.

(** *** The account handlers *)

(** Contracts of [d0] were replaced according to [P]. *)
Definition row_rel (P : EA → EA → Prop) (d0 d : DB) : Prop :=
  ∀ k, contracts d !! k = contracts d0 !! k
       ∨ ∃ ea ea', contracts d0 !! k = Some ea ∧ P ea ea' ∧ contracts d !! k = Some ea'.

Lemma row_rel_insert P d0 d ea ea' T :
  keyed d0 → ea ∈ rows (contracts d0) → P ea ea' → row_rel P d0 d →
  T = <[EmergencyAccess.uuid ea := ea']> (contracts d) →
  ∀ k, T !! k = contracts d0 !! k ∨ ∃ ea ea', contracts d0 !! k = Some ea ∧ P ea ea' ∧ T !! k = Some ea'.
Proof.
  intros Hwf [k0 Hk0]%elem_of_rows HP Hrel -> k. rewrite (Hwf _ _ Hk0). destruct (decide (k = k0)) as [->|Hne].
  - right. exists ea, ea'. by rewrite lookup_insert_eq.
  - rewrite lookup_insert_ne by done. apply Hrel.
Qed.

Lemma registered_moves d user : keyed d → after (register_accept_invitations user) (all_move (Registered user) d) d.
Proof.
  intros Hwf. unfold register_accept_invitations, when. apply leaves_if; intros Hon; [|by apply all_move_same]. bools.
  apply leaves_gets. set (P := λ ea ea', EmergencyAccess.email ea = Some (User.email user)
    ∧ EmergencyAccess.status ea = status_of EInvited ∧ ea' = accepted (User.uuid user) ea). intros k.
  match goal with |- moves _ _ _ (contracts ?r !! _) => assert (Hrel : row_rel P d r) end.
  { apply (keeps_for_each_elem (preserves (row_rel P d))); [|by intros k'; left].
    intros ea [Hea Hp]%elem_of_where. bools. apply keeps_ignore. intros d1 Hd1.
    apply (accept_after d1 (User.uuid user) (User.email user) ea (λ T, ∀ k, T !! k = contracts d !! k
      ∨ ∃ ea ea', contracts d !! k = Some ea ∧ P ea ea' ∧ T !! k = Some ea')); [done|].
    intros _ _. by eapply (row_rel_insert P d d1 ea). }
  destruct (Hrel k) as [-> | (ea & ea' & -> & (He & Hst & ->) & ->)]; [apply mv_same|]. by eapply mv_registered.
Qed.

Lemma rotated_moves d user keys : keyed d → after (rotate_emergency_keys keys user) (all_move (RotateKeys user keys) d) d.
Proof.
  intros Hwf. unfold rotate_emergency_keys. apply leaves_gets.
  set (P := λ ea ea', EmergencyAccess.grantor_uuid ea = User.uuid user ∧ status_of EConfirmed ≤ EmergencyAccess.status ea
    ∧ ∃ key, ea' = saved (EmergencyAccess.set_key_encrypted (λ _, Some key) ea)). intros k.
  match goal with |- moves _ _ _ (contracts ?r !! _) => assert (Hrel : row_rel P d r) end.
  { apply (keeps_for_each (preserves (row_rel P d))); [|by intros k'; left]. intros [id key] d1 Hd1.
    destruct (List.find _ _) as [ea|] eqn:Hf; [|done]. apply List.find_some in Hf as [Hea%list_elem_of_In _].
    apply elem_of_where in Hea as [Hea Hp]. bools. apply Z.leb_le in H0. unfold some_or. rewrite run_ret.
    apply (leaves_tail contracts (λ T, ∀ k, T !! k = contracts d !! k
      ∨ ∃ ea ea', contracts d !! k = Some ea ∧ P ea ea' ∧ T !! k = Some ea')); [intros; apply keeps_ret, _|].
    apply save_after; [done|]. simpl. eapply (row_rel_insert P d d1 ea); [done|done| |done|done]. unfold P. eauto. }
  destruct (Hrel k) as [-> | (ea & ea' & -> & (Hg & Hst & key & ->) & ->)]; [apply mv_same|]. by eapply mv_rotated.
Qed.

(** Contracts only disappear with an account. *)
Definition fewer_contracts (d d' : DB) : Prop := contracts d' ⊆ contracts d.
#[local] Instance fewer_contracts_preorder : PreOrder fewer_contracts.
Proof. split; [intros ?; unfold fewer_contracts; done|]. intros ??? H1 H2. unfold fewer_contracts in *. by etrans. Qed.

Lemma account_deleted_moves d user : after (User_delete user) (all_move (AccountDeleted user) d) d.
Proof.
  assert (Hk : keeps fewer_contracts (User_delete user)).
  { assert (Hm : ∀ m, keeps fewer_contracts (Membership_delete m)).
    { intros m d1. unfold fewer_contracts. by rewrite (Membership_delete_same_contracts m d1). }
    unfold User_delete, Send_delete_all_by_user, Send_delete, Send_update_users_revision, EmergencyAccess_delete_all_by_user,
      EmergencyAccess_delete_all_by_grantee_email, EmergencyAccess_delete, Membership_delete_all_by_user,
      Cipher_delete_all_by_user, Cipher_delete, Cipher_update_users_revision, FolderCipher_delete_all_by_cipher,
      CollectionCipher_delete_all_by_cipher, Attachment_delete_all_by_cipher, Attachment_delete,
      Favorite_delete_all_by_cipher, Favorite_delete_all_by_user, Folder_delete_all_by_user, Folder_delete,
      FolderCipher_delete_all_by_folder, Device_delete_all_by_user, TwoFactor_delete_all_by_user,
      TwoFactorIncomplete_delete_all_by_user, Invitation_take, Invitation_delete, User_update_uuid_revision.
    db_keeps; try apply Hm; unfold fewer_contracts; simpl; first [apply delete_where_subseteq|reflexivity]. }
  specialize (Hk d). intros k. destruct (contracts (User_delete user d).2 !! k) as [r|] eqn:Hr.
  - rewrite (lookup_weaken _ _ _ _ Hr Hk). apply mv_same.
  - destruct (contracts d !! k) as [ea|]; [by eapply mv_account_deleted|apply mv_same].
Qed.
End effects.
