(* ===== verification/Histories.v ===== *)
(** Emergency access: what holds in every history.

    A history is a sequence of requests and jobs, each with its own time and
    configuration. The rest of the program may change other tables between two
    events. *)
From S2P Require Import Prelude Schema Roles Users Invariants Samples TwoFactors OneTimeCodes Sends EmergencyRows Memberships Groups Collections VaultItems Ciphers Policies Organizations Emergency Contracts.
Local Open Scope Z_scope.

Section histories.
Context `{InviteTokens, Chrono, Crypto}.

Definition void {A} (m : M DB A) : M DB () := m ;; mret ().

Definition handle `{Env} (user : User.t) (r : Request) : M DB () :=
  match r with
  | GetContacts => void (get_contacts user)
  | GetGrantees => void (get_grantees user)
  | GetOne k => void (get_emergency_access k user)
  | Update k data => void (post_emergency_access k data user)
  | Delete k => delete_emergency_access k user
  | Invite k seed data => send_invite k seed data user
  | Reinvite k => resend_invite k user
  | Accept k token => accept_invite k token user
  | Confirm k key => void (confirm_emergency_access k key user)
  | Initiate k => void (initiate_emergency_access k user)
  | Approve k => void (approve_emergency_access k user)
  | Reject k => void (reject_emergency_access k user)
  | ViewVault k => void (view_emergency_access k user)
  | TakeOver k => void (takeover_emergency_access k user)
  | SetPassword stamp token_for k data => password_emergency_access stamp token_for k data user
  | GetPolicies k => void (policies_emergency_access k user)
  end.

Definition perform `{Env} (e : Event) : M DB () :=
  match e with
  | By user r => handle user r
  | TimeoutJob => emergency_request_timeout_job
  | ReminderJob => emergency_notification_reminder_job
  | Registered user => register_accept_invitations user
  | RotateKeys user keys => rotate_emergency_keys keys user
  | AccountDeleted user => User_delete user
  end.

(** The id of a new contract is new. *)
Definition fresh (e : Event) (d : DB) : Prop :=
  match e with By _ (Invite k _ _) => contracts d !! k = None | _ => True end.

Lemma after_void {A} Q (m : M DB A) d : after m Q d → after (void m) Q d.
Proof. apply leaves_tail. intros; apply keeps_ret, _. Qed.

Lemma perform_moves `{Env} e d : keyed d → fresh e d → after (perform e) (all_move e d) d.
Proof.
  intros Hwf Hf. destruct e as [user r| | |user|user keys|user]; simpl.
  - destruct r; simpl; try apply after_void;
      first [ by apply get_contacts_moves | by apply get_one_moves | by apply update_moves | by apply delete_moves
            | by apply invite_moves | by apply reinvite_moves | by apply accept_moves | by apply confirm_moves
            | by apply initiate_moves | by apply approve_moves | by apply reject_moves | idtac ];
      (apply leaves_keeps; [|by apply all_move_same]);
      first [apply get_grantees_keeps|apply view_keeps|apply takeover_keeps|apply password_keeps|apply policies_keeps].
  - by apply timeout_job_moves.
  - by apply reminder_job_moves.
  - by apply registered_moves.
  - by apply rotated_moves.
  - apply account_deleted_moves.
Qed.

(** C2: the handlers and jobs refine the contract. Whatever a request or job
    answers, errors and panics included, every contract is left as it was or
    makes one of the steps that the state machine [moves] allows for this
    event: only the grantor confirms, approves and rejects, only the grantee
    asks for access, and only the waiting time replaces an approval. *)
Theorem handlers_refine_contract `{Env} (e : Event) (d : DB) :
  keyed d → fresh e d → all_move e d (contracts (perform e d).2).
Proof. intros Hwf Hf. by apply perform_moves. Qed.

(** ** Histories *)

Inductive reaches : list (Env * Event) → DB → Prop :=
| reaches_start d : contracts d = ∅ → reaches [] d
| reaches_event h (E : Env) e d : reaches h d → fresh e d → reaches (h ++ [(E, e)]) (perform e d).2
| reaches_other h d d' : reaches h d → contracts d' = contracts d → reaches h d'.

(** The shape of a contract in each of its states. *)
Record contract_ok (k : string) (ea : EA) : Prop := {
  ok_uuid : EmergencyAccess.uuid ea = k;
  ok_status : 0 ≤ EmergencyAccess.status ea ≤ 4;
  ok_invited : EmergencyAccess.status ea = status_of EInvited →
    EmergencyAccess.grantee_uuid ea = None ∧ is_Some (EmergencyAccess.email ea);
  ok_grantee : status_of EAccepted ≤ EmergencyAccess.status ea →
    is_Some (EmergencyAccess.grantee_uuid ea) ∧ EmergencyAccess.email ea = None;
  ok_key : status_of EConfirmed ≤ EmergencyAccess.status ea → is_Some (EmergencyAccess.key_encrypted ea);
  ok_initiated : status_of ERecoveryInitiated ≤ EmergencyAccess.status ea →
    is_Some (EmergencyAccess.recovery_initiated_at ea)
}.

Definition contracts_ok (d : DB) : Prop := map_Forall contract_ok (contracts d).

Lemma contracts_ok_keyed d : contracts_ok d → keyed d.
Proof. intros Hok k ea Hk. apply (ok_uuid k ea), Hok, Hk. Qed.

Lemma moves_ok `{Env} e k o ea' :
  moves e k o (Some ea') → (∀ ea, o = Some ea → contract_ok k ea) → contract_ok k ea'.
Proof.
  intros Hm Hok. inversion Hm; subst; clear Hm;
    try (match goal with ea : EA |- _ => destruct (Hok ea eq_refl) end);
    (split; simpl in *; intros; try lia; eauto);
    try first [apply ok_grantee0; lia|apply ok_key0; lia|apply ok_initiated0; lia].
  match goal with Hk : _ ∨ is_Some _ |- _ => destruct Hk as [->|]; [apply ok_key0; lia|done] end.
Qed.

Lemma all_move_ok `{Env} e d T :
  contracts_ok d → all_move e d T → map_Forall contract_ok T.
Proof.
  intros Hok Hm k ea Hk. pose proof (Hm k) as Hmk. rewrite Hk in Hmk. eapply moves_ok; [exact Hmk|].
  intros ea0 Hea0. by apply Hok.
Qed.

Lemma reaches_ok h d : reaches h d → contracts_ok d.
Proof.
  induction 1 as [d Hd|h E e d _ IH Hf|h d d' _ IH Hd].
  - unfold contracts_ok. rewrite Hd. apply map_Forall_empty.
  - eapply all_move_ok; [exact IH|]. apply perform_moves; [by apply contracts_ok_keyed|done].
  - unfold contracts_ok. by rewrite Hd.
Qed.

(** in every history, every contract is in one of its five states, an
    open invitation names an address and no account, an accepted contract names
    an account, a confirmed one holds a key, and a requested one the time of
    the request (so the [unwrap] of the jobs does not fail). *)
Theorem contracts_well_formed (h : list (Env * Event)) (d : DB) : reaches h d → map_Forall contract_ok (contracts d).
Proof. apply reaches_ok. Qed.

(** ** Decisions *)

(** The grantee asked for access at time [t] in history [h]. *)
Definition requested (h : list (Env * Event)) (k grantee : string) (t : Z) : Prop :=
  ∃ pre E user post, h = pre ++ (E, By user (Initiate k)) :: post ∧ User.uuid user = grantee ∧ t = now (Env := E).

(** In history [h], the request of [grantee] on [k] was decided: the grantor
    approved it, or a job found the waiting time of the contract elapsed. *)
Definition decided (h : list (Env * Event)) (k grantor grantee : string) : Prop :=
  ∃ pre E e post t,
    h = pre ++ (E, e) :: post ∧ requested pre k grantee t
    ∧ ((∃ user, e = By user (Approve k) ∧ User.uuid user = grantor)
       ∨ (e = TimeoutJob ∧ ∃ d0 ea0, reaches pre d0 ∧ contracts d0 !! k = Some ea0
            ∧ EmergencyAccess.grantor_uuid ea0 = grantor ∧ t + EmergencyAccess.wait_time_days ea0 * DAY ≤ now (Env := E))).

Lemma requested_app h h' k g t : requested h k g t → requested (h ++ h') k g t.
Proof.
  intros (pre & E & user & post & -> & Hg & Ht). exists pre, E, user, (post ++ h').
  split_and!; [|done..]. by rewrite <- (assoc_L (++)), <- app_comm_cons.
Qed.
Lemma decided_app h h' k r g : decided h k r g → decided (h ++ h') k r g.
Proof.
  intros (pre & E & e & post & t & -> & Hr & Hd). exists pre, E, e, (post ++ h'), t.
  split_and!; [|done..]. by rewrite <- (assoc_L (++)), <- app_comm_cons.
Qed.

(** What the state of a contract says about its history. *)
Definition explained (h : list (Env * Event)) (k : string) (ea : EA) : Prop :=
  ∀ g, EmergencyAccess.grantee_uuid ea = Some g →
  (EmergencyAccess.status ea = status_of ERecoveryInitiated →
     ∃ t, EmergencyAccess.recovery_initiated_at ea = Some t ∧ requested h k g t)
  ∧ (EmergencyAccess.status ea = status_of ERecoveryApproved → decided h k (EmergencyAccess.grantor_uuid ea) g).

(** A step that keeps parties, state and request time explains as before. *)
Lemma explained_same h h' k ea ea' :
  EmergencyAccess.grantor_uuid ea' = EmergencyAccess.grantor_uuid ea →
  EmergencyAccess.grantee_uuid ea' = EmergencyAccess.grantee_uuid ea →
  EmergencyAccess.status ea' = EmergencyAccess.status ea →
  EmergencyAccess.recovery_initiated_at ea' = EmergencyAccess.recovery_initiated_at ea →
  explained h k ea → explained (h ++ h') k ea'.
Proof.
  intros Hr Hg Hs Ht Hex g Hg'. rewrite Hg in Hg'. destruct (Hex g Hg') as [H1' H2']. rewrite Hr, Hs, Ht. split.
  - intros Hst. destruct (H1' Hst) as (t & Htt & Hreq). exists t. split; [done|]. by apply requested_app.
  - intros Hst. by apply decided_app, H2'.
Qed.

(** States before a request explain nothing. *)
Lemma explained_early h k ea : EmergencyAccess.status ea ≤ status_of EConfirmed → explained h k ea.
Proof. intros Hs g _. split; intros Hst; rewrite Hst in Hs; by vm_compute in Hs. Qed.

Lemma moves_explained h (E : Env) e d k o ea' :
  reaches h d → contracts d !! k = o → moves e k o (Some ea') →
  (∀ ea, o = Some ea → explained h k ea) → explained (h ++ [(E, e)]) k ea'.
Proof.
  intros Hr Hk Hm Hex. inversion Hm; subst; clear Hm.
  all: try (by eapply explained_same; [..|by apply Hex]).
  all: try (by apply explained_early).
  - (* request *)
    intros g Hg. simpl in *. split; [|done]. intros _. exists now. split; [done|].
    exists h, E, user, []. split_and!; [done|congruence|done].
  - (* approval *)
    intros g Hg. simpl in *. split; [done|]. intros _. destruct (Hex ea ltac:(done) g Hg) as [Hreq _].
    destruct (Hreq ltac:(done)) as (t & _ & Hreq'). exists h, E, (By user (Approve k)), [], t.
    split_and!; [done..|]. left. eauto.
  - (* the waiting time *)
    intros g Hg. simpl in *. split; [done|]. intros _. destruct (Hex ea ltac:(done) g Hg) as [Hreq _].
    destruct (Hreq ltac:(done)) as (t' & Ht' & Hreq'). assert (t' = t) as -> by congruence. exists h, E, TimeoutJob, [], t.
    split_and!; [done..|]. right. split; [done|]. exists d, ea. done.
Qed.

Lemma reaches_explained h d : reaches h d → map_Forall (explained h) (contracts d).
Proof.
  induction 1 as [d Hd|h E e d Hr IH Hf|h d d' _ IH Hd].
  - rewrite Hd. apply map_Forall_empty.
  - intros k ea' Hk. assert (Hm : all_move e d (contracts (perform e d).2)).
    { apply perform_moves; [|done]. by apply contracts_ok_keyed, (reaches_ok h). }
    specialize (Hm k). rewrite Hk in Hm. eapply moves_explained; [exact Hr|done|exact Hm|].
    intros ea Hea. by apply IH.
  - by rewrite Hd.
Qed.

(** The requests of a grantee that open the account of the grantor. *)
Definition opens `{Env} (k : string) (user : User.t) (d : DB) : Prop :=
  (∃ r, (view_emergency_access k user d).1 = Ok r) ∨ (∃ r, (takeover_emergency_access k user d).1 = Ok r)
  ∨ (∃ stamp token_for data, (password_emergency_access stamp token_for k data user d).1 = Ok ())
  ∨ (∃ r, (policies_emergency_access k user d).1 = Ok r).

(** A lookup and the check of the request stand before every answer. *)
Lemma valid_request_Ok {A} `{Env} k user type d (f : EA → M DB A) r :
  keyed d →
  ((o ← gets (EmergencyAccess_find_by_uuid_and_grantee_uuid k (User.uuid user));
    ea ← some_or o "Emergency access not valid.";
    if negb (is_valid_request ea (User.uuid user) type) then err "Emergency access not valid." else f ea) d).1 = Ok r →
  ∃ ea, contracts d !! k = Some ea ∧ EmergencyAccess.grantee_uuid ea = Some (User.uuid user)
    ∧ EmergencyAccess.status ea = status_of ERecoveryApproved ∧ EmergencyAccess.atype ea = EmergencyAccessType_as_i32 type.
Proof.
  intros Hwf. rewrite run_gets. destruct (EmergencyAccess_find_by_uuid_and_grantee_uuid _ _ _) as [ea|] eqn:Hf; [|done].
  unfold some_or. rewrite run_ret. destruct (is_valid_request ea (User.uuid user) type) eqn:Hv; [|done]. intros _.
  destruct (find_by_uuid_Some _ _ _ _ Hwf Hf) as (Hk & _ & _). exists ea. unfold is_valid_request in Hv. bools. done.
Qed.

Lemma opens_approved `{Env} k user d :
  keyed d → opens k user d →
  ∃ ea, contracts d !! k = Some ea ∧ EmergencyAccess.grantee_uuid ea = Some (User.uuid user)
    ∧ EmergencyAccess.status ea = status_of ERecoveryApproved.
Proof.
  assert (Hen : ∀ A (m : () → M DB A) r, ((check_emergency_access_enabled ≫= m) d).1 = Ok r → (m () d).1 = Ok r).
  { intros A m r. unfold check_emergency_access_enabled. by destruct emergency_access_allowed. }
  intros Hwf [[r Ho]|[[r Ho]|[(stamp & token_for & data & Ho)|[r Ho]]]]; [apply Hen in Ho..|];
    apply valid_request_Ok in Ho as (ea & Hk & Hg & Hs & _); eauto.
Qed.

(** C1: in every history, a request that opens the account of a grantor is
    answered only to the grantee of the contract, and only after the grantee
    asked for access and this request was decided: the grantor approved it, or
    the waiting time of the contract had passed since the request. *)
Theorem emergency_access_needs_decision (h : list (Env * Event)) (d : DB) `{Env} (k : string) (user : User.t) :
  reaches h d → opens k user d →
  ∃ ea, contracts d !! k = Some ea ∧ EmergencyAccess.grantee_uuid ea = Some (User.uuid user)
    ∧ decided h k (EmergencyAccess.grantor_uuid ea) (User.uuid user).
Proof.
  intros Hr Ho. destruct (opens_approved k user d) as (ea & Hk & Hg & Hs); [by apply contracts_ok_keyed, (reaches_ok h)|done|].
  exists ea. split_and!; [done..|]. by apply (reaches_explained h d Hr k ea Hk).
Qed.
End histories.

(** ** The timeout job *)

Section timeout.
Context `{E : Env, Chrono}.

(** The waiting time of a contract ends at a date that chrono can represent. *)
Definition in_range (ea : EA) : Prop :=
  ∀ t, EmergencyAccess.recovery_initiated_at ea = Some t →
    naive_min ≤ t + EmergencyAccess.wait_time_days ea * DAY ≤ naive_max.

Definition account (uuid : string) (d : DB) : Prop := ∃ u, u ∈ rows (users d) ∧ User.uuid u = uuid.

(** Mails can be sent, and the parties of a contract exist. *)
Definition mails_work (ea : EA) (d : DB) : Prop :=
  mail_enabled = true →
    (∀ template address, send_mail template address = Ok ()) ∧ account (EmergencyAccess.grantor_uuid ea) d
    ∧ ∀ g, EmergencyAccess.grantee_uuid ea = Some g → account g d.

Lemma account_found uuid d : account uuid d → ∃ u, User_find_by_uuid uuid d = Some u.
Proof.
  intros (u & Hu & Huu). unfold User_find_by_uuid, first. destruct (where_ _ _) as [|v l] eqn:Hl; [|by exists v].
  exfalso. assert (Hin : u ∈ where_ (λ u, User.uuid u == uuid) (rows (users d))).
  { apply elem_of_where. split; [done|]. by apply bool_decide_true. }
  rewrite Hl in Hin. by apply not_elem_of_nil in Hin.
Qed.

Lemma account_touched uuid g d : account uuid d → account uuid (User_update_uuid_revision g d).2.
Proof.
  intros (u & [k Hk]%elem_of_rows & Hu). unfold account. simpl. unfold update_where.
  eexists. split; [apply elem_of_rows; exists k; by rewrite lookup_fmap, Hk|]. simpl. by case_match.
Qed.

(** One contract: the job goes on, and approves it if its time has come. *)
Lemma timeout_one_total ea d :
  initiated ea → is_Some (EmergencyAccess.recovery_initiated_at ea) → is_Some (EmergencyAccess.grantee_uuid ea) →
  in_range ea → mails_work ea d →
  ∃ d', timeout_one ea d = (Ok (), d') ∧ (∀ x, account x d → account x d')
    ∧ (contracts d' = contracts d ∧ ¬ elapsed ea
       ∨ contracts d' = update_where (λ r, EmergencyAccess.uuid r == EmergencyAccess.uuid ea) timed_out (contracts d)).
Proof.
  intros Hst [t Ht] [g Hg] Hr Hm. specialize (Hr t Ht). unfold timeout_one. rewrite Ht. unfold expect at 1. rewrite run_ret.
  assert (Hp : plus_days t (EmergencyAccess.wait_time_days ea) d = (Ok (t + EmergencyAccess.wait_time_days ea * DAY), d)).
  { unfold plus_days. by rewrite (proj2 (Z.leb_le _ _) (proj1 Hr)), (proj2 (Z.leb_le _ _) (proj2 Hr)). }
  rewrite (run_bind_Ok _ _ _ _ _ Hp). destruct (_ <=? now) eqn:Hnow.
  - set (d1 := set_emergency_access (update_where (λ r, EmergencyAccess.uuid r == EmergencyAccess.uuid ea) timed_out)
      (User_update_uuid_revision g d).2).
    assert (Hacc : ∀ x, account x d → account x d1) by (intros x Hx; by apply account_touched).
    assert (Hw : EmergencyAccess_update_access_status_and_save (status_of ERecoveryApproved) now ea d = (Ok (), d1)).
    { unfold EmergencyAccess_update_access_status_and_save. by rewrite Hg. }
    unfold when at 1. rewrite (run_bind_Ok _ _ _ _ _ Hw).
    exists d1. split_and!; [|done|by right]. destruct mail_enabled eqn:Hmail; [|done]. destruct (Hm Hmail) as (Hsend & Hgr & Hge).
    destruct (account_found (EmergencyAccess.grantor_uuid ea) d1) as [u1 Hu1]; [by apply Hacc|].
    destruct (account_found g d1) as [u2 Hu2]; [by apply Hacc, Hge|].
    unfold when, job_accounts, job_mail. unfold expect, mbind, M_bind, gets, mret, M_ret. rewrite Hu1, Hg, Hu2, !Hsend. done.
  - exists d. split_and!; [done..|]. left. split; [done|]. intros [_ (t' & Ht' & Hle)]. simplify_eq.
    apply Z.leb_gt in Hnow. lia.
Qed.

(** Once approved, a contract stays approved for the rest of the run. *)
Lemma timed_out_stays k r u (T : gmap string EA) :
  T !! k = Some (timed_out r) →
  update_where (λ r, EmergencyAccess.uuid r == u) timed_out T !! k = Some (timed_out r).
Proof. intros Hk. unfold update_where. rewrite lookup_fmap, Hk. simpl. by case_match. Qed.

Lemma timeout_loop l d :
  (∀ ea, ea ∈ l → initiated ea ∧ is_Some (EmergencyAccess.recovery_initiated_at ea)
    ∧ is_Some (EmergencyAccess.grantee_uuid ea) ∧ in_range ea ∧ mails_work ea d) →
  ∃ d', for_each l timeout_one d = (Ok (), d')
    ∧ ∀ k r, contracts d !! k = Some r ∧ EmergencyAccess.uuid r = k ∧ r ∈ l ∧ elapsed r
             ∨ contracts d !! k = Some (timed_out r) → contracts d' !! k = Some (timed_out r).
Proof.
  revert d. induction l as [|ea l IH]; intros d Hl; simpl.
  { exists d. split; [done|]. by intros k r [(_ & _ & ?%not_elem_of_nil & _)|?]. }
  destruct (Hl ea) as (H1 & H2 & H3 & H4 & H5); [left|].
  destruct (timeout_one_total ea d H1 H2 H3 H4 H5) as (d1 & Hd1 & Hacc & Hc).
  rewrite (run_bind_Ok _ _ _ _ _ Hd1). destruct (IH d1) as (d2 & Hd2 & Hall).
  { intros r Hr. destruct (Hl r) as (? & ? & ? & ? & Hm); [by right|]. split_and!; [done..|].
    intros Hon. destruct (Hm Hon) as (Ha & Hb & Hc'). split_and!; [done|by apply Hacc|]. intros g Hg. by apply Hacc, Hc'. }
  exists d2. split; [done|]. intros k r Hkr. apply Hall.
  destruct Hkr as [(Hk & Hu & Hin & He)|Hk].
  - destruct Hc as [[Hc Hno]|Hc]; rewrite Hc.
    + apply elem_of_cons in Hin as [->|Hin]; [done|]. by left.
    + unfold update_where. rewrite lookup_fmap, Hk. simpl. case_bool_decide as Hb; [by right|].
      apply elem_of_cons in Hin as [->|Hin]; [done|]. by left.
  - right. destruct Hc as [[-> _]| ->]; [done|]. by apply timed_out_stays.
Qed.

(** the timeout job approves every request whose waiting time has passed,
    as long as every waiting time ends at a representable date and, when mail is
    on, the mails go out. *)
Theorem timeout_job_approves (d : DB) :
  contracts_ok d → emergency_access_allowed = true →
  (∀ ea, ea ∈ EmergencyAccess_find_all_recoveries_initiated d → in_range ea ∧ mails_work ea d) →
  ∃ d', emergency_request_timeout_job d = (Ok (), d')
    ∧ ∀ k ea, contracts d !! k = Some ea → elapsed ea → contracts d' !! k = Some (timed_out ea).
Proof.
  intros Hok Hon Hall. unfold emergency_request_timeout_job. rewrite Hon. simpl. rewrite run_gets.
  destruct (timeout_loop (EmergencyAccess_find_all_recoveries_initiated d) d) as (d' & Hd' & Hdone).
  { intros ea Hea. destruct (Hall ea Hea) as [Hr Hm]. apply elem_of_where in Hea as [[k Hk]%elem_of_rows Hp]. bools.
    destruct (Hok k ea Hk) as [_ _ _ Hg _ Hi]. split_and!; try done. apply Hg. by rewrite H0. }
  exists d'. split; [done|]. intros k ea Hk He. apply Hdone. left. split_and!; [done|by apply (Hok k ea)| |done].
  apply elem_of_where. split; [apply elem_of_rows; eauto|]. destruct He as (Hs & t & Ht & _). rewrite Hs, Ht.
  by rewrite !bool_decide_true.
Qed.

(** the waiting time is not checked when a contract is made. If the first
    request that the job reads ends beyond chrono's last date, the job panics
    on it and approves nothing, however long other grantees have waited. *)
Theorem one_contract_blocks_timeout_job (d : DB) (ea : EA) (others : list EA) (t : Z) :
  emergency_access_allowed = true → EmergencyAccess_find_all_recoveries_initiated d = ea :: others →
  EmergencyAccess.recovery_initiated_at ea = Some t → naive_max < t + EmergencyAccess.wait_time_days ea * DAY →
  ∃ e, emergency_request_timeout_job d = (Err e, d).
Proof.
  intros Hon Hl Ht Hmax. unfold emergency_request_timeout_job. rewrite Hon. simpl. rewrite run_gets, Hl. simpl.
  unfold timeout_one. rewrite Ht. unfold expect, mbind, M_bind, mret, M_ret, plus_days.
  rewrite (proj2 (Z.leb_gt _ _) Hmax), andb_false_r. eauto.
Qed.
End timeout.

(** ** Witnesses *)

Module SampleContracts.
Local Open Scope string_scope.

Definition tokens : InviteTokens := {| decode_emergency_access_invite := λ _, Err (MkError 400 "no token") |}.
(** The first and last microsecond of chrono's [NaiveDateTime]. *)
Definition chrono : Chrono := {| naive_min := -8334601315200 * 1000000; naive_max := 8210266876800 * 1000000 - 1 |}.
Definition crypto : Crypto := {| pbkdf2 := λ secret salt n, (secret ++ salt ++ [n])%list |}.

(** The deployment without mail, at time [t]. *)
Definition at_time (t : Z) : Env := set_now (λ _, t) (set_mail_enabled (λ _, false) Sample.env).

Definition alice : User.t := Sample.user Sample.env "alice" "a@x".
Definition bob : User.t := User.set_password_hash (λ _, [1]) (Sample.user Sample.env "bob" "b@x").

(** The accounts of alice and bob, no contracts. *)
Definition start : DB := set_users <["bob" := bob]> Sample.db.

(** Alice makes bob her contact for takeover after seven days; bob asks for
    access on day 1, the job runs on day 8. *)
Definition story : list (Env * Event) :=
  [ (at_time 0, By alice (Invite "c" (MkSeed "new" "stamp" [])
                            (EmergencyAccessInviteData.mk "b@x" (Number 1) 7)));
    (at_time 1, By alice (Confirm "c" "key"));
    (at_time DAY, By bob (Initiate "c"));
    (at_time (8 * DAY), TimeoutJob) ].

#[local] Existing Instances tokens chrono crypto.

Fixpoint play (h : list (Env * Event)) (d : DB) : DB :=
  match h with [] => d | (E, e) :: h => play h (perform (H := tokens) e d).2 end.

Fixpoint all_fresh (h : list (Env * Event)) (d : DB) : Prop :=
  match h with [] => True | (E, e) :: h => fresh e d ∧ all_fresh h (perform (H := tokens) e d).2 end.

Lemma play_reaches h h' d : reaches h d → all_fresh h' d → reaches (h ++ h')%list (play h' d).
Proof.
  revert h d. induction h' as [|[E e] h' IH]; intros h d Hr Hf; simpl in *; [by rewrite app_nil_r|].
  destruct Hf as [Hf Hf']. rewrite (cons_middle (E, e) h h'), (assoc_L (++)). apply IH; [|done]. by apply reaches_event.
Qed.

Definition final : DB := play story start.

Lemma story_reaches : reaches story final.
Proof. apply (play_reaches [] story start); [by apply reaches_start|]. vm_compute. split_and!; done. Qed.
End SampleContracts.

#[local] Existing Instances SampleContracts.tokens SampleContracts.chrono SampleContracts.crypto.
Import SampleContracts.
Local Open Scope string_scope.

Lemma handlers_refine_contract_witness :
  all_move (E := at_time 0) (By alice (Delete "c")) final (contracts (perform (H2 := at_time 0) (By alice (Delete "c")) final).2).
Proof. apply handlers_refine_contract; [by apply contracts_ok_keyed, (reaches_ok story), story_reaches|done]. Defined.

Lemma contracts_well_formed_witness : map_Forall contract_ok (contracts final).
Proof. apply (contracts_well_formed story), story_reaches. Defined.

Lemma emergency_access_needs_decision_witness :
  ∃ ea, contracts final !! "c" = Some ea ∧ EmergencyAccess.grantee_uuid ea = Some "bob"
    ∧ decided story "c" (EmergencyAccess.grantor_uuid ea) "bob".
Proof.
  apply (emergency_access_needs_decision (H2 := at_time (9 * DAY)) story final "c" bob); [apply story_reaches|].
  right; left. eexists. by vm_compute.
Defined.

(** Before the job: bob waits. *)
Definition waiting : DB := play (take 3 story) start.

Lemma waiting_reaches : reaches (take 3 story) waiting.
Proof. apply (play_reaches [] (take 3 story) start); [by apply reaches_start|]. vm_compute. split_and!; done. Qed.

(** The contract that waits. *)
Definition bob_waits : EA :=
  EmergencyAccess.mk "c" "alice" (Some "bob") None (Some "key") 1 3 7 (Some DAY) (Some DAY) DAY 0.

Lemma waiting_rows : EmergencyAccess_find_all_recoveries_initiated waiting = [bob_waits].
Proof. by vm_compute. Qed.

Lemma timeout_job_approves_witness :
  ∃ d', emergency_request_timeout_job (E := at_time (8 * DAY)) waiting = (Ok (), d')
    ∧ ∀ k ea, contracts waiting !! k = Some ea → elapsed (E := at_time (8 * DAY)) ea →
        contracts d' !! k = Some (timed_out (E := at_time (8 * DAY)) ea).
Proof.
  apply (timeout_job_approves (E := at_time (8 * DAY)) waiting); [apply (reaches_ok (take 3 story)), waiting_reaches|done|].
  intros ea Hea. rewrite waiting_rows in Hea. apply list_elem_of_singleton in Hea as ->. split; [|done].
  intros t Ht. injection Ht as <-. split; by vm_compute.
Defined.

(** A second contract, with the longest waiting time that fits the column. *)
Definition endless : EA :=
  EmergencyAccess.mk "g" "eve" (Some "alice") None (Some "key") 1 3 (2 ^ 31 - 1) (Some 0) (Some 0) 0 0.
Definition blocked : DB := set_emergency_access <["g" := endless]> waiting.

Lemma one_contract_blocks_timeout_job_witness :
  ∃ e, emergency_request_timeout_job (E := at_time (1000 * DAY)) blocked = (Err e, blocked).
Proof.
  eapply (one_contract_blocks_timeout_job (E := at_time (1000 * DAY)) blocked endless [bob_waits] 0);
    [done|by vm_compute|done|by vm_compute].
Defined.
